(* ===== verification/_CoqProject ===== *)
-Q . S2P
Prelude.v
Frame.v
Strings.v
Printf.v
Riscv.v
Kalloc.v
VM.v
PageTable.v
PageTableOps.v
KernelMap.v
Space.v
Cow.v
Lazy.v
UserCopy.v
Vma.v
Spinlock.v
Sleeplock.v
Pipe.v
Bio.v
File.v
Fat.v
FatProps.v
Calendar.v
FatNames.v
FatFile.v
FatFileProps.v
FatDir.v
FatDirProps.v
ProcDefs.v
Console.v
Proc.v
FirstProc.v
ProcProps.v
ProcLife.v
Syscall.v
Shm.v
Sysfile.v
SysfileProps.v
Exec.v
ExecProps.v
Sysproc.v
Trap.v
Shell.v
ShellProps.v
Umalloc.v
Virtio.v
Uart.v
Grep.v
Ulib.v
Policy.v
UserProgs.v
Sdcard.v
Plic.v
VirtioInit.v
Regs.v
Sysctl.v
Dmac.v
FpioaTable.v
Pins.v
Spi.v
SpiDma.v
Boot.v
Mount.v
Dumps.v
Commands.v
