(* ===== verification/Prelude.v ===== *)
(** * A verification development for the xv6-k210 system

    xv6-k210 is a port of the teaching kernel xv6 to the K210 RISC-V board and
    to QEMU, extended with copy-on-write fork, lazy allocation, mmap, signals,
    a multi-level feedback queue, shared memory, a system-call sandbox and a
    FAT32 file system with a FAT cache.  This library models the C code of the
    kernel (src/kernel) and of the user programs with logic of their own
    (src/xv6-user) as executable functions and proves what makes each part
    correct.  Where macros differ the QEMU configuration is the one modelled;
    the SD card of the K210 and the drivers below it are modelled too.

    ** How C is translated

    - Integers are [Z] with the wrap-around of their C type written out ([u64],
      [u32], [i32]); flags use [Z.land], [Z.lor], [Z.shiftl], [Z.shiftr].
    - Physical memory is one map from addresses to bytes ([memory]).  The free
      list of the allocator, page tables, trapframes and user pages all live in
      it, so aliasing between them is the aliasing of the code.
    - A function that changes state is a computation of the state and error
      monad [M]: it returns [Ok] with a result and a new state, or [Panic] with
      the message of the kernel's [panic].  Error returns (-1, NULL) are values.
    - A pointer into an array of structs is an index; NULL is 0 or -1, as each
      file says.
    - Code that runs under one spin lock is one step.  Where the order of steps
      matters (spin locks themselves, sleep locks, pipes, the console, the disk
      and serial drivers, the process table) a step relation interleaves harts,
      processes, interrupts or devices, and the theorems are invariants of every
      reachable state.
    - Code that sleeps ends the step with the process marked asleep; the loop
      around [sleep] is entered again when it runs.
    - Components meet at interfaces (type classes with their laws): [FileRefs],
      [Backend], [Sectors], [UserMem], [SpiCard]; a client is proved against the
      interface and the component behind it is an instance.

    ** Files: the kernel

    - Prelude.v: integers, the monad and its notations, memory as bytes,
      tactics and shared lemmas.  Frame.v: what a computation leaves alone.
    - Strings.v: string.c; the block operations [fill] and [blit] used elsewhere
      are what [memset] and [memmove] compute.  Printf.v: printf.c of the kernel
      and of user programs, and atoi.
    - Riscv.v: the page and PTE macros of riscv.h, the layout of memlayout.h;
      the symbols of the linker script are the class [Layout].
    - Kalloc.v: kalloc.c.  [kinit], [kalloc], [kfree] with reference counts; the
      invariant ties the list in memory to the counts.
    - VM.v: the definitions of vm.c.  PageTable.v gives a table in memory its
      meaning (the entry an address resolves to) and PageTableOps.v proves
      [walk], [mappages] and [vmunmap] against it.  KernelMap.v proves that
      [kvminit] builds the kernel's table and counts the pages it takes; Space.v
      has several tables and data pages side by side in one memory.  Cow.v proves fork's sharing
      and the copy at the first write, Lazy.v the allocation on first touch,
      UserCopy.v [copyin], [copyout] and [copyinstr].
    - Vma.v: vma.c, over the interface [FileRefs] that File.v implements.
    - Spinlock.v, Sleeplock.v: spinlock.c, intr.c, sleeplock.c as concurrent
      steps.  Pipe.v: pipe.c as a bounded queue shared by readers and writers.
      Console.v: the line editor of console.c.  Uart.v: uart.c.
    - Bio.v: bio.c over an abstract disk; the LRU list is a doubly linked ring.
      Virtio.v: virtio_disk.c, whose requests make the transfers Bio.v assumes.
      VirtioInit.v: the register handshake that sets the device up.  Sdcard.v:
      sdcard.c, which makes the transfers on the board, over the interface
      [SpiCard].
    - Spi.v: spi.c without DMA, over a controller with its frame queues; it
      implements [SpiCard].  SpiDma.v: the transfers of spi.c with DMA, which
      implement it too.  Dmac.v: dmac.c, the programming of a channel and the
      wait for its interrupt.  Sysctl.v: the clock gates and request lines of
      sysctl.c.  Regs.v: bit fields of registers.  FpioaTable.v: the enumeration
      and the configuration table of fpioa.c.  Pins.v: the rest of fpioa.c,
      gpiohs.c and utils.c.  Plic.v: plic.c and the external branch of [devintr]
      in trap.c, over the real handlers of Console.v and Virtio.v.
    - File.v: file.c, over the interface [Backend] of pipes, directory entries
      and devices.
    - Fat.v, FatProps.v: the FAT layer of fat32.c over the interface [Sectors],
      which Bio.v implements.  FatNames.v: long and short names.  FatFile.v,
      FatFileProps.v: file contents over the interface [UserMem].  FatDir.v,
      FatDirProps.v: the entry cache, directories and path lookup.
      Calendar.v: the calendar of timer.c and the FAT time stamps.
    - ProcDefs.v, Proc.v, ProcProps.v, ProcLife.v: proc.c.  The kernel state
      [kern] has the process table, the memory of Kalloc.v and, as a parameter
      with its interfaces, the open files and directory entries.  FirstProc.v:
      the address space [userinit] builds.
    - Boot.v: main.c.  The state [board] is made of the states of the components,
      and [main] runs their initialisation on two harts.  Mount.v: [forkret], the
      mounting of the volume by the first process and the way to user mode.
    - Syscall.v: syscall.c and sandbox.c.  Sysproc.v: sysproc.c.  Shm.v: shm.c.
      Sysfile.v, SysfileProps.v: sysfile.c, where the interfaces of the file
      code get their instances.  Exec.v, ExecProps.v: exec.c.  Trap.v: trap.c
      and the timer tick.  Dumps.v: what the kernel prints about itself, page
      tables, registers, system calls and panics.

    ** Files: user programs

    - Shell.v, ShellProps.v: sh.c.  Umalloc.v: umalloc.c.  Ulib.v: ulib.c.
    - Grep.v: grep.c.  Policy.v: sandbox.c, tied to the check in Syscall.v.
      UserProgs.v: the working parts of wc.c, xargs.c, mv.c, ls.c and find.c.
      Commands.v: cat, echo, grep, wc, rm, mkdir, kill, sleep and rtc from [main]
      to [exit], and init as a state machine.

    ** What the theorems show

    - Memory: no page is lost or handed out twice by any sequence of allocator
      calls; mapping and unmapping change exactly the requested entries; fork
      shares frames read-only and counts them, a later write reaches a private
      copy only, and no other address space can tell; a fault gives a zeroed
      page inside the process's size and kills the process outside it; bytes
      copied to user memory and back are the same.
    - Boot: with 27 free pages and a disk both harts reach the scheduler in
      every interleaving, hart 1 never before everything is initialised; then
      each component is in the initial state its own theorems start from, the
      kernel's table maps its regions and nothing else, nothing is writable and
      executable, and the first process is ready to run.  The first process to
      leave the scheduler mounts the volume whose boot sector is on the disk, and
      every process then reaches user mode at its saved program counter.
    - Regions: mmap regions stay aligned and disjoint, lookups see exactly
      them, the search for a free range terminates, file references balance.
    - Concurrency: mutual exclusion of spin locks with interrupts off inside
      critical sections, sleep locks and pipes that lose no wakeup, a pipe and a
      serial line that are FIFOs under every interleaving, a console that is a
      line discipline.
    - Storage: a request to the virtio disk makes exactly one transfer, of the
      right sector in the right direction, and no sleeper is forgotten; a sector
      written to an SD card reads back, and the SPI transfers move its bytes as
      the card driver assumes, with and without DMA; reading and writing through the buffer
      cache is reading and writing the disk; FAT entries read through the FAT
      cache are those on the disk, writes change one entry, allocation takes the
      first free cluster; what is written to a file is read back; names survive
      their encoding and lookups find exactly the entries of a directory.
    - Devices: an external interrupt runs the handler of its source and is
      completed; the virtio handshake accepts the offered features less those
      the driver declines, and sets queue 0 only; the pins of the card end up with its functions and nothing else
      has them; a DMA channel is programmed with the transfer asked for and
      started, and no other channel changes; gating a clock changes that clock and its bus only.
    - Processes: pids are unique and the queue levels in range in every
      reachable state; fork, exit and wait have their table effects and nothing
      else, and a parent asleep in wait is handed its dead child; the scheduler
      runs the best level present and slices and demotes as configured; exec
      either leaves the process as it was or switches to the loaded image.
    - System calls: a sandboxed process never runs a call outside its
      allow-list; sbrk, mmap and signal delivery behave as specified; every file
      call keeps descriptors and reference counts balanced.
    - User programs: the shell's parser ends, inverts printing and wires the
      descriptors of a command line as written; the allocator's blocks never
      overlap; grep decides the language of its patterns; the sandbox command
      allows exactly the calls its policy names; find stays inside its buffer;
      cat, grep and wc treat their files in order whatever pieces [read] delivers;
      init starts a new shell whenever the old one is reaped.
    - Some theorems and examples prove defects found on the way (among them the
      freed parent frame on a failed fork, a lost frame in [cow_alloc],
      [kill(0)], a panic inside [printf] that prints nothing, handlers abandoned at the next trap, a user fault that panics
      the kernel, the stale FAT cache after [alloc_clus] that reaches file
      contents, shared memory that maps frames it does not own, pages above the
      process size that panic [freewalk], the unterminated path of mv, the line
      reader of xargs that writes past its buffer, the completion interrupt of a
      DMA channel that is lost between test and sleep, the receive loop that
      waits for frames the controller dropped); they stand next to the
      correctness theorems of the operation.

    ** Fuel

    Loops over arrays, lists and page ranges are structural, and a bounded retry
    loop recurses on the code's own counter.  [walk] descends three levels.  The
    other loops take fuel, and the theorems show it is enough: the number of
    pages for [mappages]; the buffers and one for [scan] in Bio.v; the regions
    and one for [find_down]; the bytes moved for [rw_loop] and [io_loop]; the
    clusters of the chain for [trunc_loop]; the slots of the directory for
    [enext_loop], [dirlookup_loop], [dirnext_loop]; the path's length for
    [lookup_loop] and the depth for [cwd_loop]; the days for [month_loop]; the
    digits of the type for [int_digits]; the line's length for the shell's
    parser; the length of the free list for [free_find] and twice that for
    [malloc_loop]; [NUM] rounds for [intr_loop] and [free_chain]; the input's
    length for [grep_loop], [cat] and [wc_blocks]; the 256 frames a page can hold
    for [backtrace_loop]; for the polling loops
    of Spi.v some amount is shown to suffice on a controller that makes progress
    between polls; the delay of the reset for [dmac_init]; unbounded string scans take their fuel from the
    caller.

    ** Not modelled

    The assembly files (the register switch, the trap entry and exit); the TLB and
    the memory ordering between harts; the console dump [vma_debug]; user programs that are
    tests or print what a system call
    returns. *)
From stdpp Require Import prelude list strings.
From Stdlib Require Import ZArith Lia.
Open Scope Z_scope.

(** ** Fixed-width integers

    A [w]-bit unsigned C integer is a [Z] kept in range by an explicit
    reduction; [i32] is the two's-complement reading used for C's [int]. *)
Definition u64 (x : Z) : Z := x mod 2 ^ 64.
Definition u32 (x : Z) : Z := x mod 2 ^ 32.
Definition u16 (x : Z) : Z := x mod 2 ^ 16.
Definition u8 (x : Z) : Z := x mod 2 ^ 8.
Definition i32 (x : Z) : Z := (x + 2 ^ 31) mod 2 ^ 32 - 2 ^ 31.

(** [c && flag] in a C condition. *)
Definition has (x flag : Z) : bool := negb (Z.land x flag =? 0).

(** ** Kernel computations: state passing with [panic]

    A kernel function either returns a value and the new state or panics;
    [panic] never returns (kernel/printf.c), so no state follows it. *)
Inductive outcome (S A : Type) : Type :=
| Ok (a : A) (s : S)
| Panic (msg : string).
Arguments Ok {S A} a s.
Arguments Panic {S A} msg.

Definition M (S A : Type) : Type := S → outcome S A.

Definition mretM {S A} (a : A) : M S A := λ s, Ok a s.
Definition mbindM {S A B} (c : M S A) (k : A → M S B) : M S B :=
  λ s, match c s with Ok a s' => k a s' | Panic e => Panic e end.
Definition panic {S A} (e : string) : M S A := λ _, Panic e.
Definition gets {S A} (f : S → A) : M S A := λ s, Ok (f s) s.
Definition modify {S} (f : S → S) : M S unit := λ s, Ok tt (f s).
Definition whenM {S} (b : bool) (c : M S unit) : M S unit :=
  if b then c else mretM tt.

(** [for] loops over an index list: plain, and with early exit (the body
    returns [false] to [break]). *)
Fixpoint forM {S} (l : list Z) (f : Z → M S unit) : M S unit :=
  match l with
  | [] => mretM tt
  | i :: l => mbindM (f i) (λ _, forM l f)
  end.
Fixpoint for_breakM {S} (l : list Z) (f : Z → M S bool) : M S unit :=
  match l with
  | [] => mretM tt
  | i :: l => mbindM (f i) (λ go, if (go : bool) then for_breakM l f else mretM tt)
  end.

(** Run a computation on a component of a larger state. *)
Definition zoom {S T A} (get : S → T) (set : T → S → S) (c : M T A) : M S A :=
  λ s, match c (get s) with Ok a t => Ok a (set t s) | Panic e => Panic e end.

Declare Scope kernel_scope.
Delimit Scope kernel_scope with kernel.
Notation "x <-- c ;; k" := (mbindM c (λ x, k))
  (at level 100, c at next level, right associativity) : kernel_scope.
Notation "c ;;; k" := (mbindM c (λ _, k))
  (at level 100, right associativity) : kernel_scope.
Open Scope kernel_scope.

(** ** Arrays and memories as total functions *)
Definition upd {A} (f : Z → A) (i : Z) (v : A) : Z → A :=
  λ j, if j =? i then v else f j.

(** Byte-addressed little-endian memory.  A cell is read modulo [2^8]. *)
Definition memory := Z → Z.
Definition load8 (m : memory) (a : Z) : Z := u8 (m a).

Fixpoint load_n (n : nat) (m : memory) (a : Z) : Z :=
  match n with
  | O => 0
  | S n => load8 m a + 2 ^ 8 * load_n n m (a + 1)
  end.
Definition load64 (m : memory) (a : Z) : Z := load_n 8 m a.

Definition in_range (a n x : Z) : bool := (a <=? x) && (x <? a + n).

Definition store_n (n : Z) (m : memory) (a v : Z) : memory :=
  λ x, if in_range a n x then (v / 2 ^ (8 * (x - a))) mod 2 ^ 8 else m x.
Definition store64 (m : memory) (a v : Z) : memory := store_n 8 m a v.

(** [fill m a c n]: the bytes [a, a+n) become [c] (see [Strings.memset]). *)
Definition fill (m : memory) (a c n : Z) : memory :=
  λ x, if in_range a n x then u8 c else m x.

(** [blit m d s n]: the bytes [s, s+n) are copied over [d, d+n)
    (see [Strings.memmove]). *)
Definition blit (m : memory) (d s n : Z) : memory :=
  λ x, if in_range d n x then m (s + (x - d)) else m x.

Definition store_bytes (m : memory) (a : Z) (bs : list Z) : memory :=
  λ x, if in_range a (Z.of_nat (length bs)) x then u8 (nth (Z.to_nat (x - a)) bs 0) else m x.

(** Little-endian bytes of a value, and the value of bytes. *)
Definition bytes_at (m : memory) (a : Z) (n : nat) : list Z :=
  map (λ i, load8 m (a + Z.of_nat i)) (seq 0 n).

(** ** Tactics *)
Create HintDb kern.

Ltac bool_prop :=
  repeat match goal with
  | H : negb _ = true |- _ => apply negb_true_iff in H
  | H : negb _ = false |- _ => apply negb_false_iff in H
  | H : (_ && _)%bool = true |- _ => apply andb_prop in H; destruct H
  | H : (_ || _)%bool = false |- _ => apply orb_false_elim in H; destruct H
  | H : (_ =? _) = true |- _ => apply Z.eqb_eq in H
  | H : (_ =? _) = false |- _ => apply Z.eqb_neq in H
  | H : (_ <? _) = true |- _ => apply Z.ltb_lt in H
  | H : (_ <? _) = false |- _ => apply Z.ltb_ge in H
  | H : (_ <=? _) = true |- _ => apply Z.leb_le in H
  | H : (_ <=? _) = false |- _ => apply Z.leb_gt in H
  end.

(** Split on the outermost conditional of the goal, keeping Prop facts. *)
Ltac case_if :=
  match goal with
  | |- context [if ?b then _ else _] =>
      let E := fresh "E" in destruct b eqn:E; bool_prop
  end.

(** Case analysis on the result of the next monadic call in [H]. *)
Ltac monad_inv H :=
  repeat (unfold mbindM, mretM, panic, gets, modify, whenM in H; simpl in H);
  repeat match type of H with
  | context [match ?c with Ok _ _ => _ | Panic _ => _ end] =>
      let E := fresh "E" in destruct c eqn:E; [|discriminate H]
  end.

(** ** Generic lemmas *)

Lemma has_testbit (x k : Z) : 0 ≤ k → has x (2 ^ k) = Z.testbit x k.
Proof.
  intros Hk. unfold has.
  destruct (Z.testbit x k) eqn:E.
  - apply negb_true_iff, Z.eqb_neq. intros H0.
    assert (Z.testbit (Z.land x (2 ^ k)) k = false) as Hc by (rewrite H0; apply Z.bits_0).
    rewrite Z.land_spec, E, Z.pow2_bits_true in Hc by lia. discriminate.
  - apply negb_false_iff, Z.eqb_eq. apply Z.bits_inj'. intros n Hn.
    rewrite Z.land_spec, Z.bits_0, Z.pow2_bits_eqb by lia.
    destruct (Z.eqb_spec k n) as [->|]; [by rewrite E|by rewrite andb_false_r].
Qed.

Lemma u64_small x : 0 ≤ x < 2 ^ 64 → u64 x = x.
Proof. apply Z.mod_small. Qed.
Lemma u64_range x : 0 ≤ u64 x < 2 ^ 64.
Proof. apply Z.mod_pos_bound; lia. Qed.
Lemma u32_small x : 0 ≤ x < 2 ^ 32 → u32 x = x.
Proof. apply Z.mod_small. Qed.
Lemma u32_range x : 0 ≤ u32 x < 2 ^ 32.
Proof. apply Z.mod_pos_bound; lia. Qed.
Lemma u8_small x : 0 ≤ x < 2 ^ 8 → u8 x = x.
Proof. apply Z.mod_small. Qed.
Lemma u8_range x : 0 ≤ u8 x < 2 ^ 8.
Proof. apply Z.mod_pos_bound; lia. Qed.
Lemma u8_idem x : u8 (u8 x) = u8 x.
Proof. apply u8_small, u8_range. Qed.
Lemma i32_small x : - 2 ^ 31 ≤ x < 2 ^ 31 → i32 x = x.
Proof. intros H. unfold i32. rewrite Z.mod_small; lia. Qed.
Lemma i32_range x : - 2 ^ 31 ≤ i32 x < 2 ^ 31.
Proof. unfold i32. pose proof (Z.mod_pos_bound (x + 2 ^ 31) (2 ^ 32)). lia. Qed.

#[export] Hint Rewrite u8_idem : kern.
#[export] Hint Resolve u64_range u32_range u8_range i32_range : kern.

Lemma upd_eq {A} (f : Z → A) i v : upd f i v i = v.
Proof. unfold upd. by rewrite Z.eqb_refl. Qed.
Lemma upd_ne {A} (f : Z → A) i j v : j ≠ i → upd f i v j = f j.
Proof. unfold upd. intros H. by destruct (Z.eqb_spec j i). Qed.
#[export] Hint Rewrite @upd_eq : kern.

Lemma in_range_true a n x : in_range a n x = true ↔ a ≤ x < a + n.
Proof. unfold in_range. rewrite andb_true_iff, Z.leb_le, Z.ltb_lt. done. Qed.
Lemma in_range_false a n x : in_range a n x = false ↔ ¬ (a ≤ x < a + n).
Proof. rewrite <- in_range_true. by destruct (in_range a n x). Qed.

Lemma load_n_ext n m m' a :
  (∀ x, a ≤ x < a + Z.of_nat n → load8 m x = load8 m' x) →
  load_n n m a = load_n n m' a.
Proof.
  revert a. induction n as [|n IH]; intros a H; [done|].
  simpl. rewrite (H a) by lia. rewrite (IH (a + 1)); [done|].
  intros x Hx. apply H. lia.
Qed.

Lemma load64_ext m m' a :
  (∀ x, a ≤ x < a + 8 → m x = m' x) → load64 m a = load64 m' a.
Proof. intros H. apply load_n_ext. intros x Hx. unfold load8. rewrite H; [done|lia]. Qed.

Lemma load_n_range n m a : 0 ≤ load_n n m a < 2 ^ (8 * Z.of_nat n).
Proof.
  revert a. induction n as [|n IH]; intros a; [simpl; lia|].
  simpl load_n. specialize (IH (a + 1)). pose proof (u8_range (m a)).
  unfold load8. replace (8 * Z.of_nat (S n)) with (8 + 8 * Z.of_nat n) by lia.
  rewrite Z.pow_add_r by lia. nia.
Qed.
Lemma load64_range m a : 0 ≤ load64 m a < 2 ^ 64.
Proof. apply (load_n_range 8). Qed.
#[export] Hint Resolve load64_range : kern.

Lemma load_n_store_n (N : Z) (n : nat) m a v k :
  0 ≤ k → k + Z.of_nat n ≤ N →
  load_n n (store_n N m a v) (a + k) = (v / 2 ^ (8 * k)) mod 2 ^ (8 * Z.of_nat n).
Proof.
  revert k. induction n as [|n IH]; intros k Hk HN; [simpl; by rewrite Z.mod_1_r|].
  simpl load_n. rewrite <- Z.add_assoc, IH by lia.
  assert (in_range a N (a + k) = true) as Hr by (apply in_range_true; lia).
  unfold load8, store_n. rewrite Hr.
  replace (a + k - a) with k by lia.
  replace (8 * (k + 1)) with (8 * k + 8) by lia.
  rewrite Z.pow_add_r, <- Z.div_div by lia.
  change (u8 ((v / 2 ^ (8 * k)) mod 2 ^ 8)) with (u8 (u8 (v / 2 ^ (8 * k)))).
  rewrite u8_idem. unfold u8.
  replace (8 * Z.of_nat (S n)) with (8 + 8 * Z.of_nat n) by lia.
  rewrite Z.pow_add_r, Z.rem_mul_r by lia. lia.
Qed.

Lemma load64_store64_eq m a v : load64 (store64 m a v) a = u64 v.
Proof.
  unfold load64, store64. replace a with (a + 0) at 2 by lia.
  rewrite (load_n_store_n 8 8) by lia. by rewrite Z.div_1_r.
Qed.

Lemma store_n_other n m a v x : ¬ (a ≤ x < a + n) → store_n n m a v x = m x.
Proof. intros H. unfold store_n. apply in_range_false in H. by rewrite H. Qed.
Lemma store64_other m a v x : ¬ (a ≤ x < a + 8) → store64 m a v x = m x.
Proof. apply store_n_other. Qed.
Lemma fill_other m a c n x : ¬ (a ≤ x < a + n) → fill m a c n x = m x.
Proof. intros H. unfold fill. apply in_range_false in H. by rewrite H. Qed.
Lemma fill_in m a c n x : a ≤ x < a + n → fill m a c n x = u8 c.
Proof. intros H. unfold fill. apply in_range_true in H. by rewrite H. Qed.
Lemma blit_other m d s n x : ¬ (d ≤ x < d + n) → blit m d s n x = m x.
Proof. intros H. unfold blit. apply in_range_false in H. by rewrite H. Qed.
Lemma blit_in m d s n x : d ≤ x < d + n → blit m d s n x = m (s + (x - d)).
Proof. intros H. unfold blit. apply in_range_true in H. by rewrite H. Qed.

Lemma load64_store64_ne m a b v :
  b + 8 ≤ a ∨ a + 8 ≤ b → load64 (store64 m a v) b = load64 m b.
Proof. intros H. apply load64_ext. intros x Hx. apply store64_other. lia. Qed.

Lemma load64_fill_zero m a n b :
  a ≤ b → b + 8 ≤ a + n → load64 (fill m a 0 n) b = 0.
Proof.
  intros H1 H2.
  assert (load64 (fill m a 0 n) b = load64 (λ _, 0) b) as ->; [|reflexivity].
  apply load64_ext. intros x Hx. rewrite fill_in by lia. reflexivity.
Qed.

Lemma load64_fill_other m a c n b :
  b + 8 ≤ a ∨ a + n ≤ b → load64 (fill m a c n) b = load64 m b.
Proof. intros H. apply load64_ext. intros x Hx. apply fill_other. lia. Qed.

Lemma mbindM_Ok {S A B} (c : M S A) (k : A → M S B) s a s' :
  c s = Ok a s' → mbindM c k s = k a s'.
Proof. intros H. unfold mbindM. by rewrite H. Qed.
Lemma mbindM_Panic {S A B} (c : M S A) (k : A → M S B) s e :
  c s = Panic e → mbindM c k s = Panic e.
Proof. intros H. unfold mbindM. by rewrite H. Qed.
Lemma mbindM_inv {S A B} (c : M S A) (k : A → M S B) s b s' :
  mbindM c k s = Ok b s' → ∃ a s1, c s = Ok a s1 ∧ k a s1 = Ok b s'.
Proof. unfold mbindM. destruct (c s) as [a s1|]; [eauto|done]. Qed.

Lemma filter_ext_in {A} (P Q : A → Prop) `{∀ x, Decision (P x)} `{∀ x, Decision (Q x)} (l : list A) :
  (∀ x, x ∈ l → P x ↔ Q x) → filter P l = filter Q l.
Proof.
  induction l as [|x l IH]; intros Heq; [done|]. rewrite !filter_cons.
  rewrite IH by (intros y Hy; apply Heq; by right).
  pose proof (Heq x ltac:(left)). by destruct (decide (P x)), (decide (Q x)); try tauto.
Qed.

(** Fewer elements pass the stronger test, strictly when one of them fails it. *)
Lemma filter_length_lt {A} (P Q : A → Prop) `{∀ x, Decision (P x)} `{∀ x, Decision (Q x)}
  (l : list A) x :
  (∀ y, P y → Q y) → x ∈ l → Q x → ¬ P x → (length (filter P l) < length (filter Q l))%nat.
Proof.
  intros HPQ Hx HQ HP.
  assert (∀ k : list A, length (filter P k) ≤ length (filter Q k))%nat as Hle.
  { induction k as [|y k IH]; [done|]. rewrite !filter_cons. specialize (HPQ y).
    destruct (decide (P y)), (decide (Q y)); simpl; try lia; tauto. }
  induction l as [|y l IH]; [by apply elem_of_nil in Hx|]. rewrite !filter_cons.
  apply elem_of_cons in Hx as [<-|Hx].
  - destruct (decide (P x)), (decide (Q x)); try done. simpl. specialize (Hle l). lia.
  - specialize (IH Hx). specialize (HPQ y).
    destruct (decide (P y)), (decide (Q y)); simpl; try lia; tauto.
Qed.
