(* ===== verification/Frame.v ===== *)
(** * What a computation leaves alone

    [keeps R c]: every run of [c] that returns relates the states before and
    after by the preorder [R].  The lemmas follow the combinators of the monad
    and [keeps_step] applies them; the facts about single operations are in the
    hint database [keeps]. *)
From stdpp Require Import prelude list strings.
From Stdlib Require Import ZArith Lia.
From S2P Require Import Prelude.
Open Scope Z_scope.

Definition keeps {S A} (R : relation S) (c : M S A) : Prop := ∀ s a s', c s = Ok a s' → R s s'.

Create HintDb keeps.

Section Keeps.
Context {S : Type} (R : relation S) `{!PreOrder R}.

Lemma keeps_ret {A} (a : A) : keeps R (mretM a).
Proof. intros s b s' [= <- <-]. reflexivity. Qed.
Lemma keeps_panic {A} e : keeps R (panic e : M S A).
Proof. intros s b s'. done. Qed.
Lemma keeps_gets {A} (f : S → A) : keeps R (gets f).
Proof. intros s b s' [= <- <-]. reflexivity. Qed.
Lemma keeps_modify f : (∀ s, R s (f s)) → keeps R (modify f).
Proof. intros H s b s' [= <- <-]. apply H. Qed.
Lemma keeps_bind {A B} (c : M S A) (k : A → M S B) : keeps R c → (∀ a, keeps R (k a)) → keeps R (mbindM c k).
Proof. intros H1 H2 s b s' (a & s1 & E1 & E2)%mbindM_inv. etrans; [by eapply H1|by eapply H2]. Qed.
Lemma keeps_when b (c : M S unit) : keeps R c → keeps R (whenM b c).
Proof. intros H. destruct b; [done|apply keeps_ret]. Qed.
Lemma keeps_forM l (f : Z → M S unit) : (∀ i, keeps R (f i)) → keeps R (forM l f).
Proof. intros H. induction l as [|i l IH]; [apply keeps_ret|by apply keeps_bind]. Qed.
Lemma keeps_for_breakM l (f : Z → M S bool) : (∀ i, keeps R (f i)) → keeps R (for_breakM l f).
Proof. intros H. induction l as [|i l IH]; [apply keeps_ret|]. apply keeps_bind; [done|]. intros []; [done|apply keeps_ret]. Qed.
End Keeps.

(** A computation on a component: relate the component, then the whole. *)
Lemma keeps_zoom {S T A} (R : relation S) (Q : relation T) (get : S → T) (set : T → S → S) (c : M T A) :
  keeps Q c → (∀ s t, Q (get s) t → R s (set t s)) → keeps R (zoom get set c).
Proof. intros Hc Hs s a s'. unfold zoom. destruct (c (get s)) as [b t|] eqn:E; [|done]. intros [= <- <-]. by apply Hs, (Hc _ b). Qed.
Lemma keeps_any {S A} (c : M S A) : keeps (λ _ _, True) c.
Proof. done. Qed.
Lemma keeps_impl {S A} (R Q : relation S) (c : M S A) : (∀ s s', R s s' → Q s s') → keeps R c → keeps Q c.
Proof. intros H Hc s a s' E. apply H. by eapply Hc. Qed.

(** Relations that say a component is unchanged. *)
Definition same {S T} (f : S → T) : relation S := λ s s', f s' = f s.
#[export] Instance same_preorder {S T} (f : S → T) : PreOrder (same f).
Proof. split; [done|]. intros x y z E1 E2. unfold same in *. congruence. Qed.

Ltac keeps_step :=
  match goal with
  | |- keeps _ (mbindM _ _) => apply keeps_bind; [typeclasses eauto|..|intros ?]
  | |- keeps _ (mretM _) => apply keeps_ret; typeclasses eauto
  | |- keeps _ (panic _) => apply keeps_panic
  | |- keeps _ (gets _) => apply keeps_gets; typeclasses eauto
  | |- keeps _ (whenM _ _) => apply keeps_when; [typeclasses eauto|]
  | |- keeps _ (forM _ _) => apply keeps_forM; [typeclasses eauto|intros ?]
  | |- keeps _ (let '(_, _) := ?x in _) => destruct x as [? ?]
  | |- keeps _ (if ?b then _ else _) => destruct b
  | |- keeps _ (match ?x with _ => _ end) => destruct x
  | |- keeps _ _ => progress cbv zeta
  | |- keeps _ _ => solve [eauto with keeps]
  end.
Ltac keeps_auto := repeat keeps_step.
