(* ===== verification/Strings.v ===== *)
(** * Memory and string primitives (kernel/string.c)

    The loops of string.c over byte memory.  [memset] and [memmove] are shown
    equal to the block operations [fill] and [blit] the other components use.
    A [char] is unsigned on RISC-V.  Unbounded scans take a fuel argument. *)
From stdpp Require Import prelude list strings.
From Stdlib Require Import ZArith Lia.
From S2P Require Import Prelude.
Open Scope Z_scope.

Fixpoint memset_loop (n : nat) (m : memory) (cdst c : Z) : memory :=
  match n with
  | O => m
  | S n => memset_loop n (upd m cdst (u8 c)) (cdst + 1) c
  end.
Definition memset (m : memory) (dst c : Z) (n : nat) : memory := memset_loop n m dst c.

Fixpoint memcmp (m : memory) (s1 s2 : Z) (n : nat) : Z :=
  match n with
  | O => 0
  | S n => if load8 m s1 =? load8 m s2 then memcmp m (s1 + 1) (s2 + 1) n
           else load8 m s1 - load8 m s2
  end.

(** [while(n-- > 0) *--d = *--s] and [while(n-- > 0) *d++ = *s++]. *)
Fixpoint move_down (n : nat) (m : memory) (d s : Z) : memory :=
  match n with
  | O => m
  | S n => move_down n (upd m (d - 1) (m (s - 1))) (d - 1) (s - 1)
  end.
Fixpoint move_up (n : nat) (m : memory) (d s : Z) : memory :=
  match n with
  | O => m
  | S n => move_up n (upd m d (m s)) (d + 1) (s + 1)
  end.
Definition memmove (m : memory) (dst src : Z) (n : nat) : memory :=
  if (src <? dst) && (dst <? src + Z.of_nat n)
  then move_down n m (dst + Z.of_nat n) (src + Z.of_nat n)
  else move_up n m dst src.
Definition memcpy (m : memory) (dst src : Z) (n : nat) : memory := memmove m dst src n.

Fixpoint strncmp (m : memory) (p q : Z) (n : nat) : Z :=
  match n with
  | O => 0
  | S k => if negb (load8 m p =? 0) && (load8 m p =? load8 m q)
           then strncmp m (p + 1) (q + 1) k
           else load8 m p - load8 m q
  end.

Fixpoint strncpy_loop (n : nat) (m : memory) (s t : Z) : memory :=
  match n with
  | O => m
  | S n =>
      let c := load8 m t in
      let m := upd m s c in
      if c =? 0 then memset_loop n m (s + 1) 0 else strncpy_loop n m (s + 1) (t + 1)
  end.
Definition strncpy (m : memory) (s t n : Z) : memory := strncpy_loop (Z.to_nat n) m s t.

(** [while(--n > 0 && ( *s++ = *t++) != 0); *s = 0;] *)
Fixpoint safestrcpy_loop (n : nat) (m : memory) (s t : Z) : memory :=
  match n with
  | O => upd m s 0
  | S n =>
      let c := load8 m t in
      let m := upd m s c in
      if c =? 0 then upd m (s + 1) 0 else safestrcpy_loop n m (s + 1) (t + 1)
  end.
Definition safestrcpy (m : memory) (s t n : Z) : memory :=
  if n <=? 0 then m else safestrcpy_loop (Z.to_nat (n - 1)) m s t.

Fixpoint strlen (fuel : nat) (m : memory) (s : Z) : option Z :=
  match fuel with
  | O => None
  | S fuel => if load8 m s =? 0 then Some 0
              else match strlen fuel m (s + 1) with Some n => Some (n + 1) | None => None end
  end.

Definition load16 (m : memory) (a : Z) : Z := load_n 2 m a.

Fixpoint wnstr (len : nat) (m : memory) (dst src : Z) : memory :=
  match len with
  | O => store_n 2 m dst 0
  | S len => if load8 m src =? 0 then store_n 2 m dst 0
             else wnstr len (upd m dst (load8 m src)) (dst + 2) (src + 1)
  end.

Fixpoint snstr (len : nat) (m : memory) (dst src : Z) : memory :=
  match len with
  | O => m
  | S len => if load16 m src =? 0 then memset_loop len m dst 0
             else snstr len (upd m dst (Z.land (load16 m src) 255)) (dst + 1) (src + 2)
  end.

Fixpoint wcsncmp (len : nat) (m : memory) (s1 s2 : Z) : Z :=
  match len with
  | O => 0
  | S len => if load16 m s1 =? 0 then 0
             else let ret := load16 m s1 - load16 m s2 in
                  if negb (ret =? 0) then ret else wcsncmp len m (s1 + 2) (s2 + 2)
  end.

Fixpoint strchr (fuel : nat) (m : memory) (s c : Z) : option Z :=
  match fuel with
  | O => None
  | S fuel => if load8 m s =? 0 then Some 0
              else if load8 m s =? c then Some s else strchr fuel m (s + 1) c
  end.

(** The bytes [l] followed by NUL are stored at [a]. *)
Definition cstring (m : memory) (a : Z) (l : list Z) : Prop :=
  Forall (λ c, 0 < c < 256) l ∧
  (∀ i c, l !! i = Some c → load8 m (a + Z.of_nat i) = c) ∧
  load8 m (a + Z.of_nat (length l)) = 0.

(** ** Lemmas *)

Lemma memset_loop_fill n m a c x :
  memset_loop n m a c x = fill m a c (Z.of_nat n) x.
Proof.
  revert m a. induction n as [|n IH]; intros m a; cbn [memset_loop].
  { unfold fill. by destruct (in_range a (Z.of_nat 0) x) eqn:E; [apply in_range_true in E; lia|]. }
  rewrite IH. unfold fill, upd.
  destruct (Z.eqb_spec x a) as [->|Hne].
  - assert (in_range (a + 1) (Z.of_nat n) a = false) as -> by (apply in_range_false; lia).
    by assert (in_range a (Z.of_nat (S n)) a = true) as -> by (apply in_range_true; lia).
  - destruct (in_range (a + 1) (Z.of_nat n) x) eqn:E.
    + apply in_range_true in E.
      by assert (in_range a (Z.of_nat (S n)) x = true) as -> by (apply in_range_true; lia).
    + apply in_range_false in E.
      by assert (in_range a (Z.of_nat (S n)) x = false) as -> by (apply in_range_false; lia).
Qed.

Lemma move_up_spec n m d s x :
  ¬ (s < d < s + Z.of_nat n) → move_up n m d s x = blit m d s (Z.of_nat n) x.
Proof.
  revert m d s. induction n as [|n IH]; intros m d s Hov; cbn [move_up].
  { unfold blit. by destruct (in_range d (Z.of_nat 0) x) eqn:E; [apply in_range_true in E; lia|]. }
  rewrite IH by lia. destruct (decide (d + 1 ≤ x < d + 1 + Z.of_nat n)) as [Hx|Hx].
  - rewrite !blit_in by lia. replace (s + 1 + (x - (d + 1))) with (s + (x - d)) by lia.
    apply upd_ne. lia.
  - rewrite blit_other by done. destruct (decide (x = d)) as [->|Hne].
    + rewrite upd_eq, blit_in by lia. f_equal. lia.
    + rewrite upd_ne, blit_other by (done || lia). done.
Qed.

Lemma move_down_spec n m d s x :
  s ≤ d → move_down n m (d + Z.of_nat n) (s + Z.of_nat n) x = blit m d s (Z.of_nat n) x.
Proof.
  revert m. induction n as [|n IH]; intros m Hov; cbn [move_down].
  { unfold blit. by destruct (in_range d (Z.of_nat 0) x) eqn:E; [apply in_range_true in E; lia|]. }
  replace (d + Z.of_nat (S n) - 1) with (d + Z.of_nat n) by lia.
  replace (s + Z.of_nat (S n) - 1) with (s + Z.of_nat n) by lia.
  rewrite IH by done. destruct (decide (d ≤ x < d + Z.of_nat n)) as [Hx|Hx].
  - rewrite !blit_in by lia. apply upd_ne. lia.
  - rewrite blit_other by done. destruct (decide (x = d + Z.of_nat n)) as [->|Hne].
    + rewrite upd_eq, blit_in by lia. f_equal. lia.
    + rewrite upd_ne, blit_other by (done || lia). done.
Qed.

Lemma cstring_ext m m' a l :
  (∀ x, a ≤ x ≤ a + Z.of_nat (length l) → load8 m' x = load8 m x) →
  cstring m a l → cstring m' a l.
Proof.
  intros He (H1 & H2 & H3). split; [done|]. split; [|by rewrite He by lia].
  intros i c Hi. pose proof (lookup_lt_Some _ _ _ Hi). rewrite He by lia. by apply H2.
Qed.

Lemma cstring_cons m a c l :
  0 < c < 256 → load8 m a = c → cstring m (a + 1) l → cstring m a (c :: l).
Proof.
  intros Hc Ha (H1 & H2 & H3). split; [by constructor|]. split.
  - intros [|i] d Hd; simpl in Hd; [simplify_eq; by replace (a + Z.of_nat 0) with a by lia|].
    replace (a + Z.of_nat (S i)) with (a + 1 + Z.of_nat i) by lia. by apply H2.
  - simpl length. by replace (a + Z.of_nat (S (length l))) with (a + 1 + Z.of_nat (length l)) by lia.
Qed.

Lemma cstring_inv m a c l :
  cstring m a (c :: l) → 0 < c < 256 ∧ load8 m a = c ∧ cstring m (a + 1) l.
Proof.
  intros (H1 & H2 & H3). apply Forall_cons in H1 as [Hc H1].
  split; [done|]. split; [rewrite <- (H2 0%nat c); [f_equal; lia|done]|].
  split; [done|]. split.
  - intros i d Hd. rewrite <- (H2 (S i) d) by done. f_equal. lia.
  - rewrite <- H3. f_equal. simpl. lia.
Qed.

Lemma load8_upd_eq m a c : 0 ≤ c < 256 → load8 (upd m a c) a = c.
Proof. intros Hc. unfold load8. rewrite upd_eq. by apply u8_small. Qed.
Lemma load8_upd_ne m a c x : x ≠ a → load8 (upd m a c) x = load8 m x.
Proof. intros Hx. unfold load8. by rewrite upd_ne. Qed.

(** What [safestrcpy] leaves at [s] when the source is a C string that does not
    overlap the destination: the longest prefix that fits, NUL-terminated; no
    byte outside [s, s + n) changes. *)
Lemma safestrcpy_loop_spec n m s t l :
  cstring m t l →
  (∀ i j, 0 ≤ i ≤ Z.of_nat n → 0 ≤ j ≤ Z.of_nat (length l) → s + i ≠ t + j) →
  cstring (safestrcpy_loop n m s t) s (take n l) ∧
  ∀ x, ¬ (s ≤ x ≤ s + Z.of_nat n) → safestrcpy_loop n m s t x = m x.
Proof.
  revert m s t l. induction n as [|n IH]; intros m s t l Hl Hd; cbn [safestrcpy_loop].
  { split; [|intros x Hx; apply upd_ne; lia]. split; [constructor|]. split; [done|].
    simpl. replace (s + Z.of_nat 0) with s by lia. by apply load8_upd_eq. }
  destruct l as [|c l].
  - destruct Hl as (_ & _ & H0). simpl in H0. replace (t + Z.of_nat 0) with t in H0 by lia.
    rewrite H0, Z.eqb_refl. split.
    + split; [constructor|]. split; [done|]. simpl. replace (s + Z.of_nat 0) with s by lia.
      rewrite load8_upd_ne by lia. by apply load8_upd_eq.
    + intros x Hx. rewrite !upd_ne by lia. done.
  - apply cstring_inv in Hl as (Hc & Ec & Hl). rewrite Ec.
    destruct (Z.eqb_spec c 0) as [|_]; [lia|].
    destruct (IH (upd m s c) (s + 1) (t + 1) l) as [IH1 IH2].
    + apply (cstring_ext m); [|done]. intros x Hx. apply load8_upd_ne. intros ->.
      apply (Hd 0 (1 + (s - (t + 1)))); simpl; lia.
    + intros i j Hi Hj. specialize (Hd (i + 1) (j + 1)). simpl length in Hd. lia.
    + split.
      * simpl take. apply cstring_cons; [done| |done].
        unfold load8. rewrite IH2, upd_eq by lia. apply u8_small. lia.
      * intros x Hx. rewrite IH2, upd_ne by lia. done.
Qed.

(** ** Properties *)

(** [memset] sets exactly [n] bytes and [memmove] copies [n] bytes exactly,
    whether or not the two areas overlap, in either direction. *)
Theorem memmove_memset_correct m d s c n x :
  memset m d c n x = fill m d c (Z.of_nat n) x ∧
  memmove m d s n x = blit m d s (Z.of_nat n) x.
Proof.
  split; [apply memset_loop_fill|]. unfold memmove.
  destruct (Z.ltb_spec s d); cbn [andb]; [|by apply move_up_spec; lia].
  destruct (Z.ltb_spec d (s + Z.of_nat n)); [apply move_down_spec|apply move_up_spec]; lia.
Qed.

(** [safestrcpy] stores the longest prefix of the source that fits in
    [n - 1] bytes, always NUL-terminated, and writes nothing outside
    [s, s + n). *)
Theorem safestrcpy_correct m s t n l :
  0 < n → cstring m t l →
  (∀ i j, 0 ≤ i < n → 0 ≤ j ≤ Z.of_nat (length l) → s + i ≠ t + j) →
  cstring (safestrcpy m s t n) s (take (Z.to_nat (n - 1)) l) ∧
  ∀ x, ¬ (s ≤ x < s + n) → safestrcpy m s t n x = m x.
Proof.
  intros Hn Hl Hd. unfold safestrcpy. destruct (Z.leb_spec n 0); [lia|].
  destruct (safestrcpy_loop_spec (Z.to_nat (n - 1)) m s t l Hl) as [H1 H2].
  { intros i j Hi. apply Hd. lia. }
  split; [done|]. intros x Hx. apply H2. lia.
Qed.

Lemma safestrcpy_correct_witness :
  let m := λ x, if x =? 100 then 97 else if x =? 101 then 98 else 0 in
  cstring (safestrcpy m 200 100 16) 200 [97; 98].
Proof.
  intros m. apply (safestrcpy_correct m 200 100 16 [97; 98]).
  - lia.
  - split; [repeat constructor; lia|]. split; [|reflexivity].
    intros [|[|i]] c Hc; simpl in Hc; [injection Hc as <-; reflexivity..|discriminate].
  - simpl. intros i j Hi Hj. lia.
Defined.

Lemma strncmp_ext n m p q l k :
  cstring m p l → cstring m q k →
  (strncmp m p q n = 0 ↔ take n l = take n k).
Proof.
  revert p q l k. induction n as [|n IH]; intros p q l k Hl Hk; [done|]. cbn [strncmp].
  assert (∀ a l, cstring m a l → load8 m a = match l with [] => 0 | c :: _ => c end) as Hhd.
  { intros a [|c l'] H; [|apply cstring_inv in H; tauto].
    destruct H as (_ & _ & H0). by replace (a + Z.of_nat (length (@nil Z))) with a in H0 by (simpl; lia). }
  rewrite (Hhd p l Hl), (Hhd q k Hk).
  destruct l as [|c l], k as [|d k]; simpl.
  - done.
  - apply cstring_inv in Hk as (Hd & _). split; [intros; lia|done].
  - apply cstring_inv in Hl as (Hc & _). destruct (Z.eqb_spec c 0); [lia|].
    simpl. split; [intros; lia|done].
  - apply cstring_inv in Hl as (Hc & _ & Hl). apply cstring_inv in Hk as (Hd & _ & Hk).
    destruct (Z.eqb_spec c 0); [lia|]. simpl. destruct (Z.eqb_spec c d) as [->|Hne].
    + rewrite (IH _ _ _ _ Hl Hk). split; congruence.
    + split; [lia|]. intros [= ? ?]. lia.
Qed.

(** [strncmp] returns 0 exactly when the two strings agree in their first
    [n] characters. *)
Theorem strncmp_correct m p q n l k :
  cstring m p l → cstring m q k → strncmp m p q n = 0 ↔ take n l = take n k.
Proof. apply strncmp_ext. Qed.

Lemma strncmp_correct_witness :
  let m := λ x, if (x =? 100) || (x =? 200) then 97 else if x =? 101 then 98 else 0 in
  strncmp m 100 200 1 = 0 ↔ take 1 [97; 98] = take 1 [97].
Proof.
  intros m. apply (strncmp_correct m 100 200 1 [97; 98] [97]).
  - split; [repeat constructor; lia|]. split; [|reflexivity].
    intros [|[|i]] c Hc; simpl in Hc; [injection Hc as <-; reflexivity..|discriminate].
  - split; [repeat constructor; lia|]. split; [|reflexivity].
    intros [|i] c Hc; simpl in Hc; [injection Hc as <-; reflexivity|discriminate].
Defined.
