(* ===== verification/Printf.v ===== *)
(** * Formatted output (kernel/printf.c, xv6-user/printf.c, atoi of xv6-user/ulib.c)

    What a call prints is the list of its bytes.  A string argument is a
    pointer; [str p] are the bytes before its NUL.  The variable arguments are
    the words [ap 0], [ap 1], ...; [va_arg(ap, int)] takes the low 32 bits of
    the next one. *)
From stdpp Require Import prelude list strings.
From Stdlib Require Import ZArith Lia.
From S2P Require Import Prelude.
Open Scope Z_scope.

Definition chars (s : string) : list Z := map (λ a, Z.of_N (Ascii.N_of_ascii a)) (String.list_ascii_of_string s).

Definition BACKSPACE : Z := 256.
Definition consputc (c : Z) : list Z := if c =? BACKSPACE then [8; 32; 8] else [c].
Definition printstring (s : list Z) : list Z := concat (map consputc s).

Definition digits : list Z := chars "0123456789abcdef".
Definition DIGITS : list Z := chars "0123456789ABCDEF".
Definition digit (tab : list Z) (d : Z) : Z := nth (Z.to_nat d) tab 0.

(** The [do ... while] of [printint]: the characters put into [buf], in order.
    A 32-bit number has at most 32 digits. *)
Fixpoint int_digits (tab : list Z) (fuel : nat) (x base : Z) : list Z :=
  match fuel with
  | O => []
  | S fuel => digit tab (x mod base) :: if x / base =? 0 then [] else int_digits tab fuel (x / base) base
  end.
(** All of [buf]; it has room for 16 characters. *)
Definition int_buf (tab : list Z) (xx base : Z) (sign : bool) : list Z :=
  let neg := sign && (xx <? 0) in
  int_digits tab 32 (u32 (if neg then - xx else xx)) base ++ (if neg then [45] else []).

Definition printint (xx base : Z) (sign : bool) : list Z :=
  concat (map consputc (rev (int_buf digits xx base sign))).

Fixpoint ptr_digits (tab : list Z) (n : nat) (x : Z) : list Z :=
  match n with
  | O => []
  | S n => digit tab (Z.shiftr x 60) :: ptr_digits tab n (u64 (Z.shiftl x 4))
  end.
Definition printptr (x : Z) : list Z := [48; 120] ++ ptr_digits digits 16 x.

Definition null_text : list Z := chars "(null)".

Fixpoint printf_loop (str : Z → list Z) (fmt : list Z) (ap : nat → Z) (k : nat) : list Z :=
  match fmt with
  | [] => []
  | c :: fmt =>
      if negb (c =? 37) then consputc c ++ printf_loop str fmt ap k
      else
        match fmt with
        | [] => []
        | c :: fmt =>
            if c =? 100 then printint (i32 (ap k)) 10 true ++ printf_loop str fmt ap (S k)
            else if c =? 120 then printint (i32 (ap k)) 16 true ++ printf_loop str fmt ap (S k)
            else if c =? 112 then printptr (u64 (ap k)) ++ printf_loop str fmt ap (S k)
            else if c =? 115 then
              printstring (if ap k =? 0 then null_text else str (ap k)) ++ printf_loop str fmt ap (S k)
            else if c =? 37 then consputc 37 ++ printf_loop str fmt ap k
            else consputc 37 ++ consputc c ++ printf_loop str fmt ap k
        end
  end.
(** A null format is a panic. *)
Definition printf (str : Z → list Z) (fmt : option (list Z)) (ap : nat → Z) : option (list Z) :=
  match fmt with None => None | Some fmt => Some (printf_loop str fmt ap 0) end.

(** ** The printf of user programs *)

Definition uprintint (xx base : Z) (sgn : bool) (width : Z) (zero_pad : bool) : list Z :=
  let buf := int_buf DIGITS xx base sgn in
  let len := Z.of_nat (length buf) in
  let pad := if len <? width then width - len else 0 in
  replicate (Z.to_nat pad) (if zero_pad then 48 else 32) ++ rev buf.
Definition uprintptr (x : Z) : list Z := [48; 120] ++ ptr_digits DIGITS 16 x.

(** [vprintf]: [st] is whether a [%] is open. *)
Fixpoint vprintf (str : Z → list Z) (fmt : list Z) (ap : nat → Z) (k : nat) (st : bool) (width : Z) (zero_pad : bool)
  : list Z :=
  match fmt with
  | [] => []
  | c :: fmt =>
      if negb st then
        if c =? 37 then vprintf str fmt ap k true 0 false
        else [c] ++ vprintf str fmt ap k false width zero_pad
      else if (48 <=? c) && (c <=? 57) then
        if (c =? 48) && (width =? 0) then vprintf str fmt ap k true width true
        else vprintf str fmt ap k true (i32 (width * 10 + (c - 48))) zero_pad
      else
        if c =? 100 then uprintint (i32 (ap k)) 10 true width zero_pad ++ vprintf str fmt ap (S k) false 0 false
        else if c =? 108 then uprintint (i32 (ap k)) 10 false width zero_pad ++ vprintf str fmt ap (S k) false 0 false
        else if c =? 120 then uprintint (i32 (ap k)) 16 false width zero_pad ++ vprintf str fmt ap (S k) false 0 false
        else if c =? 112 then uprintptr (u64 (ap k)) ++ vprintf str fmt ap (S k) false 0 false
        else if c =? 115 then (if ap k =? 0 then null_text else str (ap k)) ++ vprintf str fmt ap (S k) false 0 false
        else if c =? 99 then [u8 (ap k)] ++ vprintf str fmt ap (S k) false 0 false
        else if c =? 37 then [c] ++ vprintf str fmt ap k false 0 false
        else [37; c] ++ vprintf str fmt ap k false 0 false
  end.
Definition uprintf (str : Z → list Z) (fmt : list Z) (ap : nat → Z) : list Z := vprintf str fmt ap 0 false 0 false.

(** ** Reading numbers: [atoi] *)
Fixpoint atoi_loop (s : list Z) (n : Z) : Z :=
  match s with
  | [] => n
  | c :: s => if (48 <=? c) && (c <=? 57) then atoi_loop s (i32 (i32 (n * 10) + c - 48)) else n
  end.
Definition atoi (s : list Z) : Z :=
  match s with
  | 45 :: s => i32 (atoi_loop s 0 * -1)
  | s => i32 (atoi_loop s 0 * 1)
  end.

(** ** Lemmas *)

(** The number that digits, lowest first, stand for. *)
Fixpoint value (base : Z) (ds : list Z) : Z :=
  match ds with [] => 0 | d :: ds => d + base * value base ds end.
(** The digits of [x], lowest first. *)
Fixpoint digits_of (fuel : nat) (x base : Z) : list Z :=
  match fuel with O => [] | S fuel => x mod base :: if x / base =? 0 then [] else digits_of fuel (x / base) base end.

Lemma int_digits_of tab fuel x base : int_digits tab fuel x base = map (digit tab) (digits_of fuel x base).
Proof. revert x. induction fuel as [|fuel IH]; intros x; [done|]. simpl. destruct (_ =? 0); [done|]. simpl. by rewrite IH. Qed.

Lemma digits_of_spec fuel x base :
  2 ≤ base → 0 ≤ x < base ^ Z.of_nat fuel → (0 < fuel)%nat →
  value base (digits_of fuel x base) = x ∧ Forall (λ d, 0 ≤ d < base) (digits_of fuel x base) ∧
  digits_of fuel x base ≠ [] ∧
  ∀ k, x < base ^ Z.of_nat k → (0 < k)%nat → (length (digits_of fuel x base) ≤ k)%nat.
Proof.
  intros Hb. revert x. induction fuel as [|fuel IH]; intros x Hx Hf; [lia|]. simpl.
  pose proof (Z.div_mod x base ltac:(lia)). pose proof (Z.mod_pos_bound x base ltac:(lia)).
  pose proof (Z.div_pos x base ltac:(lia) ltac:(lia)).
  destruct (Z.eqb_spec (x / base) 0) as [E|E].
  { simpl. split; [lia|]. split; [constructor; [done|apply Forall_nil_2]|]. split; [done|]. intros k _ Hk. lia. }
  assert (x / base < base ^ Z.of_nat fuel) as Hlt.
  { apply Z.div_lt_upper_bound; [lia|]. rewrite <- Z.pow_succ_r by lia. rewrite <- Nat2Z.inj_succ. lia. }
  assert (0 < fuel)%nat as Hf' by (destruct fuel; [simpl in Hlt; lia|lia]).
  destruct (IH (x / base) ltac:(lia) Hf') as (IV & IF & _ & IL). simpl. rewrite IV. split; [lia|].
  split; [constructor; [done|exact IF]|]. split; [done|]. intros k Hk Hk0. destruct k as [|k]; [lia|].
  apply le_n_S, IL.
  - apply Z.div_lt_upper_bound; [lia|]. rewrite <- Z.pow_succ_r by lia. by rewrite <- Nat2Z.inj_succ.
  - destruct k; [|lia]. exfalso. apply E. apply Z.div_small. change (Z.of_nat 1) with 1 in Hk. rewrite Z.pow_1_r in Hk. lia.
Qed.

Lemma consputc_small c : c < BACKSPACE → consputc c = [c].
Proof. intros H. unfold consputc. by rewrite (proj2 (Z.eqb_neq _ _)) by lia. Qed.
Lemma concat_consputc l : Forall (λ c, c < BACKSPACE) l → concat (map consputc l) = l.
Proof. induction 1 as [|c l Hc _ IH]; [done|]. cbn [map concat]. by rewrite consputc_small, IH by done. Qed.

Lemma digit_table d : 0 ≤ d < 16 →
  0 ≤ digit digits d < 128 ∧ 0 ≤ digit DIGITS d < 128 ∧ (d < 10 → digit digits d = 48 + d ∧ digit DIGITS d = 48 + d).
Proof.
  intros Hd.
  assert (Forall (λ d, 0 ≤ digit digits d < 128 ∧ 0 ≤ digit DIGITS d < 128 ∧
    (d < 10 → digit digits d = 48 + d ∧ digit DIGITS d = 48 + d)) (seqZ 0 16)) as F.
  { cbv [seqZ seq fmap list_fmap Z.to_nat Pos.to_nat Pos.iter_op Nat.add Z.of_nat Z.add Pos.of_succ_nat Pos.succ].
    repeat (constructor; [vm_compute; split_and!; (discriminate || reflexivity || (intros; lia) || (intros; split; reflexivity))|]).
    constructor. }
  rewrite Forall_forall in F. apply F, elem_of_seqZ. lia.
Qed.

(** [printint] prints its buffer backwards. *)
Lemma int_buf_spec tab xx base sign :
  base = 10 ∨ base = 16 → - 2 ^ 31 ≤ xx < 2 ^ 31 →
  let neg := sign && (xx <? 0) in
  let x := if neg then - xx else u32 xx in
  ∃ ds, int_buf tab xx base sign = map (digit tab) ds ++ (if neg then [45] else []) ∧
    value base ds = x ∧ Forall (λ d, 0 ≤ d < base) ds ∧ ds ≠ [] ∧ (length ds ≤ 10)%nat.
Proof.
  intros Hb Hx neg x. exists (digits_of 32 x base). unfold int_buf. fold neg.
  assert (u32 (if neg then - xx else xx) = x ∧ 0 ≤ x < 2 ^ 32) as [-> Hx32].
  { unfold x, neg. destruct sign; cbn [andb]; [|split; [done|apply u32_range]].
    destruct (Z.ltb_spec xx 0); [rewrite u32_small|split; [done|apply u32_range]]; lia. }
  rewrite int_digits_of. split; [done|].
  destruct (digits_of_spec 32 x base) as (V & F & N & L); [lia|destruct Hb as [-> | ->]; simpl; lia|lia|].
  split_and!; try done. apply L; [|lia]. destruct Hb as [-> | ->]; simpl; lia.
Qed.

Lemma digits_ascii ds base : base ≤ 16 → Forall (λ d, 0 ≤ d < base) ds → Forall (λ c, c < BACKSPACE) (map (digit digits) ds).
Proof.
  intros Hb H. induction H as [|d ds Hd _ IH]; [constructor|]. constructor; [|done].
  destruct (digit_table d) as (? & _); [lia|]. unfold BACKSPACE. lia.
Qed.

Lemma printint_rev xx base sign :
  base = 10 ∨ base = 16 → - 2 ^ 31 ≤ xx < 2 ^ 31 → printint xx base sign = rev (int_buf digits xx base sign).
Proof.
  intros Hb Hx. unfold printint. apply concat_consputc.
  destruct (int_buf_spec digits xx base sign Hb Hx) as (ds & -> & _ & F & _ & _).
  apply Forall_rev, Forall_app. split.
  - apply (digits_ascii ds base); [lia|done].
  - destruct (sign && _); [|constructor]. constructor; [unfold BACKSPACE; lia|constructor].
Qed.

(** Reading decimal digits, highest first. *)
Definition read_dec (n : Z) (l : list Z) : Z := foldl (λ n d, 10 * n + d) n l.
Lemma read_dec_mono n l : 0 ≤ n → Forall (λ d, 0 ≤ d < 10) l → n ≤ read_dec n l.
Proof.
  intros Hn F. revert n Hn. induction F as [|d l Hd _ IH]; intros n Hn; [done|].
  unfold read_dec. cbn [foldl]. fold (read_dec (10 * n + d) l). specialize (IH (10 * n + d) ltac:(lia)). lia.
Qed.
Lemma read_dec_rev n ds : read_dec n (rev ds) = n * 10 ^ Z.of_nat (length ds) + value 10 ds.
Proof.
  unfold read_dec. induction ds as [|d ds IH]; [simpl; lia|]. cbn [rev]. rewrite foldl_app. cbn [foldl length value].
  rewrite IH, Nat2Z.inj_succ, Z.pow_succ_r by lia. lia.
Qed.
(** A text that does not begin with a digit. *)
Definition no_digit (rest : list Z) : Prop := match rest with [] => True | c :: _ => c < 48 ∨ 57 < c end.
Lemma atoi_loop_spec tab l rest n :
  tab = digits ∨ tab = DIGITS → Forall (λ d, 0 ≤ d < 10) l → 0 ≤ n → read_dec n l < 2 ^ 31 → no_digit rest →
  atoi_loop (map (digit tab) l ++ rest) n = read_dec n l.
Proof.
  intros Ht F. revert n. induction F as [|d l Hd F IH]; intros n Hn Hlt Hr.
  { simpl. destruct rest as [|c rest]; simpl in *; [done|].
    destruct (Z.leb_spec 48 c), (Z.leb_spec c 57); simpl; try lia; done. }
  cbn [map app atoi_loop]. destruct (digit_table d) as (_ & _ & Hdt); [lia|]. destruct (Hdt ltac:(lia)) as [E1 E2].
  assert (digit tab d = 48 + d) as -> by (by destruct Ht as [-> | ->]).
  rewrite (proj2 (Z.leb_le 48 _)), (proj2 (Z.leb_le _ 57)) by lia. cbn [andb].
  unfold read_dec in Hlt. cbn [foldl] in Hlt. fold (read_dec (10 * n + d) l) in Hlt.
  pose proof (read_dec_mono (10 * n + d) l ltac:(lia) F).
  rewrite (i32_small (n * 10)) by lia. rewrite i32_small by lia.
  replace (n * 10 + (48 + d) - 48) with (10 * n + d) by lia. by apply IH; [lia| |].
Qed.

Lemma atoi_pos s : (match s with 45 :: _ => False | _ => True end) → atoi s = i32 (atoi_loop s 0 * 1).
Proof.
  unfold atoi. destruct s as [|c s]; [done|]. destruct c as [|p|p]; try done.
  do 6 (destruct p as [p|p|]; try done).
Qed.

Lemma atoi_buf tab xx rest :
  tab = digits ∨ tab = DIGITS → - 2 ^ 31 < xx < 2 ^ 31 → no_digit rest →
  atoi (rev (int_buf tab xx 10 true) ++ rest) = xx.
Proof.
  intros Ht Hx Hr. destruct (int_buf_spec tab xx 10 true) as (ds & -> & V & F & N & _); [lia|lia|].
  cbn [andb] in *. rewrite rev_app_distr, <- map_rev.
  assert (Forall (λ d, 0 ≤ d < 10) (rev ds)) as Fr by (by apply Forall_rev).
  assert (read_dec 0 (rev ds) = value 10 ds) as Er by (rewrite read_dec_rev; lia).
  destruct (Z.ltb_spec xx 0) as [Hn|Hn].
  - cbn [rev app atoi]. rewrite atoi_loop_spec by (try done; lia). rewrite i32_small; lia.
  - rewrite u32_small in V by lia. cbn [rev app]. rewrite atoi_pos.
    + rewrite atoi_loop_spec by (try done; lia). rewrite i32_small; lia.
    + destruct (rev ds) as [|d l] eqn:E.
      { apply (f_equal (@rev Z)) in E. rewrite rev_involutive in E. done. }
      inversion Fr as [|? ? Hd _]; subst. cbn [map app].
      destruct (digit_table d) as (_ & _ & Hdt); [lia|]. destruct (Hdt ltac:(lia)) as [E1 E2].
      assert (digit tab d = 48 + d) as -> by (by destruct Ht as [-> | ->]).
      destruct (48 + d) as [|p|p] eqn:E3; try done. do 6 (destruct p as [p|p|]; try done). lia.
Qed.

Lemma int_buf_case xx sign : int_buf DIGITS xx 10 sign = int_buf digits xx 10 sign.
Proof.
  unfold int_buf. set (neg := sign && (xx <? 0)). set (x := u32 (if neg then - xx else xx)).
  rewrite !int_digits_of. apply (f_equal (λ l, l ++ _)). apply map_ext_Forall.
  destruct (digits_of_spec 32 x 10) as (_ & F & _);
    [lia|pose proof (u32_range (if neg then - xx else xx)); unfold x; simpl; lia|lia|].
  eapply Forall_impl; [exact F|]. intros d Hd. cbv beta in *. destruct (digit_table d) as (_ & _ & Ht); [lia|].
  destruct Ht as [-> ->]; [lia|done].
Qed.

Lemma atoi_zeros k s : (0 < k)%nat → atoi (replicate k 48 ++ s) = i32 (atoi_loop s 0 * 1).
Proof.
  intros Hk. rewrite atoi_pos by (by destruct k; [lia|]). do 2 f_equal. clear Hk. induction k as [|k IH]; [done|].
  cbn [replicate app atoi_loop]. exact IH.
Qed.

Lemma print_atoi_spec xx width :
  - 2 ^ 31 < xx < 2 ^ 31 →
  atoi (printint xx 10 true) = xx ∧
  (∃ k, uprintint xx 10 true width false = replicate k 32 ++ printint xx 10 true) ∧
  (0 ≤ xx → atoi (uprintint xx 10 true width true) = xx).
Proof.
  intros Hx. unfold uprintint. rewrite printint_rev, int_buf_case by lia. set (k := Z.to_nat _).
  pose proof (atoi_buf digits xx [] ltac:(by left) Hx I) as Ha. rewrite app_nil_r in Ha.
  split; [done|]. split; [by exists k|]. intros H0. destruct k as [|k]; [done|].
  rewrite atoi_zeros by lia. rewrite <- Ha at 2. rewrite atoi_pos; [done|].
  destruct (int_buf_spec digits xx 10 true) as (ds & -> & V & F & N & _); [lia|lia|].
  cbn [andb]. rewrite (proj2 (Z.ltb_ge xx 0)), app_nil_r, <- map_rev by lia.
  assert (Forall (λ d, 0 ≤ d < 10) (rev ds)) as Fr by (by apply Forall_rev).
  destruct (rev ds) as [|d l] eqn:E; [done|].
  inversion Fr as [|? ? Hd _]; subst. cbn [map app].
  destruct (digit_table d) as (_ & _ & Hdt); [lia|]. destruct (Hdt ltac:(lia)) as [-> _].
  destruct (48 + d) as [|p|p] eqn:E3; try done. do 6 (destruct p as [p|p|]; try done). lia.
Qed.

(** ** Properties *)

(** numbers survive printing: for every [int] above the least one, what the
    kernel's [printint] prints in decimal is read back by [atoi] as the same
    number; the user library prints the same text after blanks up to the width,
    and with zero padding a non-negative number is still read back. *)
Theorem print_atoi_roundtrip (xx width : Z) :
  - 2 ^ 31 < xx < 2 ^ 31 →
  atoi (printint xx 10 true) = xx ∧
  (∃ k, uprintint xx 10 true width false = replicate k 32 ++ printint xx 10 true) ∧
  (0 ≤ xx → atoi (uprintint xx 10 true width true) = xx).
Proof. apply print_atoi_spec. Qed.
Lemma print_atoi_roundtrip_witness : atoi (printint (-2024) 10 true) = -2024.
Proof. exact (proj1 (print_atoi_roundtrip (-2024) 0 ltac:(lia))). Defined.

(** the 16-byte buffer of both [printint]s never overflows: with the bases
    the format strings use, any [int] takes between 1 and 11 characters, the
    sign included, even the least one. *)
Theorem printint_buffer_bound (tab : list Z) (xx base : Z) (sign : bool) :
  base = 10 ∨ base = 16 → - 2 ^ 31 ≤ xx < 2 ^ 31 →
  (1 ≤ length (int_buf tab xx base sign) ≤ 11)%nat.
Proof.
  intros Hb Hx. destruct (int_buf_spec tab xx base sign Hb Hx) as (ds & -> & _ & _ & N & L).
  rewrite length_app, length_map. destruct ds as [|d ds]; [done|]. simpl in *. destruct (sign && _); simpl; lia.
Qed.
Lemma printint_buffer_bound_witness : (1 ≤ length (int_buf digits (-2147483648) 10 true) ≤ 11)%nat.
Proof. apply (printint_buffer_bound digits (-2147483648) 10 true); lia. Defined.

(** The format as pieces, and what each prints. *)
Inductive piece := Text (c : Z) | Dec | Hex | Ptr | Str | Percent | Other (c : Z).
Definition piece_ok (p : piece) : Prop :=
  match p with
  | Text c => c ≠ 37 ∧ 0 < c < 256
  | Other c => c ∉ [100; 120; 112; 115; 37] ∧ 0 < c < 256
  | _ => True
  end.
Definition encode (p : piece) : list Z :=
  match p with
  | Text c => [c] | Dec => [37; 100] | Hex => [37; 120] | Ptr => [37; 112] | Str => [37; 115]
  | Percent => [37; 37] | Other c => [37; c]
  end.
Definition takes_arg (p : piece) : bool := match p with Dec | Hex | Ptr | Str => true | _ => false end.
Definition render (str : Z → list Z) (a : Z) (p : piece) : list Z :=
  match p with
  | Text c => [c] | Percent => [37] | Other c => [37; c]
  | Dec => printint (i32 a) 10 true | Hex => printint (i32 a) 16 true | Ptr => printptr (u64 a)
  | Str => printstring (if a =? 0 then null_text else str a)
  end.
Fixpoint render_all (str : Z → list Z) (ap : nat → Z) (k : nat) (ps : list piece) : list Z :=
  match ps with
  | [] => []
  | p :: ps => render str (ap k) p ++ render_all str ap (if takes_arg p then S k else k) ps
  end.

(** [printf] is the rendering of its format piece by piece: text is copied,
    each conversion prints its own argument and no other, [%%] prints a percent
    sign, an unknown conversion prints itself and takes no argument. *)
Theorem printf_renders (str : Z → list Z) (ap : nat → Z) (ps : list piece) :
  Forall piece_ok ps →
  printf str (Some (concat (map encode ps))) ap = Some (render_all str ap 0 ps).
Proof.
  intros F. unfold printf. f_equal. generalize 0%nat as k. induction F as [|p ps Hp _ IH]; intros k; [done|].
  destruct p as [c| | | | | |c]; cbn [map concat encode app render_all render takes_arg printf_loop]; try (cbn -[printint printptr printstring]; by rewrite <- IH).
  - destruct Hp as [Hp Hr]. rewrite (proj2 (Z.eqb_neq c 37)) by done. cbn [negb].
    rewrite consputc_small by (unfold BACKSPACE; lia). by rewrite IH.
  - destruct Hp as [Hp Hr]. rewrite !not_elem_of_cons in Hp. destruct Hp as (? & ? & ? & ? & ? & _).
    cbn [Z.eqb Pos.eqb negb]. rewrite !(proj2 (Z.eqb_neq c _)) by done.
    rewrite (consputc_small c) by (unfold BACKSPACE; lia). cbn [consputc]. by rewrite IH.
Qed.
Lemma printf_renders_witness :
  printf (λ _, chars "init") (Some (chars "%d %s")) (λ k, if (k =? 0)%nat then 7 else 1) = Some (chars "7 init").
Proof.
  change (chars "%d %s") with (concat (map encode [Dec; Text 32; Str])).
  rewrite (printf_renders (λ _, chars "init") (λ k, if (k =? 0)%nat then 7 else 1) [Dec; Text 32; Str]); [reflexivity|].
  repeat constructor; done.
Defined.

(** The comment of the user library promises [%ld] and [%04d]: [%ld] leaves the
    [d] in the output, and zero padding puts the zeros before the sign. *)
Theorem uprintf_ld_and_negative_padding (str : Z → list Z) (v : Z) :
  0 ≤ v < 2 ^ 31 →
  uprintf str (chars "%ld") (λ _, v) = printint v 10 false ++ [100] ∧
  uprintf str (chars "%04d") (λ _, -3) = chars "00-3".
Proof.
  intros Hv. split; [|reflexivity]. unfold uprintf. cbn -[uprintint i32 int_buf printint].
  f_equal. rewrite i32_small by lia. unfold uprintint. rewrite int_buf_case, printint_rev by lia.
  rewrite (proj2 (Z.ltb_ge _ 0)) by lia. done.
Qed.
