(* ===== verification/Riscv.v ===== *)
(** * Machine constants and address arithmetic

    kernel/include/riscv.h (page and PTE macros) and
    kernel/include/memlayout.h (the QEMU configuration, the one the Makefile
    builds by default).  The symbols the linker script provides are the class
    [Layout]. *)
From stdpp Require Import prelude list strings.
From Stdlib Require Import ZArith Lia.
From S2P Require Import Prelude.
Open Scope Z_scope.

Definition PGSIZE : Z := 4096.
Definition PGSHIFT : Z := 12.
Definition PGROUNDUP (sz : Z) : Z := Z.land (u64 (sz + PGSIZE - 1)) (Z.lnot (PGSIZE - 1)).
Definition PGROUNDDOWN (a : Z) : Z := Z.land a (Z.lnot (PGSIZE - 1)).

Definition PTE_V : Z := 1.
Definition PTE_R : Z := 2.
Definition PTE_W : Z := 4.
Definition PTE_X : Z := 8.
Definition PTE_U : Z := 16.
Definition PTE_COW : Z := 512.

Definition PA2PTE (pa : Z) : Z := u64 (Z.shiftl (Z.shiftr pa 12) 10).
Definition PTE2PA (pte : Z) : Z := u64 (Z.shiftl (Z.shiftr pte 10) 12).
Definition PTE_FLAGS (pte : Z) : Z := Z.land pte 1023.

Definition PXMASK : Z := 511.
Definition PXSHIFT (level : Z) : Z := PGSHIFT + 9 * level.
Definition PX (level va : Z) : Z := Z.land (Z.shiftr va (PXSHIFT level)) PXMASK.

Definition MAXVA : Z := 2 ^ 38.
Definition MAKE_SATP (pagetable : Z) : Z := Z.lor (Z.shiftl 8 60) (Z.shiftr pagetable 12).

Definition KERNBASE : Z := 2149580800.   (* 0x80200000 *)
Definition PHYSTOP : Z := 2153775104.    (* 0x80600000 *)
Definition RUSTSBI_BASE : Z := 2147483648. (* 0x80000000 *)
Definition MAXUVA : Z := RUSTSBI_BASE.
Definition TRAMPOLINE : Z := MAXVA - PGSIZE.
Definition TRAPFRAME : Z := TRAMPOLINE - PGSIZE.
Definition VKSTACK : Z := 269509197824.  (* 0x3EC0000000 *)

Definition VIRT_OFFSET : Z := 270582939648.  (* 0x3F00000000 *)
Definition UART : Z := 268435456.            (* 0x10000000 *)
Definition UART_V : Z := UART + VIRT_OFFSET.
Definition VIRTIO0 : Z := 268439552.         (* 0x10001000 *)
Definition VIRTIO0_V : Z := VIRTIO0 + VIRT_OFFSET.
Definition CLINT : Z := 33554432.            (* 0x02000000 *)
Definition CLINT_V : Z := CLINT + VIRT_OFFSET.
Definition PLIC : Z := 201326592.            (* 0x0c000000 *)
Definition PLIC_V : Z := PLIC + VIRT_OFFSET.

(** Addresses fixed when the kernel is linked (linker/qemu.ld): the end of the
    kernel image, the end of its text and the trampoline page. *)
Class Layout := {
  kernel_end : Z;
  etext : Z;
  trampoline : Z;
  layout_end : KERNBASE ≤ kernel_end ≤ PHYSTOP;
  layout_etext : KERNBASE < etext < kernel_end;
  layout_etext_aligned : etext mod PGSIZE = 0;
  layout_tramp : KERNBASE ≤ trampoline < etext;
  layout_tramp_aligned : trampoline mod PGSIZE = 0 }.

(** A small arena for closed examples: the last sixteen pages of RAM are managed. *)
#[local] Obligation Tactic := (vm_compute; intuition congruence).
#[program] Definition small_layout : Layout := {|
  kernel_end := 2153709568; etext := 2149584896; trampoline := 2149580800 |}.

(** A physical page the allocator manages. *)
Definition page_ok `{Layout} (pa : Z) : Prop :=
  pa mod PGSIZE = 0 ∧ kernel_end ≤ pa < PHYSTOP.

(** ** Rounding *)

Lemma land_lnot_pow2 a k : 0 ≤ k → Z.land a (Z.lnot (2 ^ k - 1)) = a - a mod 2 ^ k.
Proof.
  intros Hk. replace (2 ^ k - 1) with (Z.ones k) by (rewrite Z.ones_equiv; lia).
  rewrite <- Z.ldiff_land, Z.ldiff_ones_r, Z.shiftr_div_pow2, Z.shiftl_mul_pow2 by lia.
  pose proof (Z.div_mod a (2 ^ k)). lia.
Qed.

Lemma PGROUNDDOWN_eq a : PGROUNDDOWN a = a - a mod PGSIZE.
Proof. apply (land_lnot_pow2 a 12). lia. Qed.

Lemma PGROUNDUP_eq sz :
  0 ≤ sz → sz + 4095 < 2 ^ 64 → PGROUNDUP sz = (sz + 4095) - (sz + 4095) mod PGSIZE.
Proof.
  intros H1 H2. unfold PGROUNDUP.
  replace (sz + PGSIZE - 1) with (sz + 4095) by (unfold PGSIZE; lia).
  rewrite u64_small by lia. apply (land_lnot_pow2 _ 12). lia.
Qed.

Lemma PGROUNDDOWN_le a : PGROUNDDOWN a ≤ a < PGROUNDDOWN a + PGSIZE.
Proof. rewrite PGROUNDDOWN_eq. pose proof (Z.mod_pos_bound a PGSIZE). unfold PGSIZE in *. lia. Qed.

Lemma PGROUNDDOWN_aligned a : PGROUNDDOWN a mod PGSIZE = 0.
Proof.
  rewrite PGROUNDDOWN_eq. unfold PGSIZE. rewrite Zminus_mod_idemp_r, Z.sub_diag. done.
Qed.

Lemma PGROUNDDOWN_id a : a mod PGSIZE = 0 → PGROUNDDOWN a = a.
Proof. intros H. rewrite PGROUNDDOWN_eq. lia. Qed.

Lemma PGROUNDUP_aligned a : PGROUNDUP a mod PGSIZE = 0.
Proof. exact (PGROUNDDOWN_aligned (u64 (a + PGSIZE - 1))). Qed.

Lemma PGROUNDUP_bounds sz :
  0 ≤ sz → sz + 4095 < 2 ^ 64 → sz ≤ PGROUNDUP sz < sz + PGSIZE.
Proof.
  intros H1 H2. rewrite PGROUNDUP_eq by done.
  pose proof (Z.mod_pos_bound (sz + 4095) PGSIZE). unfold PGSIZE in *. lia.
Qed.

Lemma PGROUNDUP_id a : 0 ≤ a < 2 ^ 64 - 4096 → a mod PGSIZE = 0 → PGROUNDUP a = a.
Proof.
  intros H1 H2. rewrite PGROUNDUP_eq by lia. unfold PGSIZE in *.
  rewrite Z.add_mod, H2 by lia. change ((0 + 4095 mod 4096) mod 4096) with 4095. lia.
Qed.

(** ** Page-table indices *)

Lemma PX_eq level va : 0 ≤ level → PX level va = (va / 2 ^ (12 + 9 * level)) mod 512.
Proof.
  intros H. unfold PX, PXSHIFT, PGSHIFT, PXMASK.
  rewrite Z.shiftr_div_pow2 by lia. exact (Z.land_ones _ 9 ltac:(lia)).
Qed.

Lemma PX_range level va : 0 ≤ level → 0 ≤ PX level va < 512.
Proof. intros H. rewrite PX_eq by done. apply Z.mod_pos_bound. lia. Qed.

(** The three indices and the page offset determine the address. *)
Lemma PX_decompose va :
  0 ≤ va < MAXVA →
  va = PX 2 va * 2 ^ 30 + PX 1 va * 2 ^ 21 + PX 0 va * 2 ^ 12 + va mod PGSIZE.
Proof.
  unfold MAXVA, PGSIZE. intros H. rewrite !PX_eq by lia.
  change (2 ^ (12 + 9 * 2)) with (2 ^ 30). change (2 ^ (12 + 9 * 1)) with (2 ^ 21).
  change (2 ^ (12 + 9 * 0)) with (2 ^ 12).
  rewrite (Z.mod_small (va / 2 ^ 30) 512) by (Z.div_mod_to_equations; lia).
  Z.div_mod_to_equations. lia.
Qed.

Lemma PX_inj va va' :
  0 ≤ va < MAXVA → 0 ≤ va' < MAXVA →
  PX 2 va = PX 2 va' → PX 1 va = PX 1 va' → PX 0 va = PX 0 va' →
  PGROUNDDOWN va = PGROUNDDOWN va'.
Proof.
  intros H H' E2 E1 E0. rewrite !PGROUNDDOWN_eq.
  pose proof (PX_decompose va H). pose proof (PX_decompose va' H'). lia.
Qed.

Lemma PX_PGROUNDDOWN level va : 0 ≤ level → PX level (PGROUNDDOWN va) = PX level va.
Proof.
  intros H. rewrite !PX_eq, PGROUNDDOWN_eq by done. unfold PGSIZE. f_equal.
  rewrite Z.pow_add_r by lia. change (2 ^ 12) with 4096.
  rewrite <- !Z.div_div by lia. f_equal. Z.div_mod_to_equations. lia.
Qed.

(** ** Page-table entries *)

Lemma has_V x : has x PTE_V = Z.testbit x 0.
Proof. apply (has_testbit x 0). lia. Qed.
Lemma has_R x : has x PTE_R = Z.testbit x 1.
Proof. apply (has_testbit x 1). lia. Qed.
Lemma has_W x : has x PTE_W = Z.testbit x 2.
Proof. apply (has_testbit x 2). lia. Qed.
Lemma has_X x : has x PTE_X = Z.testbit x 3.
Proof. apply (has_testbit x 3). lia. Qed.
Lemma has_U x : has x PTE_U = Z.testbit x 4.
Proof. apply (has_testbit x 4). lia. Qed.
Lemma has_COW x : has x PTE_COW = Z.testbit x 9.
Proof. apply (has_testbit x 9). lia. Qed.

(** The entry that maps [pa] with the flag bits [fl]. *)
Definition mk_pte (pa fl : Z) : Z := Z.lor (Z.lor (PA2PTE pa) fl) PTE_V.

Lemma PA2PTE_eq pa : pa mod PGSIZE = 0 → 0 ≤ pa < 2 ^ 56 → PA2PTE pa = pa / 4.
Proof.
  intros H1 H2. unfold PA2PTE, PGSIZE in *.
  rewrite Z.shiftr_div_pow2, Z.shiftl_mul_pow2 by lia.
  change (2 ^ 12) with 4096. change (2 ^ 10) with 1024.
  rewrite u64_small; Z.div_mod_to_equations; lia.
Qed.

Lemma pte_low_bits pa i : 0 ≤ i < 10 → Z.testbit (PA2PTE pa) i = false.
Proof.
  intros H. unfold PA2PTE, u64.
  rewrite Z.mod_pow2_bits_low by lia. rewrite Z.shiftl_spec_low by lia. done.
Qed.

Lemma testbit_small x k i : 0 ≤ x < 2 ^ k → k ≤ i → Z.testbit x i = false.
Proof.
  intros H Hi. destruct (Z.eq_dec x 0) as [->|]; [apply Z.bits_0|].
  apply Z.bits_above_log2; [lia|]. pose proof (Z.log2_lt_pow2 x k). lia.
Qed.

Lemma small_of_bits x k :
  0 ≤ k → 0 ≤ x → (∀ i, k ≤ i → Z.testbit x i = false) → x < 2 ^ k.
Proof.
  intros Hk Hx Hb. destruct (Z.le_gt_cases (2 ^ k) x) as [Hle|]; [|lia]. exfalso.
  assert (0 < 2 ^ k) by lia.
  assert (k ≤ Z.log2 x) by (apply Z.log2_le_pow2; lia).
  specialize (Hb (Z.log2 x) H0). rewrite Z.bit_log2 in Hb by lia. done.
Qed.

Lemma lor_small x y k : 0 ≤ k → 0 ≤ x < 2 ^ k → 0 ≤ y < 2 ^ k → 0 ≤ Z.lor x y < 2 ^ k.
Proof.
  intros Hk Hx Hy. assert (0 ≤ Z.lor x y) by (apply Z.lor_nonneg; lia).
  split; [done|]. apply small_of_bits; [done..|]. intros i Hi.
  rewrite Z.lor_spec, !(testbit_small _ k) by done. done.
Qed.

Lemma land_small_r x y k : 0 ≤ k → 0 ≤ y < 2 ^ k → 0 ≤ Z.land x y < 2 ^ k.
Proof.
  intros Hk Hy. assert (0 ≤ Z.land x y) by (apply Z.land_nonneg; lia).
  split; [done|]. apply small_of_bits; [done..|]. intros i Hi.
  rewrite Z.land_spec, (testbit_small y k) by done. apply andb_false_r.
Qed.

Lemma PTE_FLAGS_range pte : 0 ≤ PTE_FLAGS pte < 2 ^ 10.
Proof. apply land_small_r; lia. Qed.

Section Pte.
Context (pa fl : Z).
Hypothesis Hal : pa mod PGSIZE = 0.
Hypothesis Hpa : 0 ≤ pa < 2 ^ 56.
Hypothesis Hfl : 0 ≤ fl < 2 ^ 10.

Lemma mk_pte_range : 0 ≤ mk_pte pa fl < 2 ^ 64.
Proof.
  unfold mk_pte. apply lor_small; [lia| |unfold PTE_V; lia].
  apply lor_small; [lia|apply u64_range|lia].
Qed.

Lemma mk_pte_testbit_low i :
  0 ≤ i < 10 → Z.testbit (mk_pte pa fl) i = Z.testbit fl i || Z.testbit PTE_V i.
Proof.
  intros Hi. unfold mk_pte. rewrite !Z.lor_spec, pte_low_bits by lia. done.
Qed.

Lemma mk_pte_valid : has (mk_pte pa fl) PTE_V = true.
Proof. rewrite has_V, mk_pte_testbit_low by lia. apply orb_true_r. Qed.

Lemma mk_pte_PTE_FLAGS : PTE_FLAGS (mk_pte pa fl) = Z.lor fl PTE_V.
Proof.
  unfold PTE_FLAGS. apply Z.bits_inj'. intros i Hi.
  rewrite Z.land_spec, Z.lor_spec. change 1023 with (Z.ones 10).
  rewrite Z.testbit_ones_nonneg by lia.
  destruct (Z.ltb_spec i 10).
  - rewrite mk_pte_testbit_low, andb_true_r by lia. done.
  - rewrite andb_false_r, (testbit_small fl 10), (testbit_small PTE_V 10) by (unfold PTE_V; lia).
    done.
Qed.

Lemma mk_pte_PTE2PA : PTE2PA (mk_pte pa fl) = pa.
Proof.
  assert (Z.shiftr (mk_pte pa fl) 10 = pa / 4096) as E.
  { unfold mk_pte. rewrite !Z.shiftr_lor, (PA2PTE_eq pa) by done.
    rewrite !Z.shiftr_div_pow2 by lia. change (2 ^ 10) with 1024.
    rewrite (Z.div_small fl) by lia. change (PTE_V / 1024) with 0.
    rewrite !Z.lor_0_r. unfold PGSIZE in Hal. Z.div_mod_to_equations. lia. }
  unfold PTE2PA. rewrite E, Z.shiftl_mul_pow2 by lia. change (2 ^ 12) with 4096.
  unfold PGSIZE in Hal. rewrite u64_small; Z.div_mod_to_equations; lia.
Qed.
End Pte.

Lemma PTE2PA_aligned pte : PTE2PA pte mod PGSIZE = 0.
Proof.
  unfold PTE2PA, PGSIZE, u64. rewrite Z.shiftl_mul_pow2 by lia.
  change (2 ^ 12) with 4096.
  rewrite Z.mod_mod_divide by (exists (2 ^ 52); lia).
  apply Z_mod_mult.
Qed.

Section LayoutLemmas.
Context `{Layout}.

Lemma page_ok_range pa : page_ok pa → KERNBASE ≤ pa ∧ pa + PGSIZE ≤ PHYSTOP.
Proof.
  intros [H1 H2]. pose proof layout_end. unfold PGSIZE, PHYSTOP, KERNBASE in *.
  Z.div_mod_to_equations. lia.
Qed.

Lemma page_ok_small pa : page_ok pa → 0 ≤ pa < 2 ^ 56.
Proof. intros Hp. apply page_ok_range in Hp. unfold KERNBASE, PHYSTOP, PGSIZE in *. lia. Qed.

(** Two distinct aligned pages do not overlap. *)
Lemma pages_disjoint p q x :
  p mod PGSIZE = 0 → q mod PGSIZE = 0 → p ≠ q →
  p ≤ x < p + PGSIZE → q ≤ x < q + PGSIZE → False.
Proof. unfold PGSIZE. intros. Z.div_mod_to_equations. lia. Qed.
End LayoutLemmas.
