(* ===== verification/Kalloc.v ===== *)
(** * Physical page allocator with copy-on-write reference counts

    kernel/kalloc.c.  The free list is threaded through the free pages
    themselves ([struct run]), so it lives in the modelled memory; [npage] and
    [ref_count] are the fields of [kmem] and [page_ref].  A body between
    [acquire] and [release] runs as one step. *)
From stdpp Require Import prelude list strings.
From Stdlib Require Import ZArith Lia.
From S2P Require Import Prelude Riscv.
Open Scope Z_scope.

Record kst := Kst {
  mem : memory;
  freelist : Z;          (* kmem.freelist, 0 is NULL *)
  npage : Z;             (* kmem.npage *)
  ref_count : Z → Z      (* page_ref.ref_count[] *)
}.

Definition set_mem (m : memory) (s : kst) : kst := Kst m (freelist s) (npage s) (ref_count s).
Definition set_freelist (p : Z) (s : kst) : kst := Kst (mem s) p (npage s) (ref_count s).
Definition set_npage (n : Z) (s : kst) : kst := Kst (mem s) (freelist s) n (ref_count s).
Definition set_ref (idx r : Z) (s : kst) : kst :=
  Kst (mem s) (freelist s) (npage s) (upd (ref_count s) idx r).

Definition MAX_PAGE_COUNT : Z := (PHYSTOP - KERNBASE) / PGSIZE.

Definition pa2index (pa : Z) : Z := i32 (u64 (pa - KERNBASE) / PGSIZE).
Definition index2pa (index : Z) : Z := u32 (KERNBASE + index * PGSIZE).
Definition idx_ok (idx : Z) : bool := (0 <=? idx) && (idx <? MAX_PAGE_COUNT).

Definition incref (pa : Z) : M kst unit :=
  let idx := pa2index pa in
  whenM (idx_ok idx) (modify (λ s, set_ref idx (i32 (ref_count s idx + 1)) s)).

Definition decref (pa : Z) : M kst unit :=
  let idx := pa2index pa in
  whenM (idx_ok idx)
    (modify (λ s, if 0 <? ref_count s idx then set_ref idx (ref_count s idx - 1) s else s)).

Definition getref (pa : Z) : M kst Z :=
  let idx := pa2index pa in
  if idx_ok idx then gets (λ s, ref_count s idx) else mretM 0.

Definition memset_page (pa c : Z) : M kst unit :=
  modify (λ s, set_mem (fill (mem s) pa c PGSIZE) s).

Section WithLayout.
Context `{Layout}.

(** The reference-count part of [kfree]: decrement, then tell whether the page
    is still referenced. *)
Definition kfree_unref (pa : Z) : M kst bool :=
  let idx := pa2index pa in
  if idx_ok idx then
    modify (λ s, if 0 <? ref_count s idx then set_ref idx (ref_count s idx - 1) s else s) ;;;
    gets (λ s, 0 <? ref_count s idx)
  else mretM false.

Definition kfree (pa : Z) : M kst unit :=
  if negb (pa mod PGSIZE =? 0) || (pa <? kernel_end) || (PHYSTOP <=? pa)
  then panic "kfree"
  else
    still <-- kfree_unref pa ;;
    if (still : bool) then mretM tt
    else
      memset_page pa 1 ;;;
      modify (λ s, set_mem (store64 (mem s) pa (freelist s)) s) ;;;
      modify (set_freelist pa) ;;;
      modify (λ s, set_npage (u64 (npage s + 1)) s).

Definition kalloc : M kst Z :=
  r <-- gets freelist ;;
  if r =? 0 then mretM 0
  else
    modify (λ s, set_freelist (load64 (mem s) r) s) ;;;
    modify (λ s, set_npage (u64 (npage s - 1)) s) ;;;
    memset_page r 5 ;;;
    whenM (idx_ok (pa2index r)) (modify (set_ref (pa2index r) 1)) ;;;
    mretM r.

Definition freemem_amount : M kst Z := gets (λ s, u64 (Z.shiftl (npage s) PGSHIFT)).

Fixpoint freerange_loop (fuel : nat) (p pa_end : Z) : M kst unit :=
  match fuel with
  | O => panic "fuel"
  | S fuel =>
      if p + PGSIZE <=? pa_end
      then kfree p ;;; freerange_loop fuel (p + PGSIZE) pa_end
      else mretM tt
  end.

Definition freerange (pa_start pa_end : Z) : M kst unit :=
  let p := PGROUNDUP pa_start in
  freerange_loop (S (Z.to_nat ((pa_end - p) / PGSIZE))) p pa_end.

Definition kinit : M kst unit :=
  modify (set_freelist 0) ;;;
  modify (set_npage 0) ;;;
  modify (λ s, Kst (mem s) (freelist s) (npage s)
                   (λ i, if idx_ok i then 0 else ref_count s i)) ;;;
  freerange kernel_end PHYSTOP.

(** ** Invariant *)

(** [chain m h L]: following [next] pointers in [m] from [h] visits [L]. *)
Fixpoint chain (m : memory) (h : Z) (L : list Z) : Prop :=
  match L with
  | [] => h = 0
  | p :: L => h = p ∧ chain m (load64 m p) L
  end.

Record kalloc_inv (s : kst) (L : list Z) : Prop := {
  ki_chain : chain (mem s) (freelist s) L;
  ki_nodup : NoDup L;
  ki_pages : Forall page_ok L;
  ki_npage : npage s = Z.of_nat (length L);
  ki_free_ref : ∀ p, p ∈ L → ref_count s (pa2index p) = 0;
  ki_ref_range : ∀ i, idx_ok i = true → 0 ≤ ref_count s i < 2 ^ 31 }.

(** Every managed page is free or referenced: nothing is lost. *)
Definition no_leak (s : kst) (L : list Z) : Prop :=
  ∀ p, page_ok p → p ∈ L ∨ 0 < ref_count s (pa2index p).

(** What a well-behaved client may do with the allocator. *)
Inductive alloc_step (s s' : kst) : Prop :=
| step_kalloc p : kalloc s = Ok p s' → alloc_step s s'
| step_kfree p :
    page_ok p → 0 < ref_count s (pa2index p) → kfree p s = Ok tt s' → alloc_step s s'
| step_incref p :
    page_ok p → 0 < ref_count s (pa2index p) < 2 ^ 31 - 1 →
    incref p s = Ok tt s' → alloc_step s s'.

(** ** Lemmas *)

Lemma pa2index_page pa : page_ok pa → pa2index pa = (pa - KERNBASE) / PGSIZE.
Proof.
  intros Hp. destruct (page_ok_range _ Hp) as [H1 H2].
  unfold pa2index. unfold KERNBASE, PHYSTOP, PGSIZE in *.
  rewrite u64_small by lia. rewrite i32_small; [done|]. Z.div_mod_to_equations; lia.
Qed.

Lemma idx_ok_page pa : page_ok pa → idx_ok (pa2index pa) = true.
Proof.
  intros Hp. rewrite pa2index_page by done. destruct (page_ok_range _ Hp) as [H1 H2].
  unfold idx_ok. change MAX_PAGE_COUNT with 1024. unfold KERNBASE, PHYSTOP, PGSIZE in *.
  apply andb_true_iff; rewrite Z.leb_le, Z.ltb_lt. Z.div_mod_to_equations; lia.
Qed.

Lemma pa2index_inj p q : page_ok p → page_ok q → pa2index p = pa2index q → p = q.
Proof.
  intros Hp Hq. rewrite !pa2index_page by done.
  destruct Hp as [Hp _], Hq as [Hq _]. unfold KERNBASE, PGSIZE in *.
  Z.div_mod_to_equations; lia.
Qed.

Lemma chain_frame m m' h L :
  chain m h L → (∀ p x, p ∈ L → p ≤ x < p + 8 → m' x = m x) → chain m' h L.
Proof.
  revert h. induction L as [|p L IH]; intros h Hc Hf; [done|].
  destruct Hc as [-> Hc]. split; [done|].
  rewrite (load64_ext m' m) by (intros x Hx; apply (Hf p); [set_solver|done]).
  apply IH; [done|]. intros q x Hq. apply Hf. set_solver.
Qed.

(** A write confined to pages outside the free list keeps the chain. *)
Lemma chain_frame_page m m' h L :
  chain m h L → Forall page_ok L →
  (∀ x, m' x ≠ m x → ∃ q, q mod PGSIZE = 0 ∧ q ∉ L ∧ q ≤ x < q + PGSIZE) →
  chain m' h L.
Proof.
  intros Hc Hok Hf. apply (chain_frame m); [done|]. intros p x Hp Hx.
  destruct (Z.eq_dec (m' x) (m x)) as [|Hne]; [done|exfalso].
  destruct (Hf x Hne) as (q & Hq & HqL & Hqx).
  rewrite Forall_forall in Hok. destruct (Hok p Hp) as [Hal _].
  apply (pages_disjoint p q x); [done|done|congruence|unfold PGSIZE; lia|done].
Qed.

Lemma kalloc_inv_frame s m' L :
  kalloc_inv s L →
  (∀ x, m' x ≠ mem s x → ∃ q, q mod PGSIZE = 0 ∧ q ∉ L ∧ q ≤ x < q + PGSIZE) →
  kalloc_inv (set_mem m' s) L.
Proof.
  intros [Hc Hn Hp Hl Hr Hrr] Hf. split; try done. by eapply chain_frame_page.
Qed.

Lemma kalloc_empty s : kalloc_inv s [] → kalloc s = Ok 0 s.
Proof. intros Hi. destruct Hi as [Hc _ _ _ _ _]. unfold kalloc, mbindM, gets. by rewrite Hc. Qed.

(** The state after [kalloc] takes page [p] off a free list whose next page is
    [next]. *)
Definition kalloc_post (p next : Z) (s : kst) : kst :=
  Kst (fill (mem s) p 5 PGSIZE) next (npage s - 1) (upd (ref_count s) (pa2index p) 1).

Lemma free_length_bound L : NoDup L → Forall page_ok L → Z.of_nat (length L) ≤ 1024.
Proof.
  intros Hn Hp. rewrite Forall_forall in Hp.
  assert (pa2index <$> L ⊆+ seqZ 0 1024) as Hsub.
  { apply NoDup_submseteq.
    - apply NoDup_fmap_2_strong; [|done]. intros x y Hx Hy. apply pa2index_inj; auto.
    - intros i (q & -> & Hq)%list_elem_of_fmap. apply elem_of_seqZ.
      pose proof (idx_ok_page q (Hp q Hq)) as Hi. unfold idx_ok in Hi.
      change MAX_PAGE_COUNT with 1024 in Hi. bool_prop. lia. }
  apply submseteq_length in Hsub. rewrite length_fmap, length_seqZ in Hsub. lia.
Qed.

Lemma kalloc_cons s p L :
  kalloc_inv s (p :: L) →
  kalloc s = Ok p (kalloc_post p (load64 (mem s) p) s) ∧
  kalloc_inv (kalloc_post p (load64 (mem s) p) s) L.
Proof.
  intros [Hc Hn Hp Hl Hr Hrr]. pose proof (free_length_bound _ Hn Hp) as Hb.
  destruct Hc as [Hh Hc].
  apply Forall_cons in Hp as [Hpp Hp]. apply NoDup_cons in Hn as [HpL Hn].
  simpl length in *.
  pose proof (page_ok_range _ Hpp) as Hrange. unfold KERNBASE in Hrange.
  split.
  - unfold kalloc, mbindM, gets, modify, memset_page, whenM, mretM.
    rewrite Hh. destruct (Z.eqb_spec p 0) as [|_]; [lia|].
    rewrite idx_ok_page by done. unfold modify, set_freelist, set_npage, set_mem, set_ref. simpl.
    rewrite u64_small by lia. done.
  - split; simpl; try done.
    + apply (chain_frame_page (mem s)); [done..|]. intros x Hx.
      exists p. split; [by destruct Hpp|split; [done|]].
      destruct (decide (p ≤ x < p + PGSIZE)) as [|Hd]; [done|].
      by rewrite fill_other in Hx.
    + lia.
    + intros q Hq. rewrite upd_ne; [apply Hr; set_solver|].
      intros E. apply pa2index_inj in E; [by subst q|by rewrite Forall_forall in Hp; auto|done].
    + intros i Hi. unfold upd. case_if; [lia|auto].
Qed.

Definition kfree_post (p : Z) (s : kst) : kst :=
  Kst (store64 (fill (mem s) p 1 PGSIZE) p (freelist s)) p (npage s + 1)
      (if 0 <? ref_count s (pa2index p)
       then upd (ref_count s) (pa2index p) (ref_count s (pa2index p) - 1)
       else ref_count s).

Lemma kfree_guard p : page_ok p →
  negb (p mod PGSIZE =? 0) || (p <? kernel_end) || (PHYSTOP <=? p) = false.
Proof.
  intros [H1 H2]. rewrite H1. simpl.
  apply orb_false_iff. rewrite Z.ltb_ge, Z.leb_gt. lia.
Qed.

Lemma kfree_bad p s : ¬ page_ok p → kfree p s = Panic "kfree".
Proof.
  intros Hp. unfold kfree. case_if; [done|]. exfalso. apply Hp.
  unfold page_ok. bool_prop. lia.
Qed.

(** Still referenced elsewhere: only the count changes. *)
Lemma kfree_shared p s :
  page_ok p → 1 < ref_count s (pa2index p) →
  kfree p s = Ok tt (set_ref (pa2index p) (ref_count s (pa2index p) - 1) s).
Proof.
  intros Hp Hr. unfold kfree. rewrite kfree_guard by done.
  unfold kfree_unref. rewrite idx_ok_page by done.
  unfold mbindM, modify, gets.
  destruct (Z.ltb_spec 0 (ref_count s (pa2index p))) as [_|]; [|lia]. simpl.
  rewrite upd_eq. destruct (Z.ltb_spec 0 (ref_count s (pa2index p) - 1)) as [_|]; [done|lia].
Qed.

Lemma kfree_free p s L :
  kalloc_inv s L → page_ok p → p ∉ L → ref_count s (pa2index p) ≤ 1 →
  kfree p s = Ok tt (kfree_post p s) ∧ kalloc_inv (kfree_post p s) (p :: L).
Proof.
  intros [Hc Hn Hp Hl Hr Hrr] Hpp HpL Hle.
  pose proof (free_length_bound L Hn Hp) as Hb.
  pose proof (Hrr _ (idx_ok_page p Hpp)) as Hrp. split.
  - unfold kfree. rewrite kfree_guard by done.
    unfold kfree_unref. rewrite idx_ok_page by done.
    unfold mbindM, memset_page, modify, gets, mretM, kfree_post.
    destruct (Z.ltb_spec 0 (ref_count s (pa2index p))); simpl; rewrite ?upd_eq.
    + destruct (Z.ltb_spec 0 (ref_count s (pa2index p) - 1)); [lia|].
      unfold set_mem, set_freelist, set_npage. simpl. rewrite u64_small by lia. done.
    + destruct (Z.ltb_spec 0 (ref_count s (pa2index p))); [lia|].
      unfold set_mem, set_freelist, set_npage. simpl. rewrite u64_small by lia. done.
  - assert (page_ok p) as [Hal _] by done. split; simpl.
    + split; [done|]. rewrite load64_store64_eq.
      rewrite u64_small.
      * apply (chain_frame_page (mem s)); [done..|]. intros x Hx. exists p. split; [done|split; [done|]].
        destruct (decide (p ≤ x < p + PGSIZE)) as [|Hd]; [done|].
        unfold PGSIZE in Hd. rewrite store64_other, fill_other in Hx by (unfold PGSIZE; lia). done.
      * destruct L as [|q L]; simpl in Hc; [rewrite Hc; lia|].
        destruct Hc as [-> _]. apply Forall_cons in Hp as [Hq _].
        apply page_ok_small in Hq. lia.
    + by apply NoDup_cons.
    + by apply Forall_cons.
    + lia.
    + assert (∀ q, q ∈ L → pa2index q ≠ pa2index p) as Hne.
      { intros q Hq E. apply pa2index_inj in E; [by subst q|rewrite Forall_forall in Hp; auto|done]. }
      intros q [->|Hq]%elem_of_cons.
      * destruct (Z.ltb_spec 0 (ref_count s (pa2index p))); rewrite ?upd_eq; lia.
      * destruct (Z.ltb_spec 0 (ref_count s (pa2index p))); rewrite ?upd_ne by auto; auto.
    + intros i Hi. destruct (Z.ltb_spec 0 (ref_count s (pa2index p))); [|auto].
      unfold upd. case_if; [subst i; lia|auto].
Qed.
(** ** Boot *)

Fixpoint pages (n : nat) (p : Z) : list Z :=
  match n with O => [] | S n => p :: pages n (p + PGSIZE) end.

Lemma elem_of_pages n p q :
  q ∈ pages n p ↔ ∃ k : nat, (k < n)%nat ∧ q = p + Z.of_nat k * PGSIZE.
Proof.
  revert p. induction n as [|n IH]; intros p; simpl.
  - rewrite elem_of_nil. split; [done|]. intros (k & Hk & _). lia.
  - rewrite elem_of_cons, IH. split.
    + intros [->|(k & Hk & ->)]; [exists O; lia|exists (S k); lia].
    + intros ([|k] & Hk & ->); [left; lia|right; exists k; lia].
Qed.

Lemma freerange_loop_spec n p pa_end s L :
  kalloc_inv s L →
  (∀ q, q ∈ pages n p → page_ok q ∧ q ∉ L ∧ ref_count s (pa2index q) = 0) →
  p + Z.of_nat n * PGSIZE ≤ pa_end < p + (Z.of_nat n + 1) * PGSIZE →
  ∃ s', freerange_loop (S n) p pa_end s = Ok tt s' ∧
        kalloc_inv s' (rev (pages n p) ++ L) ∧ ref_count s' = ref_count s.
Proof.
  revert p s L. induction n as [|n IH]; intros p s L Hi Hq Hend.
  - exists s. simpl. destruct (Z.leb_spec (p + PGSIZE) pa_end); [lia|done].
  - destruct (Hq p) as (Hok & HpL & Hr); [simpl; set_solver|].
    destruct (kfree_free p s L Hi Hok HpL ltac:(lia)) as [Ek Hi'].
    assert (ref_count (kfree_post p s) = ref_count s) as Er.
    { simpl. destruct (Z.ltb_spec 0 (ref_count s (pa2index p))); [lia|done]. }
    destruct (IH (p + PGSIZE) (kfree_post p s) (p :: L) Hi') as (s' & Es & Hi'' & Er').
    { intros q Hin. rewrite Er. destruct (Hq q) as (? & ? & ?); [simpl; set_solver|].
      split; [done|split; [|done]]. apply elem_of_pages in Hin as (k & _ & ->).
      intros [E|]%elem_of_cons; [unfold PGSIZE in E; lia|done]. }
    { lia. }
    exists s'. split; [|split].
    + change (freerange_loop (S (S n)) p pa_end s) with
        ((if p + PGSIZE <=? pa_end
          then kfree p ;;; freerange_loop (S n) (p + PGSIZE) pa_end
          else mretM tt) s).
      destruct (Z.leb_spec (p + PGSIZE) pa_end); [|unfold PGSIZE in *; lia].
      rewrite (mbindM_Ok _ _ _ _ _ Ek). done.
    + simpl. rewrite <- app_assoc. done.
    + congruence.
Qed.

Lemma kinit_spec s :
  ∃ s' L, kinit s = Ok tt s' ∧ kalloc_inv s' L ∧ no_leak s' L ∧
          (∀ q, q ∈ L ↔ page_ok q).
Proof.
  set (p0 := PGROUNDUP kernel_end).
  set (n := Z.to_nat ((PHYSTOP - p0) / PGSIZE)).
  pose proof layout_end as Hlay.
  pose proof (PGROUNDUP_bounds kernel_end) as Hb.
  pose proof (PGROUNDUP_aligned kernel_end) as Ha. fold p0 in Hb, Ha.
  unfold KERNBASE, PHYSTOP, PGSIZE in *.
  assert (p0 ≤ 2153775104) as Hp0 by (Z.div_mod_to_equations; lia).
  assert (Z.of_nat n * 4096 = 2153775104 - p0) as Hn.
  { subst n. rewrite Z2Nat.id by (apply Z.div_pos; lia). Z.div_mod_to_equations; lia. }
  assert (∀ q, q ∈ pages n p0 ↔ page_ok q) as Hmem.
  { intros q. rewrite elem_of_pages. unfold page_ok, PGSIZE, PHYSTOP. split.
    - intros (k & Hk & ->). Z.div_mod_to_equations; lia.
    - intros [H1 H2]. exists (Z.to_nat ((q - p0) / 4096)).
      assert (p0 ≤ q) by (Z.div_mod_to_equations; lia).
      rewrite Z2Nat.id by (apply Z.div_pos; lia). Z.div_mod_to_equations; lia. }
  set (s0 := Kst (mem s) 0 0 (λ i, if idx_ok i then 0 else ref_count s i)).
  assert (kalloc_inv s0 []) as Hi0.
  { split; try done; [constructor|set_solver|]. intros i Hi. simpl. rewrite Hi. lia. }
  destruct (freerange_loop_spec n p0 PHYSTOP s0 [] Hi0) as (s' & E & Hi & Er).
  { intros q Hq%Hmem. simpl. rewrite idx_ok_page by done. set_solver. }
  { unfold PHYSTOP, PGSIZE. lia. }
  rewrite app_nil_r in Hi. exists s', (rev (pages n p0)).
  assert (∀ q, q ∈ rev (pages n p0) ↔ page_ok q) as Hrev.
  { intros q. rewrite <- Hmem. rewrite !list_elem_of_In, <- in_rev. done. }
  split; [exact E|split; [done|split; [|done]]].
  intros q Hq. left. by apply Hrev.
Qed.

(** ** Preservation by the allocator's clients *)

Lemma incref_spec p s :
  page_ok p → 0 ≤ ref_count s (pa2index p) < 2 ^ 31 - 1 →
  incref p s = Ok tt (set_ref (pa2index p) (ref_count s (pa2index p) + 1) s).
Proof.
  intros Hp Hr. unfold incref, whenM. rewrite idx_ok_page by done.
  unfold modify. by rewrite i32_small by lia.
Qed.

(** Changing the count of a page that is in use keeps the invariant. *)
Lemma kalloc_inv_set_ref s L p r :
  kalloc_inv s L → page_ok p → p ∉ L → 0 ≤ r < 2 ^ 31 →
  kalloc_inv (set_ref (pa2index p) r s) L.
Proof.
  intros [Hc Hn Hp Hl Hf Hrr] Hok HpL Hr. split; simpl; try done.
  - intros q Hq. rewrite upd_ne; [auto|]. intros E.
    apply pa2index_inj in E; [by subst|rewrite Forall_forall in Hp; auto|done].
  - intros i Hi. unfold upd. case_if; [lia|auto].
Qed.

Lemma not_free s L p : kalloc_inv s L → 0 < ref_count s (pa2index p) → p ∉ L.
Proof. intros Hi Hr Hin. pose proof (ki_free_ref _ _ Hi p Hin). lia. Qed.

Lemma alloc_step_inv s s' L :
  alloc_step s s' → kalloc_inv s L → no_leak s L →
  ∃ L', kalloc_inv s' L' ∧ no_leak s' L'.
Proof.
  intros Hst Hi Hnl. destruct Hst as [p E|p Hp Hr E|p Hp Hr E].
  - destruct L as [|q L].
    { rewrite kalloc_empty in E by done. simplify_eq. eauto. }
    destruct (kalloc_cons s q L Hi) as [E' Hi']. rewrite E' in E. simplify_eq.
    exists L. split; [done|]. intros p' Hp'. simpl.
    destruct (Z.eq_dec (pa2index p') (pa2index p)) as [->|Hne].
    + right. rewrite upd_eq. lia.
    + rewrite upd_ne by done. destruct (Hnl p' Hp') as [[->|]%elem_of_cons|]; auto; done.
  - pose proof (not_free _ _ _ Hi Hr) as HpL.
    destruct (Z.le_gt_cases (ref_count s (pa2index p)) 1) as [Hle|Hgt].
    + destruct (kfree_free p s L Hi Hp HpL Hle) as [E' Hi']. rewrite E' in E. simplify_eq.
      exists (p :: L). split; [done|]. intros q Hq.
      destruct (Z.eq_dec q p) as [->|Hne]; [left; set_solver|].
      assert (pa2index q ≠ pa2index p) by (intros ?%pa2index_inj; auto).
      simpl. destruct (Z.ltb_spec 0 (ref_count s (pa2index p))); [|lia].
      rewrite upd_ne by done. destruct (Hnl q Hq); [left; set_solver|by right].
    + rewrite kfree_shared in E by done. simplify_eq. exists L. split.
      * apply kalloc_inv_set_ref; try done.
        pose proof (ki_ref_range _ _ Hi _ (idx_ok_page p Hp)). lia.
      * intros q Hq. simpl. unfold upd. case_if; [right; lia|auto].
  - rewrite incref_spec in E by (try done; lia). simplify_eq. exists L. split.
    + apply kalloc_inv_set_ref; try done; [eapply not_free; [done|lia]|lia].
    + intros q Hq. simpl. unfold upd. case_if; [right; lia|auto].
Qed.

(** ** Properties *)

(** booting the allocator ([kinit]) puts exactly the managed pages
    (aligned, between [kernel_end] and [PHYSTOP]) on a well-formed free list
    with reference count zero, whatever the memory held before. *)
Theorem kinit_correct s :
  ∃ s' L, kinit s = Ok tt s' ∧ kalloc_inv s' L ∧ (∀ q, q ∈ L ↔ page_ok q).
Proof. destruct (kinit_spec s) as (s' & L & H1 & H2 & _ & H4). eauto. Qed.

(** [kalloc] returns NULL and changes nothing when the free list is
    empty; otherwise it removes the head page, fills it with 5, sets its
    reference count to one and touches no other page and no other count. *)
Theorem kalloc_correct s L :
  kalloc_inv s L →
  match L with
  | [] => kalloc s = Ok 0 s
  | p :: L' => ∃ s', kalloc s = Ok p s' ∧ kalloc_inv s' L' ∧
      ref_count s' (pa2index p) = 1 ∧
      (∀ q, page_ok q → q ≠ p → ref_count s' (pa2index q) = ref_count s (pa2index q)) ∧
      (∀ x, p ≤ x < p + PGSIZE → mem s' x = 5) ∧
      (∀ x, ¬ (p ≤ x < p + PGSIZE) → mem s' x = mem s x)
  end.
Proof.
  intros Hi. destruct L as [|p L]; [by apply kalloc_empty|].
  destruct (kalloc_cons s p L Hi) as [E Hi'].
  pose proof (ki_pages _ _ Hi) as Hp. apply Forall_cons in Hp as [Hp _].
  eexists. split; [exact E|split; [exact Hi'|]]. simpl.
  rewrite upd_eq. split_and!; try done.
  - intros q Hq Hne. rewrite upd_ne; [done|]. intros ?%pa2index_inj; auto.
  - intros x Hx. by rewrite fill_in.
  - intros x Hx. by rewrite fill_other.
Qed.

(** [kfree] panics on a page it does not manage; on a page shared by
    several references it only decrements the count; on the last reference it
    returns the page to the front of the free list with count zero. *)
Theorem kfree_correct s L p :
  kalloc_inv s L → p ∉ L →
  (¬ page_ok p → kfree p s = Panic "kfree") ∧
  (page_ok p → 1 < ref_count s (pa2index p) →
     ∃ s', kfree p s = Ok tt s' ∧ kalloc_inv s' L ∧ mem s' = mem s ∧
           ref_count s' (pa2index p) = ref_count s (pa2index p) - 1) ∧
  (page_ok p → ref_count s (pa2index p) ≤ 1 →
     ∃ s', kfree p s = Ok tt s' ∧ kalloc_inv s' (p :: L) ∧
           ref_count s' (pa2index p) = 0 ∧
           (∀ x, ¬ (p ≤ x < p + PGSIZE) → mem s' x = mem s x)).
Proof.
  intros Hi HpL. split_and!.
  - intros Hp. by apply kfree_bad.
  - intros Hp Hr. eexists. split; [by apply kfree_shared|].
    pose proof (ki_ref_range _ _ Hi _ (idx_ok_page p Hp)).
    split; [apply kalloc_inv_set_ref; try done; lia|]. simpl. by rewrite upd_eq.
  - intros Hp Hr. destruct (kfree_free p s L Hi Hp HpL Hr) as [E Hi'].
    eexists. split; [exact E|split; [exact Hi'|split]].
    + apply (ki_free_ref _ _ Hi'). set_solver.
    + intros x Hx. simpl. unfold PGSIZE in Hx.
      rewrite store64_other, fill_other by (unfold PGSIZE; lia). done.
Qed.

(** C1: from boot, under any sequence of allocations, frees of referenced
    pages and reference increments, every managed page is at all times either
    on the free list with count zero or referenced, so no page is lost and
    [kalloc] never hands out a page that is still referenced. *)
Theorem kalloc_reachable_safe s0 s1 s p s' :
  kinit s0 = Ok tt s1 → rtc alloc_step s1 s →
  (∃ L, kalloc_inv s L ∧ no_leak s L) ∧
  (kalloc s = Ok p s' → p ≠ 0 → page_ok p ∧ ref_count s (pa2index p) = 0).
Proof.
  intros E0 Hrtc. assert (∃ L, kalloc_inv s L ∧ no_leak s L) as (L & Hi & Hnl).
  { destruct (kinit_spec s0) as (s1' & L0 & E1 & Hi0 & Hnl0 & _).
    assert (s1' = s1) as -> by congruence. clear E0 E1.
    revert L0 Hi0 Hnl0. induction Hrtc as [s|s s2 s3 Hst _ IH]; intros L0 Hi0 Hnl0; [eauto|].
    destruct (alloc_step_inv _ _ _ Hst Hi0 Hnl0) as (L' & ? & ?). eauto. }
  split; [eauto|]. intros E Hp0. destruct L as [|q L].
  - rewrite kalloc_empty in E by done. congruence.
  - destruct (kalloc_cons s q L Hi) as [E' _].
    assert (q = p) as -> by congruence. split.
    + pose proof (ki_pages _ _ Hi) as Hp. by apply Forall_cons in Hp as [Hp _].
    + apply (ki_free_ref _ _ Hi). set_solver.
Qed.

End WithLayout.

(** ** Closed instances, on the small arena *)
#[local] Existing Instance small_layout.

Lemma kalloc_correct_witness :
  let p := PHYSTOP - PGSIZE in
  let s := Kst (λ _, 0) p 1 (λ _, 0) in
  kalloc_inv s [p] ∧ ∃ s', kalloc s = Ok p s' ∧ kalloc_inv s' [].
Proof.
  intros p s. assert (kalloc_inv s [p]) as Hi.
  { split; simpl; [done|apply NoDup_singleton| |done|done|lia].
    constructor; [|done]. vm_compute; intuition congruence. }
  split; [exact Hi|]. destruct (kalloc_correct s [p] Hi) as (s' & E & Hi' & _).
  exists s'. split; assumption.
Defined.

Lemma kfree_correct_witness :
  let p := PHYSTOP - PGSIZE in
  let s := Kst (λ _, 0) 0 0 (λ _, 1) in
  kalloc_inv s [] ∧ ∃ s', kfree p s = Ok tt s' ∧ kalloc_inv s' [p].
Proof.
  intros p s. assert (kalloc_inv s []) as Hi.
  { split; simpl; [done|constructor|constructor|done|set_solver|lia]. }
  split; [exact Hi|].
  destruct (kfree_correct s [] p Hi (not_elem_of_nil p)) as (_ & _ & H).
  destruct H as (s' & E & Hi' & _); [vm_compute; intuition congruence|simpl; lia|].
  exists s'. split; assumption.
Defined.

Lemma kalloc_reachable_safe_witness :
  let s0 := Kst (λ _, 7) 9 9 (λ _, 3) in
  ∃ s1 p s2, kinit s0 = Ok tt s1 ∧ kalloc s1 = Ok p s2 ∧
             page_ok p ∧ ref_count s1 (pa2index p) = 0.
Proof.
  intros s0. destruct (kinit_spec s0) as (s1 & L & E & Hi & _ & HL).
  assert (PHYSTOP - PGSIZE ∈ L) as Hin.
  { apply HL. vm_compute; intuition congruence. }
  destruct L as [|p L]; [destruct (not_elem_of_nil _ Hin)|].
  destruct (kalloc_cons s1 p L Hi) as [Ek _].
  exists s1, p. eexists. split; [exact E|split; [exact Ek|]].
  eapply (kalloc_reachable_safe s0); [exact E|apply rtc_refl|exact Ek|].
  pose proof (ki_pages _ _ Hi) as Hp. apply Forall_cons in Hp as [Hp _].
  apply page_ok_range in Hp. unfold KERNBASE in Hp. lia.
Defined.
