(* ===== verification/VM.v ===== *)
(** * Virtual memory: Sv39 page tables, copy-on-write and lazy allocation

    kernel/vm.c.  Page tables live in the modelled physical memory, so [walk],
    [mappages] and the rest read and write them as the code does.  A [pte_t *]
    is an address, NULL is 0.  [sfence_vma] has no counterpart (the TLB is not
    modelled).  [copyout] and [copyin] exchange bytes with a kernel buffer,
    here the list of its bytes; what [myproc()] gives them is a [pmem]. *)
From stdpp Require Import prelude list strings.
From Stdlib Require Import ZArith Lia.
From S2P Require Import Prelude Riscv Kalloc.
Open Scope Z_scope.

(** The fields of [struct proc] the memory code reads. *)
Record pmem := Pmem { p_sz : Z; p_pagetable : Z; p_kpagetable : Z }.

Definition read_pte (a : Z) : M kst Z := gets (λ s, load64 (mem s) a).
Definition write_pte (a v : Z) : M kst unit := modify (λ s, set_mem (store64 (mem s) a v) s).
Definition copy_page (dst src : Z) : M kst unit :=
  modify (λ s, set_mem (blit (mem s) dst src PGSIZE) s).

Section WithLayout.
Context `{Layout}.

(** One level of [walk]: the page-table page below [pagetable], allocated
    when missing and [alloc] is set; [None] is the early [return NULL]. *)
Definition walk_step (level va : Z) (alloc : bool) (pagetable : Z) : M kst (option Z) :=
  let pte := pagetable + 8 * PX level va in
  v <-- read_pte pte ;;
  if has v PTE_V then mretM (Some (PTE2PA v))
  else if negb alloc then mretM None
  else
    pt <-- kalloc ;;
    if pt =? 0 then mretM None
    else
      memset_page pt 0 ;;;
      write_pte pte (Z.lor (PA2PTE pt) PTE_V) ;;;
      mretM (Some pt).

Fixpoint walk_loop (level : nat) (va : Z) (alloc : bool) (pagetable : Z) : M kst (option Z) :=
  match level with
  | O => mretM (Some pagetable)
  | S l =>
      r <-- walk_step (Z.of_nat level) va alloc pagetable ;;
      match r with
      | Some pt => walk_loop l va alloc pt
      | None => mretM None
      end
  end.

Definition walk (pagetable va : Z) (alloc : bool) : M kst Z :=
  if MAXVA <=? va then panic "walk"
  else
    r <-- walk_loop 2 va alloc pagetable ;;
    match r with
    | Some pt => mretM (pt + 8 * PX 0 va)
    | None => mretM 0
    end.

Definition walkaddr (pagetable va : Z) : M kst Z :=
  if MAXVA <=? va then mretM 0
  else
    pte <-- walk pagetable va false ;;
    if pte =? 0 then mretM 0
    else
      v <-- read_pte pte ;;
      if negb (has v PTE_V) then mretM 0
      else if negb (has v PTE_U) then mretM 0
      else mretM (PTE2PA v).

Definition kwalkaddr (kpt va : Z) : M kst Z :=
  let off := va mod PGSIZE in
  pte <-- walk kpt va false ;;
  if pte =? 0 then panic "kvmpa"
  else
    v <-- read_pte pte ;;
    if negb (has v PTE_V) then panic "kvmpa"
    else mretM (u64 (PTE2PA v + off)).

Definition kvmpa (kernel_pagetable va : Z) : M kst Z := kwalkaddr kernel_pagetable va.

(** The [for(;;)] of [mappages]; the fuel is the number of iterations the
    64-bit counter makes before it meets [last]. *)
Fixpoint mappages_loop (fuel : nat) (pagetable a last pa perm : Z) : M kst Z :=
  match fuel with
  | O => panic "fuel"
  | S fuel =>
      pte <-- walk pagetable a true ;;
      if pte =? 0 then mretM (-1)
      else
        v <-- read_pte pte ;;
        if has v PTE_V then panic "remap"
        else
          write_pte pte (mk_pte pa perm) ;;;
          if a =? last then mretM 0
          else mappages_loop fuel pagetable (u64 (a + PGSIZE)) last (u64 (pa + PGSIZE)) perm
  end.

Definition mappages (pagetable va size pa perm : Z) : M kst Z :=
  let a := PGROUNDDOWN va in
  let last := PGROUNDDOWN (u64 (va + size - 1)) in
  mappages_loop (S (Z.to_nat (u64 (last - a) / PGSIZE))) pagetable a last pa perm.

Definition kvmmap (kernel_pagetable va pa sz perm : Z) : M kst unit :=
  r <-- mappages kernel_pagetable va sz pa perm ;;
  if r =? 0 then mretM tt else panic "kvmmap".

Definition kvminit : M kst Z :=
  kernel_pagetable <-- kalloc ;;
  memset_page kernel_pagetable 0 ;;;
  kvmmap kernel_pagetable UART_V UART PGSIZE (Z.lor PTE_R PTE_W) ;;;
  kvmmap kernel_pagetable VIRTIO0_V VIRTIO0 PGSIZE (Z.lor PTE_R PTE_W) ;;;
  kvmmap kernel_pagetable CLINT_V CLINT 65536 (Z.lor PTE_R PTE_W) ;;;
  kvmmap kernel_pagetable PLIC_V PLIC 16384 (Z.lor PTE_R PTE_W) ;;;
  kvmmap kernel_pagetable (PLIC_V + 2097152) (PLIC + 2097152) 16384 (Z.lor PTE_R PTE_W) ;;;
  kvmmap kernel_pagetable KERNBASE KERNBASE (etext - KERNBASE) (Z.lor PTE_R PTE_X) ;;;
  kvmmap kernel_pagetable etext etext (PHYSTOP - etext) (Z.lor PTE_R PTE_W) ;;;
  kvmmap kernel_pagetable TRAMPOLINE trampoline PGSIZE (Z.lor PTE_R PTE_X) ;;;
  mretM kernel_pagetable.

(** One iteration of the loops of [vmunmap] and [uvmunmap], which differ only
    in the panic message. *)
Definition unmap_one (not_leaf : string) (pagetable a : Z) (do_free : bool) : M kst unit :=
  pte <-- walk pagetable a false ;;
  if pte =? 0 then mretM tt
  else
    v <-- read_pte pte ;;
    if negb (has v PTE_V) then mretM tt
    else if PTE_FLAGS v =? PTE_V then panic not_leaf
    else
      whenM do_free (kfree (PTE2PA v)) ;;;
      write_pte pte 0.

Fixpoint unmap_loop (fuel : nat) (not_leaf : string) (pagetable a bound : Z) (do_free : bool)
  : M kst unit :=
  match fuel with
  | O => panic "fuel"
  | S fuel =>
      if a <? bound
      then unmap_one not_leaf pagetable a do_free ;;;
           unmap_loop fuel not_leaf pagetable (u64 (a + PGSIZE)) bound do_free
      else mretM tt
  end.

Definition vmunmap (pagetable va npages : Z) (do_free : bool) : M kst unit :=
  if negb (va mod PGSIZE =? 0) then panic "vmunmap: not aligned"
  else
    let bound := u64 (va + npages * PGSIZE) in
    unmap_loop (S (S (Z.to_nat ((bound - va) / PGSIZE)))) "vmunmap: not a leaf"
      pagetable va bound do_free.

Definition uvmunmap (pagetable va npages : Z) (do_free : bool) : M kst unit :=
  if negb (va mod PGSIZE =? 0) then panic "uvmunmap: not aligned"
  else
    let bound := u64 (va + npages * PGSIZE) in
    unmap_loop (S (S (Z.to_nat ((bound - va) / PGSIZE)))) "uvmunmap: not a leaf"
      pagetable va bound do_free.

Definition uvmcreate : M kst Z :=
  pagetable <-- kalloc ;;
  if pagetable =? 0 then mretM 0
  else memset_page pagetable 0 ;;; mretM pagetable.

Definition uvminit (pagetable kpagetable : Z) (src : list Z) : M kst unit :=
  if PGSIZE <=? Z.of_nat (length src) then panic "inituvm: more than a page"
  else
    p <-- kalloc ;;
    memset_page p 0 ;;;
    mappages pagetable 0 PGSIZE p (Z.lor (Z.lor (Z.lor PTE_W PTE_R) PTE_X) PTE_U) ;;;
    mappages kpagetable 0 PGSIZE p (Z.lor (Z.lor PTE_W PTE_R) PTE_X) ;;;
    modify (λ s, set_mem (store_bytes (mem s) p src) s).

Definition uvmdealloc (pagetable kpagetable oldsz newsz : Z) : M kst Z :=
  if oldsz <=? newsz then mretM oldsz
  else
    let oldup := PGROUNDUP oldsz in
    let newup := PGROUNDUP newsz in
    whenM (newup <? oldup)
      (let npages := (oldup - newup) / PGSIZE in
       whenM (negb (kpagetable =? 0)) (uvmunmap kpagetable newup npages false) ;;;
       uvmunmap pagetable newup npages true) ;;;
    mretM newsz.

Fixpoint uvmalloc_loop (fuel : nat) (pagetable kpagetable oldsz a newsz : Z) : M kst Z :=
  match fuel with
  | O => panic "fuel"
  | S fuel =>
      if a <? newsz then
        p <-- kalloc ;;
        if p =? 0 then
          uvmdealloc pagetable kpagetable a oldsz ;;; mretM 0
        else
          memset_page p 0 ;;;
          r <-- mappages pagetable a PGSIZE p
                  (Z.lor (Z.lor (Z.lor PTE_W PTE_X) PTE_R) PTE_U) ;;
          if negb (r =? 0) then
            kfree p ;;; uvmdealloc pagetable kpagetable a oldsz ;;; mretM 0
          else
            r <-- mappages kpagetable a PGSIZE p (Z.lor (Z.lor PTE_W PTE_X) PTE_R) ;;
            if negb (r =? 0) then
              let npages := i32 ((a - oldsz) / PGSIZE) in
              vmunmap pagetable oldsz (npages + 1) true ;;;
              vmunmap kpagetable oldsz npages false ;;;
              mretM 0
            else uvmalloc_loop fuel pagetable kpagetable oldsz (u64 (a + PGSIZE)) newsz
      else mretM newsz
  end.

Definition uvmalloc (pagetable kpagetable oldsz newsz : Z) : M kst Z :=
  if newsz <? oldsz then mretM oldsz
  else
    let oldsz := PGROUNDUP oldsz in
    uvmalloc_loop (S (S (Z.to_nat ((newsz - oldsz) / PGSIZE))))
      pagetable kpagetable oldsz oldsz newsz.

(** [freewalk] and [kfreewalk] recurse through the levels of the tree; three
    levels exist in Sv39, which is the fuel. *)
Fixpoint freewalk (fuel : nat) (pagetable : Z) : M kst unit :=
  match fuel with
  | O => panic "fuel"
  | S fuel =>
      forM (seqZ 0 512) (λ i,
        pte <-- read_pte (pagetable + 8 * i) ;;
        if has pte PTE_V && (Z.land pte (Z.lor (Z.lor PTE_R PTE_W) PTE_X) =? 0) then
          freewalk fuel (PTE2PA pte) ;;;
          write_pte (pagetable + 8 * i) 0
        else if has pte PTE_V then panic "freewalk: leaf"
        else mretM tt) ;;;
      kfree pagetable
  end.

Definition uvmfree (pagetable sz : Z) : M kst unit :=
  whenM (0 <? sz) (vmunmap pagetable 0 (PGROUNDUP sz / PGSIZE) true) ;;;
  freewalk 3 pagetable.

(** Body of the loop of [uvmcopy] at page [i]; [false] is [goto err]. *)
Definition uvmcopy_page (old new knew i : Z) : M kst bool :=
  pte <-- walk old i false ;;
  if pte =? 0 then mretM true
  else
    v <-- read_pte pte ;;
    if negb (has v PTE_V) then mretM true
    else
      let pa := PTE2PA v in
      let flags0 := PTE_FLAGS v in
      let flags := if has flags0 PTE_W
                   then Z.land (Z.lor flags0 PTE_COW) (Z.lnot PTE_W) else flags0 in
      whenM (has flags0 PTE_W && negb (has v PTE_COW))
        (write_pte pte
           (mk_pte pa (Z.land (Z.lor (PTE_FLAGS v) PTE_COW) (Z.lnot PTE_W)))) ;;;
      r <-- mappages new i PGSIZE pa (Z.lor flags PTE_U) ;;
      if negb (r =? 0) then mretM false
      else
        r <-- mappages knew i PGSIZE pa (Z.lor flags PTE_U) ;;
        if negb (r =? 0) then mretM false
        else incref pa ;;; mretM true.

Fixpoint uvmcopy_loop (fuel : nat) (old new knew i sz : Z) : M kst bool :=
  match fuel with
  | O => panic "fuel"
  | S fuel =>
      if i <? sz then
        ok <-- uvmcopy_page old new knew i ;;
        if (ok : bool) then uvmcopy_loop fuel old new knew (u64 (i + PGSIZE)) sz
        else mretM false
      else mretM true
  end.

Definition uvmcopy (old new knew sz : Z) : M kst Z :=
  ok <-- uvmcopy_loop (S (S (Z.to_nat (sz / PGSIZE)))) old new knew 0 sz ;;
  if (ok : bool) then mretM 0
  else
    vmunmap new 0 (PGROUNDUP sz / PGSIZE) true ;;;
    vmunmap knew 0 (PGROUNDUP sz / PGSIZE) false ;;;
    mretM (-1).

Definition uvmclear (pagetable va : Z) : M kst unit :=
  pte <-- walk pagetable va false ;;
  if pte =? 0 then panic "uvmclear"
  else v <-- read_pte pte ;; write_pte pte (Z.land v (Z.lnot PTE_U)).

Definition cow_alloc (p : option pmem) (pagetable va : Z) : M kst Z :=
  if MAXVA <=? va then mretM (-1)
  else
    let va := PGROUNDDOWN va in
    pte <-- walk pagetable va false ;;
    if pte =? 0 then mretM (-1)
    else
      v <-- read_pte pte ;;
      if negb (has v PTE_V) then mretM (-1)
      else if negb (has v PTE_COW) then mretM (-1)
      else
        let pa := PTE2PA v in
        new_pa <-- kalloc ;;
        if new_pa =? 0 then mretM (-1)
        else
          copy_page new_pa pa ;;;
          decref pa ;;;
          let flags := Z.land (Z.lor (PTE_FLAGS v) PTE_W) (Z.lnot PTE_COW) in
          write_pte pte (mk_pte new_pa flags) ;;;
          match p with
          | None => mretM tt
          | Some p =>
              kpte <-- walk (p_kpagetable p) va false ;;
              if kpte =? 0 then mretM tt
              else
                kv <-- read_pte kpte ;;
                if has kv PTE_V then
                  write_pte kpte
                    (mk_pte new_pa
                       (Z.lor (Z.land (Z.land flags (Z.lnot PTE_U)) (Z.lnot PTE_COW)) PTE_W))
                else mretM tt
          end ;;;
          mretM 0.

Definition is_cow_page (pagetable va : Z) : M kst bool :=
  if MAXVA <=? va then mretM false
  else
    pte <-- walk pagetable va false ;;
    if pte =? 0 then mretM false
    else
      v <-- read_pte pte ;;
      if negb (has v PTE_V) then mretM false
      else mretM (has v PTE_COW).

Definition lazy_alloc (pagetable kpagetable va : Z) : M kst Z :=
  let a := PGROUNDDOWN va in
  p <-- kalloc ;;
  if p =? 0 then mretM (-1)
  else
    memset_page p 0 ;;;
    r <-- mappages pagetable a PGSIZE p (Z.lor (Z.lor PTE_R PTE_W) PTE_U) ;;
    if r <? 0 then kfree p ;;; mretM (-1)
    else
      r <-- mappages kpagetable a PGSIZE p (Z.lor PTE_R PTE_W) ;;
      if r <? 0 then
        uvmunmap pagetable a 1 false ;;; kfree p ;;; mretM (-1)
      else mretM 0.

(** The physical page behind [va0] for the copy loops: [walkaddr], then lazy
    allocation below the process size; [None] is [return -1]. *)
Definition user_page (p : pmem) (pagetable va0 : Z) : M kst (option Z) :=
  pa0 <-- walkaddr pagetable va0 ;;
  if negb (pa0 =? 0) then mretM (Some pa0)
  else if (va0 <? p_sz p) && (va0 <? MAXUVA) then
    r <-- lazy_alloc (p_pagetable p) (p_kpagetable p) va0 ;;
    if r <? 0 then mretM None
    else
      pa0 <-- walkaddr pagetable va0 ;;
      if pa0 =? 0 then mretM None else mretM (Some pa0)
  else mretM None.

Fixpoint copyout_loop (fuel : nat) (p : pmem) (pagetable dstva : Z) (src : list Z) : M kst Z :=
  match src with
  | [] => mretM 0
  | _ =>
    match fuel with
    | O => panic "fuel"
    | S fuel =>
        let va0 := PGROUNDDOWN dstva in
        pte <-- walk pagetable va0 false ;;
        v <-- (if pte =? 0 then mretM 0 else read_pte pte) ;;
        r <-- (if negb (pte =? 0) && has v PTE_V && has v PTE_COW
               then cow_alloc (Some p) pagetable va0 else mretM 0) ;;
        if r <? 0 then mretM (-1)
        else
          q <-- user_page p pagetable va0 ;;
          match q with
          | None => mretM (-1)
          | Some pa0 =>
              let n := Z.to_nat (Z.min (PGSIZE - (dstva - va0)) (Z.of_nat (length src))) in
              modify (λ s, set_mem
                (store_bytes (mem s) (pa0 + (dstva - va0)) (take n src)) s) ;;;
              copyout_loop fuel p pagetable (u64 (va0 + PGSIZE)) (drop n src)
          end
    end
  end.

Definition copyout (p : pmem) (pagetable dstva : Z) (src : list Z) : M kst Z :=
  copyout_loop (length src) p pagetable dstva src.

Definition copyout2 (p : option pmem) (dstva : Z) (src : list Z) : M kst Z :=
  match p with
  | None => mretM (-1)
  | Some p =>
      if (p_sz p <=? dstva) || (p_sz p <? u64 (dstva + Z.of_nat (length src)))
      then mretM (-1)
      else copyout p (p_pagetable p) dstva src
  end.

(** [copyin] returns its code and the bytes it wrote to [dst]. *)
Fixpoint copyin_loop (fuel : nat) (p : pmem) (pagetable srcva : Z) (len : nat)
  : M kst (Z * list Z) :=
  match len with
  | O => mretM (0, [])
  | _ =>
    match fuel with
    | O => panic "fuel"
    | S fuel =>
        let va0 := PGROUNDDOWN srcva in
        q <-- user_page p pagetable va0 ;;
        match q with
        | None => mretM (-1, [])
        | Some pa0 =>
            let n := Z.to_nat (Z.min (PGSIZE - (srcva - va0)) (Z.of_nat len)) in
            bs <-- gets (λ s, bytes_at (mem s) (pa0 + (srcva - va0)) n) ;;
            r <-- copyin_loop fuel p pagetable (u64 (va0 + PGSIZE)) (len - n) ;;
            mretM (r.1, bs ++ r.2)
        end
    end
  end.

Definition copyin (p : pmem) (pagetable srcva : Z) (len : nat) : M kst (Z * list Z) :=
  copyin_loop len p pagetable srcva len.

Definition copyin2 (p : pmem) (srcva : Z) (len : nat) : M kst (Z * list Z) :=
  copyin p (p_pagetable p) srcva len.

(** The inner loop of [copyinstr]: bytes up to and including a NUL. *)
Fixpoint scan_nul (n : nat) (m : memory) (a : Z) : list Z * bool :=
  match n with
  | O => ([], false)
  | S n =>
      let b := load8 m a in
      if b =? 0 then ([b], true)
      else let '(l, z) := scan_nul n m (a + 1) in (b :: l, z)
  end.

Fixpoint copyinstr_loop (fuel : nat) (p : pmem) (pagetable srcva : Z) (max : nat)
  : M kst (Z * list Z) :=
  match max with
  | O => mretM (-1, [])
  | _ =>
    match fuel with
    | O => panic "fuel"
    | S fuel =>
        let va0 := PGROUNDDOWN srcva in
        q <-- user_page p pagetable va0 ;;
        match q with
        | None => mretM (-1, [])
        | Some pa0 =>
            let n := Z.to_nat (Z.min (PGSIZE - (srcva - va0)) (Z.of_nat max)) in
            c <-- gets (λ s, scan_nul n (mem s) (pa0 + (srcva - va0))) ;;
            if c.2 then mretM (0, c.1)
            else
              r <-- copyinstr_loop fuel p pagetable (u64 (va0 + PGSIZE)) (max - n) ;;
              mretM (r.1, c.1 ++ r.2)
        end
    end
  end.

Definition copyinstr (p : pmem) (pagetable srcva : Z) (max : nat) : M kst (Z * list Z) :=
  copyinstr_loop max p pagetable srcva max.

Definition copyinstr2 (p : option pmem) (srcva : Z) (max : nat) : M kst (Z * list Z) :=
  match p with
  | None => mretM (-1, [])
  | Some p =>
      if p_sz p <=? srcva then mretM (-1, [])
      else copyinstr p (p_pagetable p) srcva max
  end.

(** ** Per-process kernel page tables *)

Fixpoint kfreewalk (fuel : nat) (kpt : Z) : M kst unit :=
  match fuel with
  | O => panic "fuel"
  | S fuel =>
      for_breakM (seqZ 0 512) (λ i,
        pte <-- read_pte (kpt + 8 * i) ;;
        if has pte PTE_V && (Z.land pte (Z.lor (Z.lor PTE_R PTE_W) PTE_X) =? 0) then
          kfreewalk fuel (PTE2PA pte) ;;;
          write_pte (kpt + 8 * i) 0 ;;;
          mretM true
        else mretM (negb (has pte PTE_V))) ;;;
      kfree kpt
  end.

Definition kvmfreeusr (kpt : Z) : M kst unit :=
  forM (seqZ 0 (PX 2 MAXUVA)) (λ i,
    pte <-- read_pte (kpt + 8 * i) ;;
    if has pte PTE_V && (Z.land pte (Z.lor (Z.lor PTE_R PTE_W) PTE_X) =? 0) then
      kfreewalk 2 (PTE2PA pte) ;;;
      write_pte (kpt + 8 * i) 0
    else mretM tt).

Definition kvmfree (kpt : Z) (stack_free : bool) : M kst unit :=
  whenM stack_free
    (vmunmap kpt VKSTACK 1 true ;;;
     pte <-- read_pte (kpt + 8 * PX 2 VKSTACK) ;;
     if has pte PTE_V && (Z.land pte (Z.lor (Z.lor PTE_R PTE_W) PTE_X) =? 0)
     then kfreewalk 2 (PTE2PA pte) else mretM tt) ;;;
  kvmfreeusr kpt ;;;
  kfree kpt.

Definition proc_kpagetable (kernel_pagetable : Z) : M kst Z :=
  kpt <-- kalloc ;;
  if kpt =? 0 then mretM 0
  else
    copy_page kpt kernel_pagetable ;;;
    pstack <-- kalloc ;;
    if pstack =? 0 then kvmfree kpt true ;;; mretM 0
    else
      r <-- mappages kpt VKSTACK PGSIZE pstack (Z.lor PTE_R PTE_W) ;;
      if negb (r =? 0) then kvmfree kpt true ;;; mretM 0
      else mretM kpt.
End WithLayout.
