(* ===== verification/PageTable.v ===== *)
(** * What a page table in memory means

    The tree [walk] follows is read off the memory ([node_page]); a table is
    well formed when its pages are managed pages and no page is used twice.
    [pte_of] is the entry a virtual address resolves to.  [grow] relates the
    states before and after an operation that may only add page-table pages. *)
From stdpp Require Import prelude list strings.
From Stdlib Require Import ZArith Lia.
From S2P Require Import Prelude Riscv Kalloc VM.
Open Scope Z_scope.

(** ** The tree *)

Definition child (m : memory) (pt i : Z) : option Z :=
  let v := load64 m (pt + 8 * i) in
  if has v PTE_V then Some (PTE2PA v) else None.

(** Page-table pages: the root, one page per level-2 index, one page per pair
    of indices. *)
Inductive node := Root | Mid (i : Z) | Low (i j : Z).

#[global] Instance node_eq_dec : EqDecision node.
Proof. solve_decision. Defined.

Definition idx9 (i : Z) : Prop := 0 ≤ i < 512.
Definition node_ok (n : node) : Prop :=
  match n with Root => True | Mid i => idx9 i | Low i j => idx9 i ∧ idx9 j end.

Definition node_page (m : memory) (root : Z) (n : node) : option Z :=
  match n with
  | Root => Some root
  | Mid i => child m root i
  | Low i j => match child m root i with Some p => child m p j | None => None end
  end.

Definition low_of (va : Z) : node := Low (PX 2 va) (PX 1 va).

(** The page-table entry of [va]; an address whose path is missing has the
    invalid entry 0. *)
Definition pte_of (m : memory) (root va : Z) : Z :=
  match node_page m root (low_of va) with
  | Some p => load64 m (p + 8 * PX 0 va)
  | None => 0
  end.

Definition pt_page (m : memory) (root p : Z) : Prop :=
  ∃ n, node_ok n ∧ node_page m root n = Some p.

Section WithLayout.
Context `{Layout}.

Record wf_pt (m : memory) (root : Z) : Prop := {
  wf_pages : ∀ p, pt_page m root p → page_ok p;
  wf_inj : ∀ n n' p, node_ok n → node_ok n' →
    node_page m root n = Some p → node_page m root n' = Some p → n = n' }.

Record pt_inv (s : kst) (L : list Z) (root : Z) : Prop := {
  pi_alloc : kalloc_inv s L;
  pi_wf : wf_pt (mem s) root;
  pi_free : ∀ p, pt_page (mem s) root p → p ∉ L }.

(** From [s] (free list [L]) to [s'] (free list [L']) only the table at
    [root] changed: the pages [used] were taken from the free list and became
    page-table pages, and no byte outside the table's pages was written. *)
Record grow (root : Z) (s s' : kst) (L L' used : list Z) : Prop := {
  g_split : L = used ++ L';
  g_inv : kalloc_inv s' L';
  g_wf : wf_pt (mem s') root;
  g_pages : ∀ p, pt_page (mem s') root p ↔ pt_page (mem s) root p ∨ p ∈ used;
  g_frame : ∀ x, (∀ p, pt_page (mem s) root p ∨ p ∈ used → ¬ (p ≤ x < p + PGSIZE)) →
    mem s' x = mem s x;
  g_ref : ∀ q, page_ok q → q ∉ used →
    ref_count s' (pa2index q) = ref_count s (pa2index q);
  g_ref_used : ∀ q, q ∈ used → ref_count s' (pa2index q) = 1 }.

Definition agree_on (m m' : memory) (P : Z → Prop) : Prop :=
  ∀ p x, P p → p ≤ x < p + PGSIZE → m' x = m x.

(** ** Framing *)

Lemma load64_entry_agree m m' p k :
  (∀ x, p ≤ x < p + PGSIZE → m' x = m x) → idx9 k →
  load64 m' (p + 8 * k) = load64 m (p + 8 * k).
Proof.
  unfold idx9. intros Ha Hk. apply load64_ext. intros x Hx. apply Ha. unfold PGSIZE. lia.
Qed.

Lemma child_agree m m' p k :
  (∀ x, p ≤ x < p + PGSIZE → m' x = m x) → idx9 k → child m' p k = child m p k.
Proof. intros Ha Hk. unfold child. by rewrite (load64_entry_agree m m'). Qed.

Lemma node_page_agree m m' root n :
  agree_on m m' (pt_page m root) → node_ok n → node_page m' root n = node_page m root n.
Proof.
  intros Ha Hn.
  assert (∀ i, idx9 i → child m' root i = child m root i) as Hr.
  { intros i Hi. apply child_agree; [|done]. intros x Hx. apply (Ha root); [|done].
    by exists Root. }
  destruct n as [|i|i j]; simpl in *; [done|by apply Hr|].
  destruct Hn as [Hi Hj]. rewrite Hr by done.
  destruct (child m root i) as [p|] eqn:E; [|done].
  apply child_agree; [|done]. intros x Hx. apply (Ha p); [|done]. by exists (Mid i).
Qed.

Lemma pt_page_agree m m' root p :
  agree_on m m' (pt_page m root) → pt_page m' root p ↔ pt_page m root p.
Proof.
  intros Ha. split; intros (n & Hn & E); exists n; (split; [done|]).
  - by rewrite <- (node_page_agree m m').
  - by rewrite (node_page_agree m m').
Qed.

Lemma wf_pt_agree m m' root : agree_on m m' (pt_page m root) → wf_pt m root → wf_pt m' root.
Proof.
  intros Ha [Hp Hi]. split.
  - intros p Hpp. apply Hp. by apply (pt_page_agree m m').
  - intros n n' p Hn Hn'. rewrite !(node_page_agree m m') by done. by apply Hi.
Qed.

Lemma low_of_ok va : node_ok (low_of va).
Proof. split; apply PX_range; lia. Qed.

Lemma pte_of_agree m m' root va :
  agree_on m m' (pt_page m root) → pte_of m' root va = pte_of m root va.
Proof.
  intros Ha. unfold pte_of. rewrite (node_page_agree m m') by (done || apply low_of_ok).
  destruct (node_page m root (low_of va)) as [p|] eqn:E; [|done].
  apply load64_entry_agree; [|apply PX_range; lia].
  intros x Hx. apply (Ha p); [|done]. exists (low_of va). split; [apply low_of_ok|done].
Qed.

Lemma pt_page_aligned m root p : wf_pt m root → pt_page m root p → p mod PGSIZE = 0.
Proof. intros Hwf Hp. by destruct (wf_pages _ _ Hwf p Hp). Qed.

(** An entry of a page-table page is untouched by a write to another page. *)
Lemma entry_store_ne m p q k k' v :
  p mod PGSIZE = 0 → q mod PGSIZE = 0 → idx9 k → idx9 k' → (p ≠ q ∨ k ≠ k') →
  load64 (store64 m (p + 8 * k) v) (q + 8 * k') = load64 m (q + 8 * k').
Proof.
  unfold idx9, PGSIZE. intros Hp Hq Hk Hk' Hne. apply load64_store64_ne.
  destruct (Z.eq_dec p q) as [->|]; [lia|]. Z.div_mod_to_equations. lia.
Qed.

Lemma entry_fill_ne m p q k c :
  p mod PGSIZE = 0 → q mod PGSIZE = 0 → idx9 k → p ≠ q →
  load64 (fill m p c PGSIZE) (q + 8 * k) = load64 m (q + 8 * k).
Proof.
  unfold idx9, PGSIZE. intros Hp Hq Hk Hne. apply load64_fill_other.
  Z.div_mod_to_equations. lia.
Qed.

(** ** Writing a leaf entry *)

Section LeafWrite.
Context (m : memory) (root va pg v : Z).
Hypothesis Hwf : wf_pt m root.
Hypothesis Hlow : node_page m root (low_of va) = Some pg.
Let m' := store64 m (pg + 8 * PX 0 va) v.

Lemma leaf_page : pt_page m root pg.
Proof. exists (low_of va). split; [apply low_of_ok|done]. Qed.

Lemma leaf_write_child n p k :
  node_ok n → node_page m root n = Some p → n ≠ low_of va → idx9 k →
  child m' p k = child m p k.
Proof.
  intros Hn Hp Hne Hk. unfold child, m'. rewrite entry_store_ne; [done|..].
  - apply (pt_page_aligned m root); [done|apply leaf_page].
  - apply (pt_page_aligned m root); [done|by exists n].
  - apply PX_range; lia.
  - done.
  - left. intros ->. apply Hne.
    apply (wf_inj _ _ Hwf n (low_of va) p); [done|apply low_of_ok|done|done].
Qed.

Lemma leaf_write_node n : node_ok n → node_page m' root n = node_page m root n.
Proof.
  intros Hn. destruct n as [|i|i j]; [done| |]; simpl.
  - by apply (leaf_write_child Root).
  - destruct Hn as [Hi Hj]. rewrite (leaf_write_child Root) by done.
    destruct (child m root i) as [p|] eqn:E; [|done].
    by apply (leaf_write_child (Mid i)).
Qed.

Lemma leaf_write_pages p : pt_page m' root p ↔ pt_page m root p.
Proof.
  split; intros (n & Hn & E); exists n; (split; [done|]).
  - by rewrite <- leaf_write_node.
  - by rewrite leaf_write_node.
Qed.

Lemma leaf_write_wf : wf_pt m' root.
Proof.
  split.
  - intros p Hp. apply (wf_pages _ _ Hwf). by apply leaf_write_pages.
  - intros n n' p Hn Hn'. rewrite !leaf_write_node by done. by apply (wf_inj _ _ Hwf).
Qed.

Lemma leaf_write_pte va' :
  0 ≤ va < MAXVA → 0 ≤ va' < MAXVA →
  pte_of m' root va' =
    if PGROUNDDOWN va' =? PGROUNDDOWN va then u64 v else pte_of m root va'.
Proof.
  intros Hva Hva'. unfold pte_of. rewrite leaf_write_node by apply low_of_ok.
  destruct (Z.eqb_spec (PGROUNDDOWN va') (PGROUNDDOWN va)) as [E|Hne].
  - assert (∀ l, 0 ≤ l → PX l va' = PX l va) as EP.
    { intros l Hl. rewrite <- (PX_PGROUNDDOWN l va'), E, PX_PGROUNDDOWN by done. done. }
    unfold low_of in *. rewrite !EP by lia. rewrite Hlow. apply load64_store64_eq.
  - destruct (node_page m root (low_of va')) as [p|] eqn:Ep; [|done].
    apply entry_store_ne.
    + apply (pt_page_aligned m root); [done|apply leaf_page].
    + apply (pt_page_aligned m root); [done|]. exists (low_of va'). split; [apply low_of_ok|done].
    + apply PX_range; lia.
    + apply PX_range; lia.
    + destruct (Z.eq_dec (PX 0 va) (PX 0 va')) as [E0|]; [left|by right].
      intros ->. apply Hne. symmetry.
      assert (low_of va' = low_of va) as El.
      { apply (wf_inj _ _ Hwf _ _ p); (apply low_of_ok || done). }
      injection El as E2 E1. apply PX_inj; done.
Qed.
End LeafWrite.

(** ** Adding a page-table page *)

Definition sub (n : node) (k : Z) : node :=
  match n with Root => Mid k | Mid i => Low i k | Low i j => Low i j end.
Definition inner (n : node) : Prop := match n with Low _ _ => False | _ => True end.

Section NewNode.
Context (m : memory) (root : Z) (n : node) (pp k p : Z).
Hypothesis Hwf : wf_pt m root.
Hypothesis Hn : node_ok n.
Hypothesis Hin : inner n.
Hypothesis Hpp : node_page m root n = Some pp.
Hypothesis Hk : idx9 k.
Hypothesis Hnone : node_page m root (sub n k) = None.
Hypothesis Hp : page_ok p.
Hypothesis Hfresh : ¬ pt_page m root p.
Let m' := store64 (fill (fill m p 5 PGSIZE) p 0 PGSIZE) (pp + 8 * k) (Z.lor (PA2PTE p) PTE_V).

Lemma new_parent_page : pt_page m root pp.
Proof. by exists n. Qed.

Lemma new_aligned : p mod PGSIZE = 0 ∧ pp mod PGSIZE = 0 ∧ pp ≠ p.
Proof.
  split; [apply Hp|split].
  - apply (pt_page_aligned m root); [done|apply new_parent_page].
  - intros E. apply Hfresh. rewrite <- E. apply new_parent_page.
Qed.

Lemma new_entry_old q j :
  pt_page m root q → idx9 j → (q ≠ pp ∨ j ≠ k) →
  load64 m' (q + 8 * j) = load64 m (q + 8 * j).
Proof.
  intros Hq Hj Hne. destruct new_aligned as (Ha & Hb & Hc).
  assert (q mod PGSIZE = 0) by by apply (pt_page_aligned m root).
  assert (p ≠ q) by (intros ->; done). unfold m'.
  rewrite entry_store_ne by (try done; intuition congruence).
  by rewrite !entry_fill_ne.
Qed.

Lemma new_entry_link : load64 m' (pp + 8 * k) = mk_pte p 0.
Proof.
  unfold m'. rewrite load64_store64_eq, u64_small.
  - unfold mk_pte. by rewrite Z.lor_0_r.
  - apply lor_small; [lia|apply u64_range|unfold PTE_V; lia].
Qed.

Lemma new_entry_zero j : idx9 j → load64 m' (p + 8 * j) = 0.
Proof.
  intros Hj. destruct new_aligned as (Ha & Hb & Hc). unfold m'.
  rewrite entry_store_ne by (try done; auto).
  unfold idx9 in Hj. apply load64_fill_zero; unfold PGSIZE; lia.
Qed.

Lemma new_child_old q j :
  pt_page m root q → idx9 j → (q ≠ pp ∨ j ≠ k) → child m' q j = child m q j.
Proof. intros. unfold child. by rewrite new_entry_old. Qed.

Lemma new_child_link : child m' pp k = Some p.
Proof.
  unfold child. rewrite new_entry_link, mk_pte_valid by (apply page_ok_small in Hp; lia).
  rewrite mk_pte_PTE2PA; [done|apply Hp|by apply page_ok_small|lia].
Qed.

Lemma new_child_zero j : idx9 j → child m' p j = None.
Proof. intros Hj. unfold child. by rewrite new_entry_zero. Qed.

End NewNode.

Lemma new_node m root n pp k p q :
  wf_pt m root → node_ok n → inner n → node_page m root n = Some pp → idx9 k →
  node_page m root (sub n k) = None → page_ok p → ¬ pt_page m root p → node_ok q →
  node_page (store64 (fill (fill m p 5 PGSIZE) p 0 PGSIZE) (pp + 8 * k)
                     (Z.lor (PA2PTE p) PTE_V)) root q
  = if decide (q = sub n k) then Some p else node_page m root q.
Proof.
  intros Hwf Hn Hin Hpp Hk Hnone Hp Hfresh Hq.
  pose proof (new_child_old m root n pp k p Hwf Hn Hpp Hk Hp Hfresh) as Hold.
  pose proof (new_child_link m pp k p Hp) as Hlink.
  pose proof (new_child_zero m root n pp k p Hwf Hn Hpp Hk Hp Hfresh) as Hzero.
  assert (pt_page m root root) as Hr by by exists Root.
  set (m' := store64 _ _ _) in *.
  assert (∀ q i j, child m root i = Some q → idx9 i → idx9 j → (Mid i ≠ n ∨ j ≠ k) →
            child m' q j = child m q j) as Hmid.
  { intros r i j E Hi Hj Hne. assert (pt_page m root r) by by exists (Mid i).
    apply Hold; [done|done|]. destruct Hne as [Hne|]; [left|by right].
    intros ->. apply Hne. by apply (wf_inj _ _ Hwf _ _ pp). }
  assert (∀ i, idx9 i → (Root ≠ n ∨ i ≠ k) → child m' root i = child m root i) as Hroot.
  { intros i Hi Hne. apply Hold; [done|done|]. destruct Hne as [Hne|]; [left|by right].
    intros <-. apply Hne. by apply (wf_inj _ _ Hwf _ _ root). }
  destruct n as [|i0|i0 j0]; simpl in Hin; [..|done]; simpl in Hpp, Hnone.
  - injection Hpp as <-. destruct q as [|i|i j]; simpl; [done| |].
    + case_decide as D; [injection D as ->; done|]. apply Hroot; [done|right; congruence].
    + destruct Hq as [Hi Hj].
      destruct (Z.eq_dec i k) as [->|Hne]; [rewrite Hlink, Hnone; by apply Hzero|].
      rewrite Hroot by auto. destruct (child m root i) as [r|] eqn:E; [|done].
      by apply (Hmid r i); auto.
  - destruct q as [|i|i j]; simpl; [done|apply Hroot; auto|].
    destruct Hq as [Hi Hj]. rewrite Hroot by auto. case_decide as D.
    + injection D as -> ->. by rewrite Hpp.
    + destruct (child m root i) as [r|] eqn:E; [|done]. apply (Hmid r i); try done.
      destruct (decide (i = i0)) as [->|]; [right; congruence|left; congruence].
Qed.

Section NewNode2.
Context (m : memory) (root : Z) (n : node) (pp k p : Z).
Hypothesis Hwf : wf_pt m root.
Hypothesis Hn : node_ok n.
Hypothesis Hin : inner n.
Hypothesis Hpp : node_page m root n = Some pp.
Hypothesis Hk : idx9 k.
Hypothesis Hnone : node_page m root (sub n k) = None.
Hypothesis Hp : page_ok p.
Hypothesis Hfresh : ¬ pt_page m root p.
Let m' := store64 (fill (fill m p 5 PGSIZE) p 0 PGSIZE) (pp + 8 * k) (Z.lor (PA2PTE p) PTE_V).

Lemma sub_ok : node_ok (sub n k).
Proof. destruct n; simpl in *; done. Qed.

Lemma new_mono q r : node_ok q → node_page m root q = Some r → node_page m' root q = Some r.
Proof. intros Hq E. unfold m'. rewrite (new_node m root n) by done. case_decide as D; [congruence|done]. Qed.

Lemma new_pages q : pt_page m' root q ↔ pt_page m root q ∨ q = p.
Proof.
  split.
  - intros (x & Hx & E). unfold m' in E. rewrite (new_node m root n) in E by done.
    case_decide; [right; congruence|].
    left. by exists x.
  - intros [(x & Hx & E)| ->]; [exists x; split; [done|by apply new_mono]|].
    exists (sub n k). split; [apply sub_ok|].
    unfold m'. rewrite (new_node m root n) by (done || apply sub_ok).
    by rewrite decide_True.
Qed.

Lemma new_wf : wf_pt m' root.
Proof.
  split.
  - intros q [Hq| ->]%new_pages; [by apply (wf_pages _ _ Hwf)|done].
  - intros a b q Ha Hb. unfold m'. rewrite !(new_node m root n) by done. do 2 case_decide; intros Ea Eb.
    + congruence.
    + exfalso. apply Hfresh. exists b. split; congruence.
    + exfalso. apply Hfresh. exists a. split; congruence.
    + by apply (wf_inj _ _ Hwf a b q).
Qed.

Lemma new_pte va : pte_of m' root va = pte_of m root va.
Proof.
  unfold pte_of, m'. rewrite (new_node m root n) by (done || apply low_of_ok). case_decide as D.
  - rewrite D, Hnone. apply (new_entry_zero m root n); try done. apply PX_range; lia.
  - destruct (node_page m root (low_of va)) as [q|] eqn:E; [|done].
    apply (new_entry_old m root n); try done; [|apply PX_range; lia|left].
    + exists (low_of va). split; [apply low_of_ok|done].
    + intros Eq. assert (low_of va = n) as D'.
      { apply (wf_inj _ _ Hwf _ _ pp); (apply low_of_ok || congruence). }
      rewrite <- D' in Hin. done.
Qed.

Lemma new_frame x :
  ¬ (pp ≤ x < pp + PGSIZE) → ¬ (p ≤ x < p + PGSIZE) → m' x = m x.
Proof.
  intros H1 H2. unfold m', idx9, PGSIZE in *.
  rewrite store64_other, !fill_other by lia. done.
Qed.
End NewNode2.
End WithLayout.
