(* ===== verification/PageTableOps.v ===== *)
(** * Correctness of [walk], [mappages] and the unmap loops *)
From stdpp Require Import prelude list strings.
From Stdlib Require Import ZArith Lia.
From S2P Require Import Prelude Riscv Kalloc VM PageTable.
Open Scope Z_scope.

Section WithLayout.
Context `{Layout}.

(** ** The [grow] relation *)

Lemma grow_refl root s L : pt_inv s L root → grow root s s L L [].
Proof.
  intros [Hi Hwf Hd]. split; try done.
  - intros p. set_solver.
  - intros q Hq. by apply elem_of_nil in Hq.
Qed.

Lemma grow_nodup root s s' L L' used :
  kalloc_inv s L → grow root s s' L L' used → ∀ p, p ∈ used → p ∉ L'.
Proof.
  intros Hi Hg p Hp Hp'. pose proof (ki_nodup _ _ Hi) as Hn.
  rewrite (g_split _ _ _ _ _ _ Hg) in Hn. apply NoDup_app in Hn as (_ & Hn & _).
  by apply (Hn p).
Qed.

Lemma grow_pt_inv root s s' L L' used :
  pt_inv s L root → grow root s s' L L' used → pt_inv s' L' root.
Proof.
  intros [Hi Hwf Hd] Hg. split; [apply Hg|apply Hg|].
  intros p [Hp|Hp]%(g_pages _ _ _ _ _ _ Hg).
  - intros Hp'. apply (Hd p Hp). rewrite (g_split _ _ _ _ _ _ Hg). set_solver.
  - by apply (grow_nodup root s s' L L' used).
Qed.

Lemma used_page_ok s L used L' p :
  kalloc_inv s L → L = used ++ L' → p ∈ used → page_ok p.
Proof.
  intros Hi E Hp. pose proof (ki_pages _ _ Hi) as Hf. rewrite Forall_forall in Hf.
  apply Hf. rewrite E. set_solver.
Qed.

Lemma grow_trans root s1 s2 s3 L1 L2 L3 u1 u2 :
  kalloc_inv s1 L1 →
  grow root s1 s2 L1 L2 u1 → grow root s2 s3 L2 L3 u2 → grow root s1 s3 L1 L3 (u1 ++ u2).
Proof.
  intros Hi G1 G2. pose proof G1 as [Hs1 _ _ Hp1 Hf1 Hr1 Hu1].
  pose proof G2 as [Hs2 Hi3 Hw3 Hp2 Hf2 Hr2 Hu2]. split; try done.
  - rewrite Hs1, Hs2. by rewrite app_assoc.
  - intros p. rewrite Hp2, Hp1, elem_of_app. tauto.
  - intros x Hx. rewrite Hf2, Hf1; [done|..].
    + intros p Hp. apply Hx. set_solver.
    + intros p [Hp%Hp1|Hp]; apply Hx; set_solver.
  - intros q Hq Hn. rewrite Hr2, Hr1; [done|done|set_solver|done|set_solver].
  - intros q [Hq|Hq]%elem_of_app; [|by apply Hu2].
    rewrite Hr2; [by apply Hu1|..].
    + apply (used_page_ok s1 L1 u1 L2); [done|done|done].
    + intros Hq2. apply (grow_nodup _ _ _ _ _ _ Hi G1 q Hq). rewrite Hs2. set_solver.
Qed.

(** A table whose pages are disjoint from the growing one is not affected. *)
Definition disj_pt (m : memory) (root root' : Z) : Prop :=
  ∀ p, pt_page m root p → pt_page m root' p → False.

Lemma grow_agree root s s' L L' used (P : Z → Prop) :
  pt_inv s L root → grow root s s' L L' used →
  (∀ p, P p → page_ok p ∧ p ∉ L ∧ ¬ pt_page (mem s) root p) →
  agree_on (mem s) (mem s') P.
Proof.
  intros Hpi Hg HP p x Hp Hx. destruct (HP p Hp) as (Hok & HL & Hnp).
  apply (g_frame _ _ _ _ _ _ Hg). intros q Hq Hqx.
  assert (page_ok q ∧ p ≠ q) as [Hqok Hne].
  { destruct Hq as [Hq|Hq].
    - split; [by apply (wf_pages _ _ (pi_wf _ _ _ Hpi))|by intros ->].
    - split; [by apply (used_page_ok s L used L'); [apply Hpi|apply Hg|]|].
      intros ->. apply HL. rewrite (g_split _ _ _ _ _ _ Hg). set_solver. }
  destruct Hok as [Ha _], Hqok as [Hb _]. by apply (pages_disjoint p q x).
Qed.

Lemma grow_other root root' s s' L L' used :
  pt_inv s L root → pt_inv s L root' → disj_pt (mem s) root root' →
  grow root s s' L L' used →
  agree_on (mem s) (mem s') (pt_page (mem s) root') ∧
  pt_inv s' L' root' ∧ disj_pt (mem s') root root'.
Proof.
  intros H1 H2 Hd Hg.
  assert (agree_on (mem s) (mem s') (pt_page (mem s) root')) as Ha.
  { apply (grow_agree root s s' L L' used); [done|done|]. intros p Hp. split_and!.
    - by apply (wf_pages _ _ (pi_wf _ _ _ H2)).
    - by apply (pi_free _ _ _ H2).
    - intros Hp'. by apply (Hd p). }
  split; [done|split].
  - split; [apply Hg|by apply (wf_pt_agree (mem s)); [done|apply H2]|].
    intros p Hp%(pt_page_agree _ _ _ _ Ha) HL. apply (pi_free _ _ _ H2 p Hp).
    rewrite (g_split _ _ _ _ _ _ Hg). set_solver.
  - intros p [Hp|Hp]%(g_pages _ _ _ _ _ _ Hg) Hp'%(pt_page_agree _ _ _ _ Ha).
    + by apply (Hd p).
    + apply (pi_free _ _ _ H2 p Hp'). rewrite (g_split _ _ _ _ _ _ Hg). set_solver.
Qed.

(** ** [walk] without allocation *)

Lemma walk_noalloc s root va :
  va < MAXVA →
  walk root va false s =
    Ok (match node_page (mem s) root (low_of va) with
        | Some p => p + 8 * PX 0 va | None => 0 end) s.
Proof.
  intros Hva. unfold walk. destruct (Z.leb_spec MAXVA va); [lia|].
  unfold walk_loop, walk_step, read_pte, mbindM, gets, mretM. simpl negb. cbv iota.
  change (Z.of_nat 2) with 2. change (Z.of_nat 1) with 1.
  unfold low_of, node_page, child.
  destruct (has (load64 (mem s) (root + 8 * PX 2 va)) PTE_V); [|done].
  by destruct (has (load64 (mem s) _) PTE_V).
Qed.

(** ** [walk] with allocation *)

Lemma walk_step_spec s L root n pp level va :
  pt_inv s L root → node_ok n → inner n → node_page (mem s) root n = Some pp →
  0 ≤ level →
  ∃ r s' L' used,
    walk_step level va true pp s = Ok r s' ∧ grow root s s' L L' used ∧
    (∀ va', pte_of (mem s') root va' = pte_of (mem s) root va') ∧
    (∀ q p, node_ok q → node_page (mem s) root q = Some p → node_page (mem s') root q = Some p) ∧
    match r with
    | None => L' = []
    | Some p => node_page (mem s') root (sub n (PX level va)) = Some p
    end.
Proof.
  intros Hpi Hn Hin Hpp Hl. set (k := PX level va).
  assert (idx9 k) as Hk by by apply PX_range.
  assert (node_page (mem s) root (sub n k) = child (mem s) pp k) as Esub.
  { destruct n; simpl in *; [by injection Hpp as ->|by rewrite Hpp|done]. }
  unfold walk_step, read_pte, mbindM, gets, mretM. fold k.
  destruct (has (load64 (mem s) (pp + 8 * k)) PTE_V) eqn:EV; simpl.
  { do 4 eexists. split; [done|]. split; [by apply grow_refl|]. split; [done|].
    split; [done|]. rewrite Esub. unfold child. by rewrite EV. }
  assert (node_page (mem s) root (sub n k) = None) as Hnone.
  { rewrite Esub. unfold child. by rewrite EV. }
  destruct L as [|p L].
  { rewrite kalloc_empty by apply Hpi. simpl.
    do 4 eexists. split; [done|]. split; [by apply grow_refl|]. done. }
  destruct (kalloc_cons s p L (pi_alloc _ _ _ Hpi)) as [-> Hi'].
  pose proof (ki_pages _ _ (pi_alloc _ _ _ Hpi)) as Hps. apply Forall_cons in Hps as [Hp Hps].
  pose proof (ki_nodup _ _ (pi_alloc _ _ _ Hpi)) as Hnd. apply NoDup_cons in Hnd as [HpL Hnd].
  pose proof (page_ok_range _ Hp) as Hpr. unfold KERNBASE in Hpr.
  destruct (Z.eqb_spec p 0) as [|_]; [lia|].
  unfold memset_page, write_pte, modify. simpl.
  assert (¬ pt_page (mem s) root p) as Hfresh.
  { intros Hp'. apply (pi_free _ _ _ Hpi p Hp'). set_solver. }
  pose proof (pi_wf _ _ _ Hpi) as Hwf.
  do 4 eexists. split; [done|]. split; [|split; [|split]].
  - split.
    + instantiate (2 := [p]). reflexivity.
    + apply (kalloc_inv_frame _ _ _ Hi'). simpl. intros x Hx.
      destruct (decide (p ≤ x < p + PGSIZE)) as [|H1].
      { exists p. split; [apply Hp|done]. }
      destruct (decide (pp ≤ x < pp + PGSIZE)) as [|H2].
      { exists pp. assert (pt_page (mem s) root pp) as Hq by by exists n.
        split; [by apply (pt_page_aligned (mem s) root)|split; [|done]].
        intros HL. apply (pi_free _ _ _ Hpi pp Hq). set_solver. }
      exfalso. apply Hx. rewrite (new_frame (mem s)) by done. by rewrite fill_other.
    + by apply (new_wf _ _ n).
    + intros q. simpl. rewrite (new_pages _ _ n) by done. set_solver.
    + intros x Hx. simpl. apply (new_frame (mem s)); [done|..]; apply Hx; [|set_solver].
      left. by exists n.
    + intros q Hq Hne. simpl. rewrite upd_ne; [done|]. intros E%pa2index_inj; [set_solver|done..].
    + intros q ->%list_elem_of_singleton. simpl. by rewrite upd_eq.
  - intros va'. simpl. by apply (new_pte _ _ n).
  - intros q r Hq E. simpl. by apply (new_mono _ _ n).
  - assert (node_ok (sub n k)) by (destruct n; simpl in *; done).
    simpl. rewrite (new_node _ _ n) by done. by rewrite decide_True.
Qed.

Lemma walk_alloc s L root va :
  pt_inv s L root → 0 ≤ va < MAXVA →
  ∃ r s' L' used,
    walk root va true s = Ok r s' ∧ grow root s s' L L' used ∧
    (∀ va', pte_of (mem s') root va' = pte_of (mem s) root va') ∧
    ((r = 0 ∧ L' = []) ∨
     (r ≠ 0 ∧ ∃ pg, node_page (mem s') root (low_of va) = Some pg ∧ r = pg + 8 * PX 0 va)).
Proof.
  intros Hpi Hva. unfold walk. destruct (Z.leb_spec MAXVA va); [lia|].
  unfold walk_loop, mretM. change (Z.of_nat 2) with 2. change (Z.of_nat 1) with 1.
  destruct (walk_step_spec s L root Root root 2 va Hpi I I eq_refl ltac:(lia))
    as (r1 & s1 & L1 & u1 & E1 & G1 & P1 & M1 & R1).
  unfold mbindM at 1 2. rewrite E1. destruct r1 as [p1|].
  2:{ exists 0, s1, L1, u1. split_and!; try done. by left. }
  pose proof (grow_pt_inv _ _ _ _ _ _ Hpi G1) as Hpi1.
  simpl sub in R1.
  destruct (walk_step_spec s1 L1 root (Mid (PX 2 va)) p1 1 va Hpi1
              (PX_range 2 va ltac:(lia)) I R1 ltac:(lia))
    as (r2 & s2 & L2 & u2 & E2 & G2 & P2 & M2 & R2).
  unfold mbindM at 1. rewrite E2.
  pose proof (grow_trans _ _ _ _ _ _ _ _ _ (pi_alloc _ _ _ Hpi) G1 G2) as G.
  destruct r2 as [p0|].
  2:{ exists 0, s2, L2, (u1 ++ u2). split_and!; try done; [|by left].
      intros va'. by rewrite P2, P1. }
  exists (p0 + 8 * PX 0 va), s2, L2, (u1 ++ u2). split_and!; try done.
  - intros va'. by rewrite P2, P1.
  - right. split; [|by exists p0].
    assert (page_ok p0) as Hok.
    { apply (wf_pages _ _ (g_wf _ _ _ _ _ _ G)). exists (low_of va). split; [apply low_of_ok|done]. }
    apply page_ok_range in Hok. pose proof (PX_range 0 va). unfold KERNBASE in Hok. lia.
Qed.

(** ** Leaf writes as [grow] steps, and [mappages] *)

Lemma leaf_write_grow s L root va pg v :
  pt_inv s L root → node_page (mem s) root (low_of va) = Some pg →
  grow root s (set_mem (store64 (mem s) (pg + 8 * PX 0 va) v) s) L L [].
Proof.
  intros Hpi Hlow. pose proof (pi_wf _ _ _ Hpi) as Hwf.
  assert (pt_page (mem s) root pg) as Hpg.
  { exists (low_of va). split; [apply low_of_ok|done]. }
  assert (∀ x, store64 (mem s) (pg + 8 * PX 0 va) v x ≠ mem s x → pg ≤ x < pg + PGSIZE) as Hch.
  { intros x Hx. pose proof (PX_range 0 va). unfold PGSIZE.
    destruct (decide (pg ≤ x < pg + 4096)) as [|Hn]; [done|].
    rewrite store64_other in Hx by lia. done. }
  split; try done.
  - apply kalloc_inv_frame; [apply Hpi|]. intros x Hx. exists pg.
    split; [by apply (pt_page_aligned (mem s) root)|split; [|by apply Hch]].
    by apply (pi_free _ _ _ Hpi).
  - by apply leaf_write_wf.
  - intros p. simpl. rewrite leaf_write_pages by done. set_solver.
  - intros x Hx. simpl. apply store64_other. intros Hx'. apply (Hx pg); [by left|].
    pose proof (PX_range 0 va). unfold PGSIZE. lia.
  - intros q Hq. by apply elem_of_nil in Hq.
Qed.

Lemma pte_of_low s root va pg :
  node_page (mem s) root (low_of va) = Some pg →
  load64 (mem s) (pg + 8 * PX 0 va) = pte_of (mem s) root va.
Proof. intros E. unfold pte_of. by rewrite E. Qed.

Lemma page_of_first a va :
  a mod PGSIZE = 0 → PGROUNDDOWN va = a ↔ a ≤ va < a + PGSIZE.
Proof.
  intros Ha. pose proof (PGROUNDDOWN_le va). pose proof (PGROUNDDOWN_aligned va).
  unfold PGSIZE in *. split; [lia|]. intros Hva. Z.div_mod_to_equations; lia.
Qed.

(** A range of [n + 1] pages is its first page and the [n] that follow. *)
Lemma in_range_page a n va :
  a mod PGSIZE = 0 → 0 ≤ n →
  in_range a ((n + 1) * PGSIZE) va =
  (PGROUNDDOWN va =? a) || in_range (a + PGSIZE) (n * PGSIZE) va.
Proof.
  intros Ha Hn. apply eq_bool_prop_intro.
  rewrite !Is_true_true, orb_true_iff, Z.eqb_eq, !in_range_true.
  rewrite page_of_first by done. unfold PGSIZE. lia.
Qed.

Lemma mappages_loop_S n root a last pa perm s :
  mappages_loop (S n) root a last pa perm s =
  (pte <-- walk root a true ;;
   if pte =? 0 then mretM (-1)
   else
     v <-- read_pte pte ;;
     if has v PTE_V then panic "remap"
     else
       write_pte pte (mk_pte pa perm) ;;;
       if a =? last then mretM 0
       else mappages_loop n root (u64 (a + PGSIZE)) last (u64 (pa + PGSIZE)) perm) s.
Proof. reflexivity. Qed.

(** One page: the walk either runs out of pages and leaves the mapping as it
    was, or the entry of [a] is written. *)
Lemma mappages_step s L root a pa perm n last :
  pt_inv s L root → a mod PGSIZE = 0 → 0 ≤ a < MAXVA → 0 ≤ pa < 2 ^ 56 → 0 ≤ perm < 2 ^ 10 →
  has (pte_of (mem s) root a) PTE_V = false →
  ∃ s' L' used,
    grow root s s' L L' used ∧
    ((mappages_loop (S n) root a last pa perm s = Ok (-1) s' ∧ L' = [] ∧
      (∀ va, pte_of (mem s') root va = pte_of (mem s) root va)) ∨
     (mappages_loop (S n) root a last pa perm s =
        (if a =? last then mretM 0
         else mappages_loop n root (u64 (a + PGSIZE)) last (u64 (pa + PGSIZE)) perm) s' ∧
      (∀ va, 0 ≤ va < MAXVA → pte_of (mem s') root va =
         if PGROUNDDOWN va =? a then mk_pte pa perm else pte_of (mem s) root va))).
Proof.
  intros Hpi Ha Hva Hpa Hperm Hno.
  destruct (walk_alloc s L root a Hpi) as (r & s1 & L1 & u1 & E1 & G1 & P1 & R1); [done|].
  rewrite mappages_loop_S, (mbindM_Ok _ _ _ _ _ E1).
  destruct R1 as [[-> ->]|(Hr0 & pg & Hlow & ->)].
  { exists s1, [], u1. split; [done|]. by left. }
  destruct (Z.eqb_spec (pg + 8 * PX 0 a) 0) as [|_]; [done|].
  set (s2 := set_mem (store64 (mem s1) (pg + 8 * PX 0 a) (mk_pte pa perm)) s1).
  pose proof (grow_pt_inv _ _ _ _ _ _ Hpi G1) as Hpi1.
  pose proof (leaf_write_grow s1 L1 root a pg (mk_pte pa perm) Hpi1 Hlow) as G2. fold s2 in G2.
  pose proof (grow_trans _ _ _ _ _ _ _ _ _ (pi_alloc _ _ _ Hpi) G1 G2) as G.
  rewrite app_nil_r in G. exists s2, L1, u1. split; [done|]. right. split.
  { unfold read_pte, gets. unfold mbindM at 1.
    by rewrite (pte_of_low s1 root a pg Hlow), P1, Hno. }
  intros va Hv. simpl. rewrite leaf_write_pte by (done || apply Hpi1).
  rewrite (PGROUNDDOWN_id a), P1 by done.
  case_if; [by apply u64_small, mk_pte_range|done].
Qed.

(** The mapping of one page followed by that of the next [k]. *)
Lemma mapped_range_S a pa perm k (old : Z) va :
  a mod PGSIZE = 0 → 0 ≤ k →
  (if in_range (a + PGSIZE) (k * PGSIZE) va
   then mk_pte (pa + PGSIZE + (PGROUNDDOWN va - (a + PGSIZE))) perm
   else if PGROUNDDOWN va =? a then mk_pte pa perm else old) =
  (if in_range a ((k + 1) * PGSIZE) va then mk_pte (pa + (PGROUNDDOWN va - a)) perm else old).
Proof.
  intros Ha Hk. rewrite in_range_page by done.
  destruct (in_range (a + PGSIZE) (k * PGSIZE) va); rewrite ?orb_true_r, ?orb_false_r.
  - f_equal. lia.
  - destruct (Z.eqb_spec (PGROUNDDOWN va) a) as [->|]; [|done]. f_equal. lia.
Qed.

Lemma mappages_loop_spec (n : nat) s L root a last pa perm :
  pt_inv s L root →
  a mod PGSIZE = 0 → 0 ≤ a → a + (Z.of_nat n + 1) * PGSIZE ≤ MAXVA →
  last = a + Z.of_nat n * PGSIZE →
  pa mod PGSIZE = 0 → 0 ≤ pa → pa + (Z.of_nat n + 1) * PGSIZE ≤ 2 ^ 56 →
  0 ≤ perm < 2 ^ 10 →
  (∀ va, a ≤ va < a + (Z.of_nat n + 1) * PGSIZE → has (pte_of (mem s) root va) PTE_V = false) →
  ∃ r s' L' used k,
    mappages_loop (S n) root a last pa perm s = Ok r s' ∧ grow root s s' L L' used ∧
    ((r = 0 ∧ k = Z.of_nat n + 1) ∨ (r = -1 ∧ 0 ≤ k ≤ Z.of_nat n ∧ L' = [])) ∧
    (∀ va, 0 ≤ va < MAXVA → pte_of (mem s') root va =
       if in_range a (k * PGSIZE) va
       then mk_pte (pa + (PGROUNDDOWN va - a)) perm else pte_of (mem s) root va).
Proof.
  revert s L a pa. induction n as [|n IH]; intros s L a pa Hpi Ha Ha0 Hmax Hlast Hpa Hpa0 Hpamax Hperm Hinv.
  all: match goal with |- context [mappages_loop (S ?k)] =>
    destruct (mappages_step s L root a pa perm k last Hpi Ha) as
      (s1 & L1 & u1 & G1 & [(E1 & -> & P1)|[E1 P1]]) end;
    [unfold PGSIZE in *; lia|unfold PGSIZE in *; lia|done|apply Hinv; unfold PGSIZE; lia|..].
  all: rewrite E1.
  1,3: exists (-1), s1, [], u1, 0; split_and!; [done|done|right; split_and!; (lia || done)|];
    intros va Hva; by rewrite P1, (proj2 (in_range_false a (0 * PGSIZE) va)) by lia.
  - destruct (Z.eqb_spec a last) as [_|]; [|lia].
    exists 0, s1, L1, u1, 1. split_and!; [done|done|lia|].
    intros va Hva. rewrite P1, <- (mapped_range_S a pa perm 0) by (done || lia).
    by rewrite (proj2 (in_range_false (a + PGSIZE) (0 * PGSIZE) va)) by lia.
  - destruct (Z.eqb_spec a last) as [|_]; [unfold PGSIZE in *; lia|].
    rewrite (u64_small (a + PGSIZE)), (u64_small (pa + PGSIZE))
      by (unfold PGSIZE, MAXVA in *; lia).
    destruct (IH s1 L1 (a + PGSIZE) (pa + PGSIZE)) as (r & s3 & L3 & u3 & k & E3 & G3 & R3 & P3).
    { by apply (grow_pt_inv root s s1 L L1 u1). }
    1-8: unfold PGSIZE in *; try lia; Z.div_mod_to_equations; lia.
    { intros va Hva. rewrite P1 by (unfold PGSIZE in *; lia).
      destruct (Z.eqb_spec (PGROUNDDOWN va) a) as [E%page_of_first|_]; [lia|done|].
      apply Hinv. unfold PGSIZE in *; lia. }
    exists r, s3, L3, (u1 ++ u3), (k + 1). split_and!; [exact E3| |naive_solver lia|].
    { apply (grow_trans root s s1 s3 L L1 L3); [apply Hpi|done|done]. }
    intros va Hva. rewrite P3, P1 by done. apply mapped_range_S; [done|naive_solver lia].
Qed.

(** The usual call: one page. *)
Lemma mappages_page s L root a pa perm :
  pt_inv s L root → a mod PGSIZE = 0 → 0 ≤ a < MAXVA →
  pa mod PGSIZE = 0 → 0 ≤ pa < 2 ^ 56 → 0 ≤ perm < 2 ^ 10 →
  has (pte_of (mem s) root a) PTE_V = false →
  ∃ r s' L' used,
    mappages root a PGSIZE pa perm s = Ok r s' ∧ grow root s s' L L' used ∧
    (r = 0 ∨ (r = -1 ∧ L' = [])) ∧
    (∀ va, 0 ≤ va < MAXVA → pte_of (mem s') root va =
       if (r =? 0) && (PGROUNDDOWN va =? a) then mk_pte pa perm else pte_of (mem s) root va).
Proof.
  intros Hpi Ha Ha0 Hpa Hpa0 Hperm Hinv.
  assert (a + PGSIZE ≤ MAXVA) as Hmax.
  { unfold PGSIZE, MAXVA in *. Z.div_mod_to_equations; lia. }
  assert (pa + PGSIZE ≤ 2 ^ 56) as Hpamax.
  { unfold PGSIZE in *. Z.div_mod_to_equations; lia. }
  unfold mappages. rewrite (PGROUNDDOWN_id a Ha).
  assert (PGROUNDDOWN (u64 (a + PGSIZE - 1)) = a) as El.
  { rewrite u64_small by (unfold PGSIZE, MAXVA in *; lia).
    rewrite PGROUNDDOWN_eq. unfold PGSIZE in *. Z.div_mod_to_equations; lia. }
  rewrite El, Z.sub_diag. change (u64 0 / PGSIZE) with 0. change (Z.to_nat 0) with O.
  destruct (mappages_loop_spec 0 s L root a a pa perm) as (r & s' & L' & u & k & E & G & R & P);
    try done; try (simpl; lia).
  { intros va Hva. rewrite <- Hinv. unfold pte_of.
    assert (PGROUNDDOWN va = a) as Eg.
    { rewrite PGROUNDDOWN_eq. unfold PGSIZE in *. simpl in Hva. Z.div_mod_to_equations; lia. }
    assert (∀ l, 0 ≤ l → PX l va = PX l a) as EP.
    { intros l Hl. rewrite <- (PX_PGROUNDDOWN l va), Eg by done. done. }
    unfold low_of. by rewrite !EP by lia. }
  exists r, s', L', u. split_and!; [done|done|intuition lia|].
  intros va Hva. rewrite P by done. pose proof (PGROUNDDOWN_le va) as Hle.
  pose proof (PGROUNDDOWN_aligned va) as Hal.
  destruct R as [[-> Hk]|(-> & Hk & _)]; simpl.
  - assert (k = 1) as -> by lia. destruct (Z.eqb_spec (PGROUNDDOWN va) a) as [E'|Hne].
    + assert (in_range a (1 * PGSIZE) va = true) as -> by (apply in_range_true; lia).
      f_equal. lia.
    + assert (in_range a (1 * PGSIZE) va = false) as ->; [|done].
      apply in_range_false. unfold PGSIZE in *. Z.div_mod_to_equations; lia.
  - assert (k = 0) as -> by lia.
    by assert (in_range a (0 * PGSIZE) va = false) as -> by (apply in_range_false; lia).
Qed.

(** ** Unmapping *)

(** The memory of a table is unaffected by [kfree] of a page outside it. *)
Lemma kfree_frame p s L root :
  pt_inv s L root → page_ok p → p ∉ L → ¬ pt_page (mem s) root p →
  1 ≤ ref_count s (pa2index p) →
  ∃ s' L', kfree p s = Ok tt s' ∧ pt_inv s' L' root ∧
    agree_on (mem s) (mem s') (pt_page (mem s) root) ∧
    (∀ q, page_ok q → ref_count s' (pa2index q) =
       ref_count s (pa2index q) - (if q =? p then 1 else 0)) ∧
    (∀ q, q ∈ L' ↔ q ∈ L ∨ (q = p ∧ ref_count s (pa2index p) = 1)) ∧
    (∀ x, ¬ (p ≤ x < p + PGSIZE) → mem s' x = mem s x).
Proof.
  intros Hpi Hp HpL Hnp Hr. pose proof (pi_alloc _ _ _ Hpi) as Hi.
  assert (∀ q r r', page_ok q → r' = ref_count s (pa2index p) - 1 →
    r = upd (ref_count s) (pa2index p) r' →
    r (pa2index q) = ref_count s (pa2index q) - (if q =? p then 1 else 0)) as Hrefs.
  { intros q r r' Hq -> ->. destruct (Z.eqb_spec q p) as [->|Hne]; [rewrite upd_eq; lia|].
    rewrite upd_ne; [lia|]. intros ?%pa2index_inj; auto. }
  destruct (Z.eq_dec (ref_count s (pa2index p)) 1) as [E1|Hne1].
  - destruct (kfree_free p s L Hi Hp HpL ltac:(lia)) as [E Hi'].
    assert (∀ x, ¬ (p ≤ x < p + PGSIZE) → mem (kfree_post p s) x = mem s x) as Hfr.
    { intros x Hx. simpl. unfold PGSIZE in Hx.
      rewrite store64_other, fill_other by (unfold PGSIZE; lia). done. }
    assert (agree_on (mem s) (mem (kfree_post p s)) (pt_page (mem s) root)) as Ha.
    { intros q x Hq Hx. apply Hfr. intros Hx'.
      apply (pages_disjoint p q x); try done; [apply Hp| |by intros ->].
      by apply (pt_page_aligned (mem s) root); [apply Hpi|]. }
    exists (kfree_post p s), (p :: L). split_and!; try done.
    + split; [done|by apply (wf_pt_agree (mem s)); [done|apply Hpi]|].
      intros q Hq%(pt_page_agree _ _ _ _ Ha) [->|HqL]%elem_of_cons; [done|].
      by apply (pi_free _ _ _ Hpi q).
    + intros q Hq. simpl. destruct (Z.ltb_spec 0 (ref_count s (pa2index p))); [|lia].
      by eapply Hrefs.
    + intros q. rewrite elem_of_cons. intuition.
  - exists (set_ref (pa2index p) (ref_count s (pa2index p) - 1) s), L.
    split_and!; try done.
    + apply kfree_shared; [done|lia].
    + split; [|apply Hpi|apply Hpi]. pose proof (ki_ref_range _ _ Hi _ (idx_ok_page p Hp)).
      apply kalloc_inv_set_ref; try done; lia.
    + intros q Hq. by eapply Hrefs.
    + intros q. intuition lia.
Qed.

(** The frame [va] maps may be released: a managed page, in use, that is not
    part of the table. *)
Definition can_free (s : kst) (L : list Z) (root pa : Z) : Prop :=
  page_ok pa ∧ pa ∉ L ∧ ¬ pt_page (mem s) root pa ∧ 1 ≤ ref_count s (pa2index pa).

Lemma unmap_one_spec s L root msg a do_free :
  pt_inv s L root → a mod PGSIZE = 0 → 0 ≤ a < MAXVA →
  let v := pte_of (mem s) root a in
  let pa := PTE2PA v in
  let hit := has v PTE_V in
  (hit = true → PTE_FLAGS v ≠ PTE_V) →
  (hit = true → do_free = true → can_free s L root pa) →
  ∃ s' L', unmap_one msg root a do_free s = Ok tt s' ∧ pt_inv s' L' root ∧
    (∀ va, 0 ≤ va < MAXVA → pte_of (mem s') root va =
       if hit && (PGROUNDDOWN va =? a) then 0 else pte_of (mem s) root va) ∧
    (∀ p, pt_page (mem s') root p ↔ pt_page (mem s) root p) ∧
    (∀ q, page_ok q → ref_count s' (pa2index q) =
       ref_count s (pa2index q) - (if hit && do_free && (q =? pa) then 1 else 0)) ∧
    (∀ q, q ∈ L' ↔ q ∈ L ∨ (hit && do_free = true ∧ q = pa ∧ ref_count s (pa2index pa) = 1)) ∧
    (∀ x, ¬ (pa ≤ x < pa + PGSIZE ∧ hit && do_free = true) →
       (∀ p, pt_page (mem s) root p → ¬ (p ≤ x < p + PGSIZE)) → mem s' x = mem s x).
Proof.
  intros Hpi Ha Ha0 v pa hit Hleaf Hfree. unfold unmap_one.
  rewrite (mbindM_Ok _ _ _ _ _ (walk_noalloc s root a ltac:(lia))).
  destruct (node_page (mem s) root (low_of a)) as [pg|] eqn:Hlow.
  2:{ assert (hit = false) as Eh by (unfold hit, v, pte_of; by rewrite Hlow).
      rewrite Z.eqb_refl, Eh. exists s, L. split_and!; try done; intros; simpl; try lia.
      intuition discriminate. }
  assert (page_ok pg) as Hpg.
  { apply (wf_pages _ _ (pi_wf _ _ _ Hpi)). exists (low_of a). split; [apply low_of_ok|done]. }
  apply page_ok_range in Hpg. unfold KERNBASE in Hpg. pose proof (PX_range 0 a).
  destruct (Z.eqb_spec (pg + 8 * PX 0 a) 0) as [|_]; [lia|].
  unfold read_pte, gets; unfold mbindM at 1. rewrite (pte_of_low s root a pg Hlow). fold v.
  fold hit. destruct hit eqn:EV; cbn [negb].
  2:{ exists s, L. split_and!; try done; intros; simpl; try lia. intuition discriminate. }
  destruct (Z.eqb_spec (PTE_FLAGS v) PTE_V) as [|_]; [by destruct Hleaf|].
  assert (∃ s1 L1, whenM do_free (kfree (PTE2PA v)) s = Ok tt s1 ∧ pt_inv s1 L1 root ∧
    agree_on (mem s) (mem s1) (pt_page (mem s) root) ∧
    (∀ q, page_ok q → ref_count s1 (pa2index q) =
       ref_count s (pa2index q) - (if do_free && (q =? pa) then 1 else 0)) ∧
    (∀ q, q ∈ L1 ↔ q ∈ L ∨ (do_free = true ∧ q = pa ∧ ref_count s (pa2index pa) = 1)) ∧
    (∀ x, ¬ (pa ≤ x < pa + PGSIZE ∧ do_free = true) → mem s1 x = mem s x))
    as (s1 & L1 & E1 & Hpi1 & Ha1 & Hr1 & HL1 & Hf1).
  { destruct do_free; simpl.
    - destruct (Hfree eq_refl eq_refl) as (Hok & HL & Hnp & Hr).
      destruct (kfree_frame pa s L root Hpi Hok HL Hnp Hr) as (s1 & L1 & ? & ? & ? & ? & HL1 & Hf).
      exists s1, L1. split_and!; try done; [intros q; rewrite HL1; intuition|].
      intros x Hx. apply Hf. tauto.
    - exists s, L. split_and!; try done; [intros; lia|intuition discriminate]. }
  rewrite (mbindM_Ok _ _ _ _ _ E1). unfold write_pte, modify.
  assert (node_page (mem s1) root (low_of a) = Some pg) as Hlow1.
  { rewrite (node_page_agree (mem s)); [done|done|apply low_of_ok]. }
  pose proof (leaf_write_grow s1 L1 root a pg 0 Hpi1 Hlow1) as G.
  do 2 eexists. split; [done|]. split; [exact (grow_pt_inv _ _ _ _ _ _ Hpi1 G)|].
  split_and!.
  - intros va Hva. simpl. rewrite leaf_write_pte by (try done; apply Hpi1).
    rewrite (PGROUNDDOWN_id a Ha), (pte_of_agree (mem s)) by done. done.
  - intros p. rewrite (g_pages _ _ _ _ _ _ G), (pt_page_agree (mem s)) by done. set_solver.
  - intros q Hq. simpl. by apply Hr1.
  - intros q. by rewrite HL1.
  - intros x Hx Hpt. simpl. rewrite store64_other; [by apply Hf1; intuition|].
    intros Hx'. apply (Hpt pg); [|unfold PGSIZE; lia].
    exists (low_of a). split; [apply low_of_ok|done].
Qed.

(** The frames mapped in [n] pages from [a]. *)
Definition mapped_in (m : memory) (root a n q : Z) : Prop :=
  ∃ va, a ≤ va < a + n * PGSIZE ∧ has (pte_of m root va) PTE_V = true ∧
        PTE2PA (pte_of m root va) = q.

Lemma pte_of_page m root va : pte_of m root (PGROUNDDOWN va) = pte_of m root va.
Proof. unfold pte_of, low_of. by rewrite !PX_PGROUNDDOWN by lia. Qed.

(** Requirements of an unmap of [n] pages from [a]: entries are leaves, and
    with [do_free] the frames may be released and are distinct. *)
Record unmap_pre (s : kst) (L : list Z) (root a n : Z) (do_free : bool) : Prop := {
  up_leaf : ∀ va, a ≤ va < a + n * PGSIZE → has (pte_of (mem s) root va) PTE_V = true →
    PTE_FLAGS (pte_of (mem s) root va) ≠ PTE_V;
  up_free : do_free = true → ∀ q, mapped_in (mem s) root a n q → can_free s L root q;
  up_inj : do_free = true → ∀ va va', a ≤ va < a + n * PGSIZE → a ≤ va' < a + n * PGSIZE →
    has (pte_of (mem s) root va) PTE_V = true → has (pte_of (mem s) root va') PTE_V = true →
    PTE2PA (pte_of (mem s) root va) = PTE2PA (pte_of (mem s) root va') →
    PGROUNDDOWN va = PGROUNDDOWN va' }.

Record unmap_post (s s' : kst) (L L' : list Z) (root a n : Z) (do_free : bool) : Prop := {
  uq_inv : pt_inv s' L' root;
  uq_pte : ∀ va, 0 ≤ va < MAXVA → pte_of (mem s') root va =
    if in_range a (n * PGSIZE) va && has (pte_of (mem s) root va) PTE_V
    then 0 else pte_of (mem s) root va;
  uq_pages : ∀ p, pt_page (mem s') root p ↔ pt_page (mem s) root p;
  uq_ref : ∀ q, page_ok q →
    (do_free = true ∧ mapped_in (mem s) root a n q →
       ref_count s' (pa2index q) = ref_count s (pa2index q) - 1) ∧
    (¬ (do_free = true ∧ mapped_in (mem s) root a n q) →
       ref_count s' (pa2index q) = ref_count s (pa2index q));
  uq_free : ∀ q, q ∈ L' ↔
    q ∈ L ∨ (do_free = true ∧ mapped_in (mem s) root a n q ∧ ref_count s (pa2index q) = 1);
  uq_frame : ∀ x,
    (∀ p, pt_page (mem s) root p ∨ (do_free = true ∧ mapped_in (mem s) root a n p) →
       ¬ (p ≤ x < p + PGSIZE)) → mem s' x = mem s x }.

Lemma unmap_loop_S n msg root a bound do_free s :
  unmap_loop (S n) msg root a bound do_free s =
  (if a <? bound
   then unmap_one msg root a do_free ;;;
        unmap_loop n msg root (u64 (a + PGSIZE)) bound do_free
   else mretM tt) s.
Proof. reflexivity. Qed.

Lemma mapped_in_0 m root a q : ¬ mapped_in m root a 0 q.
Proof. intros (va & Hva & _). lia. Qed.

Lemma mapped_in_S m m' root a n q :
  a mod PGSIZE = 0 → 0 ≤ n →
  (∀ va, a + PGSIZE ≤ va < a + PGSIZE + n * PGSIZE → pte_of m' root va = pte_of m root va) →
  mapped_in m root a (n + 1) q ↔
    (has (pte_of m root a) PTE_V = true ∧ PTE2PA (pte_of m root a) = q) ∨
    mapped_in m' root (a + PGSIZE) n q.
Proof.
  intros Ha Hn Heq. split.
  - intros (va & Hva & Hv & Hq). destruct (decide (va < a + PGSIZE)) as [Hlt|Hge].
    + left. assert (PGROUNDDOWN va = a) as E by (apply page_of_first; [done|lia]).
      rewrite <- (pte_of_page m root va), E in Hv, Hq. done.
    + right. exists va. rewrite Heq by (unfold PGSIZE in *; lia). split; [unfold PGSIZE in *; lia|done].
  - intros [[Hv Hq]|(va & Hva & Hv & Hq)].
    + exists a. split; [unfold PGSIZE in *; lia|done].
    + exists va. rewrite Heq in Hv, Hq by done. split; [unfold PGSIZE in *; lia|done].
Qed.

Lemma unmap_pre_step s L root a n do_free :
  unmap_pre s L root a (n + 1) do_free → 0 ≤ n → a mod PGSIZE = 0 →
  ∀ s1 L1,
    let pa := PTE2PA (pte_of (mem s) root a) in
    let hit := has (pte_of (mem s) root a) PTE_V in
    (∀ va, a + PGSIZE ≤ va < a + PGSIZE + n * PGSIZE →
       pte_of (mem s1) root va = pte_of (mem s) root va) →
    (∀ p, pt_page (mem s1) root p ↔ pt_page (mem s) root p) →
    (∀ q, page_ok q → ref_count s1 (pa2index q) =
       ref_count s (pa2index q) - (if hit && do_free && (q =? pa) then 1 else 0)) →
    (∀ q, q ∈ L1 ↔ q ∈ L ∨ (hit && do_free = true ∧ q = pa ∧ ref_count s (pa2index pa) = 1)) →
    unmap_pre s1 L1 root (a + PGSIZE) n do_free ∧
    (do_free = true → hit = true → ∀ q, mapped_in (mem s1) root (a + PGSIZE) n q → q ≠ pa).
Proof.
  intros [Hl Hf Hj] Hn Ha s1 L1 pa hit Hpte Hpg Href HL.
  assert (do_free = true → hit = true → ∀ q, mapped_in (mem s1) root (a + PGSIZE) n q → q ≠ pa) as Hne.
  { intros Hd Hh q (va & Hva & Hv & Hq) ->. rewrite Hpte in Hv, Hq by done.
    assert (PGROUNDDOWN va = PGROUNDDOWN a) as E.
    { apply (Hj Hd); try done; unfold PGSIZE in *; lia. }
    rewrite (PGROUNDDOWN_id a) in E by done. apply page_of_first in E; [|done]. lia. }
  split; [|done]. split.
  - intros va Hva. rewrite Hpte by done. apply Hl. unfold PGSIZE in *; lia.
  - intros Hd q Hq. pose proof (Hne Hd) as Hne'.
    assert (can_free s L root q) as (Hok & HqL & Hnp & Hr).
    { apply (Hf Hd). apply (mapped_in_S _ (mem s1)); try done. by right. }
    split_and!; [done| |by rewrite Hpg|].
    + rewrite HL. intros [|(Hh & -> & _)]; [done|]. apply andb_prop in Hh as [Hh _].
      by apply (Hne' Hh pa).
    + rewrite Href by done. destruct hit eqn:Eh; simpl; [|lia].
      destruct (Z.eqb_spec q pa) as [->|]; [by destruct (Hne' eq_refl pa)|].
      rewrite andb_false_r. lia.
  - intros Hd va va' Hva Hva'. rewrite !Hpte by done. apply (Hj Hd); unfold PGSIZE in *; lia.
Qed.

(** ** One page off a range: the effect of [unmap_one] at [a], then the
    effect of the rest of the loop, is the effect on the whole range. *)
Section UnmapStep.
Context (s s1 : kst) (L L1 : list Z) (root a n : Z) (do_free : bool).
Let pa := PTE2PA (pte_of (mem s) root a).
Let hit := has (pte_of (mem s) root a) PTE_V.
Hypothesis Ha : a mod PGSIZE = 0.
Hypothesis Ha0 : 0 ≤ a.
Hypothesis Hn : 0 ≤ n.
Hypothesis Hmax : a + (n + 1) * PGSIZE ≤ MAXVA.
Hypothesis Hpre : unmap_pre s L root a (n + 1) do_free.
Hypothesis Hpte : ∀ va, 0 ≤ va < MAXVA → pte_of (mem s1) root va =
  if hit && (PGROUNDDOWN va =? a) then 0 else pte_of (mem s) root va.
Hypothesis Hpages : ∀ p, pt_page (mem s1) root p ↔ pt_page (mem s) root p.
Hypothesis Href : ∀ q, page_ok q → ref_count s1 (pa2index q) =
  ref_count s (pa2index q) - (if hit && do_free && (q =? pa) then 1 else 0).
Hypothesis Hfree : ∀ q, q ∈ L1 ↔
  q ∈ L ∨ (hit && do_free = true ∧ q = pa ∧ ref_count s (pa2index pa) = 1).
Hypothesis Hframe : ∀ x, ¬ (pa ≤ x < pa + PGSIZE ∧ hit && do_free = true) →
  (∀ p, pt_page (mem s) root p → ¬ (p ≤ x < p + PGSIZE)) → mem s1 x = mem s x.

Lemma unmap_step_rest va :
  a + PGSIZE ≤ va < a + PGSIZE + n * PGSIZE → pte_of (mem s1) root va = pte_of (mem s) root va.
Proof.
  intros Hva. rewrite Hpte by (unfold PGSIZE in *; lia).
  destruct (Z.eqb_spec (PGROUNDDOWN va) a) as [E|]; [|by rewrite andb_false_r].
  apply page_of_first in E; [lia|done].
Qed.

Lemma unmap_step_pre : unmap_pre s1 L1 root (a + PGSIZE) n do_free.
Proof.
  apply (unmap_pre_step s L root a n do_free Hpre Hn Ha s1 L1); try done.
  apply unmap_step_rest.
Qed.

Lemma unmap_step_apart q :
  do_free = true → hit = true → mapped_in (mem s1) root (a + PGSIZE) n q → q ≠ pa.
Proof.
  intros Hd Hh. apply (unmap_pre_step s L root a n do_free Hpre Hn Ha s1 L1); try done.
  apply unmap_step_rest.
Qed.

Lemma unmap_step_mapped q :
  mapped_in (mem s) root a (n + 1) q ↔
  (hit = true ∧ pa = q) ∨ mapped_in (mem s1) root (a + PGSIZE) n q.
Proof. apply mapped_in_S; [done|done|apply unmap_step_rest]. Qed.

(** A frame of the later pages keeps its count in this step. *)
Lemma unmap_step_ref q :
  page_ok q → do_free = true → mapped_in (mem s1) root (a + PGSIZE) n q →
  ref_count s1 (pa2index q) = ref_count s (pa2index q).
Proof.
  intros Hq Hd Hm. rewrite Href by done. destruct (hit && do_free && (q =? pa)) eqn:E; [|lia].
  apply andb_prop in E as [[Hh _]%andb_prop E%Z.eqb_eq]. by destruct (unmap_step_apart q Hd Hh Hm).
Qed.

Lemma unmap_step_post s2 L2 :
  unmap_post s1 s2 L1 L2 root (a + PGSIZE) n do_free → unmap_post s s2 L L2 root a (n + 1) do_free.
Proof.
  intros [Qi Qp Qg Qr Qf Qm]. split; [done| | | | |].
  - intros va Hva. rewrite Qp, !Hpte, in_range_page by done.
    destruct (Z.eqb_spec (PGROUNDDOWN va) a) as [E|]; simpl;
      rewrite ?andb_false_r, ?andb_true_r; [|done].
    rewrite <- (pte_of_page (mem s) root va), E. unfold hit.
    destruct (has _ PTE_V) eqn:Eh; rewrite ?Eh; by destruct (in_range _ _ _).
  - intros p. by rewrite Qg, Hpages.
  - intros q Hq. destruct (Qr q Hq) as [Q1 Q2]. rewrite unmap_step_mapped. split.
    + intros [Hd [[Hh <-]|Hm]].
      * rewrite Q2 by (intros [_ Hm]; by apply (unmap_step_apart pa Hd Hh)).
        rewrite Href, Hh, Hd, Z.eqb_refl by done. done.
      * by rewrite Q1, unmap_step_ref.
    + intros Hnm. rewrite Q2, Href by tauto. destruct (hit && do_free && (q =? pa)) eqn:E; [|lia].
      apply andb_prop in E as [[Hh Hd]%andb_prop E%Z.eqb_eq]. exfalso. apply Hnm. auto.
  - assert (∀ q, do_free = true → mapped_in (mem s1) root (a + PGSIZE) n q →
      ref_count s1 (pa2index q) = ref_count s (pa2index q)) as Hkeep.
    { intros q Hd Hm. apply unmap_step_ref; try done.
      by apply (up_free _ _ _ _ _ _ unmap_step_pre Hd). }
    intros q. rewrite Qf, Hfree, unmap_step_mapped, andb_true_iff. split.
    + intros [[?|([Hh Hd] & -> & Hr)]|(Hd & Hm & Hr)]; [by left|right; naive_solver|].
      right. rewrite <- Hkeep by done. naive_solver.
    + intros [?|(Hd & [[Hh <-]|Hm] & Hr)]; [by left; left|left; right; naive_solver|].
      right. rewrite Hkeep by done. done.
  - intros x Hx. rewrite Qm, Hframe; [done|..].
    + intros [Hx' [Hh Hd]%andb_prop]. apply (Hx pa); [|done].
      right. split; [done|]. apply unmap_step_mapped. by left.
    + intros p Hp. apply Hx. by left.
    + intros p [Hp%Hpages|[Hd Hm]]; apply Hx; [by left|]. right. split; [done|].
      apply unmap_step_mapped. by right.
Qed.
End UnmapStep.

Lemma unmap_post_0 s L root a do_free : pt_inv s L root → unmap_post s s L L root a 0 do_free.
Proof.
  intros Hpi. split; try done.
  - intros va Hva. by rewrite (proj2 (in_range_false a (0 * PGSIZE) va)) by lia.
  - intros q Hq. split; [|done]. intros [_ []%mapped_in_0].
  - intros q. split; [by left|]. intros [|(_ & []%mapped_in_0 & _)]. done.
Qed.

Lemma unmap_loop_spec (n : nat) msg root do_free s L a :
  pt_inv s L root → a mod PGSIZE = 0 → 0 ≤ a → a + Z.of_nat n * PGSIZE ≤ MAXVA →
  unmap_pre s L root a (Z.of_nat n) do_free →
  ∃ s' L', unmap_loop (S n) msg root a (a + Z.of_nat n * PGSIZE) do_free s = Ok tt s' ∧
           unmap_post s s' L L' root a (Z.of_nat n) do_free.
Proof.
  revert s L a. induction n as [|n IH]; intros s L a Hpi Ha Ha0 Hmax Hpre.
  { exists s, L. rewrite unmap_loop_S. destruct (Z.ltb_spec a (a + Z.of_nat 0 * PGSIZE)); [lia|].
    split; [done|by apply unmap_post_0]. }
  rewrite Nat2Z.inj_succ, <- Z.add_1_r in *.
  assert (a + PGSIZE + Z.of_nat n * PGSIZE = a + (Z.of_nat n + 1) * PGSIZE) as Eb
    by (unfold PGSIZE; lia).
  assert (a ≤ a < a + (Z.of_nat n + 1) * PGSIZE) as Hfst by (unfold PGSIZE; lia).
  destruct (unmap_one_spec s L root msg a do_free Hpi Ha) as
    (s1 & L1 & E1 & Hpi1 & P1 & Pg1 & R1 & F1 & Fr1).
  { unfold PGSIZE in *; lia. }
  { by apply (up_leaf _ _ _ _ _ _ Hpre). }
  { intros Hh Hd. apply (up_free _ _ _ _ _ _ Hpre Hd). by exists a. }
  destruct (IH s1 L1 (a + PGSIZE)) as (s2 & L2 & E2 & Q); [done|..].
  { unfold PGSIZE in *. rewrite Z.add_mod, Ha by lia. done. }
  1-2: unfold PGSIZE in *; lia.
  { apply (unmap_step_pre s s1 L L1); done || lia. }
  exists s2, L2. split; [|apply (unmap_step_post s s1 L L1); done || lia].
  rewrite unmap_loop_S. destruct (Z.ltb_spec a (a + (Z.of_nat n + 1) * PGSIZE)); [|lia].
  rewrite (mbindM_Ok _ _ _ _ _ E1), u64_small by (unfold PGSIZE, MAXVA in *; lia).
  by rewrite <- Eb.
Qed.

(** ** Fresh page tables *)

Lemma empty_child m root i :
  (∀ x, root ≤ x < root + PGSIZE → m x = 0) → idx9 i → child m root i = None.
Proof.
  intros Hz Hi. unfold child.
  assert (load64 m (root + 8 * i) = 0) as ->; [|done].
  rewrite (load64_ext m (λ _, 0)); [done|]. intros x Hx. apply Hz.
  unfold idx9, PGSIZE in *. lia.
Qed.

Lemma empty_pt m root :
  page_ok root → (∀ x, root ≤ x < root + PGSIZE → m x = 0) →
  wf_pt m root ∧ (∀ p, pt_page m root p ↔ p = root) ∧ (∀ va, pte_of m root va = 0).
Proof.
  intros Hok Hz.
  assert (∀ n p, node_ok n → node_page m root n = Some p → n = Root ∧ p = root) as Hn.
  { intros [|i|i j] p Hn E; simpl in *.
    - by injection E as ->.
    - by rewrite (empty_child m root i) in E.
    - destruct Hn as [Hi _]. by rewrite (empty_child m root i) in E. }
  split_and!.
  - split; [intros p (n & Hn' & E); by destruct (Hn n p Hn' E) as [_ ->]|].
    intros n n' p H1 H2 E1 E2. destruct (Hn n p H1 E1), (Hn n' p H2 E2). congruence.
  - intros p. split; [intros (n & Hn' & E); by destruct (Hn n p Hn' E)|].
    intros ->. by exists Root.
  - intros va. unfold pte_of. destruct (node_page m root (low_of va)) as [p|] eqn:E; [|done].
    destruct (Hn _ _ (low_of_ok va) E) as [? _]. done.
Qed.

Lemma uvmcreate_spec s p L :
  kalloc_inv s (p :: L) →
  ∃ s', uvmcreate s = Ok p s' ∧ pt_inv s' L p ∧ (∀ va, pte_of (mem s') p va = 0) ∧
        (∀ q, pt_page (mem s') p q ↔ q = p) ∧
        (∀ x, ¬ (p ≤ x < p + PGSIZE) → mem s' x = mem s x).
Proof.
  intros Hi. destruct (kalloc_cons s p L Hi) as [E Hi'].
  pose proof (ki_pages _ _ Hi) as Hp. apply Forall_cons in Hp as [Hp _].
  pose proof (ki_nodup _ _ Hi) as Hnd. apply NoDup_cons in Hnd as [HpL _].
  pose proof (page_ok_range _ Hp) as Hr. unfold KERNBASE in Hr.
  unfold uvmcreate. rewrite (mbindM_Ok _ _ _ _ _ E).
  destruct (Z.eqb_spec p 0) as [|_]; [lia|].
  unfold memset_page, modify, mbindM, mretM. eexists. split; [done|].
  set (s' := set_mem _ _).
  assert (∀ x, p ≤ x < p + PGSIZE → mem s' x = 0) as Hz.
  { intros x Hx. simpl. by rewrite fill_in. }
  destruct (empty_pt (mem s') p Hp Hz) as (Hwf & Hpg & Hpte). split_and!; try done.
  - split; [|done|by intros q ->%Hpg]. apply (kalloc_inv_frame _ _ _ Hi').
    intros x Hx. exists p. split; [apply Hp|split; [done|]].
    destruct (decide (p ≤ x < p + PGSIZE)) as [|Hd]; [done|].
    exfalso. apply Hx. by rewrite fill_other.
  - intros x Hx. simpl. by rewrite !fill_other.
Qed.

(** ** Properties *)

Lemma mappages_spec s L root va size pa perm :
  pt_inv s L root → 0 ≤ va → 0 < size → va + size ≤ MAXVA →
  pa mod PGSIZE = 0 → 0 ≤ pa < 2 ^ 55 → 0 ≤ perm < 2 ^ 10 →
  (∀ a, PGROUNDDOWN va ≤ a < va + size → has (pte_of (mem s) root a) PTE_V = false) →
  ∃ r s' L' used, mappages root va size pa perm s = Ok r s' ∧ grow root s s' L L' used ∧
    (r = 0 ∨ (r = -1 ∧ L' = [])) ∧
    (r = 0 → ∀ a, 0 ≤ a < MAXVA → pte_of (mem s') root a =
       if (PGROUNDDOWN va <=? PGROUNDDOWN a) && (PGROUNDDOWN a <? va + size)
       then mk_pte (pa + (PGROUNDDOWN a - PGROUNDDOWN va)) perm
       else pte_of (mem s) root a).
Proof.
  intros Hpi Hva Hsz Hmax Hpa Hpa0 Hperm Hinv. unfold mappages.
  set (a0 := PGROUNDDOWN va). set (last := PGROUNDDOWN (u64 (va + size - 1))).
  assert (u64 (va + size - 1) = va + size - 1) as Eu by (apply u64_small; unfold MAXVA in *; lia).
  pose proof (PGROUNDDOWN_le va) as H1. pose proof (PGROUNDDOWN_aligned va) as H2.
  pose proof (PGROUNDDOWN_le (va + size - 1)) as H3.
  pose proof (PGROUNDDOWN_aligned (va + size - 1)) as H4.
  fold a0 in H1, H2. rewrite <- Eu in H3, H4. fold last in H3, H4. rewrite Eu in H3.
  assert (0 ≤ a0 ≤ last) as Ha0 by (unfold PGSIZE in *; Z.div_mod_to_equations; lia).
  set (n := Z.to_nat (u64 (last - a0) / PGSIZE)).
  assert (Z.of_nat n * PGSIZE = last - a0) as Hn.
  { unfold n. rewrite u64_small by (unfold MAXVA in *; lia).
    rewrite Z2Nat.id by (apply Z.div_pos; unfold PGSIZE; lia).
    unfold PGSIZE in *. Z.div_mod_to_equations; lia. }
  assert (last + PGSIZE ≤ MAXVA) as Hlm.
  { unfold PGSIZE, MAXVA in *. Z.div_mod_to_equations; lia. }
  destruct (mappages_loop_spec n s L root a0 last pa perm) as (r & s' & L' & u & k & E & G & R & P);
    try done; try (unfold PGSIZE, MAXVA in *; lia).
  { intros a Ha. rewrite <- pte_of_page. apply Hinv. fold a0.
    pose proof (PGROUNDDOWN_le a). pose proof (PGROUNDDOWN_aligned a).
    unfold PGSIZE in *. split; [Z.div_mod_to_equations; lia|].
    assert (PGROUNDDOWN a ≤ last) by (Z.div_mod_to_equations; lia). lia. }
  exists r, s', L', u. split; [exact E|split; [done|split; [tauto|]]].
  intros -> a Ha. rewrite P by done. destruct R as [[_ ->]|[? _]]; [|done].
  assert (in_range a0 ((Z.of_nat n + 1) * PGSIZE) a =
    ((a0 <=? PGROUNDDOWN a) && (PGROUNDDOWN a <? va + size))) as ->; [|done].
  apply eq_bool_prop_intro.
  rewrite !Is_true_true, andb_true_iff, Z.leb_le, Z.ltb_lt, in_range_true.
  pose proof (PGROUNDDOWN_le a). pose proof (PGROUNDDOWN_aligned a).
  unfold PGSIZE in *. split; intros Hr; Z.div_mod_to_equations; lia.
Qed.

(** C10: [mappages] on a range with no valid entry never panics and touches
    only the table itself (old and newly allocated page-table pages).  When
    it returns 0 every page of the range maps to its frame with the requested
    permissions and every other address keeps its entry; it returns -1 only
    when the free list ran out. *)
Theorem mappages_correct s L root va size pa perm :
  pt_inv s L root → 0 ≤ va → 0 < size → va + size ≤ MAXVA →
  pa mod PGSIZE = 0 → 0 ≤ pa < 2 ^ 55 → 0 ≤ perm < 2 ^ 10 →
  (∀ a, PGROUNDDOWN va ≤ a < va + size → has (pte_of (mem s) root a) PTE_V = false) →
  ∃ r s' L' used, mappages root va size pa perm s = Ok r s' ∧ grow root s s' L L' used ∧
    (r = 0 ∨ (r = -1 ∧ L' = [])) ∧
    (r = 0 → ∀ a, 0 ≤ a < MAXVA → pte_of (mem s') root a =
       if (PGROUNDDOWN va <=? PGROUNDDOWN a) && (PGROUNDDOWN a <? va + size)
       then mk_pte (pa + (PGROUNDDOWN a - PGROUNDDOWN va)) perm
       else pte_of (mem s) root a).
Proof. apply mappages_spec. Qed.

Lemma vmunmap_spec s L root va npages do_free :
  pt_inv s L root → va mod PGSIZE = 0 → 0 ≤ va → 0 ≤ npages →
  va + npages * PGSIZE ≤ MAXVA → unmap_pre s L root va npages do_free →
  ∃ s' L', vmunmap root va npages do_free s = Ok tt s' ∧
           unmap_post s s' L L' root va npages do_free.
Proof.
  intros Hpi Ha Ha0 Hn Hmax Hpre. unfold vmunmap. rewrite Ha. simpl negb. cbv iota.
  rewrite u64_small by (unfold PGSIZE, MAXVA in *; lia).
  replace (va + npages * PGSIZE - va) with (npages * PGSIZE) by lia.
  rewrite Z.div_mul by (unfold PGSIZE; lia).
  rewrite <- (Z2Nat.id npages) in * by done. set (n := Z.to_nat npages) in *.
  rewrite Nat2Z.id.
  destruct (unmap_loop_spec n "vmunmap: not a leaf" root do_free s L va Hpi Ha Ha0 Hmax Hpre)
    as (s' & L' & E & Q).
  exists s', L'. split; [|done].
  assert (∀ k a b st r, unmap_loop k "vmunmap: not a leaf" root a b do_free st = Ok tt r →
     unmap_loop (S k) "vmunmap: not a leaf" root a b do_free st = Ok tt r) as Hmono.
  { clear. induction k as [|k IH]; intros a b st r Hr; [done|].
    rewrite unmap_loop_S in Hr |- *. destruct (a <? b); [|done].
    apply mbindM_inv in Hr as (u & s1 & E1 & E2).
    rewrite (mbindM_Ok _ _ _ _ _ E1). by apply IH. }
  by apply Hmono.
Qed.

End WithLayout.

(** ** Closed instances: an empty table and four free pages *)
#[local] Existing Instance small_layout.

Definition demo_root : Z := PHYSTOP - 8 * PGSIZE.
Definition demo_free : list Z :=
  [PHYSTOP - 4 * PGSIZE; PHYSTOP - 3 * PGSIZE; PHYSTOP - 2 * PGSIZE; PHYSTOP - PGSIZE].
Definition demo_frame : Z := PHYSTOP - 5 * PGSIZE.
Definition demo_st : kst :=
  Kst (store64 (store64 (store64 (λ _, 0) (PHYSTOP - 4 * PGSIZE) (PHYSTOP - 3 * PGSIZE))
         (PHYSTOP - 3 * PGSIZE) (PHYSTOP - 2 * PGSIZE)) (PHYSTOP - 2 * PGSIZE) (PHYSTOP - PGSIZE))
      (PHYSTOP - 4 * PGSIZE) 4
      (λ i, if (i =? pa2index demo_root) || (i =? pa2index demo_frame) then 1 else 0).

Lemma demo_kalloc_inv : kalloc_inv demo_st demo_free.
Proof.
  split.
  - vm_compute; intuition.
  - apply (bool_decide_unpack _). by vm_compute.
  - repeat constructor; vm_compute; congruence.
  - reflexivity.
  - intros p Hp. unfold demo_free in Hp.
    repeat (apply elem_of_cons in Hp as [->|Hp]; [reflexivity|]). by apply elem_of_nil in Hp.
  - intros i _. simpl. case_if; lia.
Qed.

Lemma demo_pages p : page_ok p → p mod PGSIZE = 0.
Proof. by intros [? _]. Qed.

Lemma demo_empty :
  wf_pt (mem demo_st) demo_root ∧ (∀ p, pt_page (mem demo_st) demo_root p ↔ p = demo_root) ∧
  (∀ va, pte_of (mem demo_st) demo_root va = 0).
Proof.
  apply empty_pt; [vm_compute; intuition congruence|]. intros x Hx.
  change (demo_root) with 2153742336 in Hx. unfold demo_st, PHYSTOP, PGSIZE in *. simpl.
  rewrite !store64_other by lia. done.
Qed.

Lemma demo_pt_inv : pt_inv demo_st demo_free demo_root.
Proof.
  destruct demo_empty as (Hwf & Hpg & _). split; [apply demo_kalloc_inv|done|].
  intros p ->%Hpg. intros Hin.
  repeat (apply elem_of_cons in Hin as [Hin|Hin]; [vm_compute in Hin; congruence|]).
  by apply elem_of_nil in Hin.
Qed.

Lemma mappages_correct_witness :
  ∃ r s' L' used, mappages demo_root 4096 PGSIZE demo_frame 22 demo_st = Ok r s' ∧
    grow demo_root demo_st s' demo_free L' used ∧
    (r = 0 → pte_of (mem s') demo_root 4096 = mk_pte demo_frame 22).
Proof.
  destruct (mappages_correct demo_st demo_free demo_root 4096 PGSIZE demo_frame 22)
    as (r & s' & L' & u & E & G & _ & P).
  - exact demo_pt_inv.
  - lia.
  - reflexivity.
  - vm_compute; congruence.
  - reflexivity.
  - vm_compute; intuition congruence.
  - lia.
  - intros a _. destruct demo_empty as (_ & _ & ->). reflexivity.
  - exists r, s', L', u. split; [exact E|split; [exact G|]].
    intros Hr. rewrite (P Hr); [reflexivity|vm_compute; intuition congruence].
Defined.

