(* ===== verification/KernelMap.v ===== *)
(** * The page table of the kernel

    [kvminit] of kernel/vm.c against the table it is meant to build: the regions
    of [kernel_regions] and nothing else.  The table's nodes are counted, so the
    pages that are enough for it are known. *)
From stdpp Require Import prelude list strings.
From Stdlib Require Import ZArith Lia.
From S2P Require Import Prelude Riscv Kalloc VM PageTable PageTableOps.
Open Scope Z_scope.

(** What the linker script fixes. *)
Ltac layout_facts :=
  pose proof layout_end; pose proof layout_etext; pose proof layout_etext_aligned;
  pose proof layout_tramp; pose proof layout_tramp_aligned;
  unfold UART_V, UART, VIRTIO0_V, VIRTIO0, CLINT_V, CLINT, PLIC_V, PLIC, VIRT_OFFSET, TRAMPOLINE, MAXVA,
    PGSIZE, KERNBASE, PHYSTOP in *.

Section WithLayout.
Context `{Layout}.

(** ** Which nodes an operation adds *)
Definition adds (m m' : memory) (root : Z) (N : node → Prop) : Prop :=
  ∀ q, node_ok q → node_page m' root q = node_page m root q ∨ N q.
Lemma adds_trans m1 m2 m3 root N : adds m1 m2 root N → adds m2 m3 root N → adds m1 m3 root N.
Proof. intros H1 H2 q Hq. destruct (H1 q Hq), (H2 q Hq); auto. left. congruence. Qed.
Lemma adds_weaken m m' root (N N' : node → Prop) : (∀ q, N q → N' q) → adds m m' root N → adds m m' root N'.
Proof. intros HN Ha q Hq. destruct (Ha q Hq); auto. Qed.
Lemma adds_refl m root N : adds m m root N.
Proof. intros q _. by left. Qed.

Lemma omap_length_le {A B} (f : A → option B) (l : list A) : (length (omap f l) ≤ length l)%nat.
Proof. induction l as [|x l IH]; [done|]. csimpl. destruct (f x); csimpl; lia. Qed.
(** No more pages are used than nodes are added. *)
Lemma adds_bound s s' L L' root used (N : list node) :
  pt_inv s L root → grow root s s' L L' used → adds (mem s) (mem s') root (.∈ N) → (length used ≤ length N)%nat.
Proof.
  intros Hpi Hg Ha. transitivity (length (omap (node_page (mem s') root) N)); [|apply omap_length_le].
  pose proof (ki_nodup _ _ (pi_alloc _ _ _ Hpi)) as Hnd. pose proof (g_split _ _ _ _ _ _ Hg) as Hs. rewrite Hs in Hnd.
  apply submseteq_length, NoDup_submseteq; [by apply NoDup_app in Hnd as [? _]|].
  intros p Hp. assert (pt_page (mem s') root p) as (q & Hq & E) by (apply (g_pages _ _ _ _ _ _ Hg); by right).
  apply list_elem_of_omap. exists q. split; [|done]. destruct (Ha q Hq) as [E'|]; [exfalso|done].
  apply (pi_free _ _ _ Hpi p); [exists q; by rewrite <- E'|]. rewrite Hs. set_solver.
Qed.

(** The nodes on the way to an address. *)
Definition on_path (va : Z) (q : node) : Prop := q = Mid (PX 2 va) ∨ q = low_of va.

Lemma walk_step_adds s L root n pp level va r s' :
  pt_inv s L root → node_ok n → inner n → node_page (mem s) root n = Some pp → 0 ≤ level →
  walk_step level va true pp s = Ok r s' → adds (mem s) (mem s') root (λ q, q = sub n (PX level va)).
Proof.
  intros Hpi Hn Hin Hpp Hl E. set (k := PX level va).
  assert (idx9 k) as Hk by by apply PX_range.
  revert E. unfold walk_step, read_pte, mbindM, gets, mretM. fold k.
  destruct (has (load64 (mem s) (pp + 8 * k)) PTE_V) eqn:EV; [intros [= _ <-]; apply adds_refl|]. simpl.
  assert (node_page (mem s) root (sub n k) = None) as Hnone.
  { destruct n; simpl in *; [injection Hpp as ->|rewrite Hpp|done]; unfold child; by rewrite EV. }
  destruct L as [|p L]; [rewrite kalloc_empty by apply Hpi; intros [= _ <-]; apply adds_refl|].
  destruct (kalloc_cons s p L (pi_alloc _ _ _ Hpi)) as [-> _].
  pose proof (ki_pages _ _ (pi_alloc _ _ _ Hpi)) as Hps. apply Forall_cons in Hps as [Hp _].
  pose proof (page_ok_range _ Hp) as Hpr. unfold KERNBASE in Hpr.
  destruct (Z.eqb_spec p 0) as [|_]; [lia|]. unfold memset_page, write_pte, modify. intros [= _ <-] q Hq. simpl.
  rewrite (new_node _ _ n); try done; [|apply Hpi|intros Hp'; apply (pi_free _ _ _ Hpi p Hp'); set_solver].
  case_decide; auto.
Qed.

Lemma walk_adds s L root va r s' :
  pt_inv s L root → 0 ≤ va < MAXVA → walk root va true s = Ok r s' → adds (mem s) (mem s') root (on_path va).
Proof.
  intros Hpi Hva. unfold walk. destruct (Z.leb_spec MAXVA va); [lia|].
  unfold walk_loop, mretM. change (Z.of_nat 2) with 2. change (Z.of_nat 1) with 1.
  destruct (walk_step_spec s L root Root root 2 va Hpi I I eq_refl ltac:(lia)) as (r1 & s1 & L1 & u1 & E1 & G1 & _ & _ & R1).
  unfold mbindM at 1 2. rewrite E1.
  assert (adds (mem s) (mem s1) root (on_path va)) as A1.
  { eapply adds_weaken; [|apply (walk_step_adds s L root Root root 2 va r1 s1 Hpi I I eq_refl ltac:(lia) E1)]. intros q ->. by left. }
  destruct r1 as [p1|]; [|by intros [= _ <-]]. simpl sub in R1.
  pose proof (grow_pt_inv _ _ _ _ _ _ Hpi G1) as Hpi1. unfold mbindM at 1.
  destruct (walk_step 1 va true p1 s1) as [r2 s2|] eqn:E2; [|done].
  pose proof (walk_step_adds s1 L1 root (Mid (PX 2 va)) p1 1 va r2 s2 Hpi1 (PX_range 2 va ltac:(lia)) I R1 ltac:(lia) E2) as A2.
  intros Er. assert (s' = s2) as -> by (destruct r2; simplify_eq; done).
  apply (adds_trans _ _ _ _ _ A1), (adds_weaken _ _ _ _ _ (λ q Hq, or_intror Hq) A2).
Qed.

Lemma leaf_write_adds s L root va pg v N :
  pt_inv s L root → node_page (mem s) root (low_of va) = Some pg →
  adds (mem s) (store64 (mem s) (pg + 8 * PX 0 va) v) root N.
Proof. intros Hpi Hlow q Hq. rewrite leaf_write_node by (try done; apply Hpi). by left. Qed.

Lemma mappages_loop_adds n s L root a last pa perm r s' (N : node → Prop) :
  pt_inv s L root → a mod PGSIZE = 0 → 0 ≤ a → a + (Z.of_nat n + 1) * PGSIZE ≤ MAXVA → last = a + Z.of_nat n * PGSIZE →
  (∀ va q, a ≤ va ≤ last → on_path va q → N q) →
  mappages_loop (S n) root a last pa perm s = Ok r s' → adds (mem s) (mem s') root N.
Proof.
  revert s L a pa. induction n as [|n IH]; intros s L a pa Hpi Ha Ha0 Hmax Hlast HN.
  all: destruct (walk_alloc s L root a Hpi) as (r1 & s1 & L1 & u1 & E1 & G1 & P1 & R1); [unfold PGSIZE in *; lia|].
  all: rewrite mappages_loop_S, (mbindM_Ok _ _ _ _ _ E1).
  all: assert (adds (mem s) (mem s1) root N) as A1 by
    (eapply adds_weaken; [intros q; apply (HN a); unfold PGSIZE in *; lia|apply (walk_adds s L root a r1 s1 Hpi); [unfold PGSIZE in *; lia|done]]).
  all: destruct R1 as [[-> ->]|(Hr0 & pg & Hlow & ->)]; [by intros [= _ <-]|].
  all: destruct (Z.eqb_spec (pg + 8 * PX 0 a) 0) as [|_]; [done|].
  all: unfold read_pte, gets; unfold mbindM at 1; destruct (has _ PTE_V); [done|].
  all: unfold write_pte, modify; unfold mbindM at 1; set (s2 := set_mem _ s1).
  all: pose proof (grow_pt_inv _ _ _ _ _ _ Hpi G1) as Hpi1.
  all: pose proof (leaf_write_adds s1 L1 root a pg (mk_pte pa perm) N Hpi1 Hlow) as A2; change (store64 _ _ _) with (mem s2) in A2.
  - destruct (Z.eqb_spec a last) as [_|]; [|lia]. intros [= _ <-]. by eapply adds_trans.
  - destruct (Z.eqb_spec a last) as [|_]; [unfold PGSIZE in *; lia|].
    rewrite (u64_small (a + PGSIZE)) by (unfold PGSIZE, MAXVA in *; lia). intros E.
    apply (adds_trans _ _ _ _ _ (adds_trans _ _ _ _ _ A1 A2)). revert E. apply (IH s2 L1).
    + eapply grow_pt_inv; [exact Hpi1|by apply leaf_write_grow].
    + unfold PGSIZE in *. Z.div_mod_to_equations; lia.
    + unfold PGSIZE; lia.
    + lia.
    + unfold PGSIZE in *; lia.
    + intros va q Hva. apply HN. unfold PGSIZE in *; lia.
Qed.

Lemma mappages_adds s L root va size pa perm r s' (N : node → Prop) :
  pt_inv s L root → va mod PGSIZE = 0 → 0 ≤ va → 0 < size → va + size ≤ MAXVA →
  (∀ a q, va ≤ a < va + size → on_path a q → N q) →
  mappages root va size pa perm s = Ok r s' → adds (mem s) (mem s') root N.
Proof.
  intros Hpi Ha Hva Hsz Hmax HN. unfold mappages. rewrite (PGROUNDDOWN_id va) by done.
  rewrite (u64_small (va + size - 1)) by (unfold MAXVA in *; lia).
  set (last := PGROUNDDOWN (va + size - 1)).
  pose proof (PGROUNDDOWN_le (va + size - 1)) as H1. pose proof (PGROUNDDOWN_aligned (va + size - 1)) as H2. fold last in H1, H2.
  assert (va ≤ last) by (unfold PGSIZE in *; Z.div_mod_to_equations; lia).
  rewrite (u64_small (last - va)) by (unfold MAXVA in *; lia).
  assert (Z.of_nat (Z.to_nat ((last - va) / PGSIZE)) * PGSIZE = last - va) as Hn.
  { rewrite Z2Nat.id by (apply Z.div_pos; unfold PGSIZE; lia). unfold PGSIZE in *. Z.div_mod_to_equations; lia. }
  assert (last + PGSIZE ≤ MAXVA) by (unfold PGSIZE, MAXVA in *; Z.div_mod_to_equations; lia).
  apply (mappages_loop_adds _ s L); try done; try lia. intros a q Hq. apply HN. lia.
Qed.

(** ** The regions *)
Record region := Region { r_va : Z; r_pa : Z; r_size : Z; r_perm : Z }.
Definition RW : Z := Z.lor PTE_R PTE_W.
Definition RX : Z := Z.lor PTE_R PTE_X.
Definition devices : list region :=
  [Region UART_V UART PGSIZE RW; Region VIRTIO0_V VIRTIO0 PGSIZE RW; Region CLINT_V CLINT 65536 RW;
   Region PLIC_V PLIC 16384 RW; Region (PLIC_V + 2097152) (PLIC + 2097152) 16384 RW].
Definition kernel_regions : list region :=
  devices ++ [Region KERNBASE KERNBASE (etext - KERNBASE) RX; Region etext etext (PHYSTOP - etext) RW;
              Region TRAMPOLINE trampoline PGSIZE RX].
Definition hits (va : Z) (r : region) : bool := (r_va r <=? PGROUNDDOWN va) && (PGROUNDDOWN va <? r_va r + r_size r).
(** The entry the regions give an address, 0 where there is none. *)
Fixpoint entry_in (l : list region) (va : Z) : Z :=
  match l with
  | [] => 0
  | r :: l => if hits va r then mk_pte (r_pa r + (PGROUNDDOWN va - r_va r)) (r_perm r) else entry_in l va
  end.
Lemma entry_in_snoc l r va :
  entry_in (l ++ [r]) va = if existsb (hits va) l then entry_in l va else entry_in [r] va.
Proof. induction l as [|x l IH]; [done|]. simpl in *. destruct (hits va x); [done|]. by rewrite IH. Qed.
Lemma entry_in_none l va : existsb (hits va) l = false → entry_in l va = 0.
Proof. induction l as [|x l IH]; [done|]. simpl. by intros [-> ?]%orb_false_iff; auto. Qed.

(** Mapping region after region. *)
Fixpoint map_regions (root : Z) (l : list region) : M kst unit :=
  match l with [] => mretM tt | r :: l => kvmmap root (r_va r) (r_pa r) (r_size r) (r_perm r);;; map_regions root l end.
Lemma map_regions_cons root r l (k k' : M kst Z) s :
  (∀ s, k s = (map_regions root l;;; k') s) →
  (kvmmap root (r_va r) (r_pa r) (r_size r) (r_perm r);;; k) s = (map_regions root (r :: l);;; k') s.
Proof.
  intros Hk. cbn [map_regions]. unfold mbindM at 1 2 3. destruct (kvmmap _ _ _ _ _ s) as [[] s1|]; [|done]. by rewrite Hk.
Qed.
Lemma kvminit_regions s :
  kvminit s = (root <-- kalloc;; memset_page root 0;;; map_regions root kernel_regions;;; mretM root) s.
Proof.
  unfold kvminit, kernel_regions, devices, RW, RX. cbn [app].
  set (A := λ root, _ : M kst Z). set (B := λ root, _ : M kst Z).
  assert (∀ root s, A root s = B root s) as HAB; [|unfold mbindM at 1 2; destruct (kalloc s); [apply HAB|done]].
  clear s. intros root s. unfold A, B. clear A B.
  set (A := λ _ : unit, _ : M kst Z). set (B := λ _ : unit, _ : M kst Z).
  assert (∀ s, A tt s = B tt s) as HAB; [|unfold mbindM at 1 2; destruct (memset_page _ _ s) as [[] ?|]; [apply HAB|done]].
  clear s. intros s. unfold A, B. clear A B. revert s.
  do 8 (intros s; eapply (map_regions_cons root (Region _ _ _ _)); clear s). done.
Qed.

(** The nodes of the table under its root. *)
Definition kernel_nodes : list node :=
  [Mid 252; Low 252 128; Low 252 16; Low 252 96; Low 252 97; Mid 2; Low 2 1; Low 2 2; Mid 255; Low 255 511].

Definition region_ok (r : region) : Prop :=
  r_va r mod PGSIZE = 0 ∧ 0 ≤ r_va r ∧ 0 < r_size r ∧ r_va r + r_size r ≤ MAXVA ∧ r_pa r mod PGSIZE = 0 ∧
  0 ≤ r_pa r ∧ r_pa r + r_size r ≤ 2 ^ 55 ∧ 0 ≤ r_perm r < 2 ^ 10 ∧
  ∀ va q, r_va r ≤ va < r_va r + r_size r → on_path va q → q ∈ kernel_nodes.
Definition apart (r r' : region) : Prop := r_va r + r_size r ≤ r_va r' ∨ r_va r' + r_size r' ≤ r_va r.

(** An address between [lo * 2 MiB] and [hi * 2 MiB] inside one GiB. *)
Lemma on_path_range g lo hi va q :
  0 ≤ g < 256 → 0 ≤ lo → hi ≤ 512 → g * 2 ^ 30 + lo * 2 ^ 21 ≤ va < g * 2 ^ 30 + hi * 2 ^ 21 → on_path va q →
  q = Mid g ∨ ∃ j, lo ≤ j < hi ∧ q = Low g j.
Proof.
  intros Hg Hlo Hhi Hva. assert (PX 2 va = g) as E2.
  { rewrite PX_eq by lia. change (2 ^ (12 + 9 * 2)) with (2 ^ 30).
    rewrite <- (Z.div_unique va (2 ^ 30) g (va - g * 2 ^ 30)) by lia. apply Z.mod_small. lia. }
  assert (lo ≤ PX 1 va < hi) as E1.
  { rewrite PX_eq by lia. change (2 ^ (12 + 9 * 1)) with (2 ^ 21).
    assert (g * 512 + lo ≤ va / 2 ^ 21 < g * 512 + hi) as Hd
      by (split; [apply Z.div_le_lower_bound; lia|apply Z.div_lt_upper_bound; lia]).
    rewrite <- (Z.mod_unique (va / 2 ^ 21) 512 g (va / 2 ^ 21 - g * 512)) by lia. lia. }
  unfold on_path, low_of. rewrite E2. intros [->| ->]; [by left|right; eauto].
Qed.
Ltac region_solve g lo hi :=
  unfold region_ok, RW, RX; cbn [r_va r_pa r_size r_perm]; layout_facts; (split_and!; try lia; try done);
  intros va q Hva Hq; destruct (on_path_range g lo hi va q) as [->|(j & Hj & ->)]; try lia; try done; [set_solver|].
Lemma kernel_regions_ok : Forall region_ok kernel_regions.
Proof.
  unfold kernel_regions, devices. cbn [app].
  repeat (apply Forall_cons; split); [..|by apply Forall_nil].
  - region_solve 252 128 129. replace j with 128 by lia. set_solver.
  - region_solve 252 128 129. replace j with 128 by lia. set_solver.
  - region_solve 252 16 17. replace j with 16 by lia. set_solver.
  - region_solve 252 96 97. replace j with 96 by lia. set_solver.
  - region_solve 252 97 98. replace j with 97 by lia. set_solver.
  - region_solve 2 1 3. assert (j = 1 ∨ j = 2) as [->| ->] by lia; set_solver.
  - region_solve 2 1 3. assert (j = 1 ∨ j = 2) as [->| ->] by lia; set_solver.
  - region_solve 255 511 512. replace j with 511 by lia. set_solver.
Qed.

(** ** Building the table *)
(** The table at [root] after the regions [l]: it grew from the empty table of
    [s0] by the pages [used], and has nodes of [kernel_nodes] only. *)
Record built (s0 : kst) (L0 : list Z) (root : Z) (l : list region) (s : kst) (L used : list Z) : Prop := {
  b_grow : grow root s0 s L0 L used;
  b_nodes : adds (mem s0) (mem s) root (.∈ kernel_nodes);
  b_entries : ∀ va, 0 ≤ va < MAXVA → pte_of (mem s) root va = entry_in l va }.

Section Build.
Context (s0 : kst) (L0 : list Z) (root : Z).
Hypothesis Hinv0 : pt_inv s0 L0 root.

Lemma hits_range va r : region_ok r → r_va r ≤ va < r_va r + r_size r → hits va r = true.
Proof.
  intros (Ha & H0 & _) Hva. unfold hits. rewrite PGROUNDDOWN_eq. apply andb_true_iff. rewrite Z.leb_le, Z.ltb_lt.
  unfold PGSIZE in *. Z.div_mod_to_equations; lia.
Qed.
Lemma hits_apart va r r' : apart r r' → hits va r = true → hits va r' = false.
Proof.
  unfold apart, hits. intros Ha [H1%Z.leb_le H2%Z.ltb_lt]%andb_true_iff. apply andb_false_iff. rewrite Z.leb_gt, Z.ltb_ge. lia.
Qed.
Lemma hits_none va r l : Forall (apart r) l → hits va r = true → existsb (hits va) l = false.
Proof.
  intros Hl Hr. induction Hl as [|r' l Ha _ IH]; [done|]. simpl. by rewrite (hits_apart va r r' Ha Hr), IH.
Qed.

Lemma kvmmap_built r l s L used :
  (11 ≤ length L0)%nat → region_ok r → Forall (apart r) l → built s0 L0 root l s L used →
  ∃ s' L' used', kvmmap root (r_va r) (r_pa r) (r_size r) (r_perm r) s = Ok tt s' ∧ built s0 L0 root (l ++ [r]) s' L' used'.
Proof.
  intros Hlen Hr Hap Hb. pose proof Hr as (Ha & H0 & Hsz & Hmax & Hpa & Hpa0 & Hpam & Hperm & Hnodes).
  destruct Hb as [Hg Hn He]. pose proof (grow_pt_inv _ _ _ _ _ _ Hinv0 Hg) as Hpi.
  destruct (mappages_spec s L root (r_va r) (r_size r) (r_pa r) (r_perm r)) as (res & s' & L' & u & E & G & R & P); try done; try lia.
  { intros a Hva. rewrite PGROUNDDOWN_id in Hva by done.
    rewrite He, entry_in_none by first [lia|eapply hits_none; [done|by apply hits_range]]. done. }
  assert (adds (mem s) (mem s') root (.∈ kernel_nodes)) as Had.
  { revert E. by apply (mappages_adds s L). }
  pose proof (grow_trans _ _ _ _ _ _ _ _ _ (pi_alloc _ _ _ Hinv0) Hg G) as Hg'.
  pose proof (adds_trans _ _ _ _ _ Hn Had) as Hn'.
  assert (res = 0) as ->.
  { destruct R as [|[_ ->]]; [done|exfalso]. pose proof (g_split _ _ _ _ _ _ Hg') as Hs. rewrite app_nil_r in Hs.
    assert (length L0 = length (used ++ u)) by by rewrite Hs at 1.
    pose proof (adds_bound s0 s' L0 [] root (used ++ u) _ Hinv0 Hg' Hn') as Hb. change (length kernel_nodes) with 10%nat in Hb. lia. }
  eexists _, _, _. split; [unfold kvmmap; by rewrite (mbindM_Ok _ _ _ _ _ E)|]. split; [exact Hg'|done|].
  intros va Hva. rewrite P, PGROUNDDOWN_id, entry_in_snoc by done. simpl. fold (hits va r).
  destruct (hits va r) eqn:Eh; [by rewrite (hits_none va r l)|]. rewrite He by done.
  destruct (existsb (hits va) l) eqn:El; [done|by apply entry_in_none].
Qed.

(** The whole list. *)
Lemma map_regions_built l' l s L used :
  (11 ≤ length L0)%nat → Forall region_ok l' → ForallOrdPairs apart (l ++ l') → built s0 L0 root l s L used →
  ∃ s' L' used', map_regions root l' s = Ok tt s' ∧ built s0 L0 root (l ++ l') s' L' used'.
Proof.
  intros Hlen Hok. revert l s L used. induction Hok as [|r l' Hr Hok IH]; intros l s L used Hap Hb.
  { rewrite app_nil_r. by eexists _, _, _. }
  destruct (kvmmap_built r l s L used Hlen Hr) as (s1 & L1 & u1 & E & Hb1); [|done|].
  { clear -Hap. induction l as [|x l IH]; [done|]. inversion Hap as [|? ? Hx Hl]; subst. apply Forall_cons. split; [|by apply IH].
    apply Forall_app in Hx as [_ Hx]. apply Forall_cons in Hx as [Hx _]. destruct Hx; [right|left]; lia. }
  cbn [map_regions]. rewrite (mbindM_Ok _ _ _ _ _ E). change (l ++ r :: l') with (l ++ [r] ++ l') in *. rewrite app_assoc in *.
  by apply (IH _ _ L1 u1).
Qed.
End Build.

Lemma kernel_regions_apart : ForallOrdPairs apart kernel_regions.
Proof.
  unfold kernel_regions, devices, RW, RX, apart. cbn [app].
  repeat first [apply FOP_nil|apply FOP_cons|apply Forall_nil; done|apply Forall_cons; split];
    cbn [r_va r_pa r_size r_perm]; layout_facts; lia.
Qed.

Lemma kvminit_spec s L :
  kalloc_inv s L → (12 ≤ length L)%nat →
  ∃ root s' L', kvminit s = Ok root s' ∧ pt_inv s' L' root ∧ root ∈ L ∧ L' ⊆ L ∧ (length L ≤ length L' + 11)%nat ∧
    (∀ va, 0 ≤ va < MAXVA → pte_of (mem s') root va = entry_in kernel_regions va) ∧
    (∀ i, idx9 i → is_Some (child (mem s') root i) → Mid i ∈ kernel_nodes) ∧
    (∀ x, (∀ p, p ∈ L → ¬ (p ≤ x < p + PGSIZE)) → mem s' x = mem s x).
Proof.
  intros Hi Hlen. destruct L as [|root L]; [simpl in Hlen; lia|].
  destruct (uvmcreate_spec s root L Hi) as (s1 & E1 & Hpi & Hz & Hpg & Hfr).
  destruct (kalloc_cons s root L Hi) as [Ek _]. rewrite kvminit_regions, (mbindM_Ok _ _ _ _ _ Ek).
  revert E1. unfold uvmcreate. rewrite (mbindM_Ok _ _ _ _ _ Ek).
  pose proof (ki_pages _ _ Hi) as Hp. apply Forall_cons in Hp as [Hp _].
  pose proof (page_ok_range _ Hp) as Hr. unfold KERNBASE in Hr. destruct (Z.eqb_spec root 0) as [|_]; [lia|].
  intros (u & s2 & Em & [= ->])%mbindM_inv. rewrite (mbindM_Ok _ _ _ _ _ Em).
  assert (built s1 L root [] s1 L []) as Hb.
  { split; [by apply grow_refl|apply adds_refl|by intros; apply Hz]. }
  destruct (map_regions_built s1 L root Hpi kernel_regions [] s1 L []) as (s' & L' & used & E & [Hg Hn He]); try done.
  { simpl in Hlen. lia. }
  { apply kernel_regions_ok. }
  { apply kernel_regions_apart. }
  rewrite (mbindM_Ok _ _ _ _ _ E). exists root, s', L'.
  pose proof (adds_bound s1 s' L L' root used _ Hpi Hg Hn) as Hu. change (length kernel_nodes) with 10%nat in Hu. pose proof (g_split _ _ _ _ _ _ Hg) as Hs.
  split_and!; [done|by eapply grow_pt_inv|set_solver|set_solver| |done| |].
  - rewrite Hs. simpl. rewrite length_app. lia.
  - intros i Hi' [q Eq]. destruct (Hn (Mid i) Hi') as [E'|]; [|done]. simpl in E'. rewrite Eq in E'. symmetry in E'.
    assert (q = root) as -> by (apply Hpg; by exists (Mid i)).
    by assert (Mid i = Root) by (by apply (wf_inj _ _ (pi_wf _ _ _ Hpi) _ _ root)).
  - intros x Hx. rewrite (g_frame _ _ _ _ _ _ Hg).
    + apply Hfr. apply Hx. set_solver.
    + intros p [->%Hpg|Hu']; apply Hx; set_solver.
Qed.

(** ** What the table means *)
Lemma entry_in_region l va e :
  entry_in l va = e → e = 0 ∨ ∃ r, r ∈ l ∧ hits va r = true ∧ e = mk_pte (r_pa r + (PGROUNDDOWN va - r_va r)) (r_perm r).
Proof.
  intros <-. induction l as [|r l IH]; [by left|]. simpl. destruct (hits va r) eqn:E.
  - right. exists r. split; [by left|done].
  - destruct IH as [|(r' & Hr & Hh)]; [by left|right]. exists r'. split; [by right|done].
Qed.
Lemma entry_in_at l r va :
  ForallOrdPairs apart l → r ∈ l → hits va r = true → entry_in l va = mk_pte (r_pa r + (PGROUNDDOWN va - r_va r)) (r_perm r).
Proof.
  intros Hl Hr Hh. induction Hl as [|r' l Ha Hl IH]; [by apply elem_of_nil in Hr|].
  apply elem_of_cons in Hr as [->|Hr]; simpl; [by rewrite Hh|].
  destruct (hits va r') eqn:E; [|by apply IH].
  rewrite (hits_apart va r' r) in Hh; [done|by apply (proj1 (Forall_forall _ _) Ha)|done].
Qed.
Lemma region_perm r : r ∈ kernel_regions → r_perm r = RW ∨ r_perm r = RX.
Proof. unfold kernel_regions, devices. intros Hr. repeat (apply elem_of_cons in Hr as [->|Hr]; [by auto|]). by apply elem_of_nil in Hr. Qed.

(** Frame and permissions of an address inside a region. *)
Lemma region_entry r va :
  r ∈ kernel_regions → r_va r ≤ va < r_va r + r_size r →
  PTE2PA (entry_in kernel_regions va) = r_pa r + (PGROUNDDOWN va - r_va r) ∧
  PTE_FLAGS (entry_in kernel_regions va) = Z.lor (r_perm r) PTE_V.
Proof.
  intros Hr Hva. pose proof (proj1 (Forall_forall _ _) kernel_regions_ok r Hr) as Hok.
  rewrite (entry_in_at _ r va kernel_regions_apart Hr (hits_range va r Hok Hva)).
  destruct Hok as (Ha & H0 & Hsz & Hmax & Hpa & Hpa0 & Hpam & Hperm & _).
  rewrite PGROUNDDOWN_eq. unfold PGSIZE in *.
  split; [apply mk_pte_PTE2PA|apply mk_pte_PTE_FLAGS]; try done; unfold PGSIZE; try (Z.div_mod_to_equations; lia).
Qed.
Lemma no_entry_flags va :
  let e := entry_in kernel_regions va in
  has e PTE_U = false ∧ has e PTE_W && has e PTE_X = false.
Proof.
  intros e. destruct (entry_in_region kernel_regions va e eq_refl) as [->|(r & Hr & Hh & ->)]; [done|].
  rewrite has_U, has_W, has_X, !mk_pte_testbit_low by lia.
  destruct (region_perm r Hr) as [->| ->]; done.
Qed.
Lemma low_unmapped va : 0 ≤ va < KERNBASE → entry_in kernel_regions va = 0.
Proof.
  intros Hva. apply entry_in_none. unfold kernel_regions, devices. cbn [app existsb].
  unfold hits. rewrite PGROUNDDOWN_eq. cbn [r_va r_size]. layout_facts.
  rewrite !orb_false_iff, !andb_false_iff, !Z.leb_gt. Z.div_mod_to_equations; lia.
Qed.

(** C12: With twelve free pages [kvminit] returns a table with which the kernel can
    run: memory from [KERNBASE] to [PHYSTOP] is mapped to itself, the text readable
    and executable, the rest readable and writable; the device windows lead to their
    devices and the top page to the trampoline; nothing is both writable and
    executable, nothing is open to user mode, and no address below [KERNBASE] is
    mapped.  Eleven pages at most are taken, and no other memory is written. *)
Theorem kvminit_correct s L :
  kalloc_inv s L → (12 ≤ length L)%nat →
  ∃ root s' L', kvminit s = Ok root s' ∧ pt_inv s' L' root ∧ L' ⊆ L ∧ (length L ≤ length L' + 11)%nat ∧
    (∀ x, (∀ p, p ∈ L → ¬ (p ≤ x < p + PGSIZE)) → mem s' x = mem s x) ∧
    let e va := pte_of (mem s') root va in
    (∀ va, KERNBASE ≤ va < PHYSTOP →
       PTE2PA (e va) = PGROUNDDOWN va ∧ PTE_FLAGS (e va) = Z.lor (if va <? etext then RX else RW) PTE_V) ∧
    (∀ r va, r ∈ devices → r_va r ≤ va < r_va r + r_size r →
       PTE2PA (e va) = PGROUNDDOWN va - VIRT_OFFSET ∧ PTE_FLAGS (e va) = Z.lor RW PTE_V) ∧
    PTE2PA (e TRAMPOLINE) = trampoline ∧ PTE_FLAGS (e TRAMPOLINE) = Z.lor RX PTE_V ∧
    (∀ va, 0 ≤ va < KERNBASE → e va = 0) ∧
    (∀ va, 0 ≤ va < MAXVA → has (e va) PTE_U = false ∧ has (e va) PTE_W && has (e va) PTE_X = false).
Proof.
  intros Hi Hlen. destruct (kvminit_spec s L Hi Hlen) as (root & s' & L' & E & Hpi & _ & Hsub & Hl & He & _ & Hf).
  exists root, s', L'. cbv zeta. split_and!; try done.
  - intros va Hva. rewrite He by (layout_facts; lia). destruct (Z.ltb_spec va etext).
    + destruct (region_entry (Region KERNBASE KERNBASE (etext - KERNBASE) RX) va) as [-> ->]; [set_solver|simpl; lia|]. simpl. split; [lia|done].
    + destruct (region_entry (Region etext etext (PHYSTOP - etext) RW) va) as [-> ->]; [set_solver|simpl; lia|]. simpl. split; [lia|done].
  - intros r va Hr Hva. assert (0 ≤ va < MAXVA ∧ r_pa r = r_va r - VIRT_OFFSET ∧ r_perm r = RW) as (Hm & Hp & Hw).
    { unfold devices in Hr. repeat (apply elem_of_cons in Hr as [->|Hr]; [cbn [r_va r_pa r_size r_perm] in *; layout_facts; lia|]).
      by apply elem_of_nil in Hr. }
    rewrite He by done. destruct (region_entry r va) as [-> ->]; [set_solver|done|]. rewrite Hp, Hw. split; [lia|done].
  - rewrite He by (layout_facts; lia).
    destruct (region_entry (Region TRAMPOLINE trampoline PGSIZE RX) TRAMPOLINE) as [-> _]; [set_solver|simpl; layout_facts; lia|].
    simpl. change (PGROUNDDOWN TRAMPOLINE) with TRAMPOLINE. lia.
  - rewrite He by (layout_facts; lia).
    by destruct (region_entry (Region TRAMPOLINE trampoline PGSIZE RX) TRAMPOLINE) as [_ ->]; [set_solver|simpl; layout_facts; lia|].
  - intros va Hva. rewrite He by (layout_facts; lia). by apply low_unmapped.
  - intros va Hva. rewrite He by done. apply no_entry_flags.
Qed.
End WithLayout.

(** The last [n] pages of memory are free pages. *)
Lemma free_pages `{Layout} L n :
  (∀ q, q ∈ L ↔ page_ok q) → kernel_end ≤ PHYSTOP - n * PGSIZE → n ≤ Z.of_nat (length L).
Proof.
  intros HL Hn. destruct (decide (n ≤ 0)) as [|Hpos]; [lia|].
  set (l := (λ k, PHYSTOP - (k + 1) * PGSIZE) <$> seqZ 0 n). cut (length l ≤ length L)%nat; [unfold l; rewrite length_fmap, length_seqZ; lia|].
  apply submseteq_length, NoDup_submseteq.
  - apply NoDup_fmap_2_strong; [|apply NoDup_seqZ]. intros x y _ _. unfold PGSIZE. lia.
  - intros p (k & -> & Hk%elem_of_seqZ)%list_elem_of_fmap. apply HL. unfold page_ok, PGSIZE, PHYSTOP in *.
    split; [|lia]. replace (2153775104 - (k + 1) * 4096) with ((525824 - (k + 1)) * 4096) by lia. apply Z.mod_mul. lia.
Qed.

(** ** A machine with the last sixteen pages of memory free *)
Section Witness.
#[local] Existing Instance small_layout.
Definition zero_kst : kst := Kst (λ _, 0) 0 0 (λ _, 0).
Lemma kvminit_correct_witness :
  ∃ s root s', kinit zero_kst = Ok tt s ∧ kvminit s = Ok root s' ∧ pte_of (mem s') root 4096 = 0 ∧
    PTE2PA (pte_of (mem s') root (PHYSTOP - 1)) = PHYSTOP - PGSIZE.
Proof.
  destruct (kinit_spec zero_kst) as (s & L & E & Hi & _ & HL). pose proof (free_pages L 16 HL ltac:(vm_compute; congruence)) as Hb.
  destruct (kvminit_correct s L Hi) as (root & s' & L' & E' & _ & _ & _ & _ & Hram & _ & _ & _ & Hlow & _); [lia|].
  exists s, root, s'. split; [exact E|]. split; [exact E'|]. split; [apply Hlow; unfold KERNBASE; lia|].
  apply (Hram (PHYSTOP - 1)). unfold KERNBASE, PHYSTOP. lia.
Defined.
End Witness.
