(* ===== verification/Space.v ===== *)
(** * Several address spaces in one memory

    Page tables, data pages and the free list as disjoint parts of the memory, and
    what the steps that build an address space do to them: take a page, write a page,
    make a page a table, map a page. *)
From stdpp Require Import prelude list strings.
From Stdlib Require Import ZArith Lia.
From S2P Require Import Prelude Riscv Kalloc VM PageTable PageTableOps KernelMap.
Open Scope Z_scope.

Section WithLayout.
Context `{Layout}.

(** [T] are the roots of tables, [fr] pages in use for something else. *)
Record space (s : kst) (L T fr : list Z) : Prop := {
  sp_alloc : kalloc_inv s L;
  sp_wf : ∀ r, r ∈ T → wf_pt (mem s) r;
  sp_free : ∀ r p, r ∈ T → pt_page (mem s) r p → p ∉ L;
  sp_disj : ∀ r r' p, r ∈ T → r' ∈ T → pt_page (mem s) r p → pt_page (mem s) r' p → r = r';
  sp_frame : ∀ f, f ∈ fr → page_ok f ∧ f ∉ L ∧ ∀ r, r ∈ T → ¬ pt_page (mem s) r f }.

(** The tables and the frames keep their bytes. *)
Definition tables_kept (s s' : kst) (T : list Z) : Prop := ∀ r, r ∈ T → agree_on (mem s) (mem s') (pt_page (mem s) r).
Definition frames_kept (s s' : kst) (fr : list Z) : Prop := agree_on (mem s) (mem s') (.∈ fr).

Lemma space_pt_inv s L T fr r : space s L T fr → r ∈ T → pt_inv s L r.
Proof. intros [H1 H2 H3 H4 H5] Hr. split; [done|by apply H2|]. intros p. by apply H3. Qed.
Lemma space_one s L r : pt_inv s L r → space s L [r] [].
Proof.
  intros [H1 H2 H3]. split; [done|..].
  - by intros ? ->%list_elem_of_singleton.
  - intros ? p ->%list_elem_of_singleton. apply H3.
  - by intros ? ? p ->%list_elem_of_singleton ->%list_elem_of_singleton.
  - by intros f ?%elem_of_nil.
Qed.
Lemma kept_pte s s' T r va : tables_kept s s' T → r ∈ T → pte_of (mem s') r va = pte_of (mem s) r va.
Proof. intros Hk Hr. apply pte_of_agree. by apply Hk. Qed.

(** A change confined to the pages [W], which no table has. *)
Lemma space_touch s s' L L' T fr (W : Z → Prop) :
  space s L T fr → kalloc_inv s' L' → L' ⊆ L →
  (∀ x, (∀ p, W p → ¬ (p ≤ x < p + PGSIZE)) → mem s' x = mem s x) →
  (∀ p, W p → page_ok p ∧ ∀ r, r ∈ T → ¬ pt_page (mem s) r p) →
  space s' L' T fr ∧ tables_kept s s' T ∧ (∀ f, f ∈ fr → ¬ W f → ∀ x, f ≤ x < f + PGSIZE → mem s' x = mem s x).
Proof.
  intros Hsp Hi HL Hm HW.
  assert (∀ p x, page_ok p → ¬ W p → p ≤ x < p + PGSIZE → mem s' x = mem s x) as Hkeep.
  { intros p x [Hp _] HpW Hx. apply Hm. intros q Hq Hqx. destruct (HW q Hq) as [[Hqo _] _].
    apply (pages_disjoint p q x); try done. by intros ->. }
  assert (tables_kept s s' T) as Ht.
  { intros r Hr p x Hp. apply Hkeep; [by apply (wf_pages _ _ (sp_wf _ _ _ _ Hsp r Hr))|]. intros HpW. by apply (HW p HpW) in Hr. }
  assert (∀ r p, r ∈ T → pt_page (mem s') r p ↔ pt_page (mem s) r p) as Hpg by (intros r p Hr; by apply pt_page_agree, Ht).
  split; [|split; [done|]].
  - destruct Hsp as [S1 S2 S3 S4 S5]. split; [done|..].
    + intros r Hr. apply (wf_pt_agree (mem s)); [by apply Ht|by apply S2].
    + intros r p Hr Hp%Hpg; [|done]. intros HpL. by apply (S3 r p Hr Hp), HL.
    + intros r r' p Hr Hr' Hp%Hpg Hp'%Hpg; try done. by apply (S4 r r' p).
    + intros f Hf. destruct (S5 f Hf) as (F1 & F2 & F3). split; [done|]. split; [by intros Hf'%HL|].
      intros r Hr Hp%Hpg; [|done]. by apply (F3 r).
  - intros f Hf HfW x. apply Hkeep; [|done]. by apply (sp_frame _ _ _ _ Hsp).
Qed.

(** Taking a page and filling it. *)
Lemma space_alloc s p L T fr m' :
  space s (p :: L) T fr → (∀ x, ¬ (p ≤ x < p + PGSIZE) → m' x = mem s x) →
  let s' := set_mem m' (kalloc_post p (load64 (mem s) p) s) in
  space s' L T (p :: fr) ∧ tables_kept s s' T ∧ frames_kept s s' fr.
Proof.
  intros Hsp Hm s'. destruct (kalloc_cons s p L (sp_alloc _ _ _ _ Hsp)) as [_ Hi].
  pose proof (ki_pages _ _ (sp_alloc _ _ _ _ Hsp)) as Hp. apply Forall_cons in Hp as [Hp _].
  pose proof (ki_nodup _ _ (sp_alloc _ _ _ _ Hsp)) as Hnd. apply NoDup_cons in Hnd as [HpL _].
  assert (∀ r, r ∈ T → ¬ pt_page (mem s) r p) as Hfresh.
  { intros r Hr Hp'. apply (sp_free _ _ _ _ Hsp r p Hr Hp'). by left. }
  destruct (space_touch s s' (p :: L) L T fr (λ q, q = p) Hsp) as (S' & K & F).
  - apply (kalloc_inv_frame _ _ _ Hi). intros x Hx. exists p. split; [apply Hp|]. split; [done|].
    destruct (decide (p ≤ x < p + PGSIZE)) as [|Hd]; [done|]. exfalso. apply Hx. simpl. rewrite fill_other by done. by apply Hm.
  - intros q Hq. by right.
  - intros x Hx. by apply Hm, Hx.
  - intros q ->. done.
  - split; [|split; [done|]].
    + destruct S' as [S1 S2 S3 S4 S5]. split; try done. intros f [->|Hf]%elem_of_cons; [|by apply S5].
      split; [done|]. split; [done|]. intros r Hr Hp'%(pt_page_agree _ _ _ _ (K r Hr)). by apply (Hfresh r).
    + intros f x Hf Hx. apply (F f); try done. intros ->. by apply (proj1 (proj2 (sp_frame _ _ _ _ Hsp p Hf))); left.
Qed.

(** Writing to a page in use. *)
Lemma space_write s L T fr f m' :
  space s L T fr → f ∈ fr → (∀ x, ¬ (f ≤ x < f + PGSIZE) → m' x = mem s x) →
  space (set_mem m' s) L T fr ∧ tables_kept s (set_mem m' s) T ∧
  (∀ g, g ∈ fr → g ≠ f → ∀ x, g ≤ x < g + PGSIZE → m' x = mem s x).
Proof.
  intros Hsp Hf Hm. destruct (sp_frame _ _ _ _ Hsp f Hf) as (F1 & F2 & F3).
  assert (∀ x, m' x ≠ mem s x → f ≤ x < f + PGSIZE) as Hch.
  { intros x Hx. destruct (decide (f ≤ x < f + PGSIZE)) as [|Hd]; [done|]. exfalso. by apply Hx, Hm. }
  apply (space_touch s (set_mem m' s) L L T fr (λ q, q = f) Hsp); try done.
  - apply (kalloc_inv_frame _ _ _ (sp_alloc _ _ _ _ Hsp)). intros x Hx. exists f. split; [apply F1|]. split; [done|by apply Hch].
  - intros x Hx. by apply Hm, Hx.
  - intros q ->. done.
Qed.

(** A zeroed page becomes an empty table. *)
Lemma space_new s L T fr p :
  space s L T (p :: fr) → p ∉ fr → (∀ x, p ≤ x < p + PGSIZE → mem s x = 0) →
  space s L (p :: T) fr ∧ (∀ va, pte_of (mem s) p va = 0).
Proof.
  intros Hsp Hpf Hz. destruct (sp_frame _ _ _ _ Hsp p ltac:(by left)) as (F1 & F2 & F3).
  destruct (empty_pt (mem s) p F1 Hz) as (Hwf & Hpg & Hpte). split; [|done].
  destruct Hsp as [S1 S2 S3 S4 S5]. split; try done.
  - intros r [->|Hr]%elem_of_cons; [done|by apply S2].
  - intros r q [->|Hr]%elem_of_cons; [by intros ->%Hpg|by apply S3].
  - intros r r' q [->|Hr]%elem_of_cons [->|Hr']%elem_of_cons; [done|..].
    + intros ->%Hpg Hq. by destruct (F3 r').
    + intros Hq ->%Hpg. by destruct (F3 r).
    + by apply S4.
  - intros f Hf. destruct (S5 f ltac:(by right)) as (G1 & G2 & G3). split; [done|]. split; [done|].
    intros r [->|Hr]%elem_of_cons; [|by apply G3]. intros ->%Hpg. done.
Qed.

(** A table grows beside the others. *)
Section Grow.
Context (s s' : kst) (L L' T fr : list Z) (r : Z) (u : list Z).
Hypothesis Hsp : space s L T fr.
Hypothesis Hr : r ∈ T.
Hypothesis Hg : grow r s s' L L' u.
Let others := filter (.≠ r) T.

Lemma others_space : space s L others fr.
Proof.
  destruct Hsp as [S1 S2 S3 S4 S5]. split; try done.
  - intros r' [_ Hr']%list_elem_of_filter. by apply S2.
  - intros r' p [_ Hr']%list_elem_of_filter. by apply S3.
  - intros r1 r2 p [_ H1]%list_elem_of_filter [_ H2]%list_elem_of_filter. by apply S4.
  - intros f Hf. destruct (S5 f Hf) as (F1 & F2 & F3). split; [done|]. split; [done|].
    intros r' [_ Hr']%list_elem_of_filter. by apply F3.
Qed.
Lemma grown_ok p : pt_page (mem s) r p ∨ p ∈ u → page_ok p.
Proof.
  intros [Hp|Hp]; [by apply (wf_pages _ _ (sp_wf _ _ _ _ Hsp r Hr))|].
  by apply (used_page_ok s L u L'); [apply Hsp|apply Hg|].
Qed.
Lemma grown_apart r' p : r' ∈ others → pt_page (mem s) r' p → ¬ (pt_page (mem s) r p ∨ p ∈ u).
Proof.
  intros [Hne Hr']%list_elem_of_filter Hp' [Hp|Hp]; [by apply Hne, (sp_disj _ _ _ _ Hsp r' r p)|].
  apply (sp_free _ _ _ _ Hsp r' p Hr' Hp'). rewrite (g_split _ _ _ _ _ _ Hg). set_solver.
Qed.
Lemma grown_frame f : f ∈ fr → ¬ (pt_page (mem s) r f ∨ f ∈ u).
Proof.
  intros Hf [Hp|Hp]; destruct (sp_frame _ _ _ _ Hsp f Hf) as (_ & F2 & F3); [by apply (F3 r)|].
  apply F2. rewrite (g_split _ _ _ _ _ _ Hg). set_solver.
Qed.
Lemma space_grow : space s' L' T fr ∧ frames_kept s s' fr ∧ tables_kept s s' others.
Proof.
  assert (L' ⊆ L) as HL by (rewrite (g_split _ _ _ _ _ _ Hg); set_solver).
  destruct (space_touch s s' L L' others fr (λ p, pt_page (mem s) r p ∨ p ∈ u) others_space (g_inv _ _ _ _ _ _ Hg) HL (g_frame _ _ _ _ _ _ Hg))
    as (S' & K & F).
  { intros p Hp. split; [by apply grown_ok|]. intros r' Hr' Hp'. by destruct (grown_apart r' p). }
  split; [|split; [intros f x Hf; by apply F, grown_frame|done]].
  assert (∀ r', r' ∈ T → r' = r ∨ r' ∈ others) as Hsplit.
  { intros r' Hr'. destruct (decide (r' = r)); [by left|right]. by apply list_elem_of_filter. }
  assert (∀ r' p, r' ∈ others → pt_page (mem s') r' p → ¬ pt_page (mem s') r p) as Hx.
  { intros r' p Hr' Hp'%(pt_page_agree _ _ _ _ (K r' Hr')) Hp%(g_pages _ _ _ _ _ _ Hg). by destruct (grown_apart r' p). }
  split; [apply Hg|..].
  - intros r' [->|Hr']%Hsplit; [apply Hg|by apply S'].
  - intros r' p [->|Hr']%Hsplit; [apply (grow_pt_inv _ _ _ _ _ _ (space_pt_inv _ _ _ _ _ Hsp Hr) Hg)|by apply S'].
  - intros r1 r2 p [->|H1]%Hsplit [->|H2]%Hsplit P1 P2; [done|by destruct (Hx r2 p)|by destruct (Hx r1 p)|].
    by apply (sp_disj _ _ _ _ S' r1 r2 p).
  - intros f Hf. destruct (sp_frame _ _ _ _ S' f Hf) as (F1 & F2 & F3). split; [done|]. split; [done|].
    intros r' [->|Hr']%Hsplit; [|by apply F3]. intros Hp%(g_pages _ _ _ _ _ _ Hg). by apply (grown_frame f).
Qed.
End Grow.

(** Mapping one page when three pages are free. *)
Lemma space_map s L T fr r a pa perm :
  space s L T fr → r ∈ T → (3 ≤ length L)%nat → a mod PGSIZE = 0 → 0 ≤ a < MAXVA →
  pa mod PGSIZE = 0 → 0 ≤ pa < 2 ^ 55 → 0 ≤ perm < 2 ^ 10 → has (pte_of (mem s) r a) PTE_V = false →
  ∃ s' L', mappages r a PGSIZE pa perm s = Ok 0 s' ∧ space s' L' T fr ∧ L' ⊆ L ∧ (length L ≤ length L' + 2)%nat ∧
    frames_kept s s' fr ∧ adds (mem s) (mem s') r (on_path a) ∧ tables_kept s s' (filter (.≠ r) T) ∧
    (∀ va, 0 ≤ va < MAXVA → pte_of (mem s') r va = if PGROUNDDOWN va =? a then mk_pte pa perm else pte_of (mem s) r va).
Proof.
  intros Hsp Hr Hlen Ha Ha0 Hpa Hpa0 Hperm Hinv. pose proof (space_pt_inv _ _ _ _ _ Hsp Hr) as Hpi.
  destruct (mappages_page s L r a pa perm) as (res & s' & L' & u & E & G & R & P); try done; [lia|].
  assert (a + PGSIZE ≤ MAXVA) as Hmax by (unfold PGSIZE, MAXVA in *; Z.div_mod_to_equations; lia).
  assert (∀ va l, 0 ≤ l → a ≤ va < a + PGSIZE → PX l va = PX l a) as EP.
  { intros va l Hl Hva. rewrite <- (PX_PGROUNDDOWN l va) by done. f_equal. rewrite PGROUNDDOWN_eq.
    unfold PGSIZE in *. Z.div_mod_to_equations; lia. }
  assert (adds (mem s) (mem s') r (on_path a)) as Had.
  { revert E. apply (mappages_adds s L); try done; try lia.
    intros va q Hva. unfold on_path, low_of. by rewrite !(EP va) by lia. }
  assert (length u ≤ 2)%nat as Hu.
  { apply (adds_bound s s' L L' r u [Mid (PX 2 a); low_of a] Hpi G). eapply adds_weaken; [|exact Had].
    intros q [->| ->]; set_solver. }
  pose proof (g_split _ _ _ _ _ _ G) as Hs. pose proof (f_equal length Hs) as Hsl. rewrite length_app in Hsl.
  assert (res = 0) as -> by (destruct R as [|[_ ->]]; [done|simpl in Hsl; lia]).
  destruct (space_grow s s' L L' T fr r u Hsp Hr G) as (S' & F & K).
  exists s', L'. split_and!; try done; [set_solver|lia].
Qed.

(** A copy of the root page of a table replaces it, and the old root is a page like
    any other: the pages below are shared. *)
Lemma load_n_copy n m a b : (∀ j, 0 ≤ j < Z.of_nat n → m (a + j) = m (b + j)) → load_n n m a = load_n n m b.
Proof.
  revert a b. induction n as [|n IH]; intros a b Hj; [done|]. cbn [load_n]. unfold load8. f_equal.
  - f_equal. rewrite <- (Z.add_0_r a), <- (Z.add_0_r b). apply Hj. lia.
  - f_equal. apply IH. intros j Hj'. rewrite <- !Z.add_assoc. apply Hj. lia.
Qed.
Lemma space_share s L T fr k p :
  space s L (k :: T) (p :: fr) → k ∉ T → k ∉ fr → p ∉ fr →
  (∀ x, 0 ≤ x < PGSIZE → mem s (p + x) = mem s (k + x)) →
  space s L (p :: T) (k :: fr) ∧ (∀ n, node_ok n → n ≠ Root → node_page (mem s) p n = node_page (mem s) k n) ∧
  (∀ va, pte_of (mem s) p va = pte_of (mem s) k va).
Proof.
  intros Hsp HkT Hkf Hpf Hcp. assert (k ∈ k :: T) as Hk by by left.
  destruct (sp_frame _ _ _ _ Hsp p ltac:(by left)) as (F1 & F2 & F3).
  assert (∀ i, idx9 i → child (mem s) p i = child (mem s) k i) as Hch.
  { intros i Hi. unfold child. unfold load64. rewrite (load_n_copy 8 (mem s) (p + 8 * i) (k + 8 * i)); [done|].
    intros j Hj. rewrite <- !Z.add_assoc. apply Hcp. unfold idx9, PGSIZE in *. lia. }
  assert (∀ n, node_ok n → n ≠ Root → node_page (mem s) p n = node_page (mem s) k n) as Hnode.
  { intros [|i|i j] Hn Hne; [done|by apply Hch|]. destruct Hn as [Hi _]. simpl. by rewrite Hch. }
  assert (∀ q, pt_page (mem s) p q → q = p ∨ q ≠ k ∧ pt_page (mem s) k q) as Hpg.
  { intros q (n & Hn & E). destruct (decide (n = Root)) as [->|Hne]; [left; by injection E as ->|right].
    rewrite Hnode in E by done. split; [|by exists n]. intros ->. apply Hne.
    by apply (wf_inj _ _ (sp_wf _ _ _ _ Hsp k Hk) n Root k). }
  split; [|split; [done|]].
  2:{ intros va. unfold pte_of. by rewrite Hnode by (done || apply low_of_ok). }
  pose proof (sp_wf _ _ _ _ Hsp k Hk) as Hwf. split.
  - apply Hsp.
  - intros r [->|Hr]%elem_of_cons; [|apply Hsp; by right]. split.
    + intros q [->|[_ Hq]]%Hpg; [done|by apply (wf_pages _ _ Hwf)].
    + assert (∀ n q, node_ok n → n ≠ Root → node_page (mem s) p n = Some q → q ≠ p) as Hnp.
      { intros n q Hn Hne E ->. rewrite Hnode in E by done. apply (F3 k Hk). by exists n. }
      intros n n' q Hn Hn' E E'. destruct (decide (n = Root)) as [->|Hne], (decide (n' = Root)) as [->|Hne']; [done|..].
      * injection E as <-. by destruct (Hnp n' p).
      * injection E' as <-. by destruct (Hnp n p).
      * rewrite Hnode in E, E' by done. by apply (wf_inj _ _ Hwf n n' q).
  - intros r q [->|Hr]%elem_of_cons; [|apply Hsp; by right]. intros [->|[_ Hq]]%Hpg; [done|by apply (sp_free _ _ _ _ Hsp k)].
  - intros r r' q [->|Hr]%elem_of_cons [->|Hr']%elem_of_cons; [done|..].
    + intros [->|[_ Hq]]%Hpg Hq'; [by destruct (F3 r'); [by right|]|].
      exfalso. apply HkT. by rewrite (sp_disj _ _ _ _ Hsp k r' q Hk ltac:(by right) Hq Hq').
    + intros Hq' [->|[_ Hq]]%Hpg; [by destruct (F3 r); [by right|]|].
      exfalso. apply HkT. by rewrite (sp_disj _ _ _ _ Hsp k r q Hk ltac:(by right) Hq Hq').
    + apply Hsp; by right.
  - assert (pt_page (mem s) k k) as Hkk by by exists Root. intros f [->|Hf]%elem_of_cons.
    + split; [by apply (wf_pages _ _ Hwf)|]. split; [by apply (sp_free _ _ _ _ Hsp k)|].
      intros r [->|Hr]%elem_of_cons Hq; [apply Hpg in Hq as [Ekp|[? _]]; [apply (F3 k Hk); by rewrite <- Ekp|done]|].
      apply HkT. by rewrite (sp_disj _ _ _ _ Hsp k r k Hk ltac:(by right) Hkk Hq).
    + destruct (sp_frame _ _ _ _ Hsp f ltac:(by right)) as (G1 & G2 & G3). split; [done|]. split; [done|].
      intros r [->|Hr]%elem_of_cons Hq; [|by apply (G3 r); [by right|]].
      apply Hpg in Hq as [->|[_ Hq]]; [done|by apply (G3 k)].
Qed.

(** ** Composition *)
Lemma space_sub s L T T' fr fr' : space s L T fr → T' ⊆ T → fr' ⊆ fr → space s L T' fr'.
Proof.
  intros [S1 S2 S3 S4 S5] HT Hf. split; [done|..].
  - intros r Hr. by apply S2, HT.
  - intros r p Hr. by apply S3, HT.
  - intros r r' p Hr Hr'. apply S4; by apply HT.
  - intros f Hf'. destruct (S5 f (Hf f Hf')) as (F1 & F2 & F3). split; [done|]. split; [done|]. intros r Hr. by apply F3, HT.
Qed.
Lemma frames_kept_trans s s1 s2 fr : frames_kept s s1 fr → frames_kept s1 s2 fr → frames_kept s s2 fr.
Proof. intros H1 H2 f x Hf Hx. by rewrite (H2 f x), (H1 f x). Qed.
Lemma frames_kept_sub s s' fr fr' : frames_kept s s' fr → fr' ⊆ fr → frames_kept s s' fr'.
Proof. intros H1 H2 f x Hf. apply H1. by apply H2. Qed.
Lemma tables_kept_trans s s1 s2 T : tables_kept s s1 T → tables_kept s1 s2 T → tables_kept s s2 T.
Proof.
  intros H1 H2 r Hr p x Hp Hx. rewrite (H2 r Hr p x), (H1 r Hr p x); try done.
  by apply (pt_page_agree _ _ _ _ (H1 r Hr)).
Qed.
Lemma tables_kept_sub s s' T T' : tables_kept s s' T → T' ⊆ T → tables_kept s s' T'.
Proof. intros H1 H2 r Hr. apply H1. by apply H2. Qed.
Lemma adds_kept s s' T r N : tables_kept s s' T → r ∈ T → adds (mem s) (mem s') r N.
Proof. intros Hk Hr q Hq. left. apply node_page_agree; [by apply Hk|done]. Qed.

(** Taking a page: the call and the state. *)
Lemma space_kalloc s p L T fr : space s (p :: L) T fr →
  kalloc s = Ok p (kalloc_post p (load64 (mem s) p) s) ∧ p ≠ 0 ∧ page_ok p ∧ p ∉ L ∧ p ∉ fr ∧ p ∉ T.
Proof.
  intros Hsp. destruct (kalloc_cons s p L (sp_alloc _ _ _ _ Hsp)) as [E _].
  pose proof (ki_pages _ _ (sp_alloc _ _ _ _ Hsp)) as Hp. apply Forall_cons in Hp as [Hp _].
  pose proof (ki_nodup _ _ (sp_alloc _ _ _ _ Hsp)) as Hnd. apply NoDup_cons in Hnd as [HpL _].
  pose proof (page_ok_range _ Hp) as Hr. unfold KERNBASE in Hr. split_and!; try done; [lia|..].
  - intros Hf. apply (proj1 (proj2 (sp_frame _ _ _ _ Hsp p Hf))). by left.
  - intros HT. apply (sp_free _ _ _ _ Hsp p p HT); [by exists Root|by left].
Qed.

(** The table whose root page is the frame [k] has its subtrees in common with the
    table [p]. *)
Definition mirrors (m : memory) (k p : Z) : Prop := ∀ i, idx9 i → is_Some (child m k i) → child m p i = child m k i.
Lemma mirrors_entry m k p va :
  mirrors m k p → pte_of m k va = match child m k (PX 2 va) with Some _ => pte_of m p va | None => 0 end.
Proof.
  intros Hm. unfold pte_of, low_of, node_page. destruct (child m k (PX 2 va)) as [q|] eqn:E; [|done].
  by rewrite (Hm (PX 2 va)), E by (try apply PX_range; eauto; lia).
Qed.
Lemma mirrors_adds m m' k p (N : node → Prop) :
  mirrors m k p → (∀ x, k ≤ x < k + PGSIZE → m' x = m x) → adds m m' p N → (∀ i, N (Mid i) → child m k i = None) →
  mirrors m' k p ∧ (∀ i, idx9 i → child m' k i = child m k i).
Proof.
  intros Hm Hk Ha HN. assert (∀ i, idx9 i → child m' k i = child m k i) as Hc by (intros i; by apply child_agree).
  split; [|done]. intros i Hi Hs. rewrite Hc in * by done. destruct (Ha (Mid i) Hi) as [E|E].
  - simpl in E. rewrite E. by apply Hm.
  - apply HN in E. rewrite E in Hs. by destruct Hs.
Qed.
End WithLayout.
