(* ===== verification/Cow.v ===== *)
(** * Copy-on-write: sharing at fork and copying at the first write

    Correctness of [uvmcopy] and [cow_alloc] (kernel/vm.c).  A process has two
    tables: the user table and its kernel table, which maps the same frames. *)
From stdpp Require Import prelude list strings.
From Stdlib Require Import ZArith Lia.
From S2P Require Import Prelude Riscv Kalloc VM PageTable PageTableOps.
Open Scope Z_scope.

Section WithLayout.
Context `{Layout}.

(** ** Frames and tables *)

(** A table survives any change that leaves its pages alone. *)
Lemma pt_inv_frame s s' L L' root :
  pt_inv s L root → kalloc_inv s' L' → (∀ p, p ∈ L' → p ∈ L) →
  agree_on (mem s) (mem s') (pt_page (mem s) root) → pt_inv s' L' root.
Proof.
  intros Hpi Hi Hsub Ha. split; [done|by apply (wf_pt_agree (mem s)); [|apply Hpi]|].
  intros p Hp%(pt_page_agree _ _ _ _ Ha) HpL. by apply (pi_free _ _ _ Hpi p Hp), Hsub.
Qed.

Lemma disj_pt_frame m m' r1 r2 :
  agree_on m m' (pt_page m r1) → agree_on m m' (pt_page m r2) →
  disj_pt m r1 r2 → disj_pt m' r1 r2.
Proof.
  intros H1 H2 Hd p Hp1%(pt_page_agree _ _ _ _ H1) Hp2%(pt_page_agree _ _ _ _ H2).
  by apply (Hd p).
Qed.

Lemma disj_pt_sym m r1 r2 : disj_pt m r1 r2 → disj_pt m r2 r1.
Proof. intros Hd p H1 H2. by apply (Hd p). Qed.

(** A frame in use: managed, not free, and no page of the table [root]. *)
Definition frame_of (s : kst) (L : list Z) (root pa : Z) : Prop :=
  page_ok pa ∧ pa ∉ L ∧ ¬ pt_page (mem s) root pa.

(** The entry of [va] rewritten, the rest of the table and every byte outside
    the table's pages kept. *)
Lemma leaf_update s L root va v :
  pt_inv s L root → 0 ≤ va < MAXVA → 0 ≤ v < 2 ^ 64 →
  has (pte_of (mem s) root va) PTE_V = true →
  ∃ pg, walk root va false s = Ok (pg + 8 * PX 0 va) s ∧ pg + 8 * PX 0 va ≠ 0 ∧
    load64 (mem s) (pg + 8 * PX 0 va) = pte_of (mem s) root va ∧
    let s' := set_mem (store64 (mem s) (pg + 8 * PX 0 va) v) s in
    grow root s s' L L [] ∧
    (∀ va', 0 ≤ va' < MAXVA → pte_of (mem s') root va' =
       if PGROUNDDOWN va' =? PGROUNDDOWN va then v else pte_of (mem s) root va').
Proof.
  intros Hpi Hva Hv Hval. rewrite walk_noalloc by lia.
  destruct (node_page (mem s) root (low_of va)) as [pg|] eqn:E.
  2:{ unfold pte_of in Hval. rewrite E in Hval. done. }
  exists pg. split; [done|]. pose proof (pi_wf _ _ _ Hpi) as Hwf.
  assert (page_ok pg) as Hpg.
  { apply (wf_pages _ _ Hwf). exists (low_of va). split; [apply low_of_ok|done]. }
  pose proof (page_ok_range _ Hpg) as Hr. unfold KERNBASE in Hr.
  pose proof (PX_range 0 va). split; [lia|]. split; [by apply pte_of_low|].
  split; [by apply leaf_write_grow|]. intros va' Hva'. cbn [mem set_mem].
  rewrite (leaf_write_pte (mem s) root va pg v Hwf E va' Hva Hva').
  by rewrite (u64_small v).
Qed.

(** ** [cow_alloc] *)

Lemma walk_invalid s root va :
  va < MAXVA → has (pte_of (mem s) root va) PTE_V = false →
  ∃ pte, walk root va false s = Ok pte s ∧
    (pte = 0 ∨ load64 (mem s) pte = pte_of (mem s) root va).
Proof.
  intros Hva Hv. rewrite walk_noalloc by done.
  destruct (node_page (mem s) root (low_of va)) as [pg|] eqn:E; eexists; (split; [done|]).
  - right. by apply pte_of_low.
  - by left.
Qed.

(** Entry written by [cow_alloc] in the user table, and in the kernel table. *)
Definition cow_private (new v : Z) : Z :=
  mk_pte new (Z.land (Z.lor (PTE_FLAGS v) PTE_W) (Z.lnot PTE_COW)).
Definition cow_private_k (new v : Z) : Z :=
  mk_pte new
    (Z.lor (Z.land (Z.land (Z.land (Z.lor (PTE_FLAGS v) PTE_W) (Z.lnot PTE_COW)) (Z.lnot PTE_U))
              (Z.lnot PTE_COW)) PTE_W).

Lemma flags_small f g : 0 ≤ f < 2 ^ 10 → 0 ≤ Z.land f (Z.lnot g) < 2 ^ 10.
Proof.
  intros Hf. assert (0 ≤ Z.land f (Z.lnot g)) by (apply Z.land_nonneg; lia).
  split; [done|]. apply small_of_bits; [lia|done|]. intros i Hi.
  by rewrite Z.land_spec, (testbit_small f 10).
Qed.

Lemma cow_flags_range v :
  0 ≤ Z.land (Z.lor (PTE_FLAGS v) PTE_W) (Z.lnot PTE_COW) < 2 ^ 10.
Proof.
  apply flags_small, lor_small; [lia|apply PTE_FLAGS_range|unfold PTE_W; lia].
Qed.

(** The copied entry maps the new frame, writable and no longer marked. *)
Lemma cow_private_bits new v :
  page_ok new →
  PTE2PA (cow_private new v) = new ∧ has (cow_private new v) PTE_V = true ∧
  has (cow_private new v) PTE_W = true ∧ has (cow_private new v) PTE_COW = false ∧
  has (cow_private new v) PTE_U = has v PTE_U.
Proof.
  intros Hn. pose proof (cow_flags_range v) as Hf. pose proof (page_ok_small _ Hn) as Hs.
  destruct Hn as [Ha _]. unfold cow_private. split_and!.
  - by apply mk_pte_PTE2PA.
  - by apply mk_pte_valid.
  - rewrite has_W, mk_pte_testbit_low by (done || lia).
    by rewrite Z.land_spec, Z.lor_spec, orb_true_r.
  - rewrite has_COW, mk_pte_testbit_low by (done || lia).
    rewrite Z.land_spec. change (Z.testbit (Z.lnot PTE_COW) 9) with false.
    by rewrite andb_false_r.
  - rewrite !has_U, mk_pte_testbit_low by (done || lia).
    rewrite Z.land_spec, Z.lor_spec. unfold PTE_FLAGS. rewrite Z.land_spec.
    change (Z.testbit 1023 4) with true. change (Z.testbit PTE_W 4) with false.
    change (Z.testbit (Z.lnot PTE_COW) 4) with true. change (Z.testbit PTE_V 4) with false.
    by rewrite !andb_true_r, !orb_false_r.
Qed.

(** The state after the copy: [new] holds the bytes of [pa], one reference to
    [pa] is dropped. *)
Definition cow_copied (new pa : Z) (s : kst) : kst :=
  let s1 := kalloc_post new (load64 (mem s) new) s in
  set_ref (pa2index pa) (ref_count s1 (pa2index pa) - 1)
    (set_mem (blit (mem s1) new pa PGSIZE) s1).

Lemma cow_copied_spec s new L pa :
  kalloc_inv s (new :: L) → page_ok pa → pa ∉ new :: L → 1 ≤ ref_count s (pa2index pa) →
  let s' := cow_copied new pa s in
  kalloc_inv s' L ∧
  (∀ x, ¬ (new ≤ x < new + PGSIZE) → mem s' x = mem s x) ∧
  (∀ k, 0 ≤ k < PGSIZE → mem s' (new + k) = mem s (pa + k)) ∧
  (∀ q, page_ok q → ref_count s' (pa2index q) =
     if q =? new then 1 else ref_count s (pa2index q) - (if q =? pa then 1 else 0)) ∧
  (copy_page new pa ;;; decref pa) (kalloc_post new (load64 (mem s) new) s) = Ok tt s'.
Proof.
  intros Hi Hpa HpaL Hr s'. destruct (kalloc_cons s new L Hi) as [_ Hi1].
  set (s1 := kalloc_post new (load64 (mem s) new) s) in *.
  pose proof (ki_pages _ _ Hi) as Hp. apply Forall_cons in Hp as [Hnew _].
  pose proof (ki_nodup _ _ Hi) as Hnd. apply NoDup_cons in Hnd as [HnL _].
  apply not_elem_of_cons in HpaL as [Hne HpaL].
  assert (ref_count s1 (pa2index pa) = ref_count s (pa2index pa)) as Er.
  { simpl. rewrite upd_ne; [done|]. by intros ?%pa2index_inj. }
  pose proof (ki_ref_range _ _ Hi _ (idx_ok_page _ Hpa)) as Hrr.
  assert (∀ x, ¬ (new ≤ x < new + PGSIZE) → mem s' x = mem s x) as Hout.
  { intros x Hx. simpl. by rewrite blit_other, fill_other. }
  split_and!; [|done|..].
  - apply kalloc_inv_set_ref; [|done|done|fold s1; rewrite Er; lia].
    apply kalloc_inv_frame; [done|]. intros x Hx. exists new.
    split; [apply Hnew|split; [done|]].
    destruct (decide (new ≤ x < new + PGSIZE)); [done|]. by rewrite blit_other in Hx.
  - intros k Hk. simpl. rewrite blit_in by lia.
    replace (pa + (new + k - new)) with (pa + k) by lia. apply fill_other.
    intros Hx. destruct Hpa as [Ha _], Hnew as [Hb _].
    apply (pages_disjoint pa new (pa + k)); lia || done.
  - intros q Hq. change (ref_count s') with
      (upd (ref_count s1) (pa2index pa) (ref_count s1 (pa2index pa) - 1)).
    destruct (Z.eqb_spec q new) as [->|Hqn].
    { rewrite upd_ne by by intros ?%pa2index_inj. apply upd_eq. }
    destruct (Z.eqb_spec q pa) as [->|Hqp]; [rewrite upd_eq, Er; lia|].
    rewrite upd_ne by by intros ?%pa2index_inj. simpl.
    rewrite upd_ne by by intros ?%pa2index_inj. lia.
  - unfold copy_page, decref, mbindM, modify, whenM. rewrite idx_ok_page by done.
    change (ref_count (set_mem (blit (mem s1) new pa PGSIZE) s1)) with (ref_count s1).
    destruct (Z.ltb_spec 0 (ref_count s1 (pa2index pa))); [done|lia].
Qed.

(** What [cow_alloc] on the page of [va] leaves behind when it succeeds. *)
Record cow_post (s s' : kst) (L' : list Z) (root kroot va new pa : Z) : Prop := {
  cp_user : pt_inv s' L' root;
  cp_kern : pt_inv s' L' kroot;
  cp_disj : disj_pt (mem s') root kroot;
  cp_pte : ∀ a, 0 ≤ a < MAXVA → pte_of (mem s') root a =
    if PGROUNDDOWN a =? PGROUNDDOWN va then cow_private new (pte_of (mem s) root va)
    else pte_of (mem s) root a;
  cp_kpte : ∀ a, 0 ≤ a < MAXVA → pte_of (mem s') kroot a =
    if (PGROUNDDOWN a =? PGROUNDDOWN va) && has (pte_of (mem s) kroot va) PTE_V
    then cow_private_k new (pte_of (mem s) root va) else pte_of (mem s) kroot a;
  cp_copy : ∀ k, 0 ≤ k < PGSIZE → mem s' (new + k) = mem s (pa + k);
  cp_frame : ∀ x, ¬ (new ≤ x < new + PGSIZE) →
    (∀ p, pt_page (mem s) root p ∨ pt_page (mem s) kroot p → ¬ (p ≤ x < p + PGSIZE)) →
    mem s' x = mem s x;
  cp_ref : ∀ q, page_ok q → ref_count s' (pa2index q) =
    if q =? new then 1 else ref_count s (pa2index q) - (if q =? pa then 1 else 0) }.

(** [kpte] update of [cow_alloc]: the kernel table follows when it maps [va]. *)
Lemma cow_kernel_update s L kroot va v :
  pt_inv s L kroot → 0 ≤ va < MAXVA → 0 ≤ v < 2 ^ 64 →
  ∃ s' used, (kpte <-- walk kroot va false ;;
     if kpte =? 0 then mretM tt
     else kv <-- read_pte kpte ;; if has kv PTE_V then write_pte kpte v else mretM tt) s = Ok tt s' ∧
    grow kroot s s' L L used ∧ used = [] ∧ ref_count s' = ref_count s ∧
    (∀ a, 0 ≤ a < MAXVA → pte_of (mem s') kroot a =
       if (PGROUNDDOWN a =? PGROUNDDOWN va) && has (pte_of (mem s) kroot va) PTE_V
       then v else pte_of (mem s) kroot a).
Proof.
  intros Hpi Hva Hv. destruct (has (pte_of (mem s) kroot va) PTE_V) eqn:EV.
  - destruct (leaf_update s L kroot va v Hpi Hva Hv EV) as (pg & E & Hn & El & G & P).
    rewrite (mbindM_Ok _ _ _ _ _ E). destruct (Z.eqb_spec (pg + 8 * PX 0 va) 0) as [|_]; [done|].
    unfold read_pte, write_pte, gets, modify, mbindM. rewrite El, EV.
    eexists _, []. split; [done|]. split; [done|]. split; [done|]. split; [done|].
    intros a Ha. rewrite P by done. by rewrite andb_true_r.
  - destruct (walk_invalid s kroot va ltac:(lia) EV) as (pte & E & Hp).
    rewrite (mbindM_Ok _ _ _ _ _ E). exists s, [].
    split. 2:{ split; [by apply grow_refl|]. split; [done|]. split; [done|].
      intros a Ha. by rewrite andb_false_r. }
    destruct (Z.eqb_spec pte 0) as [|Hne]; [done|]. destruct Hp as [|Hp]; [done|].
    unfold read_pte, gets, mbindM. by rewrite Hp, EV.
Qed.

(** The copy happens in a free page, so it disturbs no table. *)
Lemma cow_copied_pt s new L pa r :
  pt_inv s (new :: L) r → page_ok pa → pa ∉ new :: L → 1 ≤ ref_count s (pa2index pa) →
  agree_on (mem s) (mem (cow_copied new pa s)) (pt_page (mem s) r) ∧
  pt_inv (cow_copied new pa s) L r.
Proof.
  intros Hri Hpa HpaL Hr. pose proof (pi_alloc _ _ _ Hri) as Hi.
  pose proof (ki_pages _ _ Hi) as Hp. apply Forall_cons in Hp as [[Hna _] _].
  destruct (cow_copied_spec s new L pa Hi Hpa HpaL Hr) as (Hi3 & Hout & _).
  assert (agree_on (mem s) (mem (cow_copied new pa s)) (pt_page (mem s) r)) as Hag.
  { intros p x Hpp Hx. apply Hout. intros Hx'.
    assert (page_ok p) as [Ha _] by by apply (wf_pages _ _ (pi_wf _ _ _ Hri)).
    apply (pages_disjoint p new x); [done|done| |done|done].
    intros ->. apply (pi_free _ _ _ Hri new Hpp). left. }
  split; [done|]. apply (pt_inv_frame s _ (new :: L)); [done|done|set_solver|done].
Qed.

(** Both entries of the page of [va] rewritten. *)
Lemma cow_updates s L root kroot va pte v kv :
  pt_inv s L root → pt_inv s L kroot → disj_pt (mem s) root kroot →
  0 ≤ va < MAXVA → 0 ≤ v < 2 ^ 64 → 0 ≤ kv < 2 ^ 64 →
  has (pte_of (mem s) root va) PTE_V = true → walk root va false s = Ok pte s →
  ∃ s', (write_pte pte v ;;; kpte <-- walk kroot va false ;;
     if kpte =? 0 then mretM tt
     else k <-- read_pte kpte ;; if has k PTE_V then write_pte kpte kv else mretM tt) s
     = Ok tt s' ∧
    pt_inv s' L root ∧ pt_inv s' L kroot ∧ disj_pt (mem s') root kroot ∧
    ref_count s' = ref_count s ∧
    (∀ a, 0 ≤ a < MAXVA → pte_of (mem s') root a =
       if PGROUNDDOWN a =? PGROUNDDOWN va then v else pte_of (mem s) root a) ∧
    (∀ a, 0 ≤ a < MAXVA → pte_of (mem s') kroot a =
       if (PGROUNDDOWN a =? PGROUNDDOWN va) && has (pte_of (mem s) kroot va) PTE_V
       then kv else pte_of (mem s) kroot a) ∧
    (∀ x, (∀ p, pt_page (mem s) root p ∨ pt_page (mem s) kroot p → ¬ (p ≤ x < p + PGSIZE)) →
       mem s' x = mem s x).
Proof.
  intros Hu Hk Hd Hva Hv Hkv HV Ew.
  destruct (leaf_update s L root va v Hu Hva Hv HV) as (pg & Ew' & _ & _ & G4 & P4).
  assert (pte = pg + 8 * PX 0 va) as -> by congruence.
  set (s4 := set_mem _ s) in *.
  destruct (grow_other root kroot s s4 L L [] Hu Hk Hd G4) as (A4 & Hk4 & Hd4).
  destruct (cow_kernel_update s4 L kroot va kv Hk4 Hva Hkv) as (s5 & u & E5 & G5 & -> & R5 & P5).
  destruct (grow_other kroot root s4 s5 L L [] Hk4 (grow_pt_inv _ _ _ _ _ _ Hu G4)
    (disj_pt_sym _ _ _ Hd4) G5) as (A5 & Hu5 & Hd5).
  exists s5. split_and!; try done.
  - by apply (grow_pt_inv _ _ _ _ _ _ Hk4 G5).
  - by apply disj_pt_sym.
  - intros a Ha. by rewrite (pte_of_agree _ _ _ _ A5), P4.
  - intros a Ha. by rewrite P5, !(pte_of_agree _ _ kroot _ A4).
  - intros x Hx. rewrite (g_frame _ _ _ _ _ _ G5), (g_frame _ _ _ _ _ _ G4); [done|..].
    + intros p [Hp|[]%elem_of_nil]. apply Hx. by left.
    + intros p [Hp|[]%elem_of_nil]. apply Hx. right. by apply (pt_page_agree _ _ _ _ A4).
Qed.

Lemma cow_private_range new v :
  page_ok new → 0 ≤ cow_private new v < 2 ^ 64 ∧ 0 ≤ cow_private_k new v < 2 ^ 64.
Proof.
  intros Hn. pose proof (page_ok_small _ Hn) as Hs. destruct Hn as [Ha _].
  split; apply mk_pte_range; try done; [apply cow_flags_range|].
  apply lor_small; [lia| |unfold PTE_W; lia]. apply flags_small, flags_small, cow_flags_range.
Qed.

(** The guards of [cow_alloc] passed: what is left is the copy and the two
    entries. *)
Lemma cow_alloc_run s root kroot sz new L va v pte :
  kalloc_inv s (new :: L) → 0 ≤ va < MAXVA →
  walk root (PGROUNDDOWN va) false s = Ok pte s → pte ≠ 0 → load64 (mem s) pte = v →
  has v PTE_V = true → has v PTE_COW = true →
  cow_alloc (Some (Pmem sz root kroot)) root va s =
  ((copy_page new (PTE2PA v) ;;; decref (PTE2PA v)) ;;;
   (write_pte pte (cow_private new v) ;;; kpte <-- walk kroot (PGROUNDDOWN va) false ;;
    if kpte =? 0 then mretM tt
    else k <-- read_pte kpte ;;
         if has k PTE_V then write_pte kpte (cow_private_k new v) else mretM tt) ;;;
   mretM 0) (kalloc_post new (load64 (mem s) new) s).
Proof.
  intros Hi Hva Ew Hne Hv HV HC. destruct (kalloc_cons s new L Hi) as [Ek _].
  pose proof (ki_pages _ _ Hi) as Hp. apply Forall_cons in Hp as [Hnew _].
  apply page_ok_range in Hnew. unfold KERNBASE in Hnew.
  unfold cow_alloc. destruct (Z.leb_spec MAXVA va); [lia|].
  rewrite (mbindM_Ok _ _ _ _ _ Ew). destruct (Z.eqb_spec pte 0); [done|].
  unfold read_pte at 1. unfold mbindM at 1, gets at 1. rewrite Hv, HV, HC. cbn [negb].
  rewrite (mbindM_Ok _ _ _ _ _ Ek). destruct (Z.eqb_spec new 0) as [E0|_]; [lia|].
  unfold mbindM, copy_page, write_pte, read_pte, modify, gets, mretM, cow_private, cow_private_k.
  destruct (decref _ _) as [[] s2|]; [|done].
  cbn [p_kpagetable mem set_mem].
  destruct (walk kroot _ _ _) as [kp s3|]; [|done].
  destruct (kp =? 0); [done|]. by destruct (has _ _).
Qed.

Lemma cow_alloc_ok s root kroot sz new L va pa :
  pt_inv s (new :: L) root → pt_inv s (new :: L) kroot → disj_pt (mem s) root kroot →
  0 ≤ va < MAXVA →
  has (pte_of (mem s) root va) PTE_V = true → has (pte_of (mem s) root va) PTE_COW = true →
  pa = PTE2PA (pte_of (mem s) root va) → page_ok pa → pa ∉ new :: L →
  1 ≤ ref_count s (pa2index pa) →
  ∃ s', cow_alloc (Some (Pmem sz root kroot)) root va s = Ok 0 s' ∧
        cow_post s s' L root kroot va new pa.
Proof.
  intros Hu Hk Hd Hva HV HC Epa Hpa HpaL Hr.
  pose proof (pi_alloc _ _ _ Hu) as Hi.
  pose proof (ki_pages _ _ Hi) as Hp. apply Forall_cons in Hp as [Hnew _].
  destruct (cow_copied_spec s new L pa Hi Hpa HpaL Hr) as (_ & Hout & Hin & Href & Ecd).
  destruct (cow_copied_pt s new L pa root Hu Hpa HpaL Hr) as [Au Hu3].
  destruct (cow_copied_pt s new L pa kroot Hk Hpa HpaL Hr) as [Ak Hk3].
  set (s3 := cow_copied new pa s) in *.
  pose proof (disj_pt_frame _ _ _ _ Au Ak Hd) as Hd3.
  assert (0 ≤ PGROUNDDOWN va < MAXVA) as Hva0.
  { pose proof (PGROUNDDOWN_le va). pose proof (PGROUNDDOWN_aligned va).
    unfold PGSIZE in *; Z.div_mod_to_equations; lia. }
  set (v := pte_of (mem s) root va) in *.
  destruct (cow_private_range new v Hnew) as [Hcv Hckv].
  destruct (leaf_update s _ root (PGROUNDDOWN va) 0 Hu Hva0 ltac:(lia)) as (pg & Ew & Hn0 & El & _).
  { by rewrite pte_of_page. }
  rewrite pte_of_page in El. fold v in El. set (pte := pg + 8 * PX 0 (PGROUNDDOWN va)) in *.
  destruct (cow_updates s3 L root kroot (PGROUNDDOWN va) pte (cow_private new v)
    (cow_private_k new v) Hu3 Hk3 Hd3 Hva0 Hcv Hckv)
    as (s5 & E5 & Hu5 & Hk5 & Hd5 & R5 & P5 & K5 & F5).
  { by rewrite pte_of_page, (pte_of_agree _ _ _ _ Au). }
  { rewrite walk_noalloc in Ew |- * by lia.
    rewrite (node_page_agree (mem s)) by (done || apply low_of_ok). congruence. }
  rewrite (PGROUNDDOWN_id (PGROUNDDOWN va)) in P5, K5 by apply PGROUNDDOWN_aligned.
  exists s5. split.
  - rewrite (cow_alloc_run s root kroot sz new L va v pte) by done. rewrite <- Epa.
    by rewrite (mbindM_Ok _ _ _ _ _ Ecd), (mbindM_Ok _ _ _ _ _ E5).
  - split; try done.
    + intros a Ha. by rewrite P5, (pte_of_agree _ _ _ _ Au).
    + intros a Ha. by rewrite K5, pte_of_page, !(pte_of_agree _ _ kroot _ Ak).
    + intros k Hk'. rewrite F5; [by apply Hin|]. intros p Hpp Hx.
      assert (page_ok p ∧ p ≠ new) as [[Ha _] Hne].
      { rewrite (pt_page_agree _ _ root p Au), (pt_page_agree _ _ kroot p Ak) in Hpp.
        destruct Hpp as [Hpp|Hpp].
        - split; [by apply (wf_pages _ _ (pi_wf _ _ _ Hu))|].
          intros ->. apply (pi_free _ _ _ Hu new Hpp). left.
        - split; [by apply (wf_pages _ _ (pi_wf _ _ _ Hk))|].
          intros ->. apply (pi_free _ _ _ Hk new Hpp). left. }
      destruct Hnew as [Hna _]. apply (pages_disjoint p new (new + k)); done || lia.
    + intros x Hx Hx'. rewrite F5; [by apply Hout|]. intros p Hpp. apply Hx'.
      rewrite (pt_page_agree _ _ root p Au), (pt_page_agree _ _ kroot p Ak) in Hpp. done.
    + intros q Hq. rewrite R5. by apply Href.
Qed.

Lemma cow_alloc_oom s root p va :
  kalloc_inv s [] → 0 ≤ va < MAXVA → pt_inv s [] root →
  has (pte_of (mem s) root va) PTE_V = true → has (pte_of (mem s) root va) PTE_COW = true →
  cow_alloc p root va s = Ok (-1) s.
Proof.
  intros Hi Hva Hu HV HC.
  assert (0 ≤ PGROUNDDOWN va < MAXVA) as Hva0.
  { pose proof (PGROUNDDOWN_le va). pose proof (PGROUNDDOWN_aligned va).
    unfold PGSIZE in *; Z.div_mod_to_equations; lia. }
  destruct (leaf_update s _ root (PGROUNDDOWN va) 0 Hu Hva0 ltac:(lia)) as (pg & Ew & Hn0 & El & _).
  { by rewrite pte_of_page. }
  rewrite pte_of_page in El. unfold cow_alloc. destruct (Z.leb_spec MAXVA va); [lia|].
  rewrite (mbindM_Ok _ _ _ _ _ Ew). case_if; [done|].
  unfold read_pte at 1. unfold mbindM at 1, gets at 1. rewrite El, HV, HC. cbn [negb].
  by rewrite (mbindM_Ok _ _ _ _ _ (kalloc_empty s Hi)).
Qed.

(** ** [uvmcopy] *)

(** The three tables a fork works on. *)
Record tables (s : kst) (L : list Z) (o n k : Z) : Prop := {
  t_o : pt_inv s L o; t_n : pt_inv s L n; t_k : pt_inv s L k;
  t_on : disj_pt (mem s) o n; t_ok : disj_pt (mem s) o k; t_nk : disj_pt (mem s) n k }.

(** Swapping the roles of the tables. *)
Lemma tables_rot s L o n k : tables s L o n k → tables s L n k o.
Proof. intros [????? ?]. split; eauto using disj_pt_sym. Qed.

(** Growth of the first table keeps the other two and their entries. *)
Lemma tables_grow s s' L L' used o n k :
  tables s L o n k → grow o s s' L L' used →
  tables s' L' o n k ∧
  (∀ p, pt_page (mem s') n p ↔ pt_page (mem s) n p) ∧
  (∀ p, pt_page (mem s') k p ↔ pt_page (mem s) k p) ∧
  (∀ va, pte_of (mem s') n va = pte_of (mem s) n va) ∧
  (∀ va, pte_of (mem s') k va = pte_of (mem s) k va).
Proof.
  intros [Ho Hn Hk Hon Hok Hnk] G.
  destruct (grow_other o n s s' L L' used Ho Hn Hon G) as (An & Hn' & Hon').
  destruct (grow_other o k s s' L L' used Ho Hk Hok G) as (Ak & Hk' & Hok').
  split_and!.
  - split; [by apply (grow_pt_inv o s s' L L' used)|done|done|done|done|].
    by apply (disj_pt_frame (mem s)).
  - intros p. by apply pt_page_agree.
  - intros p. by apply pt_page_agree.
  - intros va. by apply pte_of_agree.
  - intros va. by apply pte_of_agree.
Qed.

(** Flags of a shared page: writable becomes copy-on-write. *)
Definition cow_flags (fl : Z) : Z :=
  if has fl PTE_W then Z.land (Z.lor fl PTE_COW) (Z.lnot PTE_W) else fl.
(** Entry of the parent and of the child after the fork. *)
Definition parent_pte (v : Z) : Z :=
  if has (PTE_FLAGS v) PTE_W && negb (has v PTE_COW)
  then mk_pte (PTE2PA v) (cow_flags (PTE_FLAGS v)) else v.
Definition child_pte (v : Z) : Z := mk_pte (PTE2PA v) (Z.lor (cow_flags (PTE_FLAGS v)) PTE_U).

(** A step that keeps every byte outside the three tables' pages and the free
    pages [used] it consumes, and raises the counts of the frames satisfying
    [F] by one. *)
Record fork_frame (s s' : kst) (L L' used : list Z) (o n k : Z) (F : Z → Prop) : Prop := {
  ff_split : L = used ++ L';
  ff_pages : ∀ r p, r = o ∨ r = n ∨ r = k → pt_page (mem s') r p →
    pt_page (mem s) r p ∨ p ∈ used;
  ff_mem : ∀ x, (∀ r p, r = o ∨ r = n ∨ r = k → pt_page (mem s) r p → ¬ (p ≤ x < p + PGSIZE)) →
    (∀ p, p ∈ used → ¬ (p ≤ x < p + PGSIZE)) → mem s' x = mem s x;
  ff_ref : ∀ q, page_ok q → q ∉ used →
    (F q → ref_count s' (pa2index q) = ref_count s (pa2index q) + 1) ∧
    (¬ F q → ref_count s' (pa2index q) = ref_count s (pa2index q)) }.

Definition nobody (q : Z) : Prop := False.

Lemma ff_refl s L o n k : fork_frame s s L L [] o n k nobody.
Proof. split; try done. by left. Qed.

Lemma ff_grow s s' L L' used o n k r :
  tables s L o n k → r = o ∨ r = n ∨ r = k → grow r s s' L L' used →
  fork_frame s s' L L' used o n k nobody ∧ tables s' L' o n k.
Proof.
  intros Ht Hr G.
  assert (tables s' L' o n k ∧ ∀ r' p, r' = o ∨ r' = n ∨ r' = k → pt_page (mem s') r' p →
    pt_page (mem s) r' p ∨ p ∈ used) as [Ht' Hp].
  { pose proof (g_pages _ _ _ _ _ _ G) as Hg. destruct Hr as [->|[->| ->]].
    - destruct (tables_grow _ _ _ _ _ _ _ _ Ht G) as (Ht' & E1 & E2 & _).
      split; [done|]. intros r' p [->|[->| ->]]; [apply Hg|rewrite E1|rewrite E2]; by auto.
    - apply tables_rot in Ht. destruct (tables_grow _ _ _ _ _ _ _ _ Ht G) as (Ht' & E1 & E2 & _).
      split; [by apply tables_rot, tables_rot|].
      intros r' p [->|[->| ->]]; [rewrite E2|apply Hg|rewrite E1]; by auto.
    - apply tables_rot, tables_rot in Ht.
      destruct (tables_grow _ _ _ _ _ _ _ _ Ht G) as (Ht' & E1 & E2 & _).
      split; [by apply tables_rot|].
      intros r' p [->|[->| ->]]; [rewrite E1|rewrite E2|apply Hg]; by auto. }
  split; [|done]. split; [apply G|done| |].
  - intros x H1 H2. apply (g_frame _ _ _ _ _ _ G). intros p [Hpp|Hpp]; [by apply (H1 r)|by apply H2].
  - intros q Hq Hu. split; [done|]. intros _. by apply (g_ref _ _ _ _ _ _ G).
Qed.

Lemma ff_trans s s1 s2 L L1 L2 u1 u2 o n k (F1 F2 : Z → Prop) :
  fork_frame s s1 L L1 u1 o n k F1 → fork_frame s1 s2 L1 L2 u2 o n k F2 →
  (∀ q, F1 q → F2 q → False) →
  (∀ q, F1 q ∨ ¬ F1 q) →
  fork_frame s s2 L L2 (u1 ++ u2) o n k (λ q, F1 q ∨ F2 q).
Proof.
  intros [S1 P1 M1 R1] [S2 P2 M2 R2] Hd Hdec. split.
  - by rewrite S1, S2, app_assoc.
  - intros r p Hr Hp. apply P2 in Hp as [Hp|Hp]; [|set_solver|done].
    apply P1 in Hp as [Hp|Hp]; [by left|set_solver|done].
  - intros x Hx Hu. rewrite M2, M1; [done|done|set_solver| |set_solver].
    intros r p Hr Hp. apply P1 in Hp as [Hp|Hp]; [by apply (Hx r)|apply Hu; set_solver|done].
  - intros q Hq Hu. destruct (R1 q Hq ltac:(set_solver)) as [A1 B1].
    destruct (R2 q Hq ltac:(set_solver)) as [A2 B2]. split.
    + intros [HF|HF].
      * rewrite B2 by (intros ?; by apply (Hd q)). by apply A1.
      * rewrite A2, B1; [done| |done]. intros ?; by apply (Hd q).
    + intros HF. rewrite B2, B1; [done|tauto|tauto].
Qed.

Lemma ff_iff s s' L L' u o n k (F G : Z → Prop) :
  (∀ q, F q ↔ G q) → fork_frame s s' L L' u o n k F → fork_frame s s' L L' u o n k G.
Proof.
  intros HFG [S P M R]. split; try done. intros q Hq Hu. rewrite <- HFG. by apply R.
Qed.

(** A shared frame: managed, in use, no page of any table, count not at its
    maximum. *)
Definition fork_page (s : kst) (L : list Z) (o n k pa : Z) : Prop :=
  page_ok pa ∧ pa ∉ L ∧ (∀ r, r = o ∨ r = n ∨ r = k → ¬ pt_page (mem s) r pa) ∧
  0 ≤ ref_count s (pa2index pa) < 2 ^ 31 - 1.

Lemma fork_page_frame s s' L L' u o n k F pa :
  fork_frame s s' L L' u o n k F → ¬ F pa → fork_page s L o n k pa → fork_page s' L' o n k pa.
Proof.
  intros [S P M R] HF (Hok & HL & Hp & Hr).
  assert (pa ∉ u ∧ pa ∉ L') as [Hu HL'] by set_solver.
  split; [done|split; [done|split]].
  - intros r Hr' [Hpp|Hpp]%P; [by apply (Hp r)|done|done].
  - destruct (R pa Hok Hu) as [_ ->]; done.
Qed.

Lemma ff_incref s L o n k pa :
  tables s L o n k → fork_page s L o n k pa →
  ∃ s', incref pa s = Ok tt s' ∧ mem s' = mem s ∧ tables s' L o n k ∧
    fork_frame s s' L L [] o n k (λ q, q = pa).
Proof.
  intros [Ho Hn Hk ???] (Hok & HL & Hp & Hr). rewrite incref_spec by done.
  eexists. split; [done|]. split; [done|].
  assert (kalloc_inv (set_ref (pa2index pa) (ref_count s (pa2index pa) + 1) s) L) as Hi
    by (apply kalloc_inv_set_ref; [apply Ho|done|done|lia]).
  split.
  - split; try done; (split; [done|by apply Ho || by apply Hn || by apply Hk|]);
      [apply Ho|apply Hn|apply Hk].
  - split; try done; [by left|]. intros q Hq _. simpl. split.
    + intros ->. by rewrite upd_eq.
    + intros Hne. rewrite upd_ne; [done|]. by intros ?%pa2index_inj.
Qed.

Lemma cow_flags_small fl : 0 ≤ fl < 2 ^ 10 → 0 ≤ cow_flags fl < 2 ^ 10.
Proof.
  intros Hf. unfold cow_flags. case_if; [|done].
  apply flags_small, lor_small; [lia|done|unfold PTE_COW; lia].
Qed.

Lemma child_perm_range v : 0 ≤ Z.lor (cow_flags (PTE_FLAGS v)) PTE_U < 2 ^ 10.
Proof.
  apply lor_small; [lia|apply cow_flags_small, PTE_FLAGS_range|unfold PTE_U; lia].
Qed.

(** Entries of the three tables after sharing the pages of
    [a, a + m * PGSIZE). *)
Record shared_ptes (s s' : kst) (o n k a m : Z) : Prop := {
  sp_o : ∀ va, 0 ≤ va < MAXVA → pte_of (mem s') o va =
    if in_range a (m * PGSIZE) va && has (pte_of (mem s) o va) PTE_V
    then parent_pte (pte_of (mem s) o va) else pte_of (mem s) o va;
  sp_n : ∀ va, 0 ≤ va < MAXVA → pte_of (mem s') n va =
    if in_range a (m * PGSIZE) va && has (pte_of (mem s) o va) PTE_V
    then child_pte (pte_of (mem s) o va) else pte_of (mem s) n va;
  sp_k : ∀ va, 0 ≤ va < MAXVA → pte_of (mem s') k va =
    if in_range a (m * PGSIZE) va && has (pte_of (mem s) o va) PTE_V
    then child_pte (pte_of (mem s) o va) else pte_of (mem s) k va }.

(** One page of the parent mapped into one of the child's tables. *)
Lemma share_map s L o n k r a v :
  tables s L o n k → r = n ∨ r = k → a mod PGSIZE = 0 → 0 ≤ a < MAXVA →
  page_ok (PTE2PA v) → has (pte_of (mem s) r a) PTE_V = false →
  ∃ c s' L' u,
    mappages r a PGSIZE (PTE2PA v) (Z.lor (cow_flags (PTE_FLAGS v)) PTE_U) s = Ok c s' ∧
    tables s' L' o n k ∧ fork_frame s s' L L' u o n k nobody ∧
    (c = 0 ∨ c = -1 ∧ L' = []) ∧
    (∀ r' va, r' = o ∨ r' = n ∨ r' = k → 0 ≤ va < MAXVA → pte_of (mem s') r' va =
       if (r' =? r) && (c =? 0) && (PGROUNDDOWN va =? a) then child_pte v
       else pte_of (mem s) r' va).
Proof.
  intros Ht Hr Ha Hmax Hpa Hinv. pose proof (page_ok_small _ Hpa) as Hps.
  assert (pt_inv s L r) as Hpi by (destruct Hr as [->| ->]; apply Ht).
  destruct (mappages_page s L r a (PTE2PA v) (Z.lor (cow_flags (PTE_FLAGS v)) PTE_U))
    as (c & s' & L' & u & E & G & Hc & P); [done..|apply Hpa|done|apply child_perm_range|done|].
  assert (r = o ∨ r = n ∨ r = k) as Hr3 by tauto.
  destruct (ff_grow s s' L L' u o n k r Ht Hr3 G) as [Hff Ht'].
  exists c, s', L', u. split_and!; try done. intros r' va Hr' Hva.
  destruct (Z.eqb_spec r' r) as [->|Hne]; [simpl; by rewrite P|]. simpl.
  assert (∀ q, q ≠ r → q = o ∨ q = n ∨ q = k → ∀ x, pte_of (mem s') q x = pte_of (mem s) q x) as Hoth.
  { intros q Hq Hq3 x. assert (pt_inv s L q ∧ disj_pt (mem s) r q) as [Hqi Hqd].
    { destruct Ht, Hr as [->| ->], Hq3 as [->|[->| ->]]; try done;
        split; eauto using disj_pt_sym. }
    destruct (grow_other r q s s' L L' u Hpi Hqi Hqd G) as (Ag & _). by apply pte_of_agree. }
  by apply Hoth.
Qed.

(** Marking the parent's entry. *)
Lemma share_mark s L o n k a :
  tables s L o n k → o ≠ n → o ≠ k → a mod PGSIZE = 0 → 0 ≤ a < MAXVA →
  let v := pte_of (mem s) o a in
  has v PTE_V = true → page_ok (PTE2PA v) →
  ∃ pte s', walk o a false s = Ok pte s ∧ pte ≠ 0 ∧ load64 (mem s) pte = v ∧
    whenM (has (PTE_FLAGS v) PTE_W && negb (has v PTE_COW))
      (write_pte pte (mk_pte (PTE2PA v) (Z.land (Z.lor (PTE_FLAGS v) PTE_COW) (Z.lnot PTE_W)))) s
      = Ok tt s' ∧
    tables s' L o n k ∧ fork_frame s s' L L [] o n k nobody ∧
    (∀ r va, r = o ∨ r = n ∨ r = k → 0 ≤ va < MAXVA → pte_of (mem s') r va =
       if (r =? o) && (PGROUNDDOWN va =? a) then parent_pte v else pte_of (mem s) r va).
Proof.
  intros Ht Hon Hok Ha Hmax v HV Hpa. pose proof (page_ok_small _ Hpa) as Hps.
  pose proof (PTE_FLAGS_range v) as Hfr.
  set (w := mk_pte (PTE2PA v) (Z.land (Z.lor (PTE_FLAGS v) PTE_COW) (Z.lnot PTE_W))).
  assert (0 ≤ w < 2 ^ 64) as Hw.
  { apply mk_pte_range, flags_small, lor_small; [lia|done|unfold PTE_COW; lia]. }
  destruct (leaf_update s L o a w (t_o _ _ _ _ _ Ht) Hmax Hw HV) as (pg & Ew & Hn0 & El & G & P).
  exists (pg + 8 * PX 0 a). rewrite (PGROUNDDOWN_id a) in P by done.
  unfold whenM. destruct (has (PTE_FLAGS v) PTE_W) eqn:EW; cbn [andb];
    [destruct (has v PTE_COW) eqn:EC; cbn [negb]|].
  2:{ eexists. split_and!; [done|done|done|done|..].
    - by destruct (ff_grow _ _ _ _ _ _ _ _ o Ht ltac:(by left) G).
    - by destruct (ff_grow _ _ _ _ _ _ _ _ o Ht ltac:(by left) G).
    - intros r va Hr Hva.
      destruct (tables_grow _ _ _ _ _ _ _ _ Ht G) as (_ & _ & _ & En & Ek).
      destruct Hr as [->|[->| ->]].
      + rewrite Z.eqb_refl. cbn [andb]. rewrite P by done.
        unfold parent_pte, cow_flags. by rewrite EW, EC.
      + destruct (Z.eqb_spec n o); [congruence|]. apply En.
      + destruct (Z.eqb_spec k o); [congruence|]. apply Ek. }
  all: exists s; split_and!; [done|done|done|done|done|apply ff_refl|].
  all: intros r va Hr Hva; case_if; [|done]; subst r.
  all: unfold parent_pte; rewrite EW; cbn [andb]; try rewrite EC; cbn [negb].
  all: rewrite <- (pte_of_page _ _ va); by f_equal.
Qed.

Lemma tables_ne s L o n k : tables s L o n k → o ≠ n ∧ o ≠ k ∧ n ≠ k.
Proof.
  intros [_ _ _ H1 H2 H3].
  split_and!; intros E; [apply (H1 o)|apply (H2 o)|apply (H3 n)]; exists Root; split; try done;
    simpl; congruence.
Qed.

Lemma uvmcopy_page_hit s L o n k a :
  tables s L o n k → a mod PGSIZE = 0 → 0 ≤ a < MAXVA →
  let v := pte_of (mem s) o a in
  has v PTE_V = true → fork_page s L o n k (PTE2PA v) →
  has (pte_of (mem s) n a) PTE_V = false → has (pte_of (mem s) k a) PTE_V = false →
  ∃ ok s' L' u, uvmcopy_page o n k a s = Ok ok s' ∧ tables s' L' o n k ∧
    (ok = false → L' = []) ∧
    (ok = true → fork_frame s s' L L' u o n k (λ q, q = PTE2PA v) ∧ shared_ptes s s' o n k a 1).
Proof.
  intros Ht Ha Hmax v HV Hfp Hn Hk. destruct (tables_ne _ _ _ _ _ Ht) as (Non & Nok & Nnk).
  destruct (share_mark s L o n k a Ht Non Nok Ha Hmax HV) as
    (pte & s1 & Ew & Hne & El & E1 & Ht1 & F1 & P1); [apply Hfp|]. fold v in El, E1, P1.
  destruct (share_map s1 L o n k n a v Ht1) as (c & s2 & L2 & u2 & E2 & Ht2 & F2 & C2 & P2);
    [by left|done|done|apply Hfp| |].
  { rewrite P1 by auto. by destruct (Z.eqb_spec n o); [congruence|]. }
  unfold uvmcopy_page. rewrite (mbindM_Ok _ _ _ _ _ Ew). destruct (Z.eqb_spec pte 0); [done|].
  unfold read_pte at 1. unfold mbindM at 1, gets at 1. rewrite El, HV. cbn [negb].
  rewrite (mbindM_Ok _ _ _ _ _ E1). fold (cow_flags (PTE_FLAGS v)).
  rewrite (mbindM_Ok _ _ _ _ _ E2).
  destruct C2 as [->|[-> ->]].
  2:{ exists false, s2, [], u2. by split_and!. }
  cbn [Z.eqb negb].
  destruct (share_map s2 L2 o n k k a v Ht2) as (c & s3 & L3 & u3 & E3 & Ht3 & F3 & C3 & P3);
    [by right|done|done|apply Hfp| |].
  { rewrite P2, P1 by auto. destruct (Z.eqb_spec k n); [congruence|].
    by destruct (Z.eqb_spec k o); [congruence|]. }
  rewrite (mbindM_Ok _ _ _ _ _ E3). destruct C3 as [->|[-> ->]].
  2:{ exists false, s3, [], u3. by split_and!. }
  cbn [Z.eqb negb].
  pose proof (ff_trans _ _ _ _ _ _ _ _ _ _ _ _ _ F1 F2 (λ _ x _, x)
    ltac:(unfold nobody; intros; tauto)) as F12.
  pose proof (ff_trans _ _ _ _ _ _ _ _ _ _ _ _ _ F12 F3
    ltac:(unfold nobody; intros; tauto) ltac:(unfold nobody; intros; tauto)) as F13.
  destruct (ff_incref s3 L3 o n k (PTE2PA v) Ht3) as (s4 & E4 & M4 & Ht4 & F4).
  { by apply (fork_page_frame _ _ _ _ _ _ _ _ _ _ F13); [unfold nobody; tauto|]. }
  rewrite (mbindM_Ok _ _ _ _ _ E4). exists true, s4, L3, ((([] ++ u2) ++ u3) ++ []).
  split; [done|]. split; [done|]. split; [done|]. intros _. split.
  - eapply ff_iff; [|apply (ff_trans _ _ _ _ _ _ _ _ _ _ _ _ _ F13 F4)]; unfold nobody; try tauto.
  - assert (∀ va, in_range a (1 * PGSIZE) va = (PGROUNDDOWN va =? a)) as Erg.
    { intros va. apply eq_bool_prop_intro. rewrite !Is_true_true, in_range_true, Z.eqb_eq.
      rewrite page_of_first by done. by rewrite Z.mul_1_l. }
    assert (((o =? k) = false ∧ (o =? n) = false ∧ (n =? k) = false) ∧
            ((n =? o) = false ∧ (k =? o) = false ∧ (k =? n) = false))
      as ((N1 & N2 & N3) & N4 & N5 & N6) by (split_and!; apply Z.eqb_neq; congruence).
    split; intros va Hva; rewrite M4, Erg, P3, P2, P1 by auto;
      rewrite ?Z.eqb_refl, ?N1, ?N2, ?N3, ?N4, ?N5, ?N6; cbn [andb];
      (destruct (Z.eqb_spec (PGROUNDDOWN va) a) as [Eva|]; [|done]);
      rewrite <- (pte_of_page (mem s) o va), Eva; fold v; by rewrite HV.
Qed.

(** One iteration of the loop, also over a hole of the lazily allocated space. *)
Lemma uvmcopy_page_spec s L o n k a :
  tables s L o n k → a mod PGSIZE = 0 → 0 ≤ a < MAXVA →
  (∀ q, mapped_in (mem s) o a 1 q → fork_page s L o n k q) →
  has (pte_of (mem s) n a) PTE_V = false → has (pte_of (mem s) k a) PTE_V = false →
  ∃ ok s' L' u, uvmcopy_page o n k a s = Ok ok s' ∧ tables s' L' o n k ∧
    (ok = false → L' = []) ∧
    (ok = true → fork_frame s s' L L' u o n k (mapped_in (mem s) o a 1) ∧
       shared_ptes s s' o n k a 1).
Proof.
  intros Ht Ha Hmax Hfp Hn Hk.
  assert (∀ q, mapped_in (mem s) o a 1 q ↔
    has (pte_of (mem s) o a) PTE_V = true ∧ q = PTE2PA (pte_of (mem s) o a)) as Hm.
  { intros q. rewrite (mapped_in_S (mem s) (mem s) o a 0 q Ha) by done.
    split; [intros [[]|[]%mapped_in_0]; done|intros [? ->]; by left]. }
  destruct (has (pte_of (mem s) o a) PTE_V) eqn:HV.
  - destruct (uvmcopy_page_hit s L o n k a Ht Ha Hmax HV) as (ok & s' & L' & u & E & Ht' & Hf & Hs);
      [by apply Hfp, Hm|done|done|].
    exists ok, s', L', u. split_and!; try done. intros Hok. destruct (Hs Hok) as [F P].
    split; [|done].
    eapply ff_iff; [|exact F]. intros q. rewrite Hm. tauto.
  - destruct (walk_invalid s o a ltac:(lia) HV) as (pte & Ew & Hp).
    exists true, s, L, []. split; [|split; [done|split; [done|]]].
    { unfold uvmcopy_page. rewrite (mbindM_Ok _ _ _ _ _ Ew).
      destruct (Z.eqb_spec pte 0); [done|]. destruct Hp as [|Hp]; [done|].
      unfold read_pte, mbindM, gets. by rewrite Hp, HV. }
    intros _. split; [apply (ff_iff _ _ _ _ _ _ _ _ nobody), ff_refl; intros q; rewrite Hm;
      split; [done|by intros [? _]]|].
    assert (∀ va, in_range a (1 * PGSIZE) va && has (pte_of (mem s) o va) PTE_V = false) as Hz.
    { intros va. destruct (in_range a (1 * PGSIZE) va) eqn:Er; [|done].
      apply in_range_true in Er. rewrite Z.mul_1_l in Er. apply page_of_first in Er; [|done].
      by rewrite <- pte_of_page, Er, HV. }
    split; intros va Hva; by rewrite Hz.
Qed.

(** Requirements of a fork of the pages [a, a + m * PGSIZE). *)
Record fork_pre (s : kst) (L : list Z) (o n k a m : Z) : Prop := {
  fp_tables : tables s L o n k;
  fp_frames : ∀ q, mapped_in (mem s) o a m q → fork_page s L o n k q;
  fp_inj : ∀ va va', a ≤ va < a + m * PGSIZE → a ≤ va' < a + m * PGSIZE →
    has (pte_of (mem s) o va) PTE_V = true → has (pte_of (mem s) o va') PTE_V = true →
    PTE2PA (pte_of (mem s) o va) = PTE2PA (pte_of (mem s) o va') → PGROUNDDOWN va = PGROUNDDOWN va';
  fp_new : ∀ va, a ≤ va < a + m * PGSIZE →
    has (pte_of (mem s) n va) PTE_V = false ∧ has (pte_of (mem s) k va) PTE_V = false }.

(** What a successful fork of these pages establishes. *)
Record forked (s s' : kst) (L L' used : list Z) (o n k a m : Z) : Prop := {
  fk_tables : tables s' L' o n k;
  fk_frame : fork_frame s s' L L' used o n k (mapped_in (mem s) o a m);
  fk_ptes : shared_ptes s s' o n k a m }.

Lemma uvmcopy_loop_S f o n k i sz s :
  uvmcopy_loop (S f) o n k i sz s =
  (if i <? sz then
     ok <-- uvmcopy_page o n k i ;;
     if (ok : bool) then uvmcopy_loop f o n k (u64 (i + PGSIZE)) sz else mretM false
   else mretM true) s.
Proof. reflexivity. Qed.

Lemma mapped_in_dec m o a q :
  a mod PGSIZE = 0 → mapped_in m o a 1 q ∨ ¬ mapped_in m o a 1 q.
Proof.
  intros Ha. rewrite (mapped_in_S m m o a 0 q Ha) by done.
  destruct (decide (has (pte_of m o a) PTE_V = true ∧ PTE2PA (pte_of m o a) = q)) as [|Hn];
    [left; by left|right]. intros [?|[]%mapped_in_0]. done.
Qed.

(** Entries of the pages still to come are as they were. *)
Lemma shared_later s s' o n k a m va :
  shared_ptes s s' o n k a 1 → a mod PGSIZE = 0 → 0 ≤ a → a + PGSIZE ≤ va → va < MAXVA →
  0 ≤ m →
  pte_of (mem s') o va = pte_of (mem s) o va ∧ pte_of (mem s') n va = pte_of (mem s) n va ∧
  pte_of (mem s') k va = pte_of (mem s) k va.
Proof.
  intros [P1 P2 P3] Ha Ha0 Hva Hmax _.
  assert (in_range a (1 * PGSIZE) va = false) as Hr by (apply in_range_false; lia).
  unfold PGSIZE in *. rewrite P1, P2, P3 by lia. by rewrite Hr.
Qed.

Lemma in_range_cons a m va :
  0 ≤ m → in_range a ((m + 1) * PGSIZE) va =
    in_range a (1 * PGSIZE) va || in_range (a + PGSIZE) (m * PGSIZE) va.
Proof.
  intros Hm. unfold in_range, PGSIZE.
  destruct (Z.leb_spec a va), (Z.ltb_spec va (a + (m + 1) * 4096)),
    (Z.ltb_spec va (a + 1 * 4096)), (Z.leb_spec (a + 4096) va),
    (Z.ltb_spec va (a + 4096 + m * 4096)); simpl; lia.
Qed.

Lemma shared_cons s s1 s2 o n k a m :
  shared_ptes s s1 o n k a 1 → shared_ptes s1 s2 o n k (a + PGSIZE) m →
  a mod PGSIZE = 0 → 0 ≤ a → 0 ≤ m → shared_ptes s s2 o n k a (m + 1).
Proof.
  intros H1 H2 Ha Ha0 Hm. pose proof H1 as [P1 P2 P3]. destruct H2 as [Q1 Q2 Q3].
  assert (∀ va, in_range (a + PGSIZE) (m * PGSIZE) va = true →
    in_range a (1 * PGSIZE) va = false ∧ a + PGSIZE ≤ va) as Hex.
  { intros va Hr. apply in_range_true in Hr. rewrite in_range_false. unfold PGSIZE in *. lia. }
  split; intros va Hva; rewrite ?Q1, ?Q2, ?Q3 by done; rewrite in_range_cons by done;
    (destruct (in_range (a + PGSIZE) (m * PGSIZE) va) eqn:E2;
     [destruct (Hex va E2) as [-> Hge];
      destruct (shared_later s s1 o n k a m va) as (Eo & En & Ek); [done..|lia|done|];
      by rewrite ?Eo, ?En, ?Ek
     |rewrite orb_false_r; by rewrite ?P1, ?P2, ?P3]).
Qed.

Lemma fork_pre_step s s1 L L1 u o n k a m :
  fork_pre s L o n k a (m + 1) → a mod PGSIZE = 0 → 0 ≤ a → 0 ≤ m →
  a + (m + 1) * PGSIZE ≤ MAXVA → forked s s1 L L1 u o n k a 1 →
  fork_pre s1 L1 o n k (a + PGSIZE) m ∧
  (∀ q, mapped_in (mem s) o a 1 q → mapped_in (mem s1) o (a + PGSIZE) m q → False).
Proof.
  intros [Ht Hf Hj Hn] Ha Ha0 Hm Hmax [Ht1 F1 P1].
  assert (∀ va, a + PGSIZE ≤ va < a + PGSIZE + m * PGSIZE →
    pte_of (mem s1) o va = pte_of (mem s) o va ∧ pte_of (mem s1) n va = pte_of (mem s) n va ∧
    pte_of (mem s1) k va = pte_of (mem s) k va) as Hl.
  { intros va Hva. apply (shared_later s s1 o n k a m); try done; unfold PGSIZE in *; lia. }
  assert (∀ q, mapped_in (mem s) o a 1 q → mapped_in (mem s1) o (a + PGSIZE) m q → False) as Hd.
  { intros q (va & Hva & HV & E) (va' & Hva' & HV' & E'). destruct (Hl va' Hva') as (Eo & _).
    rewrite Eo in HV', E'. assert (PGROUNDDOWN va = PGROUNDDOWN va') as Ep.
    { apply Hj; try done; unfold PGSIZE in *; lia || congruence. }
    rewrite Z.mul_1_l in Hva. apply page_of_first in Hva; [|done]. rewrite Hva in Ep. symmetry in Ep.
    apply page_of_first in Ep; [lia|done]. }
  split; [|done]. split; [done|..].
  - intros q Hq. apply (fork_page_frame _ _ _ _ _ _ _ _ _ _ F1); [intros ?; by apply (Hd q)|].
    apply Hf. rewrite (mapped_in_S (mem s) (mem s1) o a m) by (done || intros; by apply Hl).
    by right.
  - intros va va' Hva Hva'. destruct (Hl va Hva) as (-> & _), (Hl va' Hva') as (-> & _).
    apply Hj; unfold PGSIZE in *; lia.
  - intros va Hva. destruct (Hl va Hva) as (_ & -> & ->). apply Hn. unfold PGSIZE in *; lia.
Qed.

Lemma uvmcopy_loop_spec (m : nat) s L o n k a sz :
  fork_pre s L o n k a (Z.of_nat m) → a mod PGSIZE = 0 → 0 ≤ a →
  a + Z.of_nat m * PGSIZE ≤ MAXVA →
  a + Z.of_nat m * PGSIZE - PGSIZE < sz ≤ a + Z.of_nat m * PGSIZE →
  ∃ ok s' L' u, uvmcopy_loop (S m) o n k a sz s = Ok ok s' ∧ tables s' L' o n k ∧
    (ok = false → L' = []) ∧ (ok = true → forked s s' L L' u o n k a (Z.of_nat m)).
Proof.
  revert s L a. induction m as [|m IH]; intros s L a Hpre Ha Ha0 Hmax Hsz.
  { exists true, s, L, []. rewrite uvmcopy_loop_S. destruct (Z.ltb_spec a sz); [lia|].
    split; [done|]. split; [apply Hpre|]. split; [done|]. intros _. split; [apply Hpre|..].
    - apply (ff_iff _ _ _ _ _ _ _ _ nobody), ff_refl. intros q.
      split; [intros []|apply mapped_in_0].
    - split; intros va Hva;
        (replace (in_range _ _ va) with false; [done|symmetry; apply in_range_false; lia]). }
  rewrite Nat2Z.inj_succ, <- Z.add_1_r in *.
  assert (a + PGSIZE + Z.of_nat m * PGSIZE = a + (Z.of_nat m + 1) * PGSIZE) as Eb
    by (unfold PGSIZE; lia).
  rewrite uvmcopy_loop_S. destruct (Z.ltb_spec a sz); [|unfold PGSIZE in *; lia].
  destruct (uvmcopy_page_spec s L o n k a) as (ok & s1 & L1 & u1 & E1 & Ht1 & Hf1 & Hs1);
    [apply Hpre|done|unfold PGSIZE in *; lia| | | |].
  { intros q Hq. apply (fp_frames _ _ _ _ _ _ _ Hpre).
    apply (mapped_in_S (mem s) (mem s) o a 0) in Hq; [|done..].
    apply (mapped_in_S (mem s) (mem s)); [done|lia|done|].
    destruct Hq as [?|[]%mapped_in_0]. by left. }
  { apply (fp_new _ _ _ _ _ _ _ Hpre). unfold PGSIZE; lia. }
  { apply (fp_new _ _ _ _ _ _ _ Hpre). unfold PGSIZE; lia. }
  rewrite (mbindM_Ok _ _ _ _ _ E1). destruct ok.
  2:{ exists false, s1, L1, u1. by split_and!. }
  destruct (Hs1 eq_refl) as [F1 P1].
  destruct (fork_pre_step s s1 L L1 u1 o n k a (Z.of_nat m) Hpre Ha Ha0 ltac:(lia) Hmax
    ltac:(by split)) as [Hpre1 Hd].
  destruct (IH s1 L1 (a + PGSIZE)) as (ok & s2 & L2 & u2 & E2 & Ht2 & Hf2 & Hs2);
    [done|unfold PGSIZE in *; by rewrite Zplus_mod, Ha|unfold PGSIZE; lia|lia|lia|].
  rewrite u64_small by (unfold PGSIZE, MAXVA in *; lia).
  exists ok, s2, L2, (u1 ++ u2). split_and!; try done. intros ->.
  destruct (Hs2 eq_refl) as [_ F2 P2]. split; [done|..].
  - eapply ff_iff; [|apply (ff_trans _ _ _ _ _ _ _ _ _ _ _ _ _ F1 F2 Hd)].
    + intros q. cbn beta. rewrite (mapped_in_S (mem s) (mem s1) o a (Z.of_nat m) q Ha).
      * rewrite (mapped_in_S (mem s) (mem s) o a 0 q Ha) by done.
        split; [intros [[?|[]%mapped_in_0]|?]; auto|intros [?|?]; auto].
      * lia.
      * intros va Hva. apply (shared_later s s1 o n k a (Z.of_nat m)); done || lia.
    + intros q. by apply mapped_in_dec.
  - apply (shared_cons s s1); done || lia.
Qed.

Lemma uvmcopy_loop_mono f o n k i sz s ok s' :
  uvmcopy_loop f o n k i sz s = Ok ok s' → uvmcopy_loop (S f) o n k i sz s = Ok ok s'.
Proof.
  revert i s. induction f as [|f IH]; intros i s E; [done|].
  rewrite uvmcopy_loop_S in E |- *. destruct (i <? sz); [|done].
  apply mbindM_inv in E as (b & s1 & E1 & E2). rewrite (mbindM_Ok _ _ _ _ _ E1).
  destruct b; [by apply IH|done].
Qed.

(** Entries of parent and child name the same frame, and neither may write. *)
Lemma parent_pte_bits v :
  has v PTE_V = true → page_ok (PTE2PA v) → has v PTE_W && has v PTE_COW = false →
  PTE2PA (parent_pte v) = PTE2PA v ∧ has (parent_pte v) PTE_V = true ∧
  has (parent_pte v) PTE_W = false ∧ has (parent_pte v) PTE_COW = has v PTE_W || has v PTE_COW.
Proof.
  intros HV Hok Hwc. pose proof (page_ok_small _ Hok) as Hs. destruct Hok as [Ha _].
  assert (has (PTE_FLAGS v) PTE_W = has v PTE_W) as EW.
  { rewrite !has_W. unfold PTE_FLAGS. by rewrite Z.land_spec, andb_true_r. }
  unfold parent_pte. rewrite EW. destruct (has v PTE_W) eqn:HW; simpl in *.
  - rewrite Hwc. cbn [negb]. pose proof (cow_flags_small _ (PTE_FLAGS_range v)) as Hf.
    split_and!; [by apply mk_pte_PTE2PA|by apply mk_pte_valid|..].
    + rewrite has_W, mk_pte_testbit_low by (done || lia). unfold cow_flags. rewrite EW.
      rewrite Z.land_spec. change (Z.testbit (Z.lnot PTE_W) 2) with false. by rewrite andb_false_r.
    + rewrite has_COW, mk_pte_testbit_low by (done || lia). unfold cow_flags. rewrite EW.
      rewrite Z.land_spec, Z.lor_spec. by rewrite orb_true_r.
  - by split_and!.
Qed.

Lemma child_pte_bits v :
  page_ok (PTE2PA v) → has v PTE_W && has v PTE_COW = false →
  PTE2PA (child_pte v) = PTE2PA v ∧ has (child_pte v) PTE_V = true ∧
  has (child_pte v) PTE_W = false ∧ has (child_pte v) PTE_COW = has v PTE_W || has v PTE_COW.
Proof.
  intros Hok Hwc. pose proof (page_ok_small _ Hok) as Hs. destruct Hok as [Ha _].
  pose proof (child_perm_range v) as Hf. unfold child_pte.
  assert (∀ i, 0 ≤ i < 10 → Z.testbit (PTE_FLAGS v) i = Z.testbit v i) as Eb.
  { intros i Hi. unfold PTE_FLAGS. rewrite Z.land_spec. change 1023 with (Z.ones 10).
    rewrite Z.ones_spec_low by lia. apply andb_true_r. }
  split_and!; [by apply mk_pte_PTE2PA|by apply mk_pte_valid|..];
    rewrite ?has_W, ?has_COW in *; rewrite mk_pte_testbit_low by (done || lia);
    rewrite Z.lor_spec; unfold cow_flags; rewrite has_W, Eb by lia;
    destruct (Z.testbit v 2) eqn:E2; rewrite ?Z.land_spec, ?Z.lor_spec, ?Eb by lia; rewrite ?E2.
  - change (Z.testbit (Z.lnot PTE_W) 2) with false. by rewrite andb_false_r.
  - done.
  - by rewrite !orb_true_r.
  - by rewrite !orb_false_r.
Qed.

(** The byte a process reads at virtual address [va] through table [root]. *)
Definition user_byte (m : memory) (root va : Z) : Z :=
  load8 m (PTE2PA (pte_of m root va) + va mod PGSIZE).

Lemma frame_byte_kept s s' root kroot new pa va :
  page_ok new → page_ok pa → pa ≠ new →
  (∀ r p, r = root ∨ r = kroot → pt_page (mem s) r p → page_ok p ∧ p ≠ pa) →
  (∀ x, ¬ (new ≤ x < new + PGSIZE) →
    (∀ p, pt_page (mem s) root p ∨ pt_page (mem s) kroot p → ¬ (p ≤ x < p + PGSIZE)) →
    mem s' x = mem s x) →
  mem s' (pa + va mod PGSIZE) = mem s (pa + va mod PGSIZE).
Proof.
  intros Hnew Hpa Hne Hpt Hf.
  pose proof (Z.mod_pos_bound va PGSIZE ltac:(unfold PGSIZE; lia)) as Ho.
  assert (∀ p, page_ok p → p ≠ pa → ¬ (p ≤ pa + va mod PGSIZE < p + PGSIZE)) as Hx.
  { intros p [Hp _] Hpp Hin. destruct Hpa as [Ha _].
    apply (pages_disjoint p pa (pa + va mod PGSIZE)); done || lia. }
  apply Hf; [by apply Hx|]. intros p Hp.
  assert (page_ok p ∧ p ≠ pa) as [? ?] by (destruct Hp; [apply (Hpt root)|apply (Hpt kroot)]; auto).
  by apply Hx.
Qed.

(** ** Properties *)

(** C2: [uvmcopy] on a well-formed parent either shares every mapped page of
    the parent with the child's two tables or runs out of free pages.  When it
    returns 0: each mapped page has the same frame in all three tables, no
    table may write it, a writable page is marked copy-on-write in parent and
    child, each shared frame gains one reference, holes stay holes, and no byte
    outside the tables and the freshly allocated table pages has changed. *)
Theorem uvmcopy_correct s L o n k sz :
  0 ≤ sz ≤ MAXVA → fork_pre s L o n k 0 (PGROUNDUP sz / PGSIZE) →
  (∀ va, 0 ≤ va < PGROUNDUP sz →
     has (pte_of (mem s) o va) PTE_W && has (pte_of (mem s) o va) PTE_COW = false) →
  (∃ s' L' used, uvmcopy o n k sz s = Ok 0 s' ∧
     forked s s' L L' used o n k 0 (PGROUNDUP sz / PGSIZE) ∧
     ∀ va, 0 ≤ va < PGROUNDUP sz → has (pte_of (mem s) o va) PTE_V = true →
       ∀ r, r = o ∨ r = n ∨ r = k →
         PTE2PA (pte_of (mem s') r va) = PTE2PA (pte_of (mem s) o va) ∧
         has (pte_of (mem s') r va) PTE_V = true ∧ has (pte_of (mem s') r va) PTE_W = false ∧
         has (pte_of (mem s') r va) PTE_COW =
           has (pte_of (mem s) o va) PTE_W || has (pte_of (mem s) o va) PTE_COW)
  ∨ (∃ s1, uvmcopy_loop (S (S (Z.to_nat (sz / PGSIZE)))) o n k 0 sz s = Ok false s1 ∧
           kalloc_inv s1 []).
Proof.
  intros Hsz Hpre Hwc. pose proof (PGROUNDUP_bounds sz) as Hup.
  pose proof (PGROUNDUP_aligned sz) as Hal. set (m := Z.to_nat (PGROUNDUP sz / PGSIZE)) in *.
  assert (Z.of_nat m * PGSIZE = PGROUNDUP sz ∧ Z.of_nat m = PGROUNDUP sz / PGSIZE) as [Em Em'].
  { unfold m, MAXVA, PGSIZE in *. Z.div_mod_to_equations; lia. }
  assert (m = Z.to_nat (sz / PGSIZE) ∨ m = S (Z.to_nat (sz / PGSIZE))) as Hm.
  { unfold MAXVA, PGSIZE in *. Z.div_mod_to_equations; lia. }
  rewrite <- Em' in Hpre.
  destruct (uvmcopy_loop_spec m s L o n k 0 sz Hpre) as (ok & s' & L' & u & E & Ht & Hf & Hs);
    [done|done|unfold MAXVA, PGSIZE in *; Z.div_mod_to_equations; lia
    |unfold MAXVA, PGSIZE in *; lia|].
  assert (uvmcopy_loop (S (S (Z.to_nat (sz / PGSIZE)))) o n k 0 sz s = Ok ok s') as E'.
  { destruct Hm as [Hm|Hm]; rewrite <- Hm; [by apply uvmcopy_loop_mono|done]. }
  destruct ok.
  2:{ right. exists s'. rewrite (Hf eq_refl) in Ht. split; [done|apply Ht]. }
  left. specialize (Hs eq_refl). exists s', L', u.
  unfold uvmcopy. rewrite (mbindM_Ok _ _ _ _ _ E'), <- Em'. split; [done|]. split; [done|].
  intros va Hva HV r Hr. destruct Hs as [_ _ [P1 P2 P3]].
  assert (in_range 0 (Z.of_nat m * PGSIZE) va = true) as Ein by (apply in_range_true; lia).
  assert (0 ≤ va < MAXVA) as Hvm
    by (unfold MAXVA, PGSIZE in *; Z.div_mod_to_equations; lia).
  assert (page_ok (PTE2PA (pte_of (mem s) o va))) as Hok.
  { apply (fp_frames _ _ _ _ _ _ _ Hpre). exists va. split; [lia|done]. }
  specialize (Hwc va Hva).
  destruct Hr as [->|[->| ->]]; rewrite ?P1, ?P2, ?P3, Ein, HV by done; cbn [andb];
    [by apply parent_pte_bits|by apply child_pte_bits|by apply child_pte_bits].
Qed.

(** [cow_alloc] on a copy-on-write page returns -1 and changes nothing when
    no page is free; otherwise it returns 0 and maps the page, writable and
    unmarked, to a fresh frame with the same contents in the user table and,
    when present there, in the kernel table; the old frame loses one reference
    and no other entry, count or byte changes. *)
Theorem cow_alloc_correct s L root kroot sz va :
  pt_inv s L root → pt_inv s L kroot → disj_pt (mem s) root kroot → 0 ≤ va < MAXVA →
  let v := pte_of (mem s) root va in
  let pa := PTE2PA v in
  has v PTE_V = true → has v PTE_COW = true → page_ok pa → pa ∉ L →
  1 ≤ ref_count s (pa2index pa) →
  match L with
  | [] => cow_alloc (Some (Pmem sz root kroot)) root va s = Ok (-1) s
  | new :: L' =>
      ∃ s', cow_alloc (Some (Pmem sz root kroot)) root va s = Ok 0 s' ∧
        cow_post s s' L' root kroot va new pa ∧
        let w := pte_of (mem s') root va in
        PTE2PA w = new ∧ has w PTE_V = true ∧ has w PTE_W = true ∧ has w PTE_COW = false ∧
        has w PTE_U = has v PTE_U
  end.
Proof.
  intros Hu Hk Hd Hva v pa HV HC Hok HL Hr. destruct L as [|new L'].
  { apply cow_alloc_oom; try done. apply Hu. }
  destruct (cow_alloc_ok s root kroot sz new L' va pa) as (s' & E & P); try done.
  exists s'. split; [done|]. split; [done|]. cbn zeta.
  rewrite (cp_pte _ _ _ _ _ _ _ _ P), Z.eqb_refl by done. apply cow_private_bits.
  pose proof (ki_pages _ _ (pi_alloc _ _ _ Hu)) as Hp. by apply Forall_cons in Hp as [? _].
Qed.


(** the last sharer of a frame loses it: when the copied frame had one
    reference left, [cow_alloc] drops its count to 0 with [decref] without
    returning it to the free list: the page is then neither free nor
    referenced, and nothing can hand it out again. *)
Theorem cow_alloc_leaks_last_reference s new L root kroot sz va :
  pt_inv s (new :: L) root → pt_inv s (new :: L) kroot → disj_pt (mem s) root kroot →
  0 ≤ va < MAXVA →
  let pa := PTE2PA (pte_of (mem s) root va) in
  has (pte_of (mem s) root va) PTE_V = true → has (pte_of (mem s) root va) PTE_COW = true →
  page_ok pa → ref_count s (pa2index pa) = 1 →
  ∃ s', cow_alloc (Some (Pmem sz root kroot)) root va s = Ok 0 s' ∧
        kalloc_inv s' L ∧ pa ∉ L ∧ ref_count s' (pa2index pa) = 0 ∧ ¬ no_leak s' L.
Proof.
  intros Hu Hk Hd Hva pa HV HC Hok Hr.
  assert (pa ∉ new :: L) as HL by (apply (not_free s _ _ (pi_alloc _ _ _ Hu)); lia).
  destruct (cow_alloc_ok s root kroot sz new L va pa) as (s' & E & P); try done; [lia|].
  exists s'. apply not_elem_of_cons in HL as [Hne HL].
  assert (ref_count s' (pa2index pa) = 0) as H0.
  { rewrite (cp_ref _ _ _ _ _ _ _ _ P) by done. rewrite Z.eqb_refl.
    destruct (Z.eqb_spec pa new); [done|]. lia. }
  split_and!; try done; [apply P|]. intros Hnl. destruct (Hnl pa Hok); [done|lia].
Qed.
End WithLayout.

(** ** A concrete fork

    Three empty tables and one frame among the last sixteen pages, eight pages
    free. *)
#[local] Existing Instance small_layout.

Definition fork_o : Z := PHYSTOP - 16 * PGSIZE.
Definition fork_n : Z := PHYSTOP - 15 * PGSIZE.
Definition fork_k : Z := PHYSTOP - 14 * PGSIZE.
Definition fork_pa : Z := PHYSTOP - 13 * PGSIZE.
Definition fork_free : list Z := map (λ i, PHYSTOP - i * PGSIZE) [8; 7; 6; 5; 4; 3; 2; 1].
Fixpoint chain_mem (L : list Z) : memory :=
  match L with
  | p :: ((q :: _) as L') => store64 (chain_mem L') p q
  | _ => λ _, 0
  end.
Definition fork_st (n : nat) : kst :=
  let L := take n fork_free in
  Kst (chain_mem L) (hd 0 L) (Z.of_nat (length L))
    (λ i, if (1016 <=? i) && (i <? 1016 + Z.of_nat n) then 0 else 1).

Lemma fork_st_inv : kalloc_inv (fork_st 8) fork_free.
Proof.
  split.
  - vm_compute; intuition.
  - apply (bool_decide_unpack _). by vm_compute.
  - repeat constructor; vm_compute; congruence.
  - reflexivity.
  - intros p Hp. unfold fork_free in Hp. cbn [map] in Hp.
    repeat (apply elem_of_cons in Hp as [->|Hp]; [reflexivity|]). by apply elem_of_nil in Hp.
  - intros i _. simpl. case_if; lia.
Qed.

Lemma fork_st_zero x : x < PHYSTOP - 8 * PGSIZE → mem (fork_st 8) x = 0.
Proof.
  intros Hx. cbn -[store64 PHYSTOP PGSIZE]. unfold PHYSTOP, PGSIZE in *.
  rewrite !store64_other by lia. done.
Qed.

Lemma fork_empty r :
  r = fork_o ∨ r = fork_n ∨ r = fork_k →
  pt_inv (fork_st 8) fork_free r ∧ (∀ p, pt_page (mem (fork_st 8)) r p ↔ p = r) ∧
  (∀ va, pte_of (mem (fork_st 8)) r va = 0).
Proof.
  intros Hr. destruct (empty_pt (mem (fork_st 8)) r) as (Hwf & Hpg & Hp).
  - destruct Hr as [->|[->| ->]]; vm_compute; intuition congruence.
  - intros x Hx. apply fork_st_zero. unfold fork_o, fork_n, fork_k, PHYSTOP, PGSIZE in *. lia.
  - split; [|done]. split; [apply fork_st_inv|done|]. intros p ->%Hpg Hin.
    unfold fork_free in Hin. cbn [map] in Hin.
    repeat (apply elem_of_cons in Hin as [Hin|Hin];
      [destruct Hr as [->|[->| ->]]; vm_compute in Hin; congruence|]).
    by apply elem_of_nil in Hin.
Qed.

Lemma fork_tables : tables (fork_st 8) fork_free fork_o fork_n fork_k.
Proof.
  assert (∀ r r', r = fork_o ∨ r = fork_n ∨ r = fork_k → r' = fork_o ∨ r' = fork_n ∨ r' = fork_k →
    r ≠ r' → disj_pt (mem (fork_st 8)) r r') as Hd.
  { intros r r' H1 H2 Hne p Hp Hp'. apply (fork_empty r H1) in Hp. apply (fork_empty r' H2) in Hp'.
    congruence. }
  split; try (apply fork_empty; by auto); apply Hd; by auto || (vm_compute; congruence).
Qed.

(** The parent maps [fork_pa] at virtual page 1, with the flags [fl]. *)
Lemma fork_parent fl :
  0 ≤ fl < 2 ^ 10 →
  match mappages fork_o 4096 PGSIZE fork_pa fl (fork_st 8) with Ok r _ => r | _ => -2 end = 0 →
  ∃ s L, mappages fork_o 4096 PGSIZE fork_pa fl (fork_st 8) = Ok 0 s ∧
    tables s L fork_o fork_n fork_k ∧
    fork_frame (fork_st 8) s fork_free L (take (length fork_free - length L) fork_free)
      fork_o fork_n fork_k nobody ∧
    (∀ va, 0 ≤ va < MAXVA → pte_of (mem s) fork_o va =
       if PGROUNDDOWN va =? 4096 then mk_pte fork_pa fl else 0) ∧
    (∀ va, pte_of (mem s) fork_n va = 0) ∧ (∀ va, pte_of (mem s) fork_k va = 0).
Proof.
  intros Hfl Hr.
  destruct (mappages_page (fork_st 8) fork_free fork_o 4096 fork_pa fl)
    as (r & s & L & u & E & G & _ & P).
  - apply fork_tables.
  - done.
  - vm_compute; intuition congruence.
  - done.
  - vm_compute; intuition congruence.
  - done.
  - destruct (fork_empty fork_o) as (_ & _ & ->); [by left|done].
  - rewrite E in Hr. subst r. exists s, L. split; [done|].
    destruct (ff_grow _ _ _ _ _ _ _ _ fork_o fork_tables ltac:(by left) G) as [F T].
    destruct (tables_grow _ _ _ _ _ _ _ _ fork_tables G) as (_ & _ & _ & En & Ek).
    assert (u = take (length fork_free - length L) fork_free) as <-.
    { pose proof (g_split _ _ _ _ _ _ G) as Es. rewrite Es at 2. rewrite Es, length_app.
      rewrite take_app_length'; [done|lia]. }
    split; [exact T|]. split; [exact F|]. split; [|split].
    + intros va Hva. rewrite P by exact Hva. cbn [Z.eqb andb]. case_if; [reflexivity|].
      destruct (fork_empty fork_o) as (_ & _ & ->); [by left|done].
    + intros va. rewrite En. destruct (fork_empty fork_n) as (_ & _ & ->); [by auto|done].
    + intros va. rewrite Ek. destruct (fork_empty fork_k) as (_ & _ & ->); [by auto|done].
Qed.

Lemma fork_pa_ok : page_ok fork_pa.
Proof. vm_compute; intuition congruence. Qed.

Lemma fork_free_pa : fork_pa ∉ fork_free.
Proof. apply (bool_decide_unpack _). by vm_compute. Qed.

(** [fork_pa] is an ordinary shareable frame of the state after the mapping. *)
Lemma fork_pa_page s L :
  fork_frame (fork_st 8) s fork_free L (take (length fork_free - length L) fork_free)
    fork_o fork_n fork_k nobody →
  fork_page s L fork_o fork_n fork_k fork_pa ∧ ref_count s (pa2index fork_pa) = 1.
Proof.
  intros F.
  assert (fork_page (fork_st 8) fork_free fork_o fork_n fork_k fork_pa) as Hp.
  { split; [exact fork_pa_ok|]. split; [exact fork_free_pa|]. split.
    - intros r Hr Hp. apply (fork_empty r Hr) in Hp.
      destruct Hr as [->|[->| ->]]; vm_compute in Hp; discriminate.
    - vm_compute; intuition congruence. }
  assert (ref_count s (pa2index fork_pa) = 1) as E1.
  { destruct (ff_ref _ _ _ _ _ _ _ _ _ F fork_pa fork_pa_ok) as [_ ->].
    - intros Hin. apply fork_free_pa. rewrite (ff_split _ _ _ _ _ _ _ _ _ F). set_solver.
    - reflexivity.
    - intros []. }
  split; [|exact E1].
  apply (fork_page_frame _ _ _ _ _ _ _ _ _ _ F); [intros []|exact Hp].
Qed.

Lemma uvmcopy_correct_witness :
  ∃ s s', mappages fork_o 4096 PGSIZE fork_pa 22 (fork_st 8) = Ok 0 s ∧
    uvmcopy fork_o fork_n fork_k 8192 s = Ok 0 s' ∧
    PTE2PA (pte_of (mem s') fork_n 4096) = fork_pa ∧
    has (pte_of (mem s') fork_n 4096) PTE_W = false.
Proof.
  destruct (fork_parent 22) as (s & L & E & T & F & Po & Pn & Pk);
    [lia|vm_compute; reflexivity|].
  destruct (fork_pa_page s L F) as [Hpa Hr].
  assert (∀ va, 0 ≤ va < 8192 → has (pte_of (mem s) fork_o va) PTE_V = true →
    PGROUNDDOWN va = 4096 ∧ pte_of (mem s) fork_o va = mk_pte fork_pa 22) as Hv.
  { intros va Hva. rewrite Po by (unfold MAXVA; lia). destruct (Z.eqb_spec (PGROUNDDOWN va) 4096).
    - intros _. split; [assumption|reflexivity].
    - intros HV. discriminate HV. }
  destruct (uvmcopy_correct s L fork_o fork_n fork_k 8192) as [(s' & L' & u & E' & _ & Hp)|(s1 & E1 & _)].
  - unfold MAXVA; lia.
  - split; [exact T| | |].
    + intros q (va & Hva & HV & Eq). destruct (Hv va) as [_ Ev]; [exact Hva|exact HV|].
      rewrite Ev in Eq. change (PTE2PA (mk_pte fork_pa 22)) with fork_pa in Eq.
      rewrite <- Eq. exact Hpa.
    + intros va va' Hva Hva' HV HV' _. destruct (Hv va Hva HV) as [-> _].
      destruct (Hv va' Hva' HV') as [-> _]. reflexivity.
    + intros va _. rewrite Pn, Pk. split; reflexivity.
  - intros va Hva. destruct (has (pte_of (mem s) fork_o va) PTE_V) eqn:HV.
    + destruct (Hv va Hva HV) as [_ ->]. reflexivity.
    + rewrite Po in HV |- * by (change (PGROUNDUP 8192) with 8192 in Hva; unfold MAXVA; lia).
      destruct (PGROUNDDOWN va =? 4096); [discriminate HV|reflexivity].
  - exists s, s'. split; [exact E|]. split; [exact E'|].
    destruct (Hp 4096) with (r := fork_n) as (H1 & _ & H2 & _);
      [vm_compute; intuition congruence| |right; left; reflexivity|].
    { rewrite Po by (unfold MAXVA; lia). reflexivity. }
    rewrite H1, H2, Po by (unfold MAXVA; lia). split; reflexivity.
  - exfalso.
    assert (match mappages fork_o 4096 PGSIZE fork_pa 22 (fork_st 8) with
            | Ok _ s => match uvmcopy_loop 4 fork_o fork_n fork_k 0 8192 s with
                        | Ok b _ => b | _ => false end | _ => false end = true) as Hc
      by (vm_compute; reflexivity).
    rewrite E in Hc. change (S (S (Z.to_nat (8192 / PGSIZE)))) with 4%nat in E1.
    rewrite E1 in Hc. discriminate Hc.
Defined.

(** The parent's page already marked copy-on-write, a free page at hand. *)
Lemma fork_cow_page :
  ∃ s new L, mappages fork_o 4096 PGSIZE fork_pa 530 (fork_st 8) = Ok 0 s ∧
    tables s (new :: L) fork_o fork_n fork_k ∧ fork_page s (new :: L) fork_o fork_n fork_k fork_pa ∧
    ref_count s (pa2index fork_pa) = 1 ∧
    (∀ va, 0 ≤ va < MAXVA → pte_of (mem s) fork_o va =
       if PGROUNDDOWN va =? 4096 then mk_pte fork_pa 530 else 0) ∧
    (∀ va, pte_of (mem s) fork_n va = 0).
Proof.
  destruct (fork_parent 530) as (s & L & E & T & F & Po & Pn & _); [lia|vm_compute; reflexivity|].
  destruct (fork_pa_page s L F) as [Hpa Hr].
  destruct L as [|new L].
  { exfalso. pose proof (ki_chain _ _ (pi_alloc _ _ _ (t_o _ _ _ _ _ T))) as Hc. simpl in Hc.
    assert (match mappages fork_o 4096 PGSIZE fork_pa 530 (fork_st 8) with
            | Ok _ s => freelist s | _ => 0 end =? 0 = false) as Hf by (vm_compute; reflexivity).
    rewrite E, Hc in Hf. discriminate Hf. }
  exists s, new, L. tauto.
Qed.

Lemma cow_alloc_correct_witness :
  ∃ s s', mappages fork_o 4096 PGSIZE fork_pa 530 (fork_st 8) = Ok 0 s ∧
    cow_alloc (Some (Pmem 8192 fork_o fork_k)) fork_o 4100 s = Ok 0 s' ∧
    has (pte_of (mem s') fork_o 4100) PTE_W = true.
Proof.
  destruct fork_cow_page as (s & new & L & E & T & Hpa & Hr & Po & Pn).
  pose proof (cow_alloc_correct s (new :: L) fork_o fork_k 8192 4100) as H. cbn zeta in H.
  rewrite Po in H by (unfold MAXVA; lia).
  destruct H as (s' & Ec & _ & _ & _ & HW & _).
  - apply T.
  - apply T.
  - apply T.
  - unfold MAXVA; lia.
  - reflexivity.
  - reflexivity.
  - exact fork_pa_ok.
  - apply Hpa.
  - change (1 ≤ ref_count s (pa2index fork_pa)). lia.
  - exists s, s'. split; [exact E|split; [exact Ec|exact HW]].
Defined.

Lemma cow_alloc_leaks_last_reference_witness :
  ∃ s s', mappages fork_o 4096 PGSIZE fork_pa 530 (fork_st 8) = Ok 0 s ∧
    cow_alloc (Some (Pmem 8192 fork_o fork_k)) fork_o 4100 s = Ok 0 s' ∧
    ref_count s' (pa2index fork_pa) = 0.
Proof.
  destruct fork_cow_page as (s & new & L & E & T & Hpa & Hr & Po & Pn).
  pose proof (cow_alloc_leaks_last_reference s new L fork_o fork_k 8192 4100) as H. cbn zeta in H.
  rewrite Po in H by (unfold MAXVA; lia).
  destruct H as (s' & Ec & _ & _ & H0 & _).
  - apply T.
  - apply T.
  - apply T.
  - unfold MAXVA; lia.
  - reflexivity.
  - reflexivity.
  - exact fork_pa_ok.
  - exact Hr.
  - exists s, s'. split; [exact E|split; [exact Ec|exact H0]].
Defined.


(** when memory runs out between the two [mappages] calls of [uvmcopy], the
    error path frees the child's mapping of a frame whose count was not yet
    raised: with five free pages the fork fails and the parent's frame is at
    the head of the free list, with count 0, while the parent still maps it. *)
Theorem uvmcopy_failure_frees_parent_frame :
  match mappages fork_o 4096 PGSIZE fork_pa 22 (fork_st 5) with
  | Ok 0 s =>
      ref_count s (pa2index fork_pa) = 1 ∧
      match uvmcopy fork_o fork_n fork_k 8192 s with
      | Ok r s' =>
          r = -1 ∧ freelist s' = fork_pa ∧ ref_count s' (pa2index fork_pa) = 0 ∧
          has (pte_of (mem s') fork_o 4096) PTE_V = true ∧
          PTE2PA (pte_of (mem s') fork_o 4096) = fork_pa
      | Panic _ => False
      end
  | _ => False
  end.
Proof. vm_compute. split; [reflexivity|]. repeat split; reflexivity. Qed.
