(* ===== verification/Lazy.v ===== *)
(** * Lazy allocation of user pages (lazy_alloc of kernel/vm.c)

    [sbrk] only moves the size of a process; the page comes with the first
    access.  [lazy_alloc] takes a frame, zeroes it and maps it in the user and
    in the kernel table of the process, or undoes everything. *)
From stdpp Require Import prelude list strings.
From Stdlib Require Import ZArith Lia.
From S2P Require Import Prelude Riscv Kalloc VM PageTable PageTableOps Cow.
Open Scope Z_scope.

Section Lazy.
Context `{LAY : Layout}.

(** The state after [kalloc] and [memset]. *)
Definition zeroed (new : Z) (s : kst) : kst :=
  let s1 := kalloc_post new (load64 (mem s) new) s in set_mem (fill (mem s1) new 0 PGSIZE) s1.

Lemma zeroed_spec s new L :
  kalloc_inv s (new :: L) →
  kalloc_inv (zeroed new s) L ∧ new ≠ 0 ∧ page_ok new ∧ new ∉ L ∧
  (∀ x, ¬ (new ≤ x < new + PGSIZE) → mem (zeroed new s) x = mem s x) ∧
  (∀ x, new ≤ x < new + PGSIZE → mem (zeroed new s) x = 0) ∧
  ref_count (zeroed new s) (pa2index new) = 1 ∧
  kalloc s = Ok new (kalloc_post new (load64 (mem s) new) s).
Proof.
  intros Hi. destruct (kalloc_cons s new L Hi) as [E Hi1].
  pose proof (ki_pages _ _ Hi) as Hp. apply Forall_cons in Hp as [Hnew _].
  pose proof (ki_nodup _ _ Hi) as Hnd. apply NoDup_cons in Hnd as [HnL _].
  pose proof (page_ok_range _ Hnew) as Hr. unfold KERNBASE in Hr.
  split_and!; try done.
  - apply kalloc_inv_frame; [done|]. intros x Hx. exists new. split; [apply Hnew|split; [done|]].
    destruct (decide (new ≤ x < new + PGSIZE)); [done|]. by rewrite fill_other in Hx.
  - lia.
  - intros x Hx. simpl. by rewrite !fill_other.
  - intros x Hx. simpl. by rewrite fill_in.
  - simpl. by rewrite upd_eq.
Qed.

(** A user table and a kernel table side by side. *)
Record pair (s : kst) (L : list Z) (r k : Z) : Prop := {
  pr_r : pt_inv s L r; pr_k : pt_inv s L k; pr_disj : disj_pt (mem s) r k }.

Lemma pair_sym s L r k : pair s L r k → pair s L k r.
Proof. intros [? ? ?]. split; eauto using disj_pt_sym. Qed.

(** A state that differs only inside a page [q] that belongs to neither table. *)
Lemma pair_frame s s' L L' r k q :
  pair s L r k → kalloc_inv s' L' → (∀ p, p ∈ L' → p ∈ L ∨ p = q) → page_ok q →
  ¬ pt_page (mem s) r q → ¬ pt_page (mem s) k q →
  (∀ x, ¬ (q ≤ x < q + PGSIZE) → mem s' x = mem s x) →
  pair s' L' r k ∧ (∀ va, pte_of (mem s') r va = pte_of (mem s) r va) ∧
  (∀ va, pte_of (mem s') k va = pte_of (mem s) k va) ∧
  (∀ p, pt_page (mem s') r p ↔ pt_page (mem s) r p) ∧
  (∀ p, pt_page (mem s') k p ↔ pt_page (mem s) k p).
Proof.
  intros [Hr Hk Hd] Hi Hsub Hq Hnr Hnk Hf.
  assert (∀ t, pt_inv s L t → ¬ pt_page (mem s) t q → agree_on (mem s) (mem s') (pt_page (mem s) t)) as Hag.
  { intros t Ht Hn p x Hp Hx. apply Hf. intros Hx'.
    apply (pages_disjoint p q x); try done; [|apply Hq|by intros ->].
    by apply (pt_page_aligned (mem s) t); [apply Ht|]. }
  assert (∀ t, pt_inv s L t → ¬ pt_page (mem s) t q → pt_inv s' L' t) as Hinv.
  { intros t Ht Hn. split; [done|by apply (wf_pt_agree (mem s)); [apply Hag|apply Ht]|].
    intros p Hp%(pt_page_agree _ _ _ _ (Hag t Ht Hn)) HpL. destruct (Hsub p HpL) as [HL| ->]; [|done].
    by apply (pi_free _ _ _ Ht p). }
  pose proof (Hag r Hr Hnr) as Ar. pose proof (Hag k Hk Hnk) as Ak.
  split_and!.
  - split; [by apply Hinv..|by apply (disj_pt_frame (mem s))].
  - intros va. by apply pte_of_agree.
  - intros va. by apply pte_of_agree.
  - intros p. by apply pt_page_agree.
  - intros p. by apply pt_page_agree.
Qed.

Lemma zeroed_pair s new L r k :
  pair s (new :: L) r k →
  let s1 := zeroed new s in
  pair s1 L r k ∧ (∀ va, pte_of (mem s1) r va = pte_of (mem s) r va) ∧
  (∀ va, pte_of (mem s1) k va = pte_of (mem s) k va) ∧
  ¬ pt_page (mem s1) r new ∧ ¬ pt_page (mem s1) k new.
Proof.
  intros Hp s1. destruct (zeroed_spec s new L (pi_alloc _ _ _ (pr_r _ _ _ _ Hp)))
    as (Hi & _ & Hok & HnL & Hf & _).
  assert (¬ pt_page (mem s) r new ∧ ¬ pt_page (mem s) k new) as [Nr Nk].
  { split; intros Hx; [apply (pi_free _ _ _ (pr_r _ _ _ _ Hp) new Hx)|
      apply (pi_free _ _ _ (pr_k _ _ _ _ Hp) new Hx)]; left. }
  destruct (pair_frame s s1 (new :: L) L r k new Hp Hi) as (Hp' & Pr & Pk & Gr & Gk); try done.
  { intros p HpL. left. by right. }
  split_and!; try done; [by rewrite Gr|by rewrite Gk].
Qed.

(** One page mapped in the first table of a pair: the frame [new] and the other
    table are left alone. *)
Lemma map_first s L r k a new perm :
  pair s L r k → a mod PGSIZE = 0 → 0 ≤ a < MAXVA → page_ok new → new ∉ L →
  ¬ pt_page (mem s) r new → ¬ pt_page (mem s) k new → 0 ≤ perm < 2 ^ 10 →
  has (pte_of (mem s) r a) PTE_V = false →
  ∃ c s' L', mappages r a PGSIZE new perm s = Ok c s' ∧ pair s' L' r k ∧ (c = 0 ∨ c = -1) ∧
    (∀ p, p ∈ L' → p ∈ L) ∧ ¬ pt_page (mem s') r new ∧ ¬ pt_page (mem s') k new ∧
    (∀ va, 0 ≤ va < MAXVA → pte_of (mem s') r va =
       if (c =? 0) && (PGROUNDDOWN va =? a) then mk_pte new perm else pte_of (mem s) r va) ∧
    (∀ va, pte_of (mem s') k va = pte_of (mem s) k va) ∧
    (∀ x, new ≤ x < new + PGSIZE → mem s' x = mem s x) ∧
    ref_count s' (pa2index new) = ref_count s (pa2index new).
Proof.
  intros Hp Ha Ha0 Hnew HnL Nr Nk Hperm Hinv. pose proof (page_ok_small _ Hnew) as Hps.
  destruct (mappages_page s L r a new perm) as (c & s' & L' & u & E & G & Hc & P);
    [apply Hp|done|done|apply Hnew|done|done|done|].
  destruct (grow_other r k s s' L L' u (pr_r _ _ _ _ Hp) (pr_k _ _ _ _ Hp) (pr_disj _ _ _ _ Hp) G)
    as (Ak & Hk' & Hd').
  assert (new ∉ u) as Hnu.
  { intros Hx. apply HnL. rewrite (g_split _ _ _ _ _ _ G). set_solver. }
  exists c, s', L'. split_and!; try done.
  - split; [by apply (grow_pt_inv r s s' L L' u); [apply Hp|]|done|done].
  - destruct Hc as [->|[-> _]]; [by left|by right].
  - intros p Hx. rewrite (g_split _ _ _ _ _ _ G). set_solver.
  - intros [Hx|Hx]%(g_pages _ _ _ _ _ _ G); done.
  - by intros Hx%(pt_page_agree _ _ _ _ Ak).
  - intros va. by apply pte_of_agree.
  - intros x Hx. apply (grow_agree r s s' L L' u (λ p, p = new)) with (p := new); [apply Hp|done| |done|done].
    by intros p ->.
  - by apply (g_ref _ _ _ _ _ _ G).
Qed.

(** The undo of [lazy_alloc]: the user entry goes away again. *)
Lemma unmap_undo s L r k a new :
  pair s L r k → a mod PGSIZE = 0 → 0 ≤ a < MAXVA → page_ok new → new ∉ L →
  ¬ pt_page (mem s) r new → ¬ pt_page (mem s) k new → pte_of (mem s) r a = mk_pte new 22 →
  ∃ s' L', uvmunmap r a 1 false s = Ok tt s' ∧ pair s' L' r k ∧ (∀ p, p ∈ L' → p ∈ L) ∧
    ¬ pt_page (mem s') r new ∧ ¬ pt_page (mem s') k new ∧
    (∀ va, 0 ≤ va < MAXVA → pte_of (mem s') r va =
       if PGROUNDDOWN va =? a then 0 else pte_of (mem s) r va) ∧
    (∀ va, pte_of (mem s') k va = pte_of (mem s) k va) ∧
    ref_count s' (pa2index new) = ref_count s (pa2index new).
Proof.
  intros Hp Ha Ha0 Hnew HnL Nr Nk Epte. pose proof (page_ok_small _ Hnew) as Hps.
  assert (has (pte_of (mem s) r a) PTE_V = true) as Hhit
    by (rewrite Epte; apply mk_pte_valid; apply Hnew || lia).
  destruct (unmap_one_spec s L r "uvmunmap: not a leaf" a false) as (s' & L' & E & Hi & P & G & R & FL & Fr);
    [apply Hp|done|done| |done|].
  { intros _. rewrite Epte, mk_pte_PTE_FLAGS by (apply Hnew || lia). done. }
  rewrite Hhit in *. simpl (true && _) in *.
  assert (agree_on (mem s) (mem s') (pt_page (mem s) k)) as Ak.
  { intros q x Hq Hx. apply Fr; [by intros [_ ?]|]. intros p Hpr Hx'.
    apply (pages_disjoint q p x); try done.
    - by apply (pt_page_aligned (mem s) k); [apply Hp|].
    - by apply (pt_page_aligned (mem s) r); [apply Hp|].
    - intros ->. by apply (pr_disj _ _ _ _ Hp p). }
  assert (∀ p, p ∈ L' → p ∈ L) as Hsub by (intros p [|(? & _)]%FL; done).
  exists s', L'. split_and!.
  - unfold uvmunmap. rewrite Ha. simpl (negb (0 =? 0)). cbv iota.
    assert (a + PGSIZE ≤ MAXVA) as Hmax by (unfold PGSIZE, MAXVA in *; Z.div_mod_to_equations; lia).
    rewrite u64_small by (unfold PGSIZE, MAXVA in *; lia).
    replace (a + 1 * PGSIZE - a) with PGSIZE by lia. rewrite Z.div_same by done.
    change (S (S (Z.to_nat 1))) with 3%nat. rewrite unmap_loop_S.
    rewrite (proj2 (Z.ltb_lt a (a + 1 * PGSIZE))) by (unfold PGSIZE; lia). rewrite (mbindM_Ok _ _ _ _ _ E).
    rewrite unmap_loop_S, u64_small by (unfold PGSIZE, MAXVA in *; lia).
    rewrite (proj2 (Z.ltb_ge _ _)) by lia. done.
  - split; [done| |].
    + split; [apply Hi|by apply (wf_pt_agree (mem s)); [|apply Hp]|].
      intros p Hpp%(pt_page_agree _ _ _ _ Ak) HpL%Hsub. by apply (pi_free _ _ _ (pr_k _ _ _ _ Hp) p).
    + intros p Hpr%G Hpk%(pt_page_agree _ _ _ _ Ak). by apply (pr_disj _ _ _ _ Hp p).
  - done.
  - by rewrite G.
  - by intros Hx%(pt_page_agree _ _ _ _ Ak).
  - done.
  - intros va. by apply pte_of_agree.
  - rewrite R by done. rewrite andb_false_l. lia.
Qed.

(** The frame goes back to the allocator. *)
Lemma kfree_pair s L r k new :
  pair s L r k → page_ok new → new ∉ L → ¬ pt_page (mem s) r new → ¬ pt_page (mem s) k new →
  ref_count s (pa2index new) = 1 →
  ∃ s' L', kfree new s = Ok tt s' ∧ pair s' L' r k ∧ new ∈ L' ∧
    (∀ va, pte_of (mem s') r va = pte_of (mem s) r va) ∧
    (∀ va, pte_of (mem s') k va = pte_of (mem s) k va).
Proof.
  intros Hp Hnew HnL Nr Nk Href.
  destruct (kfree_frame new s L r (pr_r _ _ _ _ Hp) Hnew HnL Nr ltac:(lia))
    as (s' & L' & E & Hi & _ & _ & HL & Hf).
  destruct (pair_frame s s' L L' r k new Hp (pi_alloc _ _ _ Hi)) as (Hp' & Pr & Pk & _); try done.
  { intros p [|[-> _]]%HL; [by left|by right]. }
  exists s', L'. split_and!; try done. apply HL. by right.
Qed.

(** [lazy_alloc] after the frame was taken and zeroed. *)
Lemma lazy_alloc_run r k va s new L :
  kalloc_inv s (new :: L) →
  lazy_alloc r k va s =
  (c <-- mappages r (PGROUNDDOWN va) PGSIZE new 22 ;;
   if c <? 0 then kfree new ;;; mretM (-1)
   else
     c <-- mappages k (PGROUNDDOWN va) PGSIZE new 6 ;;
     if c <? 0 then uvmunmap r (PGROUNDDOWN va) 1 false ;;; kfree new ;;; mretM (-1) else mretM 0)
  (zeroed new s).
Proof.
  intros Hi. destruct (zeroed_spec s new L Hi) as (_ & Hn0 & _ & _ & _ & _ & _ & E).
  unfold lazy_alloc. rewrite (mbindM_Ok _ _ _ _ _ E). destruct (Z.eqb_spec new 0); [done|]. done.
Qed.

Lemma lazy_alloc_spec s new L r k va :
  pt_inv s (new :: L) r → pt_inv s (new :: L) k → disj_pt (mem s) r k → 0 ≤ va < MAXVA →
  has (pte_of (mem s) r va) PTE_V = false → has (pte_of (mem s) k va) PTE_V = false →
  ∃ c s' L', lazy_alloc r k va s = Ok c s' ∧ pt_inv s' L' r ∧ pt_inv s' L' k ∧ disj_pt (mem s') r k ∧
    ((c = 0 ∧ new ∉ L' ∧ (∀ x, new ≤ x < new + PGSIZE → mem s' x = 0) ∧
      ∀ va', 0 ≤ va' < MAXVA →
        pte_of (mem s') r va' =
          (if PGROUNDDOWN va' =? PGROUNDDOWN va then mk_pte new (Z.lor (Z.lor PTE_R PTE_W) PTE_U)
           else pte_of (mem s) r va') ∧
        pte_of (mem s') k va' =
          (if PGROUNDDOWN va' =? PGROUNDDOWN va then mk_pte new (Z.lor PTE_R PTE_W)
           else pte_of (mem s) k va')) ∨
     (c = -1 ∧ new ∈ L' ∧ ∀ va', 0 ≤ va' < MAXVA →
        (if PGROUNDDOWN va' =? PGROUNDDOWN va then has (pte_of (mem s') r va') PTE_V = false
         else pte_of (mem s') r va' = pte_of (mem s) r va') ∧
        pte_of (mem s') k va' = pte_of (mem s) k va')).
Proof.
  intros Hr Hk Hd Hva Vr Vk. set (a := PGROUNDDOWN va).
  assert (a mod PGSIZE = 0) as Ha by apply PGROUNDDOWN_aligned.
  assert (0 ≤ a < MAXVA) as Ha0.
  { unfold a. rewrite PGROUNDDOWN_eq. pose proof (Z.mod_pos_bound va PGSIZE ltac:(done)).
    pose proof (Z.mod_le va PGSIZE ltac:(lia) ltac:(done)). lia. }
  pose proof (pi_alloc _ _ _ Hr) as Hi.
  destruct (zeroed_spec s new L Hi) as (_ & _ & Hnew & HnL & _ & Hz & Href & _).
  destruct (zeroed_pair s new L r k (Build_pair _ _ _ _ Hr Hk Hd)) as (Hp1 & P1r & P1k & N1r & N1k).
  rewrite (lazy_alloc_run r k va s new L Hi). fold a. set (s1 := zeroed new s) in *.
  destruct (map_first s1 L r k a new 22 Hp1 Ha Ha0 Hnew HnL N1r N1k) as
    (c2 & s2 & L2 & E2 & Hp2 & Hc2 & Hs2 & N2r & N2k & P2r & P2k & F2 & R2);
    [lia|unfold a; by rewrite pte_of_page, P1r|].
  assert (new ∉ L2) as HnL2 by (intros Hx; by apply HnL, Hs2).
  rewrite (mbindM_Ok _ _ _ _ _ E2). destruct Hc2 as [->| ->].
  2:{ destruct (kfree_pair s2 L2 r k new Hp2 Hnew HnL2 N2r N2k) as (s3 & L3 & E3 & [Q1 Q2 Q3] & Hin & P3r & P3k);
        [by rewrite R2|].
      exists (-1), s3, L3. split; [change (-1 <? 0) with true; cbv iota; by rewrite (mbindM_Ok _ _ _ _ _ E3)|].
      split_and!; try done. right. split_and!; try done. intros va' Hva'.
      rewrite P3r, P3k, P2k, P2r, P1r, P1k by done. split; [|done].
      destruct (Z.eqb_spec (PGROUNDDOWN va') a) as [Ea|Ea]; [|done]. simpl.
      rewrite <- pte_of_page, Ea. unfold a. by rewrite pte_of_page. }
  change (0 <? 0) with false. cbv iota.
  destruct (map_first s2 L2 k r a new 6 (pair_sym _ _ _ _ Hp2) Ha Ha0 Hnew HnL2 N2k N2r) as
    (c3 & s3 & L3 & E3 & Hp3 & Hc3 & Hs3 & N3k & N3r & P3k & P3r & F3 & R3);
    [lia|unfold a; by rewrite pte_of_page, P2k, P1k|].
  assert (new ∉ L3) as HnL3 by (intros Hx; by apply HnL2, Hs3). apply pair_sym in Hp3.
  rewrite (mbindM_Ok _ _ _ _ _ E3). destruct Hc3 as [->| ->].
  - change (0 <? 0) with false. cbv iota. exists 0, s3, L3. split; [done|]. destruct Hp3 as [Q1 Q2 Q3].
    split_and!; try done. left. split_and!; try done.
    + intros x Hx. by rewrite F3, F2, Hz.
    + intros va' Hva'. rewrite P3r, P3k, P2r, P2k, P1r, P1k by done. done.
  - change (-1 <? 0) with true. cbv iota.
    destruct (unmap_undo s3 L3 r k a new Hp3 Ha Ha0 Hnew HnL3 N3r N3k) as
      (s4 & L4 & E4 & Hp4 & Hs4 & N4r & N4k & P4r & P4k & R4).
    { rewrite P3r, P2r by done. by rewrite (PGROUNDDOWN_id a Ha), !Z.eqb_refl. }
    destruct (kfree_pair s4 L4 r k new Hp4 Hnew) as (s5 & L5 & E5 & [Q1 Q2 Q3] & Hin & P5r & P5k);
      [intros Hx; by apply HnL3, Hs4|done|done|by rewrite R4, R3, R2|].
    exists (-1), s5, L5. rewrite (mbindM_Ok _ _ _ _ _ E4), (mbindM_Ok _ _ _ _ _ E5).
    split_and!; try done. right. split_and!; try done. intros va' Hva'.
    rewrite P5r, P5k, P4r, P4k, P3k, P3r, P2r, P2k, P1r, P1k by done. split; [|done].
    destruct (Z.eqb_spec (PGROUNDDOWN va') a) as [Ea|Ea]; simpl; [done|done].
Qed.

(** [lazy_alloc] at an unmapped address never panics.  On success one free
    frame, all zero, is mapped user read/write in the user table and read/write
    in the kernel table at that page and no other entry changes; on failure
    the page is still unmapped, every other entry is as before and the frame is
    free again. *)
Theorem lazy_alloc_correct s new L r k va :
  pt_inv s (new :: L) r → pt_inv s (new :: L) k → disj_pt (mem s) r k → 0 ≤ va < MAXVA →
  has (pte_of (mem s) r va) PTE_V = false → has (pte_of (mem s) k va) PTE_V = false →
  ∃ c s' L', lazy_alloc r k va s = Ok c s' ∧ pt_inv s' L' r ∧ pt_inv s' L' k ∧ disj_pt (mem s') r k ∧
    ((c = 0 ∧ new ∉ L' ∧ (∀ x, new ≤ x < new + PGSIZE → mem s' x = 0) ∧
      ∀ va', 0 ≤ va' < MAXVA →
        pte_of (mem s') r va' =
          (if PGROUNDDOWN va' =? PGROUNDDOWN va then mk_pte new (Z.lor (Z.lor PTE_R PTE_W) PTE_U)
           else pte_of (mem s) r va') ∧
        pte_of (mem s') k va' =
          (if PGROUNDDOWN va' =? PGROUNDDOWN va then mk_pte new (Z.lor PTE_R PTE_W)
           else pte_of (mem s) k va')) ∨
     (c = -1 ∧ new ∈ L' ∧ ∀ va', 0 ≤ va' < MAXVA →
        (if PGROUNDDOWN va' =? PGROUNDDOWN va then has (pte_of (mem s') r va') PTE_V = false
         else pte_of (mem s') r va' = pte_of (mem s) r va') ∧
        pte_of (mem s') k va' = pte_of (mem s) k va')).
Proof. apply lazy_alloc_spec. Qed.

(** [walk] through existing page-table pages allocates nothing. *)
Lemma walk_present s root va pg :
  0 ≤ va < MAXVA → node_page (mem s) root (low_of va) = Some pg →
  walk root va true s = Ok (pg + 8 * PX 0 va) s.
Proof.
  intros Hva Hn. unfold walk. destruct (Z.leb_spec MAXVA va); [lia|].
  unfold low_of, node_page, child in Hn. unfold walk_loop, walk_step, read_pte, mbindM, gets, mretM.
  change (Z.of_nat 2) with 2. change (Z.of_nat 1) with 1.
  destruct (has (load64 (mem s) (root + 8 * PX 2 va)) PTE_V); [|done].
  destruct (has (load64 (mem s) _) PTE_V); [|done]. by injection Hn as ->.
Qed.

(** [lazy_alloc] at an address that already has a valid entry panics
    ("remap") as long as a frame is free, whatever the entry's permissions. *)
Lemma lazy_alloc_remap s new L r k va :
  pt_inv s (new :: L) r → pt_inv s (new :: L) k → disj_pt (mem s) r k → 0 ≤ va < MAXVA →
  has (pte_of (mem s) r va) PTE_V = true → lazy_alloc r k va s = Panic "remap".
Proof.
  intros Hr Hk Hd Hva Hv. set (a := PGROUNDDOWN va).
  assert (a mod PGSIZE = 0) as Ha by apply PGROUNDDOWN_aligned.
  assert (0 ≤ a < MAXVA) as Ha0.
  { unfold a. rewrite PGROUNDDOWN_eq. pose proof (Z.mod_pos_bound va PGSIZE ltac:(done)).
    pose proof (Z.mod_le va PGSIZE ltac:(lia) ltac:(done)). lia. }
  destruct (zeroed_pair s new L r k (Build_pair _ _ _ _ Hr Hk Hd)) as (Hp1 & P1r & _ & _ & _).
  rewrite (lazy_alloc_run r k va s new L (pi_alloc _ _ _ Hr)). fold a. set (s1 := zeroed new s) in *.
  assert (has (pte_of (mem s1) r a) PTE_V = true) as Hv1 by (unfold a; by rewrite pte_of_page, P1r).
  unfold pte_of in Hv1. destruct (node_page (mem s1) r (low_of a)) as [pg|] eqn:En; [|done].
  unfold mappages, mbindM at 1. rewrite (PGROUNDDOWN_id a Ha).
  match goal with |- context[mappages_loop ?f _ _ _ _ _] => destruct f as [|n] eqn:Ef; [done|] end.
  rewrite mappages_loop_S, (mbindM_Ok _ _ _ _ _ (walk_present s1 r a pg Ha0 En)).
  destruct (Z.eqb_spec (pg + 8 * PX 0 a) 0) as [Hz|_].
  { exfalso. assert (page_ok pg) as Hok.
    { apply (wf_pages _ _ (pi_wf _ _ _ (pr_r _ _ _ _ Hp1))). exists (low_of a). split; [apply low_of_ok|done]. }
    apply page_ok_range in Hok. pose proof (PX_range 0 a). unfold KERNBASE in Hok. lia. }
  unfold mbindM, read_pte, gets. by rewrite Hv1.
Qed.
End Lazy.

(** ** A closed instance *)
#[local] Existing Instance small_layout.

Lemma lazy_alloc_correct_witness :
  ∃ c s', lazy_alloc fork_n fork_k 4100 (fork_st 8) = Ok c s' ∧ (c = 0 ∨ c = -1).
Proof.
  assert (∀ r va, r = fork_n ∨ r = fork_k → has (pte_of (mem (fork_st 8)) r va) PTE_V = false) as Hz.
  { intros r va Hr. destruct (fork_empty r) as (_ & _ & E); [destruct Hr as [->| ->]; vm_compute; intuition congruence|].
    rewrite E. reflexivity. }
  pose proof fork_tables as T.
  destruct (lazy_alloc_correct (fork_st 8) (PHYSTOP - 8 * PGSIZE)
    (map (λ i, PHYSTOP - i * PGSIZE) [7; 6; 5; 4; 3; 2; 1]) fork_n fork_k 4100) as (c & s' & L' & E & _ & _ & _ & H).
  - exact (t_n _ _ _ _ _ T).
  - exact (t_k _ _ _ _ _ T).
  - exact (t_nk _ _ _ _ _ T).
  - unfold MAXVA. lia.
  - apply Hz. left. reflexivity.
  - apply Hz. right. reflexivity.
  - exists c, s'. split; [exact E|]. destruct H as [[-> _]|[-> _]]; [left|right]; reflexivity.
Defined.
