(* ===== verification/UserCopy.v ===== *)
(** * Copying between the kernel and user memory

    What [copyin], [copyout] and [copyinstr] (kernel/vm.c, modelled in VM.v) move
    when the user range is mapped: user memory is the memory the page table
    translates to. *)
From stdpp Require Import prelude list strings.
From Stdlib Require Import ZArith Lia.
From S2P Require Import Prelude Riscv Kalloc VM PageTable PageTableOps.
Open Scope Z_scope.

Section UserCopy.
Context `{Layout}.

(** ** User memory *)

Definition uaddr (m : memory) (root va : Z) : Z := PTE2PA (pte_of m root va) + va mod PGSIZE.
(** The byte the process sees at [va]. *)
Definition uload (m : memory) (root va : Z) : Z :=
  if has (pte_of m root va) PTE_V then load8 m (uaddr m root va) else 0.
(** [va] is mapped for the user. *)
Record uvalid (m : memory) (root va : Z) : Prop := {
  uv_range : 0 ≤ va < MAXVA;
  uv_V : has (pte_of m root va) PTE_V = true;
  uv_U : has (pte_of m root va) PTE_U = true;
  uv_pa : PTE2PA (pte_of m root va) ≠ 0 }.

Definition page_left (va : Z) : Z := PGSIZE - (va - PGROUNDDOWN va).
Lemma page_left_bounds va : 0 < page_left va ≤ PGSIZE.
Proof. unfold page_left. pose proof (PGROUNDDOWN_le va). lia. Qed.
Lemma same_page va i : 0 ≤ i < page_left va → PGROUNDDOWN (va + i) = PGROUNDDOWN va.
Proof.
  unfold page_left. rewrite !PGROUNDDOWN_eq. intros Hi. pose proof (Z.mod_pos_bound va PGSIZE ltac:(done)).
  enough ((va + i) mod PGSIZE = va mod PGSIZE + i) by lia.
  rewrite <- Z.add_mod_idemp_l by done. apply Z.mod_small. lia.
Qed.
Lemma pte_same_page m root va va' : PGROUNDDOWN va = PGROUNDDOWN va' → pte_of m root va = pte_of m root va'.
Proof. intros E. by rewrite <- (pte_of_page m root va), E, pte_of_page. Qed.
Lemma uaddr_shift m root va i : 0 ≤ i < page_left va →
  uaddr m root (va + i) = PTE2PA (pte_of m root va) + (va - PGROUNDDOWN va) + i.
Proof.
  intros Hi. pose proof (same_page _ _ Hi) as E. unfold uaddr. rewrite (pte_same_page m root _ _ E).
  rewrite PGROUNDDOWN_eq in E at 1. lia.
Qed.
Lemma next_page va : PGROUNDDOWN va + PGSIZE = va + page_left va.
Proof. unfold page_left. lia. Qed.

Lemma uvalid_page m root va va' : PGROUNDDOWN va = PGROUNDDOWN va' → 0 ≤ va' → uvalid m root va → uvalid m root va'.
Proof.
  intros E Hv' [Hr A B C]. rewrite (pte_same_page _ _ _ _ E) in A, B, C. split; try done.
  split; [done|]. pose proof (PGROUNDDOWN_le va'). pose proof (PGROUNDDOWN_le va). pose proof (PGROUNDDOWN_aligned va).
  rewrite <- E in *. unfold PGSIZE, MAXVA in *. Z.div_mod_to_equations. lia.
Qed.
Lemma uvalid_base m root va : uvalid m root va → uvalid m root (PGROUNDDOWN va).
Proof.
  intros Hv. eapply uvalid_page; [|  |exact Hv].
  - symmetry. apply PGROUNDDOWN_id, PGROUNDDOWN_aligned.
  - pose proof (uv_range _ _ _ Hv). rewrite PGROUNDDOWN_eq. pose proof (Z.mod_le va PGSIZE). unfold PGSIZE in *. lia.
Qed.

Lemma walk_valid s root va : wf_pt (mem s) root → 0 ≤ va < MAXVA → has (pte_of (mem s) root va) PTE_V = true →
  ∃ pte, walk root va false s = Ok pte s ∧ pte ≠ 0 ∧ load64 (mem s) pte = pte_of (mem s) root va.
Proof.
  intros Hwf Hr A. rewrite walk_noalloc by lia. unfold pte_of in *.
  destruct (node_page (mem s) root (low_of va)) as [p|] eqn:E; [|by vm_compute in A].
  exists (p + 8 * PX 0 va). split; [done|]. split; [|done].
  assert (page_ok p) as Hp by (apply (wf_pages _ _ Hwf); exists (low_of va); split; [apply low_of_ok|done]).
  pose proof (page_ok_range _ Hp). pose proof (PX_range 0 va). unfold KERNBASE in *. lia.
Qed.
Lemma walkaddr_valid s root va : wf_pt (mem s) root → uvalid (mem s) root va →
  walkaddr root va s = Ok (PTE2PA (pte_of (mem s) root va)) s.
Proof.
  intros Hwf [Hr A B C]. unfold walkaddr. destruct (Z.leb_spec MAXVA va); [lia|].
  destruct (walk_valid s root va Hwf Hr A) as (pte & E & Hnz & El). rewrite (mbindM_Ok _ _ _ _ _ E).
  rewrite (proj2 (Z.eqb_neq _ _)) by done. unfold mbindM at 1, read_pte, gets at 1. by rewrite El, A, B.
Qed.
Lemma user_page_valid p s root va : wf_pt (mem s) root → uvalid (mem s) root va →
  user_page p root va s = Ok (Some (PTE2PA (pte_of (mem s) root va))) s.
Proof.
  intros Hwf Hv. unfold user_page. rewrite (mbindM_Ok _ _ _ _ _ (walkaddr_valid _ _ _ Hwf Hv)).
  by rewrite (proj2 (Z.eqb_neq _ _)) by apply Hv.
Qed.

(** ** From user memory *)

Lemma bytes_at_user m root va n :
  uvalid m root va → Z.of_nat n ≤ page_left va →
  bytes_at m (PTE2PA (pte_of m root va) + (va - PGROUNDDOWN va)) n = map (uload m root) (seqZ va (Z.of_nat n)).
Proof.
  intros Hv Hn. unfold bytes_at, seqZ. rewrite Nat2Z.id. rewrite <- list_fmap_compose. apply map_ext_in. intros i Hi.
  apply in_seq in Hi. unfold uload, compose.
  pose proof (same_page va (Z.of_nat i) ltac:(lia)) as E.
  rewrite (Z.add_comm (Z.of_nat i)), (pte_same_page _ _ _ _ E), (uv_V _ _ _ Hv), uaddr_shift by lia. done.
Qed.

Definition umapped (m : memory) (root a n : Z) : Prop := ∀ va, a ≤ va < a + n → uvalid m root va.

Lemma copyin_loop_spec p root fuel a n s :
  wf_pt (mem s) root → umapped (mem s) root a (Z.of_nat n) → (n ≤ fuel)%nat →
  copyin_loop fuel p root a n s = Ok (0, map (uload (mem s) root) (seqZ a (Z.of_nat n))) s.
Proof.
  intros Hwf. revert a n. induction fuel as [|fuel IH]; intros a n Hm Hf; [by destruct n; [|lia]|].
  destruct n as [|n]; [done|]. cbn [copyin_loop].
  pose proof (Hm a ltac:(lia)) as Hv. pose proof (page_left_bounds a). pose proof (uv_range _ _ _ Hv).
  rewrite (mbindM_Ok _ _ _ _ _ (user_page_valid _ _ _ _ Hwf (uvalid_base _ _ _ Hv))), pte_of_page.
  fold (page_left a). set (k := Z.to_nat (Z.min (page_left a) (Z.of_nat (S n)))).
  assert (Z.of_nat k = Z.min (page_left a) (Z.of_nat (S n))) as Hk by (unfold k; lia). clearbody k.
  unfold mbindM at 1, gets at 1. rewrite bytes_at_user by (done || lia).
  rewrite next_page.
  assert (seqZ a (Z.of_nat (S n)) = seqZ a (Z.of_nat k) ++ seqZ (a + Z.of_nat k) (Z.of_nat (S n - k))) as Es.
  { replace (Z.of_nat (S n)) with (Z.of_nat k + Z.of_nat (S n - k)) by lia. apply seqZ_app; lia. }
  rewrite Es, map_app. destruct (decide (k = S n)) as [Ek|].
  - rewrite Ek, Nat.sub_diag. by destruct fuel.
  - assert (Z.of_nat k = page_left a) as Ek by lia. rewrite u64_small by (pose proof (Hm (a + page_left a) ltac:(lia)) as Hv2; apply uv_range in Hv2; unfold MAXVA in *; lia).
    rewrite <- Ek. rewrite (mbindM_Ok _ _ _ _ _ (IH (a + Z.of_nat k) (S n - k)%nat
      ltac:(intros va Hva; apply Hm; lia) ltac:(lia))). done.
Qed.
Lemma copyin_spec p root a n s :
  wf_pt (mem s) root → umapped (mem s) root a (Z.of_nat n) →
  copyin p root a n s = Ok (0, map (uload (mem s) root) (seqZ a (Z.of_nat n))) s.
Proof. intros Hwf Hm. by apply copyin_loop_spec. Qed.

(** The bytes up to a NUL, which is the last byte read. *)
Lemma scan_nul_spec m x l n :
  Forall (λ c, c ≠ 0) l → (length l < n)%nat → (∀ i c, (l ++ [0]) !! i = Some c → load8 m (x + Z.of_nat i) = c) →
  scan_nul n m x = (l ++ [0], true).
Proof.
  revert x n. induction l as [|c l IH]; intros x [|n] Hf Hn Hl; [simpl in Hn; lia| |simpl in Hn; lia|]; cbn [scan_nul].
  - pose proof (Hl 0%nat 0 ltac:(done)) as E. rewrite Z.add_0_r in E. by rewrite E.
  - pose proof (Hl 0%nat c ltac:(done)) as E. rewrite Z.add_0_r in E. rewrite E. apply Forall_cons in Hf as [Hc Hf].
    rewrite (proj2 (Z.eqb_neq _ _)) by done. rewrite (IH (x + 1) n); [done|done|simpl in Hn; lia|].
    intros i d Hi. rewrite <- Z.add_assoc. rewrite <- (Hl (S i) d Hi). f_equal. lia.
Qed.
Lemma scan_nul_none m x n :
  (∀ i, (i < n)%nat → load8 m (x + Z.of_nat i) ≠ 0) → scan_nul n m x = (bytes_at m x n, false).
Proof.
  revert x. induction n as [|n IH]; intros x Hl; [done|]. cbn [scan_nul].
  pose proof (Hl 0%nat ltac:(lia)) as E. rewrite Z.add_0_r in E. rewrite (proj2 (Z.eqb_neq _ _)) by done.
  rewrite IH. 2:{ intros i Hi. rewrite <- Z.add_assoc. replace (1 + Z.of_nat i) with (Z.of_nat (S i)) by lia. apply Hl. lia. }
  unfold bytes_at. cbn [seq map]. rewrite <- (seq_shift n 0), map_map, Z.add_0_r. f_equal. f_equal. apply map_ext.
  intros i. f_equal. lia.
Qed.

(** The process has the string [l] at [a]. *)
Record ustring (m : memory) (root a : Z) (l : list Z) : Prop := {
  us_map : umapped m root a (Z.of_nat (length l) + 1);
  us_chars : Forall (λ c, c ≠ 0) l;
  us_bytes : map (uload m root) (seqZ a (Z.of_nat (length l) + 1)) = l ++ [0] }.
Lemma us_byte m root a l i c : ustring m root a l → (l ++ [0]) !! i = Some c → uload m root (a + Z.of_nat i) = c.
Proof.
  intros Hs Hi. rewrite <- (us_bytes _ _ _ _ Hs) in Hi. change (map ?f ?l) with (f <$> l) in Hi. apply list_lookup_fmap_Some in Hi as (x & -> & Hx).
  apply lookup_seqZ in Hx as [-> _]. done.
Qed.
Lemma page_byte m root a i : uvalid m root a → 0 ≤ i < page_left a →
  load8 m (PTE2PA (pte_of m root a) + (a - PGROUNDDOWN a) + i) = uload m root (a + i).
Proof.
  intros Hv Hi. unfold uload. rewrite (pte_same_page _ _ _ _ (same_page a i Hi)), (uv_V _ _ _ Hv), uaddr_shift by done. done.
Qed.
Lemma ustring_drop m root a l k : (k ≤ length l)%nat → ustring m root a l → ustring m root (a + Z.of_nat k) (drop k l).
Proof.
  intros Hk [A B C]. split.
  - intros va Hva. rewrite length_drop in Hva. apply A. lia.
  - by apply Forall_drop.
  - rewrite length_drop. rewrite <- (drop_app_le l [0]) by done. rewrite <- C.
    replace (Z.of_nat (length l) + 1) with (Z.of_nat k + (Z.of_nat (length l - k) + 1)) by lia.
    rewrite (seqZ_app a (Z.of_nat k)), map_app by lia. rewrite drop_app_length'; [done|]. rewrite length_map, length_seqZ. lia.
Qed.

Lemma copyinstr_loop_spec p root fuel a l max s :
  wf_pt (mem s) root → ustring (mem s) root a l → (length l < max ≤ fuel)%nat →
  copyinstr_loop fuel p root a max s = Ok (0, l ++ [0]) s.
Proof.
  intros Hwf. revert a l max. induction fuel as [|fuel IH]; intros a l max Hs Hf; [lia|].
  destruct max as [|max]; [lia|]. cbn [copyinstr_loop].
  pose proof (us_map _ _ _ _ Hs a ltac:(lia)) as Hv. pose proof (page_left_bounds a). pose proof (uv_range _ _ _ Hv).
  rewrite (mbindM_Ok _ _ _ _ _ (user_page_valid _ _ _ _ Hwf (uvalid_base _ _ _ Hv))), pte_of_page.
  fold (page_left a). set (k := Z.to_nat (Z.min (page_left a) (Z.of_nat (S max)))).
  assert (Z.of_nat k = Z.min (page_left a) (Z.of_nat (S max))) as Hk by (unfold k; lia). clearbody k.
  unfold mbindM at 1, gets at 1. destruct (decide (length l < k)%nat) as [Hin|Hout].
  - rewrite (scan_nul_spec _ _ l) by (try apply Hs; try done; intros i c Hi; rewrite page_byte by
      (done || (apply lookup_lt_Some in Hi; rewrite length_app in Hi; simpl in Hi; lia)); by eapply us_byte). done.
  - rewrite scan_nul_none.
    2:{ intros i Hi. rewrite page_byte by (done || lia). destruct (lookup_lt_is_Some_2 l i ltac:(lia)) as [c Hc].
        rewrite (us_byte _ _ _ _ i c Hs) by (by apply lookup_app_l_Some). by apply (Forall_lookup_1 _ _ _ _ (us_chars _ _ _ _ Hs) Hc). }
    cbn [fst snd]. rewrite next_page, bytes_at_user by (done || lia). assert (Z.of_nat k = page_left a) as Ek by lia.
    pose proof (us_map _ _ _ _ Hs (a + page_left a) ltac:(lia)) as Hv2. apply uv_range in Hv2.
    rewrite u64_small by (unfold MAXVA in *; lia). rewrite <- Ek.
    rewrite (mbindM_Ok _ _ _ _ _ (IH (a + Z.of_nat k) (drop k l) (S max - k)%nat (ustring_drop _ _ _ l k ltac:(lia) Hs)
      ltac:(rewrite length_drop; lia))). unfold mretM. cbn [fst snd]. f_equal. f_equal.
    assert (map (uload (mem s) root) (seqZ a (Z.of_nat k)) = take k l) as ->; [|by rewrite app_assoc, take_drop].
    rewrite <- (take_app_le l [0]) by lia. rewrite <- (us_bytes _ _ _ _ Hs).
    replace (Z.of_nat (length l) + 1) with (Z.of_nat k + (Z.of_nat (length l - k) + 1)) by lia.
    rewrite (seqZ_app a (Z.of_nat k)), map_app by lia. rewrite take_app_length'; [done|]. rewrite length_map, length_seqZ. lia.
Qed.
Lemma copyinstr_spec p root a l max s :
  wf_pt (mem s) root → ustring (mem s) root a l → (length l < max)%nat →
  copyinstr p root a max s = Ok (0, l ++ [0]) s.
Proof. intros Hwf Hs Hm. by apply copyinstr_loop_spec. Qed.

(** ** To user memory *)

(** The range can be written: no page of it is copy-on-write, none of its frames
    holds page tables, and no other user page shares a frame with it. *)
Record uwritable (m : memory) (root a n : Z) : Prop := {
  uw_map : umapped m root a n;
  uw_cow : ∀ va, a ≤ va < a + n → has (pte_of m root va) PTE_COW = false;
  uw_frame : ∀ va p, a ≤ va < a + n → pt_page m root p → PTE2PA (pte_of m root va) ≠ p;
  uw_own : ∀ va va', a ≤ va < a + n → 0 ≤ va' < MAXVA → has (pte_of m root va') PTE_V = true →
    PTE2PA (pte_of m root va) = PTE2PA (pte_of m root va') → PGROUNDDOWN va = PGROUNDDOWN va' }.

Lemma frames_apart m root va p x :
  wf_pt m root → pt_page m root p → PTE2PA (pte_of m root va) ≠ p →
  PTE2PA (pte_of m root va) ≤ x < PTE2PA (pte_of m root va) + PGSIZE → ¬ (p ≤ x < p + PGSIZE).
Proof.
  intros Hwf Hp Hne Hx Hpx. apply Hne. pose proof (PTE2PA_aligned (pte_of m root va)).
  pose proof (pt_page_aligned _ _ _ Hwf Hp). unfold PGSIZE in *. Z.div_mod_to_equations. lia.
Qed.

(** Storing inside one user page. *)
Lemma page_store m root a bs n :
  wf_pt m root → uwritable m root a n → 0 < n → Z.of_nat (length bs) ≤ Z.min n (page_left a) →
  let m' := store_bytes m (PTE2PA (pte_of m root a) + (a - PGROUNDDOWN a)) bs in
  agree_on m m' (pt_page m root) ∧
  ∀ va, 0 ≤ va < MAXVA → uload m' root va =
    if in_range a (Z.of_nat (length bs)) va then u8 (nth (Z.to_nat (va - a)) bs 0) else uload m root va.
Proof.
  intros Hwf Hw Hn Hl m'. pose proof (uw_map _ _ _ _ Hw a ltac:(lia)) as Hv.
  pose proof (PGROUNDDOWN_le a) as Hp. set (fr := PTE2PA (pte_of m root a)) in *.
  assert (∀ x, ¬ (fr ≤ x < fr + PGSIZE) → m' x = m x) as Hout.
  { intros x Hx. unfold m', store_bytes. rewrite (proj2 (in_range_false _ _ x)); [done|]. unfold page_left in Hl. lia. }
  assert (agree_on m m' (pt_page m root)) as Hag.
  { intros p x Hpt Hx. apply Hout. intros Hf. eapply (frames_apart m root a p x); try done. apply (uw_frame _ _ _ _ Hw); [lia|done]. }
  split; [done|]. intros va Hva. unfold uload, uaddr. rewrite (pte_of_agree m m' root va Hag).
  destruct (has (pte_of m root va) PTE_V) eqn:EV.
  2:{ rewrite (proj2 (in_range_false _ _ va)); [done|]. intros Hr.
      pose proof (uw_map _ _ _ _ Hw va ltac:(lia)) as Hv'. by rewrite (uv_V _ _ _ Hv') in EV. }
  pose proof (Z.mod_pos_bound va PGSIZE ltac:(done)) as Hmod.
  destruct (decide (PTE2PA (pte_of m root va) = fr)) as [Ef|Hne].
  - pose proof (uw_own _ _ _ _ Hw a va ltac:(lia) Hva EV (eq_sym Ef)) as Epg. rewrite Ef.
    unfold load8, m', store_bytes. pose proof (PGROUNDDOWN_eq va) as Eva.
    destruct (in_range a (Z.of_nat (length bs)) va) eqn:Er.
    + apply in_range_true in Er. rewrite (proj2 (in_range_true _ _ _)) by lia.
      rewrite u8_idem. f_equal. f_equal. lia.
    + apply in_range_false in Er. rewrite (proj2 (in_range_false _ _ _)) by lia. done.
  - rewrite (proj2 (in_range_false _ _ va)).
    2:{ intros Hr. apply Hne. unfold fr. f_equal. apply pte_same_page.
        replace va with (a + (va - a)) by lia. apply same_page. lia. }
    unfold load8. rewrite Hout; [done|]. intros Hx. apply Hne.
    pose proof (PTE2PA_aligned (pte_of m root va)). pose proof (PTE2PA_aligned (pte_of m root a)) as Ha. fold fr in Ha.
    unfold PGSIZE in *. Z.div_mod_to_equations. lia.
Qed.
Lemma uwritable_agree m m' root a n : agree_on m m' (pt_page m root) → uwritable m root a n → uwritable m' root a n.
Proof.
  intros Ha [A B C E]. assert (∀ va, pte_of m' root va = pte_of m root va) as Hp by (intros; by apply pte_of_agree).
  split.
  - intros va Hva. destruct (A va Hva). by split; rewrite ?Hp.
  - intros va Hva. rewrite Hp. by apply B.
  - intros va p Hva Hpt. rewrite Hp. apply C; [done|]. by apply (pt_page_agree m m').
  - intros va va' Hva Hva'. rewrite !Hp. by apply E.
Qed.
Lemma uwritable_sub m root a n b k : a ≤ b → b + k ≤ a + n → uwritable m root a n → uwritable m root b k.
Proof.
  intros H1 H2 [A B C E]. split.
  - intros va Hva. apply A. lia.
  - intros va Hva. apply B. lia.
  - intros va p Hva. apply C. lia.
  - intros va va' Hva. apply E. lia.
Qed.
Lemma agree_trans m m1 m2 root :
  agree_on m m1 (pt_page m root) → agree_on m1 m2 (pt_page m1 root) → agree_on m m2 (pt_page m root).
Proof. intros H1 H2 p x Hp Hx. rewrite (H2 p x), (H1 p x); try done. by apply (pt_page_agree m m1). Qed.

(** The bytes [bs] have been written at [a] and nothing else changed. *)
Record written (s s' : kst) (root a : Z) (bs : list Z) : Prop := {
  wr_other : s' = set_mem (mem s') s;
  wr_table : agree_on (mem s) (mem s') (pt_page (mem s) root);
  wr_bytes : ∀ va, 0 ≤ va < MAXVA → uload (mem s') root va =
    if in_range a (Z.of_nat (length bs)) va then u8 (nth (Z.to_nat (va - a)) bs 0) else uload (mem s) root va }.
Lemma written_nil s root a : written s s root a [].
Proof. split; [by destruct s|done|]. intros va _. by rewrite (proj2 (in_range_false _ _ va)) by (simpl; lia). Qed.
Lemma written_app s s1 s2 root a b bs1 bs2 :
  b = a + Z.of_nat (length bs1) → written s s1 root a bs1 → written s1 s2 root b bs2 → written s s2 root a (bs1 ++ bs2).
Proof.
  intros -> [A1 B1 C1] [A2 B2 C2]. split.
  - rewrite A2, A1. by destruct s.
  - by eapply agree_trans.
  - intros va Hva. rewrite C2, C1, length_app by done. unfold in_range.
    destruct (Z.leb_spec (a + Z.of_nat (length bs1)) va), (Z.leb_spec a va),
      (Z.ltb_spec va (a + Z.of_nat (length bs1) + Z.of_nat (length bs2))), (Z.ltb_spec va (a + Z.of_nat (length bs1))),
      (Z.ltb_spec va (a + Z.of_nat (length bs1 + length bs2))); cbn [andb]; try lia; try done.
    + rewrite app_nth2 by lia. f_equal. f_equal. lia.
    + by rewrite app_nth1 by lia.
Qed.

Lemma copyout_loop_spec p root fuel a bs s :
  wf_pt (mem s) root → uwritable (mem s) root a (Z.of_nat (length bs)) → (length bs ≤ fuel)%nat →
  ∃ s', copyout_loop fuel p root a bs s = Ok 0 s' ∧ written s s' root a bs.
Proof.
  revert a bs s. induction fuel as [|fuel IH]; intros a bs s Hwf Hw Hf.
  { destruct bs; [|simpl in Hf; lia]. exists s. split; [done|apply written_nil]. }
  destruct (decide (bs = [])) as [->|Hne]; [exists s; split; [done|apply written_nil]|].
  assert (0 < length bs)%nat as Hpos by (destruct bs; [done|simpl; lia]).
  assert (copyout_loop (S fuel) p root a bs s = (let va0 := PGROUNDDOWN a in
    pte <-- walk root va0 false ;;
    v <-- (if pte =? 0 then mretM 0 else read_pte pte) ;;
    r <-- (if negb (pte =? 0) && has v PTE_V && has v PTE_COW then cow_alloc (Some p) root va0 else mretM 0) ;;
    if r <? 0 then mretM (-1)
    else
      q <-- user_page p root va0 ;;
      match q with
      | None => mretM (-1)
      | Some pa0 =>
          let n := Z.to_nat (Z.min (PGSIZE - (a - va0)) (Z.of_nat (length bs))) in
          modify (λ s, set_mem (store_bytes (mem s) (pa0 + (a - va0)) (take n bs)) s) ;;;
          copyout_loop fuel p root (u64 (va0 + PGSIZE)) (drop n bs)
      end) s) as -> by (by destruct bs).
  cbv zeta. pose proof (uw_map _ _ _ _ Hw a ltac:(lia)) as Hv. pose proof (uvalid_base _ _ _ Hv) as Hvb.
  destruct (walk_valid s root (PGROUNDDOWN a) Hwf (uv_range _ _ _ Hvb) (uv_V _ _ _ Hvb)) as (pte & Ew & Hnz & El).
  rewrite (mbindM_Ok _ _ _ _ _ Ew), (proj2 (Z.eqb_neq _ _)) by done. rewrite (mbindM_Ok (read_pte pte) _ s (pte_of (mem s) root a) s).
  2:{ unfold read_pte, gets. by rewrite El, pte_of_page. }
  rewrite (uw_cow _ _ _ _ Hw a ltac:(lia)), andb_false_r. rewrite (mbindM_Ok (mretM 0) _ s 0 s) by done. cbn [Z.ltb Z.compare].
  rewrite (mbindM_Ok _ _ _ _ _ (user_page_valid p _ _ _ Hwf Hvb)), pte_of_page. fold (page_left a).
  pose proof (page_left_bounds a). pose proof (uv_range _ _ _ Hv).
  set (k := Z.to_nat (Z.min (page_left a) (Z.of_nat (length bs)))).
  assert (Z.of_nat k = Z.min (page_left a) (Z.of_nat (length bs))) as Hk by (unfold k; lia). clearbody k.
  destruct (page_store (mem s) root a (take k bs) (Z.of_nat (length bs)) Hwf Hw) as [Hag Hst]; [lia|rewrite length_take; lia|].
  unfold mbindM at 1, modify at 1. set (s1 := set_mem _ s).
  assert (written s s1 root a (take k bs)) as Hw1 by (split; [by destruct s|done|done]).
  rewrite next_page. destruct (decide (k = length bs)) as [Ek|].
  - rewrite Ek, drop_all, firstn_all in *. exists s1. split; [by destruct fuel|done].
  - assert (Z.of_nat k = page_left a) as Ek by lia.
    pose proof (uw_map _ _ _ _ Hw (a + page_left a) ltac:(lia)) as Hv2. apply uv_range in Hv2.
    rewrite u64_small by (unfold MAXVA in *; lia). rewrite <- Ek.
    destruct (IH (a + Z.of_nat k) (drop k bs) s1) as (s' & E' & Hw').
    + by apply (wf_pt_agree (mem s)).
    + apply (uwritable_agree (mem s)); [done|]. eapply uwritable_sub; [..|exact Hw]; rewrite ?length_drop; lia.
    + rewrite length_drop. lia.
    + exists s'. split; [done|]. rewrite <- (take_drop k bs). eapply written_app; [|exact Hw1|exact Hw'].
      rewrite length_take. lia.
Qed.
Lemma copyout_spec p root a bs s :
  wf_pt (mem s) root → uwritable (mem s) root a (Z.of_nat (length bs)) →
  ∃ s', copyout p root a bs s = Ok 0 s' ∧ written s s' root a bs.
Proof. intros Hwf Hw. by apply copyout_loop_spec. Qed.
End UserCopy.

(** C14: bytes copied out to a mapped, writable range of a process come back
    unchanged from [copyin], over any number of pages; the copy touches no other
    byte the process sees, no page-table page and no allocator state. *)
Theorem user_copy_roundtrip `{Layout} (p p' : pmem) (root a : Z) (bs : list Z) (s : kst) :
  wf_pt (mem s) root → uwritable (mem s) root a (Z.of_nat (length bs)) → Forall (λ b, 0 ≤ b < 256) bs →
  ∃ s', copyout p root a bs s = Ok 0 s' ∧ written s s' root a bs ∧
    copyin p' root a (length bs) s' = Ok (0, bs) s'.
Proof.
  intros Hwf Hw Hb. destruct (copyout_spec p root a bs s Hwf Hw) as (s' & E & Hr). exists s'. split; [done|]. split; [done|].
  destruct Hr as [_ Ht Hu]. pose proof (uwritable_agree _ _ _ _ _ Ht Hw) as Hw'.
  rewrite copyin_spec; [|by apply (wf_pt_agree (mem s))|apply Hw']. f_equal. f_equal.
  apply (list_eq_same_length _ _ (length bs)); [done|by rewrite length_map, length_seqZ, Nat2Z.id|].
  intros i x y Hi. change (map ?f ?l) with (f <$> l). intros Hx Hy. apply list_lookup_fmap_Some in Hx as (va & -> & Hva).
  apply lookup_seqZ in Hva as [-> Hva]. pose proof (uv_range _ _ _ (uw_map _ _ _ _ Hw (a + Z.of_nat i) ltac:(lia))) as Hvr.
  rewrite Hu by done. rewrite (proj2 (in_range_true _ _ _)) by lia.
  replace (Z.to_nat (a + Z.of_nat i - a)) with i by lia. rewrite nth_lookup, Hy. simpl.
  apply u8_small. by apply (Forall_lookup_1 _ _ _ _ Hb Hy).
Qed.

(** ** A process with one page at 4096 *)
Section Demo.
#[local] Existing Instance small_layout.

Lemma demo_user_frame :
  ∃ s, wf_pt (mem s) demo_root ∧ uwritable (mem s) demo_root 4096 4096 ∧
    (∀ p, pt_page (mem s) demo_root p → p = demo_root ∨ p ∈ demo_free) ∧
    ∀ va, 4096 ≤ va < 8192 → pte_of (mem s) demo_root va = mk_pte demo_frame 22.
Proof.
  destruct (mappages_spec demo_st demo_free demo_root 4096 PGSIZE demo_frame 22) as (r & s' & L' & u & E & G & _ & P).
  - exact demo_pt_inv.
  - lia.
  - reflexivity.
  - vm_compute; congruence.
  - reflexivity.
  - vm_compute; intuition congruence.
  - lia.
  - intros a _. destruct demo_empty as (_ & _ & ->). reflexivity.
  - assert (match mappages demo_root 4096 PGSIZE demo_frame 22 demo_st with Ok r _ => r =? 0 | Panic _ => false end = true) as H0
      by (vm_compute; reflexivity).
    rewrite E in H0. apply Z.eqb_eq in H0 as ->. specialize (P eq_refl).
    assert (∀ va, 4096 ≤ va < 8192 → PGROUNDDOWN va = 4096) as Hpg.
    { intros va Hva. rewrite PGROUNDDOWN_eq. unfold PGSIZE. Z.div_mod_to_equations. lia. }
    assert (∀ va, 4096 ≤ va < 8192 → pte_of (mem s') demo_root va = mk_pte demo_frame 22) as Hp.
    { intros va Hva. rewrite P by (unfold MAXVA; lia). by rewrite (Hpg va Hva). }
    exists s'. split; [apply G|]. split; [split|split].
    + intros va Hva. split; [unfold MAXVA; lia|..]; rewrite Hp by lia; vm_compute; done.
    + intros va Hva. rewrite Hp by lia. vm_compute. done.
    + intros va p Hva Hpt. rewrite Hp by lia. intros <-. apply (g_pages _ _ _ _ _ _ G) in Hpt as [Hpt|Hpt].
      * destruct demo_empty as (_ & Hd & _). apply Hd in Hpt. vm_compute in Hpt. discriminate Hpt.
      * pose proof (g_split _ _ _ _ _ _ G) as Es.
        assert (bool_decide (PTE2PA (mk_pte demo_frame 22) ∈ demo_free) = false) as Hin%bool_decide_eq_false
          by (vm_compute; reflexivity).
        apply Hin. rewrite Es. apply elem_of_app. by left.
    + intros va va' Hva Hva' HV _. rewrite (Hpg va) by lia. rewrite P in HV by done.
      destruct ((PGROUNDDOWN 4096 <=? PGROUNDDOWN va') && (PGROUNDDOWN va' <? 4096 + PGSIZE)) eqn:Er.
      * bool_prop. change (PGROUNDDOWN 4096) with 4096 in *. pose proof (PGROUNDDOWN_aligned va'). unfold PGSIZE in *.
        Z.div_mod_to_equations. lia.
      * destruct demo_empty as (_ & _ & Hz). by rewrite Hz in HV.
    + intros p Hpt. apply (g_pages _ _ _ _ _ _ G) in Hpt as [Hpt|Hpt].
      * left. destruct demo_empty as (_ & Hd & _). by apply Hd.
      * right. rewrite (g_split _ _ _ _ _ _ G). apply elem_of_app. by left.
    + exact Hp.
Qed.
Lemma demo_user_page :
  ∃ s, wf_pt (mem s) demo_root ∧ uwritable (mem s) demo_root 4096 4096 ∧
    ∀ p, pt_page (mem s) demo_root p → p = demo_root ∨ p ∈ demo_free.
Proof. destruct demo_user_frame as (s & Hwf & Hw & Hp & _). by exists s. Qed.

Lemma user_copy_roundtrip_witness :
  ∃ s s', copyout (Pmem 8192 demo_root 0) demo_root 5000 [7; 8; 9] s = Ok 0 s' ∧
    copyin (Pmem 8192 demo_root 0) demo_root 5000 3 s' = Ok (0, [7; 8; 9]) s'.
Proof.
  destruct demo_user_page as (s & Hwf & Hw & _). exists s.
  destruct (user_copy_roundtrip (Pmem 8192 demo_root 0) (Pmem 8192 demo_root 0) demo_root 5000 [7; 8; 9] s Hwf) as (s' & E & _ & E').
  - eapply uwritable_sub; [..|exact Hw]; simpl; lia.
  - repeat constructor; lia.
  - exists s'. split; [exact E|exact E'].
Defined.
End Demo.
