(* ===== verification/Vma.v ===== *)
(** * Virtual memory areas (kernel/vma.c, kernel/include/vma.h)

    A process has sixteen slots; a [struct vma *] is the index of its slot.
    The manager's lock makes each operation one step.  [filedup] and
    [fileclose] are reached through the interface [FileRefs]. *)
From stdpp Require Import prelude list strings.
From Stdlib Require Import ZArith Lia.
From S2P Require Import Prelude Riscv.
Open Scope Z_scope.

Definition MAX_VMA : nat := 16.

Definition PROT_READ : Z := 1.
Definition PROT_WRITE : Z := 2.
Definition PROT_EXEC : Z := 4.
Definition MAP_SHARED : Z := 1.
Definition MAP_PRIVATE : Z := 2.
Definition MAP_FIXED : Z := 4.
Definition MAP_ANONYMOUS : Z := 8.

Record vma := Vma {
  v_addr : Z; v_length : Z; v_offset : Z; v_prot : Z; v_flags : Z;
  v_f : Z; (* struct file *, 0 is NULL *)
  v_used : bool }.

Record vma_manager := Vmam { vmas : list vma; vcount : Z }.

Definition set_used (b : bool) (v : vma) : vma :=
  Vma (v_addr v) (v_length v) (v_offset v) (v_prot v) (v_flags v) (v_f v) b.
Definition set_f (f : Z) (v : vma) : vma :=
  Vma (v_addr v) (v_length v) (v_offset v) (v_prot v) (v_flags v) f (v_used v).
Definition vma_clear (v : vma) : vma := set_f 0 (set_used false v).

(** ** Operations *)

Definition vma_init (m : vma_manager) : vma_manager := Vmam (map vma_clear (vmas m)) 0.

(** The scans of the slot array: index of the first slot satisfying [f]. *)
Fixpoint find_slot (f : vma → bool) (vs : list vma) : option nat :=
  match vs with
  | [] => None
  | v :: vs => if f v then Some O else option_map S (find_slot f vs)
  end.

Definition vma_alloc (m : vma_manager) : option nat * vma_manager :=
  match find_slot (λ v, negb (v_used v)) (vmas m) with
  | Some i => (Some i, Vmam (alter (set_used true) i (vmas m)) (i32 (vcount m + 1)))
  | None => (None, m)
  end.

Definition vma_free (m : vma_manager) (i : nat) : vma_manager :=
  match vmas m !! i with
  | Some v => if v_used v
              then Vmam (<[i := vma_clear v]> (vmas m)) (i32 (vcount m - 1)) else m
  | None => m
  end.

Definition vma_end (v : vma) : Z := u64 (v_addr v + v_length v).
Definition vma_has (addr : Z) (v : vma) : bool :=
  v_used v && (v_addr v <=? addr) && (addr <? vma_end v).

Definition vma_lookup (m : vma_manager) (addr : Z) : option nat :=
  find_slot (vma_has addr) (vmas m).

(** The overlap test of [vma_insert] and [vma_find_free_range]. *)
Definition vma_clash (addr length : Z) (v : vma) : bool :=
  v_used v && negb ((vma_end v <=? addr) || (u64 (addr + length) <=? v_addr v)).

Definition vma_insert (m : vma_manager) (addr length offset prot flags f : Z)
  : Z * vma_manager :=
  if length =? 0 then (-1, m)
  else
    let addr := PGROUNDDOWN addr in
    let length := PGROUNDUP length in
    match find_slot (vma_clash addr length) (vmas m) with
    | Some _ => (-1, m)
    | None =>
        match vma_alloc m with
        | (None, m') => (-1, m')
        | (Some i, m') =>
            (0, Vmam (<[i := Vma addr length offset prot flags f true]> (vmas m')) (vcount m'))
        end
    end.

Definition vma_inside (addr length : Z) (v : vma) : bool :=
  v_used v && (addr <=? v_addr v) && (vma_end v <=? u64 (addr + length)).

(** The loop of [vma_remove]: new slots, [count] and [removed]. *)
Fixpoint vma_remove_loop (addr length : Z) (vs : list vma) (count removed : Z)
  : list vma * Z * Z :=
  match vs with
  | [] => ([], count, removed)
  | v :: vs =>
      if vma_inside addr length v then
        let '(vs', c, r) := vma_remove_loop addr length vs (i32 (count - 1)) (i32 (removed + 1)) in
        (vma_clear v :: vs', c, r)
      else
        let '(vs', c, r) := vma_remove_loop addr length vs count removed in (v :: vs', c, r)
  end.

Definition vma_remove (m : vma_manager) (addr length : Z) : Z * vma_manager :=
  let '(vs, c, r) := vma_remove_loop addr length (vmas m) (vcount m) 0 in (r, Vmam vs c).

(** The [while] of [vma_find_free_range]: each round looks for the first slot
    in the way and moves below it.  [None] is "out of fuel" (it never happens,
    see [find_free_range_total]); [Some None] is [return -1]. *)
Fixpoint find_down (fuel : nat) (vs : list vma) (addr length : Z) : option (option Z) :=
  match fuel with
  | O => None
  | S fuel =>
      if PGSIZE <=? addr then
        match find_slot (vma_clash addr length) vs with
        | None => Some (Some addr)
        | Some i =>
            match vs !! i with
            | Some v => find_down fuel vs (u64 (v_addr v - length)) length
            | None => None
            end
        end
      else Some None
  end.

Definition vma_find_free_range (m : vma_manager) (hint_addr length : Z) : option (option Z) :=
  let length := PGROUNDUP length in
  let addr := PGROUNDDOWN hint_addr in
  if negb (hint_addr =? 0) &&
     match find_slot (vma_clash addr length) (vmas m) with
     | None => u64 (addr + length) <? MAXUVA
     | Some _ => false
     end
  then Some (Some addr)
  else find_down (S (S MAX_VMA)) (vmas m) (u64 (MAXUVA - length)) length.

(** What [vma_copy] and [vma_cleanup] need of the open-file table: reference
    counts that [filedup] raises and [fileclose] lowers. *)
Class FileRefs (F : Type) := {
  filedup_ : Z → M F unit;
  fileclose_ : Z → M F unit;
  file_ref : F → Z → Z;
  file_ok : F → Prop;
  filedup_law : ∀ f s, file_ok s → 1 ≤ file_ref s f < 2 ^ 31 - 1 →
    ∃ s', filedup_ f s = Ok tt s' ∧ file_ok s' ∧
      ∀ g, file_ref s' g = file_ref s g + (if g =? f then 1 else 0);
  fileclose_law : ∀ f s, file_ok s → 1 < file_ref s f →
    ∃ s', fileclose_ f s = Ok tt s' ∧ file_ok s' ∧
      ∀ g, file_ref s' g = file_ref s g - (if g =? f then 1 else 0) }.

Section WithFiles.
Context {F : Type} `{FileRefs F}.

Fixpoint vma_copy_loop (src dst : list vma) (count : Z) : M F (list vma * Z) :=
  match src, dst with
  | v :: src, d :: dst =>
      if v_used v then
        whenM (negb (v_f v =? 0)) (filedup_ (v_f v)) ;;;
        r <-- vma_copy_loop src dst (i32 (count + 1)) ;;
        mretM (v :: r.1, r.2)
      else
        r <-- vma_copy_loop src dst count ;;
        mretM (vma_clear d :: r.1, r.2)
  | _, _ => mretM (dst, count)
  end.

Definition vma_copy (dst src : vma_manager) : M F vma_manager :=
  r <-- vma_copy_loop (vmas src) (vmas dst) 0 ;; mretM (Vmam r.1 r.2).

Fixpoint vma_cleanup_loop (vs : list vma) : M F (list vma) :=
  match vs with
  | [] => mretM []
  | v :: vs =>
      if v_used v then
        whenM (negb (v_f v =? 0)) (fileclose_ (v_f v)) ;;;
        r <-- vma_cleanup_loop vs ;;
        mretM (set_used false (if v_f v =? 0 then v else set_f 0 v) :: r)
      else r <-- vma_cleanup_loop vs ;; mretM (v :: r)
  end.

Definition vma_cleanup (m : vma_manager) : M F vma_manager :=
  vs <-- vma_cleanup_loop (vmas m) ;; mretM (Vmam vs 0).
End WithFiles.

(** ** Invariant *)

Definition vma_ok (v : vma) : Prop :=
  v_used v = true → v_addr v mod PGSIZE = 0 ∧ v_length v mod PGSIZE = 0 ∧
    0 ≤ v_addr v ∧ 0 < v_length v ∧ v_addr v + v_length v < 2 ^ 64.

Definition vma_disj (v w : vma) : Prop :=
  v_used v = true → w.(v_used) = true →
  v_addr v + v_length v ≤ v_addr w ∨ v_addr w + v_length w ≤ v_addr v.

Definition used_count (vs : list vma) : nat := length (filter (λ v, v_used v = true) vs).

Record vma_inv (m : vma_manager) : Prop := {
  vi_len : length (vmas m) = MAX_VMA;
  vi_count : vcount m = Z.of_nat (used_count (vmas m));
  vi_ok : Forall vma_ok (vmas m);
  vi_disj : ∀ i j v w, i ≠ j → vmas m !! i = Some v → vmas m !! j = Some w → vma_disj v w }.

(** The regions of a manager, as a set of addresses and their slot. *)
Definition vma_covers (m : vma_manager) (i : nat) (addr : Z) : Prop :=
  ∃ v, vmas m !! i = Some v ∧ v_used v = true ∧ v_addr v ≤ addr < v_addr v + v_length v.

(** ** Lemmas *)

Lemma find_slot_Some f vs i :
  find_slot f vs = Some i →
  ∃ v, vs !! i = Some v ∧ f v = true ∧ ∀ j w, (j < i)%nat → vs !! j = Some w → f w = false.
Proof.
  revert i. induction vs as [|v vs IH]; intros i E; [done|]. simpl in E.
  destruct (f v) eqn:Ef.
  - injection E as <-. exists v. split_and!; [done|done|]. intros; lia.
  - destruct (find_slot f vs) as [k|] eqn:Ek; [|done]. injection E as <-.
    destruct (IH k eq_refl) as (w & H1 & H2 & H3). exists w. split_and!; [done|done|].
    intros [|j] w' Hj E'; simpl in *; [congruence|]. apply (H3 j); [lia|done].
Qed.

Lemma find_slot_None f vs :
  find_slot f vs = None → ∀ i v, vs !! i = Some v → f v = false.
Proof.
  induction vs as [|v vs IH]; intros E [|i] w Hw; simpl in *; try done.
  - injection Hw as ->. by destruct (f w).
  - destruct (f v); [done|]. destruct (find_slot f vs); [done|]. by apply (IH eq_refl i).
Qed.

Lemma find_slot_ex f vs i v : vs !! i = Some v → f v = true → is_Some (find_slot f vs).
Proof.
  intros Hi Hf. destruct (find_slot f vs) eqn:E; [done|].
  by rewrite (find_slot_None f vs E i v Hi) in Hf.
Qed.

Lemma vma_end_ok v : vma_ok v → v_used v = true → vma_end v = v_addr v + v_length v.
Proof. intros Hv Hu. destruct (Hv Hu) as (_ & _ & ? & ? & ?). apply u64_small. lia. Qed.

Lemma vi_ok_lookup m i v : vma_inv m → vmas m !! i = Some v → vma_ok v.
Proof. intros Hi Hv. by apply (Forall_lookup_1 _ _ _ _ (vi_ok _ Hi) Hv). Qed.

Lemma vma_has_true m i v addr :
  vma_inv m → vmas m !! i = Some v →
  vma_has addr v = true ↔ v_used v = true ∧ v_addr v ≤ addr < v_addr v + v_length v.
Proof.
  intros Hi Hv. unfold vma_has. pose proof (vi_ok_lookup _ _ _ Hi Hv) as Hok.
  destruct (v_used v) eqn:Hu; simpl; [|naive_solver].
  rewrite vma_end_ok, andb_true_iff, Z.leb_le, Z.ltb_lt by done. naive_solver.
Qed.

(** Lookup finds the slot that covers the address: there is at most one. *)
Lemma vma_lookup_spec m addr i :
  vma_inv m → vma_lookup m addr = Some i ↔ vma_covers m i addr.
Proof.
  intros Hi. split.
  - intros (v & Hv & Hh & _)%find_slot_Some. apply (vma_has_true m i v) in Hh; [|done..].
    by exists v.
  - intros (v & Hv & Hu & Ha).
    destruct (find_slot_ex (vma_has addr) (vmas m) i v) as [j Ej]; [done|by apply (vma_has_true m i v)|].
    unfold vma_lookup. rewrite Ej. f_equal.
    apply find_slot_Some in Ej as (w & Hw & Hh & _). apply (vma_has_true m j w) in Hh; [|done..].
    destruct (decide (i = j)) as [|Hne]; [done|].
    destruct (vi_disj _ Hi i j v w Hne Hv Hw Hu); [naive_solver|lia|lia].
Qed.

Lemma used_count_le vs : (used_count vs ≤ length vs)%nat.
Proof. apply length_filter. Qed.

Lemma used_count_insert vs i v w :
  vs !! i = Some v →
  Z.of_nat (used_count (<[i := w]> vs)) =
  Z.of_nat (used_count vs) + (if v_used w then 1 else 0) - (if v_used v then 1 else 0).
Proof.
  revert i. induction vs as [|x vs IH]; intros [|i] Hv; simplify_eq/=.
  - unfold used_count. rewrite !filter_cons.
    destruct (v_used v), (v_used w); simpl; lia.
  - specialize (IH i Hv). unfold used_count in *. rewrite !filter_cons.
    destruct (v_used x); simpl; lia.
Qed.

Lemma alter_insert_eq (f : vma → vma) (i : nat) (vs : list vma) v w :
  vs !! i = Some v → <[i := w]> (alter f i vs) = <[i := w]> vs.
Proof.
  intros Hv. apply list_eq. intros j. destruct (decide (i = j)) as [<-|Hne].
  - pose proof (lookup_lt_Some _ _ _ Hv) as Hl.
    rewrite !list_lookup_insert by (rewrite ?length_alter; done).
    rewrite !decide_True by (rewrite ?length_alter; done). done.
  - by rewrite !list_lookup_insert_ne, list_lookup_alter_ne by done.
Qed.

(** Replacing the slot [i] keeps the invariant when the new entry is well
    formed and clear of the other slots. *)
Lemma vma_inv_insert m i v w c :
  vma_inv m → vmas m !! i = Some v → vma_ok w →
  (∀ j x, j ≠ i → vmas m !! j = Some x → vma_disj w x) →
  c = Z.of_nat (used_count (<[i := w]> (vmas m))) →
  vma_inv (Vmam (<[i := w]> (vmas m)) c).
Proof.
  intros [Hl Hc Hok Hd] Hv Hw Hx Ec. pose proof (lookup_lt_Some _ _ _ Hv) as Hlt.
  split; cbn [vmas vcount].
  - by rewrite length_insert.
  - done.
  - by apply Forall_insert.
  - intros j k a b Hne Ha Hb.
    assert (∀ x y, vma_disj x y → vma_disj y x) as Hsym.
    { intros x y Hxy Hy Hx'. destruct (Hxy Hx' Hy); auto. }
    apply list_lookup_insert_Some in Ha as [(<- & <- & _)|[Hij Ha]];
      apply list_lookup_insert_Some in Hb as [(<- & <- & _)|[Hik Hb]].
    + done.
    + apply (Hx k); [by intros ->|done].
    + apply Hsym, (Hx j); [by intros ->|done].
    + by apply (Hd j k).
Qed.

Lemma vma_alloc_spec m :
  vma_inv m →
  match vma_alloc m with
  | (None, m') => m' = m ∧ ∀ i v, vmas m !! i = Some v → v_used v = true
  | (Some i, m') => ∃ v, vmas m !! i = Some v ∧ v_used v = false ∧
      vmas m' = alter (set_used true) i (vmas m) ∧ vcount m' = vcount m + 1
  end.
Proof.
  intros Hi. unfold vma_alloc. destruct (find_slot _ _) as [i|] eqn:E.
  - apply find_slot_Some in E as (v & Hv & Hu & _). exists v.
    apply negb_true_iff in Hu. split_and!; try done. simpl.
    rewrite (vi_count _ Hi). pose proof (used_count_le (vmas m)). rewrite (vi_len _ Hi) in *.
    apply i32_small. unfold MAX_VMA in *. lia.
  - split; [done|]. intros i v Hv. apply (find_slot_None _ _ E) in Hv. by apply negb_false_iff.
Qed.

(** ** Properties *)

(** Within the address space: rounding the request does not overflow. *)
Definition vma_request (addr length : Z) : Prop :=
  0 ≤ addr ∧ 0 < length ∧ addr + length < 2 ^ 64 - 2 * PGSIZE.

Lemma vma_request_round addr length :
  vma_request addr length →
  let a := PGROUNDDOWN addr in let n := PGROUNDUP length in
  a mod PGSIZE = 0 ∧ n mod PGSIZE = 0 ∧ 0 ≤ a ≤ addr ∧ length ≤ n ∧ a + n < 2 ^ 64 ∧
  u64 (a + n) = a + n.
Proof.
  intros (H1 & H2 & H3). cbn zeta. unfold PGSIZE in H3.
  pose proof (PGROUNDDOWN_le addr) as Hd. pose proof (PGROUNDDOWN_aligned addr).
  pose proof (PGROUNDUP_bounds length ltac:(lia) ltac:(lia)). pose proof (PGROUNDUP_aligned length).
  set (a := PGROUNDDOWN addr) in *. set (n := PGROUNDUP length) in *.
  assert (0 ≤ a) by (unfold PGSIZE in *; Z.div_mod_to_equations; lia).
  assert (a + n < 2 ^ 64) by (unfold PGSIZE in *; lia).
  split_and!; try done; try lia. apply u64_small. lia.
Qed.

Lemma vma_clash_false m i v addr length :
  vma_inv m → vmas m !! i = Some v → u64 (addr + length) = addr + length →
  vma_clash addr length v = false ↔
  (v_used v = true → v_addr v + v_length v ≤ addr ∨ addr + length ≤ v_addr v).
Proof.
  intros Hi Hv Hu. unfold vma_clash. destruct (v_used v) eqn:E; simpl; [|naive_solver].
  rewrite vma_end_ok, Hu, negb_false_iff, orb_true_iff, !Z.leb_le by
    (done || by apply (vi_ok_lookup m i)). naive_solver.
Qed.

Lemma vma_insert_spec m addr length offset prot flags f :
  vma_inv m → vma_request addr length →
  let a := PGROUNDDOWN addr in let n := PGROUNDUP length in
  match vma_insert m addr length offset prot flags f with
  | (-1, m') => m' = m ∧
      ((∃ i x, a ≤ x < a + n ∧ vma_covers m i x) ∨
       (∀ i v, vmas m !! i = Some v → v_used v = true))
  | (r, m') => r = 0 ∧ vma_inv m' ∧
      ∃ i, vmas m' !! i = Some (Vma a n offset prot flags f true) ∧
        (∀ x, vma_lookup m' x = if (a <=? x) && (x <? a + n) then Some i else vma_lookup m x)
  end.
Proof.
  intros Hi Hreq a n. destruct (vma_request_round _ _ Hreq) as (Ha & Hn & Ha0 & Hln & Hmax & Hu).
  fold a n in Ha, Hn, Ha0, Hln, Hmax, Hu. destruct Hreq as (_ & Hl0 & _).
  unfold vma_insert. destruct (Z.eqb_spec length 0); [lia|]. fold a n.
  destruct (find_slot (vma_clash a n) (vmas m)) as [i|] eqn:Ec.
  { split; [done|]. left. apply find_slot_Some in Ec as (v & Hv & Hc & _).
    assert (v_used v = true) as Huv by (unfold vma_clash in Hc; by destruct (v_used v)).
    destruct (vi_ok_lookup _ _ _ Hi Hv Huv) as (_ & _ & ? & ? & ?).
    exists i, (Z.max a (v_addr v)).
    destruct (decide (v_addr v + v_length v ≤ a ∨ a + n ≤ v_addr v)) as [Hd|Hd].
    - assert (vma_clash a n v = false) as E by by apply (vma_clash_false m i). congruence.
    - split; [lia|]. exists v. split_and!; [done|done|lia|lia]. }
  pose proof (find_slot_None _ _ Ec) as Hfree.
  pose proof (vma_alloc_spec m Hi) as Hal. destruct (vma_alloc m) as [[i|] m'].
  2:{ destruct Hal as [-> Hall]. split; [done|by right]. }
  destruct Hal as (v & Hv & Huv & Em & Ecnt). rewrite Em, Ecnt, (alter_insert_eq _ _ _ v) by done.
  set (w := Vma a n offset prot flags f true).
  assert (vma_inv (Vmam (<[i := w]> (vmas m)) (vcount m + 1))) as Hinv.
  { apply (vma_inv_insert m i v); [done|done|intros _; simpl; split_and!; try done; lia| |].
    - intros j x Hji Hx _ Hxu. specialize (Hfree j x Hx).
      apply (vma_clash_false m j) in Hfree; [|done..]. simpl. destruct Hfree; auto.
    - rewrite (used_count_insert _ _ v) by done. rewrite (vi_count _ Hi), Huv. simpl. lia. }
  split; [done|]. split; [done|]. exists i.
  pose proof (lookup_lt_Some _ _ _ Hv) as Hlt.
  split; [by apply list_lookup_insert_eq|]. intros x.
  destruct ((a <=? x) && (x <? a + n)) eqn:Ex; bool_prop.
  - apply vma_lookup_spec; [done|]. exists w. split; [by apply list_lookup_insert_eq|]. done.
  - assert (∀ j, vma_covers (Vmam (<[i := w]> (vmas m)) (vcount m + 1)) j x ↔ vma_covers m j x) as Heq.
    { intros j. unfold vma_covers. cbn [vmas]. split; intros (y & Hy & Hyu & Hyx).
      - apply list_lookup_insert_Some in Hy as [(<- & <- & _)|[Hne Hy]]; [|by exists y].
        exfalso. cbn in Hyx. assert ((a <=? x) && (x <? a + n) = true); [|congruence].
        apply andb_true_intro. rewrite Z.leb_le, Z.ltb_lt. lia.
      - exists y. split; [|done]. rewrite list_lookup_insert_ne; [done|]. intros ->. congruence. }
    destruct (vma_lookup m x) as [j|] eqn:Ej.
    + apply vma_lookup_spec; [done|]. apply Heq. by apply vma_lookup_spec.
    + destruct (vma_lookup (Vmam (<[i := w]> (vmas m)) (vcount m + 1)) x) as [j|] eqn:Ej'; [|done].
      apply vma_lookup_spec, Heq, vma_lookup_spec in Ej'; [congruence|done|done].
Qed.

(** [vma_insert] returns -1 without any change when the rounded range meets
    a region in use or no slot is free, and otherwise takes a free slot,
    returns 0 and keeps the invariant (page-aligned, pairwise disjoint regions,
    [count] of them); the new region is then found by [vma_lookup] at exactly
    its addresses, and lookups elsewhere are unchanged. *)
Theorem vma_insert_correct m addr length offset prot flags f :
  vma_inv m → vma_request addr length →
  let a := PGROUNDDOWN addr in let n := PGROUNDUP length in
  match vma_insert m addr length offset prot flags f with
  | (-1, m') => m' = m ∧
      ((∃ i x, a ≤ x < a + n ∧ vma_covers m i x) ∨
       (∀ i v, vmas m !! i = Some v → v_used v = true))
  | (r, m') => r = 0 ∧ vma_inv m' ∧
      ∃ i, vmas m' !! i = Some (Vma a n offset prot flags f true) ∧
        (∀ x, vma_lookup m' x = if (a <=? x) && (x <? a + n) then Some i else vma_lookup m x)
  end.
Proof. apply vma_insert_spec. Qed.

Lemma vma_remove_loop_spec addr length vs c r :
  - 2 ^ 31 ≤ c - Z.of_nat (List.length vs) → c < 2 ^ 31 →
  0 ≤ r → r + Z.of_nat (List.length vs) < 2 ^ 31 →
  let k := Z.of_nat (List.length (filter (λ v, vma_inside addr length v = true) vs)) in
  vma_remove_loop addr length vs c r =
    (map (λ v, if vma_inside addr length v then vma_clear v else v) vs, c - k, r + k).
Proof.
  revert c r. induction vs as [|v vs IH]; intros c r H1 H2 H3 H4; simpl in *.
  { f_equal; [f_equal|]; lia. }
  rewrite filter_cons. destruct (vma_inside addr length v) eqn:E; simpl.
  - rewrite !i32_small by lia. rewrite IH by lia. simpl. f_equal; [f_equal|]; lia.
  - by rewrite IH by lia.
Qed.

Lemma used_count_remove addr length vs :
  Z.of_nat (used_count (map (λ v, if vma_inside addr length v then vma_clear v else v) vs)) =
  Z.of_nat (used_count vs) -
  Z.of_nat (List.length (filter (λ v, vma_inside addr length v = true) vs)).
Proof.
  unfold used_count. induction vs as [|v vs IH]; [done|]. simpl map. rewrite !filter_cons.
  destruct (vma_inside addr length v) eqn:E; simpl in *.
  - unfold vma_inside in E. destruct (v_used v); simpl in *; [lia|done].
  - destruct (v_used v); simpl; lia.
Qed.

Lemma vma_remove_spec m addr length :
  vma_inv m → 0 ≤ addr → 0 ≤ length → addr + length < 2 ^ 64 →
  let '(r, m') := vma_remove m addr length in
  vma_inv m' ∧
  r = Z.of_nat (List.length (filter (λ v, v_used v = true ∧ addr ≤ v_addr v ∧
        v_addr v + v_length v ≤ addr + length) (vmas m))) ∧
  (∀ i x, vma_covers m' i x ↔ vma_covers m i x ∧
     ∃ v, vmas m !! i = Some v ∧ ¬ (addr ≤ v_addr v ∧ v_addr v + v_length v ≤ addr + length)).
Proof.
  intros Hi Ha Hl Hmax. unfold vma_remove. pose proof (used_count_le (vmas m)) as Hle.
  pose proof (vi_len _ Hi) as Hlen. pose proof (vi_count _ Hi) as Hcnt. unfold MAX_VMA in Hlen.
  rewrite vma_remove_loop_spec by (rewrite ?Hlen, ?Hcnt; lia).
  assert (∀ i v, vmas m !! i = Some v → vma_inside addr length v = true ↔
    v_used v = true ∧ addr ≤ v_addr v ∧ v_addr v + v_length v ≤ addr + length) as Hin.
  { intros i v Hv. pose proof (vi_ok_lookup _ _ _ Hi Hv) as Hok. unfold vma_inside.
    destruct (v_used v) eqn:Hu; [|naive_solver]. rewrite vma_end_ok by done.
    rewrite (u64_small (addr + length)), !andb_true_iff, !Z.leb_le by lia. naive_solver. }
  assert (∀ i, map (λ v, if vma_inside addr length v then vma_clear v else v) (vmas m) !! i =
    (λ v, if vma_inside addr length v then vma_clear v else v) <$> vmas m !! i) as Hmap
    by (intros; apply list_lookup_fmap).
  split; [|split].
  - split; simpl.
    + by rewrite length_map.
    + by rewrite used_count_remove, Hcnt.
    + apply Forall_fmap, (Forall_impl _ _ _ (vi_ok _ Hi)). intros v Hv. simpl.
      by destruct (vma_inside addr length v).
    + intros i j v w Hne Hv Hw. rewrite Hmap in Hv, Hw.
      apply fmap_Some in Hv as (v0 & Hv & ->), Hw as (w0 & Hw & ->).
      pose proof (vi_disj _ Hi i j v0 w0 Hne Hv Hw).
      by destruct (vma_inside addr length v0), (vma_inside addr length w0).
  - rewrite Z.add_0_l. f_equal. f_equal. apply filter_ext_in. intros v Hv.
    apply list_elem_of_lookup in Hv as [i Hv]. by apply (Hin i).
  - intros i x. unfold vma_covers. cbn [vmas]. setoid_rewrite Hmap. split.
    + intros (v & (v0 & Hv & ->)%fmap_Some & Hu & Hx).
      destruct (vma_inside addr length v0) eqn:E; [done|]. split; [by exists v0|].
      exists v0. split; [done|]. intros Hn.
      assert (vma_inside addr length v0 = true) by (apply (Hin i); tauto). congruence.
    + intros [(v & Hv & Hu & Hx) (v' & Hv' & Hn)]. simplify_eq. exists v.
      rewrite Hv. simpl. destruct (vma_inside addr length v) eqn:E; [|done].
      apply (Hin i) in E; [tauto|done].
Qed.

(** [vma_remove] drops exactly the regions that lie inside the range and
    returns their number; every other slot is untouched and the invariant is
    kept.  (A region that only overlaps the range stays.) *)
Theorem vma_remove_correct m addr length :
  vma_inv m → 0 ≤ addr → 0 ≤ length → addr + length < 2 ^ 64 →
  let '(r, m') := vma_remove m addr length in
  vma_inv m' ∧
  r = Z.of_nat (List.length (filter (λ v, v_used v = true ∧ addr ≤ v_addr v ∧
        v_addr v + v_length v ≤ addr + length) (vmas m))) ∧
  (∀ i x, vma_covers m' i x ↔ vma_covers m i x ∧
     ∃ v, vmas m !! i = Some v ∧ ¬ (addr ≤ v_addr v ∧ v_addr v + v_length v ≤ addr + length)).
Proof. apply vma_remove_spec. Qed.

(** ** The search for a free range *)

(** Regions that start below [b]: the search can only meet these again. *)
Definition below (b : Z) (vs : list vma) : nat :=
  length (filter (λ v, v_used v = true ∧ v_addr v < b) vs).

(** What the search may return: a free range inside user space; or, when some
    region starts below [n], an address that wrapped around 0; or -1 when every
    candidate position is taken. *)
Definition range_result (m : vma_manager) (n : Z) (res : option Z) : Prop :=
  match res with
  | Some r =>
      (r mod PGSIZE = 0 ∧ 0 ≤ r ∧ r + n ≤ MAXUVA ∧
         ∀ i x, r ≤ x < r + n → ¬ vma_covers m i x) ∨
      (2 ^ 64 - n ≤ r ∧ ∃ i v, vmas m !! i = Some v ∧ v_used v = true ∧ v_addr v < n)
  | None => ∀ b, PGSIZE ≤ b → b + n ≤ MAXUVA → ∃ i x, b ≤ x < b + n ∧ vma_covers m i x
  end.

Lemma clash_covers m i v b n :
  vma_inv m → vmas m !! i = Some v → v_used v = true → 0 < n →
  v_addr v < b + n → b < v_addr v + v_length v → ∃ x, b ≤ x < b + n ∧ vma_covers m i x.
Proof.
  intros Hi Hv Hu Hn H1 H2. destruct (vi_ok_lookup _ _ _ Hi Hv Hu) as (_ & _ & ? & ? & ?).
  exists (Z.max b (v_addr v)). split; [lia|]. exists v. split_and!; done || lia.
Qed.

Lemma no_clash_free m b n :
  vma_inv m → u64 (b + n) = b + n → find_slot (vma_clash b n) (vmas m) = None →
  ∀ i x, b ≤ x < b + n → ¬ vma_covers m i x.
Proof.
  intros Hi Hu Hc i x Hx (v & Hv & Huv & Hvx). pose proof (find_slot_None _ _ Hc i v Hv) as Hf.
  apply (vma_clash_false m i) in Hf; [|done..]. lia.
Qed.

Lemma find_down_spec m n addr fuel :
  vma_inv m → (∀ i v, vmas m !! i = Some v → v_used v = true → v_addr v + v_length v < 2 ^ 63) →
  n mod PGSIZE = 0 → 0 < n ≤ MAXUVA → addr mod PGSIZE = 0 → 0 ≤ addr → addr + n ≤ MAXUVA →
  (below (addr + n) (vmas m) < fuel)%nat →
  (∀ b, addr < b → b + n ≤ MAXUVA → ∃ i x, b ≤ x < b + n ∧ vma_covers m i x) →
  ∃ res, find_down fuel (vmas m) addr n = Some res ∧ range_result m n res.
Proof.
  intros Hi Hsmall Hn Hn0. revert addr. induction fuel as [|fuel IH]; intros addr Ha Ha0 Hmax Hf Hb; [lia|].
  cbn [find_down]. unfold MAXUVA, RUSTSBI_BASE in *.
  assert (u64 (addr + n) = addr + n) as Hu by (apply u64_small; lia).
  destruct (Z.leb_spec PGSIZE addr) as [Hp|Hp].
  2:{ exists None. split; [done|]. intros b Hb1 Hb2. unfold MAXUVA, RUSTSBI_BASE in *. apply Hb; lia. }
  destruct (find_slot (vma_clash addr n) (vmas m)) as [i|] eqn:Ec.
  2:{ exists (Some addr). split; [done|]. left. split_and!; try done. by apply no_clash_free. }
  apply find_slot_Some in Ec as (v & Hv & Hc & _). rewrite Hv.
  assert (v_used v = true) as Huv by (unfold vma_clash in Hc; by destruct (v_used v)).
  destruct (vi_ok_lookup _ _ _ Hi Hv Huv) as (Hva & _ & Hv0 & Hvl & _).
  pose proof (Hsmall i v Hv Huv).
  assert (v_addr v < addr + n ∧ addr < v_addr v + v_length v) as [Hc1 Hc2].
  { destruct (decide (v_addr v + v_length v ≤ addr ∨ addr + n ≤ v_addr v)) as [Hd|Hd]; [|lia].
    assert (vma_clash addr n v = false) by by apply (vma_clash_false m i). congruence. }
  destruct (decide (n ≤ v_addr v)) as [Hge|Hlt].
  - rewrite u64_small by lia. apply IH; try lia.
    + unfold PGSIZE in *. Z.div_mod_to_equations. lia.
    + replace (v_addr v - n + n) with (v_addr v) by lia.
      assert (below (v_addr v) (vmas m) < below (addr + n) (vmas m))%nat; [|lia].
      apply (filter_length_lt _ _ _ v); [intros y []; split; [done|lia]| |split; [done|lia]|intros []; lia].
      apply list_elem_of_lookup. by exists i.
    + intros b Hb1 Hb2. destruct (decide (addr < b)) as [|Hab]; [by apply Hb|].
      exists i. apply (clash_covers m i v); done || lia.
  - (* the subtraction wraps: the next round accepts the address *)
    assert (u64 (v_addr v - n) = v_addr v - n + 2 ^ 64) as Ew.
    { unfold u64. rewrite <- (Z.mod_add _ 1), Z.mod_small by lia. lia. }
    rewrite Ew. exists (Some (v_addr v - n + 2 ^ 64)).
    split; [|right; split; [lia|by exists i, v; split_and!; try done; lia]].
    destruct fuel as [|fuel].
    { assert (0 < below (addr + n) (vmas m))%nat; [|lia].
      assert (below (v_addr v) (vmas m) < below (addr + n) (vmas m))%nat; [|lia].
      apply (filter_length_lt _ _ _ v); [intros y []; split; [done|lia]| |split; [done|lia]|intros []; lia].
      apply list_elem_of_lookup. by exists i. }
    cbn [find_down]. destruct (Z.leb_spec PGSIZE (v_addr v - n + 2 ^ 64)); [|unfold PGSIZE in *; lia].
    destruct (find_slot _ _) as [j|] eqn:Ej; [|done]. exfalso.
    apply find_slot_Some in Ej as (w & Hw & Hcw & _). unfold vma_clash in Hcw.
    destruct (v_used w) eqn:Huw; [|done]. simpl in Hcw.
    rewrite (vma_end_ok w) in Hcw by (done || by apply (vi_ok_lookup m j)).
    destruct (Z.leb_spec (v_addr w + v_length w) (v_addr v - n + 2 ^ 64)) as [|Hbad]; [done|].
    pose proof (Hsmall j w Hw Huw). lia.
Qed.

Lemma vma_find_free_range_spec m hint length :
  vma_inv m → (∀ i v, vmas m !! i = Some v → v_used v = true → v_addr v + v_length v < 2 ^ 63) →
  0 < length < MAXUVA → 0 ≤ hint < 2 ^ 63 →
  ∃ res, vma_find_free_range m hint length = Some res ∧ range_result m (PGROUNDUP length) res.
Proof.
  intros Hi Hs Hl Hh. unfold vma_find_free_range.
  destruct (vma_request_round hint length) as (Ha & Hn & Ha0 & Hln & _ & Hu).
  { unfold vma_request, MAXUVA, RUSTSBI_BASE, PGSIZE in *. lia. }
  set (a := PGROUNDDOWN hint) in *. set (n := PGROUNDUP length) in *.
  assert (n ≤ MAXUVA) as Hnm.
  { pose proof (PGROUNDUP_bounds length) as Hb. fold n in Hb.
    unfold MAXUVA, RUSTSBI_BASE, PGSIZE in *. Z.div_mod_to_equations; lia. }
  match goal with |- context [if ?b then _ else _] => destruct b eqn:E end.
  - apply andb_prop in E as [_ E].
    destruct (find_slot (vma_clash a n) (vmas m)) eqn:Ec; [done|].
    apply Z.ltb_lt in E. rewrite Hu in E. exists (Some a). split; [done|]. left.
    split_and!; try done; try lia. by apply no_clash_free.
  - clear E. rewrite u64_small by (unfold MAXUVA, RUSTSBI_BASE in *; lia).
    apply find_down_spec; try done; try lia.
    + unfold MAXUVA, RUSTSBI_BASE, PGSIZE in *. Z.div_mod_to_equations; lia.
    + unfold below. pose proof (length_filter (λ v, v_used v = true ∧ v_addr v < MAXUVA - n + n) (vmas m)) as Hf.
      rewrite (vi_len _ Hi) in Hf. cbn beta in Hf. lia.
Qed.


(** ** Copy and cleanup *)
Section FileLemmas.
Context {F : Type} `{FileRefs F}.

(** Number of regions backed by file [g]. *)
Fixpoint file_uses (vs : list vma) (g : Z) : Z :=
  match vs with
  | [] => 0
  | v :: vs => (if v_used v && negb (v_f v =? 0) && (v_f v =? g) then 1 else 0) + file_uses vs g
  end.

Lemma file_uses_range vs g : 0 ≤ file_uses vs g ≤ Z.of_nat (length vs).
Proof. induction vs as [|v vs IH]; simpl; [lia|]. case_match; lia. Qed.

Lemma vma_copy_loop_spec src dst c s :
  length src = length dst → 0 ≤ c → c + Z.of_nat (length src) < 2 ^ 31 → file_ok s →
  (∀ v, v ∈ src → v_used v = true → v_f v ≠ 0 →
     1 ≤ file_ref s (v_f v) ∧ file_ref s (v_f v) + Z.of_nat (length src) < 2 ^ 31) →
  ∃ vs s', vma_copy_loop src dst c s = Ok (vs, c + Z.of_nat (used_count src)) s' ∧ file_ok s' ∧
    (∀ g, file_ref s' g = file_ref s g + file_uses src g) ∧
    length vs = length src ∧
    (∀ i v, src !! i = Some v → v_used v = true → vs !! i = Some v) ∧
    (∀ i v, src !! i = Some v → v_used v = false →
       ∃ w, vs !! i = Some w ∧ v_used w = false ∧ v_f w = 0).
Proof.
  revert dst c s. induction src as [|v src IH]; intros [|d dst] c s Hlen Hc Hmax Hok Href; try done.
  { exists [], s. split_and!; try done; [unfold used_count; simpl; by rewrite Z.add_0_r|].
    intros g. simpl. lia. }
  simpl in Hlen, Hmax. injection Hlen as Hlen. unfold used_count. rewrite filter_cons.
  cbn [vma_copy_loop]. destruct (v_used v) eqn:Hu.
  2:{ destruct (IH dst c s Hlen Hc ltac:(lia) Hok) as (vs & s' & E & Hok' & Hr & Hl & H1 & H2).
      { intros w Hw Huw Hfw. destruct (Href w ltac:(by right) Huw Hfw). simpl in *. lia. }
      rewrite (mbindM_Ok _ _ _ _ _ E). exists (vma_clear d :: vs), s'.
      split_and!; try done; [|simpl; lia| |].
      - intros g. rewrite Hr. simpl. rewrite Hu. simpl. lia.
      - intros [|i] w Hw Huw; simpl in *; [congruence|by apply (H1 i)].
      - intros [|i] w Hw Huw; simpl in *; [by eexists|by apply (H2 i w)]. }
  assert (∃ s1, whenM (negb (v_f v =? 0)) (filedup_ (v_f v)) s = Ok tt s1 ∧ file_ok s1 ∧
    ∀ g, file_ref s1 g = file_ref s g +
      (if v_used v && negb (v_f v =? 0) && (v_f v =? g) then 1 else 0)) as (s1 & E1 & Hok1 & Hr1).
  { unfold whenM. rewrite Hu. destruct (Z.eqb_spec (v_f v) 0) as [|Hf0]; simpl.
    - exists s. split_and!; try done. intros g. lia.
    - destruct (Href v ltac:(left) Hu Hf0) as [Hf1 Hf2].
      destruct (filedup_law (v_f v) s Hok ltac:(simpl in *; lia)) as (s1 & E1 & Hok1 & Hr1).
      exists s1. split_and!; try done. intros g. rewrite Hr1. by rewrite (Z.eqb_sym g). }
  rewrite (mbindM_Ok _ _ _ _ _ E1). rewrite i32_small by lia.
  destruct (IH dst (c + 1) s1 Hlen ltac:(lia) ltac:(lia) Hok1) as (vs & s' & E & Hok' & Hr & Hl & H1 & H2).
  { intros w Hw Huw Hfw. destruct (Href w ltac:(by right) Huw Hfw). rewrite Hr1.
    simpl in *. case_match; lia. }
  rewrite (mbindM_Ok _ _ _ _ _ E). exists (v :: vs), s'.
  split; [|split; [done|split; [|split; [simpl; lia|split]]]].
  - simpl. unfold mretM. unfold used_count. by replace (c + 1 + Z.of_nat (length (filter (λ v, v_used v = true) src)))
      with (c + Z.of_nat (S (length (filter (λ v, v_used v = true) src)))) by lia.
  - intros g. rewrite Hr, Hr1. simpl. lia.
  - intros [|i] w Hw Huw; simpl in *; [done|by apply (H1 i)].
  - intros [|i] w Hw Huw; simpl in *; [congruence|by apply (H2 i w)].
Qed.

Lemma vma_cleanup_loop_spec vs s :
  file_ok s →
  (∀ v, v ∈ vs → v_used v = true → v_f v ≠ 0 → file_uses vs (v_f v) < file_ref s (v_f v)) →
  ∃ vs' s', vma_cleanup_loop vs s = Ok vs' s' ∧ file_ok s' ∧
    (∀ g, file_ref s' g = file_ref s g - file_uses vs g) ∧
    length vs' = length vs ∧ Forall (λ v, v_used v = false) vs'.
Proof.
  revert s. induction vs as [|v vs IH]; intros s Hok Href; cbn [vma_cleanup_loop].
  { exists [], s. split_and!; try done. intros g. simpl. lia. }
  destruct (v_used v) eqn:Hu.
  2:{ destruct (IH s Hok) as (vs' & s' & E & Hok' & Hr & Hl & Ha).
      { intros w Hw Huw Hfw. specialize (Href w ltac:(by right) Huw Hfw). simpl in Href.
        by rewrite Hu in Href. }
      rewrite (mbindM_Ok _ _ _ _ _ E). exists (v :: vs'), s'. split; [done|].
      split; [done|]. split; [|split; [simpl; lia|by constructor]].
      intros g. rewrite Hr. simpl. rewrite Hu. simpl. lia. }
  assert (∃ s1, whenM (negb (v_f v =? 0)) (fileclose_ (v_f v)) s = Ok tt s1 ∧ file_ok s1 ∧
    ∀ g, file_ref s1 g = file_ref s g -
      (if v_used v && negb (v_f v =? 0) && (v_f v =? g) then 1 else 0)) as (s1 & E1 & Hok1 & Hr1).
  { unfold whenM. rewrite Hu. destruct (Z.eqb_spec (v_f v) 0) as [|Hf0]; simpl.
    - exists s. split_and!; try done. intros g. lia.
    - pose proof (Href v ltac:(left) Hu Hf0) as Hf1. simpl in Hf1. rewrite Hu in Hf1. simpl in Hf1.
      destruct (Z.eqb_spec (v_f v) 0); [done|]. rewrite Z.eqb_refl in Hf1. simpl in Hf1.
      pose proof (file_uses_range vs (v_f v)).
      destruct (fileclose_law (v_f v) s Hok ltac:(lia)) as (s1 & E1 & Hok1 & Hr1).
      exists s1. split_and!; try done. intros g. rewrite Hr1. by rewrite (Z.eqb_sym g). }
  rewrite (mbindM_Ok _ _ _ _ _ E1).
  destruct (IH s1 Hok1) as (vs' & s' & E & Hok' & Hr & Hl & Ha).
  { intros w Hw Huw Hfw. specialize (Href w ltac:(by right) Huw Hfw). simpl in Href.
    rewrite Hr1. lia. }
  rewrite (mbindM_Ok _ _ _ _ _ E). eexists _, s'. split; [done|].
  split; [done|]. split; [|split; [simpl; lia|by constructor]].
  intros g. rewrite Hr, Hr1. simpl. lia.
Qed.

(** Two managers whose regions in use are at the same slots have the same
    count and the same file references. *)
Lemma same_regions (us ws : list vma) : length us = length ws →
  (∀ i v, us !! i = Some v → v_used v = true → ws !! i = Some v) →
  (∀ i v, ws !! i = Some v → v_used v = true → us !! i = Some v) →
  used_count us = used_count ws ∧ ∀ g, file_uses us g = file_uses ws g.
Proof.
  revert ws. induction us as [|u us IH]; intros [|w ws] Hl Ha Hb; try done.
  destruct (IH ws) as [E1 E2]; [by injection Hl|intros i; apply (Ha (S i))|intros i; apply (Hb (S i))|].
  pose proof (Ha 0%nat u eq_refl) as Hau. pose proof (Hb 0%nat w eq_refl) as Hbw. simpl in Hau, Hbw.
  unfold used_count in *. rewrite !filter_cons. split.
  - destruct (v_used u) eqn:Eu, (v_used w) eqn:Ew; simpl; try lia; naive_solver congruence.
  - intros g. simpl. rewrite E2. f_equal.
    destruct (v_used u) eqn:Eu, (v_used w) eqn:Ew; simpl; try done; naive_solver congruence.
Qed.

(** A manager with no region in use. *)
Lemma vma_inv_unused vs : length vs = MAX_VMA →
  (∀ i v, vs !! i = Some v → v_used v = false) → vma_inv (Vmam vs 0).
Proof.
  intros Hl Hall. split; cbn [vmas vcount].
  - done.
  - unfold used_count. destruct (filter _ vs) as [|v l] eqn:Ef; [done|].
    assert (v ∈ filter (λ v, v_used v = true) vs) as [Hu Hv]%list_elem_of_filter
      by (rewrite Ef; left).
    apply list_elem_of_lookup in Hv as [i Hv]. by rewrite (Hall i v Hv) in Hu.
  - apply Forall_lookup. intros i v Hv Hu. by rewrite (Hall i v Hv) in Hu.
  - intros i j v w _ Hv _ Hu. by rewrite (Hall i v Hv) in Hu.
Qed.

(** a fork's [vma_copy] gives the child every region of the parent at the
    same slot and takes one file reference per file-backed region; the child's
    [vma_cleanup] at exit leaves no region in use and gives back exactly these
    references, for any file table that meets the interface. *)
Theorem vma_copy_cleanup dst src s :
  vma_inv src → length (vmas dst) = MAX_VMA → file_ok s →
  (∀ v, v ∈ vmas src → v_used v = true → v_f v ≠ 0 → 1 ≤ file_ref s (v_f v) < 2 ^ 30) →
  ∃ m s1 m' s2,
    vma_copy dst src s = Ok m s1 ∧ vma_inv m ∧
    (∀ i x, vma_covers m i x ↔ vma_covers src i x) ∧
    (∀ g, file_ref s1 g = file_ref s g + file_uses (vmas src) g) ∧
    vma_cleanup m s1 = Ok m' s2 ∧ (∀ i x, ¬ vma_covers m' i x) ∧ vma_inv m' ∧
    (∀ g, file_ref s2 g = file_ref s g).
Proof.
  intros Hi Hd Hok Href. pose proof (vi_len _ Hi) as Hlen. unfold MAX_VMA in *.
  destruct (vma_copy_loop_spec (vmas src) (vmas dst) 0 s) as (vs & s1 & E & Hok1 & Hr & Hl & H1 & H2);
    [congruence|lia|rewrite Hlen; lia|done| |].
  { intros v Hv Hu Hf. rewrite Hlen. specialize (Href v Hv Hu Hf). lia. }
  assert (∀ i v, vs !! i = Some v → v_used v = true → vmas src !! i = Some v) as Hback.
  { intros i v Hv Hu. destruct (lookup_lt_is_Some_2 (vmas src) i) as [w Hw].
    { rewrite <- Hl. by apply lookup_lt_Some in Hv. }
    destruct (v_used w) eqn:Huw; [rewrite (H1 i w Hw Huw) in Hv; congruence|].
    destruct (H2 i w Hw Huw) as (x & Hx & Hux & _). congruence. }
  destruct (same_regions vs (vmas src) Hl Hback H1) as [Ec Eu].
  assert (vma_inv (Vmam vs (0 + Z.of_nat (used_count (vmas src))))) as Hinv.
  { split; cbn [vmas vcount].
    - unfold MAX_VMA. congruence.
    - by rewrite Ec.
    - apply Forall_lookup. intros i v Hv Hu. by apply (vi_ok_lookup src i v Hi); [apply Hback|].
    - intros i j v w Hne Hv Hw Hu Hw'. by apply (vi_disj _ Hi i j v w Hne); [apply Hback..| |]. }
  destruct (vma_cleanup_loop_spec vs s1 Hok1) as (vs' & s2 & E2 & Hok2 & Hr2 & Hl2 & Hall).
  { intros v Hv Hu Hf. rewrite Hr, Eu. apply list_elem_of_lookup in Hv as [i Hv].
    apply Hback in Hv; [|done]. assert (v ∈ vmas src) as Hin by (apply list_elem_of_lookup; by exists i).
    specialize (Href v Hin Hu Hf). lia. }
  exists (Vmam vs (0 + Z.of_nat (used_count (vmas src)))), s1, (Vmam vs' 0), s2.
  rewrite Forall_lookup in Hall.
  split; [unfold vma_copy; by rewrite (mbindM_Ok _ _ _ _ _ E)|]. split; [done|].
  split; [|split; [done|]].
  { intros i x. unfold vma_covers. cbn [vmas]. split; intros (v & Hv & Hu & Hx); exists v.
    - split; [by apply Hback|done].
    - split; [by apply H1|done]. }
  split; [unfold vma_cleanup; cbn [vmas]; by rewrite (mbindM_Ok _ _ _ _ _ E2)|].
  split; [|split].
  - intros i x (v & Hv & Hu & _). specialize (Hall i v Hv). congruence.
  - apply vma_inv_unused; [unfold MAX_VMA; congruence|apply Hall].
  - intros g. rewrite Hr2, Hr, Eu. lia.
Qed.
End FileLemmas.

(** ** A concrete manager: one large region mapped at a fixed low address *)

Definition unused_vma : vma := Vma 0 0 0 0 0 0 false.
Definition low_vma : vma := Vma 8192 1879048192 0 3 12 0 true.
Definition low_manager : vma_manager := Vmam (low_vma :: replicate 15 unused_vma) 1.

Lemma low_slot i v : vmas low_manager !! i = Some v → i = 0%nat ∧ v = low_vma ∨ v = unused_vma.
Proof.
  destruct i as [|i]; simpl; intros Hv; [left; by simplify_eq|right].
  do 15 (destruct i as [|i]; [by simplify_eq/=|]). done.
Qed.

Lemma low_inv : vma_inv low_manager.
Proof.
  split.
  - done.
  - done.
  - apply Forall_lookup. intros i v [[_ ->]| ->]%low_slot; [|done].
    intros _. vm_compute. intuition congruence.
  - intros i j v w Hne Hv%low_slot Hw%low_slot Hu Hu'.
    destruct Hv as [[-> ->]| ->], Hw as [[-> ->]| ->]; try done.
Qed.

Lemma vma_insert_correct_witness :
  vma_inv (vma_insert low_manager 1900000000 5000 0 3 12 0).2 ∧
  vma_lookup (vma_insert low_manager 1900000000 5000 0 3 12 0).2 1900000010 = Some 1%nat.
Proof.
  pose proof (vma_insert_correct low_manager 1900000000 5000 0 3 12 0 low_inv) as H.
  assert (vma_request 1900000000 5000) as Hr by (unfold vma_request, PGSIZE; lia).
  specialize (H Hr). cbv zeta in H.
  destruct (vma_insert low_manager 1900000000 5000 0 3 12 0) as [r m'] eqn:E.
  vm_compute in E. injection E as <- <-. destruct H as (_ & Hi & _).
  split; [exact Hi|reflexivity].
Defined.

Lemma vma_remove_correct_witness :
  (vma_remove low_manager 4096 1900000000).1 = 1 ∧ vma_inv (vma_remove low_manager 4096 1900000000).2.
Proof.
  pose proof (vma_remove_correct low_manager 4096 1900000000 low_inv ltac:(lia) ltac:(lia) ltac:(lia)) as H.
  destruct (vma_remove low_manager 4096 1900000000) as [r m'] eqn:E.
  destruct H as (Hi & _). vm_compute in E. injection E as <- <-. split; [reflexivity|exact Hi].
Defined.


(** with a region that starts below the requested length, the search
    subtracts past 0 and [vma_find_free_range] reports success with an address
    far outside user space. *)
Theorem vma_find_free_range_wraps :
  vma_inv low_manager ∧
  vma_find_free_range low_manager 0 536870912 = Some (Some (2 ^ 64 + 8192 - 536870912)) ∧
  MAXVA ≤ 2 ^ 64 + 8192 - 536870912.
Proof. split; [exact low_inv|]. split; [reflexivity|unfold MAXVA; lia]. Qed.
