(* ===== verification/Spinlock.v ===== *)
(** * Spin locks and interrupt nesting (kernel/spinlock.c, kernel/intr.c)

    Several harts run
    [acquire] and [release] concurrently; each step of the relation below is
    one access to the lock word, the owner field or the hart's own interrupt
    state, so every interleaving of these accesses is covered.  [mycpu()] is
    the hart number. *)
From stdpp Require Import prelude list strings.
From Stdlib Require Import ZArith Lia.
From S2P Require Import Prelude.
Open Scope Z_scope.

Record spinlock := Spin { locked : bool; lk_cpu : option Z }.

Definition initlock : spinlock := Spin false None.

(** The part of [struct cpu] and of [sstatus] these functions use. *)
Record cpu := Cpu { intr : bool; noff : Z; intena : bool }.

Definition push_off (c : cpu) : cpu :=
  let old := intr c in
  Cpu false (i32 (noff c + 1)) (if noff c =? 0 then old else intena c).

Definition pop_off (c : cpu) : outcome cpu unit :=
  if intr c then Panic "pop_off - interruptible"
  else if noff c <? 1 then Panic "pop_off"
  else
    let n := noff c - 1 in
    Ok tt (Cpu (if (n =? 0) && intena c then true else intr c) n (intena c)).

Definition holding (lk : spinlock) (h : Z) : bool :=
  locked lk && bool_decide (lk_cpu lk = Some h).

(** Where a hart is inside [acquire] or [release]. *)
Inductive pc :=
| Run                  (* outside both *)
| AcqCheck (l : Z)     (* pushed off, about to test [holding] *)
| AcqSpin (l : Z)      (* in the test-and-set loop *)
| AcqGot (l : Z)       (* swap returned 0, owner not yet recorded *)
| RelClear (l : Z)     (* [holding] passed, about to clear the owner *)
| RelSwap (l : Z)      (* owner cleared, about to clear the lock word *)
| RelPop.              (* lock word cleared, about to [pop_off] *)

#[global] Instance pc_eq_dec : EqDecision pc.
Proof. solve_decision. Defined.

(** [held] and [extra] are ghost state: the locks between a completed
    [acquire] and the matching [release], and the plain [push_off]s. *)
Record hart := Hart { h_cpu : cpu; h_pc : pc; held : list Z; extra : nat }.
Record machine := Mach { locks : Z → spinlock; harts : Z → hart; panicked : bool }.

Definition set_lock (l : Z) (k : spinlock) (m : machine) : machine :=
  Mach (upd (locks m) l k) (harts m) (panicked m).
Definition set_hart (h : Z) (x : hart) (m : machine) : machine :=
  Mach (locks m) (upd (harts m) h x) (panicked m).
Definition crash (m : machine) : machine := Mach (locks m) (harts m) true.

Definition goto (p : pc) (x : hart) : hart := Hart (h_cpu x) p (held x) (extra x).
Definition set_cpu (c : cpu) (x : hart) : hart := Hart c (h_pc x) (held x) (extra x).

(** One step of hart [h]. *)
Inductive step (m : machine) (h : Z) : machine → Prop :=
| st_acquire l : h_pc (harts m h) = Run →
    step m h (set_hart h (goto (AcqCheck l) (set_cpu (push_off (h_cpu (harts m h))) (harts m h))) m)
| st_acq_check l : h_pc (harts m h) = AcqCheck l → holding (locks m l) h = false →
    step m h (set_hart h (goto (AcqSpin l) (harts m h)) m)
| st_acq_panic l : h_pc (harts m h) = AcqCheck l → holding (locks m l) h = true →
    step m h (crash m)
| st_spin l : h_pc (harts m h) = AcqSpin l → locked (locks m l) = true →
    step m h (set_lock l (Spin true (lk_cpu (locks m l))) m)
| st_take l : h_pc (harts m h) = AcqSpin l → locked (locks m l) = false →
    step m h (set_hart h (goto (AcqGot l) (harts m h))
                (set_lock l (Spin true (lk_cpu (locks m l))) m))
| st_owner l : h_pc (harts m h) = AcqGot l →
    step m h (set_hart h (Hart (h_cpu (harts m h)) Run (l :: held (harts m h)) (extra (harts m h)))
                (set_lock l (Spin (locked (locks m l)) (Some h)) m))
| st_release l : h_pc (harts m h) = Run → holding (locks m l) h = true →
    step m h (set_hart h (goto (RelClear l) (harts m h)) m)
| st_rel_panic l : h_pc (harts m h) = Run → holding (locks m l) h = false →
    step m h (crash m)
| st_rel_clear l : h_pc (harts m h) = RelClear l →
    step m h (set_hart h (Hart (h_cpu (harts m h)) (RelSwap l)
                            (filter (λ k, k ≠ l) (held (harts m h))) (extra (harts m h)))
                (set_lock l (Spin (locked (locks m l)) None) m))
| st_rel_swap l : h_pc (harts m h) = RelSwap l →
    step m h (set_hart h (goto RelPop (harts m h))
                (set_lock l (Spin false (lk_cpu (locks m l))) m))
| st_rel_pop c : h_pc (harts m h) = RelPop → pop_off (h_cpu (harts m h)) = Ok tt c →
    step m h (set_hart h (goto Run (set_cpu c (harts m h))) m)
| st_rel_pop_panic e : h_pc (harts m h) = RelPop → pop_off (h_cpu (harts m h)) = Panic e →
    step m h (crash m)
| st_push : h_pc (harts m h) = Run →
    step m h (set_hart h (Hart (push_off (h_cpu (harts m h))) Run (held (harts m h))
                            (S (extra (harts m h)))) m)
| st_pop n c : h_pc (harts m h) = Run → extra (harts m h) = S n →
    pop_off (h_cpu (harts m h)) = Ok tt c →
    step m h (set_hart h (Hart c Run (held (harts m h)) n) m)
| st_intr b : h_pc (harts m h) = Run → noff (h_cpu (harts m h)) = 0 →
    step m h (set_hart h (set_cpu (Cpu b 0 (intena (h_cpu (harts m h)))) (harts m h)) m).

(** Harts at boot: outside any lock, nothing pushed. *)
Definition boot (m : machine) : Prop :=
  panicked m = false ∧ (∀ l, locks m l = initlock) ∧
  ∀ h, h_pc (harts m h) = Run ∧ held (harts m h) = [] ∧ extra (harts m h) = O ∧
       noff (h_cpu (harts m h)) = 0.

(** A run in which each hart nests fewer than 2^31 - 2 times. *)
Definition depth_ok (m : machine) : Prop := ∀ h, noff (h_cpu (harts m h)) < 2 ^ 31 - 2.

Inductive reachable (m0 : machine) : machine → Prop :=
| reach_refl : reachable m0 m0
| reach_step m h m' : reachable m0 m → depth_ok m → step m h m' → reachable m0 m'.

(** ** Invariant *)

(** The hart owns the lock word: it set it and has not cleared it yet. *)
Definition owns (x : hart) (l : Z) : Prop :=
  l ∈ held x ∨ h_pc x = AcqGot l ∨ h_pc x = RelSwap l.

(** Interrupt nesting the hart's position accounts for. *)
Definition in_flight (p : pc) : Z :=
  match p with AcqCheck _ | AcqSpin _ | AcqGot _ | RelSwap _ | RelPop => 1 | _ => 0 end.

Record inv (m : machine) : Prop := {
  i_owner : ∀ l, locked (locks m l) = true → ∃ h, owns (harts m h) l;
  i_locked : ∀ h l, owns (harts m h) l → locked (locks m l) = true;
  i_excl : ∀ h h' l, owns (harts m h) l → owns (harts m h') l → h = h';
  i_cpu : ∀ h l, lk_cpu (locks m l) = Some h ↔ l ∈ held (harts m h);
  i_nodup : ∀ h, NoDup (held (harts m h));
  i_once : ∀ h l, h_pc (harts m h) = AcqGot l ∨ h_pc (harts m h) = RelSwap l → l ∉ held (harts m h);
  i_clear : ∀ h l, h_pc (harts m h) = RelClear l → l ∈ held (harts m h);
  i_noff : ∀ h, noff (h_cpu (harts m h)) =
    Z.of_nat (length (held (harts m h))) + Z.of_nat (extra (harts m h)) + in_flight (h_pc (harts m h));
  i_intr : ∀ h, 0 < noff (h_cpu (harts m h)) → intr (h_cpu (harts m h)) = false }.

Lemma holding_held m h l : inv m → holding (locks m l) h = true ↔ l ∈ held (harts m h).
Proof.
  intros Hi. unfold holding. rewrite andb_true_iff, bool_decide_eq_true, (i_cpu _ Hi).
  split; [tauto|]. intros Hl. split; [|done]. apply (i_locked _ Hi h). by left.
Qed.

Definition mid_lock (x : hart) (l : Z) : Prop := h_pc x = AcqGot l ∨ h_pc x = RelSwap l.

(** Rewrite [upd] at the moved hart or lock and at another one. *)
Ltac at_key k k' :=
  destruct (decide (k' = k)) as [->|?]; [rewrite ?upd_eq in *|rewrite ?upd_ne in * by done].

(** A step that moves one hart and no lock. *)
Lemma inv_move m h x' :
  inv m → held x' = held (harts m h) →
  (∀ l, mid_lock x' l ↔ mid_lock (harts m h) l) →
  (∀ l, h_pc x' = RelClear l → l ∈ held x') →
  noff (h_cpu x') = Z.of_nat (length (held x')) + Z.of_nat (extra x') + in_flight (h_pc x') →
  (0 < noff (h_cpu x') → intr (h_cpu x') = false) →
  inv (set_hart h x' m).
Proof.
  intros [I1 I2 I3 I4 I5 I6 I7 I8 I9] Hh Hm Hc Hn Hi.
  assert (∀ h' l, owns (upd (harts m) h x' h') l ↔ owns (harts m h') l) as Ho.
  { intros h' l. at_key h h'; [|done]. unfold owns. rewrite Hh. specialize (Hm l).
    unfold mid_lock in Hm. tauto. }
  split; cbn [locks harts set_hart].
  - intros l Hl. destruct (I1 l Hl) as [h' H']. exists h'. by apply Ho.
  - intros h' l H'%Ho. by apply (I2 h').
  - intros h1 h2 l H1%Ho H2%Ho. by apply (I3 _ _ l).
  - intros h' l. rewrite I4. at_key h h'; [by rewrite Hh|done].
  - intros h'. at_key h h'; [by rewrite Hh|done].
  - intros h' l Hp. at_key h h'; [|by apply I6]. rewrite Hh. apply I6. by apply Hm.
  - intros h' l Hp. at_key h h'; [by apply Hc|by apply I7].
  - intros h'. at_key h h'; [done|apply I8].
  - intros h'. at_key h h'; [done|apply I9].
Qed.

(** A step that also writes one lock, which no other hart owns. *)
Lemma inv_write m h x' l k :
  inv m →
  (∀ h', h' ≠ h → ¬ owns (harts m h') l) →
  (locked k = true ↔ owns x' l) →
  (lk_cpu k = if decide (l ∈ held x') then Some h else None) →
  (∀ l', l' ≠ l → (owns x' l' ↔ owns (harts m h) l') ∧ (l' ∈ held x' ↔ l' ∈ held (harts m h))) →
  NoDup (held x') → (∀ l, mid_lock x' l → l ∉ held x') →
  (∀ l, h_pc x' = RelClear l → l ∈ held x') →
  noff (h_cpu x') = Z.of_nat (length (held x')) + Z.of_nat (extra x') + in_flight (h_pc x') →
  (0 < noff (h_cpu x') → intr (h_cpu x') = false) →
  inv (set_hart h x' (set_lock l k m)).
Proof.
  intros [I1 I2 I3 I4 I5 I6 I7 I8 I9] Hno Hlk Hcpu Hoth Hnd Hmid Hc Hn Hi.
  assert (∀ h' l', l' ≠ l → owns (upd (harts m) h x' h') l' ↔ owns (harts m h') l') as Ho.
  { intros h' l' Hl. at_key h h'; [by apply Hoth|done]. }
  assert (∀ h', owns (upd (harts m) h x' h') l → h' = h) as Hl.
  { intros h' Hx. destruct (decide (h' = h)) as [|Hne]; [done|].
    rewrite upd_ne in Hx by done. by apply Hno in Hx. }
  split; cbn [locks harts set_hart set_lock].
  - intros l' H'. at_key l l'.
    + exists h. rewrite upd_eq. by apply Hlk.
    + destruct (I1 l' H') as [h' Hh']. exists h'. by apply Ho.
  - intros h' l' H'. at_key l l'.
    + pose proof (Hl h' H') as ->. rewrite upd_eq in H'. by apply Hlk.
    + apply (I2 h'). by apply Ho.
  - intros h1 h2 l' H1 H2. destruct (decide (l' = l)) as [->|Hne].
    + by rewrite (Hl h1 H1), (Hl h2 H2).
    + apply (I3 _ _ l'); by apply Ho.
  - intros h' l'. at_key l l'.
    + rewrite Hcpu. destruct (decide (h' = h)) as [->|Hne].
      * rewrite upd_eq. by case_decide.
      * rewrite upd_ne by done. split; [case_decide; congruence|].
        intros Hin. exfalso. apply (Hno h' Hne). by left.
    + rewrite I4. destruct (decide (h' = h)) as [->|Hne];
        [rewrite upd_eq; symmetry; by apply Hoth|by rewrite upd_ne].
  - intros h'. at_key h h'; [done|apply I5].
  - intros h' l' Hp. at_key h h'; [by apply Hmid|by apply I6].
  - intros h' l' Hp. at_key h h'; [by apply Hc|by apply I7].
  - intros h'. at_key h h'; [done|apply I8].
  - intros h'. at_key h h'; [done|apply I9].
Qed.

Lemma push_off_spec c :
  0 ≤ noff c < 2 ^ 31 - 2 →
  noff (push_off c) = noff c + 1 ∧ intr (push_off c) = false.
Proof. intros Hc. split; [|done]. simpl. apply i32_small. lia. Qed.

(** [pop_off] after a matched [push_off] never panics, and restores. *)
Lemma pop_off_spec c :
  0 < noff c → intr c = false →
  ∃ c', pop_off c = Ok tt c' ∧ noff c' = noff c - 1 ∧ intena c' = intena c ∧
        intr c' = (noff c =? 1) && intena c.
Proof.
  intros Hn Hi. unfold pop_off. rewrite Hi. destruct (Z.ltb_spec (noff c) 1); [lia|].
  eexists. split; [done|]. simpl. split; [done|]. split; [done|].
  destruct (Z.eqb_spec (noff c) 1) as [->|Hne]; simpl; [by destruct (intena c)|].
  destruct (Z.eqb_spec (noff c - 1) 0); [lia|done].
Qed.

Lemma inv_noff m h : inv m → 0 ≤ noff (h_cpu (harts m h)).
Proof. intros Hi. rewrite (i_noff _ Hi). destruct (h_pc _); simpl; lia. Qed.

Lemma filter_remove_length (l : Z) (k : list Z) :
  NoDup k → l ∈ k → length k = S (length (filter (λ x, x ≠ l) k)).
Proof.
  induction k as [|x k IH]; intros Hn Hl; [by apply elem_of_nil in Hl|].
  apply NoDup_cons in Hn as [Hx Hn]. rewrite filter_cons. simpl. f_equal.
  destruct (decide (x ≠ l)) as [Hne|He].
  - apply elem_of_cons in Hl as [|Hl]; [congruence|]. simpl. by apply IH.
  - assert (x = l) as -> by (by destruct (decide (x = l))).
    assert (filter (λ y, y ≠ l) k = k) as ->; [|done]. clear IH Hn Hl.
    induction k as [|y k IH]; [done|]. apply not_elem_of_cons in Hx as [Hy Hx].
    rewrite filter_cons_True by congruence. f_equal. by apply IH.
Qed.

(** The atomic swap of [acquire] that finds the lock taken writes the value
    that is already there. *)
Lemma inv_spin m l : inv m → locked (locks m l) = true →
  inv (set_lock l (Spin true (lk_cpu (locks m l))) m).
Proof.
  intros [I1 I2 I3 I4 I5 I6 I7 I8 I9] El.
  assert (∀ l', locks (set_lock l (Spin true (lk_cpu (locks m l))) m) l' = locks m l') as El'.
  { intros l'. simpl. at_key l l'; [|done]. destruct (locks m l); simpl in *. congruence. }
  split; try done.
  - intros l'. rewrite El'. apply I1.
  - intros h' l'. rewrite El'. apply I2.
  - intros h' l'. rewrite El'. apply I4.
Qed.

(** Only the owner of a lock is recorded in it. *)
Lemma cpu_unheld m h l : inv m → l ∉ held (harts m h) →
  (∀ h', h' ≠ h → ¬ owns (harts m h') l) → lk_cpu (locks m l) = None.
Proof.
  intros Hi Hl Hno. destruct (lk_cpu (locks m l)) as [h'|] eqn:Ec; [|done].
  apply (i_cpu _ Hi) in Ec. exfalso. destruct (decide (h' = h)) as [->|Hne]; [done|].
  apply (Hno h' Hne). by left.
Qed.

Lemma owner_only m h l : inv m → owns (harts m h) l → ∀ h', h' ≠ h → ¬ owns (harts m h') l.
Proof. intros Hi Ho h' Hne Ho'. by apply Hne, (i_excl _ Hi h' h l). Qed.

(** A [pop_off] that does not fail keeps the hart's count and interrupt state
    related. *)
Lemma inv_pop m h c e pc :
  inv m → 0 < noff (h_cpu (harts m h)) → pop_off (h_cpu (harts m h)) = Ok tt c →
  (∀ l, mid_lock (Hart c pc (held (harts m h)) e) l ↔ mid_lock (harts m h) l) →
  (∀ l, pc ≠ RelClear l) →
  noff (h_cpu (harts m h)) - 1 =
    Z.of_nat (length (held (harts m h))) + Z.of_nat e + in_flight pc →
  inv (set_hart h (Hart c pc (held (harts m h)) e) m).
Proof.
  intros Hi Hn Ep Hm Hc En.
  destruct (pop_off_spec _ Hn (i_intr _ Hi h Hn)) as (c' & Ec & Hc1 & _ & Hc2).
  rewrite Ep in Ec. injection Ec as <-. apply inv_move; simpl; try done; try lia.
  - intros l E. by apply Hc in E.
  - intros Hp. rewrite Hc2. destruct (Z.eqb_spec (noff (h_cpu (harts m h))) 1); [lia|done].
Qed.

(** The four steps that write a lock word or its owner field. *)
Section LockWrites.
Context (m : machine) (h l : Z) (Hi : inv m).

Lemma inv_take : h_pc (harts m h) = AcqSpin l → locked (locks m l) = false →
  inv (set_hart h (goto (AcqGot l) (harts m h)) (set_lock l (Spin true (lk_cpu (locks m l))) m)).
Proof.
  intros E El. pose proof (i_noff _ Hi h) as En. rewrite E in En. cbn [in_flight] in En.
  assert (∀ h', ¬ owns (harts m h') l) as Hno
    by (intros h' Ho; apply (i_locked _ Hi) in Ho; congruence).
  assert (l ∉ held (harts m h)) as Hnh by (intros Hh; apply (Hno h); by left).
  apply inv_write; simpl; try done; try lia.
  - unfold owns. simpl. naive_solver.
  - rewrite decide_False by done. by apply (cpu_unheld m h).
  - intros l' Hl'. unfold owns. simpl. rewrite E. naive_solver.
  - apply (i_nodup _ Hi).
  - unfold mid_lock. simpl. naive_solver.
  - apply (i_intr _ Hi).
Qed.

Lemma inv_owner : h_pc (harts m h) = AcqGot l →
  inv (set_hart h (Hart (h_cpu (harts m h)) Run (l :: held (harts m h)) (extra (harts m h)))
         (set_lock l (Spin (locked (locks m l)) (Some h)) m)).
Proof.
  intros E. pose proof (i_noff _ Hi h) as En. rewrite E in En. cbn [in_flight] in En.
  assert (l ∉ held (harts m h)) as Hnh by (apply (i_once _ Hi); by left).
  assert (owns (harts m h) l) as Hown by (right; by left).
  apply inv_write; simpl; try done; try lia.
  - by apply owner_only.
  - split; [intros _; left; simpl; left|]. intros _. by apply (i_locked _ Hi h).
  - rewrite decide_True by left. done.
  - intros l' Hl'. unfold owns. simpl. rewrite E, elem_of_cons. split; naive_solver.
  - constructor; [done|apply (i_nodup _ Hi)].
  - unfold mid_lock. simpl. naive_solver.
  - apply (i_intr _ Hi).
Qed.

Lemma inv_clear : h_pc (harts m h) = RelClear l →
  inv (set_hart h (Hart (h_cpu (harts m h)) (RelSwap l)
                     (filter (λ k, k ≠ l) (held (harts m h))) (extra (harts m h)))
         (set_lock l (Spin (locked (locks m l)) None) m)).
Proof.
  intros E. pose proof (i_noff _ Hi h) as En. rewrite E in En. cbn [in_flight] in En.
  pose proof (i_clear _ Hi h l E) as Hl.
  assert (owns (harts m h) l) as Hown by by left.
  pose proof (filter_remove_length l _ (i_nodup _ Hi h) Hl) as Hlen.
  apply inv_write; simpl; try done; try lia.
  - by apply owner_only.
  - split; [intros _; right; by right|]. intros _. by apply (i_locked _ Hi h).
  - rewrite decide_False; [done|]. rewrite list_elem_of_filter. naive_solver.
  - intros l' Hl'. unfold owns. simpl. rewrite E, list_elem_of_filter. split; naive_solver.
  - apply NoDup_filter, (i_nodup _ Hi).
  - unfold mid_lock. simpl. intros l' [|[= ->]]; [done|]. rewrite list_elem_of_filter. naive_solver.
  - apply (i_intr _ Hi).
Qed.

Lemma inv_swap : h_pc (harts m h) = RelSwap l →
  inv (set_hart h (goto RelPop (harts m h)) (set_lock l (Spin false (lk_cpu (locks m l))) m)).
Proof.
  intros E. pose proof (i_noff _ Hi h) as En. rewrite E in En. cbn [in_flight] in En.
  assert (l ∉ held (harts m h)) as Hnh by (apply (i_once _ Hi); by right).
  assert (owns (harts m h) l) as Hown by (right; by right).
  apply inv_write; simpl; try done; try lia.
  - by apply owner_only.
  - split; [done|]. unfold owns. simpl. naive_solver.
  - rewrite decide_False by done. by apply (cpu_unheld m h), owner_only.
  - intros l' Hl'. unfold owns. simpl. rewrite E. naive_solver.
  - apply (i_nodup _ Hi).
  - unfold mid_lock. simpl. naive_solver.
  - apply (i_intr _ Hi).
Qed.
End LockWrites.

Lemma step_inv m h m' : inv m → depth_ok m → step m h m' → inv m'.
Proof.
  intros Hi Hd Hst. pose proof (inv_noff m h Hi) as Hn. specialize (Hd h).
  pose proof (i_noff _ Hi h) as En. pose proof (i_intr _ Hi h) as Hin.
  assert (inv (crash m)) as Hcr by (destruct Hi; by split).
  pose proof (push_off_spec (h_cpu (harts m h)) ltac:(lia)) as [Pn Pi].
  destruct Hst as [l E|l E _|l _ _|l E El|l E El|l E|l E Eh|l _ _|l E|l E|c E Ep|e _ _|E|n c E Ee Ep|b E E0];
    try done; rewrite E in En; cbn [in_flight] in En.
  1,2,10: apply inv_move; simpl in *; try done; try lia;
    unfold mid_lock; rewrite E; intros l'; naive_solver.
  - by apply inv_spin.
  - by apply inv_take.
  - by apply inv_owner.
  - apply inv_move; simpl in *; try done; try lia.
    + unfold mid_lock. rewrite E. intros l'. naive_solver.
    + intros l' [= ->]. by apply (holding_held m).
  - by apply inv_clear.
  - by apply inv_swap.
  - apply inv_pop; simpl; try done; try lia. unfold mid_lock. rewrite E. intros l'. naive_solver.
  - apply inv_pop; simpl; try done; try lia. unfold mid_lock. rewrite E. intros l'. naive_solver.
  - apply inv_move; simpl in *; try done; try lia.
    + intros l'. by rewrite E.
    + rewrite E. simpl. lia.
Qed.

Lemma boot_inv m : boot m → inv m.
Proof.
  intros (_ & Hl & Hh).
  assert (∀ h l, ¬ owns (harts m h) l) as Hno.
  { intros h l. destruct (Hh h) as (E1 & E2 & _). unfold owns. rewrite E1, E2.
    intros [?%elem_of_nil|[|]]; done. }
  split.
  - intros l. by rewrite Hl.
  - intros h l Ho. by apply Hno in Ho.
  - intros h h' l Ho. by apply Hno in Ho.
  - intros h l. rewrite Hl. destruct (Hh h) as (_ & -> & _). split; [done|by intros ?%elem_of_nil].
  - intros h. destruct (Hh h) as (_ & -> & _). constructor.
  - intros h l. destruct (Hh h) as (-> & _). naive_solver.
  - intros h l. destruct (Hh h) as (-> & _). done.
  - intros h. destruct (Hh h) as (-> & -> & -> & ->). done.
  - intros h. destruct (Hh h) as (_ & _ & _ & ->). lia.
Qed.

Lemma reachable_inv m0 m : boot m0 → reachable m0 m → inv m.
Proof.
  intros Hb Hr. induction Hr as [|m h m' _ IH Hd Hst]; [by apply boot_inv|].
  by apply (step_inv m h).
Qed.

(** ** Properties *)

(** C26: mutual exclusion: in every reachable state of any number of harts, a
    lock is held (from the end of [acquire] to its [release]) by at most one
    hart, never twice by the same one, and its lock word is then set. *)
Theorem spinlock_mutual_exclusion m0 m h h' l :
  boot m0 → reachable m0 m → l ∈ held (harts m h) →
  NoDup (held (harts m h)) ∧ locked (locks m l) = true ∧
  (l ∈ held (harts m h') → h' = h).
Proof.
  intros Hb Hr Hl. pose proof (reachable_inv _ _ Hb Hr) as Hi. split; [apply (i_nodup _ Hi)|].
  split; [apply (i_locked _ Hi h); by left|].
  intros Hl'. apply (i_excl _ Hi h' h l); by left.
Qed.

(** [holding] tells a hart exactly whether it holds the lock although it
    reads the two fields without synchronisation; so [acquire] panics exactly
    on a lock the hart already holds and [release] on one it does not, and the
    [pop_off] of a [release] never panics. *)
Theorem holding_exact m0 m h l :
  boot m0 → reachable m0 m →
  holding (locks m l) h = bool_decide (l ∈ held (harts m h)) ∧
  (h_pc (harts m h) = RelPop → ∃ c, pop_off (h_cpu (harts m h)) = Ok tt c).
Proof.
  intros Hb Hr. pose proof (reachable_inv _ _ Hb Hr) as Hi. split.
  - apply eq_bool_prop_intro. rewrite !Is_true_true, bool_decide_eq_true. by apply holding_held.
  - intros Hp. pose proof (i_noff _ Hi h) as En. rewrite Hp in En. simpl in En.
    destruct (pop_off_spec (h_cpu (harts m h))) as (c & E & _); [lia| |by exists c].
    apply (i_intr _ Hi). lia.
Qed.

(** a hart inside a critical section, or on its way in or out, runs with
    interrupts off, and its nesting depth counts exactly the locks it holds. *)
Theorem locks_disable_interrupts m0 m h :
  boot m0 → reachable m0 m →
  noff (h_cpu (harts m h)) = Z.of_nat (length (held (harts m h))) +
    Z.of_nat (extra (harts m h)) + in_flight (h_pc (harts m h)) ∧
  (held (harts m h) ≠ [] → intr (h_cpu (harts m h)) = false).
Proof.
  intros Hb Hr. pose proof (reachable_inv _ _ Hb Hr) as Hi. split; [apply (i_noff _ Hi)|].
  intros Hh. apply (i_intr _ Hi). rewrite (i_noff _ Hi).
  destruct (held (harts m h)); [done|]. simpl length. destruct (h_pc _); simpl; lia.
Qed.

(** Two harts; hart 0 takes lock 7 while interrupts were on. *)
Definition boot_machine : machine :=
  Mach (λ _, initlock) (λ _, Hart (Cpu true 0 false) Run [] 0) false.

Lemma boot_machine_boot : boot boot_machine.
Proof. split; [reflexivity|]. split; [reflexivity|]. intros h. repeat split; reflexivity. Qed.

Lemma boot_take :
  ∃ m, reachable boot_machine m ∧ held (harts m 0) = [7] ∧ held (harts m 1) = [].
Proof.
  assert (∀ m, noff (h_cpu (harts m 0)) = 1 → (∀ h, h ≠ 0 → noff (h_cpu (harts m h)) = 0) →
    depth_ok m) as Hd.
  { intros m H0 H1 h. destruct (decide (h = 0)) as [->|Hne]; [lia|]. rewrite H1 by done. lia. }
  assert (depth_ok boot_machine) as D0 by (intros h; simpl; lia).
  pose proof (reach_step _ _ _ _ (reach_refl _) D0 (st_acquire boot_machine 0 7 eq_refl)) as R1.
  set (m1 := set_hart _ _ _) in R1.
  assert (depth_ok m1) as D1 by (apply Hd; [done|]; intros h Hh; simpl; by rewrite upd_ne).
  pose proof (reach_step _ _ _ _ R1 D1 (st_acq_check m1 0 7 eq_refl eq_refl)) as R2.
  set (m2 := set_hart _ _ m1) in R2.
  assert (depth_ok m2) as D2 by (apply Hd; [done|]; intros h Hh; simpl; by rewrite !upd_ne).
  pose proof (reach_step _ _ _ _ R2 D2 (st_take m2 0 7 eq_refl eq_refl)) as R3.
  set (m3 := set_hart _ _ (set_lock _ _ m2)) in R3.
  assert (depth_ok m3) as D3 by (apply Hd; [done|]; intros h Hh; simpl; by rewrite !upd_ne).
  pose proof (reach_step _ _ _ _ R3 D3 (st_owner m3 0 7 eq_refl)) as R4.
  eexists. split; [exact R4|]. split; reflexivity.
Qed.

Lemma spinlock_mutual_exclusion_witness :
  ∃ m, reachable boot_machine m ∧ locked (locks m 7) = true.
Proof.
  destruct boot_take as (m & Hr & H0 & _). exists m. split; [exact Hr|].
  apply (spinlock_mutual_exclusion boot_machine m 0 0 7 boot_machine_boot Hr).
  rewrite H0. left.
Defined.

Lemma holding_exact_witness :
  ∃ m, reachable boot_machine m ∧ holding (locks m 7) 0 = true ∧ holding (locks m 7) 1 = false.
Proof.
  destruct boot_take as (m & Hr & H0 & H1). exists m. split; [exact Hr|].
  destruct (holding_exact boot_machine m 0 7 boot_machine_boot Hr) as [E0 _].
  destruct (holding_exact boot_machine m 1 7 boot_machine_boot Hr) as [E1 _].
  rewrite E0, E1, H0, H1. split; reflexivity.
Defined.

Lemma locks_disable_interrupts_witness :
  ∃ m, reachable boot_machine m ∧ intr (h_cpu (harts m 0)) = false.
Proof.
  destruct boot_take as (m & Hr & H0 & H1). exists m. split; [exact Hr|].
  apply (locks_disable_interrupts boot_machine m 0 boot_machine_boot Hr). rewrite H0. discriminate.
Defined.
