(* ===== verification/Sleeplock.v ===== *)
(** * Sleep locks (kernel/sleeplock.c)

    The spin lock [lk->lk] makes the body of each function one step, up to
    [sleep], which releases it atomically with going to sleep.  Processes are
    named by their pids; [Asleep] is sleeping on the lock's channel, [Woken] is
    runnable inside the loop of [acquiresleep]. *)
From stdpp Require Import prelude list strings.
From Stdlib Require Import ZArith Lia.
From S2P Require Import Prelude.
Open Scope Z_scope.

Record sleeplock := Slk { sl_locked : bool; sl_pid : Z }.
Inductive where_ := Outside | Asleep | Woken | Holder.

#[global] Instance where_eq_dec : EqDecision where_.
Proof. solve_decision. Defined.

Record sstate := Sst { sl : sleeplock; at_ : Z → where_ }.

Definition initsleeplock : sleeplock := Slk false 0.

(** One pass of the loop of [acquiresleep] by process [p]. *)
Definition acquiresleep (p : Z) (s : sstate) : sstate :=
  if sl_locked (sl s) then Sst (sl s) (upd (at_ s) p Asleep)
  else Sst (Slk true p) (upd (at_ s) p Holder).

(** [wakeup(lk)] makes every sleeper runnable. *)
Definition releasesleep (p : Z) (s : sstate) : sstate :=
  Sst (Slk false 0)
    (λ q, if bool_decide (q = p) then Outside
          else match at_ s q with Asleep => Woken | w => w end).

Definition holdingsleep (p : Z) (s : sstate) : bool := sl_locked (sl s) && (sl_pid (sl s) =? p).

Inductive sl_step (s : sstate) : sstate → Prop :=
| sl_acquire p : 0 < p → at_ s p = Outside ∨ at_ s p = Woken → sl_step s (acquiresleep p s)
| sl_release p : at_ s p = Holder → sl_step s (releasesleep p s).

Definition sl_boot (s : sstate) : Prop := sl s = initsleeplock ∧ ∀ p, at_ s p = Outside.

Record sl_inv (s : sstate) : Prop := {
  sli_holder : ∀ p, at_ s p = Holder ↔ sl_locked (sl s) = true ∧ sl_pid (sl s) = p;
  sli_asleep : ∀ p, at_ s p = Asleep → sl_locked (sl s) = true }.

Lemma sl_step_inv s s' : sl_inv s → sl_step s s' → sl_inv s'.
Proof.
  intros [Hh Ha] [p Hp Hat|p Hat].
  - unfold acquiresleep. destruct (sl_locked (sl s)) eqn:El.
    + split; cbn [sl at_].
      * intros q. destruct (decide (q = p)) as [->|Hne]; [|by rewrite upd_ne by done; rewrite Hh, ?El].
        rewrite upd_eq, ?El. split; [done|]. intros [_ Hq].
        assert (at_ s p = Holder) as E by (apply Hh; by rewrite ?El). destruct Hat; congruence.
      * done.
    + split; cbn [sl at_ sl_locked sl_pid]; [|done]. intros q.
      destruct (decide (q = p)) as [->|Hne]; [by rewrite upd_eq|]. rewrite upd_ne by done.
      rewrite Hh, ?El. naive_solver.
  - unfold releasesleep. split; cbn [sl at_ sl_locked sl_pid].
    + intros q. case_bool_decide; [naive_solver|].
      destruct (at_ s q) eqn:Eq; try (split; [done|by intros [? _]]).
      apply Hh in Eq as [_ Eq], Hat as [_ Hat]. congruence.
    + intros q. case_bool_decide; [done|]. by destruct (at_ s q).
Qed.

Lemma sl_reach_inv s0 s : sl_boot s0 → rtc sl_step s0 s → sl_inv s.
Proof.
  intros [E Ho] Hr. assert (sl_inv s0) as Hi.
  { split; [|intros p; by rewrite Ho]. intros p. rewrite Ho, E. naive_solver. }
  clear E Ho. induction Hr as [|s1 s2 s3 Hs _ IH]; [done|]. apply IH. by apply (sl_step_inv s1).
Qed.

(** a sleep lock has at most one holder, [holdingsleep] is true exactly for
    it, and no wakeup is lost: a process asleep on the lock always waits for a
    process that holds it, whose [releasesleep] makes it runnable again. *)
Theorem sleeplock_correct s0 s p q :
  sl_boot s0 → rtc sl_step s0 s →
  (at_ s p = Holder → at_ s q = Holder → p = q) ∧
  holdingsleep p s = bool_decide (at_ s p = Holder) ∧
  (at_ s p = Asleep → ∃ r, at_ s r = Holder ∧ at_ (releasesleep r s) p = Woken).
Proof.
  intros Hb Hr. destruct (sl_reach_inv _ _ Hb Hr) as [Hh Ha]. split; [|split].
  - rewrite !Hh. naive_solver.
  - apply eq_bool_prop_intro. rewrite !Is_true_true, bool_decide_eq_true, Hh. unfold holdingsleep.
    by rewrite andb_true_iff, Z.eqb_eq.
  - intros Hp. exists (sl_pid (sl s)). split; [apply Hh; eauto|]. simpl.
    assert (at_ s (sl_pid (sl s)) = Holder) as E by (apply Hh; eauto).
    case_bool_decide; [congruence|]. by rewrite Hp.
Qed.

Lemma sleeplock_correct_witness :
  let s0 := Sst initsleeplock (λ _, Outside) in
  let s := acquiresleep 2 (acquiresleep 1 s0) in
  rtc sl_step s0 s ∧ holdingsleep 1 s = true ∧ ∃ r, at_ s r = Holder ∧ at_ (releasesleep r s) 2 = Woken.
Proof.
  intros s0 s. assert (rtc sl_step s0 s) as Hr.
  { eapply rtc_l; [apply (sl_acquire s0 1); [lia|by left]|].
    eapply rtc_l; [|apply rtc_refl]. apply (sl_acquire (acquiresleep 1 s0) 2); [lia|by left]. }
  assert (sl_boot s0) as Hb by (split; reflexivity).
  split; [exact Hr|]. split; [reflexivity|].
  apply (sleeplock_correct s0 s 2 1 Hb Hr). reflexivity.
Defined.
