(* ===== verification/Pipe.v ===== *)
(** * Pipes (kernel/pipe.c)

    A bounded ring buffer shared by readers and writers.  [pi->lock] makes the
    code between two sleeps one step; a writer or reader that sleeps continues
    later at the same byte.  The user's buffer is a list with one cell per
    byte: [Some c] for a byte [copyin2] delivers and [None] for a fault; for
    reads, whether [copyout2] of that byte succeeds. *)
From stdpp Require Import prelude list strings.
From Stdlib Require Import ZArith Lia.
From S2P Require Import Prelude.
Open Scope Z_scope.

Definition PIPESIZE : Z := 512.

Record pipe := Pipe {
  data : Z → Z; nread : Z; nwrite : Z; readopen : bool; writeopen : bool }.

(** The pipe [pipealloc] sets up. *)
Definition pipe_init (junk : Z → Z) : pipe := Pipe junk 0 0 true true.

Definition pipe_full (pi : pipe) : bool := nwrite pi =? u32 (nread pi + PIPESIZE).
Definition pipe_empty (pi : pipe) : bool := nread pi =? nwrite pi.

Definition pipe_push (c : Z) (pi : pipe) : pipe :=
  Pipe (upd (data pi) (nwrite pi mod PIPESIZE) c) (nread pi) (u32 (nwrite pi + 1))
    (readopen pi) (writeopen pi).
Definition pipe_pop (pi : pipe) : Z * pipe :=
  (data pi (nread pi mod PIPESIZE),
   Pipe (data pi) (u32 (nread pi + 1)) (nwrite pi) (readopen pi) (writeopen pi)).

(** How a stretch of [pipewrite] or [piperead] ends: it returns a count, fails
    with -1, or sleeps with [i] bytes moved and the rest still to move. *)
Inductive stretch (B : Type) := Return (i : Z) | Error | Sleep (i : Z) (rest : list B).
Arguments Return {B} i.
Arguments Error {B}.
Arguments Sleep {B} i rest.

Fixpoint pipewrite (killed : bool) (src : list (option Z)) (i : Z) (pi : pipe)
  : pipe * stretch (option Z) :=
  match src with
  | [] => (pi, Return i)
  | b :: src' =>
      if pipe_full pi then
        if negb (readopen pi) || killed then (pi, Error) else (pi, Sleep i src)
      else
        match b with
        | None => (pi, Return i)
        | Some ch => pipewrite killed src' (i + 1) (pipe_push ch pi)
        end
  end.

(** The copy loop of [piperead]: bytes taken out, and the count returned. *)
Fixpoint piperead_copy (dst : list bool) (i : Z) (pi : pipe) : pipe * list Z * Z :=
  match dst with
  | [] => (pi, [], i)
  | ok :: dst =>
      if pipe_empty pi then (pi, [], i)
      else
        let '(ch, pi) := pipe_pop pi in
        if ok then let '(pi, bs, n) := piperead_copy dst (i + 1) pi in (pi, ch :: bs, n)
        else (pi, [ch], i)
  end.

Definition piperead (killed : bool) (dst : list bool) (pi : pipe)
  : pipe * list Z * stretch bool :=
  if pipe_empty pi && writeopen pi then
    if killed then (pi, [], Error) else (pi, [], Sleep 0 dst)
  else let '(pi, bs, n) := piperead_copy dst 0 pi in (pi, bs, Return n).

(** [pipeclose]; the flag says that the page is freed. *)
Definition pipeclose (writable : bool) (pi : pipe) : pipe * bool :=
  let pi := if writable then Pipe (data pi) (nread pi) (nwrite pi) (readopen pi) false
            else Pipe (data pi) (nread pi) (nwrite pi) false (writeopen pi) in
  (pi, negb (readopen pi) && negb (writeopen pi)).

(** ** The pipe and its users *)

Inductive user := Busy | SleepW (i : Z) (src : list (option Z)) | SleepR (dst : list bool).

(** [wlog] and [rlog] record every byte put in and taken out; [lost] that some
    writer was killed while the pipe was full. *)
Record world := World {
  pi : pipe; users : Z → user; wlog : list Z; rlog : list Z; lost : bool }.

Definition wake_readers (u : Z → user) : Z → user :=
  λ t, match u t with SleepR _ => Busy | x => x end.
Definition wake_writers (u : Z → user) : Z → user :=
  λ t, match u t with SleepW _ _ => Busy | x => x end.

(** The bytes a stretch of [pipewrite] appended. *)
Fixpoint pushed (src : list (option Z)) (n : nat) {struct n} : list Z :=
  match n, src with
  | S n, Some c :: src => c :: pushed src n
  | _, _ => []
  end.

Inductive pstep (w : world) : world → Prop :=
| p_write t k src i pi' r :
    users w t = Busy → pipewrite k src i (pi w) = (pi', r) →
    let n := Z.to_nat (u32 (nwrite pi' - nwrite (pi w))) in
    pstep w (match r with
             | Return _ => World pi' (wake_readers (users w)) (wlog w ++ pushed src n) (rlog w) (lost w)
             | Sleep j rest => World pi' (upd (wake_readers (users w)) t (SleepW j rest))
                                 (wlog w ++ pushed src n) (rlog w) (lost w)
             | Error => World pi' (users w) (wlog w ++ pushed src n) (rlog w) true
             end)
| p_read t k dst pi' bs r :
    users w t = Busy → piperead k dst (pi w) = (pi', bs, r) →
    pstep w (match r with
             | Return _ => World pi' (wake_writers (users w)) (wlog w) (rlog w ++ bs) (lost w)
             | Sleep _ rest => World pi' (upd (users w) t (SleepR rest)) (wlog w) (rlog w ++ bs) (lost w)
             | Error => World pi' (users w) (wlog w) (rlog w ++ bs) (lost w)
             end)
| p_close_w : pstep w (World (pipeclose true (pi w)).1 (wake_readers (users w)) (wlog w) (rlog w) (lost w))
| p_close_r : pstep w (World (pipeclose false (pi w)).1 (wake_writers (users w)) (wlog w) (rlog w) (lost w))
| p_kill t : pstep w (World (pi w) (upd (users w) t Busy) (wlog w) (rlog w) (lost w)).

(** ** Invariant *)

Definition fill_level (pi : pipe) : Z := u32 (nwrite pi - nread pi).
Definition contents (pi : pipe) : list Z :=
  map (λ k, data pi ((nread pi + k) mod PIPESIZE)) (seqZ 0 (fill_level pi)).

Record pipe_ok (pi : pipe) : Prop := {
  po_r : 0 ≤ nread pi < 2 ^ 32; po_w : 0 ≤ nwrite pi < 2 ^ 32; po_n : fill_level pi ≤ PIPESIZE }.

Record pipe_inv (w : world) : Prop := {
  pw_ok : pipe_ok (pi w);
  pw_fifo : wlog w = rlog w ++ contents (pi w);
  pw_reader : ∀ t dst, users w t = SleepR dst → lost w = false →
    contents (pi w) = [] ∧ writeopen (pi w) = true;
  pw_writer : ∀ t i src, users w t = SleepW i src →
    fill_level (pi w) = PIPESIZE ∧ readopen (pi w) = true }.

(** ** Lemmas *)

Lemma fill_range p : pipe_ok p → 0 ≤ fill_level p ≤ PIPESIZE.
Proof. intros [_ _ H]. pose proof (u32_range (nwrite p - nread p)). unfold fill_level in *. lia. Qed.

Lemma pipe_full_spec p : pipe_ok p → pipe_full p = true ↔ fill_level p = PIPESIZE.
Proof.
  intros [Hr Hw Hn]. unfold pipe_full, fill_level, PIPESIZE, u32 in *. rewrite Z.eqb_eq.
  Z.div_mod_to_equations. lia.
Qed.

Lemma pipe_empty_spec p : pipe_ok p → pipe_empty p = true ↔ fill_level p = 0.
Proof.
  intros [Hr Hw Hn]. unfold pipe_empty, fill_level, PIPESIZE, u32 in *. rewrite Z.eqb_eq.
  Z.div_mod_to_equations. lia.
Qed.

Lemma contents_nil p : pipe_ok p → contents p = [] ↔ fill_level p = 0.
Proof.
  intros Hp. pose proof (fill_range p Hp). unfold contents. split.
  - intros E%map_eq_nil. apply (f_equal length) in E. rewrite length_seqZ in E. simpl in E. lia.
  - by intros ->.
Qed.

Lemma level_push p c : pipe_ok p → fill_level p < PIPESIZE →
  fill_level (pipe_push c p) = fill_level p + 1 ∧ pipe_ok (pipe_push c p).
Proof.
  intros [Hr Hw Hn] Hl.
  assert (fill_level (pipe_push c p) = fill_level p + 1) as E.
  { unfold fill_level, pipe_push, PIPESIZE, u32 in *. simpl. Z.div_mod_to_equations. lia. }
  split; [done|]. split; [done|simpl; unfold u32; Z.div_mod_to_equations; lia|].
  rewrite E. lia.
Qed.

Lemma level_pop p : pipe_ok p → 0 < fill_level p →
  fill_level (pipe_pop p).2 = fill_level p - 1 ∧ pipe_ok (pipe_pop p).2.
Proof.
  intros [Hr Hw Hn] Hl.
  assert (fill_level (pipe_pop p).2 = fill_level p - 1) as E.
  { unfold fill_level, pipe_pop, PIPESIZE, u32 in *. simpl. Z.div_mod_to_equations. lia. }
  split; [done|]. split; [simpl; unfold u32; Z.div_mod_to_equations; lia|done|].
  rewrite E. lia.
Qed.

Lemma ring_end p : pipe_ok p → nwrite p mod PIPESIZE = (nread p + fill_level p) mod PIPESIZE.
Proof.
  intros [Hr Hw Hn]. unfold fill_level, PIPESIZE, u32 in *. Z.div_mod_to_equations. lia.
Qed.

Lemma contents_push p c :
  pipe_ok p → fill_level p < PIPESIZE → contents (pipe_push c p) = contents p ++ [c].
Proof.
  intros Hp Hl. destruct (level_push p c Hp Hl) as [El _]. pose proof (fill_range p Hp) as Hr.
  unfold contents. rewrite El, seqZ_app by lia. rewrite map_app. f_equal.
  - apply map_ext_in. intros k Hk%list_elem_of_In%elem_of_seqZ. simpl.
    apply upd_ne. rewrite ring_end by done. unfold PIPESIZE in *. Z.div_mod_to_equations. lia.
  - rewrite seqZ_cons by lia. simpl. rewrite Z.add_0_l, <- ring_end by done. by rewrite upd_eq.
Qed.

Lemma contents_pop p :
  pipe_ok p → 0 < fill_level p → contents p = (pipe_pop p).1 :: contents (pipe_pop p).2.
Proof.
  intros Hp Hl. destruct (level_pop p Hp Hl) as [El _]. destruct Hp as [Hr Hw Hn].
  unfold contents. rewrite El. rewrite (seqZ_cons 0 (fill_level p)) by lia.
  rewrite <- Z.sub_1_r. change (Z.succ 0) with (1 + 0). cbn [map]. f_equal; [simpl; by rewrite Z.add_0_r|].
  rewrite <- (fmap_add_seqZ 1 0), <- list_fmap_compose. apply map_ext_in. intros k _.
  cbn. f_equal. unfold PIPESIZE, u32. Z.div_mod_to_equations. lia.
Qed.

(** What one stretch of [pipewrite] that pushes [n] bytes does. *)
Definition wrote (killed : bool) (src : list (option Z)) (i : Z) (p p' : pipe)
  (r : stretch (option Z)) (n : nat) : Prop :=
  pipe_ok p' ∧ contents p' = contents p ++ pushed src n ∧ length (pushed src n) = n ∧
  fill_level p' = fill_level p + Z.of_nat n ∧ nwrite p' = u32 (nwrite p + Z.of_nat n) ∧
  readopen p' = readopen p ∧ writeopen p' = writeopen p ∧
  match r with
  | Return j => j = i + Z.of_nat n
  | Error => fill_level p' = PIPESIZE ∧ (readopen p' = false ∨ killed = true)
  | Sleep j rest => j = i + Z.of_nat n ∧ rest = drop n src ∧ rest ≠ [] ∧
      fill_level p' = PIPESIZE ∧ readopen p' = true ∧ killed = false
  end.

Lemma wrote_nothing killed src i p r :
  pipe_ok p →
  match r with
  | Return j => j = i
  | Error => fill_level p = PIPESIZE ∧ (readopen p = false ∨ killed = true)
  | Sleep j rest => j = i ∧ rest = src ∧ rest ≠ [] ∧
      fill_level p = PIPESIZE ∧ readopen p = true ∧ killed = false
  end → wrote killed src i p p r 0.
Proof.
  intros Hp Hr. unfold wrote. rewrite !Z.add_0_r, drop_0.
  split; [done|]. split; [simpl; by rewrite app_nil_r|]. split_and!; try done.
  symmetry. apply Z.mod_small, Hp.
Qed.

Lemma pipewrite_spec killed src i p p' r :
  pipe_ok p → pipewrite killed src i p = (p', r) → ∃ n, wrote killed src i p p' r n.
Proof.
  revert i p. induction src as [|b src IH]; intros i p Hp E; simpl in E.
  { simplify_eq. exists 0%nat. by apply wrote_nothing. }
  destruct (pipe_full p) eqn:Ef.
  { pose proof (proj1 (pipe_full_spec p Hp) Ef) as Hfull.
    destruct (negb (readopen p) || killed) eqn:Ek; injection E as <- <-;
      exists 0%nat; apply wrote_nothing; try done.
    - split; [done|]. apply orb_true_iff in Ek as [Ek|Ek]; [left|right]; [|done].
      by apply negb_true_iff.
    - apply orb_false_iff in Ek as [Ek1 Ek2]. apply negb_false_iff in Ek1.
      by split_and!. }
  assert (fill_level p < PIPESIZE) as Hl.
  { pose proof (fill_range p Hp). destruct (decide (fill_level p = PIPESIZE)) as [Hx|]; [|lia].
    apply pipe_full_spec in Hx; [congruence|done]. }
  destruct b as [c|]; [|injection E as <- <-; exists 0%nat; by apply wrote_nothing].
  destruct (level_push p c Hp Hl) as [El Hp1].
  destruct (IH _ _ Hp1 E) as (n & Hp' & Hc & Hlen & Hlv & Hnw & Hro & Hwo & Hr).
  exists (S n). split; [done|]. split.
  { rewrite Hc, contents_push by done. by rewrite <- app_assoc. }
  split; [simpl; by f_equal|]. split; [lia|].
  split; [rewrite Hnw; simpl nwrite; unfold u32; rewrite Zplus_mod_idemp_l; f_equal; lia|].
  split; [done|]. split; [done|]. destruct r; [lia|done|].
  destruct Hr as (-> & -> & ?). split; [lia|done].
Qed.

(** The copy loop takes a prefix of the contents. *)
Lemma piperead_copy_spec dst i p p' bs n :
  pipe_ok p → piperead_copy dst i p = (p', bs, n) →
  pipe_ok p' ∧ contents p = bs ++ contents p' ∧ readopen p' = readopen p ∧
  writeopen p' = writeopen p.
Proof.
  revert i p bs n. induction dst as [|ok dst IH]; intros i p bs n Hp E; simpl in E; [by simplify_eq|].
  destruct (pipe_empty p) eqn:Ee; [by simplify_eq|].
  assert (0 < fill_level p) as Hl.
  { pose proof (fill_range p Hp). destruct (decide (fill_level p = 0)) as [Hx|]; [|lia].
    apply pipe_empty_spec in Hx; [congruence|done]. }
  destruct (level_pop p Hp Hl) as [_ Hp1]. rewrite (contents_pop p Hp Hl).
  cbn [pipe_pop fst snd] in *. destruct ok; [|by simplify_eq/=].
  destruct (piperead_copy dst (i + 1) _) as [[p2 bs2] n2] eqn:E2.
  injection E as -> <- ->. destruct (IH _ _ _ _ Hp1 E2) as (H1 & H2 & H3 & H4).
  split; [done|]. split; [by rewrite H2|]. done.
Qed.

Lemma wake_readers_R u t dst : wake_readers u t ≠ SleepR dst.
Proof. unfold wake_readers. by destruct (u t). Qed.
Lemma wake_readers_W u t i src : wake_readers u t = SleepW i src ↔ u t = SleepW i src.
Proof. unfold wake_readers. by destruct (u t). Qed.
Lemma wake_writers_W u t i src : wake_writers u t ≠ SleepW i src.
Proof. unfold wake_writers. by destruct (u t). Qed.
Lemma wake_writers_R u t dst : wake_writers u t = SleepR dst ↔ u t = SleepR dst.
Proof. unfold wake_writers. by destruct (u t). Qed.

Lemma wrote_count killed src i p p' r n :
  pipe_ok p → wrote killed src i p p' r n → Z.to_nat (u32 (nwrite p' - nwrite p)) = n.
Proof.
  intros Hp (Hp' & _ & _ & Hl & Hn & _). pose proof (fill_range p Hp). pose proof (fill_range p' Hp').
  rewrite Hn. unfold u32, PIPESIZE in *. rewrite Zminus_mod_idemp_l.
  replace (nwrite p + Z.of_nat n - nwrite p) with (Z.of_nat n) by lia.
  rewrite Z.mod_small by lia. lia.
Qed.

Lemma step_write_inv w t k src i pi' r :
  pipe_inv w → users w t = Busy → pipewrite k src i (pi w) = (pi', r) →
  let n := Z.to_nat (u32 (nwrite pi' - nwrite (pi w))) in
  pipe_inv (match r with
             | Return _ => World pi' (wake_readers (users w)) (wlog w ++ pushed src n) (rlog w) (lost w)
             | Sleep j rest => World pi' (upd (wake_readers (users w)) t (SleepW j rest))
                                 (wlog w ++ pushed src n) (rlog w) (lost w)
             | Error => World pi' (users w) (wlog w ++ pushed src n) (rlog w) true
             end).
Proof.
  intros [Hok Hf HR HW] Ht E. destruct (pipewrite_spec _ _ _ _ _ _ Hok E) as [m Hw].
  rewrite (wrote_count _ _ _ _ _ _ _ Hok Hw). destruct Hw as (Hok' & Hc & _ & Hl & _ & Hro & Hwo & Hr).
  pose proof (fill_range _ Hok) as Hr0. pose proof (fill_range _ Hok') as Hr1.
  assert (wlog w ++ pushed src m = rlog w ++ contents pi') as Hf'
    by (by rewrite Hf, Hc, app_assoc).
  assert (∀ t' i' s', users w t' = SleepW i' s' →
    fill_level pi' = PIPESIZE ∧ readopen pi' = true) as HW'.
  { intros t' i' s' E'. destruct (HW t' i' s' E') as [H1 H2]. rewrite Hro. split; [lia|done]. }
  destruct r as [j| |j rest]; split; cbn [pi users wlog rlog lost]; try done.
  - intros t' dst []%wake_readers_R.
  - intros t' i' s' E'. rewrite wake_readers_W in E'. by apply (HW' t' i' s').
  - intros t' dst E'. destruct (decide (t' = t)) as [->|Hne]; [by rewrite upd_eq in E'|].
    rewrite upd_ne in E' by done. by apply wake_readers_R in E'.
  - intros t' i' s' E'. destruct (decide (t' = t)) as [->|Hne]; [tauto|].
    rewrite upd_ne in E' by done. rewrite wake_readers_W in E'. by apply (HW' t' i' s').
Qed.

Lemma step_read_inv w t k dst pi' bs r :
  pipe_inv w → users w t = Busy → piperead k dst (pi w) = (pi', bs, r) →
  pipe_inv (match r with
             | Return _ => World pi' (wake_writers (users w)) (wlog w) (rlog w ++ bs) (lost w)
             | Sleep _ rest => World pi' (upd (users w) t (SleepR rest)) (wlog w) (rlog w ++ bs) (lost w)
             | Error => World pi' (users w) (wlog w) (rlog w ++ bs) (lost w)
             end).
Proof.
  intros [Hok Hf HR HW] Ht E. unfold piperead in E.
  destruct (pipe_empty (pi w) && writeopen (pi w)) eqn:Ee.
  - apply andb_prop in Ee as [Ee Ew]. apply (pipe_empty_spec _ Hok) in Ee.
    pose proof (proj2 (contents_nil _ Hok) Ee) as Hnil.
    destruct k; injection E as <- <- <-; rewrite app_nil_r; [by split|].
    split; cbn [pi users wlog rlog lost]; try done.
    intros t' i' s' E'. destruct (decide (t' = t)) as [->|Hne]; [by rewrite upd_eq in E'|].
    rewrite upd_ne in E' by done. by apply (HW t' i' s').
  - destruct (piperead_copy dst 0 (pi w)) as [[p2 bs2] n2] eqn:E2. injection E as -> -> <-.
    destruct (piperead_copy_spec _ _ _ _ _ _ Hok E2) as (Hok' & Hc & Hro & Hwo).
    split; cbn [pi users wlog rlog lost]; try done.
    + by rewrite Hf, Hc, app_assoc.
    + intros t' d E' Hlost. rewrite wake_writers_R in E'. destruct (HR t' d E' Hlost) as [H1 H2].
      rewrite Hc in H1. apply app_eq_nil in H1 as [_ H1]. by rewrite Hwo.
    + intros t' i' s' []%wake_writers_W.
Qed.

Lemma pstep_inv w w' : pipe_inv w → pstep w w' → pipe_inv w'.
Proof.
  intros Hi [t k src i pi' r Ht E|t k dst pi' bs r Ht E| | |t].
  - by apply (step_write_inv w t k src i).
  - by apply (step_read_inv w t k dst).
  - destruct Hi as [[H1 H2 H3] Hf HR HW]. split; cbn [pi users wlog rlog lost pipeclose fst]; try done.
    + intros t' d []%wake_readers_R.
    + intros t' i' s' E'. rewrite wake_readers_W in E'. by apply (HW t' i' s').
  - destruct Hi as [[H1 H2 H3] Hf HR HW]. split; cbn [pi users wlog rlog lost pipeclose fst]; try done.
    + intros t' d E'. rewrite wake_writers_R in E'. by apply (HR t' d).
    + intros t' i' s' []%wake_writers_W.
  - destruct Hi as [H1 Hf HR HW]. split; cbn [pi users wlog rlog lost]; try done.
    + intros t' d E'. destruct (decide (t' = t)) as [->|Hne]; [by rewrite upd_eq in E'|].
      rewrite upd_ne in E' by done. by apply (HR t' d).
    + intros t' i' s' E'. destruct (decide (t' = t)) as [->|Hne]; [by rewrite upd_eq in E'|].
      rewrite upd_ne in E' by done. by apply (HW t' i' s').
Qed.

Definition pipe_world (junk : Z → Z) : world := World (pipe_init junk) (λ _, Busy) [] [] false.

Lemma pipe_world_inv junk : pipe_inv (pipe_world junk).
Proof. split; [|done|done|done]. split; unfold pipe_world; simpl; try lia. done. Qed.

Lemma pipe_reach_inv junk w : rtc pstep (pipe_world junk) w → pipe_inv w.
Proof.
  intros Hr. pose proof (pipe_world_inv junk) as Hi. revert Hi.
  induction Hr as [|w1 w2 w3 Hs _ IH]; [done|]. intros Hi. apply IH. by apply (pstep_inv w1).
Qed.

(** ** Properties *)

(** C25: a pipe is a FIFO of at most 512 bytes: whatever readers, writers,
    closes and kills interleave, the bytes taken out are exactly a prefix, in
    order, of the bytes put in, the rest is what the buffer holds, and the
    32-bit counters may wrap without harm. *)
Theorem pipe_fifo junk w :
  rtc pstep (pipe_world junk) w →
  wlog w = rlog w ++ contents (pi w) ∧ (length (contents (pi w)) ≤ 512)%nat.
Proof.
  intros Hr. destruct (pipe_reach_inv _ _ Hr) as [Hok Hf _ _]. split; [done|].
  unfold contents. rewrite length_map, length_seqZ. pose proof (fill_range _ Hok).
  unfold PIPESIZE in *. lia.
Qed.

(** no wakeup is lost: a sleeping writer always faces a full pipe whose
    read end is open, and, unless a writer was killed at a full pipe, a
    sleeping reader faces an empty pipe whose write end is open. *)
Theorem pipe_no_lost_wakeup junk w t :
  rtc pstep (pipe_world junk) w →
  (∀ i src, users w t = SleepW i src →
     length (contents (pi w)) = 512%nat ∧ readopen (pi w) = true) ∧
  (∀ dst, users w t = SleepR dst → lost w = false →
     contents (pi w) = [] ∧ writeopen (pi w) = true).
Proof.
  intros Hr. destruct (pipe_reach_inv _ _ Hr) as [Hok _ HR HW]. split.
  - intros i src E. destruct (HW t i src E) as [Hl Ho]. split; [|done].
    unfold contents. by rewrite length_map, length_seqZ, Hl.
  - intros dst E. by apply HR with (t := t) (dst := dst).
Qed.

(** One writer puts two bytes, one reader takes one of them. *)
Lemma pipe_run :
  ∃ w, rtc pstep (pipe_world (λ _, 0)) w ∧ wlog w = [97; 98] ∧ rlog w = [97].
Proof.
  eexists. split.
  - eapply rtc_l; [eapply (p_write _ 1 false [Some 97; Some 98] 0); reflexivity|].
    eapply rtc_l; [eapply (p_read _ 2 false [true]); reflexivity|]. apply rtc_refl.
  - split; reflexivity.
Qed.

Lemma pipe_fifo_witness : ∃ w, rlog w = [97] ∧ wlog w = rlog w ++ contents (pi w).
Proof.
  destruct pipe_run as (w & Hr & _ & E). exists w. split; [exact E|].
  apply (pipe_fifo (λ _, 0) w Hr).
Defined.

(** A reader that found the pipe empty sleeps. *)
Lemma pipe_sleep_run :
  ∃ w, rtc pstep (pipe_world (λ _, 0)) w ∧ users w 2 = SleepR [true] ∧ lost w = false.
Proof.
  eexists. split; [eapply rtc_l; [eapply (p_read _ 2 false [true]); reflexivity|apply rtc_refl]|].
  split; reflexivity.
Qed.

Lemma pipe_no_lost_wakeup_witness :
  ∃ w, users w 2 = SleepR [true] ∧ contents (pi w) = [] ∧ writeopen (pi w) = true.
Proof.
  destruct pipe_sleep_run as (w & Hr & E & El). exists w. split; [exact E|].
  exact (proj2 (pipe_no_lost_wakeup (λ _, 0) w 2 Hr) [true] E El).
Defined.
