(* ===== verification/Bio.v ===== *)
(** * The buffer cache (kernel/bio.c)

    [NBUF] buffers on a circular doubly linked list, most recently used first.
    A [struct buf *] is the buffer's index, [&bcache.head] is [HEAD]; [nxt] and
    [prv] are the link fields.  The disk behind [disk_read] and [disk_write]
    (kernel/disk.c) maps sector numbers to sectors.  A buffer's sleep lock is
    its holder's pid, 0 when free; where [acquiresleep] would wait for another
    process the computation stops with "sleep". *)
From stdpp Require Import prelude list strings.
From Stdlib Require Import ZArith Lia.
From S2P Require Import Prelude.
Open Scope Z_scope.

Definition NBUF : Z := 30.
Definition HEAD : Z := NBUF.

Record buf := Buf {
  valid : bool; dev : Z; sectorno : Z; holder : Z; refcnt : Z; bdata : list Z }.
Record bcache := Bcache { bufs : Z → buf; nxt : Z → Z; prv : Z → Z; disk : Z → list Z }.

Definition set_buf (b : Z) (x : buf) (s : bcache) : bcache :=
  Bcache (upd (bufs s) b x) (nxt s) (prv s) (disk s).
Definition set_links (n p : Z → Z) (s : bcache) : bcache := Bcache (bufs s) n p (disk s).
Definition set_disk (d : Z → list Z) (s : bcache) : bcache := Bcache (bufs s) (nxt s) (prv s) d.

(** Put [b] right after the head; take [b] out of the list. *)
Definition link_front (b : Z) (s : bcache) : bcache :=
  let n1 := upd (nxt s) b (nxt s HEAD) in
  let p1 := upd (prv s) b HEAD in
  let p2 := upd p1 (n1 HEAD) b in
  let n2 := upd n1 HEAD b in
  set_links n2 p2 s.
Definition unlink (b : Z) (s : bcache) : bcache :=
  let p1 := upd (prv s) (nxt s b) (prv s b) in
  let n1 := upd (nxt s) (p1 b) (nxt s b) in
  set_links n1 p1 s.

Definition binit_one (b : Z) (s : bcache) : bcache :=
  let x := bufs s b in
  link_front b (set_buf b (Buf (valid x) (u32 (-1)) (u32 (-1)) 0 0 (bdata x)) s).
Definition binit (s : bcache) : bcache :=
  fold_left (λ s b, binit_one b s) (seqZ 0 NBUF)
    (set_links (upd (nxt s) HEAD HEAD) (upd (prv s) HEAD HEAD) s).

(** A scan along one link field from [b] to the head. *)
Fixpoint scan (fuel : nat) (f : Z → bool) (link : Z → Z) (b : Z) : option Z :=
  match fuel with
  | O => None
  | S fuel => if b =? HEAD then None else if f b then Some b else scan fuel f link (link b)
  end.

Definition acquirebuf (p b : Z) : M bcache unit :=
  x <-- gets (λ s, bufs s b) ;;
  if holder x =? 0
  then modify (set_buf b (Buf (valid x) (dev x) (sectorno x) p (refcnt x) (bdata x)))
  else panic "sleep".

Definition bget (p d sec : Z) : M bcache Z :=
  s <-- gets id ;;
  match scan (S (Z.to_nat NBUF)) (λ b, (dev (bufs s b) =? d) && (sectorno (bufs s b) =? sec))
          (nxt s) (nxt s HEAD) with
  | Some b =>
      let x := bufs s b in
      modify (set_buf b (Buf (valid x) (dev x) (sectorno x) (holder x) (u32 (refcnt x + 1)) (bdata x))) ;;;
      acquirebuf p b ;;; mretM b
  | None =>
      match scan (S (Z.to_nat NBUF)) (λ b, refcnt (bufs s b) =? 0) (prv s) (prv s HEAD) with
      | Some b =>
          let x := bufs s b in
          modify (set_buf b (Buf false d sec (holder x) 1 (bdata x))) ;;;
          acquirebuf p b ;;; mretM b
      | None => panic "bget: no buffers"
      end
  end.

Definition disk_read (b : Z) : M bcache unit :=
  modify (λ s, let x := bufs s b in
    set_buf b (Buf (valid x) (dev x) (sectorno x) (holder x) (refcnt x) (disk s (sectorno x))) s).
Definition disk_write (b : Z) : M bcache unit :=
  modify (λ s, let x := bufs s b in set_disk (upd (disk s) (sectorno x) (bdata x)) s).

Definition bread (p d sec : Z) : M bcache Z :=
  b <-- bget p d sec ;;
  v <-- gets (λ s, valid (bufs s b)) ;;
  whenM (negb v)
    (disk_read b ;;;
     modify (λ s, let x := bufs s b in
       set_buf b (Buf true (dev x) (sectorno x) (holder x) (refcnt x) (bdata x)) s)) ;;;
  mretM b.

Definition holdingbuf (p b : Z) (s : bcache) : bool :=
  negb (holder (bufs s b) =? 0) && (holder (bufs s b) =? p).

Definition bwrite (p b : Z) : M bcache unit :=
  h <-- gets (holdingbuf p b) ;;
  if negb h then panic "bwrite" else disk_write b.

Definition brelse (p b : Z) : M bcache unit :=
  h <-- gets (holdingbuf p b) ;;
  if negb h then panic "brelse"
  else
    modify (λ s, let x := bufs s b in
      set_buf b (Buf (valid x) (dev x) (sectorno x) 0 (u32 (refcnt x - 1)) (bdata x)) s) ;;;
    r <-- gets (λ s, refcnt (bufs s b)) ;;
    whenM (r =? 0) (modify (λ s, link_front b (unlink b s))).

Definition bpin (b : Z) : M bcache unit :=
  modify (λ s, let x := bufs s b in
    set_buf b (Buf (valid x) (dev x) (sectorno x) (holder x) (u32 (refcnt x + 1)) (bdata x)) s).
Definition bunpin (b : Z) : M bcache unit :=
  modify (λ s, let x := bufs s b in
    set_buf b (Buf (valid x) (dev x) (sectorno x) (holder x) (u32 (refcnt x - 1)) (bdata x)) s).

(** Writing into a held buffer, as the file system does between [bread] and
    [bwrite]. *)
Definition set_bdata (b : Z) (d : list Z) : M bcache unit :=
  modify (λ s, let x := bufs s b in
    set_buf b (Buf (valid x) (dev x) (sectorno x) (holder x) (refcnt x) d) s).

(** The two transactions the file system is made of. *)
Definition read_sector (p d sec : Z) : M bcache (list Z) :=
  b <-- bread p d sec ;; x <-- gets (λ s, bdata (bufs s b)) ;; brelse p b ;;; mretM x.
Definition write_sector (p d sec : Z) (f : list Z → list Z) : M bcache unit :=
  b <-- bread p d sec ;; x <-- gets (λ s, bdata (bufs s b)) ;;
  set_bdata b (f x) ;;; bwrite p b ;;; brelse p b.

(** ** The list as links *)

Fixpoint path (n p : Z → Z) (x : Z) (L : list Z) (y : Z) : Prop :=
  match L with
  | [] => n x = y ∧ p y = x
  | z :: L => n x = z ∧ p z = x ∧ path n p z L y
  end.

Record ring (s : bcache) (L : list Z) : Prop := {
  r_path : path (nxt s) (prv s) HEAD L HEAD;
  r_nodup : NoDup (HEAD :: L) }.

Lemma path_app n p x L1 z L2 y :
  path n p x (L1 ++ z :: L2) y ↔ path n p x L1 z ∧ path n p z L2 y.
Proof.
  revert x. induction L1 as [|w L1 IH]; intros x; simpl; [tauto|]. rewrite IH. tauto.
Qed.

Lemma path_ext n p n' p' x L y :
  (∀ z, z = x ∨ z ∈ L → n' z = n z) → (∀ z, z ∈ L ∨ z = y → p' z = p z) →
  path n p x L y → path n' p' x L y.
Proof.
  revert x. induction L as [|z L IH]; intros x Hn Hp; simpl.
  - intros [H1 H2]. rewrite Hn, Hp by auto. done.
  - intros (H1 & H2 & H3). rewrite Hn by auto. rewrite Hp by (left; left).
    split; [done|]. split; [done|]. apply IH; [| |done].
    + intros w [->|Hw]; apply Hn; right; [left|by right].
    + intros w [Hw| ->]; apply Hp; [left; by right|by right].
Qed.

Lemma path_first n p x L y : path n p x L y → n x = hd y L.
Proof. destruct L; simpl; tauto. Qed.
(** The last node of a path that starts at [x]. *)
Fixpoint plast (x : Z) (L : list Z) : Z := match L with [] => x | z :: L => plast z L end.

Lemma plast_in x L : plast x L ∈ x :: L.
Proof. revert x. induction L as [|z L IH]; intros x; [left|]. right. apply IH. Qed.

Lemma plast_snoc x L z : plast x (L ++ [z]) = z.
Proof. revert x. induction L as [|w L IH]; intros x; [done|]. apply IH. Qed.

Lemma path_last n p x L y : path n p x L y → p y = plast x L.
Proof. revert x. induction L as [|z L IH]; intros x; simpl; [tauto|]. intros (_ & _ & H). by apply IH. Qed.

(** Redirecting the last link of a path to another target. *)
Lemma path_retarget n p x L b c :
  path n p x L b → NoDup (x :: L) → c ∉ L →
  path (upd n (plast x L) c) (upd p c (plast x L)) x L c.
Proof.
  revert x. induction L as [|z L IH]; intros x Hp Hnd Hc.
  { simpl. by rewrite !upd_eq. }
  destruct Hp as (H1 & H2 & H3). apply NoDup_cons in Hnd as [Hx Hnd].
  apply not_elem_of_cons in Hc as [Hcz Hc]. cbn [plast].
  split; [|split; [|by apply IH]].
  - rewrite upd_ne; [done|]. intros E. apply Hx. rewrite E. apply plast_in.
  - rewrite upd_ne by congruence. done.
Qed.

(** Taking a node out of a circular list through [h], and putting one first. *)
Lemma path_remove n p h L1 b L2 :
  path n p h (L1 ++ b :: L2) h → NoDup (h :: L1 ++ b :: L2) →
  path (upd n (plast h L1) (hd h L2)) (upd p (hd h L2) (plast h L1)) h (L1 ++ L2) h ∧
  NoDup (h :: L1 ++ L2) ∧ b ∉ h :: L1 ++ L2.
Proof.
  intros Hp Hn. apply path_app in Hp as [P1 P2].
  assert (NoDup (h :: L1 ++ L2) ∧ b ∉ h :: L1 ++ L2) as [Hn' Hb].
  { assert (h :: L1 ++ b :: L2 ≡ₚ b :: h :: L1 ++ L2) as HP.
    { rewrite <- Permutation_middle. constructor. }
    rewrite HP in Hn. by apply NoDup_cons in Hn as [? ?]. }
  split; [|done].
  assert (NoDup (h :: L1) ∧ ∀ z, z ∈ h :: L1 → z ∉ L2) as [Hn1 Hd].
  { rewrite app_comm_cons in Hn'. apply NoDup_app in Hn' as (H1 & H2 & _). done. }
  destruct L2 as [|c L2]; simpl hd in *.
  - rewrite app_nil_r. apply (path_retarget _ _ _ _ b); [done|done|].
    apply NoDup_cons in Hn1 as [? _]. done.
  - apply path_app. split.
    + apply (path_retarget _ _ _ _ b); [done|done|].
      intros Hc. apply (Hd c); [by right|left].
    + destruct P2 as (_ & _ & P2). revert P2. apply path_ext.
      * intros z Hz. apply upd_ne. intros ->. apply (Hd _ (plast_in h L1)).
        destruct Hz as [->|Hz]; [left|by right].
      * intros z Hz. apply upd_ne. intros ->. rewrite app_comm_cons in Hn'.
        apply NoDup_app in Hn' as (_ & _ & Hn'). apply NoDup_cons in Hn' as [Hc _].
        destruct Hz as [Hz| ->]; [done|]. apply (Hd h); [left|left].
Qed.

Lemma path_push n p h L b :
  path n p h L h → NoDup (h :: L) → b ∉ h :: L →
  path (upd (upd n b (n h)) h b) (upd (upd p b h) (n h) b) h (b :: L) h ∧ NoDup (h :: b :: L).
Proof.
  intros Hp Hn Hb. apply not_elem_of_cons in Hb as [HbH Hb].
  apply NoDup_cons in Hn as [HH Hn]. split.
  2:{ apply NoDup_cons. split; [apply not_elem_of_cons; split; [congruence|done]|].
      by apply NoDup_cons. }
  rewrite (path_first _ _ _ _ _ Hp).
  cbn [path]. rewrite upd_eq. split; [done|]. destruct L as [|z L]; cbn [hd path] in *.
  - split_and!; rewrite ?(upd_ne _ h b) by congruence; by rewrite ?upd_eq.
  - destruct Hp as (_ & _ & Hp). apply not_elem_of_cons in HH as [HzH HH].
    apply not_elem_of_cons in Hb as [Hbz Hb]. apply NoDup_cons in Hn as [Hz Hn].
    split; [rewrite upd_ne by congruence; by rewrite upd_eq|].
    split; [rewrite upd_ne by congruence; by rewrite upd_eq|].
    split; [by rewrite upd_eq|]. revert Hp. apply path_ext.
    + intros w [->|Hw]; rewrite !upd_ne by (congruence || (intros ->; done)); done.
    + intros w [Hw| ->]; rewrite !upd_ne by (congruence || (intros ->; done)); done.
Qed.

Lemma unlink_links b s L1 L2 :
  ring s (L1 ++ b :: L2) →
  prv s b = plast HEAD L1 ∧ nxt s b = hd HEAD L2 ∧
  nxt (unlink b s) = upd (nxt s) (plast HEAD L1) (hd HEAD L2) ∧
  prv (unlink b s) = upd (prv s) (hd HEAD L2) (plast HEAD L1).
Proof.
  intros [Hp Hn]. apply path_app in Hp as [P1 P2].
  rewrite (path_last _ _ _ _ _ P1), (path_first _ _ _ _ _ P2). split; [done|]. split; [done|].
  unfold unlink. cbn [nxt prv set_links].
  rewrite (path_last _ _ _ _ _ P1), (path_first _ _ _ _ _ P2).
  rewrite upd_ne; [by rewrite (path_last _ _ _ _ _ P1)|].
  apply NoDup_cons in Hn as [Hh Hn]. apply NoDup_app in Hn as (_ & _ & Hn).
  apply NoDup_cons in Hn as [Hb _]. destruct L2 as [|c L2]; simpl.
  - intros ->. apply Hh. set_solver.
  - intros ->. apply Hb. left.
Qed.

Lemma ring_unlink b s L1 L2 : ring s (L1 ++ b :: L2) → ring (unlink b s) (L1 ++ L2).
Proof.
  intros Hr. destruct (unlink_links b s L1 L2 Hr) as (_ & _ & En & Ep). destruct Hr as [Hp Hn].
  destruct (path_remove _ _ _ _ _ _ Hp Hn) as (Hp' & Hn' & _). split; [by rewrite En, Ep|done].
Qed.

Lemma ring_link_front b s L : ring s L → b ∉ HEAD :: L → ring (link_front b s) (b :: L).
Proof.
  intros [Hp Hn] Hb. destruct (path_push _ _ _ _ b Hp Hn Hb) as [Hp' Hn'].
  split; [|done]. unfold link_front. cbn [nxt prv set_links].
  apply not_elem_of_cons in Hb as [HbH _]. by rewrite (upd_ne (nxt s) b HEAD) by congruence.
Qed.

(** The scans find the first buffer of the list, or of its reverse. *)
Fixpoint first_of (f : Z → bool) (L : list Z) : option Z :=
  match L with [] => None | b :: L => if f b then Some b else first_of f L end.

Lemma scan_nxt f n p L x fuel :
  path n p x L HEAD → HEAD ∉ L → (length L < fuel)%nat → scan fuel f n (n x) = first_of f L.
Proof.
  revert x fuel. induction L as [|z L IH]; intros x [|fuel] Hp HH Hf; simpl in *; try lia.
  - destruct Hp as [-> _]. by rewrite Z.eqb_refl.
  - destruct Hp as (-> & _ & Hp). apply not_elem_of_cons in HH as [Hz HH].
    destruct (Z.eqb_spec z HEAD); [congruence|]. destruct (f z); [done|]. apply IH; [done|done|lia].
Qed.

Lemma scan_prv f n p L x fuel :
  path n p x L HEAD → x = HEAD → HEAD ∉ L → (length L < fuel)%nat →
  scan fuel f p (p HEAD) = first_of f (rev L).
Proof.
  intros Hp Hx. subst x.
  assert (∀ y K, path n p HEAD K y → HEAD ∉ K → ∀ fuel, (length K < fuel)%nat →
    scan fuel f p (p y) = first_of f (rev K)) as Hgen; [|intros; by apply Hgen].
  clear. intros y K. revert y. induction K as [|z K IH] using rev_ind; intros y Hp HH [|fuel] Hf;
    try (rewrite ?length_app in Hf; simpl in Hf; lia).
  - destruct Hp as [_ ->]. reflexivity.
  - apply path_app in Hp as [P1 [_ P2]]. rewrite P2, rev_app_distr. simpl.
    destruct (Z.eqb_spec z HEAD) as [->|]; [exfalso; apply HH; set_solver|].
    destruct (f z); [done|]. apply IH; [done|set_solver|]. rewrite length_app in Hf. simpl in Hf. lia.
Qed.

Lemma first_of_Some f L b : first_of f L = Some b → b ∈ L ∧ f b = true.
Proof.
  induction L as [|z L IH]; simpl; [done|]. destruct (f z) eqn:E.
  - intros [= ->]. split; [left|done].
  - intros H%IH. split; [right|]; tauto.
Qed.
Lemma first_of_None f L b : first_of f L = None → b ∈ L → f b = false.
Proof.
  induction L as [|z L IH]; simpl; intros E Hb; [by apply elem_of_nil in Hb|].
  destruct (f z) eqn:Ez; [done|]. apply elem_of_cons in Hb as [->|Hb]; [done|by apply IH].
Qed.

(** ** Invariant *)

Definition invalid_key : Z := u32 (-1).

(** All traffic goes to one device [d]. *)
Record bio_inv (d : Z) (s : bcache) (L : list Z) : Prop := {
  bi_ring : ring s L;
  bi_all : ∀ b, b ∈ L ↔ 0 ≤ b < NBUF;
  bi_dev : ∀ b, b ∈ L → sectorno (bufs s b) ≠ invalid_key → dev (bufs s b) = d;
  bi_key : ∀ b c, b ∈ L → c ∈ L → sectorno (bufs s b) = sectorno (bufs s c) →
    sectorno (bufs s b) ≠ invalid_key → b = c;
  bi_ref : ∀ b, b ∈ L → 0 ≤ refcnt (bufs s b) < 2 ^ 32 - 1 ∧
    (refcnt (bufs s b) = 0 → holder (bufs s b) = 0);
  bi_data : ∀ b, b ∈ L → valid (bufs s b) = true → holder (bufs s b) = 0 →
    sectorno (bufs s b) ≠ invalid_key →
    bdata (bufs s b) = disk s (sectorno (bufs s b)) }.

Lemma bio_len d s L : bio_inv d s L → (length L < S (Z.to_nat NBUF))%nat.
Proof.
  intros Hi. pose proof (r_nodup _ _ (bi_ring _ _ _ Hi)) as Hn. apply NoDup_cons in Hn as [_ Hn].
  assert (length L ≤ length (seqZ 0 NBUF))%nat as Hl.
  { apply submseteq_length, NoDup_submseteq; [done|]. intros b Hb.
    apply (bi_all _ _ _ Hi) in Hb. apply elem_of_seqZ. lia. }
  rewrite length_seqZ in Hl. lia.
Qed.

(** Where [bget] finds its buffer: the cached one, or the least recently used
    one nobody refers to. *)
Definition bget_pick (s : bcache) (L : list Z) (d sec : Z) : option (Z * bool) :=
  match first_of (λ b, (dev (bufs s b) =? d) && (sectorno (bufs s b) =? sec)) L with
  | Some b => Some (b, true)
  | None => match first_of (λ b, refcnt (bufs s b) =? 0) (rev L) with
            | Some b => Some (b, false) | None => None end
  end.

Lemma bget_scan d s L :
  bio_inv d s L → ∀ f, scan (S (Z.to_nat NBUF)) f (nxt s) (nxt s HEAD) = first_of f L ∧
    scan (S (Z.to_nat NBUF)) f (prv s) (prv s HEAD) = first_of f (rev L).
Proof.
  intros Hi f. pose proof (bio_len _ _ _ Hi). destruct (bi_ring _ _ _ Hi) as [Hp Hn].
  apply NoDup_cons in Hn as [HH _].
  split; [by apply (scan_nxt _ _ (prv s))|by apply (scan_prv _ (nxt s) _ _ HEAD)].
Qed.

(** One buffer replaced, links and disk kept. *)
Record one_buf (s s' : bcache) (b : Z) (x : buf) : Prop := {
  ob_buf : bufs s' b = x;
  ob_other : ∀ c, c ≠ b → bufs s' c = bufs s c;
  ob_links : nxt s' = nxt s ∧ prv s' = prv s;
  ob_disk : disk s' = disk s }.

Lemma one_buf_set s b x : one_buf s (set_buf b x s) b x.
Proof. split; simpl; [by rewrite upd_eq|intros c Hc; by rewrite upd_ne|done|done]. Qed.
Lemma one_buf_trans s s1 s2 b x y : one_buf s s1 b x → one_buf s1 s2 b y → one_buf s s2 b y.
Proof.
  intros [_ O1 [N1 P1] D1] [B2 O2 [N2 P2] D2]. split; [done| |split; congruence|congruence].
  intros c Hc. by rewrite O2, O1.
Qed.

(** [bread] of a sector nobody else holds returns its buffer, locked, with the
    sector's contents. *)
Lemma bread_spec p d s L sec b hit :
  bio_inv d s L → p ≠ 0 → sec ≠ invalid_key →
  bget_pick s L d sec = Some (b, hit) → holder (bufs s b) = 0 →
  refcnt (bufs s b) < 2 ^ 32 - 2 →
  ∃ s', bread p d sec s = Ok b s' ∧ b ∈ L ∧
    one_buf s s' b (Buf true d sec p (refcnt (bufs s b) + 1) (disk s sec)).
Proof.
  intros Hi Hp Hsec Hpick Hh Hr. destruct (bget_scan _ _ _ Hi) with (f := λ b, (dev (bufs s b) =? d) && (sectorno (bufs s b) =? sec)) as [E1 _].
  destruct (bget_scan _ _ _ Hi) with (f := λ b, refcnt (bufs s b) =? 0) as [_ E2].
  unfold bread, bget. unfold mbindM at 1 2, gets at 1, id. rewrite E1, E2.
  unfold bget_pick in Hpick. destruct (first_of _ L) as [b1|] eqn:F1.
  - injection Hpick as -> <-. apply first_of_Some in F1 as [HbL Hk].
    apply andb_prop in Hk as [Hd Hs]. apply Z.eqb_eq in Hd, Hs.
    destruct (bi_ref _ _ _ Hi b HbL) as [Hrr _].
    unfold acquirebuf, mbindM, modify, gets, mretM, whenM. simpl. rewrite upd_eq. simpl.
    rewrite Hh. simpl. rewrite upd_eq. simpl. rewrite (u32_small (refcnt (bufs s b) + 1)) by lia.
    rewrite Hd, Hs. destruct (valid (bufs s b)) eqn:Ev; simpl.
    + eexists. split; [done|]. split; [done|]. split; simpl.
      * rewrite upd_eq. pose proof (bi_data _ _ _ Hi b HbL Ev Hh) as Hdat. rewrite Hs in Hdat.
        by rewrite Hdat.
      * intros c Hc. by rewrite !upd_ne.
      * done.
      * done.
    + eexists. split; [done|]. split; [done|]. rewrite !upd_eq. simpl. split; simpl.
      * by rewrite upd_eq.
      * intros c Hc. by rewrite !upd_ne.
      * done.
      * done.
  - destruct (first_of _ (rev L)) as [b1|] eqn:F2; [|done]. injection Hpick as -> <-.
    apply first_of_Some in F2 as [HbL Hk]. apply Z.eqb_eq in Hk.
    unfold acquirebuf, mbindM, modify, gets, mretM, whenM. simpl. rewrite upd_eq. simpl.
    rewrite Hh. simpl. rewrite upd_eq. simpl. rewrite !upd_eq. simpl.
    eexists. split; [done|].
    split; [by apply list_elem_of_In, in_rev, list_elem_of_In in HbL|]. split; simpl.
    + rewrite upd_eq. by rewrite Hk.
    + intros c Hc. by rewrite !upd_ne.
    + done.
    + done.
Qed.

Lemma pick_unique d s L sec b hit :
  bio_inv d s L → sec ≠ invalid_key → bget_pick s L d sec = Some (b, hit) →
  ∀ c, c ∈ L → c ≠ b → sectorno (bufs s c) ≠ sec.
Proof.
  intros Hi Hsec Hpick c Hc Hne Es. unfold bget_pick in Hpick.
  assert (dev (bufs s c) = d) as Ed by (apply (bi_dev _ _ _ Hi); congruence).
  destruct (first_of _ L) as [b1|] eqn:F1.
  - injection Hpick as -> <-. apply first_of_Some in F1 as [HbL Hk].
    apply andb_prop in Hk as [_ Hs]. apply Z.eqb_eq in Hs. apply Hne.
    apply (bi_key _ _ _ Hi); congruence.
  - pose proof (first_of_None _ _ c F1 Hc) as Hf. cbv beta in Hf.
    rewrite Ed, Es, !Z.eqb_refl in Hf. done.
Qed.

(** Position in the list after the buffer is released. *)
Definition touched (L L' : list Z) (b r : Z) : Prop :=
  if r =? 0 then ∃ L1 L2, L = L1 ++ b :: L2 ∧ L' = b :: L1 ++ L2 else L' = L.

(** Releasing a buffer whose contents are on disk ends the transaction. *)
Lemma brelse_spec p d s L s1 sec b dat :
  bio_inv d s L → p ≠ 0 → sec ≠ invalid_key → b ∈ L →
  (∀ c, c ∈ L → c ≠ b → sectorno (bufs s c) ≠ sec) →
  refcnt (bufs s b) < 2 ^ 32 - 2 →
  bufs s1 b = Buf true d sec p (refcnt (bufs s b) + 1) dat →
  (∀ c, c ≠ b → bufs s1 c = bufs s c) → nxt s1 = nxt s → prv s1 = prv s →
  disk s1 sec = dat → (∀ x, x ≠ sec → disk s1 x = disk s x) →
  ∃ s2 L', brelse p b s1 = Ok tt s2 ∧ bio_inv d s2 L' ∧ disk s2 = disk s1 ∧
    touched L L' b (refcnt (bufs s b)) ∧ ∀ c, refcnt (bufs s2 c) = refcnt (bufs s c).
Proof.
  intros Hi Hp Hsec HbL Huniq Hr Eb Eo En Ep Ed1 Ed2.
  destruct (bi_ref _ _ _ Hi b HbL) as [Hrr _]. set (r := refcnt (bufs s b)) in *.
  unfold brelse, mbindM, modify, gets, mretM, whenM, holdingbuf. rewrite Eb. simpl.
  destruct (Z.eqb_spec p 0); [done|]. rewrite Z.eqb_refl. simpl. rewrite upd_eq. simpl.
  rewrite Eb. cbn [valid dev sectorno refcnt bdata]. replace (r + 1 - 1) with r by lia. rewrite u32_small by lia.
  set (s2 := set_buf b (Buf true d sec 0 r dat) s1).
  assert (∀ t L', (∀ c, bufs t c = bufs s2 c) → disk t = disk s1 → ring t L' →
    (∀ c, c ∈ L' ↔ c ∈ L) → bio_inv d t L') as Hfin.
  { intros t L' Hb Hd Hring Hm.
    assert (∀ c, bufs t c = if c =? b then Buf true d sec 0 r dat else bufs s c) as Hbt.
    { intros c. rewrite Hb. simpl. unfold upd. destruct (Z.eqb_spec c b); [done|by apply Eo]. }
    split; [done|intros c; rewrite Hm; apply (bi_all _ _ _ Hi)|..].
    - intros c Hc. rewrite Hbt. destruct (Z.eqb_spec c b); [done|].
      apply (bi_dev _ _ _ Hi). by apply Hm.
    - intros c e Hc He. rewrite !Hbt. apply Hm in Hc, He.
      destruct (Z.eqb_spec c b), (Z.eqb_spec e b); simpl; try congruence.
      + intros Es. by destruct (Huniq e He ltac:(done)).
      + intros Es. by destruct (Huniq c Hc ltac:(done)).
      + by apply (bi_key _ _ _ Hi).
    - intros c Hc. rewrite Hbt. destruct (Z.eqb_spec c b); [simpl; split; [lia|done]|].
      apply (bi_ref _ _ _ Hi). by apply Hm.
    - intros c Hc. rewrite Hbt, Hd. apply Hm in Hc. destruct (Z.eqb_spec c b); [simpl; by rewrite Ed1|].
      intros Hv Hh Hk. rewrite Ed2; [by apply (bi_data _ _ _ Hi)|by apply Huniq]. }
  assert (ring s2 L) as Hring.
  { destruct (bi_ring _ _ _ Hi) as [H1 H2]. split; [|done]. simpl. by rewrite En, Ep. }
  assert (∀ c, refcnt (bufs s2 c) = refcnt (bufs s c)) as Hrc.
  { intros c. simpl. unfold upd. destruct (Z.eqb_spec c b) as [->|]; [done|by rewrite Eo]. }
  destruct (Z.eqb_spec r 0) as [Er|Er].
  - apply list_elem_of_split in HbL as (L1 & L2 & ->).
    exists (link_front b (unlink b s2)), (b :: L1 ++ L2). split; [done|].
    assert (b ∉ HEAD :: L1 ++ L2) as Hb.
    { pose proof (r_nodup _ _ Hring) as Hn.
      assert (HEAD :: L1 ++ b :: L2 ≡ₚ b :: HEAD :: L1 ++ L2) as HP
        by (rewrite <- Permutation_middle; constructor).
      rewrite HP in Hn. by apply NoDup_cons in Hn as [? _]. }
    split; [|split; [done|split; [|done]]].
    + apply Hfin; [done|done|by apply ring_link_front; [apply ring_unlink|]|]. set_solver.
    + unfold touched. rewrite Er. exists L1, L2. done.
  - exists s2, L. split; [done|]. split; [by apply Hfin|]. split; [done|]. split; [|done].
    unfold touched. destruct (Z.eqb_spec r 0); done.
Qed.

(** ** Properties *)

(** reading a sector through the cache ([bread], use, [brelse]) returns
    what the disk holds, changes nothing on disk, keeps the cache coherent and
    makes the buffer the most recently used one; the buffer is the cached one
    or else the least recently used buffer without users. *)
Theorem read_sector_correct p d s L sec b hit :
  bio_inv d s L → p ≠ 0 → sec ≠ invalid_key →
  bget_pick s L d sec = Some (b, hit) → holder (bufs s b) = 0 →
  refcnt (bufs s b) < 2 ^ 32 - 2 →
  ∃ s' L', read_sector p d sec s = Ok (disk s sec) s' ∧ bio_inv d s' L' ∧ disk s' = disk s ∧
    touched L L' b (refcnt (bufs s b)).
Proof.
  intros Hi Hp Hsec Hpick Hh Hr.
  destruct (bread_spec p d s L sec b hit Hi Hp Hsec Hpick Hh Hr) as (s1 & E1 & HbL & [B O [N P] D]).
  destruct (brelse_spec p d s L s1 sec b (disk s sec)) as (s2 & L' & E2 & Hi2 & D2 & T & _); try done.
  - by apply (pick_unique d s L sec b hit).
  - by rewrite D.
  - intros x _. by rewrite D.
  - exists s2, L'. unfold read_sector. rewrite (mbindM_Ok _ _ _ _ _ E1).
    unfold mbindM at 1, gets. rewrite B. cbn [bdata]. rewrite (mbindM_Ok _ _ _ _ _ E2).
    split; [done|]. split; [done|]. split; [congruence|done].
Qed.

(** C28: a read-modify-write of a sector through the cache ([bread], change,
    [bwrite], [brelse]) has exactly the effect of the same update on the disk,
    and keeps the cache coherent. *)
Theorem write_sector_correct p d s L sec f b hit :
  bio_inv d s L → p ≠ 0 → sec ≠ invalid_key →
  bget_pick s L d sec = Some (b, hit) → holder (bufs s b) = 0 →
  refcnt (bufs s b) < 2 ^ 32 - 2 →
  ∃ s' L', write_sector p d sec f s = Ok tt s' ∧ bio_inv d s' L' ∧
    (∀ x, disk s' x = if x =? sec then f (disk s sec) else disk s x) ∧
    touched L L' b (refcnt (bufs s b)).
Proof.
  intros Hi Hp Hsec Hpick Hh Hr.
  destruct (bread_spec p d s L sec b hit Hi Hp Hsec Hpick Hh Hr) as (s1 & E1 & HbL & [B O [N P] D]).
  set (x2 := Buf true d sec p (refcnt (bufs s b) + 1) (f (disk s sec))).
  set (s3 := set_disk (upd (disk s1) sec (f (disk s sec))) (set_buf b x2 s1)).
  destruct (brelse_spec p d s L s3 sec b (f (disk s sec))) as (s4 & L' & E2 & Hi2 & D2 & T & _); try done.
  - by apply (pick_unique d s L sec b hit).
  - simpl. by rewrite upd_eq.
  - intros c Hc. simpl. rewrite upd_ne by done. by apply O.
  - simpl. by rewrite upd_eq.
  - intros x Hx. simpl. rewrite upd_ne by done. by rewrite D.
  - exists s4, L'. split; [|split; [done|split; [|done]]].
    + unfold write_sector. rewrite (mbindM_Ok _ _ _ _ _ E1). unfold mbindM at 1, gets. rewrite B. cbn [bdata].
      unfold set_bdata, bwrite, holdingbuf, disk_write, modify, gets. unfold mbindM at 1. rewrite B. simpl.
      unfold mbindM at 1 2. simpl. rewrite upd_eq. simpl.
      destruct (Z.eqb_spec p 0); [done|]. rewrite Z.eqb_refl. simpl. rewrite upd_eq. simpl. exact E2.
    + intros x. rewrite D2. simpl. unfold upd. destruct (Z.eqb_spec x sec); [done|]. by rewrite D.
Qed.

Lemma binit_fold l s L :
  ring s L → NoDup l → (∀ b, b ∈ l → b ∉ HEAD :: L) →
  let s' := fold_left (λ s b, binit_one b s) l s in
  ring s' (rev l ++ L) ∧ disk s' = disk s ∧
  (∀ b, b ∈ l → sectorno (bufs s' b) = invalid_key ∧ holder (bufs s' b) = 0 ∧ refcnt (bufs s' b) = 0) ∧
  (∀ b, b ∉ l → bufs s' b = bufs s b).
Proof.
  revert s L. induction l as [|b l IH]; intros s L Hr Hn Hd; simpl.
  { split_and!; try done. by intros b ?%elem_of_nil. }
  apply NoDup_cons in Hn as [Hb Hn].
  assert (ring (binit_one b s) (b :: L)) as Hr1.
  { apply ring_link_front; [|apply Hd; left]. destruct Hr. by split. }
  destruct (IH (binit_one b s) (b :: L) Hr1 Hn) as (H1 & H2 & H3 & H4).
  { intros c Hc. specialize (Hd c ltac:(by right)). set_solver. }
  split_and!.
  - by rewrite <- app_assoc.
  - done.
  - intros c [->|Hc]%elem_of_cons; [|by apply H3]. rewrite H4 by done. simpl. by rewrite upd_eq.
  - intros c [Hc1 Hc2]%not_elem_of_cons. rewrite H4 by done. simpl. by rewrite upd_ne.
Qed.

Lemma binit_inv d s : bio_inv d (binit s) (rev (seqZ 0 NBUF)).
Proof.
  unfold binit. set (s0 := set_links _ _ s).
  destruct (binit_fold (seqZ 0 NBUF) s0 []) as (H1 & _ & H3 & _).
  - split; [|apply NoDup_singleton]. simpl. by rewrite !upd_eq.
  - apply NoDup_seqZ.
  - intros b Hb%elem_of_seqZ. apply not_elem_of_cons. split; [unfold HEAD, NBUF in *; lia|].
    apply not_elem_of_nil.
  - rewrite app_nil_r in H1.
    assert (∀ b, b ∈ rev (seqZ 0 NBUF) ↔ b ∈ seqZ 0 NBUF) as Hm
      by (intros b; by rewrite !list_elem_of_In, <- in_rev).
    split; [done|intros b; rewrite Hm, elem_of_seqZ; lia|..].
    + intros b Hb%Hm. destruct (H3 b Hb) as (Hs & _). by rewrite Hs.
    + intros b c Hb%Hm. destruct (H3 b Hb) as (Hs & _). by rewrite Hs.
    + intros b Hb%Hm. destruct (H3 b Hb) as (_ & Hh & ->). split; [lia|done].
    + intros b Hb%Hm. destruct (H3 b Hb) as (Hs & _). by rewrite Hs.
Qed.

(** After boot, process 1 reads and then rewrites sector 5. *)
Definition boot_bio : bcache := binit (Bcache (λ _, Buf false 0 0 0 0 []) (λ _, 0) (λ _, 0) (λ x, [x])).

Lemma read_sector_correct_witness :
  ∃ s' L', read_sector 1 0 5 boot_bio = Ok [5] s' ∧ bio_inv 0 s' L'.
Proof.
  destruct (read_sector_correct 1 0 boot_bio (rev (seqZ 0 NBUF)) 5 0 false (binit_inv 0 _))
    as (s' & L' & E & Hi & _).
  - lia.
  - discriminate.
  - vm_compute. reflexivity.
  - vm_compute. reflexivity.
  - vm_compute. reflexivity.
  - exists s', L'. split; [exact E|exact Hi].
Defined.

Lemma write_sector_correct_witness :
  ∃ s' L', write_sector 1 0 5 (λ x, x ++ [9]) boot_bio = Ok tt s' ∧ bio_inv 0 s' L' ∧ disk s' 5 = [5; 9].
Proof.
  destruct (write_sector_correct 1 0 boot_bio (rev (seqZ 0 NBUF)) 5 (λ x, x ++ [9]) 0 false (binit_inv 0 _))
    as (s' & L' & E & Hi & Hd & _).
  - lia.
  - discriminate.
  - vm_compute. reflexivity.
  - vm_compute. reflexivity.
  - vm_compute. reflexivity.
  - exists s', L'. split; [exact E|]. split; [exact Hi|]. rewrite Hd. reflexivity.
Defined.
