(* ===== verification/File.v ===== *)
(** * The open-file table (kernel/file.c)

    A [struct file *] is its position in [ftable.file] counted from 1, so that
    [NULL] is 0.  Pipes, directory entries and devices are reached through the
    interface [Backend], whose operations are those of pipe.c, fat32.c and the
    device switch. *)
From stdpp Require Import prelude list strings.
From Stdlib Require Import ZArith Lia.
From S2P Require Import Prelude Vma.
Open Scope Z_scope.

Definition NFILE : Z := 100.
Definition NDEV : Z := 10.

Inductive ftype := FD_NONE | FD_PIPE | FD_ENTRY | FD_DEVICE.

#[global] Instance ftype_eq_dec : EqDecision ftype.
Proof. solve_decision. Defined.

Record file := File {
  f_type : ftype; f_ref : Z; f_readable : bool; f_writable : bool;
  f_pipe : Z; f_ep : Z; f_off : Z; f_major : Z }.

Record ftable (B : Type) := Ftable { ftab : Z → file; back : B }.
Arguments Ftable {B}.
Arguments ftab {B}.
Arguments back {B}.

Class Backend (B : Type) := {
  pipeclose_b : Z → bool → M B unit;
  piperead_b : Z → Z → Z → M B Z;
  pipewrite_b : Z → Z → Z → M B Z;
  eput_b : Z → M B unit;
  eread_b : Z → Z → Z → Z → M B Z;
  ewrite_b : Z → Z → Z → Z → M B Z;
  estat_b : Z → Z → M B Z;
  dev_read : Z → option (Z → Z → M B Z);
  dev_write : Z → option (Z → Z → M B Z) }.

Section File.
Context {B : Type} `{Backend B}.

Definition set_file (f : Z) (x : file) (s : ftable B) : ftable B :=
  Ftable (upd (ftab s) f x) (back s).
Definition back_op {A} (c : M B A) : M (ftable B) A :=
  zoom back (λ b s, Ftable (ftab s) b) c.
Definition with_ref (r : Z) (x : file) : file :=
  File (f_type x) r (f_readable x) (f_writable x) (f_pipe x) (f_ep x) (f_off x) (f_major x).
Definition with_type (t : ftype) (x : file) : file :=
  File t (f_ref x) (f_readable x) (f_writable x) (f_pipe x) (f_ep x) (f_off x) (f_major x).
Definition with_off (o : Z) (x : file) : file :=
  File (f_type x) (f_ref x) (f_readable x) (f_writable x) (f_pipe x) (f_ep x) o (f_major x).

Definition file_ids : list Z := seqZ 1 NFILE.

Definition fileinit (s : ftable B) : ftable B :=
  Ftable (λ f, if bool_decide (f ∈ file_ids) then File FD_NONE 0 false false 0 0 0 0 else ftab s f)
    (back s).

Fixpoint find_file (t : Z → file) (l : list Z) : Z :=
  match l with [] => 0 | f :: l => if f_ref (t f) =? 0 then f else find_file t l end.

Definition filealloc : M (ftable B) Z :=
  s <-- gets id ;;
  let f := find_file (ftab s) file_ids in
  if f =? 0 then mretM 0
  else modify (set_file f (with_ref 1 (ftab s f))) ;;; mretM f.

Definition filedup (f : Z) : M (ftable B) unit :=
  x <-- gets (λ s, ftab s f) ;;
  if f_ref x <? 1 then panic "filedup"
  else modify (set_file f (with_ref (i32 (f_ref x + 1)) x)).

Definition fileclose (f : Z) : M (ftable B) unit :=
  x <-- gets (λ s, ftab s f) ;;
  if f_ref x <? 1 then panic "fileclose"
  else
    let r := f_ref x - 1 in
    if 0 <? r then modify (set_file f (with_ref r x))
    else
      modify (set_file f (with_type FD_NONE (with_ref 0 x))) ;;;
      match f_type x with
      | FD_PIPE => back_op (pipeclose_b (f_pipe x) (f_writable x))
      | FD_ENTRY => back_op (eput_b (f_ep x))
      | _ => mretM tt
      end.

Definition filestat (f addr : Z) : M (ftable B) Z :=
  x <-- gets (λ s, ftab s f) ;;
  match f_type x with
  | FD_ENTRY => r <-- back_op (estat_b (f_ep x) addr) ;; mretM (if r <? 0 then -1 else 0)
  | _ => mretM (-1)
  end.

Definition fileread (f addr n : Z) : M (ftable B) Z :=
  x <-- gets (λ s, ftab s f) ;;
  if negb (f_readable x) then mretM (-1)
  else
    match f_type x with
    | FD_PIPE => back_op (piperead_b (f_pipe x) addr n)
    | FD_DEVICE =>
        if (f_major x <? 0) || (NDEV <=? f_major x) then mretM (-1)
        else match dev_read (f_major x) with
             | None => mretM (-1) | Some rd => back_op (rd addr n) end
    | FD_ENTRY =>
        r <-- back_op (eread_b (f_ep x) addr (f_off x) n) ;;
        whenM (0 <? r) (modify (λ s, set_file f (with_off (u32 (f_off x + r)) (ftab s f)) s)) ;;;
        mretM r
    | FD_NONE => panic "fileread"
    end.

Definition filewrite (f addr n : Z) : M (ftable B) Z :=
  x <-- gets (λ s, ftab s f) ;;
  if negb (f_writable x) then mretM (-1)
  else
    match f_type x with
    | FD_PIPE => back_op (pipewrite_b (f_pipe x) addr n)
    | FD_DEVICE =>
        if (f_major x <? 0) || (NDEV <=? f_major x) then mretM (-1)
        else match dev_write (f_major x) with
             | None => mretM (-1) | Some wr => back_op (wr addr n) end
    | FD_ENTRY =>
        r <-- back_op (ewrite_b (f_ep x) addr (f_off x) n) ;;
        if r =? n
        then modify (λ s, set_file f (with_off (u32 (f_off x + n)) (ftab s f)) s) ;;; mretM n
        else mretM (-1)
    | FD_NONE => panic "filewrite"
    end.

(** ** Invariant *)

(** Counts are non-negative, files with no reference have no type. *)
Definition ft_inv (s : ftable B) : Prop :=
  ∀ f, f ∈ file_ids → 0 ≤ f_ref (ftab s f) < 2 ^ 31 ∧
    (f_ref (ftab s f) = 0 → f_type (ftab s f) = FD_NONE).

Lemma find_file_spec t l :
  (∀ f, f ∈ l → 0 < f) →
  (find_file t l = 0 ∧ ∀ f, f ∈ l → f_ref (t f) ≠ 0) ∨
  (0 < find_file t l ∧ find_file t l ∈ l ∧ f_ref (t (find_file t l)) = 0).
Proof.
  induction l as [|g l IH]; intros Hp; simpl; [left; split; [done|]; by intros f ?%elem_of_nil|].
  destruct (Z.eqb_spec (f_ref (t g)) 0) as [E|Hne].
  - right. split; [apply Hp; left|]. split; [left|done].
  - destruct IH as [[E Hall]|(E & Hin & Hr)]; [intros f Hf; apply Hp; by right|left|right].
    + split; [done|]. intros f [->|Hf]%elem_of_cons; [done|by apply Hall].
    + split; [done|]. split; [by right|done].
Qed.

Lemma file_ids_pos f : f ∈ file_ids → 0 < f.
Proof. unfold file_ids. rewrite elem_of_seqZ. lia. Qed.

Lemma filedup_ok f s :
  1 ≤ f_ref (ftab s f) < 2 ^ 31 - 1 →
  filedup f s = Ok tt (set_file f (with_ref (f_ref (ftab s f) + 1) (ftab s f)) s).
Proof.
  intros Hr. unfold filedup, mbindM, gets, modify.
  destruct (Z.ltb_spec (f_ref (ftab s f)) 1); [lia|]. by rewrite i32_small by lia.
Qed.

Lemma fileclose_ok f s :
  1 < f_ref (ftab s f) →
  fileclose f s = Ok tt (set_file f (with_ref (f_ref (ftab s f) - 1) (ftab s f)) s).
Proof.
  intros Hr. unfold fileclose, mbindM, gets, modify.
  destruct (Z.ltb_spec (f_ref (ftab s f)) 1); [lia|].
  by destruct (Z.ltb_spec 0 (f_ref (ftab s f) - 1)); [|lia].
Qed.

(** The table provides the reference counting other components rely on. *)
#[export] #[program] Instance file_refs : FileRefs (ftable B) := {|
  filedup_ := filedup; fileclose_ := fileclose;
  file_ref := λ s f, f_ref (ftab s f); file_ok := λ _, True |}.
Next Obligation.
  intros f s _ Hr. rewrite filedup_ok by done. eexists. split; [done|]. split; [done|].
  intros g. simpl. unfold upd. destruct (Z.eqb_spec g f) as [->|]; simpl; lia.
Qed.
Next Obligation.
  intros f s _ Hr. rewrite fileclose_ok by done. eexists. split; [done|]. split; [done|].
  intros g. simpl. unfold upd. destruct (Z.eqb_spec g f) as [->|]; simpl; lia.
Qed.

(** ** Properties *)

(** [filealloc] returns NULL only when all files are in use and otherwise a
    file nobody refers to, now with one reference; no other file changes. *)
Theorem filealloc_correct s :
  ft_inv s →
  ∃ f s', filealloc s = Ok f s' ∧ ft_inv s' ∧
    ((f = 0 ∧ s' = s ∧ ∀ g, g ∈ file_ids → 0 < f_ref (ftab s g)) ∨
     (f ∈ file_ids ∧ f_ref (ftab s f) = 0 ∧ f_ref (ftab s' f) = 1 ∧
      f_type (ftab s' f) = FD_NONE ∧ ∀ g, g ≠ f → ftab s' g = ftab s g)).
Proof.
  intros Hi. unfold filealloc, mbindM, gets, modify, mretM, id.
  destruct (find_file_spec (ftab s) file_ids file_ids_pos) as [[E Hall]|(E & Hin & Hr)].
  - rewrite E. simpl. exists 0, s. split; [done|]. split; [done|]. left. split; [done|].
    split; [done|]. intros g Hg. specialize (Hall g Hg). destruct (Hi g Hg). lia.
  - set (f := find_file _ _) in *. destruct (Z.eqb_spec f 0); [lia|].
    eexists f, _. split; [done|]. split.
    + intros g Hg. simpl. unfold upd. destruct (Z.eqb_spec g f) as [->|]; [simpl; split; [lia|done || (intros; lia)]|by apply Hi].
    + right. split; [done|]. split; [done|]. simpl. rewrite upd_eq. simpl. split; [done|].
      split; [by apply Hi|]. intros g Hg. by rewrite upd_ne.
Qed.

(** [fileclose] panics on a file with no reference, drops one reference of
    a shared file, and on the last one frees the slot and closes the pipe end
    or directory entry behind it, exactly once; the invariant is kept. *)
Theorem fileclose_correct f s :
  ft_inv s → f ∈ file_ids →
  let x := ftab s f in
  (f_ref x = 0 → fileclose f s = Panic "fileclose") ∧
  (1 < f_ref x → ∃ s', fileclose f s = Ok tt s' ∧ ft_inv s' ∧ back s' = back s ∧
     f_ref (ftab s' f) = f_ref x - 1 ∧ ∀ g, g ≠ f → ftab s' g = ftab s g) ∧
  (f_ref x = 1 →
     fileclose f s =
       (match f_type x with
        | FD_PIPE => back_op (pipeclose_b (f_pipe x) (f_writable x))
        | FD_ENTRY => back_op (eput_b (f_ep x))
        | _ => mretM tt end) (set_file f (with_type FD_NONE (with_ref 0 x)) s) ∧
     ft_inv (set_file f (with_type FD_NONE (with_ref 0 x)) s)).
Proof.
  intros Hi Hf x. destruct (Hi f Hf) as [Hr _]. fold x in Hr. split; [|split].
  - intros E. unfold fileclose, mbindM, gets. fold x. rewrite E. done.
  - intros E. rewrite fileclose_ok by done. fold x. eexists. split; [done|]. split.
    + intros g Hg. simpl. unfold upd. destruct (Z.eqb_spec g f) as [->|]; [simpl; split; [lia|done || (intros; lia)]|by apply Hi].
    + simpl. rewrite upd_eq. split; [done|]. split; [done|]. intros g Hg. by rewrite upd_ne.
  - intros E. split.
    + unfold fileclose, mbindM, gets, modify. fold x. rewrite E. done.
    + intros g Hg. simpl. unfold upd. destruct (Z.eqb_spec g f) as [->|]; [simpl; split; [lia|done || (intros; lia)]|by apply Hi].
Qed.
End File.

(** ** A concrete table *)
#[export] Instance unit_backend : Backend unit := {|
  pipeclose_b := λ _ _, mretM tt; piperead_b := λ _ _ _, mretM 0; pipewrite_b := λ _ _ _, mretM 0;
  eput_b := λ _, mretM tt; eread_b := λ _ _ _ _, mretM 0; ewrite_b := λ _ _ _ _, mretM 0;
  estat_b := λ _ _, mretM 0;
  dev_read := λ _, None; dev_write := λ _, None |}.

Definition demo_files : ftable unit :=
  Ftable (λ f, if f =? 1 then File FD_ENTRY 2 true true 0 7 0 0
               else if f =? 2 then File FD_ENTRY 1 true true 0 8 0 0
               else File FD_NONE 0 false false 0 0 0 0) tt.

Lemma demo_files_inv : ft_inv demo_files.
Proof. intros f _. simpl. repeat case_if; simpl; split; lia || done. Qed.

Lemma filealloc_correct_witness :
  ∃ s', filealloc demo_files = Ok 3 s' ∧ f_ref (ftab s' 3) = 1.
Proof.
  destruct (filealloc_correct demo_files demo_files_inv) as (f & s' & E & _ & Hf).
  assert (f = 3) as -> by (vm_compute in E; congruence).
  exists s'. split; [exact E|].
  destruct Hf as [(H0 & _)|(_ & _ & H1 & _)]; [discriminate H0|exact H1].
Defined.

Lemma fileclose_correct_witness :
  ∃ s', fileclose 1 demo_files = Ok tt s' ∧ f_ref (ftab s' 1) = 1.
Proof.
  destruct (fileclose_correct 1 demo_files demo_files_inv) as (_ & H & _).
  - apply elem_of_seqZ. unfold NFILE. lia.
  - destruct H as (s' & E & _ & _ & Hr & _); [vm_compute; reflexivity|].
    exists s'. split; [exact E|exact Hr].
Defined.

(** A parent with one region backed by file 2, copied and cleaned up. *)
Lemma vma_copy_cleanup_witness :
  let src := Vmam (Vma 8192 4096 0 1 1 2 true :: replicate 15 unused_vma) 1 in
  let dst := Vmam (replicate 16 unused_vma) 0 in
  ∃ m s1 m' s2, vma_copy dst src demo_files = Ok m s1 ∧ vma_cleanup m s1 = Ok m' s2 ∧
    file_ref s1 2 = 2 ∧ file_ref s2 2 = 1.
Proof.
  intros src dst.
  assert (∀ i v, vmas src !! i = Some v → i = 0%nat ∧ v = Vma 8192 4096 0 1 1 2 true ∨ v = unused_vma) as Hs.
  { intros [|i] v Hv; simpl in Hv; [left; by simplify_eq|right].
    do 15 (destruct i as [|i]; [by simplify_eq/=|]). done. }
  destruct (vma_copy_cleanup dst src demo_files) as (m & s1 & m' & s2 & E1 & _ & _ & R1 & E2 & _ & _ & R2).
  - split; [done|done| |].
    + apply Forall_lookup. intros i v [[_ ->]| ->]%Hs; [|done]. intros _. vm_compute. intuition congruence.
    + intros i j v w Hne Hv%Hs Hw%Hs Hu Hu'.
      destruct Hv as [[-> ->]| ->], Hw as [[-> ->]| ->]; done.
  - done.
  - done.
  - intros v [i Hv]%list_elem_of_lookup Hu Hf. apply Hs in Hv as [[_ ->]| ->]; [|done].
    vm_compute. intuition congruence.
  - exists m, s1, m', s2. split; [exact E1|]. split; [exact E2|]. rewrite R1, R2. split; reflexivity.
Defined.
