(* ===== verification/Fat.v ===== *)
(** * The file allocation table (kernel/fat32.c)

    The part of fat32.c that owns the FAT: the boot parameter block, the LRU
    cache of FAT sectors, reading and writing entries, allocating, zeroing and
    freeing clusters.  Sectors are read and written through the interface
    [Sectors], which the buffer cache implements.  A [struct fat_cache_entry *]
    is the index of the entry, [NULL] is -1; [last_access_time] is never read
    and left out. *)
From stdpp Require Import prelude list strings.
From Stdlib Require Import ZArith Lia.
From S2P Require Import Prelude Bio.
Open Scope Z_scope.

Definition BSIZE : Z := 512.
Definition FAT32_EOC : Z := 268435448.
Definition FAT_CACHE_SIZE : Z := 32.
Definition NO_SECTOR : Z := 4294967295.

(** What the FAT code needs of the disk below.  [with_sector n f] is the use of
    one buffer: [bread], then, if [f] turns the data into new data, the update
    and [bwrite], then [brelse]; it returns the data that was read.
    [spoil_sector n f] changes the buffer without [bwrite]; nothing is promised
    of it. *)
Class Sectors (D : Type) := {
  with_sector : Z → (list Z → option (list Z)) → M D (list Z);
  spoil_sector : Z → (list Z → list Z) → M D unit;
  sector_of : D → Z → list Z;
  disk_ok : D → Prop;
  with_sector_law : ∀ n f d, disk_ok d → 0 ≤ n < NO_SECTOR →
    ∃ d', with_sector n f d = Ok (sector_of d n) d' ∧ disk_ok d' ∧
      ∀ x, sector_of d' x = if x =? n then default (sector_of d n) (f (sector_of d n)) else sector_of d x }.

(** Little-endian [uint32] in a sector. *)
Definition get32 (data : list Z) (off : Z) : Z :=
  foldr (λ j v, nth (Z.to_nat off + j) data 0 + 2 ^ 8 * v) 0 [0; 1; 2; 3]%nat.
Definition bytes32 (v : Z) : list Z := map (λ j, (v / 2 ^ (8 * j)) mod 2 ^ 8) [0; 1; 2; 3].
Definition set32 (data : list Z) (off v : Z) : list Z :=
  list_inserts (Z.to_nat off) (bytes32 v) data.

(** [fat.bpb] and the values derived from it. *)
Record geometry := Geo {
  first_data_sec : Z; data_sec_cnt : Z; data_clus_cnt : Z; byts_per_clus : Z;
  byts_per_sec : Z; sec_per_clus : Z; rsvd_sec_cnt : Z; fat_cnt : Z;
  hidd_sec : Z; tot_sec : Z; fat_sz : Z; root_clus : Z }.

Record fcache := Fcache {
  fc_sector : Z → Z; fc_data : Z → list Z; fc_next : Z → Z; fc_prev : Z → Z;
  fc_head : Z; fc_tail : Z }.

Record fatfs (D : Type) := Fatfs { geo : geometry; cache : fcache; dsk : D }.
Arguments Fatfs {D}.
Arguments geo {D}.
Arguments cache {D}.
Arguments dsk {D}.

(** ** The cache of FAT sectors *)

Definition fc_ids : list Z := seqZ 0 FAT_CACHE_SIZE.
Fixpoint first_id (f : Z → bool) (l : list Z) : option Z :=
  match l with [] => None | i :: l => if f i then Some i else first_id f l end.

Definition fat_cache_init (c : fcache) : fcache :=
  Fcache (λ i, if in_range 0 FAT_CACHE_SIZE i then NO_SECTOR else fc_sector c i)
    (λ i, if in_range 0 FAT_CACHE_SIZE i then replicate 512 0 else fc_data c i)
    (λ i, if in_range 0 FAT_CACHE_SIZE i then -1 else fc_next c i)
    (λ i, if in_range 0 FAT_CACHE_SIZE i then -1 else fc_prev c i) (-1) (-1).

Definition fat_cache_remove_from_list (e : Z) (c : fcache) : fcache :=
  let '(n1, h1) := if negb (fc_prev c e =? -1)
    then (upd (fc_next c) (fc_prev c e) (fc_next c e), fc_head c)
    else (fc_next c, fc_next c e) in
  let '(p1, t1) := if negb (n1 e =? -1)
    then (upd (fc_prev c) (n1 e) (fc_prev c e), fc_tail c)
    else (fc_prev c, fc_prev c e) in
  Fcache (fc_sector c) (fc_data c) (upd n1 e (-1)) (upd p1 e (-1)) h1 t1.

Definition fat_cache_add_to_head (e : Z) (c : fcache) : fcache :=
  let n1 := upd (fc_next c) e (fc_head c) in
  let p1 := upd (fc_prev c) e (-1) in
  let p2 := if negb (fc_head c =? -1) then upd p1 (fc_head c) e else p1 in
  Fcache (fc_sector c) (fc_data c) n1 p2 e (if fc_tail c =? -1 then e else fc_tail c).

Definition fat_cache_lookup (sector : Z) (c : fcache) : option Z * fcache :=
  match first_id (λ i, fc_sector c i =? sector) fc_ids with
  | Some e => (Some e, fat_cache_add_to_head e (fat_cache_remove_from_list e c))
  | None => (None, c)
  end.

Definition fc_store (e sector : Z) (data : list Z) (c : fcache) : fcache :=
  Fcache (upd (fc_sector c) e sector) (upd (fc_data c) e data) (fc_next c) (fc_prev c) (fc_head c) (fc_tail c).

Definition fat_cache_add (sector : Z) (data : list Z) (c : fcache) : fcache :=
  let '(e, c) := match first_id (λ i, fc_sector c i =? NO_SECTOR) fc_ids with
    | Some e => (e, c)
    | None => (fc_tail c, fat_cache_remove_from_list (fc_tail c) c)
    end in
  fat_cache_add_to_head e (fc_store e sector data c).

Definition fat_cache_update (sector : Z) (data : list Z) (c : fcache) : fcache :=
  match first_id (λ i, fc_sector c i =? sector) fc_ids with
  | Some e => fat_cache_add_to_head e (fat_cache_remove_from_list e (fc_store e (fc_sector c e) data c))
  | None => c
  end.

(** ** Addresses *)

Definition first_sec_of_clus (g : geometry) (cluster : Z) : Z :=
  u32 (u32 (cluster - 2) * sec_per_clus g + first_data_sec g).
Definition fat_sec_of_clus (g : geometry) (cluster fat_num : Z) : Z :=
  u32 (rsvd_sec_cnt g + u32 (cluster * 4) / byts_per_sec g + fat_sz g * (fat_num - 1)).
Definition fat_offset_of_clus (g : geometry) (cluster : Z) : Z :=
  u32 (cluster * 4) mod byts_per_sec g.

Section Fat.
Context {D : Type} `{SD : Sectors D}.

Definition disk_op {A} (c : M D A) : M (fatfs D) A := zoom dsk (λ d s, Fatfs (geo s) (cache s) d) c.
Definition on_cache (f : fcache → fcache) : M (fatfs D) unit :=
  modify (λ s, Fatfs (geo s) (f (cache s)) (dsk s)).

(** The first part of [fat32_init]: the boot parameter block of sector 0. *)
Definition fat32_init : M (fatfs D) Z :=
  data <-- disk_op (with_sector 0 (λ _, None)) ;;
  if negb (bool_decide (take 5 (drop 82 data) = [70; 65; 84; 51; 50])) then panic "not FAT32 volume"
  else
    let byte i := nth i data 0 in
    let half i := byte i + 2 ^ 8 * byte (S i) in
    let bps := half 11%nat in
    let spc := byte 13%nat in
    let rsvd := half 14%nat in
    let fatn := byte 16%nat in
    let hidd := get32 data 28 in
    let tot := get32 data 32 in
    let fsz := get32 data 36 in
    let root := get32 data 44 in
    let fds := u32 (rsvd + fatn * fsz) in
    let dsc := u32 (tot - fds) in
    modify (λ s, Fatfs (Geo fds dsc (dsc / spc) (spc * bps) bps spc rsvd fatn hidd tot fsz root)
                   (cache s) (dsk s)) ;;;
    if negb (bps =? BSIZE) then panic "byts_per_sec != BSIZE"
    else on_cache fat_cache_init ;;; mretM 0.

Definition read_fat (cluster : Z) : M (fatfs D) Z :=
  g <-- gets geo ;;
  if FAT32_EOC <=? cluster then mretM cluster
  else if u32 (data_clus_cnt g + 1) <? cluster then mretM 0
  else
    let fat_sec := fat_sec_of_clus g cluster 1 in
    let fat_off := fat_offset_of_clus g cluster in
    hit <-- gets (λ s, fst (fat_cache_lookup fat_sec (cache s))) ;;
    on_cache (λ c, snd (fat_cache_lookup fat_sec c)) ;;;
    match hit with
    | Some e => gets (λ s, get32 (fc_data (cache s) e) fat_off)
    | None =>
        data <-- disk_op (with_sector fat_sec (λ _, None)) ;;
        on_cache (fat_cache_add fat_sec data) ;;;
        mretM (get32 data fat_off)
    end.

Definition write_fat (cluster content : Z) : M (fatfs D) Z :=
  g <-- gets geo ;;
  if u32 (data_clus_cnt g + 1) <? cluster then mretM (-1)
  else
    let fat_sec := fat_sec_of_clus g cluster 1 in
    let off := fat_offset_of_clus g cluster in
    data <-- disk_op (with_sector fat_sec (λ data, Some (set32 data off content))) ;;
    on_cache (fat_cache_update fat_sec (set32 data off content)) ;;;
    mretM 0.

Fixpoint zero_secs (n : nat) (sec : Z) : M (fatfs D) unit :=
  match n with
  | O => mretM tt
  | S n => disk_op (with_sector sec (λ _, Some (replicate 512 0))) ;;; zero_secs n (u32 (sec + 1))
  end.
Definition zero_clus (cluster : Z) : M (fatfs D) unit :=
  g <-- gets geo ;; zero_secs (Z.to_nat (sec_per_clus g)) (first_sec_of_clus g cluster).

(** Index of the first zero entry of a FAT sector. *)
Definition free_slot (ent_per_sec : Z) (data : list Z) : option Z :=
  first_id (λ j, get32 data (4 * j) =? 0) (seqZ 0 ent_per_sec).

Fixpoint alloc_scan (ent_per_sec : Z) (n : nat) (i sec : Z) : M (fatfs D) Z :=
  match n with
  | O => panic "no clusters"
  | S n =>
      data <-- disk_op (with_sector sec (λ data,
        match free_slot ent_per_sec data with Some j => Some (set32 data (4 * j) (FAT32_EOC + 7)) | None => None end)) ;;
      match free_slot ent_per_sec data with
      | Some j =>
          let clus := u32 (i * ent_per_sec + j) in
          zero_clus clus ;;;
          mretM clus
      | None => alloc_scan ent_per_sec n (i + 1) (u32 (sec + 1))
      end
  end.
Definition alloc_clus : M (fatfs D) Z :=
  g <-- gets geo ;; alloc_scan (byts_per_sec g / 4) (Z.to_nat (fat_sz g)) 0 (rsvd_sec_cnt g).

Definition free_clus (cluster : Z) : M (fatfs D) unit := write_fat cluster 0 ;;; mretM tt.
End Fat.

(** ** The buffer cache as the disk below *)
Section Bio.
Context (p d : Z).

Definition use_sector (n : Z) (f : list Z → option (list Z)) : M bcache (list Z) :=
  b <-- bread p d n ;;
  x <-- gets (λ s, bdata (bufs s b)) ;;
  match f x with Some y => set_bdata b y ;;; bwrite p b | None => mretM tt end ;;;
  brelse p b ;;; mretM x.

Definition spoil_buf (n : Z) (f : list Z → list Z) : M bcache unit :=
  b <-- bread p d n ;;
  x <-- gets (λ s, bdata (bufs s b)) ;;
  set_bdata b (f x) ;;; brelse p b.

(** Between system calls: a coherent cache with no buffer in use. *)
Definition cache_idle (s : bcache) : Prop :=
  ∃ L, bio_inv d s L ∧ ∀ b, b ∈ L → refcnt (bufs s b) = 0.

Lemma idle_pick s L sec :
  bio_inv d s L → (∀ b, b ∈ L → refcnt (bufs s b) = 0) →
  ∃ b hit, bget_pick s L d sec = Some (b, hit) ∧ b ∈ L.
Proof.
  intros Hi Hz. unfold bget_pick. destruct (first_of _ L) as [b|] eqn:E.
  { exists b, true. split; [done|]. by apply first_of_Some in E as [? _]. }
  destruct (first_of _ (rev L)) as [b|] eqn:E2.
  - exists b, false. split; [done|]. apply first_of_Some in E2 as [Hb _].
    apply list_elem_of_In. rewrite (in_rev L b). by apply list_elem_of_In.
  - exfalso. assert (0 ∈ L) as H0 by (apply (bi_all _ _ _ Hi); unfold NBUF; lia).
    assert (0 ∈ rev L) as H1 by (apply list_elem_of_In; rewrite <- in_rev; by apply list_elem_of_In).
    pose proof (first_of_None _ _ 0 E2 H1) as Hf. cbv beta in Hf. by rewrite (Hz 0 H0) in Hf.
Qed.

Lemma use_sector_spec n f s :
  p ≠ 0 → cache_idle s → 0 ≤ n < NO_SECTOR →
  ∃ s', use_sector n f s = Ok (disk s n) s' ∧ cache_idle s' ∧
    ∀ x, disk s' x = if x =? n then default (disk s n) (f (disk s n)) else disk s x.
Proof.
  intros Hp (L & Hi & Hz) Hn.
  assert (n ≠ invalid_key) as Hk by (change invalid_key with NO_SECTOR; lia).
  destruct (idle_pick s L n Hi Hz) as (b & hit & Hpick & HbL).
  pose proof (Hz b HbL) as Hr. destruct (bi_ref _ _ _ Hi b HbL) as [_ Hh].
  destruct (bread_spec p d s L n b hit Hi Hp Hk Hpick (Hh Hr) ltac:(lia)) as (s1 & E1 & _ & [B O [N P] Dk]).
  unfold use_sector. rewrite (mbindM_Ok _ _ _ _ _ E1). unfold mbindM at 1, gets at 1. rewrite B. cbn [bdata].
  assert (∃ s2, (match f (disk s n) with Some y => set_bdata b y ;;; bwrite p b | None => mretM tt end) s1
      = Ok tt s2 ∧ bufs s2 b = Buf true d n p (refcnt (bufs s b) + 1) (default (disk s n) (f (disk s n))) ∧
      (∀ c, c ≠ b → bufs s2 c = bufs s c) ∧ nxt s2 = nxt s ∧ prv s2 = prv s ∧
      disk s2 n = default (disk s n) (f (disk s n)) ∧ ∀ x, x ≠ n → disk s2 x = disk s x)
    as (s2 & E2 & B2 & O2 & N2 & P2 & D2 & X2).
  { destruct (f (disk s n)) as [y|]; simpl.
    - unfold set_bdata, bwrite, holdingbuf, disk_write, mbindM, modify, gets. simpl. rewrite upd_eq, B. simpl.
      destruct (Z.eqb_spec p 0); [done|]. rewrite Z.eqb_refl. simpl. eexists. split; [done|]. simpl.
      rewrite !upd_eq. simpl. split_and!; try done.
      + intros c Hc. rewrite upd_ne by done. by apply O.
      + intros x Hx. rewrite upd_ne by done. by rewrite Dk.
    - exists s1. split; [done|]. split_and!; try done; [by rewrite Dk|intros x _; by rewrite Dk]. }
  rewrite (mbindM_Ok _ _ _ _ _ E2).
  destruct (brelse_spec p d s L s2 n b (default (disk s n) (f (disk s n)))) as (s3 & L' & E3 & Hi3 & D3 & _ & R3);
    try done; [by apply (pick_unique d s L n b hit)|lia|].
  rewrite (mbindM_Ok _ _ _ _ _ E3). exists s3. split; [done|]. split.
  - exists L'. split; [done|]. intros c Hc. rewrite R3. apply Hz. apply (bi_all _ _ _ Hi).
    by apply (bi_all _ _ _ Hi3).
  - intros x. rewrite D3. destruct (Z.eqb_spec x n) as [->|Hx]; [done|by apply X2].
Qed.
End Bio.

(** The buffer cache, used by process [p] on device [d], implements [Sectors]. *)
#[program] Definition bio_sectors (p d : Z) (Hp : p ≠ 0) : Sectors bcache := {|
  with_sector := use_sector p d; spoil_sector := spoil_buf p d; sector_of := disk; disk_ok := cache_idle d |}.
Next Obligation. intros p d Hp n f s Hs Hn. by apply use_sector_spec. Qed.
