(* ===== verification/FatProps.v ===== *)
(** * Properties of the FAT layer

    The LRU list of the FAT cache, coherence of the cache with the disk, and
    the behaviour of [read_fat], [write_fat] and [alloc_clus]. *)
From stdpp Require Import prelude list strings.
From Stdlib Require Import ZArith Lia.
From S2P Require Import Prelude Bio Fat.
Open Scope Z_scope.

Lemma first_id_Some f l i : first_id f l = Some i → i ∈ l ∧ f i = true.
Proof.
  induction l as [|j l IH]; simpl; [done|]. destruct (f j) eqn:E.
  - intros [= ->]. split; [left|done].
  - intros [? ?]%IH. split; [by right|done].
Qed.
Lemma first_id_None f l i : first_id f l = None → i ∈ l → f i = false.
Proof.
  induction l as [|j l IH]; simpl; intros E Hi; [by apply elem_of_nil in Hi|].
  destruct (f j) eqn:Ej; [done|]. apply elem_of_cons in Hi as [->|Hi]; [done|by apply IH].
Qed.
Lemma fc_ids_spec i : i ∈ fc_ids ↔ 0 ≤ i < FAT_CACHE_SIZE.
Proof. unfold fc_ids. rewrite elem_of_seqZ. lia. Qed.

(** ** The LRU list *)

(** The list seen as a ring through [NULL]: the head follows it, the tail
    precedes it. *)
Definition nv (c : fcache) (x : Z) : Z := if x =? -1 then fc_head c else fc_next c x.
Definition pv (c : fcache) (x : Z) : Z := if x =? -1 then fc_tail c else fc_prev c x.

Record lru (c : fcache) (L : list Z) : Prop := {
  l_path : path (nv c) (pv c) (-1) L (-1);
  l_nodup : NoDup (-1 :: L) }.

Lemma path_funext n p n' p' x L y :
  (∀ z, n' z = n z) → (∀ z, p' z = p z) → path n p x L y → path n' p' x L y.
Proof. intros Hn Hp. apply path_ext; intros; [apply Hn|apply Hp]. Qed.

Ltac view_cases z e H :=
  cbn [fc_head fc_tail fc_next fc_prev negb]; unfold upd; rewrite ?(proj2 (Z.eqb_neq z e) H);
  destruct (Z.eqb_spec z (-1)) as [->|]; rewrite ?(proj2 (Z.eqb_neq (-1) e)) by congruence;
  try reflexivity; rewrite (proj2 (Z.eqb_neq (-1) _)) by congruence; reflexivity.

Lemma remove_views c e a b z :
  e ≠ -1 → fc_prev c e = a → fc_next c e = b → a ≠ e → b ≠ e → z ≠ e →
  nv (fat_cache_remove_from_list e c) z = upd (nv c) a b z ∧
  pv (fat_cache_remove_from_list e c) z = upd (pv c) b a z.
Proof.
  intros He Ea Eb Hae Hbe Hz. unfold nv, pv, fat_cache_remove_from_list. rewrite Ea, Eb.
  destruct (Z.eqb_spec a (-1)) as [->|Ha]; cbn [negb];
    [rewrite Eb|rewrite (upd_ne (fc_next c) a e), Eb by congruence];
    (destruct (Z.eqb_spec b (-1)) as [->|Hb]; cbn [negb]; split; view_cases z e Hz).
Qed.

Lemma add_views c e z :
  e ≠ -1 → (fc_head c = -1 ↔ fc_tail c = -1) → fc_head c ≠ e →
  nv (fat_cache_add_to_head e c) z = upd (upd (nv c) e (nv c (-1))) (-1) e z ∧
  pv (fat_cache_add_to_head e c) z = upd (upd (pv c) e (-1)) (nv c (-1)) e z.
Proof.
  intros He Hht Hhe. unfold nv, pv, fat_cache_add_to_head, upd. change (-1 =? -1) with true. cbv iota.
  destruct (Z.eqb_spec (fc_head c) (-1)) as [Eh|Eh]; cbn [negb fc_head fc_tail fc_next fc_prev].
  - rewrite (proj2 (Z.eqb_eq (fc_tail c) (-1))) by tauto. rewrite Eh.
    destruct (Z.eqb_spec z (-1)) as [->|]; [|done]. done.
  - rewrite (proj2 (Z.eqb_neq (fc_tail c) (-1))) by tauto.
    destruct (Z.eqb_spec z (-1)) as [->|]; [|done].
    rewrite (proj2 (Z.eqb_neq (-1) (fc_head c))), (proj2 (Z.eqb_neq (-1) e)) by congruence. done.
Qed.

Lemma lru_ends c L : lru c L → (fc_head c = -1 ↔ fc_tail c = -1) ∧ fc_head c ∈ -1 :: L.
Proof.
  intros [Hp Hn]. pose proof (path_first _ _ _ _ _ Hp) as Hf. pose proof (path_last _ _ _ _ _ Hp) as Hl.
  unfold nv, pv in Hf, Hl. simpl in Hf, Hl. rewrite Hf, Hl. apply NoDup_cons in Hn as [H1 _].
  destruct L as [|z L]; simpl; [split; [done|left]|]. split; [|right; left].
  split; intros E; exfalso; apply H1; rewrite <- E; [left|]. apply plast_in.
Qed.

Lemma lru_remove c L1 e L2 :
  lru c (L1 ++ e :: L2) → lru (fat_cache_remove_from_list e c) (L1 ++ L2) ∧ e ∉ -1 :: L1 ++ L2.
Proof.
  intros [Hp Hn]. destruct (path_remove _ _ _ _ _ _ Hp Hn) as (Hp' & Hn' & He).
  split; [|done]. apply path_app in Hp as [P1 P2].
  pose proof (path_last _ _ _ _ _ P1) as Epv. pose proof (path_first _ _ _ _ _ P2) as Env.
  assert (e ≠ -1) as Hne by (intros ->; apply He; left).
  unfold nv in Env. unfold pv in Epv. rewrite (proj2 (Z.eqb_neq _ _) Hne) in Env, Epv.
  assert (plast (-1) L1 ≠ e) as Hle.
  { intros El. apply He. rewrite <- El. rewrite app_comm_cons. apply elem_of_app. left. apply plast_in. }
  assert (hd (-1) L2 ≠ e) as Hhe.
  { destruct L2 as [|z L2]; simpl; [done|]. intros ->. apply He. set_solver. }
  split; [|done]. revert Hp'. apply path_ext; intros z Hz;
    (assert (z ≠ e) as Hze by (intros ->; apply He; rewrite elem_of_cons; tauto));
    by apply (remove_views c e _ _ z Hne Epv Env).
Qed.

Lemma lru_add c L e : lru c L → e ∉ -1 :: L → lru (fat_cache_add_to_head e c) (e :: L).
Proof.
  intros Hl He. destruct (lru_ends c L Hl) as [Hht Hh]. destruct Hl as [Hp Hn].
  destruct (path_push _ _ _ _ e Hp Hn He) as [Hp' Hn']. split; [|done].
  apply not_elem_of_cons in He as Hne. destruct Hne as [Hne _].
  assert (fc_head c ≠ e) as Hhe by (intros <-; done).
  revert Hp'. apply path_funext; intros z; by apply (add_views c e z).
Qed.

(** Moving an entry to the front. *)
Lemma lru_touch c L e :
  lru c L → e ∈ L →
  ∃ L', lru (fat_cache_add_to_head e (fat_cache_remove_from_list e c)) L' ∧ ∀ i, i ∈ L' ↔ i ∈ L.
Proof.
  intros Hl He. apply list_elem_of_split in He as (L1 & L2 & ->).
  destruct (lru_remove _ _ _ _ Hl) as [Hl' He']. exists (e :: L1 ++ L2).
  split; [by apply lru_add|]. intros i. rewrite elem_of_cons, !elem_of_app, elem_of_cons. tauto.
Qed.

(** ** Coherence of the cache *)

(** The entries on the list are those that hold a sector, each sector once, and
    their data is what the disk [sec] has. *)
Record fc_ok (sec : Z → list Z) (c : fcache) (L : list Z) : Prop := {
  fo_lru : lru c L;
  fo_in : ∀ i, i ∈ L ↔ 0 ≤ i < FAT_CACHE_SIZE ∧ fc_sector c i ≠ NO_SECTOR;
  fo_key : ∀ i j, i ∈ L → j ∈ L → fc_sector c i = fc_sector c j → i = j;
  fo_data : ∀ i, i ∈ L → fc_data c i = sec (fc_sector c i) }.
Definition coherent (sec : Z → list Z) (c : fcache) : Prop := ∃ L, fc_ok sec c L.

(** List operations do not touch the contents. *)
Lemma list_ops_contents e c :
  let c1 := fat_cache_remove_from_list e c in
  let c2 := fat_cache_add_to_head e c in
  fc_sector c1 = fc_sector c ∧ fc_data c1 = fc_data c ∧ fc_sector c2 = fc_sector c ∧ fc_data c2 = fc_data c.
Proof.
  unfold fat_cache_remove_from_list, fat_cache_add_to_head. cbv zeta.
  destruct (negb (fc_prev c e =? -1)); destruct (negb _); done.
Qed.

Lemma touch_contents e c :
  let c' := fat_cache_add_to_head e (fat_cache_remove_from_list e c) in
  fc_sector c' = fc_sector c ∧ fc_data c' = fc_data c.
Proof.
  intros c'. destruct (list_ops_contents e c) as (A & B & _).
  destruct (list_ops_contents e (fat_cache_remove_from_list e c)) as (_ & _ & C & E).
  unfold c'. split; congruence.
Qed.

Lemma touch_ok sec c L e :
  fc_ok sec c L → e ∈ L →
  ∃ L', fc_ok sec (fat_cache_add_to_head e (fat_cache_remove_from_list e c)) L'.
Proof.
  intros [Hl Hi Hk Hd] He. destruct (lru_touch c L e Hl He) as (L' & Hl' & HL).
  destruct (touch_contents e c) as [Es Ed]. exists L'. split; [done|..]; rewrite ?Es, ?Ed.
  - intros i. by rewrite HL, Hi.
  - intros i j Hi' Hj'. apply Hk; by apply HL.
  - intros i Hi'. apply Hd. by apply HL.
Qed.

Lemma lookup_hit sec c L sector e :
  fc_ok sec c L → sector ≠ NO_SECTOR → first_id (λ i, fc_sector c i =? sector) fc_ids = Some e →
  e ∈ L ∧ fc_sector c e = sector.
Proof.
  intros Hok Hn E. apply first_id_Some in E as [He Es%Z.eqb_eq]. apply fc_ids_spec in He.
  split; [|done]. apply (fo_in _ _ _ Hok). split; [done|congruence].
Qed.
Lemma lookup_miss sec c L sector :
  fc_ok sec c L → first_id (λ i, fc_sector c i =? sector) fc_ids = None →
  ∀ i, i ∈ L → fc_sector c i ≠ sector.
Proof.
  intros Hok E i Hi Es. apply (fo_in _ _ _ Hok) in Hi as [Hr _].
  pose proof (first_id_None _ _ i E ltac:(by apply fc_ids_spec)) as Hf. cbv beta in Hf.
  by rewrite Es, Z.eqb_refl in Hf.
Qed.

Lemma fat_cache_lookup_spec sec c sector :
  coherent sec c → sector ≠ NO_SECTOR →
  coherent sec (snd (fat_cache_lookup sector c)) ∧
  match fst (fat_cache_lookup sector c) with
  | Some e => fc_data (snd (fat_cache_lookup sector c)) e = sec sector
  | None => snd (fat_cache_lookup sector c) = c ∧
            first_id (λ i, fc_sector c i =? sector) fc_ids = None
  end.
Proof.
  intros (L & Hok) Hn. unfold fat_cache_lookup.
  destruct (first_id _ fc_ids) as [e|] eqn:E; simpl; [|split; [by exists L|done]].
  destruct (lookup_hit _ _ _ _ _ Hok Hn E) as [He Es]. split; [by apply (touch_ok sec c L)|].
  transitivity (fc_data c e); [exact (f_equal (λ g, g e) (proj2 (touch_contents e c)))|].
  rewrite (fo_data _ _ _ Hok e He). by rewrite Es.
Qed.

(** A sector newly placed in the unused or evicted entry [e]. *)
Lemma place_ok sec c L e sector :
  fc_ok sec c L → 0 ≤ e < FAT_CACHE_SIZE → e ∉ L → sector ≠ NO_SECTOR →
  (∀ i, i ∈ L → fc_sector c i ≠ sector) →
  coherent sec (fat_cache_add_to_head e (fc_store e sector (sec sector) c)).
Proof.
  intros [Hl Hi Hk Hd] He HeL Hs Hno. set (c1 := fc_store e sector (sec sector) c).
  destruct (list_ops_contents e c1) as (_ & _ & Es & Ed).
  assert (∀ i, i ∈ L → i ≠ e) as Hne by (intros i Hi' ->; done).
  exists (e :: L). split; rewrite ?Es, ?Ed; simpl.
  - apply lru_add; [destruct Hl; by split|]. apply not_elem_of_cons. split; [lia|done].
  - intros i. rewrite elem_of_cons, Hi. unfold upd. destruct (Z.eqb_spec i e) as [->|]; [|tauto].
    split; [intros _; done|by left].
  - intros i j. rewrite !elem_of_cons. unfold upd.
    destruct (Z.eqb_spec i e) as [->|], (Z.eqb_spec j e) as [->|]; try done.
    + intros _ [?|Hj] E; [done|]. by destruct (Hno j Hj).
    + intros [?|Hi'] _ E; [done|]. by destruct (Hno i Hi').
    + intros [?|Hi'] [?|Hj'] E; [done..|]. by apply Hk.
  - intros i. rewrite elem_of_cons. unfold upd. destruct (Z.eqb_spec i e) as [->|]; [done|].
    intros [?|Hi']; [done|]. by apply Hd.
Qed.

Lemma fat_cache_add_spec sec c sector :
  coherent sec c → sector ≠ NO_SECTOR → first_id (λ i, fc_sector c i =? sector) fc_ids = None →
  coherent sec (fat_cache_add sector (sec sector) c).
Proof.
  intros (L & Hok) Hs Hmiss. pose proof (lookup_miss _ _ _ _ Hok Hmiss) as Hno. unfold fat_cache_add.
  destruct (first_id (λ i, fc_sector c i =? NO_SECTOR) fc_ids) as [e|] eqn:E.
  - apply first_id_Some in E as [He Ee%Z.eqb_eq]. apply fc_ids_spec in He.
    apply (place_ok sec c L); try done. intros [_ Hx]%(fo_in _ _ _ Hok). done.
  - assert (0 ∈ L) as H0.
    { apply (fo_in _ _ _ Hok). split; [done|]. intros Hx.
      pose proof (first_id_None _ _ 0 E ltac:(by apply fc_ids_spec)) as Hf. cbv beta in Hf. by rewrite Hx in Hf. }
    assert (fc_tail c ∈ L) as Ht.
    { destruct (fo_lru _ _ _ Hok) as [Hp _]. pose proof (path_last _ _ _ _ _ Hp) as Hl.
      unfold pv in Hl. simpl in Hl. rewrite Hl. destruct L as [|z L]; [by apply elem_of_nil in H0|].
      simpl. apply plast_in. }
    set (t := fc_tail c) in *. pose proof (proj1 (fo_in _ _ _ Hok t) Ht) as [Htr _].
    destruct (list_ops_contents t c) as (Es & Ed & _). pose proof Ht as Ht'.
    apply list_elem_of_split in Ht' as (L1 & L2 & EL). subst L.
    destruct (lru_remove _ _ _ _ (fo_lru _ _ _ Hok)) as [Hl' Hn'].
    apply not_elem_of_cons in Hn' as [_ Hn'].
    (* the list without the evicted entry, its slot marked free *)
    assert (fc_ok sec (fc_store t NO_SECTOR [] (fat_cache_remove_from_list t c)) (L1 ++ L2)) as Hok'.
    { assert (∀ i, i ∈ L1 ++ L2 → i ∈ L1 ++ t :: L2 ∧ i ≠ t) as Hsub.
      { intros i Hi. split; [|by intros ->]. apply elem_of_app in Hi. apply elem_of_app. rewrite elem_of_cons. tauto. }
      split; simpl; rewrite ?Es, ?Ed.
      - destruct Hl'. by split.
      - intros i. unfold upd. destruct (Z.eqb_spec i t) as [->|Hit].
        + split; [done|]. by intros [_ ?].
        + rewrite <- (fo_in _ _ _ Hok), !elem_of_app, elem_of_cons. tauto.
      - intros i j Hi Hj. destruct (Hsub i Hi) as [Hi' Hit], (Hsub j Hj) as [Hj' Hjt].
        rewrite !upd_ne by done. by apply (fo_key _ _ _ Hok).
      - intros i Hi. destruct (Hsub i Hi) as [Hi' Hit]. rewrite !upd_ne by done. by apply (fo_data _ _ _ Hok). }
    destruct (place_ok sec _ (L1 ++ L2) t sector Hok' Htr Hn' Hs) as (L' & HL').
    { intros i Hi. simpl. rewrite Es, upd_ne by (by intros ->). apply Hno.
      apply elem_of_app in Hi. apply elem_of_app. rewrite elem_of_cons. tauto. }
    exists L'. destruct HL' as [A B C G]. revert A B C G.
    unfold fc_store, fat_cache_add_to_head. simpl. intros A B C G.
    split; [destruct A; by split|..]; simpl in *.
    + intros i. rewrite B. unfold upd. by destruct (i =? t).
    + intros i j Hi Hj. specialize (C i j Hi Hj). revert C. unfold upd. by destruct (i =? t), (j =? t).
    + intros i Hi. specialize (G i Hi). revert G. unfold upd. by destruct (i =? t).
Qed.

Lemma fat_cache_update_spec sec c sector data :
  coherent sec c → sector ≠ NO_SECTOR →
  coherent (λ n, if n =? sector then data else sec n) (fat_cache_update sector data c).
Proof.
  intros (L & Hok) Hs. unfold fat_cache_update.
  destruct (first_id _ fc_ids) as [e|] eqn:E.
  - destruct (lookup_hit _ _ _ _ _ Hok Hs E) as [He Es].
    apply (touch_ok _ _ L); [|done]. destruct Hok as [Hl Hi Hk Hd]. split; simpl.
    + destruct Hl. by split.
    + intros i. rewrite Hi. unfold upd. destruct (Z.eqb_spec i e) as [->|]; done.
    + intros i j Hi' Hj'. unfold upd. destruct (Z.eqb_spec i e) as [->|], (Z.eqb_spec j e) as [->|]; auto.
    + intros i Hi'. unfold upd. destruct (Z.eqb_spec i e) as [->|Hne]; [by rewrite Es, Z.eqb_refl|].
      rewrite Hd by done. destruct (Z.eqb_spec (fc_sector c i) sector) as [Ex|]; [|done].
      exfalso. apply Hne, Hk; [done|done|congruence].
  - exists L. pose proof (lookup_miss _ _ _ _ Hok E) as Hno. destruct Hok as [Hl Hi Hk Hd]. split; try done.
    intros i Hi'. rewrite Hd by done. destruct (Z.eqb_spec (fc_sector c i) sector) as [Ex|]; [|done].
    by destruct (Hno i Hi').
Qed.

(** ** Entries *)

Lemma get32_word data off :
  get32 data off = nth (Z.to_nat off) data 0 + 2 ^ 8 * (nth (Z.to_nat off + 1) data 0 +
    2 ^ 8 * (nth (Z.to_nat off + 2) data 0 + 2 ^ 8 * nth (Z.to_nat off + 3) data 0)).
Proof. unfold get32. cbn [foldr]. rewrite Nat.add_0_r. lia. Qed.

Lemma nth_set32 data off v k :
  nth k (set32 data off v) 0 =
  if bool_decide (Z.to_nat off ≤ k < Z.to_nat off + 4 ∧ k < length data)%nat
  then nth (k - Z.to_nat off) (bytes32 v) 0 else nth k data 0.
Proof.
  rewrite !nth_lookup. unfold set32. case_bool_decide as H.
  - rewrite list_lookup_inserts; [done|simpl; lia|lia].
  - destruct (decide (k < length data)%nat).
    + destruct (decide (k < Z.to_nat off)%nat).
      * by rewrite list_lookup_inserts_lt.
      * rewrite list_lookup_inserts_ge; [done|simpl; lia].
    + rewrite !lookup_ge_None_2; [done|lia|]. rewrite length_inserts. lia.
Qed.

Lemma get32_set32_eq data off v :
  (Z.to_nat off + 4 ≤ length data)%nat → get32 (set32 data off v) off = u32 v.
Proof.
  intros Hl. rewrite get32_word, !nth_set32, !bool_decide_true by lia.
  rewrite Nat.sub_diag, !Nat.add_sub_swap, !Nat.sub_diag by lia. cbn [Nat.add nth bytes32 map].
  unfold u32. Z.to_euclidean_division_equations. lia.
Qed.
Lemma get32_set32_ne data off off' v :
  (Z.to_nat off' + 4 ≤ Z.to_nat off ∨ Z.to_nat off + 4 ≤ Z.to_nat off')%nat →
  get32 (set32 data off v) off' = get32 data off'.
Proof. intros Hd. rewrite !get32_word, !nth_set32, !bool_decide_false by lia. done. Qed.
Lemma length_set32 data off v : length (set32 data off v) = length data.
Proof. apply length_inserts. Qed.

(** A volume as [fat32_init] accepts it: 512-byte sectors, the FATs between the
    reserved sectors and the data area, a FAT entry for every data cluster, and
    every sector number below the cache's "unused" mark. *)
Record geo_ok (g : geometry) : Prop := {
  go_bps : byts_per_sec g = BSIZE;
  go_rsvd : 0 < rsvd_sec_cnt g;
  go_fat : 1 ≤ fat_cnt g;
  go_sz : 0 < fat_sz g;
  go_fds : first_data_sec g = rsvd_sec_cnt g + fat_cnt g * fat_sz g;
  go_spc : 0 < sec_per_clus g;
  go_cnt : 0 ≤ data_clus_cnt g < FAT32_EOC - 1;
  go_tot : first_data_sec g + sec_per_clus g * data_clus_cnt g < NO_SECTOR;
  go_ent : data_clus_cnt g + 2 ≤ fat_sz g * 128 }.

(** Sector and byte offset of an entry of the first FAT. *)
Definition ent_sec (g : geometry) (c : Z) : Z := rsvd_sec_cnt g + c / 128.
Definition ent_off (c : Z) : Z := 4 * (c mod 128).

Lemma fat_sec_of_clus_spec g c :
  geo_ok g → 0 ≤ c → c < fat_sz g * 128 → c < 2 ^ 30 →
  fat_sec_of_clus g c 1 = ent_sec g c ∧ fat_offset_of_clus g c = ent_off c ∧
  rsvd_sec_cnt g ≤ ent_sec g c < rsvd_sec_cnt g + fat_sz g.
Proof.
  intros [] H0 H1 H2. unfold fat_sec_of_clus, fat_offset_of_clus, ent_sec, ent_off, u32, BSIZE, NO_SECTOR in *.
  rewrite go_bps0, (Z.mod_small (c * 4)) by lia. rewrite (Z.mod_small (_ + _)) by (Z.to_euclidean_division_equations; nia).
  split_and!; Z.to_euclidean_division_equations; lia.
Qed.

Section Ops.
Context {D : Type} {SD : Sectors D}.
Implicit Types s : fatfs D.

Definition fat_entry (s : fatfs D) (c : Z) : Z :=
  get32 (sector_of (dsk s) (ent_sec (geo s) c)) (ent_off c).

(** A mounted volume: legal geometry, sectors of 512 bytes. *)
Record vol_ok (s : fatfs D) : Prop := {
  vo_geo : geo_ok (geo s);
  vo_disk : disk_ok (dsk s);
  vo_len : ∀ n, length (sector_of (dsk s) n) = 512%nat }.
Definition fs_ok (s : fatfs D) : Prop := vol_ok s ∧ coherent (sector_of (dsk s)) (cache s).

Lemma disk_op_spec n f s :
  disk_ok (dsk s) → 0 ≤ n < NO_SECTOR →
  ∃ d, disk_op (with_sector n f) s = Ok (sector_of (dsk s) n) (Fatfs (geo s) (cache s) d) ∧ disk_ok d ∧
    ∀ x, sector_of d x =
      if x =? n then default (sector_of (dsk s) n) (f (sector_of (dsk s) n)) else sector_of (dsk s) x.
Proof.
  intros Hd Hn. destruct (with_sector_law n f (dsk s) Hd Hn) as (d & E & Hd' & Hx).
  exists d. split; [|done]. unfold disk_op, zoom. by rewrite E.
Qed.

(** Entries of data clusters: their FAT sector, below the data area. *)
Lemma data_entry g c :
  geo_ok g → 0 ≤ c ≤ data_clus_cnt g + 1 →
  fat_sec_of_clus g c 1 = ent_sec g c ∧ fat_offset_of_clus g c = ent_off c ∧
  0 < ent_sec g c < first_data_sec g ∧ first_data_sec g < NO_SECTOR.
Proof.
  intros Hg Hc. pose proof Hg as [].
  destruct (fat_sec_of_clus_spec g c Hg) as (-> & -> & Hr); [unfold FAT32_EOC in *; lia..|].
  split_and!; [done|done|lia| |]; nia.
Qed.
Lemma last_clus g : geo_ok g → u32 (data_clus_cnt g + 1) = data_clus_cnt g + 1.
Proof. intros []. unfold u32, FAT32_EOC in *. apply Z.mod_small. lia. Qed.

Lemma coherent_ext sec sec' c : (∀ n, sec' n = sec n) → coherent sec c → coherent sec' c.
Proof. intros He (L & [A B C E]). exists L. split; try done. intros i Hi. by rewrite He, E. Qed.

Lemma read_fat_spec s c :
  fs_ok s → 0 ≤ c →
  ∃ s', read_fat c s =
      Ok (if FAT32_EOC <=? c then c else if data_clus_cnt (geo s) + 1 <? c then 0 else fat_entry s c) s' ∧
    fs_ok s' ∧ geo s' = geo s ∧ ∀ n, sector_of (dsk s') n = sector_of (dsk s) n.
Proof.
  intros [[Hg Hd Hl] Hc] H0. unfold read_fat, mbindM at 1, gets at 1. rewrite last_clus by done.
  destruct (Z.leb_spec FAT32_EOC c); [by exists s|].
  destruct (Z.ltb_spec (data_clus_cnt (geo s) + 1) c); [by exists s|].
  destruct (data_entry (geo s) c Hg ltac:(lia)) as (Es & Eo & Hr & Hf). rewrite Es, Eo. cbv zeta.
  assert (ent_sec (geo s) c ≠ NO_SECTOR) as Hn by lia.
  destruct (fat_cache_lookup_spec _ _ _ Hc Hn) as [Hc' Hh].
  unfold mbindM at 1, gets at 1, mbindM at 1, on_cache at 1, modify at 1.
  destruct (fst (fat_cache_lookup _ _)) as [e|].
  - unfold gets. cbn [cache]. rewrite Hh. eexists. split; [done|]. done.
  - destruct Hh as [Ec Hm]. rewrite Ec.
    destruct (disk_op_spec (ent_sec (geo s) c) (λ _, None) (Fatfs (geo s) (cache s) (dsk s)) Hd ltac:(lia))
      as (d & E & Hd' & Hx). rewrite (mbindM_Ok _ _ _ _ _ E).
    cbn [geo cache dsk] in *. assert (∀ n, sector_of d n = sector_of (dsk s) n) as Hx'.
    { intros n. rewrite Hx. destruct (Z.eqb_spec n (ent_sec (geo s) c)) as [->|]; done. }
    eexists. split; [done|]. simpl. split; [|done]. split.
    + split; [done..|]. intros n. simpl. by rewrite Hx'.
    + simpl. apply (coherent_ext (sector_of (dsk s))); [done|]. by apply fat_cache_add_spec.
Qed.

Lemma write_fat_spec s c v :
  fs_ok s → 0 ≤ c ≤ data_clus_cnt (geo s) + 1 →
  ∃ s', write_fat c v s = Ok 0 s' ∧ fs_ok s' ∧ geo s' = geo s ∧
    ∀ n, sector_of (dsk s') n =
      if n =? ent_sec (geo s) c then set32 (sector_of (dsk s) n) (ent_off c) v else sector_of (dsk s) n.
Proof.
  intros [[Hg Hd Hl] Hc] H0. unfold write_fat, mbindM at 1, gets at 1. rewrite last_clus by done.
  destruct (Z.ltb_spec (data_clus_cnt (geo s) + 1) c); [lia|].
  destruct (data_entry (geo s) c Hg ltac:(lia)) as (Es & Eo & Hr & Hf). rewrite Es, Eo. cbv zeta.
  destruct (disk_op_spec (ent_sec (geo s) c) (λ data, Some (set32 data (ent_off c) v)) s Hd ltac:(lia))
    as (d & E & Hd' & Hx). rewrite (mbindM_Ok _ _ _ _ _ E).
  cbn [geo cache dsk default from_option] in *. unfold id in Hx.
  eexists. split; [done|]. split; [split; [split; [done..|]|]|split; [done|]]; cbn [geo cache dsk].
  - intros n. rewrite Hx. destruct (n =? _); [rewrite length_set32|]; apply Hl.
  - eapply coherent_ext; [|apply (fat_cache_update_spec _ _ _ _ Hc); lia]. intros n. by rewrite Hx.
  - intros n. rewrite Hx. destruct (Z.eqb_spec n (ent_sec (geo s) c)) as [->|]; done.
Qed.

(** Writing one entry into its sector changes that entry and no other. *)
Lemma entry_update s s' c v :
  vol_ok s → 0 ≤ c → geo s' = geo s →
  sector_of (dsk s') (ent_sec (geo s) c) = set32 (sector_of (dsk s) (ent_sec (geo s) c)) (ent_off c) v →
  fat_entry s' c = u32 v ∧
  ∀ c', 0 ≤ c' → c' ≠ c →
    (ent_sec (geo s) c' ≠ ent_sec (geo s) c →
      sector_of (dsk s') (ent_sec (geo s) c') = sector_of (dsk s) (ent_sec (geo s) c')) →
    fat_entry s' c' = fat_entry s c'.
Proof.
  intros [Hg Hd Hl] Hc Eg Hs. unfold fat_entry. rewrite Eg. split.
  - rewrite Hs. apply get32_set32_eq. rewrite Hl. unfold ent_off.
    pose proof (Z.mod_pos_bound c 128). lia.
  - intros c' Hc' Hne Hx.
    destruct (decide (ent_sec (geo s) c' = ent_sec (geo s) c)) as [E|E]; [|by rewrite Hx].
    rewrite E, Hs. apply get32_set32_ne. unfold ent_sec, ent_off in *.
    Z.to_euclidean_division_equations; lia.
Qed.

(** Zeroing a run of sectors. *)
Definition zero_sector : list Z := replicate 512 0.
Lemma zero_secs_spec n sec s :
  vol_ok s → 0 ≤ sec → sec + Z.of_nat n ≤ NO_SECTOR →
  ∃ s', zero_secs n sec s = Ok tt s' ∧ vol_ok s' ∧ geo s' = geo s ∧ cache s' = cache s ∧
    ∀ x, sector_of (dsk s') x =
      if in_range sec (Z.of_nat n) x then zero_sector else sector_of (dsk s) x.
Proof.
  revert sec s. induction n as [|n IH]; intros sec s Hv H0 Hn; simpl.
  { exists s. split_and!; try done. intros x. by rewrite (proj2 (in_range_false sec _ x)) by (simpl; lia). }
  destruct Hv as [Hg Hd Hl].
  destruct (disk_op_spec sec (λ _, Some (replicate 512 0)) s Hd ltac:(lia)) as (d & E & Hd' & Hx).
  rewrite (mbindM_Ok _ _ _ _ _ E). unfold u32. rewrite Z.mod_small by (unfold NO_SECTOR in *; lia).
  cbn [from_option] in Hx. unfold id in Hx.
  destruct (IH (sec + 1) (Fatfs (geo s) (cache s) d)) as (s' & E' & Hv' & Eg & Ec & Hx'); [|lia..|].
  { split; [done..|]. intros x. cbn [dsk]. rewrite Hx. destruct (x =? sec); [by rewrite length_replicate|apply Hl]. }
  exists s'. split_and!; try done. intros x. rewrite Hx'. cbn [dsk]. rewrite Hx. unfold in_range.
  destruct (Z.leb_spec (sec + 1) x), (Z.leb_spec sec x), (Z.ltb_spec x (sec + 1 + Z.of_nat n)),
    (Z.ltb_spec x (sec + Z.of_nat (S n))), (Z.eqb_spec x sec); simpl; try done; lia.
Qed.

(** Sectors of a data cluster. *)
Definition clus_sec (g : geometry) (c : Z) : Z := first_data_sec g + (c - 2) * sec_per_clus g.
Lemma zero_clus_spec c s :
  vol_ok s → 2 ≤ c ≤ data_clus_cnt (geo s) + 1 →
  ∃ s', zero_clus c s = Ok tt s' ∧ vol_ok s' ∧ geo s' = geo s ∧ cache s' = cache s ∧
    ∀ x, sector_of (dsk s') x =
      if in_range (clus_sec (geo s) c) (sec_per_clus (geo s)) x
      then zero_sector else sector_of (dsk s) x.
Proof.
  intros Hv Hc. unfold zero_clus, mbindM at 1, gets at 1.
  assert (first_sec_of_clus (geo s) c = clus_sec (geo s) c ∧ 0 ≤ clus_sec (geo s) c ∧
    clus_sec (geo s) c + sec_per_clus (geo s) ≤ NO_SECTOR) as (-> & H1 & H2).
  { destruct Hv as [[] _ _]. unfold first_sec_of_clus, clus_sec, u32, NO_SECTOR, FAT32_EOC in *.
    rewrite (Z.mod_small (c - 2)) by lia. rewrite Z.mod_small by nia. split_and!; nia. }
  pose proof (go_spc _ (vo_geo _ Hv)).
  destruct (zero_secs_spec (Z.to_nat (sec_per_clus (geo s))) (clus_sec (geo s) c) s Hv H1) as (s' & E & ? & ? & ? & Hx); [lia|].
  exists s'. rewrite Z2Nat.id in Hx by lia. done.
Qed.

(** The first zero entry of a sector. *)
Lemma first_id_seqZ f a n j :
  a ≤ j < a + Z.of_nat n → f j = true → (∀ k, a ≤ k < j → f k = false) →
  first_id f (seqZ a (Z.of_nat n)) = Some j.
Proof.
  revert a. induction n as [|n IH]; intros a Hj Hf Hk; [lia|].
  rewrite seqZ_cons by lia. simpl. destruct (decide (a = j)) as [->|]; [by rewrite Hf|].
  rewrite Hk by lia. replace (Z.pred _) with (Z.of_nat n) by lia. apply IH; [lia|done|]. intros k Hk'. apply Hk. lia.
Qed.
Lemma first_id_none f l : (∀ k, k ∈ l → f k = false) → first_id f l = None.
Proof.
  induction l as [|k l IH]; simpl; intros H; [done|]. rewrite H by left. apply IH. intros j Hj. apply H. by right.
Qed.

Lemma slot_entry s i j :
  0 ≤ j < 128 → fat_entry s (i * 128 + j) = get32 (sector_of (dsk s) (rsvd_sec_cnt (geo s) + i)) (4 * j).
Proof.
  intros Hj. unfold fat_entry, ent_sec, ent_off.
  rewrite Z.div_add_l, Z.div_small, Z.add_0_r by lia. rewrite (Z.add_comm (i * 128)), Z.mod_add, Z.mod_small by lia. done.
Qed.

Lemma alloc_scan_skip n i s :
  vol_ok s → 0 ≤ i → rsvd_sec_cnt (geo s) + i + 1 < NO_SECTOR →
  (∀ j, 0 ≤ j < 128 → fat_entry s (i * 128 + j) ≠ 0) →
  ∃ s', alloc_scan 128 (S n) i (rsvd_sec_cnt (geo s) + i) s =
      alloc_scan 128 n (i + 1) (rsvd_sec_cnt (geo s') + (i + 1)) s' ∧
    vol_ok s' ∧ geo s' = geo s ∧ cache s' = cache s ∧ ∀ x, sector_of (dsk s') x = sector_of (dsk s) x.
Proof.
  intros [Hg Hd Hl] Hi Hs Hf. pose proof (go_rsvd _ Hg).
  assert (free_slot 128 (sector_of (dsk s) (rsvd_sec_cnt (geo s) + i)) = None) as Hn.
  { apply first_id_none. intros j Hj%elem_of_seqZ. apply Z.eqb_neq. rewrite <- slot_entry by lia. apply Hf. lia. }
  cbn [alloc_scan].
  destruct (disk_op_spec (rsvd_sec_cnt (geo s) + i) (λ data, match free_slot 128 data with
    | Some j => Some (set32 data (4 * j) (FAT32_EOC + 7)) | None => None end) s Hd ltac:(lia)) as (d & E & Hd' & Hx).
  rewrite (mbindM_Ok _ _ _ _ _ E), Hn. rewrite Hn in Hx. cbn [from_option] in Hx.
  assert (∀ x, sector_of d x = sector_of (dsk s) x) as Hx'.
  { intros x. rewrite Hx. destruct (Z.eqb_spec x (rsvd_sec_cnt (geo s) + i)) as [->|]; done. }
  exists (Fatfs (geo s) (cache s) d). cbn [geo cache dsk]. split_and!; try done.
  - unfold u32. rewrite Z.mod_small by (unfold NO_SECTOR in *; lia). by rewrite Z.add_assoc.
  - split; [done..|]. intros x. cbn [dsk]. by rewrite Hx'.
Qed.

(** What a successful allocation of cluster [c] leaves: its entry marked as the
    end of a chain, its sectors zeroed, nothing else changed, the FAT cache
    untouched. *)
Record allocated (s s' : fatfs D) (c : Z) : Prop := {
  al_vol : vol_ok s';
  al_geo : geo s' = geo s;
  al_cache : cache s' = cache s;
  al_sec : ∀ x, sector_of (dsk s') x =
    if in_range (clus_sec (geo s) c) (sec_per_clus (geo s)) x then zero_sector
    else if x =? ent_sec (geo s) c then set32 (sector_of (dsk s) x) (ent_off c) (FAT32_EOC + 7)
    else sector_of (dsk s) x }.

Lemma alloc_scan_hit n i j s :
  vol_ok s → 0 ≤ i → 0 ≤ j < 128 → 2 ≤ i * 128 + j ≤ data_clus_cnt (geo s) + 1 →
  fat_entry s (i * 128 + j) = 0 → (∀ k, 0 ≤ k < j → fat_entry s (i * 128 + k) ≠ 0) →
  ∃ s', alloc_scan 128 (S n) i (rsvd_sec_cnt (geo s) + i) s = Ok (i * 128 + j) s' ∧ allocated s s' (i * 128 + j).
Proof.
  intros [Hg Hd Hl] Hi Hj Hc Hz Hk. set (c := i * 128 + j) in *.
  destruct (data_entry (geo s) c Hg ltac:(lia)) as (_ & _ & Hr & Hf).
  assert (ent_sec (geo s) c = rsvd_sec_cnt (geo s) + i ∧ ent_off c = 4 * j) as [Es Eo].
  { unfold ent_sec, ent_off, c. split; Z.to_euclidean_division_equations; lia. }
  assert (free_slot 128 (sector_of (dsk s) (rsvd_sec_cnt (geo s) + i)) = Some j) as Hn.
  { apply (first_id_seqZ _ 0 128); [lia|apply Z.eqb_eq; by rewrite <- slot_entry by lia|].
    intros k Hk'. apply Z.eqb_neq. rewrite <- slot_entry by lia. by apply Hk. }
  cbn [alloc_scan].
  destruct (disk_op_spec (rsvd_sec_cnt (geo s) + i) (λ data, match free_slot 128 data with
    | Some j => Some (set32 data (4 * j) (FAT32_EOC + 7)) | None => None end) s Hd ltac:(lia)) as (d & E & Hd' & Hx).
  rewrite (mbindM_Ok _ _ _ _ _ E), Hn. rewrite Hn in Hx. cbn [from_option] in Hx. unfold id in Hx.
  cbv zeta. fold c. unfold u32. rewrite Z.mod_small by (pose proof (go_cnt _ Hg); unfold FAT32_EOC in *; lia).
  destruct (zero_clus_spec c (Fatfs (geo s) (cache s) d)) as (s' & E' & Hv' & Eg & Ec & Hx'); [|done|].
  { split; [done..|]. intros x. cbn [dsk]. rewrite Hx. destruct (x =? _); [rewrite length_set32|]; apply Hl. }
  rewrite (mbindM_Ok _ _ _ _ _ E'). exists s'. split; [done|]. split; [done..|].
  intros x. rewrite Hx'. cbn [geo dsk]. rewrite Hx, Es, Eo.
  destruct (in_range _ _ x); [done|]. destruct (Z.eqb_spec x (rsvd_sec_cnt (geo s) + i)) as [->|]; done.
Qed.

(** The entries after an allocation. *)
Lemma allocated_entries s s' c :
  vol_ok s → 2 ≤ c ≤ data_clus_cnt (geo s) + 1 → allocated s s' c →
  fat_entry s' c = FAT32_EOC + 7 ∧
  ∀ c', 0 ≤ c' ≤ data_clus_cnt (geo s) + 1 → c' ≠ c → fat_entry s' c' = fat_entry s c'.
Proof.
  intros Hv Hc [_ Eg _ Hx].
  assert (∀ c', 0 ≤ c' ≤ data_clus_cnt (geo s) + 1 →
    in_range (clus_sec (geo s) c) (sec_per_clus (geo s)) (ent_sec (geo s) c') = false) as Hout.
  { intros c' Hc'. apply in_range_false. destruct (data_entry _ c' (vo_geo _ Hv) Hc') as (_ & _ & Hr & _).
    pose proof (go_spc _ (vo_geo _ Hv)). unfold clus_sec. nia. }
  destruct (entry_update s s' c (FAT32_EOC + 7) Hv ltac:(lia) Eg) as [H1 H2].
  { rewrite Hx, Hout, Z.eqb_refl by lia. done. }
  split; [done|]. intros c' Hc' Hne. apply H2; [lia|done|]. intros Hs.
  by rewrite Hx, Hout, (proj2 (Z.eqb_neq _ _) Hs) by lia.
Qed.

Lemma alloc_scan_spec k n i c s :
  vol_ok s → 0 ≤ i → c / 128 = i + Z.of_nat k → (k < n)%nat →
  2 ≤ c ≤ data_clus_cnt (geo s) + 1 → fat_entry s c = 0 →
  (∀ c', i * 128 ≤ c' < c → fat_entry s c' ≠ 0) →
  ∃ s', alloc_scan 128 n i (rsvd_sec_cnt (geo s) + i) s = Ok c s' ∧ allocated s s' c.
Proof.
  revert n i s. induction k as [|k IH]; intros n i s Hv Hi Hk Hn Hc Hz Hf; (destruct n as [|n]; [lia|]).
  - assert (c = i * 128 + c mod 128) as Ec by (Z.to_euclidean_division_equations; lia).
    pose proof (Z.mod_pos_bound c 128 ltac:(lia)).
    pose proof (alloc_scan_hit n i (c mod 128) s) as Hh. rewrite <- Ec in Hh.
    apply Hh; try done. intros j Hj. apply Hf. lia.
  - pose proof (data_entry _ c (vo_geo _ Hv) ltac:(lia)) as (_ & _ & Hr & Hd). unfold ent_sec in Hr.
    destruct (alloc_scan_skip n i s Hv Hi ltac:(lia)) as (s1 & -> & Hv1 & Eg & Ec & Hx).
    { intros j Hj. apply Hf. Z.to_euclidean_division_equations. lia. }
    assert (∀ c', fat_entry s1 c' = fat_entry s c') as He.
    { intros c'. unfold fat_entry. by rewrite Eg, Hx. }
    destruct (IH n (i + 1) s1) as (s2 & E2 & [A B C F]); try done; [lia..|by rewrite Eg|by rewrite He| |].
    { intros c' Hc'. rewrite He. apply Hf. lia. }
    exists s2. split; [done|]. rewrite Eg in *. split; [done..|congruence|]. intros x. by rewrite F, !Hx.
Qed.

Lemma alloc_clus_spec s c :
  vol_ok s → 2 ≤ c ≤ data_clus_cnt (geo s) + 1 → fat_entry s c = 0 →
  (∀ c', 0 ≤ c' < c → fat_entry s c' ≠ 0) →
  ∃ s', alloc_clus s = Ok c s' ∧ allocated s s' c.
Proof.
  intros Hv Hc Hz Hf. unfold alloc_clus, mbindM at 1, gets at 1. rewrite (go_bps _ (vo_geo _ Hv)).
  rewrite <- (Z.add_0_r (rsvd_sec_cnt _)). change (BSIZE / 4) with 128.
  apply (alloc_scan_spec (Z.to_nat (c / 128))); try done; [|].
  - pose proof (Z.div_pos c 128). lia.
  - pose proof (go_ent _ (vo_geo _ Hv)). pose proof (go_sz _ (vo_geo _ Hv)).
    apply Z2Nat.inj_lt; [apply Z.div_pos; lia|lia|]. Z.to_euclidean_division_equations. lia.
Qed.

(** No free entry: the kernel stops. *)
Lemma alloc_scan_full n i s :
  vol_ok s → 0 ≤ i → rsvd_sec_cnt (geo s) + i + Z.of_nat n < NO_SECTOR →
  (∀ c', i * 128 ≤ c' < (i + Z.of_nat n) * 128 → fat_entry s c' ≠ 0) →
  alloc_scan 128 n i (rsvd_sec_cnt (geo s) + i) s = Panic "no clusters".
Proof.
  revert i s. induction n as [|n IH]; intros i s Hv Hi Hn Hf; [done|].
  destruct (alloc_scan_skip n i s Hv Hi ltac:(lia)) as (s1 & -> & Hv1 & Eg & Ec & Hx).
  { intros j Hj. apply Hf. lia. }
  apply IH; [done|lia|rewrite Eg; lia|]. intros c' Hc'. unfold fat_entry. rewrite Eg, Hx. apply Hf. lia.
Qed.

(** After an allocation the cached copy of the FAT sector is the old one: a
    lookup that hits it sees the entry as free. *)
Lemma read_fat_stale s s' c :
  fs_ok s → 2 ≤ c ≤ data_clus_cnt (geo s) + 1 → fat_entry s c = 0 → allocated s s' c →
  first_id (λ i, fc_sector (cache s) i =? ent_sec (geo s) c) fc_ids ≠ None →
  ∃ s'', read_fat c s' = Ok 0 s''.
Proof.
  intros [[Hg Hd Hl] Hc] Hr Hz [_ Eg Ec _] Hin. unfold read_fat, mbindM at 1, gets at 1.
  rewrite Eg, last_clus by done. pose proof (go_cnt _ Hg).
  rewrite (proj2 (Z.leb_gt FAT32_EOC c)) by lia. rewrite (proj2 (Z.ltb_ge _ c)) by lia.
  destruct (data_entry (geo s) c Hg ltac:(lia)) as (Es & Eo & Hrr & Hf). rewrite Es, Eo. cbv zeta.
  destruct (fat_cache_lookup_spec _ _ (ent_sec (geo s) c) Hc ltac:(lia)) as [_ Hh].
  unfold mbindM at 1, gets at 1, mbindM at 1, on_cache at 1, modify at 1. rewrite Ec.
  destruct (fst (fat_cache_lookup _ _)) as [e|]; [|by destruct Hh].
  unfold gets. cbn [cache]. rewrite Hh. unfold fat_entry in Hz. rewrite Hz. by eexists.
Qed.


(** [write_fat] stores the new content in the entry of the cluster and in
    no other entry of the FAT, leaves every other sector alone, and keeps the
    cache coherent; a cluster past the end is refused with -1 and no change. *)
Theorem write_fat_correct (s : fatfs D) (c v : Z) :
  fs_ok s → 0 ≤ c →
  if data_clus_cnt (geo s) + 1 <? c then write_fat c v s = Ok (-1) s
  else ∃ s', write_fat c v s = Ok 0 s' ∧ fs_ok s' ∧ fat_entry s' c = u32 v ∧
    (∀ c', 0 ≤ c' → c' ≠ c → fat_entry s' c' = fat_entry s c') ∧
    ∀ n, n ≠ ent_sec (geo s) c → sector_of (dsk s') n = sector_of (dsk s) n.
Proof.
  intros Hs Hc. destruct (Z.ltb_spec (data_clus_cnt (geo s) + 1) c) as [Hl|Hl].
  { unfold write_fat, mbindM at 1, gets at 1. rewrite last_clus by apply Hs.
    by rewrite (proj2 (Z.ltb_lt _ _) Hl). }
  destruct (write_fat_spec s c v Hs ltac:(lia)) as (s' & E & Hs' & Eg & Hx). exists s'.
  destruct (entry_update s s' c v (proj1 Hs) Hc Eg) as [H1 H2]; [by rewrite Hx, Z.eqb_refl|].
  assert (∀ n, n ≠ ent_sec (geo s) c → sector_of (dsk s') n = sector_of (dsk s) n) as Hne.
  { intros n Hn. by rewrite Hx, (proj2 (Z.eqb_neq _ _) Hn). }
  split_and!; try done. intros c' Hc' Hcc. apply H2; [done..|]. apply Hne.
Qed.

(** C31: [alloc_clus] takes the lowest cluster whose FAT entry is 0: it marks
    that entry as the end of a chain, zeroes exactly the cluster's sectors and
    changes no other entry; when the FAT has no zero entry it panics. *)
Theorem alloc_clus_correct (s : fatfs D) :
  fs_ok s →
  (∀ c, 2 ≤ c ≤ data_clus_cnt (geo s) + 1 → fat_entry s c = 0 → (∀ c', 0 ≤ c' < c → fat_entry s c' ≠ 0) →
    ∃ s', alloc_clus s = Ok c s' ∧ fat_entry s' c = FAT32_EOC + 7 ∧
      (∀ c', 0 ≤ c' ≤ data_clus_cnt (geo s) + 1 → c' ≠ c → fat_entry s' c' = fat_entry s c') ∧
      ∀ x, x ≠ ent_sec (geo s) c → sector_of (dsk s') x =
        if in_range (clus_sec (geo s) c) (sec_per_clus (geo s)) x then zero_sector else sector_of (dsk s) x) ∧
  ((∀ c, 0 ≤ c < fat_sz (geo s) * 128 → fat_entry s c ≠ 0) → alloc_clus s = Panic "no clusters").
Proof.
  intros [Hv _]. split.
  - intros c Hc Hz Hf. destruct (alloc_clus_spec s c Hv Hc Hz Hf) as (s' & E & Ha). exists s'.
    destruct (allocated_entries s s' c Hv Hc Ha) as [H1 H2]. split_and!; try done.
    intros x Hx. by rewrite (al_sec _ _ _ Ha), (proj2 (Z.eqb_neq _ _) Hx).
  - intros Hf. unfold alloc_clus, mbindM at 1, gets at 1. pose proof (vo_geo _ Hv) as [].
    rewrite go_bps0, <- (Z.add_0_r (rsvd_sec_cnt _)). apply alloc_scan_full; [done|lia|nia|].
    intros c' Hc'. apply Hf. lia.
Qed.

(** [alloc_clus] writes the FAT sector behind the back of the FAT cache: if
    the sector was cached, [read_fat] of the cluster just allocated answers 0,
    "free", although the disk has the end-of-chain mark. *)
Theorem alloc_clus_leaves_stale_cache (s : fatfs D) (c : Z) :
  fs_ok s → 2 ≤ c ≤ data_clus_cnt (geo s) + 1 → fat_entry s c = 0 →
  (∀ c', 0 ≤ c' < c → fat_entry s c' ≠ 0) →
  first_id (λ i, fc_sector (cache s) i =? ent_sec (geo s) c) fc_ids ≠ None →
  ∃ s' s'', alloc_clus s = Ok c s' ∧ fat_entry s' c = FAT32_EOC + 7 ∧ read_fat c s' = Ok 0 s''.
Proof.
  intros Hs Hc Hz Hf Hin. destruct (alloc_clus_spec s c (proj1 Hs) Hc Hz Hf) as (s' & E & Ha).
  destruct (read_fat_stale s s' c Hs Hc Hz Ha Hin) as (s'' & E'').
  exists s', s''. split_and!; try done. by apply (allocated_entries s s' c (proj1 Hs)).
Qed.
End Ops.

(** ** A small volume: one reserved sector, two FATs of one sector, eight
    clusters of one sector, clusters 0 to 2 in use. *)
Section Demo.
#[program] Definition mem_sectors : Sectors (Z → list Z) := {|
  with_sector n f := λ d, Ok (d n) (λ x, if x =? n then default (d n) (f (d n)) else d x);
  spoil_sector n f := λ d, Ok tt (λ x, if x =? n then f (d n) else d x);
  sector_of d := d;
  disk_ok _ := True |}.
Next Obligation. intros n f d _ _. by eexists. Qed.
Local Existing Instance mem_sectors.

Definition demo_geo : geometry := Geo 3 8 8 512 512 1 1 2 0 11 1 2.
Definition demo_fat_sec : list Z := set32 (set32 (set32 (replicate 512 0) 0 268435448) 4 268435455) 8 268435455.
Definition demo_dsk : Z → list Z := λ n, if n =? 1 then demo_fat_sec else replicate 512 0.
Definition demo_fc : fcache := fat_cache_init (Fcache (λ _, 0) (λ _, []) (λ _, 0) (λ _, 0) 0 0).
Definition demo_fs : fatfs (Z → list Z) := Fatfs demo_geo demo_fc demo_dsk.
(** ... and after a first [read_fat], so that the FAT sector is cached. *)
Definition warm_fs : fatfs (Z → list Z) :=
  Fatfs demo_geo (fat_cache_add 1 demo_fat_sec demo_fc) demo_dsk.

Lemma fat_cache_init_ok sec c : coherent sec (fat_cache_init c).
Proof.
  exists []. split.
  - split; [done|]. apply NoDup_singleton.
  - intros i. split; [by intros ?%elem_of_nil|]. intros [Hi Hs]. simpl in Hs.
    rewrite (proj2 (in_range_true 0 FAT_CACHE_SIZE i)) in Hs; [done|]. lia.
  - intros i j Hi. by apply elem_of_nil in Hi.
  - intros i Hi. by apply elem_of_nil in Hi.
Qed.
Lemma demo_vol c : vol_ok (Fatfs demo_geo c demo_dsk).
Proof.
  split; [split; unfold demo_geo, BSIZE, FAT32_EOC, NO_SECTOR; simpl; lia|done|].
  intros n. cbn [dsk sector_of mem_sectors]. unfold demo_dsk. by destruct (n =? 1).
Qed.
Lemma demo_fs_ok : fs_ok demo_fs.
Proof. split; [apply demo_vol|apply fat_cache_init_ok]. Qed.
Lemma warm_fs_ok : fs_ok warm_fs.
Proof.
  split; [apply demo_vol|]. apply (fat_cache_add_spec demo_dsk demo_fc 1); [apply fat_cache_init_ok|done|].
  vm_compute. reflexivity.
Qed.
Lemma demo_used c : 0 ≤ c < 3 → fat_entry demo_fs c ≠ 0.
Proof. intros Hc. assert (c = 0 ∨ c = 1 ∨ c = 2) as [->|[->| ->]] by lia; vm_compute; done. Qed.


Lemma write_fat_correct_witness : ∃ s', write_fat 2 3 demo_fs = Ok 0 s' ∧ fat_entry s' 2 = 3.
Proof.
  pose proof (write_fat_correct demo_fs 2 3 demo_fs_ok ltac:(lia)) as H.
  change (data_clus_cnt (geo demo_fs) + 1 <? 2) with false in H. cbv iota in H.
  destruct H as (s' & E & _ & H & _). exists s'. split; [exact E|exact H].
Defined.

Lemma alloc_clus_correct_witness : ∃ s', alloc_clus demo_fs = Ok 3 s' ∧ fat_entry s' 3 = FAT32_EOC + 7.
Proof.
  destruct (proj1 (alloc_clus_correct demo_fs demo_fs_ok) 3) as (s' & E & H & _);
    [simpl; lia|vm_compute; reflexivity|apply demo_used|]. by exists s'.
Defined.

Lemma alloc_clus_leaves_stale_cache_witness :
  ∃ s' s'', alloc_clus warm_fs = Ok 3 s' ∧ fat_entry s' 3 = FAT32_EOC + 7 ∧ read_fat 3 s' = Ok 0 s''.
Proof.
  apply (alloc_clus_leaves_stale_cache warm_fs 3 warm_fs_ok);
    [simpl; lia|vm_compute; reflexivity|apply demo_used|vm_compute; discriminate].
Defined.
End Demo.
