(* ===== verification/Calendar.v ===== *)
(** * The calendar (kernel/timer.c) and the FAT time stamps (kernel/fat32.c)

    [rtc_get_time] adds the seconds since boot to the start time and carries
    into minutes, hours, days, months and years; [sys_settime] moves the start
    time.  The time register is an argument.  The reference is a linear count of
    seconds ([secs_of]). *)
From stdpp Require Import prelude list strings.
From Stdlib Require Import ZArith Lia.
From S2P Require Import Prelude.
Open Scope Z_scope.

Record rtc_time := Rtc { year : Z; month : Z; day : Z; hour : Z; min : Z; sec : Z }.

Definition CLOCK_FREQUENCY : Z := 10000000.
Definition days_in_month : list Z := [0; 31; 28; 31; 30; 31; 30; 31; 31; 30; 31; 30; 31].

(** C's [%] on [int] truncates towards zero. *)
Definition is_leap_year (y : Z) : bool :=
  if negb (Z.rem y 4 =? 0) then false
  else if negb (Z.rem y 100 =? 0) then true
  else if negb (Z.rem y 400 =? 0) then false else true.

Definition get_current_time_ns (r_time : Z) : Z := u64 (r_time * (1000000000 / CLOCK_FREQUENCY)).
Definition get_current_time_s (r_time : Z) : Z := r_time / CLOCK_FREQUENCY.

(** [while (lo >= limit) { lo -= limit; hi++; }] *)
Fixpoint carry (fuel : nat) (limit lo hi : Z) : Z * Z :=
  match fuel with
  | O => (lo, hi)
  | S fuel => if limit <=? lo then carry fuel limit (lo - limit) (hi + 1) else (lo, hi)
  end.

(** The length of the month the loop of [rtc_get_time] looks at. *)
Definition month_days (y m : Z) : Z :=
  let days := nth (Z.to_nat m) days_in_month 0 in
  if (m =? 2) && is_leap_year y then days + 1 else days.

Fixpoint month_loop (fuel : nat) (y m d : Z) : Z * Z * Z :=
  match fuel with
  | O => (y, m, d)
  | S fuel =>
      let days := month_days y m in
      if d <=? days then (y, m, d)
      else
        let '(m, y) := if 12 <? m + 1 then (1, y + 1) else (m + 1, y) in
        month_loop fuel y m (d - days)
  end.

(** The loops run at most once per second, minute, hour and day left. *)
Definition rtc_get_time (start : rtc_time) (r_time : Z) : rtc_time :=
  let s := i32 (sec start + get_current_time_s r_time) in
  let '(s, mi) := carry (Z.to_nat s) 60 s (min start) in
  let '(mi, h) := carry (Z.to_nat mi) 60 mi (hour start) in
  let '(h, d) := carry (Z.to_nat h) 24 h (day start) in
  let '(y, m, d) := month_loop (Z.to_nat d) (year start) (month start) d in
  Rtc y m d h mi s.

(** [sys_settime] after its arguments were fetched: the new start time, or
    [None] for -1. *)
Definition sys_settime (t : rtc_time) (r_time : Z) : option rtc_time :=
  if (month t <? 1) || (12 <? month t) || (day t <? 1) || (31 <? day t) ||
     (hour t <? 0) || (23 <? hour t) || (min t <? 0) || (59 <? min t) || (sec t <? 0) || (59 <? sec t)
  then None
  else Some (Rtc (year t) (month t) (day t) (hour t) (min t)
               (i32 (sec t - get_current_time_s r_time))).

Definition rtc_to_fat32_time (t : rtc_time) : Z :=
  let h := Z.rem (hour t - 8 + 24) 24 in
  u16 (Z.lor (Z.lor (Z.shiftl (Z.land h 31) 11) (Z.shiftl (Z.land (min t) 63) 5))
         (Z.land (Z.quot (sec t) 2) 31)).
Definition rtc_to_fat32_date (t : rtc_time) : Z :=
  u16 (Z.lor (Z.lor (Z.shiftl (Z.land (year t - 1980) 127) 9) (Z.shiftl (Z.land (month t) 15) 5))
         (Z.land (day t) 31)).

(** ** The reference *)

(** Days from the start of year 0 to the start of [y]-[m] (proleptic
    Gregorian), and the linear second. *)
Definition days_before_year (y : Z) : Z := 365 * y + (y + 3) / 4 - (y + 99) / 100 + (y + 399) / 400.
Definition days_before_month (y m : Z) : Z :=
  foldr Z.add 0 (map (month_days y) (seqZ 1 (m - 1))).
Definition day_number (y m d : Z) : Z := days_before_year y + days_before_month y m + (d - 1).
Definition secs_of (t : rtc_time) : Z :=
  ((day_number (year t) (month t) (day t) * 24 + hour t) * 60 + min t) * 60 + sec t.

Definition valid_date (t : rtc_time) : Prop :=
  0 ≤ year t ∧ 1 ≤ month t ≤ 12 ∧ 1 ≤ day t ≤ month_days (year t) (month t) ∧
  0 ≤ hour t < 24 ∧ 0 ≤ min t < 60 ∧ 0 ≤ sec t < 60.

(** ** The carries *)

Lemma carry_spec fuel limit lo hi :
  0 < limit → 0 ≤ lo ≤ Z.of_nat fuel → carry fuel limit lo hi = (lo mod limit, hi + lo / limit).
Proof.
  intros Hl. revert lo hi. induction fuel as [|fuel IH]; intros lo hi Hlo; simpl.
  { replace lo with 0 by lia. rewrite Z.mod_0_l, Z.div_0_l by lia. f_equal. lia. }
  destruct (Z.leb_spec limit lo) as [H|H].
  - rewrite IH by lia. replace lo with (lo - limit + 1 * limit) at 3 4 by lia.
    rewrite Z.mod_add, Z.div_add by lia. f_equal. lia.
  - rewrite Z.mod_small, Z.div_small by lia. f_equal. lia.
Qed.

Lemma carry_to_nat limit lo hi :
  0 < limit → 0 ≤ lo → carry (Z.to_nat lo) limit lo hi = (lo mod limit, hi + lo / limit).
Proof. intros. apply carry_spec; lia. Qed.

(** ** Months and years *)

Ltac month_cases m :=
  let H := fresh in
  assert (m = 1 ∨ m = 2 ∨ m = 3 ∨ m = 4 ∨ m = 5 ∨ m = 6 ∨ m = 7 ∨ m = 8 ∨ m = 9 ∨ m = 10 ∨ m = 11 ∨ m = 12)
    as H by lia;
  repeat (destruct H as [->|H]); try subst m.

Lemma is_leap_year_spec y :
  0 ≤ y → is_leap_year y = true ↔ y mod 4 = 0 ∧ (y mod 100 ≠ 0 ∨ y mod 400 = 0).
Proof.
  intros Hy. unfold is_leap_year. rewrite !Z.rem_mod_nonneg by lia.
  destruct (Z.eqb_spec (y mod 4) 0), (Z.eqb_spec (y mod 100) 0), (Z.eqb_spec (y mod 400) 0); simpl; split;
    intros; try done; try tauto; try lia.
Qed.

Lemma month_days_bounds y m : 1 ≤ m ≤ 12 → 28 ≤ month_days y m ≤ 31.
Proof. intros Hm. unfold month_days. destruct (is_leap_year y); month_cases m; vm_compute; split; discriminate. Qed.

Lemma days_before_month_succ y m :
  1 ≤ m < 12 → days_before_month y (m + 1) = days_before_month y m + month_days y m.
Proof. intros Hm. unfold days_before_month, month_days. destruct (is_leap_year y); month_cases m; solve [lia|vm_compute; reflexivity]. Qed.

Lemma year_length y :
  0 ≤ y → days_before_year (y + 1) = days_before_year y + days_before_month y 12 + month_days y 12.
Proof.
  intros Hy.
  assert (days_before_month y 12 + month_days y 12 = 365 + (if is_leap_year y then 1 else 0)) as E.
  { unfold days_before_month, month_days. destruct (is_leap_year y); vm_compute; reflexivity. }
  rewrite <- Z.add_assoc, E. unfold days_before_year. pose proof (is_leap_year_spec y Hy) as Hl.
  destruct (is_leap_year y).
  - destruct (proj1 Hl eq_refl) as [? [?|?]]; Z.to_euclidean_division_equations; lia.
  - assert (¬ (y mod 4 = 0 ∧ (y mod 100 ≠ 0 ∨ y mod 400 = 0))) as Hn by (intros H; by apply Hl in H).
    destruct (decide (y mod 4 = 0)), (decide (y mod 100 = 0)), (decide (y mod 400 = 0)); try (exfalso; tauto);
      Z.to_euclidean_division_equations; lia.
Qed.

(** The month loop keeps the day number and ends inside a month. *)
Lemma month_loop_spec fuel y m d :
  0 ≤ y → 1 ≤ m ≤ 12 → 1 ≤ d ≤ Z.of_nat fuel →
  ∃ y' m' d', month_loop fuel y m d = (y', m', d') ∧ y ≤ y' ∧ 1 ≤ m' ≤ 12 ∧
    1 ≤ d' ≤ month_days y' m' ∧ day_number y' m' d' = day_number y m d.
Proof.
  revert y m d. induction fuel as [|fuel IH]; intros y m d Hy Hm Hd; [lia|]. cbn [month_loop].
  pose proof (month_days_bounds y m Hm) as Hb. destruct (Z.leb_spec d (month_days y m)) as [H|H].
  { exists y, m, d. split_and!; try done; lia. }
  destruct (Z.ltb_spec 12 (m + 1)) as [H12|H12].
  - assert (m = 12) as -> by lia. pose proof (year_length y Hy) as Hyl.
    destruct (IH (y + 1) 1 (d - month_days y 12)) as (y' & m' & d' & E & ? & ? & ? & Hn); [lia..|].
    exists y', m', d'. split; [done|]. split; [lia|]. split; [done|]. split; [done|]. rewrite Hn. unfold day_number.
    change (days_before_month (y + 1) 1) with 0. lia.
  - destruct (IH y (m + 1) (d - month_days y m)) as (y' & m' & d' & E & ? & ? & ? & Hn); [lia..|].
    exists y', m', d'. split; [done|]. split; [lia|]. split; [done|]. split; [done|]. rewrite Hn. unfold day_number.
    rewrite days_before_month_succ by lia. lia.
Qed.

(** ** The linear count determines the date *)

Lemma months_disjoint y a b :
  1 ≤ a → a < b → b ≤ 12 → days_before_month y a + month_days y a ≤ days_before_month y b.
Proof.
  intros Ha Hb. replace b with (a + 1 + Z.of_nat (Z.to_nat (b - a - 1))) by lia.
  induction (Z.to_nat (b - a - 1)) as [|k IH]; intros Hc.
  - rewrite Z.add_0_r, days_before_month_succ; lia.
  - etransitivity; [apply IH; lia|].
    replace (a + 1 + Z.of_nat (S k)) with ((a + 1 + Z.of_nat k) + 1) by lia.
    rewrite (days_before_month_succ y (a + 1 + Z.of_nat k)) by lia.
    pose proof (month_days_bounds y (a + 1 + Z.of_nat k)). lia.
Qed.
Lemma days_before_month_range y m d :
  1 ≤ m ≤ 12 → 1 ≤ d ≤ month_days y m →
  0 ≤ days_before_month y m + (d - 1) < days_before_month y 12 + month_days y 12.
Proof.
  intros Hm Hd.
  assert (0 ≤ days_before_month y m) as H0.
  { destruct (decide (m = 1)) as [->|]; [done|]. pose proof (months_disjoint y 1 m) as H.
    change (days_before_month y 1) with 0 in H. pose proof (month_days_bounds y 1). lia. }
  destruct (decide (m = 12)) as [->|]; [lia|].
  pose proof (months_disjoint y m 12). pose proof (month_days_bounds y 12). lia.
Qed.
Lemma month_unique y m d m' d' :
  1 ≤ m ≤ 12 → 1 ≤ d ≤ month_days y m → 1 ≤ m' ≤ 12 → 1 ≤ d' ≤ month_days y m' →
  days_before_month y m + (d - 1) = days_before_month y m' + (d' - 1) → m = m' ∧ d = d'.
Proof.
  intros Hm Hd Hm' Hd' E. destruct (Z.lt_trichotomy m m') as [H|[->|H]]; [|lia|].
  - pose proof (months_disjoint y m m'). lia.
  - pose proof (months_disjoint y m' m). lia.
Qed.
Lemma days_before_year_mono y y' : y ≤ y' → days_before_year y ≤ days_before_year y'.
Proof. intros H. unfold days_before_year. Z.to_euclidean_division_equations. lia. Qed.

Lemma day_number_inj y m d y' m' d' :
  0 ≤ y → 0 ≤ y' → 1 ≤ m ≤ 12 → 1 ≤ d ≤ month_days y m → 1 ≤ m' ≤ 12 → 1 ≤ d' ≤ month_days y' m' →
  day_number y m d = day_number y' m' d' → y = y' ∧ m = m' ∧ d = d'.
Proof.
  unfold day_number. intros Hy Hy' Hm Hd Hm' Hd' E.
  pose proof (days_before_month_range y m d Hm Hd). pose proof (days_before_month_range y' m' d' Hm' Hd').
  pose proof (year_length y Hy). pose proof (year_length y' Hy').
  destruct (Z.lt_trichotomy y y') as [H'|[->|H']].
  - pose proof (days_before_year_mono (y + 1) y'). lia.
  - split; [done|]. apply (month_unique y'); lia.
  - pose proof (days_before_year_mono (y' + 1) y). lia.
Qed.

Lemma secs_of_inj t t' : valid_date t → valid_date t' → secs_of t = secs_of t' → t = t'.
Proof.
  destruct t as [y m d h mi s], t' as [y' m' d' h' mi' s']. unfold valid_date, secs_of. simpl.
  intros (? & ? & ? & ? & ? & ?) (? & ? & ? & ? & ? & ?) E.
  assert (day_number y m d = day_number y' m' d') by lia.
  destruct (day_number_inj y m d y' m' d') as (-> & -> & ->); [done..|]. f_equal; lia.
Qed.

(** ** Properties *)

(** A start time [rtc_get_time] accepts: [sys_settime] may leave the seconds
    negative and the day past the end of the month. *)
Record start_ok (t : rtc_time) (elapsed : Z) : Prop := {
  so_year : 0 ≤ year t < 2 ^ 31 - 100;
  so_month : 1 ≤ month t ≤ 12;
  so_day : 1 ≤ day t ≤ 31;
  so_hour : 0 ≤ hour t < 24;
  so_min : 0 ≤ min t < 60;
  so_sec : 0 ≤ sec t + elapsed < 2 ^ 31 }.

Lemma i32_add_l x y : i32 (i32 x + y) = i32 (x + y).
Proof.
  unfold i32. f_equal. replace ((x + 2 ^ 31) mod 2 ^ 32 - 2 ^ 31 + y + 2 ^ 31) with ((x + 2 ^ 31) mod 2 ^ 32 + y) by lia.
  rewrite Z.add_mod_idemp_l by lia. f_equal. lia.
Qed.

Lemma rtc_get_time_spec t r :
  start_ok t (get_current_time_s r) →
  valid_date (rtc_get_time t r) ∧ secs_of (rtc_get_time t r) = secs_of t + get_current_time_s r.
Proof.
  intros []. unfold rtc_get_time. set (e := get_current_time_s r) in *.
  rewrite i32_small by lia. set (s := sec t + e) in *.
  rewrite carry_to_nat by lia. cbv beta iota zeta.
  assert (0 ≤ min t + s / 60) by (pose proof (Z.div_pos s 60); lia).
  rewrite carry_to_nat by lia. set (mi := min t + s / 60) in *.
  assert (0 ≤ hour t + mi / 60) by (pose proof (Z.div_pos mi 60); lia).
  rewrite carry_to_nat by lia. set (h := hour t + mi / 60) in *.
  assert (1 ≤ day t + h / 24) by (pose proof (Z.div_pos h 24); lia).
  destruct (month_loop_spec (Z.to_nat (day t + h / 24)) (year t) (month t) (day t + h / 24))
    as (y' & m' & d' & -> & Hy' & Hm' & Hd' & Hn); [lia..|].
  pose proof (Z.mod_pos_bound s 60). pose proof (Z.mod_pos_bound mi 60). pose proof (Z.mod_pos_bound h 24).
  unfold valid_date, secs_of. cbn [year month day hour min sec]. rewrite Hn. split; [split_and!; lia|].
  unfold day_number. pose proof (Z.div_mod s 60). pose proof (Z.div_mod mi 60). pose proof (Z.div_mod h 24). lia.
Qed.

(** the wall clock counts seconds in the Gregorian calendar:
    [rtc_get_time] terminates with a valid date and time of day (leap years
    included), and it is the one date whose second count is that of the start
    time plus the seconds elapsed. *)
Theorem rtc_get_time_correct (t : rtc_time) (r : Z) :
  start_ok t (get_current_time_s r) →
  valid_date (rtc_get_time t r) ∧
  ∀ t', valid_date t' → secs_of t' = secs_of t + get_current_time_s r → t' = rtc_get_time t r.
Proof.
  intros Hs. destruct (rtc_get_time_spec t r Hs) as [Hv He]. split; [done|].
  intros t' Hv' He'. apply secs_of_inj; [done..|congruence].
Qed.
Lemma rtc_get_time_correct_witness :
  valid_date (rtc_get_time (Rtc 2027 12 31 23 59 30) (10000000 * 86400 * 60)).
Proof. apply rtc_get_time_correct. vm_compute. repeat split; discriminate. Defined.

(** setting the clock: [sys_settime] with a valid date is accepted, the
    clock then shows exactly that time, and at any later reading it has advanced
    by the seconds in between; a field out of range is refused. *)
Theorem settime_roundtrip (t : rtc_time) (r r' : Z) :
  valid_date t → year t < 2 ^ 31 - 100 → 0 ≤ r ≤ r' →
  get_current_time_s r' - get_current_time_s r < 2 ^ 31 - 60 →
  ∃ st, sys_settime t r = Some st ∧ rtc_get_time st r = t ∧
    valid_date (rtc_get_time st r') ∧
    secs_of (rtc_get_time st r') = secs_of t + (get_current_time_s r' - get_current_time_s r).
Proof.
  destruct t as [y m d h mi s]. intros (Hy & Hm & Hd & Hh & Hmi & Hs) Hyy Hr Hb. simpl in *.
  pose proof (month_days_bounds y m Hm). unfold sys_settime. cbn [year month day hour min sec].
  destruct (_ || _) eqn:E; [exfalso; repeat (apply orb_true_iff in E as [E|E]); lia|].
  eexists. split; [done|]. set (e := get_current_time_s r) in *. set (e' := get_current_time_s r') in *.
  assert (∀ x, rtc_get_time (Rtc y m d h mi (i32 (s - e))) x =
    rtc_get_time (Rtc y m d h mi (s - e)) x) as Heq.
  { intros x. unfold rtc_get_time. cbn [year month day hour min sec]. by rewrite i32_add_l. }
  assert (e ≤ e') by (unfold e, e', get_current_time_s, CLOCK_FREQUENCY; apply Z.div_le_mono; lia).
  destruct (rtc_get_time_spec (Rtc y m d h mi (s - e)) r) as [V1 S1]; [split; simpl; fold e; lia|].
  destruct (rtc_get_time_spec (Rtc y m d h mi (s - e)) r') as [V2 S2]; [split; simpl; fold e'; lia|].
  rewrite !Heq. fold e in S1. fold e' in S2. unfold secs_of at 2 in S1. unfold secs_of at 2 in S2.
  cbn [year month day hour min sec] in S1, S2. split; [|split; [done|unfold secs_of at 2; simpl; lia]].
  apply secs_of_inj; [done|split_and!; simpl; lia|]. unfold secs_of at 2. simpl. lia.
Qed.
Lemma settime_roundtrip_witness :
  ∃ st, sys_settime (Rtc 2026 2 28 12 0 0) 70000000 = Some st ∧
    rtc_get_time st 70000000 = Rtc 2026 2 28 12 0 0.
Proof.
  destruct (settime_roundtrip (Rtc 2026 2 28 12 0 0) 70000000 80000000) as (st & A & B & _);
    [vm_compute; repeat split; discriminate|vm_compute; reflexivity|lia|vm_compute; reflexivity|].
  by exists st.
Defined.

(** ** Time stamps *)

(** Reading the fields of a stamp back. *)
Definition fat_decode (time date : Z) : rtc_time :=
  Rtc (1980 + Z.shiftr date 9) (Z.land (Z.shiftr date 5) 15) (Z.land date 31)
    (Z.shiftr time 11) (Z.land (Z.shiftr time 5) 63) (2 * Z.land time 31).

(** Every combination of field values, by evaluation. *)
Lemma forall_seqZ (P : Z → bool) (n : Z) : forallb P (seqZ 0 n) = true → ∀ i, 0 ≤ i < n → P i = true.
Proof. intros H i Hi. apply (proj1 (forallb_forall _ _) H). apply list_elem_of_In, elem_of_seqZ. lia. Qed.
Definition time_fields (h m s : Z) : bool :=
  let t := Z.lor (Z.lor (Z.shiftl (Z.land h 31) 11) (Z.shiftl (Z.land m 63) 5)) (Z.land s 31) in
  (t <? 2 ^ 16) && (0 <=? t) && (Z.shiftr t 11 =? h) && (Z.land (Z.shiftr t 5) 63 =? m) && (Z.land t 31 =? s).
Definition date_fields (y m d : Z) : bool :=
  let t := Z.lor (Z.lor (Z.shiftl (Z.land y 127) 9) (Z.shiftl (Z.land m 15) 5)) (Z.land d 31) in
  (t <? 2 ^ 16) && (0 <=? t) && (Z.shiftr t 9 =? y) && (Z.land (Z.shiftr t 5) 15 =? m) && (Z.land t 31 =? d).
Lemma time_fields_all h m s : 0 ≤ h < 24 → 0 ≤ m < 60 → 0 ≤ s < 32 → time_fields h m s = true.
Proof.
  intros Hh Hm. revert s. apply forall_seqZ. revert m Hm. apply forall_seqZ. revert h Hh. apply forall_seqZ.
  vm_compute. reflexivity.
Qed.
Lemma date_fields_all y m d : 0 ≤ y < 128 → 0 ≤ m < 16 → 0 ≤ d < 32 → date_fields y m d = true.
Proof.
  intros Hy Hm. revert d. apply forall_seqZ. revert m Hm. apply forall_seqZ. revert y Hy. apply forall_seqZ.
  vm_compute. reflexivity.
Qed.

Lemma fat_stamp_spec t :
  valid_date t → 1980 ≤ year t < 2108 →
  fat_decode (rtc_to_fat32_time t) (rtc_to_fat32_date t) =
    Rtc (year t) (month t) (day t) ((hour t + 16) mod 24) (min t) (sec t - sec t mod 2).
Proof.
  destruct t as [y m d h mi s]. intros (Hy & Hm & Hd & Hh & Hmi & Hs) Hyy. simpl in *.
  pose proof (month_days_bounds y m Hm). unfold fat_decode, rtc_to_fat32_time, rtc_to_fat32_date, u16.
  cbn [year month day hour min sec]. rewrite Z.rem_mod_nonneg, Z.quot_div_nonneg by lia.
  replace (h - 8 + 24) with (h + 16) by lia.
  pose proof (time_fields_all ((h + 16) mod 24) mi (s / 2)) as Ht.
  pose proof (date_fields_all (y - 1980) m d) as Hdt.
  pose proof (Z.mod_pos_bound (h + 16) 24). unfold time_fields in Ht. unfold date_fields in Hdt.
  rewrite !andb_true_iff, !Z.eqb_eq, Z.ltb_lt, Z.leb_le in Ht, Hdt.
  destruct Ht as ((((? & ?) & ?) & ?) & ?); [Z.to_euclidean_division_equations; lia..|].
  destruct Hdt as ((((? & ?) & ?) & ?) & ?); [lia..|].
  rewrite !Z.mod_small by lia. f_equal; try lia. pose proof (Z.div_mod s 2). lia.
Qed.

(** a FAT time stamp written by the kernel decodes, in the range of the
    format (1980 to 2107), to the same date, minute and even second, with the
    hour moved from local time (UTC+8) to UTC modulo 24. *)
Theorem fat_stamp_roundtrip (t : rtc_time) :
  valid_date t → 1980 ≤ year t < 2108 →
  fat_decode (rtc_to_fat32_time t) (rtc_to_fat32_date t) =
    Rtc (year t) (month t) (day t) ((hour t + 16) mod 24) (min t) (sec t - sec t mod 2).
Proof. apply fat_stamp_spec. Qed.
Lemma fat_stamp_roundtrip_witness :
  fat_decode (rtc_to_fat32_time (Rtc 2026 3 5 3 7 9)) (rtc_to_fat32_date (Rtc 2026 3 5 3 7 9)) =
    Rtc 2026 3 5 19 7 8.
Proof. apply (fat_stamp_roundtrip (Rtc 2026 3 5 3 7 9)); vm_compute; repeat split; discriminate. Defined.

(** The date is not moved with the hour: before 8 in the morning local time the
    stamp is a day ahead of the UTC time it stands for. *)
Theorem fat_stamp_a_day_ahead (t : rtc_time) :
  valid_date t → 1980 ≤ year t < 2108 → hour t < 8 →
  secs_of (fat_decode (rtc_to_fat32_time t) (rtc_to_fat32_date t)) =
    secs_of t - sec t mod 2 - 8 * 3600 + 24 * 3600.
Proof.
  intros Hv Hy Hh. rewrite fat_stamp_spec by done. destruct Hv as (_ & _ & _ & ? & _). unfold secs_of. simpl.
  rewrite (Z.mod_small (hour t + 16)) by lia. lia.
Qed.
