(* ===== verification/FatNames.v ===== *)
(** * File names (kernel/fat32.c)

    Names are C strings, here the list of their bytes without the NUL; a fixed
    buffer is the list of all its bytes.  [char] is unsigned on RISC-V.  The
    directory entries of 32 bytes are byte lists with the offsets of
    [short_name_entry_t] and [long_name_entry_t]. *)
From stdpp Require Import prelude list strings.
From Stdlib Require Import ZArith Lia.
From S2P Require Import Prelude.
Open Scope Z_scope.

Definition CHAR_LONG_NAME : nat := 13.
Definition CHAR_SHORT_NAME : nat := 11.
Definition FAT32_MAX_FILENAME : nat := 255.
Definition ATTR_LONG_NAME : Z := 15.
Definition LAST_LONG_ENTRY : Z := 64.

(** The characters refused in a long name and those replaced in a short one. *)
Definition illegal_long : list Z := [34; 42; 47; 58; 60; 62; 63; 92; 124].
Definition illegal_short : list Z := [43; 44; 59; 61; 91; 93].
Definition is_in (c : Z) (l : list Z) : bool := bool_decide (c ∈ l).

(** ** [formatname] *)

Fixpoint skip_head (name : list Z) : list Z :=
  match name with
  | c :: rest => if (c =? 32) || (c =? 46) then skip_head rest else name
  | [] => []
  end.
Definition legal_char (c : Z) : bool := negb ((c <? 32) || is_in c illegal_long).
(** The loop from the end of the string back to the last character that is not
    a space. *)
Fixpoint trim_tail (name : list Z) : list Z :=
  match name with
  | [] => []
  | c :: rest =>
      match trim_tail rest with
      | [] => if c =? 32 then [] else [c]
      | r => c :: r
      end
  end.
Definition formatname (name : list Z) : option (list Z) :=
  let name := skip_head name in
  if forallb legal_char name then Some (trim_tail name) else None.

(** ** [generate_shortname] and its checksum *)

(** Position of the last '.', or of the start of the name. *)
Fixpoint last_dot (pos : nat) (name : list Z) (p : nat) : nat :=
  match name with
  | [] => p
  | c :: rest => last_dot (S pos) rest (if c =? 46 then pos else p)
  end.

Definition short_char (c : Z) : Z :=
  if (97 <=? c) && (c <=? 122) then c - 32 else if is_in c illegal_short then 95 else c.

(** The main loop: [pos] is [name], [p] the position of the extension's dot
    ([None] for 0), [out] the characters of [shortname] so far. *)
Fixpoint short_loop (fuel : nat) (name : list Z) (pos : nat) (p : option nat) (out : list Z) : list Z :=
  match fuel with
  | O => out
  | S fuel =>
      if (length out <? CHAR_SHORT_NAME)%nat then
        match name !! pos with
        | None => out
        | Some c =>
            let pos := S pos in
            match p with
            | Some d =>
                if (length out =? 8)%nat then
                  if (d + 1 <? pos)%nat then out else short_loop fuel name (d + 1) None out
                else if c =? 32 then short_loop fuel name pos p out
                else if c =? 46 then
                  if (d <? pos)%nat
                  then short_loop fuel name pos None (take 8 (out ++ replicate (8 - length out) 32))
                  else short_loop fuel name pos p out
                else short_loop fuel name pos p (out ++ [short_char c])
            | None =>
                if c =? 32 then short_loop fuel name pos p out
                else if c =? 46
                then short_loop fuel name pos None (take 8 (out ++ replicate (8 - length out) 32))
                else short_loop fuel name pos p (out ++ [short_char c])
            end
        end
      else out
  end.

Definition generate_shortname (name : list Z) : list Z :=
  let out := short_loop (S (length name)) name 0 (Some (last_dot 0 name 0)) [] in
  out ++ replicate (CHAR_SHORT_NAME - length out) 32.

Definition cal_checksum (shortname : list Z) : Z :=
  fold_left (λ sum c, u8 ((if Z.odd sum then 128 else 0) + Z.shiftr sum 1 + c)) shortname 0.

(** ** Long-name entries *)

(** The 13 characters of one entry, as 16-bit units: the name, its NUL, then
    0xffff. *)
Fixpoint name_units (n : nat) (s : list Z) (ended : bool) : list Z :=
  match n with
  | O => []
  | S n =>
      if ended then 65535 :: name_units n s true
      else match s with
           | [] => 0 :: name_units n [] true
           | c :: s => c :: name_units n s false
           end
  end.
Definition unit_bytes (us : list Z) : list Z := flat_map (λ u, [u mod 2 ^ 8; u / 2 ^ 8]) us.

(** Count of long entries of a name, and entry [i] (from 1). *)
Definition lne_count (name : list Z) : nat := (length name + CHAR_LONG_NAME - 1) / CHAR_LONG_NAME.
Definition lne_order (entcnt i : nat) : Z :=
  if (i =? entcnt)%nat then Z.lor (Z.of_nat i) LAST_LONG_ENTRY else Z.of_nat i.
Definition long_entry (name : list Z) (checksum : Z) (entcnt i : nat) : list Z :=
  let us := name_units CHAR_LONG_NAME (drop ((i - 1) * CHAR_LONG_NAME) name) false in
  [lne_order entcnt i] ++ unit_bytes (take 5 us) ++ [ATTR_LONG_NAME; 0; checksum] ++
  unit_bytes (take 6 (drop 5 us)) ++ [0; 0] ++ unit_bytes (drop 11 us).

(** The units of a field of an entry; [snstr] copies their low bytes up to a
    zero unit, then clears all but one of the bytes left. *)
Definition entry_units (e : list Z) (off n : nat) : list Z :=
  map (λ k, nth (off + 2 * k) e 0 + 2 ^ 8 * nth (off + 2 * k + 1) e 0) (seq 0 n).
Fixpoint snstr_bytes (us : list Z) : list Z :=
  match us with
  | [] => []
  | u :: us => if u =? 0 then replicate (length us) 0 else Z.land u 255 :: snstr_bytes us
  end.

(** [read_entry_name] into [buffer] at [at_]: long entry, and short entry. *)
Definition read_long_name (buffer : list Z) (at_ : nat) (e : list Z) : list Z :=
  let b := list_inserts at_ (snstr_bytes (entry_units e 1 5)) buffer in
  let b := list_inserts (at_ + 5) (snstr_bytes (entry_units e 14 6)) b in
  list_inserts (at_ + 11) (snstr_bytes (entry_units e 28 2)) b.

Fixpoint until_space (s : list Z) : list Z :=
  match s with c :: s => if c =? 32 then [] else c :: until_space s | [] => [] end.
Definition read_short_name (buffer : list Z) (at_ : nat) (e : list Z) : list Z :=
  let base := until_space (take 8 e) in
  let ext := until_space (take 3 (drop 8 e)) in
  let b := list_inserts at_ (replicate (CHAR_SHORT_NAME + 2) 0) buffer in
  list_inserts at_ (base ++ (if nth 8 e 0 =? 32 then [] else [46]) ++ ext) b.
Definition read_entry_name (buffer : list Z) (at_ : nat) (e : list Z) : list Z :=
  if nth 11 e 0 =? ATTR_LONG_NAME then read_long_name buffer at_ e else read_short_name buffer at_ e.

(** The string a buffer holds. *)
Fixpoint cstr (b : list Z) : list Z :=
  match b with [] => [] | c :: b => if c =? 0 then [] else c :: cstr b end.

(** ** [skipelem]: the rest of the path and the element, or [None] for NULL. *)
Fixpoint skip_slashes (path : list Z) : list Z :=
  match path with c :: rest => if c =? 47 then skip_slashes rest else path | [] => [] end.
Fixpoint span_elem (path : list Z) : list Z * list Z :=
  match path with
  | c :: rest => if c =? 47 then ([], path) else let '(e, r) := span_elem rest in (c :: e, r)
  | [] => ([], [])
  end.
Definition skipelem (path : list Z) : option (list Z * list Z) :=
  match skip_slashes path with
  | [] => None
  | path => let '(e, r) := span_elem path in Some (skip_slashes r, take FAT32_MAX_FILENAME e)
  end.

(** ** The entries of a long name, in the order they lie in the directory *)
Definition name_entries (name : list Z) (checksum : Z) : list (list Z) :=
  map (long_entry name checksum (lne_count name)) (rev (seq 1 (lne_count name))).
(** What [enext] accumulates from a run of long entries. *)
Definition entry_slot (e : list Z) : nat :=
  (Z.to_nat (Z.land (nth 0 e 0) (Z.lnot LAST_LONG_ENTRY)) - 1) * CHAR_LONG_NAME.
Definition read_names (es : list (list Z)) : list Z :=
  fold_left (λ b e, read_entry_name b (entry_slot e) e) es (replicate (FAT32_MAX_FILENAME + 1) 0).

Definition name_char (c : Z) : Prop := 0 < c < 256.

(** ** Units *)

Lemma nth_unit_bytes us k :
  Forall (λ u, 0 ≤ u < 2 ^ 16) us → (k < length us)%nat →
  nth (2 * k) (unit_bytes us) 0 + 2 ^ 8 * nth (2 * k + 1) (unit_bytes us) 0 = nth k us 0.
Proof.
  intros Hf. revert k. induction Hf as [|u us Hu Hf IH]; intros k Hk; simpl in Hk; [lia|].
  destruct k as [|k]; [simpl; pose proof (Z.div_mod u (2 ^ 8)); lia|].
  replace (2 * S k)%nat with (S (S (2 * k))) by lia. replace (S (S (2 * k)) + 1)%nat with (S (S (2 * k + 1))) by lia.
  simpl. apply IH. lia.
Qed.
Lemma length_unit_bytes us : length (unit_bytes us) = (2 * length us)%nat.
Proof. induction us as [|u us IH]; [done|]. simpl in *. rewrite IH. lia. Qed.

Lemma entry_units_spec pre us post :
  Forall (λ u, 0 ≤ u < 2 ^ 16) us →
  entry_units (pre ++ unit_bytes us ++ post) (length pre) (length us) = us.
Proof.
  intros Hf. apply (list_eq_same_length _ _ (length us)); [done|unfold entry_units; by rewrite length_map, length_seq|].
  intros k x y Hk. unfold entry_units. rewrite list_lookup_fmap, lookup_seq_lt by done.
  cbv [fmap option_fmap option_map]. rewrite Nat.add_0_l. intros [= <-] Hy.
  pose proof (length_unit_bytes us).
  assert (∀ j, (j < 2 * length us)%nat →
    nth (length pre + j) (pre ++ unit_bytes us ++ post) 0 = nth j (unit_bytes us) 0) as Hn.
  { intros j Hj. rewrite app_nth2 by lia. rewrite app_nth1 by lia. f_equal. lia. }
  rewrite <- Nat.add_assoc. change (k + (k + 0))%nat with (2 * k)%nat. rewrite !Hn by lia.
  rewrite nth_unit_bytes by done. by apply nth_lookup_Some.
Qed.

Lemma length_name_units n s b : length (name_units n s b) = n.
Proof. revert s b. induction n as [|n IH]; intros s b; [done|]. destruct b, s; simpl; by rewrite IH. Qed.
Lemma name_units_range n s b :
  Forall name_char s → Forall (λ u, 0 ≤ u < 2 ^ 16) (name_units n s b).
Proof.
  revert s b. induction n as [|n IH]; intros s b Hs; [constructor|].
  destruct b; [simpl; constructor; [lia|by apply IH]|].
  destruct Hs as [|c s Hc Hs]; simpl; constructor; try lia; [by apply IH|unfold name_char in Hc; lia|by apply IH].
Qed.
Lemma name_units_lookup n s k :
  (k < n)%nat → (k ≤ length s)%nat → name_units n s false !! k = Some (nth k s 0).
Proof.
  revert s k. induction n as [|n IH]; intros s k Hk Hs; [lia|].
  destruct s as [|c s], k as [|k]; simpl in *; try done; [lia|]. apply IH; lia.
Qed.

(** [snstr] up to and at the end of the string. *)
Lemma snstr_bytes_char us k :
  (∀ j, (j ≤ k)%nat → ∃ c, us !! j = Some c ∧ name_char c) → snstr_bytes us !! k = us !! k.
Proof.
  revert k. induction us as [|u us IH]; intros k Hj.
  { destruct (Hj 0%nat) as (c & ? & _); [lia|done]. }
  destruct (Hj 0%nat) as (c & [= <-] & Hc); [lia|]. unfold name_char in Hc. simpl.
  destruct (Z.eqb_spec u 0); [lia|]. destruct k as [|k]; simpl.
  - f_equal. change 255 with (Z.ones 8). rewrite Z.land_ones by lia. apply Z.mod_small. lia.
  - apply IH. intros j Hjk. apply (Hj (S j)). lia.
Qed.
Lemma snstr_bytes_end us k :
  (∀ j, (j < k)%nat → ∃ c, us !! j = Some c ∧ name_char c) → us !! k = Some 0 →
  snstr_bytes us !! k = Some 0 ∨ snstr_bytes us !! k = None.
Proof.
  revert k. induction us as [|u us IH]; intros k Hj Hk; [done|]. destruct k as [|k]; simpl in *.
  - injection Hk as ->. simpl. destruct us; [by right|by left].
  - destruct (Hj 0%nat) as (c & [= <-] & Hc); [lia|]. unfold name_char in Hc.
    destruct (Z.eqb_spec u 0); [lia|]. simpl. apply IH; [|done]. intros j Hjk. apply (Hj (S j)). lia.
Qed.
Lemma length_snstr_bytes us : (length (snstr_bytes us) ≤ length us)%nat.
Proof.
  induction us as [|u us IH]; [done|]. simpl. destruct (u =? 0); simpl; [rewrite length_replicate; lia|lia].
Qed.

(** ** Reading an entry back *)

Lemma lookup_inserts_gen (w b : list Z) i k :
  (k < length b)%nat →
  list_inserts i w b !! k =
    match (if decide (i ≤ k)%nat then w !! (k - i)%nat else None) with Some c => Some c | None => b !! k end.
Proof.
  intros Hk. destruct (decide (i ≤ k)%nat) as [Hi|Hi]; [|apply list_lookup_inserts_lt; lia].
  destruct (decide (k < i + length w)%nat) as [Hw|Hw].
  - rewrite list_lookup_inserts by lia. destruct (w !! (k - i)%nat) eqn:E; [done|].
    apply lookup_ge_None in E. lia.
  - rewrite list_lookup_inserts_ge by lia. by rewrite (lookup_ge_None_2 w) by lia.
Qed.

Section Field.
Context (rem : list Z) (Hrem : Forall name_char rem).
Let us := name_units CHAR_LONG_NAME rem false.

(** One of the three fields of an entry: units [a] to [a + l]. *)
Definition field_of (a l : nat) : list Z := snstr_bytes (take l (drop a us)).

Lemma field_unit a l j : (a + j ≤ length rem)%nat → (j < l)%nat → (a + j < 13)%nat →
  take l (drop a us) !! j = Some (nth (a + j) rem 0).
Proof. intros H1 H2 H3. rewrite lookup_take_lt, lookup_drop by done. by apply name_units_lookup. Qed.
Lemma rem_char j : (j < length rem)%nat → name_char (nth j rem 0).
Proof. intros Hj. by apply Forall_nth. Qed.

Lemma field_char a l k :
  (a ≤ k < a + l)%nat → (k < 13)%nat → (k < length rem)%nat → field_of a l !! (k - a)%nat = Some (nth k rem 0).
Proof.
  intros Ha Hk Hl. unfold field_of. rewrite snstr_bytes_char.
  - rewrite field_unit by lia. do 2 f_equal. lia.
  - intros j Hj. exists (nth (a + j) rem 0). rewrite field_unit by lia. split; [done|]. apply rem_char. lia.
Qed.
Lemma field_end a l :
  (a ≤ length rem < a + l)%nat → (length rem < 13)%nat →
  field_of a l !! (length rem - a)%nat = Some 0 ∨ field_of a l !! (length rem - a)%nat = None.
Proof.
  intros Ha Hk. apply snstr_bytes_end.
  - intros j Hj. exists (nth (a + j) rem 0). rewrite field_unit by lia. split; [done|]. apply rem_char. lia.
  - rewrite field_unit by lia. f_equal. apply nth_overflow. lia.
Qed.
Lemma field_out a l j : (l ≤ j)%nat → field_of a l !! j = None.
Proof.
  intros Hj. apply lookup_ge_None_2. unfold field_of.
  pose proof (length_snstr_bytes (take l (drop a us))). rewrite length_take in *. lia.
Qed.
End Field.

Lemma read_long_name_fields b at_ name ck n i :
  Forall name_char name →
  let rem := drop ((i - 1) * CHAR_LONG_NAME) name in
  read_long_name b at_ (long_entry name ck n i) =
  list_inserts (at_ + 11) (field_of rem 11 2)
    (list_inserts (at_ + 5) (field_of rem 5 6) (list_inserts at_ (field_of rem 0 5) b)).
Proof.
  intros Hn rem. unfold read_long_name, long_entry. fold rem.
  set (us := name_units CHAR_LONG_NAME rem false).
  assert (length us = 13%nat) as Hl by apply length_name_units.
  assert (Forall (λ u, 0 ≤ u < 2 ^ 16) us) as Hf by (apply name_units_range, Forall_drop, Hn).
  set (e := _ ++ _). assert (entry_units e 1 5 = take 5 us) as ->.
  { pose proof (entry_units_spec [lne_order n i] (take 5 us) ([ATTR_LONG_NAME; 0; ck] ++
      unit_bytes (take 6 (drop 5 us)) ++ [0; 0] ++ unit_bytes (drop 11 us)) ltac:(by apply Forall_take)) as E.
    rewrite length_take, Hl in E. exact E. }
  assert (entry_units e 14 6 = take 6 (drop 5 us)) as ->.
  { pose proof (entry_units_spec ([lne_order n i] ++ unit_bytes (take 5 us) ++ [ATTR_LONG_NAME; 0; ck])
      (take 6 (drop 5 us)) ([0; 0] ++ unit_bytes (drop 11 us)) ltac:(by apply Forall_take, Forall_drop)) as E.
    rewrite !length_app, length_unit_bytes, !length_take, length_drop, Hl in E. simpl in E.
    etransitivity; [|exact E]. f_equal. unfold e. simpl. by rewrite <- !app_assoc. }
  assert (entry_units e 28 2 = drop 11 us) as ->.
  { pose proof (entry_units_spec ([lne_order n i] ++ unit_bytes (take 5 us) ++ [ATTR_LONG_NAME; 0; ck] ++
      unit_bytes (take 6 (drop 5 us)) ++ [0; 0]) (drop 11 us) [] ltac:(by apply Forall_drop)) as E.
    rewrite !length_app, !length_unit_bytes, !length_take, !length_drop, Hl in E. simpl in E.
    etransitivity; [|exact E]. f_equal. unfold e. simpl.
    rewrite <- !app_assoc. simpl. rewrite <- !app_assoc. simpl. by rewrite app_nil_r. }
  unfold field_of. fold us. rewrite drop_0, (take_ge (drop 11 us)) by (rewrite length_drop; lia). done.
Qed.

Definition in_chunk (i k : nat) : Prop := ((i - 1) * CHAR_LONG_NAME ≤ k < (i - 1) * CHAR_LONG_NAME + 13)%nat.

Lemma read_long_name_step b name ck n i k :
  Forall name_char name → (k < length b)%nat → (k ≤ length name)%nat →
  let r := read_long_name b ((i - 1) * CHAR_LONG_NAME) (long_entry name ck n i) !! k in
  (¬ in_chunk i k → r = b !! k) ∧
  (in_chunk i k → (k < length name)%nat → r = Some (nth k name 0)) ∧
  (in_chunk i k → k = length name → b !! k = Some 0 → r = Some 0).
Proof.
  intros Hn Hk Hl r. unfold r. rewrite read_long_name_fields by done. clear r.
  unfold in_chunk. set (o := ((i - 1) * CHAR_LONG_NAME)%nat). set (rem := drop o name).
  assert (Forall name_char rem) as Hrem by (by apply Forall_drop).
  assert (length rem = (length name - o)%nat) as Hlr by apply length_drop.
  rewrite !lookup_inserts_gen by (rewrite ?length_inserts; done).
  split_and!.
  - intros Ho. repeat case_decide; rewrite ?field_out by lia; done.
  - intros Ho Hkn. assert (nth k name 0 = nth (k - o) rem 0) as ->.
    { unfold rem. rewrite !nth_lookup, lookup_drop. do 2 f_equal. lia. }
    assert (∀ a l, (a ≤ k - o < a + l)%nat → field_of rem a l !! (k - (o + a))%nat = Some (nth (k - o) rem 0)) as Hf.
    { intros a l Ha. rewrite <- (field_char rem Hrem a l (k - o)) by lia. f_equal. lia. }
    pose proof (Hf 0%nat 5%nat) as F0. rewrite Nat.add_0_r in F0.
    pose proof (Hf 5%nat 6%nat) as F5. pose proof (Hf 11%nat 2%nat) as F11.
    repeat case_decide; try lia; rewrite ?field_out by lia;
      first [by rewrite F11 by lia|by rewrite F5 by lia|by rewrite F0 by lia].
  - intros Ho -> Hb.
    assert (∀ a l, (a ≤ length name - o < a + l)%nat →
      field_of rem a l !! (length name - (o + a))%nat = Some 0 ∨
      field_of rem a l !! (length name - (o + a))%nat = None) as Hf.
    { intros a l Ha. replace (length name - (o + a))%nat with (length rem - a)%nat by lia.
      apply field_end; [done|lia..]. }
    pose proof (Hf 0%nat 5%nat) as F0. rewrite Nat.add_0_r in F0.
    pose proof (Hf 5%nat 6%nat) as F5. pose proof (Hf 11%nat 2%nat) as F11.
    repeat case_decide; try lia; rewrite ?(field_out _ 11) by lia; rewrite ?(field_out _ 5) by lia;
      rewrite ?(field_out _ 0) by lia; try done;
      first [destruct F11 as [-> | ->]; [lia|..]|destruct F5 as [-> | ->]; [lia|..]|destruct F0 as [-> | ->]; [lia|..]];
      rewrite ?(field_out _ 5) by lia; rewrite ?(field_out _ 0) by lia; done.
Qed.

Lemma length_read_long_name b at_ e : length (read_long_name b at_ e) = length b.
Proof. unfold read_long_name. by rewrite !length_inserts. Qed.

Lemma long_entry_header name ck n i :
  nth 0 (long_entry name ck n i) 0 = lne_order n i ∧ nth 11 (long_entry name ck n i) 0 = ATTR_LONG_NAME.
Proof.
  split; [done|]. unfold long_entry. set (us := name_units _ _ _).
  assert (length us = 13%nat) as Hl by apply length_name_units.
  rewrite app_nth2 by (simpl; lia). rewrite app_nth2; rewrite length_unit_bytes, length_take, Hl; simpl; [done|lia].
Qed.
Lemma entry_slot_spec name ck n i :
  (1 ≤ i ≤ n)%nat → (n ≤ 20)%nat → entry_slot (long_entry name ck n i) = ((i - 1) * CHAR_LONG_NAME)%nat.
Proof.
  intros Hi Hn. unfold entry_slot. rewrite (proj1 (long_entry_header name ck n i)).
  replace (Z.to_nat (Z.land (lne_order n i) (Z.lnot LAST_LONG_ENTRY))) with i; [done|].
  unfold lne_order. assert (∃ j, i = S j ∧ (j < 20)%nat) as (j & -> & Hj) by (exists (i - 1)%nat; lia).
  destruct (S j =? n)%nat; do 20 (destruct j as [|j]; [reflexivity|]); lia.
Qed.

Lemma cstr_spec b s :
  Forall name_char s → (∀ k, (k < length s)%nat → b !! k = Some (nth k s 0)) → b !! length s = Some 0 → cstr b = s.
Proof.
  revert b. induction s as [|c s IH]; intros b Hs Hk H0.
  - destruct b as [|x b]; [done|]. injection H0 as ->. done.
  - destruct b as [|x b]; [by specialize (Hk 0%nat ltac:(simpl; lia))|].
    apply Forall_cons in Hs as [Hc Hs]. unfold name_char in Hc.
    pose proof (Hk 0%nat ltac:(simpl; lia)) as [= ->]. cbn [cstr nth]. destruct (Z.eqb_spec c 0); [lia|]. f_equal.
    apply IH; [done|..|done]. intros k Hkk. apply (Hk (S k)). simpl. lia.
Qed.

(** The buffer after some entries: the chunks read hold the name, the end of
    the string is still 0. *)
Record partly_read (name : list Z) (done_ : nat → Prop) (b : list Z) : Prop := {
  pr_len : length b = 256%nat;
  pr_done : ∀ i k, done_ i → in_chunk i k → (k < length name)%nat → b !! k = Some (nth k name 0);
  pr_end : b !! length name = Some 0 }.

Lemma partly_read_step name ck n i D b :
  Forall name_char name → (length name ≤ 255)%nat → (1 ≤ i ≤ n)%nat → (n ≤ 20)%nat → partly_read name D b →
  partly_read name (λ j, j = i ∨ D j) (read_entry_name b (entry_slot (long_entry name ck n i)) (long_entry name ck n i)).
Proof.
  intros Hn Hl Hi Hn20 [L Dn E]. rewrite entry_slot_spec by done. unfold read_entry_name.
  rewrite (proj2 (long_entry_header name ck n i)), Z.eqb_refl.
  pose proof (λ k H1 H2, read_long_name_step b name ck n i k Hn H1 H2) as Hs. cbv zeta in Hs. split.
  - by rewrite length_read_long_name.
  - intros j k Hj Hc Hk. destruct (Hs k) as (H1 & H2 & _); [lia..|].
    destruct (decide (in_chunk i k)) as [Hi'|Hi']; [by apply H2|]. rewrite H1 by done.
    destruct Hj as [->|Hj]; [done|]. by apply (Dn j).
  - destruct (Hs (length name)) as (H1 & _ & H3); [lia..|].
    destruct (decide (in_chunk i (length name))); [by apply H3|by rewrite H1].
Qed.

Lemma read_names_fold name ck n ids D b :
  Forall name_char name → (length name ≤ 255)%nat → (∀ i, i ∈ ids → (1 ≤ i ≤ n)%nat) → (n ≤ 20)%nat →
  partly_read name D b →
  partly_read name (λ j, j ∈ ids ∨ D j)
    (fold_left (λ b e, read_entry_name b (entry_slot e) e) (map (long_entry name ck n) ids) b).
Proof.
  intros Hn Hl. revert D b. induction ids as [|i ids IH]; intros D b Hi Hn20 Hp; simpl.
  - destruct Hp as [A B C]. split; [done|..|done]. intros j k [Hj|Hj]; [by apply elem_of_nil in Hj|by apply B].
  - assert (1 ≤ i ≤ n)%nat by (apply Hi; left).
    destruct (IH (λ j, j = i ∨ D j)
      (read_entry_name b (entry_slot (long_entry name ck n i)) (long_entry name ck n i))) as [A B C];
      [intros j Hj; apply Hi; by right|done|by apply partly_read_step|].
    split; [done|..|done]. intros j k Hj. apply B. rewrite elem_of_cons in Hj. tauto.
Qed.

Lemma long_name_spec name ck :
  Forall name_char name → (length name ≤ 255)%nat → cstr (read_names (name_entries name ck)) = name.
Proof.
  intros Hn Hl. unfold read_names, name_entries, lne_count. set (n := ((length name + CHAR_LONG_NAME - 1) / CHAR_LONG_NAME)%nat).
  assert (n ≤ 20 ∧ ∀ k, k < length name → 1 ≤ k / 13 + 1 ≤ n)%nat as [Hn20 Hc].
  { unfold n, CHAR_LONG_NAME. split; [apply Nat.lt_succ_r, Nat.Div0.div_lt_upper_bound; lia|].
    intros k Hk. split; [lia|]. rewrite Nat.add_1_r. apply Nat.le_succ_l.
    apply (Nat.lt_le_trans _ (k / 13 + 1)); [lia|]. rewrite <- (Nat.div_add k 1 13) by lia.
    apply Nat.Div0.div_le_mono. lia. }
  destruct (read_names_fold name ck n (rev (seq 1 n)) (λ _, False) (replicate (FAT32_MAX_FILENAME + 1) 0)) as [A B C].
  - done.
  - done.
  - intros i Hi. apply list_elem_of_In, in_rev, in_seq in Hi. lia.
  - done.
  - split; [done|done|]. apply lookup_replicate. split; [done|unfold FAT32_MAX_FILENAME; lia].
  - apply cstr_spec; [done|..|done]. intros k Hk. apply (B (k / 13 + 1)%nat); [left|..|done].
    + apply list_elem_of_In. rewrite <- in_rev. apply in_seq. specialize (Hc k Hk). lia.
    + unfold in_chunk, CHAR_LONG_NAME. rewrite Nat.add_sub.
      pose proof (Nat.div_mod_eq k 13). pose proof (Nat.mod_upper_bound k 13). lia.
Qed.

(** C33: long file names survive the disk: the long-name entries [emake] writes
    for a name of up to 255 characters, read back in directory order the way
    [enext] does, give exactly that name (whatever its length modulo 13, with
    or without a terminator in the last entry). *)
Theorem long_name_roundtrip (name : list Z) (checksum : Z) :
  Forall name_char name → (length name ≤ FAT32_MAX_FILENAME)%nat →
  cstr (read_names (name_entries name checksum)) = name.
Proof. apply long_name_spec. Qed.
Lemma long_name_roundtrip_witness :
  cstr (read_names (name_entries (replicate 26 97 ++ [46; 99]) 7)) = replicate 26 97 ++ [46; 99].
Proof.
  apply long_name_roundtrip; [|vm_compute; lia].
  apply Forall_forall. intros c Hc. simpl in Hc. unfold name_char.
  rewrite !elem_of_cons, elem_of_nil in Hc. lia.
Defined.

(** ** Short names *)

(** What a short name may hold: upper-case legal characters and padding. *)
Definition short_ok (c : Z) : Prop := c ≠ 46 ∧ ¬ (97 ≤ c ≤ 122) ∧ c ∉ illegal_short.
Lemma short_char_ok c : c ≠ 46 → short_ok (short_char c).
Proof.
  intros Hc. unfold short_ok, short_char, is_in.
  destruct (Z.leb_spec 97 c), (Z.leb_spec c 122); simpl; try (case_bool_decide as Hi; [|split_and!; [lia..|done]]);
    split_and!; try lia; unfold illegal_short; rewrite !elem_of_cons, elem_of_nil; lia.
Qed.
Lemma space_ok : short_ok 32.
Proof. unfold short_ok, illegal_short. rewrite !elem_of_cons, elem_of_nil. lia. Qed.
Lemma spaces_ok n : Forall short_ok (replicate n 32).
Proof. apply Forall_replicate, space_ok. Qed.

Lemma short_loop_ok fuel name pos p out :
  Forall short_ok out → (length out ≤ 11)%nat →
  let r := short_loop fuel name pos p out in Forall short_ok r ∧ (length r ≤ 11)%nat.
Proof.
  revert pos p out. induction fuel as [|fuel IH]; intros pos p out Ho Hl; [done|]. cbv zeta in IH |- *.
  cbn [short_loop]. destruct (Nat.ltb_spec (length out) CHAR_SHORT_NAME) as [H11|]; [|done].
  destruct (name !! pos) as [c|]; [|done]. unfold CHAR_SHORT_NAME in H11.
  assert (c ≠ 46 → Forall short_ok (out ++ [short_char c]) ∧ (length (out ++ [short_char c]) ≤ 11)%nat) as Happ.
  { intros Hc. rewrite Forall_app, Forall_singleton, length_app. simpl. split; [by split; [|apply short_char_ok]|lia]. }
  assert (Forall short_ok (take 8 (out ++ replicate (8 - length out) 32)) ∧
          (length (take 8 (out ++ replicate (8 - length out) 32%Z)) ≤ 11)%nat) as Hpad.
  { rewrite length_take. split; [|lia]. apply Forall_take, Forall_app. split; [done|apply spaces_ok]. }
  destruct p as [d|].
  - destruct (length out =? 8)%nat; [destruct (d + 1 <? S pos)%nat; [done|by apply IH]|].
    destruct (c =? 32); [by apply IH|]. destruct (Z.eqb_spec c 46) as [|Hc].
    + destruct (d <? S pos)%nat; apply IH; tauto.
    + apply IH; tauto.
  - destruct (c =? 32); [by apply IH|]. destruct (Z.eqb_spec c 46) as [|Hc]; apply IH; tauto.
Qed.

(** The fuel of [generate_shortname] is enough: more changes nothing. *)
Lemma short_loop_fuel f f' name pos p out :
  (length name < pos + f)%nat → (length name < pos + f')%nat →
  short_loop f name pos p out = short_loop f' name pos p out.
Proof.
  revert f' pos p out. induction f as [|f IH]; intros f' pos p out Hf Hf'.
  - destruct f' as [|f']; [done|]. cbn [short_loop]. destruct (_ <? _)%nat; [|done].
    by rewrite lookup_ge_None_2 by lia.
  - destruct f' as [|f']; cbn [short_loop]; (destruct (_ <? _)%nat; [|done]).
    { by rewrite lookup_ge_None_2 by lia. }
    destruct (name !! pos) as [c|]; [|done].
    destruct p as [d|]; repeat case_match; try done; try (apply IH; lia).
    match goal with H : (_ <? _)%nat = false |- _ => apply Nat.ltb_ge in H end. apply IH; lia.
Qed.

(** A run of ordinary characters. *)
Definition plain (c : Z) : Prop := c ≠ 32 ∧ c ≠ 46.
Lemma short_loop_base f pre l post d out :
  Forall plain l → (length pre + length l ≤ d)%nat → (length out + length l ≤ 8)%nat →
  short_loop (length l + f) (pre ++ l ++ post) (length pre) (Some d) out =
  short_loop f (pre ++ l ++ post) (length pre + length l) (Some d) (out ++ map short_char l).
Proof.
  revert pre out. induction l as [|c l IH]; intros pre out Hl Hd Ho; simpl in *.
  { by rewrite Nat.add_0_r, app_nil_r. }
  apply Forall_cons in Hl as [[H1 H2] Hl].
  rewrite (proj2 (Nat.ltb_lt _ _)) by (unfold CHAR_SHORT_NAME; lia).
  rewrite lookup_app_r, Nat.sub_diag by lia. cbn [lookup list_lookup].
  rewrite (proj2 (Nat.eqb_neq _ _)) by lia. rewrite (proj2 (Z.eqb_neq _ _) H1), (proj2 (Z.eqb_neq _ _) H2).
  specialize (IH (pre ++ [c]) (out ++ [short_char c]) Hl). rewrite !length_app, <- !app_assoc in IH. simpl in IH.
  rewrite !Nat.add_1_r in IH. rewrite IH by lia. f_equal. lia.
Qed.
Lemma short_loop_ext f pre l out :
  Forall plain l → (length out + length l ≤ 11)%nat →
  short_loop (length l + S f) (pre ++ l) (length pre) None out = out ++ map short_char l.
Proof.
  revert pre out. induction l as [|c l IH]; intros pre out Hl Ho; simpl in *.
  { rewrite !app_nil_r, lookup_ge_None_2 by lia. by destruct (_ <? _)%nat. }
  apply Forall_cons in Hl as [[H1 H2] Hl].
  rewrite (proj2 (Nat.ltb_lt _ _)) by (unfold CHAR_SHORT_NAME; lia).
  rewrite lookup_app_r, Nat.sub_diag by lia. cbn [lookup list_lookup].
  rewrite (proj2 (Z.eqb_neq _ _) H1), (proj2 (Z.eqb_neq _ _) H2).
  specialize (IH (pre ++ [c]) (out ++ [short_char c]) Hl). rewrite !length_app, <- !app_assoc in IH. simpl in IH.
  rewrite !Nat.add_1_r in IH. rewrite IH by lia. done.
Qed.

Lemma last_dot_plain pos l p : Forall plain l → last_dot pos l p = p.
Proof.
  revert pos. induction l as [|c l IH]; intros pos Hl; [done|]. apply Forall_cons in Hl as [[_ H] Hl]. simpl.
  rewrite (proj2 (Z.eqb_neq _ _) H). by apply IH.
Qed.
Lemma last_dot_app pos l l' p : last_dot pos (l ++ l') p = last_dot (pos + length l) l' (last_dot pos l p).
Proof.
  revert pos p. induction l as [|c l IH]; intros pos p; simpl; [by rewrite Nat.add_0_r|].
  rewrite IH. f_equal. lia.
Qed.

Definition pad (n : nat) (s : list Z) : list Z := s ++ replicate (n - length s) 32.

Lemma shortname_83 base ext :
  Forall plain base → Forall plain ext → (length base ≤ 8)%nat → (length ext ≤ 3)%nat →
  generate_shortname (base ++ 46 :: ext) = pad 8 (map short_char base) ++ pad 3 (map short_char ext).
Proof.
  intros Hb He Lb Le. unfold generate_shortname.
  rewrite last_dot_app, (last_dot_plain 0 base) by done. cbn [last_dot]. rewrite Z.eqb_refl.
  rewrite last_dot_plain by done. rewrite Nat.add_0_l.
  set (name := base ++ 46 :: ext).
  assert (short_loop (S (length name)) name 0 (Some (length base)) [] =
          pad 8 (map short_char base) ++ map short_char ext) as ->.
  { rewrite (short_loop_fuel _ (length base + S (length ext + S 0))) by (unfold name; rewrite ?length_app; simpl; lia).
    pose proof (short_loop_base (S (length ext + S 0)) [] base (46 :: ext) (length base) [] Hb
      ltac:(simpl; lia) ltac:(simpl; lia)) as Hbase.
    cbn [length Nat.add app] in Hbase. fold name in Hbase. rewrite Hbase.
    assert (∀ out, length out = 8%nat →
      short_loop (length ext + 1) name (S (length base)) None out = out ++ map short_char ext) as Hext.
    { intros out Hout. pose proof (short_loop_ext 0 (base ++ [46]) ext out He) as E.
      rewrite length_app, <- app_assoc in E. simpl in E.
      rewrite !Nat.add_1_r. rewrite (Nat.add_1_r (length base)), Nat.add_1_r in E. apply E. lia. }
    assert (length (pad 8 (map short_char base)) = 8%nat) as L8.
    { unfold pad. rewrite length_app, length_replicate, length_map. lia. }
    cbn [short_loop]. rewrite length_map, (proj2 (Nat.ltb_lt _ _)) by (unfold CHAR_SHORT_NAME; lia).
    unfold name at 1. rewrite lookup_app_r, Nat.sub_diag by lia. cbn [lookup list_lookup].
    destruct (Nat.eqb_spec (length base) 8) as [E8|E8].
    - rewrite (proj2 (Nat.ltb_ge _ _)), (Nat.add_1_r (length base)) by lia. rewrite Hext by (by rewrite length_map).
      unfold pad. by rewrite length_map, E8, Nat.sub_diag, app_nil_r.
    - change (46 =? 32) with false. change (46 =? 46) with true. cbv iota.
      rewrite (proj2 (Nat.ltb_lt _ _)) by lia.
      replace (take 8 _) with (pad 8 (map short_char base)); [by apply Hext|].
      rewrite take_ge; [by unfold pad; rewrite length_map|].
      rewrite length_app, length_replicate, length_map. lia. }
  unfold pad. rewrite !length_app, !length_replicate, !length_map, <- !app_assoc.
  do 3 f_equal. f_equal. unfold CHAR_SHORT_NAME. lia.
Qed.

(** [generate_shortname] always fills exactly the 11 bytes of a short
    name, with upper-case characters that are legal there and padding, never a
    dot; a name that fits the 8.3 scheme keeps its base in the first eight and
    its extension in the last three bytes.  The scan ends within the length of
    the name. *)
Theorem shortname_correct (name : list Z) :
  length (generate_shortname name) = CHAR_SHORT_NAME ∧ Forall short_ok (generate_shortname name) ∧
  (∀ base ext, name = base ++ 46 :: ext → Forall plain base → Forall plain ext →
    (length base ≤ 8)%nat → (length ext ≤ 3)%nat →
    generate_shortname name = pad 8 (map short_char base) ++ pad 3 (map short_char ext)) ∧
  ∀ fuel, (length name < fuel)%nat →
    short_loop fuel name 0 (Some (last_dot 0 name 0)) [] =
    short_loop (S (length name)) name 0 (Some (last_dot 0 name 0)) [].
Proof.
  destruct (short_loop_ok (S (length name)) name 0 (Some (last_dot 0 name 0)) []) as [H1 H2]; [constructor|simpl; lia|].
  unfold generate_shortname at 1 2. split_and!.
  - rewrite length_app, length_replicate. unfold CHAR_SHORT_NAME. lia.
  - apply Forall_app. split; [done|apply spaces_ok].
  - intros base ext -> ????. by apply shortname_83.
  - intros fuel Hf. apply short_loop_fuel; lia.
Qed.

(** ** [formatname] *)

Lemma skip_head_spec name :
  ∃ pre, name = pre ++ skip_head name ∧ Forall (λ c, c = 32 ∨ c = 46) pre ∧
    ∀ c r, skip_head name = c :: r → c ≠ 32 ∧ c ≠ 46.
Proof.
  induction name as [|c name (pre & E & Hp & Hh)]; simpl; [by exists []|].
  destruct ((c =? 32) || (c =? 46)) eqn:Ec.
  - exists (c :: pre). simpl. split; [by f_equal|]. split; [constructor; [lia|done]|done].
  - exists []. split; [done|]. split; [constructor|]. intros x r [= -> _]. lia.
Qed.
Lemma trim_tail_spec name :
  ∃ n, name = trim_tail name ++ replicate n 32 ∧ last (trim_tail name) ≠ Some 32.
Proof.
  induction name as [|c name (n & E & Hl)]; [by exists 0%nat|]. cbn [trim_tail].
  destruct (trim_tail name) as [|x r] eqn:Et.
  - simpl in E. destruct (Z.eqb_spec c 32) as [->|Hc].
    + exists (S n). simpl. rewrite <- E. done.
    + exists n. simpl. rewrite <- E. split; [done|]. by intros [= ->].
  - exists n. split; [by rewrite E at 1|done].
Qed.

(** C34: [formatname] strips exactly the leading spaces and dots and the
    trailing spaces of a name, and refuses it exactly when a character that is
    left is a control character or reserved; an accepted name has only legal
    characters and is left alone by a second call. *)
Theorem formatname_correct (name : list Z) :
  ∃ pre mid n, name = pre ++ mid ++ replicate n 32 ∧ Forall (λ c, c = 32 ∨ c = 46) pre ∧
    (∀ c r, mid = c :: r → c ≠ 32 ∧ c ≠ 46) ∧ last mid ≠ Some 32 ∧
    formatname name = (if forallb legal_char mid then Some mid else None) ∧
    formatname mid = formatname name.
Proof.
  destruct (skip_head_spec name) as (pre & E & Hp & Hh).
  destruct (trim_tail_spec (skip_head name)) as (n & Et & Hl).
  set (mid := trim_tail (skip_head name)) in *.
  assert (∀ c r, mid = c :: r → c ≠ 32 ∧ c ≠ 46) as Hm.
  { intros c r Em. rewrite Em in Et. apply (Hh c (r ++ replicate n 32)). done. }
  assert (forallb legal_char (skip_head name) = forallb legal_char mid) as Ef.
  { rewrite Et, forallb_app. replace (forallb legal_char (replicate n 32)) with true; [by rewrite andb_true_r|].
    clear. induction n; [done|]. simpl. by rewrite <- IHn. }
  assert (formatname name = if forallb legal_char mid then Some mid else None) as F.
  { unfold formatname. by rewrite Ef. }
  exists pre, mid, n. split_and!; try done; [by rewrite <- Et|].
  rewrite F. unfold formatname. replace (skip_head mid) with mid.
  - destruct (forallb legal_char mid); [|done]. f_equal. destruct (trim_tail_spec mid) as (k & Ek & _).
    destruct k as [|k]; [by rewrite app_nil_r in Ek|]. exfalso. apply Hl. rewrite Ek, replicate_S_end, app_assoc, last_snoc. done.
  - destruct mid as [|c r]; [done|]. destruct (Hm c r eq_refl) as [H1 H2]. simpl.
    by rewrite (proj2 (Z.eqb_neq _ _) H1), (proj2 (Z.eqb_neq _ _) H2).
Qed.

(** ** [skipelem] *)

Lemma skip_slashes_spec path :
  ∃ n, path = replicate n 47 ++ skip_slashes path ∧ hd 0 (skip_slashes path) ≠ 47.
Proof.
  induction path as [|c path (n & E & Hh)]; simpl; [by exists 0%nat|].
  destruct (Z.eqb_spec c 47) as [->|Hc]; [exists (S n); simpl; by rewrite <- E|by exists 0%nat].
Qed.
Lemma span_elem_spec path :
  path = fst (span_elem path) ++ snd (span_elem path) ∧ Forall (λ c, c ≠ 47) (fst (span_elem path)) ∧
  (snd (span_elem path) = [] ∨ hd 0 (snd (span_elem path)) = 47).
Proof.
  induction path as [|c path (E & Hf & Hh)]; simpl; [by repeat split; [constructor|left]|].
  destruct (Z.eqb_spec c 47) as [->|Hc]; simpl; [split_and!; [done|constructor|by right]|].
  destruct (span_elem path) as [e r]; simpl in *. split_and!; [by f_equal|by constructor|done].
Qed.

(** [skipelem] takes a path apart: it answers NULL exactly for a path of
    slashes only; otherwise the path is slashes, a first element without
    slashes (returned, cut to 255 characters), slashes, and the returned rest,
    which does not start with a slash and is shorter than the path, so that the
    walk of [lookup_path] ends. *)
Theorem skipelem_correct (path : list Z) :
  match skipelem path with
  | None => ∃ n, path = replicate n 47
  | Some (rest, name) => ∃ a e b, path = replicate a 47 ++ e ++ replicate b 47 ++ rest ∧
      e ≠ [] ∧ Forall (λ c, c ≠ 47) e ∧ (rest ≠ [] → (0 < b)%nat) ∧ hd 0 rest ≠ 47 ∧
      name = take FAT32_MAX_FILENAME e ∧ (length rest < length path)%nat
  end.
Proof.
  unfold skipelem. destruct (skip_slashes_spec path) as (a & E & Hh).
  destruct (skip_slashes path) as [|c p] eqn:Ep; [exists a; by rewrite app_nil_r in E|].
  destruct (span_elem_spec (c :: p)) as (Es & Hf & Hr).
  destruct (span_elem (c :: p)) as [e r] eqn:Ee. simpl in Es, Hf, Hr.
  destruct (skip_slashes_spec r) as (b & Er & Hh2).
  assert (e ≠ []) as He.
  { intros ->. simpl in Es. subst r. destruct Hr as [?|Hr]; [done|]. by apply Hh. }
  exists a, e, b. split_and!; try done.
  - by rewrite E, Es, Er at 1.
  - intros Hne. destruct b as [|b]; [|lia]. simpl in Er. rewrite Er in Hr. destruct Hr as [?|?]; [congruence|done].
  - rewrite E, Es, !length_app. rewrite Er at 2. rewrite length_app. destruct e; [done|simpl; lia].
Qed.
