(* ===== verification/FatFile.v ===== *)
(** * File contents (kernel/fat32.c)

    [rw_clus], [reloc_clus], [eread], [ewrite] and [etrunc] on entries of the
    directory cache.  A [struct dirent *] is an index.  Transfers to and from
    the process or a kernel address go through the interface [UserMem]
    ([either_copyin], [either_copyout]); a transfer with a local variable of the
    caller is [Var].  The result of [rtc_get_time] is an argument. *)
From stdpp Require Import prelude list strings.
From Stdlib Require Import ZArith Lia.
From S2P Require Import Prelude Fat FatProps Calendar.
Open Scope Z_scope.

Definition ATTR_READ_ONLY : Z := 1.
Definition ATTR_DIRECTORY : Z := 16.

Record dirent := Dirent {
  filename : list Z; attribute : Z; create_time_tenth : Z; create_time : Z; create_date : Z;
  last_access_date : Z; first_clus : Z; last_write_time : Z; last_write_date : Z;
  file_size : Z; cur_clus : Z; clus_cnt : Z; e_dev : Z; e_dirty : Z; e_valid : Z; e_ref : Z;
  e_off : Z; e_parent : Z; e_lock : Z }.

Definition set_filename (v : list Z) (x : dirent) : dirent :=
  Dirent v (attribute x) (create_time_tenth x) (create_time x) (create_date x) (last_access_date x)
    (first_clus x) (last_write_time x) (last_write_date x) (file_size x) (cur_clus x) (clus_cnt x)
    (e_dev x) (e_dirty x) (e_valid x) (e_ref x) (e_off x) (e_parent x) (e_lock x).
Definition set_attribute (v : Z) (x : dirent) : dirent :=
  Dirent (filename x) v (create_time_tenth x) (create_time x) (create_date x) (last_access_date x)
    (first_clus x) (last_write_time x) (last_write_date x) (file_size x) (cur_clus x) (clus_cnt x)
    (e_dev x) (e_dirty x) (e_valid x) (e_ref x) (e_off x) (e_parent x) (e_lock x).
Definition set_create_time_tenth (v : Z) (x : dirent) : dirent :=
  Dirent (filename x) (attribute x) v (create_time x) (create_date x) (last_access_date x)
    (first_clus x) (last_write_time x) (last_write_date x) (file_size x) (cur_clus x) (clus_cnt x)
    (e_dev x) (e_dirty x) (e_valid x) (e_ref x) (e_off x) (e_parent x) (e_lock x).
Definition set_create_time (v : Z) (x : dirent) : dirent :=
  Dirent (filename x) (attribute x) (create_time_tenth x) v (create_date x) (last_access_date x)
    (first_clus x) (last_write_time x) (last_write_date x) (file_size x) (cur_clus x) (clus_cnt x)
    (e_dev x) (e_dirty x) (e_valid x) (e_ref x) (e_off x) (e_parent x) (e_lock x).
Definition set_create_date (v : Z) (x : dirent) : dirent :=
  Dirent (filename x) (attribute x) (create_time_tenth x) (create_time x) v (last_access_date x)
    (first_clus x) (last_write_time x) (last_write_date x) (file_size x) (cur_clus x) (clus_cnt x)
    (e_dev x) (e_dirty x) (e_valid x) (e_ref x) (e_off x) (e_parent x) (e_lock x).
Definition set_last_access_date (v : Z) (x : dirent) : dirent :=
  Dirent (filename x) (attribute x) (create_time_tenth x) (create_time x) (create_date x) v
    (first_clus x) (last_write_time x) (last_write_date x) (file_size x) (cur_clus x) (clus_cnt x)
    (e_dev x) (e_dirty x) (e_valid x) (e_ref x) (e_off x) (e_parent x) (e_lock x).
Definition set_first_clus (v : Z) (x : dirent) : dirent :=
  Dirent (filename x) (attribute x) (create_time_tenth x) (create_time x) (create_date x)
    (last_access_date x) v (last_write_time x) (last_write_date x) (file_size x) (cur_clus x)
    (clus_cnt x) (e_dev x) (e_dirty x) (e_valid x) (e_ref x) (e_off x) (e_parent x) (e_lock x).
Definition set_last_write_time (v : Z) (x : dirent) : dirent :=
  Dirent (filename x) (attribute x) (create_time_tenth x) (create_time x) (create_date x)
    (last_access_date x) (first_clus x) v (last_write_date x) (file_size x) (cur_clus x)
    (clus_cnt x) (e_dev x) (e_dirty x) (e_valid x) (e_ref x) (e_off x) (e_parent x) (e_lock x).
Definition set_last_write_date (v : Z) (x : dirent) : dirent :=
  Dirent (filename x) (attribute x) (create_time_tenth x) (create_time x) (create_date x)
    (last_access_date x) (first_clus x) (last_write_time x) v (file_size x) (cur_clus x)
    (clus_cnt x) (e_dev x) (e_dirty x) (e_valid x) (e_ref x) (e_off x) (e_parent x) (e_lock x).
Definition set_file_size (v : Z) (x : dirent) : dirent :=
  Dirent (filename x) (attribute x) (create_time_tenth x) (create_time x) (create_date x)
    (last_access_date x) (first_clus x) (last_write_time x) (last_write_date x) v (cur_clus x)
    (clus_cnt x) (e_dev x) (e_dirty x) (e_valid x) (e_ref x) (e_off x) (e_parent x) (e_lock x).
Definition set_cur_clus (v : Z) (x : dirent) : dirent :=
  Dirent (filename x) (attribute x) (create_time_tenth x) (create_time x) (create_date x)
    (last_access_date x) (first_clus x) (last_write_time x) (last_write_date x) (file_size x) v
    (clus_cnt x) (e_dev x) (e_dirty x) (e_valid x) (e_ref x) (e_off x) (e_parent x) (e_lock x).
Definition set_clus_cnt (v : Z) (x : dirent) : dirent :=
  Dirent (filename x) (attribute x) (create_time_tenth x) (create_time x) (create_date x)
    (last_access_date x) (first_clus x) (last_write_time x) (last_write_date x) (file_size x)
    (cur_clus x) v (e_dev x) (e_dirty x) (e_valid x) (e_ref x) (e_off x) (e_parent x) (e_lock x).
Definition set_e_dirty (v : Z) (x : dirent) : dirent :=
  Dirent (filename x) (attribute x) (create_time_tenth x) (create_time x) (create_date x)
    (last_access_date x) (first_clus x) (last_write_time x) (last_write_date x) (file_size x)
    (cur_clus x) (clus_cnt x) (e_dev x) v (e_valid x) (e_ref x) (e_off x) (e_parent x) (e_lock x).
Definition set_e_valid (v : Z) (x : dirent) : dirent :=
  Dirent (filename x) (attribute x) (create_time_tenth x) (create_time x) (create_date x)
    (last_access_date x) (first_clus x) (last_write_time x) (last_write_date x) (file_size x)
    (cur_clus x) (clus_cnt x) (e_dev x) (e_dirty x) v (e_ref x) (e_off x) (e_parent x) (e_lock x).
Definition set_e_ref (v : Z) (x : dirent) : dirent :=
  Dirent (filename x) (attribute x) (create_time_tenth x) (create_time x) (create_date x)
    (last_access_date x) (first_clus x) (last_write_time x) (last_write_date x) (file_size x)
    (cur_clus x) (clus_cnt x) (e_dev x) (e_dirty x) (e_valid x) v (e_off x) (e_parent x) (e_lock x).
Definition set_e_off (v : Z) (x : dirent) : dirent :=
  Dirent (filename x) (attribute x) (create_time_tenth x) (create_time x) (create_date x)
    (last_access_date x) (first_clus x) (last_write_time x) (last_write_date x) (file_size x)
    (cur_clus x) (clus_cnt x) (e_dev x) (e_dirty x) (e_valid x) (e_ref x) v (e_parent x) (e_lock x).
Definition set_e_parent (v : Z) (x : dirent) : dirent :=
  Dirent (filename x) (attribute x) (create_time_tenth x) (create_time x) (create_date x)
    (last_access_date x) (first_clus x) (last_write_time x) (last_write_date x) (file_size x)
    (cur_clus x) (clus_cnt x) (e_dev x) (e_dirty x) (e_valid x) (e_ref x) (e_off x) v (e_lock x).
Definition set_e_lock (v : Z) (x : dirent) : dirent :=
  Dirent (filename x) (attribute x) (create_time_tenth x) (create_time x) (create_date x)
    (last_access_date x) (first_clus x) (last_write_time x) (last_write_date x) (file_size x)
    (cur_clus x) (clus_cnt x) (e_dev x) (e_dirty x) (e_valid x) (e_ref x) (e_off x) (e_parent x) v.

(** What the file code needs of the memory it transfers to and from: the byte
    visible at an address of the process ([true]) or of the kernel ([false]),
    and ranges for which the copy routines succeed. *)
Class UserMem (U : Type) := {
  either_in : bool → Z → Z → M U (Z * list Z);
  either_out : bool → Z → list Z → M U Z;
  ubyte : U → bool → Z → Z;
  readable : U → bool → Z → Z → Prop;
  writable : U → bool → Z → Z → Prop;
  either_in_law : ∀ u us a n i m, readable u us a n → 0 ≤ i → 0 ≤ m → i + m ≤ n →
    ∃ u', either_in us (u64 (a + i)) m u = Ok (0, map (ubyte u us) (seqZ (a + i) m)) u' ∧
      (∀ x, ubyte u' us x = ubyte u us x) ∧ readable u' us a n;
  either_out_law : ∀ u us a n i bs, writable u us a n → 0 ≤ i → bs ≠ [] → i + Z.of_nat (length bs) ≤ n →
    ∃ u', either_out us (u64 (a + i)) bs u = Ok 0 u' ∧ writable u' us a n ∧
      ∀ x, ubyte u' us x = if in_range (a + i) (Z.of_nat (length bs)) x
                           then u8 (nth (Z.to_nat (x - (a + i))) bs 0) else ubyte u us x }.

Record vfs (D U : Type) := Vfs {
  v_fat : fatfs D; v_mem : U; v_ent : Z → dirent; v_nxt : Z → Z; v_prv : Z → Z }.
Arguments Vfs {D U}.
Arguments v_fat {D U}.
Arguments v_mem {D U}.
Arguments v_ent {D U}.
Arguments v_nxt {D U}.
Arguments v_prv {D U}.

Inductive place := Mem (user : bool) (addr : Z) | Var (bytes : list Z).

Section File.
Context {D U : Type} {SD : Sectors D} {UM : UserMem U}.

Definition fat_op {A} (c : M (fatfs D) A) : M (vfs D U) A :=
  zoom v_fat (λ f s, Vfs f (v_mem s) (v_ent s) (v_nxt s) (v_prv s)) c.
Definition um_op {A} (c : M U A) : M (vfs D U) A :=
  zoom v_mem (λ u s, Vfs (v_fat s) u (v_ent s) (v_nxt s) (v_prv s)) c.
Definition on_ent (e : Z) (f : dirent → dirent) : M (vfs D U) unit :=
  modify (λ s, Vfs (v_fat s) (v_mem s) (upd (v_ent s) e (f (v_ent s e))) (v_nxt s) (v_prv s)).
Definition get_ent (e : Z) : M (vfs D U) dirent := gets (λ s, v_ent s e).
Definition get_geo : M (vfs D U) geometry := gets (λ s, geo (v_fat s)).

Definition fetch (pl : place) (tot m : Z) : M (vfs D U) (Z * list Z) :=
  match pl with
  | Mem us a => um_op (either_in us (u64 (a + tot)) m)
  | Var bs => mretM (0, take (Z.to_nat m) (drop (Z.to_nat tot) bs))
  end.
Definition deliver (pl : place) (tot : Z) (bs : list Z) : M (vfs D U) Z :=
  match pl with
  | Mem us a => um_op (either_out us (u64 (a + tot)) bs)
  | Var _ => mretM 0
  end.

(** The loop of [rw_clus] with [data] at [base] bytes into [pl]; [acc] collects
    what was read.  Each round moves at
    least one byte, so [n] rounds are enough. *)
Fixpoint rw_loop (fuel : nat) (wr : bool) (pl : place) (base sec off tot n : Z) (acc : list Z)
  : M (vfs D U) (Z * list Z) :=
  if tot <? n then
    match fuel with
    | O => panic "fuel"
    | S fuel =>
        let m0 := BSIZE - off mod BSIZE in
        let m := if n - tot <? m0 then n - tot else m0 in
        let at_ := Z.to_nat (off mod BSIZE) in
        if wr then
          r <-- fetch pl (base + tot) m ;;
          if r.1 =? -1
          then fat_op (disk_op (spoil_sector sec (list_inserts at_ r.2))) ;;; mretM (tot, acc)
          else fat_op (disk_op (with_sector sec (λ d, Some (list_inserts at_ r.2 d)))) ;;;
               rw_loop fuel wr pl base (u32 (sec + 1)) (off + m) (tot + m) n acc
        else
          d <-- fat_op (disk_op (with_sector sec (λ _, None))) ;;
          let bs := take (Z.to_nat m) (drop at_ d) in
          r <-- deliver pl (base + tot) bs ;;
          if r =? -1 then mretM (tot, acc)
          else rw_loop fuel wr pl base (u32 (sec + 1)) (off + m) (tot + m) n (acc ++ bs)
    end
  else mretM (tot, acc).

Definition rw_clus (cluster : Z) (wr : bool) (pl : place) (base off n : Z) : M (vfs D U) (Z * list Z) :=
  g <-- get_geo ;;
  if byts_per_clus g <? u32 (off + n) then panic "offset out of range"
  else rw_loop (Z.to_nat n) wr pl base (u32 (first_sec_of_clus g cluster + off / byts_per_sec g))
         (off mod byts_per_sec g) 0 n [].

(** [while (clus_num > entry->clus_cnt)], [n] rounds; [false] for the return of
    -1 at the end of the chain. *)
Definition set_pos (clus cnt : Z) (x : dirent) : dirent := set_clus_cnt cnt (set_cur_clus clus x).
Fixpoint reloc_forward (n : nat) (e : Z) (alloc : bool) : M (vfs D U) bool :=
  match n with
  | O => mretM true
  | S n =>
      x <-- get_ent e ;;
      clus <-- fat_op (read_fat (cur_clus x)) ;;
      if FAT32_EOC <=? i32 clus then
        if alloc then
          clus <-- fat_op alloc_clus ;;
          fat_op (write_fat (cur_clus x) clus) ;;;
          on_ent e (set_pos clus (u32 (clus_cnt x + 1))) ;;; reloc_forward n e alloc
        else on_ent e (λ x, set_pos (first_clus x) 0 x) ;;; mretM false
      else on_ent e (set_pos clus (u32 (clus_cnt x + 1))) ;;; reloc_forward n e alloc
  end.
(** [while (entry->clus_cnt < clus_num)] after starting over. *)
Fixpoint reloc_again (n : nat) (e : Z) : M (vfs D U) unit :=
  match n with
  | O => mretM tt
  | S n =>
      x <-- get_ent e ;;
      clus <-- fat_op (read_fat (cur_clus x)) ;;
      on_ent e (set_cur_clus clus) ;;;
      if FAT32_EOC <=? clus then panic "reloc_clus"
      else on_ent e (set_clus_cnt (u32 (clus_cnt x + 1))) ;;; reloc_again n e
  end.
Definition reloc_clus (e off : Z) (alloc : bool) : M (vfs D U) Z :=
  g <-- get_geo ;;
  let clus_num := off / byts_per_clus g in
  x <-- get_ent e ;;
  ok <-- reloc_forward (Z.to_nat (clus_num - clus_cnt x)) e alloc ;;
  if negb ok then mretM (-1)
  else
    x <-- get_ent e ;;
    (if clus_num <? clus_cnt x
     then on_ent e (λ x, set_pos (first_clus x) 0 x) ;;; reloc_again (Z.to_nat clus_num) e
     else mretM tt) ;;;
    mretM (off mod byts_per_clus g).

(** The loops of [eread] and [ewrite]: one cluster at a time. *)
Fixpoint io_loop (fuel : nat) (wr : bool) (e : Z) (pl : place) (off tot n : Z) (acc : list Z)
  : M (vfs D U) (Z * Z * list Z) :=
  x <-- get_ent e ;;
  if (wr || (cur_clus x <? FAT32_EOC)) && (tot <? n) then
    match fuel with
    | O => panic "fuel"
    | S fuel =>
        reloc_clus e off wr ;;;
        g <-- get_geo ;;
        x <-- get_ent e ;;
        let m0 := byts_per_clus g - off mod byts_per_clus g in
        let m := if n - tot <? m0 then n - tot else m0 in
        r <-- rw_clus (cur_clus x) wr pl tot (off mod byts_per_clus g) m ;;
        if negb (r.1 =? m) then mretM (tot, off, acc)
        else io_loop fuel wr e pl (u32 (off + m)) (tot + m) n (acc ++ r.2)
    end
  else mretM (tot, off, acc).

(** The bytes read come with the count, for callers that read a variable. *)
Definition eread (e : Z) (pl : place) (off n : Z) : M (vfs D U) (Z * list Z) :=
  x <-- get_ent e ;;
  if (file_size x <? off) || (u32 (off + n) <? off) || has (attribute x) ATTR_DIRECTORY then mretM (0, [])
  else
    let n := if file_size x <? u32 (off + n) then file_size x - off else n in
    r <-- io_loop (Z.to_nat n) false e pl off 0 n [] ;;
    mretM (i32 r.1.1, r.2).

Definition ewrite (now : rtc_time) (e : Z) (pl : place) (off n : Z) : M (vfs D U) Z :=
  x <-- get_ent e ;;
  if (file_size x <? off) || (u32 (off + n) <? off) || (2 ^ 32 - 1 <? off + n) || has (attribute x) ATTR_READ_ONLY
  then mretM (-1)
  else
    (if first_clus x =? 0
     then c <-- fat_op alloc_clus ;;
          on_ent e (λ x, set_e_dirty 1 (set_clus_cnt 0 (set_cur_clus c (set_first_clus c x))))
     else mretM tt) ;;;
    r <-- io_loop (Z.to_nat n) true e pl off 0 n [] ;;
    let off := r.1.2 in
    whenM (0 <? n)
      (x <-- get_ent e ;;
       whenM (file_size x <? off) (on_ent e (set_file_size off)) ;;;
       on_ent e (λ x, set_e_dirty 1 (set_last_write_date (rtc_to_fat32_date now)
                        (set_last_write_time (rtc_to_fat32_time now) x)))) ;;;
    mretM (i32 r.1.1).

(** Freeing a chain: every round zeroes an entry, so a round per cluster is
    enough. *)
Fixpoint trunc_loop (fuel : nat) (clus : Z) : M (fatfs D) unit :=
  if (2 <=? clus) && (clus <? FAT32_EOC) then
    match fuel with
    | O => panic "fuel"
    | S fuel => next <-- read_fat clus ;; free_clus clus ;;; trunc_loop fuel next
    end
  else mretM tt.
Definition etrunc (e : Z) : M (vfs D U) unit :=
  x <-- get_ent e ;;
  g <-- get_geo ;;
  fat_op (trunc_loop (Z.to_nat (data_clus_cnt g + 2)) (first_clus x)) ;;;
  on_ent e (λ x, set_e_dirty 1 (set_first_clus 0 (set_file_size 0 x))).
End File.
