(* ===== verification/FatFileProps.v ===== *)
(** * Properties of the file contents

    The disk as one array of bytes, a file as the bytes of its cluster chain,
    and what [eread], [ewrite] and [etrunc] do to them. *)
From stdpp Require Import prelude list strings.
From Stdlib Require Import ZArith Lia.
From S2P Require Import Prelude Fat FatProps Calendar FatFile.
Open Scope Z_scope.

(** ** Runs of bytes *)

(** The [n] values of [f] from [a]. *)
Definition run (f : Z → Z) (a n : Z) : list Z := map f (seqZ a n).
Lemma length_run f a n : 0 ≤ n → Z.of_nat (length (run f a n)) = n.
Proof. intros. unfold run. rewrite length_map, length_seqZ. lia. Qed.
Lemma length_run_nat f a n : length (run f a n) = Z.to_nat n.
Proof. unfold run. by rewrite length_map, length_seqZ. Qed.
Lemma lookup_run f a n k : Z.of_nat k < n → run f a n !! k = Some (f (a + Z.of_nat k)).
Proof. intros Hk. unfold run. by rewrite list_lookup_fmap, lookup_seqZ_lt by lia. Qed.
Lemma nth_run f a n i : 0 ≤ i < n → nth (Z.to_nat i) (run f a n) 0 = f (a + i).
Proof. intros Hi. rewrite nth_lookup, lookup_run by lia. simpl. f_equal. lia. Qed.
Lemma run_app f a n m : 0 ≤ n → 0 ≤ m → run f a (n + m) = run f a n ++ run f (a + n) m.
Proof. intros Hn Hm. unfold run. rewrite (seqZ_app a n m) by lia. apply map_app. Qed.
Lemma run_ext f g a n : (∀ x, a ≤ x < a + n → f x = g x) → run f a n = run g a n.
Proof. intros H. apply map_ext_in. intros x Hx%list_elem_of_In%elem_of_seqZ. apply H. lia. Qed.

(** ** The disk as bytes *)
Section Bytes.
Context {D : Type} {SD : Sectors D}.

Definition dbyte (d : D) (x : Z) : Z := nth (Z.to_nat (x mod 512)) (sector_of d (x / 512)) 0.

Lemma sector_run d sec off m :
  length (sector_of d sec) = 512%nat → 0 ≤ off → 0 ≤ m → off + m ≤ 512 →
  take (Z.to_nat m) (drop (Z.to_nat off) (sector_of d sec)) = run (dbyte d) (512 * sec + off) m.
Proof.
  intros Hl Ho Hm Hom. apply (list_eq_same_length _ _ (Z.to_nat m)).
  - apply length_run_nat.
  - rewrite length_take, length_drop. lia.
  - intros k x y Hk. rewrite lookup_take_lt, lookup_drop by done. rewrite lookup_run by lia.
    intros Hx [= <-]. unfold dbyte. rewrite nth_lookup.
    replace ((512 * sec + off + Z.of_nat k) / 512) with sec by (Z.to_euclidean_division_equations; lia).
    replace ((512 * sec + off + Z.of_nat k) mod 512) with (off + Z.of_nat k) by (Z.to_euclidean_division_equations; lia).
    replace (Z.to_nat (off + Z.of_nat k)) with (Z.to_nat off + Z.to_nat (Z.of_nat k))%nat by lia.
    rewrite Nat2Z.id, Hx. done.
Qed.

(** Overwriting part of a sector. *)
Lemma dbyte_write d d' sec off bs x :
  length (sector_of d sec) = 512%nat → 0 ≤ off → off + Z.of_nat (length bs) ≤ 512 →
  (∀ n, sector_of d' n = if n =? sec then list_inserts (Z.to_nat off) bs (sector_of d sec) else sector_of d n) →
  dbyte d' x = if in_range (512 * sec + off) (Z.of_nat (length bs)) x
               then nth (Z.to_nat (x - (512 * sec + off))) bs 0 else dbyte d x.
Proof.
  intros Hl Ho Hb Hs. unfold dbyte. rewrite Hs. destruct (Z.eqb_spec (x / 512) sec) as [<-|Hne].
  - rewrite !nth_lookup. set (i := x mod 512). assert (x = 512 * (x / 512) + i) as Ex by (unfold i; apply Z.div_mod; lia).
    assert (0 ≤ i < 512) as Hi by (unfold i; apply Z.mod_pos_bound; lia).
    destruct (in_range _ _ x) eqn:Er.
    + apply in_range_true in Er. rewrite list_lookup_inserts by lia. do 2 f_equal. lia.
    + apply in_range_false in Er. destruct (Z.ltb_spec i off).
      * rewrite list_lookup_inserts_lt by lia. done.
      * rewrite list_lookup_inserts_ge by lia. done.
  - rewrite (proj2 (in_range_false _ _ x)); [done|]. intros H. apply Hne.
    Z.to_euclidean_division_equations. lia.
Qed.
End Bytes.

Section Rw.
Context {D U : Type} {SD : Sectors D} {UM : UserMem U}.
Implicit Types s : vfs D U.

(** A sector is determined by its bytes. *)
Lemma sector_ext (d d' : D) n :
  length (sector_of d n) = 512%nat → length (sector_of d' n) = 512%nat →
  (∀ x, x / 512 = n → dbyte d' x = dbyte d x) → sector_of d' n = sector_of d n.
Proof.
  intros L L' Hx. apply (list_eq_same_length _ _ 512); [done..|]. intros k a b Hk Ha Hb.
  specialize (Hx (512 * n + Z.of_nat k)). unfold dbyte in Hx.
  replace ((512 * n + Z.of_nat k) / 512) with n in Hx by (Z.to_euclidean_division_equations; lia).
  replace ((512 * n + Z.of_nat k) mod 512) with (Z.of_nat k) in Hx by (Z.to_euclidean_division_equations; lia).
  rewrite Nat2Z.id, !nth_lookup, Ha, Hb in Hx. simpl in Hx. by apply Hx.
Qed.

(** ** Source and destination of a transfer *)
Definition src_byte (u : U) (pl : place) (i : Z) : Z :=
  match pl with Mem us a => ubyte u us (a + i) | Var bs => nth (Z.to_nat i) bs 0 end.
Definition src_ok (u : U) (pl : place) (n : Z) : Prop :=
  match pl with Mem us a => readable u us a n | Var bs => n ≤ Z.of_nat (length bs) end.
Definition dst_ok (u : U) (pl : place) (n : Z) : Prop :=
  match pl with Mem us a => writable u us a n | Var _ => True end.
(** [bs] has been delivered at [tot] bytes into the destination. *)
Definition delivered (pl : place) (tot : Z) (bs : list Z) (u u' : U) : Prop :=
  match pl with
  | Mem us a => ∀ x, ubyte u' us x =
      if in_range (a + tot) (Z.of_nat (length bs)) x then u8 (nth (Z.to_nat (x - (a + tot))) bs 0) else ubyte u us x
  | Var _ => u' = u
  end.

Definition with_mem (u : U) (s : vfs D U) : vfs D U := Vfs (v_fat s) u (v_ent s) (v_nxt s) (v_prv s).
Definition with_fat (f : fatfs D) (s : vfs D U) : vfs D U := Vfs f (v_mem s) (v_ent s) (v_nxt s) (v_prv s).

Lemma fetch_spec pl n tot m s :
  src_ok (v_mem s) pl n → 0 ≤ tot → 0 ≤ m → tot + m ≤ n →
  ∃ u', fetch pl tot m s = Ok (0, run (src_byte (v_mem s) pl) tot m) (with_mem u' s) ∧
    src_ok u' pl n ∧ ∀ i, src_byte u' pl i = src_byte (v_mem s) pl i.
Proof.
  destruct pl as [us a|bs]; simpl; intros Hs Ht Hm Hn.
  - destruct (either_in_law (v_mem s) us a n tot m Hs) as (u' & E & Hu & Hr); [lia..|].
    exists u'. unfold um_op, zoom. rewrite E. split; [|done]. f_equal. f_equal. unfold run.
    rewrite <- (fmap_add_seqZ a tot m). change (Z.add a <$> seqZ tot m) with (map (Z.add a) (seqZ tot m)).
    by rewrite map_map.
  - exists (v_mem s). split; [|done]. unfold mretM, with_mem. destruct s. simpl. f_equal. f_equal.
    apply (list_eq_same_length _ _ (Z.to_nat m)).
    + apply length_run_nat.
    + rewrite length_take, length_drop. lia.
    + intros k x y Hk. rewrite lookup_take_lt, lookup_drop by done. rewrite lookup_run by lia.
      intros Hx [= <-]. rewrite nth_lookup. replace (Z.to_nat (tot + Z.of_nat k)) with (Z.to_nat tot + k)%nat by lia.
      by rewrite Hx.
Qed.

Lemma deliver_spec pl n tot bs s :
  dst_ok (v_mem s) pl n → 0 ≤ tot → bs ≠ [] → tot + Z.of_nat (length bs) ≤ n →
  ∃ u', deliver pl tot bs s = Ok 0 (with_mem u' s) ∧ dst_ok u' pl n ∧ delivered pl tot bs (v_mem s) u'.
Proof.
  destruct pl as [us a|?]; simpl; intros Hs Ht Hbs Hn.
  - destruct (either_out_law (v_mem s) us a n tot bs Hs) as (u' & E & Hw & Hu); [lia|done|lia|].
    exists u'. unfold um_op, zoom. by rewrite E.
  - exists (v_mem s). by destruct s.
Qed.

Lemma delivered_app pl tot bs bs' u u' u'' :
  delivered pl tot bs u u' → delivered pl (tot + Z.of_nat (length bs)) bs' u' u'' →
  delivered pl tot (bs ++ bs') u u''.
Proof.
  destruct pl as [us a|?]; simpl; [|congruence]. intros H1 H2 x. rewrite H2, H1, length_app. unfold in_range.
  destruct (Z.leb_spec (a + (tot + Z.of_nat (length bs))) x), (Z.leb_spec (a + tot) x),
    (Z.ltb_spec x (a + (tot + Z.of_nat (length bs)) + Z.of_nat (length bs'))),
    (Z.ltb_spec x (a + tot + Z.of_nat (length bs))),
    (Z.ltb_spec x (a + tot + Z.of_nat (length bs + length bs'))); simpl; try lia; try done.
  - rewrite app_nth2 by lia. f_equal. f_equal. lia.
  - rewrite app_nth1 by lia. done.
Qed.
Lemma delivered_nil pl tot u : delivered pl tot [] u u.
Proof.
  destruct pl; simpl; [|done]. intros x. by rewrite (proj2 (in_range_false _ _ x)) by lia.
Qed.

(** ** One cluster *)

(** Same volume, its bytes changed as [f] says. *)
Record fat_upd (f f' : fatfs D) (b : Z → Z) : Prop := {
  fu_vol : vol_ok f';
  fu_geo : geo f' = geo f;
  fu_cache : cache f' = cache f;
  fu_byte : ∀ x, dbyte (dsk f') x = b x }.

Lemma fat_op_sector n (f : list Z → option (list Z)) s :
  vol_ok (v_fat s) → 0 ≤ n < NO_SECTOR → (∀ d d', f d = Some d' → length d' = length d) →
  ∃ f', fat_op (disk_op (with_sector n f)) s = Ok (sector_of (dsk (v_fat s)) n) (with_fat f' s) ∧
    vol_ok f' ∧ geo f' = geo (v_fat s) ∧ cache f' = cache (v_fat s) ∧
    ∀ x, sector_of (dsk f') x = if x =? n then default (sector_of (dsk (v_fat s)) n) (f (sector_of (dsk (v_fat s)) n))
                                else sector_of (dsk (v_fat s)) x.
Proof.
  intros [Hg Hd Hl] Hn Hf. destruct (disk_op_spec n f (v_fat s) Hd Hn) as (d & E & Hd' & Hx).
  exists (Fatfs (geo (v_fat s)) (cache (v_fat s)) d). unfold fat_op, zoom. rewrite E. split; [done|]. cbn [geo cache dsk].
  split; [|done]. split; [done..|]. intros x. cbn [dsk]. rewrite Hx. destruct (x =? n); [|apply Hl].
  destruct (f _) eqn:Ef; simpl; [rewrite (Hf _ _ Ef)|]; apply Hl.
Qed.

(** The size of one round, and where the next one starts. *)
Definition round_size (off left : Z) : Z := if left <? BSIZE - off mod BSIZE then left else BSIZE - off mod BSIZE.
Lemma round_facts off left sec :
  0 < left → 0 ≤ sec < NO_SECTOR →
  let m := round_size off left in
  0 ≤ off mod 512 < 512 ∧ 0 < m ≤ left ∧ off mod 512 + m ≤ 512 ∧
  (left - m = 0 ∨ 512 * u32 (sec + 1) + (off + m) mod 512 = 512 * sec + off mod 512 + m).
Proof.
  intros Hl Hs m. pose proof (Z.mod_pos_bound off 512 ltac:(lia)). split; [done|].
  assert (0 < m ≤ left ∧ off mod 512 + m ≤ 512 ∧ (m = left ∨ off mod 512 + m = 512)) as (? & ? & Hc).
  { unfold m, round_size, BSIZE. destruct (Z.ltb_spec left (512 - off mod 512)); lia. }
  split_and!; try lia. destruct Hc as [Hc|Hc]; [left; lia|right]. unfold u32, NO_SECTOR in *. rewrite Z.mod_small by lia.
  rewrite <- (Z.add_mod_idemp_l off m) by lia. rewrite Hc. change (512 mod 512) with 0. lia.
Qed.

Lemma rw_loop_read fuel pl base N sec off tot n acc s :
  vol_ok (v_fat s) → dst_ok (v_mem s) pl N → 0 ≤ sec → 0 ≤ off → 0 ≤ tot ≤ n → 0 ≤ base → base + n ≤ N → n - tot ≤ Z.of_nat fuel →
  (tot < n → 512 * sec + off mod 512 + (n - tot) ≤ 512 * NO_SECTOR) →
  let bs := run (dbyte (dsk (v_fat s))) (512 * sec + off mod 512) (n - tot) in
  ∃ f' u', rw_loop fuel false pl base sec off tot n acc s = Ok (n, acc ++ bs) (with_mem u' (with_fat f' s)) ∧
    fat_upd (v_fat s) f' (dbyte (dsk (v_fat s))) ∧ dst_ok u' pl N ∧ delivered pl (base + tot) bs (v_mem s) u'.
Proof.
  revert sec off tot acc s. induction fuel as [|fuel IH]; intros sec off tot acc s Hv Hd Hs Ho Ht Hba HnN Hf Hlim; cbv zeta.
  all: cbn [rw_loop]; destruct (Z.ltb_spec tot n) as [Hlt|Hge]; [try lia; try specialize (Hlim Hlt)|].
  1, 3: replace (n - tot) with 0 by lia; exists (v_fat s), (v_mem s); split;
    [unfold run; simpl; rewrite app_nil_r; replace n with tot by lia; by destruct s|]; split; [by split|];
    split; [done|apply delivered_nil].
  fold (round_size off (n - tot)). set (m := round_size off (n - tot)).
  pose proof (Z.mod_pos_bound off 512 ltac:(lia)) as Hmod0.
  destruct (round_facts off (n - tot) sec) as (Hmod & Hm & Hm5 & Hpos); [lia..|]. fold m in Hm, Hm5, Hpos.
  destruct (fat_op_sector sec (λ _, None) s Hv) as (f1 & E1 & Hv1 & Eg1 & Ec1 & Hx1); [lia|done|].
  assert (∀ x, sector_of (dsk f1) x = sector_of (dsk (v_fat s)) x) as Hsec.
  { intros x. rewrite Hx1. destruct (Z.eqb_spec x sec) as [->|]; done. }
  assert (∀ x, dbyte (dsk f1) x = dbyte (dsk (v_fat s)) x) as Hb by (intros x; unfold dbyte; by rewrite Hsec).
  cbv zeta. rewrite (mbindM_Ok _ _ _ _ _ E1). change BSIZE with 512.
  rewrite sector_run by (first [apply (vo_len _ Hv)|lia]).
  set (bs1 := run _ (512 * sec + off mod 512) m). assert (Z.of_nat (length bs1) = m) as Lb by (apply length_run; lia).
  destruct (deliver_spec pl N (base + tot) bs1 (with_fat f1 s)) as (u1 & E2 & Hd2 & Hdel); [done|lia|intros E0; rewrite E0 in Lb; simpl in Lb; lia|lia|].
  rewrite (mbindM_Ok _ _ _ _ _ E2). change (0 =? -1) with false. cbv iota.
  replace (n - tot) with (m + (n - (tot + m))) by lia. rewrite run_app by lia.
  destruct (IH (u32 (sec + 1)) (off + m) (tot + m) (acc ++ bs1) (with_mem u1 (with_fat f1 s)))
    as (f' & u' & E3 & [V3 G3 C3 B3] & Hd3 & Hdel3); [done|done|..].
  1-7: pose proof (Z.mod_pos_bound (sec + 1) (2 ^ 32)); unfold u32 in *; lia.
  exists f', u'. rewrite E3. cbn [v_fat v_mem v_ent v_nxt v_prv with_mem with_fat] in *.
  assert (run (dbyte (dsk f1)) (512 * u32 (sec + 1) + (off + m) mod 512) (n - (tot + m)) =
          run (dbyte (dsk (v_fat s))) (512 * sec + off mod 512 + m) (n - (tot + m))) as Er.
  { destruct Hpos as [Hp| ->]; [by replace (n - (tot + m)) with 0 by lia|]. by apply run_ext. }
  rewrite Er in *. split_and!; [by rewrite app_assoc|split; [done|congruence|congruence|]|done|].
  - intros x. by rewrite B3, Hb.
  - apply (delivered_app pl (base + tot) bs1 _ _ u1); [exact Hdel|]. rewrite Lb, <- Z.add_assoc. done.
Qed.

(** The bytes after [n] bytes of [src] were written at [pos]. *)
Definition patch (b : Z → Z) (pos n : Z) (src : Z → Z) (x : Z) : Z :=
  if in_range pos n x then src (x - pos) else b x.
Lemma patch_app b pos m n src x :
  0 ≤ m → 0 ≤ n →
  patch (patch b pos m src) (pos + m) n (λ i, src (m + i)) x = patch b pos (m + n) src x.
Proof.
  intros Hm Hn. unfold patch, in_range.
  destruct (Z.leb_spec (pos + m) x), (Z.leb_spec pos x), (Z.ltb_spec x (pos + m + n)), (Z.ltb_spec x (pos + m)),
    (Z.ltb_spec x (pos + (m + n))); simpl; try lia; try done. f_equal. lia.
Qed.
Lemma patch_nil b pos src x : patch b pos 0 src x = b x.
Proof. unfold patch. by rewrite (proj2 (in_range_false _ _ x)) by lia. Qed.
Lemma patch_ext b b' pos n src src' x :
  (∀ x, b x = b' x) → (∀ i, 0 ≤ i < n → src i = src' i) → patch b pos n src x = patch b' pos n src' x.
Proof.
  intros Hb Hs. unfold patch. destruct (in_range pos n x) eqn:E; [|done]. apply in_range_true in E. apply Hs. lia.
Qed.

Lemma rw_loop_write fuel pl base N sec off tot n acc s :
  vol_ok (v_fat s) → src_ok (v_mem s) pl N → 0 ≤ sec → 0 ≤ off → 0 ≤ tot ≤ n → 0 ≤ base → base + n ≤ N → n - tot ≤ Z.of_nat fuel →
  (tot < n → 512 * sec + off mod 512 + (n - tot) ≤ 512 * NO_SECTOR) →
  ∃ f' u', rw_loop fuel true pl base sec off tot n acc s = Ok (n, acc) (with_mem u' (with_fat f' s)) ∧
    fat_upd (v_fat s) f' (patch (dbyte (dsk (v_fat s))) (512 * sec + off mod 512) (n - tot)
                            (λ i, src_byte (v_mem s) pl (base + tot + i))) ∧
    src_ok u' pl N ∧ ∀ i, src_byte u' pl i = src_byte (v_mem s) pl i.
Proof.
  revert sec off tot acc s. induction fuel as [|fuel IH]; intros sec off tot acc s Hv Hd Hs Ho Ht Hba HnN Hf Hlim.
  all: cbn [rw_loop]; destruct (Z.ltb_spec tot n) as [Hlt|Hge]; [try lia; try specialize (Hlim Hlt)|].
  1, 3: replace (n - tot) with 0 by lia; exists (v_fat s), (v_mem s); split;
    [replace n with tot by lia; by destruct s|]; split; [split; [done..|]; intros x; by rewrite patch_nil|done].
  fold (round_size off (n - tot)). set (m := round_size off (n - tot)).
  pose proof (Z.mod_pos_bound off 512 ltac:(lia)) as Hmod0.
  destruct (round_facts off (n - tot) sec) as (Hmod & Hm & Hm5 & Hpos); [lia..|]. fold m in Hm, Hm5, Hpos.
  cbv zeta. destruct (fetch_spec pl N (base + tot) m s Hd) as (u1 & E1 & Hs1 & Hu1); [lia..|].
  rewrite (mbindM_Ok _ _ _ _ _ E1). cbn [fst snd]. change (0 =? -1) with false. cbv iota.
  set (bs := run (src_byte (v_mem s) pl) (base + tot) m). assert (Z.of_nat (length bs) = m) as Lb by (apply length_run; lia).
  destruct (fat_op_sector sec (λ d, Some (list_inserts (Z.to_nat (off mod BSIZE)) bs d)) (with_mem u1 s))
    as (f1 & E2 & Hv1 & Eg1 & Ec1 & Hx1); [done|lia|intros d d' [= <-]; apply length_inserts|].
  rewrite (mbindM_Ok _ _ _ _ _ E2). unfold with_mem, with_fat in *. cbn [v_fat v_mem v_ent v_nxt v_prv with_mem with_fat from_option] in *. unfold id in Hx1.
  assert (∀ x, dbyte (dsk f1) x = patch (dbyte (dsk (v_fat s))) (512 * sec + off mod 512) m
    (λ i, src_byte (v_mem s) pl (base + tot + i)) x) as Hb.
  { intros x. rewrite (dbyte_write (dsk (v_fat s)) (dsk f1) sec (off mod 512) bs x (vo_len _ Hv sec)) by (try done; lia).
    unfold patch. rewrite Lb. destruct (in_range _ m x) eqn:Er; [|done]. apply in_range_true in Er.
    unfold bs. rewrite nth_run by lia. f_equal. }
  destruct (IH (u32 (sec + 1)) (off + m) (tot + m) acc (Vfs f1 u1 (v_ent s) (v_nxt s) (v_prv s)))
    as (f' & u' & E3 & [V3 G3 C3 B3] & Hs3 & Hu3); [done|done|..].
  1-7: pose proof (Z.mod_pos_bound (sec + 1) (2 ^ 32)); unfold u32 in *; lia.
  exists f', u'. rewrite E3. cbn [v_fat v_mem v_ent v_nxt v_prv with_mem with_fat] in *.
  split_and!; [done|split; [done|congruence|congruence|]|done|intros i; by rewrite Hu3].
  intros x. rewrite B3. replace (n - tot) with (m + (n - (tot + m))) by lia. rewrite <- patch_app by lia.
  destruct Hpos as [Hp| ->].
  - replace (n - (tot + m)) with 0 by lia. by rewrite !patch_nil.
  - apply patch_ext; [done|]. intros i Hi. rewrite Hu1. f_equal. lia.
Qed.

(** ** Clusters *)

Record fgeo_ok (g : geometry) : Prop := {
  fg_geo : geo_ok g;
  fg_bpc : byts_per_clus g = 512 * sec_per_clus g;
  fg_spc : sec_per_clus g ≤ 255 }.
Definition clus_base (g : geometry) (c : Z) : Z := 512 * clus_sec g c.
Definition data_clus (g : geometry) (c : Z) : Prop := 2 ≤ c ≤ data_clus_cnt g + 1.

Lemma clus_range g c :
  geo_ok g → data_clus g c →
  first_sec_of_clus g c = clus_sec g c ∧ first_data_sec g ≤ clus_sec g c ∧
  clus_sec g c + sec_per_clus g ≤ NO_SECTOR ∧ 0 < first_data_sec g.
Proof.
  intros [] Hc. unfold data_clus, first_sec_of_clus, clus_sec, u32, NO_SECTOR, FAT32_EOC in *.
  rewrite (Z.mod_small (c - 2)) by lia. rewrite Z.mod_small by nia. split_and!; nia.
Qed.

(** Where [rw_clus] starts. *)
Lemma clus_start g c off n :
  fgeo_ok g → data_clus g c → 0 ≤ off → 0 ≤ n → off + n ≤ byts_per_clus g →
  let sec := u32 (first_sec_of_clus g c + off / byts_per_sec g) in
  (byts_per_clus g <? u32 (off + n)) = false ∧ off mod byts_per_sec g = off mod 512 ∧ 0 ≤ off mod 512 ∧ 0 ≤ sec ∧
  (0 < n → 512 * sec + (off mod 512) mod 512 = clus_base g c + off ∧ clus_base g c + off + n ≤ 512 * NO_SECTOR).
Proof.
  intros [Hg Hb Hsp] Hc Ho Hn Hon sec. destruct (clus_range _ c Hg Hc) as (Hf & Hd0 & Hl & Hp).
  unfold sec. rewrite Hf, (go_bps _ Hg). change BSIZE with 512.
  pose proof (Z.div_mod off 512 ltac:(lia)). pose proof (Z.mod_pos_bound off 512 ltac:(lia)).
  pose proof (Z.div_pos off 512 Ho ltac:(lia)).
  pose proof (Z.mod_pos_bound (clus_sec g c + off / 512) (2 ^ 32) ltac:(lia)).
  split; [|split; [done|split; [lia|split; [unfold u32; lia|]]]].
  - apply Z.ltb_ge. unfold u32. rewrite Z.mod_small; lia.
  - intros Hn'. rewrite Z.mod_mod by lia. unfold u32. rewrite Z.mod_small by (unfold NO_SECTOR in *; lia).
    unfold clus_base, NO_SECTOR in *. lia.
Qed.

Lemma rw_clus_read c pl base N off n s :
  vol_ok (v_fat s) → fgeo_ok (geo (v_fat s)) → data_clus (geo (v_fat s)) c → dst_ok (v_mem s) pl N →
  0 ≤ base → base + n ≤ N → 0 ≤ off → 0 ≤ n → off + n ≤ byts_per_clus (geo (v_fat s)) →
  let bs := run (dbyte (dsk (v_fat s))) (clus_base (geo (v_fat s)) c + off) n in
  ∃ f' u', rw_clus c false pl base off n s = Ok (n, bs) (with_mem u' (with_fat f' s)) ∧
    fat_upd (v_fat s) f' (dbyte (dsk (v_fat s))) ∧ dst_ok u' pl N ∧ delivered pl base bs (v_mem s) u'.
Proof.
  intros Hv Hg Hc Hd Hba HN Ho Hn Hon bs. unfold rw_clus, mbindM at 1, get_geo, gets at 1.
  destruct (clus_start _ c off n Hg Hc Ho Hn Hon) as (-> & -> & Hm & Hs & Hp).
  set (sec := u32 _) in *.
  destruct (rw_loop_read (Z.to_nat n) pl base N sec (off mod 512) 0 n [] s) as (f' & u' & E & Hu' & Hdst & Hdel);
    [done|done|lia..|]. rewrite Z.sub_0_r, Z.add_0_r in *.
  assert (run (dbyte (dsk (v_fat s))) (512 * sec + (off mod 512) mod 512) n = bs) as Eb.
  { destruct (decide (n = 0)) as [->|]; [done|]. unfold bs. f_equal. lia. }
  rewrite Eb in *. by exists f', u'.
Qed.

Lemma rw_clus_write c pl base N off n s :
  vol_ok (v_fat s) → fgeo_ok (geo (v_fat s)) → data_clus (geo (v_fat s)) c → src_ok (v_mem s) pl N →
  0 ≤ base → base + n ≤ N → 0 ≤ off → 0 ≤ n → off + n ≤ byts_per_clus (geo (v_fat s)) →
  ∃ f' u', rw_clus c true pl base off n s = Ok (n, []) (with_mem u' (with_fat f' s)) ∧
    fat_upd (v_fat s) f' (patch (dbyte (dsk (v_fat s))) (clus_base (geo (v_fat s)) c + off) n
                            (λ i, src_byte (v_mem s) pl (base + i))) ∧
    src_ok u' pl N ∧ ∀ i, src_byte u' pl i = src_byte (v_mem s) pl i.
Proof.
  intros Hv Hg Hc Hd Hba HN Ho Hn Hon. unfold rw_clus, mbindM at 1, get_geo, gets at 1.
  destruct (clus_start _ c off n Hg Hc Ho Hn Hon) as (-> & -> & Hm & Hs & Hp).
  set (sec := u32 _) in *.
  destruct (rw_loop_write (Z.to_nat n) pl base N sec (off mod 512) 0 n [] s) as (f' & u' & E & [A B C F] & Hsok & Hsrc);
    [done|done|lia..|].
  exists f', u'. split; [done|]. split; [|done]. split; [done..|]. intros x. rewrite F, Z.sub_0_r.
  destruct (decide (n = 0)) as [->|]; [by rewrite !patch_nil|].
  destruct Hp as [-> _]; [lia|]. apply patch_ext; [done|]. intros i _. by rewrite Z.add_0_r.
Qed.

(** ** Chains *)

(** The clusters of a file in order, as the FAT links them. *)
Definition linked (f : fatfs D) (l : list Z) : Prop :=
  ∀ i c, l !! i = Some c → data_clus (geo f) c ∧
    match l !! S i with Some c' => fat_entry f c = c' | None => FAT32_EOC ≤ fat_entry f c < 2 ^ 31 end.

(** Only sectors of the FAT are in the FAT cache. *)
Definition cached_fat (f : fatfs D) : Prop :=
  ∀ i, 0 ≤ i < FAT_CACHE_SIZE → fc_sector (cache f) i ≠ NO_SECTOR → fc_sector (cache f) i < first_data_sec (geo f).

(** A mounted volume with the chain [l] on it. *)
Record file_ok (f : fatfs D) (l : list Z) : Prop := {
  fk_fs : fs_ok f;
  fk_geo : fgeo_ok (geo f);
  fk_cached : cached_fat f;
  fk_linked : linked f l;
  fk_nodup : NoDup l }.

(** Same geometry and sectors; only the FAT cache may differ. *)
Definition same_disk (f f' : fatfs D) : Prop :=
  geo f' = geo f ∧ ∀ n, sector_of (dsk f') n = sector_of (dsk f) n.

Lemma same_disk_entry f f' c : same_disk f f' → fat_entry f' c = fat_entry f c.
Proof. intros [Hg Hs]. unfold fat_entry. by rewrite Hg, Hs. Qed.
Lemma same_disk_linked f f' l : same_disk f f' → linked f l → linked f' l.
Proof.
  intros Hs Hl i c Hi. rewrite (same_disk_entry f f' c Hs), (proj1 Hs). by apply Hl.
Qed.
Lemma same_disk_trans f f' f'' : same_disk f f' → same_disk f' f'' → same_disk f f''.
Proof. intros [? H1] [? H2]. split; [congruence|]. intros n. by rewrite H2. Qed.

Lemma fat_cache_add_sector sector data c :
  ∃ e, fc_sector (fat_cache_add sector data c) = upd (fc_sector c) e sector.
Proof.
  unfold fat_cache_add. destruct (first_id _ fc_ids) as [e|].
  - exists e. by destruct (list_ops_contents e (fc_store e sector data c)) as (_ & _ & -> & _).
  - exists (fc_tail c). set (t := fc_tail c).
    destruct (list_ops_contents t (fc_store t sector data (fat_cache_remove_from_list t c))) as (_ & _ & -> & _).
    simpl. by destruct (list_ops_contents t c) as (-> & _).
Qed.
Lemma fat_cache_lookup_sector sector c : fc_sector (snd (fat_cache_lookup sector c)) = fc_sector c.
Proof. unfold fat_cache_lookup. destruct (first_id _ _) as [e|]; [|done]. apply (touch_contents e c). Qed.

Lemma read_fat_cached c f v f' :
  geo_ok (geo f) → 0 ≤ c → cached_fat f → read_fat c f = Ok v f' → cached_fat f'.
Proof.
  intros Hg H0 Hc. unfold read_fat, mbindM at 1, gets at 1. rewrite last_clus by done.
  destruct (FAT32_EOC <=? c); [by intros [= _ <-]|].
  destruct (Z.ltb_spec (data_clus_cnt (geo f) + 1) c); [by intros [= _ <-]|].
  destruct (data_entry (geo f) c Hg ltac:(lia)) as (-> & -> & Hr & _). cbv zeta.
  unfold mbindM at 1, gets at 1, mbindM at 1, on_cache at 1, modify at 1.
  destruct (fst (fat_cache_lookup _ _)) as [e|].
  - unfold gets. intros [= _ <-] i Hi. cbn [cache geo]. rewrite fat_cache_lookup_sector. by apply Hc.
  - unfold mbindM, disk_op, zoom. destruct (with_sector _ _ _) as [data d|]; [|done].
    unfold on_cache, modify, mretM. cbn [cache geo dsk]. intros [= _ <-] i Hi. cbn [cache geo].
    destruct (fat_cache_add_sector (ent_sec (geo f) c) data (snd (fat_cache_lookup (ent_sec (geo f) c) (cache f)))) as (e & ->).
    rewrite fat_cache_lookup_sector. unfold upd. destruct (i =? e); [intros _; lia|by apply Hc].
Qed.

(** Following one link. *)
Lemma read_link f l i c :
  file_ok f l → l !! i = Some c →
  ∃ f', read_fat c f = Ok (fat_entry f c) f' ∧ file_ok f' l ∧ same_disk f f'.
Proof.
  intros [Hf Hg Hc Hl Hn] Hi. destruct (Hl i c Hi) as [Hd _]. unfold data_clus in Hd.
  destruct (read_fat_spec f c Hf ltac:(lia)) as (f' & E & Hf' & Eg & Hs). pose proof (go_cnt _ (fg_geo _ Hg)).
  rewrite (proj2 (Z.leb_gt FAT32_EOC c)), (proj2 (Z.ltb_ge _ c)) in E by lia.
  exists f'. split; [done|]. assert (same_disk f f') as Hsd by (by split). split; [|done].
  split; [done|by rewrite Eg|by apply (read_fat_cached c f _ f' (fg_geo _ Hg) ltac:(lia) Hc E)|by apply (same_disk_linked f)|done].
Qed.

Lemma chain_length f l : geo_ok (geo f) → linked f l → NoDup l → Z.of_nat (length l) ≤ data_clus_cnt (geo f).
Proof.
  intros Hg Hl Hn. pose proof (go_cnt _ Hg).
  assert (length l ≤ length (seqZ 2 (data_clus_cnt (geo f))))%nat as Hle.
  { apply NoDup_incl_length; [by apply NoDup_ListNoDup|]. intros c Hc%list_elem_of_In.
    apply list_elem_of_lookup in Hc as [i Hi]. destruct (Hl i c Hi) as [Hd _]. unfold data_clus in Hd.
    apply list_elem_of_In, elem_of_seqZ. lia. }
  rewrite length_seqZ in Hle. lia.
Qed.
Lemma next_link f l i c c' :
  file_ok f l → l !! i = Some c → l !! S i = Some c' →
  fat_entry f c = c' ∧ i32 c' = c' ∧ 0 ≤ c' < FAT32_EOC.
Proof.
  intros Hf Hi Hi'. destruct (fk_linked _ _ Hf i c Hi) as [_ He]. rewrite Hi' in He.
  destruct (fk_linked _ _ Hf (S i) c' Hi') as [Hd _]. unfold data_clus in Hd.
  pose proof (go_cnt _ (fg_geo _ (fk_geo _ _ Hf))). split; [done|]. split; [|lia].
  apply i32_small. unfold FAT32_EOC in *. lia.
Qed.

(** The entry sits at a cluster of its chain. *)
Record at_chain (x : dirent) (l : list Z) : Prop := {
  ac_first : l !! 0%nat = Some (first_clus x);
  ac_cnt : 0 ≤ clus_cnt x;
  ac_cur : l !! Z.to_nat (clus_cnt x) = Some (cur_clus x) }.

(** Only the position of entry [e] and the FAT cache changed. *)
Record moved (s s' : vfs D U) (e c k : Z) (l : list Z) : Prop := {
  mv_file : file_ok (v_fat s') l;
  mv_disk : same_disk (v_fat s) (v_fat s');
  mv_mem : v_mem s' = v_mem s;
  mv_nxt : v_nxt s' = v_nxt s;
  mv_prv : v_prv s' = v_prv s;
  mv_ent : ∀ i, v_ent s' i = if i =? e then set_pos c k (v_ent s e) else v_ent s i }.

Lemma set_pos_id x : set_pos (cur_clus x) (clus_cnt x) x = x.
Proof. by destruct x. Qed.
Lemma set_pos_pos a b c d x : set_pos a b (set_pos c d x) = set_pos a b x.
Proof. by destruct x. Qed.
Lemma moved_refl s e l :
  file_ok (v_fat s) l → moved s s e (cur_clus (v_ent s e)) (clus_cnt (v_ent s e)) l.
Proof.
  intros Hf. split; try done. intros i. rewrite set_pos_id. by destruct (Z.eqb_spec i e) as [->|].
Qed.
Lemma moved_trans s s' s'' e c k c' k' l : moved s s' e c k l → moved s' s'' e c' k' l → moved s s'' e c' k' l.
Proof.
  intros [A1 B1 C1 D1 E1 F1] [A2 B2 C2 D2 E2 F2]. split; try congruence; [by apply (same_disk_trans _ (v_fat s'))|].
  intros i. rewrite F2, !F1, Z.eqb_refl, set_pos_pos. by destruct (i =? e).
Qed.

(** One step along the chain. *)
Definition step_to (e c k : Z) (s : vfs D U) (f : fatfs D) : vfs D U :=
  Vfs f (v_mem s) (upd (v_ent s) e (set_pos c k (v_ent s e))) (v_nxt s) (v_prv s).
Lemma step_moved s f e c k l :
  file_ok f l → same_disk (v_fat s) f → moved s (step_to e c k s f) e c k l.
Proof.
  intros Hf Hd. by split.
Qed.

Lemma chain_step f x l :
  file_ok f l → at_chain x l → (S (Z.to_nat (clus_cnt x)) < length l)%nat →
  ∃ c' f', read_fat (cur_clus x) f = Ok c' f' ∧ file_ok f' l ∧ same_disk f f' ∧ i32 c' = c' ∧
    0 ≤ c' < FAT32_EOC ∧ u32 (clus_cnt x + 1) = clus_cnt x + 1 ∧ at_chain (set_pos c' (clus_cnt x + 1) x) l.
Proof.
  intros Hf [A1 A2 A3] Hn. destruct (lookup_lt_is_Some_2 l (S (Z.to_nat (clus_cnt x)))) as [c' Hc']; [lia|].
  destruct (read_link _ _ _ _ Hf A3) as (f' & E & Hf' & Hd).
  destruct (next_link _ _ _ _ _ Hf A3 Hc') as (He & Hi & Hb).
  pose proof (chain_length _ _ (fg_geo _ (fk_geo _ _ Hf)) (fk_linked _ _ Hf) (fk_nodup _ _ Hf)).
  pose proof (go_cnt _ (fg_geo _ (fk_geo _ _ Hf))).
  exists c', f'. rewrite E, He. split; [done|]. split; [done|]. split; [done|]. split; [done|]. split; [done|]. split.
  - unfold u32. apply Z.mod_small. unfold FAT32_EOC in *. lia.
  - split; [done|simpl; lia|]. simpl. by replace (Z.to_nat (clus_cnt x + 1)) with (S (Z.to_nat (clus_cnt x))) by lia.
Qed.

(** [n] more rounds after a first one. *)
Definition reaches (s s' : vfs D U) (e : Z) (n : nat) (l : list Z) : Prop :=
  ∃ c, l !! (Z.to_nat (clus_cnt (v_ent s e)) + n)%nat = Some c ∧
    moved s s' e c (clus_cnt (v_ent s e) + Z.of_nat n) l.
Lemma reaches_0 s e l : file_ok (v_fat s) l → at_chain (v_ent s e) l → reaches s s e 0 l.
Proof.
  intros Hf [A1 A2 A3]. exists (cur_clus (v_ent s e)). rewrite Nat.add_0_r, Z.add_0_r. split; [done|by apply moved_refl].
Qed.
Lemma reaches_S s s1 s' e c n l :
  0 ≤ clus_cnt (v_ent s e) → moved s s1 e c (clus_cnt (v_ent s e) + 1) l → reaches s1 s' e n l → reaches s s' e (S n) l.
Proof.
  intros H0 Hm (c' & Hc & Hm'). pose proof (mv_ent _ _ _ _ _ _ Hm e) as Hx. rewrite Z.eqb_refl in Hx.
  rewrite Hx in Hc, Hm'. simpl in Hc, Hm'. exists c'. split.
  - rewrite <- Hc. f_equal. lia.
  - replace (clus_cnt (v_ent s e) + Z.of_nat (S n)) with (clus_cnt (v_ent s e) + 1 + Z.of_nat n) by lia.
    by apply (moved_trans s s1 s' e c (clus_cnt (v_ent s e) + 1)).
Qed.

Lemma reloc_forward_spec n e alloc l s :
  file_ok (v_fat s) l → at_chain (v_ent s e) l → (Z.to_nat (clus_cnt (v_ent s e)) + n < length l)%nat →
  ∃ s', reloc_forward n e alloc s = Ok true s' ∧ reaches s s' e n l.
Proof.
  revert s. induction n as [|n IH]; intros s Hf Ha Hn; [exists s; split; [done|by apply reaches_0]|].
  destruct (chain_step _ _ _ Hf Ha ltac:(lia)) as (c' & f' & E & Hf' & Hd & Hi & Hb & Hu & Ha').
  cbn [reloc_forward]. unfold mbindM at 1, get_ent, gets at 1.
  unfold mbindM at 1, fat_op, zoom. rewrite E, Hi, Hu, (proj2 (Z.leb_gt FAT32_EOC c')) by lia.
  unfold mbindM at 1, on_ent at 1, modify at 1. cbn [v_fat v_mem v_ent v_nxt v_prv].
  fold (step_to e c' (clus_cnt (v_ent s e) + 1) s f'). set (s1 := step_to e c' (clus_cnt (v_ent s e) + 1) s f').
  assert (v_ent s1 e = set_pos c' (clus_cnt (v_ent s e) + 1) (v_ent s e)) as Hx1 by (simpl; apply upd_eq).
  pose proof (ac_cnt _ _ Ha).
  destruct (IH s1) as (s' & E' & Hr); [done|by rewrite Hx1|rewrite Hx1; simpl; lia|].
  exists s'. split; [done|]. apply (reaches_S s s1 s' e c'); [done|by apply step_moved|done].
Qed.

Lemma reloc_again_spec n e l s :
  file_ok (v_fat s) l → at_chain (v_ent s e) l → (Z.to_nat (clus_cnt (v_ent s e)) + n < length l)%nat →
  ∃ s', reloc_again n e s = Ok tt s' ∧ reaches s s' e n l.
Proof.
  revert s. induction n as [|n IH]; intros s Hf Ha Hn; [exists s; split; [done|by apply reaches_0]|].
  destruct (chain_step _ _ _ Hf Ha ltac:(lia)) as (c' & f' & E & Hf' & Hd & Hi & Hb & Hu & Ha').
  cbn [reloc_again]. unfold mbindM at 1, get_ent, gets at 1.
  unfold mbindM at 1, fat_op, zoom. rewrite E, Hu.
  unfold mbindM at 1, on_ent at 1, modify at 1. rewrite (proj2 (Z.leb_gt FAT32_EOC c')) by lia.
  unfold mbindM at 1, on_ent at 1, modify at 1. cbn [v_fat v_mem v_ent v_nxt v_prv]. rewrite upd_eq.
  fold (set_pos c' (clus_cnt (v_ent s e) + 1) (v_ent s e)). set (s1 := Vfs _ _ _ _ _).
  assert (v_ent s1 e = set_pos c' (clus_cnt (v_ent s e) + 1) (v_ent s e)) as Hx1 by (simpl; apply upd_eq).
  assert (moved s s1 e c' (clus_cnt (v_ent s e) + 1) l) as Hm1.
  { split; try done. intros i. simpl. unfold upd. by destruct (Z.eqb_spec i e) as [->|]. }
  pose proof (ac_cnt _ _ Ha).
  destruct (IH s1) as (s' & E' & Hr); [done|by rewrite Hx1|rewrite Hx1; simpl; lia|].
  exists s'. split; [done|]. by apply (reaches_S s s1 s' e c').
Qed.

(** [reloc_clus] to an offset inside the chain. *)
Lemma reloc_clus_spec e off alloc l s :
  file_ok (v_fat s) l → at_chain (v_ent s e) l → 0 ≤ off →
  off < Z.of_nat (length l) * byts_per_clus (geo (v_fat s)) →
  let k := off / byts_per_clus (geo (v_fat s)) in
  ∃ s' c, reloc_clus e off alloc s = Ok (off mod byts_per_clus (geo (v_fat s))) s' ∧
    l !! Z.to_nat k = Some c ∧ moved s s' e c k l ∧ at_chain (v_ent s' e) l.
Proof.
  intros Hf Ha Ho Hoff k. pose proof (fk_geo _ _ Hf) as [Hg Hb Hsp]. pose proof (go_spc _ Hg).
  assert (0 ≤ k) as Hk0 by (apply Z.div_pos; lia).
  assert (k < Z.of_nat (length l)) as Hk by (apply Z.div_lt_upper_bound; lia).
  unfold reloc_clus, mbindM at 1, get_geo, gets at 1, mbindM at 1, get_ent at 1, gets at 1. cbv zeta. fold k.
  pose proof Ha as [A1 A2 A3]. pose proof (lookup_lt_Some _ _ _ A3).
  destruct (reloc_forward_spec (Z.to_nat (k - clus_cnt (v_ent s e))) e alloc l s) as (s1 & E1 & c1 & Hc1 & Hm1); [done|done|lia|].
  rewrite (mbindM_Ok _ _ _ _ _ E1). cbn [negb]. unfold mbindM at 1, get_ent, gets at 1.
  pose proof (mv_ent _ _ _ _ _ _ Hm1 e) as Hx1. rewrite Z.eqb_refl in Hx1. rewrite Hx1. cbn [clus_cnt set_pos set_clus_cnt].
  assert (∀ s' c, l !! Z.to_nat k = Some c → moved s s' e c k l → at_chain (v_ent s' e) l) as Hac.
  { intros s' c Hc Hm. rewrite (mv_ent _ _ _ _ _ _ Hm e), Z.eqb_refl. by split. }
  destruct (Z.ltb_spec k (clus_cnt (v_ent s e) + Z.of_nat (Z.to_nat (k - clus_cnt (v_ent s e))))) as [Hlt|Hge].
  - set (s2 := step_to e (first_clus (v_ent s1 e)) 0 s1 (v_fat s1)).
    assert (moved s1 s2 e (first_clus (v_ent s1 e)) 0 l) as Hm2 by (apply step_moved; [apply Hm1|by split]).
    assert (v_ent s2 e = set_pos (first_clus (v_ent s e)) 0 (v_ent s e)) as Hx2.
    { simpl. by rewrite upd_eq, Hx1. }
    destruct (reloc_again_spec (Z.to_nat k) e l s2) as (s3 & E3 & c3 & Hc3 & Hm3).
    + apply Hm2.
    + rewrite Hx2. by split.
    + rewrite Hx2. simpl. lia.
    + rewrite Hx2 in Hc3, Hm3. simpl in Hc3, Hm3. rewrite Z2Nat.id in Hm3 by lia.
      assert (moved s s3 e c3 k l) as Hm.
      { eapply moved_trans; [exact Hm1|]. eapply moved_trans; [exact Hm2|exact Hm3]. }
      exists s3, c3. unfold mbindM at 1, on_ent at 1. unfold mbindM at 1, modify at 1.
      change (Vfs _ _ _ _ _) with s2. rewrite E3. split; [done|]. split; [done|]. split; [done|by apply (Hac s3 c3)].
  - assert (Z.to_nat (clus_cnt (v_ent s e)) + Z.to_nat (k - clus_cnt (v_ent s e)) = Z.to_nat k)%nat as Ek by lia.
    rewrite Ek in Hc1. replace (clus_cnt (v_ent s e) + Z.of_nat (Z.to_nat (k - clus_cnt (v_ent s e)))) with k in Hm1 by lia.
    exists s1, c1. split; [done|]. split; [done|]. split; [done|by apply (Hac s1 c1)].
Qed.

(** ** The bytes of a file *)

Definition fpos (g : geometry) (l : list Z) (i : Z) : Z :=
  clus_base g (nth (Z.to_nat (i / byts_per_clus g)) l 0) + i mod byts_per_clus g.
Definition fbyte (f : fatfs D) (l : list Z) (i : Z) : Z := dbyte (dsk f) (fpos (geo f) l i).

(** Inside one cluster the file is contiguous on the disk. *)
Lemma fpos_shift g l off c i :
  0 < byts_per_clus g → 0 ≤ off → l !! Z.to_nat (off / byts_per_clus g) = Some c →
  0 ≤ i → off mod byts_per_clus g + i < byts_per_clus g →
  fpos g l (off + i) = clus_base g c + off mod byts_per_clus g + i.
Proof.
  intros Hb Ho Hc Hi Hm. unfold fpos. set (b := byts_per_clus g) in *.
  pose proof (Z.div_mod off b ltac:(lia)) as E. pose proof (Z.mod_pos_bound off b Hb).
  replace (off + i) with (off mod b + i + off / b * b) by lia.
  rewrite Z.div_add, Z.mod_add, Z.div_small, Z.mod_small by lia. rewrite Z.add_0_l, nth_lookup, Hc. simpl. lia.
Qed.

(** Data written beyond the FAT leaves the chain and the FAT cache valid. *)
Lemma fat_upd_file f f' b l :
  file_ok f l → fat_upd f f' b → (∀ x, x < 512 * first_data_sec (geo f) → b x = dbyte (dsk f) x) → file_ok f' l.
Proof.
  intros [[Hv Hc] Hg Hcf Hl Hn] [Hv' Eg Ec Hb] Hx.
  assert (∀ n, n < first_data_sec (geo f) → sector_of (dsk f') n = sector_of (dsk f) n) as Hs.
  { intros n Hn'. apply sector_ext; [apply Hv|apply Hv'|]. intros x Hxn. rewrite Hb. apply Hx.
    Z.to_euclidean_division_equations. lia. }
  assert (∀ i, 0 ≤ i < FAT_CACHE_SIZE → fc_sector (cache f') i ≠ NO_SECTOR →
    fc_sector (cache f') i < first_data_sec (geo f')) as Hcf' by (rewrite Ec, Eg; apply Hcf).
  split.
  - split; [done|]. destruct Hc as (L & [F1 F2 F3 F4]). exists L. rewrite Ec. split; try done.
    intros i Hi. rewrite (F4 i Hi). symmetry. apply Hs. apply F2 in Hi as [Hi Hi']. by apply Hcf.
  - by rewrite Eg.
  - done.
  - intros i c Hi. rewrite Eg. destruct (Hl i c Hi) as [Hd He]. split; [done|].
    replace (fat_entry f' c) with (fat_entry f c); [done|]. unfold fat_entry. rewrite Eg, Hs; [done|].
    unfold data_clus in Hd. destruct (data_entry (geo f) c (fg_geo _ Hg) ltac:(lia)) as (_ & _ & ? & _). lia.
  - done.
Qed.

(** What a transfer leaves behind: the chain, the entry somewhere on it, the
    bytes of the disk as [b] says, nothing else. *)
Record io_post (s s' : vfs D U) (e : Z) (l : list Z) (b : Z → Z) : Prop := {
  ip_file : file_ok (v_fat s') l;
  ip_geo : geo (v_fat s') = geo (v_fat s);
  ip_byte : ∀ x, dbyte (dsk (v_fat s')) x = b x;
  ip_at : at_chain (v_ent s' e) l;
  ip_ent : ∃ c k, ∀ i, v_ent s' i = if i =? e then set_pos c k (v_ent s e) else v_ent s i;
  ip_links : v_nxt s' = v_nxt s ∧ v_prv s' = v_prv s }.

Lemma same_disk_byte f f' x : same_disk f f' → dbyte (dsk f') x = dbyte (dsk f) x.
Proof. intros [_ H]. unfold dbyte. by rewrite H. Qed.

Lemma moved_io s s' e c k l : moved s s' e c k l → at_chain (v_ent s' e) l → io_post s s' e l (dbyte (dsk (v_fat s))).
Proof.
  intros [A B C E F G] Hac. split; try done; [by apply B|intros x; by apply same_disk_byte|by exists c, k].
Qed.
Lemma io_post_trans s s' s'' e l b b' : io_post s s' e l b → io_post s' s'' e l b' → io_post s s'' e l b'.
Proof.
  intros [A1 B1 C1 D1 (c1 & k1 & E1) [F1 G1]] [A2 B2 C2 D2 (c2 & k2 & E2) [F2 G2]].
  split; try done; [congruence|..|split; congruence]. exists c2, k2. intros i.
  rewrite E2, !E1, Z.eqb_refl, set_pos_pos. by destruct (i =? e).
Qed.
Lemma fat_upd_io s f' u' e l b :
  file_ok (v_fat s) l → at_chain (v_ent s e) l → fat_upd (v_fat s) f' b →
  (∀ x, x < 512 * first_data_sec (geo (v_fat s)) → b x = dbyte (dsk (v_fat s)) x) →
  io_post s (with_mem u' (with_fat f' s)) e l b.
Proof.
  intros Hf Ha Hu Hx. pose proof (fat_upd_file _ _ _ _ Hf Hu Hx). destruct Hu as [A B C E]. split; try done.
  exists (cur_clus (v_ent s e)), (clus_cnt (v_ent s e)). intros i. rewrite set_pos_id.
  simpl. by destruct (Z.eqb_spec i e) as [->|].
Qed.

(** The size of one round of [eread] and [ewrite]. *)
Definition clus_round (g : geometry) (off left : Z) : Z :=
  if left <? byts_per_clus g - off mod byts_per_clus g then left else byts_per_clus g - off mod byts_per_clus g.
Lemma clus_round_facts g off left :
  0 < byts_per_clus g → 0 ≤ off → 0 < left →
  let m := clus_round g off left in
  0 ≤ off mod byts_per_clus g ∧ 0 < m ≤ left ∧ off mod byts_per_clus g + m ≤ byts_per_clus g.
Proof.
  intros Hb Ho Hl m. unfold m, clus_round. pose proof (Z.mod_pos_bound off (byts_per_clus g) Hb).
  destruct (Z.ltb_spec left (byts_per_clus g - off mod byts_per_clus g)); lia.
Qed.

Lemma bpc_pos g : fgeo_ok g → 0 < byts_per_clus g.
Proof. intros [Hg Hb _]. pose proof (go_spc _ Hg). lia. Qed.

Lemma io_read fuel e pl N l off tot n acc s :
  file_ok (v_fat s) l → at_chain (v_ent s e) l → dst_ok (v_mem s) pl N →
  0 ≤ tot ≤ n → n ≤ N → 0 ≤ off → off + (n - tot) < 2 ^ 32 →
  off + (n - tot) ≤ Z.of_nat (length l) * byts_per_clus (geo (v_fat s)) → n - tot ≤ Z.of_nat fuel →
  let bs := run (fbyte (v_fat s) l) off (n - tot) in
  ∃ s', io_loop fuel false e pl off tot n acc s = Ok (n, off + (n - tot), acc ++ bs) s' ∧
    io_post s s' e l (dbyte (dsk (v_fat s))) ∧ dst_ok (v_mem s') pl N ∧ delivered pl tot bs (v_mem s) (v_mem s').
Proof.
  revert off tot acc s. induction fuel as [|fuel IH]; intros off tot acc s Hf Ha Hd Ht HN Ho H32 Hlen Hfu; cbv zeta.
  all: assert (cur_clus (v_ent s e) < FAT32_EOC) as Hcur by
    (destruct (fk_linked _ _ Hf _ _ (ac_cur _ _ Ha)) as [Hx _]; unfold data_clus in Hx;
     pose proof (go_cnt _ (fg_geo _ (fk_geo _ _ Hf))); lia).
  all: cbn [io_loop]; unfold mbindM at 1, get_ent at 1, gets at 1; rewrite (proj2 (Z.ltb_lt _ _) Hcur); cbn [orb andb].
  all: destruct (Z.ltb_spec tot n) as [Hlt|Hge]; [try lia|].
  1, 3: replace (n - tot) with 0 by lia; exists s; split;
    [unfold run; simpl; rewrite app_nil_r, Z.add_0_r; by replace n with tot by lia|];
    split; [by eapply moved_io; [apply moved_refl|]|split; [done|apply delivered_nil]].
  pose proof (bpc_pos _ (fk_geo _ _ Hf)) as Hb.
  destruct (reloc_clus_spec e off false l s Hf Ha Ho) as (s1 & c & E1 & Hc & Hm1 & Ha1); [lia|].
  rewrite (mbindM_Ok _ _ _ _ _ E1). unfold mbindM at 1, get_geo, gets at 1, mbindM at 1, get_ent at 1, gets at 1.
  destruct Hm1 as [Hf1 Hsd Em En Ep Ee]. pose proof (proj1 Hsd) as Eg. rewrite Eg.
  assert (cur_clus (v_ent s1 e) = c) as -> by (rewrite Ee, Z.eqb_refl; done).
  fold (clus_round (geo (v_fat s)) off (n - tot)). set (m := clus_round (geo (v_fat s)) off (n - tot)). cbv zeta.
  destruct (clus_round_facts (geo (v_fat s)) off (n - tot) Hb Ho ltac:(lia)) as (Hm0 & Hm & Hmb). fold m in Hm, Hmb.
  assert (data_clus (geo (v_fat s1)) c) as Hdc by (apply (fk_linked _ _ Hf1 _ _ Hc)).
  destruct (rw_clus_read c pl tot N (off mod byts_per_clus (geo (v_fat s))) m s1) as (f2 & u2 & E2 & Hu2 & Hd2 & Hdel2);
    [apply Hf1|apply Hf1|done|by rewrite Em|lia..|by rewrite Eg|].
  rewrite (mbindM_Ok _ _ _ _ _ E2). cbn [fst snd]. rewrite Z.eqb_refl. cbn [negb].
  assert (run (dbyte (dsk (v_fat s1))) (clus_base (geo (v_fat s1)) c + off mod byts_per_clus (geo (v_fat s))) m =
          run (fbyte (v_fat s) l) off m) as Er.
  { apply (list_eq_same_length _ _ (Z.to_nat m)); [apply length_run_nat..|]. intros k x y Hk.
    rewrite !lookup_run by lia. intros [= <-] [= <-]. unfold fbyte.
    rewrite (fpos_shift _ _ _ c) by (done || lia). rewrite Eg, (same_disk_byte _ _ _ Hsd). done. }
  rewrite Er in *. set (s2 := with_mem u2 (with_fat f2 s1)) in *.
  assert (io_post s s2 e l (dbyte (dsk (v_fat s)))) as Hp2.
  { eapply io_post_trans; [by eapply moved_io; [by split|]|].
    destruct (fat_upd_io s1 f2 u2 e l (dbyte (dsk (v_fat s1))) Hf1 Ha1 Hu2 ltac:(done)) as [A B C F G K].
    split; try done. intros x. rewrite C. by apply same_disk_byte. }
  unfold u32. rewrite Z.mod_small by lia.
  destruct (IH (off + m) (tot + m) (acc ++ run (fbyte (v_fat s) l) off m) s2) as (s' & E3 & Hp3 & Hd3 & Hdel3);
    [apply Hp2|apply Hp2|done|lia..|rewrite (ip_geo _ _ _ _ _ Hp2); lia|lia|].
  assert (∀ i, fbyte (v_fat s2) l i = fbyte (v_fat s) l i) as Hfb.
  { intros i. unfold fbyte. by rewrite (ip_geo _ _ _ _ _ Hp2), (ip_byte _ _ _ _ _ Hp2). }
  rewrite (run_ext (fbyte (v_fat s2) l) (fbyte (v_fat s) l)) in E3, Hdel3 by (intros; apply Hfb).
  exists s'. replace (n - tot) with (m + (n - (tot + m))) by lia. rewrite run_app by lia. split; [|split_and!].
  - rewrite E3, app_assoc, Z.add_assoc. done.
  - eapply io_post_trans; [exact Hp2|]. destruct Hp3 as [A B C F G K]. split; try done.
    intros x. rewrite C. apply Hp2.
  - done.
  - apply (delivered_app pl tot _ _ _ u2); [by rewrite <- Em|]. rewrite length_run by lia. done.
Qed.

(** ** Writing *)

Definition in_file (g : geometry) (l : list Z) (i : Z) : Prop := 0 ≤ i < Z.of_nat (length l) * byts_per_clus g.

Lemma file_index g l i :
  fgeo_ok g → in_file g l i →
  ∃ c, l !! Z.to_nat (i / byts_per_clus g) = Some c ∧ 0 ≤ i mod byts_per_clus g < byts_per_clus g ∧
    fpos g l i = 512 * first_data_sec g + ((c - 2) * byts_per_clus g + i mod byts_per_clus g).
Proof.
  intros Hg Hi. pose proof (bpc_pos _ Hg) as Hb. unfold in_file in Hi.
  pose proof (Z.div_pos i _ ltac:(lia) Hb). pose proof (Z.div_lt_upper_bound i (byts_per_clus g) (Z.of_nat (length l)) Hb).
  destruct (lookup_lt_is_Some_2 l (Z.to_nat (i / byts_per_clus g))) as [c Hc]; [lia|].
  exists c. split; [done|]. split; [by apply Z.mod_pos_bound|].
  unfold fpos. rewrite nth_lookup, Hc. simpl. unfold clus_base, clus_sec. rewrite (fg_bpc _ Hg). lia.
Qed.

(** Different bytes of a file lie at different places. *)
Lemma fpos_inj f l i j :
  file_ok f l → in_file (geo f) l i → in_file (geo f) l j → fpos (geo f) l i = fpos (geo f) l j → i = j.
Proof.
  intros Hf Hi Hj E. pose proof (bpc_pos _ (fk_geo _ _ Hf)) as Hb.
  destruct (file_index _ _ _ (fk_geo _ _ Hf) Hi) as (c & Hc & Hr & Ei).
  destruct (file_index _ _ _ (fk_geo _ _ Hf) Hj) as (c' & Hc' & Hr' & Ej).
  set (b := byts_per_clus (geo f)) in *.
  assert ((c - 2) * b + i mod b = (c' - 2) * b + j mod b) as E' by lia.
  assert (c = c') as -> by nia.
  pose proof (NoDup_lookup _ _ _ _ (fk_nodup _ _ Hf) Hc Hc') as Ek.
  pose proof (Z.div_pos i b ltac:(unfold in_file in Hi; lia) Hb). pose proof (Z.div_pos j b ltac:(unfold in_file in Hj; lia) Hb).
  rewrite (Z.div_mod i b), (Z.div_mod j b) by lia. replace (i / b) with (j / b) by lia. lia.
Qed.
Lemma fpos_data f l i : file_ok f l → in_file (geo f) l i → 512 * first_data_sec (geo f) ≤ fpos (geo f) l i.
Proof.
  intros Hf Hi. destruct (file_index _ _ _ (fk_geo _ _ Hf) Hi) as (c & Hc & Hr & ->).
  destruct (fk_linked _ _ Hf _ _ Hc) as [Hd _]. unfold data_clus in Hd. pose proof (bpc_pos _ (fk_geo _ _ Hf)). nia.
Qed.

(** [n] bytes of the file from [off] became those of [src]; nothing else on the
    disk changed. *)
Record written (f f' : fatfs D) (l : list Z) (off n : Z) (src : Z → Z) : Prop := {
  wr_in : ∀ i, in_file (geo f) l i →
    fbyte f' l i = if in_range off n i then src (i - off) else fbyte f l i;
  wr_out : ∀ x, (∀ i, off ≤ i < off + n → fpos (geo f) l i ≠ x) → dbyte (dsk f') x = dbyte (dsk f) x }.

Lemma fwritten_nil f f' l off src :
  geo f' = geo f → (∀ x, dbyte (dsk f') x = dbyte (dsk f) x) → written f f' l off 0 src.
Proof.
  intros Eg Hb. split; [|done]. intros i _. rewrite (proj2 (in_range_false off 0 i)) by lia.
  unfold fbyte. by rewrite Eg, Hb.
Qed.
Lemma fwritten_app f f1 f2 l off m n src :
  geo f1 = geo f → 0 ≤ m → 0 ≤ n →
  written f f1 l off m src → written f1 f2 l (off + m) n (λ i, src (m + i)) → written f f2 l off (m + n) src.
Proof.
  intros Eg Hm Hn [I1 O1] [I2 O2]. rewrite Eg in *. split.
  - intros i Hi. rewrite I2, I1 by done. unfold in_range.
    destruct (Z.leb_spec (off + m) i), (Z.leb_spec off i), (Z.ltb_spec i (off + m + n)), (Z.ltb_spec i (off + m)),
      (Z.ltb_spec i (off + (m + n))); simpl; try lia; try done. f_equal. lia.
  - intros x Hx. rewrite O2 by (intros; apply Hx; lia). apply O1. intros; apply Hx; lia.
Qed.
(** One run inside a cluster. *)
Lemma written_run f f' l off c m src :
  file_ok f l → geo f' = geo f → 0 ≤ off → l !! Z.to_nat (off / byts_per_clus (geo f)) = Some c → 0 < m →
  off mod byts_per_clus (geo f) + m ≤ byts_per_clus (geo f) →
  (∀ x, dbyte (dsk f') x = patch (dbyte (dsk f)) (clus_base (geo f) c + off mod byts_per_clus (geo f)) m src x) →
  written f f' l off m src.
Proof.
  intros Hf Eg Ho Hc Hm Hmb Hp. pose proof (bpc_pos _ (fk_geo _ _ Hf)) as Hb.
  set (p := clus_base (geo f) c + off mod byts_per_clus (geo f)) in *.
  assert (∀ i, 0 ≤ i < m → fpos (geo f) l (off + i) = p + i) as Hsh.
  { intros i Hi. unfold p. apply fpos_shift; try done; lia. }
  assert (∀ i, off ≤ i < off + m → in_file (geo f) l i) as Hinf.
  { intros i Hi. unfold in_file. apply lookup_lt_Some in Hc. pose proof (Z.div_mod off (byts_per_clus (geo f)) ltac:(lia)).
    pose proof (Z.div_pos off _ Ho Hb). nia. }
  split.
  - intros i Hi. unfold fbyte. rewrite Eg, Hp. unfold patch. destruct (in_range off m i) eqn:Er.
    + apply in_range_true in Er. pose proof (Hsh (i - off) ltac:(lia)) as Hi'.
      replace (off + (i - off)) with i in Hi' by lia. rewrite Hi', (proj2 (in_range_true _ _ _)) by lia. f_equal. lia.
    + apply in_range_false in Er. rewrite (proj2 (in_range_false _ _ _)); [done|]. intros Hx. apply Er.
      assert (fpos (geo f) l (off + (fpos (geo f) l i - p)) = fpos (geo f) l i) as E by (rewrite Hsh; lia).
      apply (fpos_inj f l) in E; [lia|done|apply Hinf; lia|done].
  - intros x Hx. rewrite Hp. unfold patch. rewrite (proj2 (in_range_false _ _ _)); [done|]. intros Hr.
    apply (Hx (off + (x - p))); [lia|]. rewrite Hsh; lia.
Qed.

Definition bytes_now (s : vfs D U) : Z → Z := dbyte (dsk (v_fat s)).

Lemma io_write fuel e pl N l off tot n acc s :
  file_ok (v_fat s) l → at_chain (v_ent s e) l → src_ok (v_mem s) pl N →
  0 ≤ tot ≤ n → n ≤ N → 0 ≤ off → off + (n - tot) < 2 ^ 32 →
  off + (n - tot) ≤ Z.of_nat (length l) * byts_per_clus (geo (v_fat s)) → n - tot ≤ Z.of_nat fuel →
  ∃ s' acc', io_loop fuel true e pl off tot n acc s = Ok (n, off + (n - tot), acc') s' ∧
    io_post s s' e l (bytes_now s') ∧
    written (v_fat s) (v_fat s') l off (n - tot) (λ i, src_byte (v_mem s) pl (tot + i)).
Proof.
  revert off tot acc s. induction fuel as [|fuel IH]; intros off tot acc s Hf Ha Hd Ht HN Ho H32 Hlen Hfu.
  all: cbn [io_loop]; unfold mbindM at 1, get_ent at 1, gets at 1; cbn [orb andb].
  all: destruct (Z.ltb_spec tot n) as [Hlt|Hge]; [try lia|].
  1, 3: replace (n - tot) with 0 by lia; exists s, acc; split; [rewrite Z.add_0_r; by replace n with tot by lia|];
    split; [by eapply moved_io; [apply moved_refl|]|by apply fwritten_nil].
  pose proof (bpc_pos _ (fk_geo _ _ Hf)) as Hb.
  destruct (reloc_clus_spec e off true l s Hf Ha Ho) as (s1 & c & E1 & Hc & Hm1 & Ha1); [lia|].
  rewrite (mbindM_Ok _ _ _ _ _ E1). unfold mbindM at 1, get_geo, gets at 1, mbindM at 1, get_ent at 1, gets at 1.
  destruct Hm1 as [Hf1 Hsd Em En Ep Ee]. pose proof (proj1 Hsd) as Eg. rewrite Eg.
  assert (cur_clus (v_ent s1 e) = c) as -> by (rewrite Ee, Z.eqb_refl; done).
  fold (clus_round (geo (v_fat s)) off (n - tot)). set (m := clus_round (geo (v_fat s)) off (n - tot)). cbv zeta.
  destruct (clus_round_facts (geo (v_fat s)) off (n - tot) Hb Ho ltac:(lia)) as (Hm0 & Hm & Hmb). fold m in Hm, Hmb.
  assert (data_clus (geo (v_fat s1)) c) as Hdc by (apply (fk_linked _ _ Hf1 _ _ Hc)).
  destruct (rw_clus_write c pl tot N (off mod byts_per_clus (geo (v_fat s))) m s1) as (f2 & u2 & E2 & Hu2 & Hd2 & Hsrc);
    [apply Hf1|apply Hf1|done|by rewrite Em|lia..|by rewrite Eg|].
  rewrite (mbindM_Ok _ _ _ _ _ E2). cbn [fst snd]. rewrite Z.eqb_refl. cbn [negb].
  set (s2 := with_mem u2 (with_fat f2 s1)) in *. rewrite Eg, Em in Hu2. rewrite Em in Hsrc.
  assert (io_post s s2 e l (bytes_now s2)) as Hp2.
  { eapply io_post_trans; [by eapply moved_io; [by split|]|].
    destruct (fat_upd_io s1 f2 u2 e l _ Hf1 Ha1 Hu2) as [A B C F G K]; [|by split].
    intros x Hx. unfold patch. rewrite (proj2 (in_range_false _ _ x)); [done|]. unfold data_clus in Hdc. rewrite Eg in *.
    unfold clus_base, clus_sec. pose proof (fg_bpc _ (fk_geo _ _ Hf)). nia. }
  assert (written (v_fat s) (v_fat s2) l off m (λ i, src_byte (v_mem s) pl (tot + i))) as Hw2.
  { apply (written_run _ _ _ _ c); try done; [apply Hp2|lia|]. intros x. rewrite (fu_byte _ _ _ Hu2).
    apply patch_ext; [|done]. intros y. by apply same_disk_byte. }
  unfold u32. rewrite Z.mod_small by lia.
  destruct (IH (off + m) (tot + m) (acc ++ []) s2) as (s' & acc' & E3 & Hp3 & Hw3);
    [apply Hp2|apply Hp2|done|lia..|rewrite (ip_geo _ _ _ _ _ Hp2); lia|lia|].
  exists s', acc'. replace (n - tot) with (m + (n - (tot + m))) by lia. rewrite E3, Z.add_assoc. split; [done|]. split.
  - eapply io_post_trans; [exact Hp2|done].
  - apply (fwritten_app _ (v_fat s2)); [apply Hp2|lia|lia|done|]. destruct Hw3 as [I3 O3]. split; [|done].
    intros i Hi. rewrite I3 by done. destruct (in_range _ _ i); [|done].
    change (v_mem s2) with u2. rewrite Hsrc. f_equal. lia.
Qed.

(** ** Properties *)

(** What [eread] and [ewrite] need of the file behind entry [e]. *)
Record open_file (s : vfs D U) (e : Z) (l : list Z) : Prop := {
  of_file : file_ok (v_fat s) l;
  of_at : at_chain (v_ent s e) l;
  of_size : 0 ≤ file_size (v_ent s e) ≤ Z.of_nat (length l) * byts_per_clus (geo (v_fat s)) }.

Lemma eread_spec s e l pl off n :
  open_file s e l → has (attribute (v_ent s e)) ATTR_DIRECTORY = false →
  0 ≤ off ≤ file_size (v_ent s e) → 0 ≤ n → off + n < 2 ^ 32 → file_size (v_ent s e) < 2 ^ 31 →
  dst_ok (v_mem s) pl n →
  let k := Z.min n (file_size (v_ent s e) - off) in
  let bs := run (fbyte (v_fat s) l) off k in
  ∃ s', eread e pl off n s = Ok (k, bs) s' ∧ io_post s s' e l (bytes_now s) ∧ delivered pl 0 bs (v_mem s) (v_mem s').
Proof.
  intros [Hf Ha Hs] Hdir Ho Hn H32 Hsz Hd k bs. unfold eread, mbindM at 1, get_ent at 1, gets at 1. rewrite Hdir.
  cbv zeta. unfold u32. rewrite (Z.mod_small (off + n)) by lia.
  rewrite (proj2 (Z.ltb_ge (file_size _) off)), (proj2 (Z.ltb_ge (off + n) off)) by lia. cbn [orb].
  assert ((if file_size (v_ent s e) <? off + n then file_size (v_ent s e) - off else n) = k) as ->.
  { unfold k. destruct (Z.ltb_spec (file_size (v_ent s e)) (off + n)); lia. }
  destruct (io_read (Z.to_nat k) e pl n l off 0 k [] s) as (s' & E & Hp & _ & Hdel); [done|done|done|unfold k; lia..|].
  rewrite Z.sub_0_r in *. rewrite (mbindM_Ok _ _ _ _ _ E). exists s'. cbn [fst snd app].
  unfold mretM. rewrite i32_small by (unfold k; lia). done.
Qed.

(** [eread] returns exactly the bytes of the file: from any position, with
    any chain of clusters, it answers the number of bytes up to the end of the
    file or the count asked, delivers to the destination the bytes the chain
    holds at that offset and nothing else, and changes nothing on the disk. *)
Theorem eread_correct (s : vfs D U) (e : Z) (l : list Z) (pl : place) (off n : Z) :
  open_file s e l → has (attribute (v_ent s e)) ATTR_DIRECTORY = false →
  0 ≤ off ≤ file_size (v_ent s e) → 0 ≤ n → off + n < 2 ^ 32 → file_size (v_ent s e) < 2 ^ 31 →
  dst_ok (v_mem s) pl n →
  let k := Z.min n (file_size (v_ent s e) - off) in
  let bs := run (fbyte (v_fat s) l) off k in
  ∃ s', eread e pl off n s = Ok (k, bs) s' ∧ io_post s s' e l (bytes_now s) ∧ delivered pl 0 bs (v_mem s) (v_mem s').
Proof. apply eread_spec. Qed.

Lemma at_chain_ext x y l :
  first_clus y = first_clus x → clus_cnt y = clus_cnt x → cur_clus y = cur_clus x → at_chain x l → at_chain y l.
Proof. intros E1 E2 E3 [A B C]. split; congruence. Qed.

(** The entry after a write. *)
Record wrote_entry (now : rtc_time) (s s' : vfs D U) (e size : Z) : Prop := {
  we_size : file_size (v_ent s' e) = size;
  we_first : first_clus (v_ent s' e) = first_clus (v_ent s e);
  we_dirty : e_dirty (v_ent s' e) = 1;
  we_time : last_write_time (v_ent s' e) = rtc_to_fat32_time now ∧ last_write_date (v_ent s' e) = rtc_to_fat32_date now;
  we_name : filename (v_ent s' e) = filename (v_ent s e) ∧ attribute (v_ent s' e) = attribute (v_ent s e);
  we_os : e_lock (v_ent s' e) = e_lock (v_ent s e) ∧ e_ref (v_ent s' e) = e_ref (v_ent s e);
  we_other : ∀ i, i ≠ e → v_ent s' i = v_ent s i }.

Lemma ewrite_spec now s e l pl off n :
  open_file s e l → has (attribute (v_ent s e)) ATTR_READ_ONLY = false →
  0 ≤ off ≤ file_size (v_ent s e) → 0 < n < 2 ^ 31 → off + n < 2 ^ 32 →
  off + n ≤ Z.of_nat (length l) * byts_per_clus (geo (v_fat s)) → src_ok (v_mem s) pl n →
  ∃ s', ewrite now e pl off n s = Ok n s' ∧ open_file s' e l ∧ geo (v_fat s') = geo (v_fat s) ∧
    written (v_fat s) (v_fat s') l off n (src_byte (v_mem s) pl) ∧
    wrote_entry now s s' e (Z.max (file_size (v_ent s e)) (off + n)).
Proof.
  intros [Hf Ha Hs] Hro Ho Hn H32 Hlen Hd. unfold ewrite, mbindM at 1, get_ent at 1, gets at 1. rewrite Hro.
  unfold u32. rewrite (Z.mod_small (off + n)) by lia.
  rewrite (proj2 (Z.ltb_ge (file_size _) off)), (proj2 (Z.ltb_ge (off + n) off)), (proj2 (Z.ltb_ge (2 ^ 32 - 1) (off + n))) by lia.
  cbn [orb]. destruct (fk_linked _ _ Hf _ _ (ac_first _ _ Ha)) as [Hfc _]. unfold data_clus in Hfc.
  rewrite (proj2 (Z.eqb_neq (first_clus _) 0)) by lia. unfold mbindM at 1, mretM at 1.
  destruct (io_write (Z.to_nat n) e pl n l off 0 n [] s) as (s1 & acc' & E & Hp & Hw); [done|done|done|lia..|].
  rewrite Z.sub_0_r in *. rewrite (mbindM_Ok _ _ _ _ _ E). cbn [fst snd]. cbv zeta.
  rewrite (proj2 (Z.ltb_lt 0 n)) by lia. cbn [whenM]. unfold mbindM at 1, mbindM at 1, get_ent, gets at 1.
  destruct Hp as [Hf1 Eg1 _ Ha1 (c & k & Ee) _]. pose proof (Ee e) as Ee1. rewrite Z.eqb_refl in Ee1.
  assert (file_size (v_ent s1 e) = file_size (v_ent s e)) as Esz by (by rewrite Ee1).
  rewrite Esz. unfold mretM. rewrite (i32_small n) by lia.
  assert (∀ i, i ≠ e → v_ent s1 i = v_ent s i) as Hoth.
  { intros i Hi. by rewrite Ee, (proj2 (Z.eqb_neq _ _) Hi). }
  destruct (Z.ltb_spec (file_size (v_ent s e)) (off + n)) as [Hlt|Hge]; cbn [whenM];
    unfold mbindM, on_ent, modify, mretM; cbn [v_fat v_mem v_ent v_nxt v_prv]; eexists; (split; [done|]).
  - split; [|split; [done|split; [done|]]].
    + split; cbn [v_fat v_ent]; rewrite ?upd_eq; [done|by eapply at_chain_ext; [..|exact Ha1]|simpl; rewrite Eg1; lia].
    + split; cbn [v_ent]; rewrite ?upd_eq; simpl; rewrite ?Ee1; try done; [lia|]. intros i Hi. rewrite !upd_ne by done. by apply Hoth.
  - split; [|split; [done|split; [done|]]].
    + split; cbn [v_fat v_ent]; rewrite ?upd_eq; [done|by eapply at_chain_ext; [..|exact Ha1]|simpl; rewrite Esz, Eg1; lia].
    + split; cbn [v_ent]; rewrite ?upd_eq; simpl; rewrite ?Ee1; try done; [simpl; lia|]. intros i Hi. rewrite !upd_ne by done. by apply Hoth.
Qed.

(** [ewrite] inside the clusters of a file: it writes all [n] bytes, the
    file then holds the source bytes at the offset and its old bytes elsewhere,
    no other byte of the disk changes (the FAT, other files), the size grows to
    the end of the write and the modification stamp is set. *)
Theorem ewrite_correct (now : rtc_time) (s : vfs D U) (e : Z) (l : list Z) (pl : place) (off n : Z) :
  open_file s e l → has (attribute (v_ent s e)) ATTR_READ_ONLY = false →
  0 ≤ off ≤ file_size (v_ent s e) → 0 < n < 2 ^ 31 → off + n < 2 ^ 32 →
  off + n ≤ Z.of_nat (length l) * byts_per_clus (geo (v_fat s)) → src_ok (v_mem s) pl n →
  ∃ s', ewrite now e pl off n s = Ok n s' ∧ open_file s' e l ∧ geo (v_fat s') = geo (v_fat s) ∧
    written (v_fat s) (v_fat s') l off n (src_byte (v_mem s) pl) ∧
    wrote_entry now s s' e (Z.max (file_size (v_ent s e)) (off + n)).
Proof. apply ewrite_spec. Qed.


(** ** Truncation *)

Lemma fat_cache_update_sector sector data c i : fc_sector (fat_cache_update sector data c) i = fc_sector c i.
Proof.
  unfold fat_cache_update. destruct (first_id _ _) as [e|]; [|done].
  destruct (touch_contents e (fc_store e (fc_sector c e) data c)) as (-> & _). unfold fc_store, upd. cbn [fc_sector].
  by destruct (Z.eqb_spec i e) as [->|].
Qed.
Lemma write_fat_sectors c v (f : fatfs D) r f' i :
  write_fat c v f = Ok r f' → fc_sector (cache f') i = fc_sector (cache f) i.
Proof.
  unfold write_fat, mbindM at 1, gets at 1. destruct (u32 _ <? c); [by intros [= _ <-]|]. cbv zeta.
  unfold mbindM, disk_op, zoom. destruct (with_sector _ _ _) as [data d|]; [|done].
  unfold on_cache, modify, mretM. cbn [cache geo dsk]. intros [= _ <-]. apply fat_cache_update_sector.
Qed.

Lemma linked_tail f c l : linked f (c :: l) → linked f l.
Proof. intros H i x Hi. apply (H (S i) x Hi). Qed.

(** Freeing a cluster outside a chain keeps the chain. *)
Lemma free_clus_spec f c l :
  file_ok f (c :: l) →
  ∃ f', free_clus c f = Ok tt f' ∧ file_ok f' l ∧ geo f' = geo f ∧ fat_entry f' c = 0 ∧
    (∀ c', 0 ≤ c' → c' ≠ c → fat_entry f' c' = fat_entry f c') ∧
    ∀ n, first_data_sec (geo f) ≤ n → sector_of (dsk f') n = sector_of (dsk f) n.
Proof.
  intros [Hf Hg Hca Hl Hn]. destruct (Hl 0%nat c eq_refl) as [Hd _]. unfold data_clus in Hd.
  destruct (write_fat_spec f c 0 Hf ltac:(lia)) as (f' & E & Hf' & Eg & Hs).
  destruct (data_entry (geo f) c (fg_geo _ Hg) ltac:(lia)) as (_ & _ & Hr & _).
  destruct (entry_update f f' c 0 (proj1 Hf) ltac:(lia) Eg) as [He Ho]; [by rewrite Hs, Z.eqb_refl|].
  assert (∀ c', 0 ≤ c' → c' ≠ c → fat_entry f' c' = fat_entry f c') as Ho'.
  { intros c' H0 Hne. apply Ho; [done..|]. intros Hx. by rewrite Hs, (proj2 (Z.eqb_neq _ _) Hx). }
  exists f'. unfold free_clus. rewrite (mbindM_Ok _ _ _ _ _ E). split; [done|]. split; [|split; [done|split; [done|split; [done|]]]].
  - split; [done|by rewrite Eg|..].
    + intros i Hi. rewrite Eg, (write_fat_sectors c 0 f _ f' i E). by apply Hca.
    + intros i x Hi. destruct (linked_tail _ _ _ Hl i x Hi) as [Hdx Hx]. rewrite Eg. split; [done|].
      rewrite Ho'; [done|unfold data_clus in Hdx; lia|]. intros ->. apply NoDup_cons in Hn as [Hn _]. apply Hn.
      by apply (list_elem_of_lookup_2 _ i).
    + by apply NoDup_cons in Hn as [_ ?].
  - intros n Hlt. rewrite Hs, (proj2 (Z.eqb_neq _ _)); [done|lia].
Qed.

(** The chain [l] is free; every other entry and all data are as before. *)
Record freed (f f' : fatfs D) (l : list Z) : Prop := {
  fr_fs : file_ok f' [];
  fr_geo : geo f' = geo f;
  fr_free : ∀ c, c ∈ l → fat_entry f' c = 0;
  fr_other : ∀ c, 0 ≤ c → c ∉ l → fat_entry f' c = fat_entry f c;
  fr_data : ∀ n, first_data_sec (geo f) ≤ n → sector_of (dsk f') n = sector_of (dsk f) n }.

Lemma trunc_loop_spec fuel l clus f :
  file_ok f l → (length l ≤ fuel)%nat →
  match l with [] => (2 <=? clus) && (clus <? FAT32_EOC) = false | c :: _ => clus = c end →
  ∃ f', trunc_loop fuel clus f = Ok tt f' ∧ freed f f' l.
Proof.
  revert fuel clus f. induction l as [|c l IH]; intros fuel clus f Hf Hfu Hc.
  { exists f. destruct fuel; cbn [trunc_loop]; rewrite Hc; (split; [done|]); split; try done; by intros c ?%elem_of_nil. }
  subst clus. destruct (fk_linked _ _ Hf 0%nat c eq_refl) as [Hd Hnx]. unfold data_clus in Hd.
  pose proof (go_cnt _ (fg_geo _ (fk_geo _ _ Hf))).
  destruct fuel as [|fuel]; simpl in Hfu; [lia|]. cbn [trunc_loop].
  rewrite (proj2 (Z.leb_le 2 c)), (proj2 (Z.ltb_lt c FAT32_EOC)) by lia. cbn [andb].
  destruct (read_link f (c :: l) 0 c Hf eq_refl) as (f1 & E1 & Hf1 & Hsd). rewrite (mbindM_Ok _ _ _ _ _ E1).
  destruct (free_clus_spec f1 c l Hf1) as (f2 & E2 & Hf2 & Eg2 & Hz & Ho & Hdt). rewrite (mbindM_Ok _ _ _ _ _ E2).
  destruct (IH fuel (fat_entry f c) f2 Hf2 ltac:(lia)) as (f' & E3 & [A B C F G]).
  { destruct l as [|c' l]; simpl in Hnx; [|done]. rewrite (proj2 (Z.ltb_ge _ FAT32_EOC)) by lia. apply andb_false_r. }
  exists f'. split; [done|]. destruct Hsd as [Eg1 Hs1]. split; [done|congruence|..].
  - intros x [->|Hx]%elem_of_cons; [|by apply C]. rewrite F; [done|lia|].
    pose proof (fk_nodup _ _ Hf) as Hnd. by apply NoDup_cons in Hnd as [? _].
  - intros x Hx [Hne Hin]%not_elem_of_cons. rewrite F, Ho by done. by apply same_disk_entry.
  - intros n Hn. rewrite G, Hdt, Hs1; [done|congruence|congruence].
Qed.

Lemma etrunc_spec s e l :
  file_ok (v_fat s) l → first_clus (v_ent s e) = default 0 (head l) →
  ∃ s', etrunc e s = Ok tt s' ∧ freed (v_fat s) (v_fat s') l ∧ v_mem s' = v_mem s ∧
    ∀ i, v_ent s' i = if i =? e then set_e_dirty 1 (set_first_clus 0 (set_file_size 0 (v_ent s e))) else v_ent s i.
Proof.
  intros Hf He. pose proof (chain_length _ _ (fg_geo _ (fk_geo _ _ Hf)) (fk_linked _ _ Hf) (fk_nodup _ _ Hf)) as Hlen.
  unfold etrunc, mbindM at 1, get_ent, gets at 1, mbindM at 1, get_geo, gets at 1.
  destruct (trunc_loop_spec (Z.to_nat (data_clus_cnt (geo (v_fat s)) + 2)) l (first_clus (v_ent s e)) (v_fat s) Hf)
    as (f' & E & Hfr); [lia|rewrite He; by destruct l|].
  unfold mbindM, fat_op, zoom. rewrite E. eexists. split; [done|]. split; [done|]. split; [done|]. intros i.
  cbn [v_ent]. unfold upd. done.
Qed.

(** [etrunc] gives back the whole file: every cluster of its chain becomes
    free in the FAT, no other FAT entry and no data sector changes, the entry
    has size 0 and no first cluster, and the loop over the chain ends. *)
Theorem etrunc_correct (s : vfs D U) (e : Z) (l : list Z) :
  file_ok (v_fat s) l → first_clus (v_ent s e) = default 0 (head l) →
  ∃ s', etrunc e s = Ok tt s' ∧ freed (v_fat s) (v_fat s') l ∧ v_mem s' = v_mem s ∧
    ∀ i, v_ent s' i = if i =? e then set_e_dirty 1 (set_first_clus 0 (set_file_size 0 (v_ent s e))) else v_ent s i.
Proof. apply etrunc_spec. Qed.
(** The entry after the first write to an empty file took cluster [c]. *)
Definition fresh_file (s : vfs D U) (f : fatfs D) (e c : Z) : vfs D U :=
  Vfs f (v_mem s) (upd (v_ent s) e (set_clus_cnt 0 (set_cur_clus c (set_first_clus c (v_ent s e))))) (v_nxt s) (v_prv s).

(** The stale FAT cache reaches file contents: when the FAT sector of the first
    free cluster [c] is cached, a new file gets [c], and moving to its second
    cluster reads 0 from the cache, takes it for a link and continues at
    "cluster" 0, whose sectors lie before the data area. *)
Theorem second_cluster_lost (s : vfs D U) (e c : Z) :
  fs_ok (v_fat s) → fgeo_ok (geo (v_fat s)) → 2 ≤ c ≤ data_clus_cnt (geo (v_fat s)) + 1 → fat_entry (v_fat s) c = 0 →
  (∀ c', 0 ≤ c' < c → fat_entry (v_fat s) c' ≠ 0) →
  first_id (λ i, fc_sector (cache (v_fat s)) i =? ent_sec (geo (v_fat s)) c) fc_ids ≠ None →
  ∃ f1 s2, alloc_clus (v_fat s) = Ok c f1 ∧
    reloc_clus e (byts_per_clus (geo (v_fat s))) true (fresh_file s f1 e c) = Ok 0 s2 ∧
    cur_clus (v_ent s2 e) = 0 ∧ clus_cnt (v_ent s2 e) = 1.
Proof.
  intros Hs Hg Hc Hz Hf Hin. destruct (alloc_clus_spec _ c (proj1 Hs) Hc Hz Hf) as (f1 & E & Ha).
  destruct (read_fat_stale _ f1 c Hs Hc Hz Ha Hin) as (f2 & E2). exists f1.
  pose proof (bpc_pos _ Hg) as Hb.
  unfold reloc_clus, mbindM at 1, get_geo, gets at 1. cbn [fresh_file v_fat]. rewrite (al_geo _ _ _ Ha).
  rewrite Z.div_same, Z.mod_same by lia. unfold mbindM at 1, get_ent at 1, gets at 1. cbn [fresh_file v_ent].
  rewrite upd_eq. cbn [clus_cnt set_clus_cnt]. change (Z.to_nat (1 - 0)) with 1%nat. cbn [reloc_forward].
  unfold get_ent, gets, fat_op, zoom, mbindM, fresh_file. cbn [v_fat v_ent v_mem v_nxt v_prv]. rewrite !upd_eq.
  cbn [cur_clus set_clus_cnt set_cur_clus set_first_clus]. rewrite E2. change (i32 0) with 0.
  change (FAT32_EOC <=? 0) with false. cbv iota. cbn. rewrite !upd_eq. cbn.
  eexists. split; [done|]. split; [done|]. cbn [v_ent]. rewrite !upd_eq. done.
Qed.
End Rw.

(** ** A volume with a file of 600 bytes in clusters 2 and 4, and a flat memory *)
Section Demo.
#[program] Definition flat_mem : UserMem (Z → Z) := {|
  either_in _ a m := λ u, Ok (0, map u (seqZ a m)) u;
  either_out _ a bs := λ u, Ok 0 (λ x, if in_range a (Z.of_nat (length bs)) x then u8 (nth (Z.to_nat (x - a)) bs 0) else u x);
  ubyte u _ := u;
  readable _ _ a n := 0 ≤ a ∧ a + n < 2 ^ 64;
  writable _ _ a n := 0 ≤ a ∧ a + n < 2 ^ 64 |}.
Next Obligation.
  intros u us a n i m [Ha Hn] Hi Hm Hs. exists u. rewrite u64_small by lia. done.
Qed.
Next Obligation.
  intros u us a n i bs [Ha Hn] Hi Hne Hs. eexists. rewrite u64_small by lia. done.
Qed.
Local Existing Instance mem_sectors.
Local Existing Instance flat_mem.

Definition file_fat_sec : list Z := set32 (set32 demo_fat_sec 8 4) 16 268435455.
Definition file_dsk : Z → list Z := λ n,
  if n =? 1 then file_fat_sec else if n =? 3 then replicate 512 65 else if n =? 5 then replicate 512 66 else replicate 512 0.
Definition file_fs : fatfs (Z → list Z) := Fatfs demo_geo demo_fc file_dsk.
Definition blank_ent : dirent := Dirent [] 0 0 0 0 0 0 0 0 0 0 0 0 0 0 0 0 (-1) 0.
Definition file_ent : dirent := set_file_size 600 (set_first_clus 2 (set_cur_clus 2 blank_ent)).
Definition file_vfs : vfs (Z → list Z) (Z → Z) :=
  Vfs file_fs (λ x, x mod 256) (λ i, if i =? 1 then file_ent else blank_ent) (λ _, 0) (λ _, 0).
Definition demo_now : rtc_time := Rtc 2024 5 17 13 20 30.

Lemma file_vfs_ok : file_ok file_fs [2; 4].
Proof.
  split.
  - split; [|apply fat_cache_init_ok]. destruct (demo_vol demo_fc) as [A _ _]. split; [done|done|].
    intros n. cbn [dsk sector_of mem_sectors file_fs]. unfold file_dsk.
    destruct (n =? 1), (n =? 3), (n =? 5); done.
  - split; [apply (demo_vol demo_fc)|done|done].
  - intros i Hi. unfold file_fs, demo_fc. simpl. rewrite (proj2 (in_range_true _ _ _)) by lia. done.
  - intros [|[|i]] c; cbn [lookup list_lookup]; intros [= <-]; (split; [unfold data_clus; simpl; lia|]);
      vm_compute; done.
  - apply NoDup_cons. split; [by intros ?%list_elem_of_singleton|apply NoDup_singleton].
Qed.
Lemma file_vfs_open : open_file file_vfs 1 [2; 4].
Proof. split; [apply file_vfs_ok|by split|simpl; lia]. Qed.

Lemma eread_correct_witness :
  ∃ s', eread 1 (Mem true 4096) 500 200 file_vfs = Ok (100, replicate 12 65 ++ replicate 88 66) s'.
Proof.
  destruct (eread_correct file_vfs 1 [2; 4] (Mem true 4096) 500 200 file_vfs_open) as (s' & E & _);
    [reflexivity|simpl; lia..|]. exists s'. exact E.
Defined.

Lemma ewrite_correct_witness :
  ∃ s', ewrite demo_now 1 (Mem true 4096) 510 100 file_vfs = Ok 100 s' ∧ file_size (v_ent s' 1) = 610.
Proof.
  destruct (ewrite_correct demo_now file_vfs 1 [2; 4] (Mem true 4096) 510 100 file_vfs_open)
    as (s' & E & _ & _ & _ & H); [reflexivity|simpl; lia..|]. exists s'. split; [exact E|exact (we_size _ _ _ _ _ H)].
Defined.


Lemma etrunc_correct_witness :
  ∃ s', etrunc 1 file_vfs = Ok tt s' ∧ fat_entry (v_fat s') 2 = 0 ∧ fat_entry (v_fat s') 4 = 0.
Proof.
  destruct (etrunc_correct file_vfs 1 [2; 4] file_vfs_ok eq_refl) as (s' & E & H & _).
  exists s'. split; [exact E|]. split; apply (fr_free _ _ _ H); [left|right; left].
Defined.

(** On such a volume writing 600 bytes to a new file reports success and
    overwrites the FAT itself (sector 1) with the last 88 of them. *)
Definition warm_vfs : vfs (Z → list Z) (Z → Z) :=
  Vfs warm_fs (λ x, x mod 256) (λ _, blank_ent) (λ _, 0) (λ _, 0).
Example new_file_overwrites_fat :
  match ewrite demo_now 1 (Var (replicate 600 7)) 0 600 warm_vfs with
  | Ok r s => r = 600 ∧ take 88 (dsk (v_fat s) 1) = replicate 88 7
  | Panic _ => False
  end.
Proof. vm_compute. split; reflexivity. Qed.
End Demo.
