(* ===== verification/FatDir.v ===== *)
(** * Directories (kernel/fat32.c)

    The cache of directory entries with its LRU ring and reference counts, the
    32-byte entries of a directory, and path lookup.  A [struct dirent *] is an
    index: [ROOT] is the global [root], 1 to 50 are [ecache.entries], [NULL] is
    -1, and a local [struct dirent] of a function is [LOCAL].  [filename] is the
    whole buffer of 256 bytes; names passed around are lists without the NUL.
    The sleep lock of an entry is the pid of its holder; an operation runs to
    its end without interleaving, and waiting for a lock is [panic "sleep"].
    The result of [rtc_get_time] during one operation is [now]. *)
From stdpp Require Import prelude list strings.
From Stdlib Require Import ZArith Lia.
From S2P Require Import Prelude Printf Fat Calendar FatNames FatFile.
Open Scope Z_scope.

Definition ATTR_SYSTEM : Z := 4.
Definition ATTR_ARCHIVE : Z := 32.
Definition EMPTY_ENTRY : Z := 229.
Definition END_OF_ENTRY : Z := 0.
Definition ENTRY_CACHE_NUM : Z := 50.
Definition T_DIR : Z := 1.
Definition T_FILE : Z := 2.
Definition STAT_MAX_NAME : nat := 32.

Definition ROOT : Z := 0.
Definition NULL : Z := -1.
Definition LOCAL : Z := -2.

(** [strncmp(a, b, FAT32_MAX_FILENAME) == 0] for a name and a buffer. *)
Definition same_name (a b : list Z) : bool :=
  bool_decide (take FAT32_MAX_FILENAME (cstr a) = take FAT32_MAX_FILENAME (cstr b)).
(** [strncpy(filename, name, 255); filename[255] = 0]. *)
Definition name_buffer (name : list Z) : list Z :=
  let n := take FAT32_MAX_FILENAME name in n ++ replicate (FAT32_MAX_FILENAME + 1 - length n) 0.

Definition bytes16 (v : Z) : list Z := [v mod 2 ^ 8; (v / 2 ^ 8) mod 2 ^ 8].
Definition get16 (data : list Z) (off : nat) : Z := nth off data 0 + 2 ^ 8 * nth (S off) data 0.

(** [short_name_entry_t]. *)
Definition short_entry (name : list Z) (x : dirent) : list Z :=
  name ++ [attribute x; 0; create_time_tenth x] ++ bytes16 (create_time x) ++ bytes16 (create_date x) ++
  bytes16 (last_access_date x) ++ bytes16 (u16 (Z.shiftr (first_clus x) 16)) ++ bytes16 (last_write_time x) ++
  bytes16 (last_write_date x) ++ bytes16 (Z.land (first_clus x) 65535) ++ bytes32 (file_size x).
Definition read_entry_info (e : list Z) (x : dirent) : dirent :=
  let clus := Z.lor (Z.shiftl (get16 e 20) 16) (get16 e 26) in
  Dirent (filename x) (nth 11 e 0) (nth 13 e 0) (get16 e 14) (get16 e 16) (get16 e 18) clus (get16 e 22) (get16 e 24)
    (get32 e 28) clus 0 (e_dev x) (e_dirty x) (e_valid x) (e_ref x) (e_off x) (e_parent x) (e_lock x).

Definition dot_name : list Z := chars ".          ".
Definition dotdot_name : list Z := chars "..         ".

(** The short name with a [~number] suffix for a duplicate. *)
Definition number_text (n : Z) : list Z := rev (int_digits digits 10 n 10).
Definition numbered_short (base : list Z) (n : Z) : list Z :=
  let suffix := 126 :: number_text n in
  let base_len := Nat.max 1 (8 - length suffix) in
  take base_len base ++ suffix ++ replicate (8 - (base_len + length suffix)) 32 ++ take 3 (drop 8 base).
(** The name with an [_number] suffix for an existing one. *)
Definition numbered_name (name : list Z) (n : Z) : list Z :=
  let num := 95 :: number_text n in
  let total := (length name + length num)%nat in
  let name_len := if (FAT32_MAX_FILENAME <? total)%nat then (FAT32_MAX_FILENAME - length num)%nat else length name in
  take FAT32_MAX_FILENAME (take name_len name ++ num).

Section Dir.
Context {D U : Type} {SD : Sectors D} {UM : UserMem U}.
Context (now : rtc_time) (me : Z).

(** ** The entry cache *)

Definition get_valid (e : Z) : M (vfs D U) Z := gets (λ s, e_valid (v_ent s e)).
Definition set_links (f : vfs D U → (Z → Z) * (Z → Z)) : M (vfs D U) unit :=
  modify (λ s, Vfs (v_fat s) (v_mem s) (v_ent s) (f s).1 (f s).2).

(** [ep->next->prev = ep->prev; ep->prev->next = ep->next; ep->next = root.next;
    ep->prev = &root; root.next->prev = ep; root.next = ep]. *)
Definition to_front (e : Z) (s : vfs D U) : (Z → Z) * (Z → Z) :=
  let p1 := upd (v_prv s) (v_nxt s e) (v_prv s e) in
  let n1 := upd (v_nxt s) (p1 e) (v_nxt s e) in
  let n2 := upd n1 e (n1 ROOT) in
  let p2 := upd p1 e ROOT in
  let p3 := upd p2 (n2 ROOT) e in
  (upd n2 ROOT e, p3).

Fixpoint escan (fuel : nat) (f : Z → bool) (link : Z → Z) (e : Z) : option (option Z) :=
  match fuel with
  | O => None
  | S fuel => if e =? ROOT then Some None else if f e then Some (Some e) else escan fuel f link (link e)
  end.
Definition ring_fuel : nat := S (Z.to_nat ENTRY_CACHE_NUM).

Definition eget (parent : Z) (name : option (list Z)) : M (vfs D U) Z :=
  s <-- gets id ;;
  let hit := match name with
    | None => Some None
    | Some name => escan ring_fuel (λ e, (e_valid (v_ent s e) =? 1) && (e_parent (v_ent s e) =? parent) &&
                                         same_name (filename (v_ent s e)) name) (v_nxt s) (v_nxt s ROOT)
    end in
  match hit with
  | None => panic "fuel"
  | Some (Some e) =>
      on_ent e (λ x, set_e_ref (i32 (e_ref x + 1)) x) ;;;
      whenM (e_ref (v_ent s e) =? 0)
        (on_ent (e_parent (v_ent s e)) (λ x, set_e_ref (i32 (e_ref x + 1)) x)) ;;;
      set_links (to_front e) ;;; mretM e
  | Some None =>
      match escan ring_fuel (λ e, e_ref (v_ent s e) =? 0) (v_prv s) (v_prv s ROOT) with
      | None => panic "fuel"
      | Some (Some e) =>
          on_ent e (λ x, set_e_dirty 0 (set_e_valid 0 (set_e_off 0
            (Dirent (filename x) (attribute x) (create_time_tenth x) (create_time x) (create_date x) (last_access_date x)
               (first_clus x) (last_write_time x) (last_write_date x) (file_size x) (cur_clus x) (clus_cnt x)
               (e_dev (v_ent s parent)) (e_dirty x) (e_valid x) 1 (e_off x) (e_parent x) (e_lock x))))) ;;;
          mretM e
      | Some None => panic "eget: insufficient ecache"
      end
  end.

Definition edup (e : Z) : M (vfs D U) Z :=
  whenM (negb (e =? NULL)) (on_ent e (λ x, set_e_ref (i32 (e_ref x + 1)) x)) ;;; mretM e.

Definition acquire_ent (e : Z) : M (vfs D U) unit :=
  x <-- get_ent e ;; if e_lock x =? 0 then on_ent e (set_e_lock me) else panic "sleep".
Definition elock (e : Z) : M (vfs D U) unit :=
  x <-- get_ent e ;;
  if (e =? NULL) || (e_ref x <? 1) then panic "elock" else acquire_ent e.
Definition eunlock (e : Z) : M (vfs D U) unit :=
  x <-- get_ent e ;;
  if (e =? NULL) || negb (e_lock x =? me) || (e_ref x <? 1) then panic "eunlock" else on_ent e (set_e_lock 0).

(** ** Entries on the disk *)

(** One access of [n] bytes at the offset [off2] that [reloc_clus] answered. *)
Definition dir_read (dp off2 n : Z) : M (vfs D U) (Z * list Z) :=
  x <-- get_ent dp ;; rw_clus (cur_clus x) false (Var []) 0 (u32 off2) n.
Definition dir_write (dp off2 : Z) (bs : list Z) : M (vfs D U) unit :=
  x <-- get_ent dp ;; rw_clus (cur_clus x) true (Var bs) 0 (u32 off2) (Z.of_nat (length bs)) ;;; mretM tt.

Definition eupdate (e : Z) : M (vfs D U) unit :=
  x <-- get_ent e ;;
  if (e_dirty x =? 0) || negb (e_valid x =? 1) then mretM tt
  else
    let dp := e_parent x in
    off <-- reloc_clus dp (e_off x) false ;;
    r <-- dir_read dp off 1 ;;
    let entcnt := Z.land (nth 0 r.2 0) (Z.lnot LAST_LONG_ENTRY) in
    off <-- reloc_clus dp (u32 (e_off x + Z.shiftl entcnt 5)) false ;;
    r <-- dir_read dp off 32 ;;
    x <-- get_ent e ;;
    let de := list_inserts 20 (bytes16 (u16 (Z.shiftr (first_clus x) 16))) r.2 in
    let de := list_inserts 26 (bytes16 (Z.land (first_clus x) 65535)) de in
    let de := list_inserts 28 (bytes32 (file_size x)) de in
    let de := list_inserts 22 (bytes16 (last_write_time x)) de in
    let de := list_inserts 24 (bytes16 (last_write_date x)) de in
    dir_write dp off de ;;;
    on_ent e (set_e_dirty 0).

Fixpoint eremove_loop (n : nat) (dp off off2 : Z) : M (vfs D U) unit :=
  match n with
  | O => mretM tt
  | S n =>
      dir_write dp off2 [EMPTY_ENTRY] ;;;
      off2 <-- reloc_clus dp (u32 (off + 32)) false ;;
      eremove_loop n dp (u32 (off + 32)) off2
  end.
Definition eremove (e : Z) : M (vfs D U) unit :=
  x <-- get_ent e ;;
  if negb (e_valid x =? 1) then mretM tt
  else
    let dp := e_parent x in
    off2 <-- reloc_clus dp (e_off x) false ;;
    r <-- dir_read dp off2 1 ;;
    let entcnt := Z.land (nth 0 r.2 0) (Z.lnot LAST_LONG_ENTRY) in
    eremove_loop (Z.to_nat (entcnt + 1)) dp (e_off x) off2 ;;;
    on_ent e (set_e_valid (-1)).

(** [eput] follows the parents; a path has no more entries than the cache. *)
Fixpoint eput_loop (fuel : nat) (e : Z) : M (vfs D U) unit :=
  match fuel with
  | O => panic "fuel"
  | S fuel =>
      x <-- get_ent e ;;
      if negb (e =? ROOT) && negb (e_valid x =? 0) && (e_ref x =? 1) then
        acquire_ent e ;;;
        set_links (to_front e) ;;;
        (if e_valid x =? -1 then etrunc e
         else elock (e_parent x) ;;; eupdate e ;;; eunlock (e_parent x)) ;;;
        on_ent e (set_e_lock 0) ;;;
        x <-- get_ent e ;;
        on_ent e (set_e_ref (i32 (e_ref x - 1))) ;;;
        if i32 (e_ref x - 1) =? 0 then eput_loop fuel (e_parent x) else mretM tt
      else on_ent e (set_e_ref (i32 (e_ref x - 1)))
  end.
Definition eput (e : Z) : M (vfs D U) unit := eput_loop (S ring_fuel) e.

Record struct_stat := Stat {
  st_name : list Z; st_dev : Z; st_type : Z; st_size : Z; st_create_time : Z; st_create_date : Z;
  st_last_write_time : Z; st_last_write_date : Z }.
Definition estat (x : dirent) : struct_stat :=
  Stat (take STAT_MAX_NAME (cstr (filename x))) (e_dev x) (if has (attribute x) ATTR_DIRECTORY then T_DIR else T_FILE)
    (file_size x) (create_time x) (create_date x) (last_write_time x) (last_write_date x).

(** ** Reading a directory *)

(** As many slots as the volume can hold. *)
Definition slots (g : geometry) : nat := Z.to_nat ((data_clus_cnt g + 1) * (byts_per_clus g / 32) + 1).

(** The loop of [enext]: [cnt] empty slots seen, [open] while [count] is not
    NULL; the result and [*count]. *)
Fixpoint enext_loop (fuel : nat) (dp ep off cnt : Z) (open : bool) (count : Z) : M (vfs D U) (Z * Z) :=
  match fuel with
  | O => panic "fuel"
  | S fuel =>
      off2 <-- reloc_clus dp off false ;;
      if off2 =? -1 then mretM (-1, count)
      else
        r <-- dir_read dp off2 32 ;;
        let de := r.2 in
        let order := nth 0 de 0 in
        if negb (r.1 =? 32) || (order =? END_OF_ENTRY) then mretM (-1, count)
        else if order =? EMPTY_ENTRY then enext_loop fuel dp ep (u32 (off + 32)) (cnt + 1) open count
        else if negb (cnt =? 0) then
          if open then mretM (0, cnt) else panic "null pointer"
        else if nth 11 de 0 =? ATTR_LONG_NAME then
          let lcnt := Z.land order (Z.lnot LAST_LONG_ENTRY) in
          let last := has order LAST_LONG_ENTRY in
          if last && negb open then panic "null pointer"
          else
            on_ent ep (λ x, set_filename (read_entry_name (filename x) (entry_slot de) de) x) ;;;
            enext_loop fuel dp ep (u32 (off + 32)) cnt (open && negb last) (if last then lcnt + 1 else count)
        else
          whenM open (on_ent ep (λ x, set_filename (read_entry_name (filename x) 0 de) x)) ;;;
          on_ent ep (read_entry_info de) ;;;
          mretM (1, if open then 1 else count)
  end.
Definition enext (dp ep off count : Z) : M (vfs D U) (Z * Z) :=
  x <-- get_ent dp ;;
  y <-- get_ent ep ;;
  if negb (has (attribute x) ATTR_DIRECTORY) then panic "enext not dir"
  else if negb (e_valid y =? 0) then panic "enext ep valid"
  else if negb (off mod 32 =? 0) then panic "enext not align"
  else if negb (e_valid x =? 1) then mretM (-1, count)
  else
    g <-- get_geo ;;
    on_ent ep (set_filename (replicate (FAT32_MAX_FILENAME + 1) 0)) ;;;
    enext_loop (slots g) dp ep off 0 true count.

(** [while ((type = enext(...) != -1))]: the assignment takes the result of the
    comparison, so [type] is 1 for empty slots too and [poff] is only set at
    the end of the directory.  The result is whether the name was found, and
    the offset reached. *)
Fixpoint dirlookup_loop (fuel : nat) (dp ep : Z) (name : list Z) (off count : Z) : M (vfs D U) (bool * Z) :=
  match fuel with
  | O => panic "fuel"
  | S fuel =>
      r <-- enext dp ep off count ;;
      let type := if negb (r.1 =? -1) then 1 else 0 in
      if type =? 0 then mretM (false, off)
      else
        x <-- get_ent ep ;;
        if same_name name (filename x) then mretM (true, off)
        else dirlookup_loop fuel dp ep name (u32 (off + Z.shiftl r.2 5)) r.2
  end.
(** The entry and the new value of [*poff], if it was written. *)
Definition dirlookup (dp : Z) (name : list Z) : M (vfs D U) (Z * option Z) :=
  x <-- get_ent dp ;;
  if negb (has (attribute x) ATTR_DIRECTORY) then panic "dirlookup not DIR"
  else if same_name name (chars ".") then e <-- edup dp ;; mretM (e, None)
  else if same_name name (chars "..") then
    e <-- edup (if dp =? ROOT then ROOT else e_parent x) ;; mretM (e, None)
  else if negb (e_valid x =? 1) then mretM (NULL, None)
  else
    ep <-- eget dp (Some name) ;;
    v <-- get_valid ep ;;
    if v =? 1 then mretM (ep, None)
    else
      g <-- get_geo ;;
      reloc_clus dp 0 false ;;;
      r <-- dirlookup_loop (slots g) dp ep name 0 0 ;;
      if (r.1 : bool) then
        edup dp ;;;
        on_ent ep (λ x, set_e_valid 1 (set_e_off r.2 (set_e_parent dp x))) ;;;
        mretM (ep, None)
      else eput ep ;;; mretM (NULL, Some r.2).

(** ** Writing a directory *)

(** The scan of [emake] for the short name [short]. *)
Fixpoint emake_scan (fuel : nat) (dp temp_off count : Z) (short : list Z) : M (vfs D U) bool :=
  match fuel with
  | O => panic "fuel"
  | S fuel =>
      r <-- enext dp LOCAL temp_off count ;;
      if (r.1 =? -1) || (r.1 =? 0) then mretM false
      else
        y <-- get_ent LOCAL ;;
        if bool_decide (generate_shortname (cstr (filename y)) = short) then mretM true
        else on_ent LOCAL (set_e_valid 0) ;;; emake_scan fuel dp (u32 (temp_off + 32 * r.2)) r.2 short
  end.
(** The loop over suffixes; [num] is [suffix_num]. *)
Fixpoint emake_short (fuel : nat) (dp num : Z) (base short : list Z) : M (vfs D U) (list Z) :=
  match fuel with
  | O => panic "Too many duplicate short names"
  | S fuel =>
      x <-- get_ent dp ;;
      g <-- get_geo ;;
      on_ent LOCAL (λ y, set_clus_cnt (clus_cnt x) (set_cur_clus (first_clus x) (set_e_valid 0 y))) ;;;
      dup <-- emake_scan (slots g) dp 64 0 short ;;
      if (dup : bool) then emake_short fuel dp (num + 1) base (numbered_short base num) else mretM short
  end.
Fixpoint emake_longs (i entcnt : nat) (dp off : Z) (name : list Z) (checksum : Z) : M (vfs D U) Z :=
  match i with
  | O => mretM off
  | S j =>
      off2 <-- reloc_clus dp off true ;;
      dir_write dp off2 (long_entry name checksum entcnt i) ;;;
      emake_longs j entcnt dp (u32 (off + 32)) name checksum
  end.
Definition emake (dp ep off : Z) : M (vfs D U) unit :=
  x <-- get_ent dp ;;
  if negb (has (attribute x) ATTR_DIRECTORY) then panic "emake: not dir"
  else if negb (off mod 32 =? 0) then panic "emake: not aligned"
  else if off <=? 32 then
    y <-- get_ent ep ;;
    let t := rtc_to_fat32_time now in
    let d := rtc_to_fat32_date now in
    let de := short_entry (if off =? 0 then dot_name else dotdot_name)
      (Dirent [] ATTR_DIRECTORY 0 t d d (first_clus y) t d 0 0 0 0 0 0 0 0 0 0) in
    off2 <-- reloc_clus dp off true ;;
    dir_write dp off2 de
  else
    y <-- get_ent ep ;;
    let name := cstr (filename y) in
    let base := generate_shortname name in
    short <-- emake_short (Z.to_nat 9999) dp 1 base base ;;
    off <-- emake_longs (lne_count name) (lne_count name) dp off name (cal_checksum short) ;;
    y <-- get_ent ep ;;
    off2 <-- reloc_clus dp off true ;;
    dir_write dp off2 (short_entry short y).

(** The first free [name_number], and the offset for a new entry. *)
Fixpoint unique_loop (fuel : nat) (dp i : Z) (name : list Z) (off : Z) : M (vfs D U) (option (list Z * Z)) :=
  match fuel with
  | O => mretM None
  | S fuel =>
      let u := numbered_name name i in
      r <-- dirlookup dp u ;;
      let off := default off r.2 in
      if r.1 =? NULL then mretM (Some (u, off)) else unique_loop fuel dp (i + 1) name off
  end.
Definition ealloc (dp : Z) (name : list Z) (attr : Z) : M (vfs D U) Z :=
  x <-- get_ent dp ;;
  if negb (has (attribute x) ATTR_DIRECTORY) then panic "ealloc not dir"
  else if negb (e_valid x =? 1) then mretM NULL
  else
    match formatname name with
    | None => mretM NULL
    | Some name =>
        let unique := take FAT32_MAX_FILENAME name in
        r <-- dirlookup dp unique ;;
        let off := default 0 r.2 in
        u <-- (if r.1 =? NULL then mretM (Some (unique, off)) else unique_loop (Z.to_nat 9999) dp 1 name off) ;;
        match u with
        | None => mretM NULL
        | Some (unique, off) =>
            ep <-- eget dp (Some name) ;;
            elock ep ;;;
            on_ent ep (λ x, set_first_clus 0 (set_file_size 0 (set_attribute attr x))) ;;;
            edup dp ;;;
            on_ent ep (λ x, set_filename (name_buffer unique) (set_e_dirty 0 (set_cur_clus 0 (set_clus_cnt 0
                             (set_e_off off (set_e_parent dp x)))))) ;;;
            (if attr =? ATTR_DIRECTORY then
               on_ent ep (λ x, set_attribute (Z.lor (attribute x) ATTR_DIRECTORY) x) ;;;
               c <-- fat_op alloc_clus ;;
               on_ent ep (λ x, set_cur_clus c (set_first_clus c x)) ;;;
               emake ep ep 0 ;;; emake ep dp 32
             else on_ent ep (λ x, set_attribute (Z.lor (attribute x) ATTR_ARCHIVE) x)) ;;;
            let t := rtc_to_fat32_time now in
            let d := rtc_to_fat32_date now in
            on_ent ep (λ x, set_last_write_date d (set_last_write_time t (set_last_access_date d
                             (set_create_date d (set_create_time t (set_create_time_tenth 0 x)))))) ;;;
            emake dp ep off ;;;
            on_ent ep (set_e_valid 1) ;;;
            eunlock ep ;;;
            mretM ep
        end
    end.

(** ** Paths *)

(** [lookup_path] from the entry reached; every round consumes part of the
    path. *)
Fixpoint lookup_loop (fuel : nat) (entry : Z) (path : list Z) (parent : bool) (name : list Z) : M (vfs D U) (Z * list Z) :=
  match fuel with
  | O => panic "fuel"
  | S fuel =>
      match skipelem path with
      | None => if parent then eput entry ;;; mretM (NULL, name) else mretM (entry, name)
      | Some (path, name) =>
          elock entry ;;;
          x <-- get_ent entry ;;
          if negb (has (attribute x) ATTR_DIRECTORY) then eunlock entry ;;; eput entry ;;; mretM (NULL, name)
          else if parent && bool_decide (path = []) then eunlock entry ;;; mretM (entry, name)
          else
            r <-- dirlookup entry name ;;
            if r.1 =? NULL then eunlock entry ;;; eput entry ;;; mretM (NULL, name)
            else eunlock entry ;;; eput entry ;;; lookup_loop fuel r.1 path parent name
      end
  end.
Definition lookup_path (cwd : Z) (path : list Z) (parent : bool) (name : list Z) : M (vfs D U) (Z * list Z) :=
  match path with
  | [] => mretM (NULL, name)
  | c :: _ =>
      entry <-- edup (if c =? 47 then ROOT else cwd) ;;
      lookup_loop (S (length path)) entry path parent name
  end.
Definition ename (cwd : Z) (path : list Z) : M (vfs D U) Z :=
  r <-- lookup_path cwd path false [] ;; mretM r.1.
Definition enameparent (cwd : Z) (path name : list Z) : M (vfs D U) (Z * list Z) := lookup_path cwd path true name.

(** ** The entry cache at start-up (the end of [fat32_init]) *)
Definition ecache_one (e : Z) (s : vfs D U) : vfs D U :=
  let x := v_ent s e in
  let y := Dirent (filename x) (attribute x) (create_time_tenth x) (create_time x) (create_date x) (last_access_date x)
    (first_clus x) (last_write_time x) (last_write_date x) (file_size x) (cur_clus x) (clus_cnt x) 0 0 0 0 (e_off x)
    NULL 0 in
  let n := upd (v_nxt s) e (v_nxt s ROOT) in
  let p := upd (v_prv s) e ROOT in
  let p := upd p (n ROOT) e in
  Vfs (v_fat s) (v_mem s) (upd (v_ent s) e y) (upd n ROOT e) p.
Definition ecache_init (s : vfs D U) : vfs D U :=
  let c := root_clus (geo (v_fat s)) in
  let r := Dirent (replicate 256 0) (Z.lor ATTR_DIRECTORY ATTR_SYSTEM) 0 0 0 0 c 0 0 0 c 0 0 0 1 0 0 NULL 0 in
  fold_left (λ s e, ecache_one e s) (seqZ 1 ENTRY_CACHE_NUM)
    (Vfs (v_fat s) (v_mem s) (upd (v_ent s) ROOT r) (upd (v_nxt s) ROOT ROOT) (upd (v_prv s) ROOT ROOT)).
End Dir.
