(* ===== verification/FatDirProps.v ===== *)
(** * Properties of directories

    A directory as its sequence of 32-byte slots, what [enext] reads from them,
    lookup of a name and the round trip of an entry through the disk. *)
From stdpp Require Import prelude list strings.
From Stdlib Require Import ZArith Lia.
From S2P Require Import Prelude Printf Fat FatProps Calendar FatNames FatFile FatFileProps FatDir.
Open Scope Z_scope.

Section Access.
Context {D U : Type} {SD : Sectors D} {UM : UserMem U}.
Context (now : rtc_time) (me : Z).
Implicit Types s : vfs D U.

(** ** One access to a directory *)

Lemma u32_mod_small off b : 0 < b < 2 ^ 32 → u32 (off mod b) = off mod b.
Proof. intros Hb. apply u32_small. pose proof (Z.mod_pos_bound off b). lia. Qed.
Lemma bpc_small g : fgeo_ok g → 0 < byts_per_clus g < 2 ^ 32.
Proof. intros Hg. pose proof (bpc_pos _ Hg). destruct Hg as [_ Hb Hs]. lia. Qed.

(** The chunk [off, off + n) of the file lies in one cluster. *)
Record chunk (g : geometry) (l : list Z) (off n : Z) : Prop := {
  ck_off : 0 ≤ off;
  ck_n : 0 < n;
  ck_in : off < Z.of_nat (length l) * byts_per_clus g;
  ck_one : off mod byts_per_clus g + n ≤ byts_per_clus g }.

Lemma access_read s dp l off n :
  file_ok (v_fat s) l → at_chain (v_ent s dp) l → chunk (geo (v_fat s)) l off n →
  ∃ s1 s2, reloc_clus dp off false s = Ok (off mod byts_per_clus (geo (v_fat s))) s1 ∧
    dir_read dp (off mod byts_per_clus (geo (v_fat s))) n s1 = Ok (n, run (fbyte (v_fat s) l) off n) s2 ∧
    io_post s s2 dp l (bytes_now s) ∧ v_mem s2 = v_mem s.
Proof.
  intros Hf Ha [Ho Hn Hin H1]. pose proof (bpc_small _ (fk_geo _ _ Hf)) as Hb.
  destruct (reloc_clus_spec dp off false l s Hf Ha Ho Hin) as (s1 & c & E1 & Hc & Hm1 & Ha1).
  destruct Hm1 as [Hf1 Hsd Em En Ep Ee]. pose proof (proj1 Hsd) as Eg.
  assert (data_clus (geo (v_fat s1)) c) as Hdc by (apply (fk_linked _ _ Hf1 _ _ Hc)).
  pose proof (Z.mod_pos_bound off (byts_per_clus (geo (v_fat s))) ltac:(lia)).
  destruct (rw_clus_read c (Var []) 0 n (off mod byts_per_clus (geo (v_fat s))) n s1) as (f2 & u2 & E2 & Hu2 & Hd2 & Hdel2);
    [apply Hf1|apply Hf1|done|done|lia..|by rewrite Eg|].
  assert (run (dbyte (dsk (v_fat s1))) (clus_base (geo (v_fat s1)) c + off mod byts_per_clus (geo (v_fat s))) n =
          run (fbyte (v_fat s) l) off n) as Er.
  { apply (list_eq_same_length _ _ (Z.to_nat n)); [apply length_run_nat..|]. intros k x y Hk.
    rewrite !lookup_run by lia. intros [= <-] [= <-]. unfold fbyte.
    rewrite (fpos_shift _ _ _ c) by (done || lia). rewrite Eg, (same_disk_byte _ _ _ Hsd). done. }
  exists s1, (with_mem u2 (with_fat f2 s1)). split; [done|]. split.
  - unfold dir_read, mbindM at 1, get_ent, gets at 1. rewrite Ee, Z.eqb_refl. cbn [cur_clus set_pos set_clus_cnt set_cur_clus].
    rewrite u32_mod_small by done. by rewrite E2, Er.
  - split; [|simpl in Hdel2 |- *; congruence]. eapply io_post_trans; [by eapply moved_io; [by split|]|].
    destruct (fat_upd_io s1 f2 u2 dp l (dbyte (dsk (v_fat s1))) Hf1 Ha1 Hu2 ltac:(done)) as [A B C F G K].
    split; try done. intros x. rewrite C. by apply same_disk_byte.
Qed.

Lemma access_write s dp l off bs alloc :
  let n := Z.of_nat (length bs) in
  file_ok (v_fat s) l → at_chain (v_ent s dp) l → chunk (geo (v_fat s)) l off n →
  ∃ s1 s2, reloc_clus dp off alloc s = Ok (off mod byts_per_clus (geo (v_fat s))) s1 ∧
    dir_write dp (off mod byts_per_clus (geo (v_fat s))) bs s1 = Ok tt s2 ∧
    io_post s s2 dp l (bytes_now s2) ∧
    written (v_fat s) (v_fat s2) l off n (λ i, nth (Z.to_nat i) bs 0).
Proof.
  intros n Hf Ha [Ho Hn Hin H1]. pose proof (bpc_small _ (fk_geo _ _ Hf)) as Hb.
  destruct (reloc_clus_spec dp off alloc l s Hf Ha Ho Hin) as (s1 & c & E1 & Hc & Hm1 & Ha1).
  destruct Hm1 as [Hf1 Hsd Em En Ep Ee]. pose proof (proj1 Hsd) as Eg.
  assert (data_clus (geo (v_fat s1)) c) as Hdc by (apply (fk_linked _ _ Hf1 _ _ Hc)).
  pose proof (Z.mod_pos_bound off (byts_per_clus (geo (v_fat s))) ltac:(lia)).
  destruct (rw_clus_write c (Var bs) 0 n (off mod byts_per_clus (geo (v_fat s))) n s1) as (f2 & u2 & E2 & Hu2 & _ & _);
    [apply Hf1|apply Hf1|done|simpl; lia|lia..|by rewrite Eg|].
  set (s2 := with_mem u2 (with_fat f2 s1)). rewrite Eg in Hu2. exists s1, s2. split; [done|].
  assert (io_post s s2 dp l (bytes_now s2)) as Hp2.
  { eapply io_post_trans; [by eapply moved_io; [by split|]|].
    destruct (fat_upd_io s1 f2 u2 dp l _ Hf1 Ha1 Hu2) as [A B C F G K]; [|by split].
    intros x Hx. unfold patch. rewrite (proj2 (in_range_false _ _ x)); [done|]. unfold data_clus in Hdc. rewrite Eg in *.
    unfold clus_base, clus_sec. pose proof (fg_bpc _ (fk_geo _ _ Hf)). nia. }
  split; [|split; [done|]].
  - unfold dir_write, mbindM at 1, get_ent, gets at 1. rewrite Ee, Z.eqb_refl. cbn [cur_clus set_pos set_clus_cnt set_cur_clus].
    rewrite u32_mod_small by done. fold n. by rewrite (mbindM_Ok _ _ _ _ _ E2).
  - apply (written_run _ _ _ _ c); try done; [apply Hp2|]. intros x. rewrite (fu_byte _ _ _ Hu2).
    apply patch_ext; [intros y; by apply same_disk_byte|]. done.
Qed.

(** ** The end of the chain *)

Lemma reloc_forward_end n e l s :
  file_ok (v_fat s) l → at_chain (v_ent s e) l → (length l ≤ Z.to_nat (clus_cnt (v_ent s e)) + n)%nat →
  ∃ s', reloc_forward n e false s = Ok false s' ∧ moved s s' e (first_clus (v_ent s e)) 0 l.
Proof.
  revert s. induction n as [|n IH]; intros s Hf Ha Hn.
  { pose proof (lookup_lt_Some _ _ _ (ac_cur _ _ Ha)). lia. }
  cbn [reloc_forward]. unfold mbindM at 1, get_ent, gets at 1.
  destruct (decide (S (Z.to_nat (clus_cnt (v_ent s e))) < length l)%nat) as [Hlt|Hge].
  - destruct (chain_step _ _ _ Hf Ha Hlt) as (c' & f' & E & Hf' & Hd & Hi & Hb & Hu & Ha').
    unfold mbindM at 1, fat_op, zoom. rewrite E, Hi, Hu, (proj2 (Z.leb_gt FAT32_EOC c')) by lia.
    unfold mbindM at 1, on_ent at 1, modify at 1. cbn [v_fat v_mem v_ent v_nxt v_prv].
    fold (step_to e c' (clus_cnt (v_ent s e) + 1) s f'). set (s1 := step_to e c' (clus_cnt (v_ent s e) + 1) s f').
    assert (v_ent s1 e = set_pos c' (clus_cnt (v_ent s e) + 1) (v_ent s e)) as Hx1 by (simpl; apply upd_eq).
    pose proof (ac_cnt _ _ Ha).
    destruct (IH s1) as (s' & E' & Hr); [done|by rewrite Hx1|rewrite Hx1; simpl; lia|].
    exists s'. split; [done|]. rewrite Hx1 in Hr. eapply moved_trans; [by apply step_moved|exact Hr].
  - pose proof Ha as [A1 A2 A3]. destruct (read_link _ _ _ _ Hf A3) as (f' & E & Hf' & Hd).
    destruct (fk_linked _ _ Hf _ _ A3) as [_ He]. rewrite lookup_ge_None_2 in He by lia.
    unfold mbindM at 1, fat_op, zoom. rewrite E, i32_small, (proj2 (Z.leb_le FAT32_EOC _)) by (unfold FAT32_EOC in *; lia).
    unfold mbindM at 1, on_ent at 1, modify at 1. cbn [v_fat v_mem v_ent v_nxt v_prv].
    eexists. split; [done|]. by apply (step_moved s f' e (first_clus (v_ent s e)) 0 l).
Qed.

Lemma reloc_clus_end e off l s :
  file_ok (v_fat s) l → at_chain (v_ent s e) l → Z.of_nat (length l) * byts_per_clus (geo (v_fat s)) ≤ off →
  ∃ s', reloc_clus e off false s = Ok (-1) s' ∧ moved s s' e (first_clus (v_ent s e)) 0 l ∧ at_chain (v_ent s' e) l.
Proof.
  intros Hf Ha Hoff. pose proof (bpc_pos _ (fk_geo _ _ Hf)) as Hb.
  unfold reloc_clus, mbindM at 1, get_geo, gets at 1, mbindM at 1, get_ent at 1, gets at 1. cbv zeta.
  set (k := off / byts_per_clus (geo (v_fat s))).
  assert (Z.of_nat (length l) ≤ k) as Hk by (apply Z.div_le_lower_bound; lia).
  pose proof Ha as [A1 A2 A3]. pose proof (lookup_lt_Some _ _ _ A3).
  destruct (reloc_forward_end (Z.to_nat (k - clus_cnt (v_ent s e))) e l s) as (s1 & E1 & Hm1); [done|done|lia|].
  rewrite (mbindM_Ok _ _ _ _ _ E1). cbn [negb]. exists s1. split; [done|]. split; [done|].
  rewrite (mv_ent _ _ _ _ _ _ Hm1 e), Z.eqb_refl. by split.
Qed.

(** ** What [enext] reads *)

(** The 32-byte slot at offset [off] of the directory, while it lasts. *)
Definition slot_at (f : fatfs D) (l : list Z) (off : Z) : option (list Z) :=
  if off <? Z.of_nat (length l) * byts_per_clus (geo f) then Some (run (fbyte f l) off 32) else None.

(** The loop of [enext] as a function of the slots: [x] is [*ep].  [None] where
    the loop would panic. *)
Fixpoint eparse (fuel : nat) (slot : Z → option (list Z)) (off cnt : Z) (open : bool) (count : Z) (x : dirent)
  : option (Z * Z * dirent) :=
  match fuel with
  | O => None
  | S fuel =>
      match slot off with
      | None => Some (-1, count, x)
      | Some de =>
          let order := nth 0 de 0 in
          if order =? END_OF_ENTRY then Some (-1, count, x)
          else if order =? EMPTY_ENTRY then eparse fuel slot (off + 32) (cnt + 1) open count x
          else if negb (cnt =? 0) then if open then Some (0, cnt, x) else None
          else if nth 11 de 0 =? ATTR_LONG_NAME then
            let last := has order LAST_LONG_ENTRY in
            if last && negb open then None
            else eparse fuel slot (off + 32) cnt (open && negb last)
                   (if last then Z.land order (Z.lnot LAST_LONG_ENTRY) + 1 else count)
                   (set_filename (read_entry_name (filename x) (entry_slot de) de) x)
          else
            let x := if open then set_filename (read_entry_name (filename x) 0 de) x else x in
            Some (1, if open then 1 else count, read_entry_info de x)
      end
  end.

(** Only the position of [dp], the contents of [ep] and the FAT cache change. *)
Record epost (s s' : vfs D U) (dp ep : Z) (l : list Z) (x : dirent) : Prop := {
  eo_file : file_ok (v_fat s') l;
  eo_geo : geo (v_fat s') = geo (v_fat s);
  eo_byte : ∀ i, dbyte (dsk (v_fat s')) i = dbyte (dsk (v_fat s)) i;
  eo_at : at_chain (v_ent s' dp) l;
  eo_ent : ∃ c k, ∀ i, v_ent s' i = if i =? ep then x else if i =? dp then set_pos c k (v_ent s dp) else v_ent s i;
  eo_links : v_nxt s' = v_nxt s ∧ v_prv s' = v_prv s;
  eo_mem : v_mem s' = v_mem s }.

Lemma epost_refl s dp ep l : file_ok (v_fat s) l → at_chain (v_ent s dp) l → epost s s dp ep l (v_ent s ep).
Proof.
  intros Hf Ha. split; try done. exists (cur_clus (v_ent s dp)), (clus_cnt (v_ent s dp)). intros i. rewrite set_pos_id.
  destruct (Z.eqb_spec i ep) as [->|]; [done|]. by destruct (Z.eqb_spec i dp) as [->|].
Qed.
Lemma epost_trans s s1 s2 dp ep l x y : dp ≠ ep → epost s s1 dp ep l x → epost s1 s2 dp ep l y → epost s s2 dp ep l y.
Proof.
  intros Hne [A1 B1 C1 D1 (c1 & k1 & E1) [F1 G1] H1] [A2 B2 C2 D2 (c2 & k2 & E2) [F2 G2] H2].
  split; [done|congruence|intros i; by rewrite C2|done| |split; congruence|congruence]. exists c2, k2. intros i. rewrite E2, !E1.
  rewrite Z.eqb_refl, (proj2 (Z.eqb_neq dp ep)) by done. rewrite set_pos_pos.
  destruct (i =? ep); [done|]. by destruct (i =? dp).
Qed.
Lemma io_epost s s' dp ep l : dp ≠ ep → io_post s s' dp l (bytes_now s) → v_mem s' = v_mem s → epost s s' dp ep l (v_ent s ep).
Proof.
  intros Hne [A B C E (c & k & F) G] Hm. split; try done. exists c, k. intros i. rewrite F.
  destruct (Z.eqb_spec i dp) as [->|]; [by rewrite (proj2 (Z.eqb_neq dp ep))|]. by destruct (Z.eqb_spec i ep) as [->|].
Qed.
(** Writing [ep]. *)
Lemma on_ent_epost s dp ep l f :
  dp ≠ ep → file_ok (v_fat s) l → at_chain (v_ent s dp) l →
  ∃ s', on_ent ep f s = Ok tt s' ∧ epost s s' dp ep l (f (v_ent s ep)).
Proof.
  intros Hne Hf Ha. eexists. split; [done|]. split; try done; cbn [v_ent].
  - by rewrite upd_ne.
  - exists (cur_clus (v_ent s dp)), (clus_cnt (v_ent s dp)). intros i. rewrite set_pos_id. unfold upd.
    destruct (i =? ep); [done|]. by destruct (Z.eqb_spec i dp) as [->|].
Qed.
Lemma epost_ep s s' dp ep l x : epost s s' dp ep l x → v_ent s' ep = x.
Proof. intros [_ _ _ _ (c & k & E) _ _]. by rewrite E, Z.eqb_refl. Qed.
Lemma epost_slot s s' dp ep l x off : epost s s' dp ep l x → slot_at (v_fat s') l off = slot_at (v_fat s) l off.
Proof.
  intros [_ Eg Eb _ _ _ _]. unfold slot_at. rewrite Eg. destruct (off <? _); [|done]. f_equal. apply run_ext.
  intros i _. unfold fbyte. by rewrite Eg, Eb.
Qed.

Lemma eparse_ext fuel slot slot' off cnt open count x :
  (∀ o, slot' o = slot o) → eparse fuel slot' off cnt open count x = eparse fuel slot off cnt open count x.
Proof.
  intros Hs. revert off cnt open count x. induction fuel as [|fuel IH]; intros; [done|]. cbn [eparse]. rewrite Hs.
  destruct (slot off) as [de|]; [|done]. cbv zeta. by rewrite !IH.
Qed.

(** A directory whose offsets are 32-bit numbers. *)
Definition dir_size_ok (f : fatfs D) (l : list Z) : Prop := Z.of_nat (length l) * byts_per_clus (geo f) + 32 < 2 ^ 32.

Lemma slot_chunk g l off : fgeo_ok g → 0 ≤ off → off mod 32 = 0 → off < Z.of_nat (length l) * byts_per_clus g → chunk g l off 32.
Proof.
  intros Hg Ho Hm Hin. pose proof (bpc_small _ Hg). split; [done|lia|done|]. pose proof (fg_bpc _ Hg) as Hb.
  set (b := byts_per_clus g) in *. set (q := 16 * sec_per_clus g). assert (b = 32 * q) as Eb by (unfold q; lia).
  rewrite Eb. pose proof (Z.div_mod off 32 ltac:(lia)) as E. rewrite Hm, Z.add_0_r in E. rewrite E.
  rewrite Z.mul_mod_distr_l by lia. pose proof (Z.mod_pos_bound (off / 32) q ltac:(lia)). lia.
Qed.

Lemma enext_loop_spec fuel dp ep l off cnt open count s r c x :
  file_ok (v_fat s) l → at_chain (v_ent s dp) l → dp ≠ ep → dir_size_ok (v_fat s) l → 0 ≤ off → off mod 32 = 0 →
  eparse fuel (slot_at (v_fat s) l) off cnt open count (v_ent s ep) = Some (r, c, x) →
  ∃ s', enext_loop fuel dp ep off cnt open count s = Ok (r, c) s' ∧ epost s s' dp ep l x.
Proof.
  revert off cnt open count s. induction fuel as [|fuel IH]; intros off cnt open count s Hf Ha Hne Hsz Ho H32 Hp; [done|].
  cbn [eparse] in Hp. cbn [enext_loop]. pose proof (bpc_small _ (fk_geo _ _ Hf)) as Hb.
  unfold slot_at at 1 in Hp. destruct (Z.ltb_spec off (Z.of_nat (length l) * byts_per_clus (geo (v_fat s)))) as [Hin|Hout].
  2: { injection Hp as <- <- <-. destruct (reloc_clus_end dp off l s Hf Ha Hout) as (s1 & E1 & Hm1 & Ha1).
       rewrite (mbindM_Ok _ _ _ _ _ E1). exists s1. split; [done|].
       apply io_epost; [done|by eapply moved_io|apply Hm1]. }
  destruct (access_read s dp l off 32 Hf Ha) as (s1 & s2 & E1 & E2 & Hp2 & Hm2); [by apply slot_chunk; [apply Hf|..]|].
  rewrite (mbindM_Ok _ _ _ _ _ E1). pose proof (Z.mod_pos_bound off (byts_per_clus (geo (v_fat s))) ltac:(lia)).
  rewrite (proj2 (Z.eqb_neq _ (-1))) by lia. rewrite (mbindM_Ok _ _ _ _ _ E2). cbn [fst snd]. cbv zeta in *.
  rewrite Z.eqb_refl. cbn [negb orb]. set (de := run (fbyte (v_fat s) l) off 32) in *.
  pose proof (io_epost s s2 dp ep l Hne Hp2 Hm2) as Hq.
  assert (dir_size_ok (v_fat s2) l) as Hsz2 by (unfold dir_size_ok; by rewrite (eo_geo _ _ _ _ _ _ Hq)).
  assert (u32 (off + 32) = off + 32) as Eu by (apply u32_small; unfold dir_size_ok in Hsz; lia).
  assert ((off + 32) mod 32 = 0) as H32' by (by rewrite <- (Z.mul_1_l 32) at 1; rewrite Z.mod_add).
  assert (∀ o, slot_at (v_fat s2) l o = slot_at (v_fat s) l o) as Hsl by (intros o; by apply (epost_slot s s2 dp ep l (v_ent s ep))).
  pose proof (epost_ep _ _ _ _ _ _ Hq) as Eep.
  destruct (nth 0 de 0 =? END_OF_ENTRY); [injection Hp as <- <- <-; by exists s2|].
  destruct (nth 0 de 0 =? EMPTY_ENTRY).
  { destruct (IH (off + 32) (cnt + 1) open count s2) as (s' & E & Hq'); try done; [apply Hq|apply Hq|lia| |].
    - by rewrite (eparse_ext _ _ _ _ _ _ _ _ Hsl), Eep.
    - exists s'. rewrite Eu. split; [done|]. by apply (epost_trans s s2 s' dp ep l (v_ent s ep)). }
  destruct (negb (cnt =? 0)); [destruct open; [|done]; injection Hp as <- <- <-; by exists s2|].
  destruct (nth 11 de 0 =? ATTR_LONG_NAME).
  - destruct (has (nth 0 de 0) LAST_LONG_ENTRY && negb open); [done|].
    destruct (on_ent_epost s2 dp ep l (λ y, set_filename (read_entry_name (filename y) (entry_slot de) de) y) Hne) as (s3 & E3 & Hq3);
      [apply Hq|apply Hq|]. rewrite (mbindM_Ok _ _ _ _ _ E3). rewrite Eep in Hq3. rewrite Eu.
    pose proof (epost_trans s s2 s3 dp ep l _ _ Hne Hq Hq3) as Hq13.
    assert (∀ o, slot_at (v_fat s3) l o = slot_at (v_fat s) l o) as Hsl3 by (intros o; by eapply epost_slot).
    match goal with |- context [enext_loop fuel dp ep (off + 32) cnt ?a ?b] => destruct (IH (off + 32) cnt a b s3) as (s' & E & Hq') end;
      try done; [apply Hq3|apply Hq3|unfold dir_size_ok; rewrite (eo_geo _ _ _ _ _ _ Hq13); done|lia| |].
    + by rewrite (eparse_ext _ _ _ _ _ _ _ _ Hsl3), (epost_ep _ _ _ _ _ _ Hq3).
    + exists s'. split; [done|]. by eapply (epost_trans s s3 s').
  - injection Hp as <- <- <-. destruct open; cbn [whenM].
    + destruct (on_ent_epost s2 dp ep l (λ y, set_filename (read_entry_name (filename y) 0 de) y) Hne) as (s3 & E3 & Hq3);
        [apply Hq|apply Hq|]. rewrite (mbindM_Ok _ _ _ _ _ E3).
      destruct (on_ent_epost s3 dp ep l (read_entry_info de) Hne) as (s4 & E4 & Hq4); [apply Hq3|apply Hq3|].
      rewrite (mbindM_Ok _ _ _ _ _ E4). exists s4. split; [done|].
      rewrite (epost_ep _ _ _ _ _ _ Hq3), Eep in Hq4. eapply epost_trans; [done| |exact Hq4].
      eapply epost_trans; [done|exact Hq|exact Hq3].
    + unfold mbindM at 1, mretM at 1.
      destruct (on_ent_epost s2 dp ep l (read_entry_info de) Hne) as (s4 & E4 & Hq4); [apply Hq|apply Hq|].
      rewrite (mbindM_Ok _ _ _ _ _ E4). exists s4. split; [done|]. rewrite Eep in Hq4.
      eapply epost_trans; [done|exact Hq|exact Hq4].
Qed.
End Access.

(** ** The contents of a directory *)

(** A file found in the directory: offset and number of its slots, its name and
    its short entry. *)
Record drec := Drec { d_off : Z; d_cnt : Z; d_name : list Z; d_sne : list Z }.

Definition sne_ok (e : list Z) : Prop := nth 0 e 0 ≠ END_OF_ENTRY ∧ nth 0 e 0 ≠ EMPTY_ENTRY ∧ nth 11 e 0 ≠ ATTR_LONG_NAME.
Definition name_ok (name : list Z) : Prop := Forall name_char name ∧ (0 < length name ≤ FAT32_MAX_FILENAME)%nat.
Definition zero_name : list Z := replicate (FAT32_MAX_FILENAME + 1) 0.

Section Listing.
Context (slot : Z → option (list Z)).

(** [es] lies in consecutive slots from [off]. *)
Definition laid_out (off : Z) (es : list (list Z)) : Prop :=
  ∀ i e, es !! i = Some e → slot (off + 32 * Z.of_nat i) = Some e.
Definition empties (off n : Z) : Prop :=
  ∀ k, 0 ≤ k < n → ∃ e, slot (off + 32 * k) = Some e ∧ nth 0 e 0 = EMPTY_ENTRY.

(** The files from [off] to the end of the directory, which [lookup] reaches at
    [eoff]: files with a long name, with a short name only, removed slots, the
    end marker or the end of the chain. *)
Inductive listing : Z → list drec → Z → Prop :=
| li_end off n : 0 ≤ n → empties off n →
    (match slot (off + 32 * n) with None => True | Some e => nth 0 e 0 = END_OF_ENTRY end) → listing off [] off
| li_long off name ck sn rest eoff : name_ok name → sne_ok sn → laid_out off (name_entries name ck ++ [sn]) →
    listing (off + 32 * (Z.of_nat (lne_count name) + 1)) rest eoff →
    listing off (Drec off (Z.of_nat (lne_count name) + 1) name sn :: rest) eoff
| li_short off sn rest eoff : sne_ok sn → slot off = Some sn → listing (off + 32) rest eoff →
    listing off (Drec off 1 (cstr (read_short_name zero_name 0 sn)) sn :: rest) eoff
| li_hole off n e rest eoff : 0 < n → empties off n → slot (off + 32 * n) = Some e →
    nth 0 e 0 ≠ END_OF_ENTRY → nth 0 e 0 ≠ EMPTY_ENTRY →
    listing (off + 32 * n) rest eoff → listing off rest eoff.

(** Slots end at [size]. *)
Context (size : Z) (Hsize : ∀ o e, slot o = Some e → o < size).

(** Enough rounds are left at [off]. *)
Definition enough (fuel : nat) (off : Z) : Prop := size + 32 ≤ off + 32 * Z.of_nat fuel.

Lemma eparse_empties fuel off n cnt open count x :
  0 ≤ n → empties off n → enough fuel off →
  ∃ fuel', enough fuel' (off + 32 * n) ∧
    eparse fuel slot off cnt open count x = eparse fuel' slot (off + 32 * n) (cnt + n) open count x.
Proof.
  intros Hn. revert fuel off cnt. pattern n. apply natlike_ind; [..|done]; clear n Hn.
  - intros fuel off cnt _ He. exists fuel. by rewrite !Z.add_0_r.
  - intros n Hn IH fuel off cnt Hem He. destruct (Hem 0 ltac:(lia)) as (e & E & Ee). rewrite Z.add_0_r in E.
    pose proof (Hsize _ _ E). unfold enough in He. destruct fuel as [|fuel]; [lia|].
    destruct (IH fuel (off + 32) (cnt + 1)) as (fuel' & He' & Ep).
    + intros k Hk. destruct (Hem (k + 1) ltac:(lia)) as (e' & E' & Ee'). exists e'. split; [|done].
      rewrite <- E'. f_equal. lia.
    + unfold enough. lia.
    + exists fuel'. replace (off + 32 * Z.succ n) with (off + 32 + 32 * n) by lia. split; [done|].
      cbn [eparse]. rewrite E, Ee. cbv zeta. change (EMPTY_ENTRY =? END_OF_ENTRY) with false. rewrite Z.eqb_refl.
      rewrite Ep. f_equal. lia.
Qed.

Lemma eparse_end fuel off n cnt open count x :
  0 ≤ n → empties off n → (match slot (off + 32 * n) with None => True | Some e => nth 0 e 0 = END_OF_ENTRY end) →
  enough fuel off → off ≤ size → eparse fuel slot off cnt open count x = Some (-1, count, x).
Proof.
  intros Hn Hem Hend He Hoff. destruct (eparse_empties fuel off n cnt open count x Hn Hem He) as (fuel' & He' & ->).
  assert (off + 32 * n < size + 32) as Hle.
  { destruct (decide (n = 0)) as [->|]; [lia|]. destruct (Hem (n - 1) ltac:(lia)) as (e & E & _). apply Hsize in E. lia. }
  unfold enough in He'. destruct fuel' as [|fuel']; [lia|]. cbn [eparse].
  destruct (slot (off + 32 * n)) as [e|]; [|done]. cbv zeta. by rewrite Hend.
Qed.

Lemma lne_order_facts n i :
  (1 ≤ i ≤ n)%nat → (n ≤ 20)%nat →
  (lne_order n i =? END_OF_ENTRY) = false ∧ (lne_order n i =? EMPTY_ENTRY) = false ∧
  has (lne_order n i) LAST_LONG_ENTRY = bool_decide (i = n) ∧
  Z.land (lne_order n i) (Z.lnot LAST_LONG_ENTRY) = Z.of_nat i.
Proof.
  intros Hi Hn. unfold lne_order. assert (∃ j, i = S j ∧ (j < 20)%nat) as (j & -> & Hj) by (exists (i - 1)%nat; lia).
  destruct (Nat.eqb_spec (S j) n) as [E|E]; [rewrite bool_decide_true by done|rewrite bool_decide_false by done];
    do 20 (destruct j as [|j]; [by split_and!|]); lia.
Qed.

(** The long entries of a name from number [i] down, then the short entry. *)
Lemma eparse_longs name ck n i fuel off sn count open x :
  (i ≤ n)%nat → (n ≤ 20)%nat → sne_ok sn → open = bool_decide (i = n) → (i = 0%nat → open = false) →
  laid_out off (map (long_entry name ck n) (rev (seq 1 i)) ++ [sn]) → enough fuel off →
  eparse fuel slot off 0 open count x =
  Some (1, (if open then Z.of_nat n + 1 else count),
        read_entry_info sn (set_filename (fold_left (λ b e, read_entry_name b (entry_slot e) e)
          (map (long_entry name ck n) (rev (seq 1 i))) (filename x)) x)).
Proof.
  intros Hi Hn (Hs1 & Hs2 & Hs3) Eo Ho. revert fuel off count open x Hi Eo Ho.
  induction i as [|i IH]; intros fuel off count open x Hi Eo Ho Hl He.
  - rewrite (Ho eq_refl). pose proof (Hl 0%nat sn eq_refl) as E. rewrite Z.add_0_r in E. pose proof (Hsize _ _ E).
    unfold enough in He. destruct fuel as [|fuel]; [lia|]. cbn [eparse]. rewrite E. cbv zeta.
    rewrite (proj2 (Z.eqb_neq _ _) Hs1), (proj2 (Z.eqb_neq _ _) Hs2), (proj2 (Z.eqb_neq _ _) Hs3). cbn. by destruct x.
  - rewrite seq_S, rev_app_distr in *. change (1 + i)%nat with (S i) in *. cbn [rev app map] in *.
    set (e := long_entry name ck n (S i)) in *. pose proof (Hl 0%nat e eq_refl) as E. rewrite Z.add_0_r in E.
    pose proof (Hsize _ _ E). unfold enough in He. destruct fuel as [|fuel]; [lia|]. cbn [eparse]. rewrite E. cbv zeta.
    destruct (long_entry_header name ck n (S i)) as [Eh Ea]. fold e in Eh, Ea. rewrite Eh, Ea.
    destruct (lne_order_facts n (S i)) as (-> & -> & -> & ->); [lia|lia|]. rewrite Z.eqb_refl. cbn [Z.eqb negb].
    rewrite <- Eo. rewrite andb_negb_r. cbv iota.
    rewrite IH; [|lia|..].
    + cbn [fold_left filename set_filename]. destruct open.
      * symmetry in Eo. apply bool_decide_eq_true in Eo. subst n. by destruct x.
      * by destruct x.
    + by rewrite bool_decide_false by lia.
    + done.
    + intros k e' Hk. rewrite <- (Hl (S k) e' Hk). f_equal. lia.
    + unfold enough. lia.
Qed.

(** What [enext] finds at an offset of the listing. *)
Definition fresh_ent (x : dirent) : dirent := set_filename zero_name x.
Definition found (r : drec) (x y : dirent) : Prop :=
  ∃ b, cstr b = d_name r ∧ y = read_entry_info (d_sne r) (set_filename b x).

Lemma lne_count_bounds name : name_ok name → (1 ≤ lne_count name ≤ 20)%nat.
Proof.
  intros [_ Hl]. unfold lne_count, CHAR_LONG_NAME, FAT32_MAX_FILENAME in *. split.
  - apply Nat.div_le_lower_bound; lia.
  - apply Nat.lt_succ_r, Nat.Div0.div_lt_upper_bound. lia.
Qed.

Lemma eparse_file fuel off name ck sn count x :
  name_ok name → sne_ok sn → laid_out off (name_entries name ck ++ [sn]) → enough fuel off →
  ∃ y, eparse fuel slot off 0 true count (fresh_ent x) = Some (1, Z.of_nat (lne_count name) + 1, y) ∧
    found (Drec off (Z.of_nat (lne_count name) + 1) name sn) x y.
Proof.
  intros Hnm Hs Hl He. pose proof (lne_count_bounds _ Hnm) as Hb. destruct Hnm as [Hch Hlen].
  rewrite (eparse_longs name ck (lne_count name) (lne_count name) fuel off sn count true (fresh_ent x));
    [|lia|lia|done|by rewrite bool_decide_true|intros E0; exfalso; lia|done|done].
  eexists. split; [done|]. exists (read_names (name_entries name ck)). split; [|by destruct x].
  cbn [d_name]. apply long_name_spec; [done|unfold FAT32_MAX_FILENAME in *; lia].
Qed.
Lemma eparse_short fuel off sn count x :
  sne_ok sn → slot off = Some sn → enough fuel off →
  ∃ y, eparse fuel slot off 0 true count (fresh_ent x) = Some (1, 1, y) ∧
    found (Drec off 1 (cstr (read_short_name zero_name 0 sn)) sn) x y.
Proof.
  intros (Hs1 & Hs2 & Hs3) E He. pose proof (Hsize _ _ E). unfold enough in He. destruct fuel as [|fuel]; [lia|].
  cbn [eparse]. rewrite E. cbv zeta.
  rewrite (proj2 (Z.eqb_neq _ _) Hs1), (proj2 (Z.eqb_neq _ _) Hs2), (proj2 (Z.eqb_neq _ _) Hs3). cbn [Z.eqb negb].
  eexists. split; [done|]. exists (read_short_name zero_name 0 sn). split; [done|].
  unfold read_entry_name. rewrite (proj2 (Z.eqb_neq _ _) Hs3). by destruct x.
Qed.
Lemma eparse_hole fuel off n e count x :
  0 < n → empties off n → slot (off + 32 * n) = Some e → nth 0 e 0 ≠ END_OF_ENTRY → nth 0 e 0 ≠ EMPTY_ENTRY →
  enough fuel off → eparse fuel slot off 0 true count x = Some (0, n, x).
Proof.
  intros Hn Hem E H1 H2 He. destruct (eparse_empties fuel off n 0 true count x ltac:(lia) Hem He) as (fuel' & He' & ->).
  pose proof (Hsize _ _ E). unfold enough in He'. destruct fuel' as [|fuel']; [lia|]. cbn [eparse]. rewrite E. cbv zeta.
  rewrite (proj2 (Z.eqb_neq _ _) H1), (proj2 (Z.eqb_neq _ _) H2). rewrite Z.add_0_l, (proj2 (Z.eqb_neq n 0)) by lia. done.
Qed.
End Listing.

(** ** Lookup *)

(** The fields of an entry that do not come from the disk. *)
Definition os (x : dirent) : Z * Z * Z * Z * Z * Z * Z :=
  (e_dev x, e_dirty x, e_valid x, e_ref x, e_off x, e_parent x, e_lock x).
Lemma found_os r x x' y : os x = os x' → found r x y → found r x' y ∧ os y = os x'.
Proof. destruct x, x'. unfold os. simpl. intros E (b & Hb & ->). simplify_eq. split; [by exists b|done]. Qed.
Lemma found_os_eq r x y : found r x y → os y = os x.
Proof. intros H. by apply (found_os r x x). Qed.

Lemma cstr_idem b : cstr (cstr b) = cstr b.
Proof.
  induction b as [|c b IH]; [done|]. simpl. destruct (Z.eqb_spec c 0); [done|]. simpl.
  rewrite (proj2 (Z.eqb_neq c 0)) by done. by rewrite IH.
Qed.
Lemma same_name_cstr n b : same_name n (cstr b) = same_name n b.
Proof. unfold same_name. by rewrite cstr_idem. Qed.
Lemma found_name n r x y : found r x y → same_name n (filename y) = same_name n (d_name r).
Proof. intros (b & <- & ->). rewrite same_name_cstr. by destruct x. Qed.
(** A name that is not empty. *)
Definition real_name (n : list Z) : Prop := cstr n ≠ [].
Lemma same_name_zero n : real_name n → same_name n zero_name = false.
Proof.
  intros H. apply bool_decide_eq_false. change (take FAT32_MAX_FILENAME (cstr zero_name)) with (@nil Z).
  unfold real_name in H. destruct (cstr n); [done|]. done.
Qed.

Definition lookup_rec (name : list Z) (recs : list drec) : option drec :=
  List.find (λ r, same_name name (d_name r)) recs.

Section Lookup.
Context {D U : Type} {SD : Sectors D} {UM : UserMem U}.
Context (now : rtc_time) (me : Z).
Implicit Types s : vfs D U.

Definition dir_size (f : fatfs D) (l : list Z) : Z := Z.of_nat (length l) * byts_per_clus (geo f).
Lemma slot_size f l o e : slot_at f l o = Some e → o < dir_size f l.
Proof. unfold slot_at, dir_size. by destruct (Z.ltb_spec o (Z.of_nat (length l) * byts_per_clus (geo f))). Qed.
Lemma slots_enough f l off : file_ok f l → 0 ≤ off → enough (dir_size f l) (slots (geo f)) off.
Proof.
  intros Hf Ho. unfold enough, slots, dir_size.
  pose proof (chain_length _ _ (fg_geo _ (fk_geo _ _ Hf)) (fk_linked _ _ Hf) (fk_nodup _ _ Hf)) as Hl.
  pose proof (fk_geo _ _ Hf) as Hg. pose proof (bpc_pos _ Hg). pose proof (fg_bpc _ Hg) as Hb.
  rewrite Hb. replace (512 * sec_per_clus (geo (f))) with (16 * sec_per_clus (geo f) * 32) at 2 by lia.
  rewrite Z.div_mul by lia. rewrite Z2Nat.id by nia. nia.
Qed.

(** A mounted directory [dp] with chain [l] and a cache entry [ep] for it. *)
Record dir_open (s : vfs D U) (dp ep : Z) (l : list Z) : Prop := {
  do_file : file_ok (v_fat s) l;
  do_at : at_chain (v_ent s dp) l;
  do_ne : dp ≠ ep;
  do_size : dir_size_ok (v_fat s) l;
  do_attr : has (attribute (v_ent s dp)) ATTR_DIRECTORY = true;
  do_valid : e_valid (v_ent s dp) = 1;
  do_ep : e_valid (v_ent s ep) = 0 }.
Lemma dir_open_post s s' dp ep l x :
  dir_open s dp ep l → epost s s' dp ep l x → e_valid x = 0 → dir_open s' dp ep l.
Proof.
  intros [A B C E F G H] Hq Hx. pose proof (epost_ep _ _ _ _ _ _ Hq) as Ep. destruct Hq as [Q1 Q2 Q3 Q4 (c & k & Q5) _ _].
  split; try done; [unfold dir_size_ok; by rewrite Q2|..|by rewrite Ep].
  - by rewrite Q5, (proj2 (Z.eqb_neq dp ep)), Z.eqb_refl by done.
  - by rewrite Q5, (proj2 (Z.eqb_neq dp ep)), Z.eqb_refl by done.
Qed.

Lemma enext_spec s dp ep l off count r c x :
  dir_open s dp ep l → 0 ≤ off → off mod 32 = 0 →
  eparse (slots (geo (v_fat s))) (slot_at (v_fat s) l) off 0 true count (fresh_ent (v_ent s ep)) = Some (r, c, x) →
  ∃ s', enext dp ep off count s = Ok (r, c) s' ∧ epost s s' dp ep l x.
Proof.
  intros [A B C E F G H] Ho H32 Hp. unfold enext, mbindM at 1, get_ent, gets at 1, mbindM at 1, gets at 1.
  rewrite F, H, G, H32. cbn [negb Z.eqb Pos.eqb]. unfold mbindM at 1, get_geo, gets at 1.
  destruct (on_ent_epost s dp ep l (set_filename zero_name) C A B) as (s1 & E1 & Hq1).
  unfold zero_name in E1. rewrite (mbindM_Ok _ _ _ _ _ E1).
  destruct (enext_loop_spec (slots (geo (v_fat s))) dp ep l off 0 true count s1 r c x) as (s' & E' & Hq'); try done;
    [apply Hq1|apply Hq1|unfold dir_size_ok; by rewrite (eo_geo _ _ _ _ _ _ Hq1)| |].
  - rewrite (epost_ep _ _ _ _ _ _ Hq1).
    rewrite (eparse_ext _ (slot_at (v_fat s) l)); [done|]. intros o. by eapply epost_slot.
  - exists s'. split; [done|]. by eapply epost_trans.
Qed.

Lemma listing_ext slot slot' off recs eoff :
  (∀ o, slot' o = slot o) → listing slot off recs eoff → listing slot' off recs eoff.
Proof.
  intros Hs. assert (∀ o n, empties slot o n → empties slot' o n) as He.
  { intros o n H k Hk. rewrite Hs. by apply H. }
  induction 1.
  - eapply li_end; [done|by apply He|by rewrite Hs].
  - eapply li_long; try done. intros i e Hi. rewrite Hs. by apply H1.
  - eapply li_short; try done. by rewrite Hs.
  - eapply li_hole; try done; [by apply He|by rewrite Hs].
Qed.

(** What the loop of [dirlookup] does from [off]. *)
Definition looks_up (fuel : nat) (s : vfs D U) (dp ep : Z) (l name : list Z) (off count : Z) (recs : list drec) (eoff : Z) : Prop :=
  ∃ s' x, epost s s' dp ep l x ∧
    match lookup_rec name recs with
    | Some r => dirlookup_loop fuel dp ep name off count s = Ok (true, d_off r) s' ∧ found r (v_ent s ep) x
    | None => dirlookup_loop fuel dp ep name off count s = Ok (false, eoff) s' ∧ os x = os (v_ent s ep)
    end.

(** A round that passes [n] slots. *)
Lemma lookup_skip fuel s s1 dp ep l name off count n r x recs eoff :
  dir_open s dp ep l → 0 ≤ off → 1 ≤ n → off + 32 * n ≤ dir_size (v_fat s) l →
  enext dp ep off count s = Ok (r, n) s1 → r ≠ -1 → epost s s1 dp ep l x → same_name name (filename x) = false →
  os x = os (v_ent s ep) → looks_up fuel s1 dp ep l name (off + 32 * n) n recs eoff →
  looks_up (S fuel) s dp ep l name off count recs eoff.
Proof.
  intros Hd Ho Hn Hle E Hr Hq Hx Hos (s' & x' & Hq' & Hres). pose proof (epost_ep _ _ _ _ _ _ Hq) as Ep.
  exists s', x'. split; [eapply epost_trans; [apply Hd|exact Hq|exact Hq']|].
  assert (dirlookup_loop (S fuel) dp ep name off count s = dirlookup_loop fuel dp ep name (off + 32 * n) n s1) as ->.
  { cbn [dirlookup_loop]. rewrite (mbindM_Ok _ _ _ _ _ E). cbn [fst snd]. rewrite (proj2 (Z.eqb_neq r (-1))) by done.
    cbn [negb]. cbv zeta. change (1 =? 0) with false. cbv iota. unfold mbindM at 1, get_ent, gets at 1. rewrite Ep, Hx.
    rewrite Z.shiftl_mul_pow2 by lia. rewrite u32_small; [f_equal; lia|].
    pose proof (do_size _ _ _ _ Hd) as Hds. unfold dir_size_ok, dir_size in *. lia. }
  rewrite Ep in Hres. destruct (lookup_rec name recs) as [r'|]; destruct Hres as [-> Hf].
  - split; [done|]. by apply (found_os _ x).
  - split; [done|congruence].
Qed.
(** A round that reads a file. *)
Lemma lookup_file fuel s s1 dp ep l name rec count x recs eoff :
  dir_open s dp ep l → 0 ≤ d_off rec → 1 ≤ d_cnt rec → d_off rec + 32 * d_cnt rec ≤ dir_size (v_fat s) l →
  enext dp ep (d_off rec) count s = Ok (1, d_cnt rec) s1 → epost s s1 dp ep l x → found rec (v_ent s ep) x →
  looks_up fuel s1 dp ep l name (d_off rec + 32 * d_cnt rec) (d_cnt rec) recs eoff →
  looks_up (S fuel) s dp ep l name (d_off rec) count (rec :: recs) eoff.
Proof.
  intros Hd Ho Hn Hle E Hq Hf Hrest. pose proof (found_name name _ _ _ Hf) as En.
  destruct (same_name name (d_name rec)) eqn:Es.
  - exists s1, x. split; [done|]. unfold lookup_rec. cbn [List.find]. rewrite Es. split; [|done].
    cbn [dirlookup_loop]. rewrite (mbindM_Ok _ _ _ _ _ E). cbn [fst snd].
    change (1 =? -1) with false. cbn [negb]. cbv zeta. change (1 =? 0) with false. cbv iota.
    unfold mbindM at 1, get_ent, gets at 1. by rewrite (epost_ep _ _ _ _ _ _ Hq), En.
  - assert (looks_up (S fuel) s dp ep l name (d_off rec) count recs eoff) as H.
    { eapply lookup_skip; try done. by apply (found_os rec (v_ent s ep) (v_ent s ep)). }
    unfold looks_up, lookup_rec in *. cbn [List.find]. by rewrite Es.
Qed.

Lemma dir_size_32 f l : file_ok f l → dir_size f l mod 32 = 0.
Proof.
  intros Hf. unfold dir_size. rewrite (fg_bpc _ (fk_geo _ _ Hf)).
  replace (Z.of_nat (length l) * (512 * sec_per_clus (geo f))) with
    (Z.of_nat (length l) * (16 * sec_per_clus (geo f)) * 32) by lia. by apply Z.mod_mul.
Qed.
Lemma next_slot size off n : size mod 32 = 0 → off mod 32 = 0 → off + 32 * n < size → off + 32 * (n + 1) ≤ size.
Proof. intros H1 H2 H3. Z.div_mod_to_equations. lia. Qed.
Lemma last_laid slot off name ck sn :
  laid_out slot off (name_entries name ck ++ [sn]) → slot (off + 32 * Z.of_nat (lne_count name)) = Some sn.
Proof.
  intros Hl. apply Hl. unfold name_entries. rewrite lookup_app_r; rewrite length_map, length_rev, length_seq; [|lia].
  by rewrite Nat.sub_diag.
Qed.

Lemma dirlookup_loop_spec fuel s dp ep l name off count recs eoff :
  dir_open s dp ep l → real_name name → 0 ≤ off → off mod 32 = 0 → off ≤ dir_size (v_fat s) l →
  listing (slot_at (v_fat s) l) off recs eoff → enough (dir_size (v_fat s) l) fuel off →
  looks_up fuel s dp ep l name off count recs eoff.
Proof.
  intros Hd Hnm. revert s off count recs Hd. induction fuel as [|fuel IH]; intros s off count recs Hd Ho H32 Hle Hlist He.
  { unfold enough in He. lia. }
  pose proof (slots_enough (v_fat s) l off (do_file _ _ _ _ Hd) Ho) as Hen.
  pose proof (slot_size (v_fat s) l) as Hsz. pose proof (dir_size_32 _ _ (do_file _ _ _ _ Hd)) as Hs32.
  assert (∀ s1 n x recs', epost s s1 dp ep l x → os x = os (v_ent s ep) → 1 ≤ n → off + 32 * n ≤ dir_size (v_fat s) l →
    listing (slot_at (v_fat s) l) (off + 32 * n) recs' eoff → looks_up fuel s1 dp ep l name (off + 32 * n) n recs' eoff) as Hnext.
  { intros s1 n x recs' Hq Hos Hn Hle' Hl'. apply IH.
    - eapply dir_open_post; [done|exact Hq|]. pose proof (do_ep _ _ _ _ Hd). unfold os in Hos. congruence.
    - lia.
    - by rewrite Z.mul_comm, Z.mod_add by lia.
    - unfold dir_size in *. by rewrite (eo_geo _ _ _ _ _ _ Hq).
    - eapply listing_ext; [|exact Hl']. intros o. by eapply epost_slot.
    - unfold enough, dir_size in *. rewrite (eo_geo _ _ _ _ _ _ Hq). lia. }
  inversion Hlist as [o n Hn Hem Hend|o nm ck sn rest eo Hnk Hsn Hlo Hrest|o sn rest eo Hsn Hsl Hrest|o n e rest eo Hn Hem Hsl H1 H2 Hrest]; subst.
  - pose proof (eparse_end _ _ Hsz (slots (geo (v_fat s))) eoff n 0 true count (fresh_ent (v_ent s ep)) Hn Hem Hend Hen Hle) as Hp.
    destruct (enext_spec s dp ep l eoff count _ _ _ Hd Ho H32 Hp) as (s1 & E1 & Hq). exists s1, (fresh_ent (v_ent s ep)).
    split; [done|]. cbn [lookup_rec List.find]. split; [|by destruct (v_ent s ep)].
    cbn [dirlookup_loop]. by rewrite (mbindM_Ok _ _ _ _ _ E1).
  - destruct (eparse_file _ _ Hsz (slots (geo (v_fat s))) off nm ck sn count (v_ent s ep) Hnk Hsn Hlo Hen) as (y & Hp & Hf).
    destruct (enext_spec s dp ep l off count _ _ _ Hd Ho H32 Hp) as (s1 & E1 & Hq).
    pose proof (next_slot _ _ _ Hs32 H32 (Hsz _ _ (last_laid _ _ _ _ _ Hlo))) as Hn'.
    apply (lookup_file fuel s s1 dp ep l name (Drec off (Z.of_nat (lne_count nm) + 1) nm sn) count y); try done; [cbn; lia|].
    apply (Hnext s1 _ y); try done; [by eapply found_os_eq|cbn; lia].
  - destruct (eparse_short _ _ Hsz (slots (geo (v_fat s))) off sn count (v_ent s ep) Hsn Hsl Hen) as (y & Hp & Hf).
    destruct (enext_spec s dp ep l off count _ _ _ Hd Ho H32 Hp) as (s1 & E1 & Hq).
    pose proof (next_slot _ off 0 Hs32 H32 ltac:(rewrite Z.add_0_r; by eapply Hsz)) as Hn'.
    apply (lookup_file fuel s s1 dp ep l name (Drec off 1 (cstr (read_short_name zero_name 0 sn)) sn) count y); try done.
    apply (Hnext s1 _ y); try done. by eapply found_os_eq.
  - pose proof (eparse_hole _ _ Hsz (slots (geo (v_fat s))) off n e count (fresh_ent (v_ent s ep)) Hn Hem Hsl H1 H2 Hen) as Hp.
    destruct (enext_spec s dp ep l off count _ _ _ Hd Ho H32 Hp) as (s1 & E1 & Hq). apply Hsz in Hsl.
    assert (os (fresh_ent (v_ent s ep)) = os (v_ent s ep)) as Hos by (by destruct (v_ent s ep)).
    eapply (lookup_skip fuel s s1 dp ep l name off count n 0 (fresh_ent (v_ent s ep))); try done; try lia.
    + unfold fresh_ent. destruct (v_ent s ep). by apply same_name_zero.
    + apply (Hnext s1 n (fresh_ent (v_ent s ep))); try done; lia.
Qed.

(** ** [dirlookup] when the name is not cached *)

(** The scans of [eget]: no valid entry of that name, and [ep] the least
    recently used entry without references. *)
Definition not_cached (s : vfs D U) (dp : Z) (name : list Z) : Prop :=
  escan ring_fuel (λ e, (e_valid (v_ent s e) =? 1) && (e_parent (v_ent s e) =? dp) && same_name (filename (v_ent s e)) name)
    (v_nxt s) (v_nxt s ROOT) = Some None.
Definition victim (s : vfs D U) (ep : Z) : Prop :=
  escan ring_fuel (λ e, e_ref (v_ent s e) =? 0) (v_prv s) (v_prv s ROOT) = Some (Some ep).

Definition recycled (dev : Z) (x : dirent) : dirent :=
  Dirent (filename x) (attribute x) (create_time_tenth x) (create_time x) (create_date x) (last_access_date x)
    (first_clus x) (last_write_time x) (last_write_date x) (file_size x) (cur_clus x) (clus_cnt x) dev 0 0 1 0 (e_parent x) (e_lock x).
Definition with_victim (s : vfs D U) (dp ep : Z) : vfs D U :=
  Vfs (v_fat s) (v_mem s) (upd (v_ent s) ep (recycled (e_dev (v_ent s dp)) (v_ent s ep))) (v_nxt s) (v_prv s).
Lemma eget_miss s dp name ep :
  not_cached s dp name → victim s ep →
  eget dp (Some name) s = Ok ep (with_victim s dp ep).
Proof. intros Hn Hv. unfold eget, mbindM at 1, gets at 1. unfold id. cbv zeta. rewrite Hn, Hv. done. Qed.

(** A directory to look in, and its files. *)
Record dir_ready (s : vfs D U) (dp : Z) (l : list Z) (recs : list drec) (eoff : Z) : Prop := {
  dr_file : file_ok (v_fat s) l;
  dr_at : at_chain (v_ent s dp) l;
  dr_size : dir_size_ok (v_fat s) l;
  dr_attr : has (attribute (v_ent s dp)) ATTR_DIRECTORY = true;
  dr_valid : e_valid (v_ent s dp) = 1;
  dr_dp : dp ≠ NULL;
  dr_list : listing (slot_at (v_fat s) l) 0 recs eoff }.

(** The cache entry for file [r] of directory [dp]. *)
Record cached_file (x : dirent) (r : drec) (dp : Z) : Prop := {
  cf_name : cstr (filename x) = d_name r;
  cf_attr : attribute x = nth 11 (d_sne r) 0;
  cf_clus : first_clus x = Z.lor (Z.shiftl (get16 (d_sne r) 20) 16) (get16 (d_sne r) 26) ∧ cur_clus x = first_clus x ∧ clus_cnt x = 0;
  cf_size : file_size x = get32 (d_sne r) 28;
  cf_write : last_write_time x = get16 (d_sne r) 22 ∧ last_write_date x = get16 (d_sne r) 24;
  cf_os : os x = (e_dev x, 0, 1, 1, d_off r, dp, e_lock x) }.

(** From the start of [dirlookup] to its loop. *)
Lemma dirlookup_to_loop s dp ep l name recs eoff :
  dir_ready s dp l recs eoff → same_name name (chars ".") = false → same_name name (chars "..") = false →
  not_cached s dp name → victim s ep → dp ≠ ep →
  ∃ s2, epost (with_victim s dp ep) s2 dp ep l (recycled (e_dev (v_ent s dp)) (v_ent s ep)) ∧
    dir_open s2 dp ep l ∧ listing (slot_at (v_fat s2) l) 0 recs eoff ∧
    dirlookup me dp name s =
      (r <-- dirlookup_loop (slots (geo (v_fat s2))) dp ep name 0 0 ;;
       if (r.1 : bool) then
         edup dp ;;; on_ent ep (λ x, set_e_valid 1 (set_e_off r.2 (set_e_parent dp x))) ;;; mretM (ep, None)
       else eput me ep ;;; mretM (NULL, Some r.2)) s2.
Proof.
  intros [A B C E F Hdp G] Hd1 Hd2 Hnc Hv Hne. set (s1 := with_victim s dp ep).
  assert (v_ent s1 dp = v_ent s dp ∧ v_ent s1 ep = recycled (e_dev (v_ent s dp)) (v_ent s ep)) as [Edp Eep].
  { simpl. by rewrite upd_ne, upd_eq. }
  pose proof (bpc_small _ (fk_geo _ _ A)) as Hb. pose proof (lookup_lt_Some _ _ _ (ac_first _ _ B)) as Hlen.
  destruct (reloc_clus_spec dp 0 false l s1) as (s2 & c & E2 & _ & Hm2 & Ha2); [done|by rewrite Edp|lia|simpl; lia|].
  pose proof (io_epost s1 s2 dp ep l Hne (moved_io _ _ _ _ _ _ Hm2 Ha2) (mv_mem _ _ _ _ _ _ Hm2)) as Hq2.
  assert (dir_open s1 dp ep l) as Ho1 by (split; rewrite ?Edp, ?Eep; done).
  rewrite Eep in Hq2. exists s2. split; [exact Hq2|]. split; [eapply dir_open_post; [exact Ho1|exact Hq2|done]|]. split.
  { eapply listing_ext; [|exact G]. intros o. by rewrite (epost_slot _ _ _ _ _ _ o Hq2). }
  unfold dirlookup, mbindM at 1, get_ent at 1, gets at 1. rewrite E, Hd1, Hd2, F. cbn [negb Z.eqb Pos.eqb].
  rewrite (mbindM_Ok _ _ _ _ _ (eget_miss s dp name ep Hnc Hv)). fold s1.
  unfold mbindM at 1, get_valid, gets at 1. rewrite Eep. cbn [e_valid recycled Z.eqb].
  unfold mbindM at 1, get_geo, gets at 1. rewrite (mbindM_Ok _ _ _ _ _ E2).
  by rewrite (eo_geo _ _ _ _ _ _ Hq2).
Qed.

Lemma found_cached r x y o dp :
  found r x y → e_dirty x = 0 → e_ref x = 1 → o = d_off r → cached_file (set_e_valid 1 (set_e_off o (set_e_parent dp y))) r dp.
Proof. intros (b & Hb & ->) H1 H2 ->. destruct x. simpl in *. subst. by split. Qed.

Lemma dirlookup_miss s dp ep l name recs eoff :
  dir_ready s dp l recs eoff → real_name name → same_name name (chars ".") = false → same_name name (chars "..") = false →
  not_cached s dp name → victim s ep → dp ≠ ep → ep ≠ NULL →
  ∃ s', (∀ i, dbyte (dsk (v_fat s')) i = dbyte (dsk (v_fat s)) i) ∧ file_ok (v_fat s') l ∧
    (∀ i, i ≠ ep → i ≠ dp → v_ent s' i = v_ent s i) ∧
    match lookup_rec name recs with
    | Some r => dirlookup me dp name s = Ok (ep, None) s' ∧ cached_file (v_ent s' ep) r dp ∧
                e_ref (v_ent s' dp) = i32 (e_ref (v_ent s dp) + 1)
    | None => dirlookup me dp name s = Ok (NULL, Some eoff) s' ∧ e_ref (v_ent s' ep) = 0 ∧
              e_ref (v_ent s' dp) = e_ref (v_ent s dp)
    end.
Proof.
  intros Hr Hnm Hd1 Hd2 Hnc Hv Hne Hep.
  destruct (dirlookup_to_loop s dp ep l name recs eoff Hr Hd1 Hd2 Hnc Hv Hne) as (s2 & Hq2 & Ho2 & Hl2 & ->).
  pose proof (dr_dp _ _ _ _ _ Hr) as Hdp. pose proof (bpc_small _ (fk_geo _ _ (do_file _ _ _ _ Ho2))).
  destruct (dirlookup_loop_spec (slots (geo (v_fat s2))) s2 dp ep l name 0 0 recs eoff Ho2 Hnm) as (s3 & x & Hq3 & Hres);
    [lia|done|unfold dir_size; nia|done|apply slots_enough; [apply Ho2|lia]|].
  rewrite (epost_ep _ _ _ _ _ _ Hq2) in Hres.
  pose proof (epost_trans _ s2 s3 dp ep l _ _ Hne Hq2 Hq3) as Hq.
  pose proof (epost_ep _ _ _ _ _ _ Hq) as Ex. destruct Hq as [Q1 Q2 Q3 Q4 (c' & k' & Q5) _ _].
  assert (v_ent s3 dp = set_pos c' k' (v_ent s dp)) as Edp.
  { rewrite Q5, (proj2 (Z.eqb_neq dp ep)), Z.eqb_refl by done. simpl. by rewrite upd_ne. }
  assert (∀ i, i ≠ ep → i ≠ dp → v_ent s3 i = v_ent s i) as Hoth.
  { intros i H1 H2. rewrite Q5, (proj2 (Z.eqb_neq i ep)), (proj2 (Z.eqb_neq i dp)) by done. simpl. by rewrite upd_ne. }
  destruct (lookup_rec name recs) as [r|]; destruct Hres as [El Hf]; rewrite (mbindM_Ok _ _ _ _ _ El); cbn [fst snd].
  - unfold edup. rewrite (proj2 (Z.eqb_neq dp NULL)) by done. cbn [negb whenM].
    unfold mbindM, on_ent, modify, mretM. cbn [v_fat v_mem v_ent v_nxt v_prv]. eexists. split; [|split; [|split; [|split; [done|]]]].
    + done.
    + done.
    + intros i H1 H2. cbn [v_ent]. rewrite !upd_ne by done. by apply Hoth.
    + cbn [v_ent]. rewrite upd_eq, !upd_ne by done. rewrite Ex. split; [by eapply found_cached|].
      rewrite upd_eq, Edp. done.
  - assert (e_valid x = 0 ∧ e_ref x = 1) as [Hv0 Hr1].
    { unfold os in Hf. cbn [recycled e_valid e_ref e_dirty] in Hf. by injection Hf. }
    assert (eput me ep s3 = Ok tt (Vfs (v_fat s3) (v_mem s3) (upd (v_ent s3) ep (set_e_ref 0 x)) (v_nxt s3) (v_prv s3))) as Ep.
    { unfold eput. cbn [eput_loop]. unfold mbindM at 1, get_ent, gets at 1. rewrite Ex, Hv0, Hr1. cbn [Z.eqb negb].
      rewrite andb_false_r. cbv [on_ent modify andb]. cbn iota.
      by rewrite Ex. }
    rewrite (mbindM_Ok _ _ _ _ _ Ep). eexists. split; [|split; [|split; [|split; [done|]]]].
    + done.
    + done.
    + intros i H1 H2. cbn [v_ent]. rewrite !upd_ne by done. by apply Hoth.
    + cbn [v_ent]. rewrite upd_eq, upd_ne, Edp by done. by destruct x.
Qed.
End Lookup.



(** ** A root directory with one file under a long name, a removed slot and a
    file under a short name *)
Section Demo.
Local Existing Instance mem_sectors.
Local Existing Instance flat_mem.

Definition demo_long : list Z := chars "Read me first.txt".
Definition demo_sn (name : list Z) (clus size : Z) : list Z :=
  name ++ [32] ++ replicate 14 0 ++ bytes16 clus ++ map (λ i, (size / 2 ^ (8 * i)) mod 256) [0; 1; 2; 3].
Definition demo_sn1 : list Z := demo_sn (generate_shortname demo_long) 3 700.
Definition demo_sn2 : list Z := demo_sn (chars "KERNEL  BIN") 5 40000.
Definition demo_slots : list (list Z) :=
  name_entries demo_long (cal_checksum (generate_shortname demo_long)) ++ [demo_sn1; [EMPTY_ENTRY] ++ replicate 31 0; demo_sn2].
Definition dir_sec : list Z := concat demo_slots ++ replicate (512 - 32 * 5) 0.
Definition dir_dsk : Z → list Z := λ n, if n =? 1 then demo_fat_sec else if n =? 3 then dir_sec else replicate 512 0.
Definition dir_fs : fatfs (Z → list Z) := Fatfs demo_geo demo_fc dir_dsk.
Definition dir_vfs : vfs (Z → list Z) (Z → Z) :=
  ecache_init (Vfs dir_fs (λ _, 0) (λ _, blank_ent) (λ _, 0) (λ _, 0)).

Lemma dir_fs_ok : file_ok dir_fs [2].
Proof.
  split.
  - split; [|apply fat_cache_init_ok]. destruct (demo_vol demo_fc) as [A _ _]. split; [done|done|].
    intros n. cbn [dsk sector_of mem_sectors dir_fs]. unfold dir_dsk. destruct (n =? 1), (n =? 3); done.
  - split; [apply (demo_vol demo_fc)|done|done].
  - intros i Hi. unfold dir_fs, demo_fc. simpl. rewrite (proj2 (in_range_true _ _ _)) by lia. done.
  - intros [|i] c; cbn [lookup list_lookup]; [|done]. intros [= <-]. split; [unfold data_clus; simpl; lia|]. vm_compute; done.
  - apply NoDup_singleton.
Qed.
Definition demo_recs : list drec :=
  [Drec 0 3 demo_long demo_sn1; Drec 128 1 (cstr (read_short_name zero_name 0 demo_sn2)) demo_sn2].
Lemma demo_listing : listing (slot_at dir_fs [2]) 0 demo_recs 160.
Proof.
  apply (li_long _ 0 demo_long (cal_checksum (generate_shortname demo_long)) demo_sn1).
  - split; [|vm_compute; lia]. unfold name_char. repeat constructor; cbn; lia.
  - vm_compute. done.
  - intros [|[|[|i]]] e; [intros [= <-]; vm_compute; reflexivity..|done].
  - apply (li_hole _ _ 1 demo_sn2); [done|..].
    + intros k Hk. assert (k = 0) as -> by lia. eexists. split; [vm_compute; reflexivity|done].
    + vm_compute. reflexivity.
    + vm_compute. done.
    + vm_compute. done.
    + apply (li_short _ 128 demo_sn2); [vm_compute; done|vm_compute; reflexivity|].
      apply (li_end _ _ 0); [done|intros k Hk; lia|vm_compute; reflexivity].
Qed.
Lemma dir_vfs_ready : dir_ready dir_vfs ROOT [2] demo_recs 160.
Proof. split; [apply dir_fs_ok|by split|done..|apply demo_listing]. Qed.

End Demo.
