(* ===== verification/ProcDefs.v ===== *)
(** * Processes: the process table and the kernel state

    [struct proc] of kernel/include/proc.h and the globals of kernel/proc.c.
    The process table is an array indexed from 0 to [NPROC - 1]; a
    [struct proc *] is an index, [NULL] is -1.  Locks and the saved context
    beyond [ra] and [sp] are left out. *)
From stdpp Require Import prelude list strings.
From Stdlib Require Import ZArith Lia.
From S2P Require Import Prelude Riscv Kalloc VM Vma.
Open Scope Z_scope.

Definition NPROC : Z := 50.
Definition NOFILE : nat := 16.
Definition NSIG : nat := 32.
Definition MFQ_NQUEUES : Z := 3.
Definition MFQ_TIME_SLICE_0 : Z := 1.
Definition MFQ_TIME_SLICE_1 : Z := 2.
Definition MFQ_TIME_SLICE_2 : Z := 4.
Definition SIG_DFL : Z := 0.
Definition SIG_IGN : Z := 1.

Inductive procstate := UNUSED | SLEEPING | RUNNABLE | RUNNING | ZOMBIE.

#[global] Instance procstate_eq_dec : EqDecision procstate.
Proof. solve_decision. Defined.

Record proc := Proc {
  p_state : procstate; p_parent : Z; p_chan : Z; p_killed : Z; p_xstate : Z; p_pid : Z;
  p_kstack : Z; sz : Z; pagetable : Z; kpagetable : Z; trapframe : Z; ctx_ra : Z; ctx_sp : Z;
  ofile : list Z; cwd : Z; name : list Z; tmask : Z; priority : Z; queue_level : Z;
  time_slice : Z; ticks_used : Z; utime : Z; stime : Z; start_time : Z; sig_pending : Z;
  sig_handlers : list Z; sig_mask : Z; sandbox_on : Z; sandbox_action : Z; allow_mask : list Z;
  vma_man : vma_manager }.

Definition set_p_state (v : procstate) (p : proc) : proc :=
  Proc v (p_parent p) (p_chan p) (p_killed p) (p_xstate p) (p_pid p) (p_kstack p) (sz p)
    (pagetable p) (kpagetable p) (trapframe p) (ctx_ra p) (ctx_sp p) (ofile p) (cwd p) (name p)
    (tmask p) (priority p) (queue_level p) (time_slice p) (ticks_used p) (utime p) (stime p)
    (start_time p) (sig_pending p) (sig_handlers p) (sig_mask p) (sandbox_on p) (sandbox_action p)
    (allow_mask p) (vma_man p).
Definition set_p_parent (v : Z) (p : proc) : proc :=
  Proc (p_state p) v (p_chan p) (p_killed p) (p_xstate p) (p_pid p) (p_kstack p) (sz p)
    (pagetable p) (kpagetable p) (trapframe p) (ctx_ra p) (ctx_sp p) (ofile p) (cwd p) (name p)
    (tmask p) (priority p) (queue_level p) (time_slice p) (ticks_used p) (utime p) (stime p)
    (start_time p) (sig_pending p) (sig_handlers p) (sig_mask p) (sandbox_on p) (sandbox_action p)
    (allow_mask p) (vma_man p).
Definition set_p_chan (v : Z) (p : proc) : proc :=
  Proc (p_state p) (p_parent p) v (p_killed p) (p_xstate p) (p_pid p) (p_kstack p) (sz p)
    (pagetable p) (kpagetable p) (trapframe p) (ctx_ra p) (ctx_sp p) (ofile p) (cwd p) (name p)
    (tmask p) (priority p) (queue_level p) (time_slice p) (ticks_used p) (utime p) (stime p)
    (start_time p) (sig_pending p) (sig_handlers p) (sig_mask p) (sandbox_on p) (sandbox_action p)
    (allow_mask p) (vma_man p).
Definition set_p_killed (v : Z) (p : proc) : proc :=
  Proc (p_state p) (p_parent p) (p_chan p) v (p_xstate p) (p_pid p) (p_kstack p) (sz p)
    (pagetable p) (kpagetable p) (trapframe p) (ctx_ra p) (ctx_sp p) (ofile p) (cwd p) (name p)
    (tmask p) (priority p) (queue_level p) (time_slice p) (ticks_used p) (utime p) (stime p)
    (start_time p) (sig_pending p) (sig_handlers p) (sig_mask p) (sandbox_on p) (sandbox_action p)
    (allow_mask p) (vma_man p).
Definition set_p_xstate (v : Z) (p : proc) : proc :=
  Proc (p_state p) (p_parent p) (p_chan p) (p_killed p) v (p_pid p) (p_kstack p) (sz p)
    (pagetable p) (kpagetable p) (trapframe p) (ctx_ra p) (ctx_sp p) (ofile p) (cwd p) (name p)
    (tmask p) (priority p) (queue_level p) (time_slice p) (ticks_used p) (utime p) (stime p)
    (start_time p) (sig_pending p) (sig_handlers p) (sig_mask p) (sandbox_on p) (sandbox_action p)
    (allow_mask p) (vma_man p).
Definition set_p_pid (v : Z) (p : proc) : proc :=
  Proc (p_state p) (p_parent p) (p_chan p) (p_killed p) (p_xstate p) v (p_kstack p) (sz p)
    (pagetable p) (kpagetable p) (trapframe p) (ctx_ra p) (ctx_sp p) (ofile p) (cwd p) (name p)
    (tmask p) (priority p) (queue_level p) (time_slice p) (ticks_used p) (utime p) (stime p)
    (start_time p) (sig_pending p) (sig_handlers p) (sig_mask p) (sandbox_on p) (sandbox_action p)
    (allow_mask p) (vma_man p).
Definition set_p_kstack (v : Z) (p : proc) : proc :=
  Proc (p_state p) (p_parent p) (p_chan p) (p_killed p) (p_xstate p) (p_pid p) v (sz p)
    (pagetable p) (kpagetable p) (trapframe p) (ctx_ra p) (ctx_sp p) (ofile p) (cwd p) (name p)
    (tmask p) (priority p) (queue_level p) (time_slice p) (ticks_used p) (utime p) (stime p)
    (start_time p) (sig_pending p) (sig_handlers p) (sig_mask p) (sandbox_on p) (sandbox_action p)
    (allow_mask p) (vma_man p).
Definition set_sz (v : Z) (p : proc) : proc :=
  Proc (p_state p) (p_parent p) (p_chan p) (p_killed p) (p_xstate p) (p_pid p) (p_kstack p) v
    (pagetable p) (kpagetable p) (trapframe p) (ctx_ra p) (ctx_sp p) (ofile p) (cwd p) (name p)
    (tmask p) (priority p) (queue_level p) (time_slice p) (ticks_used p) (utime p) (stime p)
    (start_time p) (sig_pending p) (sig_handlers p) (sig_mask p) (sandbox_on p) (sandbox_action p)
    (allow_mask p) (vma_man p).
Definition set_pagetable (v : Z) (p : proc) : proc :=
  Proc (p_state p) (p_parent p) (p_chan p) (p_killed p) (p_xstate p) (p_pid p) (p_kstack p) (sz p)
    v (kpagetable p) (trapframe p) (ctx_ra p) (ctx_sp p) (ofile p) (cwd p) (name p) (tmask p)
    (priority p) (queue_level p) (time_slice p) (ticks_used p) (utime p) (stime p) (start_time p)
    (sig_pending p) (sig_handlers p) (sig_mask p) (sandbox_on p) (sandbox_action p) (allow_mask p)
    (vma_man p).
Definition set_kpagetable (v : Z) (p : proc) : proc :=
  Proc (p_state p) (p_parent p) (p_chan p) (p_killed p) (p_xstate p) (p_pid p) (p_kstack p) (sz p)
    (pagetable p) v (trapframe p) (ctx_ra p) (ctx_sp p) (ofile p) (cwd p) (name p) (tmask p)
    (priority p) (queue_level p) (time_slice p) (ticks_used p) (utime p) (stime p) (start_time p)
    (sig_pending p) (sig_handlers p) (sig_mask p) (sandbox_on p) (sandbox_action p) (allow_mask p)
    (vma_man p).
Definition set_trapframe (v : Z) (p : proc) : proc :=
  Proc (p_state p) (p_parent p) (p_chan p) (p_killed p) (p_xstate p) (p_pid p) (p_kstack p) (sz p)
    (pagetable p) (kpagetable p) v (ctx_ra p) (ctx_sp p) (ofile p) (cwd p) (name p) (tmask p)
    (priority p) (queue_level p) (time_slice p) (ticks_used p) (utime p) (stime p) (start_time p)
    (sig_pending p) (sig_handlers p) (sig_mask p) (sandbox_on p) (sandbox_action p) (allow_mask p)
    (vma_man p).
Definition set_ctx_ra (v : Z) (p : proc) : proc :=
  Proc (p_state p) (p_parent p) (p_chan p) (p_killed p) (p_xstate p) (p_pid p) (p_kstack p) (sz p)
    (pagetable p) (kpagetable p) (trapframe p) v (ctx_sp p) (ofile p) (cwd p) (name p) (tmask p)
    (priority p) (queue_level p) (time_slice p) (ticks_used p) (utime p) (stime p) (start_time p)
    (sig_pending p) (sig_handlers p) (sig_mask p) (sandbox_on p) (sandbox_action p) (allow_mask p)
    (vma_man p).
Definition set_ctx_sp (v : Z) (p : proc) : proc :=
  Proc (p_state p) (p_parent p) (p_chan p) (p_killed p) (p_xstate p) (p_pid p) (p_kstack p) (sz p)
    (pagetable p) (kpagetable p) (trapframe p) (ctx_ra p) v (ofile p) (cwd p) (name p) (tmask p)
    (priority p) (queue_level p) (time_slice p) (ticks_used p) (utime p) (stime p) (start_time p)
    (sig_pending p) (sig_handlers p) (sig_mask p) (sandbox_on p) (sandbox_action p) (allow_mask p)
    (vma_man p).
Definition set_ofile (v : list Z) (p : proc) : proc :=
  Proc (p_state p) (p_parent p) (p_chan p) (p_killed p) (p_xstate p) (p_pid p) (p_kstack p) (sz p)
    (pagetable p) (kpagetable p) (trapframe p) (ctx_ra p) (ctx_sp p) v (cwd p) (name p) (tmask p)
    (priority p) (queue_level p) (time_slice p) (ticks_used p) (utime p) (stime p) (start_time p)
    (sig_pending p) (sig_handlers p) (sig_mask p) (sandbox_on p) (sandbox_action p) (allow_mask p)
    (vma_man p).
Definition set_cwd (v : Z) (p : proc) : proc :=
  Proc (p_state p) (p_parent p) (p_chan p) (p_killed p) (p_xstate p) (p_pid p) (p_kstack p) (sz p)
    (pagetable p) (kpagetable p) (trapframe p) (ctx_ra p) (ctx_sp p) (ofile p) v (name p)
    (tmask p) (priority p) (queue_level p) (time_slice p) (ticks_used p) (utime p) (stime p)
    (start_time p) (sig_pending p) (sig_handlers p) (sig_mask p) (sandbox_on p) (sandbox_action p)
    (allow_mask p) (vma_man p).
Definition set_name (v : list Z) (p : proc) : proc :=
  Proc (p_state p) (p_parent p) (p_chan p) (p_killed p) (p_xstate p) (p_pid p) (p_kstack p) (sz p)
    (pagetable p) (kpagetable p) (trapframe p) (ctx_ra p) (ctx_sp p) (ofile p) (cwd p) v (tmask p)
    (priority p) (queue_level p) (time_slice p) (ticks_used p) (utime p) (stime p) (start_time p)
    (sig_pending p) (sig_handlers p) (sig_mask p) (sandbox_on p) (sandbox_action p) (allow_mask p)
    (vma_man p).
Definition set_tmask (v : Z) (p : proc) : proc :=
  Proc (p_state p) (p_parent p) (p_chan p) (p_killed p) (p_xstate p) (p_pid p) (p_kstack p) (sz p)
    (pagetable p) (kpagetable p) (trapframe p) (ctx_ra p) (ctx_sp p) (ofile p) (cwd p) (name p) v
    (priority p) (queue_level p) (time_slice p) (ticks_used p) (utime p) (stime p) (start_time p)
    (sig_pending p) (sig_handlers p) (sig_mask p) (sandbox_on p) (sandbox_action p) (allow_mask p)
    (vma_man p).
Definition set_priority (v : Z) (p : proc) : proc :=
  Proc (p_state p) (p_parent p) (p_chan p) (p_killed p) (p_xstate p) (p_pid p) (p_kstack p) (sz p)
    (pagetable p) (kpagetable p) (trapframe p) (ctx_ra p) (ctx_sp p) (ofile p) (cwd p) (name p)
    (tmask p) v (queue_level p) (time_slice p) (ticks_used p) (utime p) (stime p) (start_time p)
    (sig_pending p) (sig_handlers p) (sig_mask p) (sandbox_on p) (sandbox_action p) (allow_mask p)
    (vma_man p).
Definition set_queue_level (v : Z) (p : proc) : proc :=
  Proc (p_state p) (p_parent p) (p_chan p) (p_killed p) (p_xstate p) (p_pid p) (p_kstack p) (sz p)
    (pagetable p) (kpagetable p) (trapframe p) (ctx_ra p) (ctx_sp p) (ofile p) (cwd p) (name p)
    (tmask p) (priority p) v (time_slice p) (ticks_used p) (utime p) (stime p) (start_time p)
    (sig_pending p) (sig_handlers p) (sig_mask p) (sandbox_on p) (sandbox_action p) (allow_mask p)
    (vma_man p).
Definition set_time_slice (v : Z) (p : proc) : proc :=
  Proc (p_state p) (p_parent p) (p_chan p) (p_killed p) (p_xstate p) (p_pid p) (p_kstack p) (sz p)
    (pagetable p) (kpagetable p) (trapframe p) (ctx_ra p) (ctx_sp p) (ofile p) (cwd p) (name p)
    (tmask p) (priority p) (queue_level p) v (ticks_used p) (utime p) (stime p) (start_time p)
    (sig_pending p) (sig_handlers p) (sig_mask p) (sandbox_on p) (sandbox_action p) (allow_mask p)
    (vma_man p).
Definition set_ticks_used (v : Z) (p : proc) : proc :=
  Proc (p_state p) (p_parent p) (p_chan p) (p_killed p) (p_xstate p) (p_pid p) (p_kstack p) (sz p)
    (pagetable p) (kpagetable p) (trapframe p) (ctx_ra p) (ctx_sp p) (ofile p) (cwd p) (name p)
    (tmask p) (priority p) (queue_level p) (time_slice p) v (utime p) (stime p) (start_time p)
    (sig_pending p) (sig_handlers p) (sig_mask p) (sandbox_on p) (sandbox_action p) (allow_mask p)
    (vma_man p).
Definition set_utime (v : Z) (p : proc) : proc :=
  Proc (p_state p) (p_parent p) (p_chan p) (p_killed p) (p_xstate p) (p_pid p) (p_kstack p) (sz p)
    (pagetable p) (kpagetable p) (trapframe p) (ctx_ra p) (ctx_sp p) (ofile p) (cwd p) (name p)
    (tmask p) (priority p) (queue_level p) (time_slice p) (ticks_used p) v (stime p)
    (start_time p) (sig_pending p) (sig_handlers p) (sig_mask p) (sandbox_on p) (sandbox_action p)
    (allow_mask p) (vma_man p).
Definition set_stime (v : Z) (p : proc) : proc :=
  Proc (p_state p) (p_parent p) (p_chan p) (p_killed p) (p_xstate p) (p_pid p) (p_kstack p) (sz p)
    (pagetable p) (kpagetable p) (trapframe p) (ctx_ra p) (ctx_sp p) (ofile p) (cwd p) (name p)
    (tmask p) (priority p) (queue_level p) (time_slice p) (ticks_used p) (utime p) v
    (start_time p) (sig_pending p) (sig_handlers p) (sig_mask p) (sandbox_on p) (sandbox_action p)
    (allow_mask p) (vma_man p).
Definition set_start_time (v : Z) (p : proc) : proc :=
  Proc (p_state p) (p_parent p) (p_chan p) (p_killed p) (p_xstate p) (p_pid p) (p_kstack p) (sz p)
    (pagetable p) (kpagetable p) (trapframe p) (ctx_ra p) (ctx_sp p) (ofile p) (cwd p) (name p)
    (tmask p) (priority p) (queue_level p) (time_slice p) (ticks_used p) (utime p) (stime p) v
    (sig_pending p) (sig_handlers p) (sig_mask p) (sandbox_on p) (sandbox_action p) (allow_mask p)
    (vma_man p).
Definition set_sig_pending (v : Z) (p : proc) : proc :=
  Proc (p_state p) (p_parent p) (p_chan p) (p_killed p) (p_xstate p) (p_pid p) (p_kstack p) (sz p)
    (pagetable p) (kpagetable p) (trapframe p) (ctx_ra p) (ctx_sp p) (ofile p) (cwd p) (name p)
    (tmask p) (priority p) (queue_level p) (time_slice p) (ticks_used p) (utime p) (stime p)
    (start_time p) v (sig_handlers p) (sig_mask p) (sandbox_on p) (sandbox_action p)
    (allow_mask p) (vma_man p).
Definition set_sig_handlers (v : list Z) (p : proc) : proc :=
  Proc (p_state p) (p_parent p) (p_chan p) (p_killed p) (p_xstate p) (p_pid p) (p_kstack p) (sz p)
    (pagetable p) (kpagetable p) (trapframe p) (ctx_ra p) (ctx_sp p) (ofile p) (cwd p) (name p)
    (tmask p) (priority p) (queue_level p) (time_slice p) (ticks_used p) (utime p) (stime p)
    (start_time p) (sig_pending p) v (sig_mask p) (sandbox_on p) (sandbox_action p) (allow_mask p)
    (vma_man p).
Definition set_sig_mask (v : Z) (p : proc) : proc :=
  Proc (p_state p) (p_parent p) (p_chan p) (p_killed p) (p_xstate p) (p_pid p) (p_kstack p) (sz p)
    (pagetable p) (kpagetable p) (trapframe p) (ctx_ra p) (ctx_sp p) (ofile p) (cwd p) (name p)
    (tmask p) (priority p) (queue_level p) (time_slice p) (ticks_used p) (utime p) (stime p)
    (start_time p) (sig_pending p) (sig_handlers p) v (sandbox_on p) (sandbox_action p)
    (allow_mask p) (vma_man p).
Definition set_sandbox_on (v : Z) (p : proc) : proc :=
  Proc (p_state p) (p_parent p) (p_chan p) (p_killed p) (p_xstate p) (p_pid p) (p_kstack p) (sz p)
    (pagetable p) (kpagetable p) (trapframe p) (ctx_ra p) (ctx_sp p) (ofile p) (cwd p) (name p)
    (tmask p) (priority p) (queue_level p) (time_slice p) (ticks_used p) (utime p) (stime p)
    (start_time p) (sig_pending p) (sig_handlers p) (sig_mask p) v (sandbox_action p)
    (allow_mask p) (vma_man p).
Definition set_sandbox_action (v : Z) (p : proc) : proc :=
  Proc (p_state p) (p_parent p) (p_chan p) (p_killed p) (p_xstate p) (p_pid p) (p_kstack p) (sz p)
    (pagetable p) (kpagetable p) (trapframe p) (ctx_ra p) (ctx_sp p) (ofile p) (cwd p) (name p)
    (tmask p) (priority p) (queue_level p) (time_slice p) (ticks_used p) (utime p) (stime p)
    (start_time p) (sig_pending p) (sig_handlers p) (sig_mask p) (sandbox_on p) v (allow_mask p)
    (vma_man p).
Definition set_allow_mask (v : list Z) (p : proc) : proc :=
  Proc (p_state p) (p_parent p) (p_chan p) (p_killed p) (p_xstate p) (p_pid p) (p_kstack p) (sz p)
    (pagetable p) (kpagetable p) (trapframe p) (ctx_ra p) (ctx_sp p) (ofile p) (cwd p) (name p)
    (tmask p) (priority p) (queue_level p) (time_slice p) (ticks_used p) (utime p) (stime p)
    (start_time p) (sig_pending p) (sig_handlers p) (sig_mask p) (sandbox_on p) (sandbox_action p)
    v (vma_man p).
Definition set_vma_man (v : vma_manager) (p : proc) : proc :=
  Proc (p_state p) (p_parent p) (p_chan p) (p_killed p) (p_xstate p) (p_pid p) (p_kstack p) (sz p)
    (pagetable p) (kpagetable p) (trapframe p) (ctx_ra p) (ctx_sp p) (ofile p) (cwd p) (name p)
    (tmask p) (priority p) (queue_level p) (time_slice p) (ticks_used p) (utime p) (stime p)
    (start_time p) (sig_pending p) (sig_handlers p) (sig_mask p) (sandbox_on p) (sandbox_action p)
    (allow_mask p) v.

(** The kernel's global state: process table, [nextpid], [initproc], [ticks],
    physical memory, the kernel page table, and the open files. *)
Record kern (F : Type) := Kern {
  procs : Z → proc; nextpid : Z; initproc : Z; ticks : Z;
  km : kst; kernel_pagetable : Z; fs : F }.
Arguments Kern {F}.
Arguments procs {F}.
Arguments nextpid {F}.
Arguments initproc {F}.
Arguments ticks {F}.
Arguments km {F}.
Arguments kernel_pagetable {F}.
Arguments fs {F}.

Section Kern.
Context {F : Type}.

Definition set_procs (p : Z → proc) (k : kern F) : kern F :=
  Kern p (nextpid k) (initproc k) (ticks k) (km k) (kernel_pagetable k) (fs k).
Definition set_nextpid (n : Z) (k : kern F) : kern F :=
  Kern (procs k) n (initproc k) (ticks k) (km k) (kernel_pagetable k) (fs k).
Definition set_initproc (n : Z) (k : kern F) : kern F :=
  Kern (procs k) (nextpid k) n (ticks k) (km k) (kernel_pagetable k) (fs k).
Definition set_ticks (n : Z) (k : kern F) : kern F :=
  Kern (procs k) (nextpid k) (initproc k) n (km k) (kernel_pagetable k) (fs k).
Definition set_km (m : kst) (k : kern F) : kern F :=
  Kern (procs k) (nextpid k) (initproc k) (ticks k) m (kernel_pagetable k) (fs k).
Definition set_fs (f : F) (k : kern F) : kern F :=
  Kern (procs k) (nextpid k) (initproc k) (ticks k) (km k) (kernel_pagetable k) f.

(** Running memory and file operations inside the kernel state; updating and
    reading one process. *)
Definition mem_op {A} (c : M kst A) : M (kern F) A := zoom km set_km c.
Definition file_op {A} (c : M F A) : M (kern F) A := zoom fs set_fs c.
Definition on_proc (i : Z) (f : proc → proc) : M (kern F) unit :=
  modify (λ k, set_procs (upd (procs k) i (f (procs k i))) k).
Definition get_proc (i : Z) : M (kern F) proc := gets (λ k, procs k i).

Definition proc_ids : list Z := seqZ 0 NPROC.

(** First process of the table that satisfies [f]. *)
Fixpoint find_proc (f : Z → bool) (l : list Z) : option Z :=
  match l with [] => None | i :: l => if f i then Some i else find_proc f l end.
End Kern.

(** The sleep channel [p] of process [i] (its own address); other channels are
    positive. *)
Definition proc_chan (i : Z) : Z := - (i + 1).

(** Offsets in [struct trapframe] (kernel/include/trap.h) and its size. *)
Definition TF_EPC : Z := 24.
Definition TF_SP : Z := 48.
Definition TF_A0 : Z := 112.
Definition TF_A7 : Z := 168.
Definition TF_SIGRET : Z := 288.
Definition TF_SIZE : Z := 296.

Definition tf_get (off : Z) (p : proc) (s : kst) : Z := load64 (mem s) (trapframe p + off).
Definition tf_set (off v : Z) (p : proc) : M kst unit :=
  modify (λ s, set_mem (store64 (mem s) (trapframe p + off) v) s).

(** The current directory's reference count (edup and eput of fat32.c). *)
Class EntryRefs (F : Type) := {
  edup_ : Z → M F unit;
  eput_ : Z → M F unit }.

Lemma find_proc_Some f l i :
  find_proc f l = Some i → i ∈ l ∧ f i = true.
Proof.
  induction l as [|j l IH]; simpl; [done|]. destruct (f j) eqn:E.
  - intros [= ->]. split; [left|done].
  - intros H%IH. split; [right|]; tauto.
Qed.
Lemma find_proc_None f l i : find_proc f l = None → i ∈ l → f i = false.
Proof.
  induction l as [|j l IH]; simpl; intros E Hi; [by apply elem_of_nil in Hi|].
  destruct (f j) eqn:Ej; [done|]. apply elem_of_cons in Hi as [->|Hi]; [done|by apply IH].
Qed.
Lemma proc_ids_spec i : i ∈ proc_ids ↔ 0 ≤ i < NPROC.
Proof. unfold proc_ids. rewrite elem_of_seqZ. lia. Qed.
