(* ===== verification/Console.v ===== *)
(** * The console (kernel/console.c)

    The input ring of the console with its three counters, the editing done at
    interrupts and the line-at-a-time reads.  [c_out] is what was sent to
    [sbi_console_putchar].  The user's buffer is a list with one cell per byte,
    as in Pipe.v; code between two sleeps holds [cons.lock] and is one step.
    [procdump] of proc.c, which Control-P calls, is here too. *)
From stdpp Require Import prelude list strings.
From Stdlib Require Import ZArith Lia.
From S2P Require Import Prelude Printf Pipe ProcDefs.
Open Scope Z_scope.

Definition INPUT_BUF : Z := 128.
Definition Ctrl (x : Z) : Z := x - 64.
Definition ctrl_P : Z := Ctrl 80.
Definition ctrl_U : Z := Ctrl 85.
Definition ctrl_H : Z := Ctrl 72.
Definition ctrl_D : Z := Ctrl 68.

Record console := Con { c_buf : Z → Z; c_r : Z; c_w : Z; c_e : Z; c_out : list Z }.

Definition consoleinit (junk : Z → Z) (out : list Z) : console := Con junk 0 0 0 out.
Definition put (c : Z) (s : console) : console := Con (c_buf s) (c_r s) (c_w s) (c_e s) (c_out s ++ consputc c).

Fixpoint consolewrite (src : list (option Z)) (i : Z) (s : console) : console * Z :=
  match src with
  | [] => (s, i)
  | None :: _ => (s, i)
  | Some c :: src => consolewrite src (i + 1) (Con (c_buf s) (c_r s) (c_w s) (c_e s) (c_out s ++ [c]))
  end.

(** One stretch of [consoleread] with [i] bytes already delivered: the bytes it
    delivers and how it ends. *)
Fixpoint consoleread (killed : bool) (dst : list bool) (i : Z) (s : console) : console * list Z * stretch bool :=
  match dst with
  | [] => (s, [], Return i)
  | ok :: dst' =>
      if c_r s =? c_w s then if killed then (s, [], Error) else (s, [], Sleep i dst)
      else
        let c := c_buf s (c_r s mod INPUT_BUF) in
        let s1 := Con (c_buf s) (u32 (c_r s + 1)) (c_w s) (c_e s) (c_out s) in
        if c =? ctrl_D then
          (if 0 <? i then Con (c_buf s1) (u32 (c_r s1 - 1)) (c_w s1) (c_e s1) (c_out s1) else s1, [], Return i)
        else if negb ok then (s1, [], Return i)
        else if c =? 10 then (s1, [c], Return (i + 1))
        else let '(s2, bs, r) := consoleread killed dst' (i + 1) s1 in (s2, c :: bs, r)
  end.

Definition erase (s : console) : console :=
  put BACKSPACE (Con (c_buf s) (c_r s) (c_w s) (u32 (c_e s - 1)) (c_out s)).
(** [while] of Control-U; at most [INPUT_BUF] characters are being edited. *)
Fixpoint kill_line (fuel : nat) (s : console) : console :=
  match fuel with
  | O => s
  | S fuel =>
      if negb (c_e s =? c_w s) && negb (c_buf s (u32 (c_e s - 1) mod INPUT_BUF) =? 10)
      then kill_line fuel (erase s) else s
  end.

(** The flag is whether [wakeup] was called; [dump] is what [procdump] prints. *)
Definition consoleintr (dump : list Z) (c : Z) (s : console) : console * bool :=
  if c =? ctrl_P then (Con (c_buf s) (c_r s) (c_w s) (c_e s) (c_out s ++ dump), false)
  else if c =? ctrl_U then (kill_line (Z.to_nat INPUT_BUF) s, false)
  else if (c =? ctrl_H) || (c =? 127) then (if negb (c_e s =? c_w s) then erase s else s, false)
  else if negb (c =? 0) && (u32 (c_e s - c_r s) <? INPUT_BUF) then
    let c := if c =? 13 then 10 else c in
    let s := put c s in
    let s := Con (upd (c_buf s) (c_e s mod INPUT_BUF) (u8 c)) (c_r s) (c_w s) (u32 (c_e s + 1)) (c_out s) in
    if (c =? 10) || (c =? ctrl_D) || (c_e s =? u32 (c_r s + INPUT_BUF))
    then (Con (c_buf s) (c_r s) (c_e s) (c_e s) (c_out s), true)
    else (s, false)
  else (s, false).

(** ** Control-P *)
Definition until_nul (l : list Z) : list Z := take (match list_find (λ c, c = 0) l with Some (i, _) => i | None => length l end) l.
Definition state_text (st : procstate) : list Z :=
  match st with
  | UNUSED => chars "unused" | SLEEPING => chars "sleep " | RUNNABLE => chars "runble"
  | RUNNING => chars "run   " | ZOMBIE => chars "zombie"
  end.
Definition dump_line (p : proc) : list Z :=
  printf_loop (λ s, if s =? 1 then state_text (p_state p) else until_nul (name p))
    (chars "%d" ++ [9] ++ chars "%s" ++ [9] ++ chars "%s" ++ [9] ++ chars "%d")
    (λ k, nth k [p_pid p; 1; 2; sz p] 0) 0 ++ [10].
Definition procdump (procs : Z → proc) : list Z :=
  [10] ++ chars "PID" ++ [9] ++ chars "STATE" ++ [9] ++ chars "NAME" ++ [9] ++ chars "MEM" ++ [10] ++
  concat (map (λ i, if bool_decide (p_state (procs i) = UNUSED) then [] else dump_line (procs i)) (seqZ 0 NPROC)).

(** ** The line discipline it implements *)

(** Complete input waiting to be read, and the line being edited. *)
Record line := Line { ready : list Z; editing : list Z }.

Definition line_room (l : line) : bool := Z.of_nat (length (ready l) + length (editing l)) <? INPUT_BUF.
Definition line_type (c : Z) (l : line) : line :=
  let ed := editing l ++ [c] in
  if (c =? 10) || (c =? ctrl_D) || negb (line_room (Line (ready l) ed))
  then Line (ready l ++ ed) [] else Line (ready l) ed.
Definition line_intr (c : Z) (l : line) : line :=
  if c =? ctrl_P then l
  else if c =? ctrl_U then Line (ready l) []
  else if (c =? ctrl_H) || (c =? 127) then Line (ready l) (removelast (editing l))
  else if negb (c =? 0) && line_room l then line_type (if c =? 13 then 10 else c) l
  else l.
(** What appears on the screen. *)
Definition line_echo (dump : list Z) (c : Z) (l : line) : list Z :=
  if c =? ctrl_P then dump
  else if c =? ctrl_U then concat (replicate (length (editing l)) [8; 32; 8])
  else if (c =? ctrl_H) || (c =? 127) then match editing l with [] => [] | _ => [8; 32; 8] end
  else if negb (c =? 0) && line_room l then [if c =? 13 then 10 else c]
  else [].

Fixpoint line_read (killed : bool) (dst : list bool) (i : Z) (q : list Z) : list Z * list Z * stretch bool :=
  match dst, q with
  | [], _ => (q, [], Return i)
  | _, [] => (q, [], if killed then Error else Sleep i dst)
  | ok :: dst, c :: q' =>
      if c =? ctrl_D then (if 0 <? i then q else q', [], Return i)
      else if negb ok then (q', [], Return i)
      else if c =? 10 then (q', [c], Return (i + 1))
      else let '(q2, bs, r) := line_read killed dst (i + 1) q' in (q2, c :: bs, r)
  end.

(** ** Invariant and abstraction *)

Definition lw (s : console) : Z := u32 (c_w s - c_r s).
Definition le (s : console) : Z := u32 (c_e s - c_r s).
(** [n] bytes of the ring from counter [a]. *)
Definition seg (s : console) (a n : Z) : list Z := map (λ k, c_buf s ((a + k) mod INPUT_BUF)) (seqZ 0 n).
Definition abs (s : console) : line := Line (seg s (c_r s) (lw s)) (seg s (c_r s + lw s) (le s - lw s)).

Record con_ok (s : console) : Prop := {
  co_r : 0 ≤ c_r s < 2 ^ 32; co_w : 0 ≤ c_w s < 2 ^ 32; co_e : 0 ≤ c_e s < 2 ^ 32;
  co_le : lw s ≤ le s ≤ INPUT_BUF;
  co_edit : 10 ∉ editing (abs s) }.

Lemma seg_length s a n : 0 ≤ n → Z.of_nat (length (seg s a n)) = n.
Proof. intros H. unfold seg. rewrite length_map, length_seqZ. lia. Qed.
Lemma seg_app s a n m : 0 ≤ n → 0 ≤ m → seg s a (n + m) = seg s a n ++ seg s (a + n) m.
Proof.
  intros Hn Hm. unfold seg. rewrite seqZ_app, map_app by lia. f_equal. rewrite Z.add_0_l.
  replace n with (n + 0) at 1 by lia. rewrite <- (fmap_add_seqZ n 0).
  change (Z.add n <$> seqZ 0 m) with (map (Z.add n) (seqZ 0 m)). rewrite map_map.
  apply map_ext. intros k. do 2 f_equal. lia.
Qed.
Lemma seg_one s a : seg s a 1 = [c_buf s (a mod INPUT_BUF)].
Proof. unfold seg. simpl. by rewrite Z.add_0_r. Qed.
Lemma seg_mod s a b n : a mod INPUT_BUF = b mod INPUT_BUF → seg s a n = seg s b n.
Proof.
  intros H. apply map_ext. intros k. f_equal. unfold INPUT_BUF in *.
  rewrite <- (Z.add_mod_idemp_l a), H, Z.add_mod_idemp_l by lia. done.
Qed.
(** The counters may wrap: the ring size divides [2^32]. *)
Lemma u32_ring a : u32 a mod INPUT_BUF = a mod INPUT_BUF.
Proof. unfold u32, INPUT_BUF. Z.div_mod_to_equations. lia. Qed.
Lemma seg_ext s s' a n :
  (∀ k, 0 ≤ k < n → c_buf s' ((a + k) mod INPUT_BUF) = c_buf s ((a + k) mod INPUT_BUF)) → seg s' a n = seg s a n.
Proof. intros H. apply map_ext_in. intros k Hk%list_elem_of_In%elem_of_seqZ. apply H. lia. Qed.

Lemma lw_range s : con_ok s → 0 ≤ lw s ≤ le s ∧ le s ≤ INPUT_BUF.
Proof. intros []. pose proof (u32_range (c_w s - c_r s)). unfold lw in *. lia. Qed.
Lemma ring_e s : c_e s mod INPUT_BUF = (c_r s + le s) mod INPUT_BUF.
Proof. unfold le, INPUT_BUF, u32. Z.div_mod_to_equations. lia. Qed.
Lemma e_is_w s : con_ok s → (c_e s =? c_w s) = (le s - lw s =? 0).
Proof.
  intros [Hr Hw He Hl _]. unfold le, lw, u32, INPUT_BUF in *. apply Bool.eq_true_iff_eq. rewrite !Z.eqb_eq.
  Z.div_mod_to_equations. lia.
Qed.
Lemma r_is_w s : con_ok s → (c_r s =? c_w s) = (lw s =? 0).
Proof.
  intros [Hr Hw He Hl _]. unfold le, lw, u32, INPUT_BUF in *. apply Bool.eq_true_iff_eq. rewrite !Z.eqb_eq.
  Z.div_mod_to_equations. lia.
Qed.
Lemma editing_nil s : con_ok s → le s - lw s = 0 ↔ editing (abs s) = [].
Proof.
  intros H%lw_range. cbn [abs editing]. split; [by intros ->|]. intros E%(f_equal (λ l, Z.of_nat (length l))).
  rewrite seg_length in E by lia. simpl in E. lia.
Qed.
Lemma room_spec s : con_ok s → line_room (abs s) = (le s <? INPUT_BUF).
Proof.
  intros H%lw_range. unfold line_room. cbn [abs ready editing]. rewrite Nat2Z.inj_add, !seg_length by lia.
  f_equal. lia.
Qed.

(** Removing the last character being edited. *)
Lemma erase_spec s :
  con_ok s → 0 < le s - lw s →
  let s' := erase s in
  con_ok s' ∧ abs s' = Line (ready (abs s)) (removelast (editing (abs s))) ∧ c_out s' = c_out s ++ [8; 32; 8] ∧
  lw s' = lw s ∧ le s' = le s - 1 ∧ c_buf s (u32 (c_e s - 1) mod INPUT_BUF) = List.last (editing (abs s)) 0.
Proof.
  intros Hok Hl s'. pose proof (lw_range s Hok) as Hr. destruct Hok as [H1 H2 H3 H4 H5].
  assert (le s' = le s - 1) as El.
  { unfold le, s', erase, put, lw, le, u32, INPUT_BUF in *. simpl in *. Z.div_mod_to_equations. lia. }
  assert (lw s' = lw s) as Ew by done.
  assert (seg s (c_r s + lw s) (le s - lw s) =
          seg s (c_r s + lw s) (le s - 1 - lw s) ++ [c_buf s (u32 (c_e s - 1) mod INPUT_BUF)]) as Es.
  { replace (le s - lw s) with ((le s - 1 - lw s) + 1) at 1 by lia. rewrite seg_app, seg_one by lia. do 3 f_equal.
    rewrite u32_ring. pose proof (ring_e s). unfold INPUT_BUF in *. Z.div_mod_to_equations. lia. }
  assert (abs s' = Line (ready (abs s)) (removelast (editing (abs s)))) as Ea.
  { unfold abs at 1. rewrite El, Ew. cbn [ready editing abs]. rewrite Es, removelast_last. done. }
  split; [|split; [done|split; [done|split; [done|split; [done|]]]]].
  - split; [done|done|simpl; apply u32_range|lia|]. rewrite Ea. cbn [editing]. intros Hin. apply H5.
    cbn [abs editing]. rewrite Es. cbn [abs editing] in Hin. rewrite Es, removelast_last in Hin.
    apply elem_of_app. by left.
  - cbn [abs editing]. rewrite Es. by rewrite List.last_last.
Qed.

Lemma line_eta l : editing l = [] → l = Line (ready l) [].
Proof. destruct l as [q ed]. simpl. by intros ->. Qed.
Lemma kill_line_spec fuel s :
  con_ok s → le s - lw s ≤ Z.of_nat fuel →
  let s' := kill_line fuel s in
  con_ok s' ∧ abs s' = Line (ready (abs s)) [] ∧
  c_out s' = c_out s ++ concat (replicate (length (editing (abs s))) [8; 32; 8]).
Proof.
  revert s. induction fuel as [|fuel IH]; intros s Hok Hf.
  all: pose proof (lw_range s Hok) as Hr; cbn [kill_line]; try rewrite e_is_w by done.
  - assert (editing (abs s) = []) as E by (apply editing_nil; [done|lia]). split; [done|]. rewrite E. simpl.
    rewrite app_nil_r. split; [by apply line_eta|done].
  - destruct (Z.eqb_spec (le s - lw s) 0) as [E0|E0]; cbn [negb andb].
    { pose proof (proj1 (editing_nil s Hok) E0) as E. split; [done|]. rewrite E. simpl. rewrite app_nil_r.
      split; [by apply line_eta|done]. }
    destruct (erase_spec s Hok ltac:(lia)) as (Hok' & Ea & Eo & Ew & El & Ec).
    assert (∃ l c, editing (abs s) = l ++ [c]) as (l & c & Ed).
    { destruct (exists_last (l := editing (abs s))) as (l & c & E); [intros E%editing_nil; done|]. by exists l, c. }
    rewrite Ec, Ed, List.last_last. destruct (Z.eqb_spec c 10) as [->|Hc].
    { exfalso. apply (co_edit s Hok). rewrite Ed. apply elem_of_app. right. by apply list_elem_of_singleton. }
    cbn [negb]. destruct (IH (erase s) Hok') as (Hk & Ka & Ko); [lia|]. split; [done|].
    rewrite Ka, Ko, Ea, Eo, Ed, removelast_last. cbn [ready editing]. split; [done|].
    rewrite length_app, Nat.add_1_r. simpl. rewrite <- app_assoc. f_equal.
Qed.

(** Storing a character. *)
Definition store (c : Z) (s : console) : console :=
  Con (upd (c_buf s) (c_e s mod INPUT_BUF) (u8 c)) (c_r s) (c_w s) (u32 (c_e s + 1)) (c_out s).
Lemma store_spec c s :
  con_ok s → le s < INPUT_BUF →
  let s' := store c s in
  lw s' = lw s ∧ le s' = le s + 1 ∧ ready (abs s') = ready (abs s) ∧ editing (abs s') = editing (abs s) ++ [u8 c].
Proof.
  intros Hok Hl s'. pose proof (lw_range s Hok) as Hr. destruct Hok as [H1 H2 H3 H4 H5].
  assert (le s' = le s + 1) as El.
  { unfold s', store, le, u32, INPUT_BUF in *. cbn [c_e c_r] in *. Z.div_mod_to_equations. lia. }
  assert (lw s' = lw s) as Ew by done. split; [done|]. split; [done|].
  assert (∀ n, n ≤ le s → seg s' (c_r s) n = seg s (c_r s) n) as Hseg.
  { intros n Hn. apply seg_ext. intros k Hk. unfold s', store. cbn [c_buf]. apply upd_ne. rewrite ring_e.
    unfold INPUT_BUF in *. Z.div_mod_to_equations. lia. }
  cbn [abs ready editing]. rewrite Ew, El. change (c_r s') with (c_r s). split; [apply Hseg; lia|].
  replace (le s + 1 - lw s) with ((le s - lw s) + 1) by lia. rewrite seg_app, seg_one by lia. f_equal.
  - pose proof (Hseg (lw s + (le s - lw s)) ltac:(lia)) as E. rewrite !seg_app in E by lia.
    apply app_inj_1 in E as [_ E]; [done|]. unfold seg. by rewrite !length_map.
  - f_equal. unfold s', store. cbn [c_buf]. replace (c_r s + lw s + (le s - lw s)) with (c_r s + le s) by lia.
    rewrite <- ring_e, upd_eq. done.
Qed.

(** Committing what is edited. *)
Lemma commit_spec s :
  0 ≤ c_r s < 2 ^ 32 → 0 ≤ c_w s < 2 ^ 32 → 0 ≤ c_e s < 2 ^ 32 → lw s ≤ le s ≤ INPUT_BUF →
  let s' := Con (c_buf s) (c_r s) (c_e s) (c_e s) (c_out s) in
  con_ok s' ∧ abs s' = Line (ready (abs s) ++ editing (abs s)) [].
Proof.
  intros H1 H2 H3 H4 s'. pose proof (u32_range (c_w s - c_r s)) as Hw. fold (lw s) in Hw.
  assert (lw s' = le s ∧ le s' = le s) as [Ew El] by done.
  assert (abs s' = Line (ready (abs s) ++ editing (abs s)) []) as Ea.
  { unfold abs at 1. rewrite Ew, El, Z.sub_diag. cbn [ready editing abs]. rewrite <- seg_app by lia.
    replace (lw s + (le s - lw s)) with (le s) by lia. done. }
  split; [|done]. split; try done; [lia|]. rewrite Ea. by intros ?%elem_of_nil.
Qed.

Lemma put_out c s : abs (put c s) = abs s.
Proof. done. Qed.
Lemma put_ok c s : con_ok s → con_ok (put c s).
Proof. intros []. by split. Qed.

Lemma consoleintr_type c s :
  con_ok s → 0 ≤ c < 256 → le s < INPUT_BUF →
  let s1 := store c (put c s) in
  let s' := if (c =? 10) || (c =? ctrl_D) || (c_e s1 =? u32 (c_r s1 + INPUT_BUF))
            then Con (c_buf s1) (c_r s1) (c_e s1) (c_e s1) (c_out s1) else s1 in
  con_ok s' ∧ abs s' = line_type c (abs s) ∧ c_out s' = c_out s ++ [c].
Proof.
  intros Hok Hc Hl s1 s'. destruct (store_spec c (put c s) (put_ok c s Hok) Hl) as (Ew & El & Eq & Ed).
  fold s1 in Ew, El, Eq, Ed. rewrite put_out in Eq, Ed. change (lw (put c s)) with (lw s) in Ew.
  change (le (put c s)) with (le s) in El. rewrite u8_small in Ed by lia.
  pose proof (lw_range s Hok) as Hr. destruct Hok as [H1 H2 H3 H4 H5].
  assert (c_out s1 = c_out s ++ [c]) as Eo.
  { unfold s1, store, put. cbn [c_out]. by rewrite consputc_small by (unfold BACKSPACE; lia). }
  assert ((c_e s1 =? u32 (c_r s1 + INPUT_BUF)) = negb (line_room (Line (ready (abs s)) (editing (abs s) ++ [c])))) as Ef.
  { rewrite <- Ed, <- Eq. unfold line_room. cbn [ready editing abs]. rewrite Nat2Z.inj_add, !seg_length by lia.
    rewrite Ew, El. unfold s1, store, put. cbn [c_e c_r]. unfold le, u32, INPUT_BUF in *.
    apply Bool.eq_true_iff_eq. rewrite negb_true_iff, Z.eqb_eq, Z.ltb_ge. Z.div_mod_to_equations. lia. }
  assert (0 ≤ c_e s1 < 2 ^ 32) as He1 by apply u32_range.
  unfold s', line_type. rewrite Ef. clear s' Ef. set (b := _ || negb _). destruct b eqn:Eb.
  - destruct (commit_spec s1) as (Hk & Ea); [done|done|done|lia|]. rewrite Eq, Ed in Ea. done.
  - split; [|split; [|done]].
    + split; [done|done|done|lia|]. rewrite Ed. intros [Hin|Hin]%elem_of_app; [done|].
      apply list_elem_of_singleton in Hin as <-. done.
    + destruct (abs s1) as [q ed]. simpl in Eq, Ed. by subst.
Qed.

Lemma consoleintr_spec dump c s :
  con_ok s → 0 ≤ c < 256 →
  let s' := (consoleintr dump c s).1 in
  con_ok s' ∧ abs s' = line_intr c (abs s) ∧ c_out s' = c_out s ++ line_echo dump c (abs s).
Proof.
  intros Hok Hc. pose proof (lw_range s Hok) as Hr. unfold consoleintr, line_intr, line_echo.
  destruct (c =? ctrl_P); [by destruct Hok|].
  destruct (c =? ctrl_U); [apply (kill_line_spec (Z.to_nat INPUT_BUF) s Hok); unfold INPUT_BUF in *; lia|].
  destruct ((c =? ctrl_H) || (c =? 127)).
  { cbn [fst]. rewrite e_is_w by done. destruct (Z.eqb_spec (le s - lw s) 0) as [E|E]; cbn [negb].
    - apply (editing_nil s Hok) in E. rewrite E, app_nil_r. split; [done|]. split; [by apply line_eta|done].
    - destruct (erase_spec s Hok ltac:(lia)) as (A & B & C & _). split; [done|]. split; [done|]. rewrite C.
      destruct (editing (abs s)) eqn:Ed; [|done]. apply (editing_nil s Hok) in Ed. lia. }
  rewrite room_spec by done. fold (le s). destruct (negb (c =? 0) && (le s <? INPUT_BUF)) eqn:Eb; cbn [fst].
  2: { by rewrite app_nil_r. }
  apply andb_prop in Eb as [_ Eb%Z.ltb_lt].
  pose proof (consoleintr_type (if c =? 13 then 10 else c) s Hok ltac:(destruct (c =? 13); lia) Eb) as H. cbv zeta in *.
  destruct (_ || (_ =? u32 (_ + INPUT_BUF))); exact H.
Qed.

(** Taking the first complete character. *)
Lemma pop_spec s :
  con_ok s → lw s ≠ 0 →
  let s1 := Con (c_buf s) (u32 (c_r s + 1)) (c_w s) (c_e s) (c_out s) in
  con_ok s1 ∧ ready (abs s) = c_buf s (c_r s mod INPUT_BUF) :: ready (abs s1) ∧ editing (abs s1) = editing (abs s) ∧
  Con (c_buf s1) (u32 (c_r s1 - 1)) (c_w s1) (c_e s1) (c_out s1) = s.
Proof.
  intros Hok Hl s1. pose proof (lw_range s Hok) as Hr. destruct Hok as [H1 H2 H3 H4 H5].
  assert (lw s1 = lw s - 1 ∧ le s1 = le s - 1) as [Ew El].
  { unfold s1, lw, le, u32, INPUT_BUF in *. cbn [c_e c_r c_w] in *. split; Z.div_mod_to_equations; lia. }
  assert (editing (abs s1) = editing (abs s)) as Ed.
  { cbn [abs editing]. rewrite Ew, El. replace (le s - 1 - (lw s - 1)) with (le s - lw s) by lia.
    change (seg s1) with (seg s). apply seg_mod. unfold s1. cbn [c_r].
    unfold INPUT_BUF, u32. Z.div_mod_to_equations. lia. }
  split; [|split; [|split; [done|]]].
  - split; [apply u32_range|done|done|lia|]. by rewrite Ed.
  - cbn [abs ready]. rewrite Ew. replace (lw s) with (1 + (lw s - 1)) at 1 by lia. rewrite seg_app, seg_one by lia.
    simpl. f_equal. change (seg s1) with (seg s). apply seg_mod. by rewrite u32_ring.
  - destruct s as [b r w e o]. unfold s1. cbn. f_equal. cbn in H1. unfold u32. rewrite Zminus_mod_idemp_l.
    replace (r + 1 - 1) with r by lia. apply Z.mod_small. lia.
Qed.
Lemma ready_nil s : con_ok s → lw s = 0 ↔ ready (abs s) = [].
Proof.
  intros H%lw_range. cbn [abs ready]. split; [by intros ->|]. intros E%(f_equal (λ l, Z.of_nat (length l))).
  rewrite seg_length in E by lia. simpl in E. lia.
Qed.

Lemma consoleread_spec killed dst i s :
  con_ok s →
  let '(s', bs, r) := consoleread killed dst i s in
  let '(q, bs', r') := line_read killed dst i (ready (abs s)) in
  con_ok s' ∧ abs s' = Line q (editing (abs s)) ∧ bs = bs' ∧ r = r' ∧ c_out s' = c_out s.
Proof.
  revert i s. induction dst as [|ok dst IH]; intros i s Hok; cbn [consoleread line_read].
  { split; [done|]. split; [by destruct (abs s)|done]. }
  rewrite r_is_w by done. destruct (Z.eqb_spec (lw s) 0) as [E|E].
  { apply (ready_nil s Hok) in E. rewrite E. destruct killed; (split; [done|]); (split; [|done]);
      destruct (abs s); simpl in *; by subst. }
  destruct (pop_spec s Hok E) as (Hok1 & Er & Ed & Eu). cbv zeta. rewrite Eu, Er.
  set (s1 := Con _ _ _ _ _) in *. set (c := c_buf s _) in *.
  destruct (c =? ctrl_D).
  { destruct (0 <? i); (split; [done|]); (split; [|done]).
    - rewrite <- Er. by destruct (abs s).
    - rewrite <- Ed. by destruct (abs s1). }
  destruct ok; cbn [negb]; [|split; [done|]; split; [rewrite <- Ed; by destruct (abs s1)|done]].
  destruct (c =? 10); [split; [done|]; split; [rewrite <- Ed; by destruct (abs s1)|done]|].
  specialize (IH (i + 1) s1 Hok1). destruct (consoleread killed dst (i + 1) s1) as [[s2 bs] r].
  destruct (line_read killed dst (i + 1) _) as [[q bs'] r'].
  destruct IH as (A & B & -> & -> & C). rewrite Ed in B. done.
Qed.

(** ** Interrupts and readers interleaved *)

Record cworld := CWorld { con : console; asleep : Z → option (Z * list bool) }.
Inductive cstep (w : cworld) : cworld → Prop :=
| c_intr dump c s woken : 0 ≤ c < 256 → consoleintr dump c (con w) = (s, woken) →
    cstep w (CWorld s (if woken then λ _, None else asleep w))
| c_read t killed dst i s bs r : asleep w t = None → consoleread killed dst i (con w) = (s, bs, r) →
    cstep w (CWorld s (match r with Sleep j rest => upd (asleep w) t (Some (j, rest)) | _ => asleep w end))
| c_write src : cstep w (CWorld (consolewrite src 0 (con w)).1 (asleep w))
| c_kill t : cstep w (CWorld (con w) (upd (asleep w) t None)).

Record cinv (w : cworld) : Prop := {
  ci_ok : con_ok (con w);
  ci_sleep : ∀ t x, asleep w t = Some x → ready (abs (con w)) = [] }.

Lemma consolewrite_keeps src i s : con_ok s → con_ok (consolewrite src i s).1 ∧ abs (consolewrite src i s).1 = abs s.
Proof.
  revert i s. induction src as [|[c|] src IH]; intros i s Hok; [done| |done]. cbn [consolewrite].
  destruct (IH (i + 1) (Con (c_buf s) (c_r s) (c_w s) (c_e s) (c_out s ++ [c]))) as [A B]; [by destruct Hok|].
  split; [done|]. by rewrite B.
Qed.

(** Without a [wakeup] the waiting input is as before. *)
Lemma consoleintr_quiet dump c s :
  con_ok s → 0 ≤ c < 256 → (consoleintr dump c s).2 = false → ready (abs (consoleintr dump c s).1) = ready (abs s).
Proof.
  intros Hok Hc Hq. destruct (consoleintr_spec dump c s Hok Hc) as (_ & Ea & _). revert Hq.
  unfold consoleintr in *. unfold line_intr in Ea.
  destruct (c =? ctrl_P); [done|]. destruct (c =? ctrl_U); [by rewrite Ea|].
  destruct (_ || (c =? 127)); [by rewrite Ea|]. fold (le s) in *.
  destruct (negb (c =? 0) && (le s <? INPUT_BUF)) eqn:Eb; [|done]. apply andb_prop in Eb as [_ Eb%Z.ltb_lt].
  cbv zeta. set (c' := if c =? 13 then 10 else c) in *. fold (store c' (put c' s)).
  destruct (_ || _) eqn:Ew; [done|]. intros _. cbn [fst].
  destruct (store_spec c' (put c' s) (put_ok c' s Hok) Eb) as (_ & _ & E & _). by rewrite E.
Qed.

Lemma cstep_inv w w' : cinv w → cstep w w' → cinv w'.
Proof.
  intros [Hok Hs] [dump c s woken Hc E|t killed dst i s bs r Ht E|src|t].
  - destruct (consoleintr_spec dump c _ Hok Hc) as (Hok' & _ & _). pose proof (consoleintr_quiet dump c _ Hok Hc) as Hq.
    rewrite E in *. cbn [fst snd] in *. split; [done|]. cbn [asleep con]. intros t x. destruct woken; [done|].
    intros Hx. rewrite Hq by done. by apply (Hs t x).
  - pose proof (consoleread_spec killed dst i _ Hok) as H. rewrite E in H.
    destruct (line_read killed dst i (ready (abs (con w)))) as [[q bs'] r'] eqn:El.
    destruct H as (Hok' & Ea & -> & -> & _). split; [done|]. cbn [asleep con]. rewrite Ea. cbn [ready].
    assert (∀ t x, asleep w t = Some x → q = []) as Hq.
    { intros t' x Hx. pose proof (Hs t' x Hx) as Hn. rewrite Hn in El. by destruct dst; simpl in El; simplify_eq. }
    intros t' x. destruct r' as [j| |j rest]; [by apply Hq..|]. unfold upd. destruct (t' =? t); [|by apply Hq].
    intros _. clear -El. revert El. generalize (ready (abs (con w))) as l. revert i q bs'.
    induction dst as [|ok dst IH]; intros i q bs' [|c l]; simpl; try (destruct killed; congruence); intros El; try congruence.
    destruct (c =? ctrl_D); [congruence|]. destruct ok; simpl in El; [|congruence]. destruct (c =? 10); [congruence|].
    destruct (line_read killed dst (i + 1) l) as [[q2 b2] r2] eqn:E2. injection El as -> _ ->. by eapply IH.
  - destruct (consolewrite_keeps src 0 _ Hok) as [A B]. split; [done|]. cbn [con asleep]. by rewrite B.
  - split; [done|]. cbn [con asleep]. intros t' x. unfold upd. destruct (t' =? t); [done|apply Hs].
Qed.

Definition console_world (junk : Z → Z) : cworld := CWorld (consoleinit junk []) (λ _, None).
Lemma console_reach_inv junk w : rtc cstep (console_world junk) w → cinv w.
Proof.
  intros Hr. assert (cinv (console_world junk)) as Hi.
  { split; [|done]. split; simpl; try lia; [done|]. by intros ?%elem_of_nil. }
  revert Hi. induction Hr as [|w1 w2 w3 Hs _ IH]; [done|]. intros Hi. apply IH. by apply (cstep_inv w1).
Qed.

(** ** Properties *)

(** C35: the console implements a line discipline: in every reachable state the
    ring with its wrapping counters is a queue of complete input and a line
    being edited, of at most 128 characters together; a keystroke acts on them
    as [line_intr] says (Control-U clears exactly the edited line, backspace its
    last character, newline, Control-D or a full ring complete it) and echoes
    as [line_echo] says; [consoleread] takes the bytes [line_read] says. *)
Theorem console_line_discipline (junk : Z → Z) (w : cworld) :
  rtc cstep (console_world junk) w →
  (length (ready (abs (con w))) + length (editing (abs (con w))) ≤ 128)%nat ∧
  (∀ dump c, 0 ≤ c < 256 →
    let s' := (consoleintr dump c (con w)).1 in
    abs s' = line_intr c (abs (con w)) ∧ c_out s' = c_out (con w) ++ line_echo dump c (abs (con w))) ∧
  (∀ killed dst i,
    let '(s', bs, r) := consoleread killed dst i (con w) in
    line_read killed dst i (ready (abs (con w))) = (ready (abs s'), bs, r) ∧ editing (abs s') = editing (abs (con w))).
Proof.
  intros Hr. destruct (console_reach_inv junk w Hr) as [Hok _]. pose proof (lw_range _ Hok). split; [|split].
  - apply Nat2Z.inj_le. rewrite Nat2Z.inj_add. cbn [abs ready editing]. rewrite !seg_length by lia.
    unfold INPUT_BUF in *. lia.
  - intros dump c Hc. apply (consoleintr_spec dump c _ Hok Hc).
  - intros killed dst i. pose proof (consoleread_spec killed dst i _ Hok) as Hs.
    destruct (consoleread killed dst i (con w)) as [[s' bs] r].
    destruct (line_read killed dst i (ready (abs (con w)))) as [[q bs'] r'].
    destruct Hs as (_ & -> & -> & -> & _). done.
Qed.

(** no console reader sleeps while complete input is waiting, whatever
    interrupts, reads, writes and kills interleave. *)
Theorem console_no_lost_wakeup (junk : Z → Z) (w : cworld) (t : Z) (x : Z * list bool) :
  rtc cstep (console_world junk) w → asleep w t = Some x → ready (abs (con w)) = [].
Proof. intros Hr. apply (ci_sleep _ (console_reach_inv junk w Hr)). Qed.

(** A reader sleeps; then "a", backspace, "b" and newline are typed. *)
Definition typed (l : list Z) (s : console) : console := foldl (λ s c, (consoleintr [] c s).1) s l.
Lemma console_sleep_run :
  ∃ w, rtc cstep (console_world (λ _, 0)) w ∧ asleep w 1 = Some (0, [true; true]) ∧ editing (abs (con w)) = [98].
Proof.
  eexists. split.
  - eapply rtc_l; [eapply (c_read _ 1 false [true; true] 0); reflexivity|].
    eapply rtc_l; [eapply (c_intr _ [] 97); [lia|reflexivity]|].
    eapply rtc_l; [eapply (c_intr _ [] 127); [lia|reflexivity]|].
    eapply rtc_l; [eapply (c_intr _ [] 98); [lia|reflexivity]|]. apply rtc_refl.
  - split; reflexivity.
Qed.
Lemma console_line_discipline_witness :
  ∃ w, editing (abs (con w)) = [98] ∧ abs (consoleintr [] 13 (con w)).1 = line_intr 13 (abs (con w)).
Proof.
  destruct console_sleep_run as (w & Hr & _ & E). exists w. split; [exact E|].
  exact (proj1 (proj1 (proj2 (console_line_discipline (λ _, 0) w Hr)) [] 13 ltac:(lia))).
Defined.
Lemma console_no_lost_wakeup_witness : ∃ w, asleep w 1 = Some (0, [true; true]) ∧ ready (abs (con w)) = [].
Proof.
  destruct console_sleep_run as (w & Hr & E & _). exists w. split; [exact E|].
  exact (console_no_lost_wakeup (λ _, 0) w 1 (0, [true; true]) Hr E).
Defined.

Example console_edit :
  let s := typed [97; 127; 98; 13] (consoleinit (λ _, 0) []) in
  consoleread false [true; true; true] 0 s = (Con (c_buf s) 2 2 2 (c_out s), [98; 10], Return 2).
Proof. reflexivity. Qed.
