(* ===== verification/Proc.v ===== *)
(** * Process management (kernel/proc.c)

    Every function of proc.c that changes the process table.  [p->lock] and
    [pid_lock] make the bodies atomic; where a function blocks ([sleep] inside
    [wait]) the model stops with the process asleep and resumes by running the
    loop again. *)
From stdpp Require Import prelude list strings.
From Stdlib Require Import ZArith Lia.
From S2P Require Import Prelude Riscv Kalloc VM Vma ProcDefs.
Open Scope Z_scope.

(** The initial program: [exec("/init")]. *)
Definition initcode : list Z :=
  [23; 5; 0; 0; 19; 5; 69; 2; 151; 5; 0; 0; 147; 133; 53; 2; 147; 8; 112; 0; 115; 0; 0; 0;
   147; 8; 32; 0; 115; 0; 0; 0; 239; 240; 159; 255; 47; 105; 110; 105; 116; 0; 0; 36; 0; 0; 0; 0;
   0; 0; 0; 0].

Definition int_bytes (v : Z) : list Z := map (λ i, (u32 v / 2 ^ (8 * i)) mod 2 ^ 8) [0; 1; 2; 3].

Section Proc.
Context `{LAY : Layout} {F : Type} `{FR : FileRefs F} `{ER : EntryRefs F}.
Context (forkret : Z).

Definition allocpid : M (kern F) Z :=
  pid <-- gets nextpid ;; modify (set_nextpid (i32 (pid + 1))) ;;; mretM pid.

Definition proc_pagetable (tf : Z) : M kst Z :=
  pt <-- uvmcreate ;;
  if pt =? 0 then mretM 0
  else
    r <-- mappages pt TRAMPOLINE PGSIZE trampoline (Z.lor PTE_R PTE_X) ;;
    if r <? 0 then uvmfree pt 0 ;;; mretM 0
    else
      r <-- mappages pt TRAPFRAME PGSIZE tf (Z.lor PTE_R PTE_W) ;;
      if r <? 0 then vmunmap pt TRAMPOLINE 1 false ;;; uvmfree pt 0 ;;; mretM 0
      else mretM pt.

Definition proc_freepagetable (pt size : Z) : M kst unit :=
  vmunmap pt TRAMPOLINE 1 false ;;; vmunmap pt TRAPFRAME 1 false ;;; uvmfree pt size.

(** The scalar fields [freeproc] resets. *)
Definition clear_proc (p : proc) : proc :=
  set_sz 0 (set_p_pid 0 (set_p_parent (-1) (set_name [] (set_p_chan 0 (set_p_killed 0
  (set_p_xstate 0 (set_p_state UNUSED (set_queue_level 0 (set_time_slice 0 (set_ticks_used 0
  (set_utime 0 (set_stime 0 (set_start_time 0 (set_sig_pending 0 (set_sig_mask 0
  (set_sig_handlers (replicate NSIG SIG_DFL) (set_sandbox_on 0 (set_sandbox_action 0
  (set_allow_mask [0; 0; 0; 0] p))))))))))))))))))).

Definition freeproc (i : Z) : M (kern F) unit :=
  p <-- get_proc i ;;
  whenM (negb (trapframe p =? 0)) (mem_op (kfree (trapframe p))) ;;;
  on_proc i (set_trapframe 0) ;;;
  whenM (negb (kpagetable p =? 0)) (mem_op (kvmfree (kpagetable p) true)) ;;;
  on_proc i (set_kpagetable 0) ;;;
  whenM (negb (pagetable p =? 0)) (mem_op (proc_freepagetable (pagetable p) (sz p))) ;;;
  on_proc i (λ p, clear_proc (set_pagetable 0 p)) ;;;
  m <-- file_op (vma_cleanup (vma_man p)) ;;
  on_proc i (set_vma_man m).

(** The scalar fields [allocproc] sets once the memory is there. *)
Definition fresh_proc (t : Z) (p : proc) : proc :=
  set_p_kstack VKSTACK (set_ctx_ra forkret (set_ctx_sp (VKSTACK + PGSIZE) (set_priority 50
  (set_queue_level 0 (set_time_slice 0 (set_ticks_used 0 (set_utime 0 (set_stime 0
  (set_start_time t (set_sig_pending 0 (set_sig_mask 0 (set_sig_handlers (replicate NSIG SIG_DFL)
  (set_sandbox_on 0 (set_sandbox_action 0 (set_allow_mask [0; 0; 0; 0]
  (set_vma_man (vma_init (vma_man p)) p)))))))))))))))).

Definition allocproc : M (kern F) Z :=
  k <-- gets id ;;
  match find_proc (λ i, bool_decide (p_state (procs k i) = UNUSED)) proc_ids with
  | None => mretM (-1)
  | Some i =>
      pid <-- allocpid ;;
      on_proc i (set_p_pid pid) ;;;
      tf <-- mem_op kalloc ;;
      on_proc i (set_trapframe tf) ;;;
      if tf =? 0 then mretM (-1)
      else
        mem_op (modify (λ s, set_mem (fill (mem s) tf 0 TF_SIZE) s)) ;;;
        pt <-- mem_op (proc_pagetable tf) ;;
        on_proc i (set_pagetable pt) ;;;
        if pt =? 0 then freeproc i ;;; mretM (-1)
        else
          kpt <-- mem_op (proc_kpagetable (kernel_pagetable k)) ;;
          on_proc i (set_kpagetable kpt) ;;;
          if kpt =? 0 then freeproc i ;;; mretM (-1)
          else
            t <-- gets ticks ;;
            on_proc i (fresh_proc t) ;;; mretM i
  end.

Definition userinit : M (kern F) unit :=
  i <-- allocproc ;;
  modify (set_initproc i) ;;;
  p <-- get_proc i ;;
  mem_op (uvminit (pagetable p) (kpagetable p) initcode) ;;;
  on_proc i (set_sz PGSIZE) ;;;
  mem_op (tf_set TF_EPC 0 p) ;;;
  mem_op (tf_set TF_SP PGSIZE p) ;;;
  on_proc i (λ p, set_tmask 0 (set_p_state RUNNABLE
    (set_name [105; 110; 105; 116; 99; 111; 100; 101] p))).

Definition growproc (me n : Z) : M (kern F) Z :=
  p <-- get_proc me ;;
  let size := u32 (sz p) in
  if 0 <? n then
    r <-- mem_op (uvmalloc (pagetable p) (kpagetable p) size (u32 (size + n))) ;;
    if u32 r =? 0 then mretM (-1)
    else on_proc me (set_sz (u32 r)) ;;; mretM 0
  else if n <? 0 then
    r <-- mem_op (uvmdealloc (pagetable p) (kpagetable p) size (u32 (size + n))) ;;
    on_proc me (set_sz (u32 r)) ;;; mretM 0
  else on_proc me (set_sz size) ;;; mretM 0.

(** The loop of [fork] over the open files. *)
Fixpoint dup_files (ofs nofs : list Z) : M F (list Z) :=
  match ofs, nofs with
  | f :: ofs, g :: nofs =>
      whenM (negb (f =? 0)) (filedup_ f) ;;;
      r <-- dup_files ofs nofs ;;
      mretM ((if f =? 0 then g else f) :: r)
  | _, _ => mretM nofs
  end.

Definition fork (me : Z) : M (kern F) Z :=
  np <-- allocproc ;;
  if np =? -1 then mretM (-1)
  else
    p <-- get_proc me ;;
    q <-- get_proc np ;;
    r <-- mem_op (uvmcopy (pagetable p) (pagetable q) (kpagetable q) (sz p)) ;;
    if r <? 0 then freeproc np ;;; mretM (-1)
    else
      on_proc np (λ q, set_sz (sz p) (set_p_parent me (set_tmask (tmask p)
        (set_sandbox_on (sandbox_on p) (set_sandbox_action (sandbox_action p)
        (set_allow_mask (allow_mask p) (set_priority (priority p) q))))))) ;;;
      mem_op (modify (λ s, set_mem (blit (mem s) (trapframe q) (trapframe p) TF_SIZE) s)) ;;;
      mem_op (tf_set TF_A0 0 q) ;;;
      fs' <-- file_op (dup_files (ofile p) (ofile q)) ;;
      on_proc np (set_ofile fs') ;;;
      file_op (edup_ (cwd p)) ;;;
      on_proc np (set_cwd (cwd p)) ;;;
      m <-- file_op (vma_copy (vma_man q) (vma_man p)) ;;
      on_proc np (λ q, set_p_state RUNNABLE (set_name (take 15 (name p)) (set_vma_man m q))) ;;;
      q <-- get_proc np ;;
      mretM (p_pid q).

Definition reparent (me : Z) : M (kern F) unit :=
  init <-- gets initproc ;;
  forM proc_ids (λ i,
    p <-- get_proc i ;;
    whenM (p_parent p =? me) (on_proc i (set_p_parent init))).

Definition wakeup1 (i : Z) : M (kern F) unit :=
  p <-- get_proc i ;;
  whenM ((p_chan p =? proc_chan i) && bool_decide (p_state p = SLEEPING))
    (on_proc i (set_p_state RUNNABLE)).

Fixpoint close_files (ofs : list Z) : M F (list Z) :=
  match ofs with
  | [] => mretM []
  | f :: ofs =>
      whenM (negb (f =? 0)) (fileclose_ f) ;;;
      r <-- close_files ofs ;; mretM (0 :: r)
  end.

Definition exit (me status : Z) : M (kern F) unit :=
  init <-- gets initproc ;;
  if me =? init then panic "init exiting"
  else
    p <-- get_proc me ;;
    fs' <-- file_op (close_files (ofile p)) ;;
    on_proc me (set_ofile fs') ;;;
    file_op (eput_ (cwd p)) ;;;
    on_proc me (set_cwd 0) ;;;
    m <-- file_op (vma_cleanup (vma_man p)) ;;
    on_proc me (set_vma_man m) ;;;
    wakeup1 init ;;;
    p <-- get_proc me ;;
    let original_parent := p_parent p in
    reparent me ;;;
    wakeup1 original_parent ;;;
    on_proc me (λ p, set_p_state ZOMBIE (set_p_xstate status p)).

(** How one pass of the loop of [wait] ends. *)
Inductive wait_result := Waited (pid : Z) | Asleep.

Fixpoint wait_scan (me addr : Z) (l : list Z) (havekids : bool) : M (kern F) (option Z * bool) :=
  match l with
  | [] => mretM (None, havekids)
  | i :: l =>
      np <-- get_proc i ;;
      if p_parent np =? me then
        if bool_decide (p_state np = ZOMBIE) then
          p <-- get_proc me ;;
          r <-- (if addr =? 0 then mretM 0
                 else mem_op (copyout2 (Some (Pmem (sz p) (pagetable p) (kpagetable p))) addr
                                (int_bytes (p_xstate np)))) ;;
          if r <? 0 then mretM (Some (-1), true)
          else freeproc i ;;; mretM (Some (p_pid np), true)
        else wait_scan me addr l true
      else wait_scan me addr l havekids
  end.

Definition sleep_on (me chan : Z) : M (kern F) unit :=
  on_proc me (λ p, set_p_state SLEEPING (set_p_chan chan p)).

Definition wait (me addr : Z) : M (kern F) wait_result :=
  r <-- wait_scan me addr proc_ids false ;;
  match r with
  | (Some pid, _) => mretM (Waited pid)
  | (None, havekids) =>
      p <-- get_proc me ;;
      if negb havekids || negb (p_killed p =? 0) then mretM (Waited (-1))
      else sleep_on me (proc_chan me) ;;; mretM Asleep
  end.

(** ** Scheduling *)

(** One round of [scheduler]: the process it switches to, if any. *)
Definition queue_pick (k : kern F) (queue : Z) : option Z :=
  find_proc (λ i, bool_decide (p_state (procs k i) = RUNNABLE) && (queue_level (procs k i) =? queue))
    proc_ids.
Fixpoint pick_from (k : kern F) (queues : list Z) : option Z :=
  match queues with
  | [] => None
  | q :: queues => match queue_pick k q with Some i => Some i | None => pick_from k queues end
  end.
Definition scheduler_pick (k : kern F) : option Z := pick_from k (seqZ 0 MFQ_NQUEUES).

Definition slice_of (level : Z) (old : Z) : Z :=
  if level =? 0 then MFQ_TIME_SLICE_0
  else if level =? 1 then MFQ_TIME_SLICE_1
  else if level =? 2 then MFQ_TIME_SLICE_2 else old.
Definition dispatch (p : proc) : proc :=
  let p := set_p_state RUNNING p in
  if time_slice p <=? 0 then set_time_slice (slice_of (queue_level p) (time_slice p)) p else p.
Definition scheduler : M (kern F) (option Z) :=
  r <-- gets scheduler_pick ;;
  match r with
  | Some i => on_proc i dispatch ;;; mretM (Some i)
  | None => mretM None
  end.

(** [sched] hands the CPU back; the state must have been changed. *)
Definition sched (me : Z) : M (kern F) unit :=
  p <-- get_proc me ;;
  if bool_decide (p_state p = RUNNING) then panic "sched running" else mretM tt.

Definition yield (me : Z) : M (kern F) unit :=
  on_proc me (set_p_state RUNNABLE) ;;; sched me.

Definition higher_priority_ready (cur : Z) : M (kern F) bool :=
  gets (λ k, if cur =? -1 then false else match find_proc (λ i, negb (i =? cur) && bool_decide (p_state (procs k i) = RUNNABLE)
                               && (queue_level (procs k i) <? queue_level (procs k cur))) proc_ids with
             | Some _ => true | None => false end).

Definition handle_time_slice (me : Z) : M (kern F) bool :=
  if me =? -1 then mretM false else
  on_proc me (λ p, set_time_slice (i32 (time_slice p - 1)) (set_ticks_used (i32 (ticks_used p + 1)) p)) ;;;
  p <-- get_proc me ;;
  if time_slice p <=? 0 then
    on_proc me (set_time_slice 0) ;;;
    whenM (queue_level p <? MFQ_NQUEUES - 1) (on_proc me (set_queue_level (queue_level p + 1))) ;;;
    mretM true
  else mretM false.

Definition sleep (me chan : Z) : M (kern F) unit := sleep_on me chan ;;; sched me.
(** The rest of [sleep], when the process runs again. *)
Definition sleep_done (me : Z) : M (kern F) unit := on_proc me (set_p_chan 0).

Definition wakeup (chan : Z) : M (kern F) unit :=
  forM proc_ids (λ i,
    p <-- get_proc i ;;
    whenM (bool_decide (p_state p = SLEEPING) && (p_chan p =? chan))
      (on_proc i (set_p_state RUNNABLE))).

Definition kill (pid : Z) : M (kern F) Z :=
  k <-- gets id ;;
  match find_proc (λ i, p_pid (procs k i) =? pid) proc_ids with
  | Some i =>
      on_proc i (set_p_killed 1) ;;;
      p <-- get_proc i ;;
      whenM (bool_decide (p_state p = SLEEPING)) (on_proc i (set_p_state RUNNABLE)) ;;;
      mretM 0
  | None => mretM (-1)
  end.

Definition either_copyout (me : Z) (user_dst : bool) (dst : Z) (src : list Z) : M (kern F) Z :=
  if user_dst then
    p <-- get_proc me ;;
    mem_op (copyout2 (Some (Pmem (sz p) (pagetable p) (kpagetable p))) dst src)
  else mem_op (modify (λ s, set_mem (store_bytes (mem s) dst src) s)) ;;; mretM 0.

Definition either_copyin (me : Z) (user_src : bool) (src : Z) (len : nat) : M (kern F) (Z * list Z) :=
  if user_src then
    p <-- get_proc me ;;
    mem_op (copyin2 (Pmem (sz p) (pagetable p) (kpagetable p)) src len)
  else mem_op (bs <-- gets (λ s, bytes_at (mem s) src len) ;; mretM (0, bs)).

Definition procnum : M (kern F) Z :=
  gets (λ k, Z.of_nat (length (filter (λ i, p_state (procs k i) ≠ UNUSED) proc_ids))).
End Proc.
