(* ===== verification/FirstProc.v ===== *)
(** * The first process

    [proc_pagetable], [proc_kpagetable], [uvminit] and with them [userinit] of
    kernel/proc.c and kernel/vm.c: given sixteen free pages they succeed, and the
    address space they build is the one the first program needs. *)
From stdpp Require Import prelude list strings.
From Stdlib Require Import ZArith Lia.
From S2P Require Import Prelude Riscv Kalloc VM PageTable PageTableOps KernelMap Space Vma ProcDefs Proc.
Open Scope Z_scope.

Section WithLayout.
Context `{Layout}.

(** The side conditions of [space_map]. *)
Ltac map_side :=
  lazymatch goal with
  | |- has _ _ = _ => fail
  | |- _ ∈ _ => first [assumption | by left | by right; left]
  | |- _ => first [assumption | lia | reflexivity | split; vm_compute; congruence]
  end.

Lemma trampoline_range : trampoline mod PGSIZE = 0 ∧ 0 ≤ trampoline < 2 ^ 55.
Proof. layout_facts. lia. Qed.
Lemma frame_range s L T fr f : space s L T fr → f ∈ fr → f mod PGSIZE = 0 ∧ 0 ≤ f < 2 ^ 55.
Proof.
  intros Hsp Hf. destruct (sp_frame _ _ _ _ Hsp f Hf) as [Hok _]. split; [apply Hok|].
  pose proof (page_ok_range _ Hok). layout_facts. lia.
Qed.

(** ** The user half *)
Definition user_entry (tf va : Z) : Z :=
  if PGROUNDDOWN va =? TRAPFRAME then mk_pte tf RW else if PGROUNDDOWN va =? TRAMPOLINE then mk_pte trampoline RX else 0.

Lemma uvmcreate_space s p L T fr :
  space s (p :: L) T fr →
  ∃ s', uvmcreate s = Ok p s' ∧ p ≠ 0 ∧ space s' L (p :: T) fr ∧ p ∉ T ∧ (∀ va, pte_of (mem s') p va = 0) ∧
    frames_kept s s' fr ∧ tables_kept s s' T.
Proof.
  intros Hsp. destruct (space_kalloc s p L T fr Hsp) as (E & Hp0 & Hok & HpL & Hpf & HpT).
  unfold uvmcreate. rewrite (mbindM_Ok _ _ _ _ _ E). destruct (Z.eqb_spec p 0); [done|].
  destruct (space_alloc s p L T fr (fill (fill (mem s) p 5 PGSIZE) p 0 PGSIZE) Hsp) as (S1 & K1 & F1).
  { intros x Hx. by rewrite !fill_other. }
  eexists. split; [reflexivity|]. split; [done|].
  destruct (space_new _ L T fr p S1 Hpf) as [S2 P2]; [intros x Hx; simpl; by rewrite fill_in|]. done.
Qed.

Lemma proc_pagetable_space s L T fr tf :
  space s L T fr → tf ∈ fr → (6 ≤ length L)%nat →
  ∃ u s' L', proc_pagetable tf s = Ok u s' ∧ u ≠ 0 ∧ u ∉ T ∧ u ∈ L ∧ space s' L' (u :: T) fr ∧ L' ⊆ L ∧ (length L ≤ length L' + 5)%nat ∧
    frames_kept s s' fr ∧ tables_kept s s' T ∧ (∀ va, 0 ≤ va < MAXVA → pte_of (mem s') u va = user_entry tf va).
Proof.
  intros Hsp Htf Hlen. destruct L as [|u L]; [simpl in Hlen; lia|]. simpl in Hlen.
  destruct (uvmcreate_space s u L T fr Hsp) as (s1 & E1 & Hu0 & S1 & HuT & P1 & F1 & K1).
  unfold proc_pagetable. rewrite (mbindM_Ok _ _ _ _ _ E1). destruct (Z.eqb_spec u 0); [done|].
  destruct trampoline_range as [Ht1 Ht2]. destruct (frame_range _ _ _ _ _ Hsp Htf) as [Hf1 Hf2].
  assert (T ⊆ filter (.≠ u) (u :: T)) as HT by (intros r Hr; apply list_elem_of_filter; split; [by intros ->|by right]).
  destruct (space_map s1 L (u :: T) fr u TRAMPOLINE trampoline RX) as (s2 & L2 & E2 & S2 & HL2 & Hn2 & F2 & _ & K2 & P2); try map_side.
  { by rewrite P1. }
  rewrite (mbindM_Ok _ _ _ _ _ E2). change (0 <? 0) with false. cbv iota.
  destruct (space_map s2 L2 (u :: T) fr u TRAPFRAME tf RW) as (s3 & L3 & E3 & S3 & HL3 & Hn3 & F3 & _ & K3 & P3); try map_side.
  { rewrite P2 by map_side. by rewrite P1. }
  rewrite (mbindM_Ok _ _ _ _ _ E3). change (0 <? 0) with false. cbv iota.
  exists u, s3, L3. split; [reflexivity|]. split; [done|]. split; [done|]. split; [by left|]. split; [done|].
  split; [clear -HL2 HL3; set_solver|]. split; [simpl; lia|]. split_and!.
  - eapply frames_kept_trans; [done|]. by eapply frames_kept_trans.
  - eapply tables_kept_trans; [done|]. eapply tables_kept_trans; by eapply tables_kept_sub.
  - intros va Hva. rewrite P3, P2, P1 by done. done.
Qed.

(** ** The kernel half *)
(** A page with nothing in it yet: the state after [kalloc]. *)
Lemma kalloc_space s p L T fr :
  space s (p :: L) T fr →
  ∃ s', kalloc s = Ok p s' ∧ p ≠ 0 ∧ page_ok p ∧ space s' L T (p :: fr) ∧ p ∉ fr ∧ p ∉ T ∧ frames_kept s s' fr ∧ tables_kept s s' T.
Proof.
  intros Hsp. destruct (space_kalloc s p L T fr Hsp) as (E & Hp0 & Hok & HpL & Hpf & HpT).
  destruct (space_alloc s p L T fr (fill (mem s) p 5 PGSIZE) Hsp) as (S1 & K1 & F1); [intros x Hx; by apply fill_other|].
  eexists. split; [exact E|]. done.
Qed.

(** The copy of the kernel's root page. *)
Lemma copy_root_space s L T fr k p :
  space s L (k :: T) (p :: fr) → k ∉ T → k ∉ fr → p ∉ fr → k ≠ p →
  ∃ s', copy_page p k s = Ok tt s' ∧ space s' L (p :: T) (k :: fr) ∧ frames_kept s s' fr ∧ tables_kept s s' (k :: T) ∧
    mirrors (mem s') k p ∧ (∀ va, pte_of (mem s') p va = pte_of (mem s) k va).
Proof.
  intros Hsp HkT Hkf Hpf Hkp. destruct (sp_frame _ _ _ _ Hsp p ltac:(by left)) as (Hok & _ & _).
  assert (page_ok k) as Hkok by (apply (wf_pages _ _ (sp_wf _ _ _ _ Hsp k ltac:(by left))); by exists Root).
  assert (∀ x, k ≤ x < k + PGSIZE → ¬ (p ≤ x < p + PGSIZE)) as Hdis
    by (intros x Hx Hx'; apply (pages_disjoint k p x); [apply Hkok|apply Hok|done..]).
  destruct (space_write s L (k :: T) (p :: fr) p (blit (mem s) p k PGSIZE) Hsp ltac:(by left)) as (S1 & K1 & F1).
  { intros x Hx. by rewrite blit_other. }
  eexists. split; [reflexivity|]. set (s1 := set_mem _ _) in *.
  destruct (space_share s1 L T fr k p S1 HkT Hkf Hpf) as (S2 & N2 & P2).
  { intros x Hx. unfold s1. simpl. rewrite blit_in by lia. replace (k + (p + x - p)) with (k + x) by lia.
    rewrite blit_other; [done|apply Hdis; lia]. }
  split_and!; try done.
  - intros f x Hf. apply F1; [by right|]. by intros ->.
  - intros i Hi _. change (node_page (mem s1) p (Mid i) = node_page (mem s1) k (Mid i)). by apply N2.
  - intros va. rewrite P2. apply (kept_pte s s1 (k :: T)); [done|by left].
Qed.

Lemma proc_kpagetable_space s L T fr k :
  space s L (k :: T) fr → k ∉ T → k ∉ fr → (6 ≤ length L)%nat → child (mem s) k (PX 2 VKSTACK) = None →
  ∃ p st s' L', proc_kpagetable k s = Ok p s' ∧ p ≠ 0 ∧ p ∉ T ∧ space s' L' (p :: T) (st :: k :: fr) ∧ st ∉ k :: fr ∧
    L' ⊆ L ∧ (length L ≤ length L' + 4)%nat ∧ frames_kept s s' fr ∧ tables_kept s s' T ∧ mirrors (mem s') k p ∧
    (∀ i, idx9 i → child (mem s') k i = child (mem s) k i) ∧
    (∀ va, 0 ≤ va < MAXVA → pte_of (mem s') p va = if PGROUNDDOWN va =? VKSTACK then mk_pte st RW else pte_of (mem s) k va).
Proof.
  intros Hsp HkT Hkf Hlen Hnone. destruct L as [|p [|st L]]; [simpl in Hlen; lia..|]. simpl in Hlen.
  destruct (kalloc_space s p _ _ fr Hsp) as (s0 & E0 & Hp0 & _ & S0 & Hpf & HpT & F0 & K0).
  unfold proc_kpagetable. rewrite (mbindM_Ok _ _ _ _ _ E0). destruct (Z.eqb_spec p 0); [done|].
  apply not_elem_of_cons in HpT as [Hkp HpT].
  destruct (copy_root_space s0 (st :: L) T fr k p S0) as (s1 & E1 & S1 & F1 & K1 & M1 & P1); [done..|].
  rewrite (mbindM_Ok _ _ _ _ _ E1).
  pose proof (tables_kept_trans _ _ _ _ K0 K1) as K01. pose proof (frames_kept_trans _ _ _ _ F0 F1) as F01.
  assert (∀ i, idx9 i → child (mem s1) k i = child (mem s) k i) as C1.
  { intros i Hi. change (node_page (mem s1) k (Mid i) = node_page (mem s) k (Mid i)). apply node_page_agree; [apply K01; by left|done]. }
  destruct (kalloc_space s1 st L _ _ S1) as (s2 & E2 & Hst0 & _ & S2 & Hstf & HstT & F2 & K2).
  rewrite (mbindM_Ok _ _ _ _ _ E2). destruct (Z.eqb_spec st 0); [done|].
  destruct (frame_range _ _ _ _ st S2 ltac:(by left)) as [Hf1 Hf2].
  assert (∀ va, pte_of (mem s2) p va = pte_of (mem s) k va) as P2.
  { intros va. rewrite (kept_pte s1 s2 (p :: T) p), P1 by (done || by left). apply (kept_pte s s0 (k :: T)); [done|by left]. }
  destruct (space_map s2 L (p :: T) (st :: k :: fr) p VKSTACK st RW) as (s3 & L3 & E3 & S3 & HL3 & Hn3 & F3 & A3 & K3 & P3); try map_side.
  { rewrite P2. unfold pte_of, low_of, node_page. by rewrite Hnone. }
  rewrite (mbindM_Ok _ _ _ _ _ E3). change (negb (0 =? 0)) with false. cbv iota.
  assert (frames_kept s1 s3 (k :: fr)) as F13.
  { eapply frames_kept_trans; [exact F2|]. eapply frames_kept_sub; [exact F3|]. by intros f; right. }
  destruct (mirrors_adds (mem s1) (mem s3) k p (on_path VKSTACK) M1) as [M3 C3].
  { intros x Hx. by apply (F13 k x); [left|]. }
  { apply (adds_trans _ (mem s2)); [apply (adds_kept s1 s2 (p :: T)); [done|by left]|done]. }
  { intros i [[= ->]|[=]]. by rewrite C1 by (apply PX_range; lia). }
  exists p, st, s3, L3. split; [reflexivity|]. split; [done|]. split; [done|]. split; [done|]. split; [done|].
  split; [clear -HL3; set_solver|]. split; [simpl; lia|]. split_and!.
  - eapply frames_kept_trans; [done|]. eapply frames_kept_sub; [done|]. by intros f; right.
  - eapply tables_kept_trans; [eapply tables_kept_sub; [exact K01|by intros r; right]|].
    eapply tables_kept_trans; eapply tables_kept_sub; [exact K2|by intros r; right|exact K3|].
    intros r Hr. apply list_elem_of_filter. split; [by intros ->|by right].
  - done.
  - intros i Hi. by rewrite C3, C1.
  - intros va Hva. by rewrite P3, P2.
Qed.

(** ** The first page *)
Definition RWX : Z := Z.lor (Z.lor PTE_W PTE_R) PTE_X.
Lemma others_filter (T : list Z) (r r' : Z) : r' ∈ T → r' ≠ r → r' ∈ filter (.≠ r) T.
Proof. intros. by apply list_elem_of_filter. Qed.

Lemma uvminit_space s L T fr u p src :
  space s L T fr → u ∈ T → p ∈ T → u ≠ p → (6 ≤ length L)%nat → Z.of_nat (length src) < PGSIZE →
  has (pte_of (mem s) u 0) PTE_V = false → has (pte_of (mem s) p 0) PTE_V = false →
  ∃ f s' L', uvminit u p src s = Ok tt s' ∧ space s' L' T (f :: fr) ∧ f ∉ fr ∧ L' ⊆ L ∧ (length L ≤ length L' + 5)%nat ∧
    frames_kept s s' fr ∧ adds (mem s) (mem s') p (on_path 0) ∧
    (∀ va, 0 ≤ va < MAXVA → pte_of (mem s') u va = if PGROUNDDOWN va =? 0 then mk_pte f (Z.lor RWX PTE_U) else pte_of (mem s) u va) ∧
    (∀ va, 0 ≤ va < MAXVA → pte_of (mem s') p va = if PGROUNDDOWN va =? 0 then mk_pte f RWX else pte_of (mem s) p va) ∧
    (∀ i, 0 ≤ i < PGSIZE → mem s' (f + i) = u8 (nth (Z.to_nat i) src 0)).
Proof.
  intros Hsp Hu Hp Hup Hlen Hsrc Hiu Hip. destruct L as [|f L]; [simpl in Hlen; lia|]. simpl in Hlen.
  unfold uvminit. destruct (Z.leb_spec PGSIZE (Z.of_nat (length src))); [lia|].
  destruct (kalloc_space s f L T fr Hsp) as (s1 & E1 & Hf0 & _ & S1 & Hff & HfT & F1 & K1). rewrite (mbindM_Ok _ _ _ _ _ E1).
  destruct (space_write s1 L T (f :: fr) f (fill (mem s1) f 0 PGSIZE) S1 ltac:(by left)) as (S2 & K2 & F2).
  { intros x Hx. by apply fill_other. }
  rewrite (mbindM_Ok (memset_page f 0) _ s1 tt (set_mem (fill (mem s1) f 0 PGSIZE) s1)) by done.
  assert (∀ x, f ≤ x < f + PGSIZE → mem (set_mem (fill (mem s1) f 0 PGSIZE) s1) x = 0) as Z2 by (intros x Hx; simpl; by rewrite fill_in).
  assert (frames_kept s1 (set_mem (fill (mem s1) f 0 PGSIZE) s1) fr) as F2' by (intros g x Hg; apply F2; [by right|by intros ->]).
  set (s2 := set_mem _ _) in *. clearbody s2. clear F2.
  destruct (frame_range _ _ _ _ f S2 ltac:(by left)) as [Hr1 Hr2]. pose proof (tables_kept_trans _ _ _ _ K1 K2) as K12.
  destruct (space_map s2 L T (f :: fr) u 0 f (Z.lor RWX PTE_U)) as (s3 & L3 & E3 & S3 & HL3 & Hn3 & F3 & _ & K3 & P3); try map_side.
  { by rewrite (kept_pte s s2 T u). }
  rewrite (mbindM_Ok _ _ _ _ _ E3).
  assert (∀ va, pte_of (mem s3) p va = pte_of (mem s) p va) as P3'.
  { intros va. rewrite (kept_pte s2 s3 _ p va K3), (kept_pte s s2 T p) by (try done; by apply others_filter). done. }
  destruct (space_map s3 L3 T (f :: fr) p 0 f RWX) as (s4 & L4 & E4 & S4 & HL4 & Hn4 & F4 & A4 & K4 & P4); try map_side.
  { by rewrite P3'. }
  rewrite (mbindM_Ok _ _ _ _ _ E4).
  destruct (space_write s4 L4 T (f :: fr) f (store_bytes (mem s4) f src) S4 ltac:(by left)) as (S5 & K5 & F5).
  { intros x Hx. unfold store_bytes. by rewrite (proj2 (in_range_false _ _ _)) by lia. }
  assert (frames_kept s2 s4 (f :: fr)) as F24 by by eapply frames_kept_trans.
  eexists f, _, L4. split; [reflexivity|]. set (s5 := set_mem _ _) in *. split; [done|]. split; [done|].
  split; [clear -HL3 HL4; set_solver|]. split; [simpl; lia|]. split_and!.
  - intros g x Hg Hx. assert (g ≠ f) by (by intros ->). unfold s5. simpl. rewrite (F5 g ltac:(by right)) by done.
    rewrite (F24 g x), (F2' g x), (F1 g x) by (try done; by right). done.
  - apply (adds_trans _ (mem s2)); [by apply (adds_kept s s2 T)|].
    apply (adds_trans _ (mem s3)); [apply (adds_kept s2 s3 _ _ _ K3); by apply others_filter|].
    apply (adds_trans _ (mem s4)); [done|by apply (adds_kept s4 s5 T)].
  - intros va Hva. rewrite (kept_pte s4 s5 T u), (kept_pte s3 s4 _ u va K4), P3, (kept_pte s s2 T u)
      by (try done; apply others_filter; done). done.
  - intros va Hva. rewrite (kept_pte s4 s5 T p), P4, P3' by done. done.
  - intros i Hi. unfold s5, store_bytes. simpl. replace (f + i - f) with i by lia.
    destruct (in_range f (Z.of_nat (length src)) (f + i)) eqn:Er; [done|]. apply in_range_false in Er.
    rewrite nth_overflow by lia. rewrite (F24 f (f + i)), Z2 by (try lia; by left). done.
Qed.

(** ** The table entry *)
Section Kern.
Context {F : Type} `{FR : FileRefs F} `{ER : EntryRefs F}.
Context (forkret : Z).
Implicit Types k : kern F.

Lemma mem_op_Ok {A} (c : M kst A) k a s' : c (km k) = Ok a s' → mem_op c k = Ok a (set_km s' k).
Proof. unfold mem_op, zoom. by intros ->. Qed.

(** What the new slot is, given its three pages. *)
Definition new_slot k (tf u p : Z) : proc :=
  fresh_proc forkret (ticks k) (set_kpagetable p (set_pagetable u (set_trapframe tf (set_p_pid (nextpid k) (procs k 0))))).

Definition slot_is k k' (q : proc) : Prop := ∀ j, procs k' j = if j =? 0 then q else procs k j.

Lemma find_slot_0 k : p_state (procs k 0) = UNUSED → find_proc (λ i, bool_decide (p_state (procs k i) = UNUSED)) proc_ids = Some 0.
Proof.
  intros Hun. change proc_ids with (0 :: seqZ 1 (NPROC - 1)). cbn [find_proc]. by rewrite bool_decide_true.
Qed.
Lemma allocproc_steps k tf s1 u s2 p s3 :
  p_state (procs k 0) = UNUSED → kalloc (km k) = Ok tf s1 → tf ≠ 0 →
  proc_pagetable tf (set_mem (fill (mem s1) tf 0 TF_SIZE) s1) = Ok u s2 → u ≠ 0 →
  proc_kpagetable (kernel_pagetable k) s2 = Ok p s3 → p ≠ 0 →
  ∃ k', allocproc forkret k = Ok 0 k' ∧ slot_is k k' (new_slot k tf u p) ∧ nextpid k' = i32 (nextpid k + 1) ∧
    initproc k' = initproc k ∧ ticks k' = ticks k ∧ kernel_pagetable k' = kernel_pagetable k ∧ fs k' = fs k ∧ km k' = s3.
Proof.
  intros Hun E1 H1 E2 H2 E3 H3. unfold allocproc, allocpid, mem_op, zoom, on_proc, modify, mbindM, gets, id, mretM.
  rewrite (find_slot_0 k Hun). cbn [km set_nextpid set_procs]. rewrite E1, (proj2 (Z.eqb_neq tf 0) H1).
  cbn [km set_km set_nextpid set_procs]. rewrite E2. cbn [km set_km set_nextpid set_procs]. rewrite (proj2 (Z.eqb_neq u 0) H2).
  cbn [km set_km set_nextpid set_procs]. rewrite E3, (proj2 (Z.eqb_neq p 0) H3).
  eexists. split; [reflexivity|]. split; [|done]. intros j. simpl. unfold upd. by destruct (Z.eqb_spec j 0) as [->|].
Qed.

Lemma allocproc_run k L (kr := kernel_pagetable k) :
  space (km k) L [kr] [] → (12 ≤ length L)%nat → child (mem (km k)) kr (PX 2 VKSTACK) = None → p_state (procs k 0) = UNUSED →
  ∃ k' u p tf st L', allocproc forkret k = Ok 0 k' ∧ slot_is k k' (new_slot k tf u p) ∧ nextpid k' = i32 (nextpid k + 1) ∧
    kernel_pagetable k' = kr ∧ fs k' = fs k ∧ ticks k' = ticks k ∧
    space (km k') L' [p; u] [st; kr; tf] ∧ NoDup [st; kr; tf] ∧ u ≠ p ∧ (length L ≤ length L' + 10)%nat ∧
    mirrors (mem (km k')) kr p ∧ (∀ i, idx9 i → child (mem (km k')) kr i = child (mem (km k)) kr i) ∧
    (∀ va, 0 ≤ va < MAXVA → pte_of (mem (km k')) u va = user_entry tf va) ∧
    (∀ va, 0 ≤ va < MAXVA → pte_of (mem (km k')) p va =
       if PGROUNDDOWN va =? VKSTACK then mk_pte st RW else pte_of (mem (km k)) kr va).
Proof.
  intros Hsp Hlen Hnone Hun. destruct L as [|tf L]; [simpl in Hlen; lia|]. simpl in Hlen.
  destruct (kalloc_space (km k) tf L [kr] [] Hsp) as (s1 & E1 & Htf0 & _ & S1 & _ & HtfT & _ & K1).
  destruct (space_write s1 L [kr] [tf] tf (fill (mem s1) tf 0 TF_SIZE) S1 ltac:(by left)) as (S2 & K2 & _).
  { intros x Hx. apply fill_other. unfold TF_SIZE, PGSIZE in *. lia. }
  pose proof (tables_kept_trans _ _ _ _ K1 K2) as K12. set (s2 := set_mem _ _) in *.
  destruct (proc_pagetable_space s2 L [kr] [tf] tf S2) as (u & s3 & L3 & E3 & Hu0 & HuT & _ & S3 & HL3 & Hn3 & F3 & K3 & P3); [by left|lia|].
  assert (∀ i, idx9 i → child (mem s3) kr i = child (mem (km k)) kr i) as C3.
  { intros i Hi. change (node_page (mem s3) kr (Mid i) = node_page (mem (km k)) kr (Mid i)).
    apply node_page_agree; [|done]. apply (tables_kept_trans _ _ _ _ K12 K3). by left. }
  assert (kr ≠ u) as Hku by (intros E; apply HuT; rewrite E; by left).
  assert (kr ≠ tf) as Hkt by (intros E; apply HtfT; rewrite E; by left).
  destruct (proc_kpagetable_space s3 L3 [u] [tf] kr) as (p & st & s4 & L4 & E4 & Hp0 & HpT & S4 & Hst & HL4 & Hn4 & F4 & K4 & M4 & C4 & P4).
  { apply (space_sub _ _ _ _ _ _ S3); set_solver. }
  { set_solver. }
  { set_solver. }
  { lia. }
  { by rewrite C3 by (apply PX_range; lia). }
  destruct (allocproc_steps k tf s1 u s3 p s4 Hun E1 Htf0 E3 Hu0 E4 Hp0) as (k' & E & Hslot & N1 & N2 & N3 & N4 & N5 & N6).
  exists k', u, p, tf, st, L4. rewrite N6. split_and!; try done.
  - repeat (apply NoDup_cons; split); [done|set_solver|set_solver|by apply NoDup_nil].
  - set_solver.
  - simpl. lia.
  - intros i Hi. by rewrite C4, C3.
  - intros va Hva. rewrite (kept_pte s3 s4 [u] u) by (done || by left). by apply P3.
  - intros va Hva. rewrite P4 by done. by rewrite (kept_pte (km k) s3 [kr] kr) by (by eapply tables_kept_trans || by left).
Qed.

Lemma userinit_steps k k1 s2 (q := procs k1 0) :
  allocproc forkret k = Ok 0 k1 → uvminit (pagetable q) (kpagetable q) initcode (km k1) = Ok tt s2 →
  ∃ k', userinit forkret k = Ok tt k' ∧ initproc k' = 0 ∧ nextpid k' = nextpid k1 ∧ kernel_pagetable k' = kernel_pagetable k1 ∧
    fs k' = fs k1 ∧ ticks k' = ticks k1 ∧
    slot_is k1 k' (set_tmask 0 (set_p_state RUNNABLE (set_name [105; 110; 105; 116; 99; 111; 100; 101] (set_sz PGSIZE q)))) ∧
    km k' = set_mem (store64 (store64 (mem s2) (trapframe q + TF_EPC) 0) (trapframe q + TF_SP) PGSIZE) s2.
Proof.
  intros E1 E2. unfold userinit. rewrite (mbindM_Ok _ _ _ _ _ E1).
  unfold mbindM, modify, get_proc, gets, mem_op, zoom, on_proc, tf_set. cbn [km set_initproc procs]. fold q. rewrite E2.
  eexists. split; [reflexivity|]. split; [done|]. split; [done|]. split; [done|]. split; [done|]. split; [done|]. split; [|done].
  intros j. simpl. unfold upd. by destruct (Z.eqb_spec j 0) as [->|].
Qed.

(** The kernel's own table after its copy got two more entries. *)
Lemma mirrored_entries m m' kr p f st :
  mirrors m' kr p → (∀ i, idx9 i → child m' kr i = child m kr i) → child m kr (PX 2 VKSTACK) = None → child m kr 0 = None →
  (∀ va, 0 ≤ va < MAXVA → pte_of m' p va =
     if PGROUNDDOWN va =? 0 then mk_pte f RWX else if PGROUNDDOWN va =? VKSTACK then mk_pte st RW else pte_of m kr va) →
  ∀ va, 0 ≤ va < MAXVA → pte_of m' kr va = pte_of m kr va.
Proof.
  intros Hm Hc Hv H0 Hp va Hva. rewrite (mirrors_entry m' kr p va Hm), Hc by (apply PX_range; lia).
  destruct (child m kr (PX 2 va)) as [q|] eqn:E; [|unfold pte_of, low_of, node_page; by rewrite E].
  rewrite Hp by done. rewrite <- (PX_PGROUNDDOWN 2 va) in E by lia.
  destruct (Z.eqb_spec (PGROUNDDOWN va) 0) as [E0|_]; [rewrite E0 in E; change (PX 2 0) with 0 in E; congruence|].
  destruct (Z.eqb_spec (PGROUNDDOWN va) VKSTACK) as [E0|_]; [rewrite E0 in E; congruence|done].
Qed.

Lemma userinit_spec k L (kr := kernel_pagetable k) :
  space (km k) L [kr] [] → (16 ≤ length L)%nat → child (mem (km k)) kr (PX 2 VKSTACK) = None → child (mem (km k)) kr 0 = None →
  p_state (procs k 0) = UNUSED →
  ∃ k' u p tf st f L', userinit forkret k = Ok tt k' ∧ initproc k' = 0 ∧ nextpid k' = i32 (nextpid k + 1) ∧ kernel_pagetable k' = kr ∧
    fs k' = fs k ∧ ticks k' = ticks k ∧
    slot_is k k' (set_tmask 0 (set_p_state RUNNABLE (set_name [105; 110; 105; 116; 99; 111; 100; 101] (set_sz PGSIZE (new_slot k tf u p))))) ∧
    space (km k') L' [p; u] [f; st; kr; tf] ∧ NoDup [f; st; kr; tf] ∧ u ≠ p ∧ (length L ≤ length L' + 15)%nat ∧
    load64 (mem (km k')) (tf + TF_EPC) = 0 ∧ load64 (mem (km k')) (tf + TF_SP) = PGSIZE ∧
    (∀ i, 0 ≤ i < PGSIZE → mem (km k') (f + i) = u8 (nth (Z.to_nat i) initcode 0)) ∧
    (∀ va, 0 ≤ va < MAXVA → pte_of (mem (km k')) u va =
       if PGROUNDDOWN va =? 0 then mk_pte f (Z.lor RWX PTE_U) else user_entry tf va) ∧
    (∀ va, 0 ≤ va < MAXVA → pte_of (mem (km k')) p va =
       if PGROUNDDOWN va =? 0 then mk_pte f RWX else
       if PGROUNDDOWN va =? VKSTACK then mk_pte st RW else pte_of (mem (km k)) kr va) ∧
    (∀ va, 0 ≤ va < MAXVA → pte_of (mem (km k')) kr va = pte_of (mem (km k)) kr va).
Proof.
  intros Hsp Hlen Hv H0 Hun.
  destruct (allocproc_run k L Hsp) as (k1 & u & p & tf & st & L1 & E1 & Sl1 & N1 & N2 & N3 & N4 & S1 & ND1 & Hup & Hn1 & M1 & C1 & U1 & P1); [lia|done|done|].
  fold kr in S1, ND1, M1, C1, P1, N2.
  assert (procs k1 0 = new_slot k tf u p) as Eq0 by by rewrite Sl1.
  assert (pte_of (mem (km k)) kr 0 = 0) as Ek0 by (unfold pte_of, low_of, node_page; change (PX 2 0) with 0; by rewrite H0).
  destruct (uvminit_space (km k1) L1 [p; u] [st; kr; tf] u p initcode) as (f & s2 & L2 & E2 & S2 & Hf & HL2 & Hn2 & F2 & A2 & U2 & P2 & B2);
    try map_side; [rewrite U1 by map_side; reflexivity|rewrite P1 by map_side; change (PGROUNDDOWN 0 =? VKSTACK) with false; cbv iota; by rewrite Ek0|].
  destruct (userinit_steps k k1 s2 E1) as (k' & E & I1 & I2 & I3 & I4 & I5 & Sl & Em); [by rewrite Eq0|].
  rewrite Eq0 in Sl, Em. change (trapframe (new_slot k tf u p)) with tf in Em.
  destruct (space_write s2 L2 [p; u] [f; st; kr; tf] tf (mem (km k')) S2) as (S3 & K3 & F3); [set_solver|..].
  { intros x Hx. rewrite Em. simpl. unfold TF_EPC, TF_SP, PGSIZE in *. by rewrite !store64_other by lia. }
  assert (set_mem (mem (km k')) s2 = km k') as Eset by (rewrite Em; by destruct s2). rewrite Eset in S3, K3.
  assert (NoDup [f; st; kr; tf]) as ND by (by apply NoDup_cons).
  assert (∀ g, g ∈ [f; st; kr] → ∀ x, g ≤ x < g + PGSIZE → mem (km k') x = mem s2 x) as F3'.
  { intros g Hg. apply F3; [set_solver|]. intros ->. rewrite (NoDup_app [f; st; kr] [tf]) in ND. set_solver. }
  destruct (mirrors_adds (mem (km k1)) (mem (km k')) kr p (on_path 0) M1) as [M3 C3].
  { intros x Hx. rewrite (F3' kr) by (done || set_solver). apply (F2 kr); [set_solver|done]. }
  { apply (adds_trans _ (mem s2)); [done|]. apply (adds_kept s2 (km k') [p; u]); [done|by left]. }
  { intros i [[= ->]|[=]]. change (PX 2 0) with 0. by rewrite C1 by (unfold idx9; lia). }
  assert (∀ va, 0 ≤ va < MAXVA → pte_of (mem (km k')) p va =
       if PGROUNDDOWN va =? 0 then mk_pte f RWX else
       if PGROUNDDOWN va =? VKSTACK then mk_pte st RW else pte_of (mem (km k)) kr va) as P3.
  { intros va Hva. rewrite (kept_pte s2 (km k') [p; u] p), P2, P1 by (done || by left). done. }
  exists k', u, p, tf, st, f, L2. rewrite I2, I3, I4, I5, N2, N3, N4.
  split; [done|]. split; [done|]. split; [done|]. split; [done|]. split; [done|]. split; [done|].
  split; [intros j; rewrite (Sl j), (Sl1 j); destruct (j =? 0); reflexivity|]. split; [done|]. split; [done|]. split; [done|]. split; [lia|]. split_and!.
  - rewrite Em. simpl. rewrite load64_store64_ne by (unfold TF_EPC, TF_SP; lia). apply load64_store64_eq.
  - rewrite Em. simpl. rewrite load64_store64_eq. reflexivity.
  - intros i Hi. rewrite (F3' f) by (lia || set_solver). by apply B2.
  - intros va Hva. rewrite (kept_pte s2 (km k') [p; u] u), U2, U1 by (done || set_solver). done.
  - done.
  - apply (mirrored_entries (mem (km k)) _ kr p f st); try done. intros i Hi. by rewrite C3, C1.
Qed.
End Kern.
End WithLayout.
