(* ===== verification/ProcProps.v ===== *)
(** * Properties of process management *)
From stdpp Require Import prelude list strings.
From Stdlib Require Import ZArith Lia.
From S2P Require Import Prelude Riscv Kalloc VM Vma ProcDefs Proc.
Open Scope Z_scope.

Section Props.
Context `{LAY : Layout} {F : Type} `{FR : FileRefs F} `{ER : EntryRefs F}.
Context (forkret : Z).

(** ** The scheduler *)

Lemma pick_from_Some k queues i :
  pick_from (F := F) k queues = Some i →
  0 ≤ i < NPROC ∧ p_state (procs k i) = RUNNABLE ∧
  ∃ q1 q2, queues = q1 ++ queue_level (procs k i) :: q2 ∧
    ∀ q, q ∈ q1 → ∀ j, 0 ≤ j < NPROC → p_state (procs k j) = RUNNABLE → queue_level (procs k j) ≠ q.
Proof.
  induction queues as [|q queues IH]; simpl; [done|].
  destruct (queue_pick k q) as [j|] eqn:E.
  - intros [= ->]. apply find_proc_Some in E as [Hi E]. apply proc_ids_spec in Hi.
    apply andb_prop in E as [Es Eq]. apply bool_decide_eq_true in Es. apply Z.eqb_eq in Eq.
    split; [done|]. split; [done|]. exists [], queues. rewrite Eq. split; [done|].
    by intros ? ?%elem_of_nil.
  - intros (Hi & Hs & q1 & q2 & -> & Hq)%IH. split; [done|]. split; [done|].
    exists (q :: q1), q2. split; [done|]. intros q' [->|Hq']%elem_of_cons j Hj Hr; [|by apply Hq].
    intros Hl. pose proof (find_proc_None _ _ j E ltac:(by apply proc_ids_spec)) as Hf.
    cbv beta in Hf. rewrite bool_decide_eq_true_2, Hl, Z.eqb_refl in Hf by done. done.
Qed.

Lemma pick_from_None k queues :
  pick_from (F := F) k queues = None →
  ∀ i, 0 ≤ i < NPROC → p_state (procs k i) = RUNNABLE → queue_level (procs k i) ∉ queues.
Proof.
  induction queues as [|q queues IH]; simpl; intros E i Hi Hr; [apply not_elem_of_nil|].
  destruct (queue_pick k q) eqn:Eq; [done|]. apply not_elem_of_cons. split; [|by apply IH].
  intros Hl. pose proof (find_proc_None _ _ i Eq ltac:(by apply proc_ids_spec)) as Hf.
  cbv beta in Hf. rewrite bool_decide_eq_true_2, Hl, Z.eqb_refl in Hf by done. done.
Qed.

(** Queue level and remaining slice of a process are in range. *)
Definition mlfq_ok (p : proc) : Prop :=
  0 ≤ queue_level p < MFQ_NQUEUES ∧ 0 ≤ time_slice p ≤ slice_of (queue_level p) 0.

Lemma slice_pos l o : 0 ≤ l < MFQ_NQUEUES → slice_of l o = 2 ^ l ∧ 1 ≤ slice_of l o ≤ 4.
Proof.
  intros Hl. assert (l = 0 ∨ l = 1 ∨ l = 2) as [->|[->| ->]] by (unfold MFQ_NQUEUES in Hl; lia);
    (split; [done|vm_compute; intuition congruence]).
Qed.

Lemma dispatch_ok p :
  mlfq_ok p → mlfq_ok (dispatch p) ∧ 1 ≤ time_slice (dispatch p) ∧ p_state (dispatch p) = RUNNING ∧
  queue_level (dispatch p) = queue_level p ∧
  (time_slice p = 0 → time_slice (dispatch p) = 2 ^ queue_level p).
Proof.
  intros [Hl Ht]. destruct (slice_pos _ 0 Hl) as [E1 B1].
  destruct (slice_pos _ (time_slice p) Hl) as [E2 B2]. unfold dispatch, mlfq_ok. simpl.
  destruct (Z.leb_spec (time_slice p) 0); simpl; split_and!; lia || done.
Qed.


(** ** The timer tick *)

Definition tick_post (p : proc) : proc :=
  let p1 := set_time_slice (time_slice p - 1) (set_ticks_used (i32 (ticks_used p + 1)) p) in
  if time_slice p - 1 <=? 0 then
    let p2 := set_time_slice 0 p1 in
    if queue_level p <? MFQ_NQUEUES - 1 then set_queue_level (queue_level p + 1) p2 else p2
  else p1.

Lemma handle_time_slice_run me k :
  me ≠ -1 → 1 ≤ time_slice (procs k me) < 2 ^ 31 →
  ∃ k', handle_time_slice (F := F) me k = Ok (time_slice (procs k me) - 1 <=? 0) k' ∧
    procs k' me = tick_post (procs k me) ∧ ∀ j, j ≠ me → procs k' j = procs k j.
Proof.
  intros Hne Ht. unfold handle_time_slice. destruct (Z.eqb_spec me (-1)); [done|].
  unfold mbindM, on_proc, modify, get_proc, gets, whenM, mretM, tick_post. simpl. rewrite upd_eq. simpl.
  rewrite (i32_small (time_slice (procs k me) - 1)) by lia.
  destruct (Z.leb_spec (time_slice (procs k me) - 1) 0); simpl; rewrite ?upd_eq; simpl.
  - destruct (Z.ltb_spec (queue_level (procs k me)) (MFQ_NQUEUES - 1)); simpl.
    + eexists. split; [done|]. simpl. rewrite !upd_eq. split; [done|].
      intros j Hj. by rewrite !upd_ne.
    + eexists. split; [done|]. simpl. rewrite !upd_eq. split; [done|]. intros j Hj. by rewrite !upd_ne.
  - eexists. split; [done|]. simpl. rewrite !upd_eq. split; [done|]. intros j Hj. by rewrite !upd_ne.
Qed.

(** [n] ticks in a row. *)
Fixpoint ticks_run (n : nat) (me : Z) : M (kern F) bool :=
  match n with
  | O => mretM false
  | S n => b <-- handle_time_slice me ;; if (b : bool) then mretM true else ticks_run n me
  end.

Lemma ticks_run_spec n me k :
  me ≠ -1 → mlfq_ok (procs k me) → Z.of_nat n ≤ time_slice (procs k me) → 1 ≤ time_slice (procs k me) →
  ∃ k', ticks_run n me k = Ok (Z.of_nat n =? time_slice (procs k me)) k' ∧ mlfq_ok (procs k' me) ∧
    (∀ j, j ≠ me → procs k' j = procs k j) ∧
    (if Z.of_nat n =? time_slice (procs k me)
     then time_slice (procs k' me) = 0 ∧
          queue_level (procs k' me) = Z.min (queue_level (procs k me) + 1) (MFQ_NQUEUES - 1)
     else time_slice (procs k' me) = time_slice (procs k me) - Z.of_nat n ∧
          queue_level (procs k' me) = queue_level (procs k me)).
Proof.
  revert k. induction n as [|n IH]; intros k Hne Hok Hn H1.
  { exists k. destruct (Z.eqb_spec (Z.of_nat 0) (time_slice (procs k me))); [lia|].
    split; [done|]. split; [done|]. split; [done|]. split; [lia|done]. }
  destruct Hok as [Hl Ht]. destruct (slice_pos _ 0 Hl) as [_ Hs].
  destruct (handle_time_slice_run me k Hne ltac:(lia)) as (k1 & E1 & P1 & O1).
  cbn [ticks_run]. rewrite (mbindM_Ok _ _ _ _ _ E1).
  destruct (Z.leb_spec (time_slice (procs k me) - 1) 0) as [Hz|Hz].
  - exists k1. destruct (Z.eqb_spec (Z.of_nat (S n)) (time_slice (procs k me))); [|lia].
    split; [done|]. split; [|split; [exact O1|]]; rewrite P1; unfold tick_post, mlfq_ok, MFQ_NQUEUES in *;
    (destruct (Z.leb_spec (time_slice (procs k me) - 1) 0); [|lia]);
    (destruct (Z.ltb_spec (queue_level (procs k me)) (3 - 1)); simpl).
    + destruct (slice_pos (queue_level (procs k me) + 1) 0 ltac:(unfold MFQ_NQUEUES; lia)). lia.
    + destruct (slice_pos (queue_level (procs k me)) 0 ltac:(unfold MFQ_NQUEUES; lia)). lia.
    + lia.
    + lia.
  - assert (tick_post (procs k me) = set_time_slice (time_slice (procs k me) - 1)
      (set_ticks_used (i32 (ticks_used (procs k me) + 1)) (procs k me))) as ET.
    { unfold tick_post. destruct (Z.leb_spec (time_slice (procs k me) - 1) 0); [lia|done]. }
    rewrite ET in P1.
    destruct (IH k1 Hne) as (k2 & E2 & H2 & O2 & R2);
      [rewrite P1; split; simpl; lia|rewrite P1; simpl; lia|rewrite P1; simpl; lia|].
    rewrite P1 in E2, R2. cbn [time_slice queue_level set_time_slice set_ticks_used] in E2, R2. exists k2.
    replace (Z.of_nat n =? time_slice (procs k me) - 1) with (Z.of_nat (S n) =? time_slice (procs k me)) in *
      by (destruct (Z.eqb_spec (Z.of_nat (S n)) (time_slice (procs k me))),
            (Z.eqb_spec (Z.of_nat n) (time_slice (procs k me) - 1)); lia).
    split; [done|]. split; [done|]. split; [intros j Hj; by rewrite O2, O1|].
    destruct (Z.of_nat (S n) =? time_slice (procs k me)); [done|]. split; [lia|tauto].
Qed.

(** C19: MLFQ demotion: a process dispatched with a fresh slice at level [l] may
    take exactly [2^l] timer ticks; only at the last one [handle_time_slice]
    asks for a yield, and the process then sits one level lower (the lowest
    level keeps it), with its slice cleared for the next dispatch. *)
Theorem mlfq_slice_and_demotion me k n :
  me ≠ -1 → mlfq_ok (procs k me) → time_slice (procs k me) = 2 ^ queue_level (procs k me) →
  Z.of_nat n ≤ 2 ^ queue_level (procs k me) →
  ∃ k', ticks_run n me k = Ok (Z.of_nat n =? 2 ^ queue_level (procs k me)) k' ∧
    mlfq_ok (procs k' me) ∧ (∀ j, j ≠ me → procs k' j = procs k j) ∧
    (Z.of_nat n = 2 ^ queue_level (procs k me) → time_slice (procs k' me) = 0 ∧
       queue_level (procs k' me) = Z.min (queue_level (procs k me) + 1) (MFQ_NQUEUES - 1)) ∧
    (Z.of_nat n < 2 ^ queue_level (procs k me) →
       queue_level (procs k' me) = queue_level (procs k me)).
Proof.
  intros Hne Hok Ht Hn.
  assert (1 ≤ time_slice (procs k me)) as H1.
  { rewrite Ht. pose proof (Z.pow_pos_nonneg 2 (queue_level (procs k me))) as Hp.
    destruct Hok as [Hl _]. lia. }
  destruct (ticks_run_spec n me k Hne Hok) as (k' & E & H2 & O2 & R2); [lia|done|].
  rewrite Ht in E, R2. exists k'. split; [done|]. split; [done|]. split; [done|].
  destruct (Z.eqb_spec (Z.of_nat n) (2 ^ queue_level (procs k me))).
  - split; [done|lia].
  - split; [lia|]. intros _. apply R2.
Qed.

(** ** Table-wide updates *)

(** From [k] to [k'] the table became [T], nothing else changed. *)
Definition table_to (k k' : kern F) (T : Z → proc) : Prop :=
  (∀ i, procs k' i = T i) ∧ nextpid k' = nextpid k ∧ initproc k' = initproc k ∧
  ticks k' = ticks k ∧ km k' = km k ∧ fs k' = fs k.

Lemma forM_procs (test : proc → bool) (f : proc → proc) l k :
  NoDup l →
  ∃ k', forM l (λ i, p <-- get_proc i ;; whenM (test p) (on_proc i f)) k = Ok tt k' ∧
    table_to k k' (λ i, if bool_decide (i ∈ l) && test (procs k i) then f (procs k i) else procs k i).
Proof.
  revert k. induction l as [|i l IH]; intros k Hn; cbn [forM].
  { exists k. split; [done|]. by split_and!. }
  apply NoDup_cons in Hn as [Hi Hn].
  assert (∃ k1, (p <-- get_proc i ;; whenM (test p) (on_proc i f)) k = Ok tt k1 ∧
    table_to k k1 (λ j, if (j =? i) && test (procs k j) then f (procs k j) else procs k j))
    as (k1 & E1 & T1 & N1).
  { unfold mbindM, get_proc, gets, whenM. destruct (test (procs k i)) eqn:Et.
    - eexists. split; [done|]. split; [|done]. intros j. simpl. unfold upd.
      destruct (Z.eqb_spec j i) as [->|]; simpl; [by rewrite Et|done].
    - exists k. split; [done|]. split; [|done]. intros j.
      destruct (Z.eqb_spec j i) as [->|]; simpl; [by rewrite Et|done]. }
  rewrite (mbindM_Ok _ _ _ _ _ E1). destruct (IH k1 Hn) as (k2 & E2 & T2 & N2).
  exists k2. split; [done|]. split.
  - intros j. rewrite T2, T1. destruct (Z.eqb_spec j i) as [->|Hne].
    + rewrite (bool_decide_eq_false_2 (i ∈ l)) by done. simpl.
      rewrite bool_decide_eq_true_2 by left. done.
    + simpl. assert (bool_decide (j ∈ i :: l) = bool_decide (j ∈ l)) as ->; [|done].
      apply bool_decide_ext. rewrite elem_of_cons. naive_solver.
  - destruct N1 as (? & ? & ? & ? & ?), N2 as (? & ? & ? & ? & ?). split_and!; congruence.
Qed.

Lemma proc_ids_nodup : NoDup proc_ids.
Proof. apply NoDup_seqZ. Qed.

Lemma in_table i : bool_decide (i ∈ proc_ids) = (0 <=? i) && (i <? NPROC).
Proof.
  apply eq_bool_prop_intro. rewrite !Is_true_true, bool_decide_eq_true, proc_ids_spec.
  by rewrite andb_true_iff, Z.leb_le, Z.ltb_lt.
Qed.

(** [wakeup] makes runnable exactly the processes sleeping on the channel
    and changes nothing else. *)
Theorem wakeup_correct chan k :
  ∃ k', wakeup (F := F) chan k = Ok tt k' ∧
    table_to k k' (λ i, if (0 <=? i) && (i <? NPROC) &&
        (bool_decide (p_state (procs k i) = SLEEPING) && (p_chan (procs k i) =? chan))
      then set_p_state RUNNABLE (procs k i) else procs k i).
Proof.
  destruct (forM_procs (λ p, bool_decide (p_state p = SLEEPING) && (p_chan p =? chan))
    (set_p_state RUNNABLE) proc_ids k proc_ids_nodup) as (k' & E & T & N).
  exists k'. split; [done|]. split; [|done]. intros i. rewrite T, in_table. done.
Qed.

(** Process ids identify processes: no two slots share a non-zero pid. *)
Definition pids_ok (k : kern F) : Prop :=
  (∀ i, 0 ≤ i < NPROC → 0 ≤ p_pid (procs k i) < nextpid k) ∧
  (∀ i, 0 ≤ i < NPROC → p_state (procs k i) ≠ UNUSED → p_pid (procs k i) ≠ 0) ∧
  (∀ i j, 0 ≤ i < NPROC → 0 ≤ j < NPROC → p_pid (procs k i) = p_pid (procs k j) →
     p_pid (procs k i) ≠ 0 → i = j).

Definition killed_proc (p : proc) : proc :=
  let p := set_p_killed 1 p in
  if bool_decide (p_state p = SLEEPING) then set_p_state RUNNABLE p else p.

Lemma kill_run pid k :
  match find_proc (λ i, p_pid (procs k i) =? pid) proc_ids with
  | Some i => ∃ k', kill (F := F) pid k = Ok 0 k' ∧
      table_to k k' (λ j, if j =? i then killed_proc (procs k i) else procs k j)
  | None => kill pid k = Ok (-1) k
  end.
Proof.
  unfold kill, mbindM, gets, id. destruct (find_proc _ _) as [i|]; [|done].
  unfold on_proc, modify, get_proc, gets, whenM, mretM, killed_proc. simpl. rewrite upd_eq. simpl.
  destruct (bool_decide (p_state (procs k i) = SLEEPING)); simpl.
  - eexists. split; [done|]. split; [|done]. intros j. simpl. unfold upd.
    destruct (Z.eqb_spec j i); [by rewrite Z.eqb_refl|done].
  - eexists. split; [done|]. split; [|done]. intros j. simpl. unfold upd. by destruct (Z.eqb_spec j i).
Qed.

(** [kill] with a live process's pid marks that process, and no other, and
    makes it runnable if it slept; with an unknown pid it returns -1 and does
    nothing. *)
Theorem kill_correct pid k :
  pids_ok k → 0 < pid →
  (∀ i, 0 ≤ i < NPROC → p_pid (procs k i) = pid →
     ∃ k', kill (F := F) pid k = Ok 0 k' ∧
       table_to k k' (λ j, if j =? i then killed_proc (procs k i) else procs k j)) ∧
  ((∀ i, 0 ≤ i < NPROC → p_pid (procs k i) ≠ pid) → kill (F := F) pid k = Ok (-1) k).
Proof.
  intros (_ & _ & Hu) Hp. pose proof (kill_run pid k) as Hk.
  destruct (find_proc _ proc_ids) as [j|] eqn:E.
  - apply find_proc_Some in E as [Hj E]. apply proc_ids_spec in Hj. apply Z.eqb_eq in E. split.
    + intros i Hi Ei. assert (i = j) as -> by (apply Hu; lia). done.
    + intros Hno. by apply Hno in E.
  - split; [|done]. intros i Hi Ei.
    pose proof (find_proc_None _ _ i E ltac:(by apply proc_ids_spec)) as Hf. cbv beta in Hf.
    apply Z.eqb_neq in Hf. done.
Qed.

(** ** Inversion of kernel computations *)

Lemma mem_op_inv {A} (c : M kst A) (k : kern F) a k' :
  mem_op c k = Ok a k' → ∃ t, c (km k) = Ok a t ∧ k' = set_km t k.
Proof. unfold mem_op, zoom. destruct (c (km k)) as [b t|]; [|done]. intros [= -> <-]. eauto. Qed.
Lemma file_op_inv {A} (c : M F A) (k : kern F) a k' :
  file_op c k = Ok a k' → ∃ t, c (fs k) = Ok a t ∧ k' = set_fs t k.
Proof. unfold file_op, zoom. destruct (c (fs k)) as [b t|]; [|done]. intros [= -> <-]. eauto. Qed.
Lemma on_proc_inv i f (k : kern F) u k' :
  on_proc i f k = Ok u k' → k' = set_procs (upd (procs k) i (f (procs k i))) k.
Proof. by intros [= _ <-]. Qed.
Lemma get_proc_inv i (k : kern F) p k' : get_proc i k = Ok p k' → p = procs k i ∧ k' = k.
Proof. by intros [= <- <-]. Qed.
Lemma gets_inv {S A} (f : S → A) (s : S) a s' : gets f s = Ok a s' → a = f s ∧ s' = s.
Proof. by intros [= <- <-]. Qed.
Lemma modify_inv {S} (f : S → S) (s : S) u s' : modify f s = Ok u s' → s' = f s.
Proof. by intros [= _ <-]. Qed.
Lemma mretM_inv {S A} (a : A) (s : S) b s' : mretM a s = Ok b s' → b = a ∧ s' = s.
Proof. by intros [= <- <-]. Qed.
Lemma whenM_inv {S} (b : bool) (c : M S unit) s u s' :
  whenM b c s = Ok u s' → (b = true ∧ c s = Ok u s') ∨ (b = false ∧ s' = s).
Proof. destruct b; [by left|]. intros [= _ <-]. by right. Qed.
End Props.

(** Take apart a successful run step by step. *)
Ltac krun1 H :=
  first
  [ apply on_proc_inv in H; subst
  | apply get_proc_inv in H as [? ?]; subst
  | apply gets_inv in H as [? ?]; subst
  | apply modify_inv in H; subst
  | apply mem_op_inv in H as (? & ? & ?); subst
  | apply file_op_inv in H as (? & ? & ?); subst
  | apply whenM_inv in H as [[? H]|[? ?]]; [krun1 H|subst]
  | idtac ].
Ltac krun H :=
  repeat (let a := fresh "a" in let k := fresh "k" in let E := fresh "E" in
          apply mbindM_inv in H as (a & k & E & H); krun1 E; cbv beta in H).
(** Split on the test the rest of a run starts with. *)
Ltac kcase H :=
  match type of H with
  | (if ?b then _ else _) _ = _ => let Eb := fresh "Eb" in destruct b eqn:Eb
  end.

Section Frames.
Context `{LAY : Layout} {F : Type} `{FR : FileRefs F} `{ER : EntryRefs F}.
Context (forkret : Z).

(** Only slot [i] of the table may have changed. *)
Record slot_only (i : Z) (k k' : kern F) : Prop := {
  so_other : ∀ j, j ≠ i → procs k' j = procs k j;
  so_init : initproc k' = initproc k;
  so_ticks : ticks k' = ticks k }.

Lemma slot_only_refl i k : slot_only i k k.
Proof. by split. Qed.
Lemma slot_only_trans i k1 k2 k3 : slot_only i k1 k2 → slot_only i k2 k3 → slot_only i k1 k3.
Proof. intros [A1 B1 C1] [A2 B2 C2]. split; [|congruence|congruence]. intros j Hj. by rewrite A2, A1. Qed.

Lemma slot_only_ops i k f m g :
  slot_only i k (set_procs (upd (procs k) i f) k) ∧ slot_only i k (set_km m k) ∧
  slot_only i k (set_fs g k).
Proof. split_and!; split; try done. intros j Hj. simpl. by rewrite upd_ne. Qed.

Lemma freeproc_frame i k u k' :
  freeproc i k = Ok u k' →
  slot_only i k k' ∧ nextpid k' = nextpid k ∧
  p_state (procs k' i) = UNUSED ∧ p_pid (procs k' i) = 0 ∧ p_killed (procs k' i) = 0 ∧
  p_parent (procs k' i) = -1 ∧ p_chan (procs k' i) = 0 ∧ mlfq_ok (procs k' i).
Proof.
  unfold freeproc. intros E. krun E; apply on_proc_inv in E; subst k'; simpl; rewrite ?upd_eq; simpl;
    (split; [|by rewrite ?upd_eq]); split; simpl; try done; intros j Hj; by rewrite !upd_ne.
Qed.

(** What [allocproc] does to the table, whether or not memory suffices. *)
Lemma allocproc_frame k r k' :
  allocproc forkret k = Ok r k' →
  match find_proc (λ i, bool_decide (p_state (procs k i) = UNUSED)) proc_ids with
  | None => r = -1 ∧ k' = k
  | Some i =>
      slot_only i k k' ∧ nextpid k' = i32 (nextpid k + 1) ∧ p_state (procs k' i) = UNUSED ∧
      ((r = -1 ∧ (p_pid (procs k' i) = nextpid k ∨ p_pid (procs k' i) = 0) ∧
        (mlfq_ok (procs k i) → mlfq_ok (procs k' i))) ∨
       (r = i ∧ p_pid (procs k' i) = nextpid k ∧ p_killed (procs k' i) = p_killed (procs k i) ∧
        mlfq_ok (procs k' i) ∧ sig_pending (procs k' i) = 0 ∧ sandbox_on (procs k' i) = 0 ∧
        start_time (procs k' i) = ticks k ∧ ofile (procs k' i) = ofile (procs k i)))
  end.
Proof.
  unfold allocproc. intros E. apply mbindM_inv in E as (k0 & k1 & E0 & E).
  apply gets_inv in E0 as [-> ->]. unfold id in E.
  destruct (find_proc _ _) as [i|] eqn:Ef; [|by apply mretM_inv in E as [-> ->]].
  apply find_proc_Some in Ef as [_ Ef]. apply bool_decide_eq_true in Ef.
  apply mbindM_inv in E as (pid & k1 & E1 & E). unfold allocpid in E1. krun E1.
  apply mretM_inv in E1 as [-> ->]. krun E.
  kcase E.
  { apply mretM_inv in E as [-> ->]. split; [split; try done; intros j Hj; simpl; by rewrite !upd_ne|].
    simpl. rewrite !upd_eq. simpl. split; [done|]. split; [done|]. left. split; [done|]. split; [by left|done]. }
  krun E. kcase E.
  { apply mbindM_inv in E as (u & k2 & Hf & E). apply mretM_inv in E as [-> ->].
    apply freeproc_frame in Hf as (S & N & U1 & U2 & _ & _ & _ & Q). split; [|split; [by rewrite N|split; [done|]]].
    - eapply slot_only_trans; [|exact S]. split; try done. intros j Hj. simpl. by rewrite !upd_ne.
    - left. split; [done|]. split; [by right|]. intros _. apply Q. }
  krun E. kcase E.
  { apply mbindM_inv in E as (u & k2 & Hf & E). apply mretM_inv in E as [-> ->].
    apply freeproc_frame in Hf as (S & N & U1 & U2 & _ & _ & _ & Q). split; [|split; [by rewrite N|split; [done|]]].
    - eapply slot_only_trans; [|exact S]. split; try done. intros j Hj. simpl. by rewrite !upd_ne.
    - left. split; [done|]. split; [by right|]. intros _. apply Q. }
  krun E. apply mretM_inv in E as [-> ->].
  split; [split; try done; intros j Hj; simpl; by rewrite !upd_ne|].
  simpl. rewrite !upd_eq. simpl. split; [done|]. split; [done|]. right. split_and!; try done.
Qed.
End Frames.
