(* ===== verification/ProcLife.v ===== *)
(** * The life of a process: fork, exit, wait

    [exit], [wait] and [fork] of kernel/proc.c described as table updates, the
    hand-over of a dead child to its parent, and the invariant of the process
    table over every operation of the file. *)
From stdpp Require Import prelude list strings.
From Stdlib Require Import ZArith Lia.
From S2P Require Import Prelude Riscv Kalloc VM Vma File ProcDefs Proc ProcProps.
Open Scope Z_scope.

Section Life.
Context `{LAY : Layout} {F : Type} `{FR : FileRefs F} `{ER : EntryRefs F}.
Context (forkret : Z).
Implicit Types k : kern F.

Lemma table_to_trans k1 k2 k3 T2 T3 :
  table_to k1 k2 T2 → table_to k2 k3 T3 → table_to k1 k3 T3.
Proof.
  intros (P1 & A1 & B1 & C1 & D1 & E1) (P2 & A2 & B2 & C2 & D2 & E2).
  split; [done|]. split_and!; congruence.
Qed.

(** Made runnable if asleep in [wait]. *)
Definition woken (i : Z) (p : proc) : proc :=
  if (p_chan p =? proc_chan i) && bool_decide (p_state p = SLEEPING)
  then set_p_state RUNNABLE p else p.

Lemma wakeup1_run i k :
  ∃ k', wakeup1 (F := F) i k = Ok tt k' ∧
    table_to k k' (λ j, if j =? i then woken i (procs k i) else procs k j).
Proof.
  unfold wakeup1, mbindM, get_proc, gets, whenM, woken. destruct (_ && _).
  - eexists. split; [done|]. split; [|done]. intros j. simpl. unfold upd. by destruct (j =? i).
  - exists k. split; [done|]. split; [|done]. intros j. by destruct (Z.eqb_spec j i) as [->|].
Qed.

Lemma reparent_run me k :
  ∃ k', reparent (F := F) me k = Ok tt k' ∧
    table_to k k' (λ j, if bool_decide (j ∈ proc_ids) && (p_parent (procs k j) =? me)
                        then set_p_parent (initproc k) (procs k j) else procs k j).
Proof.
  destruct (forM_procs (λ p, p_parent p =? me) (set_p_parent (initproc k)) proc_ids k proc_ids_nodup)
    as (k' & E & T). by exists k'.
Qed.

(** What [exit me] does to another process: a child goes to init, and init and
    the parent are woken if they wait. *)
Definition exit_other (k : kern F) (me j : Z) : proc :=
  let p := procs k j in
  let p := if bool_decide (j ∈ proc_ids) && (p_parent p =? me) then set_p_parent (initproc k) p else p in
  if (j =? initproc k) || (j =? p_parent (procs k me)) then woken j p else p.

Lemma woken_parent j v p : woken j (set_p_parent v p) = set_p_parent v (woken j p).
Proof. unfold woken. simpl. by destruct (_ && _). Qed.
Lemma woken_idem j p : woken j (woken j p) = woken j p.
Proof.
  unfold woken. destruct ((p_chan p =? proc_chan j) && bool_decide (p_state p = SLEEPING)) eqn:E.
  - simpl. by rewrite andb_false_r.
  - by rewrite E.
Qed.
Lemma woken_p_parent j p : p_parent (woken j p) = p_parent p.
Proof. unfold woken. by destruct (_ && _). Qed.

Lemma exit_run me status k s1 s2 s3 fs' m :
  me ≠ initproc k →
  close_files (ofile (procs k me)) (fs k) = Ok fs' s1 →
  eput_ (cwd (procs k me)) s1 = Ok tt s2 →
  vma_cleanup (vma_man (procs k me)) s2 = Ok m s3 →
  ∃ k', exit (F := F) me status k = Ok tt k' ∧ fs k' = s3 ∧ km k' = km k ∧ nextpid k' = nextpid k ∧
    initproc k' = initproc k ∧
    (∀ j, j ≠ me → procs k' j = exit_other k me j) ∧
    (p_parent (procs k me) ≠ me →
     procs k' me = set_p_state ZOMBIE (set_p_xstate status
       (set_vma_man m (set_cwd 0 (set_ofile fs' (procs k me)))))) ∧
    p_state (procs k' me) = ZOMBIE ∧ p_pid (procs k' me) = p_pid (procs k me) ∧
    queue_level (procs k' me) = queue_level (procs k me) ∧
    time_slice (procs k' me) = time_slice (procs k me).
Proof.
  intros Hni E1 E2 E3. unfold exit. unfold mbindM at 1, gets at 1. cbv beta iota.
  destruct (Z.eqb_spec me (initproc k)); [done|].
  unfold mbindM at 1, get_proc at 1, gets at 1. cbv beta iota.
  unfold mbindM at 1, file_op at 1, zoom at 1. rewrite E1.
  unfold mbindM at 1, on_proc at 1, modify at 1. cbn [set_fs set_procs fs procs].
  unfold mbindM at 1, file_op at 1, zoom at 1. cbn [set_fs set_procs fs procs]. rewrite E2.
  unfold mbindM at 1, on_proc at 1, modify at 1. cbn [set_fs set_procs fs procs].
  unfold mbindM at 1, file_op at 1, zoom at 1. cbn [set_fs set_procs fs procs]. rewrite E3.
  unfold mbindM at 1, on_proc at 1, modify at 1. cbn [set_fs set_procs fs procs nextpid initproc ticks km kernel_pagetable].
  match goal with |- context[mbindM (wakeup1 _) _ ?K] => set (k1 := K) end.
  assert (procs k1 me = set_vma_man m (set_cwd 0 (set_ofile fs' (procs k me)))) as Pme
    by (unfold k1; simpl; by rewrite !upd_eq).
  assert (∀ j, j ≠ me → procs k1 j = procs k j) as Pj
    by (intros j Hj; unfold k1; simpl; by rewrite !upd_ne).
  assert (fs k1 = s3 ∧ km k1 = km k ∧ nextpid k1 = nextpid k ∧ initproc k1 = initproc k) as N1 by done.
  clearbody k1.
  destruct (wakeup1_run (initproc k) k1) as (k2 & W2 & T2). rewrite (mbindM_Ok _ _ _ _ _ W2).
  unfold mbindM at 1, get_proc at 1, gets at 1. cbv beta iota.
  destruct (reparent_run me k2) as (k3 & W3 & T3). rewrite (mbindM_Ok _ _ _ _ _ W3).
  assert (p_parent (procs k2 me) = p_parent (procs k me)) as Epar.
  { rewrite (proj1 T2). destruct (Z.eqb_spec me (initproc k)); [done|]. by rewrite Pme. }
  rewrite Epar. destruct (wakeup1_run (p_parent (procs k me)) k3) as (k4 & W4 & T4).
  rewrite (mbindM_Ok _ _ _ _ _ W4). eexists. split; [done|].
  pose proof (table_to_trans _ _ _ _ _ T2 (table_to_trans _ _ _ _ _ T3 T4)) as (_ & N & I & _ & K & Fs).
  destruct N1 as (N11 & N12 & N13 & N14). cbn [fs km nextpid initproc set_procs].
  rewrite Fs, K, N, I, N11, N12, N13, N14. split; [done|]. split; [done|].
  split; [done|]. split; [done|]. split; [|split].
  - intros j Hj. simpl. rewrite upd_ne by done. rewrite (proj1 T4). unfold exit_other.
    assert (initproc k2 = initproc k) as Ei by (destruct T2 as (_ & _ & ? & _); congruence).
    set (q := if bool_decide (j ∈ proc_ids) && (p_parent (procs k j) =? me)
              then set_p_parent (initproc k) (procs k j) else procs k j).
    assert (procs k3 j = if j =? initproc k then woken j q else q) as P3.
    { rewrite (proj1 T3), (proj1 T2), Ei. unfold q.
      destruct (Z.eqb_spec j (initproc k)) as [->|]; rewrite ?woken_p_parent, Pj by done; [|done].
      destruct (bool_decide _ && _); by rewrite ?woken_parent. }
    destruct (Z.eqb_spec j (p_parent (procs k me))) as [Ep|_].
    + rewrite <- Ep, P3, orb_true_r. destruct (j =? initproc k); by rewrite ?woken_idem.
    + by rewrite P3, orb_false_r.
  - intros Hp. simpl. rewrite upd_eq, (proj1 T4).
    destruct (Z.eqb_spec me (p_parent (procs k me))); [done|].
    rewrite (proj1 T3), (proj1 T2). destruct (Z.eqb_spec me (initproc k)); [done|].
    rewrite Pme. simpl. destruct (Z.eqb_spec (p_parent (procs k me)) me); [done|].
    by rewrite andb_false_r.
  - simpl. rewrite upd_eq, (proj1 T4), !(proj1 T3), !(proj1 T2).
    destruct (Z.eqb_spec me (p_parent (procs k me))) as [<-|].
    + rewrite (proj2 (Z.eqb_neq _ _) Hni), Pme. unfold woken. simpl.
      destruct (bool_decide (me ∈ proc_ids) && _); simpl; by destruct (_ && _).
    + rewrite (proj2 (Z.eqb_neq _ _) Hni), Pme. simpl. by destruct (_ && _).
Qed.

Lemma close_files_zero ofs (s : F) fs' s' :
  close_files ofs s = Ok fs' s' → fs' = replicate (length ofs) 0.
Proof.
  revert s fs' s'. induction ofs as [|f ofs IH]; intros s fs' s' E; cbn [close_files] in E.
  - by apply mretM_inv in E as [-> _].
  - apply mbindM_inv in E as (? & ? & _ & E). apply mbindM_inv in E as (r & ? & Er & E).
    apply mretM_inv in E as [-> _]. by rewrite (IH _ _ _ Er).
Qed.

(** [exit] of a process other than init: the process becomes a ZOMBIE that
    keeps its pid, memory and exit status and no open file, directory or mapped
    region; each of its children now belongs to init; init and the parent are
    runnable if they slept in [wait]; every other process and all of memory are
    unchanged. *)
Theorem exit_correct me status k s1 s2 s3 fs' m :
  me ≠ initproc k → 0 ≤ me < NPROC → p_parent (procs k me) ≠ me →
  close_files (ofile (procs k me)) (fs k) = Ok fs' s1 →
  eput_ (cwd (procs k me)) s1 = Ok tt s2 →
  vma_cleanup (vma_man (procs k me)) s2 = Ok m s3 →
  ∃ k', exit (F := F) me status k = Ok tt k' ∧ km k' = km k ∧ fs k' = s3 ∧
    procs k' me = set_p_state ZOMBIE (set_p_xstate status (set_vma_man m (set_cwd 0
      (set_ofile (replicate (length (ofile (procs k me))) 0) (procs k me))))) ∧
    (∀ j, 0 ≤ j < NPROC → p_parent (procs k' j) = me → False) ∧
    (∀ j, 0 ≤ j < NPROC → j ≠ me → p_parent (procs k j) = me →
       p_parent (procs k' j) = initproc k) ∧
    (∀ j, j = initproc k ∨ j = p_parent (procs k me) → j ≠ me →
       p_state (procs k j) = SLEEPING → p_chan (procs k j) = proc_chan j →
       p_state (procs k' j) = RUNNABLE) ∧
    (∀ j, j ≠ me → p_parent (procs k j) ≠ me → j ≠ initproc k → j ≠ p_parent (procs k me) →
       procs k' j = procs k j).
Proof.
  intros Hni Hme Hp E1 E2 E3.
  destruct (exit_run me status k s1 s2 s3 fs' m Hni E1 E2 E3) as (k' & E & Hfs & Hkm & _ & _ & Hj & Hm & _).
  specialize (Hm Hp). apply close_files_zero in E1 as ->.
  assert (∀ j, 0 ≤ j < NPROC → j ≠ me → p_parent (procs k' j) =
    if p_parent (procs k j) =? me then initproc k else p_parent (procs k j)) as Hpar.
  { intros j Hj0 Hne. rewrite Hj by done. unfold exit_other.
    rewrite bool_decide_eq_true_2 by (by apply proc_ids_spec). simpl.
    destruct (p_parent (procs k j) =? me), (_ || _); by rewrite ?woken_p_parent. }
  exists k'. split_and!; try done.
  - intros j Hj0. destruct (decide (j = me)) as [->|Hne]; [by rewrite Hm|]. rewrite Hpar by done.
    destruct (Z.eqb_spec (p_parent (procs k j)) me); [intros Hx; by apply Hni|done].
  - intros j Hj0 Hne Hc. rewrite Hpar by done. by rewrite Hc, Z.eqb_refl.
  - intros j Hor Hne Hs Hc. rewrite Hj by done. unfold exit_other.
    replace ((j =? initproc k) || (j =? p_parent (procs k me))) with true
      by (symmetry; apply orb_true_iff; rewrite !Z.eqb_eq; done).
    unfold woken. destruct (bool_decide (j ∈ proc_ids) && _); simpl;
      by rewrite Hc, Hs, Z.eqb_refl.
  - intros j Hne Hnp Hn1 Hn2. rewrite Hj by done. unfold exit_other.
    rewrite (proj2 (Z.eqb_neq _ _) Hnp), (proj2 (Z.eqb_neq _ _) Hn1), (proj2 (Z.eqb_neq _ _) Hn2).
    by rewrite andb_false_r.
Qed.

(** ** wait *)

Definition child_of (k : kern F) (me i : Z) : bool := p_parent (procs k i) =? me.
Definition zombie_child (k : kern F) (me i : Z) : bool :=
  child_of k me i && bool_decide (p_state (procs k i) = ZOMBIE).

(** The reference behaviour: copy the status of the first zombie child out,
    free it and return its pid; or report what else there is. *)
Definition reap (me addr i : Z) : M (kern F) (option Z * bool) :=
  np <-- get_proc i ;;
  p <-- get_proc me ;;
  r <-- (if addr =? 0 then mretM 0
         else mem_op (copyout2 (Some (Pmem (sz p) (pagetable p) (kpagetable p))) addr
                        (int_bytes (p_xstate np)))) ;;
  if r <? 0 then mretM (Some (-1), true) else freeproc i ;;; mretM (Some (p_pid np), true).

Lemma wait_scan_spec me addr l hk k :
  wait_scan me addr l hk k =
  match find_proc (zombie_child k me) l with
  | Some i => reap me addr i k
  | None => Ok (None, hk || existsb (child_of k me) l) k
  end.
Proof.
  revert hk. induction l as [|i l IH]; intros hk; cbn [wait_scan find_proc existsb].
  { by rewrite orb_false_r. }
  unfold mbindM at 1, get_proc at 1, gets at 1. cbv beta iota.
  change (p_parent (procs k i) =? me) with (child_of k me i). unfold zombie_child at 1.
  destruct (child_of k me i).
  - destruct (bool_decide _); simpl; [done|]. rewrite IH. by destruct hk.
  - simpl. apply IH.
Qed.

Lemma wait_run me addr k :
  wait me addr k =
  match find_proc (zombie_child k me) proc_ids with
  | Some i => (r <-- reap me addr i ;; mretM (Waited (default (-1) (fst r)))) k
  | None =>
      if negb (existsb (child_of k me) proc_ids) || negb (p_killed (procs k me) =? 0)
      then Ok (Waited (-1)) k
      else Ok Asleep (set_procs (upd (procs k) me
             (set_p_state SLEEPING (set_p_chan (proc_chan me) (procs k me)))) k)
  end.
Proof.
  unfold wait. unfold mbindM at 1. rewrite wait_scan_spec.
  destruct (find_proc _ _) as [i|].
  - unfold mbindM. destruct (reap me addr i k) as [[[pid|] b] k'|e] eqn:E; [done| |done].
    exfalso. unfold reap in E. krun E. destruct (_ <? 0) in E; [by apply mretM_inv in E as [? _]|].
    apply mbindM_inv in E as (? & ? & _ & E). by apply mretM_inv in E as [? _].
  - cbn [orb]. unfold mbindM, get_proc, gets. by destruct (_ || _).
Qed.

(** [wait] returns the pid of the first zombie child after giving the slot
    back and copying its exit status out; with no child at all, or when killed,
    it returns -1 and changes nothing; otherwise it sleeps on the process's own
    channel, where [exit] of a child wakes it. *)
Theorem wait_correct me addr k :
  wait me addr k =
  match find_proc (zombie_child k me) proc_ids with
  | Some i => (r <-- reap me addr i ;; mretM (Waited (default (-1) (fst r)))) k
  | None =>
      if negb (existsb (child_of k me) proc_ids) || negb (p_killed (procs k me) =? 0)
      then Ok (Waited (-1)) k
      else Ok Asleep (set_procs (upd (procs k) me
             (set_p_state SLEEPING (set_p_chan (proc_chan me) (procs k me)))) k)
  end.
Proof. apply wait_run. Qed.

Lemma find_proc_is_Some f l i : i ∈ l → f i = true → ∃ j, find_proc f l = Some j.
Proof.
  intros Hi Hf. destruct (find_proc f l) as [j|] eqn:E; [eauto|].
  by rewrite (find_proc_None _ _ _ E Hi) in Hf.
Qed.

(** C17: no lost hand-over: when a child exits while its parent sleeps in
    [wait], the parent is runnable afterwards and its next round of [wait] does
    not sleep again: it finds a zombie child of its own and reaps it. *)
Theorem exit_wait_handover me q status addr k s1 s2 s3 fs' m :
  me ≠ initproc k → 0 ≤ me < NPROC → q ≠ me → p_parent (procs k me) = q →
  p_state (procs k q) = SLEEPING → p_chan (procs k q) = proc_chan q →
  close_files (ofile (procs k me)) (fs k) = Ok fs' s1 →
  eput_ (cwd (procs k me)) s1 = Ok tt s2 →
  vma_cleanup (vma_man (procs k me)) s2 = Ok m s3 →
  ∃ k' i, exit (F := F) me status k = Ok tt k' ∧ p_state (procs k' q) = RUNNABLE ∧
    p_parent (procs k' i) = q ∧ p_state (procs k' i) = ZOMBIE ∧
    wait q addr k' = (r <-- reap q addr i ;; mretM (Waited (default (-1) (fst r)))) k'.
Proof.
  intros Hni Hme Hq Hp Hs Hc E1 E2 E3.
  destruct (exit_run me status k s1 s2 s3 fs' m Hni E1 E2 E3) as (k' & E & _ & _ & _ & _ & Hj & Hm & _).
  rewrite Hp in Hm. specialize (Hm Hq).
  assert (zombie_child k' q me = true) as Hz.
  { unfold zombie_child, child_of. rewrite Hm. simpl. by rewrite Hp, Z.eqb_refl. }
  destruct (find_proc_is_Some (zombie_child k' q) proc_ids me) as [i Ei]; [by apply proc_ids_spec|done|].
  exists k', i. pose proof (find_proc_Some _ _ _ Ei) as [_ Hi].
  apply andb_prop in Hi as [Hi1 Hi2]. apply Z.eqb_eq in Hi1. apply bool_decide_eq_true in Hi2.
  split_and!; [done| |done|done|].
  - rewrite Hj by done. unfold exit_other. rewrite Hp, Z.eqb_refl, orb_true_r.
    unfold woken. destruct (bool_decide (q ∈ proc_ids) && _); simpl; by rewrite Hc, Hs, Z.eqb_refl.
  - rewrite wait_run, Ei. done.
Qed.

(** ** fork *)

Lemma dup_files_spec ofs nofs (s : F) r s' :
  dup_files ofs nofs s = Ok r s' → length ofs = length nofs → Forall (.= 0) nofs → r = ofs.
Proof.
  revert nofs s r s'. induction ofs as [|f ofs IH]; intros [|g nofs] s r s' E Hl Hz; cbn [dup_files] in E;
    try done; [by apply mretM_inv in E as [-> _]|].
  apply mbindM_inv in E as (? & ? & _ & E). apply mbindM_inv in E as (r' & ? & Er & E).
  apply mretM_inv in E as [-> _]. inversion_clear Hz; subst. f_equal.
  - destruct (Z.eqb_spec f 0); congruence.
  - eapply IH; [exact Er| |done]. simpl in Hl. lia.
Qed.

(** C15: [fork]: once a slot and the memory are there, the call returns the new
    pid; the child is runnable, a copy of the caller (size, directory, open
    files, name, priority, trace and sandbox settings), its trapframe is the
    caller's except that [a0] is 0, and no other process changes.  If the copy
    of the memory fails, the slot is freed and the result is -1. *)
Theorem fork_correct me k np k1 r m2 :
  allocproc forkret k = Ok np k1 → np ≠ -1 → p_state (procs k me) ≠ UNUSED →
  uvmcopy (pagetable (procs k me)) (pagetable (procs k1 np)) (kpagetable (procs k1 np))
    (sz (procs k me)) (km k1) = Ok r m2 →
  (r < 0 → fork forkret me k = (freeproc np ;;; mretM (-1)) (set_km m2 k1)) ∧
  (0 ≤ r → ∀ fs' s1 s2 m s3,
    dup_files (ofile (procs k me)) (ofile (procs k1 np)) (fs k1) = Ok fs' s1 →
    edup_ (cwd (procs k me)) s1 = Ok tt s2 →
    vma_copy (vma_man (procs k1 np)) (vma_man (procs k me)) s2 = Ok m s3 →
    ∃ k', fork forkret me k = Ok (nextpid k) k' ∧ fs k' = s3 ∧
      (∀ j, j ≠ np → procs k' j = procs k j) ∧
      (let p := procs k me in let c := procs k' np in
       p_state c = RUNNABLE ∧ p_pid c = nextpid k ∧ p_parent c = me ∧ sz c = sz p ∧
       pagetable c = pagetable (procs k1 np) ∧ cwd c = cwd p ∧ name c = take 15 (name p) ∧
       priority c = priority p ∧ tmask c = tmask p ∧ sandbox_on c = sandbox_on p ∧
       sandbox_action c = sandbox_action p ∧ allow_mask c = allow_mask p ∧ vma_man c = m ∧
       mlfq_ok c ∧
       (length (ofile p) = length (ofile (procs k1 np)) → Forall (.= 0) (ofile (procs k1 np)) →
        ofile c = ofile p) ∧
       tf_get TF_A0 c (km k') = 0 ∧
       (∀ o, 0 ≤ o < TF_SIZE → ¬ (TF_A0 ≤ o < TF_A0 + 8) →
          mem (km k') (trapframe c + o) = mem m2 (trapframe p + o)))).
Proof.
  intros Ea Hnp Hme Eu. pose proof (allocproc_frame _ _ _ _ Ea) as Hf.
  destruct (find_proc _ proc_ids) as [i|] eqn:Efp; [|by destruct Hf].
  destruct Hf as (S1 & _ & _ & [[? _]|(<- & Hpid & _ & Hmq & _)]); [done|].
  apply find_proc_Some in Efp as [_ Ei]. apply bool_decide_eq_true in Ei.
  assert (me ≠ np) as Hne by congruence.
  assert (procs k1 me = procs k me) as Eme by (by apply (so_other np)).
  split.
  { intros Hr. unfold fork. rewrite (mbindM_Ok _ _ _ _ _ Ea). destruct (Z.eqb_spec np (-1)); [done|].
    unfold mbindM at 1, get_proc at 1, gets at 1. cbv beta iota.
    unfold mbindM at 1, get_proc at 1, gets at 1. cbv beta iota. rewrite Eme.
    unfold mbindM at 1, mem_op at 1, zoom at 1. rewrite Eu. cbv beta iota.
    destruct (Z.ltb_spec r 0); [done|lia]. }
  intros Hr fs' s1 s2 m s3 E1 E2 E3.
  unfold fork. rewrite (mbindM_Ok _ _ _ _ _ Ea). destruct (Z.eqb_spec np (-1)); [done|].
  unfold mbindM at 1, get_proc at 1, gets at 1. cbv beta iota.
  unfold mbindM at 1, get_proc at 1, gets at 1. cbv beta iota. rewrite Eme.
  unfold mbindM at 1, mem_op at 1, zoom at 1. rewrite Eu. cbv beta iota.
  destruct (Z.ltb_spec r 0); [lia|].
  unfold mbindM, on_proc, tf_set, mem_op, file_op, zoom, modify, get_proc, gets, mretM.
  cbn [set_km set_procs set_fs procs fs km]. rewrite E1. cbn [set_km set_procs set_fs procs fs km].
  rewrite E2. cbn [set_km set_procs set_fs procs fs km]. rewrite E3.
  cbn [set_km set_procs set_fs procs fs km]. eexists. split; [rewrite upd_eq; simpl; rewrite !upd_eq; simpl; by rewrite Hpid|].
  cbn [set_km set_procs set_fs procs fs km]. rewrite !upd_eq.
  split; [done|]. split.
  { intros j Hj. rewrite !upd_ne by done. by apply (so_other np). }
  cbv zeta. cbn [p_state p_pid]. simpl. rewrite ?upd_eq. simpl. split_and!; try done.
  - intros Hl Hz. by eapply dup_files_spec.
  - unfold tf_get. simpl. by rewrite load64_store64_eq.
  - intros o Ho Hn. rewrite store64_other by lia. rewrite blit_in by lia. f_equal. lia.
Qed.

(** ** The invariant of the process table *)

(** Pids are unique and below [nextpid], a used slot has one, and levels and
    slices are in range. *)
Definition table_inv (k : kern F) : Prop :=
  1 ≤ nextpid k ∧ pids_ok k ∧ ∀ i, 0 ≤ i < NPROC → mlfq_ok (procs k i).

(** What an update of a slot must keep. *)
Definition keeps (p p' : proc) : Prop :=
  p_pid p' = p_pid p ∧ (p_state p = UNUSED → p_state p' = UNUSED) ∧ (mlfq_ok p → mlfq_ok p').

Lemma keeps_refl p : keeps p p.
Proof. by split_and!. Qed.

(** Every slot kept, except at most one that was freed or got the next pid. *)
Lemma table_inv_step i k k' :
  table_inv k → (∀ j, j ≠ i → keeps (procs k j) (procs k' j)) →
  (mlfq_ok (procs k i) → mlfq_ok (procs k' i)) →
  (keeps (procs k i) (procs k' i) ∧ nextpid k' = nextpid k) ∨
  (p_state (procs k' i) = UNUSED ∧ p_pid (procs k' i) = 0 ∧ nextpid k ≤ nextpid k') ∨
  (p_pid (procs k' i) = nextpid k ∧ nextpid k' = nextpid k + 1) →
  table_inv k'.
Proof.
  intros (Hn & (Hr & Hl & Hu) & Hm) Hj Hmi Hi.
  assert (nextpid k ≤ nextpid k') as Hle by (destruct Hi as [[_ ->]|[(_ & _ & ?)|[_ ->]]]; lia).
  assert (∀ j, 0 ≤ j < NPROC → j ≠ i → p_pid (procs k' j) = p_pid (procs k j) ∧
     0 ≤ p_pid (procs k j) < nextpid k) as Ho by (intros j Hj0 Hne; split; [by apply Hj|by apply Hr]).
  assert (∀ j, 0 ≤ j < NPROC → mlfq_ok (procs k' j)) as Hm'.
  { intros j Hj0. destruct (decide (j = i)) as [->|Hne]; [by apply Hmi, Hm|]. apply Hj; [done|by apply Hm]. }
  split; [lia|]. split; [|done]. split; [|split].
  - intros j Hj0. destruct (decide (j = i)) as [->|Hne].
    + pose proof (Hr i Hj0). destruct Hi as [[(E & _) En]|[(_ & E & En)|[E En]]]; rewrite E; lia.
    + destruct (Ho j Hj0 Hne) as [-> ?]. lia.
  - intros j Hj0 Hs. destruct (decide (j = i)) as [->|Hne].
    + destruct Hi as [[(E & Es & _) En]|[(? & E & En)|[E En]]]; [|done|lia].
      rewrite E. apply Hl; [done|]. intros Hx. by apply Hs, Es.
    + destruct (Hj j Hne) as (-> & Es & _). apply Hl; [done|]. intros Hx. by apply Hs, Es.
  - intros a b Ha Hb Hab Hz. destruct (decide (a = i)) as [->|Ha'], (decide (b = i)) as [->|Hb']; [done| | |].
    + destruct (Ho b Hb Hb') as [Eb ?].
      destruct Hi as [[(E & _) _]|[(_ & E & _)|[E _]]]; [apply Hu; congruence|congruence|lia].
    + destruct (Ho a Ha Ha') as [Eb ?].
      destruct Hi as [[(E & _) _]|[(_ & E & _)|[E _]]]; [apply Hu; congruence|congruence|lia].
    + destruct (Ho a Ha Ha') as [Ea _], (Ho b Hb Hb') as [Eb _]. apply Hu; congruence.
Qed.

Lemma table_inv_keeps k k' :
  table_inv k → nextpid k' = nextpid k → (∀ j, keeps (procs k j) (procs k' j)) → table_inv k'.
Proof. intros Hk Hn Hj. apply (table_inv_step 0 k); [done|by intros|apply Hj|by left]. Qed.

Lemma keeps_state v p : v ≠ UNUSED → p_state p ≠ UNUSED → keeps p (set_p_state v p).
Proof. intros ? ?. by split_and!. Qed.

Lemma woken_keeps j p : keeps p (woken j p).
Proof.
  unfold woken. destruct (_ && bool_decide _) eqn:E; [|apply keeps_refl].
  apply andb_prop in E as [_ E%bool_decide_eq_true]. apply keeps_state; congruence.
Qed.

Lemma exit_inv me status k u k' :
  exit (F := F) me status k = Ok u k' → p_state (procs k me) ≠ UNUSED →
  nextpid k' = nextpid k ∧ ∀ j, keeps (procs k j) (procs k' j).
Proof.
  intros E Hs. assert (me ≠ initproc k) as Hni.
  { intros ->. unfold exit, mbindM, gets in E. by rewrite Z.eqb_refl in E. }
  assert (∃ fs' s1 s2 m s3, close_files (ofile (procs k me)) (fs k) = Ok fs' s1 ∧
    eput_ (cwd (procs k me)) s1 = Ok tt s2 ∧ vma_cleanup (vma_man (procs k me)) s2 = Ok m s3)
    as (fs' & s1 & s2 & m & s3 & E1 & E2 & E3).
  { unfold exit in E. apply mbindM_inv in E as (? & ? & E0 & E). apply gets_inv in E0 as [-> ->].
    destruct (Z.eqb_spec me (initproc k)); [done|].
    do 7 (apply mbindM_inv in E as (? & ? & E0 & E); krun1 E0; cbv beta in E).
    repeat match goal with u : unit |- _ => destruct u end. eauto 10. }
  destruct (exit_run me status k s1 s2 s3 fs' m Hni E1 E2 E3)
    as (k2 & E' & _ & _ & Hn & _ & Hj & _ & Z1 & Z2 & Z3 & Z4).
  assert (k2 = k') as -> by congruence. split; [done|]. intros j.
  destruct (decide (j = me)) as [->|Hne].
  - split; [done|]. split; [done|]. unfold mlfq_ok. by rewrite Z3, Z4.
  - rewrite Hj by done. unfold exit_other.
    destruct (bool_decide _ && _), (_ || _); try apply keeps_refl; try apply woken_keeps; try done.
    destruct (woken_keeps j (set_p_parent (initproc k) (procs k j))) as (A & B & C). done.
Qed.

(** Only slot [i] changed; it was freed, or it holds the pid handed out. *)
Lemma alloc_inv i k k' :
  table_inv k → nextpid k < 2 ^ 31 - 1 → slot_only i k k' → nextpid k' = i32 (nextpid k + 1) →
  (p_pid (procs k' i) = nextpid k ∨ p_state (procs k' i) = UNUSED ∧ p_pid (procs k' i) = 0) →
  (mlfq_ok (procs k i) → mlfq_ok (procs k' i)) → table_inv k'.
Proof.
  intros Hk Hb [Ho _ _] Hn Hp Hm. rewrite i32_small in Hn by (destruct Hk; lia).
  apply (table_inv_step i k); [done| |done|].
  - intros j Hj. rewrite Ho by done. apply keeps_refl.
  - right. destruct Hp as [Hp|[Hp1 Hp2]]; [right; lia|left]. split_and!; [done|done|lia].
Qed.

Lemma fork_inv me k r k' :
  fork forkret me k = Ok r k' → table_inv k → nextpid k < 2 ^ 31 - 1 → table_inv k'.
Proof.
  intros E Hk Hb. unfold fork in E. apply mbindM_inv in E as (np & k1 & Ea & E).
  apply allocproc_frame in Ea.
  destruct (find_proc _ proc_ids) as [i|] eqn:Ei.
  2:{ destruct Ea as [-> ->]. by apply mretM_inv in E as [_ ->]. }
  destruct Ea as (S1 & Hn & Hs1 & Hc).
  assert (0 ≤ i) as Hi by (apply find_proc_Some in Ei as [Ei%proc_ids_spec _]; lia).
  destruct Hc as [(-> & Hp & Hm)|(-> & Hp & _ & Hm & _)].
  { apply mretM_inv in E as [_ ->]. apply (alloc_inv i k); try done. destruct Hp; [by left|by right]. }
  destruct (Z.eqb_spec i (-1)); [lia|].
  do 3 (apply mbindM_inv in E as (? & ? & E0 & E); krun1 E0; cbv beta in E). kcase E.
  { apply mbindM_inv in E as (? & k2 & Ef & E). apply mretM_inv in E as [_ ->].
    apply freeproc_frame in Ef as (S2 & N2 & U1 & U2 & _ & _ & _ & Q).
    apply (alloc_inv i k); try done.
    - eapply slot_only_trans; [exact S1|]. destruct S2 as [A B C]. by split.
    - by rewrite N2.
    - by right. }
  apply mbindM_inv in E as (? & ? & E0 & E); krun1 E0; cbv beta in E.
  apply mbindM_inv in E as (? & ? & E0 & E); krun1 E0; cbv beta in E.
  apply mbindM_inv in E as (? & ? & E0 & E); unfold tf_set in E0; krun1 E0; cbv beta in E.
  do 7 (apply mbindM_inv in E as (? & ? & E0 & E); krun1 E0; cbv beta in E).
  apply mretM_inv in E as [_ ->]. apply (alloc_inv i k); try done.
  - destruct S1 as [A B C]. split; [|done|done]. intros j Hj. simpl. rewrite !upd_ne by done. by apply A.
  - left. simpl. rewrite !upd_eq. simpl. rewrite ?upd_eq. done.
  - intros _. simpl. rewrite !upd_eq. simpl. rewrite ?upd_eq. done.
Qed.

Lemma wait_inv me addr k r k' :
  wait me addr k = Ok r k' → p_state (procs k me) ≠ UNUSED → table_inv k → table_inv k'.
Proof.
  rewrite wait_run. intros E Hs Hk. destruct (find_proc _ _) as [i|].
  - apply mbindM_inv in E as (rb & k1 & Er & E). apply mretM_inv in E as [_ ->]. unfold reap in Er.
    do 2 (apply mbindM_inv in Er as (? & ? & E0 & Er); krun1 E0; cbv beta in Er).
    apply mbindM_inv in Er as (c & k2 & E0 & Er).
    assert (procs k2 = procs k ∧ nextpid k2 = nextpid k) as [Ep En].
    { destruct (addr =? 0); [by apply mretM_inv in E0 as [_ ->]|]. by apply mem_op_inv in E0 as (? & _ & ->). }
    assert (table_inv k2) as Hk2.
    { apply (table_inv_keeps k); [done|done|]. intros j. rewrite Ep. apply keeps_refl. }
    destruct (c <? 0); [by apply mretM_inv in Er as [_ ->]|].
    apply mbindM_inv in Er as (? & k3 & Ef & Er). apply mretM_inv in Er as [_ ->].
    apply freeproc_frame in Ef as ([A B C] & N2 & U1 & U2 & _ & _ & _ & Q).
    apply (table_inv_step i k2); [done| |done|].
    + intros j Hj. rewrite A by done. apply keeps_refl.
    + right. left. split_and!; [done|done|lia].
  - destruct (_ || _); injection E as _ <-; [done|].
    apply (table_inv_keeps k); [done|done|]. intros j. simpl. unfold upd.
    destruct (Z.eqb_spec j me) as [->|]; [by split_and!|apply keeps_refl].
Qed.

Lemma on_proc_keeps i p k :
  table_inv k → keeps (procs k i) p → table_inv (set_procs (upd (procs k) i p) k).
Proof.
  intros Hk Hf. apply (table_inv_keeps k); [done|done|]. intros j. simpl. unfold upd.
  destruct (Z.eqb_spec j i) as [->|]; [done|apply keeps_refl].
Qed.

Lemma tick_inv me k r k' :
  handle_time_slice (F := F) me k = Ok r k' → 0 ≤ me < NPROC → table_inv k → table_inv k'.
Proof.
  unfold handle_time_slice. intros E Hme Hk. destruct (Z.eqb_spec me (-1)); [lia|].
  pose proof Hk as (_ & _ & Hq). destruct (Hq me Hme) as [Hl Ht].
  destruct (slice_pos _ 0 Hl) as [_ Hs].
  do 2 (apply mbindM_inv in E as (? & ? & E0 & E); krun1 E0; cbv beta in E).
  cbn [set_procs procs] in E. rewrite upd_eq in E.
  cbn [time_slice queue_level set_time_slice set_ticks_used] in E.
  rewrite (i32_small (time_slice _ - 1)) in E by lia.
  destruct (Z.leb_spec (time_slice (procs k me) - 1) 0).
  - do 2 (apply mbindM_inv in E as (? & ? & E0 & E); krun1 E0; cbv beta in E);
      apply mretM_inv in E as [_ ->]; bool_prop;
      (apply (table_inv_keeps k); [done|done|]); intros j; simpl; unfold upd;
      (destruct (Z.eqb_spec j me) as [->|]; [|apply keeps_refl]); rewrite ?Z.eqb_refl;
      (split; [done|]; split; [done|]); intros _; unfold mlfq_ok; simpl; rewrite ?Z.eqb_refl; simpl.
    + destruct (slice_pos (queue_level (procs k me) + 1) 0); unfold MFQ_NQUEUES in *; lia.
    + lia.
  - apply mretM_inv in E as [_ ->]. apply on_proc_keeps; [done|].
    split; [done|]. split; [done|]. intros _. unfold mlfq_ok. simpl. lia.
Qed.

Lemma table_to_keeps k k' T :
  table_inv k → table_to k k' T → (∀ j, keeps (procs k j) (T j)) → table_inv k'.
Proof.
  intros Hk (HT & Hn & _) Hj. apply (table_inv_keeps k); [done|done|]. intros j. rewrite HT. apply Hj.
Qed.

(** One operation of proc.c on the table, by a running process [me] or by the
    scheduler of an idle hart. *)
Inductive kstep (k : kern F) : kern F → Prop :=
  | KFork me r k' : p_state (procs k me) = RUNNING → nextpid k < 2 ^ 31 - 1 →
      fork forkret me k = Ok r k' → kstep k k'
  | KExit me status k' : p_state (procs k me) = RUNNING → exit me status k = Ok tt k' → kstep k k'
  | KWait me addr r k' : p_state (procs k me) = RUNNING → wait me addr k = Ok r k' → kstep k k'
  | KKill pid r k' : kill pid k = Ok r k' → kstep k k'
  | KWakeup chan k' : wakeup chan k = Ok tt k' → kstep k k'
  | KScheduler r k' : scheduler k = Ok r k' → kstep k k'
  | KTick me r k' : 0 ≤ me < NPROC → p_state (procs k me) = RUNNING →
      handle_time_slice me k = Ok r k' → kstep k k'
  | KYield me k' : p_state (procs k me) = RUNNING → yield me k = Ok tt k' → kstep k k'
  | KSleep me chan k' : p_state (procs k me) = RUNNING → sleep me chan k = Ok tt k' → kstep k k'
  | KSleepDone me k' : sleep_done me k = Ok tt k' → kstep k k'
  | KGrow me n r k' : p_state (procs k me) = RUNNING → growproc me n k = Ok r k' → kstep k k'.

Lemma growproc_inv me n k r k' : growproc me n k = Ok r k' → table_inv k → table_inv k'.
Proof.
  unfold growproc. intros E Hk. apply mbindM_inv in E as (p & ? & E0 & E). krun1 E0. cbv zeta in E.
  destruct (0 <? n); [|destruct (n <? 0)].
  - apply mbindM_inv in E as (? & ? & E0 & E); krun1 E0. kcase E; [by apply mretM_inv in E as [_ ->]|].
    krun E. apply mretM_inv in E as [_ ->]. by apply on_proc_keeps.
  - krun E. apply mretM_inv in E as [_ ->]. by apply on_proc_keeps.
  - krun E. apply mretM_inv in E as [_ ->]. by apply on_proc_keeps.
Qed.

Lemma scheduler_inv k r k' : scheduler (F := F) k = Ok r k' → table_inv k → table_inv k'.
Proof.
  unfold scheduler. intros E Hk. apply mbindM_inv in E as (p & ? & E0 & E). krun1 E0.
  destruct (scheduler_pick k) as [i|] eqn:Ep; [|by apply mretM_inv in E as [_ ->]].
  apply pick_from_Some in Ep as (Hi & Hs & _).
  krun E. apply mretM_inv in E as [_ ->]. apply on_proc_keeps; [done|].
  pose proof Hk as (_ & _ & Hq). split; [unfold dispatch; simpl; by destruct (_ <=? _)|].
  split; [by rewrite Hs|]. intros Hm. by apply dispatch_ok.
Qed.

Lemma kstep_inv k k' : kstep k k' → table_inv k → table_inv k'.
Proof.
  intros Hst Hk.
  destruct Hst as [me r k' Hs Hb E|me st k' Hs E|me addr r k' Hs E|pid r k' E|ch k' E|r k' E
    |me r k' Hm Hs E|me k' Hs E|me ch k' Hs E|me k' E|me n r k' Hs E].
  - by eapply fork_inv.
  - apply exit_inv in E as [Hn Hj]; [|congruence]. by apply (table_inv_keeps k).
  - eapply wait_inv; [done|congruence|done].
  - pose proof (kill_run pid k) as Hr. destruct (find_proc _ _) as [i|]; [|by rewrite Hr in E; injection E as _ <-].
    destruct Hr as (k2 & E2 & T2). assert (k2 = k') as -> by congruence. apply (table_to_keeps _ _ _ Hk T2). intros j.
    destruct (Z.eqb_spec j i) as [->|]; [|apply keeps_refl]. unfold killed_proc. simpl.
    case_bool_decide; [|by split_and!]. split_and!; [done|simpl; congruence|done].
  - destruct (forM_procs (λ p, bool_decide (p_state p = SLEEPING) && (p_chan p =? ch))
      (set_p_state RUNNABLE) proc_ids k proc_ids_nodup) as (k2 & E2 & T2).
    assert (k2 = k') as -> by (unfold wakeup in E; congruence).
    apply (table_to_keeps _ _ _ Hk T2). intros j.
    destruct (bool_decide (j ∈ _) && _) eqn:Eb; [|apply keeps_refl].
    apply andb_prop in Eb as [_ [Eb%bool_decide_eq_true _]%andb_prop]. apply keeps_state; congruence.
  - by eapply scheduler_inv.
  - by eapply tick_inv.
  - unfold yield, sched in E. krun E. kcase E; [done|]. apply mretM_inv in E as [_ ->].
    apply on_proc_keeps; [done|]. apply keeps_state; congruence.
  - unfold sleep, sleep_on, sched in E. krun E. kcase E; [done|]. apply mretM_inv in E as [_ ->].
    apply on_proc_keeps; [done|]. split_and!; [done|simpl; congruence|done].
  - unfold sleep_done in E. krun1 E. by apply on_proc_keeps.
  - by eapply growproc_inv.
Qed.

(** The table as [procinit] leaves it: zeroed memory and [nextpid = 1]. *)
Definition boot_table (k : kern F) : Prop :=
  nextpid k = 1 ∧ ∀ i, 0 ≤ i < NPROC →
    p_state (procs k i) = UNUSED ∧ p_pid (procs k i) = 0 ∧ queue_level (procs k i) = 0 ∧
    time_slice (procs k i) = 0.


(** [kill(0)] succeeds and marks the first free slot as killed; [allocproc]
    does not clear the mark, so the next process created is killed at birth. *)
Theorem kill_zero_dooms_next_process k i :
  find_proc (λ i, bool_decide (p_state (procs k i) = UNUSED)) proc_ids = Some i →
  find_proc (λ i, p_pid (procs k i) =? 0) proc_ids = Some i →
  ∃ k1, kill (F := F) 0 k = Ok 0 k1 ∧
    ∀ np k2, allocproc forkret k1 = Ok np k2 → np ≠ -1 → np = i ∧ p_killed (procs k2 np) = 1.
Proof.
  intros Eu E0. pose proof (kill_run 0 k) as Hr. rewrite E0 in Hr. destruct Hr as (k1 & E1 & T1 & _).
  exists k1. split; [done|]. intros np k2 Ea Hnp. apply allocproc_frame in Ea.
  apply find_proc_Some in Eu as Hu. destruct Hu as [_ Hu%bool_decide_eq_true].
  assert (∀ j, bool_decide (p_state (procs k1 j) = UNUSED) = bool_decide (p_state (procs k j) = UNUSED)) as Hb.
  { intros j. rewrite T1. destruct (Z.eqb_spec j i) as [->|]; [|done].
    apply bool_decide_ext. unfold killed_proc. simpl. by rewrite !Hu. }
  assert (∀ l, find_proc (λ i, bool_decide (p_state (procs k1 i) = UNUSED)) l =
    find_proc (λ i, bool_decide (p_state (procs k i) = UNUSED)) l) as Hl.
  { induction l as [|j l IH]; simpl; [done|]. by rewrite Hb, IH. }
  rewrite Hl, Eu in Ea. destruct Ea as (_ & _ & _ & [[? _]|(-> & _ & Hk & _)]); [done|].
  split; [done|]. rewrite Hk, T1, Z.eqb_refl. unfold killed_proc. simpl. by destruct (bool_decide _).
Qed.
End Life.

(** ** A concrete kernel *)
#[local] Existing Instance small_layout.
#[local] Existing Instance unit_backend.
#[local] Instance demo_entries : EntryRefs (ftable unit) := {| edup_ := λ _, mretM tt; eput_ := λ _, mretM tt |}.

Definition demo_vm : vma_manager := Vmam (replicate MAX_VMA unused_vma) 0.
Definition demo_proc (st : procstate) (parent chan pid : Z) : proc :=
  Proc st parent chan 0 0 pid 0 0 0 0 0 0 0 (replicate NOFILE 0) 0 [] 0 50 0 (if decide (st = RUNNING) then 1 else 0)
    0 0 0 0 0 (replicate NSIG 0) 0 0 0 [0; 0; 0; 0] demo_vm.
Definition demo_mem : kst :=
  match kinit (Kst (λ _, 0) 0 0 (λ _, 0)) with Ok _ s => s | Panic _ => Kst (λ _, 0) 0 0 (λ _, 0) end.
(** Slot 0 is init, asleep in [wait]; slot 1 is its running child; slot 2 is a
    child of slot 1. *)
Definition demo_kern : kern (ftable unit) :=
  Kern (λ i, if i =? 0 then demo_proc SLEEPING (-1) (proc_chan 0) 1
             else if i =? 1 then demo_proc RUNNING 0 0 2
             else if i =? 2 then demo_proc RUNNABLE 1 0 3 else demo_proc UNUSED (-1) 0 0)
    4 0 7 demo_mem 4096 demo_files.

(** The state a run ends in. *)
Definition final {S A} (c : M S A) (s : S) : S :=
  match c s with Ok _ t => t | Panic _ => s end.
Lemma final_ok {S A} (c : M S A) s a :
  match c s with Ok b _ => b = a | Panic _ => False end → c s = Ok a (final c s).
Proof. unfold final. by destruct (c s) as [b t|]; [intros ->|]. Qed.

Lemma demo_slots i :
  procs demo_kern i = demo_proc SLEEPING (-1) (proc_chan 0) 1 ∧ i = 0 ∨
  procs demo_kern i = demo_proc RUNNING 0 0 2 ∧ i = 1 ∨
  procs demo_kern i = demo_proc RUNNABLE 1 0 3 ∧ i = 2 ∨
  procs demo_kern i = demo_proc UNUSED (-1) 0 0 ∧ i ≠ 0 ∧ i ≠ 1 ∧ i ≠ 2.
Proof.
  unfold demo_kern. cbn [procs].
  destruct (Z.eqb_spec i 0); [by left|]. destruct (Z.eqb_spec i 1); [by right; left|].
  destruct (Z.eqb_spec i 2); [by right; right; left|]. by right; right; right.
Qed.

Lemma demo_inv : table_inv demo_kern.
Proof.
  split; [vm_compute; congruence|]. split; [split; [|split]|].
  - intros i _. change (nextpid demo_kern) with 4.
    destruct (demo_slots i) as [[-> _]|[[-> _]|[[-> _]|[-> _]]]]; cbn [demo_proc p_pid]; lia.
  - intros i _. destruct (demo_slots i) as [[-> _]|[[-> _]|[[-> _]|[-> _]]]]; cbn [demo_proc p_pid p_state]; congruence.
  - intros i j _ _. destruct (demo_slots i) as [[-> ->]|[[-> ->]|[[-> ->]|[-> _]]]];
      destruct (demo_slots j) as [[-> ->]|[[-> ->]|[[-> ->]|[-> _]]]]; cbn [demo_proc p_pid]; congruence.
  - intros i _. unfold mlfq_ok. destruct (demo_slots i) as [[-> _]|[[-> _]|[[-> _]|[-> _]]]];
      vm_compute; intuition congruence.
Qed.


Lemma mlfq_slice_and_demotion_witness :
  ∃ k', ticks_run 1 1 demo_kern = Ok true k' ∧ queue_level (procs k' 1) = 1.
Proof.
  destruct (mlfq_slice_and_demotion 1 demo_kern 1) as (k' & E & _ & _ & H & _).
  - lia.
  - apply (proj2 (proj2 demo_inv)). unfold NPROC. lia.
  - reflexivity.
  - vm_compute; congruence.
  - exists k'. split; [exact E|]. apply H. reflexivity.
Defined.

Lemma kill_correct_witness :
  ∃ k', kill 3 demo_kern = Ok 0 k' ∧ p_killed (procs k' 2) = 1.
Proof.
  destruct (kill_correct 3 demo_kern (proj1 (proj2 demo_inv))) as [H _]; [lia|].
  destruct (H 2) as (k' & E & T & _); [unfold NPROC; lia|reflexivity|].
  exists k'. split; [exact E|]. rewrite T. reflexivity.
Defined.

Lemma demo_close : close_files (ofile (procs demo_kern 1)) (fs demo_kern) = Ok (replicate NOFILE 0) demo_files.
Proof. reflexivity. Qed.
Lemma demo_cleanup : vma_cleanup (vma_man (procs demo_kern 1)) demo_files = Ok demo_vm demo_files.
Proof. reflexivity. Qed.

Lemma exit_correct_witness :
  ∃ k', exit 1 9 demo_kern = Ok tt k' ∧ p_parent (procs k' 2) = 0 ∧ p_state (procs k' 0) = RUNNABLE.
Proof.
  destruct (exit_correct 1 9 demo_kern demo_files demo_files demo_files (replicate NOFILE 0) demo_vm)
    as (k' & E & _ & _ & _ & _ & Hc & Hw & _).
  - vm_compute. congruence.
  - unfold NPROC. lia.
  - vm_compute. congruence.
  - exact demo_close.
  - reflexivity.
  - exact demo_cleanup.
  - exists k'. split; [exact E|]. split.
    + apply (Hc 2); [unfold NPROC; lia|lia|reflexivity].
    + apply (Hw 0); [left; reflexivity|lia|reflexivity|reflexivity].
Defined.

Lemma exit_wait_handover_witness :
  ∃ k' i, exit 1 9 demo_kern = Ok tt k' ∧ p_state (procs k' 0) = RUNNABLE ∧
    p_state (procs k' i) = ZOMBIE.
Proof.
  destruct (exit_wait_handover 1 0 9 0 demo_kern demo_files demo_files demo_files (replicate NOFILE 0) demo_vm)
    as (k' & i & E & Hw & _ & Hz & _).
  - vm_compute. congruence.
  - unfold NPROC. lia.
  - lia.
  - reflexivity.
  - reflexivity.
  - reflexivity.
  - exact demo_close.
  - reflexivity.
  - exact demo_cleanup.
  - exists k', i. split; [exact E|]. split; [exact Hw|exact Hz].
Defined.

Lemma demo_edup c (s : ftable unit) : edup_ c s = Ok tt s.
Proof. reflexivity. Qed.

(** The steps of [fork] in the example. *)
Lemma demo_alloc :
  ∃ k1, allocproc 9 demo_kern = Ok 3 k1 ∧
  ∃ m2, uvmcopy (pagetable (procs demo_kern 1)) (pagetable (procs k1 3)) (kpagetable (procs k1 3))
    (sz (procs demo_kern 1)) (km k1) = Ok 0 m2 ∧
  ∃ s1, dup_files (ofile (procs demo_kern 1)) (ofile (procs k1 3)) (fs k1) = Ok (replicate NOFILE 0) s1 ∧
  ∃ s3, vma_copy (vma_man (procs k1 3)) (vma_man (procs demo_kern 1)) s1 = Ok demo_vm s3.
Proof.
  eexists. split; [apply final_ok; vm_compute; reflexivity|].
  eexists. split; [apply final_ok; vm_compute; reflexivity|].
  eexists. split; [apply final_ok; vm_compute; reflexivity|].
  eexists. apply final_ok; vm_compute; reflexivity.
Qed.

Lemma fork_correct_witness :
  ∃ k', fork 9 1 demo_kern = Ok 4 k' ∧ p_state (procs k' 3) = RUNNABLE.
Proof.
  destruct demo_alloc as (k1 & Ea & m2 & Eu & s1 & Ed & s3 & Ev).
  destruct (fork_correct 9 1 demo_kern 3 k1 0 m2 Ea) as [_ H].
  - lia.
  - vm_compute. congruence.
  - exact Eu.
  - destruct (H ltac:(lia) (replicate NOFILE 0) s1 s1 demo_vm s3 Ed (demo_edup _ _) Ev)
      as (k' & E & _ & _ & Hs & _).
    exists k'. split; [exact E|exact Hs].
Defined.


Lemma kill_zero_dooms_next_process_witness :
  ∃ k1, kill 0 demo_kern = Ok 0 k1 ∧ p_killed (procs (final (allocproc 9) k1) 3) = 1.
Proof.
  destruct (kill_zero_dooms_next_process 9 demo_kern 3) as (k1 & E & H); [reflexivity|reflexivity|].
  exists k1. split; [exact E|].
  assert (k1 = final (kill 0) demo_kern) as -> by (unfold final; rewrite E; reflexivity).
  apply (H 3); [|lia]. apply final_ok. vm_compute. reflexivity.
Defined.
