(* ===== verification/Syscall.v ===== *)
(** * System call dispatch and the sandbox (kernel/syscall.c, kernel/sandbox.c)

    Fetching arguments from the trapframe and from user memory, the dispatcher
    [syscall] with its allow-list check, [sys_sandbox] and [sys_sysinfo].  The
    dispatcher is written for any table of handlers; a handler returns [None]
    when control does not come back to it (the process slept or exited).
    [printf] of the trace is not modelled. *)
From stdpp Require Import prelude list strings.
From Stdlib Require Import ZArith Lia.
From S2P Require Import Prelude Riscv Kalloc VM Vma File ProcDefs Proc ProcProps ProcLife.
Open Scope Z_scope.

Definition SYS_fork : Z := 1.
Definition SYS_exit : Z := 2.
Definition SYS_wait : Z := 3.
Definition SYS_kill : Z := 6.
Definition SYS_getpid : Z := 11.
Definition SYS_sbrk : Z := 12.
Definition SYS_sleep : Z := 13.
Definition SYS_uptime : Z := 14.
Definition SYS_trace : Z := 18.
Definition SYS_sysinfo : Z := 19.
Definition SYS_setpriority : Z := 27.
Definition SYS_getpriority : Z := 28.
Definition SYS_getqueuelevel : Z := 33.
Definition SYS_gettimeslice : Z := 34.
Definition SYS_getprocs : Z := 35.
Definition SYS_getrusage : Z := 36.
Definition SYS_signal : Z := 37.
Definition SYS_sigkill : Z := 38.
Definition SYS_mmap : Z := 40.
Definition SYS_munmap : Z := 41.
Definition SYS_sandbox : Z := 42.
(** [NELEM(syscalls)]. *)
Definition NSYSCALLS : Z := 43.

(** Little-endian value of bytes. *)
Definition le_bytes (bs : list Z) : Z := foldr (λ b v, b + 2 ^ 8 * v) 0 bs.

(** The [i]th [uint32] of the zero-initialised [tmp] that [bs] was copied to. *)
Definition word_of (bs : list Z) (i : nat) : Z :=
  le_bytes (map (λ j, nth (4 * i + j) bs 0) [0; 1; 2; 3]%nat).

(** Bit [num] of a bitmap of bytes. *)
Definition mask_bit (bs : list Z) (num : Z) : bool :=
  Z.testbit (nth (Z.to_nat (num / 8)) bs 0) (num mod 8).

(** The process's memory as the copy routines see it. *)
Definition pmem_of (p : proc) : pmem := Pmem (sz p) (pagetable p) (kpagetable p).

Section Syscall.
Context `{LAY : Layout} {F : Type} `{FR : FileRefs F} `{ER : EntryRefs F}.

Definition fetchaddr (me addr : Z) : M (kern F) (Z * Z) :=
  p <-- get_proc me ;;
  if (sz p <=? addr) || (sz p <? u64 (addr + 8)) then mretM (-1, 0)
  else
    r <-- mem_op (copyin2 (pmem_of p) addr 8) ;;
    if r.1 =? 0 then mretM (0, le_bytes r.2) else mretM (-1, 0).

(** Result and the buffer's contents. *)
Definition fetchstr (me addr : Z) (max : nat) : M (kern F) (Z * list Z) :=
  p <-- get_proc me ;;
  r <-- mem_op (copyinstr2 (Some (pmem_of p)) addr max) ;;
  if r.1 <? 0 then mretM (r.1, r.2)
  else mretM (Z.of_nat (length (r.2)) - 1, r.2).

Definition argraw (me n : Z) : M (kern F) Z :=
  p <-- get_proc me ;;
  if (0 <=? n) && (n <=? 5) then mem_op (gets (tf_get (TF_A0 + 8 * n) p))
  else panic "argraw".

Definition argint (me n : Z) : M (kern F) Z := v <-- argraw me n ;; mretM (i32 v).
Definition argaddr (me n : Z) : M (kern F) Z := argraw me n.
Definition argstr (me n : Z) (max : nat) : M (kern F) (Z * list Z) :=
  addr <-- argaddr me n ;; fetchstr me addr max.

(** The sandbox check: [(p->allow_mask[word] >> bit) & 1]. *)
Definition sandbox_allowed (p : proc) (num : Z) : bool :=
  let word := num / 32 in
  let bit := num mod 32 in
  if (0 <=? word) && (word <? 4)
  then negb (Z.land (Z.shiftr (nth (Z.to_nat word) (allow_mask p) 0) bit) 1 =? 0)
  else false.

(** [syscall] for a table of handlers; [true] when it returns to [usertrap]. *)
Definition syscall (table : Z → option (M (kern F) (option Z))) (me : Z) : M (kern F) bool :=
  p <-- get_proc me ;;
  raw <-- mem_op (gets (tf_get TF_A7 p)) ;;
  let num := i32 raw in
  let known := (0 <? num) && (num <? NSYSCALLS) in
  if known && negb (sandbox_on p =? 0) && negb (num =? SYS_sandbox) && negb (sandbox_allowed p num) then
    whenM (sandbox_action p =? 1) (on_proc me (set_p_killed 1)) ;;;
    mem_op (tf_set TF_A0 (-1) p) ;;;
    mretM true
  else
    match (if known then table num else None) with
    | Some handler =>
        r <-- handler ;;
        match r with
        | Some v => mem_op (tf_set TF_A0 v p) ;;; mretM true
        | None => mretM false
        end
    | None => mem_op (tf_set TF_A0 (-1) p) ;;; mretM true
    end.

Definition sys_sandbox (me : Z) : M (kern F) (option Z) :=
  on <-- argint me 0 ;;
  action <-- argint me 1 ;;
  umask_addr <-- argaddr me 2 ;;
  words <-- argint me 3 ;;
  if on =? 0 then
    on_proc me (λ p, set_sandbox_on 0 (set_sandbox_action 0 (set_allow_mask [0; 0; 0; 0] p))) ;;;
    mretM (Some 0)
  else if negb (on =? 1) then mretM (Some (-1))
  else if negb (action =? 0) && negb (action =? 1) then mretM (Some (-1))
  else if (words <? 0) || (4 <? words) then mretM (Some (-1))
  else
    r <-- (if 0 <? words then either_copyin me true umask_addr (Z.to_nat (words * 4))
           else mretM (0, [])) ;;
    if r.1 <? 0 then mretM (Some (-1))
    else
      on_proc me (λ p, set_sandbox_on 1 (set_sandbox_action action
        (set_allow_mask (map (word_of r.2) [0; 1; 2; 3]%nat) p))) ;;;
      mretM (Some 0).

Definition sys_sysinfo (me : Z) : M (kern F) (option Z) :=
  addr <-- argaddr me 0 ;;
  freemem <-- mem_op freemem_amount ;;
  nproc <-- procnum ;;
  p <-- get_proc me ;;
  r <-- mem_op (copyout2 (Some (pmem_of p)) addr
          (map (λ i, (u64 freemem / 2 ^ (8 * i)) mod 2 ^ 8) (seqZ 0 8)
           ++ map (λ i, (u64 nproc / 2 ^ (8 * i)) mod 2 ^ 8) (seqZ 0 8))) ;;
  if r <? 0 then mretM (Some (-1)) else mretM (Some 0).
End Syscall.

(** ** The allow-list as a bitmap *)

Lemma testbit_byte_cons b v i :
  0 ≤ b < 256 → 0 ≤ i →
  Z.testbit (b + 2 ^ 8 * v) i = if i <? 8 then Z.testbit b i else Z.testbit v (i - 8).
Proof.
  intros Hb Hi. destruct (Z.ltb_spec i 8).
  - rewrite !Z.testbit_odd, !Z.shiftr_div_pow2 by lia.
    replace (b + 2 ^ 8 * v) with (b + (2 ^ (7 - i) * v * 2) * 2 ^ i).
    + rewrite Z.div_add by (apply Z.pow_nonzero; lia). rewrite Z.odd_add, Z.odd_mul.
      simpl (Z.odd 2). by rewrite andb_false_r, xorb_false_r.
    + replace (2 ^ 8) with (2 ^ (7 - i) * (2 ^ 1 * 2 ^ i)); [change (2 ^ 1) with 2; ring|].
      rewrite <- !Z.pow_add_r by lia. f_equal. lia.
  - rewrite <- (Z.sub_add 8 i) at 1. rewrite <- Z.div_pow2_bits by lia. f_equal.
    replace (b + 2 ^ 8 * v) with (b + v * 2 ^ 8) by ring. rewrite Z.div_add by lia.
    rewrite Z.div_small by (change (2 ^ 8) with 256; lia). lia.
Qed.

Lemma le_bytes_testbit bs i :
  Forall (λ b, 0 ≤ b < 256) bs → 0 ≤ i →
  Z.testbit (le_bytes bs) i = Z.testbit (nth (Z.to_nat (i / 8)) bs 0) (i mod 8).
Proof.
  intros Hbs. revert i. induction Hbs as [|b bs Hb _ IH]; intros i Hi.
  - by rewrite nth_overflow by (simpl; lia); rewrite Z.bits_0, Z.bits_0.
  - cbn [le_bytes foldr]. fold (le_bytes bs). rewrite testbit_byte_cons by done.
    destruct (Z.ltb_spec i 8).
    + rewrite Z.div_small, Z.mod_small by lia. done.
    + rewrite IH by lia. replace i with ((i - 8) + 1 * 8) at 3 4 by lia.
      rewrite Z.div_add, Z.mod_add by lia.
      rewrite Z2Nat.inj_add by (try apply Z.div_pos; lia). rewrite Nat.add_1_r. done.
Qed.

(** The check agrees with the bitmap the user passed. *)
Lemma allowed_mask_bit bs p num :
  Forall (λ b, 0 ≤ b < 256) bs → 0 ≤ num < 128 →
  allow_mask p = map (word_of bs) [0; 1; 2; 3]%nat →
  sandbox_allowed p num = mask_bit bs num.
Proof.
  intros Hbs Hn Hm. unfold sandbox_allowed, mask_bit. rewrite Hm.
  assert (0 ≤ num / 32 < 4) as Hw by (split; [apply Z.div_pos|apply Z.div_lt_upper_bound]; lia).
  rewrite (proj2 (Z.leb_le 0 _)), (proj2 (Z.ltb_lt _ 4)) by lia. simpl (_ && _). cbv iota.
  rewrite (nth_indep _ 0 (word_of bs 0%nat)) by (rewrite length_map; simpl; lia).
  rewrite map_nth.
  assert (nth (Z.to_nat (num / 32)) [0; 1; 2; 3]%nat 0%nat = Z.to_nat (num / 32)) as ->
    by (assert (num / 32 = 0 ∨ num / 32 = 1 ∨ num / 32 = 2 ∨ num / 32 = 3) as [->|[->|[->| ->]]] by lia; done).
  set (w := Z.to_nat (num / 32)). pose proof (Z.mod_pos_bound num 32 ltac:(lia)) as Hr.
  rewrite (has_testbit _ 0 ltac:(lia) : negb (Z.land _ 1 =? 0) = _).
  rewrite Z.shiftr_spec, Z.add_0_l by lia. unfold word_of. rewrite le_bytes_testbit; [|apply Forall_map|lia].
  - assert (0 ≤ num mod 32 / 8 < 4) as Hq by (split; [apply Z.div_pos|apply Z.div_lt_upper_bound]; lia).
    set (q := Z.to_nat (num mod 32 / 8)).
    assert (nth q (map (λ j, nth (4 * w + j) bs 0) [0; 1; 2; 3]%nat) 0 = nth (4 * w + q) bs 0) as ->.
    { assert (q < 4)%nat as Hq4 by (unfold q; lia).
      destruct q as [|[|[|[|q]]]]; [done..|lia]. }
    pose proof (Z.div_mod num 32 ltac:(lia)) as D1. pose proof (Z.div_mod (num mod 32) 8 ltac:(lia)) as D2.
    pose proof (Z.mod_pos_bound (num mod 32) 8 ltac:(lia)) as B2.
    rewrite <- (Z.div_unique num 8 (4 * (num / 32) + num mod 32 / 8) (num mod 32 mod 8)) by lia.
    rewrite <- (Z.mod_unique num 8 (4 * (num / 32) + num mod 32 / 8) (num mod 32 mod 8)) by lia.
    f_equal. f_equal. unfold w, q. lia.
  - apply Forall_forall. intros j _. destruct (nth_in_or_default (4 * w + j) bs 0) as [Hin| ->]; [|lia].
    rewrite Forall_forall in Hbs. apply Hbs. by apply list_elem_of_In.
Qed.

Section Claims.
Context `{LAY : Layout} {F : Type} `{FR : FileRefs F} `{ER : EntryRefs F}.
Implicit Types k : kern F.

Lemma tf_set_run off v p (s : kst) :
  tf_set off v p s = Ok tt (set_mem (store64 (mem s) (trapframe p + off) v) s).
Proof. done. Qed.

Lemma set_km_same k : set_km (km k) k = k.
Proof. by destruct k. Qed.

(** [syscall] after the number has been read. *)
Lemma syscall_run (table : Z → option (M (kern F) (option Z))) me k p num :
  p = procs k me → num = i32 (tf_get TF_A7 p (km k)) →
  syscall table me k =
  (if (0 <? num) && (num <? NSYSCALLS) && negb (sandbox_on p =? 0) && negb (num =? SYS_sandbox)
      && negb (sandbox_allowed p num)
   then whenM (sandbox_action p =? 1) (on_proc me (set_p_killed 1)) ;;;
        mem_op (tf_set TF_A0 (-1) p) ;;; mretM true
   else match (if (0 <? num) && (num <? NSYSCALLS) then table num else None) with
        | Some handler =>
            r <-- handler ;;
            match r with Some v => mem_op (tf_set TF_A0 v p) ;;; mretM true | None => mretM false end
        | None => mem_op (tf_set TF_A0 (-1) p) ;;; mretM true
        end) k.
Proof.
  intros -> ->. unfold syscall. unfold mbindM at 1, get_proc at 1, gets at 1. cbv beta iota.
  unfold mbindM at 1, mem_op at 1, zoom at 1, gets at 1. cbv beta iota zeta. by rewrite set_km_same.
Qed.


Lemma argraw_run me n k :
  0 ≤ n ≤ 5 → argraw me n k = Ok (tf_get (TF_A0 + 8 * n) (procs k me) (km k)) k.
Proof.
  intros Hn. unfold argraw, mbindM, get_proc, gets.
  rewrite (proj2 (Z.leb_le 0 n)), (proj2 (Z.leb_le n 5)) by lia. simpl (_ && _). cbv iota.
  unfold mem_op, zoom. by rewrite set_km_same.
Qed.
Lemma argint_run me n k :
  0 ≤ n ≤ 5 → argint me n k = Ok (i32 (tf_get (TF_A0 + 8 * n) (procs k me) (km k))) k.
Proof. intros Hn. unfold argint. by rewrite (mbindM_Ok _ _ _ _ _ (argraw_run me n k Hn)). Qed.

(** The [n]th argument as an [int] and as an address. *)
Definition arg_i (me n : Z) (k : kern F) : Z := i32 (tf_get (TF_A0 + 8 * n) (procs k me) (km k)).
Definition arg_a (me n : Z) (k : kern F) : Z := tf_get (TF_A0 + 8 * n) (procs k me) (km k).

(** [sys_sandbox]: from a readable user bitmap the call switches the sandbox
    on, and afterwards the dispatcher's check accepts a call number exactly when
    its bit is set in that bitmap (bytes beyond the words passed count as 0). *)
Theorem sys_sandbox_roundtrip me k bs m :
  arg_i me 0 k = 1 → arg_i me 1 k = 0 ∨ arg_i me 1 k = 1 → 0 < arg_i me 3 k ≤ 4 →
  copyin2 (pmem_of (procs k me)) (arg_a me 2 k) (Z.to_nat (arg_i me 3 k * 4)) (km k) = Ok (0, bs) m →
  Forall (λ b, 0 ≤ b < 256) bs →
  ∃ k', sys_sandbox me k = Ok (Some 0) k' ∧ sandbox_on (procs k' me) = 1 ∧
    sandbox_action (procs k' me) = arg_i me 1 k ∧
    (∀ num, 0 < num < NSYSCALLS → sandbox_allowed (procs k' me) num = mask_bit bs num) ∧
    (∀ j, j ≠ me → procs k' j = procs k j).
Proof.
  intros H0 H1 H3 Ec Hbs. unfold sys_sandbox.
  rewrite (mbindM_Ok _ _ _ _ _ (argint_run me 0 k ltac:(lia))).
  rewrite (mbindM_Ok _ _ _ _ _ (argint_run me 1 k ltac:(lia))).
  rewrite (mbindM_Ok _ _ _ _ _ (argraw_run me 2 k ltac:(lia) : argaddr me 2 k = _)).
  rewrite (mbindM_Ok _ _ _ _ _ (argint_run me 3 k ltac:(lia))).
  fold (arg_i me 0 k) (arg_i me 1 k) (arg_a me 2 k) (arg_i me 3 k). rewrite H0. simpl (1 =? 0). simpl (1 =? 1).
  cbv iota. simpl (negb true). cbv iota.
  replace (negb (arg_i me 1 k =? 0) && negb (arg_i me 1 k =? 1)) with false by (by destruct H1 as [->| ->]).
  replace ((arg_i me 3 k <? 0) || (4 <? arg_i me 3 k)) with false
    by (symmetry; apply orb_false_iff; rewrite !Z.ltb_ge; lia).
  rewrite (proj2 (Z.ltb_lt 0 _)) by lia. unfold either_copyin. unfold mbindM at 1 2, get_proc, gets.
  unfold mem_op, zoom. fold (pmem_of (procs k me)). rewrite Ec. cbn [fst snd]. simpl (0 <? 0). cbv iota.
  eexists. split; [reflexivity|]. simpl. rewrite upd_eq. simpl. split; [done|]. split; [done|]. split.
  - intros num Hnum. apply allowed_mask_bit; [done|unfold NSYSCALLS in Hnum; lia|done].
  - intros j Hj. by rewrite upd_ne.
Qed.
End Claims.

(** ** A concrete caller *)
#[local] Existing Instance small_layout.
#[local] Existing Instance demo_entries.

(** One user page at 0 with the byte 64 at address 16, and a trapframe that
    holds a call number and its arguments. *)
Definition demo_user (num : Z) (args : list Z) : M kst (Z * Z * Z) :=
  pt <-- uvmcreate ;;
  kpt <-- uvmcreate ;;
  r <-- uvmalloc pt kpt 0 4096 ;;
  tf <-- kalloc ;;
  pa <-- walkaddr pt 0 ;;
  modify (λ s, set_mem (upd (mem s) (pa + 16) 64) s) ;;;
  forM (seqZ 0 6) (λ i, modify (λ s, set_mem (store64 (mem s) (tf + TF_A0 + 8 * i)
    (nth (Z.to_nat i) args 0)) s)) ;;;
  modify (λ s, set_mem (store64 (mem s) (tf + TF_A7) num) s) ;;;
  mretM (pt, kpt, tf).
Definition demo_user_proc (num : Z) (args : list Z) : proc :=
  match demo_user num args demo_mem with
  | Ok (pt, kpt, tf) _ => set_trapframe tf (set_kpagetable kpt (set_pagetable pt (set_sz 4096 (demo_proc RUNNING 0 0 2))))
  | Panic _ => demo_proc RUNNING 0 0 2
  end.
(** Process 1 about to make the call. *)
Definition call_kern (num : Z) (args : list Z) : kern (ftable unit) :=
  set_km (final (demo_user num args) demo_mem)
    (set_procs (upd (procs demo_kern) 1 (demo_user_proc num args)) demo_kern).
Definition user_kern : kern (ftable unit) := call_kern SYS_sandbox [1; 1; 16; 1; 0; 0].

Lemma sys_sandbox_roundtrip_witness :
  ∃ k', sys_sandbox 1 user_kern = Ok (Some 0) k' ∧ sandbox_on (procs k' 1) = 1 ∧
    sandbox_allowed (procs k' 1) SYS_kill = true ∧ sandbox_allowed (procs k' 1) SYS_fork = false.
Proof.
  destruct (sys_sandbox_roundtrip 1 user_kern [64; 0; 0; 0]
    (final (copyin2 (pmem_of (procs user_kern 1)) 16 4) (km user_kern))) as (k' & E & H1 & _ & H2 & _).
  - vm_compute. reflexivity.
  - right. vm_compute. reflexivity.
  - vm_compute. intuition congruence.
  - replace (arg_a 1 2 user_kern) with 16 by (vm_compute; reflexivity).
    replace (arg_i 1 3 user_kern) with 1 by (vm_compute; reflexivity).
    apply final_ok. vm_compute. reflexivity.
  - repeat constructor; lia.
  - exists k'. split; [exact E|]. split; [exact H1|].
    rewrite !H2 by (vm_compute; intuition congruence). split; reflexivity.
Defined.
