(* ===== verification/Shm.v ===== *)
(** * Shared memory (kernel/shm.c and its wrappers in kernel/syscall.c)

    The table of segments with its four operations, on the kernel state of
    ProcDefs.v: page tables and frames are those of VM.v and Kalloc.v.
    [shm_table.lock] is held through each operation.  A segment pointer is an
    index into the table. *)
From stdpp Require Import prelude list strings.
From Stdlib Require Import ZArith Lia.
From S2P Require Import Prelude Riscv Kalloc VM PageTable PageTableOps Vma ProcDefs Proc ProcLife Syscall.
Open Scope Z_scope.

Definition NSHM : Z := 16.
Definition SHM_RMID : Z := 1.

Record segment := Seg {
  sg_id : Z; sg_key : Z; sg_pa : Z; sg_size : Z; sg_ref : Z; sg_perm : Z; sg_used : bool }.
Definition set_sg_used (b : bool) (g : segment) : segment :=
  Seg (sg_id g) (sg_key g) (sg_pa g) (sg_size g) (sg_ref g) (sg_perm g) b.
Definition set_sg_ref (n : Z) (g : segment) : segment :=
  Seg (sg_id g) (sg_key g) (sg_pa g) (sg_size g) n (sg_perm g) (sg_used g).

Record shm_table := ShmTable { segments : Z → segment; next_id : Z }.
Record shmk (F : Type) := Shmk { tab : shm_table; kn : kern F }.
Arguments Shmk {F}.
Arguments tab {F}.
Arguments kn {F}.

Definition shm_ids : list Z := seqZ 0 NSHM.
Definition shm_lookup_key (key : Z) (t : shm_table) : option Z :=
  find_proc (λ i, sg_used (segments t i) && (sg_key (segments t i) =? key)) shm_ids.
Definition shm_lookup_id (shmid : Z) (t : shm_table) : option Z :=
  find_proc (λ i, sg_used (segments t i) && (sg_id (segments t i) =? shmid)) shm_ids.
Definition shm_alloc (t : shm_table) : option Z :=
  find_proc (λ i, negb (sg_used (segments t i))) shm_ids.
Definition shm_init (t : shm_table) : shm_table :=
  ShmTable (λ i, if in_range 0 NSHM i then set_sg_used false (segments t i) else segments t i) 1.

Section Shm.
Context `{LAY : Layout} {F : Type}.

Definition kn_op {A} (c : M (kern F) A) : M (shmk F) A := zoom kn (λ k s, Shmk (tab s) k) c.
Definition put_seg (i : Z) (f : segment → segment) : M (shmk F) unit :=
  modify (λ s, Shmk (ShmTable (upd (segments (tab s)) i (f (segments (tab s) i))) (next_id (tab s))) (kn s)).
Definition set_next_id (n : Z) : M (shmk F) unit := modify (λ s, Shmk (ShmTable (segments (tab s)) n) (kn s)).

Definition do_shmget (key size flag : Z) : M (shmk F) Z :=
  t <-- gets tab ;;
  match (if negb (key =? 0) then shm_lookup_key key t else None) with
  | Some i => mretM (sg_id (segments t i))
  | None =>
      match shm_alloc t with
      | None => mretM (-1)
      | Some i =>
          let npages := i32 (u64 (size + PGSIZE - 1) / PGSIZE) in
          let npages := if npages =? 0 then 1 else npages in
          mem <-- kn_op (mem_op kalloc) ;;
          if mem =? 0 then mretM (-1)
          else
            kn_op (mem_op (memset_page mem 0)) ;;;
            let id := next_id t in
            set_next_id (i32 (id + 1)) ;;;
            put_seg i (λ _, Seg id key mem (u64 (i32 (npages * PGSIZE))) 0 flag true) ;;;
            mretM id
      end
  end.

(** [addr] and [flag] are not used. *)
Definition do_shmat (me shmid addr flag : Z) : M (shmk F) Z :=
  t <-- gets tab ;;
  p <-- kn_op (get_proc me) ;;
  match shm_lookup_id shmid t with
  | None => mretM (-1)
  | Some i =>
      let g := segments t i in
      let va := PGROUNDUP (sz p) in
      r <-- kn_op (mem_op (mappages (pagetable p) va (sg_size g) (sg_pa g) (Z.lor (Z.lor PTE_W PTE_R) PTE_U))) ;;
      if negb (r =? 0) then mretM (-1)
      else
        kn_op (on_proc me (set_sz (u64 (sz p + sg_size g)))) ;;;
        put_seg i (set_sg_ref (i32 (sg_ref g + 1))) ;;;
        mretM va
  end.

(** The segment whose frame [va] maps. *)
Fixpoint shmdt_find (root va : Z) (t : shm_table) (l : list Z) : M kst (option Z) :=
  match l with
  | [] => mretM None
  | i :: l =>
      if sg_used (segments t i) then
        pte <-- walk root va false ;;
        v <-- read_pte pte ;;
        if negb (pte =? 0) && has v PTE_V && (PTE2PA v =? sg_pa (segments t i)) then mretM (Some i)
        else shmdt_find root va t l
      else shmdt_find root va t l
  end.
Definition do_shmdt (me addr : Z) : M (shmk F) Z :=
  t <-- gets tab ;;
  p <-- kn_op (get_proc me) ;;
  found <-- kn_op (mem_op (shmdt_find (pagetable p) addr t shm_ids)) ;;
  match found with
  | None => mretM (-1)
  | Some i =>
      let g := segments t i in
      kn_op (mem_op (vmunmap (pagetable p) addr (sg_size g / PGSIZE) false)) ;;;
      kn_op (on_proc me (set_sz (if sg_size g <? sz p then sz p - sg_size g else 0))) ;;;
      put_seg i (set_sg_ref (i32 (sg_ref g - 1))) ;;;
      mretM 0
  end.

Definition do_shmctl (shmid cmd : Z) : M (shmk F) Z :=
  t <-- gets tab ;;
  match shm_lookup_id shmid t with
  | None => mretM (-1)
  | Some i =>
      if cmd =? SHM_RMID then
        if 0 <? sg_ref (segments t i) then mretM (-1)
        else
          kn_op (mem_op (kfree (sg_pa (segments t i)))) ;;;
          put_seg i (set_sg_used false) ;;;
          mretM 0
      else mretM 0
  end.

Definition sys_shmget (me : Z) : M (shmk F) Z :=
  key <-- kn_op (argint me 0) ;; size <-- kn_op (argaddr me 1) ;; flag <-- kn_op (argint me 2) ;;
  do_shmget key size flag.
Definition sys_shmat (me : Z) : M (shmk F) Z :=
  shmid <-- kn_op (argint me 0) ;; addr <-- kn_op (argaddr me 1) ;; flag <-- kn_op (argint me 2) ;;
  do_shmat me shmid addr flag.
Definition sys_shmdt (me : Z) : M (shmk F) Z := addr <-- kn_op (argaddr me 0) ;; do_shmdt me addr.
Definition sys_shmctl (me : Z) : M (shmk F) Z :=
  shmid <-- kn_op (argint me 0) ;; cmd <-- kn_op (argint me 1) ;; buf <-- kn_op (argaddr me 2) ;;
  do_shmctl shmid cmd.
End Shm.

(** ** The table *)

Definition slot (i : Z) : Prop := 0 ≤ i < NSHM.
Definition live (t : shm_table) (i : Z) : Prop := slot i ∧ sg_used (segments t i) = true.

Record shm_ok (t : shm_table) : Prop := {
  so_next : 0 < next_id t;
  so_id : ∀ i, live t i → 0 < sg_id (segments t i) < next_id t;
  so_uniq : ∀ i j, live t i → live t j → sg_id (segments t i) = sg_id (segments t j) → i = j;
  so_key : ∀ i j, live t i → live t j → sg_key (segments t i) ≠ 0 → sg_key (segments t i) = sg_key (segments t j) → i = j }.

Lemma shm_ids_slot i : i ∈ shm_ids ↔ slot i.
Proof. unfold shm_ids, slot. rewrite elem_of_seqZ. lia. Qed.

Lemma lookup_id_live t id i : shm_lookup_id id t = Some i → live t i ∧ sg_id (segments t i) = id.
Proof.
  intros [Hi Hf]%find_proc_Some. apply shm_ids_slot in Hi. apply andb_prop in Hf as [Hu Hid%Z.eqb_eq].
  by split.
Qed.
Lemma lookup_key_live t key i : shm_lookup_key key t = Some i → live t i ∧ sg_key (segments t i) = key.
Proof.
  intros [Hi Hf]%find_proc_Some. apply shm_ids_slot in Hi. apply andb_prop in Hf as [Hu Hid%Z.eqb_eq].
  by split.
Qed.
Lemma lookup_id_found t i : shm_ok t → live t i → shm_lookup_id (sg_id (segments t i)) t = Some i.
Proof.
  intros Hok Hl. destruct (shm_lookup_id _ t) as [j|] eqn:E.
  - apply lookup_id_live in E as [Hj E]. f_equal. by apply (so_uniq _ Hok).
  - apply find_proc_None with (i := i) in E; [|apply shm_ids_slot, Hl]. destruct Hl as [_ Hu].
    by rewrite Hu, Z.eqb_refl in E.
Qed.

(** Changing a segment's count or releasing it keeps the table well formed. *)
Lemma shm_ok_upd t i g :
  shm_ok t → live t i → sg_id g = sg_id (segments t i) → sg_key g = sg_key (segments t i) →
  shm_ok (ShmTable (upd (segments t) i g) (next_id t)).
Proof.
  intros [Hn Hi Hu Hk] Hl Eid Ek.
  assert (∀ j, live (ShmTable (upd (segments t) i g) (next_id t)) j → live t j ∧
    sg_id (upd (segments t) i g j) = sg_id (segments t j) ∧ sg_key (upd (segments t) i g j) = sg_key (segments t j)) as H.
  { intros j [Hj Huj]. cbn [segments] in Huj. unfold upd in *. destruct (Z.eqb_spec j i) as [->|]; [done|by split]. }
  split; cbn [segments next_id]; [done|..].
  - intros j (Hj & -> & _)%H. by apply Hi.
  - intros j j' (Hj & -> & _)%H (Hj' & -> & _)%H. by apply Hu.
  - intros j j' (Hj & _ & ->)%H (Hj' & _ & ->)%H. by apply Hk.
Qed.
(** A new segment in an unused slot, with a fresh identifier and key. *)
Lemma shm_ok_new t i g :
  shm_ok t → slot i → sg_used (segments t i) = false → sg_id g = next_id t → next_id t < 2 ^ 31 - 1 →
  (sg_key g ≠ 0 → ∀ j, live t j → sg_key (segments t j) ≠ sg_key g) →
  shm_ok (ShmTable (upd (segments t) i g) (i32 (next_id t + 1))).
Proof.
  intros [Hn Hi Hu Hk] Hs Hf Eid Hm Hkey. rewrite i32_small by lia.
  assert (∀ j, live (ShmTable (upd (segments t) i g) (next_id t + 1)) j →
    (j = i ∧ upd (segments t) i g j = g) ∨ (live t j ∧ j ≠ i ∧ upd (segments t) i g j = segments t j)) as H.
  { intros j [Hj Huj]. cbn [segments] in Huj. unfold upd in *. destruct (Z.eqb_spec j i) as [->|]; [by left|right].
    by split. }
  split; cbn [segments next_id]; [lia|..].
  - intros j [(-> & ->)|(Hj & _ & ->)]%H; [lia|]. specialize (Hi j Hj). lia.
  - intros j j' [(-> & ->)|(Hj & _ & ->)]%H [(-> & ->)|(Hj' & _ & ->)]%H; [done|..].
    + specialize (Hi j' Hj'). lia.
    + specialize (Hi j Hj). lia.
    + by apply Hu.
  - intros j j' [(-> & ->)|(Hj & _ & ->)]%H [(-> & ->)|(Hj' & _ & ->)]%H; [done|..].
    + intros H0 E. by destruct (Hkey H0 j' Hj').
    + intros H0 E. rewrite E in H0. by destruct (Hkey H0 j Hj).
    + by apply Hk.
Qed.

Section Props.
Context `{LAY : Layout} {F : Type}.
Implicit Types s : shmk F.

(** What the calls do to the table: either nothing, or one of the above. *)
Lemma do_shmget_ok key size flag s r s' :
  shm_ok (tab s) → next_id (tab s) < 2 ^ 31 - 1 → do_shmget key size flag s = Ok r s' → shm_ok (tab s').
Proof.
  intros Hok Hn. unfold do_shmget, mbindM at 1, gets at 1.
  destruct (if negb (key =? 0) then _ else None) as [i|] eqn:Ek; [by intros [= _ <-]|].
  destruct (shm_alloc (tab s)) as [i|] eqn:Ea; [|by intros [= _ <-]]. cbv zeta.
  intros (mem & s1 & E1 & H)%mbindM_inv.
  assert (tab s1 = tab s) as Et.
  { unfold kn_op, zoom in E1. destruct (mem_op kalloc (kn s)); [|done]. by injection E1 as _ <-. }
  destruct (mem =? 0); [by injection H as _ <-; rewrite Et|].
  apply mbindM_inv in H as ([] & s2 & E2 & H).
  assert (tab s2 = tab s1) as Et2.
  { unfold kn_op, zoom in E2. destruct (mem_op _ (kn s1)); [|done]. by injection E2 as _ <-. }
  unfold mbindM, set_next_id, put_seg, modify, mretM in H. injection H as _ <-. cbn [tab segments next_id].
  rewrite Et2, Et. apply find_proc_Some in Ea as [Hi%shm_ids_slot Hu%negb_true_iff].
  apply shm_ok_new; try done. cbn [sg_key]. intros H0 j [Hj Huj] E.
  destruct (Z.eqb_spec key 0); [done|]. cbn [negb] in Ek.
  apply find_proc_None with (i := j) in Ek; [|by apply shm_ids_slot]. by rewrite Huj, E, Z.eqb_refl in Ek.
Qed.

Lemma kn_op_tab {A} (c : M (kern F) A) s a s' : kn_op c s = Ok a s' → tab s' = tab s.
Proof. unfold kn_op, zoom. destruct (c (kn s)); [|done]. by intros [= _ <-]. Qed.

Lemma do_shmat_ok me shmid addr flag s r s' : shm_ok (tab s) → do_shmat me shmid addr flag s = Ok r s' → shm_ok (tab s').
Proof.
  intros Hok (t & ? & [= <- <-] & H)%mbindM_inv.
  apply mbindM_inv in H as (p & s1 & E1%kn_op_tab & H).
  destruct (shm_lookup_id shmid (tab s)) as [i|] eqn:Ei; [|by injection H as _ <-; rewrite E1].
  apply lookup_id_live in Ei as [Hl _]. cbv zeta in H.
  apply mbindM_inv in H as (x & s2 & E2%kn_op_tab & H).
  destruct (negb (x =? 0)); [by injection H as _ <-; rewrite E2, E1|].
  apply mbindM_inv in H as (? & s3 & E3%kn_op_tab & H).
  unfold mbindM, put_seg, modify, mretM in H. injection H as _ <-. cbn [tab]. rewrite E3, E2, E1.
  by apply shm_ok_upd.
Qed.
Lemma do_shmdt_ok me addr s r s' : shm_ok (tab s) → do_shmdt me addr s = Ok r s' → shm_ok (tab s').
Proof.
  intros Hok (t & ? & [= <- <-] & H)%mbindM_inv.
  apply mbindM_inv in H as (p & s1 & E1%kn_op_tab & H).
  apply mbindM_inv in H as (o & s2 & E2 & H). pose proof (kn_op_tab _ _ _ _ E2) as T2.
  destruct o as [i|]; [|by injection H as _ <-; rewrite T2, E1]. cbv zeta in H.
  apply mbindM_inv in H as (? & s3 & E3%kn_op_tab & H). apply mbindM_inv in H as (? & s4 & E4%kn_op_tab & H).
  unfold mbindM, put_seg, modify, mretM in H. injection H as _ <-. cbn [tab]. rewrite E4, E3, T2, E1.
  apply shm_ok_upd; try done.
  assert (∀ l m o m', shmdt_find (pagetable p) addr (tab s) l m = Ok (Some o) m' → o ∈ l ∧ sg_used (segments (tab s) o) = true) as Hf.
  { clear. induction l as [|j l IH]; intros m o m'; [done|]. cbn [shmdt_find]. destruct (sg_used (segments (tab s) j)) eqn:Eu.
    - intros (pte & m1 & _ & (v & m2 & _ & H)%mbindM_inv)%mbindM_inv.
      destruct (_ && _ && _); [injection H as <- _; split; [left|done]|]. apply IH in H as [? ?]. split; [by right|done].
    - intros [? ?]%IH. split; [by right|done]. }
  unfold kn_op, mem_op, zoom in E2. destruct (shmdt_find (pagetable p) addr (tab s) shm_ids (km (kn s1))) as [o' m'|] eqn:Ef; [|done].
  injection E2 as -> _. apply Hf in Ef as [Hi%shm_ids_slot Hu]. by split.
Qed.
Lemma do_shmctl_ok shmid cmd s r s' : shm_ok (tab s) → do_shmctl shmid cmd s = Ok r s' → shm_ok (tab s').
Proof.
  intros Hok (t & ? & [= <- <-] & H)%mbindM_inv.
  destruct (shm_lookup_id shmid (tab s)) as [i|] eqn:Ei; [|by injection H as _ <-].
  apply lookup_id_live in Ei as [Hl _]. destruct (cmd =? SHM_RMID); [|by injection H as _ <-].
  destruct (0 <? sg_ref _); [by injection H as _ <-|].
  apply mbindM_inv in H as (? & s1 & E1%kn_op_tab & H).
  unfold mbindM, put_seg, modify, mretM in H. injection H as _ <-. cbn [tab]. rewrite E1. by apply shm_ok_upd.
Qed.

(** Any sequence of calls by any processes, with anything else the kernel does
    in between. *)
Inductive shm_step (s : shmk F) : shmk F → Prop :=
| ss_get key size flag r s' : next_id (tab s) < 2 ^ 31 - 1 → do_shmget key size flag s = Ok r s' → shm_step s s'
| ss_at me shmid addr flag r s' : do_shmat me shmid addr flag s = Ok r s' → shm_step s s'
| ss_dt me addr r s' : do_shmdt me addr s = Ok r s' → shm_step s s'
| ss_ctl shmid cmd r s' : do_shmctl shmid cmd s = Ok r s' → shm_step s s'
| ss_kern k : shm_step s (Shmk (tab s) k).

Lemma shm_init_ok t : shm_ok (shm_init t).
Proof.
  assert (∀ i, live (shm_init t) i → False) as H.
  { intros i [Hs Hu]. cbn [shm_init segments] in Hu. unfold slot in Hs. rewrite (proj2 (in_range_true 0 NSHM i)) in Hu by lia. done. }
  split; [done|..]; intros; exfalso; eauto.
Qed.
Lemma shm_reach_ok t k s : rtc shm_step (Shmk (shm_init t) k) s → shm_ok (tab s).
Proof.
  intros Hr. assert (shm_ok (tab (Shmk (F := F) (shm_init t) k))) as Hi by apply shm_init_ok. revert Hi.
  induction Hr as [|s1 s2 s3 Hs _ IH]; [done|]. intros Hi. apply IH.
  destruct Hs; eauto using do_shmget_ok, do_shmat_ok, do_shmdt_ok, do_shmctl_ok.
Qed.

(** ** Creation *)

(** Whole pages for [size] bytes, at least one. *)
Definition seg_size (size : Z) : Z := Z.max 1 ((size + 4095) / 4096) * PGSIZE.
Lemma seg_size_code size :
  0 ≤ size ≤ 2 ^ 30 →
  u64 (i32 ((if i32 (u64 (size + PGSIZE - 1) / PGSIZE) =? 0 then 1 else i32 (u64 (size + PGSIZE - 1) / PGSIZE)) * PGSIZE))
  = seg_size size.
Proof.
  intros H. unfold seg_size, PGSIZE in *. rewrite (u64_small (size + 4096 - 1)) by lia.
  replace (size + 4096 - 1) with (size + 4095) by lia.
  assert (0 ≤ (size + 4095) / 4096 ≤ 2 ^ 18) by (Z.div_mod_to_equations; lia).
  rewrite (i32_small ((size + 4095) / 4096)) by lia.
  destruct (Z.eqb_spec ((size + 4095) / 4096) 0) as [->|]; [done|].
  rewrite Z.max_r by lia. rewrite i32_small by lia. apply u64_small. lia.
Qed.

(** The state after a segment [g] was put into slot [i] and page [p] taken. *)
Definition created (s : shmk F) (i : Z) (g : segment) (m : kst) : shmk F :=
  Shmk (ShmTable (upd (segments (tab s)) i g) (i32 (next_id (tab s) + 1))) (set_km m (kn s)).

Lemma do_shmget_new key size flag s i p L :
  kalloc_inv (km (kn s)) (p :: L) → (key ≠ 0 → shm_lookup_key key (tab s) = None) → shm_alloc (tab s) = Some i →
  0 ≤ size ≤ 2 ^ 30 →
  ∃ m, do_shmget key size flag s =
      Ok (next_id (tab s)) (created s i (Seg (next_id (tab s)) key p (seg_size size) 0 flag true) m) ∧
    kalloc_inv m L ∧ ref_count m (pa2index p) = 1 ∧ (∀ x, p ≤ x < p + PGSIZE → mem m x = 0) ∧
    (∀ x, ¬ (p ≤ x < p + PGSIZE) → mem m x = mem (km (kn s)) x) ∧ freelist m = freelist (kalloc_post p (load64 (mem (km (kn s))) p) (km (kn s))).
Proof.
  intros Hk Hkey Ha Hsz. destruct (kalloc_cons _ _ _ Hk) as [E Hk']. set (m1 := kalloc_post _ _ _) in *.
  pose proof Hk as [_ Hn Hp _ _ _]. apply Forall_cons in Hp as [Hp _]. apply NoDup_cons in Hn as [HpL _].
  pose proof (page_ok_range _ Hp) as Hr. unfold KERNBASE in Hr.
  exists (set_mem (fill (mem m1) p 0 PGSIZE) m1). split; [|split; [|split; [|split; [|split]]]].
  - unfold do_shmget, mbindM at 1, gets at 1.
    assert ((if negb (key =? 0) then shm_lookup_key key (tab s) else None) = None) as ->.
    { destruct (Z.eqb_spec key 0); [done|]. cbn [negb]. by apply Hkey. }
    rewrite Ha. cbv zeta. unfold mbindM at 1, kn_op at 1, mem_op at 1, zoom. rewrite E.
    rewrite (proj2 (Z.eqb_neq p 0)) by lia.
    rewrite seg_size_code by done.
    done.
  - apply kalloc_inv_frame; [done|]. intros x Hx. exists p. split; [apply Hp|]. split; [done|].
    destruct (decide (p ≤ x < p + PGSIZE)) as [|Hd]; [done|]. by rewrite fill_other in Hx.
  - unfold m1, kalloc_post. simpl. apply upd_eq.
  - intros x Hx. cbn [mem set_mem]. by rewrite fill_in.
  - intros x Hx. cbn [mem set_mem]. rewrite fill_other by done. unfold m1, kalloc_post. cbn [mem]. by rewrite fill_other.
  - done.
Qed.

(** ** Attaching *)

Lemma PGROUNDDOWN_add va o : va mod PGSIZE = 0 → PGROUNDDOWN (va + o) = va + PGROUNDDOWN o.
Proof. intros H. rewrite !PGROUNDDOWN_eq. unfold PGSIZE in *. Z.div_mod_to_equations. lia. Qed.

Definition SHM_PERM : Z := Z.lor (Z.lor PTE_W PTE_R) PTE_U.
(** A segment that process [me] can attach: it fits below the top of the
    address space, where nothing is mapped yet. *)
Record attachable (s : shmk F) (L : list Z) (me : Z) (g : segment) : Prop := {
  aa_pt : pt_inv (km (kn s)) L (pagetable (procs (kn s) me));
  aa_sz : 0 ≤ sz (procs (kn s) me);
  aa_size : 0 < sg_size g;
  aa_top : PGROUNDUP (sz (procs (kn s) me)) + sg_size g ≤ MAXVA;
  aa_wrap : sz (procs (kn s) me) + 4095 < 2 ^ 64;
  aa_pa : sg_pa g mod PGSIZE = 0 ∧ 0 ≤ sg_pa g < 2 ^ 55;
  aa_clear : ∀ a, PGROUNDUP (sz (procs (kn s) me)) ≤ a < PGROUNDUP (sz (procs (kn s) me)) + sg_size g →
    has (pte_of (mem (km (kn s))) (pagetable (procs (kn s) me)) a) PTE_V = false }.

(** The state after process [me] attached slot [i]. *)
Definition attached (s : shmk F) (i me : Z) (m : kst) : shmk F :=
  let g := segments (tab s) i in
  Shmk (ShmTable (upd (segments (tab s)) i (set_sg_ref (i32 (sg_ref g + 1)) g)) (next_id (tab s)))
    (set_procs (upd (procs (kn s)) me (set_sz (u64 (sz (procs (kn s) me) + sg_size g)) (procs (kn s) me))) (set_km m (kn s))).

Lemma do_shmat_spec me shmid addr flag s L i :
  shm_lookup_id shmid (tab s) = Some i → attachable s L me (segments (tab s) i) →
  let g := segments (tab s) i in
  let root := pagetable (procs (kn s) me) in
  let va := PGROUNDUP (sz (procs (kn s) me)) in
  ∃ m L' used, grow root (km (kn s)) m L L' used ∧
    ((L' = [] ∧ do_shmat me shmid addr flag s = Ok (-1) (Shmk (tab s) (set_km m (kn s)))) ∨
     (do_shmat me shmid addr flag s = Ok va (attached s i me m) ∧
      ∀ a, 0 ≤ a < MAXVA → pte_of (mem m) root a =
        if (va <=? PGROUNDDOWN a) && (PGROUNDDOWN a <? va + sg_size g)
        then mk_pte (sg_pa g + (PGROUNDDOWN a - va)) SHM_PERM else pte_of (mem (km (kn s))) root a)).
Proof.
  intros Ei [Hpt Hsz Hs Htop Hw [Hpa Hpr] Hcl] g root va.
  pose proof (PGROUNDUP_aligned (sz (procs (kn s) me))) as Hal. fold va in Hal.
  pose proof (PGROUNDUP_bounds _ Hsz Hw) as Hb. fold va in Hb.
  pose proof (PGROUNDDOWN_id va Hal) as Ev.
  destruct (mappages_spec (km (kn s)) L root va (sg_size g) (sg_pa g) SHM_PERM)
    as (r & m & L' & used & E & G & R & P); try done; [lia|by rewrite Ev|].
  exists m, L', used. split; [done|]. rewrite Ev in P.
  assert (do_shmat me shmid addr flag s =
    if negb (r =? 0) then Ok (-1) (Shmk (tab s) (set_km m (kn s))) else Ok va (attached s i me m)) as ->.
  { unfold do_shmat, mbindM at 1, gets at 1, mbindM at 1, kn_op at 1, get_proc, zoom, gets. rewrite Ei. cbv zeta.
    fold g root va. unfold mbindM at 1, kn_op at 1, mem_op at 1, zoom. cbn [kn]. fold SHM_PERM. rewrite E.
    by destruct (negb (r =? 0)). }
  destruct R as [-> |[-> ->]]; [right|left]; [|done]. split; [done|by apply P].
Qed.

(** ** Properties *)

(** identifiers name segments: in every state reached by any sequence of
    shared-memory calls (fewer than 2^31 creations), used slots have distinct
    positive identifiers below [next_id] and distinct keys, so a lookup by
    identifier or non-zero key finds the one segment it was created for. *)
Theorem shm_identifiers_unique (t : shm_table) (k : kern F) (s : shmk F) :
  rtc shm_step (Shmk (shm_init t) k) s →
  ∀ i, live (tab s) i →
    shm_lookup_id (sg_id (segments (tab s) i)) (tab s) = Some i ∧ 0 < sg_id (segments (tab s) i) < next_id (tab s) ∧
    (sg_key (segments (tab s) i) ≠ 0 → shm_lookup_key (sg_key (segments (tab s) i)) (tab s) = Some i).
Proof.
  intros Hr i Hi. pose proof (shm_reach_ok t k s Hr) as Hok. split; [by apply lookup_id_found|]. split; [by apply Hok|].
  intros H0. destruct (shm_lookup_key _ _) as [j|] eqn:E.
  - apply lookup_key_live in E as [Hj E]. f_equal. symmetry. by apply (so_key _ Hok).
  - apply find_proc_None with (i := i) in E; [|apply shm_ids_slot, Hi]. destruct Hi as [_ Hu].
    by rewrite Hu, Z.eqb_refl in E.
Qed.

(** [shmget] in each of its cases: an existing key answers its segment's
    identifier and changes nothing; a full table or exhausted memory answers
    -1 and changes nothing; otherwise one zeroed frame is taken and the first
    free slot becomes a segment of whole pages with a new identifier. *)
Theorem shmget_correct (key size flag : Z) (s : shmk F) (L : list Z) :
  kalloc_inv (km (kn s)) L → 0 ≤ size ≤ 2 ^ 30 →
  match (if key =? 0 then None else shm_lookup_key key (tab s)), shm_alloc (tab s), L with
  | Some i, _, _ => do_shmget key size flag s = Ok (sg_id (segments (tab s) i)) s
  | None, None, _ => do_shmget key size flag s = Ok (-1) s
  | None, Some _, [] => ∃ s', do_shmget key size flag s = Ok (-1) s' ∧ tab s' = tab s ∧ km (kn s') = km (kn s)
  | None, Some i, p :: L' =>
      ∃ m, do_shmget key size flag s =
          Ok (next_id (tab s)) (created s i (Seg (next_id (tab s)) key p (seg_size size) 0 flag true) m) ∧
        kalloc_inv m L' ∧ ref_count m (pa2index p) = 1 ∧ ∀ x, p ≤ x < p + PGSIZE → mem m x = 0
  end.
Proof.
  intros Hk Hsz. destruct (if key =? 0 then None else shm_lookup_key key (tab s)) as [i|] eqn:Ek.
  { unfold do_shmget, mbindM at 1, gets at 1. destruct (Z.eqb_spec key 0); [done|]. cbn [negb]. by rewrite Ek. }
  assert (key ≠ 0 → shm_lookup_key key (tab s) = None) as Hkey by (intros Hne; by destruct (Z.eqb_spec key 0)).
  assert ((if negb (key =? 0) then shm_lookup_key key (tab s) else None) = None) as Ek'.
  { destruct (Z.eqb_spec key 0); [done|]. cbn [negb]. by apply Hkey. }
  destruct (shm_alloc (tab s)) as [i|] eqn:Ea.
  2: { unfold do_shmget, mbindM at 1, gets at 1. by rewrite Ek', Ea. }
  destruct L as [|p L].
  - unfold do_shmget, mbindM at 1, gets at 1. rewrite Ek', Ea. cbv zeta.
    unfold mbindM at 1, kn_op at 1, mem_op at 1, zoom. rewrite (kalloc_empty _ Hk). cbn [Z.eqb]. by eexists.
  - destruct (do_shmget_new key size flag s i p L Hk Hkey Ea Hsz) as (m & E & A & B & C & _). by exists m.
Qed.

(** attaching shares memory: when two processes attach the same segment,
    both calls succeed or memory was exhausted, and on success the two address
    spaces map the segment's own frames, readable and writable by the user, at
    the addresses returned; everything else each of them had mapped stays, and
    the attach count grows by two. *)
Theorem shm_sharing (s : shmk F) (L : list Z) (a b shmid i : Z) (va vb : Z) (s1 s2 : shmk F) :
  shm_lookup_id shmid (tab s) = Some i → shm_ok (tab s) →
  attachable s L a (segments (tab s) i) → attachable s L b (segments (tab s) i) → a ≠ b →
  disj_pt (mem (km (kn s))) (pagetable (procs (kn s) a)) (pagetable (procs (kn s) b)) →
  0 ≤ sg_ref (segments (tab s) i) < 2 ^ 31 - 2 →
  do_shmat a shmid 0 0 s = Ok va s1 → do_shmat b shmid 0 0 s1 = Ok vb s2 → va ≠ -1 → vb ≠ -1 →
  (∀ o, 0 ≤ o < sg_size (segments (tab s) i) →
    pte_of (mem (km (kn s2))) (pagetable (procs (kn s2) a)) (va + o) =
      mk_pte (sg_pa (segments (tab s) i) + PGROUNDDOWN o) SHM_PERM ∧
    pte_of (mem (km (kn s2))) (pagetable (procs (kn s2) b)) (vb + o) =
      mk_pte (sg_pa (segments (tab s) i) + PGROUNDDOWN o) SHM_PERM) ∧
  (∀ x, 0 ≤ x < va → pte_of (mem (km (kn s2))) (pagetable (procs (kn s2) a)) x =
                      pte_of (mem (km (kn s))) (pagetable (procs (kn s) a)) x) ∧
  sg_ref (segments (tab s2) i) = sg_ref (segments (tab s) i) + 2.
Proof.
  intros Ei Hok Ha Hb Hab Hdj Href E1 E2 Hva Hvb.
  destruct (do_shmat_spec a shmid 0 0 s L i Ei Ha) as (m1 & L1 & u1 & G1 & [[_ X]|[X P1]]);
    rewrite X in E1; injection E1 as <- <-; [done|]. clear X.
  set (g := segments (tab s) i) in *. set (ra := pagetable (procs (kn s) a)) in *. set (rb := pagetable (procs (kn s) b)) in *.
  destruct (grow_other ra rb _ m1 L L1 u1 (aa_pt _ _ _ _ Ha) (aa_pt _ _ _ _ Hb) Hdj G1) as (Hag1 & Hpt1 & Hdj1).
  pose proof (grow_pt_inv _ _ _ _ _ _ (aa_pt _ _ _ _ Ha) G1) as Hpta.
  set (s1 := attached s i a m1) in *.
  assert (segments (tab s1) i = set_sg_ref (i32 (sg_ref g + 1)) g) as Eg1 by (unfold s1, attached; cbn; by rewrite upd_eq).
  assert (procs (kn s1) b = procs (kn s) b) as Eb1 by (unfold s1, attached; cbn; by rewrite upd_ne).
  assert (shm_lookup_id shmid (tab s1) = Some i) as Ei1.
  { apply lookup_id_live in Ei as [Hl Eid]. rewrite <- Eid.
    assert (shm_ok (tab s1)) as Hok1 by (by apply shm_ok_upd).
    assert (live (tab s1) i) as Hl1 by (split; [apply Hl|rewrite Eg1; apply Hl]).
    pose proof (lookup_id_found _ _ Hok1 Hl1) as H. rewrite Eg1 in H. exact H. }
  assert (∀ x, pte_of (mem m1) rb x = pte_of (mem (km (kn s))) rb x) as Hsame by (intros x; by apply pte_of_agree).
  assert (attachable s1 L1 b (segments (tab s1) i)) as Hb1.
  { destruct Hb as [B1 B2 B3 B4 B5 B6 B7]. rewrite Eg1. split; rewrite ?Eb1; try done.
    intros x Hx. cbn [s1 attached kn km set_procs set_km]. fold rb. rewrite Hsame. by apply B7. }
  destruct (do_shmat_spec b shmid 0 0 s1 L1 i Ei1 Hb1) as (m2 & L2 & u2 & G2 & [[_ X]|[X P2]]);
    rewrite X in E2; injection E2 as Evb <-; [by rewrite Evb in Hvb|]. clear X.
  rewrite Eb1, Eg1 in *.
  assert (vb = PGROUNDUP (sz (procs (kn s) b))) as Evb' by (rewrite <- Evb; cbn; by rewrite upd_ne). clear Evb. subst vb. cbn [sg_size sg_pa set_sg_ref] in P2. fold rb in P2, G2.
  cbn [s1 attached kn km set_procs set_km] in G2, P2.
  destruct (grow_other rb ra m1 m2 L1 L2 u2 Hpt1 Hpta) as (Hag2 & _ & _); [intros q H1 H2; by apply (Hdj1 q)|done|].
  set (va := PGROUNDUP (sz (procs (kn s) a))) in *. set (vb := PGROUNDUP (sz (procs (kn s) b))) in *.
  assert (va mod PGSIZE = 0 ∧ vb mod PGSIZE = 0) as [Hal Hbl] by (split; apply PGROUNDUP_aligned).
  assert (0 ≤ va ∧ 0 ≤ vb) as [Hva0 Hvb0].
  { destruct Ha as [_ A _ _ A' _ _], Hb as [_ B _ _ B' _ _].
    pose proof (PGROUNDUP_bounds _ A A'). pose proof (PGROUNDUP_bounds _ B B'). unfold va, vb. lia. }
  pose proof (aa_size _ _ _ _ Ha) as Hsp. pose proof (aa_top _ _ _ _ Ha) as Hta. pose proof (aa_top _ _ _ _ Hb) as Htb. fold va in Hta. fold vb in Htb.
  assert (pagetable (procs (kn (attached s1 i b m2)) a) = ra ∧ pagetable (procs (kn (attached s1 i b m2)) b) = rb) as [-> ->].
  { unfold attached, s1, attached. cbn [kn procs set_procs set_km]. rewrite upd_ne, !upd_eq by done. split; [done|].
    cbn [pagetable set_sz]. by rewrite upd_ne. }
  change (km (kn (attached s1 i b m2))) with m2. split; [|split].
  - intros o Ho. pose proof (PGROUNDDOWN_le o). pose proof (PGROUNDDOWN_le 0).
    assert (0 ≤ PGROUNDDOWN o) by (rewrite PGROUNDDOWN_eq; unfold PGSIZE; Z.div_mod_to_equations; lia). split.
    + rewrite (pte_of_agree (mem m1) (mem m2)) by done. rewrite P1, PGROUNDDOWN_add by (done || lia).
      rewrite (proj2 (Z.leb_le _ _)), (proj2 (Z.ltb_lt _ _)) by lia. cbn [andb]. f_equal. lia.
    + rewrite P2, PGROUNDDOWN_add by (done || lia).
      rewrite (proj2 (Z.leb_le _ _)), (proj2 (Z.ltb_lt _ _)) by lia. cbn [andb]. f_equal. lia.
  - intros x Hx. rewrite (pte_of_agree (mem m1) (mem m2)) by done. rewrite P1 by (unfold MAXVA in *; lia).
    pose proof (PGROUNDDOWN_le x). rewrite (proj2 (Z.leb_gt _ _)) by lia. done.
  - unfold attached. cbn [tab segments]. rewrite upd_eq, Eg1. cbn [sg_ref set_sg_ref].
    rewrite (i32_small (sg_ref g + 1)) by lia. rewrite i32_small by lia. lia.
Qed.

(** ** Defects *)

(** [shmget] takes one frame whatever the size: attaching a segment of more
    than a page maps the frame behind it too, even when that one is free. *)
Theorem shm_maps_frames_it_does_not_own (s : shmk F) (L : list Z) (key size flag me i p : Z) (va : Z) (s1 s2 : shmk F) :
  kalloc_inv (km (kn s)) (p :: L) → (key ≠ 0 → shm_lookup_key key (tab s) = None) → shm_alloc (tab s) = Some i →
  PGSIZE < size ≤ 2 ^ 30 → shm_ok (tab s) → next_id (tab s) < 2 ^ 31 - 1 →
  do_shmget key size flag s = Ok (next_id (tab s)) s1 →
  attachable s1 L me (segments (tab s1) i) →
  do_shmat me (next_id (tab s)) 0 0 s1 = Ok va s2 → va ≠ -1 →
  kalloc_inv (km (kn s1)) L ∧
  pte_of (mem (km (kn s2))) (pagetable (procs (kn s) me)) (va + PGSIZE) = mk_pte (p + PGSIZE) SHM_PERM.
Proof.
  intros Hk Hkey Ha Hsz Hok Hn E1 Hat E2 Hva.
  pose proof (do_shmget_ok _ _ _ _ _ _ Hok Hn E1) as Hok1.
  destruct (do_shmget_new key size flag s i p L Hk Hkey Ha) as (m & E & Hk1 & _); [unfold PGSIZE in *; lia|].
  rewrite E in E1. injection E1 as <-. split; [done|].
  apply find_proc_Some in Ha as [Hi%shm_ids_slot _].
  set (s1 := created s i _ m) in *.
  assert (segments (tab s1) i = Seg (next_id (tab s)) key p (seg_size size) 0 flag true) as Eg by (unfold s1, created; simpl; by rewrite upd_eq).
  assert (live (tab s1) i) as Hl by (split; [done|by rewrite Eg]).
  pose proof (lookup_id_found _ _ Hok1 Hl) as Ei. rewrite Eg in Ei. cbn [sg_id] in Ei.
  destruct (do_shmat_spec me _ 0 0 s1 L i Ei Hat) as (m2 & L2 & u & _ & [[_ X]|[X P]]); rewrite X in E2; injection E2 as <- <-; [done|].
  rewrite Eg in P. cbn [sg_size sg_pa] in P. change (procs (kn s1)) with (procs (kn s)) in *.
  set (va := PGROUNDUP (sz (procs (kn s) me))) in *.
  change (km (kn (attached s1 i me m2))) with m2.
  assert (2 * PGSIZE ≤ seg_size size) as Hs2.
  { unfold seg_size, PGSIZE in *. assert (2 ≤ (size + 4095) / 4096) by (Z.div_mod_to_equations; lia). lia. }
  destruct Hat as [_ A _ B C _ _]. rewrite Eg in B. cbn [sg_size] in B. change (procs (kn s1)) with (procs (kn s)) in *.
  pose proof (PGROUNDUP_bounds _ A C) as Hb. pose proof (PGROUNDUP_aligned (sz (procs (kn s) me))) as Hal.
  fold va in B, Hb, Hal. rewrite P by (unfold PGSIZE in *; lia).
  assert (PGROUNDDOWN (va + PGSIZE) = va + PGSIZE) as -> by (rewrite PGROUNDDOWN_add by done; by rewrite (PGROUNDDOWN_id PGSIZE)).
  rewrite (proj2 (Z.leb_le _ _)), (proj2 (Z.ltb_lt _ _)) by (unfold PGSIZE in *; lia). cbn [andb]. f_equal. lia.
Qed.

(** [shmat] takes no reference on the frame: when the process exits, [uvmfree]
    unmaps the attached page with [do_free] and the frame goes back to the free
    list while the segment still names it. *)
Theorem shm_frame_freed_at_exit (s : shmk F) (L : list Z) (me shmid i va : Z) (s1 : shmk F) :
  shm_lookup_id shmid (tab s) = Some i → attachable s L me (segments (tab s) i) →
  let pa := sg_pa (segments (tab s) i) in
  let root := pagetable (procs (kn s) me) in
  sg_size (segments (tab s) i) = PGSIZE → can_free (km (kn s)) L root pa → ref_count (km (kn s)) (pa2index pa) = 1 →
  do_shmat me shmid 0 0 s = Ok va s1 → va ≠ -1 →
  ∃ m L', vmunmap root va 1 true (km (kn s1)) = Ok tt m ∧ kalloc_inv m L' ∧ pa ∈ L' ∧
    sg_used (segments (tab s1) i) = true ∧ sg_pa (segments (tab s1) i) = pa.
Proof.
  intros Ei Hat pa root Hsz (Hpok & HpL & Hnp & _) Href E Hva. pose proof Ei as [Hl _]%lookup_id_live.
  destruct (do_shmat_spec me shmid 0 0 s L i Ei Hat) as (m1 & L1 & u & G & [[_ X]|[X P]]); rewrite X in E; injection E as <- <-; [done|].
  fold root in P, G. fold pa in P. rewrite Hsz in P. set (va := PGROUNDUP (sz (procs (kn s) me))) in *.
  change (km (kn (attached s i me m1))) with m1.
  pose proof Hat as [Hpt A _ B C _ _]. fold root in Hpt. rewrite Hsz in B.
  pose proof (PGROUNDUP_bounds _ A C) as Hb. pose proof (PGROUNDUP_aligned (sz (procs (kn s) me))) as Hal.
  fold va in B, Hb, Hal.
  assert (∀ a, va ≤ a < va + 1 * PGSIZE → pte_of (mem m1) root a = mk_pte pa SHM_PERM) as Hpte.
  { intros a Ha. rewrite P by lia. rewrite (proj2 (page_of_first va a Hal)) by lia.
    rewrite Z.leb_refl, (proj2 (Z.ltb_lt _ _)) by (unfold PGSIZE; lia). cbn [andb]. f_equal. lia. }
  assert (0 ≤ pa < 2 ^ 56) as Hps by (by apply page_ok_small).
  assert (0 ≤ SHM_PERM < 2 ^ 10) as Hperm by (vm_compute; intuition congruence).
  assert (∀ q, mapped_in (mem m1) root va 1 q → q = pa) as Hmap.
  { intros q (a & Ha & _ & <-). rewrite Hpte by done. apply mk_pte_PTE2PA; [apply Hpok|done|done]. }
  assert (pa ∉ u) as Hpu. { intros Hin. apply HpL. rewrite (g_split _ _ _ _ _ _ G). apply elem_of_app. by left. }
  assert (ref_count m1 (pa2index pa) = 1) as Hr1 by (by rewrite (g_ref _ _ _ _ _ _ G)).
  destruct (vmunmap_spec m1 L1 root va 1 true) as (m & L' & E & [Q1 _ _ _ Q5 _]); [by eapply grow_pt_inv|done|lia|lia|lia|..].
  - split.
    + intros a Ha _. rewrite Hpte by done. rewrite mk_pte_PTE_FLAGS by (done || apply Hpok). vm_compute. discriminate.
    + intros _ q ->%Hmap. split; [done|]. split; [|split].
      * intros Hin. apply HpL. rewrite (g_split _ _ _ _ _ _ G). apply elem_of_app. by right.
      * intros [Hp|Hp]%(g_pages _ _ _ _ _ _ G); done.
      * lia.
    + intros _ a a' Ha Ha' _ _ _. rewrite (proj2 (page_of_first va a Hal)) by lia.
      by rewrite (proj2 (page_of_first va a' Hal)) by lia.
  - exists m, L'. split; [done|]. split; [apply Q1|]. split; [|unfold attached; simpl; rewrite upd_eq; split; [apply Hl|done]].
    apply Q5. right. split; [done|]. split; [|done]. exists va. split; [unfold PGSIZE; lia|].
    rewrite Hpte by (unfold PGSIZE; lia). split; [by apply mk_pte_valid|apply mk_pte_PTE2PA; [apply Hpok|done|done]].
Qed.

(** [shmdt] trusts its argument: while any segment exists, an address beyond
    [MAXVA] panics the kernel. *)
Theorem shmdt_panics (s : shmk F) (me addr i : Z) :
  live (tab s) i → MAXVA ≤ addr → do_shmdt me addr s = Panic "walk".
Proof.
  intros [Hi Hu] Ha. unfold do_shmdt, mbindM at 1, gets at 1, mbindM at 1, kn_op at 1, get_proc, zoom, gets.
  assert (∀ l m root, i ∈ l → shmdt_find root addr (tab s) l m = Panic "walk") as H.
  { induction l as [|j l IH]; intros m root Hin; [by apply elem_of_nil in Hin|]. cbn [shmdt_find].
    destruct (sg_used (segments (tab s) j)) eqn:Ej.
    - unfold mbindM, walk. by rewrite (proj2 (Z.leb_le _ _)).
    - apply IH. apply elem_of_cons in Hin as [->|]; [congruence|done]. }
  unfold mbindM, kn_op, mem_op, zoom. rewrite H; [done|]. by apply shm_ids_slot.
Qed.
End Props.

(** ** Two processes and a segment of one page *)
Section Demo.
#[local] Existing Instance small_layout.

Definition demo_root2 : Z := PHYSTOP - 9 * PGSIZE.
Definition demo_shm_kern : kern unit :=
  Kern (λ i, set_pagetable (if i =? 0 then demo_root else demo_root2) (demo_proc RUNNING (-1) 0 (i + 1))) 3 0 0 demo_st 4096 tt.
Definition no_segments : shm_table := ShmTable (λ _, Seg 0 0 0 0 0 0 false) 1.
Definition demo_shm : shmk unit :=
  Shmk (ShmTable (upd (segments no_segments) 0 (Seg 1 7 demo_frame PGSIZE 0 0 true)) 2) demo_shm_kern.

Lemma demo_empty2 :
  wf_pt (mem demo_st) demo_root2 ∧ (∀ p, pt_page (mem demo_st) demo_root2 p ↔ p = demo_root2) ∧
  (∀ va, pte_of (mem demo_st) demo_root2 va = 0).
Proof.
  apply empty_pt; [vm_compute; intuition congruence|]. intros x Hx.
  change (demo_root2) with 2153738240 in Hx. unfold demo_st, PHYSTOP, PGSIZE in *. simpl.
  rewrite !store64_other by lia. done.
Qed.
Lemma demo_pt_inv2 : pt_inv demo_st demo_free demo_root2.
Proof.
  destruct demo_empty2 as (Hwf & Hpg & _). split; [apply demo_kalloc_inv|done|].
  intros p ->%Hpg. intros Hin.
  repeat (apply elem_of_cons in Hin as [Hin|Hin]; [vm_compute in Hin; congruence|]).
  by apply elem_of_nil in Hin.
Qed.
Lemma demo_attachable me : me = 0 ∨ me = 1 → attachable demo_shm demo_free me (segments (tab demo_shm) 0).
Proof.
  intros Hme. split.
  - destruct Hme as [-> | ->]; [exact demo_pt_inv|exact demo_pt_inv2].
  - cbn. lia.
  - reflexivity.
  - cbn. vm_compute. congruence.
  - reflexivity.
  - vm_compute. intuition congruence.
  - intros a _. destruct Hme as [-> | ->].
    + change (has (pte_of (mem demo_st) demo_root a) PTE_V = false). by rewrite (proj2 (proj2 demo_empty) a).
    + change (has (pte_of (mem demo_st) demo_root2 a) PTE_V = false). by rewrite (proj2 (proj2 demo_empty2) a).
Qed.
Lemma demo_shm_ok : shm_ok (tab demo_shm).
Proof.
  assert (∀ i, live (tab demo_shm) i → i = 0) as H.
  { intros i [_ Hu]. cbn in Hu. unfold upd in Hu. by destruct (Z.eqb_spec i 0). }
  split; [done|..].
  - intros i ->%H. cbn. lia.
  - intros i j ->%H ->%H. done.
  - intros i j ->%H ->%H. done.
Qed.

Lemma shm_sharing_witness :
  ∃ s1 s2, do_shmat 0 1 0 0 demo_shm = Ok 0 s1 ∧ do_shmat 1 1 0 0 s1 = Ok 0 s2 ∧
    pte_of (mem (km (kn s2))) (pagetable (procs (kn s2) 0)) 5 = mk_pte demo_frame SHM_PERM ∧
    pte_of (mem (km (kn s2))) (pagetable (procs (kn s2) 1)) 5 = mk_pte demo_frame SHM_PERM.
Proof.
  set (s1 := final (do_shmat 0 1 0 0) demo_shm). set (s2 := final (do_shmat 1 1 0 0) s1).
  assert (do_shmat 0 1 0 0 demo_shm = Ok 0 s1) as E1 by (exact (final_ok (do_shmat 0 1 0 0) demo_shm 0 ltac:(vm_compute; reflexivity))).
  assert (do_shmat 1 1 0 0 s1 = Ok 0 s2) as E2 by (exact (final_ok (do_shmat 1 1 0 0) s1 0 ltac:(vm_compute; reflexivity))).
  exists s1, s2. split; [exact E1|]. split; [exact E2|].
  exact (proj1 (shm_sharing demo_shm demo_free 0 1 1 0 0 0 s1 s2 eq_refl demo_shm_ok
    (demo_attachable 0 ltac:(lia)) (demo_attachable 1 ltac:(lia)) ltac:(lia)
    ltac:(intros p H1%(proj1 (proj2 demo_empty)) H2%(proj1 (proj2 demo_empty2)); rewrite H1 in H2; vm_compute in H2; congruence)
    ltac:(cbn; lia) E1 E2 ltac:(lia) ltac:(lia)) 5 ltac:(cbn; unfold PGSIZE; lia)).
Defined.

Lemma shmget_correct_witness :
  ∃ m, do_shmget 9 100 0 demo_shm = Ok 2 (created demo_shm 1 (Seg 2 9 (PHYSTOP - 4 * PGSIZE) PGSIZE 0 0 true) m).
Proof.
  destruct (shmget_correct 9 100 0 demo_shm demo_free demo_kalloc_inv ltac:(lia)) as (m & E & _). exists m. exact E.
Defined.

Lemma shm_identifiers_unique_witness :
  ∃ s, rtc shm_step (Shmk (shm_init no_segments) demo_shm_kern) s ∧ shm_lookup_id 1 (tab s) = Some 0.
Proof.
  set (s0 := Shmk (shm_init no_segments) demo_shm_kern).
  set (s := final (do_shmget 9 100 0) s0).
  assert (do_shmget 9 100 0 s0 = Ok 1 s) as E by (exact (final_ok (do_shmget 9 100 0) s0 1 ltac:(vm_compute; reflexivity))).
  assert (rtc shm_step s0 s) as Hr.
  { eapply rtc_l; [|apply rtc_refl]. eapply ss_get; [|exact E]. simpl. lia. }
  exists s. split; [exact Hr|].
  assert (live (tab s) 0) as Hl by (split; [unfold slot, NSHM; lia|vm_compute; reflexivity]).
  exact (proj1 (shm_identifiers_unique no_segments demo_shm_kern s Hr 0 Hl)).
Defined.
End Demo.
