(* ===== verification/Sysfile.v ===== *)
(** * File system calls (kernel/sysfile.c, [dirnext] of file.c, [pipealloc] of pipe.c)

    The state is the open-file table over the FAT32 volume, the pipes and the
    kernel state of Proc.v, whose memory the file code transfers to and from:
    this instantiates the interfaces [UserMem] of FatFile.v and [Backend] of
    File.v with the real components.  The blocking halves of pipes and devices
    (modelled step by step in Pipe.v and Console.v) are parameters.  The local
    [struct dirent] of a function is the entry [LOCAL] with whatever it holds;
    [pad] is the old contents of the stack under a local [struct stat]. *)
From stdpp Require Import prelude list strings.
From Stdlib Require Import ZArith Lia.
From S2P Require Import Prelude Riscv Kalloc VM PageTable PageTableOps UserCopy Vma Pipe File Fat Calendar FatNames FatFile FatDir ProcDefs Proc Syscall.
Open Scope Z_scope.

Definition O_RDONLY : Z := 0.
Definition O_WRONLY : Z := 1.
Definition O_RDWR : Z := 2.
Definition O_APPEND : Z := 4.
Definition O_CREATE : Z := 512.
Definition O_TRUNC : Z := 1024.
Definition FAT32_MAX_PATH : nat := 260.

(** Offsets of [nread] and [nwrite] in [struct pipe], whose addresses are the
    sleep channels. *)
Definition PIPE_NREAD : Z := 536.
Definition PIPE_NWRITE : Z := 540.

(** The file system and the pipes by the address of their page. *)
Record io (D : Type) := Io { io_fs : vfs D (kern ()); io_pipes : Z → pipe }.
Arguments Io {D}.
Arguments io_fs {D}.
Arguments io_pipes {D}.
Notation sys D := (ftable (io D)).

(** ** The memory of process [me] as the file code sees it *)
Section Memory.
Context `{LAY : Layout} (me : Z).

Definition proc_mem (k : kern ()) : memory := mem (km k).
Definition proc_root (k : kern ()) : Z := pagetable (procs k me).

Definition kbyte (k : kern ()) (user : bool) (x : Z) : Z :=
  if user then if in_range 0 MAXVA x then uload (proc_mem k) (proc_root k) x else 0 else load8 (proc_mem k) x.
Definition kreadable (k : kern ()) (user : bool) (a n : Z) : Prop :=
  0 ≤ a ∧ a + n < 2 ^ 64 ∧ if user then wf_pt (proc_mem k) (proc_root k) ∧ umapped (proc_mem k) (proc_root k) a n else True.
Definition kwritable (k : kern ()) (user : bool) (a n : Z) : Prop :=
  0 ≤ a ∧ a + n < 2 ^ 64 ∧
  if user then wf_pt (proc_mem k) (proc_root k) ∧ uwritable (proc_mem k) (proc_root k) a n ∧ a + n ≤ sz (procs k me)
  else True.

#[program] Definition kern_mem : UserMem (kern ()) := {|
  either_in user a m := either_copyin me user a (Z.to_nat m);
  either_out user a bs := either_copyout me user a bs;
  ubyte := kbyte; readable := kreadable; writable := kwritable |}.
Next Obligation.
  intros k us a n i m (Ha & Hn & Hr) Hi Hm Hs. exists k. rewrite u64_small by lia. split; [|done].
  unfold either_copyin. destruct us.
  - destruct Hr as [Hwf Hmap]. unfold mbindM, get_proc, gets, mem_op, zoom, copyin2. cbn [p_pagetable].
    fold (proc_root k). rewrite copyin_spec; [|done|intros va Hva; apply Hmap; lia].
    rewrite Z2Nat.id by done. f_equal; [|by destruct k]. f_equal. apply map_ext_in. intros x Hx%list_elem_of_In.
    apply elem_of_seqZ in Hx. unfold kbyte. rewrite (proj2 (in_range_true _ _ _)); [done|].
    pose proof (uv_range _ _ _ (Hmap x ltac:(lia))). lia.
  - unfold mem_op, zoom, mbindM, gets, mretM. f_equal; [|by destruct k]. f_equal. unfold bytes_at, seqZ.
    rewrite <- list_fmap_compose. apply map_ext. intros j. unfold compose, kbyte, proc_mem. f_equal. lia.
Qed.
Next Obligation.
  intros k us a n i bs (Ha & Hn & Hw) Hi Hne Hs. rewrite u64_small by lia. unfold either_copyout. destruct us.
  - destruct Hw as (Hwf & Hu & Hsz). unfold mbindM, get_proc, gets, mem_op, zoom, copyout2. cbn [p_sz p_pagetable].
    assert (0 < Z.of_nat (length bs)) by (destruct bs; [done|simpl; lia]).
    rewrite u64_small by lia. destruct (Z.leb_spec (sz (procs k me)) (a + i)); [lia|].
    destruct (Z.ltb_spec (sz (procs k me)) (a + i + Z.of_nat (length bs))); [lia|]. cbn [orb]. fold (proc_root k).
    destruct (copyout_spec (Pmem (sz (procs k me)) (proc_root k) (kpagetable (procs k me))) (proc_root k) (a + i) bs (km k) Hwf)
      as (s' & E & [Ho Ht Hb]); [eapply uwritable_sub; [..|exact Hu]; lia|].
    rewrite E. exists (set_km s' k). split; [done|]. split.
    + split; [done|]. split; [done|]. split; [by apply (wf_pt_agree (proc_mem k))|]. split; [|done].
      by apply (uwritable_agree (proc_mem k)).
    + intros x. unfold kbyte. destruct (in_range 0 MAXVA x) eqn:Ex.
      * apply in_range_true in Ex. apply (Hb x). lia.
      * apply in_range_false in Ex. rewrite (proj2 (in_range_false _ _ x)); [done|]. intros Hx.
        pose proof (uv_range _ _ _ (uw_map _ _ _ _ Hu x ltac:(lia))). lia.
  - unfold mem_op, zoom, mbindM, modify, mretM. eexists. split; [done|]. split; [done|].
    intros x. unfold kbyte, proc_mem, load8, store_bytes. cbn [km set_km mem set_mem].
    destruct (in_range (a + i) (Z.of_nat (length bs)) x); [apply u8_idem|done].
Qed.
End Memory.

Section Sysfile.
Context `{LAY : Layout} {D : Type} {SD : Sectors D}.
Context (now : rtc_time) (me : Z) (pad : list Z).
Context (piperead_u pipewrite_u : Z → Z → Z → M (io D) Z).
Context (dev_read_u dev_write_u : Z → option (Z → Z → M (io D) Z)).
#[local] Instance me_mem : UserMem (kern ()) := kern_mem me.

(** ** Components inside the state *)
Definition vio {A} (c : M (vfs D (kern ())) A) : M (io D) A := zoom io_fs (λ v s, Io v (io_pipes s)) c.
Definition kio {A} (c : M (kern ()) A) : M (io D) A := vio (um_op c).
Definition vop {A} (c : M (vfs D (kern ())) A) : M (sys D) A := back_op (vio c).
Definition kop {A} (c : M (kern ()) A) : M (sys D) A := back_op (kio c).
Definition my_pid : M (io D) Z := kio (p <-- get_proc me ;; mretM (p_pid p)).
Definition my_cwd : M (sys D) Z := kop (p <-- get_proc me ;; mretM (cwd p)).
(** An operation of fat32.c that needs the caller's pid for its sleep locks. *)
Definition lio {A} (c : Z → M (vfs D (kern ())) A) : M (io D) A := pid <-- my_pid ;; vio (c pid).
Definition lop {A} (c : Z → M (vfs D (kern ())) A) : M (sys D) A := back_op (lio c).
Definition on_file (f : Z) (g : file → file) : M (sys D) unit := modify (λ s, set_file f (g (ftab s f)) s).
Definition get_file (f : Z) : M (sys D) file := gets (λ s, ftab s f).
Definition ent_of (e : Z) : M (sys D) dirent := vop (get_ent e).

(** ** [struct stat] *)
Definition bytes_le (n : nat) (v : Z) : list Z := map (λ i, (v / 2 ^ (8 * Z.of_nat i)) mod 2 ^ 8) (seq 0 n).
Definition stat_bytes (st : struct_stat) : list Z :=
  st_name st ++ replicate (STAT_MAX_NAME + 1 - length (st_name st)) 0 ++ take 3 pad ++
  bytes_le 4 (u32 (st_dev st)) ++ bytes_le 2 (st_type st) ++ take 6 (drop 3 pad) ++ bytes_le 8 (st_size st) ++
  bytes_le 2 (st_create_time st) ++ bytes_le 2 (st_create_date st) ++
  bytes_le 2 (st_last_write_time st) ++ bytes_le 2 (st_last_write_date st).
Definition copyout_me (addr : Z) (bs : list Z) : M (kern ()) Z :=
  p <-- get_proc me ;; mem_op (copyout2 (Some (pmem_of p)) addr bs).

(** ** The back ends of the open files *)
Definition pipeclose_io (pi : Z) (writable : bool) : M (io D) unit :=
  p <-- gets (λ s, io_pipes s pi) ;;
  let '(p', freed) := pipeclose writable p in
  modify (λ s, Io (io_fs s) (upd (io_pipes s) pi p')) ;;;
  kio (wakeup (if writable then pi + PIPE_NREAD else pi + PIPE_NWRITE)) ;;;
  whenM freed (kio (mem_op (kfree pi))).
Definition locked {A} (e : Z) (c : M (vfs D (kern ())) A) : M (io D) A :=
  lio (λ pid, elock pid e ;;; r <-- c ;; eunlock pid e ;;; mretM r).

#[local] Instance io_backend : Backend (io D) := {|
  pipeclose_b := pipeclose_io;
  piperead_b := piperead_u;
  pipewrite_b := pipewrite_u;
  eput_b e := lio (λ pid, eput pid e);
  eread_b e addr off n := locked e (r <-- eread e (Mem true addr) off (u32 n) ;; mretM r.1);
  ewrite_b e addr off n := locked e (ewrite now e (Mem true addr) off (u32 n));
  estat_b e addr := x <-- locked e (get_ent e) ;; kio (copyout_me addr (stat_bytes (estat x)));
  dev_read := dev_read_u;
  dev_write := dev_write_u |}.

(** [dirnext]: empty slots are skipped. *)
Fixpoint dirnext_loop (fuel : nat) (f e count : Z) : M (sys D) (Z * Z) :=
  match fuel with
  | O => panic "fuel"
  | S fuel =>
      x <-- get_file f ;;
      r <-- vop (enext e LOCAL (f_off x) count) ;;
      if r.1 =? 0 then on_file f (with_off (u32 (f_off x + r.2 * 32))) ;;; dirnext_loop fuel f e r.2
      else mretM r
  end.
Definition dirnext (f addr : Z) : M (sys D) Z :=
  x <-- get_file f ;;
  let e := f_ep x in
  y <-- ent_of e ;;
  if negb (f_readable x) || negb (has (attribute y) ATTR_DIRECTORY) then mretM (-1)
  else
    lop (λ pid, elock pid e) ;;;
    g <-- vop get_geo ;;
    r <-- dirnext_loop (S (slots g)) f e 0 ;;
    lop (λ pid, eunlock pid e) ;;;
    if r.1 =? -1 then mretM 0
    else
      on_file f (λ x, with_off (u32 (f_off x + r.2 * 32)) x) ;;;
      de <-- ent_of LOCAL ;;
      c <-- kop (copyout_me addr (stat_bytes (estat de))) ;;
      mretM (if c <? 0 then -1 else 1).

(** [pipealloc]: the two ends, or 0 when it fails. *)
Definition pipe_end (pi : Z) (rd : bool) (x : file) : file :=
  File FD_PIPE (f_ref x) rd (negb rd) pi (f_ep x) (f_off x) (f_major x).
Definition pipe_fresh (p : pipe) : pipe := Pipe (data p) 0 0 true true.
Definition pipealloc : M (sys D) (option (Z * Z)) :=
  f0 <-- filealloc ;;
  f1 <-- (if f0 =? 0 then mretM 0 else filealloc) ;;
  pi <-- (if (f0 =? 0) || (f1 =? 0) then mretM 0 else kop (mem_op kalloc)) ;;
  if (f0 =? 0) || (f1 =? 0) || (pi =? 0) then
    whenM (negb (f0 =? 0)) (fileclose f0) ;;;
    whenM (negb (f1 =? 0)) (fileclose f1) ;;;
    mretM None
  else
    back_op (modify (λ s, Io (io_fs s) (upd (io_pipes s) pi (pipe_fresh (io_pipes s pi))))) ;;;
    on_file f0 (pipe_end pi true) ;;;
    on_file f1 (pipe_end pi false) ;;;
    mretM (Some (f0, f1)).

(** ** Descriptors *)
Definition argfd (n : Z) : M (sys D) (option (Z * Z)) :=
  fd <-- kop (argint me n) ;;
  p <-- kop (get_proc me) ;;
  if (fd <? 0) || (Z.of_nat NOFILE <=? fd) then mretM None
  else
    let f := nth (Z.to_nat fd) (ofile p) 0 in
    if f =? 0 then mretM None else mretM (Some (fd, f)).

Fixpoint free_fd (fds : list Z) : option nat :=
  match fds with [] => None | f :: fds => if f =? 0 then Some 0%nat else S <$> free_fd fds end.
Definition set_fd (fd : nat) (f : Z) : M (sys D) unit :=
  kop (on_proc me (λ p, set_ofile (<[fd := f]> (ofile p)) p)).
Definition fdalloc (f : Z) : M (sys D) Z :=
  p <-- kop (get_proc me) ;;
  match free_fd (take NOFILE (ofile p)) with
  | Some fd => set_fd fd f ;;; mretM (Z.of_nat fd)
  | None => mretM (-1)
  end.

Definition sys_dup : M (sys D) Z :=
  a <-- argfd 0 ;;
  match a with
  | None => mretM (-1)
  | Some (_, f) =>
      fd <-- fdalloc f ;;
      if fd <? 0 then mretM (-1) else filedup f ;;; mretM fd
  end.

Definition sys_read : M (sys D) Z :=
  a <-- argfd 0 ;;
  match a with
  | None => mretM (-1)
  | Some (_, f) => n <-- kop (argint me 2) ;; p <-- kop (argaddr me 1) ;; fileread f p n
  end.
Definition sys_write : M (sys D) Z :=
  a <-- argfd 0 ;;
  match a with
  | None => mretM (-1)
  | Some (_, f) => n <-- kop (argint me 2) ;; p <-- kop (argaddr me 1) ;; filewrite f p n
  end.

Definition sys_close : M (sys D) Z :=
  a <-- argfd 0 ;;
  match a with
  | None => mretM (-1)
  | Some (fd, f) => set_fd (Z.to_nat fd) 0 ;;; fileclose f ;;; mretM 0
  end.

Definition sys_fstat : M (sys D) Z :=
  a <-- argfd 0 ;;
  match a with
  | None => mretM (-1)
  | Some (_, f) => st <-- kop (argaddr me 1) ;; filestat f st
  end.

(** ** Paths *)
Definition argpath (n : Z) : M (sys D) (Z * list Z) :=
  r <-- kop (argstr me n FAT32_MAX_PATH) ;; mretM (r.1, cstr r.2).

Definition create (path : list Z) (type mode : Z) : M (sys D) Z :=
  dir <-- my_cwd ;;
  r <-- lop (λ pid, enameparent pid dir path []) ;;
  let '(dp, name) := r in
  if dp =? NULL then mretM NULL
  else
    let mode := if type =? T_DIR then ATTR_DIRECTORY else if has mode O_RDONLY then ATTR_READ_ONLY else 0 in
    lop (λ pid, elock pid dp) ;;;
    ep <-- lop (λ pid, ealloc now pid dp name mode) ;;
    if ep =? NULL then lop (λ pid, eunlock pid dp ;;; eput pid dp) ;;; mretM NULL
    else
      x <-- ent_of ep ;;
      let dir := has (attribute x) ATTR_DIRECTORY in
      if ((type =? T_DIR) && negb dir) || ((type =? T_FILE) && dir)
      then lop (λ pid, eunlock pid dp ;;; eput pid ep ;;; eput pid dp) ;;; mretM NULL
      else lop (λ pid, eunlock pid dp ;;; eput pid dp ;;; elock pid ep) ;;; mretM ep.

(** The entry [sys_open] opens, locked, or NULL. *)
Definition open_entry (path : list Z) (omode : Z) : M (sys D) Z :=
  if has omode O_CREATE then create path T_FILE omode
  else
    dir <-- my_cwd ;;
    ep <-- lop (λ pid, ename pid dir path) ;;
    if ep =? NULL then mretM NULL
    else
      lop (λ pid, elock pid ep) ;;;
      x <-- ent_of ep ;;
      if has (attribute x) ATTR_DIRECTORY && negb (omode =? O_RDONLY)
      then lop (λ pid, eunlock pid ep ;;; eput pid ep) ;;; mretM NULL
      else mretM ep.
(** [filealloc] and [fdalloc] together; a file without a descriptor is closed. *)
Definition file_and_fd : M (sys D) (option (Z * Z)) :=
  f <-- filealloc ;;
  if f =? 0 then mretM None
  else
    fd <-- fdalloc f ;;
    if fd <? 0 then fileclose f ;;; mretM None else mretM (Some (f, fd)).

Definition opened (omode ep size : Z) (x : file) : file :=
  File FD_ENTRY (f_ref x) (negb (has omode O_WRONLY)) (has omode O_WRONLY || has omode O_RDWR) (f_pipe x) ep
    (if has omode O_APPEND then size else 0) (f_major x).
Definition sys_open : M (sys D) Z :=
  r <-- argpath 0 ;;
  if r.1 <? 0 then mretM (-1)
  else
    omode <-- kop (argint me 1) ;;
    ep <-- open_entry r.2 omode ;;
    if ep =? NULL then mretM (-1)
    else
      ff <-- file_and_fd ;;
      match ff with
      | None => lop (λ pid, eunlock pid ep ;;; eput pid ep) ;;; mretM (-1)
      | Some (f, fd) =>
          x <-- ent_of ep ;;
          whenM (negb (has (attribute x) ATTR_DIRECTORY) && has omode O_TRUNC) (vop (etrunc ep)) ;;;
          x <-- ent_of ep ;;
          on_file f (opened omode ep (file_size x)) ;;;
          lop (λ pid, eunlock pid ep) ;;;
          mretM fd
      end.

Definition sys_mkdir : M (sys D) Z :=
  r <-- argpath 0 ;;
  if r.1 <? 0 then mretM (-1)
  else
    ep <-- create r.2 T_DIR 0 ;;
    if ep =? NULL then mretM (-1) else lop (λ pid, eunlock pid ep ;;; eput pid ep) ;;; mretM 0.

Definition sys_chdir : M (sys D) Z :=
  r <-- argpath 0 ;;
  if r.1 <? 0 then mretM (-1)
  else
    dir <-- my_cwd ;;
    ep <-- lop (λ pid, ename pid dir r.2) ;;
    if ep =? NULL then mretM (-1)
    else
      lop (λ pid, elock pid ep) ;;;
      x <-- ent_of ep ;;
      if negb (has (attribute x) ATTR_DIRECTORY) then lop (λ pid, eunlock pid ep ;;; eput pid ep) ;;; mretM (-1)
      else
        lop (λ pid, eunlock pid ep ;;; eput pid dir) ;;;
        kop (on_proc me (set_cwd ep)) ;;;
        mretM 0.

Definition sys_pipe : M (sys D) Z :=
  fdarray <-- kop (argaddr me 0) ;;
  r <-- pipealloc ;;
  match r with
  | None => mretM (-1)
  | Some (rf, wf) =>
      fd0 <-- fdalloc rf ;;
      fd1 <-- (if fd0 <? 0 then mretM (-1) else fdalloc wf) ;;
      if (fd0 <? 0) || (fd1 <? 0) then
        whenM (0 <=? fd0) (set_fd (Z.to_nat fd0) 0) ;;;
        fileclose rf ;;; fileclose wf ;;; mretM (-1)
      else
        c0 <-- kop (copyout_me fdarray (bytes_le 4 fd0)) ;;
        c1 <-- (if c0 <? 0 then mretM (-1) else kop (copyout_me (u64 (fdarray + 4)) (bytes_le 4 fd1))) ;;
        if (c0 <? 0) || (c1 <? 0) then
          set_fd (Z.to_nat fd0) 0 ;;; set_fd (Z.to_nat fd1) 0 ;;;
          fileclose rf ;;; fileclose wf ;;; mretM (-1)
        else mretM 0
  end.

Definition device (omode major : Z) (x : file) : file :=
  File FD_DEVICE (f_ref x) (negb (has omode O_WRONLY)) (has omode O_WRONLY || has omode O_RDWR) (f_pipe x) NULL 0 major.
Definition sys_dev : M (sys D) Z :=
  omode <-- kop (argint me 0) ;;
  major <-- kop (argint me 1) ;;
  minor <-- kop (argint me 2) ;;
  if has omode O_CREATE then panic "dev file on FAT"
  else if (major <? 0) || (NDEV <=? major) then mretM (-1)
  else
    ff <-- file_and_fd ;;
    match ff with
    | None => mretM (-1)
    | Some (f, fd) => on_file f (device omode major) ;;; mretM fd
    end.

Definition sys_readdir : M (sys D) Z :=
  a <-- argfd 0 ;;
  match a with
  | None => mretM (-1)
  | Some (_, f) => p <-- kop (argaddr me 1) ;; dirnext f p
  end.

(** [pos] is [s - path]; the text from [s] is [acc].  A chain of parents has no
    more entries than the cache. *)
Fixpoint cwd_loop (fuel : nat) (ent : Z → dirent) (de pos : Z) (acc : list Z) : option (list Z) :=
  match fuel with
  | O => None
  | S fuel =>
      if e_parent (ent de) =? NULL then Some acc
      else
        let name := cstr (filename (ent de)) in
        let pos := pos - Z.of_nat (length name) in
        if pos <=? 0 then None else cwd_loop fuel ent (e_parent (ent de)) (pos - 1) (47 :: name ++ acc)
  end.
Definition cwd_path (ent : Z → dirent) (de : Z) : option (list Z) :=
  if e_parent (ent de) =? NULL then Some [47]
  else cwd_loop (S ring_fuel) ent de (Z.of_nat FAT32_MAX_PATH - 1) [].
Definition sys_getcwd : M (sys D) Z :=
  addr <-- kop (argaddr me 0) ;;
  de <-- my_cwd ;;
  ent <-- vop (gets v_ent) ;;
  match cwd_path ent de with
  | None => mretM (-1)
  | Some s => r <-- kop (copyout_me addr (s ++ [0])) ;; mretM (if r <? 0 then -1 else 0)
  end.

(** The local entry's [valid] is cleared, the rest is what the stack holds. *)
Definition isdirempty (dp : Z) : M (sys D) bool :=
  vop (on_ent LOCAL (set_e_valid 0)) ;;;
  r <-- vop (enext dp LOCAL 64 0) ;; mretM (r.1 =? -1).

(** The path ends in ["."] as a whole element. *)
Definition ends_in_dot (path : list Z) : bool :=
  match skip_slashes (rev path) with [46] => true | 46 :: 47 :: _ => true | _ => false end.
Definition sys_remove : M (sys D) Z :=
  r <-- argpath 0 ;;
  if r.1 <=? 0 then mretM (-1)
  else if ends_in_dot r.2 then mretM (-1)
  else
    dir <-- my_cwd ;;
    ep <-- lop (λ pid, ename pid dir r.2) ;;
    if ep =? NULL then mretM (-1)
    else
      lop (λ pid, elock pid ep) ;;;
      x <-- ent_of ep ;;
      empty <-- (if has (attribute x) ATTR_DIRECTORY then isdirempty ep else mretM true) ;;
      if negb empty then lop (λ pid, eunlock pid ep ;;; eput pid ep) ;;; mretM (-1)
      else
        x <-- ent_of ep ;;
        lop (λ pid, elock pid (e_parent x) ;;; eremove ep ;;; eunlock pid (e_parent x) ;;; eunlock pid ep ;;; eput pid ep) ;;;
        mretM 0.

(** Some directory on the way from [e] to the root is [src]. *)
Fixpoint under (fuel : nat) (ent : Z → dirent) (src e : Z) : option bool :=
  match fuel with
  | O => None
  | S fuel => if e =? NULL then Some false else if e =? src then Some true else under fuel ent src (e_parent (ent e))
  end.
Definition rename_fail (srclock : bool) (src dst pdst : Z) : M (sys D) Z :=
  whenM srclock (lop (λ pid, eunlock pid src)) ;;;
  whenM (negb (dst =? NULL)) (lop (λ pid, eput pid dst)) ;;;
  whenM (negb (pdst =? NULL)) (lop (λ pid, eput pid pdst)) ;;;
  whenM (negb (src =? NULL)) (lop (λ pid, eput pid src)) ;;;
  mretM (-1).
(** The move itself, with [src], [pdst] and an overwritten [dst] locked. *)
Definition rename_move (src dst pdst off : Z) (name : list Z) : M (sys D) Z :=
  whenM (negb (dst =? NULL)) (lop (λ pid, eremove dst ;;; eunlock pid dst)) ;;;
  vop (on_ent src (set_filename (name_buffer name))) ;;;
  vop (emake now pdst src off) ;;;
  x <-- ent_of src ;;
  whenM (negb (e_parent x =? pdst)) (lop (λ pid, eunlock pid pdst ;;; elock pid (e_parent x))) ;;;
  lop (λ pid, eremove src ;;; eunlock pid (e_parent x)) ;;;
  vop (edup pdst) ;;;
  vop (on_ent src (λ y, set_e_valid 1 (set_e_off off (set_e_parent pdst y)))) ;;;
  lop (λ pid, eunlock pid src ;;; eput pid (e_parent x)) ;;;
  whenM (negb (dst =? NULL)) (lop (λ pid, eput pid dst)) ;;;
  lop (λ pid, eput pid pdst ;;; eput pid src) ;;;
  mretM 0.
(** [off0] is the old contents of the local [off], which a lookup that finds the
    name does not set. *)
Definition sys_rename (off0 : Z) : M (sys D) Z :=
  r <-- argpath 0 ;;
  if r.1 <? 0 then mretM (-1)
  else
    r2 <-- argpath 1 ;;
    if r2.1 <? 0 then mretM (-1)
    else
      dir <-- my_cwd ;;
      src <-- lop (λ pid, ename pid dir r.2) ;;
      if src =? NULL then rename_fail false NULL NULL NULL
      else
        q <-- lop (λ pid, enameparent pid dir r2.2 r.2) ;;
        let '(pdst, base) := q in
        if pdst =? NULL then rename_fail false src NULL NULL
        else
          match formatname base with
          | None => rename_fail false src NULL pdst
          | Some name =>
              ent <-- vop (gets v_ent) ;;
              match under (S ring_fuel) ent src pdst with
              | None => panic "fuel"
              | Some true => rename_fail false src NULL pdst
              | Some false =>
                  lop (λ pid, elock pid src ;;; elock pid pdst) ;;;
                  d <-- lop (λ pid, dirlookup pid pdst name) ;;
                  let '(dst, poff) := d in
                  let off := default off0 poff in
                  if dst =? NULL then rename_move src NULL pdst off name
                  else
                    lop (λ pid, eunlock pid pdst) ;;;
                    if src =? dst then rename_fail true src dst pdst
                    else
                      x <-- ent_of src ;;
                      y <-- ent_of dst ;;
                      if has (Z.land (attribute x) (attribute y)) ATTR_DIRECTORY then
                        lop (λ pid, elock pid dst) ;;;
                        empty <-- isdirempty dst ;;
                        if negb empty then lop (λ pid, eunlock pid dst) ;;; rename_fail true src dst pdst
                        else lop (λ pid, elock pid pdst) ;;; rename_move src dst pdst off name
                      else rename_fail true src dst pdst
              end
          end.
End Sysfile.
