(* ===== verification/SysfileProps.v ===== *)
(** * Properties of the file system calls

    The file system never touches the descriptors of a process; every call keeps
    the balance of descriptors and reference counts; reads and writes of an open
    file move exactly the bytes of the file between the disk and user memory. *)
From stdpp Require Import prelude list strings.
From Stdlib Require Import ZArith Lia.
From S2P Require Import Prelude ProcLife Frame Riscv Kalloc VM PageTable PageTableOps UserCopy Vma Pipe File Fat FatProps Calendar FatNames FatFile FatFileProps FatDir FatDirProps ProcDefs Proc Syscall Sysfile.
Open Scope Z_scope.

(** ** Directory operations leave the caller's memory and processes alone *)
Section Vfs.
Context {D U : Type} {SD : Sectors D} {UM : UserMem U}.
Context (now : rtc_time) (me : Z).
Notation R := (same (v_mem (D:=D) (U:=U))).

Lemma keeps_fat_op {A} (c : M (fatfs D) A) : keeps R (fat_op c).
Proof. apply (keeps_zoom _ (λ _ _, True)); [apply keeps_any|done]. Qed.
Lemma keeps_on_ent e f : keeps R (on_ent e f).
Proof. by apply keeps_modify. Qed.
Lemma keeps_get_ent e : keeps R (get_ent e).
Proof. apply keeps_gets, _. Qed.
Lemma keeps_get_geo : keeps R get_geo.
Proof. apply keeps_gets, _. Qed.
Lemma keeps_get_valid e : keeps R (get_valid e).
Proof. apply keeps_gets, _. Qed.
Lemma keeps_set_links f : keeps R (set_links f).
Proof. by apply keeps_modify. Qed.
#[local] Hint Resolve keeps_fat_op keeps_on_ent keeps_get_ent keeps_get_geo keeps_get_valid keeps_set_links : keeps.

Lemma keeps_rw_loop fuel wr bs base sec off tot n acc : keeps R (rw_loop fuel wr (Var bs) base sec off tot n acc).
Proof. revert sec off tot acc. induction fuel; intros; cbn [rw_loop fetch deliver]; keeps_auto. Qed.
#[local] Hint Resolve keeps_rw_loop : keeps.
Lemma keeps_rw_clus c wr bs base off n : keeps R (rw_clus c wr (Var bs) base off n).
Proof. unfold rw_clus. keeps_auto. Qed.
Lemma keeps_reloc_forward n e alloc : keeps R (reloc_forward n e alloc).
Proof. induction n; cbn [reloc_forward]; keeps_auto. Qed.
Lemma keeps_reloc_again n e : keeps R (reloc_again n e).
Proof. induction n; cbn [reloc_again]; keeps_auto. Qed.
#[local] Hint Resolve keeps_rw_clus keeps_reloc_forward keeps_reloc_again : keeps.
Lemma keeps_reloc_clus e off alloc : keeps R (reloc_clus e off alloc).
Proof. unfold reloc_clus. keeps_auto. Qed.
Lemma keeps_etrunc e : keeps R (etrunc e).
Proof. unfold etrunc. keeps_auto. Qed.
Lemma keeps_eget p name : keeps R (eget p name).
Proof. unfold eget. keeps_auto. Qed.
Lemma keeps_edup e : keeps R (edup e).
Proof. unfold edup. keeps_auto. Qed.
Lemma keeps_elock e : keeps R (elock me e).
Proof. unfold elock, acquire_ent. keeps_auto. Qed.
Lemma keeps_acquire_ent e : keeps R (acquire_ent me e).
Proof. unfold acquire_ent. keeps_auto. Qed.
Lemma keeps_eunlock e : keeps R (eunlock me e).
Proof. unfold eunlock. keeps_auto. Qed.
#[local] Hint Resolve keeps_reloc_clus keeps_etrunc keeps_eget keeps_edup keeps_elock keeps_acquire_ent keeps_eunlock : keeps.
Lemma keeps_dir_read dp off n : keeps R (dir_read dp off n).
Proof. unfold dir_read. keeps_auto. Qed.
Lemma keeps_dir_write dp off bs : keeps R (dir_write dp off bs).
Proof. unfold dir_write. keeps_auto. Qed.
#[local] Hint Resolve keeps_dir_read keeps_dir_write : keeps.
Lemma keeps_eupdate e : keeps R (eupdate e).
Proof. unfold eupdate. keeps_auto. Qed.
Lemma keeps_eremove_loop n dp off off2 : keeps R (eremove_loop n dp off off2).
Proof. revert off off2. induction n; intros; cbn [eremove_loop]; keeps_auto. Qed.
#[local] Hint Resolve keeps_eupdate keeps_eremove_loop : keeps.
Lemma keeps_eremove e : keeps R (eremove e).
Proof. unfold eremove. keeps_auto. Qed.
Lemma keeps_eput_loop fuel e : keeps R (eput_loop me fuel e).
Proof. revert e. induction fuel; intros; cbn [eput_loop]; keeps_auto. Qed.
Lemma keeps_eput e : keeps R (eput me e).
Proof. apply keeps_eput_loop. Qed.
Lemma keeps_enext_loop fuel dp ep off cnt open count : keeps R (enext_loop fuel dp ep off cnt open count).
Proof. revert off cnt open count. induction fuel; intros; cbn [enext_loop]; keeps_auto. Qed.
#[local] Hint Resolve keeps_eremove keeps_eput keeps_enext_loop : keeps.
Lemma keeps_enext dp ep off count : keeps R (enext dp ep off count).
Proof. unfold enext. keeps_auto. Qed.
#[local] Hint Resolve keeps_enext : keeps.
Lemma keeps_dirlookup_loop fuel dp ep name off count : keeps R (dirlookup_loop fuel dp ep name off count).
Proof. revert off count. induction fuel; intros; cbn [dirlookup_loop]; keeps_auto. Qed.
#[local] Hint Resolve keeps_dirlookup_loop : keeps.
Lemma keeps_dirlookup dp name : keeps R (dirlookup me dp name).
Proof. unfold dirlookup. keeps_auto. Qed.
Lemma keeps_emake_scan fuel dp off count short : keeps R (emake_scan fuel dp off count short).
Proof. revert off count. induction fuel; intros; cbn [emake_scan]; keeps_auto. Qed.
#[local] Hint Resolve keeps_dirlookup keeps_emake_scan : keeps.
Lemma keeps_emake_short fuel dp num base short : keeps R (emake_short fuel dp num base short).
Proof. revert num short. induction fuel; intros; cbn [emake_short]; keeps_auto. Qed.
Lemma keeps_emake_longs i n dp off name ck : keeps R (emake_longs i n dp off name ck).
Proof. revert off. induction i; intros; cbn [emake_longs]; keeps_auto. Qed.
#[local] Hint Resolve keeps_emake_short keeps_emake_longs : keeps.
Lemma keeps_emake dp ep off : keeps R (emake now dp ep off).
Proof. unfold emake. set (n := Z.to_nat 9999). clearbody n. keeps_auto. Qed.
Lemma keeps_unique_loop fuel dp i name off : keeps R (unique_loop me fuel dp i name off).
Proof. revert i off. induction fuel; intros; cbn [unique_loop]; keeps_auto. Qed.
#[local] Hint Resolve keeps_emake keeps_unique_loop : keeps.
Lemma keeps_ealloc dp name attr : keeps R (ealloc now me dp name attr).
Proof. unfold ealloc. set (n := Z.to_nat 9999). clearbody n. keeps_auto. Qed.
Lemma keeps_lookup_loop fuel e path parent name : keeps R (lookup_loop me fuel e path parent name).
Proof. revert e path name. induction fuel; intros; cbn [lookup_loop]; keeps_auto. Qed.
#[local] Hint Resolve keeps_ealloc keeps_lookup_loop : keeps.
Lemma keeps_lookup_path dir path parent name : keeps R (lookup_path me dir path parent name).
Proof. unfold lookup_path. keeps_auto. Qed.
#[local] Hint Resolve keeps_lookup_path : keeps.
Lemma keeps_ename dir path : keeps R (ename me dir path).
Proof. unfold ename. keeps_auto. Qed.
End Vfs.

#[export] Hint Resolve keeps_fat_op keeps_on_ent keeps_get_ent keeps_get_geo keeps_etrunc keeps_edup keeps_elock keeps_eunlock
  keeps_eremove keeps_eput keeps_enext keeps_dirlookup keeps_emake keeps_ealloc keeps_lookup_path keeps_ename keeps_reloc_clus : keeps.

(** ** Descriptors and references *)
Definition fds (k : kern ()) (i : Z) : list Z := ofile (procs k i).
Definition same_fds : relation (kern ()) := λ k k', ∀ i, fds k' i = fds k i.
#[export] Instance same_fds_preorder : PreOrder same_fds.
Proof. split; [done|]. intros x y z E1 E2 i. by rewrite E2. Qed.
Definition io_kern {D} (s : io D) : kern () := v_mem (io_fs s).
Definition io_same_fds {D} : relation (io D) := λ s s', same_fds (io_kern s) (io_kern s').
#[export] Instance io_same_fds_preorder D : PreOrder (@io_same_fds D).
Proof. split; [intros s i; done|]. intros x y z E1 E2 i. by rewrite (E2 i). Qed.
Definition sys_kern {D} (s : sys D) : kern () := io_kern (back s).
(** The open files and all descriptors are unchanged. *)
Definition same_files {D} : relation (sys D) := λ s s',
  (∀ f, f_ref (ftab s' f) = f_ref (ftab s f)) ∧ io_same_fds (back s) (back s').
#[export] Instance same_files_preorder D : PreOrder (@same_files D).
Proof.
  split; [intros s; split; [done|intros i; done]|]. intros x y z [A1 B1] [A2 B2].
  split; [intros f; by rewrite A2|intros i; by rewrite (B2 i)].
Qed.

Section Calls.
Context `{LAY : Layout} {D : Type} {SD : Sectors D}.
Context (now : rtc_time) (me : Z) (pad : list Z).
Context (piperead_u pipewrite_u : Z → Z → Z → M (io D) Z).
Context (dev_read_u dev_write_u : Z → option (Z → Z → M (io D) Z)).
#[local] Instance my_mem : UserMem (kern ()) := kern_mem me.
#[local] Instance my_backend : Backend (io D) := io_backend now me pad piperead_u pipewrite_u dev_read_u dev_write_u.

(** The blocking reads and writes of pipes and devices leave descriptors alone. *)
Record streams_ok : Prop := {
  so_piperead : ∀ a b c, keeps io_same_fds (piperead_u a b c);
  so_pipewrite : ∀ a b c, keeps io_same_fds (pipewrite_u a b c);
  so_devread : ∀ d f a n, dev_read_u d = Some f → keeps io_same_fds (f a n);
  so_devwrite : ∀ d f a n, dev_write_u d = Some f → keeps io_same_fds (f a n) }.
Context (Hst : streams_ok).

Lemma keeps_vio {A} (c : M (vfs D (kern ())) A) : keeps (same v_mem) c → keeps io_same_fds (vio c).
Proof. intros Hc. eapply keeps_zoom; [exact Hc|]. intros s v E i. unfold io_kern. cbn [io_fs]. by rewrite E. Qed.
Lemma keeps_vio_fds {A} (c : M (vfs D (kern ())) A) :
  keeps (λ s s', same_fds (v_mem s) (v_mem s')) c → keeps io_same_fds (vio c).
Proof. intros Hc. eapply keeps_zoom; [exact Hc|]. by intros s v E. Qed.
Lemma keeps_kio {A} (c : M (kern ()) A) : keeps same_fds c → keeps io_same_fds (kio c : M (io D) A).
Proof. intros Hc. eapply keeps_zoom; [eapply keeps_zoom with (R := λ s s' : vfs D (kern ()), same_fds (v_mem s) (v_mem s')); [exact Hc|]|]; done. Qed.
Lemma keeps_my_pid : keeps io_same_fds (my_pid me : M (io D) Z).
Proof. apply keeps_kio. unfold get_proc. keeps_auto. Qed.
Lemma keeps_lio {A} (c : Z → M (vfs D (kern ())) A) : (∀ pid, keeps (same v_mem) (c pid)) → keeps io_same_fds (lio me c).
Proof. intros Hc. apply keeps_bind; [apply _|apply keeps_my_pid|]. intros pid. by apply keeps_vio. Qed.
Lemma keeps_back {A} (c : M (io D) A) : keeps io_same_fds c → keeps same_files (back_op c).
Proof. intros Hc. eapply keeps_zoom; [exact Hc|]. intros s b E. by split. Qed.
Lemma keeps_mem_op {A} (c : M kst A) : keeps same_fds (mem_op c).
Proof. apply (keeps_zoom _ (λ _ _, True)); [apply keeps_any|done]. Qed.
Lemma keeps_on_proc i f : (∀ p, ofile (f p) = ofile p) → keeps same_fds (on_proc i f).
Proof.
  intros Hf. apply keeps_modify. intros k j. unfold fds, upd. cbn [procs set_procs].
  destruct (Z.eqb_spec j i) as [->|]; [apply Hf|done].
Qed.
Lemma keeps_get_proc i : keeps same_fds (get_proc i).
Proof. apply keeps_gets, _. Qed.
#[local] Hint Resolve keeps_mem_op keeps_get_proc : keeps.
Lemma keeps_argint n : keeps same_fds (argint me n).
Proof. unfold argint, argraw. keeps_auto. Qed.
Lemma keeps_argaddr n : keeps same_fds (argaddr me n).
Proof. unfold argaddr, argraw. keeps_auto. Qed.
Lemma keeps_argstr n max : keeps same_fds (argstr me n max).
Proof. unfold argstr, argaddr, argraw, fetchstr. keeps_auto. Qed.
Lemma keeps_wakeup c : keeps same_fds (wakeup c).
Proof. unfold wakeup. keeps_auto. by apply keeps_on_proc. Qed.
Lemma keeps_copyout_me a bs : keeps same_fds (copyout_me me a bs).
Proof. unfold copyout_me. keeps_auto. Qed.
#[local] Hint Resolve keeps_argint keeps_argaddr keeps_argstr keeps_wakeup keeps_copyout_me : keeps.
#[local] Hint Resolve keeps_vio keeps_kio keeps_lio keeps_back keeps_my_pid : keeps.

Lemma keeps_pipeclose pi w : keeps io_same_fds (pipeclose_io pi w : M (io D) unit).
Proof. unfold pipeclose_io. keeps_auto. by apply keeps_modify. Qed.
Lemma keeps_locked {A} e (c : M (vfs D (kern ())) A) :
  keeps (λ s s', same_fds (v_mem s) (v_mem s')) c → keeps io_same_fds (locked me e c).
Proof.
  intros Hc. unfold locked, lio. apply keeps_bind; [apply _|apply keeps_my_pid|]. intros pid. apply keeps_vio_fds.
  assert (PreOrder (λ s s' : vfs D (kern ()), same_fds (v_mem s) (v_mem s'))).
  { split; [intros s i; done|]. intros x y z E1 E2 i. by rewrite (E2 i). }
  assert (∀ B (c : M (vfs D (kern ())) B), keeps (same v_mem) c → keeps (λ s s', same_fds (v_mem s) (v_mem s')) c) as Hi.
  { intros B c'. apply keeps_impl. intros s s' E. by rewrite E. }
  apply keeps_bind; [done|apply Hi, keeps_elock|]. intros _. apply keeps_bind; [done..|]. intros a.
  apply keeps_bind; [done|apply Hi, keeps_eunlock|]. intros _. by apply keeps_ret.
Qed.

(** ** The balance of a file: references less descriptors of the caller *)
Definition uses (l : list Z) (f : Z) : Z := Z.of_nat (length (filter (λ g, g = f) l)).
Definition bal (s : sys D) (f : Z) : Z := f_ref (ftab s f) - uses (fds (sys_kern s) me) f.
Definition one (f g : Z) : Z := if g =? f then 1 else 0.

(** The step from [s] to [s'] moves the balances by [d] and touches no other
    process. *)
Record moves (d : Z → Z) (s s' : sys D) : Prop := {
  mo_bal : ∀ f, f ∈ file_ids → bal s' f = bal s f + d f;
  mo_other : ∀ i, i ≠ me → fds (sys_kern s') i = fds (sys_kern s) i;
  mo_len : length (fds (sys_kern s') me) = length (fds (sys_kern s) me) }.

Lemma moves_trans d1 d2 d s s1 s2 :
  moves d1 s s1 → moves d2 s1 s2 → (∀ f, f ∈ file_ids → d f = d1 f + d2 f) → moves d s s2.
Proof.
  intros [A1 B1 C1] [A2 B2 C2] Hd. split.
  - intros f Hf. rewrite A2, A1, Hd by done. lia.
  - intros i Hi. by rewrite B2, B1.
  - congruence.
Qed.
Lemma moves_same s s' : same_files s s' → moves (λ _, 0) s s'.
Proof.
  intros [A B]. split.
  - intros f _. unfold bal, sys_kern. rewrite A, (B me). lia.
  - intros i _. apply B.
  - unfold sys_kern. by rewrite (B me).
Qed.
Lemma moves_refl s : moves (λ _, 0) s s.
Proof. apply moves_same. reflexivity. Qed.

Definition with_fds (l : list Z) (s : sys D) : sys D :=
  let k := sys_kern s in
  Ftable (ftab s) (Io (with_mem (set_procs (upd (procs k) me (set_ofile l (procs k me))) k) (io_fs (back s))) (io_pipes (back s))).
Lemma set_fd_run fd f s : set_fd me fd f s = Ok tt (with_fds (<[fd := f]> (fds (sys_kern s) me)) s).
Proof. done. Qed.
Lemma fds_with l s i : fds (sys_kern (with_fds l s)) i = if i =? me then l else fds (sys_kern s) i.
Proof. unfold fds, sys_kern, io_kern, with_fds, upd. cbn. unfold upd. by destruct (i =? me). Qed.

Lemma uses_insert l i f g h :
  l !! i = Some g → uses (<[i := f]> l) h = uses l h - one h g + one h f.
Proof.
  intros Hi. unfold uses, one. rewrite insert_take_drop by (by eapply lookup_lt_Some).
  rewrite <- (take_drop_middle l i g Hi) at 3. rewrite !filter_app, !length_app.
  rewrite !filter_cons. repeat case_decide; subst; rewrite ?Z.eqb_refl; cbn [length];
    repeat match goal with H : _ ≠ _ |- _ => rewrite (proj2 (Z.eqb_neq _ _) H); clear H end; lia.
Qed.
Lemma moves_set_fd s fd f g :
  fds (sys_kern s) me !! fd = Some g →
  moves (λ h, one h g - one h f) s (with_fds (<[fd := f]> (fds (sys_kern s) me)) s).
Proof.
  intros Hfd. split.
  - intros h _. unfold bal. rewrite fds_with, Z.eqb_refl, (uses_insert _ _ _ g) by done. cbn [ftab with_fds]. lia.
  - intros i Hi. by rewrite fds_with, (proj2 (Z.eqb_neq i me)).
  - by rewrite fds_with, Z.eqb_refl, length_insert.
Qed.

Lemma free_fd_spec l fd : free_fd l = Some fd → l !! fd = Some 0 ∧ ∀ i f, (i < fd)%nat → l !! i = Some f → f ≠ 0.
Proof.
  revert fd. induction l as [|f l IH]; intros fd; cbn [free_fd]; [done|]. destruct (Z.eqb_spec f 0) as [->|Hf].
  - intros [= <-]. split; [done|]. intros i g Hi. lia.
  - destruct (free_fd l) as [k|] eqn:E; [|done]. intros [= <-]. destruct (IH k eq_refl) as [H1 H2].
    split; [done|]. intros [|i] g Hi; cbn; [by intros [= <-]|]. apply H2. lia.
Qed.
Lemma free_fd_none l : free_fd l = None → ∀ i f, l !! i = Some f → f ≠ 0.
Proof.
  induction l as [|f l IH]; cbn [free_fd]; [done|]. destruct (Z.eqb_spec f 0) as [->|Hf]; [done|].
  destruct (free_fd l) as [k|] eqn:E; [done|]. intros _ [|i] g; cbn; [by intros [= <-]|]. by apply IH.
Qed.
Lemma fdalloc_run f s : fdalloc me f s =
  match free_fd (take NOFILE (fds (sys_kern s) me)) with
  | Some fd => Ok (Z.of_nat fd) (with_fds (<[fd := f]> (fds (sys_kern s) me)) s)
  | None => Ok (-1) s
  end.
Proof.
  unfold fdalloc, mbindM at 1, kop, kio, vio, um_op, back_op, zoom, get_proc, gets. cbn [mbindM].
  destruct s as [ft [v pi]], v. cbn. unfold fds. by destruct (free_fd _).
Qed.
Lemma fdalloc_moves f s r s' :
  fdalloc me f s = Ok r s' →
  (r = -1 ∧ s' = s) ∨
  (∃ fd : nat, r = Z.of_nat fd ∧ fds (sys_kern s) me !! fd = Some 0 ∧
     s' = with_fds (<[fd := f]> (fds (sys_kern s) me)) s ∧ moves (λ h, one h 0 - one h f) s s').
Proof.
  rewrite fdalloc_run. destruct (free_fd _) as [fd|] eqn:E; intros [= <- <-]; [right|by left].
  apply free_fd_spec in E as [E _]. apply lookup_take_Some in E as [E _].
  exists fd. repeat (split; [done|]). by apply moves_set_fd.
Qed.

Lemma one_0 h : h ∈ file_ids → one h 0 = 0.
Proof. intros H. apply file_ids_pos in H. unfold one. destruct (Z.eqb_spec 0 h); lia. Qed.
Lemma sys_kern_set_file f x (s : sys D) : sys_kern (set_file f x s) = sys_kern s.
Proof. done. Qed.
Lemma bal_set_file f x s h : bal (set_file f x s) h = bal s h + (if h =? f then f_ref x - f_ref (ftab s f) else 0).
Proof.
  unfold bal, set_file, sys_kern. cbn [ftab back]. unfold upd. destruct (Z.eqb_spec h f) as [->|]; lia.
Qed.
Lemma moves_set_file f x s : moves (λ h, one h f * (f_ref x - f_ref (ftab s f))) s (set_file f x s).
Proof.
  split; [|done..]. intros h _. rewrite bal_set_file. unfold one. rewrite (Z.eqb_sym f h). destruct (h =? f); lia.
Qed.
Lemma moves_ext d d' s s' : (∀ f, f ∈ file_ids → d f = d' f) → moves d s s' → moves d' s s'.
Proof. intros Hd [A B C]. split; try done. intros f Hf. by rewrite A, Hd. Qed.

Lemma filealloc_moves s f s' :
  filealloc s = Ok f s' →
  (f = 0 ∧ s' = s) ∨ (f ∈ file_ids ∧ back s' = back s ∧ f_ref (ftab s f) = 0 ∧ f_ref (ftab s' f) = 1 ∧ moves (λ h, one h f) s s').
Proof.
  unfold filealloc, mbindM, gets, id, modify, mretM. pose proof (find_file_spec (ftab s) file_ids file_ids_pos) as H.
  set (f0 := find_file (ftab s) file_ids) in *. clearbody f0. destruct H as [[-> _]|(E & Hin & Hr)].
  - intros [= <- <-]. by left.
  - rewrite (proj2 (Z.eqb_neq _ _)) by lia. intros [= <- <-]. right. split; [done|]. split; [done|]. split; [done|].
    split; [cbn [ftab set_file]; by rewrite upd_eq|]. eapply moves_ext; [|apply moves_set_file]. intros h _. cbn [f_ref with_ref]. rewrite Hr. lia.
Qed.
Lemma filedup_moves f s s' : f_ref (ftab s f) < 2 ^ 31 - 1 → filedup f s = Ok tt s' → moves (λ h, one h f) s s'.
Proof.
  intros Hb. unfold filedup, mbindM, gets, modify. destruct (Z.ltb_spec (f_ref (ftab s f)) 1); [done|]. intros [= <-].
  eapply moves_ext; [|apply moves_set_file]. intros h _. cbn. rewrite i32_small by lia. lia.
Qed.
Lemma keeps_eput_back e : keeps io_same_fds (lio me (λ pid, eput pid e) : M (io D) unit).
Proof. apply keeps_lio. intros pid. apply keeps_eput. Qed.
Lemma keeps_back_io {A} (c : M (io D) A) : keeps io_same_fds c → keeps (λ s s', ftab s' = ftab s ∧ io_same_fds (back s) (back s')) (back_op c).
Proof. intros Hc. eapply keeps_zoom; [exact Hc|]. by intros s b E. Qed.
Lemma fileclose_moves f s s' :
  fileclose f s = Ok tt s' → moves (λ h, - one h f) s s' ∧ io_same_fds (back s) (back s').
Proof.
  unfold fileclose, mbindM at 1, gets at 1. destruct (Z.ltb_spec (f_ref (ftab s f)) 1); [done|].
  destruct (Z.ltb_spec 0 (f_ref (ftab s f) - 1)).
  - intros [= <-]. split; [|intros i; done]. eapply moves_ext; [|apply moves_set_file]. intros h _. cbn. lia.
  - intros (a & s1 & [= <- <-] & E)%mbindM_inv. set (s1 := set_file f _ s) in *.
    assert (moves (λ h, - one h f) s s1) as Hm.
    { eapply moves_ext; [|apply moves_set_file]. intros h _. cbn [f_ref with_ref with_type].
      assert (f_ref (ftab s f) = 1) as -> by lia. lia. }
    assert (ftab s' = ftab s1 ∧ io_same_fds (back s1) (back s')) as [E1 E2].
    { destruct (f_type (ftab s f)).
      - injection E as <-. split; [done|intros i; done].
      - eapply (keeps_back_io _ (keeps_pipeclose _ _)); exact E.
      - eapply (keeps_back_io _ (keeps_eput_back _)); exact E.
      - injection E as <-. split; [done|intros i; done]. }
    split; [|done]. eapply moves_trans; [exact Hm|apply moves_same; split; [intros g; by rewrite E1|done]|]. intros h _. cbn. lia.
Qed.

(** Calls that open, duplicate and close descriptors. *)
Lemma same_moves {A} (c : M (sys D) A) s a s' : keeps same_files c → c s = Ok a s' → moves (λ _, 0) s s'.
Proof. intros Hc E. apply moves_same. by eapply Hc. Qed.

Lemma argfd_spec n (s : sys D) r s' : argfd me n s = Ok r s' →
  s' = s ∧ match r with None => True | Some (fd, f) =>
    f ≠ 0 ∧ 0 ≤ fd < Z.of_nat NOFILE ∧ nth (Z.to_nat fd) (fds (sys_kern s) me) 0 = f end.
Proof.
  unfold argfd, argint, argraw. intros (v & s1 & E1 & E)%mbindM_inv.
  assert (s1 = s) as ->.
  { revert E1. unfold kop, kio, vio, um_op, back_op, zoom, mbindM, get_proc, gets, mem_op. destruct s as [ft [w pi]], w, v_mem. cbn.
    destruct (_ && _); cbn; [|done]. by intros [= _ <-]. }
  apply mbindM_inv in E as (p & s1 & E2 & E). assert (s1 = s ∧ p = procs (sys_kern s) me) as [-> ->].
  { revert E2. unfold kop, kio, vio, um_op, back_op, zoom, get_proc, gets. destruct s as [ft [w pi]], w. cbn. by intros [= <- <-]. }
  destruct ((v <? 0) || (Z.of_nat NOFILE <=? v)) eqn:Ev; [by injection E as <- <-|]. bool_prop.
  fold (fds (sys_kern s) me) in E. destruct (Z.eqb_spec (nth (Z.to_nat v) (fds (sys_kern s) me) 0) 0).
  - by injection E as <- <-.
  - injection E as <- <-. split; [done|]. split; [done|]. split; [lia|done].
Qed.
Lemma nth_fd l i f : nth i l 0 = f → f ≠ 0 → l !! i = Some f.
Proof. intros E Hf. rewrite nth_lookup in E. destruct (l !! i) as [g|]; cbn in E; [by subst|done]. Qed.

Lemma sys_dup_moves (s : sys D) r s' : (∀ f, f_ref (ftab s f) < 2 ^ 31 - 1) → sys_dup me s = Ok r s' → moves (λ _, 0) s s'.
Proof.
  intros Hb. unfold sys_dup. intros (a & s1 & E1 & E)%mbindM_inv. apply argfd_spec in E1 as [-> Ha].
  destruct a as [[fd f]|]; [|injection E as <- <-; apply moves_refl]. destruct Ha as (Hf & _ & _).
  apply mbindM_inv in E as (r1 & s1 & E1 & E). apply fdalloc_moves in E1 as [[-> ->]|(n & -> & _ & -> & Hm)].
  { injection E as <- <-. apply moves_refl. }
  rewrite (proj2 (Z.ltb_ge _ _)) in E by lia. apply mbindM_inv in E as ([] & s2 & E2 & E). injection E as <- <-.
  eapply moves_trans; [exact Hm|eapply filedup_moves; [apply Hb|exact E2]|]. intros h Hh. cbn. rewrite one_0 by done. lia.
Qed.
Lemma sys_close_moves (s : sys D) r s' : sys_close now me pad piperead_u pipewrite_u dev_read_u dev_write_u s = Ok r s' → moves (λ _, 0) s s'.
Proof.
  unfold sys_close. intros (a & s1 & E1 & E)%mbindM_inv. apply argfd_spec in E1 as [-> Ha].
  destruct a as [[fd f]|]; [|injection E as <- <-; apply moves_refl]. destruct Ha as (Hf & _ & Hn).
  apply nth_fd in Hn; [|done]. rewrite (mbindM_Ok _ _ _ _ _ (set_fd_run _ _ _)) in E.
  apply mbindM_inv in E as ([] & s2 & E2 & E). injection E as <- <-. apply fileclose_moves in E2 as [Hm _].
  eapply moves_trans; [by apply (moves_set_fd s (Z.to_nat fd) 0 f)|exact Hm|]. intros h Hh. cbn. rewrite one_0 by done. lia.
Qed.

Notation balanced := (moves (λ _, 0)).
#[local] Instance balanced_preorder : PreOrder balanced.
Proof. split; [intros s; apply moves_refl|]. intros x y z H1 H2. by eapply moves_trans. Qed.
Lemma keeps_balanced {A} (c : M (sys D) A) : keeps same_files c → keeps balanced c.
Proof. apply keeps_impl. intros s s'. apply moves_same. Qed.
Lemma keeps_on_file f g : (∀ x, f_ref (g x) = f_ref x) → keeps balanced (on_file f g : M (sys D) unit).
Proof.
  intros Hg. apply keeps_balanced, keeps_modify. intros s. split; [|intros i; done]. intros h. cbn. unfold upd.
  destruct (Z.eqb_spec h f) as [->|]; [apply Hg|done].
Qed.
Lemma keeps_kop {A} (c : M (kern ()) A) : keeps same_fds c → keeps balanced (kop c : M (sys D) A).
Proof. intros Hc. by apply keeps_balanced, keeps_back, keeps_kio. Qed.
Lemma keeps_vop {A} (c : M (vfs D (kern ())) A) : keeps (same v_mem) c → keeps balanced (vop c).
Proof. intros Hc. by apply keeps_balanced, keeps_back, keeps_vio. Qed.
Lemma keeps_lop {A} (c : Z → M (vfs D (kern ())) A) : (∀ pid, keeps (same v_mem) (c pid)) → keeps balanced (lop me c).
Proof. intros Hc. by apply keeps_balanced, keeps_back, keeps_lio. Qed.
Lemma keeps_ent_of e : keeps balanced (ent_of e : M (sys D) dirent).
Proof. apply keeps_vop, keeps_get_ent. Qed.
Lemma keeps_my_cwd : keeps balanced (my_cwd me : M (sys D) Z).
Proof. apply keeps_kop. keeps_auto. Qed.
Lemma keeps_argpath n : keeps balanced (argpath me n : M (sys D) _).
Proof. unfold argpath. apply keeps_bind; [apply _|apply keeps_kop; keeps_auto|]. intros r. apply keeps_ret, _. Qed.
Lemma keeps_get_file f : keeps balanced (get_file f : M (sys D) file).
Proof. apply keeps_gets, _. Qed.
(** Solves [keeps] of a sequence of directory operations. *)
Ltac keeps_vfs := first
  [ apply keeps_ent_of | apply keeps_my_cwd | apply keeps_argpath | apply keeps_get_file | by apply keeps_on_file
  | apply keeps_kop; keeps_auto | apply keeps_vop; keeps_auto | apply keeps_lop; intros ?; keeps_auto ].
Ltac keeps_sys := repeat first [keeps_vfs | keeps_step].

Lemma keeps_create path type mode : keeps balanced (create now me path type mode : M (sys D) Z).
Proof. unfold create, enameparent. keeps_sys. Qed.
#[local] Hint Resolve keeps_create : keeps.
Lemma keeps_open_entry path omode : keeps balanced (open_entry now me path omode : M (sys D) Z).
Proof. unfold open_entry. keeps_sys. Qed.
Lemma file_and_fd_moves s r s' :
  file_and_fd now me pad piperead_u pipewrite_u dev_read_u dev_write_u s = Ok r s' → balanced s s'.
Proof.
  unfold file_and_fd. intros (f & s1 & E1 & E)%mbindM_inv. apply filealloc_moves in E1 as [[-> ->]|(Hf & _ & _ & _ & Hm)].
  { injection E as <- <-. apply moves_refl. }
  pose proof (file_ids_pos _ Hf). rewrite (proj2 (Z.eqb_neq f 0)) in E by lia.
  apply mbindM_inv in E as (fd & s2 & E2 & E). apply fdalloc_moves in E2 as [[-> ->]|(n & -> & _ & -> & Hm2)].
  - apply mbindM_inv in E as ([] & s3 & E3 & E). injection E as <- <-. apply fileclose_moves in E3 as [Hc _].
    eapply moves_trans; [exact Hm|exact Hc|]. intros h _. cbn. lia.
  - rewrite (proj2 (Z.ltb_ge _ _)) in E by lia. injection E as <- <-.
    eapply moves_trans; [exact Hm|exact Hm2|]. intros h Hh. cbn. rewrite one_0 by done. lia.
Qed.
Lemma keeps_file_and_fd : keeps balanced (file_and_fd now me pad piperead_u pipewrite_u dev_read_u dev_write_u : M (sys D) _).
Proof. intros s a s'. apply file_and_fd_moves. Qed.
#[local] Hint Resolve keeps_open_entry keeps_file_and_fd : keeps.
Lemma sys_open_keeps : keeps balanced (sys_open now me pad piperead_u pipewrite_u dev_read_u dev_write_u : M (sys D) Z).
Proof. unfold sys_open. keeps_sys. Qed.
Lemma sys_dev_keeps : keeps balanced (sys_dev now me pad piperead_u pipewrite_u dev_read_u dev_write_u : M (sys D) Z).
Proof. unfold sys_dev. keeps_sys. Qed.
Lemma sys_mkdir_keeps : keeps balanced (sys_mkdir now me : M (sys D) Z).
Proof. unfold sys_mkdir. keeps_sys. Qed.
Lemma sys_chdir_keeps : keeps balanced (sys_chdir me : M (sys D) Z).
Proof. unfold sys_chdir. keeps_sys. by apply keeps_on_proc. Qed.
Lemma sys_getcwd_keeps : keeps balanced (sys_getcwd me : M (sys D) Z).
Proof. unfold sys_getcwd. keeps_sys. Qed.
Lemma isdirempty_keeps dp : keeps balanced (isdirempty me dp : M (sys D) bool).
Proof. unfold isdirempty. keeps_sys. Qed.
#[local] Hint Resolve isdirempty_keeps : keeps.
Lemma sys_remove_keeps : keeps balanced (sys_remove me : M (sys D) Z).
Proof. unfold sys_remove. keeps_sys. Qed.
Lemma rename_fail_keeps b src dst pdst : keeps balanced (rename_fail me b src dst pdst : M (sys D) Z).
Proof. unfold rename_fail. keeps_sys. Qed.
Lemma rename_move_keeps src dst pdst off name : keeps balanced (rename_move now me src dst pdst off name : M (sys D) Z).
Proof. unfold rename_move. keeps_sys. Qed.
#[local] Hint Resolve rename_fail_keeps rename_move_keeps : keeps.
Lemma sys_rename_keeps off0 : keeps balanced (sys_rename now me off0 : M (sys D) Z).
Proof. unfold sys_rename, enameparent. keeps_sys. Qed.

(** Transfers to and from user memory. *)
Definition vfs_fds : relation (vfs D (kern ())) := λ s s', same_fds (v_mem s) (v_mem s').
#[local] Instance vfs_fds_preorder : PreOrder vfs_fds.
Proof. split; [intros s i; done|]. intros x y z E1 E2 i. by rewrite (E2 i). Qed.
Lemma vfs_keeps {A} (c : M (vfs D (kern ())) A) : keeps (same v_mem) c → keeps vfs_fds c.
Proof. apply keeps_impl. intros s s' E. unfold vfs_fds. by rewrite E. Qed.
Lemma keeps_um {A} (c : M (kern ()) A) : keeps same_fds c → keeps vfs_fds (um_op c : M (vfs D (kern ())) A).
Proof. intros Hc. eapply keeps_zoom; [exact Hc|]. done. Qed.
Lemma keeps_fetch pl tot m : keeps vfs_fds (fetch pl tot m : M (vfs D (kern ())) _).
Proof. destruct pl as [us a|bs]; cbn [fetch]; [|keeps_auto]. apply keeps_um. cbn. unfold either_copyin. keeps_auto. Qed.
Lemma keeps_deliver pl tot bs : keeps vfs_fds (deliver pl tot bs : M (vfs D (kern ())) _).
Proof. destruct pl as [us a|?]; cbn [deliver]; [|keeps_auto]. apply keeps_um. cbn. unfold either_copyout. keeps_auto. Qed.
Lemma keeps_rw_loop_u fuel wr pl base sec off tot n acc : keeps vfs_fds (rw_loop fuel wr pl base sec off tot n acc : M (vfs D (kern ())) _).
Proof.
  revert sec off tot acc. induction fuel; intros; cbn [rw_loop];
    repeat first [apply keeps_fetch | apply keeps_deliver | apply vfs_keeps, keeps_fat_op | keeps_step].
Qed.
Lemma keeps_io_loop fuel wr e pl off tot n acc : keeps vfs_fds (io_loop fuel wr e pl off tot n acc : M (vfs D (kern ())) _).
Proof.
  revert off tot acc. induction fuel; intros; cbn [io_loop]; unfold rw_clus;
    repeat first [apply keeps_rw_loop_u | apply vfs_keeps, keeps_reloc_clus | apply vfs_keeps, keeps_get_ent
                 | apply vfs_keeps, keeps_get_geo | keeps_step].
Qed.
Lemma keeps_eread e pl off n : keeps vfs_fds (eread e pl off n : M (vfs D (kern ())) _).
Proof. unfold eread. repeat first [apply keeps_io_loop | apply vfs_keeps, keeps_get_ent | keeps_step]. Qed.
Lemma keeps_ewrite e pl off n : keeps vfs_fds (ewrite now e pl off n : M (vfs D (kern ())) _).
Proof.
  unfold ewrite. repeat first [apply keeps_io_loop | apply vfs_keeps, keeps_get_ent | apply vfs_keeps, keeps_fat_op
    | apply vfs_keeps, keeps_on_ent | keeps_step].
Qed.
Lemma keeps_back_b {A} (c : M (io D) A) : keeps io_same_fds c → keeps balanced (back_op c).
Proof. intros Hc. by apply keeps_balanced, keeps_back. Qed.
Lemma fileread_keeps f a n : keeps balanced (fileread f a n : M (sys D) Z).
Proof.
  unfold fileread. apply keeps_bind; [apply _|apply keeps_gets, _|]. intros x. destruct (negb _); [keeps_auto|].
  destruct (f_type x); [keeps_auto| | |].
  - apply keeps_back_b, Hst.
  - apply keeps_bind; [apply _| |].
    + apply keeps_back_b, keeps_locked. apply keeps_bind; [apply vfs_fds_preorder|apply keeps_eread|]. intros r. apply keeps_ret, vfs_fds_preorder.
    + intros r. apply keeps_bind; [apply _| |intros _; keeps_auto]. apply keeps_when; [apply _|]. by apply (keeps_on_file f (with_off _)).
  - destruct (_ || _); [keeps_auto|]. destruct (dev_read (f_major x)) as [rd|] eqn:E; [|keeps_auto]. by eapply keeps_back_b, (so_devread Hst).
Qed.
Lemma filewrite_keeps f a n : keeps balanced (filewrite f a n : M (sys D) Z).
Proof.
  unfold filewrite. apply keeps_bind; [apply _|apply keeps_gets, _|]. intros x. destruct (negb _); [keeps_auto|].
  destruct (f_type x); [keeps_auto| | |].
  - apply keeps_back_b, Hst.
  - apply keeps_bind; [apply _|apply keeps_back_b, keeps_locked, keeps_ewrite|]. intros r. destruct (r =? n); [|keeps_auto].
    apply keeps_bind; [apply _| |intros _; keeps_auto]. by apply (keeps_on_file f (with_off _)).
  - destruct (_ || _); [keeps_auto|]. destruct (dev_write (f_major x)) as [wr|] eqn:E; [|keeps_auto]. by eapply keeps_back_b, (so_devwrite Hst).
Qed.
Lemma filestat_keeps f a : keeps balanced (filestat f a : M (sys D) Z).
Proof.
  unfold filestat. apply keeps_bind; [apply _|apply keeps_gets, _|]. intros x. destruct (f_type x); [keeps_auto|keeps_auto| |keeps_auto].
  apply keeps_bind; [apply _| |intros r; keeps_auto]. apply keeps_back_b. cbn.
  apply keeps_bind; [apply _|apply keeps_locked, (vfs_keeps _ (keeps_get_ent _))|]. intros y. apply keeps_kio. keeps_auto.
Qed.
Lemma dirnext_loop_keeps fuel f e count : keeps balanced (dirnext_loop me fuel f e count : M (sys D) _).
Proof. revert count. induction fuel; intros; cbn [dirnext_loop]; keeps_sys. Qed.
#[local] Hint Resolve fileread_keeps filewrite_keeps filestat_keeps dirnext_loop_keeps : keeps.
Lemma dirnext_keeps f a : keeps balanced (dirnext me pad f a : M (sys D) Z).
Proof. unfold dirnext. keeps_sys. Qed.
Lemma keeps_argfd n : keeps balanced (argfd me n : M (sys D) _).
Proof. intros s r s' E. apply argfd_spec in E as [-> _]. apply moves_refl. Qed.
#[local] Hint Resolve dirnext_keeps keeps_argfd : keeps.

(** [pipealloc]: two files with one reference each and no descriptor, or nothing. *)
Lemma pipealloc_moves s r s' :
  pipealloc now me pad piperead_u pipewrite_u dev_read_u dev_write_u s = Ok r s' →
  io_same_fds (back s) (back s') ∧
  match r with
  | None => balanced s s'
  | Some (f0, f1) => f0 ∈ file_ids ∧ f1 ∈ file_ids ∧ f0 ≠ f1 ∧ moves (λ h, one h f0 + one h f1) s s'
  end.
Proof.
  unfold pipealloc. intros (f0 & s1 & E0 & E)%mbindM_inv.
  apply filealloc_moves in E0 as [[-> ->]|(Hf0 & Hb1 & Hr0 & Hr1 & Hm1)].
  { injection E as <- <-. split; [intros i; done|apply moves_refl]. }
  pose proof (file_ids_pos _ Hf0). rewrite (proj2 (Z.eqb_neq f0 0)) in E by lia.
  apply mbindM_inv in E as (f1 & s2 & E1 & E). apply filealloc_moves in E1 as [[-> ->]|(Hf1 & Hb2 & Hr2 & Hr3 & Hm2)].
  { cbn [orb Z.eqb] in E. rewrite (mbindM_Ok (mretM 0) _ s1 0 s1) in E by done. cbn [orb Z.eqb negb whenM] in E.
    apply mbindM_inv in E as ([] & s3 & E3 & E). rewrite (mbindM_Ok (mretM tt) _ s3 tt s3) in E by done. injection E as <- <-.
    apply fileclose_moves in E3 as [Hc Hs]. split; [by rewrite <- Hb1|]. eapply moves_trans; [exact Hm1|exact Hc|]. intros h _. cbn. lia. }
  pose proof (file_ids_pos _ Hf1). rewrite (proj2 (Z.eqb_neq f1 0)) in E by lia. cbn [orb] in E.
  apply mbindM_inv in E as (pi & s3 & E3 & E).
  pose proof (keeps_back_io _ (keeps_kio _ (keeps_mem_op kalloc)) _ _ _ E3) as [Ht3 Hs3].
  assert (balanced s2 s3) as Hm3 by (apply moves_same; split; [intros f; by rewrite Ht3|done]).
  assert (f0 ≠ f1) as Hne by congruence.
  pose proof (moves_trans _ _ (λ h, one h f0 + one h f1) _ _ _ Hm1 Hm2 ltac:(done)) as H12.
  assert (moves (λ h, one h f0 + one h f1) s s3) as H13 by (eapply moves_trans; [exact H12|exact Hm3|intros h _; cbn; lia]).
  destruct (Z.eqb_spec pi 0) as [->|Hpi].
  - cbn [negb whenM] in E. apply mbindM_inv in E as ([] & s4 & E4 & E). apply mbindM_inv in E as ([] & s5 & E5 & E). injection E as <- <-.
    apply fileclose_moves in E4 as [Hc4 Hs4]. apply fileclose_moves in E5 as [Hc5 Hs5]. split.
    + rewrite <- Hb1, <- Hb2. by do 2 (etrans; [done|]).
    + eapply (moves_trans (λ h, one h f1)); [|exact Hc5|intros h _; cbn; lia].
      eapply moves_trans; [exact H13|exact Hc4|]. intros h _. cbn. lia.
  - apply mbindM_inv in E as ([] & s4 & E4 & E). apply mbindM_inv in E as ([] & s5 & E5 & E). apply mbindM_inv in E as ([] & s6 & E6 & E).
    injection E as <- <-.
    assert (keeps io_same_fds (modify (λ s : io D, Io (io_fs s) (upd (io_pipes s) pi (pipe_fresh (io_pipes s pi)))))) as Hk by (by apply keeps_modify).
    pose proof (keeps_back _ Hk _ _ _ E4) as Hm4. destruct Hm4 as [A4 B4].
    assert (same_files s4 s6) as Hm5.
    { injection E5 as <-. injection E6 as <-. split; [|intros i; done]. intros h. cbn. unfold upd.
      destruct (Z.eqb_spec h f1) as [->|]; cbn; [by rewrite (proj2 (Z.eqb_neq f1 f0)) by done|].
      by destruct (Z.eqb_spec h f0) as [->|]. }
    split.
    + rewrite <- Hb1, <- Hb2. etrans; [exact Hs3|]. etrans; [exact B4|apply Hm5].
    + split; [done|]. split; [done|]. split; [done|]. eapply (moves_trans _ (λ _, 0)); [exact H13| |intros h _; cbn; lia].
      etrans; [apply moves_same; by split|by apply moves_same].
Qed.

Lemma moves_reset s fd f : fds (sys_kern s) me !! fd = Some f → f ∈ file_ids →
  ∃ s', set_fd me fd 0 s = Ok tt s' ∧ moves (λ h, one h f) s s' ∧ fds (sys_kern s') me = <[fd := 0]> (fds (sys_kern s) me).
Proof.
  intros Hfd Hf. eexists. split; [apply set_fd_run|]. split; [|by rewrite fds_with, Z.eqb_refl].
  eapply moves_ext; [|by apply (moves_set_fd s fd 0 f)]. intros h Hh. cbn. rewrite one_0 by done. lia.
Qed.
Lemma close_both s rf wf d r s' :
  (∀ h, h ∈ file_ids → d h = one h rf + one h wf) →
  (fileclose rf ;;; fileclose wf ;;; mretM (-1)) s = Ok r s' → ∀ s0, moves d s0 s → balanced s0 s'.
Proof.
  intros Hd E s0 H0. apply mbindM_inv in E as ([] & s1 & E1 & E). apply mbindM_inv in E as ([] & s2 & E2 & E). injection E as <- <-.
  apply fileclose_moves in E1 as [H1 _]. apply fileclose_moves in E2 as [H2 _].
  eapply (moves_trans (λ h, one h wf)); [|exact H2|intros h _; cbn; lia].
  eapply moves_trans; [exact H0|exact H1|]. intros h Hh. cbn. rewrite Hd by done. lia.
Qed.

Lemma sys_pipe_keeps : keeps balanced (sys_pipe now me pad piperead_u pipewrite_u dev_read_u dev_write_u : M (sys D) Z).
Proof.
  unfold sys_pipe. apply keeps_bind; [apply _|keeps_sys|]. intros fdarray s r s' E. apply mbindM_inv in E as (p & s1 & E1 & E).
  apply pipealloc_moves in E1 as [_ H1]. destruct p as [[rf wf]|]; [|by injection E as <- <-]. destruct H1 as (Hrf & Hwf & Hne & H1).
  pose proof (file_ids_pos _ Hrf) as Hrf0. pose proof (file_ids_pos _ Hwf).
  apply mbindM_inv in E as (fd0 & s2 & E2 & E). apply fdalloc_moves in E2 as [[-> ->]|(n0 & -> & Hn0 & Es2 & H2)].
  { cbn [Z.ltb Z.compare] in E. rewrite (mbindM_Ok (mretM (-1)) _ s1 (-1) s1) in E by done. cbn [orb Z.leb Z.ltb Z.compare whenM] in E.
    rewrite (mbindM_Ok (mretM tt) _ s1 tt s1) in E by done. by eapply close_both; [|exact E|exact H1]. }
  rewrite (proj2 (Z.ltb_ge _ _)) in E by lia.
  assert (moves (λ h, one h wf) s s2) as H12.
  { eapply moves_trans; [exact H1|exact H2|]. intros h Hh. cbn. rewrite one_0 by done. lia. }
  assert (fds (sys_kern s2) me = <[n0 := rf]> (fds (sys_kern s1) me)) as Ef2 by (by rewrite Es2, fds_with, Z.eqb_refl).
  assert (fds (sys_kern s2) me !! n0 = Some rf) as L2 by (rewrite Ef2; apply list_lookup_insert_eq; by eapply lookup_lt_Some).
  apply mbindM_inv in E as (fd1 & s3 & E3 & E). apply fdalloc_moves in E3 as [[-> ->]|(n1 & -> & Hn1 & Es3 & H3)].
  { cbn [orb Z.ltb Z.compare] in E. rewrite (proj2 (Z.leb_le _ _)) in E by lia. cbn [whenM] in E.
    destruct (moves_reset s2 n0 rf L2 Hrf) as (s4 & E4 & H4 & _). rewrite Nat2Z.id, (mbindM_Ok _ _ _ _ _ E4) in E.
    eapply close_both; [|exact E|eapply moves_trans; [exact H12|exact H4|intros h _; reflexivity]]. intros h _. cbn. lia. }
  rewrite (proj2 (Z.ltb_ge _ _)) in E by lia. cbn [orb] in E.
  assert (balanced s s3) as H13.
  { eapply moves_trans; [exact H12|exact H3|]. intros h Hh. cbn. rewrite one_0 by done. lia. }
  assert (n0 ≠ n1) as Hn by (intros ->; rewrite L2 in Hn1; injection Hn1; lia).
  assert (fds (sys_kern s3) me = <[n1 := wf]> (fds (sys_kern s2) me)) as Ef3 by (by rewrite Es3, fds_with, Z.eqb_refl).
  apply mbindM_inv in E as (c0 & s4 & E4 & E). pose proof (keeps_back _ (keeps_kio _ (keeps_copyout_me _ _)) _ _ _ E4) as K4.
  apply mbindM_inv in E as (c1 & s5 & E5 & E).
  assert (same_files s4 s5) as K5.
  { destruct (c0 <? 0); [injection E5 as <- <-; reflexivity|]. exact (keeps_back _ (keeps_kio _ (keeps_copyout_me _ _)) _ _ _ E5). }
  assert (same_files s3 s5) as K by (by etrans). pose proof (proj2 K me) as Ef5. fold (sys_kern s5) (sys_kern s3) in Ef5.
  assert (balanced s s5) as H15 by (etrans; [exact H13|by apply moves_same]).
  destruct ((c0 <? 0) || (c1 <? 0)); [|by injection E as <- <-]. rewrite !Nat2Z.id in E.
  destruct (moves_reset s5 n0 rf) as (s6 & E6 & H6 & Ef6); [|done|].
  { rewrite Ef5, Ef3, list_lookup_insert_ne by done. done. }
  rewrite (mbindM_Ok _ _ _ _ _ E6) in E.
  destruct (moves_reset s6 n1 wf) as (s7 & E7 & H7 & _); [|done|].
  { rewrite Ef6, list_lookup_insert_ne by done. rewrite Ef5, Ef3. apply list_lookup_insert_eq. by eapply lookup_lt_Some. }
  rewrite (mbindM_Ok _ _ _ _ _ E7) in E. eapply close_both; [|exact E|].
  2:{ eapply moves_trans; [|exact H7|intros h _; reflexivity]. eapply moves_trans; [exact H15|exact H6|intros h _; reflexivity]. }
  intros h _. cbn. lia.
Qed.

(** ** Running the calls *)
Lemma argint_kop n (s : sys D) : 0 ≤ n ≤ 5 → kop (argint me n) s = Ok (arg_i me n (sys_kern s)) s.
Proof.
  intros Hn. unfold kop, kio, vio, um_op, back_op, zoom. destruct s as [ft [v pi]]. cbn [back io_fs].
  rewrite argint_run by done. by destruct v.
Qed.
Lemma argaddr_kop n (s : sys D) : 0 ≤ n ≤ 5 → kop (argaddr me n) s = Ok (arg_a me n (sys_kern s)) s.
Proof.
  intros Hn. unfold kop, kio, vio, um_op, back_op, zoom. destruct s as [ft [v pi]]. cbn [back io_fs].
  unfold argaddr. rewrite argraw_run by done. by destruct v.
Qed.
Lemma get_proc_kop (s : sys D) : kop (get_proc me) s = Ok (procs (sys_kern s) me) s.
Proof. by destruct s as [ft [[] pi]]. Qed.
Lemma argfd_run n (s : sys D) : 0 ≤ n ≤ 5 →
  argfd me n s = Ok (let fd := arg_i me n (sys_kern s) in
    if (fd <? 0) || (Z.of_nat NOFILE <=? fd) then None
    else let f := nth (Z.to_nat fd) (fds (sys_kern s) me) 0 in if f =? 0 then None else Some (fd, f)) s.
Proof.
  intros Hn. unfold argfd. rewrite (mbindM_Ok _ _ _ _ _ (argint_kop n s Hn)), (mbindM_Ok _ _ _ _ _ (get_proc_kop s)).
  cbv zeta. fold (fds (sys_kern s) me). destruct (_ || _); [done|]. by destruct (_ =? 0).
Qed.

(** The descriptor [fd] of the caller is the open file [f]. *)
Definition names_file (s : sys D) (f : Z) : Prop :=
  let fd := arg_i me 0 (sys_kern s) in
  0 ≤ fd < Z.of_nat NOFILE ∧ fds (sys_kern s) me !! Z.to_nat fd = Some f ∧ f ≠ 0.
Lemma argfd_names s f : names_file s f → argfd me 0 s = Ok (Some (arg_i me 0 (sys_kern s), f)) s.
Proof.
  intros (H1 & H2 & H3). rewrite argfd_run by lia. cbv zeta. rewrite (nth_lookup_Some _ _ _ _ H2).
  rewrite (proj2 (Z.eqb_neq f 0)) by done.
  destruct (Z.ltb_spec (arg_i me 0 (sys_kern s)) 0); [lia|]. by destruct (Z.leb_spec (Z.of_nat NOFILE) (arg_i me 0 (sys_kern s))); [lia|].
Qed.

Lemma sys_dup_spec s f :
  names_file s f → 1 ≤ f_ref (ftab s f) < 2 ^ 31 - 1 →
  sys_dup me s =
    match free_fd (take NOFILE (fds (sys_kern s) me)) with
    | None => Ok (-1) s
    | Some fd => Ok (Z.of_nat fd) (set_file f (with_ref (f_ref (ftab s f) + 1) (ftab s f)) (with_fds (<[fd := f]> (fds (sys_kern s) me)) s))
    end.
Proof.
  intros Hf Hr. unfold sys_dup. rewrite (mbindM_Ok _ _ _ _ _ (argfd_names _ _ Hf)). cbv iota beta.
  unfold mbindM at 1. rewrite fdalloc_run. destruct (free_fd _) as [fd|]; [|done]. rewrite (proj2 (Z.ltb_ge _ _)) by lia.
  by rewrite (mbindM_Ok _ _ _ _ _ (filedup_ok f (with_fds (<[fd := f]> (fds (sys_kern s) me)) s) Hr)).
Qed.

Lemma my_pid_run (s : io D) : my_pid me s = Ok (p_pid (procs (io_kern s) me)) s.
Proof. by destruct s as [[] pi]. Qed.

Definition with_vfs (v : vfs D (kern ())) (s : io D) : io D := Io v (io_pipes s).
Definition lock_ent (e pid : Z) (v : vfs D (kern ())) : vfs D (kern ()) :=
  Vfs (v_fat v) (v_mem v) (upd (v_ent v) e (set_e_lock pid (v_ent v e))) (v_nxt v) (v_prv v).
(** An entry that can be locked. *)
Record unlocked (v : vfs D (kern ())) (e : Z) : Prop := {
  ul_null : e ≠ NULL; ul_ref : 1 ≤ e_ref (v_ent v e); ul_free : e_lock (v_ent v e) = 0 }.

Lemma locked_run {A} e (c : M (vfs D (kern ())) A) (s : io D) a v :
  unlocked (io_fs s) e → let pid := p_pid (procs (io_kern s) me) in
  c (lock_ent e pid (io_fs s)) = Ok a v → e_lock (v_ent v e) = pid → 1 ≤ e_ref (v_ent v e) →
  locked me e c s = Ok a (with_vfs (lock_ent e 0 v) s).
Proof.
  intros [Hn Hr Hl] pid Ec Hlk Href. unfold locked, lio. rewrite (mbindM_Ok _ _ _ _ _ (my_pid_run s)). fold pid.
  unfold vio, zoom. assert (elock pid e (io_fs s) = Ok tt (lock_ent e pid (io_fs s))) as E1.
  { unfold elock, acquire_ent, mbindM at 1, get_ent, gets at 1. rewrite (proj2 (Z.eqb_neq e NULL)) by done.
    destruct (Z.ltb_spec (e_ref (v_ent (io_fs s) e)) 1); [lia|]. cbn [orb]. unfold mbindM, gets. by rewrite Hl. }
  assert (eunlock pid e v = Ok tt (lock_ent e 0 v)) as E2.
  { unfold eunlock, mbindM at 1, get_ent, gets at 1. rewrite (proj2 (Z.eqb_neq e NULL)), Hlk, Z.eqb_refl by done.
    destruct (Z.ltb_spec (e_ref (v_ent v e)) 1); [lia|]. done. }
  by rewrite (mbindM_Ok _ _ _ _ _ E1), (mbindM_Ok _ _ _ _ _ Ec), (mbindM_Ok _ _ _ _ _ E2).
Qed.

(** ** Reading and writing an open file *)

Notation the_fs s := (io_fs (back s)).
(** [f] is an open file for the directory entry [e], whose clusters are [l]. *)
Record open_fd (s : sys D) (f e : Z) (l : list Z) : Prop := {
  od_type : f_type (ftab s f) = FD_ENTRY;
  od_ep : f_ep (ftab s f) = e;
  od_file : open_file (the_fs s) e l;
  od_dir : has (attribute (v_ent (the_fs s) e)) ATTR_DIRECTORY = false;
  od_off : 0 ≤ f_off (ftab s f) ≤ file_size (v_ent (the_fs s) e);
  od_size : file_size (v_ent (the_fs s) e) < 2 ^ 31;
  od_lock : unlocked (the_fs s) e }.

Lemma open_file_lock v e l pid : open_file v e l → open_file (lock_ent e pid v) e l.
Proof.
  intros [A B C]. split; [done| |]; cbn [v_ent lock_ent]; rewrite upd_eq; [|by destruct (v_ent v e)].
  by eapply at_chain_ext; [..|exact B]; destruct (v_ent v e).
Qed.
Lemma set_lock_keeps (x : dirent) pid : file_size (set_e_lock pid x) = file_size x ∧ attribute (set_e_lock pid x) = attribute x ∧
  e_ref (set_e_lock pid x) = e_ref x ∧ e_lock (set_e_lock pid x) = pid.
Proof. by destruct x. Qed.

(** The caller asks for [n] bytes at [addr]. *)
Definition arg_addr (s : sys D) : Z := arg_a me 1 (sys_kern s).
Definition arg_n (s : sys D) : Z := arg_i me 2 (sys_kern s).

Lemma sys_read_run s f : names_file s f →
  sys_read now me pad piperead_u pipewrite_u dev_read_u dev_write_u s = fileread f (arg_addr s) (arg_n s) s.
Proof.
  intros Hf. unfold sys_read. rewrite (mbindM_Ok _ _ _ _ _ (argfd_names _ _ Hf)). cbv iota beta.
  by rewrite (mbindM_Ok _ _ _ _ _ (argint_kop 2 s ltac:(lia))), (mbindM_Ok _ _ _ _ _ (argaddr_kop 1 s ltac:(lia))).
Qed.
Lemma sys_write_run s f : names_file s f →
  sys_write now me pad piperead_u pipewrite_u dev_read_u dev_write_u s = filewrite f (arg_addr s) (arg_n s) s.
Proof.
  intros Hf. unfold sys_write. rewrite (mbindM_Ok _ _ _ _ _ (argfd_names _ _ Hf)). cbv iota beta.
  by rewrite (mbindM_Ok _ _ _ _ _ (argint_kop 2 s ltac:(lia))), (mbindM_Ok _ _ _ _ _ (argaddr_kop 1 s ltac:(lia))).
Qed.

Lemma sys_read_spec s f e l :
  names_file s f → open_fd s f e l → f_readable (ftab s f) = true →
  0 ≤ arg_n s → f_off (ftab s f) + arg_n s < 2 ^ 32 → kwritable me (sys_kern s) true (arg_addr s) (arg_n s) →
  let off := f_off (ftab s f) in
  let m := Z.min (arg_n s) (file_size (v_ent (the_fs s) e) - off) in
  ∃ s', sys_read now me pad piperead_u pipewrite_u dev_read_u dev_write_u s = Ok m s' ∧
    f_off (ftab s' f) = off + m ∧
    (∀ x, kbyte me (sys_kern s') true x =
       if in_range (arg_addr s) m x then u8 (fbyte (v_fat (the_fs s)) l (off + (x - arg_addr s))) else kbyte me (sys_kern s) true x) ∧
    (∀ i, dbyte (dsk (v_fat (the_fs s'))) i = dbyte (dsk (v_fat (the_fs s))) i) ∧ open_fd s' f e l.
Proof.
  intros Hn Hod Hrd Hn0 H32 Hw off m. rewrite (sys_read_run s f Hn). destruct Hod as [T1 T2 T3 T4 T5 T6 T7].
  set (pid := p_pid (procs (sys_kern s) me)). set (v1 := lock_ent e pid (the_fs s)).
  assert (v_ent v1 e = set_e_lock pid (v_ent (the_fs s) e)) as Ev1 by (unfold v1, lock_ent; cbn [v_ent]; apply upd_eq).
  destruct (set_lock_keeps (v_ent (the_fs s) e) pid) as (K1 & K2 & K3 & K4).
  assert (arg_n s < 2 ^ 31) as Hn31 by (pose proof (i32_range (tf_get (TF_A0 + 8 * 2) (procs (sys_kern s) me) (km (sys_kern s)))); unfold arg_n, arg_i; lia).
  destruct (eread_spec v1 e l (Mem true (arg_addr s)) off (arg_n s)) as (v2 & E & Hp & Hd).
  - by apply open_file_lock.
  - by rewrite Ev1, K2.
  - by rewrite Ev1, K1.
  - done.
  - done.
  - by rewrite Ev1, K1.
  - exact Hw.
  - rewrite Ev1, K1 in E, Hd. fold m in E, Hd. destruct Hp as [P1 P2 P3 P4 (c & k & P5) P6].
    assert (v_ent v2 e = set_pos c k (v_ent v1 e)) as Ev2 by (by rewrite P5, Z.eqb_refl).
    assert (∀ y, e_lock (set_pos c k y) = e_lock y ∧ e_ref (set_pos c k y) = e_ref y ∧ file_size (set_pos c k y) = file_size y
      ∧ attribute (set_pos c k y) = attribute y) as Hsp by (by intros []).
    assert (eread_b e (arg_addr s) off (arg_n s) (back s) = Ok m (with_vfs (lock_ent e 0 v2) (back s))) as Er.
    { cbn. apply locked_run; [done| | |].
      - rewrite u32_small by lia. fold pid v1. by rewrite (mbindM_Ok _ _ _ _ _ E).
      - rewrite Ev2, (proj1 (Hsp _)), Ev1. apply K4.
      - rewrite Ev2. destruct (Hsp (v_ent v1 e)) as (_ & -> & _). rewrite Ev1, K3. apply T7. }
    unfold fileread, mbindM at 1, gets at 1. rewrite Hrd, T1, T2. cbn [negb]. fold off.
    unfold back_op at 1, zoom, mbindM at 1. rewrite Er. unfold mbindM, mretM, whenM, modify.
    pose proof (bpc_pos _ (fk_geo _ _ (of_file _ _ _ T3))). destruct T3 as [F1 F2 F3].
    set (s2 := Ftable (ftab s) (with_vfs (lock_ent e 0 v2) (back s))).
    set (s' := if 0 <? m then set_file f (with_off (u32 (off + m)) (ftab s2 f)) s2 else s2).
    exists s'. assert (back s' = back s2) as Eb by (unfold s'; by destruct (0 <? m)).
    assert (f_off (ftab s' f) = off + m ∧ f_type (ftab s' f) = FD_ENTRY ∧ f_ep (ftab s' f) = e) as (F5 & F6 & F7).
    { unfold s'. destruct (Z.ltb_spec 0 m); cbn [set_file ftab s2].
      - rewrite upd_eq. unfold with_off. cbn [f_off f_type f_ep]. rewrite u32_small by lia. done.
      - split; [unfold off in *; lia|done]. }
    assert (v_ent (lock_ent e 0 v2) e = set_e_lock 0 (set_pos c k (set_e_lock pid (v_ent (the_fs s) e)))) as Ee.
    { unfold lock_ent at 1. cbn [v_ent]. by rewrite upd_eq, Ev2, Ev1. }
    split; [unfold s'; by destruct (0 <? m)|]. split; [done|]. split; [|split].
    + intros x. unfold sys_kern, io_kern. rewrite Eb. cbn [s2 back with_vfs io_fs lock_ent v_mem]. 
      etrans; [exact (Hd x)|]. rewrite length_run by lia. rewrite Z.add_0_r. destruct (in_range (arg_addr s) m x) eqn:Ex; [|done]. apply in_range_true in Ex. f_equal.
      rewrite nth_run by lia. f_equal.
    + intros i. rewrite Eb. cbn [s2 back with_vfs io_fs lock_ent v_fat]. rewrite P3. done.
    + split; [done|done|..]; rewrite ?Eb, ?F5; cbn [s2 back with_vfs io_fs]; rewrite ?Ee.
      * split; [exact P1| |].
        -- rewrite Ee. eapply at_chain_ext; [..|exact P4]; rewrite Ev2, Ev1; by destruct (v_ent (the_fs s) e).
        -- cbn [lock_ent v_fat]. rewrite P2, Ee. destruct (v_ent (the_fs s) e). exact F3.
      * by destruct (v_ent (the_fs s) e).
      * replace (file_size _) with (file_size (v_ent (the_fs s) e)) by (by destruct (v_ent (the_fs s) e)). lia.
      * by destruct (v_ent (the_fs s) e).
      * destruct T7 as [U1 U2 U3]. split; [done| |]; rewrite Ee; by destruct (v_ent (the_fs s) e).
Qed.

Lemma sys_write_spec s f e l :
  names_file s f → open_fd s f e l → f_writable (ftab s f) = true →
  has (attribute (v_ent (the_fs s) e)) ATTR_READ_ONLY = false →
  let off := f_off (ftab s f) in
  0 < arg_n s → off + arg_n s < 2 ^ 31 → off + arg_n s ≤ Z.of_nat (length l) * byts_per_clus (geo (v_fat (the_fs s))) →
  kreadable me (sys_kern s) true (arg_addr s) (arg_n s) →
  ∃ s', sys_write now me pad piperead_u pipewrite_u dev_read_u dev_write_u s = Ok (arg_n s) s' ∧
    f_off (ftab s' f) = off + arg_n s ∧
    FatFileProps.written (v_fat (the_fs s)) (v_fat (the_fs s')) l off (arg_n s) (λ i, kbyte me (sys_kern s) true (arg_addr s + i)) ∧
    file_size (v_ent (the_fs s') e) = Z.max (file_size (v_ent (the_fs s) e)) (off + arg_n s) ∧ open_fd s' f e l.
Proof.
  intros Hn Hod Hwr Hro off Hn0 H31 Hlen Hw. rewrite (sys_write_run s f Hn). destruct Hod as [T1 T2 T3 T4 T5 T6 T7].
  set (pid := p_pid (procs (sys_kern s) me)). set (v1 := lock_ent e pid (the_fs s)).
  assert (v_ent v1 e = set_e_lock pid (v_ent (the_fs s) e)) as Ev1 by (unfold v1, lock_ent; cbn [v_ent]; apply upd_eq).
  destruct (set_lock_keeps (v_ent (the_fs s) e) pid) as (K1 & K2 & K3 & K4).
  destruct (ewrite_spec now v1 e l (Mem true (arg_addr s)) off (arg_n s)) as (v2 & E & Hof & Hg & Hwt & We).
  - by apply open_file_lock.
  - by rewrite Ev1, K2.
  - by rewrite Ev1, K1.
  - lia.
  - lia.
  - done.
  - exact Hw.
  - destruct We as [W1 W2 W3 W4 [_ W5] [W6 W7] _]. rewrite Ev1 in *. rewrite K1 in W1. rewrite K2 in W5. rewrite K4 in W6. rewrite K3 in W7.
    assert (ewrite_b e (arg_addr s) off (arg_n s) (back s) = Ok (arg_n s) (with_vfs (lock_ent e 0 v2) (back s))) as Er.
    { cbn. apply locked_run; [done| |done|rewrite W7; apply T7]. rewrite u32_small by lia. fold pid v1. exact E. }
    unfold filewrite, mbindM at 1, gets at 1. rewrite Hwr, T1, T2. cbn [negb]. fold off.
    unfold back_op at 1, zoom, mbindM at 1. rewrite Er, Z.eqb_refl. unfold mbindM, mretM, modify.
    eexists. split; [done|]. destruct (set_lock_keeps (v_ent v2 e) 0) as (L1 & L2 & L3 & L4).
    cbn [set_file ftab back with_vfs io_fs lock_ent v_ent v_fat]. rewrite !upd_eq. unfold with_off. cbn [f_off].
    rewrite u32_small by lia. split; [done|]. split; [exact Hwt|]. split; [by rewrite L1|].
    split; cbn [set_file ftab back with_vfs io_fs lock_ent v_ent v_fat]; rewrite ?upd_eq; cbn [f_type f_ep f_off]; rewrite ?L1, ?L2, ?W1, ?W5; try done; try lia.
    + by apply open_file_lock.
    + destruct T7 as [U1 U2 U3]. split; [done| |]; cbn [lock_ent v_ent]; rewrite upd_eq; [by rewrite L3, W7|done].
Qed.
End Calls.

(** ** Paths *)

(** The names of the directories from the root down to [de]. *)
Inductive ancestry (ent : Z → dirent) : Z → list (list Z) → Prop :=
| an_root de : e_parent (ent de) = NULL → ancestry ent de []
| an_step de names : e_parent (ent de) ≠ NULL → ancestry ent (e_parent (ent de)) names →
    ancestry ent de (names ++ [cstr (filename (ent de))]).
Definition path_text (names : list (list Z)) : list Z := concat (map (cons 47) names).
Lemma path_text_snoc names n : path_text (names ++ [n]) = path_text names ++ 47 :: n.
Proof. unfold path_text. by rewrite map_app, concat_app, <- (app_nil_r (47 :: n)). Qed.

Lemma cwd_loop_spec ent de names : ancestry ent de names → ∀ fuel acc, (length names < fuel)%nat →
  cwd_loop fuel ent de (259 - Z.of_nat (length acc)) acc =
    if Z.of_nat (length (path_text names ++ acc)) <=? 259 then Some (path_text names ++ acc)
    else if bool_decide (names = []) then Some acc else None.
Proof.
  induction 1 as [de Hp|de names Hp Ha IH]; intros [|fuel] acc Hf; try lia; cbn [cwd_loop].
  { rewrite Hp. cbn [Z.eqb NULL]. change (NULL =? NULL) with true. cbn. by destruct (_ <=? _). }
  rewrite (proj2 (Z.eqb_neq _ _)) by done. cbv zeta. set (n := cstr (filename (ent de))).
  rewrite bool_decide_eq_false_2 by (by intros [_ ?]%app_nil). rewrite path_text_snoc, <- app_assoc. cbn [app].
  destruct (Z.leb_spec (259 - Z.of_nat (length acc) - Z.of_nat (length n)) 0) as [Hle|Hgt].
  - rewrite (proj2 (Z.leb_gt _ _)); [done|]. rewrite length_app. cbn [length]. rewrite length_app. lia.
  - replace (259 - Z.of_nat (length acc) - Z.of_nat (length n) - 1) with (259 - Z.of_nat (length (47 :: n ++ acc)))
      by (cbn [length]; rewrite length_app; lia).
    rewrite IH by (rewrite length_app in Hf; cbn in Hf; lia).
    destruct (Z.leb_spec (Z.of_nat (length (path_text names ++ 47 :: n ++ acc))) 259) as [|Hgt']; [done|].
    case_bool_decide as Hn; [|done]. subst names. exfalso. cbn [path_text map concat app] in Hgt'. cbn [length] in Hgt'. rewrite length_app in Hgt'. lia.
Qed.
Lemma cwd_path_spec ent de names :
  ancestry ent de names → (length names ≤ ring_fuel)%nat →
  cwd_path ent de = match names with
                    | [] => Some [47]
                    | _ => if Z.of_nat (length (path_text names)) <=? 259 then Some (path_text names) else None
                    end.
Proof.
  intros Ha Hl. unfold cwd_path. destruct Ha as [de Hp|de names Hp Ha].
  - by rewrite Hp.
  - rewrite (proj2 (Z.eqb_neq _ _)) by done. change (Z.of_nat FAT32_MAX_PATH - 1) with (259 - Z.of_nat (length (@nil Z))).
    rewrite (cwd_loop_spec ent de (names ++ [cstr (filename (ent de))])) by first [by constructor|lia].
    rewrite app_nil_r. rewrite bool_decide_eq_false_2 by (by intros [_ ?]%app_nil). by destruct names.
Qed.

Lemma skip_slashes_run l : ∃ k, l = replicate k 47 ++ skip_slashes l ∧ ∀ x, head (skip_slashes l) = Some x → x ≠ 47.
Proof.
  induction l as [|c l (k & E & Hh)]; cbn [skip_slashes]; [by exists 0%nat|]. destruct (Z.eqb_spec c 47) as [->|Hc].
  - exists (S k). cbn. by rewrite <- E.
  - exists 0%nat. split; [done|]. by intros x [= <-].
Qed.
(** [sys_remove] refuses exactly the paths whose last element is the directory
    itself. *)
Lemma ends_in_dot_spec path :
  ends_in_dot path = true ↔ ∃ pre k, path = pre ++ [46] ++ replicate k 47 ∧ (pre = [] ∨ ∃ q, pre = q ++ [47]).
Proof.
  unfold ends_in_dot. destruct (skip_slashes_run (rev path)) as (k & E & Hh).
  assert (path = rev (skip_slashes (rev path)) ++ replicate k 47) as Ep.
  { rewrite <- (rev_involutive path), E at 1. rewrite rev_app_distr. f_equal. rewrite rev_alt. apply reverse_replicate. }
  set (r := skip_slashes (rev path)) in *. split.
  - intros Hr. destruct r as [|c r]; [done|]. destruct (decide (c = 46)) as [->|Hc].
    2:{ exfalso. destruct c as [|c|c]; try done. repeat (destruct c as [c|c|]; try done). }
    destruct r as [|d r]; [by exists [], k; split; [|left]|]. destruct (decide (d = 47)) as [->|Hd].
    + exists (rev r ++ [47]), k. split; [|right; by exists (rev r)]. rewrite Ep. cbn [rev]. by rewrite <- !app_assoc.
    + exfalso. destruct d as [|d|d]; try done. repeat (destruct d as [d|d|]; try done).
  - intros (pre & k' & E' & Hpre). assert (rev path = replicate k' 47 ++ [46] ++ rev pre) as Er.
    { rewrite E', !rev_app_distr. rewrite <- app_assoc. f_equal. rewrite rev_alt. apply reverse_replicate. }
    assert (r = [46] ++ rev pre) as ->.
    { clear -Er. unfold r. rewrite Er. clear. induction k'; [done|]. cbn. done. }
    destruct Hpre as [->|[q ->]]; [done|]. by rewrite rev_app_distr.
Qed.

(** ** The theorems *)
Section Theorems.
Context `{LAY : Layout} {D : Type} {SD : Sectors D}.
Context (now : rtc_time) (me : Z) (pad : list Z).
Context (piperead_u pipewrite_u : Z → Z → Z → M (io D) Z).
Context (dev_read_u dev_write_u : Z → option (Z → Z → M (io D) Z)).

Notation with_streams c := (c now me pad piperead_u pipewrite_u dev_read_u dev_write_u).
(** The calls of sysfile.c. *)
Inductive file_call : M (sys D) Z → Prop :=
| fc_dup : file_call (sys_dup me)
| fc_read : file_call (with_streams sys_read)
| fc_write : file_call (with_streams sys_write)
| fc_close : file_call (with_streams sys_close)
| fc_fstat : file_call (with_streams sys_fstat)
| fc_open : file_call (with_streams sys_open)
| fc_mkdir : file_call (sys_mkdir now me)
| fc_chdir : file_call (sys_chdir me)
| fc_pipe : file_call (with_streams sys_pipe)
| fc_dev : file_call (with_streams sys_dev)
| fc_readdir : file_call (sys_readdir me pad)
| fc_getcwd : file_call (sys_getcwd me)
| fc_remove : file_call (sys_remove me)
| fc_rename off0 : file_call (sys_rename now me off0).

(** C4: no file system call leaks or over-releases an open file: on every path
    that returns, through all errors, full tables, bad descriptors and bad user
    addresses, each open file's reference count less the caller's descriptors for
    it is what it was, and the descriptors of other processes are untouched. *)
Theorem descriptors_balanced (c : M (sys D) Z) (s : sys D) (r : Z) (s' : sys D) :
  streams_ok piperead_u pipewrite_u dev_read_u dev_write_u →
  file_call c → (∀ f, f_ref (ftab s f) < 2 ^ 31 - 1) → c s = Ok r s' → moves me (λ _, 0) s s'.
Proof.
  intros Hst Hc Hb E. pose proof (balanced_preorder (D:=D) me).
  assert (∀ n, keeps (moves me (λ _, 0)) (argfd me n : M (sys D) _)) as Ha by (intros; by apply keeps_argfd).
  destruct Hc; [by eapply sys_dup_moves|..]; try by eapply sys_close_moves; [..|exact E].
  - revert E. apply (keeps_bind _ _ _ (Ha 0)). intros [[fd f]|]; [|apply keeps_ret, _].
    apply keeps_bind; [apply _|by apply keeps_kop, keeps_argint|]. intros n.
    apply keeps_bind; [apply _|by apply keeps_kop, keeps_argaddr|]. intros a. by eapply fileread_keeps.
  - revert E. apply (keeps_bind _ _ _ (Ha 0)). intros [[fd f]|]; [|apply keeps_ret, _].
    apply keeps_bind; [apply _|by apply keeps_kop, keeps_argint|]. intros n.
    apply keeps_bind; [apply _|by apply keeps_kop, keeps_argaddr|]. intros a. by eapply filewrite_keeps.
  - revert E. apply (keeps_bind _ _ _ (Ha 0)). intros [[fd f]|]; [|apply keeps_ret, _].
    apply keeps_bind; [apply _|by apply keeps_kop, keeps_argaddr|]. intros a. by eapply filestat_keeps.
  - by eapply sys_open_keeps; [..|exact E].
  - by eapply sys_mkdir_keeps; [..|exact E].
  - by eapply sys_chdir_keeps; [..|exact E].
  - by eapply sys_pipe_keeps; [..|exact E].
  - by eapply sys_dev_keeps; [..|exact E].
  - revert E. apply (keeps_bind _ _ _ (Ha 0)). intros [[fd f]|]; [|apply keeps_ret, _].
    apply keeps_bind; [apply _|by apply keeps_kop, keeps_argaddr|]. intros a. by apply dirnext_keeps.
  - by eapply sys_getcwd_keeps; [..|exact E].
  - by eapply sys_remove_keeps; [..|exact E].
  - by eapply sys_rename_keeps; [..|exact E].
Qed.

(** reading a descriptor of a regular file delivers to the caller's buffer
    exactly the bytes of the file from the descriptor's offset, as many as asked
    or as the file has, answers that number and advances the offset by it; no
    other byte the process sees changes, and nothing on the disk. *)
Theorem sys_read_correct (s : sys D) (f e : Z) (l : list Z) :
  names_file me s f → open_fd s f e l → f_readable (ftab s f) = true →
  0 ≤ arg_n me s → f_off (ftab s f) + arg_n me s < 2 ^ 32 → kwritable me (sys_kern s) true (arg_addr me s) (arg_n me s) →
  let off := f_off (ftab s f) in
  let m := Z.min (arg_n me s) (file_size (v_ent (io_fs (back s)) e) - off) in
  ∃ s', with_streams sys_read s = Ok m s' ∧
    f_off (ftab s' f) = off + m ∧
    (∀ x, kbyte me (sys_kern s') true x =
       if in_range (arg_addr me s) m x then u8 (fbyte (v_fat (io_fs (back s))) l (off + (x - arg_addr me s)))
       else kbyte me (sys_kern s) true x) ∧
    (∀ i, dbyte (dsk (v_fat (io_fs (back s')))) i = dbyte (dsk (v_fat (io_fs (back s)))) i) ∧ open_fd s' f e l.
Proof. apply sys_read_spec. Qed.

(** writing to a descriptor of a regular file, inside the clusters it has,
    puts the caller's bytes into the file at the descriptor's offset and leaves
    every other byte of the disk, answers the count, advances the offset and
    grows the size of the file to the end of the write. *)
Theorem sys_write_correct (s : sys D) (f e : Z) (l : list Z) :
  names_file me s f → open_fd s f e l → f_writable (ftab s f) = true →
  has (attribute (v_ent (io_fs (back s)) e)) ATTR_READ_ONLY = false →
  let off := f_off (ftab s f) in
  0 < arg_n me s → off + arg_n me s < 2 ^ 31 →
  off + arg_n me s ≤ Z.of_nat (length l) * byts_per_clus (geo (v_fat (io_fs (back s)))) →
  kreadable me (sys_kern s) true (arg_addr me s) (arg_n me s) →
  ∃ s', with_streams sys_write s = Ok (arg_n me s) s' ∧
    f_off (ftab s' f) = off + arg_n me s ∧
    FatFileProps.written (v_fat (io_fs (back s))) (v_fat (io_fs (back s'))) l off (arg_n me s)
      (λ i, kbyte me (sys_kern s) true (arg_addr me s + i)) ∧
    file_size (v_ent (io_fs (back s')) e) = Z.max (file_size (v_ent (io_fs (back s)) e)) (off + arg_n me s) ∧ open_fd s' f e l.
Proof. apply sys_write_spec. Qed.

(** [dup] of a valid descriptor answers the lowest free descriptor, which
    then names the same open file with one reference more, and -1 without any
    change when all descriptors are in use. *)
Theorem sys_dup_correct (s : sys D) (f : Z) :
  names_file me s f → length (fds (sys_kern s) me) = NOFILE → 1 ≤ f_ref (ftab s f) < 2 ^ 31 - 1 →
  (sys_dup me s = Ok (-1) s ∧ 0 ∉ fds (sys_kern s) me) ∨
  (∃ (fd : nat) s', sys_dup me s = Ok (Z.of_nat fd) s' ∧ fds (sys_kern s) me !! fd = Some 0 ∧
     (∀ i g, (i < fd)%nat → fds (sys_kern s) me !! i = Some g → g ≠ 0) ∧
     fds (sys_kern s') me = <[fd := f]> (fds (sys_kern s) me) ∧ f_ref (ftab s' f) = f_ref (ftab s f) + 1 ∧
     (∀ g, g ≠ f → ftab s' g = ftab s g) ∧ ∀ i, i ≠ me → fds (sys_kern s') i = fds (sys_kern s) i).
Proof.
  intros Hn Hl Hr. rewrite (sys_dup_spec me s f Hn Hr). rewrite take_ge by (by rewrite Hl).
  destruct (free_fd _) as [fd|] eqn:E; [right|left].
  - apply free_fd_spec in E as [E1 E2]. eexists fd, _. split; [done|]. split; [done|]. split; [done|].
    split; [by rewrite sys_kern_set_file, fds_with, Z.eqb_refl|].
    cbn [ftab set_file]. rewrite upd_eq. split; [done|]. split; [intros g Hg; by rewrite upd_ne|].
    intros i Hi. by rewrite sys_kern_set_file, fds_with, (proj2 (Z.eqb_neq _ _)).
  - split; [done|]. intros Hin. apply list_elem_of_lookup in Hin as [i Hi]. by eapply free_fd_none in Hi; [|exact E].
Qed.

Definition cwd_text (names : list (list Z)) : list Z := match names with [] => [47] | _ => path_text names end.
Lemma copyout_me_spec a bs (s : sys D) :
  kwritable me (sys_kern s) true a (Z.of_nat (length bs)) → bs ≠ [] →
  ∃ s', kop (copyout_me me a bs) s = Ok 0 s' ∧
    ∀ x, kbyte me (sys_kern s') true x =
      if in_range a (Z.of_nat (length bs)) x then u8 (nth (Z.to_nat (x - a)) bs 0) else kbyte me (sys_kern s) true x.
Proof.
  intros Hw Hne. pose proof Hw as (Ha & Hn & _).
  destruct (@either_out_law _ (kern_mem me) (sys_kern s) true a (Z.of_nat (length bs)) 0 bs Hw) as (k & E & _ & Hb); [lia|done|lia|].
  rewrite Z.add_0_r, u64_small in E by lia. rewrite Z.add_0_r in Hb.
  exists (Ftable (ftab s) (Io (with_mem k (io_fs (back s))) (io_pipes (back s)))). split; [|exact Hb].
  unfold kop, kio, vio, um_op, back_op, zoom. fold (io_kern (back s)) (sys_kern s). change (copyout_me me a bs (sys_kern s) = Ok 0 k) in E. by rewrite E.
Qed.

(** C36: [getcwd] writes the absolute path of the current directory, one slash and
    name per directory from the root down and a NUL, to the caller's buffer and
    nothing else; the path fits the kernel's 260-byte buffer, and a longer one is
    refused with -1 and no change. *)
Theorem sys_getcwd_correct (s : sys D) (names : list (list Z)) :
  ancestry (v_ent (io_fs (back s))) (cwd (procs (sys_kern s) me)) names → (length names ≤ ring_fuel)%nat →
  let text := cwd_text names in
  let a := arg_a me 0 (sys_kern s) in
  (259 < Z.of_nat (length text) → sys_getcwd me s = Ok (-1) s) ∧
  (Z.of_nat (length text) ≤ 259 → kwritable me (sys_kern s) true a (Z.of_nat (length text) + 1) →
   ∃ s', sys_getcwd me s = Ok 0 s' ∧
     ∀ x, kbyte me (sys_kern s') true x =
       if in_range a (Z.of_nat (length text) + 1) x then u8 (nth (Z.to_nat (x - a)) (text ++ [0]) 0) else kbyte me (sys_kern s) true x).
Proof.
  intros Ha Hl text a.
  assert (sys_getcwd me s = match cwd_path (v_ent (io_fs (back s))) (cwd (procs (sys_kern s) me)) with
    | None => Ok (-1) s
    | Some t => (r <-- kop (copyout_me me a (t ++ [0])) ;; mretM (if r <? 0 then -1 else 0)) s end) as E.
  { unfold sys_getcwd. rewrite (mbindM_Ok _ _ _ _ _ (argaddr_kop me 0 s ltac:(lia))).
    unfold my_cwd. destruct s as [ft [[] pi]]. cbn. by destruct (cwd_path _ _). }
  rewrite (cwd_path_spec _ _ _ Ha Hl) in E. unfold text. destruct names as [|n names]; cbn [cwd_text] in *.
  - split; [cbn; lia|]. intros _ Hw. destruct (copyout_me_spec a [47; 0] s Hw) as (s' & E' & Hb); [done|]. exists s'.
    rewrite E. cbn [app]. by rewrite (mbindM_Ok _ _ _ _ _ E').
  - set (t := path_text (n :: names)) in *. split; intros Ht.
    + by rewrite (proj2 (Z.leb_gt _ _)) in E by done.
    + intros Hw. rewrite (proj2 (Z.leb_le _ _)) in E by done.
      assert (Z.of_nat (length (t ++ [0])) = Z.of_nat (length t) + 1) as Et by (rewrite length_app; cbn; lia).
      destruct (copyout_me_spec a (t ++ [0]) s) as (s' & E' & Hb); [by rewrite Et|by intros [_ ?]%app_nil|]. exists s'.
      rewrite E, (mbindM_Ok _ _ _ _ _ E'). split; [done|]. by rewrite <- Et.
Qed.
End Theorems.

(** ** A process with a file of 600 bytes open at offset 500 *)
Section Demo.
#[local] Existing Instance small_layout.
#[local] Existing Instance mem_sectors.

(** Its trapframe, in a page of its own: [args] in a0, a1 and a2. *)
Definition demo_tf : Z := PHYSTOP - 6 * PGSIZE.
Definition tf_page (args : list Z) : memory :=
  store64 (store64 (store64 (λ _, 0) (demo_tf + TF_A0) (nth 0 args 0)) (demo_tf + TF_A0 + 8) (nth 1 args 0)) (demo_tf + TF_A0 + 16) (nth 2 args 0).
Definition patch (m c : memory) : memory := λ x, if in_range demo_tf PGSIZE x then c x else m x.
Lemma patch_load m c a : demo_tf ≤ a → a + 8 ≤ demo_tf + PGSIZE → load64 (patch m c) a = load64 c a.
Proof. intros H1 H2. apply load64_ext. intros x Hx. unfold patch. by rewrite (proj2 (in_range_true _ _ _)) by lia. Qed.
Lemma patch_agree m c : wf_pt m demo_root → (∀ p, pt_page m demo_root p → p = demo_root ∨ p ∈ demo_free) →
  agree_on m (patch m c) (pt_page m demo_root).
Proof.
  intros Hwf Hpg p x Hp Hx. unfold patch. rewrite (proj2 (in_range_false _ _ _)); [done|]. intros Ht.
  assert (p ≠ demo_tf) as Hne.
  { destruct (Hpg p Hp) as [->|Hin]; [vm_compute; discriminate|]. intros ->.
    assert (bool_decide (demo_tf ∈ demo_free) = false) as Hb%bool_decide_eq_false by (vm_compute; reflexivity). done. }
  apply Hne. pose proof (pt_page_aligned _ _ _ Hwf Hp). assert (demo_tf mod PGSIZE = 0) by (vm_compute; reflexivity).
  unfold PGSIZE in *. Z.div_mod_to_equations. lia.
Qed.

Definition demo_reader : proc :=
  set_ofile (1 :: replicate 15 0) (set_trapframe demo_tf (set_pagetable demo_root (set_sz 8192 (demo_proc RUNNING 0 0 2)))).
Definition demo_sys (m : kst) : sys (Z → list Z) :=
  Ftable (λ f, if f =? 1 then File FD_ENTRY 1 true true 0 1 500 0 else File FD_NONE 0 false false 0 0 0 0)
    (Io (Vfs file_fs (Kern (λ i, if i =? 1 then demo_reader else demo_proc UNUSED (-1) 0 0) 4 0 7 m 4096 ())
           (λ i, if i =? 1 then set_e_valid 1 (set_e_ref 1 file_ent) else blank_ent) (λ _, 0) (λ _, 0)) (λ _, pipe_init (λ _, 0))).
Definition no_read : Z → Z → Z → M (io (Z → list Z)) Z := λ _ _ _, mretM 0.
Definition no_dev : Z → option (Z → Z → M (io (Z → list Z)) Z) := λ _, None.

Lemma demo_call args : ∃ m,
  let s := demo_sys m in
  open_fd s 1 1 [2; 4] ∧ wf_pt (mem m) demo_root ∧ uwritable (mem m) demo_root 4096 4096 ∧
  ∀ i, 0 ≤ i ≤ 2 → arg_a 1 i (sys_kern s) = u64 (nth (Z.to_nat i) args 0).
Proof.
  destruct demo_user_page as (s0 & Hwf & Hw & Hpg). exists (set_mem (patch (mem s0) (tf_page args)) s0).
  pose proof (patch_agree (mem s0) (tf_page args) Hwf Hpg) as Hag. split; [|split; [|split]].
  - split; [done|done| |done|cbn; lia|done|by split]. split; [apply file_vfs_ok|by split|cbn; lia].
  - by apply (wf_pt_agree (mem s0)).
  - by apply (uwritable_agree (mem s0)).
  - intros i Hi. unfold arg_a, tf_get, sys_kern, io_kern. cbn [demo_sys back io_fs v_mem procs km Z.eqb Pos.eqb demo_reader trapframe set_ofile set_trapframe mem set_mem].
    rewrite patch_load by (unfold TF_A0, PGSIZE; lia). unfold tf_page.
    assert (i = 0 ∨ i = 1 ∨ i = 2) as [->|[->| ->]] by lia; cbn [Z.mul Z.to_nat Pos.to_nat Pos.iter_op Nat.add]; rewrite ?Z.add_0_r;
      repeat first [rewrite load64_store64_eq | rewrite load64_store64_ne by lia].
    all: done.
Qed.

(** Reading 200 bytes at offset 500 to address 5000: 100 are left. *)
Lemma sys_read_correct_witness :
  ∃ s s', sys_read demo_now 1 [] no_read no_read no_dev no_dev s = Ok 100 s' ∧ f_off (ftab s' 1) = 600 ∧
    kbyte 1 (sys_kern s') true 5000 = 65 ∧ kbyte 1 (sys_kern s') true 5099 = 66.
Proof.
  destruct (demo_call [0; 5000; 200]) as (m & Hod & Hwf & Hw & Ha). set (s := demo_sys m) in *.
  assert (arg_n 1 s = 200) as En by (unfold arg_n, arg_i; fold (arg_a 1 2 (sys_kern s)); by rewrite (Ha 2) by lia).
  assert (arg_addr 1 s = 5000) as Ea by (unfold arg_addr; by rewrite (Ha 1) by lia).
  assert (arg_i 1 0 (sys_kern s) = 0) as Ef by (unfold arg_i; fold (arg_a 1 0 (sys_kern s)); by rewrite (Ha 0) by lia).
  destruct (sys_read_correct demo_now 1 [] no_read no_read no_dev no_dev s 1 1 [2; 4]) as (s' & E & Eo & Eb & _).
  - unfold names_file. rewrite Ef. split; [unfold NOFILE; lia|]. split; [reflexivity|lia].
  - exact Hod.
  - reflexivity.
  - rewrite En. lia.
  - rewrite En. cbn. lia.
  - rewrite En, Ea. split; [lia|]. split; [lia|]. split; [exact Hwf|].
    split; [eapply uwritable_sub; [..|exact Hw]; lia|cbn; lia].
  - rewrite En in E, Eo, Eb. rewrite Ea in Eb. exists s, s'. split; [exact E|]. split; [exact Eo|].
    rewrite !Eb. split; reflexivity.
Defined.

(** Writing 50 bytes at offset 500 from address 4096. *)
Lemma sys_write_correct_witness :
  ∃ s s', sys_write demo_now 1 [] no_read no_read no_dev no_dev s = Ok 50 s' ∧ f_off (ftab s' 1) = 550.
Proof.
  destruct (demo_call [0; 4096; 50]) as (m & Hod & Hwf & Hw & Ha). set (s := demo_sys m) in *.
  assert (arg_n 1 s = 50) as En by (unfold arg_n, arg_i; fold (arg_a 1 2 (sys_kern s)); by rewrite (Ha 2) by lia).
  assert (arg_addr 1 s = 4096) as Ea by (unfold arg_addr; by rewrite (Ha 1) by lia).
  assert (arg_i 1 0 (sys_kern s) = 0) as Ef by (unfold arg_i; fold (arg_a 1 0 (sys_kern s)); by rewrite (Ha 0) by lia).
  destruct (sys_write_correct demo_now 1 [] no_read no_read no_dev no_dev s 1 1 [2; 4]) as (s' & E & Eo & _).
  - unfold names_file. rewrite Ef. split; [unfold NOFILE; lia|]. split; [reflexivity|lia].
  - exact Hod.
  - reflexivity.
  - reflexivity.
  - rewrite En. lia.
  - rewrite En. cbn. lia.
  - rewrite En. cbn. lia.
  - rewrite En, Ea. split; [lia|]. split; [lia|]. split; [exact Hwf|]. intros va Hva. apply (uw_map _ _ _ _ Hw). lia.
  - rewrite En in E, Eo. exists s, s'. split; [exact E|exact Eo].
Defined.

Lemma sys_dup_correct_witness :
  ∃ s s' : sys (Z → list Z), sys_dup 1 s = Ok 1 s' ∧ fds (sys_kern s') 1 = 1 :: 1 :: replicate 14 0 ∧ f_ref (ftab s' 1) = 2.
Proof.
  destruct (demo_call [0; 0; 0]) as (m & _ & _ & _ & Ha). set (s := demo_sys m) in *.
  assert (arg_i 1 0 (sys_kern s) = 0) as Ef by (unfold arg_i; fold (arg_a 1 0 (sys_kern s)); by rewrite (Ha 0) by lia).
  destruct (sys_dup_correct 1 s 1) as [[_ H]|(fd & s' & E & H0 & Hmin & Hf & Hr & _)].
  - unfold names_file. rewrite Ef. split; [unfold NOFILE; lia|]. split; [reflexivity|lia].
  - reflexivity.
  - cbn. lia.
  - exfalso. apply H. apply list_elem_of_lookup. by exists 1%nat.
  - assert (fd = 1%nat) as ->.
    { destruct fd as [|[|fd]]; [done|done|]. exfalso. apply (Hmin 1%nat 0); [lia|done|done]. }
    exists s, s'. split; [exact E|]. split; [exact Hf|]. exact Hr.
Defined.

Lemma no_streams : streams_ok no_read no_read no_dev no_dev.
Proof. split; intros; try done; apply keeps_ret, _. Qed.
Lemma descriptors_balanced_witness :
  ∃ (s s' : sys (Z → list Z)) r, sys_dup 1 s = Ok r s' ∧ moves 1 (λ _, 0) s s'.
Proof.
  destruct (demo_call [0; 0; 0]) as (m & _ & _ & _ & Ha). set (s := demo_sys m) in *.
  assert (arg_i 1 0 (sys_kern s) = 0) as Ef by (unfold arg_i; fold (arg_a 1 0 (sys_kern s)); by rewrite (Ha 0) by lia).
  assert (names_file 1 s 1) as Hn.
  { unfold names_file. rewrite Ef. split; [unfold NOFILE; lia|]. split; [reflexivity|lia]. }
  pose proof (sys_dup_spec 1 s 1 Hn ltac:(cbn; lia)) as E. cbn in E.
  match type of E with _ = Ok ?r ?t => exists s, t, r end. split; [exact E|].
  eapply (descriptors_balanced demo_now 1 [] no_read no_read no_dev no_dev (sys_dup 1) s); [exact no_streams|constructor| |exact E].
  intros f. cbn. destruct (f =? 1); cbn; lia.
Defined.

(** The caller is in the root directory. *)
Lemma sys_getcwd_correct_witness :
  ∃ s s' : sys (Z → list Z), sys_getcwd 1 s = Ok 0 s' ∧ kbyte 1 (sys_kern s') true 5000 = 47 ∧ kbyte 1 (sys_kern s') true 5001 = 0.
Proof.
  destruct (demo_call [5000; 0; 0]) as (m & _ & Hwf & Hw & Ha). set (s := demo_sys m) in *.
  assert (arg_a 1 0 (sys_kern s) = 5000) as Ea by (by rewrite (Ha 0) by lia).
  destruct (sys_getcwd_correct 1 s []) as [_ H].
  - constructor. reflexivity.
  - cbn. lia.
  - rewrite Ea in H. destruct H as (s' & E & Hb).
    + cbn. lia.
    + split; [lia|]. split; [cbn; lia|]. split; [exact Hwf|]. split; [eapply uwritable_sub; [..|exact Hw]; cbn; lia|cbn; lia].
    + exists s, s'. split; [exact E|]. rewrite !Hb. split; reflexivity.
Defined.
End Demo.
