(* ===== verification/Exec.v ===== *)
(** * Loading a program (kernel/exec.c, [sys_exec] of kernel/sysproc.c)

    [exec] over the state of Sysfile.v: ELF headers read from the file, segments
    loaded into a fresh page table, the argument stack, and the switch to the new
    image.  An argument is its bytes without the NUL; the pages [sys_exec] copies
    them to are allocated and freed as in the code. *)
From stdpp Require Import prelude list strings.
From Stdlib Require Import ZArith Lia.
From S2P Require Import Prelude Riscv Kalloc VM PageTable PageTableOps UserCopy Vma Pipe File Fat Calendar FatNames FatFile FatDir ProcDefs Proc Syscall Sysfile.
Open Scope Z_scope.

Definition ELF_MAGIC : Z := 1179403647.
Definition ELF_PROG_LOAD : Z := 1.
Definition MAXARG : Z := 32.
Definition ELF_SIZE : Z := 64.
Definition PH_SIZE : Z := 56.
Definition TF_A1 : Z := 120.

Definition field (bs : list Z) (off n : nat) : Z := le_bytes (take n (drop off bs)).

Record elfhdr := Elfhdr { magic : Z; entry : Z; phoff : Z; phnum : Z }.
Definition elf_of (bs : list Z) : elfhdr := Elfhdr (field bs 0 4) (field bs 24 8) (field bs 32 8) (field bs 56 2).
Record proghdr := Proghdr { ph_type : Z; ph_off : Z; ph_vaddr : Z; ph_filesz : Z; ph_memsz : Z }.
Definition ph_of (bs : list Z) : proghdr :=
  Proghdr (field bs 0 4) (field bs 8 8) (field bs 16 8) (field bs 32 8) (field bs 40 8).

(** The component of [path] after the last slash. *)
Fixpoint last_comp (path last : list Z) : list Z :=
  match path with [] => last | c :: path => last_comp path (if c =? 47 then path else last) end.

Section Exec.
Context `{LAY : Layout} {D : Type} {SD : Sectors D}.
Context (me : Z).
#[local] Instance exec_mem : UserMem (kern ()) := kern_mem me.

Definition mop {A} (c : M kst A) : M (sys D) A := kop (mem_op c).

(** The loop of [loadseg]; one round per page. *)
Fixpoint loadseg_loop (fuel : nat) (pagetable va ep offset i size : Z) : M (sys D) Z :=
  if i <? size then
    match fuel with
    | O => panic "fuel"
    | S fuel =>
        pa <-- mop (walkaddr pagetable (u64 (va + i))) ;;
        if pa =? 0 then panic "loadseg: address should exist"
        else
          let n := if size - i <? PGSIZE then size - i else PGSIZE in
          r <-- vop (eread ep (Mem false pa) (u32 (offset + i)) n) ;;
          if negb (r.1 =? n) then mretM (-1)
          else loadseg_loop fuel pagetable va ep offset (u32 (i + PGSIZE)) size
    end
  else mretM 0.
Definition loadseg (pagetable va ep offset size : Z) : M (sys D) Z :=
  if negb (va mod PGSIZE =? 0) then panic "loadseg: va must be page aligned"
  else loadseg_loop (Z.to_nat (size / PGSIZE + 1)) pagetable va ep offset 0 size.

(** The loop over the program headers: the new size, or [None] for [goto bad]
    with the size reached. *)
Fixpoint load_loop (n : nat) (pagetable kpagetable ep off size : Z) : M (sys D) (bool * Z) :=
  match n with
  | O => mretM (true, size)
  | S n =>
      r <-- vop (eread ep (Var []) (u32 off) PH_SIZE) ;;
      if negb (r.1 =? PH_SIZE) then mretM (false, size)
      else
        let ph := ph_of r.2 in
        let off := i32 (off + PH_SIZE) in
        if negb (ph_type ph =? ELF_PROG_LOAD) then load_loop n pagetable kpagetable ep off size
        else if ph_memsz ph <? ph_filesz ph then mretM (false, size)
        else if u64 (ph_vaddr ph + ph_memsz ph) <? ph_vaddr ph then mretM (false, size)
        else
          sz1 <-- mop (uvmalloc pagetable kpagetable size (u64 (ph_vaddr ph + ph_memsz ph))) ;;
          if sz1 =? 0 then mretM (false, size)
          else if negb (ph_vaddr ph mod PGSIZE =? 0) then mretM (false, sz1)
          else
            c <-- loadseg pagetable (ph_vaddr ph) ep (u32 (ph_off ph)) (u32 (ph_filesz ph)) ;;
            if c <? 0 then mretM (false, sz1) else load_loop n pagetable kpagetable ep off sz1
  end.

(** The argument strings pushed from [sp] down; their addresses in order. *)
Fixpoint push_args (argv : list (list Z)) (argc pagetable sp stackbase : Z) (ustack : list Z) : M (sys D) (option (Z * list Z)) :=
  match argv with
  | [] => mretM (Some (sp, ustack))
  | arg :: argv =>
      if MAXARG <=? argc then mretM None
      else
        let sp := u64 (sp - (Z.of_nat (length arg) + 1)) in
        let sp := sp - sp mod 16 in
        if sp <? stackbase then mretM None
        else
          p <-- kop (get_proc me) ;;
          r <-- mop (copyout (pmem_of p) pagetable sp (arg ++ [0])) ;;
          if r <? 0 then mretM None else push_args argv (argc + 1) pagetable sp stackbase (ustack ++ [sp])
  end.
(** The whole stack: the final [sp]. *)
Definition build_stack (argv : list (list Z)) (pagetable sp stackbase : Z) : M (sys D) (option Z) :=
  r <-- push_args argv 0 pagetable sp stackbase [] ;;
  match r with
  | None => mretM None
  | Some (sp, ustack) =>
      let sp := u64 (sp - (Z.of_nat (length ustack) + 1) * 8) in
      let sp := sp - sp mod 16 in
      if sp <? stackbase then mretM None
      else
        p <-- kop (get_proc me) ;;
        c <-- mop (copyout (pmem_of p) pagetable sp (concat (map (bytes_le 8) (ustack ++ [0])))) ;;
        if c <? 0 then mretM None else mretM (Some sp)
  end.

(** [bad:]. *)
Definition exec_bad (pagetable kpagetable size ep : Z) : M (sys D) Z :=
  whenM (negb (pagetable =? 0)) (mop (proc_freepagetable pagetable size)) ;;;
  whenM (negb (kpagetable =? 0)) (mop (kvmfree kpagetable false)) ;;;
  whenM (negb (ep =? NULL)) (lop me (λ pid, eunlock pid ep ;;; eput pid ep)) ;;;
  mretM (-1).

Definition commit (path : list Z) (pagetable kpagetable size : Z) (p : proc) : proc :=
  set_sz size (set_kpagetable kpagetable (set_pagetable pagetable (set_name (take 15 (last_comp path path)) p))).

(** From the loaded segments to the new image. *)
Definition exec_stack (path : list Z) (argv : list (list Z)) (elf : elfhdr) (pagetable kpagetable size : Z) : M (sys D) Z :=
  p <-- kop (get_proc me) ;;
  let oldsz := sz p in
  let size := PGROUNDUP size in
  sz1 <-- mop (uvmalloc pagetable kpagetable size (u64 (size + 2 * PGSIZE))) ;;
  if sz1 =? 0 then exec_bad pagetable kpagetable size NULL
  else
    mop (uvmclear pagetable (u64 (sz1 - 2 * PGSIZE))) ;;;
    r <-- build_stack argv pagetable sz1 (u64 (sz1 - PGSIZE)) ;;
    match r with
    | None => exec_bad pagetable kpagetable sz1 NULL
    | Some sp =>
        mop (tf_set TF_A1 sp p) ;;;
        kop (on_proc me (commit path pagetable kpagetable sz1)) ;;;
        mop (tf_set TF_EPC (entry elf) p) ;;;
        mop (tf_set TF_SP sp p) ;;;
        mop (proc_freepagetable (ProcDefs.pagetable p) oldsz) ;;;
        mop (kvmfree (ProcDefs.kpagetable p) false) ;;;
        mretM (Z.of_nat (length argv))
    end.

Definition exec (path : list Z) (argv : list (list Z)) : M (sys D) Z :=
  kpagetable <-- mop kalloc ;;
  if kpagetable =? 0 then mretM (-1)
  else
    p <-- kop (get_proc me) ;;
    mop (modify (λ s, set_mem (blit (mem s) kpagetable (ProcDefs.kpagetable p) PGSIZE) s)) ;;;
    forM (seqZ 0 (PX 2 MAXUVA)) (λ i, mop (write_pte (kpagetable + 8 * i) 0)) ;;;
    ep <-- lop me (λ pid, ename pid (cwd p) path) ;;
    if ep =? NULL then exec_bad 0 kpagetable 0 NULL
    else
      lop me (λ pid, elock pid ep) ;;;
      r <-- vop (eread ep (Var []) 0 ELF_SIZE) ;;
      if negb (r.1 =? ELF_SIZE) then exec_bad 0 kpagetable 0 ep
      else
        let elf := elf_of r.2 in
        if negb (magic elf =? ELF_MAGIC) then exec_bad 0 kpagetable 0 ep
        else
          pagetable <-- mop (proc_pagetable (trapframe p)) ;;
          if pagetable =? 0 then exec_bad 0 kpagetable 0 ep
          else
            l <-- load_loop (Z.to_nat (phnum elf)) pagetable kpagetable ep (i32 (phoff elf)) 0 ;;
            if negb (l.1 : bool) then exec_bad pagetable kpagetable l.2 ep
            else
              lop me (λ pid, eunlock pid ep ;;; eput pid ep) ;;;
              exec_stack path argv elf pagetable kpagetable l.2.

(** [sys_exec]: the pages of the arguments fetched so far, and the arguments;
    [None] for [goto bad]. *)
Fixpoint fetch_args (n : nat) (uargv i : Z) (pages : list Z) (argv : list (list Z)) : M (sys D) (list Z * option (list (list Z))) :=
  match n with
  | O => mretM (pages, None)
  | S n =>
      r <-- kop (fetchaddr me (u64 (uargv + 8 * i))) ;;
      if r.1 <? 0 then mretM (pages, None)
      else if r.2 =? 0 then mretM (pages, Some argv)
      else
        pg <-- mop kalloc ;;
        if pg =? 0 then mretM (pages, None)
        else
          q <-- kop (fetchstr me r.2 (Z.to_nat PGSIZE)) ;;
          mop (modify (λ s, set_mem (store_bytes (mem s) pg q.2) s)) ;;;
          if q.1 <? 0 then mretM (pages ++ [pg], None)
          else fetch_args n uargv (i + 1) (pages ++ [pg]) (argv ++ [cstr q.2])
  end.
Definition sys_exec : M (sys D) Z :=
  r <-- argpath me 0 ;;
  if r.1 <? 0 then mretM (-1)
  else
    uargv <-- kop (argaddr me 1) ;;
    a <-- fetch_args (Z.to_nat MAXARG) uargv 0 [] [] ;;
    ret <-- match a.2 with Some argv => exec r.2 argv | None => mretM (-1) end ;;
    forM a.1 (λ pg, mop (kfree pg)) ;;;
    mretM ret.
End Exec.
