(* ===== verification/ExecProps.v ===== *)
(** * Correctness of program loading

    [exec] either fails and leaves every process as it was, or switches the
    caller to the new image; a segment in memory is the segment of the file; the
    stack of the new program holds its arguments the way [main] reads them. *)
From stdpp Require Import prelude list strings.
From Stdlib Require Import ZArith Lia.
From S2P Require Import Prelude Frame Riscv Kalloc VM PageTable PageTableOps UserCopy Vma Pipe File Fat FatProps Calendar FatNames FatFile FatFileProps FatDir ProcDefs Proc Syscall Sysfile SysfileProps Exec.
Open Scope Z_scope.

(** ** What loading may change before the switch *)

(** Only the contents of memory and the allocator differ. *)
Definition same_but_mem (k k' : kern ()) : Prop := k' = set_km (km k') k.
#[export] Instance same_but_mem_preorder : PreOrder same_but_mem.
Proof.
  split; [by intros []|]. unfold same_but_mem. intros k1 k2 k3 -> E. by rewrite E.
Qed.
Definition vfs_kept {D} (v v' : vfs D (kern ())) : Prop := same_but_mem (v_mem v) (v_mem v').
#[export] Instance vfs_kept_preorder D : PreOrder (@vfs_kept D).
Proof. split; [intros v; unfold vfs_kept; done|]. intros v1 v2 v3 H1 H2. unfold vfs_kept in *. by etrans. Qed.
(** The open files, the pipes and the process table are unchanged. *)
Record kept {D} (s s' : sys D) : Prop := {
  kept_files : ftab s' = ftab s;
  kept_pipes : io_pipes (back s') = io_pipes (back s);
  kept_kern : same_but_mem (sys_kern s) (sys_kern s') }.
#[export] Instance kept_preorder D : PreOrder (@kept D).
Proof. split; [intros s; by split|]. intros s1 s2 s3 [A1 B1 C1] [A2 B2 C2]. split; [congruence..|by etrans]. Qed.

(** ** Memories equal byte for byte *)
(** A cell counts modulo [2^8]; everything a page table means respects that. *)
Definition eq8 (m m' : memory) : Prop := ∀ x, load8 m x = load8 m' x.
Section Eq8.
Context (m m' : memory) (Hm : eq8 m m').

Lemma load64_eq8 a : load64 m a = load64 m' a.
Proof. unfold load64. generalize 8%nat. intros n. revert a. induction n as [|n IH]; intros a; [done|]. cbn [load_n]. by rewrite Hm, IH. Qed.
Lemma child_eq8 p i : child m p i = child m' p i.
Proof. unfold child. by rewrite load64_eq8. Qed.
Lemma node_page_eq8 root n : node_page m root n = node_page m' root n.
Proof.
  destruct n as [|i|i j]; cbn [node_page]; [done|apply child_eq8|]. rewrite child_eq8.
  destruct (child m' root i); [apply child_eq8|done].
Qed.
Lemma pte_of_eq8 root a : pte_of m root a = pte_of m' root a.
Proof. unfold pte_of. rewrite node_page_eq8. destruct (node_page _ _ _); [apply load64_eq8|done]. Qed.
Lemma pt_page_eq8 root p : pt_page m' root p → pt_page m root p.
Proof. intros (n & Hn & E). exists n. by rewrite node_page_eq8. Qed.
Lemma uload_eq8 root a : uload m root a = uload m' root a.
Proof. unfold uload, uaddr. rewrite pte_of_eq8. destruct (has _ _); [apply Hm|done]. Qed.
Lemma wf_pt_eq8 `{Layout} root : wf_pt m root → wf_pt m' root.
Proof.
  intros [A B]. split; [intros p Hp; by apply A, pt_page_eq8|]. intros n n' p Hn Hn'. rewrite <- !node_page_eq8. by apply B.
Qed.
Lemma uwritable_eq8 root a n : uwritable m root a n → uwritable m' root a n.
Proof.
  intros [A B C E]. split.
  - intros va Hva. destruct (A va Hva). split; [done|by rewrite <- pte_of_eq8..].
  - intros va Hva. rewrite <- pte_of_eq8. by apply B.
  - intros va p Hva Hp. rewrite <- pte_of_eq8. by apply C; [|apply pt_page_eq8].
  - intros va va' Hva Hva'. rewrite <- !pte_of_eq8. by apply E.
Qed.
End Eq8.

Section Exec.
Context `{LAY : Layout} {D : Type} {SD : Sectors D}.
Context (me : Z).
#[local] Instance prog_mem : UserMem (kern ()) := exec_mem me.

(** ** The frame of each step *)
Lemma vfs_same {A} (c : M (vfs D (kern ())) A) : keeps (same v_mem) c → keeps vfs_kept c.
Proof. apply keeps_impl. intros s s' E. unfold vfs_kept. by rewrite E. Qed.
Lemma keeps_um_kept {A} (c : M (kern ()) A) : keeps same_but_mem c → keeps vfs_kept (um_op c : M (vfs D (kern ())) A).
Proof. intros Hc. eapply keeps_zoom; [exact Hc|done]. Qed.
Lemma keeps_mem_kept {A} (c : M kst A) : keeps same_but_mem (mem_op c).
Proof. apply (keeps_zoom _ (λ _ _, True)); [apply keeps_any|]. by intros [] t _. Qed.
Lemma keeps_get_proc_kept i : keeps same_but_mem (get_proc i).
Proof. apply keeps_gets, _. Qed.
#[local] Hint Resolve keeps_mem_kept keeps_get_proc_kept : keeps.
Lemma keeps_either_out us a bs : keeps same_but_mem (either_copyout me us a bs).
Proof. unfold either_copyout. keeps_auto. Qed.
Lemma keeps_deliver_kept pl tot bs : keeps vfs_kept (deliver pl tot bs : M (vfs D (kern ())) _).
Proof.
  destruct pl as [us a|l]; cbn [deliver]; [|apply keeps_ret, _]. apply keeps_um_kept. apply keeps_either_out.
Qed.
#[local] Hint Resolve keeps_deliver_kept : keeps.
Lemma keeps_fat_kept {A} (c : M (fatfs D) A) : keeps vfs_kept (fat_op c : M (vfs D (kern ())) A).
Proof. apply vfs_same, keeps_fat_op. Qed.
Lemma keeps_geo_kept : keeps vfs_kept (get_geo : M (vfs D (kern ())) _).
Proof. apply keeps_gets, _. Qed.
Lemma keeps_ent_kept e : keeps vfs_kept (get_ent e : M (vfs D (kern ())) _).
Proof. apply keeps_gets, _. Qed.
Lemma keeps_reloc_kept e off a : keeps vfs_kept (reloc_clus e off a : M (vfs D (kern ())) _).
Proof. apply vfs_same, keeps_reloc_clus. Qed.
#[local] Hint Resolve keeps_fat_kept keeps_geo_kept keeps_ent_kept keeps_reloc_kept : keeps.
Lemma keeps_rw_kept fuel pl base sec off tot n acc :
  keeps vfs_kept (rw_loop fuel false pl base sec off tot n acc : M (vfs D (kern ())) _).
Proof. revert sec off tot acc. induction fuel; intros; cbn [rw_loop]; keeps_auto. Qed.
#[local] Hint Resolve keeps_rw_kept : keeps.
Lemma keeps_io_kept fuel e pl off tot n acc :
  keeps vfs_kept (io_loop fuel false e pl off tot n acc : M (vfs D (kern ())) _).
Proof. revert off tot acc. induction fuel; intros; cbn [io_loop]; unfold rw_clus; keeps_auto. Qed.
#[local] Hint Resolve keeps_io_kept : keeps.
Lemma keeps_eread_kept e pl off n : keeps vfs_kept (eread e pl off n : M (vfs D (kern ())) _).
Proof. unfold eread. keeps_auto. Qed.

Lemma keeps_vop_kept {A} (c : M (vfs D (kern ())) A) : keeps vfs_kept c → keeps kept (vop c).
Proof.
  intros Hc. eapply (keeps_zoom _ (λ b b', io_pipes b' = io_pipes b ∧ vfs_kept (io_fs b) (io_fs b'))).
  - eapply keeps_zoom; [exact Hc|]. done.
  - intros s b [E1 E2]. by split.
Qed.
Lemma keeps_kop_kept {A} (c : M (kern ()) A) : keeps same_but_mem c → keeps kept (kop c : M (sys D) A).
Proof. intros Hc. apply keeps_vop_kept. eapply keeps_zoom; [exact Hc|done]. Qed.
Lemma keeps_mop_kept {A} (c : M kst A) : keeps kept (mop c : M (sys D) A).
Proof. apply keeps_kop_kept, keeps_mem_kept. Qed.
Lemma keeps_lop_kept {A} (c : Z → M (vfs D (kern ())) A) : (∀ pid, keeps (same v_mem) (c pid)) → keeps kept (lop me c).
Proof.
  intros Hc s a s' E. apply (keeps_vop_kept (c (p_pid (procs (sys_kern s) me))) (vfs_same _ (Hc _)) s a s').
  rewrite <- E. unfold lop, vop, back_op, zoom, lio. by rewrite (mbindM_Ok _ _ _ _ _ (my_pid_run me (back s))).
Qed.
Lemma keeps_vread_kept e pl off n : keeps kept (vop (eread e pl off n) : M (sys D) _).
Proof. apply keeps_vop_kept, keeps_eread_kept. Qed.
Lemma keeps_proc_kept i : keeps kept (kop (get_proc i) : M (sys D) _).
Proof. apply keeps_kop_kept, keeps_get_proc_kept. Qed.
#[local] Hint Resolve keeps_mop_kept keeps_vread_kept keeps_proc_kept : keeps.
Lemma keeps_put_kept e : keeps kept (lop me (λ pid, eunlock pid e ;;; eput pid e) : M (sys D) _).
Proof. apply keeps_lop_kept. intros pid. keeps_auto. Qed.
Lemma keeps_lock_kept e : keeps kept (lop me (λ pid, elock pid e) : M (sys D) _).
Proof. apply keeps_lop_kept. intros pid. keeps_auto. Qed.
Lemma keeps_name_kept dir path : keeps kept (lop me (λ pid, ename pid dir path) : M (sys D) _).
Proof. apply keeps_lop_kept. intros pid. keeps_auto. Qed.
#[local] Hint Resolve keeps_put_kept keeps_lock_kept keeps_name_kept : keeps.

Lemma keeps_loadseg_loop fuel pt va ep off i size : keeps kept (loadseg_loop me fuel pt va ep off i size : M (sys D) Z).
Proof. revert i. induction fuel; intros; cbn [loadseg_loop]; keeps_auto. Qed.
#[local] Hint Resolve keeps_loadseg_loop : keeps.
Lemma keeps_loadseg pt va ep off size : keeps kept (loadseg me pt va ep off size : M (sys D) Z).
Proof. unfold loadseg. keeps_auto. Qed.
#[local] Hint Resolve keeps_loadseg : keeps.
Lemma keeps_load_loop n pt kpt ep off size : keeps kept (load_loop me n pt kpt ep off size : M (sys D) _).
Proof. revert off size. induction n; intros; cbn [load_loop]; keeps_auto. Qed.
Lemma keeps_push_args argv argc pt sp base us : keeps kept (push_args me argv argc pt sp base us : M (sys D) _).
Proof. revert argc sp us. induction argv; intros; cbn [push_args]; keeps_auto. Qed.
#[local] Hint Resolve keeps_load_loop keeps_push_args : keeps.
Lemma keeps_build_stack argv pt sp base : keeps kept (build_stack me argv pt sp base : M (sys D) _).
Proof. unfold build_stack. keeps_auto. Qed.
Lemma keeps_exec_bad pt kpt size ep : keeps kept (exec_bad me pt kpt size ep : M (sys D) Z).
Proof. unfold exec_bad. keeps_auto. Qed.

(** ** All or nothing *)
(** The caller has been given the new image and nothing else happened. *)
Definition committed (path : list Z) (pt kpt size : Z) (s : sys D) : sys D :=
  let k := sys_kern s in
  let v := io_fs (back s) in
  Ftable (ftab s) (Io (Vfs (v_fat v) (set_procs (upd (procs k) me (commit path pt kpt size (procs k me))) k)
    (v_ent v) (v_nxt v) (v_prv v)) (io_pipes (back s))).
Lemma committed_run path pt kpt size s :
  kop (on_proc me (commit path pt kpt size)) s = Ok tt (committed path pt kpt size s).
Proof. by destruct s as [? [[] ?]]. Qed.
Lemma committed_kept path pt kpt size s s' : kept s s' → kept (committed path pt kpt size s) (committed path pt kpt size s').
Proof.
  intros [A B C]. split; [done|done|]. unfold committed. change (sys_kern (Ftable ?a (Io (Vfs ?f ?k ?e ?n ?p) ?i))) with k.
  unfold same_but_mem in *. rewrite C. done.
Qed.
Definition outcome (path : list Z) (argc : Z) (s : sys D) (r : Z) (s' : sys D) : Prop :=
  (r = -1 ∧ kept s s') ∨
  (r = argc ∧ ∃ pt kpt size, kept (committed path pt kpt size s) s').
Definition attempt (path : list Z) (argc : Z) (c : M (sys D) Z) : Prop := ∀ s r s', c s = Ok r s' → outcome path argc s r s'.

Lemma attempt_bind {A} path argc (c : M (sys D) A) (f : A → M (sys D) Z) :
  keeps kept c → (∀ a, attempt path argc (f a)) → attempt path argc (mbindM c f).
Proof.
  intros Hc Hf s r s' (a & s1 & E1 & E2)%mbindM_inv. pose proof (Hc _ _ _ E1) as H1.
  destruct (Hf _ _ _ _ E2) as [[-> H]|(-> & pt & kpt & size & H)]; [left; split; [done|by etrans]|].
  right. split; [done|]. exists pt, kpt, size. etrans; [by apply committed_kept|done].
Qed.
Lemma attempt_fail path argc : attempt path argc (mretM (-1)).
Proof. intros s r s' [= <- <-]. by left. Qed.
Lemma attempt_bad path argc pt kpt size ep : attempt path argc (exec_bad me pt kpt size ep).
Proof. repeat (apply attempt_bind; [keeps_auto|intros ?]). apply attempt_fail. Qed.
Lemma attempt_commit path argc pt kpt size (c : M (sys D) Z) :
  (∀ s r s', c s = Ok r s' → r = argc) → keeps kept c →
  attempt path argc (kop (on_proc me (commit path pt kpt size)) ;;; c).
Proof.
  intros Hr Hc s r s' (a & s1 & E1 & E2)%mbindM_inv. rewrite committed_run in E1. injection E1 as <- <-.
  right. split; [by eapply Hr|]. exists pt, kpt, size. by eapply Hc.
Qed.
Lemma result_bind {S A B} (c : M S A) (f : A → M S B) (P : B → Prop) :
  (∀ a s r s', f a s = Ok r s' → P r) → ∀ s r s', mbindM c f s = Ok r s' → P r.
Proof. intros Hf s r s' (a & s1 & E1 & E2)%mbindM_inv. by eapply Hf. Qed.

Ltac attempt_step :=
  first
    [ apply attempt_fail | apply attempt_bad
    | match goal with |- attempt _ _ (if ?b then _ else _) => destruct b end
    | match goal with |- attempt _ _ (match ?b with _ => _ end) => destruct b end
    | progress cbv zeta
    | apply attempt_bind; [solve [keeps_auto]|intros ?] ].

Lemma exec_stack_outcome path argv elf pt kpt size :
  attempt path (Z.of_nat (length argv)) (exec_stack me path argv elf pt kpt size).
Proof.
  pose proof (keeps_build_stack). unfold exec_stack. repeat attempt_step. apply attempt_commit; [|keeps_auto].
  do 4 (apply result_bind; intros _). by intros s r s' [= <- _].
Qed.
Lemma exec_outcome path argv : attempt path (Z.of_nat (length argv)) (exec me path argv).
Proof. unfold exec. repeat first [apply exec_stack_outcome|attempt_step]. Qed.

(** ** The argument stack *)
Definition with_km (m : kst) (s : sys D) : sys D :=
  Ftable (ftab s) (Io (with_mem (set_km m (sys_kern s)) (io_fs (back s))) (io_pipes (back s))).
Lemma mop_run {A} (c : M kst A) (s : sys D) :
  mop c s = match c (km (sys_kern s)) with Ok a m => Ok a (with_km m s) | Panic e => Panic e end.
Proof.
  unfold mop, kop, kio, vio, um_op, back_op, mem_op, zoom. fold (io_kern (back s)). fold (sys_kern s).
  by destruct (c (km (sys_kern s))).
Qed.
Lemma km_with m s : km (sys_kern (with_km m s)) = m.
Proof. done. Qed.
Lemma with_km_with m m' s : with_km m' (with_km m s) = with_km m' s.
Proof. done. Qed.
Lemma with_km_id s : with_km (km (sys_kern s)) s = s.
Proof. by destruct s as [? [[? [] ? ? ?] ?]]. Qed.

(** Where each argument goes, from [sp] down; the last address. *)
Definition align16 (x : Z) : Z := x - x mod 16.
Fixpoint arg_addrs (argv : list (list Z)) (sp : Z) : list Z :=
  match argv with
  | [] => []
  | arg :: argv => let sp := align16 (sp - (Z.of_nat (length arg) + 1)) in sp :: arg_addrs argv sp
  end.
Fixpoint args_bottom (argv : list (list Z)) (sp : Z) : Z :=
  match argv with [] => sp | arg :: argv => args_bottom argv (align16 (sp - (Z.of_nat (length arg) + 1))) end.
Definition stack_bottom (argv : list (list Z)) (sp : Z) : Z :=
  align16 (args_bottom argv sp - (Z.of_nat (length argv) + 1) * 8).

Lemma align16_bounds x : x - 16 < align16 x ≤ x.
Proof. unfold align16. pose proof (Z.mod_pos_bound x 16 ltac:(done)). lia. Qed.
Lemma align16_aligned x : align16 x mod 16 = 0.
Proof. unfold align16. rewrite Zminus_mod_idemp_r, Z.sub_diag. done. Qed.
Lemma args_bottom_le argv sp : args_bottom argv sp ≤ sp.
Proof.
  revert sp. induction argv as [|arg argv IH]; intros sp; [done|]. cbn [args_bottom].
  pose proof (IH (align16 (sp - (Z.of_nat (length arg) + 1)))). pose proof (align16_bounds (sp - (Z.of_nat (length arg) + 1))). lia.
Qed.
Lemma arg_addrs_bounds argv sp i a arg :
  arg_addrs argv sp !! i = Some a → argv !! i = Some arg → args_bottom argv sp ≤ a ∧ a + Z.of_nat (length arg) + 1 ≤ sp.
Proof.
  revert sp i. induction argv as [|arg0 argv IH]; intros sp i; [done|]. cbn [args_bottom arg_addrs].
  set (sp1 := align16 _). assert (sp1 ≤ sp - (Z.of_nat (length arg0) + 1)) by apply align16_bounds.
  pose proof (args_bottom_le argv sp1).
  destruct i as [|i]; [intros [= <-] [= <-]; lia|]. intros H1 H2. destruct (IH sp1 i H1 H2). lia.
Qed.

(** The process sees [bs] at [a]. *)
Definition holds (m : memory) (root a : Z) (bs : list Z) : Prop :=
  ∀ j b, bs !! j = Some b → uload m root (a + Z.of_nat j) = u8 b.
(** Between [m] and [m'] the process sees a difference only in [lo..hi). *)
Record touched (m m' : kst) (root lo hi : Z) : Prop := {
  to_other : m' = set_mem (mem m') m;
  to_table : agree_on (mem m) (mem m') (pt_page (mem m) root);
  to_bytes : ∀ va, 0 ≤ va < MAXVA → ¬ (lo ≤ va < hi) → uload (mem m') root va = uload (mem m) root va }.
Lemma touched_refl m root lo hi : touched m m root lo hi.
Proof. split; [by destruct m|done|done]. Qed.
Lemma touched_trans m m1 m2 root lo hi lo' hi' :
  lo' ≤ lo → hi ≤ hi' → touched m m1 root lo hi → touched m1 m2 root lo' hi' → touched m m2 root lo' hi'.
Proof.
  intros Hl Hh [A1 B1 C1] [A2 B2 C2]. split; [rewrite A2, A1; by destruct m|by eapply agree_trans|].
  intros va Hva Hn. rewrite C2, C1 by (done || lia). done.
Qed.
Lemma touched_le m m' root lo hi lo' hi' : lo' ≤ lo → hi ≤ hi' → touched m m' root lo hi → touched m m' root lo' hi'.
Proof. intros Hl Hh [A B C]. split; [done|done|]. intros va Hva Hn. apply C; [done|lia]. Qed.
Lemma written_touched m m' root a bs : UserCopy.written m m' root a bs → touched m m' root a (a + Z.of_nat (length bs)).
Proof.
  intros [A B C]. split; [done|done|]. intros va Hva Hn. rewrite C by done. by rewrite (proj2 (in_range_false _ _ _)).
Qed.
Lemma written_holds m m' root a bs : 0 ≤ a → a + Z.of_nat (length bs) ≤ MAXVA → UserCopy.written m m' root a bs → holds (mem m') root a bs.
Proof.
  intros Ha Hm [_ _ C] j b Hj. pose proof (lookup_lt_Some _ _ _ Hj). rewrite C by lia.
  rewrite (proj2 (in_range_true _ _ _)) by lia. by rewrite Z.add_simpl_l, Nat2Z.id, nth_lookup, Hj.
Qed.
Lemma holds_touched m m' root a bs lo hi :
  touched m m' root lo hi → hi ≤ a ∨ a + Z.of_nat (length bs) ≤ lo → 0 ≤ a → a + Z.of_nat (length bs) ≤ MAXVA →
  holds (mem m) root a bs → holds (mem m') root a bs.
Proof.
  intros Ht Hd Ha Hm Hh j b Hj. pose proof (lookup_lt_Some _ _ _ Hj). rewrite (to_bytes _ _ _ _ _ Ht) by lia. by apply Hh.
Qed.

(** The stack region from [base] to [top] of the table at [root] is usable. *)
Record stack_ok (m : kst) (root base top : Z) : Prop := {
  so_wf : wf_pt (mem m) root;
  so_w : uwritable (mem m) root base (top - base);
  so_base : PGSIZE ≤ base;
  so_top : top ≤ MAXVA }.
Lemma stack_ok_touched m m' root base top lo hi : touched m m' root lo hi → stack_ok m root base top → stack_ok m' root base top.
Proof.
  intros Ht [A B C E]. split; [|..|done|done].
  - by apply (wf_pt_agree (mem m)), A; apply Ht.
  - by apply (uwritable_agree (mem m)), B; apply Ht.
Qed.
Lemma stack_copyout p m root base top a bs :
  stack_ok m root base top → base ≤ a → a + Z.of_nat (length bs) ≤ top →
  ∃ m', copyout p root a bs m = Ok 0 m' ∧ touched m m' root a (a + Z.of_nat (length bs)) ∧ holds (mem m') root a bs.
Proof.
  intros [A B C E] Ha Ht. destruct (copyout_spec p root a bs m A) as (m' & Ec & Hw); [by eapply uwritable_sub; [..|exact B]; lia|].
  exists m'. split; [done|]. split; [by apply written_touched|]. eapply written_holds; [..|exact Hw]; unfold PGSIZE in *; lia.
Qed.

Definition args_at (m : memory) (root : Z) (argv : list (list Z)) (addrs : list Z) : Prop :=
  length addrs = length argv ∧
  ∀ i a arg, addrs !! i = Some a → argv !! i = Some arg → a mod 16 = 0 ∧ holds m root a (arg ++ [0]).

Lemma push_args_spec argv argc root sp base top us s :
  let m := km (sys_kern s) in
  stack_ok m root base top → base ≤ sp ≤ top → 0 ≤ argc → Forall (λ arg, Z.of_nat (length arg) < PGSIZE) argv →
  let b := args_bottom argv sp in
  let fits := (argc + Z.of_nat (length argv) <=? MAXARG) && (base <=? b) in
  ∃ m', push_args me argv argc root sp base us s =
      Ok (if fits || bool_decide (argv = []) then Some (b, us ++ arg_addrs argv sp) else None) (with_km m' s) ∧
    touched m m' root base sp ∧
    (fits = true → touched m m' root b sp ∧ args_at (mem m') root argv (arg_addrs argv sp)).
Proof.
  revert argc sp us s. induction argv as [|arg argv IH]; intros argc sp us s m Hok Hsp Hc Hl; assert (with_km m s = s) as Eid by apply with_km_id.
  { cbn. exists m. rewrite Eid, app_nil_r, orb_true_r. split; [done|]. split; [apply touched_refl|].
    intros _. split; [apply touched_refl|]. split; [done|]. intros i a arg. done. }
  apply Forall_cons in Hl as [Hl0 Hl]. cbn [args_bottom arg_addrs push_args].
  set (sp1 := align16 (sp - (Z.of_nat (length arg) + 1))).
  pose proof (align16_bounds (sp - (Z.of_nat (length arg) + 1))) as Hs1. fold sp1 in Hs1.
  pose proof (args_bottom_le argv sp1) as Hb. pose proof (so_base _ _ _ _ Hok). pose proof (so_top _ _ _ _ Hok).
  assert (bool_decide (arg :: argv = []) = false) as -> by (by apply bool_decide_eq_false). rewrite orb_false_r.
  assert (argc + Z.of_nat (length (arg :: argv)) = argc + 1 + Z.of_nat (length argv)) as -> by (simpl; lia).
  destruct (Z.leb_spec MAXARG argc).
  { rewrite (proj2 (Z.leb_gt _ _)) by lia. cbn [andb]. exists m. rewrite Eid. split; [done|]. split; [apply touched_refl|done]. }
  rewrite u64_small by (unfold PGSIZE, MAXVA in *; lia). fold (align16 (sp - (Z.of_nat (length arg) + 1))). fold sp1.
  destruct (Z.ltb_spec sp1 base).
  { rewrite (proj2 (Z.leb_gt base _)) by lia. rewrite andb_false_r. exists m. rewrite Eid. split; [done|].
    split; [apply touched_refl|done]. }
  rewrite (mbindM_Ok _ _ _ _ _ (get_proc_kop me s)).
  destruct (stack_copyout (pmem_of (procs (sys_kern s) me)) m root base top sp1 (arg ++ [0]) Hok) as (m1 & E1 & T1 & Hh1);
    [lia|rewrite length_app; simpl; lia|]. rewrite length_app in T1. simpl in T1.
  rewrite (mbindM_Ok _ _ s 0 (with_km m1 s)) by (rewrite mop_run; fold m; by rewrite E1). cbn [Z.ltb Z.compare].
  destruct (IH (argc + 1) sp1 (us ++ [sp1]) (with_km m1 s)) as (m' & E & T & Hfit);
    [by eapply stack_ok_touched|lia|lia|done|]. rewrite km_with in T, Hfit. rewrite with_km_with in E.
  exists m'. rewrite E, <- app_assoc. split; [|split].
  - f_equal. destruct argv as [|a2 argv].
    + cbn [length arg_addrs args_bottom]. rewrite (proj2 (Z.leb_le base sp1)), (proj2 (Z.leb_le _ MAXARG)) by (simpl; lia). done.
    + assert (bool_decide (a2 :: argv = []) = false) as -> by (by apply bool_decide_eq_false). by rewrite orb_false_r.
  - apply (touched_trans m m1 m' root base sp); [lia|lia|eapply touched_le; [..|exact T1]; lia|eapply touched_le; [..|exact T]; lia].
  - intros Hf. destruct (Hfit Hf) as [T2 [Hlen Hargs]]. split.
    + apply (touched_trans m m1 m' root (args_bottom argv sp1) sp); [lia|lia|eapply touched_le; [..|exact T1]; lia|eapply touched_le; [..|exact T2]; lia].
    + split; [simpl; lia|]. intros [|i] a x; [|apply Hargs]. intros [= <-] [= <-]. split; [apply align16_aligned|].
      eapply holds_touched; [exact T2|left; lia|unfold PGSIZE in *; lia|rewrite length_app; simpl; lia|done].
Qed.

(** The 64-bit word the process reads at [a]. *)
Definition uword (m : memory) (root a : Z) : Z := le_bytes (map (uload m root) (seqZ a 8)).
Lemma le_bytes_le n v : 0 ≤ v < 2 ^ (8 * Z.of_nat n) → le_bytes (bytes_le n v) = v.
Proof.
  revert v. induction n as [|n IH]; intros v Hv; [cbn in *; lia|]. unfold bytes_le. cbn [seq map le_bytes foldr].
  rewrite <- (seq_shift n 0), map_map. fold le_bytes.
  assert (map (λ x, (v / 2 ^ (8 * Z.of_nat (S x))) mod 2 ^ 8) (seq 0 n) = bytes_le n (v / 2 ^ 8)) as ->.
  { unfold bytes_le. apply map_ext. intros i. rewrite Z.div_div by lia. rewrite <- Z.pow_add_r by lia.
    do 3 f_equal. lia. }
  change (foldr _ 0 ?l) with (le_bytes l). rewrite IH.
  - rewrite Z.mul_0_r, Z.pow_0_r, Z.div_1_r. pose proof (Z.div_mod v (2 ^ 8) ltac:(done)). lia.
  - split; [apply Z.div_pos; lia|]. apply Z.div_lt_upper_bound; [done|]. rewrite <- Z.pow_add_r by lia.
    replace (8 + 8 * Z.of_nat n) with (8 * Z.of_nat (S n)) by lia. lia.
Qed.
Lemma length_bytes_le n v : length (bytes_le n v) = n.
Proof. unfold bytes_le. by rewrite length_map, length_seq. Qed.
Lemma words_lookup l i v j : l !! i = Some v → (j < 8)%nat →
  concat (map (bytes_le 8) l) !! (8 * i + j)%nat = bytes_le 8 v !! j.
Proof.
  revert i. induction l as [|x l IH]; intros [|i] Hi Hj; try done; cbn [map concat].
  - injection Hi as ->. rewrite lookup_app_l by (rewrite length_bytes_le; lia). done.
  - rewrite lookup_app_r by (rewrite length_bytes_le; lia). rewrite length_bytes_le.
    replace (8 * S i + j - 8)%nat with (8 * i + j)%nat by lia. by apply IH.
Qed.
Lemma length_words l : length (concat (map (bytes_le 8) l)) = (8 * length l)%nat.
Proof. induction l as [|x l IH]; [done|]. cbn [map concat]. rewrite length_app, length_bytes_le, IH. simpl. lia. Qed.
Lemma holds_word m root a l i v :
  holds m root a (concat (map (bytes_le 8) l)) → l !! i = Some v → 0 ≤ v < 2 ^ 64 → uword m root (a + 8 * Z.of_nat i) = v.
Proof.
  intros Hh Hi Hv. rewrite <- (le_bytes_le 8 v) by done. unfold uword. f_equal.
  apply (list_eq_same_length _ _ 8); [apply length_bytes_le|by rewrite length_map, length_seqZ|].
  intros j x y Hj. change (map ?f ?l) with (f <$> l). intros Hx Hy. apply list_lookup_fmap_Some in Hx as (z & -> & Hz).
  apply lookup_seqZ in Hz as [-> _]. rewrite <- Z.add_assoc. replace (8 * Z.of_nat i + Z.of_nat j) with (Z.of_nat (8 * i + j)) by lia.
  rewrite (Hh _ y) by (by rewrite (words_lookup l i v j Hi Hj)).
  unfold bytes_le in Hy. apply list_lookup_fmap_Some in Hy as (k & -> & _). apply u8_small. apply Z.mod_pos_bound. done.
Qed.
Lemma length_arg_addrs argv sp : length (arg_addrs argv sp) = length argv.
Proof. revert sp. induction argv as [|arg argv IH]; intros sp; [done|]. simpl. by rewrite IH. Qed.

(** The stack [main(argc, argv)] finds at [sp]: [argv] is an array of pointers,
    one per argument and a null one, and each points to its string. *)
Record main_stack (m : memory) (root sp : Z) (argv : list (list Z)) (addrs : list Z) : Prop := {
  ms_align : sp mod 16 = 0;
  ms_args : args_at m root argv addrs;
  ms_argv : ∀ i v, (addrs ++ [0]) !! i = Some v → uword m root (sp + 8 * Z.of_nat i) = v }.

Lemma build_stack_spec argv root base top s :
  let m := km (sys_kern s) in
  stack_ok m root base top → base ≤ top → Forall (λ arg, Z.of_nat (length arg) < PGSIZE) argv →
  let sp := stack_bottom argv top in
  let fits := (Z.of_nat (length argv) <=? MAXARG) && (base <=? sp) in
  ∃ m', build_stack me argv root top base s = Ok (if fits then Some sp else None) (with_km m' s) ∧
    touched m m' root base top ∧ (fits = true → main_stack (mem m') root sp argv (arg_addrs argv top)).
Proof.
  intros m Hok Hbt Hl sp fits. pose proof (so_base _ _ _ _ Hok) as Hb0. pose proof (so_top _ _ _ _ Hok) as Ht0.
  destruct (push_args_spec argv 0 root top base top [] s Hok ltac:(lia) ltac:(lia) Hl) as (m1 & E1 & T1 & H1).
  unfold build_stack. rewrite (mbindM_Ok _ _ _ _ _ E1). fold m in T1, H1. rewrite Z.add_0_l in *.
  set (b := args_bottom argv top) in *. set (w := (Z.of_nat (length argv) + 1) * 8) in *.
  pose proof (align16_bounds (b - w)) as Hsp. change (align16 (b - w)) with sp in Hsp. cbn [app].
  assert (0 < w) as Hw by (unfold w; lia).
  destruct ((Z.of_nat (length argv) <=? MAXARG) && (base <=? b)) eqn:Ef.
  2:{ assert (fits = false) as ->.
      { unfold fits. destruct (Z.leb_spec (Z.of_nat (length argv)) MAXARG); [|done]. cbn [andb] in *. bool_prop. apply Z.leb_gt. lia. }
      exists m1. destruct (bool_decide (argv = [])) eqn:Ea; cbn [orb]; [|done].
      exfalso. apply bool_decide_eq_true in Ea as ->. unfold b in Ef. change (base <=? top = false) in Ef. bool_prop. lia. }
  cbn [orb]. destruct (H1 eq_refl) as [T1b Ha]. bool_prop. rewrite length_arg_addrs. fold w.
  pose proof (args_bottom_le argv top) as Hbl. fold b in Hbl.
  rewrite u64_small by (unfold w, PGSIZE, MAXVA, MAXARG in *; lia). fold (align16 (b - w)). change (align16 (b - w)) with sp.
  destruct (Z.ltb_spec sp base) as [Hlt|Hge].
  { assert (fits = false) as -> by (unfold fits; rewrite (proj2 (Z.leb_gt base sp)) by done; apply andb_false_r). by exists m1. }
  assert (fits = true) as -> by (unfold fits; rewrite !(proj2 (Z.leb_le _ _)) by done; done).
  rewrite (mbindM_Ok _ _ _ _ _ (get_proc_kop me _)).
  destruct (stack_copyout (pmem_of (procs (sys_kern (with_km m1 s)) me)) m1 root base top sp
    (concat (map (bytes_le 8) (arg_addrs argv top ++ [0])))) as (m2 & E2 & T2 & H2).
  { by eapply stack_ok_touched. }
  { done. }
  { rewrite length_words, length_app, length_arg_addrs. simpl. unfold w in *. lia. }
  rewrite length_words, length_app, length_arg_addrs in T2. simpl in T2.
  rewrite (mbindM_Ok _ _ _ 0 (with_km m2 s)) by (rewrite mop_run; change (km (sys_kern (with_km m1 s))) with m1; by rewrite E2).
  exists m2. split; [done|]. split.
  { apply (touched_trans m m1 m2 root base top); [lia|lia|done|eapply touched_le; [..|exact T2]; unfold w in *; lia]. }
  intros _. split; [apply align16_aligned|..].
  - destruct Ha as [Hlen Ha]. split; [done|]. intros i a arg Hi Hg. destruct (Ha i a arg Hi Hg) as [A1 A2]. split; [done|].
    destruct (arg_addrs_bounds argv top i a arg Hi Hg) as [B1 B2]. fold b in B1.
    eapply holds_touched; [exact T2|left; unfold w in *; lia|unfold PGSIZE in *; lia|rewrite length_app; simpl; lia|done].
  - intros i v Hi. eapply holds_word; [exact H2|exact Hi|]. apply lookup_app_Some in Hi as [Hi|[_ Hi]].
    + destruct (lookup_lt_is_Some_2 argv i) as [arg Hg]; [rewrite <- (length_arg_addrs argv top); by eapply lookup_lt_Some|].
      destruct (arg_addrs_bounds argv top i v arg Hi Hg) as [B1 B2]. fold b in B1. unfold PGSIZE, MAXVA in *. lia.
    + apply list_lookup_singleton_Some in Hi as [_ <-]. lia.
Qed.

(** ** Segments *)
Lemma eread_past (v : vfs D (kern ())) e pl off n :
  file_size (v_ent v e) < off → eread e pl off n v = Ok (0, []) v.
Proof. intros Hf. unfold eread, get_ent, mbindM at 1, gets. by rewrite (proj2 (Z.ltb_lt _ _) Hf). Qed.

Definition with_fs (v : vfs D (kern ())) (s : sys D) : sys D := Ftable (ftab s) (Io v (io_pipes (back s))).
Lemma vop_run {A} (c : M (vfs D (kern ())) A) (s : sys D) :
  vop c s = match c (io_fs (back s)) with Ok a v => Ok a (with_fs v s) | Panic e => Panic e end.
Proof. unfold vop, vio, back_op, zoom. by destruct (c (io_fs (back s))). Qed.

Lemma open_file_post (v v' : vfs D (kern ())) e l b : open_file v e l → io_post v v' e l b → open_file v' e l.
Proof.
  intros [A B C] [A' B' _ D' (c & k & E') _]. split; [done|done|]. rewrite B', E', Z.eqb_refl. done.
Qed.
Lemma io_post_ent (v v' : vfs D (kern ())) e l b : io_post v v' e l b →
  file_size (v_ent v' e) = file_size (v_ent v e) ∧ attribute (v_ent v' e) = attribute (v_ent v e).
Proof. intros [_ _ _ _ (c & k & E) _]. rewrite E, Z.eqb_refl. done. Qed.
Lemma io_post_fbyte (v v' : vfs D (kern ())) e l : io_post v v' e l (bytes_now v) → ∀ i, fbyte (v_fat v') l i = fbyte (v_fat v) l i.
Proof. intros Hp i. unfold fbyte. by rewrite (ip_geo _ _ _ _ _ Hp), (ip_byte _ _ _ _ _ Hp). Qed.

(** What one round of [loadseg] finds: the segment's pages in the table, the
    program file open. *)
Record seg_ok (s : sys D) (root va size e : Z) (l : list Z) : Prop := {
  sg_wf : wf_pt (mem (km (sys_kern s))) root;
  sg_w : uwritable (mem (km (sys_kern s))) root va size;
  sg_frames : ∀ x, va ≤ x < va + size → page_ok (PTE2PA (pte_of (mem (km (sys_kern s))) root x));
  sg_open : open_file (io_fs (back s)) e l;
  sg_file : has (attribute (v_ent (io_fs (back s)) e)) ATTR_DIRECTORY = false;
  sg_size : file_size (v_ent (io_fs (back s)) e) < 2 ^ 31 }.
Definition seen (s : sys D) (root x : Z) : Z := uload (mem (km (sys_kern s))) root x.
Definition prog_byte (s : sys D) (l : list Z) (i : Z) : Z := fbyte (v_fat (io_fs (back s))) l i.
Definition prog_size (s : sys D) (e : Z) : Z := file_size (v_ent (io_fs (back s)) e).

(** One page of a segment. *)
Lemma load_page s root va size e l a n off :
  seg_ok s root va size e l → va ≤ a → 0 < n → a + n ≤ va + size → n ≤ PGSIZE → a mod PGSIZE = 0 →
  0 ≤ off → off + n < 2 ^ 32 →
  ∃ r s', vop (eread e (Mem false (PTE2PA (pte_of (mem (km (sys_kern s))) root a))) off n) s = Ok r s' ∧
    (r.1 = n ↔ off + n ≤ prog_size s e) ∧ seg_ok s' root va size e l ∧
    prog_size s' e = prog_size s e ∧ (∀ i, prog_byte s' l i = prog_byte s l i) ∧
    (off + n ≤ prog_size s e → ∀ x, 0 ≤ x < MAXVA → seen s' root x =
      if in_range a n x then u8 (prog_byte s l (off + (x - a))) else seen s root x).
Proof.
  intros [A B C E F G] Ha Hn Hs Hp Hal Ho H32. set (m := mem (km (sys_kern s))) in *. set (pa := PTE2PA (pte_of m root a)).
  rewrite vop_run. unfold prog_size, prog_byte, seen. fold m. set (v := io_fs (back s)) in *.
  destruct (Z.lt_ge_cases (file_size (v_ent v e)) off) as [Hpast|Hin].
  { exists (0, []), (with_fs v s). rewrite eread_past by done. split; [done|]. split; [simpl; lia|]. split; [by split|].
    split; [done|]. split; [done|]. intros. lia. }
  assert (page_ok pa) as Hpa by (apply C; lia). pose proof (page_ok_range _ Hpa) as Hpr.
  destruct (eread_spec v e l (Mem false pa) off n E F ltac:(lia) ltac:(lia) H32 G) as (v' & Er & Hpost & Hdel).
  { cbn. unfold kwritable. split_and!; [unfold KERNBASE in *; lia|unfold PHYSTOP, PGSIZE in *; lia|done]. }
  set (k := Z.min n (file_size (v_ent v e) - off)) in *. set (bs := run (fbyte (v_fat v) l) off k) in *.
  rewrite Er. exists (k, bs), (with_fs v' s). split; [done|]. destruct (io_post_ent _ _ _ _ _ Hpost) as [Es Eat].
  assert (length bs = Z.to_nat k) as Hlb by apply length_run_nat.
  assert (eq8 (store_bytes m pa bs) (mem (km (v_mem v')))) as H8.
  { intros x. pose proof (Hdel x) as Hx. cbn in Hx. rewrite Z.add_0_r in Hx. unfold kbyte, proc_mem in Hx.
    change (load8 (mem (km (sys_kern (with_fs v' s)))) x) with (load8 (mem (km (v_mem v'))) x). rewrite Hx.
    unfold store_bytes, load8. destruct (in_range pa _ x); [apply u8_idem|done]. }
  assert (uwritable m root a n) as Ba by (eapply uwritable_sub; [..|exact B]; lia).
  assert (page_left a = PGSIZE) as Epl by (unfold page_left; rewrite (PGROUNDDOWN_id a) by done; lia).
  destruct (page_store m root a bs n A Ba Hn) as [Hag Hst]; [rewrite Epl; lia|].
  rewrite (PGROUNDDOWN_id a), Z.sub_diag, Z.add_0_r in Hag, Hst by done. fold pa in Hag, Hst.
  split; [simpl; lia|]. split; [|split; [done|split; [by eapply io_post_fbyte|]]].
  - split.
    + eapply wf_pt_eq8; [exact H8|]. by apply (wf_pt_agree m).
    + eapply uwritable_eq8; [exact H8|]. by apply (uwritable_agree m).
    + intros x Hx. change (mem (km (sys_kern (with_fs v' s)))) with (mem (km (v_mem v'))). rewrite <- (pte_of_eq8 _ _ H8), (pte_of_agree m) by done. by apply C.
    + by eapply open_file_post.
    + cbn. by rewrite Eat.
    + cbn. by rewrite Es.
  - intros Hle x Hx. change (mem (km (sys_kern (with_fs v' s)))) with (mem (km (v_mem v'))). rewrite <- (uload_eq8 _ _ H8), Hst by done.
    rewrite Hlb, Z2Nat.id by lia. replace k with n in * by lia.
    destruct (in_range a n x) eqn:Er2; [|done]. apply in_range_true in Er2. f_equal. unfold bs. by rewrite nth_run by lia.
Qed.

Lemma loadseg_loop_spec fuel s root va e l off i size :
  seg_ok s root va size e l → va mod PGSIZE = 0 → i mod PGSIZE = 0 → 0 ≤ i → 0 ≤ off → 0 ≤ size → off + size < 2 ^ 31 →
  size - i ≤ Z.of_nat fuel * PGSIZE →
  ∃ s', loadseg_loop me fuel root va e off i size s = Ok (if (i <? size) && (prog_size s e <? off + size) then -1 else 0) s' ∧
    (off + size ≤ prog_size s e → ∀ x, 0 ≤ x < MAXVA → seen s' root x =
      if in_range (va + i) (size - i) x then u8 (prog_byte s l (off + (x - va))) else seen s root x).
Proof.
  revert s i. induction fuel as [|fuel IH]; intros s i Hok Hva Hi Hi0 Ho Hs0 H31 Hf; cbn [loadseg_loop];
    destruct (Z.ltb_spec i size) as [Hlt|Hge]; [lia| | |].
  1, 3: exists s; split; [done|]; intros _ x Hx; by rewrite (proj2 (in_range_false _ _ _)) by lia.
  pose proof (uw_map _ _ _ _ (sg_w _ _ _ _ _ _ Hok) (va + i) ltac:(lia)) as Hv. pose proof (uv_range _ _ _ Hv).
  set (n := if size - i <? PGSIZE then size - i else PGSIZE).
  assert (n = Z.min (size - i) PGSIZE) as En by (unfold n; destruct (Z.ltb_spec (size - i) PGSIZE); lia). clearbody n.
  rewrite u64_small by (unfold MAXVA in *; lia).
  rewrite (mbindM_Ok _ _ s (PTE2PA (pte_of (mem (km (sys_kern s))) root (va + i))) s).
  2:{ rewrite mop_run, walkaddr_valid by (done || apply Hok). by rewrite with_km_id. }
  rewrite (proj2 (Z.eqb_neq _ _)) by apply Hv. assert (0 < PGSIZE) by done.
  unfold u32 at 1. rewrite (Z.mod_small (off + i)) by lia.
  destruct (load_page s root va size e l (va + i) n (off + i) Hok) as (r & s1 & E1 & Hr & Hok1 & Es & Eb & Hseen); [lia..| | | |].
  { rewrite Z.add_mod, Hva, Hi by done. done. }
  { lia. }
  { lia. }
  rewrite (mbindM_Ok _ _ _ _ _ E1). destruct (Z.eqb_spec r.1 n) as [Er|Er]; cbn [negb].
  2:{ exists s1. rewrite (proj2 (Z.ltb_lt _ _)) by (apply Z.nle_gt; intros Hc; apply Er, Hr; lia). split; [done|].
      intros Hc. exfalso. apply Er, Hr. lia. }
  assert (i + PGSIZE < 2 ^ 32) as Hi32 by (unfold PGSIZE; lia). unfold u32. rewrite (Z.mod_small (i + PGSIZE)) by lia.
  destruct (IH s1 (i + PGSIZE) Hok1 Hva) as (s' & E' & Hseen'); [by rewrite Z.add_mod, Hi by done|lia..|].
  exists s'. rewrite E', Es. pose proof (proj1 Hr Er) as Hfit. split.
  - destruct (Z.ltb_spec (i + PGSIZE) size); [done|]. cbn [andb]. destruct (Z.ltb_spec (prog_size s e) (off + size)); [lia|done].
  - intros Hfit' x Hx. rewrite Hseen' by (rewrite ?Es; done). rewrite Eb, Hseen by (done || lia). unfold in_range.
    destruct (Z.leb_spec (va + (i + PGSIZE)) x), (Z.ltb_spec x (va + (i + PGSIZE) + (size - (i + PGSIZE)))),
      (Z.leb_spec (va + i) x), (Z.ltb_spec x (va + i + n)), (Z.ltb_spec x (va + i + (size - i))); cbn [andb]; try lia; try done.
    all: do 2 f_equal; lia.
Qed.
Lemma loadseg_spec s root va e l off size :
  seg_ok s root va size e l → va mod PGSIZE = 0 → 0 ≤ off → 0 ≤ size → off + size < 2 ^ 31 →
  ∃ s', loadseg me root va e off size s = Ok (if (0 <? size) && (prog_size s e <? off + size) then -1 else 0) s' ∧
    (off + size ≤ prog_size s e → ∀ x, 0 ≤ x < MAXVA → seen s' root x =
      if in_range va size x then u8 (prog_byte s l (off + (x - va))) else seen s root x).
Proof.
  intros Hok Hva Ho Hs H31. unfold loadseg. rewrite (proj2 (Z.eqb_eq _ _) Hva). cbn [negb].
  destruct (loadseg_loop_spec (Z.to_nat (size / PGSIZE + 1)) s root va e l off 0 size Hok Hva) as (s' & E & H); try done; try lia.
  { rewrite Z2Nat.id by (pose proof (Z.div_pos size PGSIZE Hs ltac:(done)); lia). unfold PGSIZE. Z.div_mod_to_equations. lia. }
  exists s'. split; [done|]. intros Hf x Hx. rewrite H by done. by rewrite Z.add_0_r, Z.sub_0_r.
Qed.
End Exec.

Section Theorems.
Context `{LAY : Layout} {D : Type} {SD : Sectors D}.
Context (me : Z).

(** a segment of a program in memory is the segment of the file. With the
    segment's pages mapped and the program file open, [loadseg] copies exactly
    the bytes [off, off + size) of the file to [va] on, over any number of pages
    and clusters, and changes no other byte the process sees; it answers -1
    exactly when the file is too short. *)
Theorem loadseg_correct (s : sys D) (root va e : Z) (l : list Z) (off size : Z) :
  seg_ok s root va size e l → va mod PGSIZE = 0 → 0 ≤ off → 0 ≤ size → off + size < 2 ^ 31 →
  ∃ s', loadseg me root va e off size s = Ok (if (0 <? size) && (prog_size s e <? off + size) then -1 else 0) s' ∧
    (off + size ≤ prog_size s e → ∀ x, 0 ≤ x < MAXVA → seen s' root x =
      if in_range va size x then u8 (prog_byte s l (off + (x - va))) else seen s root x).
Proof. apply loadseg_spec. Qed.

(** the stack a new program starts with. When the arguments fit the stack
    page and there are at most 32, [build_stack] leaves [sp] 16-byte aligned at
    an array of pointers, one per argument in order and a null pointer, each
    pointing to a 16-byte aligned copy of its NUL-terminated argument; otherwise
    it refuses. In both cases nothing outside the stack page changes. *)
Theorem build_stack_correct (s : sys D) (argv : list (list Z)) (root base top : Z) :
  stack_ok (km (sys_kern s)) root base top → base ≤ top → Forall (λ arg, Z.of_nat (length arg) < PGSIZE) argv →
  let sp := stack_bottom argv top in
  let fits := (Z.of_nat (length argv) <=? MAXARG) && (base <=? sp) in
  ∃ m', build_stack me argv root top base s = Ok (if fits then Some sp else None) (with_km m' s) ∧
    touched (km (sys_kern s)) m' root base top ∧
    (fits = true → main_stack (mem m') root sp argv (arg_addrs argv top)).
Proof. apply build_stack_spec. Qed.

End Theorems.

(** ** A process with one page and a file of two clusters *)
Section Demo.
#[local] Existing Instance small_layout.
#[local] Existing Instance mem_sectors.

(** 200 bytes of the file from offset 400 on, loaded at 4096. *)
Lemma loadseg_correct_witness :
  ∃ s s' : sys (Z → list Z), loadseg 1 demo_root 4096 1 400 200 s = Ok 0 s' ∧
    seen s' demo_root 4096 = 65 ∧ seen s' demo_root 4295 = 66.
Proof.
  destruct demo_user_frame as (m & Hwf & Hw & _ & Hp). set (s := demo_sys m).
  destruct (loadseg_correct 1 s demo_root 4096 1 [2; 4] 400 200) as (s' & E & Hb).
  - split; [exact Hwf|eapply uwritable_sub; [..|exact Hw]; lia| | |reflexivity|cbn; lia].
    + intros x Hx. change (mem (km (sys_kern s))) with (mem m). rewrite Hp by lia. vm_compute. intuition congruence.
    + split; [apply file_vfs_ok|by split|cbn; lia].
  - reflexivity.
  - lia.
  - lia.
  - lia.
  - exists s, s'. split; [exact E|]. specialize (Hb ltac:(cbn; lia)). rewrite !Hb by (unfold MAXVA; lia). split; reflexivity.
Defined.

(** Two arguments on a stack page at 4096. *)
Lemma build_stack_correct_witness :
  ∃ (s : sys (Z → list Z)) m', build_stack 1 [[108; 115]; [45; 97]] demo_root 8192 4096 s = Ok (Some 8128) (with_km m' s) ∧
    uword (mem m') demo_root 8128 = 8176 ∧ uload (mem m') demo_root 8176 = 108.
Proof.
  destruct demo_user_page as (m & Hwf & Hw & _). set (s := demo_sys m).
  destruct (build_stack_correct 1 s [[108; 115]; [45; 97]] demo_root 4096 8192) as (m' & E & _ & H).
  - split; [exact Hwf|exact Hw|done|done].
  - lia.
  - repeat constructor.
  - exists s, m'. split; [exact E|]. destruct (H eq_refl) as [_ [_ Ha] Hv]. split.
    + apply (Hv 0%nat 8176). reflexivity.
    + apply (proj2 (Ha 0%nat 8176 [108; 115] eq_refl eq_refl) 0%nat 108). reflexivity.
Defined.

(** A page above [sz] (a touched page of an [mmap]ed region) makes the release of
    the address space, at [exec] and when the process is freed, panic. *)
Example mapped_page_above_sz_panics :
  match (mappages demo_root 8192 PGSIZE demo_frame 22 ;;; uvmfree demo_root 4096) demo_st with
  | Panic e => e = "freewalk: leaf"%string | Ok _ _ => False end.
Proof. vm_compute. reflexivity. Qed.

End Demo.
