(* ===== verification/Sysproc.v ===== *)
(** * Process system calls (kernel/sysproc.c)

    Every handler of sysproc.c but [sys_exec].  A handler returns [None] when
    the calling process slept or exited inside it. *)
From stdpp Require Import prelude list strings.
From Stdlib Require Import ZArith Lia.
From S2P Require Import Prelude Riscv Kalloc VM Vma File ProcDefs Proc ProcProps ProcLife Syscall.
Open Scope Z_scope.

Definition SIGKILL : Z := 9.
Definition SIGCHLD : Z := 17.
Definition SIGCONT : Z := 18.
Definition SIGSTOP : Z := 19.
Definition SIGWINCH : Z := 28.
Definition SIG_ERR : Z := -1.

(** The sleep channel [&ticks]. *)
Definition TICKS_CHAN : Z := 2.

(** Little-endian bytes of an [n]-byte field. *)
Definition bytes_of (n : nat) (v : Z) : list Z :=
  map (λ i, (v / 2 ^ (8 * i)) mod 2 ^ 8) (seqZ 0 (Z.of_nat n)).
Definition state_code (st : procstate) : Z :=
  match st with UNUSED => 0 | SLEEPING => 1 | RUNNABLE => 2 | RUNNING => 3 | ZOMBIE => 4 end.

(** [struct procinfo] as the bytes [sys_getprocs] copies out.  [old] is what the
    variable held before: the padding after [time_slice] and the bytes of
    [name] behind the terminator are not written. *)
Definition procinfo_bytes (old : list Z) (p : proc) : list Z :=
  bytes_of 4 (u32 (p_pid p)) ++ bytes_of 4 (state_code (p_state p)) ++ bytes_of 4 (u32 (priority p)) ++
  bytes_of 4 (u32 (queue_level p)) ++ bytes_of 4 (u32 (time_slice p)) ++
  take 4 (drop 20 old) ++
  bytes_of 8 (u64 (ticks_used p)) ++ bytes_of 8 (u64 (utime p)) ++ bytes_of 8 (u64 (stime p)) ++
  bytes_of 8 (u64 (start_time p)) ++ bytes_of 8 (u64 (sz p)) ++
  take 15 (name p) ++ [0] ++ drop (S (length (take 15 (name p)))) (drop 64 old).
Definition PROCINFO_SIZE : Z := 80.

Section Sysproc.
Context `{LAY : Layout} {F : Type} `{FR : FileRefs F} `{ER : EntryRefs F}.
Context (forkret : Z).

Definition sys_exit (me : Z) : M (kern F) (option Z) :=
  n <-- argint me 0 ;; exit me n ;;; mretM None.

Definition sys_getpid (me : Z) : M (kern F) (option Z) :=
  p <-- get_proc me ;; mretM (Some (p_pid p)).

Definition sys_fork (me : Z) : M (kern F) (option Z) :=
  r <-- fork forkret me ;; mretM (Some r).

Definition sys_wait (me : Z) : M (kern F) (option Z) :=
  p <-- argaddr me 0 ;;
  r <-- wait me p ;;
  match r with Waited pid => mretM (Some pid) | Asleep => mretM None end.

Definition sys_sbrk (me : Z) : M (kern F) (option Z) :=
  n <-- argint me 0 ;;
  p <-- get_proc me ;;
  let oldsz := sz p in
  if 0 <=? n then
    let newsz := u64 (oldsz + n) in
    if newsz <? oldsz then mretM (Some (-1))
    else if MAXUVA <=? newsz then mretM (Some (-1))
    else on_proc me (set_sz newsz) ;;; mretM (Some oldsz)
  else
    let dec := u64 (i32 (- n)) in
    if oldsz <? dec then mretM (Some (-1))
    else
      r <-- mem_op (uvmdealloc (pagetable p) (kpagetable p) oldsz (oldsz - dec)) ;;
      on_proc me (set_sz r) ;;; mretM (Some oldsz).

(** One round of the loop of [sys_sleep], entered when [ticks] was [ticks0]. *)
Definition sleep_round (me ticks0 n : Z) : M (kern F) (option Z) :=
  t <-- gets ticks ;;
  if u32 (t - ticks0) <? u32 n then
    p <-- get_proc me ;;
    if negb (p_killed p =? 0) then mretM (Some (-1))
    else sleep me TICKS_CHAN ;;; mretM None
  else mretM (Some 0).
Definition sys_sleep (me : Z) : M (kern F) (option Z) :=
  n <-- argint me 0 ;; ticks0 <-- gets ticks ;; sleep_round me ticks0 n.

Definition sys_kill (me : Z) : M (kern F) (option Z) :=
  pid <-- argint me 0 ;; r <-- kill pid ;; mretM (Some r).

Definition sys_uptime (me : Z) : M (kern F) (option Z) := t <-- gets ticks ;; mretM (Some t).

Definition sys_trace (me : Z) : M (kern F) (option Z) :=
  mask <-- argint me 0 ;; on_proc me (set_tmask mask) ;;; mretM (Some 0).

Definition sys_setpriority (me : Z) : M (kern F) (option Z) :=
  prio <-- argint me 0 ;;
  if (prio <? 0) || (100 <? prio) then mretM (Some (-1))
  else on_proc me (set_priority prio) ;;; mretM (Some 0).
Definition sys_getpriority (me : Z) : M (kern F) (option Z) :=
  p <-- get_proc me ;; mretM (Some (priority p)).
Definition sys_getqueuelevel (me : Z) : M (kern F) (option Z) :=
  p <-- get_proc me ;; mretM (Some (queue_level p)).
Definition sys_gettimeslice (me : Z) : M (kern F) (option Z) :=
  p <-- get_proc me ;; mretM (Some (time_slice p)).

Fixpoint getprocs_loop (me addr max_count : Z) (l : list Z) (count : Z) (info : list Z)
  : M (kern F) (option Z) :=
  match l with
  | [] => mretM (Some count)
  | i :: l =>
      if max_count <=? count then mretM (Some count)
      else
        p <-- get_proc i ;;
        if bool_decide (p_state p = UNUSED) then getprocs_loop me addr max_count l count info
        else
          let info := procinfo_bytes info p in
          q <-- get_proc me ;;
          r <-- mem_op (copyout2 (Some (pmem_of q)) (u64 (addr + count * PROCINFO_SIZE)) info) ;;
          if r <? 0 then mretM (Some (-1))
          else getprocs_loop me addr max_count l (count + 1) info
  end.
(** [stack]: the old contents of the local [info]. *)
Definition sys_getprocs (stack : list Z) (me : Z) : M (kern F) (option Z) :=
  addr <-- argaddr me 0 ;;
  max_count <-- argint me 1 ;;
  getprocs_loop me addr max_count proc_ids 0 stack.

Definition sys_getrusage (me : Z) : M (kern F) (option Z) :=
  utime_addr <-- argaddr me 0 ;;
  stime_addr <-- argaddr me 1 ;;
  p <-- get_proc me ;;
  r <-- (if utime_addr =? 0 then mretM 0
         else mem_op (copyout2 (Some (pmem_of p)) utime_addr (bytes_of 8 (utime p)))) ;;
  if r <? 0 then mretM (Some (-1))
  else
    r <-- (if stime_addr =? 0 then mretM 0
           else mem_op (copyout2 (Some (pmem_of p)) stime_addr (bytes_of 8 (stime p)))) ;;
    if r <? 0 then mretM (Some (-1)) else mretM (Some 0).

Definition sys_signal (me : Z) : M (kern F) (option Z) :=
  sig <-- argint me 0 ;;
  handler_addr <-- argaddr me 1 ;;
  if (sig <? 1) || (Z.of_nat NSIG <=? sig) then mretM (Some SIG_ERR)
  else if (sig =? SIGKILL) || (sig =? SIGSTOP) then mretM (Some SIG_ERR)
  else
    p <-- get_proc me ;;
    on_proc me (set_sig_handlers (<[Z.to_nat sig := handler_addr]> (sig_handlers p))) ;;;
    mretM (Some (nth (Z.to_nat sig) (sig_handlers p) 0)).

Definition send_signal (sig : Z) (p : proc) : proc :=
  let p := set_sig_pending (Z.lor (sig_pending p) (Z.shiftl 1 (sig - 1))) p in
  if bool_decide (p_state p = SLEEPING) then set_p_state RUNNABLE p else p.
Definition sys_sigkill (me : Z) : M (kern F) (option Z) :=
  pid <-- argint me 0 ;;
  sig <-- argint me 1 ;;
  if (sig <? 1) || (Z.of_nat NSIG <=? sig) then mretM (Some (-1))
  else
    k <-- gets id ;;
    match find_proc (λ i, p_pid (procs k i) =? pid) proc_ids with
    | Some i => on_proc i (send_signal sig) ;;; mretM (Some 0)
    | None => mretM (Some (-1))
    end.

(** The exit [err:] of [sys_mmap]. *)
Definition mmap_err (f : Z) : M (kern F) (option Z) :=
  whenM (negb (f =? 0)) (file_op (fileclose_ f)) ;;; mretM (Some (-1)).

Definition sys_mmap (me : Z) : M (kern F) (option Z) :=
  addr <-- argaddr me 0 ;;
  length <-- argaddr me 1 ;;
  prot <-- argint me 2 ;;
  flags <-- argint me 3 ;;
  fd <-- argint me 4 ;;
  offset <-- argaddr me 5 ;;
  p <-- get_proc me ;;
  if (length =? 0) || (MAXUVA <=? length) then mretM (Some (-1))
  else if has flags MAP_SHARED && has flags MAP_PRIVATE then mretM (Some (-1))
  else
    let anon := has flags MAP_ANONYMOUS in
    if negb anon && ((fd <? 0) || (Z.of_nat NOFILE <=? fd) || (nth (Z.to_nat fd) (ofile p) 0 =? 0))
    then mretM (Some (-1))
    else
      let f := if anon then 0 else nth (Z.to_nat fd) (ofile p) 0 in
      whenM (negb anon) (file_op (filedup_ f)) ;;;
      match (if has flags MAP_FIXED
             then Some (if (addr =? 0) || (MAXUVA <=? addr) then None else Some (PGROUNDDOWN addr))
             else vma_find_free_range (vma_man p) addr length) with
      | None => panic "fuel"
      | Some None => mmap_err f
      | Some (Some map_addr) =>
          let '(r, m) := vma_insert (vma_man p) map_addr length offset prot flags f in
          on_proc me (set_vma_man m) ;;;
          if r <? 0 then mmap_err f else mretM (Some map_addr)
      end.

Definition sys_munmap (me : Z) : M (kern F) (option Z) :=
  addr <-- argaddr me 0 ;;
  length <-- argaddr me 1 ;;
  p <-- get_proc me ;;
  if (addr =? 0) || (length =? 0) then mretM (Some (-1))
  else
    match vma_lookup (vma_man p) addr with
    | None => mretM (Some (-1))
    | Some i =>
        let va := PGROUNDDOWN addr in
        let end_ := PGROUNDUP (u64 (addr + length)) in
        let npages := i32 (u64 (end_ - va) / PGSIZE) in
        mem_op (uvmunmap (pagetable p) va (u64 npages) false) ;;;
        mem_op (uvmunmap (kpagetable p) va (u64 npages) false) ;;;
        match vmas (vma_man p) !! i with
        | Some v =>
            whenM ((addr <=? v_addr v) && (vma_end v <=? u64 (addr + length)))
              (on_proc me (set_vma_man (vma_remove (vma_man p) (v_addr v) (v_length v)).2)) ;;;
            mretM (Some 0)
        | None => mretM (Some 0)
        end
    end.
End Sysproc.

Section Claims.
Context `{LAY : Layout} {F : Type} `{FR : FileRefs F} `{ER : EntryRefs F}.
Context (forkret : Z).
Implicit Types k : kern F.

Lemma bind_argaddr {A} me n (f : Z → M (kern F) A) k :
  0 ≤ n ≤ 5 → mbindM (argaddr me n) f k = f (arg_a me n k) k.
Proof. intros Hn. by rewrite (mbindM_Ok _ _ _ _ _ (argraw_run me n k Hn : argaddr me n k = _)). Qed.
Lemma bind_argint {A} me n (f : Z → M (kern F) A) k :
  0 ≤ n ≤ 5 → mbindM (argint me n) f k = f (arg_i me n k) k.
Proof. intros Hn. by rewrite (mbindM_Ok _ _ _ _ _ (argint_run me n k Hn)). Qed.
Lemma bind_get_proc {A} me (f : proc → M (kern F) A) k : mbindM (get_proc me) f k = f (procs k me) k.
Proof. done. Qed.
Lemma bind_on_proc {A} me g (f : unit → M (kern F) A) k :
  mbindM (on_proc me g) f k = f tt (set_procs (upd (procs k) me (g (procs k me))) k).
Proof. done. Qed.

(** Run the argument fetches at the head of a handler. *)
Ltac args :=
  repeat first [ rewrite bind_argaddr by lia | rewrite bind_argint by lia | rewrite bind_get_proc ].

(** [sbrk(n)] answers the old size.  Growing only moves the size (pages come
    later, on a fault) and is refused at [MAXUVA]; shrinking gives pages back
    through [uvmdealloc] and is refused below zero; a refused call changes
    nothing. *)
Theorem sys_sbrk_correct me k :
  let p := procs k me in
  let n := arg_i me 0 k in
  0 ≤ sz p < MAXUVA → - 2 ^ 31 < n < 2 ^ 31 →
  (0 ≤ n → sz p + n < MAXUVA →
     sys_sbrk me k = Ok (Some (sz p)) (set_procs (upd (procs k) me (set_sz (sz p + n) p)) k)) ∧
  (MAXUVA ≤ sz p + n ∨ sz p + n < 0 → sys_sbrk me k = Ok (Some (-1)) k) ∧
  (n < 0 → 0 ≤ sz p + n → ∀ r m,
     uvmdealloc (pagetable p) (kpagetable p) (sz p) (sz p + n) (km k) = Ok r m →
     ∃ k', sys_sbrk me k = Ok (Some (sz p)) k' ∧ procs k' me = set_sz (sz p + n) p ∧ km k' = m ∧
       ∀ j, j ≠ me → procs k' j = procs k j).
Proof.
  intros p n Hsz Hn.
  assert (MAXUVA < 2 ^ 32) as Hmax by (unfold MAXUVA, RUSTSBI_BASE; lia).
  assert (n < 0 → u64 (i32 (- n)) = - n) as Hdec by (intros; rewrite i32_small, u64_small by lia; done).
  assert (0 ≤ n → u64 (sz p + n) = sz p + n) as Hadd by (intros; apply u64_small; lia).
  unfold sys_sbrk. args. fold n. fold p. cbv zeta. split; [|split].
  - intros Hp Hlt. rewrite (proj2 (Z.leb_le 0 n)) by lia. rewrite Hadd by lia.
    rewrite (proj2 (Z.ltb_ge (sz p + n) (sz p))), (proj2 (Z.leb_gt MAXUVA (sz p + n))) by lia. done.
  - intros Hbad. destruct (Z.leb_spec 0 n).
    + rewrite Hadd by lia. rewrite (proj2 (Z.ltb_ge (sz p + n) (sz p))), (proj2 (Z.leb_le MAXUVA (sz p + n))) by lia. done.
    + rewrite Hdec by lia. rewrite (proj2 (Z.ltb_lt (sz p) (- n))) by lia. done.
  - intros Hneg Hpos r m E. rewrite (proj2 (Z.leb_gt 0 n)) by lia. rewrite Hdec by lia.
    rewrite (proj2 (Z.ltb_ge (sz p) (- n))) by lia. replace (sz p - - n) with (sz p + n) by lia.
    unfold mbindM, mem_op, zoom, on_proc, modify, mretM. rewrite E. eexists. split; [done|]. simpl.
    rewrite upd_eq. split; [|split; [done|intros j Hj; by rewrite upd_ne]].
    f_equal. unfold uvmdealloc in E. destruct (Z.leb_spec (sz p) (sz p + n)); [lia|].
    apply mbindM_inv in E as (? & ? & _ & E). by apply mretM_inv in E as [-> _].
Qed.

(** ** mmap *)

(** The file behind a request, 0 for an anonymous one. *)
Definition mmap_file (me : Z) (k : kern F) : Z :=
  if has (arg_i me 3 k) MAP_ANONYMOUS then 0 else nth (Z.to_nat (arg_i me 4 k)) (ofile (procs k me)) 0.

(** What a well-formed call finds. *)
Record mmap_pre (me : Z) (k : kern F) : Prop := {
  mp_inv : vma_inv (vma_man (procs k me));
  mp_low : ∀ i v, vmas (vma_man (procs k me)) !! i = Some v → v_used v = true →
    PGROUNDUP (arg_a me 1 k) ≤ v_addr v ∧ v_addr v + v_length v < 2 ^ 63;
  mp_len : 0 < arg_a me 1 k < MAXUVA;
  mp_addr : 0 ≤ arg_a me 0 k < 2 ^ 63;
  mp_flags : has (arg_i me 3 k) MAP_SHARED && has (arg_i me 3 k) MAP_PRIVATE = false;
  mp_fd : has (arg_i me 3 k) MAP_ANONYMOUS = false →
    0 ≤ arg_i me 4 k < Z.of_nat NOFILE ∧ mmap_file me k ≠ 0 ∧ file_ok (fs k) ∧
    1 ≤ file_ref (fs k) (mmap_file me k) < 2 ^ 31 - 1 }.

(** The address [sys_mmap] settles on. *)
Lemma mmap_addr me k :
  mmap_pre me k →
  let m := vma_man (procs k me) in
  let len := arg_a me 1 k in
  ∃ res, (if has (arg_i me 3 k) MAP_FIXED
          then Some (if (arg_a me 0 k =? 0) || (MAXUVA <=? arg_a me 0 k) then None
                     else Some (PGROUNDDOWN (arg_a me 0 k)))
          else vma_find_free_range m (arg_a me 0 k) len) = Some res ∧
    ∀ r, res = Some r → r mod PGSIZE = 0 ∧ 0 ≤ r ∧ vma_request r len ∧ PGROUNDDOWN r = r.
Proof.
  intros [Hi Hlow Hlen Ha _ _] m len.
  assert (∀ r, r mod PGSIZE = 0 → 0 ≤ r ≤ MAXUVA → vma_request r len ∧ PGROUNDDOWN r = r) as Hreq.
  { intros r Hr Hb. rewrite PGROUNDDOWN_eq, Hr. split; [|lia].
    unfold vma_request, MAXUVA, RUSTSBI_BASE, PGSIZE in *. subst len. lia. }
  destruct (has _ MAP_FIXED).
  - eexists. split; [done|]. intros r Er.
    destruct ((arg_a me 0 k =? 0) || (MAXUVA <=? arg_a me 0 k)) eqn:Eb; [done|].
    apply orb_false_iff in Eb as [_ Eb%Z.leb_gt]. injection Er as <-. rewrite PGROUNDDOWN_eq.
    pose proof (Z.mod_pos_bound (arg_a me 0 k) PGSIZE ltac:(done)) as Hm.
    pose proof (Z.mod_le (arg_a me 0 k) PGSIZE ltac:(lia) ltac:(done)) as Hle.
    assert ((arg_a me 0 k - arg_a me 0 k mod PGSIZE) mod PGSIZE = 0) as Hal
      by (rewrite Zminus_mod_idemp_r, Z.sub_diag; done).
    split; [done|]. split; [lia|]. rewrite <- PGROUNDDOWN_eq. apply Hreq; rewrite PGROUNDDOWN_eq; [done|lia].
  - destruct (vma_find_free_range_spec m (arg_a me 0 k) len Hi) as (res & E & Hr); [|done|done|].
    { intros i v Hv Hu. by apply (Hlow i v). }
    exists res. split; [done|]. intros r ->. simpl in Hr.
    destruct Hr as [(Hal & Hr0 & Hrm & _)|(_ & i & v & Hv & Hu & Hlt)].
    + assert (0 ≤ PGROUNDUP len) as Hn.
      { destruct (vma_request_round 0 len) as (_ & _ & _ & Hle & _).
        { unfold vma_request, MAXUVA, RUSTSBI_BASE, PGSIZE in *. subst len. lia. } subst len. lia. }
      split; [done|]. split; [done|]. apply Hreq; [done|lia].
    + destruct (Hlow i v Hv Hu). subst len. lia.
Qed.

(** The last part of [sys_mmap], for a file [f] already duplicated. *)
Definition mmap_place (me length offset prot flags f : Z) (res : option (option Z)) (m : vma_manager)
  : M (kern F) (option Z) :=
  match res with
  | None => panic "fuel"
  | Some None => mmap_err f
  | Some (Some map_addr) =>
      let '(r, m) := vma_insert m map_addr length offset prot flags f in
      on_proc me (set_vma_man m) ;;;
      if r <? 0 then mmap_err f else mretM (Some map_addr)
  end.

(** Outcome of a well-formed [mmap]: reference counts move by [d] on success. *)
Definition mmap_post (me : Z) (d : Z → Z) (k k' : kern F) (r : Z) : Prop :=
  let m := vma_man (procs k me) in
  let m' := vma_man (procs k' me) in
  let n := PGROUNDUP (arg_a me 1 k) in
  km k' = km k ∧ vma_inv m' ∧ (∀ j, j ≠ me → procs k' j = procs k j) ∧
  (r = -1 ∧ m' = m ∧ (∀ g, file_ref (fs k') g = file_ref (fs k) g) ∨
   r mod PGSIZE = 0 ∧ 0 ≤ r ∧ (∀ g, file_ref (fs k') g = file_ref (fs k) g + d g) ∧
   ∃ i, vmas m' !! i = Some (Vma r n (arg_a me 5 k) (arg_i me 2 k) (arg_i me 3 k) (mmap_file me k) true) ∧
     ∀ x, vma_lookup m' x = if (r <=? x) && (x <? r + n) then Some i else vma_lookup m x).

(** A failed call gives the file's reference back. *)
Lemma mmap_err_run f k (s0 : F) :
  (f = 0 → fs k = s0) →
  (f ≠ 0 → file_ok (fs k) ∧ 1 < file_ref (fs k) f ∧
     ∀ g, file_ref (fs k) g = file_ref s0 g + (if g =? f then 1 else 0)) →
  ∃ k', mmap_err f k = Ok (Some (-1)) k' ∧ procs k' = procs k ∧ km k' = km k ∧
    ∀ g, file_ref (fs k') g = file_ref s0 g.
Proof.
  intros H0 H1. unfold mmap_err, mbindM, whenM. destruct (Z.eqb_spec f 0) as [->|Hf]; simpl.
  - exists k. split; [done|]. split; [done|]. split; [done|]. intros g. by rewrite H0.
  - destruct (H1 Hf) as (Hok & Hr & Hg). destruct (fileclose_law f (fs k) Hok Hr) as (s' & E & _ & Hs).
    unfold file_op, zoom. rewrite E. eexists. split; [done|]. split; [done|]. split; [done|].
    intros g. simpl. rewrite Hs, Hg. lia.
Qed.

Lemma mmap_place_run me k k1 res :
  mmap_pre me k → procs k1 = procs k → km k1 = km k →
  let f := mmap_file me k in
  (f = 0 → fs k1 = fs k) →
  (f ≠ 0 → file_ok (fs k1) ∧ 1 < file_ref (fs k1) f ∧
     ∀ g, file_ref (fs k1) g = file_ref (fs k) g + (if g =? f then 1 else 0)) →
  (∀ r, res = Some r → r mod PGSIZE = 0 ∧ 0 ≤ r ∧ vma_request r (arg_a me 1 k) ∧ PGROUNDDOWN r = r) →
  ∃ r k', mmap_place me (arg_a me 1 k) (arg_a me 5 k) (arg_i me 2 k) (arg_i me 3 k) f (Some res)
      (vma_man (procs k me)) k1 = Ok (Some r) k' ∧
    mmap_post me (λ g, if negb (f =? 0) && (g =? f) then 1 else 0) k k' r.
Proof.
  intros Hpre Ep Em f H0 H1 Hres. pose proof (mp_inv _ _ Hpre) as Hi. unfold mmap_place.
  destruct res as [a|].
  2:{ destruct (mmap_err_run f k1 (fs k) H0 H1) as (k' & E & Ep' & Em' & Hr). exists (-1), k'.
      split; [done|]. unfold mmap_post. rewrite Ep', Em', Ep, Em. split; [done|]. split; [done|].
      split; [done|]. by left. }
  destruct (Hres a eq_refl) as (Hal & Ha0 & Hreq & Hdn).
  pose proof (vma_insert_spec (vma_man (procs k me)) a (arg_a me 1 k) (arg_a me 5 k) (arg_i me 2 k)
    (arg_i me 3 k) f Hi Hreq) as Hins. cbv zeta in Hins. rewrite Hdn in Hins.
  destruct (vma_insert _ _ _ _ _ _ _) as [r m] eqn:Eins. rewrite bind_on_proc, Ep.
  assert (∀ k', procs k' = upd (procs k) me (set_vma_man m (procs k me)) →
    vma_man (procs k' me) = m ∧ ∀ j, j ≠ me → procs k' j = procs k j) as Hupd
    by (intros k' ->; rewrite upd_eq; split; [done|intros j Hj; by rewrite upd_ne]).
  assert (r = -1 ∧ m = vma_man (procs k me) ∨ r = 0 ∧ vma_inv m ∧
    ∃ i, vmas m !! i = Some (Vma a (PGROUNDUP (arg_a me 1 k)) (arg_a me 5 k) (arg_i me 2 k)
        (arg_i me 3 k) f true) ∧
      ∀ x, vma_lookup m x = if (a <=? x) && (x <? a + PGROUNDUP (arg_a me 1 k)) then Some i
                            else vma_lookup (vma_man (procs k me)) x) as [[-> ->]|(-> & Hm & i & Hv & Hl)].
  { destruct r as [|r|[| |]]; try (right; exact Hins). left. split; [done|apply Hins]. }
  - set (k2 := set_procs _ k1). destruct (mmap_err_run f k2 (fs k)) as (k' & E & Ep' & Em' & Hr); [done|done|].
    exists (-1), k'. split; [done|]. destruct (Hupd k') as [Hv Ho]; [by rewrite Ep'|].
    unfold mmap_post. rewrite Hv, Em'. split; [done|]. split; [done|]. split; [done|]. by left.
  - exists a. eexists. split; [done|].
    match goal with |- mmap_post _ _ _ ?K _ => destruct (Hupd K) as [Hv' Ho]; [done|] end.
    unfold mmap_post. rewrite Hv'. split; [done|]. split; [done|]. split; [done|]. right.
    split; [done|]. split; [done|]. split; [|by exists i].
    intros g. simpl. destruct (Z.eqb_spec f 0) as [Hf|Hf]; simpl.
    + rewrite H0 by done. lia.
    + by apply H1.
Qed.

(** [mmap] of a well-formed request answers -1 and leaves the regions and
    every file's reference count as they were, or places one new page-aligned
    region at the answered address (lookups elsewhere are unchanged) and holds exactly one more reference to the mapped file. *)
Theorem sys_mmap_correct me k :
  mmap_pre me k →
  ∃ r k', sys_mmap me k = Ok (Some r) k' ∧
    mmap_post me (λ g, if negb (mmap_file me k =? 0) && (g =? mmap_file me k) then 1 else 0) k k' r.
Proof.
  intros Hpre. pose proof Hpre as [_ _ Hlen _ Hfl Hfd]. destruct (mmap_addr me k Hpre) as (res & Er & Hres).
  unfold sys_mmap. args.
  rewrite (proj2 (Z.eqb_neq (arg_a me 1 k) 0)), (proj2 (Z.leb_gt MAXUVA _)), Hfl by lia.
  simpl (false || false). cbv iota zeta.
  destruct (has (arg_i me 3 k) MAP_ANONYMOUS) eqn:Ean.
  - assert (mmap_file me k = 0) as Ef by (unfold mmap_file; by rewrite Ean).
    simpl (negb true && _). cbv iota. unfold mbindM at 1, whenM at 1. simpl (negb true). cbv iota.
    destruct (mmap_place_run me k k res Hpre) as (r & k' & E & Hp); [done|done|done|by rewrite Ef|done|].
    exists r, k'. split; [|done]. unfold mretM. rewrite Er. rewrite Ef in E. exact E.
  - destruct (Hfd eq_refl) as (Hb & Hne & Hok & Href).
    assert (mmap_file me k = nth (Z.to_nat (arg_i me 4 k)) (ofile (procs k me)) 0) as Ef
      by (unfold mmap_file; by rewrite Ean). rewrite <- Ef.
    rewrite (proj2 (Z.ltb_ge (arg_i me 4 k) 0)), (proj2 (Z.leb_gt (Z.of_nat NOFILE) _)),
      (proj2 (Z.eqb_neq (mmap_file me k) 0) Hne) by lia. simpl (negb false && _). cbv iota.
    destruct (filedup_law (mmap_file me k) (fs k) Hok Href) as (s' & Ed & Hok' & Hr').
    unfold mbindM at 1, whenM at 1. simpl (negb false). cbv iota. unfold file_op at 1, zoom at 1. rewrite Ed.
    destruct (mmap_place_run me k (set_fs s' k) res Hpre) as (r & k' & E & Hp); [done|done|done| |done|].
    { intros _. simpl. split; [done|]. rewrite !Hr', Z.eqb_refl. split; [lia|done]. }
    exists r, k'. split.
    + rewrite Er. exact E.
    + by rewrite (proj2 (Z.eqb_neq (mmap_file me k) 0) Hne) in Hp.
Qed.

(** Unmapping without [do_free] leaves the allocator alone. *)
Lemma walk_state pt va s r s' : walk pt va false s = Ok r s' → s' = s.
Proof.
  unfold walk. intros E. destruct (MAXVA <=? va); [done|]. cbn [walk_loop] in E. unfold walk_step in E.
  repeat (case_if || monad_inv E || match type of E with context[match ?x with _ => _ end] => destruct x end);
    try done; unfold mbindM, mretM, read_pte, gets in *; repeat case_match; simplify_eq; done.
Qed.

Lemma unmap_nofree_state fuel e pt a b s u s' :
  unmap_loop fuel e pt a b false s = Ok u s' → npage s' = npage s ∧ freelist s' = freelist s.
Proof.
  revert a s. induction fuel as [|fuel IH]; intros a s E; [done|]. cbn [unmap_loop] in E.
  destruct (a <? b); [|by apply mretM_inv in E as [_ ->]].
  apply mbindM_inv in E as (? & s1 & E1 & E). apply IH in E as [-> ->].
  unfold unmap_one in E1. apply mbindM_inv in E1 as (pte & s2 & Ew & E1). apply walk_state in Ew as ->.
  destruct (pte =? 0); [by apply mretM_inv in E1 as [_ ->]|].
  apply mbindM_inv in E1 as (v & s3 & Er & E1). apply gets_inv in Er as [_ ->].
  destruct (negb _); [by apply mretM_inv in E1 as [_ ->]|]. destruct (_ =? _); [done|].
  apply mbindM_inv in E1 as (? & s4 & Ef & E1). apply mretM_inv in Ef as [_ ->].
  by apply modify_inv in E1 as ->.
Qed.

Lemma uvmunmap_nofree pt va n s u s' :
  uvmunmap pt va n false s = Ok u s' → npage s' = npage s ∧ freelist s' = freelist s.
Proof. unfold uvmunmap. destruct (negb _); [done|]. apply unmap_nofree_state. Qed.

(** [munmap] of a whole file-backed region removes the region but keeps the
    reference [mmap] took on the file: no [fileclose] happens, and the mapped
    frames are not freed either ([do_free] is 0). *)
Theorem sys_munmap_keeps_file_reference me k i v m1 m2 :
  let p := procs k me in
  let addr := arg_a me 0 k in
  let length := arg_a me 1 k in
  let npages := u64 (i32 (u64 (PGROUNDUP (u64 (addr + length)) - PGROUNDDOWN addr) / PGSIZE)) in
  vma_inv (vma_man p) → vma_lookup (vma_man p) addr = Some i → vmas (vma_man p) !! i = Some v →
  addr ≠ 0 → length ≠ 0 → addr = v_addr v → v_addr v + v_length v ≤ addr + length < 2 ^ 64 →
  uvmunmap (pagetable p) (PGROUNDDOWN addr) npages false (km k) = Ok tt m1 →
  uvmunmap (kpagetable p) (PGROUNDDOWN addr) npages false m1 = Ok tt m2 →
  ∃ k', sys_munmap me k = Ok (Some 0) k' ∧ fs k' = fs k ∧ npage (km k') = npage (km k) ∧
    freelist (km k') = freelist (km k) ∧
    (∀ x, v_addr v ≤ x < v_addr v + v_length v → ¬ ∃ j, vma_covers (vma_man (procs k' me)) j x).
Proof.
  intros p addr length npages Hi Hl Hv Ha Hn Eav Hend E1 E2.
  apply (vma_lookup_spec _ _ _ Hi) in Hl as Hc. destruct Hc as (w & Hw & Hu & Hx).
  assert (w = v) as -> by congruence.
  destruct (vi_ok_lookup _ _ _ Hi Hv Hu) as (_ & _ & Hv0 & Hvl & Hve).
  unfold sys_munmap. args. fold p addr length.
  rewrite (proj2 (Z.eqb_neq addr 0) Ha), (proj2 (Z.eqb_neq length 0) Hn). simpl (false || false). cbv iota zeta.
  rewrite Hl. cbv beta iota. fold npages.
  unfold mbindM at 1, mem_op at 1, zoom at 1. rewrite E1.
  unfold mbindM at 1, mem_op at 1, zoom at 1. cbn [set_km km]. rewrite E2.
  rewrite Hv. rewrite (vma_end_ok v) by (by try apply (vi_ok_lookup _ _ _ Hi Hv)).
  rewrite (u64_small (addr + length)) by lia. rewrite (proj2 (Z.leb_le _ _)), (proj2 (Z.leb_le _ _)) by lia.
  unfold mbindM, whenM, on_proc, modify, mretM. simpl (true && true). cbv iota.
  pose proof (vma_remove_spec (vma_man p) (v_addr v) (v_length v) Hi) as Hr.
  destruct (vma_remove (vma_man p) (v_addr v) (v_length v)) as [r m'] eqn:Er.
  destruct Hr as (_ & _ & Hcov); [lia..|].
  apply uvmunmap_nofree in E1 as [N1 F1], E2 as [N2 F2].
  eexists. split; [done|]. split; [done|]. split; [simpl; congruence|]. split; [simpl; congruence|].
  intros x Hxr [j Hj]. simpl in Hj. rewrite upd_eq in Hj. simpl in Hj.
  apply Hcov in Hj as [(u & Hju & Huu & Hux) (u' & Hju' & Hno)].
  assert (u' = u) as -> by congruence. destruct (decide (j = i)) as [->|Hne].
  - assert (u = v) as -> by congruence. apply Hno. lia.
  - destruct (vi_disj _ Hi j i u v Hne Hju Hv Huu Hu); lia.
Qed.

(** ** Signals sent and handlers set *)

(** [signal] refuses the numbers outside 1..31 and SIGKILL and SIGSTOP, and
    otherwise installs the handler for that signal only and answers the old one. *)
Theorem sys_signal_correct me k :
  let sig := arg_i me 0 k in
  let p := procs k me in
  List.length (sig_handlers p) = NSIG →
  (sig < 1 ∨ 32 ≤ sig ∨ sig = SIGKILL ∨ sig = SIGSTOP → sys_signal me k = Ok (Some SIG_ERR) k) ∧
  (1 ≤ sig < 32 → sig ≠ SIGKILL → sig ≠ SIGSTOP →
   ∃ k', sys_signal me k = Ok (Some (nth (Z.to_nat sig) (sig_handlers p) 0)) k' ∧
     nth (Z.to_nat sig) (sig_handlers (procs k' me)) 0 = arg_a me 1 k ∧
     (∀ s, s ≠ Z.to_nat sig → nth s (sig_handlers (procs k' me)) 0 = nth s (sig_handlers p) 0) ∧
     sig_pending (procs k' me) = sig_pending p ∧ (∀ j, j ≠ me → procs k' j = procs k j)).
Proof.
  intros sig p Hlen. unfold sys_signal. rewrite bind_argint, bind_argaddr by lia. fold sig.
  change (Z.of_nat NSIG) with 32. split.
  - intros Hbad. destruct ((sig <? 1) || (32 <=? sig)) eqn:E1; [done|].
    apply orb_false_iff in E1 as [?%Z.ltb_ge ?%Z.leb_gt].
    replace ((sig =? SIGKILL) || (sig =? SIGSTOP)) with true; [done|].
    symmetry. apply orb_true_iff. rewrite !Z.eqb_eq. lia.
  - intros Hs H1 H2. rewrite (proj2 (Z.ltb_ge sig 1)), (proj2 (Z.leb_gt 32 sig)) by lia.
    rewrite (proj2 (Z.eqb_neq _ _) H1), (proj2 (Z.eqb_neq _ _) H2). simpl (false || false). cbv iota.
    rewrite bind_get_proc, bind_on_proc. eexists. split; [done|]. simpl. rewrite upd_eq. simpl.
    fold p. split_and!; try done.
    + rewrite nth_lookup, list_lookup_insert_eq by (unfold NSIG in Hlen; lia). done.
    + intros s Hne. by rewrite !nth_lookup, list_lookup_insert_ne.
    + intros j Hj. by rewrite upd_ne.
Qed.
End Claims.

(** ** Examples *)
#[local] Existing Instance small_layout.
#[local] Existing Instance demo_entries.

Lemma sys_sbrk_correct_witness :
  ∃ k', sys_sbrk 1 (call_kern SYS_sbrk [8192; 0; 0; 0; 0; 0]) = Ok (Some 4096) k' ∧ sz (procs k' 1) = 12288.
Proof.
  destruct (sys_sbrk_correct 1 (call_kern SYS_sbrk [8192; 0; 0; 0; 0; 0])) as [H _].
  - vm_compute. intuition congruence.
  - vm_compute. intuition congruence.
  - eexists. split; [apply H; vm_compute; congruence|]. vm_compute. reflexivity.
Defined.

(** A process with one region [8192, 12288) backed by file 2, open as fd 3. *)
Definition mapped : vma_manager := Vmam (Vma 8192 4096 0 1 1 2 true :: replicate 15 unused_vma) 1.
Definition map_kern (num : Z) (args : list Z) : kern (ftable unit) :=
  final (on_proc 1 (λ p, set_vma_man mapped (set_ofile (<[3%nat := 2]> (ofile p)) p))) (call_kern num args).

Lemma mapped_slot i v :
  vmas mapped !! i = Some v → i = 0%nat ∧ v = Vma 8192 4096 0 1 1 2 true ∨ v = unused_vma.
Proof.
  destruct i as [|i]; simpl; intros Hv; [left; by simplify_eq|right].
  do 15 (destruct i as [|i]; [by simplify_eq/=|]). done.
Qed.
Lemma mapped_inv : vma_inv mapped.
Proof.
  split; [done|done| |].
  - apply Forall_lookup. intros i v [[_ ->]| ->]%mapped_slot; [|done]. intros _. vm_compute. intuition congruence.
  - intros i j v w Hne Hv%mapped_slot Hw%mapped_slot Hu Hu'.
    destruct Hv as [[-> ->]| ->], Hw as [[-> ->]| ->]; done.
Qed.

Lemma sys_mmap_correct_witness :
  ∃ r k', sys_mmap 1 (map_kern SYS_mmap [0; 5000; 3; 2; 3; 0]) = Ok (Some r) k' ∧
    vma_inv (vma_man (procs k' 1)).
Proof.
  destruct (sys_mmap_correct 1 (map_kern SYS_mmap [0; 5000; 3; 2; 3; 0])) as (r & k' & E & _ & Hi & _).
  - split.
    + exact mapped_inv.
    + intros i v Hv Hu. replace (arg_a 1 1 _) with 5000 by (vm_compute; reflexivity).
      change (vmas mapped !! i = Some v) in Hv. apply mapped_slot in Hv as [[_ ->]| ->]; [|discriminate Hu].
      vm_compute. intuition congruence.
    + vm_compute. intuition congruence.
    + vm_compute. intuition congruence.
    + vm_compute. reflexivity.
    + intros _. replace (mmap_file 1 _) with 2 by (vm_compute; reflexivity).
      split; [vm_compute; intuition congruence|]. split; [lia|]. split; [exact I|]. vm_compute. intuition congruence.
  - exists r, k'. split; [exact E|exact Hi].
Defined.

Lemma sys_munmap_keeps_file_reference_witness :
  let k := map_kern SYS_munmap [8192; 4096; 0; 0; 0; 0] in
  ∃ k', sys_munmap 1 k = Ok (Some 0) k' ∧ fs k' = fs k ∧ ¬ ∃ j, vma_covers (vma_man (procs k' 1)) j 8192.
Proof.
  intros k.
  assert (arg_a 1 0 k = 8192) as A0 by (vm_compute; reflexivity).
  assert (arg_a 1 1 k = 4096) as A1 by (vm_compute; reflexivity).
  pose proof (sys_munmap_keeps_file_reference 1 k 0 (Vma 8192 4096 0 1 1 2 true)
    (final (uvmunmap (pagetable (procs k 1)) 8192 1 false) (km k))
    (final (uvmunmap (kpagetable (procs k 1)) 8192 1 false)
      (final (uvmunmap (pagetable (procs k 1)) 8192 1 false) (km k)))) as H.
  cbv zeta in H. rewrite A0, A1 in H. destruct H as (k' & E & Hf & _ & _ & Hc).
  - exact mapped_inv.
  - reflexivity.
  - reflexivity.
  - lia.
  - lia.
  - reflexivity.
  - vm_compute. intuition congruence.
  - apply final_ok. vm_compute. reflexivity.
  - apply final_ok. vm_compute. reflexivity.
  - exists k'. split; [exact E|]. split; [exact Hf|]. apply Hc. vm_compute. intuition congruence.
Defined.

Lemma sys_signal_correct_witness :
  ∃ k', sys_signal 1 (call_kern SYS_signal [10; 4096; 0; 0; 0; 0]) = Ok (Some 0) k' ∧
    nth 10 (sig_handlers (procs k' 1)) 0 = 4096.
Proof.
  destruct (sys_signal_correct 1 (call_kern SYS_signal [10; 4096; 0; 0; 0; 0])) as [_ H].
  - vm_compute. reflexivity.
  - replace (arg_i 1 0 _) with 10 in H by (vm_compute; reflexivity).
    replace (arg_a 1 1 _) with 4096 in H by (vm_compute; reflexivity).
    destruct H as (k' & E & Hh & _); [lia|unfold SIGKILL; lia|unfold SIGSTOP; lia|].
    exists k'. split; [exact E|exact Hh].
Defined.
