(* ===== verification/Trap.v ===== *)
(** * Traps, page faults and signals (kernel/trap.c, timer_tick of kernel/timer.c)

    The control and status registers a handler reads are arguments
    ([scause], [stval], [sepc], the previous-privilege bit); device interrupts
    other than the timer act through the parameter [ext] (plic.c, uart, disk).
    A trap handler that calls [exit], sleeps or yields gives up the hart there;
    the result says how it ended. *)
From stdpp Require Import prelude list strings.
From Stdlib Require Import ZArith Lia.
From S2P Require Import Prelude Riscv Kalloc VM PageTable PageTableOps Cow Lazy Vma File ProcDefs Proc ProcProps ProcLife Syscall Sysproc.
Open Scope Z_scope.

Definition SCAUSE_SYSCALL : Z := 8.
Definition SCAUSE_LOAD_FAULT : Z := 13.
Definition SCAUSE_STORE_FAULT : Z := 15.
Definition SCAUSE_TIMER : Z := 2 ^ 63 + 5.

Inductive trap_end := Back (* to user mode *) | Exited | Blocked | Yielded.

Section Trap.
Context `{LAY : Layout} {F : Type} `{FR : FileRefs F} `{ER : EntryRefs F}.
Context (table : Z → option (M (kern F) (option Z))) (ext : M (kern F) unit).

Definition timer_tick : M (kern F) unit :=
  modify (λ k, set_ticks (u32 (ticks k + 1)) k) ;;; wakeup TICKS_CHAN.

Definition devintr (scause : Z) : M (kern F) Z :=
  if Z.testbit scause 63 && (Z.land scause 255 =? 9) then ext ;;; mretM 1
  else if scause =? SCAUSE_TIMER then timer_tick ;;; mretM 2
  else mretM 0.

(** First signal of [pending], or 0. *)
Fixpoint first_signal (pending : Z) (l : list Z) : Z :=
  match l with
  | [] => 0
  | i :: l => if has pending (Z.shiftl 1 i) then i + 1 else first_signal pending l
  end.

(** [signal_ret_pc], [epc] and [a0] of the trapframe set up for a handler. *)
Definition enter_handler (p : proc) (sig handler : Z) : M kst unit :=
  ret <-- gets (tf_get TF_SIGRET p) ;;
  whenM (ret =? 0)
    (epc <-- gets (tf_get TF_EPC p) ;;
     tf_set TF_SIGRET epc p ;;; tf_set TF_EPC handler p ;;; tf_set TF_A0 sig p).

Definition process_signals (me : Z) : M (kern F) Z :=
  p <-- get_proc me ;;
  let pending := Z.land (sig_pending p) (Z.lnot (sig_mask p)) in
  if pending =? 0 then mretM 0
  else
    let sig := first_signal pending (seqZ 0 (Z.of_nat NSIG)) in
    if sig =? 0 then mretM 0
    else
      on_proc me (set_sig_pending (Z.land (sig_pending p) (Z.lnot (Z.shiftl 1 (sig - 1))))) ;;;
      if sig =? SIGKILL then on_proc me (set_p_killed 1) ;;; mretM 1
      else if sig =? SIGSTOP then
        whenM (bool_decide (p_state p = RUNNING))
          (on_proc me (λ p, set_p_chan 1 (set_p_state SLEEPING p))) ;;; mretM 1
      else if sig =? SIGCONT then
        whenM (bool_decide (p_state p = SLEEPING) && (p_chan p =? 1))
          (on_proc me (λ p, set_p_chan 0 (set_p_state RUNNABLE p))) ;;; mretM 1
      else
        let handler := nth (Z.to_nat sig) (sig_handlers p) 0 in
        if handler =? SIG_IGN then mretM 1
        else if handler =? SIG_DFL then
          if (sig =? SIGCHLD) || (sig =? SIGCONT) || (sig =? SIGWINCH) then mretM 1
          else on_proc me (set_p_killed 1) ;;; mretM 1
        else mem_op (enter_handler p sig handler) ;;; mretM 1.

(** The permissions a fault in an mmap region gives the page. *)
Definition vma_perm (v : vma) : Z :=
  let perm := PTE_U in
  let perm := if has (v_prot v) PROT_READ then Z.lor perm PTE_R else perm in
  let perm := if has (v_prot v) PROT_WRITE then Z.lor perm PTE_W else perm in
  let perm := if has (v_prot v) PROT_EXEC then Z.lor perm PTE_X else perm in
  if has (v_flags v) MAP_PRIVATE then Z.land (Z.lor perm PTE_COW) (Z.lnot PTE_W) else perm.

Definition page_fault (me scause va : Z) : M (kern F) unit :=
  p <-- get_proc me ;;
  let a := PGROUNDDOWN va in
  cow <-- (if scause =? SCAUSE_STORE_FAULT then mem_op (is_cow_page (pagetable p) a) else mretM false) ;;
  if (cow : bool) then
    r <-- mem_op (cow_alloc (Some (pmem_of p)) (pagetable p) a) ;;
    whenM (r <? 0) (on_proc me (set_p_killed 1))
  else
    match vma_lookup (vma_man p) a with
    | Some i =>
        r <-- mem_op (lazy_alloc (pagetable p) (kpagetable p) a) ;;
        if r <? 0 then on_proc me (set_p_killed 1)
        else
          pte <-- mem_op (walk (pagetable p) a false) ;;
          match vmas (vma_man p) !! i with
          | Some v =>
              whenM (negb (pte =? 0))
                (mem_op (x <-- read_pte pte ;;
                         write_pte pte (Z.lor (Z.land x (Z.lnot (Z.lor (Z.lor PTE_R PTE_W) PTE_X))) (vma_perm v))))
          | None => mretM tt
          end
    | None =>
        if (sz p <=? a) || (MAXUVA <=? a) then on_proc me (set_p_killed 1)
        else
          r <-- mem_op (lazy_alloc (pagetable p) (kpagetable p) a) ;;
          whenM (r <? 0) (on_proc me (set_p_killed 1))
    end.

(** A timer interrupt's share of [usertrap] and [kerneltrap]: [true] when the
    process gave up the hart. *)
Definition tick_yield (me : Z) : M (kern F) bool :=
  b <-- handle_time_slice me ;;
  c <-- (if (b : bool) then mretM true else higher_priority_ready me) ;;
  if (c : bool) then yield me ;;; mretM true else mretM false.

(** From [if(p->killed)] to the call of [usertrapret]. *)
Definition usertrap_tail (me which_dev : Z) : M (kern F) trap_end :=
  p <-- get_proc me ;;
  if negb (p_killed p =? 0) then exit me (-1) ;;; mretM Exited
  else
    process_signals me ;;;
    if which_dev =? 2 then
      on_proc me (λ p, set_utime (u64 (utime p + 1)) p) ;;;
      y <-- tick_yield me ;;
      mretM (if (y : bool) then Yielded else Back)
    else mretM Back.

Definition usertrap (me : Z) (spp : bool) (scause stval sepc : Z) : M (kern F) trap_end :=
  if spp then panic "usertrap: not from user mode"
  else
    p <-- get_proc me ;;
    mem_op (tf_set TF_EPC sepc p) ;;;
    mem_op (ret <-- gets (tf_get TF_SIGRET p) ;;
            whenM (negb (ret =? 0)) (tf_set TF_EPC ret p ;;; tf_set TF_SIGRET 0 p)) ;;;
    if scause =? SCAUSE_SYSCALL then
      if negb (p_killed p =? 0) then exit me (-1) ;;; mretM Exited
      else
        mem_op (epc <-- gets (tf_get TF_EPC p) ;; tf_set TF_EPC (u64 (epc + 4)) p) ;;;
        back <-- syscall table me ;;
        if (back : bool) then usertrap_tail me 0 else mretM Blocked
    else
      which_dev <-- devintr scause ;;
      if negb (which_dev =? 0) then usertrap_tail me which_dev
      else
        (if (scause =? SCAUSE_LOAD_FAULT) || (scause =? SCAUSE_STORE_FAULT)
         then page_fault me scause stval else on_proc me (set_p_killed 1)) ;;;
        usertrap_tail me 0.

(** [usertrapret]: the trapframe it prepares and the [sepc] and [satp] that
    [sret] uses. *)
Definition usertrapret (me satp trap hartid : Z) : M (kern F) (Z * Z) :=
  p <-- get_proc me ;;
  mem_op (tf_set 0 satp p) ;;;
  mem_op (tf_set 8 (p_kstack p + PGSIZE) p) ;;;
  mem_op (tf_set 16 trap p) ;;;
  mem_op (tf_set 32 hartid p) ;;;
  epc <-- mem_op (gets (tf_get TF_EPC p)) ;;
  mretM (epc, MAKE_SATP (pagetable p)).

Definition kerneltrap (me : Z) (spp intr : bool) (scause : Z) : M (kern F) bool :=
  if negb spp then panic "kerneltrap: not from supervisor mode"
  else if intr then panic "kerneltrap: interrupts enabled"
  else
    which_dev <-- devintr scause ;;
    if which_dev =? 0 then panic "kerneltrap"
    else
      p <-- get_proc me ;;
      if (which_dev =? 2) && negb (me =? -1) && bool_decide (p_state p = RUNNING) then
        on_proc me (λ p, set_stime (u64 (stime p + 1)) p) ;;; tick_yield me
      else mretM false.
End Trap.

Section Signals.
Context `{LAY : Layout} {F : Type} `{FR : FileRefs F} `{ER : EntryRefs F}.
Implicit Types k : kern F.

(** Signal [i + 1] is pending and not blocked. *)
Definition deliverable (p : proc) (i : Z) : bool :=
  Z.testbit (sig_pending p) i && negb (Z.testbit (sig_mask p) i).

Lemma has_shiftl x i : 0 ≤ i → has x (Z.shiftl 1 i) = Z.testbit x i.
Proof. intros Hi. rewrite Z.shiftl_mul_pow2, Z.mul_1_l by done. by apply has_testbit. Qed.

Lemma pending_testbit p i :
  0 ≤ i → Z.testbit (Z.land (sig_pending p) (Z.lnot (sig_mask p))) i = deliverable p i.
Proof. intros Hi. by rewrite Z.land_spec, Z.lnot_spec. Qed.

Lemma first_signal_spec x n m :
  0 ≤ n → 
  match first_signal x (seqZ n (Z.of_nat m)) with
  | 0 => ∀ i, n ≤ i < n + Z.of_nat m → Z.testbit x i = false
  | s => n + 1 ≤ s ≤ n + Z.of_nat m ∧ Z.testbit x (s - 1) = true ∧
         ∀ i, n ≤ i < s - 1 → Z.testbit x i = false
  end.
Proof.
  revert n. induction m as [|m IH]; intros n Hn; [simpl; lia|].
  rewrite seqZ_cons by lia. cbn [first_signal]. rewrite has_shiftl by done.
  destruct (Z.testbit x n) eqn:E.
  - destruct (n + 1) as [|s|s] eqn:Es; [lia| |lia]. rewrite <- Es. replace (n + 1 - 1) with n by lia.
    split; [lia|]. split; [done|]. intros i Hi. lia.
  - replace (Z.pred (Z.of_nat (S m))) with (Z.of_nat m) by lia. rewrite <- Z.add_1_r.
    specialize (IH (n + 1) ltac:(lia)).
    destruct (first_signal x (seqZ (n + 1) (Z.of_nat m))) as [|s|s].
    + intros i Hi. destruct (decide (i = n)) as [->|]; [done|]. apply IH. lia.
    + destruct IH as (H1 & H2 & H3). split; [lia|]. split; [done|]. intros i Hi.
      destruct (decide (i = n)) as [->|]; [done|]. apply H3. lia.
    + destruct IH as (H1 & H2 & H3). lia.
Qed.

(** What a signal does to the process that takes it. *)
Inductive disposition := Terminate | Stop | Continue | Ignore | Handle (handler : Z).
Definition disposition_of (p : proc) (sig : Z) : disposition :=
  let handler := nth (Z.to_nat sig) (sig_handlers p) 0 in
  if sig =? SIGKILL then Terminate
  else if sig =? SIGSTOP then Stop
  else if sig =? SIGCONT then Continue
  else if handler =? SIG_IGN then Ignore
  else if handler =? SIG_DFL then
    if (sig =? SIGCHLD) || (sig =? SIGWINCH) then Ignore else Terminate
  else Handle handler.

Definition taken (me sig : Z) (k k' : kern F) : Prop :=
  let p := procs k me in
  let p1 := set_sig_pending (Z.land (sig_pending p) (Z.lnot (Z.shiftl 1 (sig - 1)))) p in
  match disposition_of p sig with
  | Terminate => procs k' me = set_p_killed 1 p1 ∧ km k' = km k
  | Stop => procs k' me = (if bool_decide (p_state p = RUNNING) then set_p_chan 1 (set_p_state SLEEPING p1) else p1)
            ∧ km k' = km k
  | Continue => procs k' me = (if bool_decide (p_state p = SLEEPING) && (p_chan p =? 1)
                               then set_p_chan 0 (set_p_state RUNNABLE p1) else p1) ∧ km k' = km k
  | Ignore => procs k' me = p1 ∧ km k' = km k
  | Handle h => procs k' me = p1 ∧
      (tf_get TF_SIGRET p (km k) = 0 →
       tf_get TF_EPC p (km k') = u64 h ∧ tf_get TF_A0 p (km k') = u64 sig ∧
       tf_get TF_SIGRET p (km k') = tf_get TF_EPC p (km k))
  end.

Lemma tf_frames s a b c d e f tf :
  0 ≤ c → a = tf + TF_SIGRET → b = tf + TF_EPC → d = tf + TF_A0 →
  let m := store64 (store64 (store64 s a e) b f) d c in
  load64 m b = u64 f ∧ load64 m d = u64 c ∧ load64 m a = u64 e.
Proof.
  intros Hc -> -> -> m. unfold m, TF_SIGRET, TF_EPC, TF_A0.
  rewrite !load64_store64_eq. split_and!; [|done|].
  - rewrite load64_store64_ne by lia. by rewrite load64_store64_eq.
  - rewrite !load64_store64_ne by lia. by rewrite load64_store64_eq.
Qed.

Lemma enter_handler_run p sig h s :
  0 ≤ sig → tf_get TF_SIGRET p s = 0 →
  ∃ s', enter_handler p sig h s = Ok tt s' ∧ tf_get TF_EPC p s' = u64 h ∧ tf_get TF_A0 p s' = u64 sig ∧
    tf_get TF_SIGRET p s' = tf_get TF_EPC p s ∧ freelist s' = freelist s.
Proof.
  intros Hs E. unfold enter_handler, mbindM, gets, whenM. rewrite E. simpl (0 =? 0). cbv iota.
  unfold tf_set, modify. eexists. split; [done|]. unfold tf_get. simpl.
  destruct (tf_frames (mem s) _ _ sig _ (load64 (mem s) (trapframe p + TF_EPC)) h (trapframe p) Hs
    eq_refl eq_refl eq_refl) as (A & B & C). split; [done|]. split; [done|]. split; [|done].
  rewrite C. apply u64_small, load64_range.
Qed.

Lemma enter_handler_skip p sig h s :
  tf_get TF_SIGRET p s ≠ 0 → enter_handler p sig h s = Ok tt s.
Proof. intros E. unfold enter_handler, mbindM, gets, whenM. by rewrite (proj2 (Z.eqb_neq _ _) E). Qed.

Lemma process_signals_take me k sig :
  let p := procs k me in
  1 ≤ sig → Z.land (sig_pending p) (Z.lnot (sig_mask p)) ≠ 0 →
  first_signal (Z.land (sig_pending p) (Z.lnot (sig_mask p))) (seqZ 0 (Z.of_nat NSIG)) = sig →
  ∃ k', process_signals me k = Ok 1 k' ∧ taken me sig k k' ∧ fs k' = fs k ∧
    ∀ j, j ≠ me → procs k' j = procs k j.
Proof.
  intros p Hs Hp Ef. unfold process_signals. rewrite bind_get_proc. fold p. cbv zeta.
  rewrite (proj2 (Z.eqb_neq _ _) Hp), Ef, (proj2 (Z.eqb_neq sig 0)), bind_on_proc by lia. fold p.
  set (p1 := set_sig_pending _ p). unfold taken. fold p. fold p1. unfold disposition_of.
  assert (∀ q (s : kst), procs (set_km s (set_procs (upd (procs k) me q) k)) me = q) as Hq
    by (intros; simpl; by rewrite upd_eq).
  assert (∀ q j, j ≠ me → upd (procs k) me q j = procs k j) as Ho by (intros; by rewrite upd_ne).
  destruct (sig =? SIGKILL); [|destruct (sig =? SIGSTOP)]; [| |destruct (Z.eqb_spec sig SIGCONT) as [->|Hc]].
  - rewrite bind_on_proc. eexists. split; [done|]. simpl. rewrite !upd_eq.
    split; [done|]. split; [done|]. intros j Hj. by rewrite !upd_ne.
  - unfold mbindM, whenM. destruct (bool_decide _); (eexists; split; [done|]; simpl; rewrite !upd_eq;
      split; [done|]; split; [done|]; intros j Hj; by rewrite !upd_ne).
  - unfold mbindM, whenM. destruct (bool_decide _ && _); (eexists; split; [done|]; simpl; rewrite !upd_eq;
      split; [done|]; split; [done|]; intros j Hj; by rewrite !upd_ne).
  - set (h := nth (Z.to_nat sig) (sig_handlers p) 0). destruct (h =? SIG_IGN).
    { eexists. split; [done|]. simpl. rewrite upd_eq. split; [done|]. split; [done|]. apply Ho. }
    destruct (h =? SIG_DFL).
    { rewrite orb_false_r. destruct (_ || _).
      - eexists. split; [done|]. simpl. rewrite upd_eq. split; [done|]. split; [done|]. apply Ho.
      - rewrite bind_on_proc. eexists. split; [done|]. simpl. rewrite !upd_eq.
        split; [done|]. split; [done|]. intros j Hj. by rewrite !upd_ne. }
    destruct (decide (tf_get TF_SIGRET p (km k) = 0)) as [Hz|Hz].
    + destruct (enter_handler_run p sig h (km k) ltac:(lia) Hz) as (s' & E & A & B & C & _).
      unfold mbindM, mem_op, zoom. cbn [km set_procs]. rewrite E. eexists. split; [done|].
      split; [|split; [done|apply Ho]]. split; [apply Hq|]. intros _. done.
    + unfold mbindM, mem_op, zoom. cbn [km set_procs]. rewrite enter_handler_skip by done.
      eexists. split; [done|]. split; [|split; [done|apply Ho]]. split; [apply Hq|]. done.
Qed.

End Signals.

Section Timer.
Context `{LAY : Layout} {F : Type} `{FR : FileRefs F} `{ER : EntryRefs F}.
Context (table : Z → option (M (kern F) (option Z))) (ext : M (kern F) unit).
Implicit Types k : kern F.

Lemma handle_time_slice_total me k :
  me ≠ -1 → ∃ b k', handle_time_slice (F := F) me k = Ok b k' ∧ km k' = km k ∧
    p_state (procs k' me) = p_state (procs k me).
Proof.
  intros Hme. unfold handle_time_slice. destruct (Z.eqb_spec me (-1)); [done|].
  rewrite bind_on_proc, bind_get_proc. destruct (time_slice _ <=? 0).
  - rewrite bind_on_proc. unfold mbindM, whenM. destruct (_ <? _); (eexists _, _; split; [reflexivity|]; split; [done|]);
      simpl; rewrite !upd_eq; done.
  - eexists _, _. split; [done|]. split; [done|]. simpl. by rewrite upd_eq.
Qed.

Lemma tick_yield_run me k :
  me ≠ -1 → ∃ b k', tick_yield (F := F) me k = Ok b k' ∧ km k' = km k ∧
    (if (b : bool) then p_state (procs k' me) = RUNNABLE else p_state (procs k' me) = p_state (procs k me)).
Proof.
  intros Hme. unfold tick_yield. destruct (handle_time_slice_total me k Hme) as (b & k1 & E & Em & Es).
  rewrite (mbindM_Ok _ _ _ _ _ E).
  assert (∃ c, (if b then mretM true else higher_priority_ready me) k1 = Ok c k1) as (c & Ec)
    by (destruct b; [by exists true|]; unfold higher_priority_ready, gets; eauto).
  rewrite (mbindM_Ok _ _ _ _ _ Ec). destruct c.
  - exists true. unfold yield, sched, mbindM, on_proc, modify, get_proc, gets.
    cbn [procs set_procs]. rewrite upd_eq. simpl. eexists. split; [done|]. simpl. rewrite upd_eq. done.
  - exists false, k1. done.
Qed.

Lemma usertrap_tail_timer me k r k1 :
  me ≠ -1 → p_killed (procs k me) = 0 → process_signals me k = Ok r k1 →
  ∃ b k', usertrap_tail me 2 k = Ok (if (b : bool) then Yielded else Back) k' ∧ km k' = km k1 ∧
    (if b then p_state (procs k' me) = RUNNABLE else p_state (procs k' me) = p_state (procs k1 me)).
Proof.
  intros Hme Hk Ep. unfold usertrap_tail. rewrite bind_get_proc, Hk. simpl (negb (0 =? 0)). cbv iota.
  rewrite (mbindM_Ok _ _ _ _ _ Ep). simpl (2 =? 2). cbv iota. rewrite bind_on_proc.
  match goal with |- context[tick_yield me] => idtac end.
  match goal with |- ∃ b k', ?c ?K = _ ∧ _ => destruct (tick_yield_run me K Hme) as (b & k' & E & Em & Es) end.
  exists b, k'. rewrite (mbindM_Ok _ _ _ _ _ E). split; [done|]. split; [done|].
  destruct b; [done|]. rewrite Es. simpl. by rewrite upd_eq.
Qed.

(** A timer interrupt of a running process, up to the common tail. *)
Lemma usertrap_timer_entry me stval sepc k :
  p_state (procs k me) = RUNNING →
  ∃ k2, usertrap table ext me false SCAUSE_TIMER stval sepc k = usertrap_tail me 2 k2 ∧
    procs k2 me = procs k me ∧ fs k2 = fs k ∧
    tf_get TF_EPC (procs k me) (km k2) =
      (if tf_get TF_SIGRET (procs k me) (km k) =? 0 then u64 sepc else tf_get TF_SIGRET (procs k me) (km k)) ∧
    tf_get TF_SIGRET (procs k me) (km k2) = 0.
Proof.
  intros Hs. set (p := procs k me) in *. unfold usertrap. rewrite bind_get_proc. fold p.
  set (s1 := set_mem (store64 (mem (km k)) (trapframe p + TF_EPC) sepc) (km k)).
  assert (tf_get TF_SIGRET p s1 = tf_get TF_SIGRET p (km k)) as Er
    by (unfold tf_get, s1; simpl; apply load64_store64_ne; unfold TF_SIGRET, TF_EPC; lia).
  assert (∃ s2, (ret <-- gets (tf_get TF_SIGRET p) ;;
      whenM (negb (ret =? 0)) (tf_set TF_EPC ret p ;;; tf_set TF_SIGRET 0 p)) s1 = Ok tt s2 ∧
    tf_get TF_EPC p s2 = (if tf_get TF_SIGRET p (km k) =? 0 then u64 sepc else tf_get TF_SIGRET p (km k)) ∧
    tf_get TF_SIGRET p s2 = 0) as (s2 & E2 & H1 & H2).
  { unfold mbindM, gets, whenM. rewrite Er. destruct (Z.eqb_spec (tf_get TF_SIGRET p (km k)) 0) as [Ez|Hnz]; simpl.
    - exists s1. split; [done|]. split; [unfold tf_get, s1; simpl; by rewrite load64_store64_eq|congruence].
    - eexists. split; [done|]. unfold tf_get. simpl.
      rewrite load64_store64_ne by (unfold TF_SIGRET, TF_EPC; lia). rewrite !load64_store64_eq.
      split; [|done]. apply u64_small, load64_range. }
  unfold mbindM at 1, mem_op at 1, zoom at 1. rewrite tf_set_run. fold s1.
  unfold mbindM at 1, mem_op at 1, zoom at 1. cbn [km set_km]. rewrite E2.
  change (SCAUSE_TIMER =? SCAUSE_SYSCALL) with false. cbv iota.
  unfold devintr. change (Z.testbit SCAUSE_TIMER 63 && (Z.land SCAUSE_TIMER 255 =? 9)) with false.
  change (SCAUSE_TIMER =? SCAUSE_TIMER) with true. cbv iota.
  unfold timer_tick, mbindM at 1 2 3, modify.
  match goal with |- context[wakeup TICKS_CHAN ?K] =>
    destruct (forM_procs (λ q, bool_decide (p_state q = SLEEPING) && (p_chan q =? TICKS_CHAN))
      (set_p_state RUNNABLE) proc_ids K proc_ids_nodup) as (k2 & E & T & _ & _ & _ & Em & Ef);
    replace (wakeup TICKS_CHAN K) with (Ok tt k2 : outcome _ _) by (unfold wakeup; by rewrite E) end.
  exists k2. split; [done|]. split; [|rewrite Em, Ef; done].
  rewrite T. simpl. fold p. rewrite Hs. by rewrite andb_false_r.
Qed.

(** a signal handler does not survive a timer interrupt: while
    [signal_ret_pc] is set, the next trap, wherever it interrupts the handler,
    resumes the process at the code the signal interrupted, not in the handler. *)
Theorem signal_handler_abandoned me k stval sepc :
  let p := procs k me in
  me ≠ -1 → p_state p = RUNNING → p_killed p = 0 → (∀ i, 0 ≤ i < 32 → deliverable p i = false) →
  tf_get TF_SIGRET p (km k) ≠ 0 →
  ∃ e k', usertrap table ext me false SCAUSE_TIMER stval sepc k = Ok e k' ∧
    (e = Back ∨ e = Yielded) ∧ tf_get TF_EPC p (km k') = tf_get TF_SIGRET p (km k).
Proof.
  intros p Hme Hs Hk Hno Hr. destruct (usertrap_timer_entry me stval sepc k Hs) as (k2 & E & P & _ & Epc & _).
  assert (process_signals me k2 = Ok 0 k2) as Ep.
  { unfold process_signals. rewrite bind_get_proc, P. fold p. cbv zeta. destruct (Z.land (sig_pending p) _ =? 0); [done|].
    pose proof (first_signal_spec (Z.land (sig_pending p) (Z.lnot (sig_mask p))) 0 32 ltac:(lia)) as Hf.
    change (Z.of_nat 32) with (Z.of_nat NSIG) in Hf.
    destruct (first_signal _ _) as [|s|s]; [done| |]; destruct Hf as (H1 & H2 & _); [|lia].
    change (Z.of_nat NSIG) with 32 in H1. rewrite pending_testbit, Hno in H2 by lia. done. }
  destruct (usertrap_tail_timer me k2 0 k2 Hme ltac:(by rewrite P) Ep) as (b & k' & Et & Em & _).
  eexists _, k'. split; [rewrite E; exact Et|]. split; [destruct b; [by right|by left]|].
  rewrite Em. unfold p in *. rewrite Epc. by rewrite (proj2 (Z.eqb_neq _ _) Hr).
Qed.

(** SIGSTOP does not stop the process: taking it marks the process SLEEPING
    but [usertrap] goes on to return to user mode, or yields and thereby makes
    it RUNNABLE again. *)
Theorem sigstop_does_not_stop me k stval sepc :
  let p := procs k me in
  me ≠ -1 → p_state p = RUNNING → p_killed p = 0 →
  deliverable p (SIGSTOP - 1) = true → (∀ i, 0 ≤ i < SIGSTOP - 1 → deliverable p i = false) →
  ∃ e k', usertrap table ext me false SCAUSE_TIMER stval sepc k = Ok e k' ∧
    (e = Back ∧ p_state (procs k' me) = SLEEPING ∨ e = Yielded ∧ p_state (procs k' me) = RUNNABLE).
Proof.
  intros p Hme Hs Hk Hd Hlow. destruct (usertrap_timer_entry me stval sepc k Hs) as (k2 & E & P & _ & _ & _).
  assert (∃ k3, process_signals me k2 = Ok 1 k3 ∧ p_state (procs k3 me) = SLEEPING) as (k3 & Ep & Hst).
  { pose proof (first_signal_spec (Z.land (sig_pending p) (Z.lnot (sig_mask p))) 0 32 ltac:(lia)) as Hf.
    change (Z.of_nat 32) with (Z.of_nat NSIG) in Hf.
    assert (Z.land (sig_pending p) (Z.lnot (sig_mask p)) ≠ 0) as Hnz.
    { intros Hz. pose proof (pending_testbit p (SIGSTOP - 1) ltac:(done)) as Hb. rewrite Hz, Z.bits_0 in Hb. congruence. }
    destruct (process_signals_take me k2 SIGSTOP) as (k3 & Ep & Ht & _); [done|by rewrite P| |].
    - rewrite P. fold p. destruct (first_signal _ _) as [|s|s]; change (Z.of_nat NSIG) with 32 in Hf.
      + specialize (Hf (SIGSTOP - 1) ltac:(done)). rewrite pending_testbit in Hf by done. congruence.
      + destruct Hf as (H1 & H2 & H3). rewrite pending_testbit in H2 by lia.
        destruct (Z.lt_trichotomy (Z.pos s) SIGSTOP) as [Hlt|[Heq|Hgt]]; [|done|].
        * rewrite Hlow in H2 by lia. done.
        * specialize (H3 (SIGSTOP - 1)). rewrite pending_testbit in H3 by done.
          rewrite H3 in Hd; [done|]. unfold SIGSTOP in *. lia.
      + destruct Hf as (H1 & _). lia.
    - exists k3. split; [done|]. unfold taken in Ht. destruct Ht as [-> _]. rewrite P. fold p. by rewrite Hs. }
  destruct (usertrap_tail_timer me k2 1 k3 Hme ltac:(by rewrite P) Ep) as (b & k' & Et & _ & Hb).
  eexists _, k'. split; [rewrite E; exact Et|]. destruct b; [by right|left; split; congruence].
Qed.
End Timer.

Section PageFault.
Context `{LAY : Layout} {F : Type} `{FR : FileRefs F} `{ER : EntryRefs F}.
Implicit Types k : kern F.

Lemma is_cow_page_run root va s :
  0 ≤ va < MAXVA →
  is_cow_page root va s =
    Ok (has (pte_of (mem s) root va) PTE_V && has (pte_of (mem s) root va) PTE_COW &&
        match node_page (mem s) root (low_of va) with
        | Some p => negb (p + 8 * PX 0 va =? 0) | None => false end) s.
Proof.
  intros Hva. unfold is_cow_page. destruct (Z.leb_spec MAXVA va); [lia|].
  rewrite (mbindM_Ok _ _ _ _ _ (walk_noalloc s root va ltac:(lia))). unfold pte_of.
  destruct (node_page (mem s) root (low_of va)) as [pg|]; [|by rewrite andb_false_r].
  destruct (pg + 8 * PX 0 va =? 0); [by rewrite andb_false_r|]. rewrite andb_true_r.
  unfold mbindM, read_pte, gets. by destruct (has _ PTE_V).
Qed.

(** A fault outside mmap regions on a page that is not copy-on-write. *)
Lemma page_fault_plain me scause va k :
  let p := procs k me in
  let a := PGROUNDDOWN va in
  0 ≤ va < MAXVA →
  has (pte_of (mem (km k)) (pagetable p) va) PTE_V &&
    has (pte_of (mem (km k)) (pagetable p) va) PTE_COW = false →
  vma_lookup (vma_man p) a = None →
  page_fault me scause va k =
  (if (sz p <=? a) || (MAXUVA <=? a) then on_proc me (set_p_killed 1)
   else r <-- mem_op (lazy_alloc (pagetable p) (kpagetable p) a) ;;
        whenM (r <? 0) (on_proc me (set_p_killed 1))) k.
Proof.
  intros p a Hva Hcow Hv. unfold page_fault. rewrite bind_get_proc. fold p. cbv zeta. fold a.
  assert (0 ≤ a < MAXVA) as Ha.
  { unfold a. rewrite PGROUNDDOWN_eq. pose proof (Z.mod_pos_bound va PGSIZE ltac:(done)).
    pose proof (Z.mod_le va PGSIZE ltac:(lia) ltac:(done)). lia. }
  assert ((if scause =? SCAUSE_STORE_FAULT then mem_op (is_cow_page (pagetable p) a) else mretM false) k
    = Ok false k) as E.
  { destruct (scause =? SCAUSE_STORE_FAULT); [|done]. unfold mem_op, zoom.
    rewrite is_cow_page_run by done. unfold a. rewrite pte_of_page, Hcow. by rewrite set_km_same. }
  rewrite (mbindM_Ok _ _ _ _ _ E). by rewrite Hv.
Qed.

Lemma lazy_alloc_down r q va s : lazy_alloc r q (PGROUNDDOWN va) s = lazy_alloc r q va s.
Proof. unfold lazy_alloc. by rewrite (PGROUNDDOWN_id (PGROUNDDOWN va) (PGROUNDDOWN_aligned va)). Qed.


(** a fault on a page that is already mapped without being copy-on-write,
    such as a store to the guard page below the stack, does not kill the
    process: [lazy_alloc] maps it again and the kernel panics. *)
Theorem mapped_fault_panics me scause va k new L :
  let p := procs k me in
  let m := mem (km k) in
  pt_inv (km k) (new :: L) (pagetable p) → pt_inv (km k) (new :: L) (kpagetable p) →
  disj_pt m (pagetable p) (kpagetable p) → 0 ≤ va < MAXVA →
  has (pte_of m (pagetable p) va) PTE_V = true → has (pte_of m (pagetable p) va) PTE_COW = false →
  vma_lookup (vma_man p) (PGROUNDDOWN va) = None →
  PGROUNDDOWN va < sz p → PGROUNDDOWN va < MAXUVA →
  page_fault me scause va k = Panic "remap".
Proof.
  intros p m Hr Hk Hd Hva Vv Vc Hvma Hs Hm.
  rewrite (page_fault_plain me scause va k Hva); [|fold p m; rewrite Vc; apply andb_false_r|done].
  fold p. rewrite (proj2 (Z.leb_gt _ _) Hs), (proj2 (Z.leb_gt _ _) Hm). simpl (false || false). cbv iota.
  unfold mbindM, mem_op, zoom. rewrite lazy_alloc_down.
  by rewrite (lazy_alloc_remap (km k) new L (pagetable p) (kpagetable p) va Hr Hk Hd Hva Vv).
Qed.
End PageFault.

(** ** Examples *)
#[local] Existing Instance small_layout.
#[local] Existing Instance demo_entries.

Definition no_calls : Z → option (M (kern (ftable unit)) (option Z)) := λ _, None.

(** Process 1 inside a handler: [signal_ret_pc] is 512. *)
Definition handler_kern : kern (ftable unit) :=
  final (p <-- get_proc 1 ;; mem_op (tf_set TF_SIGRET 512 p)) (call_kern 0 []).

Lemma no_deliverable p i : sig_pending p = 0 → deliverable p i = false.
Proof. intros E. unfold deliverable. by rewrite E, Z.bits_0. Qed.

Lemma signal_handler_abandoned_witness :
  ∃ e k', usertrap no_calls (mretM tt) 1 false SCAUSE_TIMER 0 8192 handler_kern = Ok e k' ∧
    tf_get TF_EPC (procs handler_kern 1) (km k') = 512.
Proof.
  destruct (signal_handler_abandoned no_calls (mretM tt) 1 handler_kern 0 8192) as (e & k' & E & _ & H).
  - lia.
  - vm_compute. reflexivity.
  - vm_compute. reflexivity.
  - intros i _. apply no_deliverable. vm_compute. reflexivity.
  - vm_compute. congruence.
  - exists e, k'. split; [exact E|]. rewrite H. vm_compute. reflexivity.
Defined.

Lemma sigstop_does_not_stop_witness :
  let k := final (on_proc 1 (set_sig_pending (2 ^ 18))) (call_kern 0 []) in
  ∃ e k', usertrap no_calls (mretM tt) 1 false SCAUSE_TIMER 0 8192 k = Ok e k' ∧ (e = Back ∨ e = Yielded).
Proof.
  intros k. destruct (sigstop_does_not_stop no_calls (mretM tt) 1 k 0 8192) as (e & k' & E & H).
  - lia.
  - vm_compute. reflexivity.
  - vm_compute. reflexivity.
  - vm_compute. reflexivity.
  - intros i Hi. unfold deliverable.
    replace (sig_pending (procs k 1)) with (2 ^ 18) by (vm_compute; reflexivity).
    rewrite Z.pow2_bits_eqb by lia. destruct (Z.eqb_spec 18 i); [unfold SIGSTOP in Hi; lia|reflexivity].
  - exists e, k'. split; [exact E|]. destruct H as [[-> _]|[-> _]]; [left|right]; reflexivity.
Defined.

(** Process 1 with the page tables [r] and [fork_k] and memory [s], 8 pages big. *)
Definition fault_kern (r : Z) (s : kst) : kern (ftable unit) :=
  set_km s (set_procs (upd (procs demo_kern) 1
    (set_kpagetable fork_k (set_pagetable r (set_sz 32768 (demo_proc RUNNING 0 0 2))))) demo_kern).


(** A guard page (no [PTE_U]) at 4096. *)
Lemma guard_page :
  ∃ s new L, tables s (new :: L) fork_o fork_n fork_k ∧
    ∀ va, 0 ≤ va < MAXVA → pte_of (mem s) fork_o va = if PGROUNDDOWN va =? 4096 then mk_pte fork_pa 6 else 0.
Proof.
  destruct (fork_parent 6) as (s & L & E & T & _ & Po & _); [lia|vm_compute; reflexivity|].
  destruct L as [|new L]; [|exists s, new, L; tauto].
  exfalso. pose proof (ki_chain _ _ (pi_alloc _ _ _ (t_o _ _ _ _ _ T))) as Hc. simpl in Hc.
  assert (match mappages fork_o 4096 PGSIZE fork_pa 6 (fork_st 8) with
          | Ok _ s => freelist s | _ => 0 end =? 0 = false) as Hf by (vm_compute; reflexivity).
  rewrite E, Hc in Hf. discriminate Hf.
Qed.

Lemma mapped_fault_panics_witness :
  ∃ s, page_fault 1 SCAUSE_STORE_FAULT 4100 (fault_kern fork_o s) = Panic "remap".
Proof.
  destruct guard_page as (s & new & L & T & Po). exists s.
  assert (pte_of (mem s) fork_o 4100 = mk_pte fork_pa 6) as E by (rewrite Po by (unfold MAXVA; lia); reflexivity).
  apply (mapped_fault_panics 1 SCAUSE_STORE_FAULT 4100 (fault_kern fork_o s) new L).
  - exact (t_o _ _ _ _ _ T).
  - exact (t_k _ _ _ _ _ T).
  - exact (t_ok _ _ _ _ _ T).
  - unfold MAXVA. lia.
  - refine (eq_trans (f_equal (λ v, has v PTE_V) E) _). vm_compute. reflexivity.
  - refine (eq_trans (f_equal (λ v, has v PTE_COW) E) _). vm_compute. reflexivity.
  - reflexivity.
  - vm_compute. reflexivity.
  - vm_compute. reflexivity.
Defined.
