(* ===== verification/Shell.v ===== *)
(** * The shell (xv6-user/sh.c)

    Command lines: variable expansion, the recursive-descent parser over the line
    buffer, and the descriptors with which [runcmd] starts every program.

    The buffer is its characters without the final NUL, a [char *] into it a
    position; reading at the end gives the NUL.  The state of the parser is the
    pointer [*ps], and [panic] is the shell's own ([exit(1)] after a message).
    While [parseexec] runs, [ret] is the execcmd wrapped in the redirections read
    so far and the arguments are still added to the execcmd; the model keeps the
    two lists apart and wraps at the end. *)
From stdpp Require Import prelude list strings.
From Stdlib Require Import ZArith Lia.
From S2P Require Import Prelude Strings Printf File FatNames Sysfile.
Open Scope Z_scope.

(** ** Commands *)
Definition MAXARGS : nat := 10.
Definition NENVS : nat := 16.

Inductive cmd (W : Type) :=
| EXEC (argv : list W)
| REDIR (c : cmd W) (file : W) (mode fd : Z)
| PIPE (left right : cmd W)
| LIST (left right : cmd W)
| BACK (c : cmd W).
Arguments EXEC {W}.
Arguments REDIR {W}.
Arguments PIPE {W}.
Arguments LIST {W}.
Arguments BACK {W}.

Fixpoint map_cmd {V W} (f : V → W) (c : cmd V) : cmd W :=
  match c with
  | EXEC argv => EXEC (map f argv)
  | REDIR c file mode fd => REDIR (map_cmd f c) (f file) mode fd
  | PIPE l r => PIPE (map_cmd f l) (map_cmd f r)
  | LIST l r => LIST (map_cmd f l) (map_cmd f r)
  | BACK c => BACK (map_cmd f c)
  end.

(** A redirection: file name, mode and descriptor. *)
Record redir (W : Type) := Redir { r_file : W; r_mode : Z; r_fd : Z }.
Arguments Redir {W}.
Arguments r_file {W}.
Arguments r_mode {W}.
Arguments r_fd {W}.
Definition wrap {W} (rs : list (redir W)) (c : cmd W) : cmd W :=
  fold_left (λ c r, REDIR c (r_file r) (r_mode r) (r_fd r)) rs c.

(** ** Scanning *)
Definition whitespace : list Z := [32; 9; 13; 10; 11].
Definition symbols : list Z := chars "<|>&;()".
Definition in_set (set : list Z) (c : Z) : bool := existsb (Z.eqb c) set.
Definition is_ws : Z → bool := in_set whitespace.
Definition word_char (c : Z) : bool := negb (c =? 0) && negb (is_ws c) && negb (in_set symbols c).

Definition TOK_WORD : Z := 97.
Definition TOK_APPEND : Z := 43.

Section Parser.
Context (buf : list Z).

Definition ch (s : nat) : Z := nth s buf 0.
(** [while(s < es && f( *s)) s++] *)
Fixpoint skip_while (n : nat) (f : Z → bool) (s : nat) : nat :=
  match n with O => s | S n => if f (ch s) then skip_while n f (S s) else s end.
Definition skip (f : Z → bool) (s : nat) : nat := skip_while (length buf - s) f s.

Definition gettoken : M nat (Z * (nat * nat)) := λ s,
  let q := skip is_ws s in
  let c := ch q in
  let '(ret, eq) :=
    if c =? 0 then (c, q)
    else if in_set (chars "|();&<") c then (c, S q)
    else if c =? 62 then if ch (S q) =? 62 then (TOK_APPEND, S (S q)) else (c, S q)
    else (TOK_WORD, skip (λ c, negb (is_ws c) && negb (in_set symbols c)) q) in
  Ok (ret, (q, eq)) (skip is_ws eq).
Definition peek (toks : list Z) : M nat bool := λ s,
  let s := skip is_ws s in
  Ok (negb (ch s =? 0) && in_set toks (ch s)) s.

(** ** Parsing *)
Definition redir_mode (tok : Z) : Z * Z :=
  if tok =? 60 then (O_RDONLY, 0)
  else if tok =? 62 then (Z.lor (Z.lor O_WRONLY O_CREATE) O_TRUNC, 1)
  else (Z.lor (Z.lor O_WRONLY O_CREATE) O_APPEND, 1).
Fixpoint parseredirs (fuel : nat) (rs : list (redir (nat * nat))) : M nat (list (redir (nat * nat))) :=
  b <-- peek (chars "<>") ;;
  if b then
    match fuel with
    | O => panic "fuel"
    | S fuel =>
        t <-- gettoken ;;
        w <-- gettoken ;;
        if negb (w.1 =? TOK_WORD) then panic "missing file for redirection"
        else parseredirs fuel (rs ++ [Redir w.2 (redir_mode t.1).1 (redir_mode t.1).2])
    end
  else mretM rs.
(** One iteration of a loop that reads a token per round: enough for the line. *)
Definition loop_fuel : nat := S (length buf).

(** The loop of [parseexec]. *)
Fixpoint parseargs (fuel : nat) (argv : list (nat * nat)) (rs : list (redir (nat * nat))) : M nat (cmd (nat * nat)) :=
  b <-- peek (chars "|)&;") ;;
  if b then mretM (wrap rs (EXEC argv))
  else
    match fuel with
    | O => panic "fuel"
    | S fuel =>
        t <-- gettoken ;;
        if t.1 =? 0 then mretM (wrap rs (EXEC argv))
        else if negb (t.1 =? TOK_WORD) then panic "syntax"
        else if (MAXARGS <=? S (length argv))%nat then panic "too many args"
        else
          rs <-- parseredirs loop_fuel rs ;;
          parseargs fuel (argv ++ [t.2]) rs
    end.
(** The loop of [parseline] over the ampersands. *)
Fixpoint parsebacks (fuel : nat) (c : cmd (nat * nat)) : M nat (cmd (nat * nat)) :=
  b <-- peek (chars "&") ;;
  if b then match fuel with O => panic "fuel" | S fuel => gettoken ;;; parsebacks fuel (BACK c) end
  else mretM c.

Fixpoint parseline (n : nat) : M nat (cmd (nat * nat)) :=
  match n with
  | O => panic "fuel"
  | S n =>
      c <-- parsepipe n ;;
      c <-- parsebacks loop_fuel c ;;
      b <-- peek (chars ";") ;;
      if b then gettoken ;;; r <-- parseline n ;; mretM (LIST c r) else mretM c
  end
with parsepipe (n : nat) : M nat (cmd (nat * nat)) :=
  match n with
  | O => panic "fuel"
  | S n =>
      c <-- parseexec n ;;
      b <-- peek (chars "|") ;;
      if b then gettoken ;;; r <-- parsepipe n ;; mretM (PIPE c r) else mretM c
  end
with parseexec (n : nat) : M nat (cmd (nat * nat)) :=
  match n with
  | O => panic "fuel"
  | S n =>
      b <-- peek (chars "(") ;;
      if b then parseblock n
      else rs <-- parseredirs loop_fuel [] ;; parseargs loop_fuel [] rs
  end
with parseblock (n : nat) : M nat (cmd (nat * nat)) :=
  match n with
  | O => panic "fuel"
  | S n =>
      b <-- peek (chars "(") ;;
      if negb b then panic "parseblock"
      else
        gettoken ;;;
        c <-- parseline n ;;
        b <-- peek (chars ")") ;;
        if negb b then panic "syntax - missing )"
        else gettoken ;;; rs <-- parseredirs loop_fuel [] ;; mretM (wrap rs c)
  end.
Definition parse_fuel : nat := 4 * length buf + 4.

(** [nulterminate] on the bytes of the buffer, the final NUL included. *)
Fixpoint nulterminate (c : cmd (nat * nat)) (b : list Z) : list Z :=
  match c with
  | EXEC argv => fold_left (λ b w, <[w.2 := 0]> b) argv b
  | REDIR c file _ _ => <[file.2 := 0]> (nulterminate c b)
  | PIPE l r | LIST l r => nulterminate r (nulterminate l b)
  | BACK c => nulterminate c b
  end.

(** The string a pointer into the buffer denotes. *)
Definition string_at (b : list Z) (w : nat * nat) : list Z := cstr (drop w.1 b).

(** [parsecmd]: the command, with the strings its pointers denote afterwards. *)
Definition parsecmd : outcome nat (cmd (list Z)) :=
  (c <-- parseline parse_fuel ;;
   peek [] ;;;
   s <-- gets (λ s : nat, s) ;;
   if negb (s =? length buf)%nat then panic "syntax"
   else mretM (map_cmd (string_at (nulterminate c (buf ++ [0]))) c)) 0%nat.
End Parser.

(** ** Variables *)
Notation env := (list (list Z * list Z)).
Definition is_upper (c : Z) : bool := (65 <=? c) && (c <=? 90).
Definition is_lower (c : Z) : bool := (97 <=? c) && (c <=? 122).
Definition is_digit (c : Z) : bool := (48 <=? c) && (c <=? 57).
Definition name_start (c : Z) : bool := is_upper c || is_lower c || (c =? 95).
Definition name_rest (c : Z) : bool := is_upper c || is_lower c || is_digit c || (c =? 95).
(** The longest prefix of characters that satisfy [f], and the rest. *)
Fixpoint span_while (f : Z → bool) (s : list Z) : list Z * list Z :=
  match s with
  | c :: s' => if f c then let '(a, b) := span_while f s' in (c :: a, b) else ([], s)
  | [] => ([], [])
  end.
Definition checkenvname (s : list Z) : nat :=
  match s with c :: s => if name_start c then S (length (span_while name_rest s).1) else O | [] => O end.

(** [replace]: the expanded line and the number of dollars, from [s] on with the
    output [t] so far.  [None] when a name does not fit [name[32]]. *)
Fixpoint replace_loop (fuel : nat) (envs : env) (s t : list Z) (n : Z) : option (list Z * Z) :=
  match fuel with
  | O => None
  | S fuel =>
      match s with
      | [] => Some (t, n)
      | c :: s =>
          if c =? 36 then
            match s with
            | c1 :: s1 =>
                if name_start c1 then
                  let '(name, s2) := span_while name_rest s1 in
                  if (32 <=? S (length name))%nat then None
                  else
                    let vals := concat (map snd (filter (λ e, e.1 = c1 :: name) envs)) in
                    replace_loop fuel envs s2 (t ++ vals) (n + 1)
                else replace_loop fuel envs s (t ++ [c]) (n + 1)
            | [] => replace_loop fuel envs s (t ++ [c]) (n + 1)
            end
          else replace_loop fuel envs s (t ++ [c]) n
      end
  end.
(** [None] also when the result does not fit [buf[100]]. *)
Definition replace (envs : env) (buf : list Z) : option (list Z * Z) :=
  match replace_loop (S (length buf)) envs buf [] 0 with
  | Some (t, n) => if (100 <=? length t)%nat then None else Some (t, n)
  | None => None
  end.

(** [export] with the argument [arg]: the new variables and the result; [None]
    when the code reads or writes outside its strings (no [=] in the argument, a
    name or a value too long for its array, an empty value). *)
Definition export (envs : env) (arg : list Z) : option (env * Z) :=
  if bool_decide (arg = chars "-p") then Some (envs, 0)
  else if (length envs =? NENVS)%nat then Some (envs, -1)
  else
    let '(name, rest) := span_while (λ c, negb (c =? 61)) arg in
    match rest with
    | [] => None
    | _ :: value =>
        if (32 <=? length name)%nat then None
        else if negb (checkenvname name =? length name)%nat then Some (envs, -1)
        else if (96 <=? length value)%nat then None
        else
          match last value with
          | None => None
          | Some c => Some (envs ++ [(name, if c =? 47 then take (length value - 1) value else value)], 0)
          end
    end.

(** ** Running commands *)
(** What a descriptor refers to: something the shell already had, a file opened
    by a redirection, or an end of the pipe made for the command at [pos]. *)
Inductive obj := Inherited (k : nat) | Opened (file : list Z) (mode : Z) | PipeR (pos : list bool) | PipeW (pos : list bool).
#[global] Instance obj_eq_dec : EqDecision obj.
Proof. solve_decision. Defined.
Notation fdtable := (list (option obj)).
Definition close_fd (fd : nat) (t : fdtable) : fdtable := <[fd := None]> t.
(** The lowest free descriptor ([fdalloc] of kernel/sysfile.c). *)
Fixpoint lowest (t : fdtable) : option nat :=
  match t with [] => None | None :: _ => Some O | Some _ :: t => S <$> lowest t end.
Definition new_fd (x : obj) (t : fdtable) : option (nat * fdtable) :=
  match lowest t with Some fd => Some (fd, <[fd := Some x]> t) | None => None end.
Definition dup_fd (fd : nat) (t : fdtable) : fdtable :=
  match t !! fd with
  | Some (Some x) => match new_fd x t with Some (_, t) => t | None => t end
  | _ => t
  end.
Definition pipe_fds (pos : list bool) (t : fdtable) : option (nat * nat * fdtable) :=
  match new_fd (PipeR pos) t with
  | Some (p0, t) => match new_fd (PipeW pos) t with Some (p1, t) => Some (p0, p1, t) | None => None end
  | None => None
  end.

(** A program started: the path that was executed, its arguments, its
    descriptors. *)
Record launch := Launch { l_path : list Z; l_argv : list (list Z); l_fds : fdtable }.

(** What the system answers: which files open, which paths execute, which
    [fork]s succeed. *)
Record system := System { can_open : list Z → Z → bool; can_exec : list Z → bool; can_fork : list bool → bool }.

(** The programs [runcmd] starts; the command is at [pos] of the command line.
    Every branch ends in [exit]; a child is the list of what it starts. *)
Section Run.
Context (sy : system) (envs : env).

Definition exec_paths (name : list Z) : list (list Z) := name :: map (λ e, e.2 ++ [47] ++ name) envs.
Fixpoint runcmd (pos : list bool) (c : cmd (list Z)) (t : fdtable) : list launch :=
  match c with
  | EXEC [] => []
  | EXEC (name :: args) =>
      match List.find (can_exec sy) (exec_paths name) with
      | Some path => [Launch path (name :: args) t]
      | None => []
      end
  | REDIR c file mode fd =>
      let t := close_fd (Z.to_nat fd) t in
      if can_open sy file mode
      then match new_fd (Opened file mode) t with Some (_, t) => runcmd pos c t | None => [] end
      else []
  | LIST l r =>
      if can_fork sy (pos ++ [false]) then runcmd (pos ++ [false]) l t ++ runcmd (pos ++ [true]) r t else []
  | PIPE l r =>
      match pipe_fds pos t with
      | None => []
      | Some (p0, p1, t) =>
          if can_fork sy (pos ++ [false]) then
            runcmd (pos ++ [false]) l (close_fd p1 (close_fd p0 (dup_fd p1 (close_fd 1 t)))) ++
            (if can_fork sy (pos ++ [true])
             then runcmd (pos ++ [true]) r (close_fd p1 (close_fd p0 (dup_fd p0 (close_fd 0 t)))) else [])
          else []
      end
  | BACK c => if can_fork sy (pos ++ [false]) then runcmd (pos ++ [false]) c t else []
  end.
End Run.

(** One round of [main]: what the shell does with an expanded line. *)
Inductive action := Chdir (path : list Z) | Nothing | Usage | Export (arg : list Z) | Run (c : cmd (list Z)) | Exit (msg : string).
Definition shell_line (buf : list Z) : action :=
  if bool_decide (take 3 buf = chars "cd ") then Chdir (drop 3 (take (length buf - 1) buf))
  else
    match parsecmd buf with
    | Panic e => Exit e
    | Ok c _ =>
        match c with
        | EXEC [] => Nothing
        | EXEC (a :: args) =>
            if bool_decide (a = chars "export")
            then match args with [] => Usage | x :: _ => Export x end
            else Run c
        | _ => Run c
        end
    end.
