(* ===== verification/ShellProps.v ===== *)
(** * Correctness of the shell

    The parser ends on every line and its words are exactly the words of the
    line; printing a command and parsing it back gives the command; every program
    of a command line is started with the descriptors its place in the command
    asks for. *)
From stdpp Require Import prelude list strings.
From Stdlib Require Import ZArith Lia.
From S2P Require Import Prelude Strings Printf File FatNames Sysfile Shell.
Open Scope Z_scope.

(** ** Scanning *)
Section Scan.
Context (buf : list Z).
Notation L := (length buf).
Notation ch := (ch buf).

Lemma skip_while_spec f n s :
  let e := skip_while buf n f s in
  (s ≤ e ≤ s + n)%nat ∧ (∀ i, (s ≤ i < e)%nat → f (ch i) = true) ∧ ((e < s + n)%nat → f (ch e) = false).
Proof.
  revert s. induction n as [|n IH]; intros s; cbn [skip_while]; [repeat split; intros; lia|].
  destruct (f (ch s)) eqn:E; [|repeat split; intros; try lia; done].
  destruct (IH (S s)) as (A & B & C). split; [lia|]. split; [|intros; apply C; lia].
  intros i Hi. destruct (decide (i = s)) as [->|]; [done|apply B; lia].
Qed.
Lemma skip_spec f s : (s ≤ L)%nat →
  let e := skip buf f s in
  (s ≤ e ≤ L)%nat ∧ (∀ i, (s ≤ i < e)%nat → f (ch i) = true) ∧ ((e < L)%nat → f (ch e) = false).
Proof.
  intros Hs. unfold skip. destruct (skip_while_spec f (L - s) s) as (A & B & C).
  split; [lia|]. split; [done|]. intros; apply C; lia.
Qed.
Lemma ch_end i : (L ≤ i)%nat → ch i = 0.
Proof. intros H. unfold Shell.ch. by apply nth_overflow. Qed.

Context (Hbuf : Forall (λ c, c ≠ 0) buf).
Lemma ch_nz i : (i < L)%nat → ch i ≠ 0.
Proof. intros Hi. unfold Shell.ch. rewrite Forall_nth in Hbuf. by apply Hbuf. Qed.

(** A word of the line: a maximal run of word characters. *)
Definition good (w : nat * nat) : Prop :=
  (w.1 < w.2 ≤ L)%nat ∧ (∀ i, (w.1 ≤ i < w.2)%nat → word_char (ch i) = true) ∧ word_char (ch w.2) = false.

Lemma special_symbols c : in_set (chars "|();&<") c = false → c ≠ 62 → in_set symbols c = false.
Proof.
  intros H1 H2. unfold in_set in *. change (chars "|();&<") with [124; 40; 41; 59; 38; 60] in H1.
  change symbols with [60; 124; 62; 38; 59; 40; 41]. cbn [existsb] in *. bool_prop.
  repeat match goal with H : c ≠ ?x |- _ => rewrite (proj2 (Z.eqb_neq c x) H); clear H end. done.
Qed.

Lemma gettoken_spec s : (s ≤ L)%nat →
  ∃ t q e s', gettoken buf s = Ok (t, (q, e)) s' ∧ (s ≤ q ≤ e)%nat ∧ (e ≤ s' ≤ L)%nat ∧
    (t = TOK_WORD → good (q, e)) ∧ ((s < L)%nat → (s < s')%nat).
Proof.
  intros Hs. unfold gettoken. set (q := skip buf is_ws s). destruct (skip_spec is_ws s Hs) as (Q1 & _ & Q3). fold q in Q1, Q3.
  assert (∀ e, (q ≤ e ≤ L)%nat → (e ≤ skip buf is_ws e ≤ L)%nat) as Hws by (intros e He; apply skip_spec; lia).
  destruct (Z.eqb_spec (ch q) 0) as [E0|N0].
  { exists (ch q), q, q, (skip buf is_ws q). pose proof (Hws q ltac:(lia)).
    split_and!; [done|lia..|intros E; by rewrite E0 in E|].
    intros Hlt. assert (q = L); [|lia]. apply dec_stable. intros Hn. by apply (ch_nz q); [lia|]. }
  assert (q < L)%nat as Hq by (apply dec_stable; intros H; apply N0, ch_end; lia).
  destruct (in_set (chars "|();&<") (ch q)) eqn:Esp.
  { exists (ch q), q, (S q), (skip buf is_ws (S q)). pose proof (Hws (S q) ltac:(lia)). split_and!; [done|lia..| |lia].
    intros E. rewrite E in Esp. discriminate Esp. }
  destruct (Z.eqb_spec (ch q) 62) as [E62|N62].
  { destruct (Z.eqb_spec (ch (S q)) 62) as [E2|N2].
    - assert (S q < L)%nat by (apply dec_stable; intros H; rewrite ch_end in E2 by lia; done).
      exists TOK_APPEND, q, (S (S q)), (skip buf is_ws (S (S q))). pose proof (Hws (S (S q)) ltac:(lia)). split_and!; [done|lia..|done|lia].
    - exists (ch q), q, (S q), (skip buf is_ws (S q)). pose proof (Hws (S q) ltac:(lia)). split_and!; [done|lia..| |lia].
      intros E. rewrite E in E62. done. }
  set (wf := λ c, negb (is_ws c) && negb (in_set symbols c)). set (e := skip buf wf q).
  destruct (skip_spec wf q ltac:(lia)) as (A & B & C). fold e in A, B, C.
  assert (wf (ch q) = true) as Hwq by (unfold wf; rewrite Q3, special_symbols by done; done).
  assert (q < e)%nat as Hqe.
  { destruct (decide (q = e)) as [Ee|]; [|lia]. rewrite <- Ee in C. rewrite C in Hwq by lia. done. }
  exists TOK_WORD, q, e, (skip buf is_ws e). pose proof (Hws e ltac:(lia)). split_and!; [done|lia..| |lia].
  intros _. split; [simpl; lia|]. split; simpl.
  - intros i Hi. unfold word_char. rewrite (proj2 (Z.eqb_neq _ _)) by (apply ch_nz; lia). apply (B i). lia.
  - destruct (decide (e < L)%nat) as [Hl|Hl]; unfold word_char.
    + specialize (C Hl). unfold wf in C. rewrite <- andb_assoc, C. apply andb_false_r.
    + by rewrite ch_end by lia.
Qed.
Lemma peek_spec toks s : (s ≤ L)%nat →
  ∃ b s', peek buf toks s = Ok b s' ∧ (s ≤ s' ≤ L)%nat ∧ (b = true → (s' < L)%nat) ∧
    peek buf toks s' = Ok b s'.
Proof.
  intros Hs. unfold peek. set (s' := skip buf is_ws s). exists (negb (ch s' =? 0) && in_set toks (ch s')), s'.
  destruct (skip_spec is_ws s Hs) as (A & _ & C). fold s' in A, C. split; [done|]. split; [done|]. split.
  2:{ destruct (skip_spec is_ws s' ltac:(lia)) as (A' & B' & _). assert (skip buf is_ws s' = s') as ->; [|done].
      destruct (decide (skip buf is_ws s' = s')) as [|Hn]; [done|]. specialize (B' s' ltac:(lia)). rewrite C in B' by lia. done. }
  intros Hb.
  apply andb_prop in Hb as [Hb _]. apply negb_true_iff, Z.eqb_neq in Hb. apply dec_stable. intros H. apply Hb, ch_end. unfold s' in *. lia.
Qed.

(** ** The parser ends, and its words are words *)
Definition parse_errors : list string :=
  ["syntax"; "syntax - missing )"; "missing file for redirection"; "too many args"]%string.
(** From [s] the parser advances inside the line and returns a good value, or
    reports an error; it does not run out of fuel. *)
Definition fine {A} (P : A → Prop) (s : nat) (o : outcome nat A) : Prop :=
  match o with Ok a s' => (s ≤ s' ≤ L)%nat ∧ P a | Panic e => e ∈ parse_errors end.
Lemma fine_bind {A B} (P : A → Prop) (Q : B → Prop) (c : M nat A) (f : A → M nat B) s :
  fine P s (c s) → (∀ a s', (s ≤ s' ≤ L)%nat → P a → fine Q s' (f a s')) → fine Q s (mbindM c f s).
Proof.
  unfold fine at 1. intros Hc Hf. unfold mbindM. destruct (c s) as [a s'|e]; [|done]. destruct Hc as [Hs Ha].
  specialize (Hf a s' Hs Ha). unfold fine in *. destruct (f a s') as [b s2|e]; [|done]. destruct Hf. split; [lia|done].
Qed.
Lemma fine_ret {A} (P : A → Prop) (a : A) s : (s ≤ L)%nat → P a → fine P s (mretM a s).
Proof. intros Hs Ha. split; [lia|done]. Qed.
Lemma fine_panic {A} (P : A → Prop) e s : e ∈ parse_errors → fine P s (panic e s).
Proof. done. Qed.
(** After [peek] found one of [toks], [gettoken] advances. *)
Lemma fine_peek {B} (Q : B → Prop) toks (f : bool → M nat B) s :
  (s ≤ L)%nat → (∀ b s', (s ≤ s' ≤ L)%nat → (b = true → (s' < L)%nat) → peek buf toks s' = Ok b s' → fine Q s' (f b s')) →
  fine Q s (mbindM (peek buf toks) f s).
Proof.
  intros Hs Hf. destruct (peek_spec toks s Hs) as (b & s' & E & H1 & H2 & H3). unfold mbindM. rewrite E.
  specialize (Hf b s' H1 H2 H3). unfold fine in *. destruct (f b s'); [|done]. destruct Hf. split; [lia|done].
Qed.
Lemma fine_token {B} (Q : B → Prop) (f : Z * (nat * nat) → M nat B) s :
  (s ≤ L)%nat → (∀ t w s', (s ≤ s' ≤ L)%nat → ((s < L)%nat → (s < s')%nat) → (t = TOK_WORD → good w ∧ (s < s')%nat) → fine Q s' (f (t, w) s')) →
  fine Q s (mbindM (gettoken buf) f s).
Proof.
  intros Hs Hf. destruct (gettoken_spec s Hs) as (t & q & e & s' & E & H1 & H2 & H3 & H4). unfold mbindM. rewrite E.
  assert (t = TOK_WORD → good (q, e) ∧ (s < s')%nat) as H5.
  { intros Ht. split; [by apply H3|]. destruct (H3 Ht) as [Hqe _]. simpl in Hqe. lia. }
  specialize (Hf t (q, e) s' ltac:(lia) H4 H5). unfold fine in *. destruct (f _ s'); [|done]. destruct Hf. split; [lia|done].
Qed.

Fixpoint good_cmd (c : cmd (nat * nat)) : Prop :=
  match c with
  | EXEC argv => Forall good argv
  | REDIR c f _ _ => good_cmd c ∧ good f
  | PIPE l r | LIST l r => good_cmd l ∧ good_cmd r
  | BACK c => good_cmd c
  end.
Definition good_redirs (rs : list (redir (nat * nat))) : Prop := Forall (λ r, good (r_file r)) rs.
Lemma good_wrap rs c : good_redirs rs → good_cmd c → good_cmd (wrap rs c).
Proof.
  revert c. induction rs as [|r rs IH]; intros c Hr Hc; [done|]. apply Forall_cons in Hr as [H1 H2]. by apply (IH (REDIR c _ _ _)).
Qed.

Lemma parseredirs_fine fuel rs s :
  (s ≤ L)%nat → (L - s < fuel)%nat → good_redirs rs → fine good_redirs s (parseredirs buf fuel rs s).
Proof.
  revert rs s. induction fuel as [|fuel IH]; intros rs s Hs Hf Hr; [lia|]. cbn [parseredirs].
  apply fine_peek; [done|]. intros [] s1 H1 Hb Hp; [|apply fine_ret; [lia|done]].
  apply fine_token; [lia|]. intros t w s2 H2 Ht _. apply fine_token; [lia|]. intros t' w' s3 H3 _ Hg.
  cbn [fst snd]. destruct (Z.eqb_spec t' TOK_WORD) as [E|]; cbn [negb]; [|apply fine_panic; set_solver]. apply IH; [lia|specialize (Hb eq_refl); lia|].
  apply Forall_app. split; [done|]. by constructor; [apply Hg|].
Qed.
Lemma parseargs_fine fuel argv rs s :
  (s ≤ L)%nat → (L - s < fuel)%nat → Forall good argv → good_redirs rs → fine good_cmd s (parseargs buf fuel argv rs s).
Proof.
  revert argv rs s. induction fuel as [|fuel IH]; intros argv rs s Hs Hf Ha Hr; [lia|]. cbn [parseargs].
  apply fine_peek; [done|]. intros [] s1 H1 _ _; [apply fine_ret; [lia|by apply good_wrap]|].
  apply fine_token; [lia|]. intros t w s2 H2 Hadv Hg. cbn [fst snd].
  destruct (Z.eqb_spec t 0); [apply fine_ret; [lia|by apply good_wrap]|].
  destruct (Z.eqb_spec t TOK_WORD) as [->|]; cbn [negb]; [|apply fine_panic; set_solver].
  destruct (MAXARGS <=? S (length argv))%nat; [apply fine_panic; set_solver|]. destruct (Hg eq_refl) as [Hw Hlt].
  eapply fine_bind; [apply parseredirs_fine; [lia|unfold loop_fuel; lia|done]|].
  intros rs' s3 H3 Hr'. apply IH; [lia|lia| |done]. apply Forall_app. split; [done|]. by constructor.
Qed.
Lemma parsebacks_fine fuel c s : (s ≤ L)%nat → (L - s < fuel)%nat → good_cmd c → fine good_cmd s (parsebacks buf fuel c s).
Proof.
  revert c s. induction fuel as [|fuel IH]; intros c s Hs Hf Hc; [lia|]. cbn [parsebacks].
  apply fine_peek; [done|]. intros [] s1 H1 Hb Hp; [|apply fine_ret; [lia|done]].
  apply fine_token; [lia|]. intros t w s2 H2 Ht _. apply IH; [lia| |done]. specialize (Hb eq_refl). lia.
Qed.
Lemma parse_fine n s : (s ≤ L)%nat →
  ((4 * (L - s) + 4 ≤ n)%nat → fine good_cmd s (parseline buf n s)) ∧
  ((4 * (L - s) + 3 ≤ n)%nat → fine good_cmd s (parsepipe buf n s)) ∧
  ((4 * (L - s) + 2 ≤ n)%nat → fine good_cmd s (parseexec buf n s)) ∧
  ((4 * (L - s) + 1 ≤ n)%nat → peek buf (chars "(") s = Ok true s → fine good_cmd s (parseblock buf n s)).
Proof.
  revert s. induction n as [|n IH]; intros s Hs; [lia|]. split_and!; intros Hn;
    cbn [parseline parsepipe parseexec parseblock].
  - eapply fine_bind; [by apply IH; lia|]. intros c s1 H1 Hc.
    eapply fine_bind; [apply parsebacks_fine; [lia|unfold loop_fuel; lia|done]|]. intros c2 s2 H2 Hc2.
    apply fine_peek; [lia|]. intros [] s3 H3 Hb _; [|apply fine_ret; [lia|done]]. specialize (Hb eq_refl).
    apply fine_token; [lia|]. intros t w s4 H4 Ht _. eapply fine_bind; [apply IH; lia|]. intros r s5 H5 Hr.
    by apply fine_ret; [lia|].
  - eapply fine_bind; [by apply IH; lia|]. intros c s1 H1 Hc.
    apply fine_peek; [lia|]. intros [] s3 H3 Hb _; [|apply fine_ret; [lia|done]]. specialize (Hb eq_refl).
    apply fine_token; [lia|]. intros t w s4 H4 Ht _. eapply fine_bind; [apply IH; lia|]. intros r s5 H5 Hr.
    by apply fine_ret; [lia|].
  - apply fine_peek; [lia|]. intros [] s1 H1 Hb Hp; [by apply IH; [lia|lia|]|].
    eapply fine_bind; [apply parseredirs_fine; [lia|unfold loop_fuel; lia|by constructor]|]. intros rs s2 H2 Hr.
    apply parseargs_fine; [lia|unfold loop_fuel; lia|by constructor|done].
  - intros Hp. assert (s < L)%nat as Hb.
    { destruct (peek_spec (chars "(") s Hs) as (b & s' & E & _ & H & _). rewrite Hp in E. injection E as <- <-. by apply H. }
    unfold mbindM at 1. rewrite Hp. cbn [negb].
    apply fine_token; [lia|]. intros t w s2 H2 Ht _. eapply fine_bind; [apply IH; lia|]. intros c s3 H3 Hc.
    apply fine_peek; [lia|]. intros [] s4 H4 _ _; cbn [negb]; [|apply fine_panic; set_solver].
    apply fine_token; [lia|]. intros t' w' s5 H5 _ _.
    eapply fine_bind; [apply parseredirs_fine; [lia|unfold loop_fuel; lia|by constructor]|]. intros rs s6 H6 Hr.
    apply fine_ret; [lia|by apply good_wrap].
Qed.

(** ** The strings of a command *)
Fixpoint words {W} (c : cmd W) : list W :=
  match c with
  | EXEC argv => argv
  | REDIR c f _ _ => words c ++ [f]
  | PIPE l r | LIST l r => words l ++ words r
  | BACK c => words c
  end.
Definition zero_at (l : list nat) (b : list Z) : list Z := fold_left (λ b i, <[i := 0]> b) l b.
Lemma zero_at_app l l' b : zero_at (l ++ l') b = zero_at l' (zero_at l b).
Proof. apply fold_left_app. Qed.
Lemma length_zero_at l b : length (zero_at l b) = length b.
Proof. revert b. induction l as [|i l IH]; intros b; [done|]. cbn. unfold zero_at in IH. by rewrite IH, length_insert. Qed.
Lemma zero_at_lookup l b i : zero_at l b !! i = if bool_decide (i ∈ l) then (λ _, 0) <$> b !! i else b !! i.
Proof.
  revert b. induction l as [|j l IH]; intros b; [done|]. change (zero_at (j :: l) b) with (zero_at l (<[j:=0]> b)). rewrite IH.
  destruct (decide (j = i)) as [->|Hne].
  - rewrite (bool_decide_eq_true_2 (i ∈ i :: l)) by (by left). destruct (b !! i) as [x|] eqn:Ex.
    + rewrite list_lookup_insert_eq by (by eapply lookup_lt_Some). by destruct (bool_decide (i ∈ l)).
    + rewrite list_insert_ge by (by apply lookup_ge_None). rewrite Ex. by destruct (bool_decide (i ∈ l)).
  - rewrite list_lookup_insert_ne by done. destruct (decide (i ∈ l)).
    + rewrite !bool_decide_eq_true_2 by (done || by right). done.
    + rewrite !bool_decide_eq_false_2; [done|intros [|]%elem_of_cons; done|done].
Qed.
Lemma nulterminate_zero c b : nulterminate c b = zero_at (map snd (words c)) b.
Proof.
  revert b. induction c as [argv|c IH f m fd|l IHl r IHr|l IHl r IHr|c IH]; intros b; cbn [nulterminate words].
  - unfold zero_at. revert b. induction argv as [|w argv IH]; intros b; [done|]. cbn. apply IH.
  - by rewrite IH, map_app, zero_at_app.
  - by rewrite IHl, IHr, map_app, zero_at_app.
  - by rewrite IHl, IHr, map_app, zero_at_app.
  - apply IH.
Qed.
Lemma good_words c : good_cmd c ↔ Forall good (words c).
Proof.
  induction c as [argv|c IH f m fd|l IHl r IHr|l IHl r IHr|c IH]; cbn [good_cmd words]; [done|..|done].
  - by rewrite Forall_app, IH, Forall_singleton.
  - by rewrite Forall_app, IHl, IHr.
  - by rewrite Forall_app, IHl, IHr.
Qed.

Definition slice (w : nat * nat) : list Z := take (w.2 - w.1) (drop w.1 buf).
Lemma cstr_run (b l : list Z) : Forall (λ c, c ≠ 0) l → take (length l) b = l → b !! length l = Some 0 → cstr b = l.
Proof.
  revert b. induction l as [|c l IH]; intros [|d b] Hl Ht H0; try done; cbn in *; [by injection H0 as ->|].
  injection Ht as -> Ht. apply Forall_cons in Hl as [Hc Hl]. rewrite (proj2 (Z.eqb_neq _ _)) by done. f_equal. by apply IH.
Qed.
Lemma ch_lookup i : (i < L)%nat → buf !! i = Some (ch i).
Proof. intros Hi. unfold Shell.ch. rewrite nth_lookup. by destruct (lookup_lt_is_Some_2 buf i Hi) as [x ->]. Qed.
(** After [nulterminate] every word reads as itself. *)
Lemma string_at_word c w : good_cmd c → w ∈ words c → string_at (nulterminate c (buf ++ [0])) w = slice w.
Proof.
  intros Hc%good_words Hw. destruct (proj1 (Forall_forall _ _) Hc w Hw) as ([Hlt HL] & Hword & Hend).
  set (b' := nulterminate c (buf ++ [0])). unfold string_at.
  assert (∀ i, (w.1 ≤ i < w.2)%nat → b' !! i = Some (ch i)) as Hin.
  { intros i Hi. unfold b'. rewrite nulterminate_zero, zero_at_lookup. rewrite bool_decide_eq_false_2.
    - rewrite lookup_app_l by lia. apply ch_lookup. lia.
    - intros (w' & -> & Hw')%list_elem_of_fmap. destruct (proj1 (Forall_forall _ _) Hc w' Hw') as (_ & _ & He).
      by rewrite Hword in He by done. }
  assert (b' !! w.2 = Some 0) as Hz.
  { unfold b'. rewrite nulterminate_zero, zero_at_lookup, bool_decide_eq_true_2 by (by apply list_elem_of_fmap_2).
    destruct (lookup_lt_is_Some_2 (buf ++ [0]) w.2) as [x ->]; [rewrite length_app; simpl; lia|done]. }
  assert (length (slice w) = w.2 - w.1)%nat as Hls by (unfold slice; rewrite length_take, length_drop; lia).
  apply cstr_run.
  - apply Forall_forall. intros x (i & Hi)%list_elem_of_lookup. unfold slice in Hi. apply lookup_take_Some in Hi as [Hi _].
    rewrite lookup_drop in Hi. by apply (Forall_lookup_1 _ _ _ _ Hbuf Hi).
  - rewrite Hls. apply list_eq. intros i. unfold slice. destruct (decide (i < w.2 - w.1)%nat).
    + rewrite !lookup_take_lt by done. rewrite !lookup_drop, Hin, ch_lookup by lia. done.
    + rewrite !lookup_take_ge by lia. done.
  - rewrite Hls, lookup_drop. rewrite <- Hz. f_equal. lia.
Qed.
Lemma map_cmd_ext {V W} (f g : V → W) c : (∀ w, w ∈ words c → f w = g w) → map_cmd f c = map_cmd g c.
Proof.
  induction c as [argv|c IH fl m fd|l IHl r IHr|l IHl r IHr|c IH]; cbn [map_cmd words]; intros H.
  - f_equal. apply map_ext_in. intros w Hw%list_elem_of_In. by apply H.
  - f_equal; [apply IH; intros; apply H, elem_of_app; by left|apply H, elem_of_app; right; by left].
  - f_equal; [apply IHl|apply IHr]; intros; apply H, elem_of_app; [by left|by right].
  - f_equal; [apply IHl|apply IHr]; intros; apply H, elem_of_app; [by left|by right].
  - f_equal. by apply IH.
Qed.
Lemma parsecmd_spec :
  match parsecmd buf with
  | Ok c _ => ∃ pc, c = map_cmd slice pc ∧ good_cmd pc ∧ ∃ s, parseline buf (parse_fuel buf) 0%nat = Ok pc s
  | Panic e => e ∈ parse_errors
  end.
Proof.
  unfold parsecmd, mbindM. pose proof (proj1 (parse_fine (parse_fuel buf) 0 ltac:(lia)) ltac:(unfold parse_fuel; lia)) as H.
  unfold fine in H. destruct (parseline buf (parse_fuel buf) 0%nat) as [pc s|e] eqn:E; [|done]. destruct H as [Hs Hg].
  cbn. destruct (negb _); cbn; [set_solver|]. exists pc. split; [|by eauto].
  apply map_cmd_ext. intros w Hw. by apply string_at_word.
Qed.
End Scan.

(** ** Printing commands *)
Definition tok_ok (t : list Z) : Prop :=
  (t ≠ [] ∧ Forall (λ c, word_char c = true) t) ∨ t ∈ map chars ["|"; "("; ")"; ";"; "&"; "<"; ">"; ">>"]%string.
Definition is_word (t : list Z) : bool := match t with c :: _ => word_char c | [] => false end.
Definition tokval (t : list Z) : Z :=
  if is_word t then TOK_WORD else match t with [c] => c | _ => TOK_APPEND end.
(** Every token is followed by a space. *)
Definition flat (ts : list (list Z)) : list Z := concat (map (λ t, t ++ [32]) ts).

Definition redir_op {W} (r : redir W) : list Z :=
  if r_mode r =? O_RDONLY then chars "<" else if r_mode r =? 1537 then chars ">" else chars ">>".
Definition redir_ok {W} (r : redir W) : Prop :=
  (r_mode r, r_fd r) ∈ [(O_RDONLY, 0); (1537, 1); (517, 1)].
Definition redir_toks (r : redir (list Z)) : list (list Z) := [redir_op r; r_file r].

(** The tokens of a command: level 0 is a line, 1 a pipeline with ampersands, 2 a
    pipeline, 3 a simple command or a block; parentheses where the level needs
    them. *)
Definition paren (b : bool) (ts : list (list Z)) : list (list Z) := if b then [chars "("] ++ ts ++ [chars ")"] else ts.
Fixpoint pr (lvl : nat) (c : cmd (list Z)) : list (list Z) :=
  match c with
  | EXEC argv => argv
  | REDIR c f m fd => pr 3 c ++ redir_toks (Redir f m fd)
  | PIPE l r => paren (2 <? lvl)%nat (pr 3 l ++ [chars "|"] ++ pr 2 r)
  | BACK c => paren (1 <? lvl)%nat (pr 1 c ++ [chars "&"])
  | LIST l r => paren (0 <? lvl)%nat (pr 1 l ++ [chars ";"] ++ pr 0 r)
  end.
Definition print_cmd (c : cmd (list Z)) : list Z := flat (pr 0 c).

Definition word_ok (w : list Z) : Prop := w ≠ [] ∧ Forall (λ c, word_char c = true) w.
Fixpoint cmd_ok (c : cmd (list Z)) : Prop :=
  match c with
  | EXEC argv => Forall word_ok argv ∧ (length argv < MAXARGS)%nat
  | REDIR c f m fd => cmd_ok c ∧ word_ok f ∧ redir_ok (Redir f m fd)
  | PIPE l r | LIST l r => cmd_ok l ∧ cmd_ok r
  | BACK c => cmd_ok c
  end.

Lemma word_tok w : word_ok w → tok_ok w.
Proof. by left. Qed.
Lemma sym_tok (t : string) : t ∈ ["|"; "("; ")"; ";"; "&"; "<"; ">"; ">>"]%string → tok_ok (chars t).
Proof. intros Ht. right. by apply list_elem_of_fmap_2. Qed.
Lemma redir_op_tok {W} (r : redir W) : tok_ok (redir_op r).
Proof. unfold redir_op. destruct (r_mode r =? O_RDONLY), (r_mode r =? 1537); apply sym_tok; set_solver. Qed.
Lemma paren_tok b ts : Forall tok_ok ts → Forall tok_ok (paren b ts).
Proof.
  intros H. destruct b; [|done]. unfold paren. constructor; [apply sym_tok; set_solver|]. apply Forall_app. split; [done|].
  constructor; [apply sym_tok; set_solver|done].
Qed.
Lemma pr_tok lvl c : cmd_ok c → Forall tok_ok (pr lvl c).
Proof.
  revert lvl. induction c as [argv|c IH f m fd|l IHl r IHr|l IHl r IHr|c IH]; intros lvl; cbn [cmd_ok pr].
  - intros [H _]. eapply Forall_impl; [exact H|]. intros w. apply word_tok.
  - intros (Hc & Hf & _). apply Forall_app. split; [by apply IH|]. constructor; [apply redir_op_tok|]. constructor; [by left|done].
  - intros [Hl Hr]. apply paren_tok, Forall_app. split; [by apply IHl|]. constructor; [apply sym_tok; set_solver|by apply IHr].
  - intros [Hl Hr]. apply paren_tok, Forall_app. split; [by apply IHl|]. constructor; [apply sym_tok; set_solver|by apply IHr].
  - intros Hc. apply paren_tok, Forall_app. split; [by apply IH|]. constructor; [apply sym_tok; set_solver|done].
Qed.

(** Character constants to numbers. *)
Ltac lit :=
  repeat match goal with
  | |- context [chars ?s] => let v := eval vm_compute in (chars s) in change (chars s) with v
  | H : context [chars ?s] |- _ => let v := eval vm_compute in (chars s) in change (chars s) with v in H
  end.

Section RoundTrip.
Context (buf : list Z).
Notation L := (length buf).

(** The parser stands at the tokens [ts]. *)
Definition at_toks (s : nat) (ts : list (list Z)) : Prop := (s ≤ L)%nat ∧ drop s buf = flat ts ∧ Forall tok_ok ts.

Lemma ch_drop s i : ch buf (s + i) = nth i (drop s buf) 0.
Proof. unfold ch. rewrite !nth_lookup, lookup_drop. done. Qed.
Lemma skip_run f s w rest : (s ≤ L)%nat → drop s buf = w ++ rest → Forall (λ c, f c = true) w →
  match rest with [] => True | c :: _ => f c = false end → skip buf f s = (s + length w)%nat.
Proof.
  intros Hs Hd Hw Hr. destruct (skip_spec buf f s Hs) as (A & B & C). set (e := skip buf f s) in *.
  assert (L = s + length w + length rest)%nat as HL.
  { pose proof (f_equal length Hd) as E. rewrite length_drop, length_app in E. lia. }
  destruct (lt_eq_lt_dec e (s + length w)) as [[Hlt|]|Hgt]; [exfalso|done|exfalso].
  - specialize (C ltac:(lia)). replace e with (s + (e - s))%nat in C by lia. rewrite ch_drop, Hd in C.
    rewrite app_nth1 in C by lia. rewrite Forall_nth in Hw. rewrite Hw in C by lia. done.
  - specialize (B (s + length w)%nat ltac:(lia)). rewrite ch_drop, Hd, app_nth2, Nat.sub_diag in B by lia.
    destruct rest as [|c rest]; [simpl in HL; lia|]. cbn in B. congruence.
Qed.
Lemma tok_head t : tok_ok t → ∃ c t', t = c :: t' ∧ is_ws c = false ∧ c ≠ 0.
Proof.
  intros [[Hne Hw]|Ht].
  - destruct t as [|c t]; [done|]. exists c, t. apply Forall_cons in Hw as [Hc _]. unfold word_char in Hc.
    apply andb_prop in Hc as [Hc _]. apply andb_prop in Hc as [H0 H1]. split; [done|]. split; [by apply negb_true_iff|].
    by apply negb_true_iff, Z.eqb_neq in H0.
  - repeat (apply elem_of_cons in Ht as [->|Ht]; [by eexists _, _|]). by apply elem_of_nil in Ht.
Qed.
Lemma skip_ws_at s ts : at_toks s ts → skip buf is_ws s = s.
Proof.
  intros (Hs & Hd & Ht). rewrite (skip_run is_ws s [] (flat ts)); [simpl; lia|done|done|done|].
  destruct ts as [|t ts]; [done|]. apply Forall_cons in Ht as [Ht _]. destruct (tok_head t Ht) as (c & t' & -> & Hc & _). done.
Qed.
Lemma ch_at s t ts : at_toks s (t :: ts) → ch buf s = nth 0 t 0 ∧ ch buf s ≠ 0.
Proof.
  intros (Hs & Hd & Ht). apply Forall_cons in Ht as [Ht _]. destruct (tok_head t Ht) as (c & t' & -> & _ & Hc).
  rewrite <- (Nat.add_0_r s), ch_drop, Hd. done.
Qed.
Lemma peek_at set s ts : at_toks s ts →
  peek buf set s = Ok (match ts with [] => false | t :: _ => in_set set (nth 0 t 0) end) s.
Proof.
  intros Hat. unfold peek. rewrite (skip_ws_at s ts Hat). f_equal. destruct ts as [|t ts].
  - destruct Hat as (Hs & Hd & _). rewrite <- (Nat.add_0_r s), ch_drop, Hd. done.
  - destruct (ch_at s t ts Hat) as [E H0]. rewrite E in *. rewrite (proj2 (Z.eqb_neq _ _)) by done. done.
Qed.
Lemma at_next s t ts : at_toks s (t :: ts) → at_toks (s + length t + 1) ts ∧ slice buf (s, (s + length t)%nat) = t ∧
  drop (s + length t) buf = 32 :: flat ts.
Proof.
  intros (Hs & Hd & Ht). cbn [flat map concat] in Hd. fold (flat ts) in Hd. rewrite <- app_assoc in Hd.
  pose proof (f_equal length Hd) as El. rewrite length_drop, !length_app in El. simpl in El.
  assert (drop (s + length t) buf = 32 :: flat ts) as Hd1 by (rewrite <- drop_drop, Hd, drop_app_length; done).
  split; [|split; [|done]].
  - split; [lia|]. split; [|by apply Forall_cons in Ht as [_ Ht]]. by rewrite <- drop_drop, Hd1.
  - unfold slice. cbn [fst snd]. rewrite Hd. replace (s + length t - s)%nat with (length t) by lia. apply take_app_length.
Qed.
Lemma gettoken_at s t ts : at_toks s (t :: ts) →
  gettoken buf s = Ok (tokval t, (s, (s + length t)%nat)) (s + length t + 1)%nat.
Proof.
  intros Hat. pose proof (at_next s t ts Hat) as ((Hs1 & Hd1 & Ht1) & Hsl & Hd2). destruct (ch_at s t ts Hat) as [Ec H0].
  assert (skip buf is_ws (s + length t) = s + length t + 1)%nat as Hws.
  { rewrite (skip_run is_ws (s + length t) [32] (flat ts)); [simpl; lia|lia|done|by repeat constructor|].
    destruct ts as [|t1 ts]; [done|]. apply Forall_cons in Ht1 as [Ht1 _]. destruct (tok_head t1 Ht1) as (c & t' & -> & Hc & _). done. }
  unfold gettoken. rewrite (skip_ws_at s _ Hat), (proj2 (Z.eqb_neq _ _)) by done.
  destruct Hat as (Hs & Hd & Ht). apply Forall_cons in Ht as [Ht _]. destruct Ht as [[Hne Hw]|Ht].
  - destruct t as [|c t]; [done|]. cbn [nth] in Ec. apply Forall_cons in Hw as [Hc Hw]. rewrite Ec.
    unfold tokval, is_word. rewrite Hc. pose proof Hc as Hc'. unfold word_char in Hc. apply andb_prop in Hc as [Hc Hsym].
    apply negb_true_iff in Hsym.
    assert (in_set (chars "|();&<") c = false ∧ c ≠ 62) as [-> Hn].
    { unfold in_set in *. change symbols with [60; 124; 62; 38; 59; 40; 41] in Hsym. change (chars "|();&<") with [124; 40; 41; 59; 38; 60].
      cbn [existsb] in *. bool_prop. split; [|done]. repeat (rewrite (proj2 (Z.eqb_neq c _)) by done). done. }
    rewrite (proj2 (Z.eqb_neq _ _) Hn).
    rewrite (skip_run _ s (c :: t) (32 :: flat ts)) by (first [done|cbn [flat map concat] in Hd; fold (flat ts) in Hd; by rewrite <- app_assoc in Hd|
      (apply (Forall_impl (λ c, word_char c = true)); [by constructor|]; intros x Hx; unfold word_char in Hx; rewrite <- andb_assoc in Hx; by apply andb_prop in Hx as [_ Hx])]).
    by rewrite Hws.
  - rewrite Ec. repeat (apply elem_of_cons in Ht as [->|Ht]; [try (lit; cbn in Hws |- *; rewrite ?Nat.add_1_r in Hws |- *; rewrite Hws; done)|]); [..|by apply elem_of_nil in Ht].
    + lit. cbn in Hws, Hd2 |- *. assert (ch buf (S s) = 32) as -> by (replace (S s) with (s + 1 + 0)%nat by lia; by rewrite ch_drop, Hd2).
      cbn. rewrite ?Nat.add_1_r in Hws |- *. by rewrite Hws.
    + lit. cbn in Hws, Hd |- *. assert (ch buf (S s) = 62) as -> by (replace (S s) with (s + 1)%nat by lia; by rewrite ch_drop, Hd).
      cbn. replace (S (S s)) with (s + 2)%nat by lia. by rewrite Hws.
Qed.

Lemma at_length s ts : at_toks s ts → (L - s = length (flat ts))%nat ∧ (length ts ≤ length (flat ts))%nat.
Proof.
  intros (Hs & Hd & _). split; [by rewrite <- Hd, length_drop|]. clear. unfold flat.
  induction ts as [|t ts IH]; [done|]. cbn [map concat]. rewrite length_app, length_app. simpl. lia.
Qed.
Definition follow (set : list Z) (ts : list (list Z)) : Prop :=
  match ts with [] => True | t :: _ => in_set set (nth 0 t 0) = true end.
Lemma follow_not set set' ts : follow set ts → Forall (λ c, in_set set' c = false) set →
  match ts with [] => false | t :: _ => in_set set' (nth 0 t 0) end = false.
Proof.
  destruct ts as [|t ts]; [done|]. unfold follow. intros Hf Hs. unfold in_set in Hf. apply existsb_exists in Hf as (c & Hc & Ec).
  apply Z.eqb_eq in Ec as ->. by apply (proj1 (Forall_forall _ _) Hs), list_elem_of_In.
Qed.
Lemma word_head w set : word_ok w → Forall (λ c, word_char c = false) set → in_set set (nth 0 w 0) = false.
Proof.
  intros [Hne Hw] Hs. destruct w as [|c w]; [done|]. apply Forall_cons in Hw as [Hc _]. cbn [nth].
  destruct (in_set set c) eqn:E; [|done]. apply existsb_exists in E as (d & Hd & Ed). apply Z.eqb_eq in Ed as <-.
  apply list_elem_of_In in Hd. by rewrite (proj1 (Forall_forall _ _) Hs c Hd) in Hc.
Qed.
Lemma word_val w : word_ok w → tokval w = TOK_WORD.
Proof. intros [Hne Hw]. destruct w as [|c w]; [done|]. apply Forall_cons in Hw as [Hc _]. unfold tokval, is_word. by rewrite Hc. Qed.
Lemma redir_op_spec (r : redir (list Z)) : redir_ok r →
  in_set (chars "<>") (nth 0 (redir_op r) 0) = true ∧ redir_mode (tokval (redir_op r)) = (r_mode r, r_fd r).
Proof.
  destruct r as [f m fd]. unfold redir_ok, redir_op. cbn. intros H.
  repeat (apply elem_of_cons in H as [[= -> ->]|H]; [done|]). by apply elem_of_nil in H.
Qed.
Definition map_redir (r : redir (nat * nat)) : redir (list Z) := Redir (slice buf (r_file r)) (r_mode r) (r_fd r).

Lemma parseredirs_at fuel acc rs s ts :
  at_toks s (concat (map redir_toks rs) ++ ts) → Forall redir_ok rs → Forall (λ r, word_ok (r_file r)) rs →
  match ts with [] => false | t :: _ => in_set (chars "<>") (nth 0 t 0) end = false → (length rs < fuel)%nat →
  ∃ prs s', parseredirs buf fuel acc s = Ok (acc ++ prs) s' ∧ at_toks s' ts ∧ map map_redir prs = rs.
Proof.
  revert acc rs s. induction fuel as [|fuel IH]; intros acc rs s Hat Hok Hw Hf Hl; [lia|]. cbn [parseredirs].
  unfold mbindM at 1. rewrite (peek_at _ _ _ Hat). destruct rs as [|r rs].
  { cbn [map concat app] in *. rewrite Hf. exists [], s. by rewrite app_nil_r. }
  apply Forall_cons in Hok as [Hr Hok]. apply Forall_cons in Hw as [Hw1 Hw]. destruct (redir_op_spec r Hr) as [E1 E2].
  cbn [map concat app redir_toks] in *. rewrite E1. unfold mbindM at 1. rewrite (gettoken_at _ _ _ Hat).
  destruct (at_next _ _ _ Hat) as (Hat1 & _). set (s1 := (s + length (redir_op r) + 1)%nat) in *.
  unfold mbindM at 1. rewrite (gettoken_at _ _ _ Hat1). cbn [fst snd]. rewrite (word_val _ Hw1), Z.eqb_refl. cbn [negb].
  destruct (at_next _ _ _ Hat1) as (Hat2 & Hsl & _).
  destruct (IH (acc ++ [Redir (s1, (s1 + length (r_file r))%nat) (redir_mode (tokval (redir_op r))).1 (redir_mode (tokval (redir_op r))).2])
    rs _ Hat2 Hok Hw Hf ltac:(simpl in Hl; lia)) as (prs & s' & E & Hat' & Hm).
  rewrite E, E2. eexists (_ :: prs), s'. rewrite <- app_assoc. cbn [app]. split; [done|]. split; [done|]. cbn [map]. rewrite Hm. f_equal.
  unfold map_redir. cbn [r_file r_mode r_fd fst snd]. rewrite Hsl. by destruct r.
Qed.
Lemma length_redir_toks rs : (length rs ≤ length (concat (map redir_toks rs)))%nat.
Proof. induction rs as [|r rs IH]; [done|]. cbn [map concat]. rewrite length_app. simpl. lia. Qed.
Definition exec_toks (args : list (list Z)) (rs : list (redir (list Z))) : list (list Z) := args ++ concat (map redir_toks rs).
Lemma parseargs_at fuel acc racc args rs s ts :
  at_toks s (exec_toks args rs ++ ts) → args ≠ [] ∨ rs = [] → Forall word_ok args → Forall redir_ok rs → Forall (λ r, word_ok (r_file r)) rs →
  follow (chars "|)&;") ts → (length acc + length args < MAXARGS)%nat → (length args < fuel)%nat →
  ∃ pargs prs s', parseargs buf fuel acc racc s = Ok (wrap (racc ++ prs) (EXEC (acc ++ pargs))) s' ∧ at_toks s' ts ∧
    map (slice buf) pargs = args ∧ map map_redir prs = rs.
Proof.
  revert acc racc args rs s. induction fuel as [|fuel IH]; intros acc racc args rs s Hat Hne Hwa Hok Hw Hf Hlen Hl; [lia|]. cbn [parseargs].
  unfold mbindM at 1. rewrite (peek_at _ _ _ Hat). unfold exec_toks in *. destruct args as [|a args].
  { destruct Hne as [| ->]; [done|]. cbn [map concat app] in *. exists [], [].
    rewrite !app_nil_r. destruct ts as [|t ts].
    - exists s. split; [|done]. cbn in Hat. unfold mbindM, gettoken. rewrite (skip_ws_at _ _ Hat).
      destruct Hat as (Hs & Hd & _). assert (ch buf s = 0) as -> by (rewrite <- (Nat.add_0_r s), ch_drop, Hd; done). cbn.
      rewrite (skip_ws_at s []) by (by split_and!). done.
    - exists s. unfold follow in Hf. by rewrite Hf. }
  apply Forall_cons in Hwa as [Ha Hwa]. cbn [app] in *. rewrite (word_head a _ Ha) by (lit; repeat constructor).
  unfold mbindM at 1. rewrite (gettoken_at _ _ _ Hat). destruct (at_next _ _ _ Hat) as (Hat1 & Hsl & _). cbn [fst snd].
  rewrite (word_val _ Ha). change (TOK_WORD =? 0) with false. rewrite Z.eqb_refl. cbn [negb].
  rewrite (proj2 (Nat.leb_gt _ _)) by (simpl in Hlen; lia). set (s1 := (s + length a + 1)%nat) in *.
  destruct (at_length _ _ Hat1) as [HL1 HL2]. rewrite length_app in HL2.
  destruct args as [|a2 args].
  - cbn [app] in *. pose proof (length_redir_toks rs) as Hrl.
    destruct (parseredirs_at (loop_fuel buf) racc rs s1 ts Hat1 Hok Hw) as (prs & s2 & E & Hat2 & Hm).
    { apply (follow_not (chars "|)&;")); [done|]. lit. repeat constructor. }
    { unfold loop_fuel. lia. }
    unfold mbindM at 1. rewrite E.
    destruct (IH (acc ++ [(s, (s + length a)%nat)]) (racc ++ prs) [] [] s2) as (pargs & prs2 & s3 & E3 & Hat3 & Hm3 & Hm4);
      try done; [by right|rewrite length_app; simpl in *; lia|simpl in *; lia|].
    apply map_eq_nil in Hm3 as ->. apply map_eq_nil in Hm4 as ->. rewrite !app_nil_r in E3.
    exists [(s, (s + length a)%nat)], prs, s3. split; [done|]. split; [done|]. cbn [map]. by rewrite Hsl.
  - destruct (parseredirs_at (loop_fuel buf) racc [] s1 ((a2 :: args) ++ concat (map redir_toks rs) ++ ts)) as (prs0 & s2 & E & Hat2 & Hm); try done.
    { by rewrite <- app_assoc in Hat1. }
    { apply Forall_cons in Hwa as [Ha2 _]. apply (word_head a2 _ Ha2). lit. repeat constructor. }
    { unfold loop_fuel. simpl. lia. }
    apply map_eq_nil in Hm as ->. rewrite app_nil_r in E. unfold mbindM at 1. rewrite E.
    destruct (IH (acc ++ [(s, (s + length a)%nat)]) racc (a2 :: args) rs s2) as (pargs & prs & s3 & E3 & Hat3 & Hm3 & Hm4);
      try done; [by rewrite <- app_assoc|by left|rewrite length_app; simpl in *; lia|simpl in *; lia|].
    exists ((s, (s + length a)%nat) :: pargs), prs, s3. rewrite E3, <- app_assoc. split; [done|]. split; [done|]. cbn [map]. by rewrite Hsl, Hm3.
Qed.

(** ** Parsing what was printed, level by level *)
Fixpoint backs (j : nat) {W} (c : cmd W) : cmd W := match j with O => c | S j => backs j (BACK c) end.
Lemma parsebacks_at fuel j pc s ts :
  at_toks s (repeat (chars "&") j ++ ts) → follow (chars ");") ts → (j < fuel)%nat →
  ∃ s', parsebacks buf fuel pc s = Ok (backs j pc) s' ∧ at_toks s' ts.
Proof.
  revert j pc s. induction fuel as [|fuel IH]; intros j pc s Hat Hf Hj; [lia|]. cbn [parsebacks].
  unfold mbindM at 1. rewrite (peek_at _ _ _ Hat). destruct j as [|j]; cbn [repeat app backs] in *.
  - rewrite (follow_not _ _ _ Hf) by (lit; repeat constructor). by exists s.
  - lit. change (in_set [38] (nth 0 [38] 0)) with true. unfold mbindM at 1. rewrite (gettoken_at _ _ _ Hat).
    destruct (at_next _ _ _ Hat) as (Hat1 & _). apply IH; [by lit|by lit|lia].
Qed.

Definition parsed (p : M nat (cmd (nat * nat))) (s : nat) (c : cmd (list Z)) (ts : list (list Z)) : Prop :=
  ∃ pc s', p s = Ok pc s' ∧ at_toks s' ts ∧ map_cmd (slice buf) pc = c.
Definition L0 (c : cmd (list Z)) : Prop := ∀ n s ts,
  at_toks s (pr 0 c ++ ts) → follow (chars ")") ts → (4 * (L - s) + 4 ≤ n)%nat → parsed (parseline buf n) s c ts.
Definition L1 (c : cmd (list Z)) : Prop := ∀ n j s ts,
  at_toks s (pr 1 c ++ repeat (chars "&") j ++ ts) → follow (chars ");") ts → (4 * (L - s) + 3 ≤ n)%nat →
  parsed (pc <-- parsepipe buf n ;; parsebacks buf (loop_fuel buf) pc) s (backs j c) ts.
Definition L2 (c : cmd (list Z)) : Prop := ∀ n s ts,
  at_toks s (pr 2 c ++ ts) → follow (chars ")&;") ts → (4 * (L - s) + 3 ≤ n)%nat → parsed (parsepipe buf n) s c ts.
Definition L3 (c : cmd (list Z)) : Prop := ∀ n s ts,
  at_toks s (pr 3 c ++ ts) → follow (chars "|)&;") ts → (4 * (L - s) + 2 ≤ n)%nat → parsed (parseexec buf n) s c ts.

Lemma follow_sub set set' ts : follow set ts → Forall (λ c, in_set set' c = true) set → follow set' ts.
Proof.
  destruct ts as [|t ts]; [done|]. unfold follow. intros Hf Hs. unfold in_set in Hf. apply existsb_exists in Hf as (c & Hc & Ec).
  apply Z.eqb_eq in Ec as ->. by apply (proj1 (Forall_forall _ _) Hs), list_elem_of_In.
Qed.
Lemma flat_app a b : flat (a ++ b) = flat a ++ flat b.
Proof. unfold flat. by rewrite map_app, concat_app. Qed.
Lemma at_rest s s' a b : at_toks s (a ++ b) → at_toks s' b → (L - s' + length a ≤ L - s)%nat.
Proof.
  intros H1 H2. destruct (at_length _ _ H1) as [E1 _], (at_length _ _ H2) as [E2 _]. rewrite flat_app, length_app in E1.
  assert (length a ≤ length (flat a))%nat; [|lia]. clear. unfold flat.
  induction a as [|t a IH]; [done|]. cbn [map concat]. rewrite length_app, length_app. simpl. lia.
Qed.
Ltac follows := lit; repeat constructor.

Lemma L2_of_L3 c : pr 2 c = pr 3 c → L3 c → L2 c.
Proof.
  intros Ep H3 n s ts Hat Hf Hn. destruct n as [|n]; [lia|]. rewrite Ep in Hat.
  destruct (H3 n s ts Hat) as (pc & s' & E & Hat' & Hm); [by eapply follow_sub; [exact Hf|follows]|lia|].
  exists pc, s'. split; [|done]. cbn [parsepipe]. unfold mbindM at 1. rewrite E. unfold mbindM. rewrite (peek_at _ _ _ Hat').
  by rewrite (follow_not _ _ _ Hf) by follows.
Qed.
Lemma L2_pipe l r : L3 l → L2 r → L2 (PIPE l r).
Proof.
  intros H3 H2 n s ts Hat Hf Hn. destruct n as [|n]; [lia|]. cbn [pr paren Nat.ltb Nat.leb] in Hat. rewrite <- !app_assoc in Hat.
  destruct (H3 n s _ Hat) as (pc & s' & E & Hat' & Hm); [done|lia|].
  cbn [app] in Hat'. destruct (at_next _ _ _ Hat') as (Hat1 & _). pose proof (at_rest _ _ _ _ Hat Hat') as Hr1.
  pose proof (at_rest _ _ [chars "|"] _ Hat' Hat1) as Hr2. simpl in Hr2.
  destruct (H2 n _ ts Hat1 Hf) as (pc2 & s2 & E2 & Hat2 & Hm2); [lia|].
  exists (PIPE pc pc2), s2. split; [|split; [done|cbn [map_cmd]; by rewrite Hm, Hm2]].
  cbn [parsepipe]. unfold mbindM at 1. rewrite E. unfold mbindM at 1. rewrite (peek_at _ _ _ Hat').
  change (in_set (chars "|") (nth 0 (chars "|") 0)) with true. unfold mbindM at 1. rewrite (gettoken_at _ _ _ Hat').
  unfold mbindM. by rewrite E2.
Qed.
Lemma L1_of_L2 c : pr 1 c = pr 2 c → L2 c → L1 c.
Proof.
  intros Ep H2 n j s ts Hat Hf Hn. rewrite Ep in Hat.
  destruct (H2 n s _ Hat) as (pc & s' & E & Hat' & Hm); [|lia|].
  { destruct j as [|j]; [|done]. by eapply follow_sub; [exact Hf|follows]. }
  destruct (parsebacks_at (loop_fuel buf) j pc s' ts Hat' Hf) as (s2 & E2 & Hat2).
  { destruct (at_length _ _ Hat') as [_ Hl], (at_length _ _ Hat') as [Hl2 _]. rewrite length_app, repeat_length in Hl. unfold loop_fuel. lia. }
  exists (backs j pc), s2. split; [unfold mbindM; by rewrite E|]. split; [done|]. rewrite <- Hm. clear.
  revert pc. induction j as [|j IH]; intros pc; [done|]. cbn [backs]. by rewrite IH.
Qed.
Lemma L1_back c : L1 c → L1 (BACK c).
Proof.
  intros H1 n j s ts Hat Hf Hn. apply (H1 n (S j) s ts); [|done|done].
  cbn [pr paren Nat.ltb Nat.leb] in Hat. by rewrite <- app_assoc in Hat.
Qed.
Lemma L0_of_L1 c : pr 0 c = pr 1 c → L1 c → L0 c.
Proof.
  intros Ep H1 n s ts Hat Hf Hn. destruct n as [|n]; [lia|]. rewrite Ep in Hat.
  destruct (H1 n 0%nat s ts Hat) as (pc & s' & E & Hat' & Hm); [by eapply follow_sub; [exact Hf|follows]|lia|].
  exists pc, s'. split; [|done]. cbn [parseline]. unfold mbindM in E |- *. destruct (parsepipe buf n s) as [c0 s0|]; [|done].
  rewrite E, (peek_at _ _ _ Hat'). by rewrite (follow_not _ _ _ Hf) by follows.
Qed.
Lemma L0_list l r : L1 l → L0 r → L0 (LIST l r).
Proof.
  intros H1 H0 n s ts Hat Hf Hn. destruct n as [|n]; [lia|]. cbn [pr paren Nat.ltb Nat.leb] in Hat. rewrite <- !app_assoc in Hat.
  destruct (H1 n 0%nat s _ Hat) as (pc & s' & E & Hat' & Hm); [done|lia|].
  cbn [app] in Hat'. destruct (at_next _ _ _ Hat') as (Hat1 & _). pose proof (at_rest _ _ _ _ Hat Hat') as Hr1.
  pose proof (at_rest _ _ [chars ";"] _ Hat' Hat1) as Hr2. simpl in Hr2.
  destruct (H0 n _ ts Hat1 Hf) as (pc2 & s2 & E2 & Hat2 & Hm2); [lia|].
  exists (LIST pc pc2), s2. split; [|split; [done|cbn [map_cmd]; by rewrite Hm, Hm2]].
  cbn [parseline]. unfold mbindM in E |- *. destruct (parsepipe buf n s) as [c0 s0|]; [|done]. rewrite E, (peek_at _ _ _ Hat').
  change (in_set (chars ";") (nth 0 (chars ";") 0)) with true. cbv beta iota. rewrite (gettoken_at _ _ _ Hat'). by rewrite E2.
Qed.

(** Simple commands and blocks. *)
Fixpoint core (c : cmd (list Z)) : cmd (list Z) := match c with REDIR c _ _ _ => core c | _ => c end.
Fixpoint redirs (c : cmd (list Z)) : list (redir (list Z)) :=
  match c with REDIR c f m fd => redirs c ++ [Redir f m fd] | _ => [] end.
Lemma wrap_snoc {W} (rs : list (redir W)) r c : wrap (rs ++ [r]) c = REDIR (wrap rs c) (r_file r) (r_mode r) (r_fd r).
Proof. unfold wrap. by rewrite fold_left_app. Qed.
Lemma wrap_redirs c : wrap (redirs c) (core c) = c.
Proof. induction c as [| c IH f m fd| | |]; try done. cbn [redirs core]. by rewrite wrap_snoc, IH. Qed.
Lemma map_wrap prs pc : map_cmd (slice buf) (wrap prs pc) = wrap (map map_redir prs) (map_cmd (slice buf) pc).
Proof. revert pc. induction prs as [|r prs IH]; intros pc; [done|]. cbn. unfold wrap in IH. by rewrite IH. Qed.
Lemma pr3_redirs c : pr 3 c = pr 3 (core c) ++ concat (map redir_toks (redirs c)).
Proof.
  induction c as [argv|c IH f m fd| | |]; cbn [core redirs map concat]; rewrite ?app_nil_r; try done.
  rewrite map_app, concat_app, app_assoc, <- IH. cbn [map concat]. by rewrite app_nil_r.
Qed.
Lemma core_ok c : cmd_ok c → cmd_ok (core c) ∧ Forall redir_ok (redirs c) ∧ Forall (λ r, word_ok (r_file r)) (redirs c).
Proof.
  induction c as [argv|c IH f m fd| | |]; cbn [core redirs]; try done. intros (Hc & Hf & Hr). destruct (IH Hc) as (A & B & C).
  split; [done|]. rewrite !Forall_app, !Forall_singleton. done.
Qed.
Lemma core_not_redir c : match core c with REDIR _ _ _ _ => False | _ => True end.
Proof. by induction c. Qed.

Lemma L3_exec c argv : core c = EXEC argv → cmd_ok c → L3 c.
Proof.
  intros Ec Hc n s ts Hat Hf Hn. destruct n as [|n]; [lia|]. destruct (core_ok c Hc) as (Ha & Hr & Hw). rewrite Ec in Ha. destruct Ha as [Ha Hlen].
  rewrite pr3_redirs, Ec in Hat. cbn [pr] in Hat. cbn [parseexec]. set (rs := redirs c) in *.
  destruct (at_length _ _ Hat) as [HL1 HL2]. rewrite !length_app in HL2.
  pose proof (length_redir_toks rs) as Hrl.
  assert (∃ r0 r1 prs0 s1, rs = r0 ++ r1 ∧ (argv ≠ [] ∨ r1 = []) ∧ parseredirs buf (loop_fuel buf) [] s = Ok prs0 s1 ∧
    at_toks s1 (exec_toks argv r1 ++ ts) ∧ map map_redir prs0 = r0) as (r0 & r1 & prs0 & s1 & Er & Hne & E1 & Hat1 & Hm1).
  { destruct argv as [|a argv].
    - destruct (parseredirs_at (loop_fuel buf) [] rs s ts Hat Hr Hw) as (prs & s1 & E & H1 & H2).
      { apply (follow_not (chars "|)&;")); [done|follows]. }
      { unfold loop_fuel. lia. }
      exists rs, [], prs, s1. rewrite app_nil_r. split_and!; try done. by right.
    - destruct (parseredirs_at (loop_fuel buf) [] [] s ((a :: argv) ++ concat (map redir_toks rs) ++ ts)) as (prs & s1 & E & H1 & H2); try done.
      { by rewrite <- app_assoc in Hat. }
      { apply Forall_cons in Ha as [Ha _]. apply (word_head a _ Ha). follows. }
      { unfold loop_fuel. simpl. lia. }
      exists [], rs, prs, s1. unfold exec_toks. rewrite <- app_assoc. split_and!; try done. by left. }
  assert (peek buf (chars "(") s = Ok false s) as Ep.
  { rewrite (peek_at _ _ _ Hat). f_equal. destruct argv as [|a argv].
    - destruct rs as [|r rs']; cbn [map concat app]; [by apply (follow_not (chars "|)&;")); [|follows]|].
      apply Forall_cons in Hr as [Hr _]. cbn [redir_toks app]. unfold redir_op. lit. destruct (r_mode r =? O_RDONLY), (r_mode r =? 1537); done.
    - apply Forall_cons in Ha as [Ha _]. apply (word_head a _ Ha). follows. }
  rewrite Er in Hr, Hw. apply Forall_app in Hr as [_ Hr]. apply Forall_app in Hw as [_ Hw].
  destruct (parseargs_at (loop_fuel buf) [] prs0 argv r1 s1 ts Hat1 Hne Ha Hr Hw Hf) as (pargs & prs & s2 & E2 & Hat2 & Hm2 & Hm3); [done|unfold loop_fuel; lia|].
  exists (wrap (prs0 ++ prs) (EXEC pargs)), s2. split; [|split; [done|]].
  - unfold mbindM at 1. rewrite Ep. cbv beta iota. unfold mbindM. rewrite E1. exact E2.
  - rewrite map_wrap, map_app, Hm1, Hm3, <- Er. cbn [map_cmd]. rewrite Hm2, <- Ec. apply wrap_redirs.
Qed.
Lemma L3_block c : pr 3 (core c) = [chars "("] ++ pr 0 (core c) ++ [chars ")"] → cmd_ok c → L0 (core c) → L3 c.
Proof.
  intros Ep Hc H0 n s ts Hat Hf Hn. destruct n as [|[|n]]; [lia|lia|]. destruct (core_ok c Hc) as (_ & Hr & Hw).
  rewrite pr3_redirs, Ep in Hat. rewrite <- !app_assoc in Hat. cbn [app] in Hat. set (rs := redirs c) in *.
  destruct (at_next _ _ _ Hat) as (Hat1 & _). pose proof (at_rest _ _ [chars "("] _ Hat Hat1) as Hr1. simpl in Hr1.
  destruct (H0 n _ _ Hat1) as (pc & s2 & E2 & Hat2 & Hm2); [done|lia|]. cbn [app] in Hat2.
  destruct (at_next _ _ _ Hat2) as (Hat3 & _).
  destruct (parseredirs_at (loop_fuel buf) [] rs _ ts Hat3 Hr Hw) as (prs & s3 & E3 & Hat4 & Hm3).
  { apply (follow_not (chars "|)&;")); [done|follows]. }
  { destruct (at_length _ _ Hat3) as [HL1 HL2]. rewrite length_app in HL2.
    pose proof (length_redir_toks rs). unfold loop_fuel. lia. }
  exists (wrap prs pc), s3. split; [|split; [done|rewrite map_wrap, Hm3, Hm2; apply wrap_redirs]].
  cbn [parseexec]. unfold mbindM at 1. rewrite (peek_at _ _ _ Hat). change (in_set (chars "(") (nth 0 (chars "(") 0)) with true. cbv beta iota.
  cbn [parseblock]. unfold mbindM at 1. rewrite (peek_at _ _ _ Hat). change (in_set (chars "(") (nth 0 (chars "(") 0)) with true. cbn [negb].
  unfold mbindM at 1. rewrite (gettoken_at _ _ _ Hat). unfold mbindM at 1. rewrite E2. unfold mbindM at 1. rewrite (peek_at _ _ _ Hat2).
  change (in_set (chars ")") (nth 0 (chars ")") 0)) with true. cbn [negb]. unfold mbindM at 1. rewrite (gettoken_at _ _ _ Hat2).
  unfold mbindM. by rewrite E3.
Qed.

Fixpoint csize (c : cmd (list Z)) : nat :=
  match c with
  | EXEC _ => 1
  | REDIR c _ _ _ | BACK c => S (csize c)
  | PIPE l r | LIST l r => S (csize l + csize r)
  end.
Lemma csize_core c : (csize (core c) ≤ csize c)%nat ∧ (match c with REDIR _ _ _ _ => csize (core c) < csize c | _ => True end)%nat.
Proof. induction c as [|c IH f m fd| | |]; cbn; lia. Qed.
Lemma L3_all c : cmd_ok c → L0 c ∧ L1 c ∧ L2 c ∧ L3 c.
Proof.
  remember (csize c) as k eqn:Ek. revert c Ek. induction (lt_wf k) as [k _ IH]. intros c -> Hc.
  assert (∀ c', (csize c' < csize c)%nat → cmd_ok c' → L0 c' ∧ L1 c' ∧ L2 c' ∧ L3 c') as Hsub by (intros c' Hs; by apply (IH (csize c'))).
  assert (L3 c → L0 c ∧ L1 c ∧ L2 c → L0 c ∧ L1 c ∧ L2 c ∧ L3 c) as Hall by tauto.
  destruct c as [argv|c f m fd|l r|l r|c]; cbn [csize] in *.
  - assert (L3 (EXEC argv)) as H3 by (by eapply L3_exec).
    apply Hall; [done|]. assert (L2 (EXEC argv)) by (by apply L2_of_L3). assert (L1 (EXEC argv)) by (by apply L1_of_L2). split; [by apply L0_of_L1|done].
  - assert (L3 (REDIR c f m fd)) as H3.
    { destruct (core (REDIR c f m fd)) as [argv|? ? ? ?|? ?|? ?|?] eqn:Ec.
      - by eapply L3_exec.
      - pose proof (core_not_redir (REDIR c f m fd)) as Hn. by rewrite Ec in Hn.
      - apply L3_block; [by rewrite Ec|done|]. apply Hsub; [apply (csize_core (REDIR c f m fd))|apply (core_ok _ Hc)].
      - apply L3_block; [by rewrite Ec|done|]. apply Hsub; [apply (csize_core (REDIR c f m fd))|apply (core_ok _ Hc)].
      - apply L3_block; [by rewrite Ec|done|]. apply Hsub; [apply (csize_core (REDIR c f m fd))|apply (core_ok _ Hc)]. }
    apply Hall; [done|]. assert (L2 (REDIR c f m fd)) by (by apply L2_of_L3). assert (L1 (REDIR c f m fd)) by (by apply L1_of_L2). split; [by apply L0_of_L1|done].
  - destruct Hc as [Hl Hr]. destruct (Hsub l ltac:(lia) Hl) as (_ & _ & _ & Hl3). destruct (Hsub r ltac:(lia) Hr) as (_ & _ & Hr2 & _).
    assert (L2 (PIPE l r)) by (by apply L2_pipe). assert (L1 (PIPE l r)) by (by apply L1_of_L2). assert (L0 (PIPE l r)) by (by apply L0_of_L1).
    apply Hall; [|done]. by apply (L3_block (PIPE l r)).
  - destruct Hc as [Hl Hr]. destruct (Hsub l ltac:(lia) Hl) as (_ & Hl1 & _ & _). destruct (Hsub r ltac:(lia) Hr) as (Hr0 & _).
    assert (L0 (LIST l r)) by (by apply L0_list). assert (L3 (LIST l r)) by (by apply (L3_block (LIST l r))).
    assert (L2 (LIST l r)) by (by apply L2_of_L3). assert (L1 (LIST l r)) by (by apply L1_of_L2). done.
  - destruct (Hsub c ltac:(lia) Hc) as (_ & Hc1 & _ & _). assert (L1 (BACK c)) by (by apply L1_back).
    assert (L0 (BACK c)) by (by apply L0_of_L1). assert (L3 (BACK c)) by (by apply (L3_block (BACK c))).
    assert (L2 (BACK c)) by (by apply L2_of_L3). done.
Qed.
End RoundTrip.

Lemma tok_nz t : tok_ok t → Forall (λ c, c ≠ 0) t.
Proof.
  intros [[_ Hw]|Ht].
  - eapply Forall_impl; [exact Hw|]. intros c Hc ->. discriminate Hc.
  - repeat (apply elem_of_cons in Ht as [->|Ht]; [by lit; repeat constructor|]). by apply elem_of_nil in Ht.
Qed.
Lemma flat_nz ts : Forall tok_ok ts → Forall (λ c, c ≠ 0) (flat ts).
Proof.
  induction 1 as [|t ts Ht _ IH]; [done|]. unfold flat in *. cbn [map concat]. rewrite !Forall_app. split_and!; [by apply tok_nz| |done].
  by repeat constructor.
Qed.

(** C3: printing and parsing are inverse: for every command (arguments and file
    names that are words, at most nine arguments, the three kinds of
    redirection; any nesting of redirections, pipes, lists, background commands
    and blocks) [parsecmd] applied to the printed command, with parentheses only
    where the grammar needs them, returns the command. *)
Theorem shell_parse_print (c : cmd (list Z)) : cmd_ok c → ∃ s, parsecmd (print_cmd c) = Ok c s.
Proof.
  intros Hc. unfold print_cmd. set (buf := flat (pr 0 c)). pose proof (pr_tok 0 c Hc) as Ht. pose proof (flat_nz _ Ht) as Hbuf. fold buf in Hbuf.
  destruct (L3_all buf c Hc) as (H0 & _).
  assert (at_toks buf 0 (pr 0 c ++ [])) as Hat by (rewrite app_nil_r; split_and!; [lia|done|done]).
  destruct (H0 (parse_fuel buf) 0%nat [] Hat) as (pc & s' & E & Hat' & Hm); [done|unfold parse_fuel; lia|].
  pose proof (parsecmd_spec buf Hbuf) as Hs. unfold parsecmd, mbindM in Hs |- *. rewrite E in *.
  rewrite (peek_at buf [] s' [] Hat') in *. cbn in Hs |- *.
  destruct (at_length buf s' [] Hat') as [HL _]. destruct Hat' as (Hs' & _). cbn in HL.
  assert (s' = length buf) as -> by lia. rewrite Nat.eqb_refl in *. cbn in Hs |- *.
  destruct Hs as (pc' & E2 & Hg & s2 & [= <- <-]). exists (length buf). f_equal. by rewrite E2.
Qed.

(** ** Descriptors *)
Lemma lowest_spec t fd : lowest t = Some fd ↔ t !! fd = Some None ∧ ∀ i, (i < fd)%nat → ∃ x, t !! i = Some (Some x).
Proof.
  revert fd. induction t as [|[x|] t IH]; intros fd; cbn [lowest].
  - split; [done|]. by intros [? _].
  - destruct fd as [|fd].
    + split; [|by intros [? _]]. by destruct (lowest t).
    + assert (S <$> lowest t = Some (S fd) ↔ lowest t = Some fd) as ->.
      { destruct (lowest t) as [k|]; [|done]. cbn. split; congruence. }
      rewrite IH. split; (intros [A B]; split; [done|]).
      * intros [|i] Hi; [by exists x|]. apply B. lia.
      * intros i Hi. apply (B (S i)). lia.
  - split.
    + intros [= <-]. split; [done|]. intros i Hi. lia.
    + intros [A B]. destruct fd as [|fd]; [done|]. destruct (B O ltac:(lia)) as [x Hx]. done.
Qed.
Lemma new_fd_at x t fd : t !! fd = Some None → (∀ i, (i < fd)%nat → ∃ y, t !! i = Some (Some y)) →
  new_fd x t = Some (fd, <[fd := Some x]> t).
Proof. intros A B. unfold new_fd. by rewrite (proj2 (lowest_spec t fd) (conj A B)). Qed.

(** Standard input, output and error are open and two descriptors are free. *)
Record std (t : fdtable) : Prop := {
  std_open : ∀ i, (i < 3)%nat → ∃ x, t !! i = Some (Some x);
  std_free : ∃ p q, (p < q)%nat ∧ t !! p = Some None ∧ t !! q = Some None }.
Lemma std_insert t i x : (i < 3)%nat → std t → std (<[i := Some x]> t).
Proof.
  intros Hi [A (p & q & Hpq & Hp & Hq)]. split.
  - intros j Hj. destruct (decide (i = j)) as [->|]; destruct (A j Hj) as [y Hy]; [|exists y; by rewrite list_lookup_insert_ne].
    exists x. apply list_lookup_insert_eq. by eapply lookup_lt_Some.
  - exists p, q. destruct (A i Hi) as [y Hy]. rewrite !list_lookup_insert_ne by (intros ->; congruence). done.
Qed.
Lemma lowest_exists t p : t !! p = Some None → ∃ fd, lowest t = Some fd ∧ (fd ≤ p)%nat.
Proof.
  revert p. induction t as [|[x|] t IH]; intros [|p] Hp; try done; cbn [lowest].
  - destruct (IH p Hp) as (fd & -> & Hle). exists (S fd). split; [done|lia].
  - exists O. split; [done|lia].
  - exists O. split; [done|lia].
Qed.
Lemma pipe_fds_std pos t : std t → ∃ p0 p1, (3 ≤ p0 < p1)%nat ∧ t !! p0 = Some None ∧ t !! p1 = Some None ∧
  pipe_fds pos t = Some (p0, p1, <[p1 := Some (PipeW pos)]> (<[p0 := Some (PipeR pos)]> t)).
Proof.
  intros [A (p & q & Hpq & Hp & Hq)]. destruct (lowest_exists t p Hp) as (p0 & E0 & Hp0).
  apply lowest_spec in E0 as E0'. destruct E0' as [F0 B0].
  set (t1 := <[p0 := Some (PipeR pos)]> t).
  assert (t1 !! q = Some None) as Hq1 by (unfold t1; rewrite list_lookup_insert_ne by lia; done).
  destruct (lowest_exists t1 q Hq1) as (p1 & E1 & Hp1). apply lowest_spec in E1 as E1'. destruct E1' as [F1 B1].
  assert (p0 ≠ p1) as Hne.
  { intros <-. unfold t1 in F1. rewrite list_lookup_insert_eq in F1 by (by eapply lookup_lt_Some). done. }
  assert (3 ≤ p0)%nat as H3.
  { destruct (decide (p0 < 3)%nat) as [Hlt|]; [|lia]. destruct (A p0 Hlt) as [x Hx]. congruence. }
  unfold t1 in F1. rewrite list_lookup_insert_ne in F1 by done.
  assert (p0 < p1)%nat as Hlt.
  { destruct (decide (p1 < p0)%nat) as [Hc|]; [|lia]. destruct (B0 p1 Hc) as [x Hx]. congruence. }
  exists p0, p1. split_and!; try done. unfold pipe_fds, new_fd. rewrite E0. fold t1. by rewrite E1.
Qed.
(** [close(i); dup(p); close(p0); close(p1)] puts one end of the new pipe at [i]. *)
Lemma plumb t p0 p1 i x y (w : bool) : (i < 3)%nat → (i < p0 < p1)%nat → (∀ j, (j < i)%nat → ∃ z, t !! j = Some (Some z)) →
  t !! i = Some (Some y) → t !! p0 = Some None → t !! p1 = Some None →
  let e := if w then (p1, snd x) else (p0, fst x) in
  close_fd p1 (close_fd p0 (dup_fd (fst e) (close_fd i (<[p1 := Some (snd x)]> (<[p0 := Some (fst x)]> t))))) = <[i := Some (snd e)]> t.
Proof.
  intros Hi Hp Hlow Hy H0 H1 e. pose proof (lookup_lt_Some _ _ _ H0) as L0'. pose proof (lookup_lt_Some _ _ _ H1) as L1'.
  set (t1 := close_fd i (<[p1 := Some (snd x)]> (<[p0 := Some (fst x)]> t))).
  assert (t1 !! fst e = Some (Some (snd e))) as He.
  { unfold t1, close_fd, e. destruct w; cbn [fst snd]; rewrite list_lookup_insert_ne by lia.
    - by rewrite list_lookup_insert_eq by (rewrite length_insert; lia).
    - by rewrite list_lookup_insert_ne, list_lookup_insert_eq by lia. }
  assert (new_fd (snd e) t1 = Some (i, <[i := Some (snd e)]> t1)) as En.
  { apply new_fd_at.
    - unfold t1, close_fd. rewrite list_lookup_insert_eq; [done|]. rewrite !length_insert. lia.
    - intros j Hj. destruct (Hlow j Hj) as [z Hz]. exists z. unfold t1, close_fd. by rewrite !list_lookup_insert_ne by lia. }
  unfold dup_fd. rewrite He, En. unfold close_fd, t1. apply list_eq. intros k.
  destruct (decide (k = p1)) as [->|N1]; [rewrite list_lookup_insert_eq, list_lookup_insert_ne by (rewrite ?length_insert; unfold close_fd; rewrite ?length_insert; lia); done|].
  rewrite list_lookup_insert_ne by done.
  destruct (decide (k = p0)) as [->|N0]; [rewrite list_lookup_insert_eq, list_lookup_insert_ne by (rewrite ?length_insert; unfold close_fd; rewrite ?length_insert; lia); done|].
  rewrite list_lookup_insert_ne by done.
  destruct (decide (k = i)) as [->|Ni].
  - rewrite !list_lookup_insert_eq by (unfold close_fd; rewrite ?length_insert; lia). done.
  - unfold close_fd. by rewrite !list_lookup_insert_ne by done.
Qed.

(** ** The descriptors a command asks for *)
Section Wire.
Context (sy : system) (envs : env).

(** The specification: a redirection replaces one descriptor, a pipe replaces the
    output of its left and the input of its right side, nothing else changes. *)
Fixpoint wire (pos : list bool) (c : cmd (list Z)) (t : fdtable) : list launch :=
  match c with
  | EXEC [] => []
  | EXEC (name :: args) =>
      match List.find (can_exec sy) (exec_paths envs name) with Some path => [Launch path (name :: args) t] | None => [] end
  | REDIR c file mode fd => if can_open sy file mode then wire pos c (<[Z.to_nat fd := Some (Opened file mode)]> t) else []
  | LIST l r => if can_fork sy (pos ++ [false]) then wire (pos ++ [false]) l t ++ wire (pos ++ [true]) r t else []
  | PIPE l r =>
      if can_fork sy (pos ++ [false]) then
        wire (pos ++ [false]) l (<[1%nat := Some (PipeW pos)]> t) ++
        (if can_fork sy (pos ++ [true]) then wire (pos ++ [true]) r (<[0%nat := Some (PipeR pos)]> t) else [])
      else []
  | BACK c => if can_fork sy (pos ++ [false]) then wire (pos ++ [false]) c t else []
  end.
(** Redirections are of standard input or output. *)
Fixpoint redirs_ok (c : cmd (list Z)) : Prop :=
  match c with
  | EXEC _ => True
  | REDIR c _ _ fd => (fd = 0 ∨ fd = 1) ∧ redirs_ok c
  | PIPE l r | LIST l r => redirs_ok l ∧ redirs_ok r
  | BACK c => redirs_ok c
  end.
Lemma redir_std t fd x : std t → fd = 0 ∨ fd = 1 →
  new_fd x (close_fd (Z.to_nat fd) t) = Some (Z.to_nat fd, <[Z.to_nat fd := Some x]> t).
Proof.
  intros [A _] Hfd. assert (Z.to_nat fd < 2)%nat as Hlt by lia. set (i := Z.to_nat fd) in *. destruct (A i ltac:(lia)) as [y Hy].
  pose proof (lookup_lt_Some _ _ _ Hy) as Hl. unfold close_fd. rewrite (new_fd_at _ _ i).
  - by rewrite list_insert_insert_eq.
  - by apply list_lookup_insert_eq.
  - intros j Hj. destruct (A j ltac:(lia)) as [z Hz]. exists z. by rewrite list_lookup_insert_ne by lia.
Qed.
Lemma runcmd_wire c : redirs_ok c → ∀ pos t, std t → runcmd sy envs pos c t = wire pos c t.
Proof.
  induction c as [argv|c IH f m fd|l IHl r IHr|l IHl r IHr|c IH]; cbn [redirs_ok runcmd wire]; intros Hok pos t Ht.
  - done.
  - destruct Hok as [Hfd Hok]. destruct (can_open sy f m); [|done]. rewrite (redir_std t fd) by done.
    apply IH; [done|]. apply std_insert; [lia|done].
  - destruct Hok as [Hl Hr]. destruct (pipe_fds_std pos t Ht) as (p0 & p1 & Hp & F0 & F1 & ->).
    destruct (can_fork sy (pos ++ [false])); [|done]. destruct Ht as [A Hfree].
    destruct (A 0%nat ltac:(lia)) as [y0 Hy0], (A 1%nat ltac:(lia)) as [y1 Hy1].
    assert (std t) as Ht by (by split).
    pose proof (plumb t p0 p1 1 (PipeR pos, PipeW pos) y1 true ltac:(lia) ltac:(lia) ltac:(intros j Hj; apply A; lia) Hy1 F0 F1) as E1. cbn [fst snd] in E1.
    pose proof (plumb t p0 p1 0 (PipeR pos, PipeW pos) y0 false ltac:(lia) ltac:(lia) ltac:(intros j Hj; lia) Hy0 F0 F1) as E0. cbn [fst snd] in E0.
    rewrite E0, E1, IHl by (done || (apply std_insert; [lia|done])). f_equal.
    destruct (can_fork sy (pos ++ [true])); [|done]. by rewrite IHr by (done || (apply std_insert; [lia|done])).
  - destruct Hok as [Hl Hr]. destruct (can_fork sy (pos ++ [false])); [|done]. by rewrite IHl, IHr.
  - destruct (can_fork sy (pos ++ [false])); [|done]. by apply IH.
Qed.

(** What a descriptor of a program can be: what the shell had, an opened file, or
    a pipe made by a part of the command. *)
Definition comes_from (t : fdtable) (pos : list bool) (o : obj) : Prop :=
  Some o ∈ t ∨ match o with Inherited _ => False | Opened _ _ => True | PipeR q | PipeW q => ∃ k, q = pos ++ k end.
Lemma comes_from_insert t pos q i x o :
  comes_from (<[i := Some x]> t) q o → (∃ k, q = pos ++ k) → comes_from t pos x → comes_from t pos o.
Proof.
  intros [Hin|H] [k ->] Hx.
  - apply list_elem_of_lookup in Hin as [j Hj]. apply list_lookup_insert_Some in Hj as [(-> & [= ->] & _)|[_ Hj]]; [done|].
    left. apply list_elem_of_lookup. by exists j.
  - right. destruct o; [done|done|..]; destruct H as [k' ->]; exists (k ++ k'); by rewrite app_assoc.
Qed.
Lemma comes_from_pos t pos k o : comes_from t (pos ++ k) o → comes_from t pos o.
Proof. intros [H|H]; [by left|right]. destruct o; [done|done|..]; destruct H as [k' ->]; exists (k ++ k'); by rewrite app_assoc. Qed.
Lemma wire_from c pos t x o : x ∈ wire pos c t → Some o ∈ l_fds x → comes_from t pos o.
Proof.
  revert pos t. induction c as [argv|c IH f m fd|l IHl r IHr|l IHl r IHr|c IH]; cbn [wire]; intros pos t Hx Ho.
  - destruct argv as [|a args]; [by apply elem_of_nil in Hx|]. destruct (List.find _ _); [|by apply elem_of_nil in Hx].
    apply list_elem_of_singleton in Hx as ->. by left.
  - destruct (can_open sy f m); [|by apply elem_of_nil in Hx]. eapply (comes_from_insert t pos pos); [by apply IH|by exists []; rewrite app_nil_r|by right].
  - destruct (can_fork sy (pos ++ [false])); [|by apply elem_of_nil in Hx]. apply elem_of_app in Hx as [Hx|Hx].
    + eapply (comes_from_insert t pos); [by apply IHl|by eexists|]. right. exists []. by rewrite app_nil_r.
    + destruct (can_fork sy (pos ++ [true])); [|by apply elem_of_nil in Hx].
      eapply (comes_from_insert t pos); [by apply IHr|by eexists|]. right. exists []. by rewrite app_nil_r.
  - destruct (can_fork sy (pos ++ [false])); [|by apply elem_of_nil in Hx]. apply elem_of_app in Hx as [Hx|Hx].
    + eapply comes_from_pos. by apply IHl.
    + eapply comes_from_pos. by apply IHr.
  - destruct (can_fork sy (pos ++ [false])); [|by apply elem_of_nil in Hx]. eapply comes_from_pos. by apply IH.
Qed.
(** No program on one side of a pipe holds the other side's end. *)
Lemma wire_private pos c t (b : bool) i e o x :
  x ∈ wire (pos ++ [b]) c (<[i := Some e]> t) → o = PipeR pos ∨ o = PipeW pos → e ≠ o → Some o ∉ t → Some o ∉ l_fds x.
Proof.
  intros Hx Ho He Ht Hin. destruct (wire_from _ _ _ _ _ Hx Hin) as [H|H].
  - apply list_elem_of_lookup in H as [j Hj]. apply list_lookup_insert_Some in Hj as [(_ & [= ->] & _)|[_ Hj]]; [done|].
    apply Ht, list_elem_of_lookup. by exists j.
  - destruct Ho as [->| ->]; destruct H as [k Hk]; rewrite <- app_assoc in Hk;
      pose proof (f_equal length Hk) as El; rewrite length_app in El; simpl in El; lia.
Qed.
End Wire.

Lemma words_map {V W} (f : V → W) c : words (map_cmd f c) = map f (words c).
Proof. induction c as [argv|c IH fl m fd|l IHl r IHr|l IHl r IHr|c IH]; cbn [words map_cmd]; rewrite ?IH, ?IHl, ?IHr, ?map_app; done. Qed.

(** the parser returns on every line, with a command or one of its four error
    messages, and after [nulterminate] every argument and file name of the
    command, read as a C string, is exactly a maximal run of word characters of
    the line: terminating one word never damages another. *)
Theorem shell_parser_total (buf : list Z) : Forall (λ c, c ≠ 0) buf →
  match parsecmd buf with
  | Ok c _ => Forall (λ w, ∃ q e, good buf (q, e) ∧ w = slice buf (q, e)) (words c)
  | Panic e => e ∈ parse_errors
  end.
Proof.
  intros Hbuf. pose proof (parsecmd_spec buf Hbuf) as H. destruct (parsecmd buf) as [c s|e]; [|done].
  destruct H as (pc & -> & Hg & _). rewrite words_map. apply Forall_fmap. apply good_words in Hg.
  eapply Forall_impl; [exact Hg|]. intros [q e] Hw. by exists q, e.
Qed.


(** ** Variables *)
Lemma span_while_app f a b : Forall (λ c, f c = true) a → match b with [] => True | c :: _ => f c = false end →
  span_while f (a ++ b) = (a, b).
Proof.
  intros Ha Hb. induction Ha as [|c a Hc _ IH]; cbn [app span_while].
  - destruct b as [|c b]; [done|]. cbn [span_while]. by rewrite Hb.
  - by rewrite Hc, IH.
Qed.
Lemma span_while_all f s : length (span_while f s).1 = length s → Forall (λ c, f c = true) s.
Proof.
  induction s as [|c s IH]; [done|]. cbn [span_while]. destruct (f c) eqn:E; [|done]. destruct (span_while f s) as [a b].
  simpl in *. intros [= H]. constructor; [done|by apply IH].
Qed.
Lemma checkenvname_spec name : (0 < length name)%nat → checkenvname name = length name →
  ∃ c r, name = c :: r ∧ name_start c = true ∧ Forall (λ c, name_rest c = true) r.
Proof.
  destruct name as [|c r]; [simpl; lia|]. intros _. cbn [checkenvname length]. destruct (name_start c) eqn:E; [|done].
  intros [= H]. exists c, r. split; [done|]. split; [done|]. by apply span_while_all.
Qed.
Lemma name_start_rest c : name_start c = true → name_rest c = true.
Proof. unfold name_start, name_rest. destruct (is_upper c), (is_lower c), (is_digit c), (c =? 95); done. Qed.
Lemma name_rest_not c d : name_rest c = true → d = 61 ∨ d = 45 ∨ d = 36 → c ≠ d.
Proof. intros H Hd ->. destruct Hd as [->|[->| ->]]; discriminate H. Qed.

Lemma replace_plain envs pre s t n k : Forall (λ c, c ≠ 36) pre →
  replace_loop (length pre + k) envs (pre ++ s) t n = replace_loop k envs s (t ++ pre) n.
Proof.
  intros H. revert t. induction H as [|c pre Hc _ IH]; intros t; [by rewrite app_nil_r|].
  cbn [length Nat.add app replace_loop]. rewrite (proj2 (Z.eqb_neq _ _)), IH by done. by rewrite <- app_assoc.
Qed.

(** [export NAME=value] defines a variable that command lines then see: with
    a fresh valid name and room in the table it succeeds, and a line with one
    [$NAME] is expanded to the line with the value in its place. *)
Theorem shell_export_expand (envs : env) (name value pre post : list Z) :
  (0 < length name < 32)%nat → checkenvname name = length name → (length envs < NENVS)%nat → name ∉ map fst envs →
  (0 < length value < 96)%nat → last value ≠ Some 47 → 
  Forall (λ c, c ≠ 36) pre → Forall (λ c, c ≠ 36) post → match post with [] => True | c :: _ => name_rest c = false end →
  (length pre + length value + length post < 100)%nat →
  ∃ envs', export envs (name ++ [61] ++ value) = Some (envs', 0) ∧
    replace envs' (pre ++ [36] ++ name ++ post) = Some (pre ++ value ++ post, 1).
Proof.
  intros Hn Hc He Hfresh Hv Hlast Hpre Hpost Hstop Hlen. destruct (checkenvname_spec name ltac:(lia) Hc) as (c & r & -> & Hs & Hr).
  pose proof (name_start_rest c Hs) as Hcr. exists (envs ++ [(c :: r, value)]). split.
  - unfold export. rewrite bool_decide_eq_false_2; [|intros [= -> _]; by apply (name_rest_not _ 45 Hcr); [auto|]].
    rewrite (proj2 (Nat.eqb_neq _ _)) by lia.
    rewrite (span_while_app _ (c :: r) ([61] ++ value)); [|..|done].
    + cbn [app]. rewrite (proj2 (Nat.leb_gt _ _)), Hc, Nat.eqb_refl by lia. cbn [negb].
      rewrite (proj2 (Nat.leb_gt _ _)) by lia. destruct (last value) as [d|] eqn:El; [|apply last_None in El as ->; simpl in Hv; lia].
      rewrite (proj2 (Z.eqb_neq d 47)) by congruence. done.
    + constructor; [|eapply Forall_impl; [exact Hr|]]; [|intros d Hd]; apply negb_true_iff, Z.eqb_neq; (apply name_rest_not; [done|auto]).
  - unfold replace. assert ((S (length (pre ++ [36%Z] ++ (c :: r) ++ post)) = length pre + S (length (c :: r) + S (length post)))%nat) as ->
      by (rewrite !length_app; simpl; lia).
    rewrite replace_plain by done. cbn [app replace_loop]. rewrite Z.eqb_refl, Hs, (span_while_app _ r post) by done.
    simpl in Hn. rewrite (proj2 (Nat.leb_gt 32 _)) by lia.
    assert (filter (λ e : list Z * list Z, e.1 = c :: r) (envs ++ [(c :: r, value)]) = [(c :: r, value)]) as ->.
    { rewrite filter_app. assert (filter (λ e : list Z * list Z, e.1 = c :: r) envs = []) as ->.
      { clear -Hfresh. induction envs as [|e envs IH]; [done|]. rewrite filter_cons_False; [apply IH; intros H; apply Hfresh; by right|].
        intros E. apply Hfresh. cbn [map]. rewrite E. by left. }
      cbn [app]. by rewrite filter_cons_True. }
    cbn [map concat snd]. rewrite app_nil_r.
    replace (length (c :: r) + S (length post))%nat with (length post + S (length (c :: r)))%nat by lia.
    rewrite <- (app_nil_r post) at 2. rewrite replace_plain by done. cbn [length replace_loop app].
    rewrite (proj2 (Nat.leb_gt 100 _)) by (rewrite !length_app; lia). by rewrite <- app_assoc.
Qed.

(** ** Examples *)
(** Redefining a variable appends: [$A] gives both values. *)
Example variable_redefinition_appends :
  match export [] (chars "A=x") with
  | Some (e, 0) => match export e (chars "A=y") with Some (e, 0) => replace e (chars "$A") | _ => None end
  | _ => None
  end = Some (chars "xy", 1).
Proof. vm_compute. reflexivity. Qed.
(** A line with a syntax error ends the shell. *)
Example syntax_error_exits : shell_line (chars "echo >" ++ [10]) = Exit "missing file for redirection".
Proof. vm_compute. reflexivity. Qed.

Definition demo_cmd : cmd (list Z) :=
  LIST (BACK (PIPE (REDIR (EXEC [chars "cat"]) (chars "in") 0 0) (LIST (EXEC [chars "grep"; chars "x"]) (EXEC [chars "wc"]))))
    (REDIR (EXEC [chars "ls"; chars "-l"]) (chars "out") 517 1).
Lemma shell_parse_print_witness :
  print_cmd demo_cmd = chars "cat < in | ( grep x ; wc ) & ; ls -l >> out " ∧
  ∃ s, parsecmd (chars "cat < in | ( grep x ; wc ) & ; ls -l >> out ") = Ok demo_cmd s.
Proof.
  split; [vm_compute; reflexivity|]. destruct (shell_parse_print demo_cmd) as [s E].
  - vm_compute. repeat split; repeat constructor; intuition congruence.
  - exists s. rewrite <- E. f_equal.
Defined.
Lemma shell_parser_total_witness : ∃ c s, parsecmd (chars "ls>f" ++ [10]) = Ok c s ∧
  Forall (λ w, ∃ q e, good (chars "ls>f" ++ [10]) (q, e) ∧ w = slice (chars "ls>f" ++ [10]) (q, e)) (words c).
Proof.
  pose proof (shell_parser_total (chars "ls>f" ++ [10])) as H.
  destruct (parsecmd (chars "ls>f" ++ [10])) as [c s|e] eqn:E; [|vm_compute in E; discriminate E].
  exists c, s. split; [reflexivity|]. apply H. repeat constructor; discriminate.
Defined.
Definition demo_fds : fdtable := [Some (Inherited 0); Some (Inherited 1); Some (Inherited 2)] ++ replicate 13 None.
Definition demo_system : system := System (λ _ _, true) (λ _, true) (λ _, true).
Lemma shell_export_expand_witness : ∃ e, export [] (chars "X=/bin") = Some (e, 0) ∧ replace e (chars "ls $X") = Some (chars "ls /bin", 1).
Proof.
  destruct (shell_export_expand [] (chars "X") (chars "/bin") (chars "ls ") []) as (e & E1 & E2); try (vm_compute; intuition (congruence || lia)).
  - by apply not_elem_of_nil.
  - vm_compute. repeat constructor; discriminate.
  - constructor.
  - exists e. split; [exact E1|exact E2].
Defined.
