(* ===== verification/Umalloc.v ===== *)
(** * The user-level allocator (xv6-user/umalloc.c)

    [malloc] and [free] of Kernighan and Ritchie: a circular list of free blocks
    in address order through the static header [base], joined with their
    neighbours when they are freed.

    A [Header *] is its address, [p + n] is [p + 16 n]; the two fields of every
    header are maps over addresses.  [brk] is the end of the process's memory and
    [grows] says which [sbrk] calls the kernel grants. *)
From stdpp Require Import prelude list strings.
From Stdlib Require Import ZArith Lia.
From S2P Require Import Prelude.
Open Scope Z_scope.

Definition HDR : Z := 16.
Record heap := Heap { hptr : Z → Z; hsize : Z → Z; freep : Z; brk : Z }.
Definition set_ptr (p v : Z) (h : heap) : heap := Heap (upd (hptr h) p v) (hsize h) (freep h) (brk h).
Definition set_size (p v : Z) (h : heap) : heap := Heap (hptr h) (upd (hsize h) p v) (freep h) (brk h).
Definition set_freep (p : Z) (h : heap) : heap := Heap (hptr h) (hsize h) p (brk h).
Definition set_brk (b : Z) (h : heap) : heap := Heap (hptr h) (hsize h) (freep h) b.

Section Umalloc.
Context (base : Z).

(** The loop of [free]: the node after which [bp] belongs. *)
Definition free_here (h : heap) (bp p : Z) : bool :=
  ((p <? bp) && (bp <? hptr h p)) || ((hptr h p <=? p) && ((p <? bp) || (bp <? hptr h p))).
Fixpoint free_find (fuel : nat) (h : heap) (bp p : Z) : option Z :=
  match fuel with
  | O => None
  | S fuel => if free_here h bp p then Some p else free_find fuel h bp (hptr h p)
  end.
Definition free_link (bp p : Z) (h : heap) : heap :=
  let h :=
    if bp + HDR * hsize h bp =? hptr h p
    then set_ptr bp (hptr h (hptr h p)) (set_size bp (u32 (hsize h bp + hsize h (hptr h p))) h)
    else set_ptr bp (hptr h p) h in
  let h :=
    if p + HDR * hsize h p =? bp
    then set_ptr p (hptr h bp) (set_size p (u32 (hsize h p + hsize h bp)) h)
    else set_ptr p bp h in
  set_freep p h.
Definition free (fuel : nat) (ap : Z) (h : heap) : option heap :=
  let bp := ap - HDR in
  match free_find fuel h bp (freep h) with Some p => Some (free_link bp p h) | None => None end.

Section Grow.
Context (grows : Z → Z → bool).
(** [sbrk]: the old end of memory, or -1; the argument is an [int]. *)
Definition sbrk (n : Z) (h : heap) : Z * heap :=
  let n := i32 n in
  if grows (brk h) n then (brk h, set_brk (brk h + n) h) else (-1, h).
(** [morecore]: 0 when memory is exhausted; [None] when the fuel of [free] is. *)
Definition morecore (fuel : nat) (nu : Z) (h : heap) : option (Z * heap) :=
  let nu := if nu <? 4096 then 4096 else nu in
  let '(p, h) := sbrk (nu * HDR) h in
  if p =? -1 then Some (0, h)
  else match free fuel (p + HDR) (set_size p nu h) with Some h => Some (freep h, h) | None => None end.

(** Taking [nunits] from the block at [p]: the block, or its tail. *)
Definition take_units (nunits prevp p : Z) (h : heap) : Z * heap :=
  if hsize h p =? nunits then (p + HDR, set_freep prevp (set_ptr prevp (hptr h p) h))
  else
    let h := set_size p (u32 (hsize h p - nunits)) h in
    let q := p + HDR * hsize h p in
    (q + HDR, set_freep prevp (set_size q nunits h)).
Fixpoint malloc_loop (fuel : nat) (nunits prevp p : Z) (h : heap) : option (Z * heap) :=
  match fuel with
  | O => None
  | S fuel' =>
      if nunits <=? hsize h p then Some (take_units nunits prevp p h)
      else if p =? freep h then
        match morecore fuel' nunits h with
        | None => None
        | Some (q, h) => if q =? 0 then Some (0, h) else malloc_loop fuel' nunits q (hptr h q) h
        end
      else malloc_loop fuel' nunits p (hptr h p) h
  end.
Definition units (nbytes : Z) : Z := u32 ((nbytes + HDR - 1) / HDR + 1).
Definition malloc (fuel : nat) (nbytes : Z) (h : heap) : option (Z * heap) :=
  let nunits := units nbytes in
  let h := if freep h =? 0 then set_size base 0 (set_freep base (set_ptr base base h)) else h in
  let prevp := freep h in
  malloc_loop fuel nunits prevp (hptr h prevp) h.
End Grow.

(** ** The free list *)
(** From [x] the list runs through the blocks [l] (address and size) to [e]. *)
Fixpoint chain (h : heap) (x : Z) (l : list (Z * Z)) (e : Z) : Prop :=
  match l with
  | [] => hptr h x = e
  | b :: l => hptr h x = b.1 ∧ hsize h b.1 = b.2 ∧ chain h b.1 l e
  end.
(** In address order above [lo], apart from each other. *)
Fixpoint sep (lo : Z) (l : list (Z * Z)) : Prop :=
  match l with [] => True | b :: l => lo < b.1 ∧ 0 < b.2 ∧ sep (b.1 + HDR * b.2) l end.
Definition nodes (l : list (Z * Z)) : list Z := base :: map fst l.

Lemma chain_app h x l1 a s l2 e : chain h x (l1 ++ (a, s) :: l2) e ↔ chain h x l1 a ∧ hsize h a = s ∧ chain h a l2 e.
Proof.
  revert x. induction l1 as [|b l1 IH]; intros x; cbn [app chain]; [done|]. rewrite IH. tauto.
Qed.
Lemma chain_ext h h' x l e : (∀ y, y = x ∨ y ∈ map fst l → hptr h' y = hptr h y) → (∀ y, y ∈ map fst l → hsize h' y = hsize h y) →
  chain h x l e → chain h' x l e.
Proof.
  revert x. induction l as [|b l IH]; intros x Hp Hs; cbn [chain]; [by rewrite Hp by (by left)|].
  intros (A & B & C). rewrite Hp by (by left). rewrite Hs by (by left). split; [done|]. split; [done|].
  apply IH; [|intros y Hy; apply Hs; by right|done]. intros y [->|Hy]; apply Hp; right; [by left|by right].
Qed.
Lemma sep_app lo l1 b l2 : sep lo (l1 ++ b :: l2) → sep lo l1 ∧ 0 < b.2 ∧ sep (b.1 + HDR * b.2) l2 ∧
  lo < b.1 ∧ ∀ c, c ∈ l1 → c.1 + HDR * c.2 < b.1.
Proof.
  revert lo. induction l1 as [|c l1 IH]; intros lo; cbn [app sep].
  - intros (A & B & C). split_and!; try done. by intros c Hc%elem_of_nil.
  - intros (A & B & C). destruct (IH _ C) as (D & E & F & G & H). unfold HDR in *. split_and!; try done; [lia|].
    intros d [->|Hd]%elem_of_cons; [lia|by apply H].
Qed.
Lemma sep_lo lo l b : sep lo l → b ∈ l → lo < b.1 ∧ 0 < b.2.
Proof.
  revert lo. induction l as [|c l IH]; intros lo Hs Hb; [by apply elem_of_nil in Hb|]. destruct Hs as (A & B & C).
  apply elem_of_cons in Hb as [->|Hb]; [done|]. destruct (IH _ C Hb). unfold HDR in *. split; [lia|done].
Qed.
Lemma sep_le lo lo' l : lo' ≤ lo → sep lo l → sep lo' l.
Proof. destruct l as [|b l]; [done|]. intros Hl (A & B & C). split_and!; [lia|done|done]. Qed.
Lemma sep_build lo l1 b l2 : sep lo l1 → (∀ c, c ∈ l1 → c.1 + HDR * c.2 < b.1) → lo < b.1 → 0 < b.2 →
  sep (b.1 + HDR * b.2) l2 → sep lo (l1 ++ b :: l2).
Proof.
  revert lo. induction l1 as [|c l1 IH]; intros lo H1 H2 H3 H4 H5; cbn [app sep]; [done|]. destruct H1 as (A & B & C).
  split_and!; [done|done|]. apply IH; try done; [intros d Hd; apply H2; by right|apply H2; by left].
Qed.
Lemma sep_nodup lo l : sep lo l → NoDup (map fst l).
Proof.
  revert lo. induction l as [|b l IH]; intros lo; [constructor|]. intros (A & B & C). cbn. constructor; [|by eapply IH].
  intros (c & E & Hc)%list_elem_of_fmap. destruct (sep_lo _ _ _ C Hc). unfold HDR in *. lia.
Qed.
Lemma nodes_nodup l : sep base l → NoDup (nodes l).
Proof.
  intros Hs. constructor; [|by eapply sep_nodup]. intros (c & E & Hc)%list_elem_of_fmap. destruct (sep_lo _ _ _ Hs Hc). lia.
Qed.

(** The node a list ends with. *)
Fixpoint last_node (x : Z) (l : list (Z * Z)) : Z := match l with [] => x | b :: l => last_node b.1 l end.
Lemma last_node_snoc x l b : last_node x (l ++ [b]) = b.1.
Proof. revert x. induction l as [|c l IH]; intros x; [done|]. apply IH. Qed.
Lemma last_node_in x l : last_node x l = x ∨ last_node x l ∈ map fst l.
Proof.
  revert x. induction l as [|b l IH]; intros x; [by left|]. right. cbn [last_node map]. destruct (IH b.1) as [->|H]; [by left|by right].
Qed.
(** Redirecting the last pointer. *)
Lemma chain_last h h' x l e e' : chain h x l e → NoDup (x :: map fst l) →
  hptr h' (last_node x l) = e' → (∀ y, y ≠ last_node x l → (y = x ∨ y ∈ map fst l) → hptr h' y = hptr h y) →
  (∀ y, y ∈ map fst l → hsize h' y = hsize h y) → chain h' x l e'.
Proof.
  revert x. induction l as [|b l IH]; intros x Hc Hn He Hp Hs; cbn [chain last_node] in *; [done|]. destruct Hc as (A & B & C).
  apply NoDup_cons in Hn as [Hx Hn]. split; [|split].
  - rewrite Hp; [done| |by left]. intros E. apply Hx. rewrite E. cbn [map]. destruct (last_node_in b.1 l) as [->|H]; [by left|by right].
  - rewrite Hs; [done|by left].
  - apply IH; try done.
    + intros y Hy Hin. apply Hp; [done|]. right. cbn [map]. destruct Hin as [->|H]; [by left|by right].
    + intros y Hy. apply Hs. by right.
Qed.
(** The same tail from another head. *)
Lemma chain_head h h' x y l e : chain h x l e → hptr h' y = hptr h x →
  (∀ z, z ∈ map fst l → hptr h' z = hptr h z ∧ hsize h' z = hsize h z) → chain h' y l e.
Proof.
  destruct l as [|b l]; cbn [chain]; intros Hc Hy Hz; [congruence|]. destruct Hc as (A & B & C).
  split; [congruence|]. split; [rewrite (proj2 (Hz b.1 ltac:(by left))); done|].
  eapply chain_ext; [| |exact C].
  - intros z [->|Hin]; apply Hz; [by left|by right].
  - intros z Hin. apply Hz. by right.
Qed.

(** ** Walking the ring *)
Lemma chain_next h x l e i y : chain h x l e → (x :: map fst l) !! i = Some y →
  hptr h y = match map fst l !! i with Some z => z | None => e end.
Proof.
  revert x i. induction l as [|b l IH]; intros x i Hc Hi; cbn [chain map] in *.
  - destruct i as [|i]; [|done]. by injection Hi as <-.
  - destruct Hc as (A & B & C). destruct i as [|i]; [injection Hi as <-; done|]. by apply (IH b.1 i).
Qed.

(** The place of [bp]: the blocks below it and those above. *)
Record place_of (l l1 l2 : list (Z * Z)) (bp : Z) : Prop := {
  po_split : l = l1 ++ l2;
  po_below : ∀ b, b ∈ l1 → b.1 < bp;
  po_above : ∀ b, b ∈ l2 → bp < b.1 }.
Lemma place_exists lo l bp : sep lo l → bp ∉ map fst l → ∃ l1 l2, place_of l l1 l2 bp.
Proof.
  revert lo. induction l as [|b l IH]; intros lo Hs Hn; [by exists [], []; split; [done|intros c Hc%elem_of_nil..]|].
  destruct Hs as (A & B & C). destruct (Z.lt_ge_cases bp b.1) as [Hlt|Hge].
  - exists [], (b :: l). split; [done|by intros c Hc%elem_of_nil|]. intros c [->|Hc]%elem_of_cons; [done|].
    destruct (sep_lo _ _ _ C Hc). unfold HDR in *. lia.
  - assert (b.1 < bp) as Hlt.
    { destruct (decide (b.1 = bp)) as [E|]; [|lia]. exfalso. apply Hn. rewrite <- E. by left. }
    destruct (IH _ C) as (l1 & l2 & [-> H1 H2]); [intros H; apply Hn; by right|].
    exists (b :: l1), l2. split; [done| |done]. intros c [->|Hc]%elem_of_cons; [done|by apply H1].
Qed.

Section FreeFind.
Context (h : heap) (l l1 l2 : list (Z * Z)) (bp : Z).
Context (Hc : chain h base l base) (Hs : sep base l) (Hpl : place_of l l1 l2 bp) (Hbp : base < bp).

Lemma nodes_sorted i j x y : nodes l !! i = Some x → nodes l !! j = Some y → (i < j)%nat → x < y.
Proof.
  unfold nodes. destruct j as [|j]; [lia|]. cbn [lookup list_lookup]. intros Hi Hj Hij.
  change (map fst l !! j = Some y) in Hj. apply list_lookup_fmap_Some in Hj as (b & -> & Hb).
  rewrite <- (take_drop_middle l j b Hb) in Hs, Hi. destruct (sep_app _ _ _ _ Hs) as (A & B & C & D & E).
  destruct i as [|i]; [injection Hi as <-; done|]. change (map fst (take j l ++ b :: drop (S j) l) !! i = Some x) in Hi.
  apply list_lookup_fmap_Some in Hi as (c & -> & Hi). pose proof (lookup_lt_Some _ _ _ Hb).
  rewrite lookup_app_l in Hi by (rewrite length_take; lia). assert (c ∈ take j l) as Hin by (apply list_elem_of_lookup; by exists i).
  specialize (E c Hin). destruct (sep_lo _ _ _ A Hin). unfold HDR in *. lia.
Qed.
Lemma node_below : last_node base l1 < bp.
Proof.
  destruct (last_node_in base l1) as [->|(b & -> & Hb)%list_elem_of_fmap]; [done|]. by apply (po_below _ _ _ _ Hpl).
Qed.
Lemma node_at_place : nodes l !! length l1 = Some (last_node base l1).
Proof.
  rewrite (po_split _ _ _ _ Hpl). unfold nodes. rewrite map_app. clear. generalize base. induction l1 as [|b l1' IH]; intros x; [done|]. cbn. apply IH.
Qed.
Lemma here_iff i x : nodes l !! i = Some x → free_here h bp x = bool_decide (i = length l1).
Proof.
  intros Hi. pose proof (chain_next h base l base i x Hc Hi) as Hn. pose proof (lookup_lt_Some _ _ _ Hi) as Hlt. unfold nodes in Hlt. cbn in Hlt.
  rewrite length_map in Hlt. pose proof node_at_place as Hat. pose proof node_below as Hb. unfold free_here.
  destruct (map fst l !! i) as [z|] eqn:Ez; rewrite Hn.
  - assert (nodes l !! S i = Some z) as Hz by done. assert (x < z) as Hxz by (eapply (nodes_sorted i (S i)); [done..|lia]).
    rewrite (proj2 (Z.leb_gt z x)) by done. cbn [andb]. rewrite orb_false_r.
    destruct (lt_eq_lt_dec i (length l1)) as [[Hlt2|E]|Hgt].
    + rewrite bool_decide_eq_false_2 by lia. assert (z ≤ last_node base l1) as Hle.
      { destruct (decide (S i = length l1)) as [E|]; [rewrite E in Hz; assert (z = last_node base l1) by congruence; lia|].
        enough (z < last_node base l1) by lia. eapply (nodes_sorted (S i)); [done..|lia]. }
      rewrite (proj2 (Z.ltb_ge bp z)) by lia. apply andb_false_r.
    + rewrite bool_decide_eq_true_2 by done. subst i. assert (x = last_node base l1) as -> by congruence.
      rewrite (proj2 (Z.ltb_lt _ _)) by done. cbn [andb]. apply Z.ltb_lt.
      apply list_lookup_fmap_Some in Ez as (c & -> & Ec). apply (po_above _ _ _ _ Hpl).
      destruct Hpl as [E2 _ _]. rewrite E2, lookup_app_r, Nat.sub_diag in Ec by lia. apply list_elem_of_lookup. by exists 0%nat.
    + rewrite bool_decide_eq_false_2 by lia. rewrite (proj2 (Z.ltb_ge x bp)); [done|].
      destruct i as [|i]; [lia|]. change (map fst l !! i = Some x) in Hi. apply list_lookup_fmap_Some in Hi as (c & -> & Ec).
      enough (bp < c.1) by lia. apply (po_above _ _ _ _ Hpl). destruct Hpl as [E2 _ _]. rewrite E2, lookup_app_r in Ec by lia.
      apply list_elem_of_lookup. by eexists.
  - apply lookup_ge_None in Ez. rewrite length_map in Ez. assert (i = length l) as -> by lia.
    assert (base ≤ x) as Hle.
    { destruct (decide (length l = 0%nat)) as [E|]; [|enough (base < x) by lia; eapply (nodes_sorted 0 (length l)); [done..|lia]].
      rewrite E in Hi. injection Hi as <-. lia. }
    rewrite (proj2 (Z.ltb_ge bp base)) by lia. rewrite andb_false_r, (proj2 (Z.leb_le base x)) by done. cbn [orb andb]. rewrite orb_false_r.
    destruct (decide (length l = length l1)) as [E|Hne].
    + rewrite bool_decide_eq_true_2 by done. rewrite E in Hi. assert (x = last_node base l1) as -> by congruence. by apply Z.ltb_lt.
    + rewrite bool_decide_eq_false_2 by done. apply Z.ltb_ge.
      destruct Hpl as [E2 _ Hab]. assert (length l1 < length l)%nat as Hl12 by (rewrite E2, length_app in *; lia).
      destruct (length l) as [|k] eqn:Ek; [lia|]. change (map fst l !! k = Some x) in Hi. apply list_lookup_fmap_Some in Hi as (c & -> & Ec).
      enough (bp < c.1) by lia. apply Hab. rewrite E2, lookup_app_r in Ec by lia. apply list_elem_of_lookup. by eexists.
Qed.
Lemma find_up fuel i x : nodes l !! i = Some x → (i ≤ length l1)%nat → (length l1 - i < fuel)%nat →
  free_find fuel h bp x = Some (last_node base l1).
Proof.
  revert i x. induction fuel as [|fuel IH]; intros i x Hi Hle Hf; [lia|]. cbn [free_find]. rewrite (here_iff i x Hi).
  case_bool_decide as E; [rewrite E, node_at_place in Hi; congruence|].
  assert (length l1 ≤ length l)%nat as Hl by (rewrite (po_split _ _ _ _ Hpl), length_app; lia).
  pose proof (chain_next h base l base i x Hc Hi) as Hn. destruct (lookup_lt_is_Some_2 (map fst l) i) as [z Hz]; [rewrite length_map; lia|].
  rewrite Hz in Hn. rewrite Hn. apply (IH (S i)); [done|lia|lia].
Qed.
Lemma find_around fuel i x : nodes l !! i = Some x → (length l1 < i)%nat → (S (length l) - i + length l1 < fuel)%nat →
  free_find fuel h bp x = Some (last_node base l1).
Proof.
  revert i x. induction fuel as [|fuel IH]; intros i x Hi Hle Hf; [lia|]. cbn [free_find]. rewrite (here_iff i x Hi).
  rewrite bool_decide_eq_false_2 by lia. pose proof (chain_next h base l base i x Hc Hi) as Hn.
  pose proof (lookup_lt_Some _ _ _ Hi) as Hlt. unfold nodes in Hlt. cbn in Hlt. rewrite length_map in Hlt.
  destruct (map fst l !! i) as [z|] eqn:Ez; rewrite Hn.
  - apply (IH (S i)); [done|lia|]. apply lookup_lt_Some in Ez. rewrite length_map in Ez. lia.
  - apply lookup_ge_None in Ez. rewrite length_map in Ez. apply (find_up _ 0); [done|lia|lia].
Qed.
Lemma free_find_spec fuel x : x ∈ nodes l → (S (length l) < fuel)%nat → free_find fuel h bp x = Some (last_node base l1).
Proof.
  intros [i Hi]%list_elem_of_lookup Hf. pose proof (lookup_lt_Some _ _ _ Hi) as Hlt. unfold nodes in Hlt. cbn in Hlt. rewrite length_map in Hlt.
  assert (length l1 ≤ length l)%nat as Hl by (rewrite (po_split _ _ _ _ Hpl), length_app; lia).
  destruct (decide (i ≤ length l1)%nat); [apply (find_up _ i); [done|lia|lia]|apply (find_around _ i); [done|lia|lia]].
Qed.
End FreeFind.

(** ** Linking a block in *)
Definition inside (b : Z * Z) (x : Z) : Prop := b.1 ≤ x < b.1 + HDR * b.2.
Definition covers (l : list (Z * Z)) (x : Z) : Prop := ∃ b, b ∈ l ∧ inside b x.
Definition disj (b c : Z * Z) : Prop := b.1 + HDR * b.2 ≤ c.1 ∨ c.1 + HDR * c.2 ≤ b.1.
Lemma covers_cons b l x : covers (b :: l) x ↔ inside b x ∨ covers l x.
Proof.
  split; [intros (c & [->|Hc]%elem_of_cons & H); [by left|right; by exists c]|].
  intros [H|(c & Hc & H)]; [exists b; split; [by left|done]|exists c; split; [by right|done]].
Qed.
Lemma covers_app l1 l2 x : covers (l1 ++ l2) x ↔ covers l1 x ∨ covers l2 x.
Proof.
  split; [intros (c & [Hc|Hc]%elem_of_app & H); [left|right]; by exists c|].
  intros [(c & Hc & H)|(c & Hc & H)]; exists c; (split; [apply elem_of_app|done]); [by left|by right].
Qed.
Lemma covers_join a s s' l x : 0 ≤ s → 0 ≤ s' → covers ((a, s + s') :: l) x ↔ covers ((a, s) :: (a + HDR * s, s') :: l) x.
Proof.
  intros H1 H2. rewrite !covers_cons. enough (inside (a, s + s') x ↔ inside (a, s) x ∨ inside (a + HDR * s, s') x) by tauto.
  unfold inside, HDR. cbn. lia.
Qed.

Definition next_part (bp p : Z) (h : heap) : heap :=
  if bp + HDR * hsize h bp =? hptr h p
  then set_ptr bp (hptr h (hptr h p)) (set_size bp (u32 (hsize h bp + hsize h (hptr h p))) h)
  else set_ptr bp (hptr h p) h.
Definition prev_part (bp p : Z) (h : heap) : heap :=
  if p + HDR * hsize h p =? bp
  then set_ptr p (hptr h bp) (set_size p (u32 (hsize h p + hsize h bp)) h)
  else set_ptr p bp h.
Lemma free_link_parts bp p h : free_link bp p h = set_freep p (prev_part bp p (next_part bp p h)).
Proof. done. Qed.

Record same_off (P : Z → Prop) (h h' : heap) : Prop := {
  so_ptr : ∀ y, ¬ P y → hptr h' y = hptr h y; so_size : ∀ y, ¬ P y → hsize h' y = hsize h y;
  so_freep : freep h' = freep h; so_brk : brk h' = brk h }.
Lemma upd_same {A} (f : Z → A) i v : upd f i v i = v.
Proof. unfold upd. by rewrite Z.eqb_refl. Qed.
Lemma upd_other {A} (f : Z → A) i v j : j ≠ i → upd f i v j = f j.
Proof. intros H. unfold upd. by rewrite (proj2 (Z.eqb_neq _ _)). Qed.

Section Link.
Context (h : heap) (l1 l2 : list (Z * Z)) (bp s B : Z).
Context (Hc : chain h base (l1 ++ l2) base) (Hb0 : hsize h base = 0) (Hs : sep base (l1 ++ l2)) (Hbp : base < bp) (Hsz : hsize h bp = s) (Hpos : 0 < s).
Context (Hbelow : ∀ b, b ∈ l1 → b.1 < bp) (Habove : ∀ b, b ∈ l2 → bp < b.1) (Hd : ∀ b, b ∈ l1 ++ l2 → disj (bp, s) b).
Context (Hend : ∀ b, b ∈ l1 ++ l2 → b.1 + HDR * b.2 ≤ B) (HB : bp + HDR * s ≤ B) (HB32 : B < 2 ^ 32) (Hbase : 0 ≤ base).
Notation p := (last_node base l1).

Lemma link_head : hptr h p = match l2 with [] => base | c :: _ => c.1 end.
Proof.
  assert (nodes (l1 ++ l2) !! length l1 = Some p) as Hn.
  { unfold nodes. rewrite map_app. clear. generalize base. induction l1 as [|b l1' IH]; intros x; [done|]. cbn. apply IH. }
  rewrite (chain_next _ _ _ _ _ _ Hc Hn), list_lookup_fmap, lookup_app_r, Nat.sub_diag by lia. by destruct l2.
Qed.
Lemma link_tail : chain h p l2 base.
Proof.
  clear Hs Hd Hend Hbelow. revert Hc. generalize base at 1 3 as x. induction l1 as [|b l1' IH]; intros x H; [done|]. cbn [app chain last_node] in *.
  apply IH. tauto.
Qed.
Lemma tail_apart b : b ∈ l2 → bp + HDR * s ≤ b.1.
Proof.
  intros Hb. destruct (Hd b) as [H|H]; [apply elem_of_app; by right|done|]. specialize (Habove b Hb).
  assert (0 < b.2) by (apply (sep_lo base (l1 ++ l2)); [done|apply elem_of_app; by right]). unfold HDR in *. simpl in H. lia.
Qed.
Lemma tail_sep lo : (∀ b, b ∈ l2 → lo < b.1) → sep lo l2.
Proof.
  intros Hlo. destruct l2 as [|b l2']; [done|]. destruct (sep_app _ _ _ _ Hs) as (_ & A & C & _). split; [apply Hlo; by left|done].
Qed.

(** After joining with the block above. *)
Lemma next_part_spec : ∃ t s1, let h1 := next_part bp p h in
  chain h1 bp t base ∧ hsize h1 bp = s1 ∧ s ≤ s1 ∧ bp + HDR * s1 ≤ B ∧ sep (bp + HDR * s1) t ∧ (∀ b, b ∈ t → b ∈ l2) ∧ (length t ≤ length l2)%nat ∧
  same_off (λ y, y = bp) h h1 ∧ ∀ x, covers ((bp, s1) :: t) x ↔ covers ((bp, s) :: l2) x.
Proof.
  pose proof link_head as Hh. pose proof link_tail as Ht. pose proof tail_apart as Htap. unfold next_part. rewrite Hsz, Hh.
  assert (∀ b, b ∈ l2 → b.1 ≠ bp) as Hne by (intros b Hb; specialize (Habove b Hb); lia).
  destruct l2 as [|[c cs] l2']; cbn [fst].
  - exists [], s. rewrite (proj2 (Z.eqb_neq _ _)) by (unfold HDR; lia). cbn. rewrite upd_same. unfold HDR in *. split_and!; try done; try lia.
    split; try done. intros y Hy. by apply upd_other.
  - destruct Ht as (Hpc & Hcs & Ht). cbn [fst snd] in *. pose proof (Htap (c, cs) ltac:(by left)) as Hap. cbn [fst] in Hap.
    assert (0 < cs ∧ sep (c + HDR * cs) l2') as [Hcp Hsl] by (destruct (sep_app _ _ _ _ Hs) as (_ & ? & ? & _); done).
    destruct (Z.eqb_spec (bp + HDR * s) c) as [E|Hn].
    + exists l2', (s + cs). rewrite Hcs.
      assert (c + HDR * cs ≤ B) as HcB by (apply (Hend (c, cs)), elem_of_app; right; by left).
      assert (u32 (s + cs) = s + cs) as Eu by (apply Z.mod_small; unfold HDR in *; lia). rewrite Eu. cbn.
      rewrite !upd_same. split_and!; try done; unfold HDR in *; try lia.
      * eapply chain_head; [exact Ht|cbn; by rewrite upd_same|]. intros z (b & -> & Hb)%list_elem_of_fmap. cbn.
        rewrite !upd_other; [done| |]; apply Hne; by right.
      * by replace (bp + 16 * (s + cs)) with (c + 16 * cs) by lia.
      * intros b Hb. by right.
      * split; try done; intros y Hy; by apply upd_other.
      * intros x. rewrite covers_join by lia. unfold HDR. by rewrite E.
    + exists ((c, cs) :: l2'), s. cbn. rewrite upd_same. split_and!; try done; unfold HDR in *; try lia.
      * eapply chain_ext; [| |exact Ht]; [|done]. intros y Hy. cbn. apply upd_other.
        destruct Hy as [->|(b & -> & Hb)%list_elem_of_fmap]; [apply (Hne (c, cs)); by left|apply Hne; by right].
      * split; try done. intros y Hy. by apply upd_other.
Qed.

Lemma chain_prefix h0 x m1 m2 e : chain h0 x (m1 ++ m2) e → chain h0 x m1 (match m2 with [] => e | c :: _ => c.1 end).
Proof.
  revert x. induction m1 as [|b m1 IH]; intros x; cbn [app chain]; [destruct m2; cbn [chain]; tauto|]. intros (A & C & E). split_and!; try done. by apply IH.
Qed.
Lemma prefix_sep : sep base l1.
Proof.
  clear -Hs. revert Hs. generalize base as lo. induction l1 as [|b l1' IH]; intros lo; cbn [app sep]; [done|].
  intros (A & C & E). split_and!; try done. by apply IH.
Qed.
Lemma prefix_apart b : b ∈ l1 → b.1 + HDR * b.2 ≤ bp.
Proof.
  intros Hb. destruct (Hd b) as [H|H]; [apply elem_of_app; by left| |done]. specialize (Hbelow b Hb). unfold HDR in *. simpl in H. lia.
Qed.
Lemma prefix_last b : b ∈ l1 → b.1 + HDR * b.2 = bp → b.1 = p.
Proof.
  intros Hb He. pose proof prefix_sep as Hps. pose proof prefix_apart as Hpa. clear -Hb He Hps Hpa.
  destruct (decide (l1 = [])) as [->|Hne]; [by apply elem_of_nil in Hb|]. destruct (exists_last Hne) as (l1' & c & E).
  rewrite E in *. rewrite last_node_snoc. apply elem_of_app in Hb as [Hb|Hb%list_elem_of_singleton]; [|by subst].
  destruct (sep_app base l1' c [] Hps) as (_ & Hc & _ & _ & Hlt). specialize (Hlt b Hb).
  specialize (Hpa c ltac:(apply elem_of_app; right; by left)). unfold HDR in *. lia.
Qed.

Record linked (h' : heap) (l' : list (Z * Z)) : Prop := {
  lk_chain : chain h' base l' base;
  lk_sep : sep base l';
  lk_base : hsize h' base = 0;
  lk_freep : freep h' = p ∧ p ∈ nodes l';
  lk_brk : brk h' = brk h;
  lk_size : ∀ y, y ≠ bp → y ∉ map fst (l1 ++ l2) → hsize h' y = hsize h y;
  lk_ptr : ∀ y, y ≠ bp → y ∉ nodes (l1 ++ l2) → hptr h' y = hptr h y;
  lk_covers : ∀ x, covers l' x ↔ covers (l1 ++ l2) x ∨ inside (bp, s) x;
  lk_big : ∃ b, b ∈ l' ∧ b.1 ≤ bp ∧ bp + HDR * s ≤ b.1 + HDR * b.2;
  lk_end : ∀ b, b ∈ l' → b.1 + HDR * b.2 ≤ B;
  lk_len : (length l' ≤ S (length (l1 ++ l2)))%nat }.

Lemma link_join t s1 h1 ps l1' : l1 = l1' ++ [(p, ps)] → p + HDR * ps = bp →
  chain h1 bp t base → hsize h1 bp = s1 → s ≤ s1 → bp + HDR * s1 ≤ B → sep (bp + HDR * s1) t → (∀ b, b ∈ t → b ∈ l2) → (length t ≤ length l2)%nat →
  same_off (λ y, y = bp) h h1 → (∀ x, covers ((bp, s1) :: t) x ↔ covers ((bp, s) :: l2) x) →
  linked (set_freep p (set_ptr p (hptr h1 bp) (set_size p (u32 (hsize h1 p + hsize h1 bp)) h1))) (l1' ++ (p, ps + s1) :: t).
Proof.
  intros El Ep Ht Hs1 Hle HsB Hsep Hsub Hlen Hso Hcov. set (q := p) in *. pose proof Hc as Hc'. rewrite El, <- app_assoc in Hc'. cbn [app] in Hc'.
  apply chain_app in Hc' as (Hc1 & Hps & _). pose proof Hs as Hs'. rewrite El, <- app_assoc in Hs'. cbn [app] in Hs'.
  destruct (sep_app _ _ _ _ Hs') as (Hsa & Hsp & _ & Hsq & Hsl). cbn [fst snd] in *.
  assert (hsize h1 q = ps) as Eq by (rewrite (so_size _ _ _ Hso) by (unfold HDR in *; lia); done).
  assert (0 ≤ q) as Hq by lia. assert (u32 (ps + s1) = ps + s1) as Eu by (apply Z.mod_small; unfold HDR in *; lia).
  assert (∀ z, z = base ∨ z ∈ map fst l1' → z < q) as Hlow.
  { intros z [->|(b & -> & Hb)%list_elem_of_fmap]; [done|]. specialize (Hsl b Hb). destruct (sep_lo _ _ _ Hsa Hb). unfold HDR in *. lia. }
  assert (∀ z, z ∈ map fst t → bp < z) as Hhigh by (intros z (b & -> & Hb)%list_elem_of_fmap; by apply Habove, Hsub).
  assert (∀ x, covers (l1' ++ (q, ps + s1) :: t) x ↔ covers (l1 ++ l2) x ∨ inside (bp, s) x) as Hcv.
  { intros x. rewrite El, !covers_app, covers_join, !covers_cons by lia. unfold HDR in Ep |- *. rewrite Ep. rewrite <- (covers_cons (bp, s1)), Hcov, covers_cons.
    assert (covers [] x ↔ False) as -> by (split; [by intros (b & Hb%elem_of_nil & _)|done]). tauto. }
  split; cbn.
  - apply chain_app. cbn. rewrite Eq, Hs1, Eu, upd_same. split; [|split; [done|]].
    + eapply chain_ext; [| |exact Hc1]; cbn; intros y Hy.
      * pose proof (Hlow y Hy). rewrite upd_other by lia. apply (so_ptr _ _ _ Hso). unfold HDR in *. lia.
      * pose proof (Hlow y ltac:(by right)). rewrite upd_other by lia. apply (so_size _ _ _ Hso). unfold HDR in *. lia.
    + eapply chain_head; [exact Ht|cbn; by rewrite upd_same|]. intros z Hz. cbn. specialize (Hhigh z Hz). rewrite !upd_other by (unfold HDR in *; lia). done.
  - apply sep_build; cbn; try done; [lia|]. by replace (q + HDR * (ps + s1)) with (bp + HDR * s1) by lia.
  - rewrite upd_other, (so_size _ _ _ Hso) by lia. done.
  - split; [done|]. right. rewrite map_app. apply elem_of_app. right. by left.
  - apply Hso.
  - intros y Hy Hn. rewrite upd_other, (so_size _ _ _ Hso) by (done || intros ->; apply Hn; rewrite El, !map_app; apply elem_of_app; left; apply elem_of_app; right; by left). done.
  - intros y Hy Hn. rewrite upd_other, (so_ptr _ _ _ Hso) by (done || intros ->; apply Hn; right; rewrite El, !map_app; apply elem_of_app; left; apply elem_of_app; right; by left). done.
  - done.
  - exists (q, ps + s1). split; [apply elem_of_app; right; by left|]. cbn. unfold HDR in *. lia.
  - intros b [Hb|[->|Hb]%elem_of_cons]%elem_of_app.
    + apply Hend. rewrite El. apply elem_of_app. left. apply elem_of_app. by left.
    + cbn. unfold HDR in *. lia.
    + apply Hend, elem_of_app. right. by apply Hsub.
  - rewrite El, !length_app. simpl. lia.
Qed.
Lemma link_apart t s1 h1 : p + HDR * hsize h1 p ≠ bp →
  chain h1 bp t base → hsize h1 bp = s1 → s ≤ s1 → bp + HDR * s1 ≤ B → sep (bp + HDR * s1) t → (∀ b, b ∈ t → b ∈ l2) → (length t ≤ length l2)%nat →
  same_off (λ y, y = bp) h h1 → (∀ x, covers ((bp, s1) :: t) x ↔ covers ((bp, s) :: l2) x) →
  linked (set_freep p (set_ptr p bp h1)) (l1 ++ (bp, s1) :: t).
Proof.
  intros Hn Ht Hs1 Hle HsB Hsep Hsub Hlen Hso Hcov. pose proof (chain_prefix _ _ _ _ _ Hc) as Hpre. pose proof prefix_sep as Hps.
  assert (p < bp) as Hpb by (destruct (last_node_in base l1) as [->|(b & -> & Hb)%list_elem_of_fmap]; [done|by apply Hbelow]).
  assert (∀ z, z ∈ map fst t → bp < z) as Hhigh by (intros z (b & -> & Hb)%list_elem_of_fmap; by apply Habove, Hsub).
  assert (∀ b, b ∈ l1 → b.1 + HDR * b.2 < bp) as Hlt.
  { intros b Hb. pose proof (prefix_apart b Hb). destruct (decide (b.1 + HDR * b.2 = bp)) as [E|]; [|lia]. exfalso. apply Hn.
    rewrite <- (prefix_last b Hb E), <- E. f_equal. f_equal. rewrite (so_size _ _ _ Hso) by (specialize (Hbelow b Hb); lia).
    apply list_elem_of_lookup in Hb as [k Hk]. rewrite <- (take_drop_middle l1 k b Hk), <- app_assoc in Hc. destruct b as [b1 b2].
    apply chain_app in Hc as (_ & ? & _). done. }
  split; cbn.
  - apply chain_app. cbn. split; [|split; [by rewrite Hs1|]].
    + eapply chain_last; [exact Hpre|by apply nodes_nodup|cbn; apply upd_same|..].
      * cbn. intros y Hy Hin. rewrite upd_other by done. apply (so_ptr _ _ _ Hso). destruct Hin as [->|(b & -> & Hb)%list_elem_of_fmap]; [lia|].
        specialize (Hbelow b Hb). lia.
      * cbn. intros y (b & -> & Hb)%list_elem_of_fmap. apply (so_size _ _ _ Hso). specialize (Hbelow b Hb). lia.
    + eapply chain_ext; [| |exact Ht]; [|done]. cbn. intros y Hy. apply upd_other. destruct Hy as [->|Hy]; [lia|]. specialize (Hhigh y Hy). lia.
  - apply sep_build; cbn; try done. lia.
  - rewrite (so_size _ _ _ Hso) by lia. done.
  - split; [done|]. unfold nodes. rewrite map_app. destruct (last_node_in base l1) as [->|H]; [by left|right; apply elem_of_app; by left].
  - apply Hso.
  - intros y Hy _. by apply (so_size _ _ _ Hso).
  - intros y Hy Hny. rewrite upd_other; [by apply (so_ptr _ _ _ Hso)|]. intros ->. apply Hny. unfold nodes. rewrite map_app.
    destruct (last_node_in base l1) as [->|H]; [by left|right; apply elem_of_app; by left].
  - intros x. rewrite !covers_app, Hcov, covers_cons. tauto.
  - exists (bp, s1). split; [apply elem_of_app; right; by left|]. cbn. unfold HDR in *. lia.
  - intros b [Hb|[->|Hb]%elem_of_cons]%elem_of_app; [apply Hend, elem_of_app; by left|done|apply Hend, elem_of_app; right; by apply Hsub].
  - rewrite !length_app. simpl. lia.
Qed.
Lemma free_link_spec : ∃ l', linked (free_link bp p h) l'.
Proof.
  destruct next_part_spec as (t & s1 & Ht & Hs1 & Hle & HsB & Hsep & Hsub & Hlen & Hso & Hcov).
  rewrite free_link_parts. set (h1 := next_part bp p h) in *. unfold prev_part. destruct (Z.eqb_spec (p + HDR * hsize h1 p) bp) as [E|Hn].
  - destruct (decide (l1 = [])) as [E1|Hne].
    { exfalso. rewrite E1 in E. cbn in E. rewrite (so_size _ _ _ Hso), Hb0 in E by lia. unfold HDR in *. lia. }
    destruct (exists_last Hne) as (l1' & [c cs] & E1). assert (p = c) as Epc by (rewrite E1 at 1; apply last_node_snoc).
    assert (hsize h1 p = cs) as Ecs.
    { rewrite (so_size _ _ _ Hso); [|rewrite Epc; specialize (Hbelow (c, cs) ltac:(rewrite E1; apply elem_of_app; right; by left)); simpl in *; lia].
      rewrite Epc. pose proof Hc as Hc'. rewrite E1, <- app_assoc in Hc'. cbn [app] in Hc'. by apply chain_app in Hc' as (_ & ? & _). }
    eexists. eapply (link_join t s1 h1 cs l1'); try done; [by rewrite Epc|by rewrite <- Ecs].
  - eexists. by eapply link_apart.
Qed.
End Link.

(** ** The allocator's invariant *)
(** [l] is the free list, [live] the blocks handed out: the headers agree, all
    blocks are apart from each other, above [base] and below the break. *)
Record heap_inv (h : heap) (l live : list (Z * Z)) : Prop := {
  hi_base : 0 < base ∧ hsize h base = 0;
  hi_chain : chain h base l base;
  hi_sep : sep base l;
  hi_freep : freep h ∈ nodes l;
  hi_live : ∀ b, b ∈ live → hsize h b.1 = b.2 ∧ base < b.1 ∧ 0 < b.2;
  hi_end : ∀ b, b ∈ l ∨ b ∈ live → b.1 + HDR * b.2 ≤ brk h;
  hi_disj : ∀ b c, b ∈ live → c ∈ l → disj b c;
  hi_pair : ForallOrdPairs disj live;
  hi_brk : base < brk h < 2 ^ 32 }.

Lemma disj_sym b c : disj b c → disj c b.
Proof. unfold disj. tauto. Qed.
Lemma disj_covers b l : (∀ c, c ∈ l → 0 < c.2) → 0 < b.2 → (∀ c, c ∈ l → disj b c) ↔ ∀ x, inside b x → ¬ covers l x.
Proof.
  intros Hp Hb. split.
  - intros Hd x Hx (c & Hc & Hi). specialize (Hd c Hc). unfold disj, inside in *. lia.
  - intros Hx c Hc. specialize (Hp c Hc). unfold disj. destruct (Z.le_gt_cases (b.1 + HDR * b.2) c.1); [by left|].
    right. apply Z.nlt_ge. intros Hlt. apply (Hx (Z.max b.1 c.1)); [unfold inside, HDR in *; lia|]. exists c. split; [done|unfold inside, HDR in *; lia].
Qed.
Lemma live_not_node h l live b : heap_inv h l live → b ∈ live → b.1 ∉ nodes l.
Proof.
  intros Hi Hb [E|(c & E & Hc)%list_elem_of_fmap]%elem_of_cons.
  - destruct (hi_live _ _ _ Hi b Hb) as (_ & ? & _). lia.
  - destruct (hi_live _ _ _ Hi b Hb) as (_ & _ & ?). destruct (sep_lo _ _ _ (hi_sep _ _ _ Hi) Hc). destruct (hi_disj _ _ _ Hi b c Hb Hc); unfold HDR in *; lia.
Qed.

(** Freeing the first live block. *)
Lemma free_spec fuel h l bp s live : heap_inv h l ((bp, s) :: live) → (S (length l) < fuel)%nat →
  ∃ h' l', free fuel (bp + HDR) h = Some h' ∧ heap_inv h' l' live ∧ (length l' ≤ S (length l))%nat ∧ brk h' = brk h ∧
    (∀ x, covers l' x ↔ covers l x ∨ inside (bp, s) x) ∧ (∃ b, b ∈ l' ∧ s ≤ b.2) ∧
    ∀ y, y ≠ bp → y ∉ nodes l → hptr h' y = hptr h y ∧ hsize h' y = hsize h y.
Proof.
  intros Hi Hf. pose proof Hi as [[Hb0 Hbs] Hc Hs Hfp Hl He Hd Hp Hbr]. destruct (Hl (bp, s) ltac:(by left)) as (Hsz & Hbp & Hpos). cbn [fst snd] in *.
  pose proof (live_not_node _ _ _ (bp, s) Hi ltac:(by left)) as Hnn. cbn [fst] in Hnn.
  destruct (place_exists base l bp Hs) as (l1 & l2 & Hpl); [intros H; apply Hnn; by right|].
  unfold free. rewrite Z.add_simpl_r. rewrite (free_find_spec h l l1 l2 bp Hc Hs Hpl Hbp) by done.
  destruct Hpl as [-> Hbe Hab].
  destruct (free_link_spec h l1 l2 bp s (brk h)) as (l' & [K1 K2 K3 [K4 K5] K6 K7 K7' K8 K9 K10 K11]); try done; try lia.
  { intros b Hb. apply Hd; [by left|done]. }
  { intros b Hb. apply He. by left. }
  { apply (He (bp, s)). right. by left. }
  assert (∀ b, b ∈ live → disj (bp, s) b) as Hlv.
  { intros b Hb. inversion Hp as [|x y HF _ Ex]; subst. by apply (proj1 (Forall_forall _ _) HF). }
  exists (free_link bp (last_node base l1) h), l'. split; [done|]. split; [|split_and!; try done].
  - split; try done.
    + intros b Hb. destruct (Hl b ltac:(by right)) as (A & B & C). split; [|done]. rewrite K7; [done| |].
      * intros E. specialize (Hlv b Hb). unfold disj, HDR in Hlv. cbn in Hlv. lia.
      * intros H. apply (live_not_node _ _ _ b Hi ltac:(by right)). by right.
    + rewrite K6. intros b [Hb|Hb]; [by apply K10|apply He; right; by right].
    + intros b c Hb. revert c. destruct (Hl b ltac:(by right)) as (_ & _ & Hbpos). apply disj_covers; [|done|].
      * intros c Hcl. by apply (sep_lo _ _ _ K2).
      * intros x Hx [Hcv|Hin]%K8.
        -- apply (proj1 (disj_covers b (l1 ++ l2) ltac:(intros c Hcl; by apply (sep_lo _ _ _ Hs)) Hbpos)) in Hcv; [done| |done].
           intros c Hcl. apply Hd; [by right|done].
        -- specialize (Hlv b Hb). unfold disj, inside in *. cbn in *. lia.
    + by inversion Hp.
    + by rewrite K6.
  - destruct K9 as (b & Hb & H1 & H2). exists b. split; [done|]. unfold HDR in *. lia.
  - intros y Hy Hny. split; [by apply K7'|]. apply K7; [done|]. intros H. apply Hny. by right.
Qed.

(** ** Taking units from a block *)
Lemma chain_glue h x l1 l2 e : chain h x l1 (match l2 with [] => e | c :: _ => c.1 end) →
  match l2 with [] => True | c :: l => hsize h c.1 = c.2 ∧ chain h c.1 l e end → chain h x (l1 ++ l2) e.
Proof.
  revert x. induction l1 as [|b l1 IH]; intros x; cbn [app chain]; [destruct l2 as [|c l2]; cbn [chain]; tauto|].
  intros (A & B & C) D. split_and!; try done. by apply IH.
Qed.
Lemma sep_drop lo l1 b l2 : sep lo (l1 ++ b :: l2) → sep lo (l1 ++ l2).
Proof.
  revert lo. induction l1 as [|c l1 IH]; intros lo; cbn [app sep]; [|intros (A & B & C); split_and!; try done; by apply IH].
  intros (A & B & C). eapply sep_le; [|exact C]. unfold HDR in *. lia.
Qed.
Lemma covers_drop l1 b l2 x : covers (l1 ++ b :: l2) x ↔ covers (l1 ++ l2) x ∨ inside b x.
Proof. rewrite !covers_app, covers_cons. tauto. Qed.

Section Take.
Context (h : heap) (l1 l2 live : list (Z * Z)) (p s n : Z).
Context (Hi : heap_inv h (l1 ++ (p, s) :: l2) live) (Hn : 0 < n ≤ s).
Notation prevp := (last_node base l1).

Lemma take_facts : hsize h p = s ∧ base < p ∧ p + HDR * s ≤ brk h ∧ prevp ≠ p ∧
  (∀ b, b ∈ live → disj (p, s) b) ∧ (∀ b, b ∈ l1 ++ l2 → disj (p, s) b ∧ b.1 ≠ p).
Proof.
  pose proof Hi as [Hb Hc Hs Hfp Hl He Hd Hp Hbr]. apply chain_app in Hc as (_ & Hsz & _).
  destruct (sep_app _ _ _ _ Hs) as (A & B & C & D & E). cbn [fst snd] in *.
  assert ((p, s) ∈ l1 ++ (p, s) :: l2) as Hin by (apply elem_of_app; right; by left).
  split_and!; [done|done|apply (He (p, s)); by left| | |].
  - destruct (last_node_in base l1) as [->|(b & -> & Hb1)%list_elem_of_fmap]; [lia|]. specialize (E b Hb1). destruct (sep_lo _ _ _ A Hb1). unfold HDR in *. lia.
  - intros b Hb1. apply disj_sym. by apply Hd.
  - intros b [Hb1|Hb1]%elem_of_app.
    + specialize (E b Hb1). destruct (sep_lo _ _ _ A Hb1). unfold disj, HDR in *. cbn. split; lia.
    + destruct (sep_lo _ _ _ C Hb1). unfold disj, HDR in *. cbn. split; lia.
Qed.
Lemma take_pair a m : p ≤ a → a + HDR * m ≤ p + HDR * s → ForallOrdPairs disj ((a, m) :: live) ∧ ∀ c, c ∈ l1 ++ l2 → disj (a, m) c.
Proof.
  intros H1 H2. destruct take_facts as (_ & _ & _ & _ & F & G). split; [constructor; [|apply Hi]|].
  - apply Forall_forall. intros b Hb. specialize (F b Hb). unfold disj in *. cbn in *. lia.
  - intros c Hcl. destruct (G c Hcl) as [D _]. unfold disj in *. cbn in *. lia.
Qed.
(** The whole block. *)
Lemma take_all : s = n → heap_inv (set_freep prevp (set_ptr prevp (hptr h p) h)) (l1 ++ l2) ((p, n) :: live).
Proof.
  intros Es. destruct take_facts as (F1 & F2 & F3 & F4 & F5 & F6). destruct (take_pair p n ltac:(lia) ltac:(subst; lia)) as [T1 T2].
  pose proof Hi as [Hb Hc Hs Hfp Hl He Hd Hp Hbr]. clear Hi. subst s. pose proof Hc as Hc'. apply chain_app in Hc' as (C1 & C2 & C3).
  pose proof (nodes_nodup _ Hs) as Hnd. unfold nodes in Hnd. rewrite map_app in Hnd. change (base :: map fst l1 ++ map fst ((p, n) :: l2)) with ((base :: map fst l1) ++ map fst ((p, n) :: l2)) in Hnd.
  apply NoDup_app in Hnd as (N1 & N2 & N3).
  assert (∀ z, z ∈ p :: map fst l2 → z ≠ prevp) as Hne.
  { intros z Hz E. apply (N2 prevp); [destruct (last_node_in base l1) as [->|H]; [by left|by right]|]. rewrite <- E. exact Hz. }
  split; cbn; try done.
  - apply chain_glue.
    + eapply chain_last; [exact C1|done|cbn; rewrite upd_same; by destruct l2; cbn [chain] in C3; tauto|..]; cbn; [|done].
      intros y Hy _. by apply upd_other.
    + destruct l2 as [|c l2']; [done|]. destruct C3 as (_ & C4 & C5). split; [done|]. eapply chain_ext; [| |exact C5]; [|done].
      cbn. intros y Hy. apply upd_other, Hne. right. cbn. destruct Hy as [->|Hy]; [by left|by right].
  - by eapply sep_drop.
  - unfold nodes. rewrite map_app. destruct (last_node_in base l1) as [->|H]; [by left|right; apply elem_of_app; by left].
  - intros b [->|Hb1]%elem_of_cons; [cbn; split_and!; try done; lia|by apply Hl].
  - intros b [Hb1|[->|Hb1]%elem_of_cons]; [apply He; left; apply elem_of_app in Hb1 as [|]; apply elem_of_app; [by left|right; by right]|done|apply He; by right].
  - intros b c [->|Hb1]%elem_of_cons Hcl; [by apply T2|apply Hd; [done|]]. apply elem_of_app in Hcl as [|]; apply elem_of_app; [by left|right; by right].
Qed.
(** The tail of the block. *)
Lemma take_tail : n < s → heap_inv (set_freep prevp (set_size (p + HDR * (s - n)) n (set_size p (s - n) h)))
  (l1 ++ (p, s - n) :: l2) ((p + HDR * (s - n), n) :: live).
Proof.
  intros Hlt. destruct take_facts as (F1 & F2 & F3 & F4 & F5 & F6). set (q := p + HDR * (s - n)).
  assert (q ≠ p) as Hqp by (unfold q, HDR; lia).
  destruct (take_pair q n ltac:(unfold q, HDR in *; lia) ltac:(unfold q, HDR in *; lia)) as [T1 T2].
  pose proof Hi as [Hb Hc Hs Hfp Hl He Hd Hp Hbr]. pose proof Hc as Hc'. apply chain_app in Hc' as (C1 & C2 & C3).
  destruct (sep_app _ _ _ _ Hs) as (S1 & S2 & S3 & S4 & S5). cbn [fst snd] in *.
  assert (∀ z, z ∈ map fst (l1 ++ l2) → z ≠ p ∧ z ≠ q) as Hne.
  { intros z (b & -> & Hb1)%list_elem_of_fmap. destruct (F6 b Hb1) as [D E]. split; [done|].
    assert (0 < b.2) by (apply elem_of_app in Hb1 as [H|H]; [apply (sep_lo _ _ _ S1 H)|apply (sep_lo _ _ _ S3 H)]).
    unfold disj, q, HDR in *. cbn in *. lia. }
  assert (∀ b, b ∈ live → b.1 ≠ p ∧ b.1 ≠ q) as Hnl.
  { intros b Hb1. specialize (F5 b Hb1). destruct (Hl b Hb1) as (_ & _ & ?). unfold disj, q, HDR in *. cbn in *. lia. }
  split; cbn; try done.
  - split; [apply Hb|]. rewrite !upd_other by (unfold q, HDR in *; lia). apply Hb.
  - apply chain_app. cbn. rewrite upd_other, upd_same by done. split; [|split; [done|]].
    + eapply chain_ext; [| |exact C1]; cbn; [done|]. intros y Hy. destruct (Hne y) as [A B]; [rewrite map_app; apply elem_of_app; by left|]. by rewrite !upd_other.
    + eapply chain_ext; [| |exact C3]; cbn; [done|]. intros y Hy. destruct (Hne y) as [A B]; [rewrite map_app; apply elem_of_app; by right|]. by rewrite !upd_other.
  - apply sep_build; cbn; try done; [lia|]. eapply sep_le; [|exact S3]. unfold HDR. lia.
  - unfold nodes. rewrite map_app. destruct (last_node_in base l1) as [->|H]; [by left|right; apply elem_of_app; by left].
  - intros b [->|Hb1]%elem_of_cons; [cbn; rewrite upd_same; unfold q, HDR; split_and!; try done; lia|]. destruct (Hnl b Hb1). rewrite !upd_other by done. by apply Hl.
  - intros b [Hb1|[->|Hb1]%elem_of_cons]; [| |apply He; by right]; [|cbn; unfold q, HDR in *; lia].
    apply elem_of_app in Hb1 as [H|[->|H]%elem_of_cons]; [apply He; left; apply elem_of_app; by left|cbn; unfold HDR in *; lia|apply He; left; apply elem_of_app; right; by right].
  - intros b c Hb1 Hcl. apply elem_of_app in Hcl as [H|[->|H]%elem_of_cons].
    + apply elem_of_cons in Hb1 as [->|Hb1]; [apply T2, elem_of_app; by left|]. apply Hd; [done|apply elem_of_app; by left].
    + apply elem_of_cons in Hb1 as [->|Hb1]; [unfold disj, q, HDR; cbn; lia|]. apply disj_sym. specialize (F5 b Hb1). unfold disj, HDR in *. cbn in *. lia.
    + apply elem_of_cons in Hb1 as [->|Hb1]; [apply T2, elem_of_app; by right|]. apply Hd; [done|apply elem_of_app; right; by right].
Qed.
Lemma take_units_spec : ∃ r h' l', take_units n prevp p h = (r + HDR, h') ∧ base < r ∧ heap_inv h' l' ((r, n) :: live) ∧ brk h' = brk h ∧
  (length l' ≤ S (length (l1 ++ l2)))%nat ∧ (∀ x, covers (l1 ++ (p, s) :: l2) x ↔ covers l' x ∨ inside (r, n) x) ∧
  ∀ y, y ≠ r → y ∉ nodes (l1 ++ (p, s) :: l2) → hptr h' y = hptr h y ∧ hsize h' y = hsize h y.
Proof.
  assert (prevp ∈ nodes (l1 ++ (p, s) :: l2)) as Hpv.
  { unfold nodes. rewrite map_app. destruct (last_node_in base l1) as [->|H]; [by left|right; apply elem_of_app; by left]. }
  assert (p ∈ nodes (l1 ++ (p, s) :: l2)) as Hpn by (right; rewrite map_app; apply elem_of_app; right; by left).
  destruct take_facts as (F1 & F2 & F3 & F4 & F5 & F6). unfold take_units. rewrite F1. destruct (Z.eqb_spec s n) as [E|Hne].
  - eexists p, _, (l1 ++ l2). split; [done|]. split; [done|]. split; [by apply take_all|]. split; [done|]. split; [lia|].
    split; [intros x; by rewrite covers_drop, E|]. intros y Hy Hny. cbn. rewrite upd_other by (by intros ->). done.
  - assert (u32 (s - n) = s - n) as -> by (apply Z.mod_small; pose proof (hi_brk _ _ _ Hi); pose proof (hi_base _ _ _ Hi); unfold HDR in *; lia).
    cbn [hsize set_size]. rewrite upd_same. eexists (p + HDR * (s - n)), _, (l1 ++ (p, s - n) :: l2). split; [done|].
    split; [unfold HDR; lia|]. split; [apply take_tail; lia|]. split; [done|]. split; [rewrite !length_app; simpl; lia|].
    split; [|intros y Hy Hny; cbn; rewrite !upd_other by (done || by intros ->); done].
    intros x. rewrite !covers_drop. enough (inside (p, s) x ↔ inside (p, s - n) x ∨ inside (p + HDR * (s - n), n) x) by tauto.
    unfold inside, HDR. cbn. lia.
Qed.
End Take.

(** ** Looking for a block *)
Lemma chain_at h x l1 l2 e : chain h x (l1 ++ l2) e → hptr h (last_node x l1) = match l2 with [] => e | c :: _ => c.1 end.
Proof.
  revert x. induction l1 as [|b l1 IH]; intros x; cbn [app last_node]; [by destruct l2; cbn [chain]; [|intros (? & _)]|].
  intros (_ & _ & C). by apply IH.
Qed.
Lemma nodes_split l x : x ∈ nodes l → ∃ la lb, l = la ++ lb ∧ x = last_node base la.
Proof.
  intros [->|(b & -> & Hb)%list_elem_of_fmap]%elem_of_cons; [by exists [], l|].
  apply list_elem_of_split in Hb as (l1 & l2 & ->). exists (l1 ++ [b]), l2. split; [by rewrite <- app_assoc|by rewrite last_node_snoc].
Qed.

Section Walk.
Context (grows : Z → Z → bool).
Context (h : heap) (l live : list (Z * Z)) (n : Z) (Hi : heap_inv h l live) (Hn : 0 < n).
(** A block that fits, with the node before it. *)
Definition fits (l1 : list (Z * Z)) (p s : Z) (l2 : list (Z * Z)) : Prop := l = l1 ++ (p, s) :: l2 ∧ n ≤ s.
Definition taken (r : option (Z * heap)) : Prop :=
  ∃ l1 p s l2, fits l1 p s l2 ∧ r = Some (take_units n (last_node base l1) p h).

(** A stretch of the list that does not meet [freep]. *)
Lemma walk_part fuel la lb lc : l = la ++ lb ++ lc → freep h ∉ map fst lb →
  let go fuel l1 := malloc_loop grows fuel n (last_node base l1) (hptr h (last_node base l1)) h in
  taken (go (length lb + fuel)%nat la) ∨ (∀ b, b ∈ lb → b.2 < n) ∧ go (length lb + fuel)%nat la = go fuel (la ++ lb).
Proof.
  intros El Hf go. revert la El. induction lb as [|[p s] lb IH]; intros la El; [right; split; [by intros b Hb%elem_of_nil|by rewrite app_nil_r]|].
  pose proof (hi_chain _ _ _ Hi) as Hc. rewrite El in Hc. pose proof (chain_at _ _ _ _ _ Hc) as Hp. cbn [app fst] in Hp.
  apply chain_app in Hc as (_ & Hsz & _). cbn [map fst] in Hf. apply not_elem_of_cons in Hf as [Hf1 Hf2].
  assert (go (length ((p, s) :: lb) + fuel)%nat la = if n <=? s then Some (take_units n (last_node base la) p h) else go (length lb + fuel)%nat (la ++ [(p, s)])) as E.
  { unfold go at 1. cbn [length Nat.add malloc_loop]. rewrite Hp, Hsz. destruct (n <=? s); [done|]. rewrite (proj2 (Z.eqb_neq p (freep h))) by congruence.
    unfold go. by rewrite last_node_snoc. }
  rewrite E. destruct (Z.leb_spec n s) as [Hle|Hgt]; [left; exists la, p, s, (lb ++ lc); split; [split; [exact El|done]|done]|].
  destruct (IH Hf2 (la ++ [(p, s)])) as [Ht|[Hall Heq]]; [by rewrite El, <- app_assoc|by left|right]. split.
  - intros b [->|Hb]%elem_of_cons; [done|by apply Hall].
  - rewrite Heq, <- app_assoc. done.
Qed.
(** Once around from [freep]: the block that fits, or [morecore]. *)
Lemma walk_ring fuel : let r := malloc_loop grows (S (length l) + fuel) n (freep h) (hptr h (freep h)) h in
  taken r ∨ (∀ b, b ∈ l → b.2 < n) ∧ r = match morecore grows fuel n h with
    | None => None
    | Some (q, h) => if q =? 0 then Some (0, h) else malloc_loop grows fuel n q (hptr h q) h
    end.
Proof.
  destruct (nodes_split _ _ (hi_freep _ _ _ Hi)) as (la & lc & El & Ef). intros r.
  pose proof (nodes_nodup _ (hi_sep _ _ _ Hi)) as Hnd. pose proof (hi_chain _ _ _ Hi) as Hc. destruct (hi_base _ _ _ Hi) as [_ Hb0].
  assert (freep h ∉ map fst lc) as Hnc.
  { rewrite El in Hnd. unfold nodes in Hnd. rewrite map_app, app_comm_cons in Hnd. apply NoDup_app in Hnd as (_ & Hnd & _). apply Hnd. rewrite Ef.
    destruct (last_node_in base la) as [->|H]; [by left|by right]. }
  assert (hptr h (last_node base l) = base) as Hend by (apply (chain_at h base l [] base); by rewrite app_nil_r).
  destruct (walk_part (S (length la) + fuel) la lc []) as [Ht|[Hall Heq]]; [by rewrite app_nil_r|done| |].
  { left. unfold r. rewrite El, length_app, Ef. by replace (S (length la + length lc) + fuel)%nat with (length lc + (S (length la) + fuel))%nat by lia. }
  assert (r = malloc_loop grows (S (length la + fuel)) n (last_node base l) base h) as Er.
  { unfold r. rewrite <- El, Hend in Heq. rewrite El at 1. rewrite length_app, Ef. replace (S (length la + length lc) + fuel)%nat with (length lc + (S (length la) + fuel))%nat by lia. exact Heq. }
  clear Heq. clearbody r. subst r. cbn [malloc_loop]. rewrite Hb0, (proj2 (Z.leb_gt n 0)) by done.
  destruct (decide (la = [])) as [->|Hne].
  { rewrite Ef, Z.eqb_refl. right. split; [by rewrite El|done]. }
  destruct (exists_last Hne) as (la' & [f s] & Ela). subst la. rewrite last_node_snoc in Ef. cbn [fst] in Ef.
  rewrite (proj2 (Z.eqb_neq base (freep h))).
  2: { intros E. unfold nodes in Hnd. apply NoDup_cons in Hnd as [Hnd _]. apply Hnd. rewrite E, Ef, El, !map_app. apply elem_of_app. left. apply elem_of_app. right. by left. }
  rewrite <- app_assoc in El. cbn [app] in El.
  destruct (walk_part (S fuel) [] la' ((f, s) :: lc)) as [Ht|[Hall2 Heq]]; [done| | |].
  { rewrite Ef. rewrite El in Hnd. apply NoDup_cons in Hnd as [_ Hnd]. rewrite map_app in Hnd. apply NoDup_app in Hnd as (_ & Hnd & _).
    intros Hin. apply (Hnd f Hin). by left. }
  { left. rewrite length_app. cbn [length]. replace (length la' + 1 + fuel)%nat with (length la' + S fuel)%nat by lia. exact Ht. }
  rewrite length_app. cbn [length]. replace (length la' + 1 + fuel)%nat with (length la' + S fuel)%nat by lia.
  cbn [last_node app] in Heq. rewrite Heq. clear Heq. rewrite El in Hc. rewrite (chain_at _ _ _ _ _ Hc). cbn [fst malloc_loop].
  apply chain_app in Hc as (_ & -> & _). destruct (Z.leb_spec n s) as [Hle|Hgt]; [left; by exists la', f, s, lc|].
  rewrite <- Ef, Z.eqb_refl. right. split; [|done]. intros b. rewrite El. intros [Hb|[->|Hb]%elem_of_cons]%elem_of_app; [by apply Hall2|done|by apply Hall].
Qed.
End Walk.

(** ** malloc and free *)
(** The allocator writes no word inside the blocks in use. *)
Definition untouched (live : list (Z * Z)) (h h' : heap) : Prop :=
  ∀ b y, b ∈ live → inside b y → hptr h' y = hptr h y ∧ hsize h' y = hsize h y.
Lemma inside_not_node h l live b y : heap_inv h l live → b ∈ live → inside b y → y ∉ nodes l.
Proof.
  intros Hi Hb Hy [E|(c & E & Hc)%list_elem_of_fmap]%elem_of_cons; unfold inside in *.
  - destruct (hi_live _ _ _ Hi b Hb) as (_ & ? & _). lia.
  - destruct (sep_lo _ _ _ (hi_sep _ _ _ Hi) Hc). destruct (hi_disj _ _ _ Hi b c Hb Hc); unfold HDR in *; lia.
Qed.
Lemma inside_apart h l live a s b y : heap_inv h l ((a, s) :: live) → b ∈ live → inside b y → y ≠ a.
Proof.
  intros Hi Hb Hy ->. destruct (hi_live _ _ _ Hi (a, s) ltac:(by left)) as (_ & _ & Hs). pose proof (hi_pair _ _ _ Hi) as Hp.
  inversion Hp as [|x z HF _ Ex]; subst. apply (proj1 (Forall_forall _ _) HF) in Hb. unfold disj, inside, HDR in *. cbn in *. lia.
Qed.
Lemma untouched_trans live h1 h2 h3 : untouched live h1 h2 → untouched live h2 h3 → untouched live h1 h3.
Proof. intros H1 H2 b y Hb Hy. destruct (H1 b y Hb Hy), (H2 b y Hb Hy). split; congruence. Qed.

(** What [malloc] starts from: the allocator's state, or the zeroed [freep]. *)
Definition ready (h : heap) (l live : list (Z * Z)) : Prop :=
  heap_inv h l live ∨ freep h = 0 ∧ l = [] ∧ live = [] ∧ 0 < base < brk h ∧ brk h < 2 ^ 32.
Definition init (h : heap) : heap := if freep h =? 0 then set_size base 0 (set_freep base (set_ptr base base h)) else h.
Lemma init_spec h l live : ready h l live → heap_inv (init h) l live ∧ brk (init h) = brk h ∧ untouched live h (init h).
Proof.
  intros [Hi|(Hf & -> & -> & Hb & Hk)]; unfold init.
  - rewrite (proj2 (Z.eqb_neq (freep h) 0)); [done|]. destruct (hi_base _ _ _ Hi); pose proof (hi_freep _ _ _ Hi) as [E|(b & E & Hb)%list_elem_of_fmap]%elem_of_cons; [lia|].
    destruct (sep_lo _ _ _ (hi_sep _ _ _ Hi) Hb). lia.
  - rewrite Hf, Z.eqb_refl. split; [|split; [done|by intros b y Hb2%elem_of_nil]]. split; cbn.
    + rewrite upd_same. split; [lia|done].
    + by rewrite upd_same.
    + done.
    + by left.
    + by intros b Hb2%elem_of_nil.
    + by intros b [Hb2%elem_of_nil|Hb2%elem_of_nil].
    + by intros b c Hb2%elem_of_nil.
    + constructor.
    + lia.
Qed.

Lemma pairs_perm l l' : l ≡ₚ l' → ForallOrdPairs disj l → ForallOrdPairs disj l'.
Proof.
  induction 1 as [|b l l' Hp IH|b c l|l1 l2 l3 _ IH1 _ IH2]; [done| | |by auto].
  - intros H. inversion H; subst. constructor; [by rewrite <- Hp|by apply IH].
  - intros H. inversion H as [|x y HF1 HO]; subst. inversion HO as [|x y HF2 HO2]; subst. apply Forall_cons in HF1 as [Hd HF1].
    constructor; [apply Forall_cons; split; [by apply disj_sym|done]|by constructor].
Qed.
Lemma heap_inv_perm h l live live' : live ≡ₚ live' → heap_inv h l live → heap_inv h l live'.
Proof.
  intros Hp [A B C D E F G H I]. split; try done; [..|by eapply pairs_perm].
  - intros b Hb. apply E. by rewrite Hp.
  - intros b Hb. apply F. by rewrite Hp.
  - intros b c Hb. apply G. by rewrite Hp.
Qed.

Section Malloc.
Context (grows : Z → Z → bool).
(** The kernel grants no [sbrk] past 4 GiB (its user space ends at [MAXUVA]). *)
Hypothesis grows_bounded : ∀ b n, grows b n = true → b + n < 2 ^ 32.

Lemma core_block h l live nu : heap_inv h l live → 0 < nu → HDR * nu < 2 ^ 31 → grows (brk h) (HDR * nu) = true →
  heap_inv (set_size (brk h) nu (set_brk (brk h + HDR * nu) h)) l ((brk h, nu) :: live).
Proof.
  intros Hi Hnu Hsm Hg. pose proof (grows_bounded _ _ Hg) as Hlt. destruct Hi as [[Hb0 Hbs] Hc Hs Hfp Hl He Hd Hp Hbr].
  assert (∀ b, b ∈ l ∨ b ∈ live → b.1 < brk h) as Hlow.
  { intros b Hb. pose proof (He b Hb). enough (0 < b.2) by (unfold HDR in *; lia). destruct Hb as [Hb|Hb]; [apply (sep_lo _ _ _ Hs Hb)|apply (Hl b Hb)]. }
  split; cbn; try done.
  - split; [done|]. rewrite upd_other by lia. done.
  - eapply chain_ext; [| |exact Hc]; [done|]. cbn. intros y (b & -> & Hb)%list_elem_of_fmap. apply upd_other. pose proof (Hlow b ltac:(by left)). lia.
  - intros b [->|Hb]%elem_of_cons; [cbn; rewrite upd_same; split_and!; [done|lia|done]|]. rewrite upd_other by (pose proof (Hlow b ltac:(by right)); lia). by apply Hl.
  - intros b [Hb|[->|Hb]%elem_of_cons]; [|cbn; lia|]; [pose proof (He b ltac:(by left))|pose proof (He b ltac:(by right))]; unfold HDR in *; lia.
  - intros b c [->|Hb]%elem_of_cons Hcl; [right; cbn; apply He; by left|by apply Hd].
  - constructor; [|done]. apply Forall_forall. intros b Hb. right. cbn. apply He. by right.
  - unfold HDR in *. lia.
Qed.
Definition core_units (n : Z) : Z := if n <? 4096 then 4096 else n.
Lemma morecore_spec fuel h l live n : heap_inv h l live → 0 < n → HDR * n < 2 ^ 31 → (S (length l) < fuel)%nat →
  if grows (brk h) (HDR * core_units n)
  then ∃ q h' l', morecore grows fuel n h = Some (q, h') ∧ q = freep h' ∧ 0 < q ∧ heap_inv h' l' live ∧ brk h' = brk h + HDR * core_units n ∧
    (length l' ≤ S (length l))%nat ∧ (∃ b, b ∈ l' ∧ n ≤ b.2) ∧ untouched live h h'
  else morecore grows fuel n h = Some (0, h).
Proof.
  intros Hi Hn Hsm Hf. unfold morecore, sbrk. fold (core_units n). set (nu := core_units n).
  assert (0 < nu ∧ n ≤ nu ∧ HDR * nu < 2 ^ 31) as (Hnu & Hle & Hs2) by (unfold nu, core_units, HDR in *; destruct (Z.ltb_spec n 4096); lia).
  rewrite (Z.mul_comm nu), i32_small by (unfold HDR in *; lia). destruct (grows (brk h) (HDR * nu)) eqn:Hg; [|done].
  rewrite (proj2 (Z.eqb_neq (brk h) (-1))) by (destruct (hi_brk _ _ _ Hi), (hi_base _ _ _ Hi); lia).
  pose proof (core_block h l live nu Hi Hnu Hs2 Hg) as Hi2.
  destruct (free_spec fuel _ _ _ _ _ Hi2 Hf) as (h' & l' & -> & Hi' & Hlen & Hbrk & _ & (b & Hb & Hbs) & Hun).
  exists (freep h'), h', l'. split_and!; try done.
  - destruct (hi_base _ _ _ Hi'). pose proof (hi_freep _ _ _ Hi') as [->|(c & -> & Hc)%list_elem_of_fmap]%elem_of_cons; [done|].
    destruct (sep_lo _ _ _ (hi_sep _ _ _ Hi') Hc). lia.
  - exists b. split; [done|lia].
  - intros c y Hc Hy. pose proof (inside_apart _ _ _ _ _ c y Hi2 Hc Hy) as Hny.
    destruct (Hun y Hny) as [-> ->]; [by eapply (inside_not_node _ _ _ c y Hi2); [by right|done]|]. cbn. by rewrite upd_other.
Qed.

Lemma units_spec nbytes : 0 ≤ nbytes < 2 ^ 31 - 32 → 0 < units nbytes ∧ nbytes ≤ HDR * (units nbytes - 1) < nbytes + HDR ∧ HDR * units nbytes < 2 ^ 31.
Proof.
  intros Hb. assert (units nbytes = (nbytes + 15) / 16 + 1) as ->.
  { unfold units, HDR. replace (nbytes + 16 - 1) with (nbytes + 15) by lia. apply Z.mod_small. Z.to_euclidean_division_equations. lia. }
  unfold HDR. Z.to_euclidean_division_equations. lia.
Qed.

(** What a successful [malloc] gives. *)
Definition granted (h h' : heap) (live : list (Z * Z)) (n r : Z) : Prop :=
  base < r - HDR ∧ (∃ l', heap_inv h' l' ((r - HDR, n) :: live)) ∧ untouched live h h'.
Lemma taken_granted h l live n r : heap_inv h l live → 0 < n → taken h l n r → ∃ q h', r = Some (q, h') ∧ granted h h' live n q ∧ brk h' = brk h.
Proof.
  intros Hi Hn (l1 & p & s & l2 & [-> Hs] & ->).
  destruct (take_units_spec h l1 l2 live p s n Hi ltac:(lia)) as (q & h' & l' & -> & Hq & Hi' & Hbrk & _ & _ & Hun).
  exists (q + HDR), h'. split; [done|]. unfold granted. rewrite Z.add_simpl_r. split; [|done]. split; [done|]. split; [by exists l'|].
  intros b y Hb Hy. apply Hun; [by eapply inside_apart|by eapply inside_not_node].
Qed.
Lemma malloc_spec fuel nbytes h l live : ready h l live → 0 ≤ nbytes < 2 ^ 31 - 32 → (2 * length l + 5 < fuel)%nat →
  let n := units nbytes in
  ∃ r h', malloc grows fuel nbytes h = Some (r, h') ∧
    ((∃ b, b ∈ l ∧ n ≤ b.2) → granted h h' live n r ∧ brk h' = brk h) ∧
    ((∀ b, b ∈ l → b.2 < n) →
      if grows (brk h) (HDR * core_units n) then granted h h' live n r ∧ brk h' = brk h + HDR * core_units n
      else r = 0 ∧ heap_inv h' l live ∧ untouched live h h' ∧ brk h' = brk h).
Proof.
  intros Hr Hb Hf n. destruct (units_spec nbytes Hb) as (Hn & _ & Hsm). fold n in Hn, Hsm.
  destruct (init_spec h l live Hr) as (Hi & Hbrk & Hu). unfold malloc. fold (init h) n. set (h0 := init h) in *. clearbody h0.
  assert (∀ h' r, granted h0 h' live n r → granted h h' live n r) as Hgr.
  { intros h' r (A & B & C). split; [done|]. split; [done|]. by eapply untouched_trans. }
  replace fuel with (S (length l) + (fuel - S (length l)))%nat by lia. set (fuel' := (fuel - S (length l))%nat).
  destruct (walk_ring grows h0 l live n Hi Hn fuel') as [Ht|[Hall ->]].
  - destruct (taken_granted _ _ _ _ _ Hi Hn Ht) as (q & h' & -> & Hg & Hk). exists q, h'. split; [done|]. split; [intros _; split; [by apply Hgr|congruence]|].
    intros Hall. exfalso. destruct Ht as (l1 & p & s & l2 & [-> Hs] & _). specialize (Hall (p, s)). cbn in Hall. enough (s < n) by lia. apply Hall, elem_of_app. right. by left.
  - pose proof (morecore_spec fuel' h0 l live n Hi Hn Hsm ltac:(unfold fuel'; lia)) as Hm. rewrite Hbrk in Hm.
    destruct (grows (brk h) (HDR * core_units n)) eqn:Hg.
    + destruct Hm as (q & h1 & l' & -> & Eq & Hq & Hi1 & Hk1 & Hlen & Hfit & Hu1). rewrite (proj2 (Z.eqb_neq q 0)) by lia. rewrite Eq.
      replace fuel' with (S (length l') + (fuel' - S (length l')))%nat by (unfold fuel'; lia).
      destruct (walk_ring grows h1 l' live n Hi1 Hn (fuel' - S (length l'))) as [Ht|[Hall' _]].
      * destruct (taken_granted _ _ _ _ _ Hi1 Hn Ht) as (r & h' & -> & (A & B & C) & Hk). exists r, h'. split; [done|]. split.
        { intros (b & Hb1 & Hb2). specialize (Hall b Hb1). lia. }
        intros _. split; [|lia]. apply Hgr. split; [done|]. split; [done|]. by eapply untouched_trans.
      * exfalso. destruct Hfit as (b & Hb1 & Hb2). specialize (Hall' b Hb1). lia.
    + rewrite Hm, Z.eqb_refl. exists 0, h0. split; [done|]. split; [|done]. intros (b & Hb1 & Hb2). specialize (Hall b Hb1). lia.
Qed.

(** ** Fuel, and sequences of calls *)
Lemma free_find_more fuel fuel' h bp p q : free_find fuel h bp p = Some q → (fuel ≤ fuel')%nat → free_find fuel' h bp p = Some q.
Proof.
  revert fuel' p. induction fuel as [|fuel IH]; intros [|fuel'] p; cbn [free_find]; try done; [lia|].
  destruct (free_here h bp p); [done|]. intros H Hle. apply IH; [done|lia].
Qed.
Lemma free_more fuel fuel' ap h h' : free fuel ap h = Some h' → (fuel ≤ fuel')%nat → free fuel' ap h = Some h'.
Proof.
  unfold free. destruct (free_find fuel h (ap - HDR) (freep h)) as [p|] eqn:E; [|done]. intros H Hle. by rewrite (free_find_more _ _ _ _ _ _ E Hle).
Qed.
Lemma morecore_more fuel fuel' nu h r : morecore grows fuel nu h = Some r → (fuel ≤ fuel')%nat → morecore grows fuel' nu h = Some r.
Proof.
  unfold morecore. destruct (sbrk grows _ h) as [p h1]. destruct (p =? -1); [done|]. destruct (free fuel _ _) as [h2|] eqn:E; [|done].
  intros H Hle. by rewrite (free_more _ _ _ _ _ E Hle).
Qed.
Lemma malloc_loop_more fuel fuel' n prevp p h r : malloc_loop grows fuel n prevp p h = Some r → (fuel ≤ fuel')%nat → malloc_loop grows fuel' n prevp p h = Some r.
Proof.
  revert fuel' prevp p h. induction fuel as [|fuel IH]; intros [|fuel'] prevp p h; cbn [malloc_loop]; try done; [lia|].
  destruct (n <=? hsize h p); [done|]. destruct (p =? freep h); [|intros H Hle; apply IH; [done|lia]].
  destruct (morecore grows fuel n h) as [[q h1]|] eqn:E; [|done]. intros H Hle. rewrite (morecore_more _ fuel' _ _ _ E) by lia.
  destruct (q =? 0); [done|]. apply IH; [done|lia].
Qed.

(** A program's calls, with the blocks it holds: it frees only those. *)
Inductive ustep : heap * list (Z * Z) → heap * list (Z * Z) → Prop :=
  | ustep_malloc fuel nbytes h live r h' : 0 ≤ nbytes < 2 ^ 31 - 32 → malloc grows fuel nbytes h = Some (r, h') →
      ustep (h, live) (h', if r =? 0 then live else (r - HDR, units nbytes) :: live)
  | ustep_free fuel h live1 b live2 h' : free fuel (b.1 + HDR) h = Some h' → ustep (h, live1 ++ b :: live2) (h', live1 ++ live2).

Lemma granted_ready h h' live n r : granted h h' live n r → 0 < base → r ≠ 0 ∧ ∃ l', ready h' l' ((r - HDR, n) :: live).
Proof. intros (A & (l' & B) & _) Hb. split; [unfold HDR in *; lia|]. exists l'. by left. Qed.
Lemma ready_base h l live : ready h l live → 0 < base.
Proof. intros [Hi|(_ & _ & _ & Hb & _)]; [apply Hi|lia]. Qed.
Lemma malloc_step h l live nbytes fuel r h' : ready h l live → 0 ≤ nbytes < 2 ^ 31 - 32 → malloc grows fuel nbytes h = Some (r, h') →
  ∃ l', ready h' l' (if r =? 0 then live else (r - HDR, units nbytes) :: live).
Proof.
  intros Hr Hb Hm. pose proof (ready_base _ _ _ Hr) as Hb0.
  destruct (malloc_spec (Nat.max fuel (2 * length l + 6)) nbytes h l live Hr Hb ltac:(lia)) as (r2 & h2 & Hm2 & H1 & H2).
  unfold malloc in Hm. apply (malloc_loop_more _ (Nat.max fuel (2 * length l + 6))) in Hm; [|lia]. unfold malloc in Hm2. rewrite Hm in Hm2. injection Hm2 as <- <-.
  assert ((∃ b, b ∈ l ∧ units nbytes ≤ b.2) ∨ ∀ b, b ∈ l → b.2 < units nbytes) as [Hfit|Hall].
  { destruct (decide (Exists (λ b : Z * Z, units nbytes ≤ b.2) l)) as [Hx|Hx]; [left; by apply Exists_exists|right].
    intros b Hb2. apply Z.nle_gt. intros Hle. apply Hx, Exists_exists. by exists b. }
  - destruct (granted_ready _ _ _ _ _ (proj1 (H1 Hfit)) Hb0) as [Hr0 Hl]. by rewrite (proj2 (Z.eqb_neq r 0)).
  - specialize (H2 Hall). destruct (grows _ _).
    + destruct (granted_ready _ _ _ _ _ (proj1 H2) Hb0) as [Hr0 Hl]. by rewrite (proj2 (Z.eqb_neq r 0)).
    + destruct H2 as (-> & Hi & _). exists l. by left.
Qed.
Lemma free_step fuel h l live1 b live2 h' : ready h l (live1 ++ b :: live2) → free fuel (b.1 + HDR) h = Some h' → ∃ l', ready h' l' (live1 ++ live2).
Proof.
  intros [Hi|(_ & _ & E & _)] Hf; [|by destruct live1]. destruct b as [a s].
  apply (heap_inv_perm _ _ _ ((a, s) :: live1 ++ live2)) in Hi; [|by rewrite Permutation_middle].
  destruct (free_spec (Nat.max fuel (2 + length l)) _ _ _ _ _ Hi ltac:(lia)) as (h2 & l' & Hf2 & Hi' & _).
  apply (free_more _ (Nat.max fuel (2 + length l))) in Hf; [|lia]. exists l'. left. cbn [fst] in Hf. congruence.
Qed.
Lemma reachable_ready h l live s' : ready h l live → rtc ustep (h, live) s' → ∃ l', ready s'.1 l' s'.2.
Proof.
  intros Hr H. remember (h, live) as s0 eqn:E0. revert h l live Hr E0. induction H as [s|s s1 s2 Hst _ IH]; intros h l live Hr ->; [by exists l|].
  inversion Hst; subst.
  - destruct (malloc_step _ _ _ _ _ _ _ Hr ltac:(eassumption) ltac:(eassumption)) as [l' Hr']. by eapply IH.
  - destruct (free_step _ _ _ _ _ _ _ Hr ltac:(eassumption)) as [l' Hr']. by eapply IH.
Qed.
End Malloc.
End Umalloc.

(** for every request below 2 GiB, [malloc] returns.  If a free block is large
    enough it does not call [sbrk]; otherwise it asks for at least 4096 units, and
    returns 0 only when that is refused, leaving the free list as it was.  The block
    has room for the bytes asked for behind its header, carries its size, lies apart
    from every block in use and every free block, and no word of a block in use is
    written. *)
Theorem malloc_correct base grows fuel nbytes h l live : (∀ b n, grows b n = true → b + n < 2 ^ 32) →
  ready base h l live → 0 ≤ nbytes < 2 ^ 31 - 32 → (2 * length l + 5 < fuel)%nat →
  let n := units nbytes in
  nbytes ≤ HDR * (n - 1) < nbytes + HDR ∧
  ∃ r h', malloc base grows fuel nbytes h = Some (r, h') ∧
    ((∃ b, b ∈ l ∧ n ≤ b.2) → granted base h h' live n r ∧ brk h' = brk h) ∧
    ((∀ b, b ∈ l → b.2 < n) →
      if grows (brk h) (HDR * core_units n) then granted base h h' live n r ∧ brk h' = brk h + HDR * core_units n
      else r = 0 ∧ heap_inv base h' l live ∧ untouched live h h' ∧ brk h' = brk h).
Proof. intros Hg Hr Hb Hf n. split; [apply (units_spec nbytes Hb)|by apply malloc_spec]. Qed.

(** [free] of a block in use returns, with the block joined to its neighbours in
    an address-ordered free list: exactly its bytes become free, it is no longer in
    use, the other blocks stay as they are and are not written. *)
Theorem free_correct base fuel h l bp s live1 live2 : heap_inv base h l (live1 ++ (bp, s) :: live2) → (S (length l) < fuel)%nat →
  ∃ h' l', free fuel (bp + HDR) h = Some h' ∧ heap_inv base h' l' (live1 ++ live2) ∧ brk h' = brk h ∧
    (∀ x, covers l' x ↔ covers l x ∨ inside (bp, s) x) ∧ untouched (live1 ++ live2) h h'.
Proof.
  intros Hi Hf. assert (heap_inv base h l ((bp, s) :: live1 ++ live2)) as Hi2 by (eapply heap_inv_perm; [|exact Hi]; by rewrite Permutation_middle); clear Hi; rename Hi2 into Hi.
  destruct (free_spec base fuel _ _ _ _ _ Hi Hf) as (h' & l' & E & Hi' & _ & Hk & Hc & _ & Hu). exists h', l'. split_and!; try done.
  intros b y Hb Hy. apply Hu; [by eapply inside_apart|]. eapply (inside_not_node base _ _ _ b y Hi); [by right|done].
Qed.


(** ** Runs *)
Definition start_heap : heap := Heap (λ _, 0) (λ _, 0) 0 65536.
Definition grows_1m (b n : Z) : bool := (b + n <? 1048576).
Definition run3 : option (Z * Z * Z * heap) :=
  match malloc 4096 grows_1m 20 100 start_heap with
  | Some (a, h) => match malloc 4096 grows_1m 20 5 h with
    | Some (b, h) => match free 20 a h with
      | Some h => match malloc 4096 grows_1m 20 90 h with Some (c, h) => Some (a, b, c, h) | None => None end
      | None => None end
    | None => None end
  | None => None
  end.
(** The tail of a new 64 KiB block, the units below it, and the tail of the freed block. *)
Example run3_blocks : (λ '(a, b, c, _), (a, b, c)) <$> run3 = Some (130960, 130928, 130976).
Proof. vm_compute. reflexivity. Qed.
Example refused_request : fst <$> malloc 4096 grows_1m 20 2000000 start_heap = Some 0.
Proof. vm_compute. reflexivity. Qed.
(** After the first call: one free block, one in use. *)
Definition after_one : heap :=
  match malloc 4096 grows_1m 20 100 start_heap with Some (_, h) => h | None => start_heap end.
Lemma grows_1m_bounded b n : grows_1m b n = true → b + n < 2 ^ 32.
Proof. unfold grows_1m. intros H%Z.ltb_lt. lia. Qed.
Lemma after_one_inv : heap_inv 4096 after_one [(65536, 4088)] [(130944, 8)].
Proof.
  split; try done.
  - vm_compute. set_solver.
  - intros b ->%list_elem_of_singleton. done.
  - intros b [Hq%list_elem_of_singleton|Hq%list_elem_of_singleton]; subst b; vm_compute; congruence.
  - intros b c Hb%list_elem_of_singleton Hc%list_elem_of_singleton. subst b c. right. vm_compute. congruence.
  - repeat constructor.
Qed.

Lemma malloc_correct_witness :
  let n := units 100 in
  100 ≤ HDR * (n - 1) < 100 + HDR ∧
  ∃ r h', malloc 4096 grows_1m 20 100 start_heap = Some (r, h') ∧
    ((∃ b : Z * Z, b ∈ [] ∧ n ≤ b.2) → granted 4096 start_heap h' [] n r ∧ brk h' = brk start_heap) ∧
    ((∀ b : Z * Z, b ∈ [] → b.2 < n) →
      if grows_1m (brk start_heap) (HDR * core_units n) then granted 4096 start_heap h' [] n r ∧ brk h' = brk start_heap + HDR * core_units n
      else r = 0 ∧ heap_inv 4096 h' [] [] ∧ untouched [] start_heap h' ∧ brk h' = brk start_heap).
Proof.
  apply (malloc_correct 4096 grows_1m 20 100 start_heap [] []); [exact grows_1m_bounded| |lia|cbn; lia].
  right. split_and!; try done.
Defined.
Lemma free_correct_witness : ∃ h' l', free 20 (130944 + HDR) after_one = Some h' ∧ heap_inv 4096 h' l' ([] ++ []) ∧ brk h' = brk after_one ∧
    (∀ x, covers l' x ↔ covers [(65536, 4088)] x ∨ inside (130944, 8) x) ∧ untouched ([] ++ []) after_one h'.
Proof. apply (free_correct 4096 20 after_one [(65536, 4088)] 130944 8 [] []); [exact after_one_inv|cbn; lia]. Defined.
