(* ===== verification/Virtio.v ===== *)
(** * The virtio disk driver (kernel/virtio_disk.c)

    Requests are chains of three descriptors in a table of [NUM] shared with the
    device; the device takes the heads of chains from the available ring and
    returns them through the used ring, and [virtio_disk_intr] hands the results
    to the processes that sleep in [virtio_disk_rw].

    The spin lock [vdisk_lock] makes the driver's code between two sleeps one step.
    A process is named by the buffer it transfers: it holds that buffer's lock, so
    it is the only one to do so.  An address in a descriptor is named by what it
    points to.  The device is the environment: it fetches heads in ring order and
    completes the fetched requests in any order, as the virtio specification says. *)
From stdpp Require Import prelude list strings.
From Stdlib Require Import ZArith Lia.
From S2P Require Import Prelude.
Open Scope Z_scope.

Definition NUM : Z := 8.
Definition VRING_DESC_F_NEXT : Z := 1.
Definition VRING_DESC_F_WRITE : Z := 2.
Definition VIRTIO_BLK_T_IN : Z := 0.
Definition VIRTIO_BLK_T_OUT : Z := 1.

(** [buf0] of the process transferring [b], the data of [b], the status byte of
    [info[i]]. *)
Inductive dma := ANull | AHdr (b : Z) | AData (b : Z) | AStatus (i : Z).
Record VRingDesc := Desc { addr : dma; len : Z; flags : Z; next : Z }.
Record virtio_blk_outhdr := Outhdr { req_type : Z; req_reserved : Z; req_sector : Z }.

(** Where a process is in [virtio_disk_rw]: outside, in the first loop or in the
    second; the flag says that it sleeps. *)
Inductive phase := Out | WaitDesc (write asleep : bool) | WaitIO (write : bool) (idx0 : Z) (asleep : bool).

Record vdisk := VD {
  desc : Z → VRingDesc; avail_idx : Z; avail : Z → Z; used_id : Z; used_elems : Z → Z;
  dfree : Z → bool; used_idx : Z; info_b : Z → option Z; info_status : Z → Z;
  b_disk : Z → Z; b_data : Z → list Z; b_sector : Z → Z; outhdr : Z → virtio_blk_outhdr;
  at_ : Z → phase;
  media : Z → list Z; seen : Z; taken : list Z; xfers : Z → list (bool * Z); entry : Z → list Z * list Z }.

Definition set_desc (i : Z) (d : VRingDesc) (s : vdisk) : vdisk :=
  VD (upd (desc s) i d) (avail_idx s) (avail s) (used_id s) (used_elems s) (dfree s) (used_idx s) (info_b s) (info_status s)
    (b_disk s) (b_data s) (b_sector s) (outhdr s) (at_ s) (media s) (seen s) (taken s) (xfers s) (entry s).
Definition set_free (i : Z) (v : bool) (s : vdisk) : vdisk :=
  VD (desc s) (avail_idx s) (avail s) (used_id s) (used_elems s) (upd (dfree s) i v) (used_idx s) (info_b s) (info_status s)
    (b_disk s) (b_data s) (b_sector s) (outhdr s) (at_ s) (media s) (seen s) (taken s) (xfers s) (entry s).
Definition set_info_b (i : Z) (v : option Z) (s : vdisk) : vdisk :=
  VD (desc s) (avail_idx s) (avail s) (used_id s) (used_elems s) (dfree s) (used_idx s) (upd (info_b s) i v) (info_status s)
    (b_disk s) (b_data s) (b_sector s) (outhdr s) (at_ s) (media s) (seen s) (taken s) (xfers s) (entry s).
Definition set_status (i : Z) (v : Z) (s : vdisk) : vdisk :=
  VD (desc s) (avail_idx s) (avail s) (used_id s) (used_elems s) (dfree s) (used_idx s) (info_b s) (upd (info_status s) i v)
    (b_disk s) (b_data s) (b_sector s) (outhdr s) (at_ s) (media s) (seen s) (taken s) (xfers s) (entry s).
Definition set_b_disk (b v : Z) (s : vdisk) : vdisk :=
  VD (desc s) (avail_idx s) (avail s) (used_id s) (used_elems s) (dfree s) (used_idx s) (info_b s) (info_status s)
    (upd (b_disk s) b v) (b_data s) (b_sector s) (outhdr s) (at_ s) (media s) (seen s) (taken s) (xfers s) (entry s).
Definition set_outhdr (b : Z) (v : virtio_blk_outhdr) (s : vdisk) : vdisk :=
  VD (desc s) (avail_idx s) (avail s) (used_id s) (used_elems s) (dfree s) (used_idx s) (info_b s) (info_status s)
    (b_disk s) (b_data s) (b_sector s) (upd (outhdr s) b v) (at_ s) (media s) (seen s) (taken s) (xfers s) (entry s).
Definition set_at (f : Z → phase) (s : vdisk) : vdisk :=
  VD (desc s) (avail_idx s) (avail s) (used_id s) (used_elems s) (dfree s) (used_idx s) (info_b s) (info_status s)
    (b_disk s) (b_data s) (b_sector s) (outhdr s) f (media s) (seen s) (taken s) (xfers s) (entry s).
Definition set_avail (i head : Z) (s : vdisk) : vdisk :=
  VD (desc s) i (upd (avail s) (avail_idx s mod NUM) head) (used_id s) (used_elems s) (dfree s) (used_idx s) (info_b s) (info_status s)
    (b_disk s) (b_data s) (b_sector s) (outhdr s) (at_ s) (media s) (seen s) (taken s) (xfers s) (entry s).
Definition set_used_idx (i : Z) (s : vdisk) : vdisk :=
  VD (desc s) (avail_idx s) (avail s) (used_id s) (used_elems s) (dfree s) i (info_b s) (info_status s)
    (b_disk s) (b_data s) (b_sector s) (outhdr s) (at_ s) (media s) (seen s) (taken s) (xfers s) (entry s).
(** A process enters [virtio_disk_rw]: [xfers] and [entry] record the transfers made
    for it since, and the buffer's and the sector's bytes at that time. *)
Definition open_call (b : Z) (s : vdisk) : vdisk :=
  VD (desc s) (avail_idx s) (avail s) (used_id s) (used_elems s) (dfree s) (used_idx s) (info_b s) (info_status s)
    (b_disk s) (b_data s) (b_sector s) (outhdr s) (at_ s) (media s) (seen s) (taken s) (upd (xfers s) b [])
    (upd (entry s) b (b_data s b, media s (b_sector s b))).
(** The buffer cache gives a buffer a sector and data. *)
Definition set_buffer (b sec : Z) (d : list Z) (s : vdisk) : vdisk :=
  VD (desc s) (avail_idx s) (avail s) (used_id s) (used_elems s) (dfree s) (used_idx s) (info_b s) (info_status s)
    (b_disk s) (upd (b_data s) b d) (upd (b_sector s) b sec) (outhdr s) (at_ s) (media s) (seen s) (taken s) (xfers s) (entry s).

(** [wakeup(&disk.free[0])] and [wakeup(b)]. *)
Definition rouse_desc (p : phase) : phase := match p with WaitDesc w _ => WaitDesc w false | _ => p end.
Definition rouse_io (p : phase) : phase := match p with WaitIO w i _ => WaitIO w i false | _ => p end.
Definition wakeup_desc (s : vdisk) : vdisk := set_at (λ b, rouse_desc (at_ s b)) s.
Definition wakeup_io (b : Z) (s : vdisk) : vdisk := set_at (upd (at_ s) b (rouse_io (at_ s b))) s.

(** The driver's part of [virtio_disk_init]: zeroed pages, all descriptors free. *)
Definition virtio_disk_init (s : vdisk) : vdisk :=
  VD (λ _, Desc ANull 0 0 0) 0 (λ _, 0) 0 (λ _, 0) (λ i, bool_decide (0 ≤ i < NUM)) (used_idx s) (info_b s) (info_status s)
    (b_disk s) (b_data s) (b_sector s) (outhdr s) (at_ s) (media s) (seen s) (taken s) (xfers s) (entry s).

Definition alloc_desc : M vdisk Z := λ s,
  match list_find (λ i, dfree s i = true) (seqZ 0 NUM) with
  | Some (_, i) => Ok i (set_free i false s)
  | None => Ok (-1) s
  end.
Definition free_desc (i : Z) : M vdisk unit := λ s,
  if NUM <=? i then Panic "virtio_disk_intr 1"
  else if dfree s i then Panic "virtio_disk_intr 2"
  else
    let d := desc s i in
    Ok tt (wakeup_desc (set_free i true (set_desc i (Desc ANull (len d) (flags d) (next d)) s))).
(** A chain that does not end meets a free descriptor again and panics, so [NUM + 1]
    rounds are enough for every chain. *)
Fixpoint free_chain_loop (fuel : nat) (i : Z) : M vdisk unit :=
  match fuel with
  | O => panic "virtio_disk_intr 2"
  | S fuel =>
      free_desc i;;;
      d <-- gets (λ s, desc s i);;
      if has (flags d) VRING_DESC_F_NEXT then free_chain_loop fuel (next d) else mretM tt
  end.
Definition free_chain (i : Z) : M vdisk unit := free_chain_loop 9 i.
Definition alloc3_desc : M vdisk (option (Z * Z * Z)) :=
  i0 <-- alloc_desc;;
  if i0 <? 0 then mretM None else
  i1 <-- alloc_desc;;
  if i1 <? 0 then free_desc i0;;; mretM None else
  i2 <-- alloc_desc;;
  if i2 <? 0 then free_desc i0;;; free_desc i1;;; mretM None else
  mretM (Some (i0, i1, i2)).

(** The three descriptors of a request, the buffer recorded, the head published. *)
Definition format (b : Z) (write : bool) (i0 i1 i2 : Z) (s : vdisk) : vdisk :=
  let s := set_outhdr b (Outhdr (if write then VIRTIO_BLK_T_OUT else VIRTIO_BLK_T_IN) 0 (b_sector s b)) s in
  let s := set_desc i0 (Desc (AHdr b) 16 VRING_DESC_F_NEXT i1) s in
  let s := set_desc i1 (Desc (AData b) 512 (Z.lor (if write then 0 else VRING_DESC_F_WRITE) VRING_DESC_F_NEXT) i2) s in
  let s := set_status i0 0 s in
  set_desc i2 (Desc (AStatus i0) 1 VRING_DESC_F_WRITE 0) s.
Definition submit (b : Z) (write : bool) (i0 i1 i2 : Z) (s : vdisk) : vdisk :=
  let s := format b write i0 i1 i2 s in
  let s := set_info_b i0 (Some b) (set_b_disk b 1 s) in
  set_avail (u16 (avail_idx s + 1)) i0 s.

(** [virtio_disk_rw] up to its next sleep: [rw_enter] from the first loop,
    [rw_resume] from the second, [true] when it returns. *)
Definition rw_enter (b : Z) (write : bool) : M vdisk unit :=
  r <-- alloc3_desc;;
  match r with
  | None => modify (λ s, set_at (upd (at_ s) b (WaitDesc write true)) s)
  | Some (i0, i1, i2) =>
      modify (submit b write i0 i1 i2);;;
      modify (λ s, set_at (upd (at_ s) b (WaitIO write i0 true)) s)
  end.
Definition rw_resume (b : Z) (write : bool) (i0 : Z) : M vdisk bool :=
  d <-- gets (λ s, b_disk s b);;
  if d =? 1 then modify (λ s, set_at (upd (at_ s) b (WaitIO write i0 true)) s);;; mretM false
  else
    modify (set_info_b i0 None);;;
    free_chain i0;;;
    modify (λ s, set_at (upd (at_ s) b Out) s);;;
    mretM true.

(** One round of the loop of [virtio_disk_intr].  An [info] entry without a buffer
    is a null pointer, whose use is a fault. *)
Definition intr_pending (s : vdisk) : bool := negb (used_idx s mod NUM =? used_id s mod NUM).
Definition intr_one : M vdisk unit := λ s,
  let id := used_elems s (used_idx s) in
  if negb (info_status s id =? 0) then Panic "virtio_disk_intr status"
  else match info_b s id with
  | None => Panic "kerneltrap"
  | Some b => Ok tt (set_used_idx ((used_idx s + 1) mod NUM) (wakeup_io b (set_b_disk b 0 s)))
  end.
Fixpoint intr_loop (fuel : nat) : M vdisk unit :=
  match fuel with
  | O => mretM tt
  | S fuel => go <-- gets intr_pending;; if (go : bool) then intr_one;;; intr_loop fuel else mretM tt
  end.
(** Each round moves [used_idx] one place towards [used->id] modulo [NUM]. *)
Definition virtio_disk_intr : M vdisk unit := intr_loop 8.

(** ** The device *)
Definition dev_fetch (s : vdisk) : vdisk :=
  VD (desc s) (avail_idx s) (avail s) (used_id s) (used_elems s) (dfree s) (used_idx s) (info_b s) (info_status s)
    (b_disk s) (b_data s) (b_sector s) (outhdr s) (at_ s) (media s) (u16 (seen s + 1)) (taken s ++ [avail s (seen s mod NUM)]) (xfers s) (entry s).
(** The device follows the chain from [h], moves the sector in the direction the
    header says, writes the status byte and puts [h] in the used ring. *)
Definition dev_request (h : Z) (s : vdisk) : option (Z * Z * Z) :=
  let d0 := desc s h in let d1 := desc s (next d0) in let d2 := desc s (next d1) in
  match addr d0, addr d1, addr d2 with
  | AHdr p, AData b, AStatus i =>
      if has (flags d0) VRING_DESC_F_NEXT && has (flags d1) VRING_DESC_F_NEXT && negb (has (flags d2) VRING_DESC_F_NEXT)
      then Some (p, b, i) else None
  | _, _, _ => None
  end.
Definition dev_done (k : nat) (h b i status : Z) (write : bool) (sec : Z) (s : vdisk) : vdisk :=
  VD (desc s) (avail_idx s) (avail s) (u16 (used_id s + 1)) (upd (used_elems s) (used_id s mod NUM) h) (dfree s) (used_idx s) (info_b s)
    (upd (info_status s) i status) (b_disk s)
    (if write then b_data s else upd (b_data s) b (media s sec)) (b_sector s) (outhdr s) (at_ s)
    (if write then upd (media s) sec (b_data s b) else media s) (seen s) (delete k (taken s))
    (upd (xfers s) b (xfers s b ++ [(write, sec)])) (entry s).
Definition dev_complete (k : nat) (status : Z) (s : vdisk) : option vdisk :=
  h ← taken s !! k;
  '(p, b, i) ← dev_request h s;
  let q := outhdr s p in
  Some (dev_done k h b i status (req_type q =? VIRTIO_BLK_T_OUT) (req_sector q) s).

(** ** Interleavings *)
(** The buffer cache keeps one buffer per sector. *)
Inductive vstep (s : vdisk) : vdisk → Prop :=
  | vs_buffer b sec d : at_ s b = Out → vstep s (set_buffer b sec d s)
  | vs_start b w s' : at_ s b = Out → (∀ c, at_ s c ≠ Out → b_sector s c ≠ b_sector s b) →
      rw_enter b w (open_call b s) = Ok tt s' → vstep s s'
  | vs_retry b w s' : at_ s b = WaitDesc w false → rw_enter b w s = Ok tt s' → vstep s s'
  | vs_resume b w i r s' : at_ s b = WaitIO w i false → rw_resume b w i s = Ok r s' → vstep s s'
  | vs_intr s' : intr_pending s = true → intr_one s = Ok tt s' → vstep s s'
  | vs_fetch : seen s ≠ avail_idx s → vstep s (dev_fetch s)
  | vs_done k s' : dev_complete k 0 s = Some s' → vstep s s'.

Definition vboot (s0 s : vdisk) : Prop :=
  s = virtio_disk_init s0 ∧ used_idx s0 = 0 ∧ seen s0 = 0 ∧ taken s0 = [] ∧ ∀ b, at_ s0 b = Out.

(** ** The requests in flight *)
(** A request: its buffer, direction and descriptors. *)
Record flight := Flight { f_b : Z; f_w : bool; f_0 : Z; f_1 : Z; f_2 : Z }.
Definition idxs (f : flight) : list Z := [f_0 f; f_1 f; f_2 f].
Definition used_by (l : list flight) : list Z := mjoin (map idxs l).
Arguments used_by : simpl never.

Record wired (s : vdisk) (f : flight) : Prop := {
  w_0 : desc s (f_0 f) = Desc (AHdr (f_b f)) 16 VRING_DESC_F_NEXT (f_1 f);
  w_1 : desc s (f_1 f) = Desc (AData (f_b f)) 512 (if f_w f then 1 else 3) (f_2 f);
  w_2 : desc s (f_2 f) = Desc (AStatus (f_0 f)) 1 VRING_DESC_F_WRITE 0;
  w_hdr : outhdr s (f_b f) = Outhdr (if f_w f then 1 else 0) 0 (b_sector s (f_b f));
  w_info : info_b s (f_0 f) = Some (f_b f);
  w_status : info_status s (f_0 f) = 0;
  w_at : ∃ a, at_ s (f_b f) = WaitIO (f_w f) (f_0 f) a }.

(** What holds of the requests whatever their progress. *)
Record static (s : vdisk) (l : list flight) : Prop := {
  st_nodup : NoDup (used_by l);
  st_range : ∀ i, i ∈ used_by l → 0 ≤ i < NUM;
  st_free : ∀ i, 0 ≤ i < NUM → dfree s i = true ↔ i ∉ used_by l;
  st_wired : ∀ f, f ∈ l → wired s f;
  st_io : ∀ b w i a, at_ s b = WaitIO w i a → ∃ f, f ∈ l ∧ f_b f = b;
  st_sleep : ∀ b w, at_ s b = WaitDesc w true → (2 ≤ length l)%nat;
  st_sectors : ∀ b c, b ≠ c → at_ s b ≠ Out → at_ s c ≠ Out → b_sector s b ≠ b_sector s c;
  st_entry : ∀ b w a, at_ s b = WaitDesc w a → xfers s b = [] ∧ entry s b = (b_data s b, media s (b_sector s b)) }.

(** Before the transfer: nothing has moved. *)
Definition before (s : vdisk) (f : flight) : Prop :=
  b_disk s (f_b f) = 1 ∧ xfers s (f_b f) = [] ∧ entry s (f_b f) = (b_data s (f_b f), media s (b_sector s (f_b f))).
(** After it: one transfer in the direction asked for. *)
Definition moved (s : vdisk) (b : Z) (w : bool) : Prop :=
  xfers s b = [(w, b_sector s b)] ∧
  let '(d, m) := entry s b in b_data s b = (if w then d else m) ∧ media s (b_sector s b) = (if w then d else m).

Record progress (s : vdisk) (Q T U D : list flight) : Prop := {
  pr_avail : 0 ≤ seen s < 2 ^ 16 ∧ avail_idx s = u16 (seen s + Z.of_nat (length Q));
  pr_ring : ∀ k f, Q !! k = Some f → avail s ((seen s + Z.of_nat k) mod NUM) = f_0 f;
  pr_taken : taken s = map f_0 T;
  pr_used : 0 ≤ used_idx s < NUM ∧ 0 ≤ used_id s ∧ used_id s mod NUM = (used_idx s + Z.of_nat (length U)) mod NUM;
  pr_elems : ∀ k f, U !! k = Some f → used_elems s ((used_idx s + Z.of_nat k) mod NUM) = f_0 f;
  pr_before : ∀ f, f ∈ Q ++ T → before s f;
  pr_moved : ∀ f, f ∈ U ++ D → moved s (f_b f) (f_w f);
  pr_owned : ∀ f, f ∈ U → b_disk s (f_b f) = 1;
  pr_done : ∀ f, f ∈ D → b_disk s (f_b f) = 0;
  pr_awake : ∀ f, f ∈ D → at_ s (f_b f) = WaitIO (f_w f) (f_0 f) false }.
Definition vinv (s : vdisk) : Prop := ∃ Q T U D, static s (Q ++ T ++ U ++ D) ∧ progress s Q T U D.

(** ** The static part *)
Lemma used_by_cons f l : used_by (f :: l) = idxs f ++ used_by l.
Proof. done. Qed.
Lemma used_by_elem l i : i ∈ used_by l ↔ ∃ f, f ∈ l ∧ i ∈ idxs f.
Proof.
  induction l as [|f l IH]; [split; [by intros ?%elem_of_nil|by intros (f & ?%elem_of_nil & _)]|].
  rewrite used_by_cons, elem_of_app, IH. split.
  - intros [H|(g & Hg & H)]; [exists f; split; [by left|done]|exists g; split; [by right|done]].
  - intros (g & [->|Hg]%elem_of_cons & H); [by left|right; by exists g].
Qed.
Lemma used_by_perm l l' : l ≡ₚ l' → used_by l ≡ₚ used_by l'.
Proof.
  induction 1 as [|f l l' _ IH|f g l|l1 l2 l3 _ IH1 _ IH2]; [done|rewrite !used_by_cons; by rewrite IH| |by rewrite IH1].
  rewrite !used_by_cons, !app_assoc. by rewrite (Permutation_app_comm (idxs g)).
Qed.
Lemma used_by_length l : length (used_by l) = (3 * length l)%nat.
Proof. induction l as [|f l IH]; [done|]. rewrite used_by_cons, length_app, IH. cbn. lia. Qed.
Lemma static_perm s l l' : l ≡ₚ l' → static s l → static s l'.
Proof.
  intros Hp [A B C D E F G H]. pose proof (used_by_perm _ _ Hp) as Hu. split; try done.
  - by rewrite <- Hu.
  - intros i Hi. apply B. by rewrite Hu.
  - intros i Hi. rewrite <- Hu. by apply C.
  - intros f Hf. apply D. by rewrite Hp.
  - intros b w i a Hb. destruct (E b w i a Hb) as (f & Hf & Hfb). exists f. by rewrite <- Hp.
  - intros b w Hb. rewrite <- Hp. by eapply F.
Qed.
Lemma static_few s l : static s l → (length l ≤ 2)%nat.
Proof.
  intros Hs. enough (length (used_by l) ≤ 8)%nat by (rewrite used_by_length in *; lia).
  change 8%nat with (length (seqZ 0 NUM)). apply submseteq_length, NoDup_submseteq; [apply Hs|]. intros i Hi%(st_range _ _ Hs). apply elem_of_seqZ. lia.
Qed.
(** Two requests share neither buffer nor descriptor. *)
Lemma static_apart s f l g : static s (f :: l) → g ∈ l → f_b g ≠ f_b f ∧ ∀ i, i ∈ idxs f → i ∉ idxs g.
Proof.
  intros Hs Hg. pose proof (st_nodup _ _ Hs) as Hn. rewrite used_by_cons in Hn. apply NoDup_app in Hn as (_ & Hn & _).
  assert (∀ i, i ∈ idxs f → i ∉ idxs g) as Hi by (intros i Hi Hj; apply (Hn i Hi), used_by_elem; by exists g).
  split; [|done]. intros E. destruct (w_at _ _ (st_wired _ _ Hs f ltac:(by left))) as [a Ha].
  destruct (w_at _ _ (st_wired _ _ Hs g ltac:(by right))) as [a' Ha']. rewrite E, Ha in Ha'. injection Ha' as _ E0 _.
  apply (Hi (f_0 f)); [by left|rewrite E0; by left].
Qed.
Lemma idxs_distinct s f l : static s (f :: l) → f_0 f ≠ f_1 f ∧ f_0 f ≠ f_2 f ∧ f_1 f ≠ f_2 f.
Proof.
  intros Hs. pose proof (st_nodup _ _ Hs) as Hn. rewrite used_by_cons in Hn. apply NoDup_app in Hn as (Hn & _ & _).
  unfold idxs in Hn. rewrite !NoDup_cons, !not_elem_of_cons in Hn. tauto.
Qed.
Lemma static_in s f l : static s (f :: l) → ∀ i, i ∈ idxs f → 0 ≤ i < NUM ∧ dfree s i = false.
Proof.
  intros Hs i Hi. assert (i ∈ used_by (f :: l)) as Hu by (rewrite used_by_cons; apply elem_of_app; by left).
  pose proof (st_range _ _ Hs i Hu) as Hr. split; [done|]. apply not_true_is_false. intros Hf. by apply (st_free _ _ Hs i Hr) in Hf.
Qed.

(** ** Descriptors *)
Lemma alloc_desc_spec s : ∃ i s', alloc_desc s = Ok i s' ∧
  (0 ≤ i < NUM ∧ dfree s i = true ∧ s' = set_free i false s ∨ i = -1 ∧ s' = s ∧ ∀ j, 0 ≤ j < NUM → dfree s j = false).
Proof.
  unfold alloc_desc. destruct (list_find (λ i, dfree s i = true) (seqZ 0 NUM)) as [[k i]|] eqn:E.
  - apply list_find_Some in E as (E1 & E2 & _). exists i, (set_free i false s). split; [done|]. left. split; [|done].
    assert (i ∈ seqZ 0 NUM) as H%elem_of_seqZ by (apply list_elem_of_lookup; by exists k). lia.
  - apply list_find_None in E. exists (-1), s. split; [done|]. right. split_and!; try done. intros j Hj.
    apply not_true_is_false. apply (proj1 (Forall_forall _ _) E), elem_of_seqZ. lia.
Qed.
Definition freed (i : Z) (s : vdisk) : vdisk :=
  let d := desc s i in wakeup_desc (set_free i true (set_desc i (Desc ANull (len d) (flags d) (next d)) s)).
Lemma free_desc_ok i s : i < NUM → dfree s i = false → free_desc i s = Ok tt (freed i s).
Proof. intros Hi Hf. unfold free_desc. by rewrite (proj2 (Z.leb_gt NUM i) Hi), Hf. Qed.
(** What a failed allocation may change: addresses of free descriptors, and the
    sleepers are awake. *)
Record quiet (s s' : vdisk) : Prop := {
  q_free : ∀ i, dfree s' i = dfree s i;
  q_desc : ∀ i, dfree s i = false → desc s' i = desc s i;
  q_at : ∀ b, at_ s' b = at_ s b ∨ at_ s' b = rouse_desc (at_ s b);
  q_rest : set_at (at_ s) (VD (desc s) (avail_idx s') (avail s') (used_id s') (used_elems s') (dfree s) (used_idx s') (info_b s') (info_status s')
    (b_disk s') (b_data s') (b_sector s') (outhdr s') (at_ s) (media s') (seen s') (taken s') (xfers s') (entry s')) = s }.
Lemma alloc3_spec s : ∃ r s', alloc3_desc s = Ok r s' ∧ match r with
  | Some (i0, i1, i2) => (∀ i, i ∈ [i0; i1; i2] → 0 ≤ i < NUM ∧ dfree s i = true) ∧ NoDup [i0; i1; i2] ∧
      s' = set_free i2 false (set_free i1 false (set_free i0 false s))
  | None => quiet s s' ∧ ∃ i0 i1, ∀ j, 0 ≤ j < NUM → dfree s j = true → j = i0 ∨ j = i1
  end.
Proof.
  unfold alloc3_desc, mbindM, mretM. destruct (alloc_desc_spec s) as (i0 & s1 & -> & [(R0 & F0 & ->)|(-> & -> & Hall)]).
  2: { exists None, s. split; [done|]. split; [split; try done; [by left|by destruct s]|]. exists 0, 0. intros j Hj. rewrite Hall by done. done. }
  rewrite (proj2 (Z.ltb_ge i0 0)) by lia.
  destruct (alloc_desc_spec (set_free i0 false s)) as (i1 & s2 & -> & [(R1 & F1 & ->)|(-> & -> & Hall)]); cbn [dfree set_free] in *.
  2: { cbn [Z.ltb Z.compare]. rewrite free_desc_ok by (cbn; rewrite ?upd_eq; lia || done).
    eexists None, _. split; [done|]. split; [split; cbn|].
    - intros i. destruct (decide (i = i0)) as [->|]; [by rewrite upd_eq|by rewrite !upd_ne].
    - intros i Hi. apply upd_ne. congruence.
    - by right.
    - by destruct s.
    - exists i0, i0. intros j Hj Hf. destruct (decide (j = i0)); [by left|]. specialize (Hall j Hj). rewrite upd_ne in Hall by done. congruence. }
  rewrite (proj2 (Z.ltb_ge i1 0)) by lia. assert (i1 ≠ i0) as N1 by (intros ->; by rewrite upd_eq in F1). rewrite upd_ne in F1 by done.
  destruct (alloc_desc_spec (set_free i1 false (set_free i0 false s))) as (i2 & s3 & -> & [(R2 & F2 & ->)|(-> & -> & Hall)]); cbn [dfree set_free] in *.
  2: { cbn [Z.ltb Z.compare]. rewrite free_desc_ok by (cbn; try rewrite upd_ne, upd_eq by done; lia || done). rewrite free_desc_ok by (cbn; try rewrite upd_ne, upd_eq by done; lia || done).
    eexists None, _. split; [done|]. split; [split; cbn|].
    - intros i. destruct (decide (i = i1)) as [->|]; [by rewrite upd_eq|]. rewrite upd_ne by done. destruct (decide (i = i0)) as [->|]; [by rewrite upd_eq|by rewrite !upd_ne].
    - intros i Hi. rewrite !upd_ne; [done|congruence..].
    - intros b. right. by destruct (at_ s b).
    - by destruct s.
    - exists i0, i1. intros j Hj Hf. destruct (decide (j = i0)); [by left|]. destruct (decide (j = i1)); [by right|].
      specialize (Hall j Hj). rewrite !upd_ne in Hall by done. congruence. }
  rewrite (proj2 (Z.ltb_ge i2 0)) by lia. assert (i2 ≠ i1) as N2 by (intros ->; by rewrite upd_eq in F2). rewrite upd_ne in F2 by done.
  assert (i2 ≠ i0) as N3 by (intros ->; by rewrite upd_eq in F2). rewrite upd_ne in F2 by done.
  eexists (Some (i0, i1, i2)), _. split; [done|]. split; [|split; [|done]].
  - intros i Hi. rewrite !elem_of_cons, elem_of_nil in Hi. destruct Hi as [->|[->|[->|[]]]]; done.
  - rewrite !NoDup_cons, !not_elem_of_cons. split_and!; try done; try apply not_elem_of_nil. apply NoDup_nil_2.
Qed.
Lemma quiet_at s s' b : quiet s s' →
  match at_ s b with WaitDesc w a => ∃ a', at_ s' b = WaitDesc w a' ∧ (a' = true → a = true) | p => at_ s' b = p end.
Proof.
  intros Hq. destruct (q_at _ _ Hq b) as [->| ->]; destruct (at_ s b) as [|w a|w i a]; cbn; try done; eexists; by split.
Qed.
Lemma quiet_fields s s' : quiet s s' → s' = VD (desc s') (avail_idx s) (avail s) (used_id s) (used_elems s) (dfree s') (used_idx s) (info_b s) (info_status s)
    (b_disk s) (b_data s) (b_sector s) (outhdr s) (at_ s') (media s) (seen s) (taken s) (xfers s) (entry s).
Proof. intros [_ _ _ E]. destruct s, s'. cbn in *. by injection E as -> -> -> -> -> -> -> -> -> -> -> -> -> -> -> ->. Qed.
Lemma static_free s l i : static s l → i ∈ used_by l → dfree s i = false.
Proof. intros Hs Hi. apply not_true_is_false. intros Hf. by apply (st_free _ _ Hs i (st_range _ _ Hs i Hi)) in Hf. Qed.
Lemma quiet_static s s' l : quiet s s' → static s l → static s' l.
Proof.
  intros Hq Hs. pose proof (λ b, quiet_at s s' b Hq) as Hat. pose proof (q_free _ _ Hq) as Hf. pose proof (q_desc _ _ Hq) as Hd.
  assert (∀ b, at_ s' b ≠ Out → at_ s b ≠ Out) as Hout by (intros b Hb E; apply Hb; specialize (Hat b); by rewrite E in Hat).
  pose proof (quiet_fields _ _ Hq) as Ef. set (d' := desc s') in *. set (f' := dfree s') in *. set (a' := at_ s') in *. clearbody d' f' a'. subst s'.
  pose proof Hs as [A B C D E F G H]. split; cbn; try done.
  - intros i Hi. rewrite Hf. by apply C.
  - intros f Hfl. destruct (D f Hfl) as [W0 W1 W2 W3 W4 W5 [a W6]].
    assert (∀ i, i ∈ idxs f → dfree s i = false) as Hi by (intros i Hi; apply (static_free _ _ i Hs), used_by_elem; by exists f).
    split; cbn; try done; [rewrite Hd by (apply Hi; by left); done|rewrite Hd by (apply Hi; right; by left); done|rewrite Hd by (apply Hi; right; right; by left); done|].
    specialize (Hat (f_b f)). rewrite W6 in Hat. by exists a.
  - intros b w i a Ha. specialize (Hat b). destruct (at_ s b) as [|w0 a0|w0 i0 a0] eqn:Eb; [congruence|destruct Hat as (a1 & Hat & _); congruence|].
    by apply (E b w0 i0 a0).
  - intros b w Ha. specialize (Hat b). destruct (at_ s b) as [|w0 a0|w0 i0 a0] eqn:Eb; [congruence| |congruence].
    destruct Hat as (a1 & Hat & Himp). rewrite Ha in Hat. injection Hat as -> <-. rewrite (Himp eq_refl) in Eb. by apply (F b w0).
  - intros b c Hbc Hb Hc. apply G; [done|by apply Hout|by apply Hout].
  - intros b w a Ha. specialize (Hat b). destruct (at_ s b) as [|w0 a0|w0 i0 a0] eqn:Eb; [congruence| |congruence]. by apply (H b w0 a0).
Qed.
Lemma quiet_progress s s' Q T U D : quiet s s' → static s (Q ++ T ++ U ++ D) → progress s Q T U D → progress s' Q T U D.
Proof.
  intros Hq Hs [P1 P2 P3 P4 P5 P6 P7 P8 P9 P10]. pose proof (λ b, quiet_at s s' b Hq) as Hat. pose proof (quiet_fields _ _ Hq) as Ef.
  set (d' := desc s') in *. set (f' := dfree s') in *. set (a' := at_ s') in *. clearbody d' f' a'. subst s'. split; try done.
  cbn. intros f Hf. specialize (Hat (f_b f)). rewrite (P10 f Hf) in Hat. done.
Qed.
(** Too few descriptors: two requests are in flight. *)
Lemma short_of_desc s l i0 i1 : static s l → (∀ j, 0 ≤ j < NUM → dfree s j = true → j = i0 ∨ j = i1) → (2 ≤ length l)%nat.
Proof.
  intros Hs Hall. enough (8 ≤ length (used_by l ++ [i0; i1]))%nat by (rewrite length_app, used_by_length in *; cbn in *; lia).
  change 8%nat with (length (seqZ 0 NUM)). apply submseteq_length, NoDup_submseteq; [apply NoDup_seqZ|]. intros i Hi%elem_of_seqZ.
  apply elem_of_app. destruct (dfree s i) eqn:Ef.
  - right. destruct (Hall i ltac:(lia) Ef) as [->| ->]; [by left|right; by left].
  - left. apply dec_stable. intros Hn. apply (st_free _ _ Hs i ltac:(lia)) in Hn. congruence.
Qed.

(** ** Submitting a request *)
Definition fresh (s : vdisk) (b : Z) : Prop :=
  (∀ w i a, at_ s b ≠ WaitIO w i a) ∧ xfers s b = [] ∧ entry s b = (b_data s b, media s (b_sector s b)) ∧
  ∀ c, c ≠ b → at_ s c ≠ Out → b_sector s c ≠ b_sector s b.
Lemma flight_not_fresh s l f b : static s l → fresh s b → f ∈ l → f_b f ≠ b.
Proof. intros Hs (Hn & _) Hf E. destruct (w_at _ _ (st_wired _ _ Hs f Hf)) as [a Ha]. rewrite E in Ha. by apply (Hn _ _ _ Ha). Qed.
Lemma sectors_upd s b p : (∀ c, c ≠ b → at_ s c ≠ Out → b_sector s c ≠ b_sector s b) →
  (∀ c d, c ≠ d → at_ s c ≠ Out → at_ s d ≠ Out → b_sector s c ≠ b_sector s d) →
  ∀ c d, c ≠ d → upd (at_ s) b p c ≠ Out → upd (at_ s) b p d ≠ Out → b_sector s c ≠ b_sector s d.
Proof.
  intros Hb Hall c d Hcd. destruct (decide (c = b)) as [->|Hc]; destruct (decide (d = b)) as [->|Hd]; rewrite ?upd_eq, ?upd_ne by done; [done| | |by apply Hall].
  - intros _ Hd2 E. by apply (Hb d).
  - intros Hc2 _. by apply Hb.
Qed.
Lemma static_wait s l b w : static s l → fresh s b → (2 ≤ length l)%nat → static (set_at (upd (at_ s) b (WaitDesc w true)) s) l.
Proof.
  intros Hs Hfr Hl. pose proof Hfr as (Hn & Hx & He & Hsec). pose proof Hs as [A B C D E F G H]. split; cbn; try done.
  - intros f Hf. destruct (D f Hf) as [W0 W1 W2 W3 W4 W5 W6]. split; try done. cbn. rewrite upd_ne by (by eapply flight_not_fresh). done.
  - intros c w' i a. destruct (decide (c = b)) as [->|Hc]; [by rewrite upd_eq|]. rewrite upd_ne by done. apply E.
  - by apply sectors_upd.
  - intros c w' a. destruct (decide (c = b)) as [->|Hc]; [done|]. rewrite upd_ne by done. apply H.
Qed.

Section Submit.
Context (s : vdisk) (l : list flight) (b : Z) (w : bool) (i0 i1 i2 : Z).
Context (Hs : static s l) (Hfr : fresh s b) (Hi : ∀ i, i ∈ [i0; i1; i2] → 0 ≤ i < NUM ∧ dfree s i = true) (Hnd : NoDup [i0; i1; i2]).
Let f := Flight b w i0 i1 i2.
Definition sent : vdisk :=
  let s1 := submit b w i0 i1 i2 (set_free i2 false (set_free i1 false (set_free i0 false s))) in set_at (upd (at_ s1) b (WaitIO w i0 true)) s1.
Lemma fresh_idx g i : g ∈ l → i ∈ idxs g → i ≠ i0 ∧ i ≠ i1 ∧ i ≠ i2.
Proof.
  intros Hg Hgi. assert (i ∉ [i0; i1; i2]) as Hn.
  { intros Hin. destruct (Hi i Hin) as [_ Hf]. rewrite (static_free s l i Hs) in Hf; [done|]. apply used_by_elem. by exists g. }
  rewrite !not_elem_of_cons in Hn. tauto.
Qed.
Lemma three_distinct : i0 ≠ i1 ∧ i0 ≠ i2 ∧ i1 ≠ i2.
Proof. pose proof Hnd as H. rewrite !NoDup_cons, !not_elem_of_cons in H. tauto. Qed.
Lemma static_sent : static sent (f :: l).
Proof.
  destruct Hfr as (Hn & Hx & He & Hsec). pose proof Hs as [A B C D E F G H]. destruct three_distinct as (N1 & N2 & N3). split; cbn.
  - rewrite used_by_cons. apply NoDup_app. split_and!; try done. intros i Hif Hil. destruct (Hi i Hif) as [_ Hf]. by rewrite (static_free s l i Hs Hil) in Hf.
  - intros i. rewrite used_by_cons, elem_of_app. intros [Hif|Hil]; [by apply Hi|by apply B].
  - intros i Hr. rewrite used_by_cons, not_elem_of_app. unfold idxs. cbn. rewrite !not_elem_of_cons.
    destruct (decide (i = i2)) as [->|K2]; [rewrite upd_eq; split; [done|tauto]|]. rewrite upd_ne by done.
    destruct (decide (i = i1)) as [->|K1]; [rewrite upd_eq; split; [done|tauto]|]. rewrite upd_ne by done.
    destruct (decide (i = i0)) as [->|K0]; [rewrite upd_eq; split; [done|tauto]|]. rewrite upd_ne by done.
    rewrite (C i Hr). split; [intros Hu; split; [split_and!; try done; apply not_elem_of_nil|done]|tauto].
  - intros g [->|Hg]%elem_of_cons.
    + split; cbn; rewrite ?upd_eq; try done; [by rewrite !upd_ne, upd_eq by done|by rewrite upd_ne, upd_eq by done; destruct w|by eexists].
    + destruct (D g Hg) as [W0 W1 W2 W3 W4 W5 [a W6]]. pose proof (λ i, fresh_idx g i Hg) as Hgi.
      destruct (Hgi (f_0 g)) as (X1 & X2 & X3); [by left|]. destruct (Hgi (f_1 g)) as (Y1 & Y2 & Y3); [right; by left|].
      destruct (Hgi (f_2 g)) as (Z1 & Z2 & Z3); [right; right; by left|]. assert (f_b g ≠ b) as Hgb by (by eapply flight_not_fresh).
      split; cbn; rewrite ?upd_ne by done; try done. by exists a.
  - intros c w' i a. destruct (decide (c = b)) as [->|Hc]; [exists f; split; [by left|done]|]. rewrite upd_ne by done. intros Ha.
    destruct (E _ _ _ _ Ha) as (g & Hg & Hgb). exists g. split; [by right|done].
  - intros c w'. destruct (decide (c = b)) as [->|Hc]; [by rewrite upd_eq|]. rewrite upd_ne by done. intros Ha. pose proof (F _ _ Ha). cbn in *. lia.
  - by apply sectors_upd.
  - intros c w' a. destruct (decide (c = b)) as [->|Hc]; [by rewrite upd_eq|]. rewrite upd_ne by done. apply H.
Qed.
End Submit.
Lemma ring_slot a n k : 0 ≤ a → (k < n)%nat → (n < 8)%nat → (a + Z.of_nat k) mod NUM ≠ (a + Z.of_nat n) mod NUM.
Proof. unfold NUM. intros. Z.to_euclidean_division_equations. lia. Qed.
Lemma u16_slot a : u16 a mod NUM = a mod NUM.
Proof. unfold u16, NUM. change (2 ^ 16) with (8 * 8192). rewrite Z.rem_mul_r by lia. rewrite Z.mul_comm, Z.mod_add by lia. apply Z.mod_mod. lia. Qed.
Lemma u16_add a c : u16 (u16 a + c) = u16 (a + c).
Proof. unfold u16. by rewrite Zplus_mod_idemp_l. Qed.
Lemma progress_sent s Q T U D b w i0 i1 i2 : static s (Q ++ T ++ U ++ D) → progress s Q T U D → fresh s b →
  progress (sent s b w i0 i1 i2) (Q ++ [Flight b w i0 i1 i2]) T U D.
Proof.
  intros Hs [[P1 P1'] P2 P3 P4 P5 P6 P7 P8 P9 P10] Hfr. pose proof (static_few _ _ Hs) as Hfew. rewrite !length_app in Hfew.
  assert (∀ f, f ∈ Q ++ T ++ U ++ D → f_b f ≠ b) as Hne by (intros f Hf; by eapply flight_not_fresh).
  destruct Hfr as (_ & Hx & He & _). split; cbn; try done.
  - split; [done|]. rewrite P1', u16_add, length_app. f_equal. cbn. lia.
  - intros k f Hk. rewrite P1', u16_slot. apply lookup_snoc_Some in Hk as [[Hk Hq]|[-> <-]].
    + rewrite upd_ne; [by apply P2|]. apply ring_slot; lia.
    + by rewrite upd_eq.
  - intros f Hf. unfold before. cbn. rewrite <- app_assoc in Hf. apply elem_of_app in Hf as [Hf|[->|Hf]%elem_of_cons]; cbn.
    + rewrite upd_ne by (apply Hne, elem_of_app; by left). apply P6, elem_of_app. by left.
    + by rewrite upd_eq.
    + rewrite upd_ne by (apply Hne; rewrite !elem_of_app; tauto). apply P6, elem_of_app. by right.
  - intros f Hf. rewrite upd_ne by (apply Hne; rewrite !elem_of_app; tauto). by apply P8.
  - intros f Hf. rewrite upd_ne by (apply Hne; rewrite !elem_of_app; tauto). by apply P9.
  - intros f Hf. rewrite upd_ne by (apply Hne; rewrite !elem_of_app; tauto). by apply P10.
Qed.
Lemma quiet_fresh s s' b : quiet s s' → fresh s b → fresh s' b.
Proof.
  intros Hq (Hn & Hx & He & Hsec). pose proof (λ b, quiet_at s s' b Hq) as Hat. pose proof (quiet_fields _ _ Hq) as Ef.
  set (d' := desc s') in *. set (f' := dfree s') in *. set (a' := at_ s') in *. clearbody d' f' a'. subst s'. split; [|split_and!; cbn; try done].
  - cbn. intros w' i a E. specialize (Hat b). destruct (at_ s b) as [|w0 a0|w0 k0 a0] eqn:Eb; [congruence|destruct Hat as (? & ? & _); congruence|by apply (Hn w0 k0 a0)].
  - intros c Hc Ho. apply Hsec; [done|]. intros E. specialize (Hat c). rewrite E in Hat. done.
Qed.
Lemma rw_enter_eq b w s : rw_enter b w s = match alloc3_desc s with
  | Ok (Some (i0, i1, i2)) s1 => let s2 := submit b w i0 i1 i2 s1 in Ok tt (set_at (upd (at_ s2) b (WaitIO w i0 true)) s2)
  | Ok None s1 => Ok tt (set_at (upd (at_ s1) b (WaitDesc w true)) s1)
  | Panic e => Panic e
  end.
Proof. unfold rw_enter, mbindM. by destruct (alloc3_desc s) as [[[[i0 i1] i2]|] s1|e]. Qed.
Lemma enter_inv s b w Q T U D : static s (Q ++ T ++ U ++ D) → progress s Q T U D → fresh s b → ∃ s', rw_enter b w s = Ok tt s' ∧ vinv s'.
Proof.
  intros Hs Hp Hfr. rewrite rw_enter_eq. destruct (alloc3_spec s) as (r & s1 & -> & Hr). destruct r as [[[i0 i1] i2]|].
  - destruct Hr as (Hi & Hnd & ->). exists (sent s b w i0 i1 i2). split; [done|]. exists (Q ++ [Flight b w i0 i1 i2]), T, U, D. split; [|by apply progress_sent].
    eapply static_perm; [|by apply (static_sent s (Q ++ T ++ U ++ D))]. rewrite <- app_assoc. cbn [app]. apply Permutation_middle.
  - destruct Hr as (Hq & j0 & j1 & Hall). pose proof (quiet_fresh _ _ _ Hq Hfr) as Hfr1. pose proof (quiet_static _ _ _ Hq Hs) as Hs1.
    eexists. split; [done|]. exists Q, T, U, D. split; [apply static_wait; try done; exact (short_of_desc s _ j0 j1 Hs Hall)|].
    pose proof (quiet_progress _ _ _ _ _ _ Hq Hs Hp) as [P1 P2 P3 P4 P5 P6 P7 P8 P9 P10]. split; try done.
    cbn. intros f Hf. rewrite upd_ne; [by apply P10|]. eapply flight_not_fresh; [exact Hs1|done|]. rewrite !elem_of_app. tauto.
Qed.

(** ** Finishing a request *)
Lemma chain_round n i s : i < NUM → dfree s i = false → free_chain_loop (S n) i s =
  if has (flags (desc s i)) VRING_DESC_F_NEXT then free_chain_loop n (next (desc s i)) (freed i s) else Ok tt (freed i s).
Proof.
  intros Hi Hf. cbn [free_chain_loop]. unfold mbindM, gets. rewrite free_desc_ok by done.
  assert (flags (desc (freed i s) i) = flags (desc s i) ∧ next (desc (freed i s) i) = next (desc s i)) as [-> ->] by (cbn; by rewrite upd_eq). by destruct (has _ _).
Qed.
Section Resume.
Context (s : vdisk) (f : flight) (l : list flight) (Hs : static s (f :: l)).
Definition released : vdisk := freed (f_2 f) (freed (f_1 f) (freed (f_0 f) (set_info_b (f_0 f) None s))).
Lemma free_chain_spec : free_chain (f_0 f) (set_info_b (f_0 f) None s) = Ok tt released.
Proof.
  destruct (idxs_distinct _ _ _ Hs) as (N1 & N2 & N3). pose proof (static_in _ _ _ Hs) as Hi.
  destruct (Hi (f_0 f)) as [R0 F0]; [by left|]. destruct (Hi (f_1 f)) as [R1 F1]; [right; by left|]. destruct (Hi (f_2 f)) as [R2 F2]; [right; right; by left|].
  destruct (st_wired _ _ Hs f ltac:(by left)) as [W0 W1 W2 _ _ _ _].
  unfold free_chain. rewrite chain_round by (cbn; done || lia). cbn [desc set_info_b]. rewrite W0. cbn [flags next].
  change (has VRING_DESC_F_NEXT VRING_DESC_F_NEXT) with true. cbv iota. rewrite chain_round by (cbn; rewrite ?upd_ne by done; done || lia).
  assert (desc (freed (f_0 f) (set_info_b (f_0 f) None s)) (f_1 f) = desc s (f_1 f)) as -> by (cbn; by rewrite upd_ne).
  rewrite W1. cbn [flags next]. assert (has (if f_w f then 1 else 3) VRING_DESC_F_NEXT = true) as -> by (by destruct (f_w f)). cbv iota.
  rewrite chain_round by (cbn; rewrite ?upd_ne by done; done || lia).
  assert (desc (freed (f_1 f) (freed (f_0 f) (set_info_b (f_0 f) None s))) (f_2 f) = desc s (f_2 f)) as -> by (cbn; by rewrite !upd_ne).
  rewrite W2. done.
Qed.
Definition returned : vdisk := set_at (upd (at_ released) (f_b f) Out) released.
Lemma static_returned : static returned l.
Proof.
  pose proof Hs as [A B C D E F G H]. pose proof (λ g, static_apart _ _ _ g Hs) as Hap. destruct (idxs_distinct _ _ _ Hs) as (N1 & N2 & N3). pose proof (static_in _ _ _ Hs) as Hin.
  assert (∀ c, c ≠ f_b f → match at_ s c with WaitDesc w _ => at_ returned c = WaitDesc w false | p => at_ returned c = p end) as Hat.
  { intros c Hc. cbn. rewrite upd_ne by done. by destruct (at_ s c). }
  assert (at_ returned (f_b f) = Out) as Hout by (cbn; by rewrite upd_eq).
  rewrite used_by_cons in A, B, C. apply NoDup_app in A as (A1 & A2 & A3). split.
  - done.
  - intros i Hi. apply B, elem_of_app. by right.
  - intros i Hi. specialize (C i Hi). rewrite not_elem_of_app in C. cbn. assert (i ∈ idxs f → i ∉ used_by l) as Hx by (apply A2). unfold idxs in Hx, C. rewrite !elem_of_cons in Hx.
    destruct (decide (i = f_2 f)) as [K|K2]; [rewrite K, upd_eq; rewrite K in Hx; tauto|]. rewrite upd_ne by done.
    destruct (decide (i = f_1 f)) as [K|K1]; [rewrite K, upd_eq; rewrite K in Hx; tauto|]. rewrite upd_ne by done.
    destruct (decide (i = f_0 f)) as [K|K0]; [rewrite K, upd_eq; rewrite K in Hx; tauto|]. rewrite upd_ne by done.
    rewrite C, !not_elem_of_cons. split; [tauto|]. intros Hl. split; [split_and!; try done; apply not_elem_of_nil|done].
  - intros g Hg. destruct (Hap g Hg) as [Hb Hi]. destruct (D g ltac:(by right)) as [W0 W1 W2 W3 W4 W5 [a W6]].
    assert (∀ i, i ∈ idxs g → i ≠ f_0 f ∧ i ≠ f_1 f ∧ i ≠ f_2 f) as Hne.
    { intros i Hig. split_and!; intros ->; (eapply Hi; [|exact Hig]); [by left|right; by left|right; right; by left]. }
    destruct (Hne (f_0 g)) as (X1 & X2 & X3); [by left|]. destruct (Hne (f_1 g)) as (Y1 & Y2 & Y3); [right; by left|]. destruct (Hne (f_2 g)) as (Z1 & Z2 & Z3); [right; right; by left|].
    split; [cbn; rewrite ?upd_ne by done; done..|]. specialize (Hat (f_b g) Hb). rewrite W6 in Hat. by exists a.
  - intros b w i a Ha. destruct (decide (b = f_b f)) as [->|Hb]; [congruence|]. specialize (Hat b Hb). destruct (at_ s b) as [|w0 a0|w0 j0 a0] eqn:Eb; [congruence|congruence|].
    destruct (E _ _ _ _ Eb) as (g & [->|Hg]%elem_of_cons & Hgb); [congruence|]. by exists g.
  - intros b w Ha. exfalso. destruct (decide (b = f_b f)) as [->|Hb]; [congruence|]. specialize (Hat b Hb). destruct (at_ s b); congruence.
  - intros b c Hbc Hb Hc. apply (G b c Hbc); intros E0.
    + destruct (decide (b = f_b f)) as [->|Hne]; [done|]. specialize (Hat b Hne). by rewrite E0 in Hat.
    + destruct (decide (c = f_b f)) as [->|Hne]; [done|]. specialize (Hat c Hne). by rewrite E0 in Hat.
  - intros b w a Ha. destruct (decide (b = f_b f)) as [->|Hb]; [congruence|]. specialize (Hat b Hb). destruct (at_ s b) as [|w0 a0|w0 j0 a0] eqn:Eb; [congruence| |congruence]. by apply (H b w0 a0).
Qed.
End Resume.
Lemma static_find s l b w i a : static s l → at_ s b = WaitIO w i a → ∃ f, f ∈ l ∧ f_b f = b ∧ f_w f = w ∧ f_0 f = i.
Proof.
  intros Hs Ha. destruct (st_io _ _ Hs _ _ _ _ Ha) as (f & Hf & <-). exists f. destruct (w_at _ _ (st_wired _ _ Hs f Hf)) as [a' Ha']. split; [done|]. split; [done|].
  rewrite Ha in Ha'. by injection Ha' as -> -> _.
Qed.
Lemma rw_resume_eq b w i s : rw_resume b w i s = if b_disk s b =? 1 then Ok false (set_at (upd (at_ s) b (WaitIO w i true)) s)
  else match free_chain i (set_info_b i None s) with Ok _ s1 => Ok true (set_at (upd (at_ s1) b Out) s1) | Panic e => Panic e end.
Proof. unfold rw_resume, mbindM, gets. destruct (b_disk s b =? 1); [done|]. unfold modify. by destruct (free_chain i _). Qed.
Lemma static_asleep s l b w i : static s l → (∃ a, at_ s b = WaitIO w i a) → static (set_at (upd (at_ s) b (WaitIO w i true)) s) l.
Proof.
  intros Hs [a Ha]. pose proof Hs as [A B C D E F G H].
  assert (∀ c, upd (at_ s) b (WaitIO w i true) c ≠ Out → at_ s c ≠ Out) as Ho.
  { intros c. destruct (decide (c = b)) as [->|Hc]; [by rewrite upd_eq, Ha|by rewrite upd_ne]. }
  split; cbn; try done.
  - intros f Hf. destruct (D f Hf) as [W0 W1 W2 W3 W4 W5 [a' W6]]. split; try done. cbn.
    destruct (decide (f_b f = b)) as [Eb|Hb]; [rewrite Eb in *; rewrite upd_eq; rewrite Ha in W6; injection W6 as -> -> _; by eexists|rewrite upd_ne by done; by exists a'].
  - intros c w' i' a'. destruct (decide (c = b)) as [->|Hc]; [intros _; by eapply E|]. rewrite upd_ne by done. apply E.
  - intros c w'. destruct (decide (c = b)) as [->|Hc]; [by rewrite upd_eq|]. rewrite upd_ne by done. apply F.
  - intros c d Hcd Hc Hd. apply G; [done|by apply Ho|by apply Ho].
  - intros c w' a'. destruct (decide (c = b)) as [->|Hc]; [by rewrite upd_eq|]. rewrite upd_ne by done. apply H.
Qed.
Lemma resume_inv s b w i a Q T U D : static s (Q ++ T ++ U ++ D) → progress s Q T U D → at_ s b = WaitIO w i a →
  ∃ r s', rw_resume b w i s = Ok r s' ∧ vinv s' ∧
    (if r then moved s' b w ∧ at_ s' b = Out ∧ b_data s' = b_data s ∧ media s' = media s
     else b_disk s b = 1 ∧ at_ s' b = WaitIO w i true).
Proof.
  intros Hs [P1 P2 P3 P4 P5 P6 P7 P8 P9 P10] Ha. destruct (static_find _ _ _ _ _ _ Hs Ha) as (f & Hf & <- & <- & <-). rewrite rw_resume_eq.
  destruct (Z.eqb_spec (b_disk s (f_b f)) 1) as [E1|N1].
  - eexists false, _. split; [done|]. split; [|split; [done|cbn; by rewrite upd_eq]]. exists Q, T, U, D.
    split; [by apply static_asleep; [|eexists]|]. split; try done. cbn. intros g Hg. rewrite upd_ne; [by apply P10|]. intros E. pose proof (P9 g Hg). congruence.
  - assert (f ∈ D) as HD.
    { rewrite !elem_of_app in Hf. destruct Hf as [Hf|[Hf|[Hf|Hf]]]; [| | |done]; exfalso; apply N1; [apply (P6 f)|apply (P6 f)|by apply P8]; rewrite elem_of_app; tauto. }
    apply list_elem_of_split in HD as (D1 & D2 & ->).
    assert (static s (f :: Q ++ T ++ U ++ D1 ++ D2)) as Hsf by (eapply static_perm; [|exact Hs]; solve_Permutation).
    rewrite (free_chain_spec s f _ Hsf). eexists true, _. split; [done|]. fold (returned s f).
    pose proof (λ g, static_apart _ _ _ g Hsf) as Hap. pose proof (P7 f ltac:(rewrite !elem_of_app, elem_of_cons; tauto)) as Hmv.
    split; [|split_and!; try done; cbn; by rewrite upd_eq]. exists Q, T, U, (D1 ++ D2). split; [by eapply static_returned|].
    split; try done.
    + intros g Hg. apply P7. revert Hg. rewrite !elem_of_app, elem_of_cons. tauto.
    + intros g Hg. apply P9. revert Hg. rewrite !elem_of_app, elem_of_cons. tauto.
    + intros g Hg. destruct (Hap g) as [Hb _]; [revert Hg; rewrite !elem_of_app; tauto|]. cbn. rewrite upd_ne by done.
      rewrite (P10 g) by (revert Hg; rewrite !elem_of_app, elem_of_cons; tauto). done.
Qed.

(** ** The interrupt handler *)
Lemma pending_iff s Q T U D : static s (Q ++ T ++ U ++ D) → progress s Q T U D → intr_pending s = true ↔ U ≠ [].
Proof.
  intros Hs [_ _ _ (P4 & _ & P4') _ _ _ _ _ _]. pose proof (static_few _ _ Hs) as Hfew. rewrite !length_app in Hfew. unfold intr_pending. rewrite negb_true_iff, Z.eqb_neq, P4'.
  destruct U as [|f U]; [cbn; rewrite Z.add_0_r; tauto|]. split; [done|]. intros _ E. cbn [length] in *.
  pose proof (ring_slot (used_idx s) (S (length U)) 0 ltac:(lia) ltac:(lia) ltac:(lia)) as Hr. rewrite Z.add_0_r in Hr. done.
Qed.
Lemma intr_inv s Q T f U D : static s (Q ++ T ++ (f :: U) ++ D) → progress s Q T (f :: U) D →
  ∃ s', intr_one s = Ok tt s' ∧ static s' (Q ++ T ++ U ++ D ++ [f]) ∧ progress s' Q T U (D ++ [f]).
Proof.
  intros Hs [P1 P2 P3 (P4 & P4' & P4'') P5 P6 P7 P8 P9 P10].
  assert (static s (f :: Q ++ T ++ U ++ D)) as Hsf by (eapply static_perm; [|exact Hs]; solve_Permutation).
  destruct (st_wired _ _ Hsf f ltac:(by left)) as [_ _ _ _ W4 W5 [a W6]]. pose proof (λ g, static_apart _ _ _ g Hsf) as Hap.
  unfold intr_one. pose proof (P5 0%nat f eq_refl) as Hel. rewrite Z.add_0_r, Z.mod_small in Hel by (unfold NUM in *; lia). rewrite Hel, W5, W4. cbn [negb Z.eqb].
  eexists. split; [done|]. assert (∀ c, match at_ s c with WaitIO w i a => ∃ a', at_ (wakeup_io (f_b f) s) c = WaitIO w i a' | p => at_ (wakeup_io (f_b f) s) c = p end) as Hat.
  { intros c. cbn. destruct (decide (c = f_b f)) as [->|Hc]; [rewrite upd_eq, W6; by eexists|]. rewrite upd_ne by done. by destruct (at_ s c); eauto. }
  split.
  - eapply (static_perm _ (f :: Q ++ T ++ U ++ D)); [solve_Permutation|].
    pose proof Hsf as [A B C D' E F G H]. split; cbn; try done.
    + intros g Hg. destruct (D' g Hg) as [X0 X1 X2 X3 X4 X5 [a' X6]]. split; try done. specialize (Hat (f_b g)). rewrite X6 in Hat. exact Hat.
    + intros b w i a' Ha. specialize (Hat b). cbn in Hat. rewrite Ha in Hat. destruct (at_ s b) as [|w0 a0|w0 i0 a0] eqn:Eb; [congruence|congruence|by apply (E b w0 i0 a0)].
    + intros b w Ha. specialize (Hat b). cbn in Hat. rewrite Ha in Hat. destruct (at_ s b) as [|w0 a0|w0 i0 a0] eqn:Eb; [congruence| |destruct Hat; congruence].
      apply (F b w). congruence.
    + intros b c Hbc Hb Hc. apply G; [done| |]; intros E0; [specialize (Hat b)|specialize (Hat c)]; by rewrite E0 in Hat.
    + intros b w a' Ha. specialize (Hat b). cbn in Hat. rewrite Ha in Hat. destruct (at_ s b) as [|w0 a0|w0 i0 a0] eqn:Eb; [congruence| |destruct Hat; congruence]. by apply (H b w0 a0).
  - assert (∀ g, g ∈ Q ++ T ++ U ++ D → f_b g ≠ f_b f) as Hne by (intros g Hg; by apply Hap). split; cbn; try done.
    + pose proof (Z.mod_pos_bound (used_idx s + 1) NUM ltac:(done)). split; [done|]. split; [done|]. rewrite P4'', Zplus_mod_idemp_l. f_equal. cbn. lia.
    + intros k g Hk. rewrite Zplus_mod_idemp_l. rewrite <- (P5 (S k) g Hk). f_equal. f_equal. lia.
    + intros g Hg. destruct (P6 g Hg) as (B1 & B2 & B3). split; [|done]. cbn. rewrite upd_ne; [done|]. apply Hne. revert Hg. rewrite !elem_of_app. tauto.
    + intros g Hg. apply (P7 g). revert Hg. cbn. rewrite elem_of_cons, !elem_of_app, list_elem_of_singleton. tauto.
    + intros g Hg. rewrite upd_ne by (apply Hne; rewrite !elem_of_app; tauto). apply P8. by right.
    + intros g [Hg|Hg%list_elem_of_singleton]%elem_of_app; [rewrite upd_ne by (apply Hne; rewrite !elem_of_app; tauto); by apply P9|by rewrite Hg, upd_eq].
    + intros g [Hg|Hg%list_elem_of_singleton]%elem_of_app; [rewrite upd_ne by (apply Hne; rewrite !elem_of_app; tauto); by apply P10|]. by rewrite Hg, upd_eq, W6.
Qed.

(** ** The device's steps *)
Lemma static_device s s' l : static s l → desc s' = desc s → dfree s' = dfree s → at_ s' = at_ s → outhdr s' = outhdr s → b_sector s' = b_sector s →
  info_b s' = info_b s → (∀ f, f ∈ l → info_status s' (f_0 f) = 0) →
  (∀ b w a, at_ s b = WaitDesc w a → xfers s' b = xfers s b ∧ entry s' b = entry s b ∧ b_data s' b = b_data s b ∧ media s' (b_sector s b) = media s (b_sector s b)) →
  static s' l.
Proof.
  intros [A B C D E F G H] Ed Ef Ea Eo Es Ei Hst Hw. split; rewrite ?Ef, ?Ea, ?Es; try done.
  - intros f Hf. destruct (D f Hf) as [W0 W1 W2 W3 W4 W5 W6]. split; rewrite ?Ed, ?Eo, ?Es, ?Ei, ?Ea; try done. by apply Hst.
  - intros b w a Ha. destruct (Hw b w a Ha) as (-> & -> & -> & ->). by apply (H b w a).
Qed.
Lemma fetch_inv s Q T U D : static s (Q ++ T ++ U ++ D) → progress s Q T U D → seen s ≠ avail_idx s → vinv (dev_fetch s).
Proof.
  intros Hs [[P1 P1'] P2 P3 P4 P5 P6 P7 P8 P9 P10] Hne. destruct Q as [|f Q]; [exfalso; apply Hne; rewrite P1', Z.add_0_r; symmetry; by apply Z.mod_small|].
  exists Q, (T ++ [f]), U, D. split.
  - eapply (static_perm _ ((f :: Q) ++ T ++ U ++ D)); [solve_Permutation|]. eapply static_device; try done. intros g Hg. apply (st_wired _ _ Hs g Hg).
  - split; cbn; try done.
    + pose proof (Z.mod_pos_bound (seen s + 1) (2 ^ 16) ltac:(done)). split; [done|]. rewrite u16_add, P1'. f_equal. cbn. lia.
    + intros k g Hk. rewrite Z.add_mod, u16_slot, <- Z.add_mod by done. rewrite <- (P2 (S k) g Hk). f_equal. f_equal. lia.
    + rewrite P3, map_app. cbn. do 2 f_equal. rewrite <- (P2 0%nat f eq_refl). f_equal. f_equal. lia.
    + intros g Hg. apply P6. revert Hg. cbn. rewrite elem_of_cons, !elem_of_app, list_elem_of_singleton. tauto.
Qed.
Lemma request_of s f l : static s (f :: l) → dev_request (f_0 f) s = Some (f_b f, f_b f, f_0 f).
Proof.
  intros Hs. destruct (st_wired _ _ Hs f ltac:(by left)) as [W0 W1 W2 _ _ _ _]. unfold dev_request. rewrite W0. cbn [next addr flags]. rewrite W1. cbn [next addr flags].
  rewrite W2. cbn [next addr flags]. by destruct (f_w f).
Qed.
Section Done.
Context (s : vdisk) (Q T1 T2 U D : list flight) (f : flight).
Context (Hs : static s (Q ++ (T1 ++ f :: T2) ++ U ++ D)) (Hp : progress s Q (T1 ++ f :: T2) U D).
Let s' := dev_done (length T1) (f_0 f) (f_b f) (f_0 f) 0 (f_w f) (b_sector s (f_b f)) s.
Lemma done_static_head : static s (f :: Q ++ T1 ++ T2 ++ U ++ D).
Proof. eapply static_perm; [|exact Hs]. solve_Permutation. Qed.
Lemma done_eq : dev_complete (length T1) 0 s = Some s'.
Proof.
  unfold dev_complete. rewrite (pr_taken _ _ _ _ _ Hp), map_app, lookup_app_r, length_map, Nat.sub_diag by (by rewrite length_map). cbn.
  rewrite (request_of s f _ done_static_head). cbn. rewrite (w_hdr _ _ (st_wired _ _ done_static_head f ltac:(by left))). cbn. unfold s'. by destruct (f_w f).
Qed.
Lemma others_sector c : at_ s c ≠ Out → c ≠ f_b f → b_sector s c ≠ b_sector s (f_b f).
Proof.
  intros Hc Hn. apply (st_sectors _ _ Hs c (f_b f) Hn Hc). destruct (w_at _ _ (st_wired _ _ done_static_head f ltac:(by left))) as [a ->]. done.
Qed.
Lemma done_other c : at_ s c ≠ Out → c ≠ f_b f → xfers s' c = xfers s c ∧ b_data s' c = b_data s c ∧ media s' (b_sector s c) = media s (b_sector s c).
Proof.
  intros Hc Hn. pose proof (others_sector c Hc Hn) as Hsec. cbn. rewrite upd_ne by done. split; [done|]. destruct (f_w f); rewrite ?upd_ne by done; done.
Qed.
Lemma done_moved : moved s' (f_b f) (f_w f).
Proof.
  destruct (pr_before _ _ _ _ _ Hp f) as (_ & Hx & He); [rewrite !elem_of_app, elem_of_cons; tauto|].
  unfold moved. cbn. rewrite upd_eq, Hx, He. split; [done|]. destruct (f_w f); rewrite ?upd_eq; done.
Qed.
Lemma done_inv : vinv s'.
Proof.
  pose proof done_static_head as Hsf. pose proof (λ g, static_apart _ _ _ g Hsf) as Hap. pose proof Hp as [P1 P2 P3 (P4 & P4' & P4'') P5 P6 P7 P8 P9 P10].
  assert (∀ g, g ∈ Q ++ T1 ++ T2 ++ U ++ D → f_b g ≠ f_b f ∧ at_ s (f_b g) ≠ Out) as Hne.
  { intros g Hg. split; [by apply Hap|]. destruct (w_at _ _ (st_wired _ _ Hsf g ltac:(by right))) as [a ->]. done. }
  pose proof (static_few _ _ Hsf) as Hfew. cbn in Hfew. rewrite !length_app in Hfew. exists Q, (T1 ++ T2), (U ++ [f]), D. split.
  - eapply (static_perm _ (f :: Q ++ T1 ++ T2 ++ U ++ D)); [solve_Permutation|]. eapply static_device; try done.
    + intros g [->|Hg]%elem_of_cons; cbn; [by rewrite upd_eq|]. rewrite upd_ne; [by apply (st_wired _ _ Hsf); right|]. intros E.
      destruct (Hap g Hg) as [_ Hi]. apply (Hi (f_0 f)); [by left|rewrite <- E; by left].
    + intros b w a Ha. destruct (done_other b) as (X1 & X2 & X3); [by rewrite Ha| |done]. intros ->. destruct (w_at _ _ (st_wired _ _ Hsf f ltac:(by left))). congruence.
  - split; cbn; try done.
    + rewrite P3, !map_app. rewrite <- (length_map f_0 T1). cbn. by rewrite delete_middle.
    + split; [done|]. split; [apply Z.mod_pos_bound; done|]. rewrite u16_slot, Z.add_mod, P4'', <- Z.add_mod by done. f_equal. rewrite length_app. cbn. lia.
    + intros k g Hk. rewrite P4''. apply lookup_snoc_Some in Hk as [[Hk Hu]|[-> <-]]; [|by rewrite upd_eq].
      rewrite upd_ne; [by apply P5|]. apply ring_slot; lia.
    + intros g Hg. destruct (P6 g) as (B1 & B2 & B3); [revert Hg; rewrite !elem_of_app, elem_of_cons; tauto|].
      destruct (Hne g) as [N1 N2]; [revert Hg; rewrite !elem_of_app; tauto|]. destruct (done_other (f_b g) N2 N1) as (X1 & X2 & X3).
      unfold before. change (b_disk s') with (b_disk s). change (entry s') with (entry s). change (b_sector s') with (b_sector s). rewrite X1, X2, X3. done.
    + intros g Hg. assert (g = f ∨ g ∈ U ++ D) as [->|Hg2] by (revert Hg; rewrite !elem_of_app, list_elem_of_singleton; tauto); [apply done_moved|].
      destruct (Hne g) as [N1 N2]; [revert Hg2; rewrite !elem_of_app; tauto|]. destruct (done_other (f_b g) N2 N1) as (X1 & X2 & X3).
      pose proof (P7 g Hg2) as Hm. unfold moved in *. change (entry s') with (entry s). change (b_sector s') with (b_sector s). rewrite X1, X2, X3. done.
    + intros g [Hg|Hg%list_elem_of_singleton]%elem_of_app; [by apply P8|]. subst g. apply (P6 f). rewrite !elem_of_app, elem_of_cons. tauto.
Qed.
End Done.
Lemma complete_inv s k s' Q T U D : static s (Q ++ T ++ U ++ D) → progress s Q T U D → dev_complete k 0 s = Some s' → vinv s'.
Proof.
  intros Hs Hp Hc. assert (∃ f, T !! k = Some f) as [f Hf].
  { unfold dev_complete in Hc. rewrite (pr_taken _ _ _ _ _ Hp) in Hc. change (map f_0 T !! k) with ((f_0 <$> T) !! k) in Hc. rewrite list_lookup_fmap in Hc.
    destruct (T !! k) as [f|]; [by exists f|done]. }
  pose proof (lookup_lt_Some _ _ _ Hf) as Hlt. rewrite <- (take_drop_middle T k f Hf) in Hs, Hp.
  pose proof (done_eq s Q (take k T) (drop (S k) T) U D f Hs Hp) as Heq. rewrite length_take_le in Heq by lia. rewrite Hc in Heq. injection Heq as ->.
  pose proof (done_inv s Q (take k T) (drop (S k) T) U D f Hs Hp) as Hi. rewrite length_take_le in Hi by lia. done.
Qed.

(** ** Reachable states *)
Lemma out_not_flight s l f b : static s l → at_ s b = Out → f ∈ l → f_b f ≠ b.
Proof. intros Hs Hb Hf E. destruct (w_at _ _ (st_wired _ _ Hs f Hf)) as [a Ha]. congruence. Qed.
Lemma static_out s s' l b : static s l → at_ s b = Out → at_ s' = at_ s → desc s' = desc s → dfree s' = dfree s → info_b s' = info_b s → info_status s' = info_status s →
  outhdr s' = outhdr s → media s' = media s →
  (∀ c, c ≠ b → b_sector s' c = b_sector s c ∧ b_data s' c = b_data s c ∧ xfers s' c = xfers s c ∧ entry s' c = entry s c) → static s' l.
Proof.
  intros Hs Hb Ea Ed Ef Ei Et Eo Em Hc. pose proof Hs as [A B C D E F G H]. split; rewrite ?Ef, ?Ea; try done.
  - intros f Hf. destruct (D f Hf) as [W0 W1 W2 W3 W4 W5 W6]. destruct (Hc (f_b f)) as (X1 & _); [by eapply out_not_flight|]. split; rewrite ?Ed, ?Eo, ?Ei, ?Et, ?Ea, ?X1; done.
  - intros c d Hcd Hc1 Hd1. destruct (Hc c) as (-> & _); [congruence|]. destruct (Hc d) as (-> & _); [congruence|]. by apply G.
  - intros c w a Ha. destruct (Hc c) as (-> & -> & -> & ->); [congruence|]. rewrite Em. by apply (H c w a).
Qed.
Lemma progress_out s s' b Q T U D : static s (Q ++ T ++ U ++ D) → progress s Q T U D → at_ s b = Out →
  avail_idx s' = avail_idx s → avail s' = avail s → used_id s' = used_id s → used_elems s' = used_elems s → used_idx s' = used_idx s → b_disk s' = b_disk s →
  at_ s' = at_ s → seen s' = seen s → taken s' = taken s → media s' = media s →
  (∀ c, c ≠ b → b_sector s' c = b_sector s c ∧ b_data s' c = b_data s c ∧ xfers s' c = xfers s c ∧ entry s' c = entry s c) → progress s' Q T U D.
Proof.
  intros Hs [P1 P2 P3 P4 P5 P6 P7 P8 P9 P10] Hb E1 E2 E3 E4 E5 E6 E7 E8 E9 E10 Hc.
  assert (∀ f, f ∈ Q ++ T ++ U ++ D → f_b f ≠ b) as Hne by (intros f Hf; by eapply out_not_flight).
  split; rewrite ?E1, ?E2, ?E3, ?E4, ?E5, ?E6, ?E7, ?E8, ?E9; try done.
  - intros f Hf. destruct (Hc (f_b f)) as (X1 & X2 & X3 & X4); [apply Hne; revert Hf; rewrite !elem_of_app; tauto|]. unfold before. rewrite X1, X2, X3, X4, E6, E10. by apply P6.
  - intros f Hf. destruct (Hc (f_b f)) as (X1 & X2 & X3 & X4); [apply Hne; revert Hf; rewrite !elem_of_app; tauto|]. unfold moved. rewrite X1, X2, X3, X4, E10. by apply P7.
Qed.
Lemma start_fresh s b l : static s l → at_ s b = Out → (∀ c, at_ s c ≠ Out → b_sector s c ≠ b_sector s b) → fresh (open_call b s) b.
Proof.
  intros Hs Hb Hsec. split_and!; cbn; rewrite ?upd_eq; try done; [by rewrite Hb|]. intros c _. apply Hsec.
Qed.
Lemma vstep_inv s s' : vinv s → vstep s s' → vinv s'.
Proof.
  intros (Q & T & U & D & Hs & Hp) Hst. destruct Hst as [b sec d Hb|b w s' Hb Hsec He|b w s' Hb He|b w i r s' Hb He|s' Hpe He|Hne|k s' Hc].
  - exists Q, T, U, D. split; [eapply static_out|eapply progress_out]; try done; intros c Hc; cbn; by rewrite !upd_ne.
  - destruct (enter_inv (open_call b s) b w Q T U D) as (s2 & E2 & Hi); [| |by eapply start_fresh|congruence].
    + eapply static_out; try done. intros c Hc. cbn. by rewrite !upd_ne.
    + eapply progress_out; try done. intros c Hc. cbn. by rewrite !upd_ne.
  - destruct (enter_inv s b w Q T U D Hs Hp) as (s2 & E2 & Hi); [|congruence].
    destruct (st_entry _ _ Hs b w false Hb) as [Hx Hen]. split_and!; try done; [by rewrite Hb|]. intros c Hc Ho. apply (st_sectors _ _ Hs); [done|done|by rewrite Hb].
  - destruct (resume_inv s b w i false Q T U D Hs Hp Hb) as (r2 & s2 & E2 & Hi & _). congruence.
  - apply (pending_iff _ _ _ _ _ Hs Hp) in Hpe. destruct U as [|f U]; [done|]. destruct (intr_inv _ _ _ _ _ _ Hs Hp) as (s2 & E2 & Hs2 & Hp2).
    assert (s' = s2) as -> by congruence. by exists Q, T, U, (D ++ [f]).
  - by eapply fetch_inv.
  - by eapply complete_inv.
Qed.
Lemma boot_vinv s0 s : vboot s0 s → vinv s.
Proof.
  intros (-> & Hu & Hse & Ht & Hat). exists [], [], [], []. split.
  - split; cbn.
    + apply NoDup_nil_2.
    + by intros i Hi%elem_of_nil.
    + intros i Hi. rewrite bool_decide_eq_true. split; [intros _; apply not_elem_of_nil|done].
    + by intros f Hf%elem_of_nil.
    + intros b w i a Hb. by rewrite Hat in Hb.
    + intros b w Hb. by rewrite Hat in Hb.
    + intros b c _ Hb. by rewrite Hat in Hb.
    + intros b w a Hb. by rewrite Hat in Hb.
  - split; cbn; rewrite ?Hu, ?Hse, ?Ht; try done; by intros f Hf%elem_of_nil.
Qed.
Lemma reach_vinv s0 s s' : vboot s0 s → rtc vstep s s' → vinv s'.
Proof. intros Hb H. apply boot_vinv in Hb. induction H as [s|s s1 s2 Hst _ IH]; [done|]. apply IH. by eapply vstep_inv. Qed.
Lemma intr_loop_spec fuel s Q T U D : static s (Q ++ T ++ U ++ D) → progress s Q T U D → (length U < fuel)%nat →
  ∃ s' D', intr_loop fuel s = Ok tt s' ∧ static s' (Q ++ T ++ [] ++ D') ∧ progress s' Q T [] D'.
Proof.
  revert s U D. induction fuel as [|fuel IH]; intros s U D Hs Hp Hf; [lia|]. cbn [intr_loop]. unfold mbindM, gets.
  pose proof (pending_iff _ _ _ _ _ Hs Hp) as Hpe. destruct (intr_pending s) eqn:E.
  - destruct U as [|f U]; [by destruct (proj1 Hpe eq_refl)|]. destruct (intr_inv _ _ _ _ _ _ Hs Hp) as (s2 & -> & Hs2 & Hp2). apply (IH s2 U (D ++ [f])); try done. cbn in Hf. lia.
  - destruct U as [|f U]; [by exists s, D|]. destruct Hpe as [_ Hpe]. by specialize (Hpe ltac:(done)).
Qed.


(** C27: no process of the driver sleeps forever: while one sleeps on its request, the
    device has a request to fetch or to finish or an interrupt has work to do; one
    sleeps for descriptors only while two requests are in flight, whose completion
    wakes it; and when none is in flight, all descriptors are free again. *)
Theorem virtio_no_lost_wakeup s0 s s' : vboot s0 s → rtc vstep s s' →
  (∀ b w i, at_ s' b = WaitIO w i true → b_disk s' b = 1 ∧ (seen s' ≠ avail_idx s' ∨ taken s' ≠ [] ∨ intr_pending s' = true)) ∧
  (∀ b w, at_ s' b = WaitDesc w true → ∃ b1 w1 i1 a1 b2 w2 i2 a2, b1 ≠ b2 ∧ at_ s' b1 = WaitIO w1 i1 a1 ∧ at_ s' b2 = WaitIO w2 i2 a2) ∧
  ((∀ b w i a, at_ s' b ≠ WaitIO w i a) → ∀ i, 0 ≤ i < NUM → dfree s' i = true).
Proof.
  intros Hb Hr. destruct (reach_vinv _ _ _ Hb Hr) as (Q & T & U & D & Hs & Hp). split_and!.
  - intros b w i Ha. destruct (static_find _ _ _ _ _ _ Hs Ha) as (f & Hf & <- & _). pose proof (static_few _ _ Hs) as Hfew. rewrite !length_app in Hfew.
    rewrite !elem_of_app in Hf. destruct Hf as [Hf|[Hf|[Hf|Hf]]].
    + split; [apply (pr_before _ _ _ _ _ Hp f); rewrite elem_of_app; tauto|]. left. destruct (pr_avail _ _ _ _ _ Hp) as [Hse ->]. unfold u16.
      destruct Q as [|g Q]; [by apply elem_of_nil in Hf|]. cbn [length] in *. Z.to_euclidean_division_equations. lia.
    + split; [apply (pr_before _ _ _ _ _ Hp f); rewrite elem_of_app; tauto|]. right. left. rewrite (pr_taken _ _ _ _ _ Hp). by destruct T; [apply elem_of_nil in Hf|].
    + split; [by apply (pr_owned _ _ _ _ _ Hp)|]. right. right. apply (pending_iff _ _ _ _ _ Hs Hp). intros ->. by apply elem_of_nil in Hf.
    + rewrite (pr_awake _ _ _ _ _ Hp f Hf) in Ha. done.
  - intros b w Ha. pose proof (st_sleep _ _ Hs b w Ha) as Hl. destruct (Q ++ T ++ U ++ D) as [|f [|g l]]; cbn in Hl; try lia.
    destruct (static_apart _ _ _ g Hs ltac:(by left)) as [Hne _]. destruct (w_at _ _ (st_wired _ _ Hs f ltac:(by left))) as [a1 H1].
    destruct (w_at _ _ (st_wired _ _ Hs g ltac:(right; by left))) as [a2 H2]. exists (f_b f), (f_w f), (f_0 f), a1, (f_b g), (f_w g), (f_0 g), a2. done.
  - intros Hn i Hi. apply (st_free _ _ Hs i Hi). intros (f & Hf & _)%used_by_elem. destruct (w_at _ _ (st_wired _ _ Hs f Hf)) as [a Ha]. by apply (Hn _ _ _ _ Ha).
Qed.

(** ** Runs *)
Definition quiet_machine : vdisk :=
  VD (λ _, Desc ANull 0 0 0) 0 (λ _, 0) 0 (λ _, 0) (λ _, false) 0 (λ _, None) (λ _, 0) (λ _, 0) (λ b, [b]) (λ b, 10 * b) (λ _, Outhdr 0 0 0) (λ _, Out)
    (λ n, [n; n]) 0 [] (λ _, []) (λ _, ([], [])).
Definition run {A} (c : M vdisk A) (s : vdisk) : vdisk := match c s with Ok _ s' => s' | Panic _ => s end.
Definition after {A} (o : option A) (d : A) : A := match o with Some a => a | None => d end.
Definition v0 : vdisk := virtio_disk_init quiet_machine.
Definition v1 : vdisk := run (rw_enter 1 false) (open_call 1 v0).
Definition v2 : vdisk := run (rw_enter 2 true) (open_call 2 v1).
Definition v3 : vdisk := run (rw_enter 3 false) (open_call 3 v2).
Definition v4 : vdisk := dev_fetch (dev_fetch v3).
Definition v5 : vdisk := after (dev_complete 1 0 v4) v4.
Definition v6 : vdisk := run intr_one v5.
Definition succeeds {A} (c : M vdisk A) (s : vdisk) : bool := match c s with Ok _ _ => true | Panic _ => false end.
Lemma run_ok (c : M vdisk unit) s : succeeds c s = true → c s = Ok tt (run c s).
Proof. unfold succeeds, run. by destruct (c s) as [[] s'|]. Qed.
Lemma after_ok {A} (o : option A) d : (if o then true else false) = true → o = Some (after o d).
Proof. by destruct o. Qed.
Lemma demo_start s b w : at_ s b = Out → (∀ c, at_ s c ≠ Out → b_sector s c ≠ b_sector s b) → succeeds (rw_enter b w) (open_call b s) = true →
  vstep s (run (rw_enter b w) (open_call b s)).
Proof. intros H1 H2 H3. by apply (vs_start _ b w); [| |apply run_ok]. Qed.
Lemma v1_at : at_ v1 = upd (λ _, Out) 1 (WaitIO false 0 true) ∧ b_sector v1 = (λ b, 10 * b).
Proof. vm_compute. done. Qed.
Lemma v2_at : at_ v2 = upd (upd (λ _, Out) 1 (WaitIO false 0 true)) 2 (WaitIO true 3 true) ∧ b_sector v2 = (λ b, 10 * b).
Proof. vm_compute. done. Qed.
Lemma v3_reached : rtc vstep v0 v3.
Proof.
  apply (rtc_l _ _ v1); [apply demo_start; [done|by intros c Hc|by vm_compute]|].
  apply (rtc_l _ _ v2); [apply demo_start; [by vm_compute| |by vm_compute]|].
  { destruct v1_at as [-> ->]. intros c Hc. destruct (decide (c = 1)) as [->|Hn]; [done|]. by rewrite upd_ne in Hc. }
  apply rtc_once, demo_start; [by vm_compute| |by vm_compute]. destruct v2_at as [-> ->]. intros c Hc.
  destruct (decide (c = 2)) as [->|H2]; [done|]. destruct (decide (c = 1)) as [->|H1]; [done|]. by rewrite !upd_ne in Hc.
Qed.
Lemma v6_reached : rtc vstep v0 v6.
Proof.
  transitivity v3; [exact v3_reached|]. apply (rtc_l _ _ (dev_fetch v3)); [apply vs_fetch; by vm_compute|]. apply (rtc_l _ _ v4); [apply vs_fetch; by vm_compute|].
  apply (rtc_l _ _ v5); [apply (vs_done _ 1), after_ok; by vm_compute|]. apply rtc_once, vs_intr; [by vm_compute|apply run_ok; by vm_compute].
Qed.
(** The third process waits for descriptors, the second request is done first. *)
Example v3_waits : at_ v3 3 = WaitDesc false true ∧ at_ v6 2 = WaitIO true 3 false ∧ media v6 20 = [2].
Proof. by vm_compute. Qed.
(** A waiter's failed attempt gives back the two descriptors it got and wakes the
    other waiters, though none became available. *)
Example waiters_wake_each_other :
  at_ (run (rw_enter 4 false) (open_call 4 v3)) 3 = WaitDesc false false ∧ at_ (run (rw_enter 4 false) (open_call 4 v3)) 4 = WaitDesc false true.
Proof. by vm_compute. Qed.
(** A request the device fails stops the kernel. *)
Example device_error_panics : match dev_complete 0 1 v4 with Some s => virtio_disk_intr s | None => Panic EmptyString end = Panic "virtio_disk_intr status".
Proof. by vm_compute. Qed.

Lemma virtio_no_lost_wakeup_witness :
  (∀ b w i, at_ v3 b = WaitIO w i true → b_disk v3 b = 1 ∧ (seen v3 ≠ avail_idx v3 ∨ taken v3 ≠ [] ∨ intr_pending v3 = true)) ∧
  (∀ b w, at_ v3 b = WaitDesc w true → ∃ b1 w1 i1 a1 b2 w2 i2 a2, b1 ≠ b2 ∧ at_ v3 b1 = WaitIO w1 i1 a1 ∧ at_ v3 b2 = WaitIO w2 i2 a2) ∧
  ((∀ b w i a, at_ v3 b ≠ WaitIO w i a) → ∀ i, 0 ≤ i < NUM → dfree v3 i = true).
Proof. apply (virtio_no_lost_wakeup quiet_machine v0 v3); [by split_and!|exact v3_reached]. Defined.
