(* ===== verification/Uart.v ===== *)
(** * The serial line driver (kernel/uart.c)

    A transmit ring of [UART_TX_BUF_SIZE] bytes between the writers, which sleep
    when it is full, and the device.  [uart_tx_lock] makes the code between two
    sleeps one step.  The line status register is the environment: [uartstart k]
    runs while the register says [k] times that the device takes a byte. *)
From stdpp Require Import prelude list strings.
From Stdlib Require Import ZArith Lia.
From S2P Require Import Prelude Pipe Printf ProcDefs Console.
Open Scope Z_scope.

Definition UART_TX_BUF_SIZE : Z := 32.
(** The registers [uartinit] writes, in order, and the values. *)
Definition uart_setup : list (Z * Z) :=
  [(1, 0); (3, Z.shiftl 1 7); (0, 3); (1, 0); (3, Z.shiftl 3 0); (2, Z.lor (Z.shiftl 1 0) (Z.shiftl 3 1)); (1, Z.lor (Z.shiftl 1 0) (Z.shiftl 1 1))].

(** [thr] is what the device got; [waiting] the byte a process has in [uartputc] and
    whether it sleeps. *)
Record uart := Uart { tx_buf : Z → Z; tx_w : Z; tx_r : Z; thr : list Z; waiting : Z → option (Z * bool); panicked : bool }.
Definition uartinit (s : uart) : uart := Uart (tx_buf s) 0 0 (thr s) (waiting s) (panicked s).
Definition wake_tx (f : Z → option (Z * bool)) : Z → option (Z * bool) := λ p, match f p with Some (c, _) => Some (c, false) | None => None end.

Fixpoint uartstart (k : nat) (s : uart) : uart :=
  if tx_w s =? tx_r s then s
  else match k with
  | O => s
  | S k =>
      uartstart k (Uart (tx_buf s) (tx_w s) ((tx_r s + 1) mod UART_TX_BUF_SIZE) (thr s ++ [tx_buf s (tx_r s)]) (wake_tx (waiting s)) (panicked s))
  end.
Definition tx_full (s : uart) : bool := (tx_w s + 1) mod UART_TX_BUF_SIZE =? tx_r s.
(** [uartputc] by process [p] up to its next sleep; [None] when it spins for ever
    after a panic. *)
Definition uartputc (k : nat) (p c : Z) (s : uart) : option uart :=
  if panicked s then None
  else if tx_full s then Some (Uart (tx_buf s) (tx_w s) (tx_r s) (thr s) (upd (waiting s) p (Some (c, true))) (panicked s))
  else Some (uartstart k (Uart (upd (tx_buf s) (tx_w s) (u8 c)) ((tx_w s + 1) mod UART_TX_BUF_SIZE) (tx_r s) (thr s) (upd (waiting s) p None) (panicked s))).
(** [uartputc_sync], once the register says that the device is idle. *)
Definition uartputc_sync (c : Z) (s : uart) : option uart :=
  if panicked s then None else Some (Uart (tx_buf s) (tx_w s) (tx_r s) (thr s ++ [u8 c]) (waiting s) (panicked s)).
(** [uartgetc] with the bytes that have arrived. *)
Definition uartgetc (rx : list Z) : Z * list Z := match rx with [] => (-1, []) | c :: rx => (c, rx) end.
(** The handler takes all the input, then starts the transmitter. *)
Fixpoint uart_input (dump : list Z) (rx : list Z) (con : console) : console :=
  match rx with [] => con | c :: rx => uart_input dump rx (consoleintr dump c con).1 end.
Definition uartintr (k : nat) (dump rx : list Z) (s : uart) (con : console) : uart * console := (uartstart k s, uart_input dump rx con).

(** ** The ring as a queue *)
Definition tx_len (s : uart) : Z := (tx_w s - tx_r s) mod UART_TX_BUF_SIZE.
Definition tx_queue (s : uart) : list Z := (λ k, tx_buf s ((tx_r s + k) mod UART_TX_BUF_SIZE)) <$> seqZ 0 (tx_len s).
Definition uart_ok (s : uart) : Prop := 0 ≤ tx_w s < UART_TX_BUF_SIZE ∧ 0 ≤ tx_r s < UART_TX_BUF_SIZE.

Ltac ring_lia := unfold tx_len, UART_TX_BUF_SIZE in *; cbn [tx_w tx_r] in *; Z.to_euclidean_division_equations; lia.
Lemma tx_empty s : uart_ok s → tx_w s = tx_r s ↔ tx_len s = 0.
Proof. intros [H1 H2]. ring_lia. Qed.
Lemma tx_full_iff s : uart_ok s → tx_full s = true ↔ tx_len s = 31.
Proof. intros [H1 H2]. unfold tx_full. rewrite Z.eqb_eq. ring_lia. Qed.
Lemma tx_pop s out w : uart_ok s → tx_w s ≠ tx_r s → let s' := Uart (tx_buf s) (tx_w s) ((tx_r s + 1) mod UART_TX_BUF_SIZE) out w (panicked s) in
  uart_ok s' ∧ tx_len s' = tx_len s - 1 ∧ tx_queue s = tx_buf s (tx_r s) :: tx_queue s'.
Proof.
  intros [H1 H2] Hne s'. assert (tx_len s' = tx_len s - 1) as El by (unfold s'; ring_lia). split; [unfold uart_ok, s'; cbn; split; [done|apply Z.mod_pos_bound; done]|]. split; [done|].
  unfold tx_queue. rewrite El. assert (0 < tx_len s) as Hp by ring_lia. rewrite (seqZ_cons 0 (tx_len s)) by lia. rewrite fmap_cons. f_equal.
  - f_equal. rewrite Z.add_0_r. by apply Z.mod_small.
  - change (Z.succ 0) with (1 + 0). rewrite <- fmap_add_seqZ. replace (Z.pred (tx_len s)) with (tx_len s - 1) by lia. rewrite <- list_fmap_compose. apply list_fmap_ext. intros i k _. unfold compose. unfold s'. cbn [tx_buf tx_r].
    f_equal. rewrite Zplus_mod_idemp_l. f_equal. lia.
Qed.
Lemma tx_push s c w : uart_ok s → tx_full s = false → let s' := Uart (upd (tx_buf s) (tx_w s) c) ((tx_w s + 1) mod UART_TX_BUF_SIZE) (tx_r s) (thr s) w (panicked s) in
  uart_ok s' ∧ tx_len s' = tx_len s + 1 ∧ tx_queue s' = tx_queue s ++ [c].
Proof.
  intros [H1 H2] Hf s'. assert (tx_len s ≠ 31) as Hn by (intros E; apply (tx_full_iff s) in E; [congruence|done]).
  assert (tx_len s' = tx_len s + 1) as El by (unfold s'; ring_lia). split; [unfold uart_ok, s'; cbn; split; [apply Z.mod_pos_bound; done|done]|]. split; [done|].
  assert (0 ≤ tx_len s < 32) as Hl by ring_lia. unfold tx_queue. rewrite El, seqZ_app, fmap_app by lia. f_equal.
  - apply list_fmap_ext. intros i k Hk%list_elem_of_lookup_2%elem_of_seqZ. unfold s'. cbn [tx_buf tx_r]. apply upd_ne. ring_lia.
  - change (seqZ (0 + tx_len s) 1) with [0 + tx_len s]. rewrite list_fmap_singleton. f_equal. unfold s'. cbn [tx_buf tx_r].
    replace ((tx_r s + (0 + tx_len s)) mod UART_TX_BUF_SIZE) with (tx_w s) by ring_lia. apply upd_eq.
Qed.
(** [uartstart] moves the oldest bytes to the device; when it moves any, every
    sleeper is awake. *)
Lemma uartstart_spec k s : uart_ok s → let s' := uartstart k s in
  uart_ok s' ∧ thr s' ++ tx_queue s' = thr s ++ tx_queue s ∧ tx_len s' = Z.max 0 (tx_len s - Z.of_nat k) ∧ panicked s' = panicked s ∧
  (∀ p, fst <$> waiting s' p = fst <$> waiting s p) ∧ (∀ p c, waiting s' p = Some (c, true) → waiting s p = Some (c, true)) ∧
  (k ≠ 0%nat → tx_len s ≠ 0 → ∀ p c, waiting s' p ≠ Some (c, true)).
Proof.
  revert s. induction k as [|k IH]; intros s Hok; cbn [uartstart].
  - assert (0 ≤ tx_len s) by ring_lia. destruct (tx_w s =? tx_r s); split_and!; try done; lia.
  - destruct (Z.eqb_spec (tx_w s) (tx_r s)) as [E|Hne].
    { apply (tx_empty s Hok) in E. rewrite E. split_and!; done || lia. }
    destruct (tx_pop s (thr s ++ [tx_buf s (tx_r s)]) (wake_tx (waiting s)) Hok Hne) as (Hok1 & El & Eq). set (s1 := Uart _ _ _ _ _ _) in *.
    destruct (IH s1 Hok1) as (I1 & I2 & I3 & I4 & I5 & I6 & _). assert (0 < tx_len s) by (pose proof (proj2 (tx_empty s Hok)); destruct Hok; ring_lia).
    assert (∀ p c, wake_tx (waiting s) p ≠ Some (c, true)) as Hw by (intros p c; unfold wake_tx; by destruct (waiting s p) as [[]|]).
    split_and!; try done.
    + rewrite I2, Eq. unfold s1. cbn [thr]. by rewrite <- app_assoc.
    + rewrite I3, El. lia.
    + intros p. rewrite I5. unfold s1, wake_tx. cbn. by destruct (waiting s p) as [[]|].
    + intros p c Hp. apply I6 in Hp. by apply Hw in Hp.
    + intros _ _ p c Hp. apply I6 in Hp. by apply Hw in Hp.
Qed.

(** ** Writers and interrupts interleaved *)
(** [accepted] are the bytes in the order in which [uartputc] took them. *)
Record uworld := UWorld { dev : uart; accepted : list Z }.
Inductive ustep (w : uworld) : uworld → Prop :=
  | u_call k p c s' : 0 ≤ c < 256 → waiting (dev w) p = None ∨ waiting (dev w) p = Some (c, false) → uartputc k p c (dev w) = Some s' →
      ustep w (UWorld s' (if tx_full (dev w) then accepted w else accepted w ++ [c]))
  | u_intr k dump rx con : ustep w (UWorld (uartintr k dump rx (dev w) con).1 (accepted w)).
Definition uart_boot (s : uart) : Prop := thr s = [] ∧ ∀ p, waiting s p = None.
Record uinv (w : uworld) : Prop := {
  ui_ok : uart_ok (dev w);
  ui_fifo : thr (dev w) ++ tx_queue (dev w) = accepted w;
  ui_sleep : ∀ p c, waiting (dev w) p = Some (c, true) → tx_len (dev w) = 31 }.
Lemma uartstart_inv k s acc : uinv (UWorld s acc) → uinv (UWorld (uartstart k s) acc).
Proof.
  intros [Hok Hf Hs]. cbn [dev accepted] in *. destruct (uartstart_spec k s Hok) as (H1 & H2 & H3 & _ & _ & H6 & H7). split; cbn; [done|by rewrite H2|].
  intros p c Hp. pose proof (Hs p c (H6 p c Hp)) as E. destruct k as [|k]; [rewrite H3, E; done|]. exfalso. apply (H7 ltac:(done) ltac:(lia) p c Hp).
Qed.
Lemma ustep_inv w w' : uinv w → ustep w w' → uinv w'.
Proof.
  intros Hi [k p c s' Hc Hw Hput|k dump rx con]; [|by destruct w; apply uartstart_inv]. pose proof Hi as [Hok Hf Hs]. unfold uartputc in Hput.
  destruct (panicked (dev w)) eqn:Ep; [done|]. destruct (tx_full (dev w)) eqn:Ef; injection Hput as <-.
  - split; cbn; try done. intros q d Hq. change (tx_len (dev w) = 31). by apply tx_full_iff.
  - apply uartstart_inv. destruct (tx_push (dev w) (u8 c) (upd (waiting (dev w)) p None) Hok Ef) as (H1 & H2 & H3). rewrite Ep in *. set (s1 := Uart _ _ _ _ _ _) in *.
    split; cbn [dev accepted]; [done| |].
    + rewrite H3, app_assoc. f_equal; [exact Hf|]. by rewrite u8_small.
    + intros q d Hq. exfalso. unfold s1 in Hq. cbn [waiting] in Hq. destruct (decide (q = p)) as [->|Hn]; [by rewrite upd_eq in Hq|]. rewrite upd_ne in Hq by done.
      apply Hs in Hq. apply (tx_full_iff _ Hok) in Hq. congruence.
Qed.
Lemma ureach_inv s w : uart_boot s → rtc ustep (UWorld (uartinit s) []) w → uinv w.
Proof.
  intros [Ht Hw] H. assert (uinv (UWorld (uartinit s) [])) as Hi.
  { split; cbn; [unfold uart_ok; cbn; done|by rewrite Ht|]. intros p c Hp. by rewrite Hw in Hp. }
  revert Hi. induction H as [|w1 w2 w3 Hst _ IH]; [done|]. intros Hi. apply IH. by eapply ustep_inv.
Qed.

(** whatever writers and interrupts interleave, the device gets the bytes in the
    order in which [uartputc] took them, none lost, repeated or overwritten: what
    was sent, then what the ring holds, is what was taken.  The ring holds at most
    31 bytes; a writer sleeps only while it is full, when the device's next
    interrupt, if it takes a byte, wakes it. *)
Theorem uart_fifo s w : uart_boot s → rtc ustep (UWorld (uartinit s) []) w →
  thr (dev w) ++ tx_queue (dev w) = accepted w ∧ (length (tx_queue (dev w)) ≤ 31)%nat ∧
  (∀ p c, waiting (dev w) p = Some (c, true) → length (tx_queue (dev w)) = 31%nat ∧
    ∀ k dump rx con, waiting (uartintr (S k) dump rx (dev w) con).1 p = Some (c, false)).
Proof.
  intros Hb Hr. destruct (ureach_inv s w Hb Hr) as [Hok Hf Hs].
  assert (length (tx_queue (dev w)) = Z.to_nat (tx_len (dev w))) as El by (unfold tx_queue; rewrite length_fmap; apply length_seqZ).
  assert (0 ≤ tx_len (dev w) < 32) as Hl by ring_lia. split; [done|]. split; [rewrite El; lia|]. intros p c Hp. pose proof (Hs p c Hp) as E. rewrite El, E. split; [done|].
  intros k dump rx con. destruct (uartstart_spec (S k) (dev w) Hok) as (_ & _ & _ & _ & H5 & _ & H7). specialize (H5 p). specialize (H7 ltac:(done) ltac:(lia) p c).
  cbn [fst uartintr]. rewrite Hp in H5. destruct (waiting (uartstart (S k) (dev w)) p) as [[d []]|]; cbn in H5; congruence.
Qed.

(** The handler feeds the console every byte that arrived, in order, until
    [uartgetc] says that none is left. *)
Lemma uart_input_all dump rx con : uart_input dump rx con = foldl (λ s c, (consoleintr dump c s).1) con rx ∧ (uartgetc []).1 = -1.
Proof. split; [|done]. revert con. induction rx as [|c rx IH]; intros con; [done|]. apply IH. Qed.

(** ** Runs *)
Definition uart0 : uart := Uart (λ _, 0) 5 7 [] (λ _, None) false.
Fixpoint put_all (l : list Z) (s : uart) : uart := match l with [] => s | c :: l => match uartputc 0 9 c s with Some s => put_all l s | None => s end end.
Definition full_uart : uart := put_all (seqZ 65 32) (uartinit uart0).
Example full_uart_sleeps : waiting full_uart 9 = Some (96, true) ∧ thr (uartstart 3 full_uart) = [65; 66; 67] ∧ waiting (uartstart 3 full_uart) 9 = Some (96, false).
Proof. by vm_compute. Qed.
Definition two_sent : uworld := UWorld (uartstart 1 (uartstart 0 (Uart (upd (upd (λ _, 0) 0 72) 1 105) 2 0 [] (upd (upd (λ _, None) 9 None) 9 None) false))) [72; 105].
Lemma uart_fifo_witness : thr (dev two_sent) ++ tx_queue (dev two_sent) = accepted two_sent ∧ (length (tx_queue (dev two_sent)) ≤ 31)%nat ∧
  (∀ p c, waiting (dev two_sent) p = Some (c, true) → length (tx_queue (dev two_sent)) = 31%nat ∧
    ∀ k dump rx con, waiting (uartintr (S k) dump rx (dev two_sent) con).1 p = Some (c, false)).
Proof.
  apply (uart_fifo uart0 two_sent); [done|]. eapply rtc_l; [apply (u_call _ 0 9 72); [lia|by left|reflexivity]|]. cbn.
  eapply rtc_l; [apply (u_call _ 0 9 105); [lia|by left|reflexivity]|]. cbn. apply rtc_once. exact (u_intr (UWorld _ _) 1 [] [] (Con (λ _, 0) 0 0 0 [])).
Defined.
