(* ===== verification/Grep.v ===== *)
(** * grep (xv6-user/grep.c)

    The matcher of Kernighan and Pike against a denotation of its patterns, and
    the line buffer of [grep].  A C string is the list of its characters without
    the terminator: [re[0] == '\0'] is the empty list. *)
From stdpp Require Import prelude list strings.
From Stdlib Require Import ZArith Lia.
From S2P Require Import Prelude.
Open Scope Z_scope.

Definition CARET : Z := 94.
Definition DOT : Z := 46.
Definition STAR : Z := 42.
Definition DOLLAR : Z := 36.
Definition NL : Z := 10.

(** [matchstar], given how the rest of the pattern matches. *)
Fixpoint matchstar (here : list Z → bool) (c : Z) (text : list Z) : bool :=
  here text || match text with
  | [] => false
  | t :: text => if (t =? c) || (c =? DOT) then matchstar here c text else false
  end.
Fixpoint matchhere (re : list Z) (text : list Z) {struct re} : bool :=
  match re with
  | [] => true
  | c :: re' =>
      match re' with
      | s :: re'' =>
          if s =? STAR then matchstar (matchhere re'') c text
          else match text with t :: text => if (c =? DOT) || (c =? t) then matchhere re' text else false | [] => false end
      | [] =>
          if c =? DOLLAR then match text with [] => true | _ => false end
          else match text with t :: text => if (c =? DOT) || (c =? t) then matchhere re' text else false | [] => false end
      end
  end.
Fixpoint match_from (re : list Z) (text : list Z) : bool :=
  matchhere re text || match text with [] => false | _ :: text => match_from re text end.
Definition match_ (re text : list Z) : bool :=
  match re with c :: re' => if c =? CARET then matchhere re' text else match_from re text | [] => match_from re text end.

(** ** What a pattern means *)
Inductive item := One (c : Z) | Many (c : Z).
(** The items of a pattern, and whether it ends with an anchor. *)
Fixpoint items (re : list Z) : list item * bool :=
  match re with
  | [] => ([], false)
  | c :: re' =>
      match re' with
      | s :: re'' => if s =? STAR then let '(l, e) := items re'' in (Many c :: l, e) else let '(l, e) := items re' in (One c :: l, e)
      | [] => if c =? DOLLAR then ([], true) else ([One c], false)
      end
  end.
Definition char_ok (c t : Z) : Prop := c = DOT ∨ c = t.
(** The strings a list of items stands for. *)
Inductive denotes : list item → list Z → Prop :=
  | d_nil : denotes [] []
  | d_one c t l w : char_ok c t → denotes l w → denotes (One c :: l) (t :: w)
  | d_many c l v w : Forall (char_ok c) v → denotes l w → denotes (Many c :: l) (v ++ w).
(** A prefix of [text] matches, all of it when the pattern is anchored. *)
Definition prefix_match (re text : list Z) : Prop :=
  let '(l, e) := items re in ∃ w rest, text = w ++ rest ∧ denotes l w ∧ (e = true → rest = []).
Definition spec_match (re text : list Z) : Prop :=
  match re with
  | c :: re' => if c =? CARET then prefix_match re' text else ∃ skipped rest, text = skipped ++ rest ∧ prefix_match re rest
  | [] => ∃ skipped rest, text = skipped ++ rest ∧ prefix_match re rest
  end.

Lemma matchstar_spec here c text : matchstar here c text = true ↔ ∃ v rest, text = v ++ rest ∧ Forall (char_ok c) v ∧ here rest = true.
Proof.
  induction text as [|t text IH]; cbn [matchstar]; rewrite orb_true_iff.
  - split; [intros [H|H]; [by exists [], []|done]|]. intros (v & rest & E & _ & H). symmetry in E. apply app_nil in E as [-> ->]. by left.
  - split.
    + intros [H|H]; [by exists [], (t :: text)|]. destruct ((t =? c) || (c =? DOT)) eqn:Ec; [|done]. apply IH in H as (v & rest & -> & Hv & H).
      exists (t :: v), rest. split_and!; try done. constructor; [|done]. apply orb_prop in Ec as [E%Z.eqb_eq|E%Z.eqb_eq]; [by right|by left].
    + intros ([|t' v] & rest & E & Hv & H); [left; cbn in E; by subst|right]. injection E as -> ->. apply Forall_cons in Hv as [Hc Hv].
      assert ((t' =? c) || (c =? DOT) = true) as -> by (apply orb_true_iff; rewrite !Z.eqb_eq; destruct Hc as [->| ->]; auto). apply IH. by exists v, rest.
Qed.
Lemma char_ok_iff c t : (c =? DOT) || (c =? t) = true ↔ char_ok c t.
Proof. unfold char_ok. rewrite orb_true_iff, !Z.eqb_eq. done. Qed.
Lemma prefix_one c re text : (let '(l, e) := items re in ∃ w rest, text = w ++ rest ∧ denotes (One c :: l) w ∧ (e = true → rest = [])) ↔
  match text with t :: text => char_ok c t ∧ prefix_match re text | [] => False end.
Proof.
  unfold prefix_match. destruct (items re) as [l e]. split.
  - intros (w & rest & -> & Hd & He). inversion Hd; subst. split; [done|]. by exists w0, rest.
  - destruct text as [|t text]; [done|]. intros (Hc & w & rest & -> & Hd & He). exists (t :: w), rest. split_and!; try done. by constructor.
Qed.
(** The pattern is consumed an item at a time: induction on its length. *)
Lemma matchhere_spec re text : matchhere re text = true ↔ prefix_match re text.
Proof.
  remember (length re) as n eqn:En. revert re text En. induction (lt_wf n) as [n _ IH]. intros re text ->. destruct re as [|c [|s re]].
  - split; [intros _; exists [], text; split_and!; [done|constructor|done]|done].
  - cbn [matchhere]. unfold prefix_match. cbn [items]. destruct (c =? DOLLAR).
    + split; [destruct text; [intros _; exists [], []; split_and!; try done; constructor|done]|]. intros (w & rest & -> & Hd & He). inversion Hd; subst. by rewrite (He eq_refl).
    + pose proof (prefix_one c [] text) as Hp. cbn [items] in Hp. rewrite Hp. destruct text as [|t text]; [done|]. rewrite <- char_ok_iff. destruct (_ || _); [|split; [done|by intros [? _]]].
      split; [|done]. intros _. split; [done|]. exists [], text. split_and!; try done. constructor.
  - cbn [matchhere]. unfold prefix_match. change (items (c :: s :: re)) with (if s =? STAR then let '(l, e) := items re in (Many c :: l, e) else let '(l, e) := items (s :: re) in (One c :: l, e)).
    destruct (s =? STAR).
    + rewrite matchstar_spec. pose proof (λ t, IH (length re) ltac:(cbn; lia) re t eq_refl) as IHr. unfold prefix_match in IHr. destruct (items re) as [l e]. split.
      * intros (v & rest & -> & Hv & Hm). apply IHr in Hm as (w & rest' & -> & Hd & He). exists (v ++ w), rest'. split_and!; [by rewrite app_assoc|by constructor|done].
      * intros (w & rest & -> & Hd & He). inversion Hd as [| |? ? v w' Hv Hd']; subst. exists v, (w' ++ rest). split_and!; [by rewrite app_assoc|done|]. apply IHr. by exists w', rest.
    + pose proof (prefix_one c (s :: re) text) as Hp. destruct (items (s :: re)) as [l e] eqn:Ei. rewrite Hp. destruct text as [|t text]; [done|].
      rewrite <- char_ok_iff, <- (IH (length (s :: re)) ltac:(cbn; lia) (s :: re) text eq_refl). destruct (_ || _); [tauto|]. split; [done|by intros [? _]].
Qed.
Lemma match_from_spec re text : match_from re text = true ↔ ∃ skipped rest, text = skipped ++ rest ∧ prefix_match re rest.
Proof.
  induction text as [|t text IH]; cbn [match_from]; rewrite orb_true_iff, matchhere_spec.
  - split; [intros [H|H]; [by exists [], []|done]|]. intros (v & rest & E & H). symmetry in E. apply app_nil in E as [-> ->]. by left.
  - rewrite IH. split.
    + intros [H|(v & rest & -> & H)]; [by exists [], (t :: text)|by exists (t :: v), rest].
    + intros ([|t' v] & rest & E & H); [left; cbn in E; by subst|right]. injection E as -> ->. by exists v, rest.
Qed.

Lemma match_spec re text : match_ re text = true ↔ spec_match re text.
Proof.
  unfold match_, spec_match. destruct re as [|c re]; [apply match_from_spec|]. destruct (c =? CARET); [apply matchhere_spec|apply match_from_spec].
Qed.
(** C39: the matcher decides the language of its patterns: [match] says yes exactly when
    some substring of the line (a prefix after a leading caret, a suffix before a
    trailing dollar) is a sequence of the pattern's items, each a character, any
    character, or a run of either. *)
Theorem match_correct re text : match_ re text = true ↔ spec_match re text.
Proof. apply match_spec. Qed.

(** ** Lines *)
Definition BUFSZ : nat := 1024.
(** [strchr(p, '\n')]: the characters before the newline and those after it. *)
Fixpoint strchr_nl (p : list Z) : option (list Z * list Z) :=
  match p with
  | [] => None
  | c :: p =>
      if c =? 0 then None
      else if c =? NL then Some ([], p)
      else match strchr_nl p with Some (a, b) => Some (c :: a, b) | None => None end
  end.
(** The inner loop over the buffer: what it writes and what is left from [p] on. *)
Fixpoint grep_lines (fuel : nat) (re p : list Z) : list Z * list Z :=
  match fuel with
  | O => ([], p)
  | S fuel =>
      match strchr_nl p with
      | None => ([], p)
      | Some (line, p) =>
          let '(out, rest) := grep_lines fuel re p in
          ((if match_ re line then line ++ [NL] else []) ++ out, rest)
      end
  end.
(** [read]: what is left of the input and how many bytes a call would deliver. *)
Definition read_len (wish room left : nat) : nat := Nat.min (Nat.max 1 wish) (Nat.min room left).
Fixpoint grep_loop (fuel : nat) (re : list Z) (wish : nat → nat) (i : nat) (buf left : list Z) : option (list Z) :=
  match fuel with
  | O => None
  | S fuel =>
      let n := read_len (wish i) (BUFSZ - length buf - 1) (length left) in
      if Nat.eqb n 0 then Some []
      else
        let data := buf ++ take n left in
        let '(out, rest) := grep_lines (S (length data)) re data in
        match grep_loop fuel re wish (S i) rest (drop n left) with Some o => Some (out ++ o) | None => None end
  end.
Definition grep (re : list Z) (wish : nat → nat) (input : list Z) : option (list Z) := grep_loop (S (length input)) re wish 0 [] input.

Definition line_ok (l : list Z) : Prop := NL ∉ l ∧ 0 ∉ l.
Definition text_of (ls : list (list Z)) (last : list Z) : list Z := concat (map (λ l, l ++ [NL]) ls) ++ last.
Definition hits (re : list Z) (ls : list (list Z)) : list Z := concat (map (λ l, if match_ re l then l ++ [NL] else []) ls).

Lemma strchr_nl_spec l p : line_ok l → strchr_nl (l ++ NL :: p) = Some (l, p) ∧ strchr_nl l = None.
Proof.
  induction l as [|c l IH]; intros [Hn Hz]; [done|]. rewrite not_elem_of_cons in Hn, Hz. destruct Hn as [Hn1 Hn2], Hz as [Hz1 Hz2]. destruct IH as [IH1 IH2]; [done|].
  cbn [app strchr_nl]. rewrite (proj2 (Z.eqb_neq c 0)), (proj2 (Z.eqb_neq c NL)), IH1, IH2 by congruence. done.
Qed.
Lemma text_of_cons l ls last : text_of (l :: ls) last = l ++ NL :: text_of ls last.
Proof. unfold text_of. cbn [map concat]. by rewrite <- !app_assoc. Qed.
Lemma grep_lines_spec fuel re ls last : Forall line_ok ls → line_ok last → (length ls < fuel)%nat → grep_lines fuel re (text_of ls last) = (hits re ls, last).
Proof.
  revert fuel. induction ls as [|l ls IH]; intros [|fuel] Hls Hl Hf; cbn [length] in Hf; try lia; cbn [grep_lines].
  - change (text_of [] last) with last. by rewrite (proj2 (strchr_nl_spec last [] Hl)).
  - apply Forall_cons in Hls as [Hl1 Hls]. rewrite text_of_cons, (proj1 (strchr_nl_spec l _ Hl1)), IH by (done || lia). done.
Qed.
Lemma text_length ls last : (length ls ≤ length (text_of ls last))%nat.
Proof. induction ls as [|l ls IH]; [cbn; lia|]. rewrite text_of_cons, length_app. cbn. lia. Qed.
Lemma line_ok_take n l : line_ok l → line_ok (take n l).
Proof. rewrite <- (take_drop n l) at 1. unfold line_ok. rewrite !not_elem_of_app. tauto. Qed.
(** Cutting a text anywhere: complete lines, then the start of a line. *)
Lemma text_cut ls last n : Forall line_ok ls → line_ok last → (n ≤ length (text_of ls last))%nat →
  ∃ ls1 ls2 a, take n (text_of ls last) = text_of ls1 a ∧ a ++ drop n (text_of ls last) = text_of ls2 last ∧
    ls = ls1 ++ ls2 ∧ line_ok a ∧ (length a ≤ match ls2 with l :: _ => length l | [] => length last end)%nat.
Proof.
  revert n. induction ls as [|l ls IH]; intros n Hls Hl Hn.
  - exists [], [], (take n last). change (text_of [] last) with last in *. rewrite take_drop, length_take. split_and!; try done; [by apply line_ok_take|lia].
  - apply Forall_cons in Hls as [Hl1 Hls]. rewrite text_of_cons in *. destruct (decide (n ≤ length l)%nat) as [Hle|Hgt].
    + exists [], (l :: ls), (take n l). rewrite text_of_cons, take_app_le, drop_app_le by done. split_and!; try done; [by rewrite app_assoc, take_drop|by apply line_ok_take|].
      rewrite length_take. lia.
    + replace (l ++ NL :: text_of ls last) with ((l ++ [NL]) ++ text_of ls last) in * by (by rewrite <- app_assoc).
      assert (length (l ++ [NL]) ≤ n)%nat as Hlen by (rewrite length_app; cbn; lia). rewrite take_app_ge, drop_app_ge by done. rewrite length_app in Hn.
      destruct (IH (n - length (l ++ [NL]))%nat Hls Hl ltac:(lia)) as (ls1 & ls2 & a & E1 & E2 & E3 & E4 & E5).
      exists (l :: ls1), ls2, a. split_and!; try done; [rewrite E1, text_of_cons; by rewrite <- app_assoc|by rewrite E3].
Qed.
Lemma hits_app re ls1 ls2 : hits re (ls1 ++ ls2) = hits re ls1 ++ hits re ls2.
Proof. unfold hits. by rewrite map_app, concat_app. Qed.
Definition short_line (l : list Z) : Prop := line_ok l ∧ (length l ≤ 1022)%nat.
Lemma short_lines_ok ls : Forall short_line ls → Forall line_ok ls.
Proof. intros H. eapply Forall_impl; [exact H|]. by intros l [Hl _]. Qed.
(** The buffer holds the start of the next line; the rest of the input follows. *)
Lemma grep_loop_spec fuel re wish i buf left ls last : buf ++ left = text_of ls last → Forall short_line ls → short_line last →
  (length buf ≤ match ls with l :: _ => length l | [] => length last end)%nat → (length left < fuel)%nat →
  grep_loop fuel re wish i buf left = Some (hits re ls).
Proof.
  revert i buf left ls. induction fuel as [|fuel IH]; intros i buf left ls Ht Hls Hlast Hb Hf; [lia|]. cbn [grep_loop].
  assert (length buf ≤ 1022)%nat as Hb2 by (destruct Hls as [|l ls [_ Hl] _]; [destruct Hlast; lia|lia]).
  set (n := read_len (wish i) (BUFSZ - length buf - 1) (length left)). destruct left as [|c left'] eqn:El.
  { assert (n = 0%nat) as -> by (unfold n, read_len; cbn; lia). cbn. rewrite app_nil_r in Ht. subst buf. destruct ls as [|l ls]; [done|].
    rewrite text_of_cons, length_app in Hb. cbn in Hb. lia. }
  rewrite <- El in *. assert (1 ≤ n ≤ length left)%nat as Hn by (unfold n, read_len, BUFSZ; rewrite El in *; cbn [length] in *; lia).
  rewrite (proj2 (Nat.eqb_neq n 0)) by lia. pose proof (short_lines_ok _ Hls) as Hok.
  destruct (text_cut ls last (length buf + n) Hok (proj1 Hlast)) as (ls1 & ls2 & a & E1 & E2 & -> & Ha & Hla).
  { rewrite <- Ht, length_app. lia. }
  apply Forall_app in Hls as [Hls1 Hls2]. rewrite <- Ht, take_app_add in E1. rewrite <- Ht, drop_app_add in E2. rewrite E1.
  rewrite grep_lines_spec; [|by apply short_lines_ok|done|pose proof (text_length ls1 a); lia].
  rewrite (IH (S i) a (drop n left) ls2) by (done || rewrite ?length_drop; lia). by rewrite hits_app.
Qed.

(** whatever pieces [read] delivers the input in, [grep] returns and has written the
    matching lines, whole and in order, and nothing else, provided the lines have at
    most 1022 characters and no NUL; a last line without a newline is not looked at. *)
Theorem grep_correct re wish ls last : Forall short_line ls → short_line last →
  grep re wish (text_of ls last) = Some (hits re ls) ∧ ∀ l, l ∈ ls → match_ re l = true ↔ spec_match re l.
Proof.
  intros Hls Hlast. split; [apply (grep_loop_spec _ _ _ _ _ _ ls last); try done; [cbn; lia|lia]|].
  intros l _. apply match_spec.
Qed.

(** ** Runs *)
(** a.c matches abc and xacc; ^b*$ matches the empty line and bbb. *)
Example match_runs : match_ [97; 46; 99] [97; 98; 99] = true ∧ match_ [97; 46; 99] [120; 97; 99; 99] = true ∧
  match_ [94; 98; 42; 36] [] = true ∧ match_ [94; 98; 42; 36] [98; 98; 98] = true ∧ match_ [94; 98; 42; 36] [98; 97] = false.
Proof. by vm_compute. Qed.
(** A line longer than the buffer ends the run: the line after it is lost. *)
Example long_line_stops : grep [97] (λ _, 512%nat) (text_of [replicate 1023 98; [97]] []) = Some [].
Proof. by vm_compute. Qed.
(** A NUL in the input hides the lines after it in the buffer. *)
Example nul_hides : grep [97] (λ _, 512%nat) [97; 10; 0; 10; 97; 10] = Some [97; 10].
Proof. by vm_compute. Qed.
Example unterminated_line_lost : grep [97] (λ _, 512%nat) [97] = Some [].
Proof. by vm_compute. Qed.
Lemma grep_correct_witness :
  grep [97; 36] (λ i, i) (text_of [[98; 97]; [97; 98]] [97]) = Some (hits [97; 36] [[98; 97]; [97; 98]]) ∧
  ∀ l, l ∈ [[98; 97]; [97; 98]] → match_ [97; 36] l = true ↔ spec_match [97; 36] l.
Proof.
  apply (grep_correct [97; 36] (λ i, i) [[98; 97]; [97; 98]] [97]).
  - repeat constructor; try (cbn; lia); rewrite !not_elem_of_cons; split_and!; try done; apply not_elem_of_nil.
  - split; [|cbn; lia]. split; rewrite !not_elem_of_cons; split_and!; try done; apply not_elem_of_nil.
Defined.
