(* ===== verification/Ulib.v ===== *)
(** * The library of user programs (xv6-user/ulib.c)

    Strings and memory over byte memory, and [gets] over the bytes standard input
    will deliver.  [char] is unsigned on RISC-V.  The loops that stop at a NUL have
    fuel; the theorems show that the string's length and one are enough. *)
From stdpp Require Import prelude list strings.
From Stdlib Require Import ZArith Lia.
From S2P Require Import Prelude Strings.
Open Scope Z_scope.

Fixpoint strcpy (fuel : nat) (m : memory) (s t : Z) : option memory :=
  match fuel with
  | O => None
  | S fuel => let c := load8 m t in let m := upd m s c in if c =? 0 then Some m else strcpy fuel m (s + 1) (t + 1)
  end.
Fixpoint str_end (fuel : nat) (m : memory) (s : Z) : option Z :=
  match fuel with O => None | S fuel => if load8 m s =? 0 then Some s else str_end fuel m (s + 1) end.
Definition strcat (fuel : nat) (m : memory) (s t : Z) : option memory :=
  match str_end fuel m s with Some s => strcpy fuel m s t | None => None end.
Fixpoint strcmp (fuel : nat) (m : memory) (p q : Z) : option Z :=
  match fuel with
  | O => None
  | S fuel => if negb (load8 m p =? 0) && (load8 m p =? load8 m q) then strcmp fuel m (p + 1) (q + 1) else Some (load8 m p - load8 m q)
  end.
Fixpoint ustrlen_loop (fuel : nat) (m : memory) (s n : Z) : option Z :=
  match fuel with O => None | S fuel => if load8 m (s + n) =? 0 then Some n else ustrlen_loop fuel m s (n + 1) end.
Definition ustrlen (fuel : nat) (m : memory) (s : Z) : option Z := ustrlen_loop fuel m s 0.
Fixpoint umemset_loop (k : nat) (m : memory) (dst c i : Z) : memory :=
  match k with O => m | S k => umemset_loop k (upd m (dst + i) (u8 c)) dst c (i + 1) end.
Definition umemset (m : memory) (dst c : Z) (n : nat) : memory := umemset_loop n m dst c 0.
(** The address of the first [c], or 0. *)
Fixpoint ustrchr (fuel : nat) (m : memory) (s c : Z) : option Z :=
  match fuel with
  | O => None
  | S fuel => if load8 m s =? 0 then Some 0 else if load8 m s =? c then Some s else ustrchr fuel m (s + 1) c
  end.
Definition umemmove (m : memory) (dst src : Z) (n : nat) : memory :=
  if dst <? src then move_up n m dst src else move_down n m (dst + Z.of_nat n) (src + Z.of_nat n).
Fixpoint umemcmp (m : memory) (s1 s2 : Z) (n : nat) : Z :=
  match n with
  | O => 0
  | S n => if negb (load8 m s1 =? load8 m s2) then load8 m s1 - load8 m s2 else umemcmp m (s1 + 1) (s2 + 1) n
  end.
Definition umemcpy (m : memory) (dst src : Z) (n : nat) : memory := umemmove m dst src n.

(** [gets]: [room] is [max - 1 - i]; the bytes left in the input come back. *)
Fixpoint gets_loop (room : nat) (m : memory) (buf i : Z) (input : list Z) : memory * Z * list Z :=
  match room with
  | O => (m, i, input)
  | S room =>
      match input with
      | [] => (m, i, [])
      | c :: input =>
          let m := upd m (buf + i) (u8 c) in
          if (c =? 10) || (c =? 13) then (m, i + 1, input) else gets_loop room m buf (i + 1) input
      end
  end.
Definition ugets (m : memory) (buf max : Z) (input : list Z) : memory * list Z :=
  let '(m, i, rest) := gets_loop (Z.to_nat (max - 1)) m buf 0 input in (upd m (buf + i) 0, rest).

(** [stat]: open, [fstat], close, with the kernel's answers; the calls made. *)
Inductive stat_call := SOpen | SFstat (fd : Z) | SClose (fd : Z).
Definition stat (open : Z) (fstat : Z → Z) : Z * list stat_call :=
  if open <? 0 then (-1, [SOpen]) else (fstat open, [SOpen; SFstat open; SClose open]).

(** ** Strings *)
(** The bytes of [s, s + n] and of the string at [t] are apart. *)
Definition apart (s : Z) (n : nat) (t : Z) (k : nat) : Prop := s + Z.of_nat n < t ∨ t + Z.of_nat k < s.
Lemma strcpy_spec m s t l : cstring m t l → apart s (length l) t (length l) → ∀ fuel, (length l < fuel)%nat →
  ∃ m', strcpy fuel m s t = Some m' ∧ cstring m' s l ∧ ∀ x, ¬ (s ≤ x ≤ s + Z.of_nat (length l)) → m' x = m x.
Proof.
  revert m s t. induction l as [|c l IH]; intros m s t Hl Ha fuel Hf; (destruct fuel as [|fuel]; [cbn in Hf; lia|]); cbn [strcpy].
  - destruct Hl as (_ & _ & H0). cbn in H0. rewrite Z.add_0_r in H0. rewrite H0. cbn [Z.eqb]. eexists. split; [done|]. split.
    + split; [constructor|]. split; [done|]. cbn. rewrite Z.add_0_r. by apply load8_upd_eq.
    + intros x Hx. apply upd_ne. cbn in Hx. lia.
  - apply cstring_inv in Hl as (Hc & Ec & Hl). rewrite Ec, (proj2 (Z.eqb_neq c 0)) by lia. unfold apart in Ha. cbn [length] in *.
    destruct (IH (upd m s c) (s + 1) (t + 1)) with (fuel := fuel) as (m' & E & H1 & H2); [|unfold apart; lia|lia|].
    + eapply cstring_ext; [|exact Hl]. intros x Hx. apply load8_upd_ne. lia.
    + exists m'. split; [done|]. split.
      * apply cstring_cons; [done| |done]. unfold load8. rewrite H2, upd_eq by lia. by apply u8_small; lia.
      * intros x Hx. rewrite H2, upd_ne by lia. done.
Qed.
Lemma str_end_spec m s l : cstring m s l → ∀ fuel, (length l < fuel)%nat → str_end fuel m s = Some (s + Z.of_nat (length l)).
Proof.
  revert s. induction l as [|c l IH]; intros s Hl fuel Hf; (destruct fuel as [|fuel]; [cbn in Hf; lia|]); cbn [str_end].
  - destruct Hl as (_ & _ & H0). cbn in H0. rewrite Z.add_0_r in H0. rewrite H0. cbn. by rewrite Z.add_0_r.
  - apply cstring_inv in Hl as (Hc & Ec & Hl). rewrite Ec, (proj2 (Z.eqb_neq c 0)) by lia. cbn [length] in *. rewrite (IH (s + 1)) by (done || lia). f_equal. lia.
Qed.
Lemma ustrlen_spec m s l : cstring m s l → ∀ fuel, (length l < fuel)%nat → ustrlen fuel m s = Some (Z.of_nat (length l)).
Proof.
  intros Hl fuel Hf. unfold ustrlen. enough (∀ fuel k n, cstring m (s + n) k → (length k < fuel)%nat → ustrlen_loop fuel m s n = Some (n + Z.of_nat (length k))) as H.
  { apply (H fuel l 0); [by rewrite Z.add_0_r|done]. }
  clear. intros fuel k. revert fuel. induction k as [|c k IH]; intros fuel n Hk Hf; (destruct fuel as [|fuel]; [cbn in Hf; lia|]); cbn [ustrlen_loop].
  - destruct Hk as (_ & _ & H0). cbn in H0. rewrite Z.add_0_r in H0. rewrite H0. cbn. by rewrite Z.add_0_r.
  - apply cstring_inv in Hk as (Hc & Ec & Hk). rewrite Ec, (proj2 (Z.eqb_neq c 0)) by lia. cbn [length] in *. rewrite (IH fuel (n + 1)); [f_equal; lia| |lia].
    by rewrite Z.add_assoc.
Qed.
(** The sign and value of the first difference. *)
Fixpoint compare_strings (l k : list Z) : Z :=
  match l, k with
  | [], [] => 0
  | [], c :: _ => - c
  | c :: _, [] => c
  | c :: l, d :: k => if c =? d then compare_strings l k else c - d
  end.
Lemma compare_strings_zero l k : Forall (λ c, 0 < c < 256) l → Forall (λ c, 0 < c < 256) k → compare_strings l k = 0 ↔ l = k.
Proof.
  intros Hl. revert k. induction Hl as [|c l Hc _ IH]; intros k Hk; destruct Hk as [|d k Hd Hk]; cbn; [done| | |].
  - split; [lia|done].
  - split; [lia|done].
  - destruct (Z.eqb_spec c d) as [->|Hne]; [rewrite IH by done; split; [by intros ->|by intros [= ->]]|]. split; [lia|]. intros [= -> _]. lia.
Qed.
Lemma cstring_nil_0 m a : cstring m a [] → load8 m a = 0.
Proof. intros (_ & _ & H). cbn in H. by rewrite Z.add_0_r in H. Qed.
Lemma strcmp_spec m p q l k : cstring m p l → cstring m q k → ∀ fuel, (length l < fuel)%nat → strcmp fuel m p q = Some (compare_strings l k).
Proof.
  revert p q k. induction l as [|c l IH]; intros p q k Hl Hk fuel Hf; (destruct fuel as [|fuel]; [cbn in Hf; lia|]); cbn [strcmp].
  - rewrite (cstring_nil_0 _ _ Hl). cbn [Z.eqb negb andb]. destruct k as [|d k]; [by rewrite (cstring_nil_0 _ _ Hk)|]. apply cstring_inv in Hk as (_ & -> & _). done.
  - apply cstring_inv in Hl as (Hc & Ec & Hl). rewrite Ec, (proj2 (Z.eqb_neq c 0)) by lia. cbn [negb andb length] in *. destruct k as [|d k].
    + rewrite (cstring_nil_0 _ _ Hk), (proj2 (Z.eqb_neq c 0)) by lia. cbn. f_equal. lia.
    + apply cstring_inv in Hk as (Hd & Ed & Hk). rewrite Ed. cbn [compare_strings]. destruct (c =? d); [|done]. apply IH; [done|done|lia].
Qed.

(** the string routines of user programs return for every C string and do what
    their names say: [strcpy] and [strcat] leave the copied and the joined string and
    write no byte outside, [strlen] is the length, [strcmp] is 0 exactly on equal
    strings and otherwise the difference of the first bytes that differ. *)
Theorem ulib_strings_correct m s t l k : cstring m s l → cstring m t k → apart s (length l + length k) t (length k) →
  ∀ fuel, (length l + length k < fuel)%nat →
  (∃ m', strcpy fuel m s t = Some m' ∧ cstring m' s k ∧ ∀ x, ¬ (s ≤ x ≤ s + Z.of_nat (length k)) → m' x = m x) ∧
  (∃ m', strcat fuel m s t = Some m' ∧ cstring m' s (l ++ k) ∧ ∀ x, ¬ (s ≤ x ≤ s + Z.of_nat (length l + length k)) → m' x = m x) ∧
  ustrlen fuel m s = Some (Z.of_nat (length l)) ∧
  strcmp fuel m s t = Some (compare_strings l k) ∧ (compare_strings l k = 0 ↔ l = k).
Proof.
  intros Hl Hk Ha fuel Hf. unfold apart in Ha. split_and!.
  - apply strcpy_spec; [done|unfold apart; lia|lia].
  - unfold strcat. rewrite (str_end_spec m s l Hl) by lia.
    destruct (strcpy_spec m (s + Z.of_nat (length l)) t k Hk) with (fuel := fuel) as (m' & E & (H1 & H2 & H3) & H4); [unfold apart; lia|lia|]. exists m'. split; [done|]. split.
    + destruct Hl as (L1 & L2 & _). split; [by apply Forall_app|]. rewrite length_app. split.
      * intros i c. rewrite lookup_app_Some. intros [Hi|[Hge Hi]].
        -- pose proof (lookup_lt_Some _ _ _ Hi). unfold load8. rewrite H4 by lia. by apply L2.
        -- rewrite <- (H2 _ _ Hi). f_equal. lia.
      * rewrite <- H3. f_equal. lia.
    + intros x Hx. apply H4. lia.
  - apply ustrlen_spec; [done|lia].
  - apply strcmp_spec; [done|done|lia].
  - apply compare_strings_zero; [apply Hl|apply Hk].
Qed.

(** ** Memory *)
Lemma umemset_spec m dst c n x : umemset m dst c n x = fill m dst c (Z.of_nat n) x.
Proof.
  unfold umemset. replace dst with (dst + 0) at 2 by lia. generalize 0 as i. revert m. induction n as [|n IH]; intros m i; cbn [umemset_loop].
  - destruct (decide (dst + i ≤ x < dst + i + Z.of_nat 0)); [lia|]. by rewrite fill_other.
  - rewrite IH. destruct (decide (dst + (i + 1) ≤ x < dst + (i + 1) + Z.of_nat n)) as [H|H].
    + rewrite !fill_in by lia. done.
    + rewrite fill_other by done. destruct (decide (x = dst + i)) as [->|Hne]; [rewrite upd_eq, fill_in by lia; done|]. rewrite upd_ne, fill_other by (done || lia). done.
Qed.
(** [memmove] is right for overlapping areas in both directions, and so is the
    [memcpy] that calls it. *)
Lemma umemmove_spec m dst src n x : umemmove m dst src n x = blit m dst src (Z.of_nat n) x ∧ umemcpy m dst src n x = blit m dst src (Z.of_nat n) x.
Proof.
  unfold umemcpy, umemmove. destruct (Z.ltb_spec dst src); [|split; apply move_down_spec; lia]. split; apply move_up_spec; lia.
Qed.
(** ** Input *)
Lemma gets_loop_spec room m buf i input : ∃ l, let '(m', i', rest) := gets_loop room m buf i input in
  i' = i + Z.of_nat (length l) ∧ input = l ++ rest ∧ (length l ≤ room)%nat ∧
  (∀ k c, l !! k = Some c → m' (buf + i + Z.of_nat k) = u8 c) ∧ (∀ x, ¬ (buf + i ≤ x < buf + i') → m' x = m x) ∧
  (length l = room ∨ rest = [] ∨ ∃ c, last l = Some c ∧ (c = 10 ∨ c = 13)) ∧
  (∀ k c, l !! k = Some c → c = 10 ∨ c = 13 → S k = length l).
Proof.
  revert m i input. induction room as [|room IH]; intros m i input; cbn [gets_loop].
  { exists []. cbn. split_and!; try done; [lia|by left]. }
  destruct input as [|c input]; [exists []; cbn; split_and!; try done; [lia|lia|right; by left]|].
  destruct ((c =? 10) || (c =? 13)) eqn:Ec.
  - exists [c]. apply orb_prop in Ec. rewrite !Z.eqb_eq in Ec. cbn. split_and!; try done; [lia| | |right; right; by exists c|].
    + intros [|k] d Hd; [|done]. injection Hd as ->. rewrite Z.add_0_r. apply upd_eq.
    + intros x Hx. apply upd_ne. lia.
    + intros [|k] d Hd; [done|done].
  - destruct (IH (upd m (buf + i) (u8 c)) (i + 1) input) as (l & Hl). destruct (gets_loop _ _ _ _ _) as [[m' i'] rest]. destruct Hl as (H1 & -> & H3 & H4 & H5 & H6 & H7).
    apply orb_false_iff in Ec. rewrite !Z.eqb_neq in Ec. exists (c :: l). cbn [length]. split_and!; try done; [lia|lia| | | |].
    + intros [|k] d Hd; [injection Hd as ->; rewrite H5, Z.add_0_r, upd_eq by lia; done|]. rewrite <- (H4 k d Hd). f_equal. lia.
    + intros x Hx. rewrite H5, upd_ne by lia. done.
    + destruct H6 as [H6|[H6|(d & H6 & H8)]]; [left; lia|right; by left|right; right]. exists d. split; [|done]. destruct l; [done|exact H6].
    + intros [|k] d Hd Hn; [injection Hd as ->; tauto|]. f_equal. by eapply H7.
Qed.
(** [gets] writes only inside its buffer of [max] bytes: it takes the input up to
    and with the first newline or carriage return, or [max - 1] bytes, or what there
    is, stores exactly these bytes and a NUL, and leaves the rest of the input. *)
Theorem gets_correct m buf max input : 0 < max →
  ∃ l, let '(m', rest) := ugets m buf max input in
    input = l ++ rest ∧ Z.of_nat (length l) < max ∧
    (∀ k c, l !! k = Some c → m' (buf + Z.of_nat k) = u8 c) ∧ m' (buf + Z.of_nat (length l)) = 0 ∧
    (∀ x, ¬ (buf ≤ x < buf + max) → m' x = m x) ∧
    (Z.of_nat (length l) = max - 1 ∨ rest = [] ∨ ∃ c, last l = Some c ∧ (c = 10 ∨ c = 13)) ∧
    (∀ k c, l !! k = Some c → c = 10 ∨ c = 13 → S k = length l).
Proof.
  intros Hm. destruct (gets_loop_spec (Z.to_nat (max - 1)) m buf 0 input) as (l & Hl). exists l. unfold ugets.
  destruct (gets_loop _ _ _ _ _) as [[m' i'] rest]. destruct Hl as (-> & -> & H3 & H4 & H5 & H6 & H7). rewrite Z.add_0_l in *. split_and!; try done; [lia| | | |].
  - intros k c Hk. pose proof (lookup_lt_Some _ _ _ Hk). rewrite upd_ne, <- (H4 k c Hk) by lia. f_equal. lia.
  - apply upd_eq.
  - intros x Hx. rewrite upd_ne, H5 by lia. done.
  - destruct H6 as [H6|H6]; [left; lia|by right].
Qed.

(** ** Runs *)
Definition two_strings : memory := λ x, if x =? 100 then 97 else if x =? 101 then 98 else if x =? 200 then 99 else 0.
Lemma ulib_strings_correct_witness : ∀ fuel, (3 < fuel)%nat →
  (∃ m', strcpy fuel two_strings 100 200 = Some m' ∧ cstring m' 100 [99] ∧ ∀ x, ¬ (100 ≤ x ≤ 101) → m' x = two_strings x) ∧
  (∃ m', strcat fuel two_strings 100 200 = Some m' ∧ cstring m' 100 [97; 98; 99] ∧ ∀ x, ¬ (100 ≤ x ≤ 103) → m' x = two_strings x) ∧
  ustrlen fuel two_strings 100 = Some 2 ∧ strcmp fuel two_strings 100 200 = Some (-2) ∧ (-2 = 0 ↔ [97; 98] = [99]).
Proof.
  apply (ulib_strings_correct two_strings 100 200 [97; 98] [99]).
  - split; [repeat constructor|split; [|reflexivity]]. intros [|[|i]] c Hc; simpl in Hc; [injection Hc as <-; reflexivity..|discriminate].
  - split; [repeat constructor|split; [|reflexivity]]. intros [|i] c Hc; simpl in Hc; [injection Hc as <-; reflexivity|discriminate].
  - left. cbn. lia.
Defined.
Lemma gets_correct_witness : ∃ l, let '(m', rest) := ugets two_strings 300 10 [104; 105; 10; 120] in
    [104; 105; 10; 120] = l ++ rest ∧ Z.of_nat (length l) < 10 ∧
    (∀ k c, l !! k = Some c → m' (300 + Z.of_nat k) = u8 c) ∧ m' (300 + Z.of_nat (length l)) = 0 ∧
    (∀ x, ¬ (300 ≤ x < 300 + 10) → m' x = two_strings x) ∧
    (Z.of_nat (length l) = 10 - 1 ∨ rest = [] ∨ ∃ c, last l = Some c ∧ (c = 10 ∨ c = 13)) ∧
    (∀ k c, l !! k = Some c → c = 10 ∨ c = 13 → S k = length l).
Proof. apply (gets_correct two_strings 300 10 [104; 105; 10; 120]). lia. Defined.
