(* ===== verification/Policy.v ===== *)
(** * The sandbox command (xv6-user/sandbox.c)

    It reads a policy file, a name of a system call per line, and installs the set
    of these calls as the allow mask that the kernel's dispatcher checks ([Syscall.v]).

    A C string is the list of its bytes before the NUL; the [line] array is such a
    list with its 128 bytes as a bound.  The answers of [open] and [read] are the
    text of the file; the pieces [read] delivers it in do not matter, since the loop
    handles one byte at a time. *)
From stdpp Require Import prelude list strings.
From Stdlib Require Import ZArith Lia.
From S2P Require Import Prelude Printf ProcDefs ProcLife Syscall.
Open Scope Z_scope.

Definition SYS_exec : Z := 7.
Definition table : list (list Z * Z) := map (λ '(n, k), (chars n, k)) [
  ("fork"%string, 1); ("exit"%string, 2); ("wait"%string, 3); ("pipe"%string, 4); ("read"%string, 5); ("kill"%string, 6); ("exec"%string, 7);
  ("fstat"%string, 8); ("chdir"%string, 9); ("dup"%string, 10); ("getpid"%string, 11); ("sbrk"%string, 12); ("sleep"%string, 13);
  ("uptime"%string, 14); ("open"%string, 15); ("write"%string, 16); ("mkdir"%string, 20); ("close"%string, 21); ("test_proc"%string, 22);
  ("dev"%string, 23); ("readdir"%string, 24); ("getcwd"%string, 25); ("remove"%string, 17); ("trace"%string, 18); ("sysinfo"%string, 19);
  ("rename"%string, 26); ("setpriority"%string, 27); ("getpriority"%string, 28); ("shmget"%string, 29); ("shmat"%string, 30);
  ("shmdt"%string, 31); ("shmctl"%string, 32); ("getqueuelevel"%string, 33); ("gettimeslice"%string, 34); ("getprocs"%string, 35);
  ("getrusage"%string, 36); ("signal"%string, 37); ("sigkill"%string, 38); ("settime"%string, 39); ("mmap"%string, 40); ("munmap"%string, 41);
  ("sandbox"%string, 42)].

Definition setbit (mask : list Z) (num : Z) : list Z :=
  if num <? 0 then mask
  else
    let word := num / 32 in let bit := num mod 32 in
    if (word <? 0) || (4 <=? word) then mask
    else <[Z.to_nat word := Z.lor (nth (Z.to_nat word) mask 0) (Z.shiftl 1 bit)]> mask.
Fixpoint lookup_in (t : list (list Z * Z)) (name : list Z) : Z :=
  match t with [] => -1 | (n, k) :: t => if bool_decide (n = name) then k else lookup_in t name end.
Definition lookup (name : list Z) : Z := lookup_in table name.
Definition blank (c : Z) : bool := (c =? 32) || (c =? 9) || (c =? 13) || (c =? 10).
Fixpoint ltrim (s : list Z) : list Z := match s with c :: s' => if blank c then ltrim s' else s | [] => [] end.
(** From the last byte down, as the loop does. *)
Definition rtrim (s : list Z) : list Z := rev (ltrim (rev s)).
Definition strip_bom (s : list Z) : list Z :=
  match s with
  | a :: b :: c :: s' => if (a =? 239) && (b =? 187) && (c =? 191) then s' else s
  | _ => s
  end.
(** The string in [line] once [line[linelen] = 0]. *)
Fixpoint before_nul (s : list Z) : list Z := match s with c :: s => if c =? 0 then [] else c :: before_nul s | [] => [] end.

Record pstate := PSt { pmask : list Z; pline : list Z; first_line : bool; unknown : list (list Z) }.
Definition end_line (s : pstate) : pstate :=
  let l := before_nul (pline s) in
  let l := if first_line s then strip_bom l else l in
  let p := rtrim (ltrim l) in
  match p with
  | [] => PSt (pmask s) [] false (unknown s)
  | c :: _ =>
      if c =? 35 then PSt (pmask s) [] false (unknown s)
      else
        let num := lookup p in
        if num <? 0 then PSt (pmask s) [] false (unknown s ++ [p]) else PSt (setbit (pmask s) num) [] false (unknown s)
  end.
Definition policy_byte (s : pstate) (c : Z) : pstate :=
  if c =? 10 then end_line s
  else if Z.of_nat (length (pline s)) <? 128 - 1 then PSt (pmask s) (pline s ++ [c]) (first_line s) (unknown s)
  else s.
Definition read_policy (text : list Z) : pstate :=
  let s := foldl policy_byte (PSt [0; 0; 0; 0] [] true []) text in
  if (0 <? length (pline s))%nat then end_line s else s.
(** The mask given to the [sandbox] system call. *)
Definition policy_mask (text : list Z) : list Z := setbit (setbit (setbit (pmask (read_policy text)) SYS_exec) SYS_exit) SYS_sandbox.

(** [main]: what it does after the options; [None] when it prints the usage. *)
Inductive outcome_main := Usage | OpenFailed | Confine (action : Z) (mask : list Z) (cmd : list (list Z)).
Definition sandbox_main (args : list (list Z)) (openp : list Z → option (list Z)) : outcome_main :=
  if (Z.of_nat (length args) + 1 <? 3) then Usage
  else
    let '(action, args) :=
      match args with
      | a :: rest => if bool_decide (a = chars "-e") then (0, rest) else if bool_decide (a = chars "-k") then (1, rest) else (0, args)
      | [] => (0, args)
      end in
    if Z.of_nat (length args) <? 2 then Usage
    else match args with
    | policy :: cmd => match openp policy with None => OpenFailed | Some text => Confine action (policy_mask text) cmd end
    | [] => Usage
    end.

(** ** Masks as sets *)
Definition mask_ok (m : list Z) : Prop := length m = 4%nat ∧ Forall (λ w, 0 ≤ w) m.
Definition allows (m : list Z) (n : Z) : bool := Z.testbit (nth (Z.to_nat (n / 32)) m 0) (n mod 32).
Lemma setbit_ok m num : mask_ok m → mask_ok (setbit m num).
Proof.
  intros [Hl Hw]. unfold setbit. destruct (num <? 0); [done|]. destruct (_ || _); [done|]. split; [by rewrite length_insert|].
  apply Forall_insert; [done|]. apply Z.lor_nonneg. split; [|apply Z.shiftl_nonneg; lia].
  destruct (nth_in_or_default (Z.to_nat (num / 32)) m 0) as [Hin| ->]; [|lia]. apply (proj1 (Forall_forall _ _) Hw). by apply list_elem_of_In.
Qed.
Lemma nth_insert (m : list Z) i j v d : (i < length m)%nat → nth j (<[i := v]> m) d = if decide (j = i) then v else nth j m d.
Proof.
  intros Hi. rewrite !nth_lookup. destruct (decide (j = i)) as [->|Hne]; [by rewrite list_lookup_insert_eq|by rewrite list_lookup_insert_ne].
Qed.
Lemma setbit_allows m num n : mask_ok m → 0 ≤ num < 128 → 0 ≤ n < 128 → allows (setbit m num) n = (n =? num) || allows m n.
Proof.
  intros [Hl Hw] Hn Hk. unfold setbit, allows. rewrite (proj2 (Z.ltb_ge num 0)) by lia.
  assert (0 ≤ num / 32 < 4 ∧ 0 ≤ n / 32 < 4 ∧ 0 ≤ num mod 32 < 32 ∧ 0 ≤ n mod 32 < 32) as (H1 & H2 & H3 & H4) by (Z.to_euclidean_division_equations; lia).
  rewrite (proj2 (Z.ltb_ge (num / 32) 0)), (proj2 (Z.leb_gt 4 (num / 32))) by lia. cbn [orb]. rewrite nth_insert by lia.
  destruct (decide (Z.to_nat (n / 32) = Z.to_nat (num / 32))) as [E|E].
  - rewrite <- E, Z.lor_spec, Z.shiftl_spec by lia. rewrite orb_comm. f_equal.
    destruct (Z.eqb_spec n num) as [->|Hne]; [by rewrite Z.sub_diag|]. assert (n mod 32 ≠ num mod 32) by (Z.to_euclidean_division_equations; lia).
    destruct (Z.lt_ge_cases (n mod 32) (num mod 32)); [apply Z.testbit_neg_r; lia|]. apply (Z.bits_above_log2 1); [lia|]. change (Z.log2 1) with 0. lia.
  - destruct (Z.eqb_spec n num) as [->|]; done.
Qed.
(** The kernel's test on this mask. *)
Lemma sandbox_allowed_mask p num : mask_ok (allow_mask p) → 0 ≤ num < 128 → sandbox_allowed p num = allows (allow_mask p) num.
Proof.
  intros _ Hn. unfold sandbox_allowed, allows. assert (0 ≤ num / 32 < 4 ∧ 0 ≤ num mod 32) as [H1 H2] by (Z.to_euclidean_division_equations; lia).
  rewrite (proj2 (Z.leb_le 0 _)), (proj2 (Z.ltb_lt _ 4)) by lia. cbn [andb].
  rewrite (has_testbit _ 0 ltac:(lia) : negb (Z.land _ 1 =? 0) = _). by rewrite Z.shiftr_spec, Z.add_0_l by lia.
Qed.

(** ** What a policy means *)
(** The entry on a line: what is left between the blanks, unless it is a comment. *)
Definition entry_of (l : list Z) : option (list Z) :=
  match rtrim (ltrim l) with [] => None | c :: p => if c =? 35 then None else Some (c :: p) end.
Definition named (l : list Z) (n : Z) : Prop := ∃ name, entry_of l = Some name ∧ (name, n) ∈ table.
(** The file is lines ended by newlines and perhaps a last one without. *)
Definition policy_text (ls : list (list Z)) (final : list Z) : list Z := concat (map (λ l, l ++ [10]) ls) ++ final.
Definition plain_line (l : list Z) : Prop := Forall (λ c, c ≠ 10 ∧ c ≠ 0) l ∧ (length l ≤ 127)%nat.

Lemma table_numbers name n : (name, n) ∈ table → 0 ≤ n < 128.
Proof.
  assert (Forall (λ x : list Z * Z, 0 ≤ x.2 < 128) table) as H by (apply (bool_decide_unpack _); by vm_compute).
  intros Hin. by apply (proj1 (Forall_forall _ _) H) in Hin.
Qed.
Lemma table_nodup : NoDup (table.*1).
Proof. apply (bool_decide_unpack _). vm_compute. done. Qed.
Lemma lookup_in_spec t name : NoDup (t.*1) → (∀ x, x ∈ t → 0 ≤ x.2) →
  (∀ n, 0 ≤ n → lookup_in t name = n ↔ (name, n) ∈ t) ∧ (lookup_in t name < 0 ↔ ∀ n, (name, n) ∉ t).
Proof.
  intros Hd Hp. induction t as [|[m k] t IH]; cbn [lookup_in].
  - split; [intros n Hn; split; [lia|by intros ?%elem_of_nil]|]. split; [intros _ n; apply not_elem_of_nil|lia].
  - cbn [fmap list_fmap] in Hd. apply NoDup_cons in Hd as [Hm Hd]. destruct IH as [IH1 IH2]; [done|intros x Hx; apply Hp; by right|].
    assert (0 ≤ k) as Hk by (apply (Hp (m, k)); by left). case_bool_decide as E.
    + subst m. split.
      * intros n Hn. rewrite elem_of_cons. split; [intros ->; by left|]. intros [H|Hin]; [congruence|]. exfalso. apply Hm. apply list_elem_of_fmap. by exists (name, n).
      * split; [lia|]. intros Hn. exfalso. apply (Hn k). by left.
    + split.
      * intros n Hn. rewrite elem_of_cons, (IH1 n Hn). split; [by right|]. intros [H|H]; [congruence|done].
      * rewrite IH2. split; intros H n; [rewrite not_elem_of_cons; split; [congruence|apply H]|]. intros Hin. apply (H n). by right.
Qed.
Lemma lookup_spec name : (∀ n, 0 ≤ n → lookup name = n ↔ (name, n) ∈ table) ∧ (lookup name < 0 ↔ ∀ n, (name, n) ∉ table).
Proof. apply lookup_in_spec; [apply table_nodup|]. intros [m k] Hin. apply table_numbers in Hin. cbn. lia. Qed.

(** ** The parser *)
Lemma before_nul_plain l : Forall (λ c, c ≠ 10 ∧ c ≠ 0) l → before_nul l = l.
Proof. induction 1 as [|c l [_ Hc] _ IH]; [done|]. cbn [before_nul]. by rewrite (proj2 (Z.eqb_neq c 0)), IH. Qed.
Lemma policy_bytes l s : Forall (λ c, c ≠ 10 ∧ c ≠ 0) l → (length (pline s) + length l ≤ 127)%nat →
  foldl policy_byte s l = PSt (pmask s) (pline s ++ l) (first_line s) (unknown s).
Proof.
  intros Hl. revert s. induction Hl as [|c l [Hc _] _ IH]; intros s Hlen; [by destruct s; rewrite app_nil_r|]. cbn [foldl length] in *.
  unfold policy_byte at 2. rewrite (proj2 (Z.eqb_neq c 10)), (proj2 (Z.ltb_lt _ _)) by (done || lia). rewrite IH by (cbn; rewrite length_app; cbn; lia).
  cbn. by rewrite <- app_assoc.
Qed.
(** What a line contributes. *)
Definition add_entry (m : list Z) (l : list Z) : list Z :=
  match entry_of l with Some name => if lookup name <? 0 then m else setbit m (lookup name) | None => m end.
Lemma end_line_mask s : Forall (λ c, c ≠ 10 ∧ c ≠ 0) (pline s) → let l := if first_line s then strip_bom (pline s) else pline s in
  pmask (end_line s) = add_entry (pmask s) l ∧ pline (end_line s) = [] ∧ first_line (end_line s) = false.
Proof.
  intros Hl. unfold end_line, add_entry, entry_of. rewrite before_nul_plain by done. destruct (rtrim _) as [|c p]; [done|]. destruct (c =? 35); [done|]. by destruct (_ <? 0).
Qed.
Lemma lines_mask ls m u : Forall plain_line ls → ∃ u', foldl policy_byte (PSt m [] false u) (concat (map (λ l, l ++ [10]) ls)) = PSt (foldl add_entry m ls) [] false u'.
Proof.
  intros Hls. revert m u. induction Hls as [|l ls [Hl Hlen] _ IH]; intros m u; [by exists u|]. cbn [map concat foldl]. rewrite !foldl_app, (policy_bytes l) by (done || cbn; lia). cbn [app pmask first_line unknown foldl pline].
  unfold policy_byte at 2. cbn [Z.eqb Pos.eqb]. destruct (end_line_mask (PSt m l false u) Hl) as (E1 & E2 & E3). set (s := end_line _) in *. clearbody s. destruct s as [m' l' f' u']. cbn in E1, E2, E3. subst.
  apply IH.
Qed.
Lemma add_entry_allows m l n : mask_ok m → 0 ≤ n < 128 → mask_ok (add_entry m l) ∧ (allows (add_entry m l) n = true ↔ named l n ∨ allows m n = true).
Proof.
  intros Hm Hn. unfold add_entry, named. destruct (entry_of l) as [name|]; [|split; [done|]; split; [by right|by intros [(? & ? & _)|]]].
  destruct (lookup_spec name) as [H1 H2]. destruct (Z.ltb_spec (lookup name) 0) as [Hlt|Hge].
  - split; [done|]. split; [by right|]. intros [(x & [= ->] & Hin)|]; [|done]. by apply (proj1 H2 Hlt) in Hin.
  - pose proof (proj1 (H1 (lookup name) Hge) eq_refl) as Hin. pose proof (table_numbers _ _ Hin). split; [by apply setbit_ok|]. rewrite setbit_allows, orb_true_iff, Z.eqb_eq by done.
    split; [intros [->|H0]; [left; by exists name|by right]|]. intros [(x & [= <-] & Hin2)|H0]; [left|by right]. symmetry. apply H1; [lia|done].
Qed.
Lemma entries_allow ls m n : mask_ok m → 0 ≤ n < 128 → mask_ok (foldl add_entry m ls) ∧ (allows (foldl add_entry m ls) n = true ↔ (∃ l, l ∈ ls ∧ named l n) ∨ allows m n = true).
Proof.
  intros Hm Hn. revert m Hm. induction ls as [|l ls IH]; intros m Hm; cbn [foldl]; [split; [done|]; split; [by right|by intros [(? & ?%elem_of_nil & _)|]]|].
  destruct (add_entry_allows m l n Hm Hn) as [Hm1 Ha1]. destruct (IH _ Hm1) as [Hm2 Ha2]. split; [done|]. rewrite Ha2, Ha1. split.
  - intros [(k & Hk & Hn2)|[Hl|H0]]; [left; exists k; split; [by right|done]|left; exists l; split; [by left|done]|by right].
  - intros [(k & [->|Hk]%elem_of_cons & Hn2)|H0]; [right; by left|left; by exists k|right; by right].
Qed.
(** The file's lines, the first without a byte order mark, the last perhaps without a
    newline. *)
Definition policy_lines (first : list Z) (ls : list (list Z)) (final : list Z) : list (list Z) := strip_bom first :: ls ++ [final].
Lemma add_entry_nil m : add_entry m [] = m.
Proof. done. Qed.
Lemma read_policy_mask first ls final : plain_line first → Forall plain_line ls → plain_line final →
  pmask (read_policy (policy_text (first :: ls) final)) = foldl add_entry [0; 0; 0; 0] (policy_lines first ls final).
Proof.
  intros [Hf Hfl] Hls [Hl Hll]. unfold policy_lines. cbn [foldl]. rewrite foldl_app. set (m := add_entry [0; 0; 0; 0] (strip_bom first)).
  assert (∃ u, foldl policy_byte (PSt [0; 0; 0; 0] [] true []) (policy_text (first :: ls) final) = PSt (foldl add_entry m ls) final false u) as [u E].
  { unfold policy_text. cbn [map concat]. rewrite !foldl_app, (policy_bytes first) by (done || cbn; lia). cbn [app pmask first_line unknown foldl pline].
    assert (∃ u, policy_byte (PSt [0; 0; 0; 0] first true []) 10 = PSt m [] false u) as [u ->].
    { destruct (end_line_mask (PSt [0; 0; 0; 0] first true []) Hf) as (E1 & E2 & E3). change (policy_byte ?s 10) with (end_line s). destruct (end_line _) as [m' l' f' u']. cbn [pmask pline first_line] in *. subst. by exists u'. }
    destruct (lines_mask ls m u Hls) as [u' ->]. rewrite (policy_bytes final) by (done || cbn; lia). by exists u'. }
  unfold read_policy. rewrite E. cbn [pline foldl]. destruct (Nat.ltb_spec 0 (length final)) as [Hlt|Hge].
  - by destruct (end_line_mask (PSt (foldl add_entry m ls) final false u) Hl) as (-> & _).
  - destruct final; [done|cbn in Hge; lia].
Qed.

(** C23: the [sandbox] command confines as its policy file says: after the kernel has
    taken the mask, the dispatcher lets a call through exactly when its name stands on
    a line of the file (blanks around it, comment lines and a byte order mark are
    skipped, the last line needs no newline; the file has a newline) or it is exec, exit
    or sandbox. *)
Theorem policy_enforced first ls final p num : plain_line first → Forall plain_line ls → plain_line final → 0 ≤ num < 128 →
  allow_mask p = policy_mask (policy_text (first :: ls) final) →
  sandbox_allowed p num = true ↔
    (∃ l, l ∈ policy_lines first ls final ∧ named l num) ∨ num = SYS_exec ∨ num = SYS_exit ∨ num = SYS_sandbox.
Proof.
  intros Hf Hls Hl Hn Hm. unfold policy_mask in Hm. rewrite (read_policy_mask first ls final Hf Hls Hl) in Hm.
  destruct (entries_allow (policy_lines first ls final) [0; 0; 0; 0] num) as [Hok Ha]; [split; [done|by repeat constructor]|done|].
  set (m := foldl _ _ _) in *. pose proof (setbit_ok m SYS_exec Hok) as H1. pose proof (setbit_ok _ SYS_exit H1) as H2. pose proof (setbit_ok _ SYS_sandbox H2) as H3.
  rewrite sandbox_allowed_mask, Hm by (done || by rewrite Hm). rewrite !setbit_allows by done. rewrite !orb_true_iff, !Z.eqb_eq, Ha.
  assert (allows [0; 0; 0; 0] num = true ↔ False) as ->; [|tauto]. split; [|done]. unfold allows.
  destruct (Z.to_nat (num / 32)) as [|[|[|[|[|k]]]]]; cbn; by rewrite Z.bits_0.
Qed.

(** ** Runs *)
Definition demo_policy : list Z := [239; 187; 191; 114; 101; 97; 100; 13; 10; 35; 32; 120; 10; 32; 119; 114; 105; 116; 101; 9; 10; 98; 97; 100; 10; 107; 105; 108; 108].
Example demo_policy_mask : policy_mask demo_policy = [65764; 1024; 0; 0] ∧ unknown (read_policy demo_policy) = [[98; 97; 100]].
Proof. by vm_compute. Qed.
Example demo_main : sandbox_main [chars "-k"; chars "p"; chars "ls"] (λ _, Some demo_policy) = Confine 1 [65764; 1024; 0; 0] [chars "ls"].
Proof. by vm_compute. Qed.
Lemma policy_enforced_witness :
  sandbox_allowed (set_allow_mask (policy_mask (policy_text [chars "read"; chars " # none"] (chars "kill"))) (demo_proc RUNNING 0 0 2)) 6 = true ↔
    (∃ l, l ∈ policy_lines (chars "read") [chars " # none"] (chars "kill") ∧ named l 6) ∨ 6 = SYS_exec ∨ 6 = SYS_exit ∨ 6 = SYS_sandbox.
Proof.
  assert (∀ l, bool_decide (Forall (λ c, c ≠ 10 ∧ c ≠ 0) l) = true → (length l <=? 127)%nat = true → plain_line l) as Hp.
  { intros l H1 H2. split; [by apply bool_decide_eq_true in H1|by apply Nat.leb_le]. }
  apply (policy_enforced (chars "read") [chars " # none"] (chars "kill")); [by apply Hp|constructor; [by apply Hp|constructor]|by apply Hp|lia|reflexivity].
Defined.
