(* ===== verification/UserProgs.v ===== *)
(** * Small user programs (xv6-user/wc.c, xargs.c, mv.c, ls.c, find.c, echo.c)

    Input is the list of bytes [read] will deliver; where the program reads into a
    buffer of its own the buffer is byte memory, so that what lies beyond a string
    counts. *)
From stdpp Require Import prelude list strings.
From Stdlib Require Import ZArith Lia.
From S2P Require Import Prelude Strings Printf Calendar Ulib.
Open Scope Z_scope.

(** ** wc *)
Record counts := Counts { c_lines : Z; c_words : Z; c_chars : Z; inword : bool }.
(** [strchr(" \r\t\n\v", c)]; a NUL is not in the string. *)
Definition wc_space (c : Z) : bool := (c =? 32) || (c =? 13) || (c =? 9) || (c =? 10) || (c =? 11).
Definition wc_byte (s : counts) (c : Z) : counts :=
  let l := if c =? 10 then i32 (c_lines s + 1) else c_lines s in
  if wc_space c then Counts l (c_words s) (i32 (c_chars s + 1)) false
  else if negb (inword s) then Counts l (i32 (c_words s + 1)) (i32 (c_chars s + 1)) true
  else Counts l (c_words s) (i32 (c_chars s + 1)) (inword s).
(** The blocks that [read] delivers. *)
Definition wc (blocks : list (list Z)) : counts := foldl (foldl wc_byte) (Counts 0 0 0 false) blocks.

(** Words: maximal runs without a space. *)
Fixpoint words (inw : bool) (l : list Z) : Z :=
  match l with [] => 0 | c :: l => if wc_space c then words false l else (if inw then 0 else 1) + words true l end.
Definition newlines (l : list Z) : Z := Z.of_nat (length (filter (λ c, c = 10) l)).

Lemma words_range inw l : 0 ≤ words inw l ≤ Z.of_nat (length l).
Proof.
  revert inw. induction l as [|c l IH]; intros inw; cbn [words length]; [lia|]. destruct (wc_space c); [specialize (IH false); lia|]. specialize (IH true). destruct inw; lia.
Qed.
Lemma newlines_cons c l : newlines (c :: l) = (if c =? 10 then 1 else 0) + newlines l.
Proof.
  unfold newlines. destruct (Z.eqb_spec c 10) as [->|Hne]; [rewrite filter_cons_True by done; cbn [length]; lia|by rewrite filter_cons_False].
Qed.
Lemma newlines_range l : 0 ≤ newlines l ≤ Z.of_nat (length l).
Proof. induction l as [|c l IH]; [done|]. rewrite newlines_cons. cbn [length]. destruct (c =? 10); lia. Qed.
Lemma wc_fold l s : 0 ≤ c_lines s → 0 ≤ c_words s → 0 ≤ c_chars s →
  c_lines s + newlines l < 2 ^ 31 → c_words s + words (inword s) l < 2 ^ 31 → c_chars s + Z.of_nat (length l) < 2 ^ 31 →
  let s' := foldl wc_byte s l in
  c_lines s' = c_lines s + newlines l ∧ c_words s' = c_words s + words (inword s) l ∧ c_chars s' = c_chars s + Z.of_nat (length l).
Proof.
  revert s. induction l as [|c l IH]; intros s H1 H2 H3 B1 B2 B3; [cbn; unfold newlines; cbn; lia|]. rewrite newlines_cons in *. cbn [foldl words length] in *.
  pose proof (newlines_range l). pose proof (words_range false l). pose proof (words_range true l).
  assert (c_lines (wc_byte s c) = c_lines s + (if c =? 10 then 1 else 0)) as E1.
  { unfold wc_byte. destruct (wc_space c), (inword s), (c =? 10); cbn; rewrite ?i32_small; lia. }
  assert (c_chars (wc_byte s c) = c_chars s + 1) as E3 by (unfold wc_byte; destruct (wc_space c), (inword s); cbn; rewrite i32_small; lia).
  assert (c_words (wc_byte s c) + words (inword (wc_byte s c)) l = c_words s + (if wc_space c then words false l else (if inword s then 0 else 1) + words true l) ∧ 0 ≤ c_words (wc_byte s c)) as [E2 E2'].
  { unfold wc_byte. destruct (wc_space c); [done|]. destruct (inword s) eqn:Ei; cbn [negb c_words inword]; rewrite ?Ei; [split; [lia|done]|]. rewrite i32_small by lia. split; lia. }
  destruct (IH (wc_byte s c)) as (I1 & I2 & I3); [destruct (c =? 10); lia|done|lia|destruct (c =? 10); lia|lia|lia|]. cbn zeta in *. rewrite I1, I2, I3, E1, E3. destruct (c =? 10); lia.
Qed.
(** in whatever blocks the input arrives, [wc] counts its newlines, its maximal
    runs without white space and its bytes (up to 2 GiB); a word cut by a block
    boundary counts once. *)
Theorem wc_correct blocks : Z.of_nat (length (concat blocks)) < 2 ^ 31 →
  let s := wc blocks in let text := concat blocks in
  c_lines s = newlines text ∧ c_words s = words false text ∧ c_chars s = Z.of_nat (length text).
Proof.
  intros Hl. assert (wc blocks = foldl wc_byte (Counts 0 0 0 false) (concat blocks)) as ->.
  { unfold wc. generalize (Counts 0 0 0 false). induction blocks as [|b bs IH]; intros s; [done|]. cbn. rewrite foldl_app. apply IH. cbn in Hl. rewrite length_app in Hl. lia. }
  pose proof (words_range false (concat blocks)). pose proof (newlines_range (concat blocks)).
  destruct (wc_fold (concat blocks) (Counts 0 0 0 false)) as (H1 & H2 & H3); cbn in *; lia.
Qed.
Lemma wc_correct_witness : let s := wc [[97; 98]; [99; 32; 10; 100]] in
  c_lines s = newlines [97; 98; 99; 32; 10; 100] ∧ c_words s = words false [97; 98; 99; 32; 10; 100] ∧ c_chars s = 6.
Proof. apply (wc_correct [[97; 98]; [99; 32; 10; 100]]). cbn. lia. Defined.

(** ** The time stamps of ls *)
Definition two (n : Z) : list Z := [48 + n / 10; 48 + n mod 10].
Definition fmttime (time : Z) : list Z :=
  let hour := (Z.land (Z.shiftr time 11) 31 + 8) mod 24 in
  let min := Z.land (Z.shiftr time 5) 63 in
  let sec := Z.land time 31 * 2 in
  two hour ++ [58] ++ two min ++ [58] ++ two sec.
Definition fmtdate (date : Z) : list Z :=
  let year := Z.land (Z.shiftr date 9) 127 + 1980 in
  let month := Z.land (Z.shiftr date 5) 15 in
  let day := Z.land date 31 in
  [48 + year / 1000; 48 + (year / 100) mod 10; 48 + (year / 10) mod 10; 48 + year mod 10; 45] ++ two month ++ [45] ++ two day.
(** the stamp that the file system writes and [ls -l] prints is the local time of
    the write, to two seconds: the 8 hours the one takes off the other adds, and
    neither moves the date. *)
Theorem ls_stamp_roundtrip t : valid_date t → 1980 ≤ year t < 2108 →
  fmttime (rtc_to_fat32_time t) = two (hour t) ++ [58] ++ two (min t) ++ [58] ++ two (sec t - sec t mod 2) ∧
  fmtdate (rtc_to_fat32_date t) = [48 + year t / 1000; 48 + (year t / 100) mod 10; 48 + (year t / 10) mod 10; 48 + year t mod 10; 45] ++ two (month t) ++ [45] ++ two (day t).
Proof.
  intros Hv Hy. pose proof (fat_stamp_spec t Hv Hy) as Hs. destruct Hv as (_ & _ & _ & Hh & _). unfold fat_decode in Hs. injection Hs as E1 E2 E3 E4 E5 E6.
  unfold fmttime, fmtdate.
  assert (∀ x k, 0 ≤ k → 0 ≤ x < 2 ^ k → Z.land x (Z.ones k) = x) as Hland by (intros x k Hk Hx; rewrite Z.land_ones by done; by apply Z.mod_small).
  change 31 with (Z.ones 5) at 1. rewrite (Hland (Z.shiftr (rtc_to_fat32_time t) 11) 5), E4 by (done || rewrite E4; Z.to_euclidean_division_equations; lia).
  change 127 with (Z.ones 7). rewrite (Hland (Z.shiftr (rtc_to_fat32_date t) 9) 7) by lia.
  rewrite E2, E3, E5, (Z.mul_comm _ 2), E6. replace (Z.shiftr (rtc_to_fat32_date t) 9 + 1980) with (year t) by lia.
  replace (((hour t + 16) mod 24 + 8) mod 24) with (hour t); [done|]. Z.to_euclidean_division_equations. lia.
Qed.
Lemma ls_stamp_roundtrip_witness :
  fmttime (rtc_to_fat32_time (Rtc 2026 3 5 3 7 9)) = chars "03:07:08" ∧ fmtdate (rtc_to_fat32_date (Rtc 2026 3 5 3 7 9)) = chars "2026-03-05".
Proof. apply (ls_stamp_roundtrip (Rtc 2026 3 5 3 7 9)); vm_compute; repeat split; discriminate. Defined.

(** ** xargs *)
(** [readline]: each byte is read into [*p] before the bound is looked at. *)
Fixpoint readline_loop (input : list Z) (m : memory) (buf len i : Z) : memory * Z * list Z :=
  match input with
  | [] => (m, i, [])
  | c :: input =>
      let m := upd m (buf + i) (u8 c) in
      if len <=? i then (m, i, input)
      else if u8 c =? 10 then
        if i =? 0 then readline_loop input m buf len i else (upd m (buf + i) 0, i, input)
      else readline_loop input m buf len (i + 1)
  end.
Definition readline (m : memory) (buf len : Z) (input : list Z) : memory * Z * list Z := readline_loop input m buf len 0.
(** The loop of [main]: the memory in which each command is started. *)
Fixpoint xargs_loop (fuel : nat) (m : memory) (buf : Z) (input : list Z) : list memory :=
  match fuel with
  | O => []
  | S fuel => let '(m, n, input) := readline m buf 128 input in if n =? 0 then [] else m :: xargs_loop fuel m buf input
  end.
(** Whether the commands get [buf] as a last argument, and the commands' memories;
    without input there is one command without it. *)
Definition xargs (m : memory) (buf : Z) (input : list Z) : bool * list memory :=
  let '(m1, n, _) := readline m buf 128 input in
  if n =? 0 then (false, [m1]) else (true, xargs_loop (S (length input)) m buf input).

Definition arg_line (l : list Z) : Prop := Forall (λ c, 0 < c < 256 ∧ c ≠ 10) l ∧ (length l < 128)%nat.
Lemma readline_part l rest m buf i : Forall (λ c, 0 < c < 256 ∧ c ≠ 10) l → 0 ≤ i → i + Z.of_nat (length l) ≤ 127 →
  ∃ m', readline_loop (l ++ rest) m buf 128 i = readline_loop rest m' buf 128 (i + Z.of_nat (length l)) ∧
    (∀ k c, l !! k = Some c → m' (buf + i + Z.of_nat k) = c) ∧ ∀ x, ¬ (buf + i ≤ x < buf + i + Z.of_nat (length l)) → m' x = m x.
Proof.
  intros Hl. revert m i. induction Hl as [|c l [Hc Hn] _ IH]; intros m i Hi Hb; [exists m; cbn; rewrite Z.add_0_r; done|]. cbn [app readline_loop length] in *.
  rewrite (proj2 (Z.leb_gt 128 i)), u8_small, (proj2 (Z.eqb_neq c 10)) by (done || lia).
  destruct (IH (upd m (buf + i) c) (i + 1)) as (m' & E & H1 & H2); [lia|lia|]. exists m'. split; [rewrite E; f_equal; lia|]. split.
  - intros [|k] d Hd; [injection Hd as ->; rewrite H2, Z.add_0_r, upd_eq by lia; done|]. rewrite <- (H1 k d Hd). f_equal. lia.
  - intros x Hx. rewrite H2, upd_ne by lia. done.
Qed.
Lemma readline_line l rest m buf : arg_line l → l ≠ [] →
  ∃ m', readline m buf 128 (l ++ 10 :: rest) = (m', Z.of_nat (length l), rest) ∧ cstring m' buf l ∧ ∀ x, ¬ (buf ≤ x < buf + 128) → m' x = m x.
Proof.
  intros [Hl Hlen] Hne. unfold readline. destruct (readline_part l (10 :: rest) m buf 0 Hl) as (m' & E & H1 & H2); [lia|lia|]. rewrite E. cbn [readline_loop].
  assert (0 < Z.of_nat (length l)) as Hpos by (destruct l; [done|cbn; lia]). rewrite Z.add_0_l, (proj2 (Z.leb_gt 128 _)) by lia. change (u8 10 =? 10) with true. cbn match.
  rewrite (proj2 (Z.eqb_neq (Z.of_nat (length l)) 0)) by lia. eexists. split; [done|]. split.
  - split; [eapply Forall_impl; [exact Hl|]; by intros c [Hc _]|]. split.
    + intros k c Hk. pose proof (lookup_lt_Some _ _ _ Hk). pose proof (proj1 (Forall_forall _ _) Hl c ltac:(by eapply list_elem_of_lookup_2)) as [Hc _]. unfold load8. rewrite !upd_ne by lia.
      rewrite Z.add_0_r in H1. rewrite (H1 k c Hk). apply u8_small. lia.
    + unfold load8. by rewrite upd_eq.
  - intros x Hx. rewrite !upd_ne by lia. apply H2. lia.
Qed.
(** for input of complete lines of at most 127 bytes, [xargs] runs its command once per
    non-empty line, in order, with exactly that line as the last argument, and writes
    only inside its line buffer. *)
Theorem xargs_correct m buf ls : Forall (λ l, arg_line l ∧ l ≠ []) ls → ls ≠ [] →
  ∃ ms, xargs m buf (concat (map (λ l, l ++ [10]) ls)) = (true, ms) ∧ Forall2 (λ m' l, cstring m' buf l) ms ls ∧
    Forall (λ m' : memory, ∀ x, ¬ (buf ≤ x < buf + 128) → m' x = m x) ms.
Proof.
  intros Hls Hne. set (text := λ ls, concat (map (λ l : list Z, l ++ [10]) ls)).
  assert (∀ l ls, text (l :: ls) = l ++ 10 :: text ls) as Ht by (intros l k; unfold text; cbn; by rewrite <- app_assoc).
  assert (∀ fuel m, (length ls < fuel)%nat → ∃ ms, xargs_loop fuel m buf (text ls) = ms ∧ Forall2 (λ m' l, cstring m' buf l) ms ls ∧
    Forall (λ m' : memory, ∀ x, ¬ (buf ≤ x < buf + 128) → m' x = m x) ms) as Hloop.
  { clear Hne. induction Hls as [|l ls [Hl Hn] _ IH]; intros fuel m0 Hf; (destruct fuel as [|fuel]; [cbn in Hf; lia|]); cbn [xargs_loop].
    - exists []. split; [done|]. by split; constructor.
    - rewrite Ht. destruct (readline_line l (text ls) m0 buf Hl Hn) as (m' & -> & Hs & Hx). rewrite (proj2 (Z.eqb_neq _ 0)) by (destruct l; [done|cbn; lia]).
      destruct (IH fuel m') as (ms & E & H1 & H2); [cbn in Hf; lia|]. eexists. split; [done|]. rewrite E. split; [by constructor|]. constructor; [done|].
      eapply Forall_impl; [exact H2|]. intros m2 H x Hx2. cbn in H. rewrite H by done. by apply Hx. }
  fold (text ls). unfold xargs. destruct ls as [|l ls]; [done|]. apply Forall_cons in Hls as [[Hl Hn] Hls]. rewrite Ht.
  destruct (readline_line l (text ls) m buf Hl Hn) as (m' & -> & _). rewrite (proj2 (Z.eqb_neq _ 0)) by (destruct l; [done|cbn; lia]). rewrite <- Ht.
  destruct (Hloop (S (length (text (l :: ls)))) m) as (ms & E & H1 & H2).
  { enough (∀ k, length k ≤ length (text k))%nat as H by (specialize (H (l :: ls)); lia). intros k. induction k as [|a k IH]; [done|]. rewrite Ht, length_app. cbn. lia. }
  exists ms. by rewrite E.
Qed.
(** A longer line is read past the end of the buffer, and a last line without a
    newline keeps the end of the line before it. *)
Example readline_overflow : (readline (λ _, 7) 1000 128 (replicate 200 97)).1.1 1128 = 97.
Proof. by vm_compute. Qed.
Example xargs_stale_tail : match xargs (λ _, 0) 1000 [97; 98; 99; 10; 100] with (_, [_; m]) => map m [1000; 1001; 1002; 1003] | _ => [] end = [100; 98; 99; 0].
Proof. by vm_compute. Qed.
Lemma xargs_correct_witness : ∃ ms, xargs (λ _, 0) 1000 [97; 98; 10; 99; 10] = (true, ms) ∧ Forall2 (λ m' l, cstring m' 1000 l) ms [[97; 98]; [99]] ∧
    Forall (λ m' : memory, ∀ x, ¬ (1000 ≤ x < 1000 + 128) → m' x = 0) ms.
Proof.
  apply (xargs_correct (λ _, 0) 1000 [[97; 98]; [99]]); [|done]. repeat constructor; cbn; lia || done.
Defined.

(** ** mv into a directory *)
Definition MAXPATH : Z := 260.
Definition SLASH : Z := 47.
Fixpoint drop_slashes (l : list Z) : list Z := match l with c :: l' => if c =? SLASH then drop_slashes l' else l | [] => [] end.
Fixpoint up_to_slash (l : list Z) : list Z := match l with c :: l => if c =? SLASH then [] else c :: up_to_slash l | [] => [] end.
(** The last component: slashes at the end are cut, unless there is nothing else. *)
Definition mv_base (src : list Z) : list Z :=
  match drop_slashes (rev src) with [] => src | l => rev (up_to_slash l) end.
(** The copy loop: [None] when the program gives up. *)
Fixpoint mv_copy (base : list Z) (m : memory) (dst pd : Z) : option memory :=
  match base with
  | [] => Some m
  | c :: base => let m := upd m pd c in if dst + MAXPATH <=? pd + 1 then None else mv_copy base m dst (pd + 1)
  end.
Definition mv_join (fuel : nat) (m : memory) (dst : Z) (src : list Z) : option memory :=
  match ustrlen fuel m dst with None => None | Some n => mv_copy (mv_base src) (upd m (dst + n) SLASH) dst (dst + n + 1) end.

Lemma mv_copy_spec base m dst pd : Forall (λ c, 0 < c < 256) base → pd + Z.of_nat (length base) < dst + MAXPATH →
  ∃ m', mv_copy base m dst pd = Some m' ∧ (∀ k c, base !! k = Some c → m' (pd + Z.of_nat k) = c) ∧ ∀ x, ¬ (pd ≤ x < pd + Z.of_nat (length base)) → m' x = m x.
Proof.
  intros Hb. revert m pd. induction Hb as [|c base Hc _ IH]; intros m pd Hl; [by exists m|]. cbn [mv_copy length] in *. rewrite (proj2 (Z.leb_gt (dst + MAXPATH) (pd + 1))) by lia.
  destruct (IH (upd m pd c) (pd + 1)) as (m' & E & H1 & H2); [lia|]. exists m'. split; [done|]. split.
  - intros [|k] d Hd; [injection Hd as ->; rewrite H2, Z.add_0_r, upd_eq by lia; done|]. rewrite <- (H1 k d Hd). f_equal. lia.
  - intros x Hx. rewrite H2, upd_ne by lia. done.
Qed.
(** [mv] into a directory builds the new path without a terminator: the string it
    renames to is directory, slash, last component exactly when the byte of the
    uninitialised array behind it happens to be 0. *)
Theorem mv_destination m dst d src fuel : cstring m dst d → Forall (λ c, 0 < c < 256) (mv_base src) → (length d < fuel)%nat →
  Z.of_nat (length d) + 1 + Z.of_nat (length (mv_base src)) < MAXPATH →
  ∃ m', mv_join fuel m dst src = Some m' ∧ (∀ k c, (d ++ SLASH :: mv_base src) !! k = Some c → load8 m' (dst + Z.of_nat k) = c) ∧
    let past := dst + Z.of_nat (length d) + 1 + Z.of_nat (length (mv_base src)) in
    (cstring m' dst (d ++ SLASH :: mv_base src) ↔ load8 m past = 0).
Proof.
  intros Hd Hb Hf Hl. unfold mv_join. rewrite (ustrlen_spec m dst d Hd fuel Hf).
  destruct (mv_copy_spec (mv_base src) (upd m (dst + Z.of_nat (length d)) SLASH) dst (dst + Z.of_nat (length d) + 1)) as (m' & E & H1 & H2); [done|lia|].
  exists m'. split; [done|]. assert (∀ k c, (d ++ SLASH :: mv_base src) !! k = Some c → load8 m' (dst + Z.of_nat k) = c) as Hbytes.
  { intros k c Hk. apply lookup_app_Some in Hk as [Hk|[Hge Hk]].
    - pose proof (lookup_lt_Some _ _ _ Hk). unfold load8. rewrite H2, upd_ne by lia. by apply Hd.
    - destruct (k - length d)%nat as [|j] eqn:Ej; cbn in Hk.
      + injection Hk as <-. unfold load8. replace (dst + Z.of_nat k) with (dst + Z.of_nat (length d)) by lia. rewrite H2, upd_eq by lia. done.
      + unfold load8. replace (dst + Z.of_nat k) with (dst + Z.of_nat (length d) + 1 + Z.of_nat j) by lia. rewrite (H1 j c Hk). apply u8_small.
        pose proof (proj1 (Forall_forall _ _) Hb c ltac:(by eapply list_elem_of_lookup_2)) as Hc. cbn in Hc. lia. }
  split; [done|]. cbn zeta. assert (length (d ++ SLASH :: mv_base src) = length d + 1 + length (mv_base src))%nat as El by (rewrite length_app; cbn; lia).
  assert (load8 m' (dst + Z.of_nat (length d) + 1 + Z.of_nat (length (mv_base src))) = load8 m (dst + Z.of_nat (length d) + 1 + Z.of_nat (length (mv_base src)))) as Ep.
  { unfold load8. rewrite H2, upd_ne by lia. done. }
  rewrite <- Ep. split.
  - intros (_ & _ & H). rewrite <- H. f_equal. rewrite El. lia.
  - intros H. split; [apply Forall_app; split; [apply Hd|by constructor]|]. split; [done|]. rewrite <- H. f_equal. rewrite El. lia.
Qed.
Example mv_base_runs : mv_base (chars "/a/bc//") = chars "bc" ∧ mv_base (chars "x") = chars "x" ∧ mv_base (chars "//") = chars "//".
Proof. by vm_compute. Qed.
Definition stack_with (junk : Z) : memory := λ x, if x =? 500 then 100 else if x =? 501 then 0 else junk.
Lemma mv_destination_witness : ∃ m', mv_join 5 (stack_with 120) 500 (chars "a/b") = Some m' ∧
  (∀ k c, ([100] ++ SLASH :: mv_base (chars "a/b")) !! k = Some c → load8 m' (500 + Z.of_nat k) = c) ∧
    (cstring m' 500 ([100] ++ SLASH :: mv_base (chars "a/b")) ↔ load8 (stack_with 120) (500 + 1 + 1 + 1) = 0).
Proof.
  apply (mv_destination (stack_with 120) 500 [100] (chars "a/b") 5).
  - split; [by repeat constructor|]. split; [|done]. intros [|k] c Hk; [by injection Hk as <-|done].
  - by vm_compute; repeat constructor.
  - cbn. lia.
  - by vm_compute.
Defined.

(** ** find *)
(** The directory tree as [open] and [readdir] show it. *)
Inductive tree := TFile | TDir (entries : list (list Z * tree)).
Section TreeInd.
Context (P : tree → Prop) (HF : P TFile) (HD : ∀ es, Forall (λ e, P e.2) es → P (TDir es)).
Fixpoint tree_induction (t : tree) : P t :=
  match t with
  | TFile => HF
  | TDir es => HD es ((fix go es : Forall (λ e, P e.2) es := match es with [] => List.Forall_nil _ | e :: es => List.Forall_cons _ _ _ (tree_induction e.2) (go es) end) es)
  end.
End TreeInd.
Definition PATHBUF : Z := 512.
(** What [find] does with the global [path]: the strings it stores there and the paths
    it prints.  The string before [p] is what the caller left there. *)
Inductive find_event := Store (path : list Z) | Print (path : list Z).
Definition dots (name : list Z) : bool := bool_decide (name = [46]) || bool_decide (name = [46; 46]).
Definition with_slash (path : list Z) : list Z := match last path with Some c => if c =? SLASH then path else path ++ [SLASH] | None => path end.
Fixpoint find (t : tree) (path filename : list Z) {struct t} : list Z * list find_event :=
  match t with
  | TFile => (path, [])
  | TDir es =>
      if PATHBUF <? Z.of_nat (length path) + 255 + 2 then (path, [])
      else
        let p := length (with_slash path) in
        (fix go (es : list (list Z * tree)) (path : list Z) : list Z * list find_event :=
           match es with
           | [] => (path, [])
           | (name, sub) :: es =>
               let path := take p path ++ name in
               if dots name then let '(path2, ev) := go es path in (path2, Store path :: ev)
               else
                 let '(path1, ev1) := find sub path filename in
                 let '(path2, ev2) := go es path1 in
                 (path2, Store path :: (if bool_decide (name = filename) then [Print path] else []) ++ ev1 ++ ev2)
           end) es (with_slash path)
  end.
Fixpoint find_entries (p : nat) (filename : list Z) (es : list (list Z * tree)) (path : list Z) : list Z * list find_event :=
  match es with
  | [] => (path, [])
  | (name, sub) :: es =>
      let path := take p path ++ name in
      if dots name then let '(path2, ev) := find_entries p filename es path in (path2, Store path :: ev)
      else
        let '(path1, ev1) := find sub path filename in
        let '(path2, ev2) := find_entries p filename es path1 in
        (path2, Store path :: (if bool_decide (name = filename) then [Print path] else []) ++ ev1 ++ ev2)
  end.
Lemma find_dir es path filename : find (TDir es) path filename =
  if PATHBUF <? Z.of_nat (length path) + 255 + 2 then (path, []) else find_entries (length (with_slash path)) filename es (with_slash path).
Proof.
  cbn [find]. destruct (_ <? _); [done|]. generalize (with_slash path) as q. intros q. generalize (length q) as p. intros p. revert q.
  induction es as [|[name sub] es IH]; intros q; [done|]. cbn [find_entries]. destruct (dots name); [by rewrite IH|]. destruct (find sub _ filename) as [path1 ev1]. by rewrite IH.
Qed.

(** The entries below a directory with the name looked for. *)
Fixpoint named_below (t : tree) (dir filename : list Z) : list (list Z) :=
  match t with
  | TFile => []
  | TDir es => concat (map (λ '(name, sub), if dots name then [] else
      (if bool_decide (name = filename) then [dir ++ name] else []) ++ named_below sub (dir ++ name ++ [SLASH]) filename) es)
  end.
(** Names are not empty, hold no slash, and have at most 255 bytes. *)
Fixpoint names_ok (t : tree) : Prop :=
  match t with TFile => True | TDir es => Forall id (map (λ '(name, sub), name ≠ [] ∧ last name ≠ Some SLASH ∧ Z.of_nat (length name) ≤ 255 ∧ names_ok sub) es) end.
(** Every directory's path leaves room for a name. *)
Fixpoint paths_fit (t : tree) (len : Z) : Prop :=
  match t with TFile => True | TDir es => len + 257 ≤ PATHBUF ∧ Forall id (map (λ '(name, sub), dots name = false → paths_fit sub (len + Z.of_nat (length name) + 1)) es) end.
Definition printed (ev : list find_event) : list (list Z) := omap (λ e, match e with Print p => Some p | Store _ => None end) ev.
Definition stored (ev : list find_event) : list (list Z) := omap (λ e, match e with Store p => Some p | Print _ => None end) ev.

Lemma printed_app a b : printed (a ++ b) = printed a ++ printed b.
Proof. apply omap_app. Qed.
Lemma stored_app a b : stored (a ++ b) = stored a ++ stored b.
Proof. apply omap_app. Qed.
Lemma with_slash_entry dir name : name ≠ [] → last name ≠ Some SLASH → with_slash (dir ++ name) = dir ++ name ++ [SLASH].
Proof.
  intros Hn Hl. unfold with_slash. destruct name as [|c name]; [done|]. rewrite last_app. destruct (last (c :: name)) as [d|] eqn:E; [|by apply last_None in E].
  rewrite (proj2 (Z.eqb_neq d SLASH)) by congruence. by rewrite <- app_assoc.
Qed.
Lemma with_slash_length path : Z.of_nat (length (with_slash path)) ≤ Z.of_nat (length path) + 1.
Proof. unfold with_slash. destruct (last path) as [c|]; [|lia]. destruct (c =? SLASH); [lia|]. rewrite length_app. cbn. lia. Qed.

(** What holds of a subtree: the caller's part of the path stays, the buffer is never
    overrun, and what is printed are the entries of that name. *)
Definition find_ok (t : tree) : Prop := ∀ path filename, names_ok t →
  let '(path', ev) := find t path filename in
  (∀ p, (p ≤ length path)%nat → take p path' = take p path) ∧ (length path ≤ length path')%nat ∧
  Forall (λ q : list Z, Z.of_nat (length q) < PATHBUF) (stored ev) ∧
  (paths_fit t (Z.of_nat (length (with_slash path))) → printed ev = named_below t (with_slash path) filename).
Definition below (dir filename : list Z) (es : list (list Z * tree)) : list (list Z) :=
  concat (map (λ '(name, sub), if dots name then [] else
      (if bool_decide (name = filename) then [dir ++ name] else []) ++ named_below sub (dir ++ name ++ [SLASH]) filename) es).
Lemma find_entries_ok es dir filename : Forall (λ e, find_ok e.2) es → Z.of_nat (length dir) + 255 < PATHBUF →
  Forall id (map (λ '(name, sub), name ≠ [] ∧ last name ≠ Some SLASH ∧ Z.of_nat (length name) ≤ 255 ∧ names_ok sub) es) →
  ∀ path, take (length dir) path = dir →
  let '(path', ev) := find_entries (length dir) filename es path in
  take (length dir) path' = dir ∧ Forall (λ q : list Z, Z.of_nat (length q) < PATHBUF) (stored ev) ∧
  (Forall id (map (λ '(name, sub), dots name = false → paths_fit sub (Z.of_nat (length dir) + Z.of_nat (length name) + 1)) es) → printed ev = below dir filename es).
Proof.
  intros Hok Hlen. induction Hok as [|[name sub] es Hsub _ IH]; intros Hn path Hp; cbn [find_entries]; [split; [done|]; by split|].
  cbn [map] in Hn. apply Forall_cons in Hn as [(Hn1 & Hn2 & Hn3 & Hn4) Hn]. cbn [snd] in Hsub. rewrite Hp.
  assert (Z.of_nat (length (dir ++ name)) < PATHBUF) as Hst by (rewrite length_app; lia). assert (take (length dir) (dir ++ name) = dir) as Htk by apply take_app_length.
  destruct (dots name) eqn:Ed.
  - specialize (IH Hn (dir ++ name) Htk). destruct (find_entries _ _ es (dir ++ name)) as [path2 ev]. destruct IH as (I1 & I2 & I3). split; [done|]. split; [by constructor|].
    cbn [map]. intros [_ Hf]%Forall_cons. unfold below. cbn [map concat]. rewrite Ed. by apply I3.
  - pose proof (Hsub (dir ++ name) filename Hn4) as Hs. destruct (find sub (dir ++ name) filename) as [path1 ev1]. destruct Hs as (S1 & S2 & S3 & S4).
    assert (take (length dir) path1 = dir) as Htk1 by (rewrite S1 by (rewrite length_app; lia); done).
    specialize (IH Hn path1 Htk1). destruct (find_entries _ _ es path1) as [path2 ev2]. destruct IH as (I1 & I2 & I3). split; [done|]. split.
    + change (stored (Store (dir ++ name) :: ?x)) with ((dir ++ name) :: stored x). constructor; [done|]. rewrite !stored_app. rewrite !Forall_app. split_and!; [by case_bool_decide|done|done].
    + cbn [map]. intros [Hfs Hf]%Forall_cons. unfold below. cbn [map concat]. rewrite Ed. change (printed (Store ?x :: ?y)) with (printed y). rewrite !printed_app, I3 by done.
      rewrite with_slash_entry in S4 by done. rewrite S4; [by case_bool_decide; rewrite <- app_assoc|]. rewrite !length_app. cbn [length]. specialize (Hfs Ed). cbn in Hfs.
      by replace (Z.of_nat (length dir + (length name + 1))) with (Z.of_nat (length dir) + Z.of_nat (length name) + 1) by lia.
Qed.
Lemma find_all_ok t : find_ok t.
Proof.
  induction t as [|es IH] using tree_induction; intros path filename Hn; [by split|]. rewrite find_dir. pose proof (with_slash_length path) as Hw.
  destruct (Z.ltb_spec PATHBUF (Z.of_nat (length path) + 255 + 2)) as [Hlt|Hge].
  - split; [done|]. split; [done|]. split; [constructor|]. intros [Hf _]. exfalso.
    assert (length path ≤ length (with_slash path))%nat by (unfold with_slash; destruct (last path) as [c|]; [destruct (c =? SLASH); rewrite ?length_app; lia|lia]). lia.
  - assert (Z.of_nat (length (with_slash path)) + 255 < PATHBUF) as Hlen by lia.
    pose proof (find_entries_ok es (with_slash path) filename IH Hlen Hn (with_slash path) (firstn_all _)) as H. destruct (find_entries _ _ _ _) as [path' ev]. destruct H as (H1 & H2 & H3).
    assert (∃ r, path' = with_slash path ++ r) as [r Er] by (exists (drop (length (with_slash path)) path'); rewrite <- H1 at 1; by rewrite take_drop).
    assert (∃ r, with_slash path = path ++ r) as [r' Er'] by (unfold with_slash; destruct (last path) as [c|]; [destruct (c =? SLASH)|]; eauto using app_nil_r; by exists []; rewrite app_nil_r).
    split; [|split; [|split; [done|]]].
    + intros p Hp. rewrite Er, Er', <- app_assoc, take_app_le by done. done.
    + rewrite Er, Er', !length_app. lia.
    + intros [_ Hf]. by apply H3.
Qed.

(** [find] never writes outside its 512-byte path buffer, whatever the tree (names
    have at most 255 bytes), and where all directory paths leave room for a name it
    prints, in the order of a walk from the top, the path of every entry of the name
    looked for, each once. *)
Theorem find_correct t path filename : names_ok t →
  let ev := (find t path filename).2 in
  Forall (λ q : list Z, Z.of_nat (length q) < PATHBUF) (stored ev) ∧
  (paths_fit t (Z.of_nat (length (with_slash path))) → printed ev = named_below t (with_slash path) filename).
Proof. intros Hn. pose proof (find_all_ok t path filename Hn) as H. destruct (find t path filename) as [path' ev]. destruct H as (_ & _ & H1 & H2). done. Qed.
Definition demo_tree : tree := TDir [(chars ".", TDir []); (chars "a", TDir [(chars "x", TFile); (chars "b", TDir [(chars "x", TFile)])]); (chars "x", TDir [])].
Example demo_find : (printed (find demo_tree (chars "/d") (chars "x")).2) = [chars "/d/a/x"; chars "/d/a/b/x"; chars "/d/x"].
Proof. by vm_compute. Qed.
Lemma find_correct_witness :
  let ev := (find demo_tree (chars "/d") (chars "x")).2 in
  Forall (λ q : list Z, Z.of_nat (length q) < PATHBUF) (stored ev) ∧
  (paths_fit demo_tree (Z.of_nat (length (with_slash (chars "/d")))) → printed ev = named_below demo_tree (with_slash (chars "/d")) (chars "x")).
Proof.
  apply (find_correct demo_tree (chars "/d") (chars "x")). repeat constructor; try done; vm_compute; discriminate.
Defined.
