(* ===== verification/Sdcard.v ===== *)
(** * The SD card driver (kernel/sdcard.c)

    The driver talks to the card in SPI mode: it selects it, writes bytes and reads
    bytes ([spi.c] and [gpiohs.c] below it move them).  The card is an interface, a
    class with these three operations; the properties hold for a card that follows
    the SD specification, with any delays within the driver's timeouts.

    [sdcard_lock] makes a transfer one step.  The timeouts are the code's. *)
From stdpp Require Import prelude list strings.
From Stdlib Require Import ZArith Lia.
From S2P Require Import Prelude Fat.
Open Scope Z_scope.

(** What the pins do. *)
Class SpiCard (C : Type) := {
  spi_select : bool → C → C;      (** chip select low ([true]) or high *)
  spi_send : Z → C → C;
  spi_receive : C → Z * C }.

Section Driver.
Context {C : Type} `{!SpiCard C}.
Record sd := Sd { card : C; is_standard_sd : bool }.

Definition SD_CS_LOW : M sd unit := modify (λ s, Sd (spi_select true (card s)) (is_standard_sd s)).
Definition SD_CS_HIGH : M sd unit := modify (λ s, Sd (spi_select false (card s)) (is_standard_sd s)).
Fixpoint send_all (l : list Z) (c : C) : C := match l with [] => c | b :: l => send_all l (spi_send b c) end.
Fixpoint receive_n (n : nat) (c : C) : list Z * C :=
  match n with O => ([], c) | S n => let '(b, c) := spi_receive c in let '(l, c) := receive_n n c in (b :: l, c) end.
Definition sd_write_data (l : list Z) : M sd unit := modify (λ s, Sd (send_all l (card s)) (is_standard_sd s)).
Definition sd_read_data (n : nat) : M sd (list Z) := λ s, let '(l, c) := receive_n n (card s) in Ok l (Sd c (is_standard_sd s)).
Definition sd_read_byte : M sd Z := λ s, let '(b, c) := spi_receive (card s) in Ok b (Sd c (is_standard_sd s)).

Definition cmd_frame (cmd arg crc : Z) : list Z :=
  [u8 (Z.lor cmd 64); u8 (Z.shiftr arg 24); u8 (Z.shiftr arg 16); u8 (Z.shiftr arg 8); u8 arg; crc].
Definition sd_send_cmd (cmd arg crc : Z) : M sd unit := SD_CS_LOW;;; sd_write_data (cmd_frame cmd arg crc).
Definition sd_end_cmd : M sd unit := SD_CS_HIGH;;; sd_write_data [255].
(** [while (timeout--)]. *)
Fixpoint response_loop (timeout : nat) : M sd Z :=
  match timeout with
  | O => mretM 255
  | S timeout => r <-- sd_read_byte;; if negb (r =? 255) then mretM r else response_loop timeout
  end.
Definition sd_get_response_R1 : M sd Z := response_loop 255.
(** A command, its R1 response and the rest of a longer response. *)
Definition command (cmd arg crc : Z) (rest : nat) : M sd (Z * list Z) :=
  sd_send_cmd cmd arg crc;;;
  r <-- sd_get_response_R1;;
  l <-- sd_read_data rest;;
  sd_end_cmd;;;
  mretM (r, l).

(** [while (--timeout)] from [n + 1]. *)
Fixpoint spi_mode_loop (n : nat) : M sd Z :=
  match n with
  | O => mretM 255
  | S n => x <-- command 0 0 149 0;; if x.1 =? 1 then mretM 0 else spi_mode_loop n
  end.
Definition switch_to_SPI_mode : M sd Z := spi_mode_loop 254.
Definition byte_at (l : list Z) (i : nat) : Z := nth i l 0.
Definition verify_operation_condition : M sd Z :=
  x <-- command 8 426 135 4;;
  mretM (if x.1 =? 9 then 255
         else if (x.1 =? 1) && (Z.land (byte_at x.2 2) 15 =? 1) && (byte_at x.2 3 =? 170) then 0 else 255).
Fixpoint ocr_loop (n : nat) : M sd Z :=
  match n with
  | O => mretM 255
  | S n =>
      x <-- command 58 0 0 4;;
      if (x.1 =? 1) && negb (Z.land (byte_at x.2 1) 31 =? 0) && negb (Z.land (byte_at x.2 2) 128 =? 0) then mretM 0 else ocr_loop n
  end.
Definition read_OCR : M sd Z := ocr_loop 254.
Fixpoint sdxc_loop (n : nat) : M sd Z :=
  match n with
  | O => mretM 255
  | S n =>
      x <-- command 55 0 0 0;;
      if negb (x.1 =? 1) then mretM 255
      else
        y <-- command 41 1073741824 0 0;;
        if y.1 =? 0 then mretM 0 else sdxc_loop n
  end.
Definition set_SDXC_capacity : M sd Z := sdxc_loop 4094.
Fixpoint block_size_loop (n : nat) : M sd Z :=
  match n with O => mretM 255 | S n => x <-- command 16 BSIZE 0 0;; if x.1 =? 0 then mretM 0 else block_size_loop n end.
Definition set_standard (b : bool) : M sd unit := modify (λ s, Sd (card s) b).
Fixpoint check_loop (n : nat) : M sd Z :=
  match n with
  | O => mretM 255
  | S n =>
      x <-- command 58 0 0 4;;
      if x.1 =? 0 then
        if negb (Z.land (byte_at x.2 0) 64 =? 0) then set_standard false;;; mretM 0
        else
          r <-- block_size_loop 254;;
          if negb (r =? 0) then mretM 255 else set_standard true;;; mretM 0
      else check_loop n
  end.
Definition check_block_size : M sd Z := check_loop 255.
Definition sd_init : M sd Z :=
  SD_CS_LOW;;;
  sd_write_data (replicate 10 255);;;
  r <-- switch_to_SPI_mode;;
  if negb (r =? 0) then mretM 255 else
  r <-- verify_operation_condition;;
  if negb (r =? 0) then mretM 255 else
  r <-- read_OCR;;
  if negb (r =? 0) then mretM 255 else
  r <-- set_SDXC_capacity;;
  if negb (r =? 0) then mretM 255 else
  r <-- check_block_size;;
  if negb (r =? 0) then mretM 255 else mretM 0.
Definition sdcard_init : M sd unit :=
  r <-- sd_init;; if negb (r =? 0) then panic "sdcard_init failed" else mretM tt.

(** The byte address of a sector on a standard card, its number on others. *)
Definition sector_address (standard : bool) (sectorno : Z) : Z := if standard then u32 (Z.shiftl sectorno 9) else u32 sectorno.
(** Waiting for a byte: [true] when it came. *)
Fixpoint wait_byte (P : Z → bool) (n : nat) : M sd bool :=
  match n with O => mretM false | S n => r <-- sd_read_byte;; if P r then mretM true else wait_byte P n end.
(** [0xffffff - 1] rounds. *)
Definition long_wait : nat := Z.to_nat 16777214.
Definition sdcard_read_sector (wait : nat) (sectorno : Z) : M sd (list Z) :=
  std <-- gets is_standard_sd;;
  sd_send_cmd 17 (sector_address std sectorno) 0;;;
  r <-- sd_get_response_R1;;
  if negb (r =? 0) then panic "sdcard: fail to read" else
  ok <-- wait_byte (λ r, r =? 254) wait;;
  if negb ok then panic "sdcard: timeout waiting for reading" else
  data <-- sd_read_data 512;;
  _ <-- sd_read_data 2;;
  sd_end_cmd;;;
  mretM data.
Definition sdcard_write_sector (wait : nat) (data : list Z) (sectorno : Z) : M sd unit :=
  std <-- gets is_standard_sd;;
  sd_send_cmd 24 (sector_address std sectorno) 0;;;
  r <-- sd_get_response_R1;;
  if negb (r =? 0) then panic "sdcard: fail to write" else
  sd_write_data [254];;;
  sd_write_data data;;;
  sd_write_data [255; 255];;;
  ok <-- wait_byte (λ r, Z.land r 31 =? 5) 4094;;
  if negb ok then panic "sdcard: invalid response token" else
  ok <-- wait_byte (λ r, negb (r =? 0)) wait;;
  if negb ok then panic "sdcard: timeout waiting for response" else
  sd_end_cmd;;;
  sd_send_cmd 13 0 0;;;
  r <-- sd_get_response_R1;;
  e <-- sd_read_byte;;
  sd_end_cmd;;;
  if negb (r =? 0) || negb (e =? 0) then panic "sdcard: an error occurs when writing" else mretM tt.
End Driver.
Arguments sd C : clear implicits.

(** ** A card that follows the specification *)
(** [out] are the bytes the card will drive, [rx] the block being received and its
    bytes so far, [warm] how often it still answers that it is initialising. *)
Record scard := SC {
  selected : bool; idle : bool; warm : nat; app : bool; blocks : Z → list Z;
  inb : list Z; out : list Z; rx : option (Z * list Z) }.
(** High capacity, and the bytes it waits before a response, a data block and the end
    of programming. *)
Record timing := Timing { hc : bool; d_resp : nat; d_data : nat; d_busy : nat }.

Section Card.
Context (t : timing).
Definition block_of (arg : Z) : Z := if hc t then arg else arg / 512.
Definition r1 (c : scard) : Z := if idle c then 1 else 0.
Definition respond (l : list Z) (c : scard) : scard :=
  SC (selected c) (idle c) (warm c) (app c) (blocks c) [] (replicate (d_resp t) 255 ++ l) (rx c).
Definition set_idle (i : bool) (w : nat) (c : scard) : scard := SC (selected c) i w false (blocks c) (inb c) (out c) (rx c).
Definition set_app (c : scard) : scard := SC (selected c) (idle c) (warm c) true (blocks c) (inb c) (out c) (rx c).
Definition set_rx (r : option (Z * list Z)) (c : scard) : scard := SC (selected c) (idle c) (warm c) (app c) (blocks c) (inb c) (out c) r.
Definition exec_cmd (cmd arg : Z) (c : scard) : scard :=
  if cmd =? 0 then respond [1] (set_idle true (warm c) c)
  else if cmd =? 8 then respond [r1 c; 0; 0; Z.land (arg / 256) 15; arg mod 256] c
  else if cmd =? 58 then respond [r1 c; if idle c then 0 else if hc t then 192 else 128; 255; 128; 0] c
  else if cmd =? 55 then respond [r1 c] (set_app c)
  else if (cmd =? 41) && app c then match warm c with O => respond [0] (set_idle false 0 c) | S w => respond [1] (set_idle true w c) end
  else if cmd =? 16 then respond [r1 c] c
  else if (cmd =? 17) && negb (idle c) then respond ([0] ++ replicate (d_data t) 255 ++ [254] ++ blocks c (block_of arg) ++ [0; 0]) c
  else if (cmd =? 24) && negb (idle c) then respond [0] (set_rx (Some (block_of arg, [])) c)
  else if cmd =? 13 then respond [r1 c; 0] c
  else respond [4] c.
Definition card_select (b : bool) (c : scard) : scard :=
  if b then SC true (idle c) (warm c) (app c) (blocks c) (inb c) (out c) (rx c)
  else SC false (idle c) (warm c) (app c) (blocks c) [] [] None.
Definition card_receive (c : scard) : Z * scard :=
  match out c with
  | b :: l => (b, SC (selected c) (idle c) (warm c) (app c) (blocks c) (inb c) l (rx c))
  | [] => (255, c)
  end.
(** A data packet: the token, 512 bytes, two of checksum; then the data response, the
    busy signal and idle bytes. *)
Definition card_data (n : Z) (got : list Z) (b : Z) (c : scard) : scard :=
  match got with
  | [] => if b =? 254 then set_rx (Some (n, [b])) c else c
  | _ =>
      let got := got ++ [b] in
      if (length got =? 515)%nat
      then SC (selected c) (idle c) (warm c) (app c) (upd (blocks c) n (take 512 (drop 1 got))) [] ([229] ++ replicate (d_busy t) 0 ++ [255]) None
      else set_rx (Some (n, got)) c
  end.
Definition card_send (b : Z) (c : scard) : scard :=
  if negb (selected c) then c
  else match rx c with
  | Some (n, got) => card_data n got b c
  | None =>
      match inb c with
      | [c0; a3; a2; a1; a0] => exec_cmd (c0 - 64) (((a3 * 256 + a2) * 256 + a1) * 256 + a0) c
      | [] => if (64 <=? b) && (b <? 128) then SC (selected c) (idle c) (warm c) (app c) (blocks c) [b] (out c) None else c
      | l => SC (selected c) (idle c) (warm c) (app c) (blocks c) (l ++ [b]) (out c) None
      end
  end.
#[local] Instance scard_spi : SpiCard scard := {| spi_select := card_select; spi_send := card_send; spi_receive := card_receive |}.

(** Between commands. *)
Definition at_rest (c : scard) : Prop := inb c = [] ∧ rx c = None.
Definition with_out (l : list Z) (c : scard) : scard := SC (selected c) (idle c) (warm c) (app c) (blocks c) (inb c) l (rx c).

Lemma send_app l1 l2 c : send_all (l1 ++ l2) c = send_all l2 (send_all l1 c).
Proof. revert c. induction l1 as [|b l1 IH]; intros c; [done|]. apply IH. Qed.
(** Bytes that are no command are ignored. *)
Lemma send_idle n c : at_rest c → send_all (replicate n 255) c = c.
Proof.
  intros [Hi Hr]. induction n as [|n IH]; [done|]. cbn [replicate send_all]. change (spi_send 255 c) with (card_send 255 c). unfold card_send. rewrite Hr, Hi.
  cbn. by destruct (selected c).
Qed.
Lemma frame_arg arg : 0 ≤ arg < 2 ^ 32 →
  ((u8 (Z.shiftr arg 24) * 256 + u8 (Z.shiftr arg 16)) * 256 + u8 (Z.shiftr arg 8)) * 256 + u8 arg = arg.
Proof. intros Ha. unfold u8. rewrite !Z.shiftr_div_pow2 by lia. change (2 ^ 8) with 256. change (2 ^ 16) with (256 * 256). change (2 ^ 24) with (256 * 256 * 256). Z.to_euclidean_division_equations. lia. Qed.
Lemma frame_cmd cmd : 0 ≤ cmd < 64 → u8 (Z.lor cmd 64) = cmd + 64.
Proof.
  intros Hc. assert (forallb (λ c, u8 (Z.lor c 64) =? c + 64) (seqZ 0 64) = true) as H by (vm_compute; done).
  apply Z.eqb_eq. apply (proj1 (forallb_forall _ _) H). apply list_elem_of_In, elem_of_seqZ. lia.
Qed.
Lemma send_more b i w a bl l o : (0 < length l < 5)%nat → card_send b (SC true i w a bl l o None) = SC true i w a bl (l ++ [b]) o None.
Proof. intros Hl. destruct l as [|x1 [|x2 [|x3 [|x4 [|x5 l]]]]]; cbn in Hl; try lia; done. Qed.
Lemma send_last b i w a bl c0 a3 a2 a1 a0 o : card_send b (SC true i w a bl [c0; a3; a2; a1; a0] o None) =
  exec_cmd (c0 - 64) (((a3 * 256 + a2) * 256 + a1) * 256 + a0) (SC true i w a bl [c0; a3; a2; a1; a0] o None).
Proof. done. Qed.
Lemma send_frame cmd arg crc c : at_rest c → selected c = true → 0 ≤ cmd < 64 → 0 ≤ arg < 2 ^ 32 →
  ∃ i, send_all (cmd_frame cmd arg crc) c = exec_cmd cmd arg (SC true (idle c) (warm c) (app c) (blocks c) i (out c) None).
Proof.
  intros [Hi Hr] Hs Hc Ha. unfold cmd_frame. rewrite frame_cmd by done. cbn [send_all]. change spi_send with card_send.
  assert (card_send (cmd + 64) c = SC true (idle c) (warm c) (app c) (blocks c) [cmd + 64] (out c) None) as ->.
  { unfold card_send. rewrite Hs, Hr, Hi. cbn [negb]. rewrite (proj2 (Z.leb_le 64 _)), (proj2 (Z.ltb_lt _ 128)) by lia. done. }
  rewrite !send_more by (cbn; lia). cbn [List.app]. rewrite send_last, frame_arg, Z.add_simpl_r by done. by eexists.
Qed.
(** Reading what the card drives. *)
Lemma receive_out n l c : out c = l → (n ≤ length l)%nat → receive_n n c = (take n l, with_out (drop n l) c).
Proof.
  revert l c. induction n as [|n IH]; intros l c Ho Hn; cbn [receive_n]; [rewrite drop_0, <- Ho; by destruct c|].
  change (spi_receive c) with (card_receive c). unfold card_receive. rewrite Ho. destruct l as [|b l]; [cbn in Hn; lia|].
  rewrite (IH l) by (done || cbn in Hn; lia). done.
Qed.
Lemma read_next b l c std : out c = b :: l → sd_read_byte (Sd c std) = Ok b (Sd (with_out l c) std).
Proof. intros Ho. unfold sd_read_byte. cbn [card]. change (spi_receive c) with (card_receive c). unfold card_receive. by rewrite Ho. Qed.
Lemma response_wait d l b n c std : out c = replicate d 255 ++ b :: l → b ≠ 255 → (d < n)%nat →
  response_loop n (Sd c std) = Ok b (Sd (with_out l c) std).
Proof.
  revert n c. induction d as [|d IH]; intros n c Ho Hb Hd; (destruct n as [|n]; [lia|]); cbn [response_loop]; unfold mbindM; rewrite (read_next _ _ _ _ Ho).
  - by rewrite (proj2 (Z.eqb_neq b 255)).
  - cbn [Z.eqb Pos.eqb negb]. rewrite IH by (done || lia). done.
Qed.
Lemma wait_for P d l b n x c std : out c = replicate d x ++ b :: l → P x = false → P b = true → (d < n)%nat →
  wait_byte P n (Sd c std) = Ok true (Sd (with_out l c) std).
Proof.
  revert n c. induction d as [|d IH]; intros n c Ho Hx Hb Hd; (destruct n as [|n]; [lia|]); cbn [wait_byte]; unfold mbindM; rewrite (read_next _ _ _ _ Ho).
  - by rewrite Hb.
  - rewrite Hx, IH by (done || lia). done.
Qed.

(** ** Commands *)
Definition rested (c : scard) : scard := SC false (idle c) (warm c) (app c) (blocks c) [] [] None.
Lemma end_cmd_spec c std : sd_end_cmd (Sd c std) = Ok tt (Sd (rested c) std).
Proof. done. Qed.
Lemma send_cmd_spec cmd arg crc c std : at_rest c → 0 ≤ cmd < 64 → 0 ≤ arg < 2 ^ 32 →
  ∃ i o, sd_send_cmd cmd arg crc (Sd c std) = Ok tt (Sd (exec_cmd cmd arg (SC true (idle c) (warm c) (app c) (blocks c) i o None)) std).
Proof.
  intros [Hi Hr] Hc Ha. unfold sd_send_cmd, mbindM, SD_CS_LOW, sd_write_data, modify. cbn [card is_standard_sd].
  change (spi_select true c) with (card_select true c).
  destruct (send_frame cmd arg crc (card_select true c)) as [i ->]; [done|done|done|done|]. by eexists _, _.
Qed.
(** What a response does to the card, whatever was in its buffers. *)
Lemma command_spec cmd arg crc n c std resp b l c' : (d_resp t < 255)%nat → at_rest c → 0 ≤ cmd < 64 → 0 ≤ arg < 2 ^ 32 →
  (∀ i o, exec_cmd cmd arg (SC true (idle c) (warm c) (app c) (blocks c) i o None) = respond resp (c' i o)) → resp = b :: l → b ≠ 255 → (n ≤ length l)%nat →
  (∀ i o, rested (c' i o) = rested (c' [] [])) →
  command cmd arg crc n (Sd c std) = Ok (b, take n l) (Sd (rested (c' [] [])) std).
Proof.
  intros Ht Hr Hc Ha He Er Hb Hn Hc'. unfold command, mbindM. destruct (send_cmd_spec cmd arg crc c std Hr Hc Ha) as (i & o & ->). rewrite He, Er.
  unfold sd_get_response_R1. rewrite (response_wait (d_resp t) l b 255) by done. unfold sd_read_data. cbn [card is_standard_sd].
  rewrite (receive_out n l) by done. rewrite end_cmd_spec. unfold mretM. f_equal. f_equal. rewrite <- (Hc' i o). done.
Qed.
Ltac run_command := erewrite command_spec; [|lia|done|lia|unfold BSIZE; lia|intros ? ?; unfold exec_cmd; cbn; reflexivity|reflexivity|cbn; try lia|cbn; lia|done].

(** The settings of the card that stay through a command. *)
Definition fresh (i : bool) (w : nat) (a : bool) (bl : Z → list Z) : scard := SC false i w a bl [] [] None.
Lemma fresh_rest i w a bl : at_rest (fresh i w a bl).
Proof. done. Qed.
Lemma cmd0_spec c std : (d_resp t < 255)%nat → at_rest c → command 0 0 149 0 (Sd c std) = Ok (1, []) (Sd (fresh true (warm c) false (blocks c)) std).
Proof. intros Ht Hc. run_command. done. Qed.
Lemma cmd8_spec w a bl std : (d_resp t < 255)%nat → command 8 426 135 4 (Sd (fresh true w a bl) std) = Ok (1, [0; 0; 1; 170]) (Sd (fresh true w a bl) std).
Proof. intros Ht. run_command. done. Qed.
Lemma cmd58_spec i w a bl std : (d_resp t < 255)%nat → command 58 0 0 4 (Sd (fresh i w a bl) std) =
  Ok (if i then 1 else 0, [if i then 0 else if hc t then 192 else 128; 255; 128; 0]) (Sd (fresh i w a bl) std).
Proof. intros Ht. destruct i; (run_command; done). Qed.
Lemma cmd55_spec w a bl std : (d_resp t < 255)%nat → command 55 0 0 0 (Sd (fresh true w a bl) std) = Ok (1, []) (Sd (fresh true w true bl) std).
Proof. intros Ht. run_command. done. Qed.
Lemma cmd41_spec w bl std : (d_resp t < 255)%nat → command 41 1073741824 0 0 (Sd (fresh true w true bl) std) =
  Ok (match w with O => 0 | _ => 1 end, []) (Sd (fresh (match w with O => false | _ => true end) (pred w) false bl) std).
Proof. intros Ht. destruct w as [|w]; (run_command; done). Qed.
Lemma cmd16_spec w a bl std : (d_resp t < 255)%nat → command 16 BSIZE 0 0 (Sd (fresh false w a bl) std) = Ok (0, []) (Sd (fresh false w a bl) std).
Proof. intros Ht. run_command. done. Qed.

(** ** Initialisation *)
Lemma sdxc_spec w n bl std : (d_resp t < 255)%nat → (w < n)%nat → ∃ a, sdxc_loop n (Sd (fresh true w false bl) std) = Ok 0 (Sd (fresh false 0 a bl) std).
Proof.
  intros Ht. revert n. induction w as [|w IH]; intros n Hn; (destruct n as [|n]; [lia|]); cbn [sdxc_loop]; unfold mbindM; rewrite cmd55_spec by done;
    cbn [fst Z.eqb Pos.eqb negb]; rewrite cmd41_spec by done; cbn [fst Z.eqb Pos.eqb pred].
  - by eexists.
  - apply IH. lia.
Qed.
Lemma sd_init_spec c std : (d_resp t < 255)%nat → at_rest c → (warm c < 4094)%nat →
  ∃ a, sd_init (Sd c std) = Ok 0 (Sd (fresh false 0 a (blocks c)) (negb (hc t))).
Proof.
  intros Ht Hc Hw. unfold sd_init, mbindM at 1 2. unfold SD_CS_LOW, sd_write_data, modify. cbn [card is_standard_sd]. change (spi_select true c) with (card_select true c).
  rewrite send_idle by done. unfold switch_to_SPI_mode. change 254%nat with (S 253). cbn [spi_mode_loop]. unfold mbindM at 1 2. rewrite cmd0_spec by done.
  cbn [fst Z.eqb Pos.eqb mretM negb warm blocks card_select]. unfold verify_operation_condition, mbindM at 1 2. rewrite cmd8_spec by done. cbn [mretM fst snd Z.eqb Pos.eqb].
  unfold byte_at. cbn [nth]. change (Z.land 1 15 =? 1) with true. cbn [andb Z.eqb Pos.eqb negb].
  unfold read_OCR. change 254%nat with (S 253). cbn [ocr_loop]. unfold mbindM at 1 2. rewrite cmd58_spec by done. unfold byte_at. cbn [fst snd nth Z.eqb Pos.eqb].
  change (Z.land 255 31 =? 0) with false. change (Z.land 128 128 =? 0) with false. cbn [andb negb mretM Z.eqb].
  unfold mbindM at 1. unfold set_SDXC_capacity. destruct (sdxc_spec (warm c) 4094 (blocks c) std Ht Hw) as [a ->]. cbn [negb Z.eqb].
  unfold mbindM at 1. unfold check_block_size. change 255%nat with (S 254). cbn [check_loop]. unfold mbindM at 1. rewrite cmd58_spec by done. unfold byte_at. cbn [fst snd nth Z.eqb].
  destruct (hc t).
  - change (Z.land 192 64 =? 0) with false. cbn [negb]. by exists a.
  - change (Z.land 128 64 =? 0) with true. cbn [negb]. unfold mbindM at 1. change 254%nat with (S 253). cbn [block_size_loop]. unfold mbindM at 1. rewrite cmd16_spec by done.
    cbn [fst Z.eqb mretM negb]. by exists a.
Qed.

(** ** Sectors *)
(** The sector numbers a card can be asked for. *)
Definition sector_ok (n : Z) : Prop := 0 ≤ n ∧ if hc t then n < 2 ^ 32 else n < 2 ^ 23.
Lemma address_ok n : sector_ok n → 0 ≤ sector_address (negb (hc t)) n < 2 ^ 32 ∧ block_of (sector_address (negb (hc t)) n) = n.
Proof.
  unfold sector_ok, block_of, sector_address. intros [H0 H1]. destruct (hc t); cbn [negb].
  - rewrite u32_small by lia. lia.
  - rewrite Z.shiftl_mul_pow2, u32_small by lia. change (2 ^ 9) with 512. split; [lia|]. apply Z.div_mul. lia.
Qed.
Lemma read_sector_spec wait c n : (d_resp t < 255)%nat → (d_data t < wait)%nat → at_rest c → idle c = false → sector_ok n → length (blocks c n) = 512%nat →
  ∃ c', sdcard_read_sector wait n (Sd c (negb (hc t))) = Ok (blocks c n) (Sd c' (negb (hc t))) ∧ at_rest c' ∧ idle c' = false ∧ blocks c' = blocks c.
Proof.
  intros Ht Hd Hc Hi Hn Hl. destruct (address_ok n Hn) as [Ha Hb]. unfold sdcard_read_sector, mbindM at 1, gets. cbn [is_standard_sd]. set (a := sector_address _ n) in *.
  unfold mbindM at 1. destruct (send_cmd_spec 17 a 0 c (negb (hc t)) Hc ltac:(lia) Ha) as (i & o & ->). unfold exec_cmd. cbn [Z.eqb Pos.eqb andb idle negb]. rewrite Hi. cbn [negb blocks]. rewrite Hb.
  unfold mbindM at 1. unfold sd_get_response_R1. rewrite (response_wait (d_resp t) (replicate (d_data t) 255 ++ 254 :: blocks c n ++ [0; 0]) 0) by done.
  cbn [Z.eqb negb]. unfold mbindM at 1. rewrite (wait_for _ (d_data t) (blocks c n ++ [0; 0]) 254 wait 255) by done. cbn [negb].
  unfold mbindM at 1. unfold sd_read_data. cbn [card is_standard_sd]. rewrite (receive_out 512 (blocks c n ++ [0; 0])) by (done || rewrite length_app; lia).
  rewrite take_app_le, <- Hl, firstn_all, drop_app_length by lia. unfold mbindM at 1. rewrite (receive_out 2 [0; 0]) by (done || cbn; lia). unfold mbindM. rewrite end_cmd_spec. unfold mretM.
  eexists. split; [done|]. split; [done|]. split; [done|done].
Qed.

Lemma send_data n l got c : selected c = true → rx c = Some (n, got) → got ≠ [] → (length got + length l < 515)%nat → send_all l c = set_rx (Some (n, got ++ l)) c.
Proof.
  revert got c. induction l as [|b l IH]; intros got c Hs Hr Hg Hl; cbn [send_all]; [rewrite app_nil_r, <- Hr; by destruct c|]. cbn [length] in Hl.
  assert (spi_send b c = set_rx (Some (n, got ++ [b])) c) as ->.
  { change (spi_send b c) with (card_send b c). unfold card_send. rewrite Hs, Hr. cbn [negb]. unfold card_data. destruct got as [|g got]; [done|].
    rewrite (proj2 (Nat.eqb_neq (length ((g :: got) ++ [b])) 515)); [done|]. rewrite length_app. cbn in *. lia. }
  rewrite (IH (got ++ [b])) by (done || (by destruct got) || (rewrite ?length_app; cbn in *; lia)). cbn. by rewrite <- app_assoc.
Qed.
Lemma send_block n data c : selected c = true → rx c = Some (n, []) → length data = 512%nat →
  send_all [255; 255] (send_all data (send_all [254] c)) =
    SC true (idle c) (warm c) (app c) (upd (blocks c) n data) [] ([229] ++ replicate (d_busy t) 0 ++ [255]) None.
Proof.
  intros Hs Hr Hl. assert (send_all [254] c = set_rx (Some (n, [254])) c) as ->.
  { cbn [send_all]. change (spi_send 254 c) with (card_send 254 c). unfold card_send. rewrite Hs, Hr. done. }
  rewrite (send_data n data [254] (set_rx (Some (n, [254])) c) Hs eq_refl) by (done || cbn; lia). change [255; 255] with ([255] ++ [255]). change ([254] ++ data) with (254 :: data).
  rewrite send_app, (send_data n [255] (254 :: data) (set_rx (Some (n, 254 :: data)) (set_rx (Some (n, [254])) c)) Hs eq_refl) by (done || (cbn [length]; lia)).
  cbn [send_all]. change (spi_send 255 ?c) with (card_send 255 c). unfold card_send. cbn [selected set_rx rx]. rewrite Hs. cbn [negb]. unfold card_data.
  change ((254 :: data) ++ [255]) with (254 :: (data ++ [255])). cbn [List.app]. rewrite (proj2 (Nat.eqb_eq _ 515)) by (cbn; rewrite !length_app; cbn; lia).
  cbn [drop]. rewrite drop_0, <- app_assoc, take_app_le, <- Hl, firstn_all by lia. cbn. by rewrite Hs.
Qed.
Lemma write_sector_spec wait c n data : (d_resp t < 255)%nat → (d_busy t < wait)%nat → at_rest c → idle c = false → sector_ok n → length data = 512%nat →
  ∃ c', sdcard_write_sector wait data n (Sd c (negb (hc t))) = Ok tt (Sd c' (negb (hc t))) ∧ at_rest c' ∧ idle c' = false ∧ blocks c' = upd (blocks c) n data.
Proof.
  intros Ht Hd Hc Hi Hn Hl. destruct (address_ok n Hn) as [Ha Hb]. unfold sdcard_write_sector, mbindM at 1, gets. cbn [is_standard_sd]. set (a := sector_address _ n) in *.
  unfold mbindM at 1. destruct (send_cmd_spec 24 a 0 c (negb (hc t)) Hc ltac:(lia) Ha) as (i & o & ->). unfold exec_cmd. cbn [Z.eqb Pos.eqb andb idle negb]. rewrite Hi. cbn [negb]. rewrite Hb.
  unfold mbindM at 1. unfold sd_get_response_R1. rewrite (response_wait (d_resp t) [] 0) by done. cbn [Z.eqb negb].
  unfold mbindM at 1 2 3. unfold sd_write_data at 1 2 3, modify. cbn [card is_standard_sd]. rewrite (send_block n) by done. cbn [idle warm app blocks with_out respond set_rx].
  unfold mbindM at 1. rewrite (wait_for _ 0 (replicate (d_busy t) 0 ++ [255]) 229 4094 0) by (done || lia). cbn [negb].
  unfold mbindM at 1. rewrite (wait_for _ (d_busy t) [] 255 wait 0) by done. cbn [negb]. unfold mbindM at 1. rewrite end_cmd_spec.
  unfold mbindM at 1. match goal with |- context [sd_send_cmd 13 0 0 (Sd ?x ?y)] => destruct (send_cmd_spec 13 0 0 x y) as (i2 & o2 & ->); [done|lia|lia|] end.
  unfold exec_cmd. cbn [Z.eqb Pos.eqb andb idle negb rested with_out r1]. unfold r1. cbn [idle]. 
  unfold mbindM at 1. unfold sd_get_response_R1. rewrite (response_wait (d_resp t) [0] 0) by done. unfold mbindM at 1. rewrite (read_next 0 []) by done.
  unfold mbindM. rewrite end_cmd_spec. cbn [Z.eqb negb orb]. unfold mretM. eexists. split; [done|]. split; [done|]. split; [done|done].
Qed.
End Card.

(** C29: with a card that follows the specification, whatever its capacity class and its
    delays within the driver's timeouts, the driver brings the card up and settles how
    it addresses sectors; then a sector that is written reads back as written, and
    every other sector as before, and the driver never panics. *)
Theorem sd_write_read t c std wait n k data : (d_resp t < 255)%nat → (d_data t < wait)%nat → (d_busy t < wait)%nat → (warm c < 4094)%nat →
  at_rest c → sector_ok t n → sector_ok t k → length data = 512%nat → (∀ j, length (blocks c j) = 512%nat) →
  let io : SpiCard scard := scard_spi t in
  ∃ s1 s2 s3, sd_init (Sd c std) = Ok 0 s1 ∧ is_standard_sd s1 = negb (hc t) ∧
    sdcard_write_sector wait data n s1 = Ok tt s2 ∧ sdcard_read_sector wait k s2 = Ok (if decide (k = n) then data else blocks c k) s3 ∧ blocks (card s3) = upd (blocks c) n data.
Proof.
  intros H1 H2 H3 H4 H5 H6 H7 H8 H9 io. destruct (sd_init_spec t c std H1 H5 H4) as [a E1]. eexists. 
  destruct (write_sector_spec t wait (fresh false 0 a (blocks c)) n data H1 H3 ltac:(done) eq_refl H6 H8) as (c2 & E2 & R2 & I2 & B2). cbn [blocks fresh] in B2.
  destruct (read_sector_spec t wait c2 k H1 H2 R2 I2 H7) as (c3 & E3 & R3 & I3 & B3).
  { rewrite B2. destruct (decide (k = n)) as [->|Hn]; [by rewrite upd_eq|by rewrite upd_ne]. }
  eexists _, (Sd c3 _). split; [exact E1|]. split; [done|]. split; [exact E2|]. split; [|cbn; by rewrite B3, B2].
  unfold io. rewrite E3, B2. f_equal. destruct (decide (k = n)) as [->|Hn]; [apply upd_eq|by apply upd_ne].
Qed.
(** The driver's own timeout is long enough for every wait below 16777214 bytes. *)
Lemma long_wait_enough (d : Z) : 0 ≤ d < 16777214 → (Z.to_nat d < long_wait)%nat.
Proof. intros Hd. unfold long_wait. lia. Qed.

(** ** Runs *)
Definition slow_card : scard := SC true true 3 false (λ n, replicate 512 (n mod 256)) [] [] None.
Definition sdsc : timing := Timing false 7 20 40.
Lemma sd_write_read_witness : let io : SpiCard scard := scard_spi sdsc in
  ∃ s1 s2 s3, sd_init (Sd slow_card false) = Ok 0 s1 ∧ is_standard_sd s1 = true ∧
    sdcard_write_sector 100 (replicate 512 9) 5 s1 = Ok tt s2 ∧ sdcard_read_sector 100 6 s2 = Ok (replicate 512 6) s3 ∧
    blocks (card s3) = upd (λ n, replicate 512 (n mod 256)) 5 (replicate 512 9).
Proof.
  apply (sd_write_read sdsc slow_card false 100 5 6 (replicate 512 9)); try (cbn; lia); try done.
Defined.
(** A socket without a card drives 255 for ever: the initialisation gives up. *)
Definition no_card : SpiCard unit := {| spi_select := λ _ c, c; spi_send := λ _ c, c; spi_receive := λ c, (255, c) |}.
Example no_card_fails : sdcard_init (SpiCard0 := no_card) (Sd tt false) = Panic "sdcard_init failed".
Proof. by vm_compute. Qed.
