(* ===== verification/Plic.v ===== *)
(** * External interrupts (kernel/plic.c, the first branch of devintr in kernel/trap.c)

    The interrupt controller gates each source: a claim returns the pending enabled
    source of the highest priority above the threshold of the hart, the lowest number
    among equals, and the source is not given again until it is completed.  The
    handler hands the interrupt to the console or to the disk.

    [sbi_console_getchar] takes a byte from the firmware, -1 when there is none. *)
From stdpp Require Import prelude list strings.
From Stdlib Require Import ZArith Lia.
From S2P Require Import Prelude Console Virtio.
Open Scope Z_scope.

Definition UART_IRQ : Z := 10.
Definition DISK_IRQ : Z := 1.
(** Sources of the controller. *)
Definition PLIC_SOURCES : list Z := map Z.of_nat (seq 1 53).

Record plic := Plic {
  priority : Z → Z; senable : Z → Z; spriority : Z → Z;
  pending : Z → bool; in_service : Z → bool }.

(** ** plic.c *)
Definition plicinit : M plic unit :=
  modify (λ s, Plic (upd (priority s) DISK_IRQ 1) (senable s) (spriority s) (pending s) (in_service s));;;
  modify (λ s, Plic (upd (priority s) UART_IRQ 1) (senable s) (spriority s) (pending s) (in_service s)).
Definition plicinithart (hart : Z) : M plic unit :=
  modify (λ s, Plic (priority s) (upd (senable s) hart (Z.lor (Z.shiftl 1 UART_IRQ) (Z.shiftl 1 DISK_IRQ))) (spriority s) (pending s) (in_service s));;;
  modify (λ s, Plic (priority s) (senable s) (upd (spriority s) hart 0) (pending s) (in_service s)).

(** The controller's answer to a claim. *)
Definition ready_for (s : plic) (hart i : Z) : bool :=
  pending s i && negb (in_service s i) && Z.testbit (senable s hart) i && (spriority s hart <? priority s i).
Fixpoint best (s : plic) (l : list Z) (acc : Z) : Z :=
  match l with [] => acc | i :: l => best s l (if (acc =? 0) || (priority s acc <? priority s i) then i else acc) end.
Definition claimable (s : plic) (hart : Z) : Z := best s (filter (λ i, ready_for s hart i = true) PLIC_SOURCES) 0.
Definition plic_claim (hart : Z) : M plic Z :=
  λ s, let i := claimable s hart in
    Ok i (if i =? 0 then s else Plic (priority s) (senable s) (spriority s) (upd (pending s) i false) (upd (in_service s) i true)).
Definition plic_complete (irq : Z) : M plic unit :=
  modify (λ s, Plic (priority s) (senable s) (spriority s) (pending s) (upd (in_service s) irq false)).

(** ** The handler *)
Record machine := Machine { ctrl : plic; cons : console; woken : bool; vd : vdisk; keys : list Z }.
Definition sbi_console_getchar : M machine Z :=
  λ m, match keys m with c :: l => Ok c (Machine (ctrl m) (cons m) (woken m) (vd m) l) | [] => Ok (-1) m end.
Section Handler.
(** What ^P prints. *)
Context (dump : list Z).
Definition on_plic {A} (c : M plic A) : M machine A := zoom ctrl (λ p m, Machine p (cons m) (woken m) (vd m) (keys m)) c.
Definition console_interrupt (c : Z) : M machine unit :=
  modify (λ m, let '(s, w) := consoleintr dump c (cons m) in Machine (ctrl m) s (woken m || w) (vd m) (keys m)).
Definition external_interrupt (hart : Z) : M machine Z :=
  irq <-- on_plic (plic_claim hart);;
  (if irq =? UART_IRQ then
     c <-- sbi_console_getchar;;
     whenM (negb (c =? -1)) (console_interrupt c)
   else if irq =? DISK_IRQ then zoom vd (λ d m, Machine (ctrl m) (cons m) (woken m) d (keys m)) virtio_disk_intr
   else mretM tt);;;
  whenM (negb (irq =? 0)) (on_plic (plic_complete irq));;;
  mretM 1.

(** ** Two sources reach a hart *)
(** The setting [plicinit] and [plicinithart] leave. *)
Definition configured (hart : Z) (s : plic) : Prop :=
  priority s DISK_IRQ = 1 ∧ priority s UART_IRQ = 1 ∧ senable s hart = 1026 ∧ spriority s hart = 0.
Lemma plicinit_run hart s : ∃ s', (plicinit;;; plicinithart hart) s = Ok tt s' ∧ configured hart s' ∧
  pending s' = pending s ∧ in_service s' = in_service s.
Proof. eexists. split; [reflexivity|]. unfold configured. cbn. by rewrite !upd_eq. Qed.

Lemma enabled_sources i : 0 ≤ i → Z.testbit 1026 i = (i =? 1) || (i =? 10).
Proof.
  intros Hi. destruct (decide (i < 11)) as [Hs|Hl].
  - assert (forallb (λ i, Bool.eqb (Z.testbit 1026 i) ((i =? 1) || (i =? 10))) (map Z.of_nat (seq 0 11)) = true) as Hb by reflexivity.
    apply Bool.eqb_prop. apply (proj1 (forallb_forall _ _) Hb). apply in_map_iff. exists (Z.to_nat i). split; [lia|]. apply in_seq. lia.
  - rewrite (Z.bits_above_log2 1026 i) by (change (Z.log2 1026) with 10; lia). symmetry. apply orb_false_iff. rewrite !Z.eqb_neq. lia.
Qed.
Definition want (s : plic) (i : Z) : bool := pending s i && negb (in_service s i).
Lemma ready_spec hart s i : configured hart s → 0 ≤ i → ready_for s hart i = want s i && ((i =? 1) || (i =? 10)).
Proof.
  intros (H1 & H2 & H3 & H4) Hi. unfold ready_for, want. rewrite H3, H4, enabled_sources by done.
  destruct (Z.eqb_spec i 1) as [->|]; [change (priority s 1) with (priority s DISK_IRQ); rewrite H1; by rewrite !andb_true_r|].
  destruct (Z.eqb_spec i 10) as [->|]; [change (priority s 10) with (priority s UART_IRQ); rewrite H2; by rewrite !andb_true_r|].
  by rewrite !andb_false_r.
Qed.
Lemma filter_none (P : Z → Prop) `{∀ i, Decision (P i)} (l : list Z) : (∀ i, i ∈ l → ¬ P i) → filter P l = [].
Proof. intros Hl. induction l as [|i l IH]; [done|]. rewrite filter_cons, decide_False by (apply Hl; by left). apply IH. intros j Hj. apply Hl. by right. Qed.
(** The disk comes before the serial line. *)
Lemma claimable_spec hart s : configured hart s →
  claimable s hart = if want s DISK_IRQ then DISK_IRQ else if want s UART_IRQ then UART_IRQ else 0.
Proof.
  intros Hc. pose proof Hc as (H1 & H2 & _). unfold claimable.
  assert (filter (λ i, ready_for s hart i = true) PLIC_SOURCES =
    filter (λ i, want s i = true) [DISK_IRQ; UART_IRQ]) as ->.
  { rewrite (filter_ext_in (λ i, ready_for s hart i = true) (λ i, want s i && ((i =? 1) || (i =? 10)) = true)).
    - change PLIC_SOURCES with ([1] ++ map Z.of_nat (seq 2 8) ++ [10] ++ map Z.of_nat (seq 11 43)).
      rewrite !filter_app, (filter_none _ (map Z.of_nat (seq 2 8))), (filter_none _ (map Z.of_nat (seq 11 43)))
        by (intros i (k & -> & Hk%elem_of_seq)%list_elem_of_fmap; rewrite !(proj2 (Z.eqb_neq _ _)) by lia; by rewrite andb_false_r).
      rewrite app_nil_r, app_nil_l. unfold DISK_IRQ, UART_IRQ. rewrite !filter_cons, !filter_nil. cbn [Z.eqb Pos.eqb orb]. rewrite !andb_true_r.
      by destruct (want s 1), (want s 10).
    - intros i (k & -> & _)%list_elem_of_fmap. by rewrite ready_spec by (done || lia). }
  unfold DISK_IRQ, UART_IRQ in *. rewrite !filter_cons, filter_nil. destruct (want s 1), (want s 10); try done.
  rewrite !decide_True by done. cbn. by rewrite H1, H2.
Qed.

(** After [plicinit] and [plicinithart], an external interrupt is served by the
    device that raised it: a pending disk interrupt by [virtio_disk_intr], otherwise a
    pending serial interrupt by [consoleintr] on the byte the firmware has, and
    nothing else changes; the source is then completed, so its next interrupt is
    delivered, and the other one stays pending. *)
Theorem external_interrupt_correct hart m :
  configured hart (ctrl m) → (∀ i, in_service (ctrl m) i = false) →
  (pending (ctrl m) DISK_IRQ = true → ∀ d, virtio_disk_intr (vd m) = Ok tt d →
    ∃ m', external_interrupt hart m = Ok 1 m' ∧ vd m' = d ∧ cons m' = cons m ∧ keys m' = keys m ∧ woken m' = woken m ∧
      configured hart (ctrl m') ∧ (∀ i, in_service (ctrl m') i = false) ∧ (∀ i, pending (ctrl m') i = if i =? DISK_IRQ then false else pending (ctrl m) i)) ∧
  (pending (ctrl m) DISK_IRQ = false → pending (ctrl m) UART_IRQ = true →
    ∃ m', external_interrupt hart m = Ok 1 m' ∧ vd m' = vd m ∧
      (match keys m with
       | c :: l => keys m' = l ∧ (c ≠ -1 → cons m' = (consoleintr dump c (cons m)).1 ∧ woken m' = woken m || (consoleintr dump c (cons m)).2)
       | [] => keys m' = [] ∧ cons m' = cons m ∧ woken m' = woken m end) ∧
      configured hart (ctrl m') ∧ (∀ i, in_service (ctrl m') i = false) ∧ (∀ i, pending (ctrl m') i = if i =? UART_IRQ then false else pending (ctrl m) i)) ∧
  (pending (ctrl m) DISK_IRQ = false → pending (ctrl m) UART_IRQ = false → external_interrupt hart m = Ok 1 m).
Proof.
  intros Hc Hs. pose proof (claimable_spec hart (ctrl m) Hc) as Hcl. unfold want in Hcl. rewrite !Hs, !andb_true_r in Hcl.
  assert (∀ i p, in_service p = in_service (ctrl m) → ∀ j, upd (upd (in_service p) i true) i false j = false) as Hdone.
  { intros i p Hp j. unfold upd. rewrite Hp. destruct (j =? i); [done|apply Hs]. }
  destruct m as [p c w d k]. cbn [ctrl vd cons keys woken] in *. split_and!.
  - intros Hd d' Ed. rewrite Hd in Hcl. eexists. split.
    + unfold external_interrupt, on_plic, mbindM, zoom, plic_claim. cbn [ctrl]. rewrite Hcl. cbn [Z.eqb Pos.eqb DISK_IRQ UART_IRQ vd]. rewrite Ed. reflexivity.
    + cbn [ctrl vd cons keys woken in_service pending]. split_and!; try done; by apply Hdone.
  - intros Hd Hu. rewrite Hd, Hu in Hcl. unfold external_interrupt, on_plic, mbindM, zoom, plic_claim, sbi_console_getchar. cbn [ctrl]. rewrite Hcl.
    cbn [Z.eqb Pos.eqb UART_IRQ keys]. destruct k as [|b k].
    + eexists. split; [reflexivity|]. cbn. split_and!; try done; by apply Hdone.
    + destruct (Z.eqb_spec b (-1)) as [->|Hb]; cbn [negb whenM].
      * eexists. split; [reflexivity|]. cbn. split_and!; try done; by apply Hdone.
      * unfold console_interrupt, modify. cbn [cons]. destruct (consoleintr dump b c) as [c' w'].
        eexists. split; [reflexivity|]. cbn. split_and!; try done; by apply Hdone.
  - intros Hd Hu. rewrite Hd, Hu in Hcl. unfold external_interrupt, on_plic, mbindM, zoom, plic_claim. cbn [ctrl]. by rewrite Hcl.
Qed.
End Handler.
