(* ===== verification/VirtioInit.v ===== *)
(** * Starting the virtio disk (virtio_disk_init of kernel/virtio_disk.c)

    The registers of the device and the handshake over them; what the function does to
    the driver's own state is [Virtio.virtio_disk_init].  The device ignores what is
    written to its read-only registers and keeps the rest per queue; [writes] records
    the registers in the order they are written. *)
From stdpp Require Import prelude list strings.
From Stdlib Require Import ZArith Lia.
From S2P Require Import Prelude Riscv Virtio.
Open Scope Z_scope.
#[local] Arguments Z.testbit : simpl never.

Definition VIRTIO_MMIO_DRIVER_FEATURES : Z := 32.
Definition VIRTIO_MMIO_GUEST_PAGE_SIZE : Z := 40.
Definition VIRTIO_MMIO_QUEUE_SEL : Z := 48.
Definition VIRTIO_MMIO_QUEUE_NUM : Z := 56.
Definition VIRTIO_MMIO_QUEUE_PFN : Z := 64.
Definition VIRTIO_MMIO_STATUS : Z := 112.
Definition VIRTIO_CONFIG_S_ACKNOWLEDGE : Z := 1.
Definition VIRTIO_CONFIG_S_DRIVER : Z := 2.
Definition VIRTIO_CONFIG_S_DRIVER_OK : Z := 4.
Definition VIRTIO_CONFIG_S_FEATURES_OK : Z := 8.
Definition VIRTIO_BLK_F_RO : Z := 5.
Definition VIRTIO_BLK_F_SCSI : Z := 7.
Definition VIRTIO_BLK_F_CONFIG_WCE : Z := 11.
Definition VIRTIO_BLK_F_MQ : Z := 12.
Definition VIRTIO_F_ANY_LAYOUT : Z := 27.
Definition VIRTIO_RING_F_INDIRECT_DESC : Z := 28.
Definition VIRTIO_RING_F_EVENT_IDX : Z := 29.

Record mmio := Mmio {
  magic : Z; version : Z; device_id : Z; vendor_id : Z; device_features : Z; queue_max : Z → Z;
  driver_features : Z; page_size : Z; queue_sel : Z; queue_num : Z → Z; queue_pfn : Z → Z; status : Z;
  writes : list (Z * Z) }.
Definition write_reg (r v : Z) : M mmio unit :=
  modify (λ d,
    let w := writes d ++ [(r, v)] in
    if r =? VIRTIO_MMIO_DRIVER_FEATURES then Mmio (magic d) (version d) (device_id d) (vendor_id d) (device_features d) (queue_max d) v (page_size d) (queue_sel d) (queue_num d) (queue_pfn d) (status d) w
    else if r =? VIRTIO_MMIO_GUEST_PAGE_SIZE then Mmio (magic d) (version d) (device_id d) (vendor_id d) (device_features d) (queue_max d) (driver_features d) v (queue_sel d) (queue_num d) (queue_pfn d) (status d) w
    else if r =? VIRTIO_MMIO_QUEUE_SEL then Mmio (magic d) (version d) (device_id d) (vendor_id d) (device_features d) (queue_max d) (driver_features d) (page_size d) v (queue_num d) (queue_pfn d) (status d) w
    else if r =? VIRTIO_MMIO_QUEUE_NUM then Mmio (magic d) (version d) (device_id d) (vendor_id d) (device_features d) (queue_max d) (driver_features d) (page_size d) (queue_sel d) (upd (queue_num d) (queue_sel d) v) (queue_pfn d) (status d) w
    else if r =? VIRTIO_MMIO_QUEUE_PFN then Mmio (magic d) (version d) (device_id d) (vendor_id d) (device_features d) (queue_max d) (driver_features d) (page_size d) (queue_sel d) (queue_num d) (upd (queue_pfn d) (queue_sel d) v) (status d) w
    else if r =? VIRTIO_MMIO_STATUS then Mmio (magic d) (version d) (device_id d) (vendor_id d) (device_features d) (queue_max d) (driver_features d) (page_size d) (queue_sel d) (queue_num d) (queue_pfn d) v w
    else d).

(** [features &= ~(1 << b)]. *)
Definition without (features b : Z) : Z := Z.land features (u64 (Z.lnot (Z.shiftl 1 b))).
Definition negotiate (features : Z) : Z :=
  without (without (without (without (without (without (without features
    VIRTIO_BLK_F_RO) VIRTIO_BLK_F_SCSI) VIRTIO_BLK_F_CONFIG_WCE) VIRTIO_BLK_F_MQ) VIRTIO_F_ANY_LAYOUT)
    VIRTIO_RING_F_EVENT_IDX) VIRTIO_RING_F_INDIRECT_DESC.
Definition is_disk (d : mmio) : bool :=
  (magic d =? 1953655158) && (version d =? 1) && (device_id d =? 2) && (vendor_id d =? 1431127377).

(** [pages]: the address of [disk.pages]. *)
Definition virtio_mmio_init (pages : Z) : M mmio unit :=
  found <-- gets is_disk;;
  if negb found then panic "could not find virtio disk" else
  let st := VIRTIO_CONFIG_S_ACKNOWLEDGE in
  write_reg VIRTIO_MMIO_STATUS st;;;
  let st := Z.lor st VIRTIO_CONFIG_S_DRIVER in
  write_reg VIRTIO_MMIO_STATUS st;;;
  features <-- gets device_features;;
  write_reg VIRTIO_MMIO_DRIVER_FEATURES (u32 (negotiate features));;;
  let st := Z.lor st VIRTIO_CONFIG_S_FEATURES_OK in
  write_reg VIRTIO_MMIO_STATUS st;;;
  let st := Z.lor st VIRTIO_CONFIG_S_DRIVER_OK in
  write_reg VIRTIO_MMIO_STATUS st;;;
  write_reg VIRTIO_MMIO_GUEST_PAGE_SIZE PGSIZE;;;
  write_reg VIRTIO_MMIO_QUEUE_SEL 0;;;
  max <-- gets (λ d, queue_max d (queue_sel d));;
  if max =? 0 then panic "virtio disk has no queue 0" else
  if max <? NUM then panic "virtio disk max queue too short" else
  write_reg VIRTIO_MMIO_QUEUE_NUM NUM;;;
  write_reg VIRTIO_MMIO_QUEUE_PFN (u32 (Z.shiftr pages PGSHIFT)).

(** ** Features *)
Definition declined : list Z :=
  [VIRTIO_BLK_F_RO; VIRTIO_BLK_F_SCSI; VIRTIO_BLK_F_CONFIG_WCE; VIRTIO_BLK_F_MQ; VIRTIO_F_ANY_LAYOUT;
   VIRTIO_RING_F_EVENT_IDX; VIRTIO_RING_F_INDIRECT_DESC].
Lemma without_testbit f b k : 0 ≤ b → 0 ≤ k < 64 → Z.testbit (without f b) k = Z.testbit f k && negb (k =? b).
Proof.
  intros Hb Hk. unfold without, u64. rewrite Z.land_spec, Z.mod_pow2_bits_low, Z.lnot_spec by lia.
  rewrite Z.shiftl_1_l, Z.pow2_bits_eqb by lia. by rewrite Z.eqb_sym.
Qed.
Lemma negotiate_testbit f k : 0 ≤ k < 64 → Z.testbit (negotiate f) k = Z.testbit f k && bool_decide (k ∉ declined).
Proof.
  intros Hk. unfold negotiate. rewrite !without_testbit by (done || lia). rewrite <- !andb_assoc. f_equal.
  apply eq_bool_prop_intro. rewrite bool_decide_spec, !andb_True, !negb_True, !Is_true_true, !Z.eqb_eq. unfold declined.
  rewrite !not_elem_of_cons. pose proof (not_elem_of_nil k). tauto.
Qed.

(** [virtio_disk_init] panics exactly when the device is no legacy virtio disk of
    QEMU or its queue 0 is missing or shorter than [NUM]; otherwise the device has
    been told every status, has the features it offers less the seven the driver
    declines, and has queue 0 of [NUM] descriptors in the driver's page, with no
    other queue touched. *)
Theorem virtio_init_correct pages d :
  0 ≤ pages < 2 ^ 44 →
  (is_disk d = false → virtio_mmio_init pages d = Panic "could not find virtio disk") ∧
  (is_disk d = true → queue_max d 0 = 0 → virtio_mmio_init pages d = Panic "virtio disk has no queue 0") ∧
  (is_disk d = true → queue_max d 0 ≠ 0 → queue_max d 0 < NUM → virtio_mmio_init pages d = Panic "virtio disk max queue too short") ∧
  (is_disk d = true → NUM ≤ queue_max d 0 →
    ∃ d', virtio_mmio_init pages d = Ok tt d' ∧ status d' = 15 ∧ page_size d' = PGSIZE ∧
      (∀ k, 0 ≤ k < 32 → Z.testbit (driver_features d') k = Z.testbit (device_features d) k && bool_decide (k ∉ declined)) ∧
      (∀ q, queue_num d' q = if q =? 0 then NUM else queue_num d q) ∧
      (∀ q, queue_pfn d' q = if q =? 0 then pages / PGSIZE else queue_pfn d q)).
Proof.
  intros Hp. destruct d as [mg vs di vi df qm drf ps qs qn qp st wr]. unfold virtio_mmio_init, mbindM, gets.
  destruct (is_disk _) eqn:Ed; [|split_and!; intros; done]. cbn [negb]. cbn -[NUM negotiate u32 Z.shiftr].
  split_and!; try done.
  - intros _ ->. done.
  - intros _ H0 Hl. rewrite (proj2 (Z.eqb_neq _ 0)), (proj2 (Z.ltb_lt _ NUM)) by done. done.
  - intros _ Hl. rewrite (proj2 (Z.eqb_neq _ 0)), (proj2 (Z.ltb_ge _ NUM)) by (unfold NUM in *; lia). eexists. split; [reflexivity|]. cbn -[NUM negotiate u32 Z.shiftr PGSIZE].
    split_and!; try done.
    + intros k Hk. unfold u32. rewrite Z.mod_pow2_bits_low by lia. apply negotiate_testbit. lia.
    + intros q. unfold upd. destruct (q =? 0); [|done]. rewrite Z.shiftr_div_pow2 by (unfold PGSHIFT; lia). change (2 ^ PGSHIFT) with PGSIZE.
      apply u32_small. unfold PGSIZE. pose proof (Z.div_pos pages 4096). pose proof (Z.div_lt_upper_bound pages 4096 (2 ^ 32)). lia.
Qed.
Definition qemu_disk : mmio :=
  Mmio 1953655158 1 2 1431127377 (2 ^ 30 - 1) (λ _, 1024) 0 0 0 (λ _, 0) (λ _, 0) 0 [].
Lemma virtio_init_correct_witness :
  ∃ d', virtio_mmio_init 2149600000 qemu_disk = Ok tt d' ∧ status d' = 15 ∧ Z.testbit (driver_features d') 5 = false ∧ Z.testbit (driver_features d') 9 = true.
Proof.
  destruct (virtio_init_correct 2149600000 qemu_disk) as (_ & _ & _ & H); [lia|].
  destruct H as (d' & E & S & _ & F & _); [reflexivity|vm_compute; congruence|]. exists d'. split; [exact E|]. split; [exact S|].
  split; rewrite F by lia; vm_compute; reflexivity.
Defined.
(** The device is told the driver is ready before it has a queue. *)
Example ready_before_queue d' :
  virtio_mmio_init 2149600000 qemu_disk = Ok tt d' →
  map fst (writes d') = [VIRTIO_MMIO_STATUS; VIRTIO_MMIO_STATUS; VIRTIO_MMIO_DRIVER_FEATURES; VIRTIO_MMIO_STATUS; VIRTIO_MMIO_STATUS;
    VIRTIO_MMIO_GUEST_PAGE_SIZE; VIRTIO_MMIO_QUEUE_SEL; VIRTIO_MMIO_QUEUE_NUM; VIRTIO_MMIO_QUEUE_PFN].
Proof. intros [= <-]. reflexivity. Qed.
