(* ===== verification/Regs.v ===== *)
(** * Bit fields of device registers

    A C bit field of [n] bits at bit [lo] of a register: what reading and assigning
    it does to the word. *)
From stdpp Require Import prelude list strings.
From Stdlib Require Import ZArith Lia.
From S2P Require Import Prelude.
Open Scope Z_scope.

Definition get_field (w lo n : Z) : Z := Z.shiftr w lo mod 2 ^ n.
Definition set_field (w lo n v : Z) : Z := Z.lor (Z.ldiff w (Z.shiftl (Z.ones n) lo)) (Z.shiftl (v mod 2 ^ n) lo).

Lemma set_field_testbit w lo n v k :
  0 ≤ lo → 0 ≤ n → 0 ≤ k →
  Z.testbit (set_field w lo n v) k = if (lo <=? k) && (k <? lo + n) then Z.testbit v (k - lo) else Z.testbit w k.
Proof.
  intros Hlo Hn Hk. unfold set_field. rewrite Z.lor_spec, Z.ldiff_spec, !Z.shiftl_spec by lia.
  destruct (Z.leb_spec lo k), (Z.ltb_spec k (lo + n)); simpl.
  - rewrite Z.ones_spec_low, Z.mod_pow2_bits_low by lia. by rewrite andb_false_r.
  - rewrite Z.ones_spec_high, Z.mod_pow2_bits_high by lia. by rewrite andb_true_r, orb_false_r.
  - rewrite !(Z.testbit_neg_r _ (k - lo)) by lia. by rewrite andb_true_r, orb_false_r.
  - rewrite !(Z.testbit_neg_r _ (k - lo)) by lia. by rewrite andb_true_r, orb_false_r.
Qed.
Lemma get_field_testbit w lo n k :
  0 ≤ lo → 0 ≤ n → 0 ≤ k → Z.testbit (get_field w lo n) k = (k <? n) && Z.testbit w (lo + k).
Proof.
  intros Hlo Hn Hk. unfold get_field. destruct (Z.ltb_spec k n); simpl.
  - rewrite Z.mod_pow2_bits_low, Z.shiftr_spec by lia. f_equal. lia.
  - by rewrite Z.mod_pow2_bits_high by lia.
Qed.
Lemma get_set_field w lo n v : 0 ≤ lo → 0 ≤ n → get_field (set_field w lo n v) lo n = v mod 2 ^ n.
Proof.
  intros Hlo Hn. apply Z.bits_inj'. intros k Hk. rewrite get_field_testbit, set_field_testbit by lia.
  replace (lo + k - lo) with k by lia. destruct (Z.ltb_spec k n); simpl.
  - rewrite (proj2 (Z.leb_le lo (lo + k))), (proj2 (Z.ltb_lt (lo + k) (lo + n))) by lia. simpl. by rewrite Z.mod_pow2_bits_low by lia.
  - by rewrite Z.mod_pow2_bits_high by lia.
Qed.
Lemma get_set_other w lo n v lo' n' :
  0 ≤ lo → 0 ≤ n → 0 ≤ lo' → 0 ≤ n' → lo + n ≤ lo' ∨ lo' + n' ≤ lo →
  get_field (set_field w lo n v) lo' n' = get_field w lo' n'.
Proof.
  intros Hlo Hn Hlo' Hn' Hd. apply Z.bits_inj'. intros k Hk. rewrite !get_field_testbit, set_field_testbit by lia.
  destruct (Z.ltb_spec k n'); simpl; [|done].
  destruct (Z.leb_spec lo (lo' + k)), (Z.ltb_spec (lo' + k) (lo + n)); try done; lia.
Qed.

(** Reading a register after a chain of field assignments. *)
Ltac field_solve := repeat first [rewrite get_set_field by lia | rewrite get_set_other by lia].
