(* ===== verification/Sysctl.v ===== *)
(** * The system controller (kernel/sysctl.c, kernel/include/sysctl.h)

    Clock gates and the DMA request lines of the K210.  A register keeps what is
    written to it. *)
From stdpp Require Import prelude list strings.
From Stdlib Require Import ZArith Lia.
From S2P Require Import Prelude Regs.
Open Scope Z_scope.

Inductive sysctl_clock : Type :=
  | SYSCTL_CLOCK_PLL0 | SYSCTL_CLOCK_PLL1 | SYSCTL_CLOCK_PLL2 | SYSCTL_CLOCK_CPU | SYSCTL_CLOCK_SRAM0
   | SYSCTL_CLOCK_SRAM1 | SYSCTL_CLOCK_APB0 | SYSCTL_CLOCK_APB1 | SYSCTL_CLOCK_APB2 | SYSCTL_CLOCK_ROM
   | SYSCTL_CLOCK_DMA | SYSCTL_CLOCK_AI | SYSCTL_CLOCK_DVP | SYSCTL_CLOCK_FFT | SYSCTL_CLOCK_GPIO
   | SYSCTL_CLOCK_SPI0 | SYSCTL_CLOCK_SPI1 | SYSCTL_CLOCK_SPI2 | SYSCTL_CLOCK_SPI3 | SYSCTL_CLOCK_I2S0
   | SYSCTL_CLOCK_I2S1 | SYSCTL_CLOCK_I2S2 | SYSCTL_CLOCK_I2C0 | SYSCTL_CLOCK_I2C1 | SYSCTL_CLOCK_I2C2
   | SYSCTL_CLOCK_UART1 | SYSCTL_CLOCK_UART2 | SYSCTL_CLOCK_UART3 | SYSCTL_CLOCK_AES
   | SYSCTL_CLOCK_FPIOA | SYSCTL_CLOCK_TIMER0 | SYSCTL_CLOCK_TIMER1 | SYSCTL_CLOCK_TIMER2
   | SYSCTL_CLOCK_WDT0 | SYSCTL_CLOCK_WDT1 | SYSCTL_CLOCK_SHA | SYSCTL_CLOCK_OTP | SYSCTL_CLOCK_RTC
   | SYSCTL_CLOCK_ACLK | SYSCTL_CLOCK_HCLK | SYSCTL_CLOCK_IN0
  | SYSCTL_CLOCK_MAX.
(** Their numbers; 38 and 39 are not used. *)
Definition clock_num (c : sysctl_clock) : Z :=
  match c with
   | SYSCTL_CLOCK_PLL0 => 0 | SYSCTL_CLOCK_PLL1 => 1 | SYSCTL_CLOCK_PLL2 => 2 | SYSCTL_CLOCK_CPU => 3
   | SYSCTL_CLOCK_SRAM0 => 4 | SYSCTL_CLOCK_SRAM1 => 5 | SYSCTL_CLOCK_APB0 => 6 | SYSCTL_CLOCK_APB1 => 7
   | SYSCTL_CLOCK_APB2 => 8 | SYSCTL_CLOCK_ROM => 9 | SYSCTL_CLOCK_DMA => 10 | SYSCTL_CLOCK_AI => 11
   | SYSCTL_CLOCK_DVP => 12 | SYSCTL_CLOCK_FFT => 13 | SYSCTL_CLOCK_GPIO => 14 | SYSCTL_CLOCK_SPI0 => 15
   | SYSCTL_CLOCK_SPI1 => 16 | SYSCTL_CLOCK_SPI2 => 17 | SYSCTL_CLOCK_SPI3 => 18
   | SYSCTL_CLOCK_I2S0 => 19 | SYSCTL_CLOCK_I2S1 => 20 | SYSCTL_CLOCK_I2S2 => 21
   | SYSCTL_CLOCK_I2C0 => 22 | SYSCTL_CLOCK_I2C1 => 23 | SYSCTL_CLOCK_I2C2 => 24
   | SYSCTL_CLOCK_UART1 => 25 | SYSCTL_CLOCK_UART2 => 26 | SYSCTL_CLOCK_UART3 => 27
   | SYSCTL_CLOCK_AES => 28 | SYSCTL_CLOCK_FPIOA => 29 | SYSCTL_CLOCK_TIMER0 => 30
   | SYSCTL_CLOCK_TIMER1 => 31 | SYSCTL_CLOCK_TIMER2 => 32 | SYSCTL_CLOCK_WDT0 => 33
   | SYSCTL_CLOCK_WDT1 => 34 | SYSCTL_CLOCK_SHA => 35 | SYSCTL_CLOCK_OTP => 36 | SYSCTL_CLOCK_RTC => 37
   | SYSCTL_CLOCK_ACLK => 40 | SYSCTL_CLOCK_HCLK => 41 | SYSCTL_CLOCK_IN0 => 42 | SYSCTL_CLOCK_MAX => 43
  end.

(** The registers this code uses. *)
Record sysctl := Sysctl {
  pll0 : Z; pll1 : Z; pll2 : Z; clk_en_cent : Z; clk_en_peri : Z; dma_sel0 : Z; dma_sel1 : Z;
  git_id : Z; clk_freq : Z }.
Definition set_pll0 (v : Z) (s : sysctl) : sysctl :=
  Sysctl v (pll1 s) (pll2 s) (clk_en_cent s) (clk_en_peri s) (dma_sel0 s) (dma_sel1 s) (git_id s) (clk_freq s).
Definition set_pll1 (v : Z) (s : sysctl) : sysctl :=
  Sysctl (pll0 s) v (pll2 s) (clk_en_cent s) (clk_en_peri s) (dma_sel0 s) (dma_sel1 s) (git_id s) (clk_freq s).
Definition set_pll2 (v : Z) (s : sysctl) : sysctl :=
  Sysctl (pll0 s) (pll1 s) v (clk_en_cent s) (clk_en_peri s) (dma_sel0 s) (dma_sel1 s) (git_id s) (clk_freq s).
Definition set_cent (v : Z) (s : sysctl) : sysctl :=
  Sysctl (pll0 s) (pll1 s) (pll2 s) v (clk_en_peri s) (dma_sel0 s) (dma_sel1 s) (git_id s) (clk_freq s).
Definition set_peri (v : Z) (s : sysctl) : sysctl :=
  Sysctl (pll0 s) (pll1 s) (pll2 s) (clk_en_cent s) v (dma_sel0 s) (dma_sel1 s) (git_id s) (clk_freq s).
Definition set_dma_sel (v w : Z) (s : sysctl) : sysctl :=
  Sysctl (pll0 s) (pll1 s) (pll2 s) (clk_en_cent s) (clk_en_peri s) v w (git_id s) (clk_freq s).

Definition sysctl_get_git_id : M sysctl Z := gets git_id.
Definition sysctl_get_freq : M sysctl Z := gets clk_freq.

(** One bit of a clock register. *)
Definition cent_bit (bit en : Z) : M sysctl unit := modify (λ s, set_cent (set_field (clk_en_cent s) bit 1 en) s).
Definition peri_bit (bit en : Z) : M sysctl unit := modify (λ s, set_peri (set_field (clk_en_peri s) bit 1 en) s).

Definition sysctl_clock_bus_en (clock : sysctl_clock) (en : Z) : M sysctl Z :=
  whenM (negb (en =? 0))
    (match clock with
    | SYSCTL_CLOCK_GPIO | SYSCTL_CLOCK_SPI2 | SYSCTL_CLOCK_I2S0 | SYSCTL_CLOCK_I2S1
    | SYSCTL_CLOCK_I2S2 | SYSCTL_CLOCK_I2C0 | SYSCTL_CLOCK_I2C1 | SYSCTL_CLOCK_I2C2
    | SYSCTL_CLOCK_UART1 | SYSCTL_CLOCK_UART2 | SYSCTL_CLOCK_UART3 | SYSCTL_CLOCK_FPIOA
    | SYSCTL_CLOCK_TIMER0 | SYSCTL_CLOCK_TIMER1 | SYSCTL_CLOCK_TIMER2 | SYSCTL_CLOCK_SHA => cent_bit 3 en
    | SYSCTL_CLOCK_AES | SYSCTL_CLOCK_WDT0 | SYSCTL_CLOCK_WDT1 | SYSCTL_CLOCK_OTP
    | SYSCTL_CLOCK_RTC => cent_bit 4 en
    | SYSCTL_CLOCK_SPI0 | SYSCTL_CLOCK_SPI1 => cent_bit 5 en
    | _ => mretM tt
    end);;;
  mretM 0.

Definition sysctl_clock_device_en (clock : sysctl_clock) (en : Z) : M sysctl Z :=
  (match clock with
  | SYSCTL_CLOCK_PLL0 => modify (λ s, set_pll0 (set_field (pll0 s) 25 1 en) s)
  | SYSCTL_CLOCK_PLL1 => modify (λ s, set_pll1 (set_field (pll1 s) 25 1 en) s)
  | SYSCTL_CLOCK_PLL2 => modify (λ s, set_pll2 (set_field (pll2 s) 25 1 en) s)
  | SYSCTL_CLOCK_CPU => cent_bit 0 en
  | SYSCTL_CLOCK_SRAM0 => cent_bit 1 en
  | SYSCTL_CLOCK_SRAM1 => cent_bit 2 en
  | SYSCTL_CLOCK_APB0 => cent_bit 3 en
  | SYSCTL_CLOCK_APB1 => cent_bit 4 en
  | SYSCTL_CLOCK_APB2 => cent_bit 5 en
  | SYSCTL_CLOCK_ROM => peri_bit 0 en
  | SYSCTL_CLOCK_DMA => peri_bit 1 en
  | SYSCTL_CLOCK_AI => peri_bit 2 en
  | SYSCTL_CLOCK_DVP => peri_bit 3 en
  | SYSCTL_CLOCK_FFT => peri_bit 4 en
  | SYSCTL_CLOCK_SPI3 => peri_bit 9 en
  | SYSCTL_CLOCK_GPIO => peri_bit 5 en
  | SYSCTL_CLOCK_SPI2 => peri_bit 8 en
  | SYSCTL_CLOCK_I2S0 => peri_bit 10 en
  | SYSCTL_CLOCK_I2S1 => peri_bit 11 en
  | SYSCTL_CLOCK_I2S2 => peri_bit 12 en
  | SYSCTL_CLOCK_I2C0 => peri_bit 13 en
  | SYSCTL_CLOCK_I2C1 => peri_bit 14 en
  | SYSCTL_CLOCK_I2C2 => peri_bit 15 en
  | SYSCTL_CLOCK_UART1 => peri_bit 16 en
  | SYSCTL_CLOCK_UART2 => peri_bit 17 en
  | SYSCTL_CLOCK_UART3 => peri_bit 18 en
  | SYSCTL_CLOCK_FPIOA => peri_bit 20 en
  | SYSCTL_CLOCK_TIMER0 => peri_bit 21 en
  | SYSCTL_CLOCK_TIMER1 => peri_bit 22 en
  | SYSCTL_CLOCK_TIMER2 => peri_bit 23 en
  | SYSCTL_CLOCK_SHA => peri_bit 26 en
  | SYSCTL_CLOCK_AES => peri_bit 19 en
  | SYSCTL_CLOCK_WDT0 => peri_bit 24 en
  | SYSCTL_CLOCK_WDT1 => peri_bit 25 en
  | SYSCTL_CLOCK_OTP => peri_bit 27 en
  | SYSCTL_CLOCK_RTC => peri_bit 29 en
  | SYSCTL_CLOCK_SPI0 => peri_bit 6 en
  | SYSCTL_CLOCK_SPI1 => peri_bit 7 en
  | _ => mretM tt
  end);;;
  mretM 0.

Definition sysctl_clock_enable (clock : sysctl_clock) : M sysctl Z :=
  if clock_num clock >=? clock_num SYSCTL_CLOCK_MAX then mretM (-1) else
  sysctl_clock_bus_en clock 1;;;
  sysctl_clock_device_en clock 1;;;
  mretM 0.

Definition sysctl_dma_select (channel select : Z) : M sysctl Z :=
  d0 <-- gets dma_sel0;;
  d1 <-- gets dma_sel1;;
  let write (v w : Z) : M sysctl Z := modify (set_dma_sel v w);;; mretM 0 in
  if channel =? 0 then write (set_field d0 0 6 select) d1
  else if channel =? 1 then write (set_field d0 6 6 select) d1
  else if channel =? 2 then write (set_field d0 12 6 select) d1
  else if channel =? 3 then write (set_field d0 18 6 select) d1
  else if channel =? 4 then write (set_field d0 24 6 select) d1
  else if channel =? 5 then write d0 (set_field d1 0 6 select)
  else mretM (-1).

(** ** Which clocks run

    The gate of a clock as the documentation of the registers has it: the register
    and the bit.  Three clocks have no gate. *)
Inductive gate := Pll (n : Z) | Cent (bit : Z) | Peri (bit : Z).
Definition gate_of (c : sysctl_clock) : option gate :=
  match c with
  | SYSCTL_CLOCK_PLL0 => Some (Pll 0)
  | SYSCTL_CLOCK_PLL1 => Some (Pll 1)
  | SYSCTL_CLOCK_PLL2 => Some (Pll 2)
  | SYSCTL_CLOCK_CPU => Some (Cent 0)
  | SYSCTL_CLOCK_SRAM0 => Some (Cent 1)
  | SYSCTL_CLOCK_SRAM1 => Some (Cent 2)
  | SYSCTL_CLOCK_APB0 => Some (Cent 3)
  | SYSCTL_CLOCK_APB1 => Some (Cent 4)
  | SYSCTL_CLOCK_APB2 => Some (Cent 5)
  | SYSCTL_CLOCK_ROM => Some (Peri 0)
  | SYSCTL_CLOCK_DMA => Some (Peri 1)
  | SYSCTL_CLOCK_AI => Some (Peri 2)
  | SYSCTL_CLOCK_DVP => Some (Peri 3)
  | SYSCTL_CLOCK_FFT => Some (Peri 4)
  | SYSCTL_CLOCK_SPI3 => Some (Peri 9)
  | SYSCTL_CLOCK_GPIO => Some (Peri 5)
  | SYSCTL_CLOCK_SPI2 => Some (Peri 8)
  | SYSCTL_CLOCK_I2S0 => Some (Peri 10)
  | SYSCTL_CLOCK_I2S1 => Some (Peri 11)
  | SYSCTL_CLOCK_I2S2 => Some (Peri 12)
  | SYSCTL_CLOCK_I2C0 => Some (Peri 13)
  | SYSCTL_CLOCK_I2C1 => Some (Peri 14)
  | SYSCTL_CLOCK_I2C2 => Some (Peri 15)
  | SYSCTL_CLOCK_UART1 => Some (Peri 16)
  | SYSCTL_CLOCK_UART2 => Some (Peri 17)
  | SYSCTL_CLOCK_UART3 => Some (Peri 18)
  | SYSCTL_CLOCK_FPIOA => Some (Peri 20)
  | SYSCTL_CLOCK_TIMER0 => Some (Peri 21)
  | SYSCTL_CLOCK_TIMER1 => Some (Peri 22)
  | SYSCTL_CLOCK_TIMER2 => Some (Peri 23)
  | SYSCTL_CLOCK_SHA => Some (Peri 26)
  | SYSCTL_CLOCK_AES => Some (Peri 19)
  | SYSCTL_CLOCK_WDT0 => Some (Peri 24)
  | SYSCTL_CLOCK_WDT1 => Some (Peri 25)
  | SYSCTL_CLOCK_OTP => Some (Peri 27)
  | SYSCTL_CLOCK_RTC => Some (Peri 29)
  | SYSCTL_CLOCK_SPI0 => Some (Peri 6)
  | SYSCTL_CLOCK_SPI1 => Some (Peri 7)
  | _ => None
  end.
Definition gate_open (g : gate) (s : sysctl) : bool :=
  match g with
  | Pll 0 => Z.testbit (pll0 s) 25
  | Pll 1 => Z.testbit (pll1 s) 25
  | Pll _ => Z.testbit (pll2 s) 25
  | Cent bit => Z.testbit (clk_en_cent s) bit
  | Peri bit => Z.testbit (clk_en_peri s) bit
  end.

Definition running (c : sysctl_clock) (s : sysctl) : bool :=
  match gate_of c with Some g => gate_open g s | None => false end.
(** The bus a device hangs on. *)
Definition bus_of (c : sysctl_clock) : option sysctl_clock :=
  match c with
  | SYSCTL_CLOCK_GPIO | SYSCTL_CLOCK_SPI2 | SYSCTL_CLOCK_I2S0 | SYSCTL_CLOCK_I2S1 | SYSCTL_CLOCK_I2S2
  | SYSCTL_CLOCK_I2C0 | SYSCTL_CLOCK_I2C1 | SYSCTL_CLOCK_I2C2 | SYSCTL_CLOCK_UART1 | SYSCTL_CLOCK_UART2
  | SYSCTL_CLOCK_UART3 | SYSCTL_CLOCK_FPIOA | SYSCTL_CLOCK_TIMER0 | SYSCTL_CLOCK_TIMER1
  | SYSCTL_CLOCK_TIMER2 | SYSCTL_CLOCK_SHA => Some SYSCTL_CLOCK_APB0
  | SYSCTL_CLOCK_AES | SYSCTL_CLOCK_WDT0 | SYSCTL_CLOCK_WDT1 | SYSCTL_CLOCK_OTP | SYSCTL_CLOCK_RTC => Some SYSCTL_CLOCK_APB1
  | SYSCTL_CLOCK_SPI0 | SYSCTL_CLOCK_SPI1 => Some SYSCTL_CLOCK_APB2
  | _ => None
  end.
#[export] Instance sysctl_clock_eq_dec : EqDecision sysctl_clock.
Proof. solve_decision. Defined.
#[export] Instance gate_eq_dec : EqDecision gate.
Proof. solve_decision. Defined.

(** No two clocks share a gate. *)
Lemma gate_of_inj c c' g : gate_of c = Some g → gate_of c' = Some g → c = c'.
Proof. destruct c; intros [= <-]; destruct c'; intros [=]; done. Qed.

#[local] Arguments Z.testbit : simpl never.

(** Opening one gate. *)
Definition open (g : gate) (s : sysctl) : sysctl :=
  match g with
  | Pll 0 => set_pll0 (set_field (pll0 s) 25 1 1) s
  | Pll 1 => set_pll1 (set_field (pll1 s) 25 1 1) s
  | Pll _ => set_pll2 (set_field (pll2 s) 25 1 1) s
  | Cent bit => set_cent (set_field (clk_en_cent s) bit 1 1) s
  | Peri bit => set_peri (set_field (clk_en_peri s) bit 1 1) s
  end.
Lemma set_one_testbit w b k : 0 ≤ b → 0 ≤ k → Z.testbit (set_field w b 1 1) k = bool_decide (k = b) || Z.testbit w k.
Proof.
  intros Hb Hk. rewrite set_field_testbit by lia. destruct (Z.leb_spec b k), (Z.ltb_spec k (b + 1)); simpl;
    try (rewrite bool_decide_false by lia; done).
  rewrite bool_decide_true by lia. replace (k - b) with 0 by lia. done.
Qed.
Definition valid_gate (g : gate) : Prop :=
  match g with Pll n => 0 ≤ n ≤ 2 | Cent b | Peri b => 0 ≤ b end.
Lemma gate_of_valid c g : gate_of c = Some g → valid_gate g.
Proof. destruct c; intros [= <-]; simpl; lia. Qed.
Lemma gate_open_open g g' s :
  valid_gate g → valid_gate g' → gate_open g' (open g s) = bool_decide (g' = g) || gate_open g' s.
Proof.
  assert (∀ n, 0 ≤ n ≤ 2 → n = 0 ∨ n = 1 ∨ n = 2) as H3 by lia.
  destruct g as [n|b|b], g' as [n'|b'|b']; simpl; intros H H';
    rewrite ?(bool_decide_false (_ = _)) by congruence; simpl;
    repeat match goal with H : 0 ≤ ?n ≤ 2 |- _ => destruct (H3 n H) as [-> |[-> | ->]]; clear H end; simpl;
    rewrite ?set_one_testbit by lia; try done;
    first [rewrite (bool_decide_false (Pll _ = Pll _)) by congruence; done
          |f_equal; apply bool_decide_ext; split; congruence].
Qed.

Definition open_gate (o : option gate) (s : sysctl) : sysctl := match o with Some g => open g s | None => s end.
Lemma running_opened c d s :
  running c (open_gate (gate_of d) s) = (bool_decide (c = d) && bool_decide (is_Some (gate_of c))) || running c s.
Proof.
  unfold running, open_gate. destruct (gate_of d) as [g|] eqn:Ed, (gate_of c) as [g'|] eqn:Ec.
  - rewrite gate_open_open by eauto using gate_of_valid. f_equal. rewrite (bool_decide_true (is_Some _)) by eauto. rewrite andb_true_r.
    apply bool_decide_ext. split; [|intros ->; congruence]. intros ->. by eapply gate_of_inj.
  - by rewrite (bool_decide_false (is_Some _)), andb_false_r by (intros [? [=]]).
  - rewrite (bool_decide_false (c = d)) by congruence. done.
  - by rewrite (bool_decide_false (is_Some _)), andb_false_r by (intros [? [=]]).
Qed.
(** The two functions open the gates of the clock and of its bus. *)
Lemma clock_enable_run c s :
  c ≠ SYSCTL_CLOCK_MAX →
  sysctl_clock_enable c s = Ok 0 (open_gate (gate_of c) (open_gate (bus_of c ≫= gate_of) s)).
Proof. by destruct c. Qed.

(** Enabling a clock makes that clock and the bus of its device run, and no
    other clock starts or stops; the DMA request lines keep their settings. *)
Theorem sysctl_clock_enable_correct c s :
  c ≠ SYSCTL_CLOCK_MAX →
  ∃ s', sysctl_clock_enable c s = Ok 0 s' ∧ dma_sel0 s' = dma_sel0 s ∧ dma_sel1 s' = dma_sel1 s ∧
    ∀ d, running d s' = (bool_decide ((d = c ∨ bus_of c = Some d) ∧ is_Some (gate_of d))) || running d s.
Proof.
  intros Hc. rewrite clock_enable_run by done. eexists. split; [reflexivity|].
  assert (∀ o s, dma_sel0 (open_gate o s) = dma_sel0 s ∧ dma_sel1 (open_gate o s) = dma_sel1 s) as Hk.
  { intros [[[|[]|]| |]|] s'; done. }
  split; [by rewrite !(proj1 (Hk _ _))|]. split; [by rewrite !(proj2 (Hk _ _))|].
  intros d. rewrite running_opened. destruct (bus_of c) as [b|]; simpl; [rewrite running_opened|];
    destruct (running d s); rewrite ?orb_true_r, ?orb_false_r; try done; apply eq_bool_prop_intro;
    rewrite ?orb_True, ?andb_True, !bool_decide_spec; naive_solver.
Qed.
Lemma sysctl_clock_enable_correct_witness (s := Sysctl 0 0 0 0 0 0 0 0 0) :
  ∃ s', sysctl_clock_enable SYSCTL_CLOCK_SPI0 s = Ok 0 s' ∧ running SYSCTL_CLOCK_SPI0 s' = true ∧
    running SYSCTL_CLOCK_APB2 s' = true ∧ running SYSCTL_CLOCK_DMA s' = false.
Proof.
  destruct (sysctl_clock_enable_correct SYSCTL_CLOCK_SPI0 s) as (s' & E & _ & _ & H); [done|].
  exists s'. split; [exact E|]. split_and!; rewrite H; vm_compute; reflexivity.
Defined.

#[local] Arguments set_field : simpl never.
#[local] Arguments get_field : simpl never.

(** The request line of a channel. *)
Definition dma_line (channel : Z) (s : sysctl) : Z :=
  if channel =? 5 then get_field (dma_sel1 s) 0 6 else get_field (dma_sel0 s) (6 * channel) 6.
Theorem sysctl_dma_select_correct channel select s :
  0 ≤ channel < 6 →
  ∃ s', sysctl_dma_select channel select s = Ok 0 s' ∧ dma_line channel s' = select mod 2 ^ 6 ∧
    (∀ d, 0 ≤ d < 6 → d ≠ channel → dma_line d s' = dma_line d s) ∧ (∀ c, running c s' = running c s).
Proof.
  intros Hc. assert (channel = 0 ∨ channel = 1 ∨ channel = 2 ∨ channel = 3 ∨ channel = 4 ∨ channel = 5) as H by lia.
  repeat (destruct H as [-> |H]); try subst channel;
    unfold sysctl_dma_select, dma_line, mbindM, gets, modify, mretM; simpl; (eexists; split; [reflexivity|]); simpl;
    (split; [by rewrite get_set_field by lia|]); (split; [|by intros []]);
    intros d Hd Hne; destruct (Z.eqb_spec d 5); rewrite ?get_set_other by lia; done.
Qed.
