(* ===== verification/Dmac.v ===== *)
(** * The DMA controller (kernel/dmac.c, kernel/include/dmac.h)

    The controller's registers behave as its manual says: an enable bit of [chen]
    changes when it is written together with its write-enable bit, which reads as
    zero; an interrupt status bit is cleared by writing it to the clear register; the
    reset bit reads as one for some time ([delay] reads) after it is set.  The other
    registers keep what is written.  A channel stops by itself at the end of its
    transfer.

    [dmac_wait_idle] sleeps until an interrupt; what the controller does meanwhile is
    a parameter of the sequential definitions, and the last section interleaves the
    waiting process with the controller and its interrupt. *)
From stdpp Require Import prelude list strings.
From Stdlib Require Import ZArith Lia.
From S2P Require Import Prelude Regs Sysctl.
Open Scope Z_scope.
#[local] Arguments Z.testbit : simpl never.
#[local] Arguments set_field : simpl never.
#[local] Arguments get_field : simpl never.

(** ** Registers *)
Record channel := Channel {
  sar : Z; dar : Z; block_ts : Z; ctl : Z; ch_cfg : Z; axi_id : Z; intstatus_en : Z; intstatus : Z }.
Record dmac := Dmac {
  cfg : Z; chen : Z; com_intstatus : Z; com_intstatus_en : Z; com_intsignal_en : Z;
  rst_reads : nat; chan : Z → channel; dmac_id : Z; compver : Z; clocks : sysctl }.

Definition set_cfg (v : Z) (d : dmac) : dmac :=
  Dmac v (chen d) (com_intstatus d) (com_intstatus_en d) (com_intsignal_en d) (rst_reads d) (chan d) (dmac_id d) (compver d) (clocks d).
Definition set_chen (v : Z) (d : dmac) : dmac :=
  Dmac (cfg d) v (com_intstatus d) (com_intstatus_en d) (com_intsignal_en d) (rst_reads d) (chan d) (dmac_id d) (compver d) (clocks d).
Definition set_com (v e g : Z) (d : dmac) : dmac :=
  Dmac (cfg d) (chen d) v e g (rst_reads d) (chan d) (dmac_id d) (compver d) (clocks d).
Definition set_rst (n : nat) (d : dmac) : dmac :=
  Dmac (cfg d) (chen d) (com_intstatus d) (com_intstatus_en d) (com_intsignal_en d) n (chan d) (dmac_id d) (compver d) (clocks d).
Definition set_chan (n : Z) (c : channel) (d : dmac) : dmac :=
  Dmac (cfg d) (chen d) (com_intstatus d) (com_intstatus_en d) (com_intsignal_en d) (rst_reads d) (upd (chan d) n c) (dmac_id d) (compver d) (clocks d).
Definition set_clocks (k : sysctl) (d : dmac) : dmac :=
  Dmac (cfg d) (chen d) (com_intstatus d) (com_intstatus_en d) (com_intsignal_en d) (rst_reads d) (chan d) (dmac_id d) (compver d) k.

(** Writes with an effect of their own. *)
Definition chen_bit (v c k : Z) : Z := if Z.testbit v (8 + k) then set_field c k 1 (Z.b2z (Z.testbit v k)) else c.
Definition write_chen (v : Z) : M dmac unit :=
  modify (λ d, set_chen (chen_bit v (chen_bit v (chen_bit v (chen_bit v (chen_bit v (chen_bit v (chen d) 0) 1) 2) 3) 4) 5) d).
Definition write_intclear (n v : Z) : M dmac unit :=
  modify (λ d, let c := chan d n in
    set_chan n (Channel (sar c) (dar c) (block_ts c) (ctl c) (ch_cfg c) (axi_id c) (intstatus_en c) (Z.ldiff (intstatus c) v)) d).
Definition write_intstatus_en (n v : Z) : M dmac unit :=
  modify (λ d, let c := chan d n in
    set_chan n (Channel (sar c) (dar c) (block_ts c) (ctl c) (ch_cfg c) (axi_id c) v (intstatus c)) d).
Definition write_com_intclear (v : Z) : M dmac unit :=
  modify (λ d, set_com (Z.ldiff (com_intstatus d) v) (com_intstatus_en d) (com_intsignal_en d) d).

(** ** dmac.c *)
Definition is_memory (address : Z) : bool :=
  ((address >=? 2147483648) && (address <? 2147483648 + 6 * 1024 * 1024)) ||
  ((address >=? 1073741824) && (address <? 1073741824 + 8 * 1024 * 1024)) || (address =? 1346699328).

Definition dmac_read_id : M dmac Z := gets dmac_id.
Definition dmac_read_version : M dmac Z := gets compver.
Definition dmac_read_channel_id (n : Z) : M dmac Z := gets (λ d, axi_id (chan d n)).

Definition dmac_enable : M dmac unit :=
  data <-- gets cfg;; modify (set_cfg (set_field (set_field data 0 1 1) 1 1 1)).
Definition dmac_disable : M dmac unit :=
  data <-- gets cfg;; modify (set_cfg (set_field (set_field data 0 1 0) 1 1 0)).

Definition dmac_channel_enable (n : Z) : M dmac unit :=
  data <-- gets chen;;
  write_chen
    (if n =? 0 then set_field (set_field data 0 1 1) 8 1 1
     else if n =? 1 then set_field (set_field data 1 1 1) 9 1 1
     else if n =? 2 then set_field (set_field data 2 1 1) 10 1 1
     else if n =? 3 then set_field (set_field data 3 1 1) 11 1 1
     else if n =? 4 then set_field (set_field data 4 1 1) 12 1 1
     else if n =? 5 then set_field (set_field data 5 1 1) 13 1 1
     else data).
Definition dmac_channel_disable (n : Z) : M dmac unit :=
  data <-- gets chen;;
  write_chen
    (if n =? 0 then set_field (set_field data 0 1 0) 8 1 1
     else if n =? 1 then set_field (set_field data 1 1 0) 9 1 1
     else if n =? 2 then set_field (set_field data 2 1 0) 10 1 1
     else if n =? 3 then set_field (set_field data 3 1 0) 11 1 1
     else if n =? 4 then set_field (set_field data 4 1 0) 12 1 1
     else if n =? 5 then set_field (set_field data 5 1 0) 13 1 1
     else data).

(** The five error bits of the common registers. *)
Definition common_bits (w : Z) : Z :=
  set_field (set_field (set_field (set_field (set_field w 0 1 1) 1 1 1) 2 1 1) 3 1 1) 8 1 1.
Definition dmac_enable_common_interrupt_status : M dmac unit :=
  modify (λ d, set_com (com_intstatus d) (common_bits (com_intstatus_en d)) (com_intsignal_en d) d).
Definition dmac_enable_common_interrupt_signal : M dmac unit :=
  modify (λ d, set_com (com_intstatus d) (com_intstatus_en d) (common_bits (com_intsignal_en d)) d).
Definition dmac_enable_channel_interrupt (n : Z) : M dmac unit := write_intclear n 4294967295;;; write_intstatus_en n 2.
Definition dmac_disable_channel_interrupt (n : Z) : M dmac unit := write_intstatus_en n 0.
Definition dmac_chanel_interrupt_clear (n : Z) : M dmac unit := write_intclear n 4294967295.

Definition DMAC_MEM2MEM_DMA : Z := 0.
Definition DMAC_MEM2PRF_DMA : Z := 1.
Definition DMAC_PRF2MEM_DMA : Z := 2.
Definition DMAC_PRF2PRF_DMA : Z := 3.
Definition flow_control (src dest : Z) : Z :=
  if negb (is_memory src) && negb (is_memory dest) then DMAC_PRF2PRF_DMA
  else if is_memory src && negb (is_memory dest) then DMAC_MEM2PRF_DMA
  else if negb (is_memory src) && is_memory dest then DMAC_PRF2MEM_DMA
  else DMAC_MEM2MEM_DMA.
Definition cfg_word (n src dest w : Z) : Z :=
  let w := set_field w 32 3 (flow_control src dest) in
  let w := set_field w 35 1 (if is_memory src then 1 else 0) in
  let w := set_field w 36 1 (if is_memory dest then 1 else 0) in
  let w := set_field w 39 4 n in
  let w := set_field w 44 4 n in
  let w := set_field w 0 2 0 in
  set_field w 2 2 0.
Definition ctl_word (src_inc dest_inc burst width w : Z) : Z :=
  let w := set_field w 0 1 0 in
  let w := set_field w 2 1 1 in
  let w := set_field w 4 1 src_inc in
  let w := set_field w 6 1 dest_inc in
  let w := set_field w 8 3 width in
  let w := set_field w 11 3 width in
  let w := set_field w 14 4 burst in
  set_field w 18 4 burst.
(** The writes go to [cfg], [sar], [dar], [ctl] and [block_ts], in this order. *)
Definition dmac_set_channel_param (n src dest src_inc dest_inc burst width blockSize : Z) : M dmac Z :=
  c <-- gets (λ d, chan d n);;
  modify (λ d, set_chan n (Channel (sar c) (dar c) (block_ts c) (ctl c) (cfg_word n src dest (ch_cfg c)) (axi_id c) (intstatus_en c) (intstatus c)) d);;;
  c <-- gets (λ d, chan d n);;
  modify (λ d, set_chan n (Channel (u64 src) (dar c) (block_ts c) (ctl c) (ch_cfg c) (axi_id c) (intstatus_en c) (intstatus c)) d);;;
  c <-- gets (λ d, chan d n);;
  modify (λ d, set_chan n (Channel (sar c) (u64 dest) (block_ts c) (ctl c) (ch_cfg c) (axi_id c) (intstatus_en c) (intstatus c)) d);;;
  c <-- gets (λ d, chan d n);;
  modify (λ d, set_chan n (Channel (sar c) (dar c) (block_ts c) (ctl_word src_inc dest_inc burst width (ctl c)) (ch_cfg c) (axi_id c) (intstatus_en c) (intstatus c)) d);;;
  c <-- gets (λ d, chan d n);;
  modify (λ d, set_chan n (Channel (sar c) (dar c) (u32 (blockSize - 1)) (ctl c) (ch_cfg c) (axi_id c) (intstatus_en c) (intstatus c)) d);;;
  mretM 0.

Section Init.
Context (delay : nat).
(** Setting the reset bit puts the controller in its initial state. *)
Definition write_reset (v : Z) : M dmac unit :=
  modify (λ d, if Z.testbit v 0 then set_rst delay (set_chen 0 (set_cfg 0 d)) else d).
Definition read_reset : M dmac Z :=
  λ d, match rst_reads d with O => Ok 0 d | S n => Ok 1 (set_rst n d) end.
(** Returns whether the bit was seen clear. *)
Fixpoint reset_loop (fuel : nat) (data : Z) : M dmac bool :=
  if negb (Z.testbit data 0) then mretM true else
  match fuel with O => mretM false | S fuel => data <-- read_reset;; reset_loop fuel data end.
Fixpoint cfg_loop (fuel : nat) : M dmac bool :=
  match fuel with O => mretM false | S fuel => c <-- gets cfg;; if c =? 0 then mretM true else cfg_loop fuel end.
Definition dmac_init (fuel : nat) : M dmac bool :=
  zoom clocks set_clocks (sysctl_clock_enable SYSCTL_CLOCK_DMA);;;
  data <-- read_reset;;
  let data := set_field data 0 1 1 in
  write_reset data;;;
  ok <-- reset_loop fuel data;;
  if negb ok then mretM false else
  write_com_intclear (common_bits 0);;;
  dmac_disable;;;
  ok <-- cfg_loop fuel;;
  if negb ok then mretM false else
  tmp <-- gets chen;;
  write_chen (Z.ldiff tmp 15);;;
  dmac_enable;;;
  mretM true.
End Init.

Definition dmac_is_done (n : Z) : M dmac Z := gets (λ d, if has (intstatus (chan d n)) 2 then 1 else 0).
Definition dmac_is_idle (n : Z) : M dmac Z := gets (λ d, if has (Z.shiftr (chen d) n) 1 then 0 else 1).

Section Wait.
(** What the controller does while the process sleeps. *)
Context (asleep : dmac → dmac).
Fixpoint dmac_wait_idle (fuel : nat) (n : Z) : M dmac bool :=
  i <-- dmac_is_idle n;;
  if i =? 1 then mretM true else
  match fuel with O => mretM false | S fuel => modify asleep;;; dmac_wait_idle fuel n end.
Definition dmac_wait_done (fuel : nat) (n : Z) : M dmac bool := dmac_wait_idle fuel n.
Definition dmac_set_single_mode (fuel : nat) (n src dest src_inc dest_inc burst width block_size : Z) : M dmac bool :=
  dmac_chanel_interrupt_clear n;;;
  dmac_channel_disable n;;;
  ok <-- dmac_wait_idle fuel n;;
  if negb ok then mretM false else
  dmac_set_channel_param n src dest src_inc dest_inc burst width (u32 block_size);;;
  dmac_enable;;;
  dmac_enable_channel_interrupt n;;;
  dmac_channel_enable n;;;
  mretM true.
End Wait.

(** ** Channels run or are idle *)
Definition enabled (d : dmac) (n : Z) : bool := Z.testbit (chen d) n.
(** The write-enable bits read as zero. *)
Definition wf (d : dmac) : Prop := ∀ j, 6 ≤ j → Z.testbit (chen d) j = false.

Lemma chen_bit_testbit v c k j :
  0 ≤ k → 0 ≤ j → Z.testbit (chen_bit v c k) j = if (j =? k) && Z.testbit v (8 + k) then Z.testbit v k else Z.testbit c j.
Proof.
  intros Hk Hj. unfold chen_bit. destruct (Z.testbit v (8 + k)); [|by rewrite andb_false_r]. rewrite andb_true_r, set_field_testbit by lia.
  destruct (Z.eqb_spec j k) as [->|Hne].
  - rewrite (proj2 (Z.leb_le k k)), (proj2 (Z.ltb_lt k (k + 1))) by lia. cbn [andb]. rewrite Z.sub_diag. by destruct (Z.testbit v k).
  - destruct (Z.leb_spec k j), (Z.ltb_spec j (k + 1)); try done; lia.
Qed.
Lemma write_chen_testbit v d d' j :
  write_chen v d = Ok tt d' → 0 ≤ j →
  Z.testbit (chen d') j = if (j <? 6) && Z.testbit v (8 + j) then Z.testbit v j else Z.testbit (chen d) j.
Proof.
  intros [= <-] Hj. cbn [chen set_chen]. rewrite !chen_bit_testbit by lia.
  destruct (Z.ltb_spec j 6) as [Hj6|Hj6].
  - assert (j = 0 ∨ j = 1 ∨ j = 2 ∨ j = 3 ∨ j = 4 ∨ j = 5) as H by lia.
    repeat (destruct H as [-> |H]); try subst j; simpl; repeat case_match; done.
  - repeat match goal with |- context [j =? ?k] => destruct (Z.eqb_spec j k); [lia|] end. done.
Qed.

(** Switching channel [n] switches that channel only. *)
Definition switch_word (n b w : Z) : Z := set_field (set_field w n 1 b) (8 + n) 1 1.
Lemma switch_run n b d :
  0 ≤ n < 6 → 0 ≤ b ≤ 1 → wf d →
  ∃ c, write_chen (switch_word n b (chen d)) d = Ok tt (set_chen c d) ∧ wf (set_chen c d) ∧
    ∀ j, 0 ≤ j → Z.testbit c j = if j =? n then b =? 1 else Z.testbit (chen d) j.
Proof.
  intros Hn Hb Hwf. eexists. split; [reflexivity|].
  match goal with |- wf (set_chen ?c d) ∧ _ => set (c0 := c) end.
  assert (∀ j, 0 ≤ j → Z.testbit c0 j = if j =? n then b =? 1 else Z.testbit (chen d) j) as H.
  { intros j Hj. assert (write_chen (switch_word n b (chen d)) d = Ok tt (set_chen c0 d)) as E by reflexivity.
    change (Z.testbit c0 j) with (Z.testbit (chen (set_chen c0 d)) j). rewrite (write_chen_testbit _ _ _ _ E Hj).
    unfold switch_word. rewrite !set_field_testbit by lia.
    destruct (Z.ltb_spec j 6); cbn [andb].
    - destruct (Z.leb_spec (8 + n) j); [lia|]. cbn [andb].
      destruct (Z.eqb_spec j n) as [->|Hne].
      + rewrite (proj2 (Z.leb_le (8 + n) (8 + n))), (proj2 (Z.ltb_lt (8 + n) (8 + n + 1))), (proj2 (Z.leb_le n n)), (proj2 (Z.ltb_lt n (n + 1))) by lia.
        cbn [andb]. rewrite !Z.sub_diag. assert (b = 0 ∨ b = 1) as [-> | ->] by lia; done.
      + assert ((8 + n <=? 8 + j) && (8 + j <? 8 + n + 1) = false) as -> by (apply andb_false_iff; rewrite Z.leb_gt, Z.ltb_ge; lia).
        assert ((n <=? 8 + j) && (8 + j <? n + 1) = false) as -> by (apply andb_false_iff; rewrite Z.leb_gt, Z.ltb_ge; lia).
        by rewrite Hwf by lia.
    - destruct (Z.eqb_spec j n); [lia|done]. }
  split; [|exact H]. intros j Hj. cbn [chen set_chen]. rewrite H by lia. destruct (Z.eqb_spec j n); [lia|]. apply Hwf. lia.
Qed.
Lemma switch_cases n b (w : Z) (P : Z → Prop) :
  0 ≤ n < 6 → P (switch_word n b w) →
  P (if n =? 0 then set_field (set_field w 0 1 b) 8 1 1
     else if n =? 1 then set_field (set_field w 1 1 b) 9 1 1
     else if n =? 2 then set_field (set_field w 2 1 b) 10 1 1
     else if n =? 3 then set_field (set_field w 3 1 b) 11 1 1
     else if n =? 4 then set_field (set_field w 4 1 b) 12 1 1
     else if n =? 5 then set_field (set_field w 5 1 b) 13 1 1
     else w).
Proof.
  intros Hn HP. assert (n = 0 ∨ n = 1 ∨ n = 2 ∨ n = 3 ∨ n = 4 ∨ n = 5) as H by lia.
  repeat (destruct H as [-> |H]); try subst n; exact HP.
Qed.
Lemma channel_enable_run n d : 0 ≤ n < 6 → wf d →
  ∃ c, dmac_channel_enable n d = Ok tt (set_chen c d) ∧ wf (set_chen c d) ∧
    ∀ j, 0 ≤ j → Z.testbit c j = if j =? n then true else Z.testbit (chen d) j.
Proof.
  intros Hn Hwf. destruct (switch_run n 1 d Hn ltac:(lia) Hwf) as (c & E & W & H). exists c. split; [|done].
  unfold dmac_channel_enable, gets, mbindM. by apply (switch_cases n 1 (chen d) (λ w, write_chen w d = _)).
Qed.
Lemma channel_disable_run n d : 0 ≤ n < 6 → wf d →
  ∃ c, dmac_channel_disable n d = Ok tt (set_chen c d) ∧ wf (set_chen c d) ∧
    ∀ j, 0 ≤ j → Z.testbit c j = if j =? n then false else Z.testbit (chen d) j.
Proof.
  intros Hn Hwf. destruct (switch_run n 0 d Hn ltac:(lia) Hwf) as (c & E & W & H). exists c. split; [|done].
  unfold dmac_channel_disable, gets, mbindM. by apply (switch_cases n 0 (chen d) (λ w, write_chen w d = _)).
Qed.
Lemma has_bit0 w : has w 1 = Z.testbit w 0.
Proof. exact (has_testbit w 0 ltac:(lia)). Qed.
Lemma is_idle_run n d : 0 ≤ n → dmac_is_idle n d = Ok (if enabled d n then 0 else 1) d.
Proof. intros Hn. unfold dmac_is_idle, gets, enabled. rewrite has_bit0, Z.shiftr_spec by lia. done. Qed.

(** ** The transfer a channel is set to *)
Record transfer := Transfer {
  t_src : Z; t_dst : Z; t_flow : Z; t_src_sw : bool; t_dst_sw : bool; t_src_fixed : Z; t_dst_fixed : Z;
  t_width : Z * Z; t_burst : Z * Z; t_items : Z; t_line : Z * Z; t_blocks : Z * Z }.
(** What the controller reads from the registers of a channel. *)
Definition programmed (c : channel) : transfer :=
  Transfer (sar c) (dar c) (get_field (ch_cfg c) 32 3) (Z.testbit (ch_cfg c) 35) (Z.testbit (ch_cfg c) 36)
    (get_field (ctl c) 4 1) (get_field (ctl c) 6 1) (get_field (ctl c) 8 3, get_field (ctl c) 11 3)
    (get_field (ctl c) 14 4, get_field (ctl c) 18 4) (get_field (block_ts c) 0 22 + 1)
    (get_field (ch_cfg c) 39 4, get_field (ch_cfg c) 44 4) (get_field (ch_cfg c) 0 2, get_field (ch_cfg c) 2 2).
(** What the caller asks for: memory is handled by software, a device by its own
    request line, which has the number of the channel; one block. *)
Definition requested (n src dest src_inc dest_inc burst width items : Z) : transfer :=
  Transfer src dest (flow_control src dest) (is_memory src) (is_memory dest) src_inc dest_inc
    (width, width) (burst, burst) items (n, n) (0, 0).

Lemma flow_control_range src dest : 0 ≤ flow_control src dest < 4.
Proof. unfold flow_control, DMAC_PRF2PRF_DMA, DMAC_MEM2PRF_DMA, DMAC_PRF2MEM_DMA, DMAC_MEM2MEM_DMA. repeat case_match; lia. Qed.
Lemma set_field_bit w k (b : bool) j :
  0 ≤ k → 0 ≤ j → Z.testbit (set_field w k 1 (if b then 1 else 0)) j = if j =? k then b else Z.testbit w j.
Proof.
  intros Hk Hj. rewrite set_field_testbit by lia. destruct (Z.eqb_spec j k) as [->|Hne].
  - rewrite (proj2 (Z.leb_le k k)), (proj2 (Z.ltb_lt k (k + 1))) by lia. cbn [andb]. rewrite Z.sub_diag. by destruct b.
  - destruct (Z.leb_spec k j), (Z.ltb_spec j (k + 1)); try done; lia.
Qed.
Lemma programmed_words n src dest si di burst width items c0 :
  0 ≤ n < 6 → 0 ≤ src < 2 ^ 64 → 0 ≤ dest < 2 ^ 64 → 0 ≤ si ≤ 1 → 0 ≤ di ≤ 1 → 0 ≤ burst < 16 → 0 ≤ width < 8 → 1 ≤ items ≤ 2 ^ 22 →
  ∀ ax ie st, programmed (Channel (u64 src) (u64 dest) (u32 (u32 items - 1)) (ctl_word si di burst width (ctl c0))
                    (cfg_word n src dest (ch_cfg c0)) ax ie st) =
  requested n src dest si di burst width items.
Proof.
  intros Hn Hs Hd Hsi Hdi Hb Hw Hi ax ie st. pose proof (flow_control_range src dest).
  unfold programmed, requested, ctl_word, cfg_word; cbn [sar dar block_ts ctl ch_cfg].
  rewrite (u32_small items), (u32_small (items - 1)), !u64_small by lia.
  assert (get_field (items - 1) 0 22 + 1 = items) as ->.
  { unfold get_field. rewrite Z.shiftr_0_r, Z.mod_small by lia. lia. }
  f_equal; rewrite ?set_field_testbit by lia; cbn -[is_memory Z.testbit]; repeat (f_equal; [|]);
    field_solve; try (by rewrite Z.mod_small by lia); try (by destruct (is_memory src)); try (by destruct (is_memory dest)).
Qed.
Lemma set_channel_param_run n src dest si di burst width size d :
  ∃ c, dmac_set_channel_param n src dest si di burst width size d = Ok 0 c ∧ chen c = chen d ∧ cfg c = cfg d ∧
    chan c n = Channel (u64 src) (u64 dest) (u32 (size - 1)) (ctl_word si di burst width (ctl (chan d n)))
                 (cfg_word n src dest (ch_cfg (chan d n))) (axi_id (chan d n)) (intstatus_en (chan d n)) (intstatus (chan d n)) ∧
    ∀ j, j ≠ n → chan c j = chan d j.
Proof.
  eexists. split; [reflexivity|]. simpl. split_and!; try done.
  - by rewrite !upd_eq.
  - intros j Hj. by rewrite !upd_ne.
Qed.
Lemma enable_fields w : get_field (set_field (set_field w 0 1 1) 1 1 1) 0 2 = 3.
Proof.
  apply Z.bits_inj'. intros k Hk. rewrite get_field_testbit, !set_field_testbit by lia.
  destruct (Z.ltb_spec k 2).
  - assert (k = 0 ∨ k = 1) as [-> | ->] by lia; done.
  - symmetry. apply (Z.bits_above_log2 3 k); simpl; lia.
Qed.

Lemma set_single_mode_run asleep fuel n src dest si di burst width items d :
  0 ≤ n < 6 → 0 ≤ src < 2 ^ 64 → 0 ≤ dest < 2 ^ 64 → 0 ≤ si ≤ 1 → 0 ≤ di ≤ 1 → 0 ≤ burst < 16 → 0 ≤ width < 8 →
  1 ≤ items ≤ 2 ^ 22 → wf d →
  ∃ d', dmac_set_single_mode asleep fuel n src dest si di burst width items d = Ok true d' ∧ wf d' ∧
    programmed (chan d' n) = requested n src dest si di burst width items ∧
    (∀ j, 0 ≤ j < 6 → enabled d' j = if j =? n then true else enabled d j) ∧
    intstatus_en (chan d' n) = 2 ∧ get_field (cfg d') 0 2 = 3 ∧ (∀ j, j ≠ n → chan d' j = chan d j).
Proof.
  intros Hn Hs Hd Hsi Hdi Hb Hw Hi Hwf. unfold dmac_set_single_mode, dmac_chanel_interrupt_clear, write_intclear.
  erewrite mbindM_Ok by reflexivity. cbv zeta.
  match goal with |- context [(dmac_channel_disable n;;; _) ?x] => set (d1 := x) end.
  destruct (channel_disable_run n d1 Hn Hwf) as (c1 & E1 & W1 & H1). rewrite (mbindM_Ok _ _ _ _ _ E1). clear E1.
  set (d2 := set_chen c1 d1) in *.
  assert (dmac_wait_idle asleep fuel n d2 = Ok true d2) as E2.
  { assert (enabled d2 n = false) as Hi2 by (unfold enabled; cbn [d2 set_chen chen]; rewrite H1, Z.eqb_refl by lia; done).
    destruct fuel; cbn [dmac_wait_idle]; rewrite (mbindM_Ok _ _ _ _ _ (is_idle_run n d2 ltac:(lia))), Hi2; done. }
  rewrite (mbindM_Ok _ _ _ _ _ E2). cbn [negb]. clear E2.
  destruct (set_channel_param_run n src dest si di burst width (u32 items) d2) as (d3 & E3 & K1 & K2 & K3 & K4).
  rewrite (mbindM_Ok _ _ _ _ _ E3). clear E3. unfold dmac_enable, dmac_enable_channel_interrupt, write_intclear, write_intstatus_en.
  do 2 erewrite mbindM_Ok by reflexivity. cbv zeta.
  match goal with |- context [(dmac_channel_enable n;;; _) ?x] => set (d4 := x) end.
  assert (wf d4) as W4 by (intros j Hj; cbn; rewrite K1; by apply W1).
  destruct (channel_enable_run n d4 Hn W4) as (c5 & E5 & W5 & H5). rewrite (mbindM_Ok _ _ _ _ _ E5).
  eexists. split; [reflexivity|]. split; [done|]. split_and!.
  - cbn. rewrite !upd_eq. cbn. rewrite K3. cbn. by apply programmed_words.
  - intros j Hj. unfold enabled. cbn [set_chen chen]. rewrite H5 by lia. destruct (Z.eqb_spec j n); [done|].
    cbn. rewrite K1. cbn. rewrite H1 by lia. by destruct (Z.eqb_spec j n).
  - cbn. by rewrite !upd_eq.
  - cbn. apply enable_fields.
  - intros j Hj. cbn. rewrite !upd_ne, K4 by done. cbn. by rewrite upd_ne.
Qed.
(** Programming a single transfer: whatever the controller did before, the
    channel's registers then describe exactly the transfer asked for - addresses,
    direction from the kinds of the two addresses, which of them advances, item
    width, burst, number of items, one block - and the channel runs with its
    interrupt on; the registers of the other channels are the same and none of them
    starts or stops. *)
Theorem dmac_set_single_mode_correct asleep fuel n src dest si di burst width items d :
  0 ≤ n < 6 → 0 ≤ src < 2 ^ 64 → 0 ≤ dest < 2 ^ 64 → 0 ≤ si ≤ 1 → 0 ≤ di ≤ 1 → 0 ≤ burst < 16 → 0 ≤ width < 8 →
  1 ≤ items ≤ 2 ^ 22 → wf d →
  ∃ d', dmac_set_single_mode asleep fuel n src dest si di burst width items d = Ok true d' ∧ wf d' ∧
    programmed (chan d' n) = requested n src dest si di burst width items ∧
    (∀ j, 0 ≤ j < 6 → enabled d' j = if j =? n then true else enabled d j) ∧
    intstatus_en (chan d' n) = 2 ∧ get_field (cfg d') 0 2 = 3 ∧ (∀ j, j ≠ n → chan d' j = chan d j).
Proof. apply set_single_mode_run. Qed.
Definition quiet : dmac :=
  Dmac 0 0 0 0 0 0 (λ _, Channel 0 0 0 0 0 0 0 0) 0 0 (Sysctl 0 0 0 0 0 0 0 0 0).
Lemma quiet_wf : wf quiet.
Proof. intros j Hj. apply Z.bits_0. Qed.
Lemma dmac_set_single_mode_correct_witness :
  ∃ d', dmac_set_single_mode id 1 0 2147487744 1375731808 0 1 1 2 512 quiet = Ok true d' ∧
    programmed (chan d' 0) = requested 0 2147487744 1375731808 0 1 1 2 512 ∧ t_flow (programmed (chan d' 0)) = DMAC_MEM2PRF_DMA.
Proof.
  destruct (dmac_set_single_mode_correct id 1 0 2147487744 1375731808 0 1 1 2 512 quiet) as (d' & E & _ & P & _);
    try lia; try apply quiet_wf. exists d'. split; [exact E|]. split; [exact P|]. rewrite P. vm_compute. reflexivity.
Defined.

(** ** Starting the controller *)
Lemma reset_loop_run fuel d data : (rst_reads d < fuel)%nat → Z.testbit data 0 = true →
  reset_loop fuel data d = Ok true (set_rst 0 d).
Proof.
  revert d data. induction fuel as [|fuel IH]; intros d data Hf Hb; [lia|]. cbn [reset_loop]. rewrite Hb. cbn [negb].
  unfold read_reset, mbindM. destruct (rst_reads d) as [|r] eqn:Er.
  - destruct fuel; cbn [reset_loop]; (replace (Z.testbit 0 0) with false by reflexivity); cbn [negb]; unfold mretM; f_equal; destruct d; cbn in *; by subst.
  - rewrite IH by (done || (cbn; lia)). by destruct d.
Qed.
(** Clearing enable bits without their write-enable bits changes nothing. *)
Lemma write_chen_no_we v d d' :
  (∀ j, 8 ≤ j < 14 → Z.testbit v j = false) → write_chen v d = Ok tt d' → ∀ j, 0 ≤ j → Z.testbit (chen d') j = Z.testbit (chen d) j.
Proof.
  intros Hv E j Hj. rewrite (write_chen_testbit _ _ _ _ E Hj). destruct (Z.ltb_spec j 6); cbn [andb]; [|done]. by rewrite Hv by lia.
Qed.
(** [dmac_init] returns once the reset bit clears, with the DMA clock on, every
    channel idle and the controller and its interrupts enabled. *)
Theorem dmac_init_correct delay fuel d :
  (delay < fuel)%nat → ∃ d', dmac_init delay fuel d = Ok true d' ∧ wf d' ∧
    (∀ n, 0 ≤ n → enabled d' n = false) ∧ cfg d' = 3 ∧ running SYSCTL_CLOCK_DMA (clocks d') = true ∧ chan d' = chan d.
Proof.
  intros Hf. destruct (sysctl_clock_enable_correct SYSCTL_CLOCK_DMA (clocks d) ltac:(done)) as (k & Ek & _ & _ & Hk).
  unfold dmac_init. rewrite (mbindM_Ok (zoom _ _ _) _ d 0 (set_clocks k d)) by (unfold zoom; by rewrite Ek).
  destruct (read_reset (set_clocks k d)) as [r d1|e] eqn:E1; [|exfalso; revert E1; unfold read_reset; by destruct (rst_reads _)].
  assert (clocks d1 = k ∧ chan d1 = chan d) as [Hc1 Hh1].
  { revert E1. unfold read_reset. destruct (rst_reads _); intros [= _ <-]; done. }
  rewrite (mbindM_Ok _ _ _ _ _ E1). cbv zeta.
  assert (Z.testbit (set_field r 0 1 1) 0 = true) as Hr by (rewrite set_field_testbit by lia; reflexivity).
  rewrite (mbindM_Ok (write_reset _ _) _ d1 tt (set_rst delay (set_chen 0 (set_cfg 0 d1)))) by (unfold write_reset, modify; by rewrite Hr).
  rewrite (mbindM_Ok _ _ _ _ _ (reset_loop_run fuel (set_rst delay (set_chen 0 (set_cfg 0 d1))) _ Hf Hr)). cbn [negb].
  do 2 erewrite mbindM_Ok by reflexivity. destruct fuel as [|fuel]; [lia|].
  rewrite (mbindM_Ok (cfg_loop _) _ _ true _) by reflexivity. cbn [negb].
  erewrite mbindM_Ok by reflexivity. match goal with |- context [(write_chen ?v;;; _) ?x] => set (d2 := x) end.
  destruct (write_chen (Z.ldiff (chen d2) 15) d2) as [[] d3|] eqn:E3; [|discriminate].
  rewrite (mbindM_Ok _ _ _ _ _ E3). assert (∀ j, 0 ≤ j → Z.testbit (chen d3) j = false) as Hz.
  { intros j Hj. rewrite (write_chen_no_we _ _ _ ltac:(intros; apply Z.bits_0) E3 j Hj). apply Z.bits_0. }
  eexists. split; [reflexivity|]. injection E3 as <-. split_and!.
  - intros j Hj. apply Hz. lia.
  - intros n Hn. by apply Hz.
  - reflexivity.
  - match goal with |- running _ ?x = _ => replace x with k by (symmetry; exact Hc1) end.
    rewrite Hk. by rewrite bool_decide_true by (split; [by left|vm_compute; eauto]).
  - cbn. exact Hh1.
Qed.
Lemma dmac_init_correct_witness : ∃ d', dmac_init 3 4 quiet = Ok true d' ∧ cfg d' = 3.
Proof. destruct (dmac_init_correct 3 4 quiet) as (d' & E & _ & _ & H & _); [lia|]. exists d'. split; [exact E|exact H]. Defined.

(** ** Waiting for a transfer, with the interrupt

    The waiter tests the channel without a lock, then takes its own lock and sleeps.
    The controller ends the transfer and raises the interrupt; its handler clears the
    status and wakes the sleeper. *)
Inductive waiter := Testing | Falling | Sleeping | Returned.
Record waiting := Waiting { ctrl : dmac; proc_at : waiter }.
Definition wakeup_dmac (w : waiter) : waiter := match w with Sleeping => Testing | w => w end.
Definition dmac_intr (n : Z) : M waiting unit :=
  zoom ctrl (λ d s, Waiting d (proc_at s)) (dmac_chanel_interrupt_clear n);;;
  modify (λ s, Waiting (ctrl s) (wakeup_dmac (proc_at s))).
(** The end of the transfer in the controller. *)
Definition finish (n : Z) (d : dmac) : dmac :=
  let c := chan d n in
  set_chan n (Channel (sar c) (dar c) (block_ts c) (ctl c) (ch_cfg c) (axi_id c) (intstatus_en c) (Z.lor (intstatus c) (Z.land 2 (intstatus_en c))))
    (set_chen (set_field (chen d) n 1 0) d).
Inductive wait_step (n : Z) : waiting → waiting → Prop :=
| ws_test d i : dmac_is_idle n d = Ok i d → wait_step n (Waiting d Testing) (Waiting d (if i =? 1 then Returned else Falling))
| ws_sleep d : wait_step n (Waiting d Falling) (Waiting d Sleeping)
| ws_finish d w : enabled d n = true → wait_step n (Waiting d w) (Waiting (finish n d) w)
| ws_interrupt s s' : has (intstatus (chan (ctrl s) n)) 2 = true → dmac_intr n s = Ok tt s' → wait_step n s s'.
Definition wait_reachable (n : Z) : waiting → waiting → Prop := rtc (wait_step n).

Lemma finish_enabled n d k : 0 ≤ n → 0 ≤ k → enabled (finish n d) k = if k =? n then false else enabled d k.
Proof. intros Hn Hk. unfold enabled. cbn. exact (set_field_bit (chen d) n false k Hn Hk). Qed.
Lemma interrupt_ctrl n s s' : dmac_intr n s = Ok tt s' → ∀ k, enabled (ctrl s') k = enabled (ctrl s) k.
Proof. destruct s as [d w]. intros [= <-] k. done. Qed.
Lemma idle_stays n s s' : 0 ≤ n → wait_step n s s' → enabled (ctrl s) n = false → enabled (ctrl s') n = false.
Proof.
  intros Hn Hs. destruct Hs as [d i Ei|d|d w Hw|s s' Hp Ei]; cbn; intros H; try done; [congruence|].
  by rewrite (interrupt_ctrl _ _ _ Ei).
Qed.
(** The wait returns only when the channel is idle. *)
Theorem dmac_wait_returns_idle n d s :
  0 ≤ n → wait_reachable n (Waiting d Testing) s → proc_at s = Returned → enabled (ctrl s) n = false.
Proof.
  intros Hn H. assert (proc_at (Waiting d Testing) = Returned → enabled (ctrl (Waiting d Testing)) n = false) as H0 by done.
  revert H0. induction H as [s|s s1 s2 Hs H IH]; intros H0; [done|]. apply IH. intros Hr.
  destruct Hs as [d' i Ei|d'|d' w Hw|s s' Hp Ei]; cbn in *; try done.
  - rewrite is_idle_run in Ei by done. injection Ei as <-. destruct (enabled d' n); done.
  - rewrite H0 in Hw by done. done.
  - rewrite (interrupt_ctrl _ _ _ Ei). apply H0. destruct s as [ds ws]. injection Ei as <-. cbn in *. by destruct ws.
Qed.

(** The interrupt between the test and the sleep: a process that sleeps on an idle
    channel with nothing left that could wake it. *)
Definition busy : dmac := set_chan 0 (Channel 0 0 0 0 0 0 2 0) (set_chen 1 quiet).
Theorem dmac_wakeup_lost :
  ∃ s, wait_reachable 0 (Waiting busy Testing) s ∧ proc_at s = Sleeping ∧ enabled (ctrl s) 0 = false ∧ ∀ s', ¬ wait_step 0 s s'.
Proof.
  eexists. split.
  { eapply rtc_l; [apply ws_test; reflexivity|]. eapply rtc_l; [apply ws_finish; reflexivity|].
    eapply rtc_l; [eapply ws_interrupt; reflexivity|]. eapply rtc_l; [apply ws_sleep|]. apply rtc_refl. }
  split; [reflexivity|]. split; [reflexivity|]. intros s' Hs. inversion Hs as [| |? ? He|? ? Hp]; vm_compute in *; discriminate.
Qed.
