(* ===== verification/FpioaTable.v ===== *)
(** * The function table of the FPIOA (kernel/fpioa.c, kernel/include/fpioa.h)

    The field-programmable IO array connects each of the 48 pads of the K210 to one
    of 256 functions.  This file has the functions and the table of the settings
    [function_config], entry by entry; the operations are in Pins.v. *)
From stdpp Require Import prelude list strings.
From Stdlib Require Import ZArith Lia.
Open Scope Z_scope.

(** The functions, in the order of their numbers. *)
Inductive fpioa_function : Type :=
 | FUNC_JTAG_TCLK | FUNC_JTAG_TDI | FUNC_JTAG_TMS | FUNC_JTAG_TDO | FUNC_SPI0_D0 | FUNC_SPI0_D1
 | FUNC_SPI0_D2 | FUNC_SPI0_D3 | FUNC_SPI0_D4 | FUNC_SPI0_D5 | FUNC_SPI0_D6 | FUNC_SPI0_D7
 | FUNC_SPI0_SS0 | FUNC_SPI0_SS1 | FUNC_SPI0_SS2 | FUNC_SPI0_SS3 | FUNC_SPI0_ARB | FUNC_SPI0_SCLK
 | FUNC_UARTHS_RX | FUNC_UARTHS_TX | FUNC_RESV6 | FUNC_RESV7 | FUNC_CLK_SPI1 | FUNC_CLK_I2C1
 | FUNC_GPIOHS0 | FUNC_GPIOHS1 | FUNC_GPIOHS2 | FUNC_GPIOHS3 | FUNC_GPIOHS4 | FUNC_GPIOHS5
 | FUNC_GPIOHS6 | FUNC_GPIOHS7 | FUNC_GPIOHS8 | FUNC_GPIOHS9 | FUNC_GPIOHS10 | FUNC_GPIOHS11
 | FUNC_GPIOHS12 | FUNC_GPIOHS13 | FUNC_GPIOHS14 | FUNC_GPIOHS15 | FUNC_GPIOHS16 | FUNC_GPIOHS17
 | FUNC_GPIOHS18 | FUNC_GPIOHS19 | FUNC_GPIOHS20 | FUNC_GPIOHS21 | FUNC_GPIOHS22 | FUNC_GPIOHS23
 | FUNC_GPIOHS24 | FUNC_GPIOHS25 | FUNC_GPIOHS26 | FUNC_GPIOHS27 | FUNC_GPIOHS28 | FUNC_GPIOHS29
 | FUNC_GPIOHS30 | FUNC_GPIOHS31 | FUNC_GPIO0 | FUNC_GPIO1 | FUNC_GPIO2 | FUNC_GPIO3 | FUNC_GPIO4
 | FUNC_GPIO5 | FUNC_GPIO6 | FUNC_GPIO7 | FUNC_UART1_RX | FUNC_UART1_TX | FUNC_UART2_RX
 | FUNC_UART2_TX | FUNC_UART3_RX | FUNC_UART3_TX | FUNC_SPI1_D0 | FUNC_SPI1_D1 | FUNC_SPI1_D2
 | FUNC_SPI1_D3 | FUNC_SPI1_D4 | FUNC_SPI1_D5 | FUNC_SPI1_D6 | FUNC_SPI1_D7 | FUNC_SPI1_SS0
 | FUNC_SPI1_SS1 | FUNC_SPI1_SS2 | FUNC_SPI1_SS3 | FUNC_SPI1_ARB | FUNC_SPI1_SCLK
 | FUNC_SPI_SLAVE_D0 | FUNC_SPI_SLAVE_SS | FUNC_SPI_SLAVE_SCLK | FUNC_I2S0_MCLK | FUNC_I2S0_SCLK
 | FUNC_I2S0_WS | FUNC_I2S0_IN_D0 | FUNC_I2S0_IN_D1 | FUNC_I2S0_IN_D2 | FUNC_I2S0_IN_D3
 | FUNC_I2S0_OUT_D0 | FUNC_I2S0_OUT_D1 | FUNC_I2S0_OUT_D2 | FUNC_I2S0_OUT_D3 | FUNC_I2S1_MCLK
 | FUNC_I2S1_SCLK | FUNC_I2S1_WS | FUNC_I2S1_IN_D0 | FUNC_I2S1_IN_D1 | FUNC_I2S1_IN_D2
 | FUNC_I2S1_IN_D3 | FUNC_I2S1_OUT_D0 | FUNC_I2S1_OUT_D1 | FUNC_I2S1_OUT_D2 | FUNC_I2S1_OUT_D3
 | FUNC_I2S2_MCLK | FUNC_I2S2_SCLK | FUNC_I2S2_WS | FUNC_I2S2_IN_D0 | FUNC_I2S2_IN_D1
 | FUNC_I2S2_IN_D2 | FUNC_I2S2_IN_D3 | FUNC_I2S2_OUT_D0 | FUNC_I2S2_OUT_D1 | FUNC_I2S2_OUT_D2
 | FUNC_I2S2_OUT_D3 | FUNC_RESV0 | FUNC_RESV1 | FUNC_RESV2 | FUNC_RESV3 | FUNC_RESV4 | FUNC_RESV5
 | FUNC_I2C0_SCLK | FUNC_I2C0_SDA | FUNC_I2C1_SCLK | FUNC_I2C1_SDA | FUNC_I2C2_SCLK
 | FUNC_I2C2_SDA | FUNC_CMOS_XCLK | FUNC_CMOS_RST | FUNC_CMOS_PWDN | FUNC_CMOS_VSYNC
 | FUNC_CMOS_HREF | FUNC_CMOS_PCLK | FUNC_CMOS_D0 | FUNC_CMOS_D1 | FUNC_CMOS_D2 | FUNC_CMOS_D3
 | FUNC_CMOS_D4 | FUNC_CMOS_D5 | FUNC_CMOS_D6 | FUNC_CMOS_D7 | FUNC_SCCB_SCLK | FUNC_SCCB_SDA
 | FUNC_UART1_CTS | FUNC_UART1_DSR | FUNC_UART1_DCD | FUNC_UART1_RI | FUNC_UART1_SIR_IN
 | FUNC_UART1_DTR | FUNC_UART1_RTS | FUNC_UART1_OUT2 | FUNC_UART1_OUT1 | FUNC_UART1_SIR_OUT
 | FUNC_UART1_BAUD | FUNC_UART1_RE | FUNC_UART1_DE | FUNC_UART1_RS485_EN | FUNC_UART2_CTS
 | FUNC_UART2_DSR | FUNC_UART2_DCD | FUNC_UART2_RI | FUNC_UART2_SIR_IN | FUNC_UART2_DTR
 | FUNC_UART2_RTS | FUNC_UART2_OUT2 | FUNC_UART2_OUT1 | FUNC_UART2_SIR_OUT | FUNC_UART2_BAUD
 | FUNC_UART2_RE | FUNC_UART2_DE | FUNC_UART2_RS485_EN | FUNC_UART3_CTS | FUNC_UART3_DSR
 | FUNC_UART3_DCD | FUNC_UART3_RI | FUNC_UART3_SIR_IN | FUNC_UART3_DTR | FUNC_UART3_RTS
 | FUNC_UART3_OUT2 | FUNC_UART3_OUT1 | FUNC_UART3_SIR_OUT | FUNC_UART3_BAUD | FUNC_UART3_RE
 | FUNC_UART3_DE | FUNC_UART3_RS485_EN | FUNC_TIMER0_TOGGLE1 | FUNC_TIMER0_TOGGLE2
 | FUNC_TIMER0_TOGGLE3 | FUNC_TIMER0_TOGGLE4 | FUNC_TIMER1_TOGGLE1 | FUNC_TIMER1_TOGGLE2
 | FUNC_TIMER1_TOGGLE3 | FUNC_TIMER1_TOGGLE4 | FUNC_TIMER2_TOGGLE1 | FUNC_TIMER2_TOGGLE2
 | FUNC_TIMER2_TOGGLE3 | FUNC_TIMER2_TOGGLE4 | FUNC_CLK_SPI2 | FUNC_CLK_I2C2 | FUNC_INTERNAL0
 | FUNC_INTERNAL1 | FUNC_INTERNAL2 | FUNC_INTERNAL3 | FUNC_INTERNAL4 | FUNC_INTERNAL5
 | FUNC_INTERNAL6 | FUNC_INTERNAL7 | FUNC_INTERNAL8 | FUNC_INTERNAL9 | FUNC_INTERNAL10
 | FUNC_INTERNAL11 | FUNC_INTERNAL12 | FUNC_INTERNAL13 | FUNC_INTERNAL14 | FUNC_INTERNAL15
 | FUNC_INTERNAL16 | FUNC_INTERNAL17 | FUNC_CONSTANT | FUNC_INTERNAL18 | FUNC_DEBUG0 | FUNC_DEBUG1
 | FUNC_DEBUG2 | FUNC_DEBUG3 | FUNC_DEBUG4 | FUNC_DEBUG5 | FUNC_DEBUG6 | FUNC_DEBUG7 | FUNC_DEBUG8
 | FUNC_DEBUG9 | FUNC_DEBUG10 | FUNC_DEBUG11 | FUNC_DEBUG12 | FUNC_DEBUG13 | FUNC_DEBUG14
 | FUNC_DEBUG15 | FUNC_DEBUG16 | FUNC_DEBUG17 | FUNC_DEBUG18 | FUNC_DEBUG19 | FUNC_DEBUG20
 | FUNC_DEBUG21 | FUNC_DEBUG22 | FUNC_DEBUG23 | FUNC_DEBUG24 | FUNC_DEBUG25 | FUNC_DEBUG26
 | FUNC_DEBUG27 | FUNC_DEBUG28 | FUNC_DEBUG29 | FUNC_DEBUG30 | FUNC_DEBUG31.

(** The number of a function, which is what the registers and the table index with. *)
Definition func (f : fpioa_function) : Z :=
  match f with
  | FUNC_JTAG_TCLK => 0 | FUNC_JTAG_TDI => 1 | FUNC_JTAG_TMS => 2 | FUNC_JTAG_TDO => 3
  | FUNC_SPI0_D0 => 4 | FUNC_SPI0_D1 => 5 | FUNC_SPI0_D2 => 6 | FUNC_SPI0_D3 => 7 | FUNC_SPI0_D4 => 8
  | FUNC_SPI0_D5 => 9 | FUNC_SPI0_D6 => 10 | FUNC_SPI0_D7 => 11 | FUNC_SPI0_SS0 => 12
  | FUNC_SPI0_SS1 => 13 | FUNC_SPI0_SS2 => 14 | FUNC_SPI0_SS3 => 15 | FUNC_SPI0_ARB => 16
  | FUNC_SPI0_SCLK => 17 | FUNC_UARTHS_RX => 18 | FUNC_UARTHS_TX => 19 | FUNC_RESV6 => 20
  | FUNC_RESV7 => 21 | FUNC_CLK_SPI1 => 22 | FUNC_CLK_I2C1 => 23 | FUNC_GPIOHS0 => 24
  | FUNC_GPIOHS1 => 25 | FUNC_GPIOHS2 => 26 | FUNC_GPIOHS3 => 27 | FUNC_GPIOHS4 => 28
  | FUNC_GPIOHS5 => 29 | FUNC_GPIOHS6 => 30 | FUNC_GPIOHS7 => 31 | FUNC_GPIOHS8 => 32
  | FUNC_GPIOHS9 => 33 | FUNC_GPIOHS10 => 34 | FUNC_GPIOHS11 => 35 | FUNC_GPIOHS12 => 36
  | FUNC_GPIOHS13 => 37 | FUNC_GPIOHS14 => 38 | FUNC_GPIOHS15 => 39 | FUNC_GPIOHS16 => 40
  | FUNC_GPIOHS17 => 41 | FUNC_GPIOHS18 => 42 | FUNC_GPIOHS19 => 43 | FUNC_GPIOHS20 => 44
  | FUNC_GPIOHS21 => 45 | FUNC_GPIOHS22 => 46 | FUNC_GPIOHS23 => 47 | FUNC_GPIOHS24 => 48
  | FUNC_GPIOHS25 => 49 | FUNC_GPIOHS26 => 50 | FUNC_GPIOHS27 => 51 | FUNC_GPIOHS28 => 52
  | FUNC_GPIOHS29 => 53 | FUNC_GPIOHS30 => 54 | FUNC_GPIOHS31 => 55 | FUNC_GPIO0 => 56
  | FUNC_GPIO1 => 57 | FUNC_GPIO2 => 58 | FUNC_GPIO3 => 59 | FUNC_GPIO4 => 60 | FUNC_GPIO5 => 61
  | FUNC_GPIO6 => 62 | FUNC_GPIO7 => 63 | FUNC_UART1_RX => 64 | FUNC_UART1_TX => 65
  | FUNC_UART2_RX => 66 | FUNC_UART2_TX => 67 | FUNC_UART3_RX => 68 | FUNC_UART3_TX => 69
  | FUNC_SPI1_D0 => 70 | FUNC_SPI1_D1 => 71 | FUNC_SPI1_D2 => 72 | FUNC_SPI1_D3 => 73
  | FUNC_SPI1_D4 => 74 | FUNC_SPI1_D5 => 75 | FUNC_SPI1_D6 => 76 | FUNC_SPI1_D7 => 77
  | FUNC_SPI1_SS0 => 78 | FUNC_SPI1_SS1 => 79 | FUNC_SPI1_SS2 => 80 | FUNC_SPI1_SS3 => 81
  | FUNC_SPI1_ARB => 82 | FUNC_SPI1_SCLK => 83 | FUNC_SPI_SLAVE_D0 => 84 | FUNC_SPI_SLAVE_SS => 85
  | FUNC_SPI_SLAVE_SCLK => 86 | FUNC_I2S0_MCLK => 87 | FUNC_I2S0_SCLK => 88 | FUNC_I2S0_WS => 89
  | FUNC_I2S0_IN_D0 => 90 | FUNC_I2S0_IN_D1 => 91 | FUNC_I2S0_IN_D2 => 92 | FUNC_I2S0_IN_D3 => 93
  | FUNC_I2S0_OUT_D0 => 94 | FUNC_I2S0_OUT_D1 => 95 | FUNC_I2S0_OUT_D2 => 96 | FUNC_I2S0_OUT_D3 => 97
  | FUNC_I2S1_MCLK => 98 | FUNC_I2S1_SCLK => 99 | FUNC_I2S1_WS => 100 | FUNC_I2S1_IN_D0 => 101
  | FUNC_I2S1_IN_D1 => 102 | FUNC_I2S1_IN_D2 => 103 | FUNC_I2S1_IN_D3 => 104 | FUNC_I2S1_OUT_D0 => 105
  | FUNC_I2S1_OUT_D1 => 106 | FUNC_I2S1_OUT_D2 => 107 | FUNC_I2S1_OUT_D3 => 108 | FUNC_I2S2_MCLK => 109
  | FUNC_I2S2_SCLK => 110 | FUNC_I2S2_WS => 111 | FUNC_I2S2_IN_D0 => 112 | FUNC_I2S2_IN_D1 => 113
  | FUNC_I2S2_IN_D2 => 114 | FUNC_I2S2_IN_D3 => 115 | FUNC_I2S2_OUT_D0 => 116 | FUNC_I2S2_OUT_D1 => 117
  | FUNC_I2S2_OUT_D2 => 118 | FUNC_I2S2_OUT_D3 => 119 | FUNC_RESV0 => 120 | FUNC_RESV1 => 121
  | FUNC_RESV2 => 122 | FUNC_RESV3 => 123 | FUNC_RESV4 => 124 | FUNC_RESV5 => 125
  | FUNC_I2C0_SCLK => 126 | FUNC_I2C0_SDA => 127 | FUNC_I2C1_SCLK => 128 | FUNC_I2C1_SDA => 129
  | FUNC_I2C2_SCLK => 130 | FUNC_I2C2_SDA => 131 | FUNC_CMOS_XCLK => 132 | FUNC_CMOS_RST => 133
  | FUNC_CMOS_PWDN => 134 | FUNC_CMOS_VSYNC => 135 | FUNC_CMOS_HREF => 136 | FUNC_CMOS_PCLK => 137
  | FUNC_CMOS_D0 => 138 | FUNC_CMOS_D1 => 139 | FUNC_CMOS_D2 => 140 | FUNC_CMOS_D3 => 141
  | FUNC_CMOS_D4 => 142 | FUNC_CMOS_D5 => 143 | FUNC_CMOS_D6 => 144 | FUNC_CMOS_D7 => 145
  | FUNC_SCCB_SCLK => 146 | FUNC_SCCB_SDA => 147 | FUNC_UART1_CTS => 148 | FUNC_UART1_DSR => 149
  | FUNC_UART1_DCD => 150 | FUNC_UART1_RI => 151 | FUNC_UART1_SIR_IN => 152 | FUNC_UART1_DTR => 153
  | FUNC_UART1_RTS => 154 | FUNC_UART1_OUT2 => 155 | FUNC_UART1_OUT1 => 156 | FUNC_UART1_SIR_OUT => 157
  | FUNC_UART1_BAUD => 158 | FUNC_UART1_RE => 159 | FUNC_UART1_DE => 160 | FUNC_UART1_RS485_EN => 161
  | FUNC_UART2_CTS => 162 | FUNC_UART2_DSR => 163 | FUNC_UART2_DCD => 164 | FUNC_UART2_RI => 165
  | FUNC_UART2_SIR_IN => 166 | FUNC_UART2_DTR => 167 | FUNC_UART2_RTS => 168 | FUNC_UART2_OUT2 => 169
  | FUNC_UART2_OUT1 => 170 | FUNC_UART2_SIR_OUT => 171 | FUNC_UART2_BAUD => 172 | FUNC_UART2_RE => 173
  | FUNC_UART2_DE => 174 | FUNC_UART2_RS485_EN => 175 | FUNC_UART3_CTS => 176 | FUNC_UART3_DSR => 177
  | FUNC_UART3_DCD => 178 | FUNC_UART3_RI => 179 | FUNC_UART3_SIR_IN => 180 | FUNC_UART3_DTR => 181
  | FUNC_UART3_RTS => 182 | FUNC_UART3_OUT2 => 183 | FUNC_UART3_OUT1 => 184 | FUNC_UART3_SIR_OUT => 185
  | FUNC_UART3_BAUD => 186 | FUNC_UART3_RE => 187 | FUNC_UART3_DE => 188 | FUNC_UART3_RS485_EN => 189
  | FUNC_TIMER0_TOGGLE1 => 190 | FUNC_TIMER0_TOGGLE2 => 191 | FUNC_TIMER0_TOGGLE3 => 192
  | FUNC_TIMER0_TOGGLE4 => 193 | FUNC_TIMER1_TOGGLE1 => 194 | FUNC_TIMER1_TOGGLE2 => 195
  | FUNC_TIMER1_TOGGLE3 => 196 | FUNC_TIMER1_TOGGLE4 => 197 | FUNC_TIMER2_TOGGLE1 => 198
  | FUNC_TIMER2_TOGGLE2 => 199 | FUNC_TIMER2_TOGGLE3 => 200 | FUNC_TIMER2_TOGGLE4 => 201
  | FUNC_CLK_SPI2 => 202 | FUNC_CLK_I2C2 => 203 | FUNC_INTERNAL0 => 204 | FUNC_INTERNAL1 => 205
  | FUNC_INTERNAL2 => 206 | FUNC_INTERNAL3 => 207 | FUNC_INTERNAL4 => 208 | FUNC_INTERNAL5 => 209
  | FUNC_INTERNAL6 => 210 | FUNC_INTERNAL7 => 211 | FUNC_INTERNAL8 => 212 | FUNC_INTERNAL9 => 213
  | FUNC_INTERNAL10 => 214 | FUNC_INTERNAL11 => 215 | FUNC_INTERNAL12 => 216 | FUNC_INTERNAL13 => 217
  | FUNC_INTERNAL14 => 218 | FUNC_INTERNAL15 => 219 | FUNC_INTERNAL16 => 220 | FUNC_INTERNAL17 => 221
  | FUNC_CONSTANT => 222 | FUNC_INTERNAL18 => 223 | FUNC_DEBUG0 => 224 | FUNC_DEBUG1 => 225
  | FUNC_DEBUG2 => 226 | FUNC_DEBUG3 => 227 | FUNC_DEBUG4 => 228 | FUNC_DEBUG5 => 229
  | FUNC_DEBUG6 => 230 | FUNC_DEBUG7 => 231 | FUNC_DEBUG8 => 232 | FUNC_DEBUG9 => 233
  | FUNC_DEBUG10 => 234 | FUNC_DEBUG11 => 235 | FUNC_DEBUG12 => 236 | FUNC_DEBUG13 => 237
  | FUNC_DEBUG14 => 238 | FUNC_DEBUG15 => 239 | FUNC_DEBUG16 => 240 | FUNC_DEBUG17 => 241
  | FUNC_DEBUG18 => 242 | FUNC_DEBUG19 => 243 | FUNC_DEBUG20 => 244 | FUNC_DEBUG21 => 245
  | FUNC_DEBUG22 => 246 | FUNC_DEBUG23 => 247 | FUNC_DEBUG24 => 248 | FUNC_DEBUG25 => 249
  | FUNC_DEBUG26 => 250 | FUNC_DEBUG27 => 251 | FUNC_DEBUG28 => 252 | FUNC_DEBUG29 => 253
  | FUNC_DEBUG30 => 254 | FUNC_DEBUG31 => 255
  end.
Definition FUNC_MAX : Z := 256.

(** An entry of the table, its fields in the order of the table; every field but
    [ch_sel], [ds] and the reserved ones is one bit. *)
Record fpioa_assign := Assign {
  a_ch_sel : Z;
  a_ds : Z;
  a_oe_en : Z;
  a_oe_inv : Z;
  a_do_sel : Z;
  a_do_inv : Z;
  a_pu : Z;
  a_pd : Z;
  a_resv1 : Z;
  a_sl : Z;
  a_ie_en : Z;
  a_ie_inv : Z;
  a_di_inv : Z;
  a_st : Z;
  a_tie_en : Z;
  a_tie_val : Z;
  a_resv0 : Z;
  a_pad_di : Z }.

(** JTAG. *)
Definition jtag_config : list fpioa_assign := [
  Assign (func FUNC_JTAG_TCLK) 0 0 0 0 0 0 0 0 0 1 0 0 1 0 0 0 0;
  Assign (func FUNC_JTAG_TDI) 0 0 0 0 0 0 0 0 0 1 0 0 1 0 0 0 0;
  Assign (func FUNC_JTAG_TMS) 0 0 0 0 0 0 0 0 0 1 0 0 1 0 0 0 0;
  Assign (func FUNC_JTAG_TDO) 15 1 0 0 0 0 0 0 0 0 0 0 0 0 0 0 0].

(** SPI0. *)
Definition spi0_config : list fpioa_assign := [
  Assign (func FUNC_SPI0_D0) 15 1 1 0 0 0 0 0 0 1 1 0 1 0 0 0 0;
  Assign (func FUNC_SPI0_D1) 15 1 1 0 0 0 0 0 0 1 1 0 1 0 0 0 0;
  Assign (func FUNC_SPI0_D2) 15 1 1 0 0 0 0 0 0 1 1 0 1 0 0 0 0;
  Assign (func FUNC_SPI0_D3) 15 1 1 0 0 0 0 0 0 1 1 0 1 0 0 0 0;
  Assign (func FUNC_SPI0_D4) 15 1 1 0 0 0 0 0 0 1 1 0 1 0 0 0 0;
  Assign (func FUNC_SPI0_D5) 15 1 1 0 0 0 0 0 0 1 1 0 1 0 0 0 0;
  Assign (func FUNC_SPI0_D6) 15 1 1 0 0 0 0 0 0 1 1 0 1 0 0 0 0;
  Assign (func FUNC_SPI0_D7) 15 1 1 0 0 0 0 0 0 1 1 0 1 0 0 0 0;
  Assign (func FUNC_SPI0_SS0) 15 1 0 0 0 0 0 0 0 0 0 0 0 0 0 0 0;
  Assign (func FUNC_SPI0_SS1) 15 1 0 0 0 0 0 0 0 0 0 0 0 0 0 0 0;
  Assign (func FUNC_SPI0_SS2) 15 1 0 0 0 0 0 0 0 0 0 0 0 0 0 0 0;
  Assign (func FUNC_SPI0_SS3) 15 1 0 0 0 0 0 0 0 0 0 0 0 0 0 0 0;
  Assign (func FUNC_SPI0_ARB) 0 0 0 0 0 0 0 0 0 1 0 0 1 1 1 0 0;
  Assign (func FUNC_SPI0_SCLK) 15 1 0 0 0 0 0 0 0 0 0 0 0 0 0 0 0].

(** The high speed UART, two reserved functions and two clocks. *)
Definition uarths_config : list fpioa_assign := [
  Assign (func FUNC_UARTHS_RX) 0 0 0 0 0 0 0 0 0 1 0 0 1 0 0 0 0;
  Assign (func FUNC_UARTHS_TX) 15 1 0 0 0 0 0 0 0 0 0 0 0 0 0 0 0;
  Assign (func FUNC_RESV6) 0 0 0 0 0 0 0 0 0 1 0 0 1 0 0 0 0;
  Assign (func FUNC_RESV7) 0 0 0 0 0 0 0 0 0 1 0 0 1 0 0 0 0;
  Assign (func FUNC_CLK_SPI1) 15 1 0 0 0 0 0 0 0 0 0 0 0 0 0 0 0;
  Assign (func FUNC_CLK_I2C1) 15 1 0 0 0 0 0 0 0 0 0 0 0 0 0 0 0].

(** The high speed GPIO pins. *)
Definition gpiohs_config : list fpioa_assign := [
  Assign (func FUNC_GPIOHS0) 15 1 0 0 0 0 0 0 0 1 0 0 1 0 0 0 0;
  Assign (func FUNC_GPIOHS1) 15 1 0 0 0 0 0 0 0 1 0 0 1 0 0 0 0;
  Assign (func FUNC_GPIOHS2) 15 1 0 0 0 0 0 0 0 1 0 0 1 0 0 0 0;
  Assign (func FUNC_GPIOHS3) 15 1 0 0 0 0 0 0 0 1 0 0 1 0 0 0 0;
  Assign (func FUNC_GPIOHS4) 15 1 0 0 0 0 0 0 0 1 0 0 1 0 0 0 0;
  Assign (func FUNC_GPIOHS5) 15 1 0 0 0 0 0 0 0 1 0 0 1 0 0 0 0;
  Assign (func FUNC_GPIOHS6) 15 1 0 0 0 0 0 0 0 1 0 0 1 0 0 0 0;
  Assign (func FUNC_GPIOHS7) 15 1 0 0 0 0 0 0 0 1 0 0 1 0 0 0 0;
  Assign (func FUNC_GPIOHS8) 15 1 0 0 0 0 0 0 0 1 0 0 1 0 0 0 0;
  Assign (func FUNC_GPIOHS9) 15 1 0 0 0 0 0 0 0 1 0 0 1 0 0 0 0;
  Assign (func FUNC_GPIOHS10) 15 1 0 0 0 0 0 0 0 1 0 0 1 0 0 0 0;
  Assign (func FUNC_GPIOHS11) 15 1 0 0 0 0 0 0 0 1 0 0 1 0 0 0 0;
  Assign (func FUNC_GPIOHS12) 15 1 0 0 0 0 0 0 0 1 0 0 1 0 0 0 0;
  Assign (func FUNC_GPIOHS13) 15 1 0 0 0 0 0 0 0 1 0 0 1 0 0 0 0;
  Assign (func FUNC_GPIOHS14) 15 1 0 0 0 0 0 0 0 1 0 0 1 0 0 0 0;
  Assign (func FUNC_GPIOHS15) 15 1 0 0 0 0 0 0 0 1 0 0 1 0 0 0 0;
  Assign (func FUNC_GPIOHS16) 15 1 0 0 0 0 0 0 0 1 0 0 1 0 0 0 0;
  Assign (func FUNC_GPIOHS17) 15 1 0 0 0 0 0 0 0 1 0 0 1 0 0 0 0;
  Assign (func FUNC_GPIOHS18) 15 1 0 0 0 0 0 0 0 1 0 0 1 0 0 0 0;
  Assign (func FUNC_GPIOHS19) 15 1 0 0 0 0 0 0 0 1 0 0 1 0 0 0 0;
  Assign (func FUNC_GPIOHS20) 15 1 0 0 0 0 0 0 0 1 0 0 1 0 0 0 0;
  Assign (func FUNC_GPIOHS21) 15 1 0 0 0 0 0 0 0 1 0 0 1 0 0 0 0;
  Assign (func FUNC_GPIOHS22) 15 1 0 0 0 0 0 0 0 1 0 0 1 0 0 0 0;
  Assign (func FUNC_GPIOHS23) 15 1 0 0 0 0 0 0 0 1 0 0 1 0 0 0 0;
  Assign (func FUNC_GPIOHS24) 15 1 0 0 0 0 0 0 0 1 0 0 1 0 0 0 0;
  Assign (func FUNC_GPIOHS25) 15 1 0 0 0 0 0 0 0 1 0 0 1 0 0 0 0;
  Assign (func FUNC_GPIOHS26) 15 1 0 0 0 0 0 0 0 1 0 0 1 0 0 0 0;
  Assign (func FUNC_GPIOHS27) 15 1 0 0 0 0 0 0 0 1 0 0 1 0 0 0 0;
  Assign (func FUNC_GPIOHS28) 15 1 0 0 0 0 0 0 0 1 0 0 1 0 0 0 0;
  Assign (func FUNC_GPIOHS29) 15 1 0 0 0 0 0 0 0 1 0 0 1 0 0 0 0;
  Assign (func FUNC_GPIOHS30) 15 1 0 0 0 0 0 0 0 1 0 0 1 0 0 0 0;
  Assign (func FUNC_GPIOHS31) 15 1 0 0 0 0 0 0 0 1 0 0 1 0 0 0 0].

(** The GPIO pins. *)
Definition gpio_config : list fpioa_assign := [
  Assign (func FUNC_GPIO0) 15 1 0 0 0 0 0 0 0 1 0 0 1 0 0 0 0;
  Assign (func FUNC_GPIO1) 15 1 0 0 0 0 0 0 0 1 0 0 1 0 0 0 0;
  Assign (func FUNC_GPIO2) 15 1 0 0 0 0 0 0 0 1 0 0 1 0 0 0 0;
  Assign (func FUNC_GPIO3) 15 1 0 0 0 0 0 0 0 1 0 0 1 0 0 0 0;
  Assign (func FUNC_GPIO4) 15 1 0 0 0 0 0 0 0 1 0 0 1 0 0 0 0;
  Assign (func FUNC_GPIO5) 15 1 0 0 0 0 0 0 0 1 0 0 1 0 0 0 0;
  Assign (func FUNC_GPIO6) 15 1 0 0 0 0 0 0 0 1 0 0 1 0 0 0 0;
  Assign (func FUNC_GPIO7) 15 1 0 0 0 0 0 0 0 1 0 0 1 0 0 0 0].

(** The data lines of UART1, UART2 and UART3. *)
Definition uart_config : list fpioa_assign := [
  Assign (func FUNC_UART1_RX) 0 0 0 0 0 0 0 0 0 1 0 0 1 0 0 0 0;
  Assign (func FUNC_UART1_TX) 15 1 0 0 0 0 0 0 0 0 0 0 0 0 0 0 0;
  Assign (func FUNC_UART2_RX) 0 0 0 0 0 0 0 0 0 1 0 0 1 0 0 0 0;
  Assign (func FUNC_UART2_TX) 15 1 0 0 0 0 0 0 0 0 0 0 0 0 0 0 0;
  Assign (func FUNC_UART3_RX) 0 0 0 0 0 0 0 0 0 1 0 0 1 0 0 0 0;
  Assign (func FUNC_UART3_TX) 15 1 0 0 0 0 0 0 0 0 0 0 0 0 0 0 0].

(** SPI1. *)
Definition spi1_config : list fpioa_assign := [
  Assign (func FUNC_SPI1_D0) 15 1 1 0 0 0 0 0 0 1 1 0 1 0 0 0 0;
  Assign (func FUNC_SPI1_D1) 15 1 1 0 0 0 0 0 0 1 1 0 1 0 0 0 0;
  Assign (func FUNC_SPI1_D2) 15 1 1 0 0 0 0 0 0 1 1 0 1 0 0 0 0;
  Assign (func FUNC_SPI1_D3) 15 1 1 0 0 0 0 0 0 1 1 0 1 0 0 0 0;
  Assign (func FUNC_SPI1_D4) 15 1 1 0 0 0 0 0 0 1 1 0 1 0 0 0 0;
  Assign (func FUNC_SPI1_D5) 15 1 1 0 0 0 0 0 0 1 1 0 1 0 0 0 0;
  Assign (func FUNC_SPI1_D6) 15 1 1 0 0 0 0 0 0 1 1 0 1 0 0 0 0;
  Assign (func FUNC_SPI1_D7) 15 1 1 0 0 0 0 0 0 1 1 0 1 0 0 0 0;
  Assign (func FUNC_SPI1_SS0) 15 1 0 0 0 0 0 0 0 0 0 0 0 0 0 0 0;
  Assign (func FUNC_SPI1_SS1) 15 1 0 0 0 0 0 0 0 0 0 0 0 0 0 0 0;
  Assign (func FUNC_SPI1_SS2) 15 1 0 0 0 0 0 0 0 0 0 0 0 0 0 0 0;
  Assign (func FUNC_SPI1_SS3) 15 1 0 0 0 0 0 0 0 0 0 0 0 0 0 0 0;
  Assign (func FUNC_SPI1_ARB) 0 0 0 0 0 0 0 0 0 1 0 0 1 1 1 0 0;
  Assign (func FUNC_SPI1_SCLK) 15 1 0 0 0 0 0 0 0 0 0 0 0 0 0 0 0].

(** The SPI slave. *)
Definition spi_slave_config : list fpioa_assign := [
  Assign (func FUNC_SPI_SLAVE_D0) 15 1 1 0 0 0 0 0 0 1 1 0 1 0 0 0 0;
  Assign (func FUNC_SPI_SLAVE_SS) 0 0 0 0 0 0 0 0 0 1 0 0 1 0 0 0 0;
  Assign (func FUNC_SPI_SLAVE_SCLK) 0 0 0 0 0 0 0 0 0 1 0 0 1 0 0 0 0].

(** I2S0. *)
Definition i2s0_config : list fpioa_assign := [
  Assign (func FUNC_I2S0_MCLK) 15 1 0 0 0 0 0 0 0 0 0 0 0 0 0 0 0;
  Assign (func FUNC_I2S0_SCLK) 15 1 0 0 0 0 0 0 0 0 0 0 0 0 0 0 0;
  Assign (func FUNC_I2S0_WS) 15 1 0 0 0 0 0 0 0 0 0 0 0 0 0 0 0;
  Assign (func FUNC_I2S0_IN_D0) 0 0 0 0 0 0 0 0 0 1 0 0 1 0 0 0 0;
  Assign (func FUNC_I2S0_IN_D1) 0 0 0 0 0 0 0 0 0 1 0 0 1 0 0 0 0;
  Assign (func FUNC_I2S0_IN_D2) 0 0 0 0 0 0 0 0 0 1 0 0 1 0 0 0 0;
  Assign (func FUNC_I2S0_IN_D3) 0 0 0 0 0 0 0 0 0 1 0 0 1 0 0 0 0;
  Assign (func FUNC_I2S0_OUT_D0) 15 1 0 0 0 0 0 0 0 0 0 0 0 0 0 0 0;
  Assign (func FUNC_I2S0_OUT_D1) 15 1 0 0 0 0 0 0 0 0 0 0 0 0 0 0 0;
  Assign (func FUNC_I2S0_OUT_D2) 15 1 0 0 0 0 0 0 0 0 0 0 0 0 0 0 0;
  Assign (func FUNC_I2S0_OUT_D3) 15 1 0 0 0 0 0 0 0 0 0 0 0 0 0 0 0].

(** I2S1. *)
Definition i2s1_config : list fpioa_assign := [
  Assign (func FUNC_I2S1_MCLK) 15 1 0 0 0 0 0 0 0 0 0 0 0 0 0 0 0;
  Assign (func FUNC_I2S1_SCLK) 15 1 0 0 0 0 0 0 0 0 0 0 0 0 0 0 0;
  Assign (func FUNC_I2S1_WS) 15 1 0 0 0 0 0 0 0 0 0 0 0 0 0 0 0;
  Assign (func FUNC_I2S1_IN_D0) 0 0 0 0 0 0 0 0 0 1 0 0 1 0 0 0 0;
  Assign (func FUNC_I2S1_IN_D1) 0 0 0 0 0 0 0 0 0 1 0 0 1 0 0 0 0;
  Assign (func FUNC_I2S1_IN_D2) 0 0 0 0 0 0 0 0 0 1 0 0 1 0 0 0 0;
  Assign (func FUNC_I2S1_IN_D3) 0 0 0 0 0 0 0 0 0 1 0 0 1 0 0 0 0;
  Assign (func FUNC_I2S1_OUT_D0) 15 1 0 0 0 0 0 0 0 0 0 0 0 0 0 0 0;
  Assign (func FUNC_I2S1_OUT_D1) 15 1 0 0 0 0 0 0 0 0 0 0 0 0 0 0 0;
  Assign (func FUNC_I2S1_OUT_D2) 15 1 0 0 0 0 0 0 0 0 0 0 0 0 0 0 0;
  Assign (func FUNC_I2S1_OUT_D3) 15 1 0 0 0 0 0 0 0 0 0 0 0 0 0 0 0].

(** I2S2. *)
Definition i2s2_config : list fpioa_assign := [
  Assign (func FUNC_I2S2_MCLK) 15 1 0 0 0 0 0 0 0 0 0 0 0 0 0 0 0;
  Assign (func FUNC_I2S2_SCLK) 15 1 0 0 0 0 0 0 0 0 0 0 0 0 0 0 0;
  Assign (func FUNC_I2S2_WS) 15 1 0 0 0 0 0 0 0 0 0 0 0 0 0 0 0;
  Assign (func FUNC_I2S2_IN_D0) 0 0 0 0 0 0 0 0 0 1 0 0 1 0 0 0 0;
  Assign (func FUNC_I2S2_IN_D1) 0 0 0 0 0 0 0 0 0 1 0 0 1 0 0 0 0;
  Assign (func FUNC_I2S2_IN_D2) 0 0 0 0 0 0 0 0 0 1 0 0 1 0 0 0 0;
  Assign (func FUNC_I2S2_IN_D3) 0 0 0 0 0 0 0 0 0 1 0 0 1 0 0 0 0;
  Assign (func FUNC_I2S2_OUT_D0) 15 1 0 0 0 0 0 0 0 0 0 0 0 0 0 0 0;
  Assign (func FUNC_I2S2_OUT_D1) 15 1 0 0 0 0 0 0 0 0 0 0 0 0 0 0 0;
  Assign (func FUNC_I2S2_OUT_D2) 15 1 0 0 0 0 0 0 0 0 0 0 0 0 0 0 0;
  Assign (func FUNC_I2S2_OUT_D3) 15 1 0 0 0 0 0 0 0 0 0 0 0 0 0 0 0].

(** Reserved; a pad that loses its function gets the first. *)
Definition resv_config : list fpioa_assign := [
  Assign (func FUNC_RESV0) 0 0 0 0 0 0 0 0 0 0 0 0 0 0 0 0 0;
  Assign (func FUNC_RESV1) 0 0 0 0 0 0 0 0 0 0 0 0 0 0 0 0 0;
  Assign (func FUNC_RESV2) 0 0 0 0 0 0 0 0 0 0 0 0 0 0 0 0 0;
  Assign (func FUNC_RESV3) 0 0 0 0 0 0 0 0 0 0 0 0 0 0 0 0 0;
  Assign (func FUNC_RESV4) 0 0 0 0 0 0 0 0 0 0 0 0 0 0 0 0 0;
  Assign (func FUNC_RESV5) 0 0 0 0 0 0 0 0 0 0 0 0 0 0 0 0 0].

(** I2C0, I2C1 and I2C2. *)
Definition i2c_config : list fpioa_assign := [
  Assign (func FUNC_I2C0_SCLK) 0 1 0 0 0 1 0 0 1 1 0 0 1 0 0 0 0;
  Assign (func FUNC_I2C0_SDA) 0 1 0 0 0 1 0 0 1 1 0 0 1 0 0 0 0;
  Assign (func FUNC_I2C1_SCLK) 0 1 0 0 0 1 0 0 1 1 0 0 1 0 0 0 0;
  Assign (func FUNC_I2C1_SDA) 0 1 0 0 0 1 0 0 1 1 0 0 1 0 0 0 0;
  Assign (func FUNC_I2C2_SCLK) 0 1 0 0 0 1 0 0 1 1 0 0 1 0 0 0 0;
  Assign (func FUNC_I2C2_SDA) 0 1 0 0 0 1 0 0 1 1 0 0 1 0 0 0 0].

(** The camera. *)
Definition cmos_config : list fpioa_assign := [
  Assign (func FUNC_CMOS_XCLK) 15 1 0 0 0 0 0 0 0 0 0 0 0 0 0 0 0;
  Assign (func FUNC_CMOS_RST) 15 1 0 0 0 0 0 0 0 0 0 0 0 0 0 0 0;
  Assign (func FUNC_CMOS_PWDN) 15 1 0 0 0 0 0 0 0 0 0 0 0 0 0 0 0;
  Assign (func FUNC_CMOS_VSYNC) 0 0 0 0 0 0 0 0 0 1 0 0 1 0 0 0 0;
  Assign (func FUNC_CMOS_HREF) 0 0 0 0 0 0 0 0 0 1 0 0 1 0 0 0 0;
  Assign (func FUNC_CMOS_PCLK) 0 0 0 0 0 0 0 0 0 1 0 0 1 0 0 0 0;
  Assign (func FUNC_CMOS_D0) 0 0 0 0 0 0 0 0 0 1 0 0 1 0 0 0 0;
  Assign (func FUNC_CMOS_D1) 0 0 0 0 0 0 0 0 0 1 0 0 1 0 0 0 0;
  Assign (func FUNC_CMOS_D2) 0 0 0 0 0 0 0 0 0 1 0 0 1 0 0 0 0;
  Assign (func FUNC_CMOS_D3) 0 0 0 0 0 0 0 0 0 1 0 0 1 0 0 0 0;
  Assign (func FUNC_CMOS_D4) 0 0 0 0 0 0 0 0 0 1 0 0 1 0 0 0 0;
  Assign (func FUNC_CMOS_D5) 0 0 0 0 0 0 0 0 0 1 0 0 1 0 0 0 0;
  Assign (func FUNC_CMOS_D6) 0 0 0 0 0 0 0 0 0 1 0 0 1 0 0 0 0;
  Assign (func FUNC_CMOS_D7) 0 0 0 0 0 0 0 0 0 1 0 0 1 0 0 0 0].

(** The camera bus. *)
Definition sccb_config : list fpioa_assign := [
  Assign (func FUNC_SCCB_SCLK) 0 1 1 0 0 1 0 0 1 1 0 0 1 0 0 0 0;
  Assign (func FUNC_SCCB_SDA) 0 1 1 0 0 1 0 0 1 1 0 0 1 0 0 0 0].

(** The modem lines of UART1. *)
Definition uart1_config : list fpioa_assign := [
  Assign (func FUNC_UART1_CTS) 0 0 0 0 0 0 0 0 0 1 0 0 1 0 0 0 0;
  Assign (func FUNC_UART1_DSR) 0 0 0 0 0 0 0 0 0 1 0 0 1 0 0 0 0;
  Assign (func FUNC_UART1_DCD) 0 0 0 0 0 0 0 0 0 1 0 0 1 0 0 0 0;
  Assign (func FUNC_UART1_RI) 0 0 0 0 0 0 0 0 0 1 0 0 1 0 0 0 0;
  Assign (func FUNC_UART1_SIR_IN) 0 0 0 0 0 0 0 0 0 1 0 0 1 0 0 0 0;
  Assign (func FUNC_UART1_DTR) 15 1 0 0 0 0 0 0 0 0 0 0 0 0 0 0 0;
  Assign (func FUNC_UART1_RTS) 15 1 0 0 0 0 0 0 0 0 0 0 0 0 0 0 0;
  Assign (func FUNC_UART1_OUT2) 15 1 0 0 0 0 0 0 0 0 0 0 0 0 0 0 0;
  Assign (func FUNC_UART1_OUT1) 15 1 0 0 0 0 0 0 0 0 0 0 0 0 0 0 0;
  Assign (func FUNC_UART1_SIR_OUT) 15 1 0 0 0 0 0 0 0 0 0 0 0 0 0 0 0;
  Assign (func FUNC_UART1_BAUD) 15 1 0 0 0 0 0 0 0 0 0 0 0 0 0 0 0;
  Assign (func FUNC_UART1_RE) 15 1 0 0 0 0 0 0 0 0 0 0 0 0 0 0 0;
  Assign (func FUNC_UART1_DE) 15 1 0 0 0 0 0 0 0 0 0 0 0 0 0 0 0;
  Assign (func FUNC_UART1_RS485_EN) 15 1 0 0 0 0 0 0 0 0 0 0 0 0 0 0 0].

(** The modem lines of UART2. *)
Definition uart2_config : list fpioa_assign := [
  Assign (func FUNC_UART2_CTS) 0 0 0 0 0 0 0 0 0 1 0 0 1 0 0 0 0;
  Assign (func FUNC_UART2_DSR) 0 0 0 0 0 0 0 0 0 1 0 0 1 0 0 0 0;
  Assign (func FUNC_UART2_DCD) 0 0 0 0 0 0 0 0 0 1 0 0 1 0 0 0 0;
  Assign (func FUNC_UART2_RI) 0 0 0 0 0 0 0 0 0 1 0 0 1 0 0 0 0;
  Assign (func FUNC_UART2_SIR_IN) 0 0 0 0 0 0 0 0 0 1 0 0 1 0 0 0 0;
  Assign (func FUNC_UART2_DTR) 15 1 0 0 0 0 0 0 0 0 0 0 0 0 0 0 0;
  Assign (func FUNC_UART2_RTS) 15 1 0 0 0 0 0 0 0 0 0 0 0 0 0 0 0;
  Assign (func FUNC_UART2_OUT2) 15 1 0 0 0 0 0 0 0 0 0 0 0 0 0 0 0;
  Assign (func FUNC_UART2_OUT1) 15 1 0 0 0 0 0 0 0 0 0 0 0 0 0 0 0;
  Assign (func FUNC_UART2_SIR_OUT) 15 1 0 0 0 0 0 0 0 0 0 0 0 0 0 0 0;
  Assign (func FUNC_UART2_BAUD) 15 1 0 0 0 0 0 0 0 0 0 0 0 0 0 0 0;
  Assign (func FUNC_UART2_RE) 15 1 0 0 0 0 0 0 0 0 0 0 0 0 0 0 0;
  Assign (func FUNC_UART2_DE) 15 1 0 0 0 0 0 0 0 0 0 0 0 0 0 0 0;
  Assign (func FUNC_UART2_RS485_EN) 15 1 0 0 0 0 0 0 0 0 0 0 0 0 0 0 0].

(** The modem lines of UART3. *)
Definition uart3_config : list fpioa_assign := [
  Assign (func FUNC_UART3_CTS) 0 0 0 0 0 0 0 0 0 1 0 0 1 0 0 0 0;
  Assign (func FUNC_UART3_DSR) 0 0 0 0 0 0 0 0 0 1 0 0 1 0 0 0 0;
  Assign (func FUNC_UART3_DCD) 0 0 0 0 0 0 0 0 0 1 0 0 1 0 0 0 0;
  Assign (func FUNC_UART3_RI) 0 0 0 0 0 0 0 0 0 1 0 0 1 0 0 0 0;
  Assign (func FUNC_UART3_SIR_IN) 0 0 0 0 0 0 0 0 0 1 0 0 1 0 0 0 0;
  Assign (func FUNC_UART3_DTR) 15 1 0 0 0 0 0 0 0 0 0 0 0 0 0 0 0;
  Assign (func FUNC_UART3_RTS) 15 1 0 0 0 0 0 0 0 0 0 0 0 0 0 0 0;
  Assign (func FUNC_UART3_OUT2) 15 1 0 0 0 0 0 0 0 0 0 0 0 0 0 0 0;
  Assign (func FUNC_UART3_OUT1) 15 1 0 0 0 0 0 0 0 0 0 0 0 0 0 0 0;
  Assign (func FUNC_UART3_SIR_OUT) 15 1 0 0 0 0 0 0 0 0 0 0 0 0 0 0 0;
  Assign (func FUNC_UART3_BAUD) 15 1 0 0 0 0 0 0 0 0 0 0 0 0 0 0 0;
  Assign (func FUNC_UART3_RE) 15 1 0 0 0 0 0 0 0 0 0 0 0 0 0 0 0;
  Assign (func FUNC_UART3_DE) 15 1 0 0 0 0 0 0 0 0 0 0 0 0 0 0 0;
  Assign (func FUNC_UART3_RS485_EN) 15 1 0 0 0 0 0 0 0 0 0 0 0 0 0 0 0].

(** TIMER0. *)
Definition timer0_config : list fpioa_assign := [
  Assign (func FUNC_TIMER0_TOGGLE1) 15 1 0 0 0 0 0 0 0 0 0 0 0 0 0 0 0;
  Assign (func FUNC_TIMER0_TOGGLE2) 15 1 0 0 0 0 0 0 0 0 0 0 0 0 0 0 0;
  Assign (func FUNC_TIMER0_TOGGLE3) 15 1 0 0 0 0 0 0 0 0 0 0 0 0 0 0 0;
  Assign (func FUNC_TIMER0_TOGGLE4) 15 1 0 0 0 0 0 0 0 0 0 0 0 0 0 0 0].

(** TIMER1. *)
Definition timer1_config : list fpioa_assign := [
  Assign (func FUNC_TIMER1_TOGGLE1) 15 1 0 0 0 0 0 0 0 0 0 0 0 0 0 0 0;
  Assign (func FUNC_TIMER1_TOGGLE2) 15 1 0 0 0 0 0 0 0 0 0 0 0 0 0 0 0;
  Assign (func FUNC_TIMER1_TOGGLE3) 15 1 0 0 0 0 0 0 0 0 0 0 0 0 0 0 0;
  Assign (func FUNC_TIMER1_TOGGLE4) 15 1 0 0 0 0 0 0 0 0 0 0 0 0 0 0 0].

(** TIMER2. *)
Definition timer2_config : list fpioa_assign := [
  Assign (func FUNC_TIMER2_TOGGLE1) 15 1 0 0 0 0 0 0 0 0 0 0 0 0 0 0 0;
  Assign (func FUNC_TIMER2_TOGGLE2) 15 1 0 0 0 0 0 0 0 0 0 0 0 0 0 0 0;
  Assign (func FUNC_TIMER2_TOGGLE3) 15 1 0 0 0 0 0 0 0 0 0 0 0 0 0 0 0;
  Assign (func FUNC_TIMER2_TOGGLE4) 15 1 0 0 0 0 0 0 0 0 0 0 0 0 0 0 0].

(** Two clocks. *)
Definition clk_config : list fpioa_assign := [
  Assign (func FUNC_CLK_SPI2) 15 1 0 0 0 0 0 0 0 0 0 0 0 0 0 0 0;
  Assign (func FUNC_CLK_I2C2) 15 1 0 0 0 0 0 0 0 0 0 0 0 0 0 0 0].

(** Internal functions. *)
Definition internal_config : list fpioa_assign := [
  Assign (func FUNC_INTERNAL0) 15 1 0 0 0 0 0 0 0 0 0 0 0 0 0 0 0;
  Assign (func FUNC_INTERNAL1) 15 1 0 0 0 0 0 0 0 0 0 0 0 0 0 0 0;
  Assign (func FUNC_INTERNAL2) 15 1 0 0 0 0 0 0 0 0 0 0 0 0 0 0 0;
  Assign (func FUNC_INTERNAL3) 15 1 0 0 0 0 0 0 0 0 0 0 0 0 0 0 0;
  Assign (func FUNC_INTERNAL4) 15 1 0 0 0 0 0 0 0 0 0 0 0 0 0 0 0;
  Assign (func FUNC_INTERNAL5) 15 1 0 0 0 0 0 0 0 0 0 0 0 0 0 0 0;
  Assign (func FUNC_INTERNAL6) 15 1 0 0 0 0 0 0 0 0 0 0 0 0 0 0 0;
  Assign (func FUNC_INTERNAL7) 15 1 0 0 0 0 0 0 0 0 0 0 0 0 0 0 0;
  Assign (func FUNC_INTERNAL8) 15 1 0 0 0 0 0 0 0 0 0 0 0 0 0 0 0;
  Assign (func FUNC_INTERNAL9) 0 0 0 0 0 0 0 0 0 1 0 0 1 0 0 0 0;
  Assign (func FUNC_INTERNAL10) 0 0 0 0 0 0 0 0 0 1 0 0 1 0 0 0 0;
  Assign (func FUNC_INTERNAL11) 0 0 0 0 0 0 0 0 0 1 0 0 1 0 0 0 0;
  Assign (func FUNC_INTERNAL12) 0 0 0 0 0 0 0 0 0 1 0 0 1 0 0 0 0;
  Assign (func FUNC_INTERNAL13) 0 0 0 0 0 1 0 0 0 1 0 0 1 0 0 0 0;
  Assign (func FUNC_INTERNAL14) 15 1 0 0 0 1 0 0 1 1 0 0 1 0 0 0 0;
  Assign (func FUNC_INTERNAL15) 0 0 0 0 0 0 0 0 0 1 0 0 1 0 0 0 0;
  Assign (func FUNC_INTERNAL16) 0 0 0 0 0 0 0 0 0 1 0 0 1 0 0 0 0;
  Assign (func FUNC_INTERNAL17) 0 0 0 0 0 0 0 0 0 1 0 0 1 0 0 0 0;
  Assign (func FUNC_CONSTANT) 0 0 0 0 0 0 0 0 0 0 0 0 0 0 0 0 0;
  Assign (func FUNC_INTERNAL18) 0 0 0 0 0 0 0 0 0 1 0 0 1 0 0 0 0].

(** Debug outputs. *)
Definition debug_config : list fpioa_assign := [
  Assign (func FUNC_DEBUG0) 15 1 0 0 0 0 0 0 0 0 0 0 0 0 0 0 0;
  Assign (func FUNC_DEBUG1) 15 1 0 0 0 0 0 0 0 0 0 0 0 0 0 0 0;
  Assign (func FUNC_DEBUG2) 15 1 0 0 0 0 0 0 0 0 0 0 0 0 0 0 0;
  Assign (func FUNC_DEBUG3) 15 1 0 0 0 0 0 0 0 0 0 0 0 0 0 0 0;
  Assign (func FUNC_DEBUG4) 15 1 0 0 0 0 0 0 0 0 0 0 0 0 0 0 0;
  Assign (func FUNC_DEBUG5) 15 1 0 0 0 0 0 0 0 0 0 0 0 0 0 0 0;
  Assign (func FUNC_DEBUG6) 15 1 0 0 0 0 0 0 0 0 0 0 0 0 0 0 0;
  Assign (func FUNC_DEBUG7) 15 1 0 0 0 0 0 0 0 0 0 0 0 0 0 0 0;
  Assign (func FUNC_DEBUG8) 15 1 0 0 0 0 0 0 0 0 0 0 0 0 0 0 0;
  Assign (func FUNC_DEBUG9) 15 1 0 0 0 0 0 0 0 0 0 0 0 0 0 0 0;
  Assign (func FUNC_DEBUG10) 15 1 0 0 0 0 0 0 0 0 0 0 0 0 0 0 0;
  Assign (func FUNC_DEBUG11) 15 1 0 0 0 0 0 0 0 0 0 0 0 0 0 0 0;
  Assign (func FUNC_DEBUG12) 15 1 0 0 0 0 0 0 0 0 0 0 0 0 0 0 0;
  Assign (func FUNC_DEBUG13) 15 1 0 0 0 0 0 0 0 0 0 0 0 0 0 0 0;
  Assign (func FUNC_DEBUG14) 15 1 0 0 0 0 0 0 0 0 0 0 0 0 0 0 0;
  Assign (func FUNC_DEBUG15) 15 1 0 0 0 0 0 0 0 0 0 0 0 0 0 0 0;
  Assign (func FUNC_DEBUG16) 15 1 0 0 0 0 0 0 0 0 0 0 0 0 0 0 0;
  Assign (func FUNC_DEBUG17) 15 1 0 0 0 0 0 0 0 0 0 0 0 0 0 0 0;
  Assign (func FUNC_DEBUG18) 15 1 0 0 0 0 0 0 0 0 0 0 0 0 0 0 0;
  Assign (func FUNC_DEBUG19) 15 1 0 0 0 0 0 0 0 0 0 0 0 0 0 0 0;
  Assign (func FUNC_DEBUG20) 15 1 0 0 0 0 0 0 0 0 0 0 0 0 0 0 0;
  Assign (func FUNC_DEBUG21) 15 1 0 0 0 0 0 0 0 0 0 0 0 0 0 0 0;
  Assign (func FUNC_DEBUG22) 15 1 0 0 0 0 0 0 0 0 0 0 0 0 0 0 0;
  Assign (func FUNC_DEBUG23) 15 1 0 0 0 0 0 0 0 0 0 0 0 0 0 0 0;
  Assign (func FUNC_DEBUG24) 15 1 0 0 0 0 0 0 0 0 0 0 0 0 0 0 0;
  Assign (func FUNC_DEBUG25) 15 1 0 0 0 0 0 0 0 0 0 0 0 0 0 0 0;
  Assign (func FUNC_DEBUG26) 15 1 0 0 0 0 0 0 0 0 0 0 0 0 0 0 0;
  Assign (func FUNC_DEBUG27) 15 1 0 0 0 0 0 0 0 0 0 0 0 0 0 0 0;
  Assign (func FUNC_DEBUG28) 15 1 0 0 0 0 0 0 0 0 0 0 0 0 0 0 0;
  Assign (func FUNC_DEBUG29) 15 1 0 0 0 0 0 0 0 0 0 0 0 0 0 0 0;
  Assign (func FUNC_DEBUG30) 15 1 0 0 0 0 0 0 0 0 0 0 0 0 0 0 0;
  Assign (func FUNC_DEBUG31) 15 1 0 0 0 0 0 0 0 0 0 0 0 0 0 0 0].

Definition function_config : list fpioa_assign :=
  jtag_config ++ spi0_config ++ uarths_config ++ gpiohs_config ++ gpio_config ++ uart_config ++ spi1_config ++ spi_slave_config ++
  i2s0_config ++ i2s1_config ++ i2s2_config ++ resv_config ++ i2c_config ++ cmos_config ++ sccb_config ++ uart1_config ++
  uart2_config ++ uart3_config ++ timer0_config ++ timer1_config ++ timer2_config ++ clk_config ++ internal_config ++ debug_config.

(** The functions in the order of the enumeration. *)
Definition functions : list fpioa_function := [
  FUNC_JTAG_TCLK; FUNC_JTAG_TDI; FUNC_JTAG_TMS; FUNC_JTAG_TDO; FUNC_SPI0_D0; FUNC_SPI0_D1;
  FUNC_SPI0_D2; FUNC_SPI0_D3; FUNC_SPI0_D4; FUNC_SPI0_D5; FUNC_SPI0_D6; FUNC_SPI0_D7;
  FUNC_SPI0_SS0; FUNC_SPI0_SS1; FUNC_SPI0_SS2; FUNC_SPI0_SS3; FUNC_SPI0_ARB; FUNC_SPI0_SCLK;
  FUNC_UARTHS_RX; FUNC_UARTHS_TX; FUNC_RESV6; FUNC_RESV7; FUNC_CLK_SPI1; FUNC_CLK_I2C1;
  FUNC_GPIOHS0; FUNC_GPIOHS1; FUNC_GPIOHS2; FUNC_GPIOHS3; FUNC_GPIOHS4; FUNC_GPIOHS5; FUNC_GPIOHS6;
  FUNC_GPIOHS7; FUNC_GPIOHS8; FUNC_GPIOHS9; FUNC_GPIOHS10; FUNC_GPIOHS11; FUNC_GPIOHS12;
  FUNC_GPIOHS13; FUNC_GPIOHS14; FUNC_GPIOHS15; FUNC_GPIOHS16; FUNC_GPIOHS17; FUNC_GPIOHS18;
  FUNC_GPIOHS19; FUNC_GPIOHS20; FUNC_GPIOHS21; FUNC_GPIOHS22; FUNC_GPIOHS23; FUNC_GPIOHS24;
  FUNC_GPIOHS25; FUNC_GPIOHS26; FUNC_GPIOHS27; FUNC_GPIOHS28; FUNC_GPIOHS29; FUNC_GPIOHS30;
  FUNC_GPIOHS31; FUNC_GPIO0; FUNC_GPIO1; FUNC_GPIO2; FUNC_GPIO3; FUNC_GPIO4; FUNC_GPIO5;
  FUNC_GPIO6; FUNC_GPIO7; FUNC_UART1_RX; FUNC_UART1_TX; FUNC_UART2_RX; FUNC_UART2_TX;
  FUNC_UART3_RX; FUNC_UART3_TX; FUNC_SPI1_D0; FUNC_SPI1_D1; FUNC_SPI1_D2; FUNC_SPI1_D3;
  FUNC_SPI1_D4; FUNC_SPI1_D5; FUNC_SPI1_D6; FUNC_SPI1_D7; FUNC_SPI1_SS0; FUNC_SPI1_SS1;
  FUNC_SPI1_SS2; FUNC_SPI1_SS3; FUNC_SPI1_ARB; FUNC_SPI1_SCLK; FUNC_SPI_SLAVE_D0;
  FUNC_SPI_SLAVE_SS; FUNC_SPI_SLAVE_SCLK; FUNC_I2S0_MCLK; FUNC_I2S0_SCLK; FUNC_I2S0_WS;
  FUNC_I2S0_IN_D0; FUNC_I2S0_IN_D1; FUNC_I2S0_IN_D2; FUNC_I2S0_IN_D3; FUNC_I2S0_OUT_D0;
  FUNC_I2S0_OUT_D1; FUNC_I2S0_OUT_D2; FUNC_I2S0_OUT_D3; FUNC_I2S1_MCLK; FUNC_I2S1_SCLK;
  FUNC_I2S1_WS; FUNC_I2S1_IN_D0; FUNC_I2S1_IN_D1; FUNC_I2S1_IN_D2; FUNC_I2S1_IN_D3;
  FUNC_I2S1_OUT_D0; FUNC_I2S1_OUT_D1; FUNC_I2S1_OUT_D2; FUNC_I2S1_OUT_D3; FUNC_I2S2_MCLK;
  FUNC_I2S2_SCLK; FUNC_I2S2_WS; FUNC_I2S2_IN_D0; FUNC_I2S2_IN_D1; FUNC_I2S2_IN_D2; FUNC_I2S2_IN_D3;
  FUNC_I2S2_OUT_D0; FUNC_I2S2_OUT_D1; FUNC_I2S2_OUT_D2; FUNC_I2S2_OUT_D3; FUNC_RESV0; FUNC_RESV1;
  FUNC_RESV2; FUNC_RESV3; FUNC_RESV4; FUNC_RESV5; FUNC_I2C0_SCLK; FUNC_I2C0_SDA; FUNC_I2C1_SCLK;
  FUNC_I2C1_SDA; FUNC_I2C2_SCLK; FUNC_I2C2_SDA; FUNC_CMOS_XCLK; FUNC_CMOS_RST; FUNC_CMOS_PWDN;
  FUNC_CMOS_VSYNC; FUNC_CMOS_HREF; FUNC_CMOS_PCLK; FUNC_CMOS_D0; FUNC_CMOS_D1; FUNC_CMOS_D2;
  FUNC_CMOS_D3; FUNC_CMOS_D4; FUNC_CMOS_D5; FUNC_CMOS_D6; FUNC_CMOS_D7; FUNC_SCCB_SCLK;
  FUNC_SCCB_SDA; FUNC_UART1_CTS; FUNC_UART1_DSR; FUNC_UART1_DCD; FUNC_UART1_RI; FUNC_UART1_SIR_IN;
  FUNC_UART1_DTR; FUNC_UART1_RTS; FUNC_UART1_OUT2; FUNC_UART1_OUT1; FUNC_UART1_SIR_OUT;
  FUNC_UART1_BAUD; FUNC_UART1_RE; FUNC_UART1_DE; FUNC_UART1_RS485_EN; FUNC_UART2_CTS;
  FUNC_UART2_DSR; FUNC_UART2_DCD; FUNC_UART2_RI; FUNC_UART2_SIR_IN; FUNC_UART2_DTR; FUNC_UART2_RTS;
  FUNC_UART2_OUT2; FUNC_UART2_OUT1; FUNC_UART2_SIR_OUT; FUNC_UART2_BAUD; FUNC_UART2_RE;
  FUNC_UART2_DE; FUNC_UART2_RS485_EN; FUNC_UART3_CTS; FUNC_UART3_DSR; FUNC_UART3_DCD;
  FUNC_UART3_RI; FUNC_UART3_SIR_IN; FUNC_UART3_DTR; FUNC_UART3_RTS; FUNC_UART3_OUT2;
  FUNC_UART3_OUT1; FUNC_UART3_SIR_OUT; FUNC_UART3_BAUD; FUNC_UART3_RE; FUNC_UART3_DE;
  FUNC_UART3_RS485_EN; FUNC_TIMER0_TOGGLE1; FUNC_TIMER0_TOGGLE2; FUNC_TIMER0_TOGGLE3;
  FUNC_TIMER0_TOGGLE4; FUNC_TIMER1_TOGGLE1; FUNC_TIMER1_TOGGLE2; FUNC_TIMER1_TOGGLE3;
  FUNC_TIMER1_TOGGLE4; FUNC_TIMER2_TOGGLE1; FUNC_TIMER2_TOGGLE2; FUNC_TIMER2_TOGGLE3;
  FUNC_TIMER2_TOGGLE4; FUNC_CLK_SPI2; FUNC_CLK_I2C2; FUNC_INTERNAL0; FUNC_INTERNAL1;
  FUNC_INTERNAL2; FUNC_INTERNAL3; FUNC_INTERNAL4; FUNC_INTERNAL5; FUNC_INTERNAL6; FUNC_INTERNAL7;
  FUNC_INTERNAL8; FUNC_INTERNAL9; FUNC_INTERNAL10; FUNC_INTERNAL11; FUNC_INTERNAL12;
  FUNC_INTERNAL13; FUNC_INTERNAL14; FUNC_INTERNAL15; FUNC_INTERNAL16; FUNC_INTERNAL17;
  FUNC_CONSTANT; FUNC_INTERNAL18; FUNC_DEBUG0; FUNC_DEBUG1; FUNC_DEBUG2; FUNC_DEBUG3; FUNC_DEBUG4;
  FUNC_DEBUG5; FUNC_DEBUG6; FUNC_DEBUG7; FUNC_DEBUG8; FUNC_DEBUG9; FUNC_DEBUG10; FUNC_DEBUG11;
  FUNC_DEBUG12; FUNC_DEBUG13; FUNC_DEBUG14; FUNC_DEBUG15; FUNC_DEBUG16; FUNC_DEBUG17; FUNC_DEBUG18;
  FUNC_DEBUG19; FUNC_DEBUG20; FUNC_DEBUG21; FUNC_DEBUG22; FUNC_DEBUG23; FUNC_DEBUG24; FUNC_DEBUG25;
  FUNC_DEBUG26; FUNC_DEBUG27; FUNC_DEBUG28; FUNC_DEBUG29; FUNC_DEBUG30; FUNC_DEBUG31].

(** Every function is in the list, at the place of its number, and its entry in the
    table selects that function: the row of the table is the function's own. *)
Lemma functions_at f : functions !! Z.to_nat (func f) = Some f.
Proof. by destruct f. Qed.
Lemma function_config_row f :
  ∃ a, function_config !! Z.to_nat (func f) = Some a ∧ a_ch_sel a = func f.
Proof. destruct f; eexists; split; reflexivity. Qed.
Lemma function_config_length : length function_config = 256%nat.
Proof. reflexivity. Qed.
Lemma func_range f : 0 ≤ func f < FUNC_MAX.
Proof. destruct f; vm_compute; split; congruence. Qed.
Lemma func_inj f g : func f = func g → f = g.
Proof. intros E. pose proof (functions_at f) as Hf. rewrite E, functions_at in Hf. congruence. Qed.
