(* ===== verification/Pins.v ===== *)
(** * Pads and pins of the board (kernel/fpioa.c, kernel/gpiohs.c, kernel/utils.c)

    Which function each pad carries, and the pins of the high speed GPIO block with
    which the SD card is selected.  A register keeps what is written to it; the
    pads' [pad_di] and the pins' input values, which the hardware writes, are not
    read by this code.  [func] and [function_config] are in FpioaTable.v. *)
From stdpp Require Import prelude list strings.
From Stdlib Require Import ZArith Lia.
From S2P Require Import Prelude FpioaTable.
Open Scope Z_scope.

Arguments func : simpl never.

(** ** Bits of a register (utils.c) *)
Definition set_bit (bits mask value : Z) : Z := Z.lor (Z.land bits (u32 (Z.lnot mask))) (Z.land value mask).
Definition set_bit_offset (bits mask offset value : Z) : Z :=
  set_bit bits (u32 (Z.shiftl mask offset)) (u32 (Z.shiftl value offset)).
Definition set_gpio_bit (bits offset value : Z) : Z := set_bit_offset bits 1 offset value.
Definition get_bit (bits mask offset : Z) : Z := Z.shiftr (Z.land bits (u32 (Z.shiftl mask offset))) offset.
Definition get_gpio_bit (bits offset : Z) : Z := get_bit bits 1 offset.

(** ** State *)
Record fpioa_io_config := IoConfig {
  ch_sel : Z; ds : Z; oe_en : Z; oe_inv : Z; do_sel : Z; do_inv : Z; pu : Z; pd : Z;
  io_resv0 : Z; sl : Z; ie_en : Z; ie_inv : Z; di_inv : Z; st : Z; io_resv1 : Z; pad_di : Z }.
Record pins := Pins { io : Z → fpioa_io_config; input_en : Z; output_en : Z; output_val : Z }.
Definition FPIOA_NUM_IO : Z := 48.

Definition set_io (n : Z) (c : fpioa_io_config) : M pins unit :=
  modify (λ s, Pins (upd (io s) n c) (input_en s) (output_en s) (output_val s)).
Definition set_output_en (v : Z) : M pins unit := modify (λ s, Pins (io s) (input_en s) v (output_val s)).
Definition set_input_en (v : Z) : M pins unit := modify (λ s, Pins (io s) v (output_en s) (output_val s)).

(** ** Pads (fpioa.c) *)
Definition FPIOA_PULL_NONE : Z := 0.
Definition FPIOA_PULL_DOWN : Z := 1.
Definition FPIOA_PULL_UP : Z := 2.
Definition FPIOA_PULL_MAX : Z := 3.

Definition with_pull (c : fpioa_io_config) (u d : Z) : fpioa_io_config :=
  IoConfig (ch_sel c) (ds c) (oe_en c) (oe_inv c) (do_sel c) (do_inv c) u d
    (io_resv0 c) (sl c) (ie_en c) (ie_inv c) (di_inv c) (st c) (io_resv1 c) (pad_di c).
Definition fpioa_set_io_pull (number pull : Z) : M pins Z :=
  if (number <? 0) || (number >=? FPIOA_NUM_IO) || (pull >=? FPIOA_PULL_MAX) then mretM (-1) else
  cfg <-- gets (λ s, io s number);;
  set_io number
    (if pull =? FPIOA_PULL_NONE then with_pull cfg 0 0
     else if pull =? FPIOA_PULL_DOWN then with_pull cfg 0 1
     else if pull =? FPIOA_PULL_UP then with_pull cfg 1 0
     else cfg);;;
  mretM 0.

Definition no_config : fpioa_assign := Assign 0 0 0 0 0 0 0 0 0 0 0 0 0 0 0 0 0 0.
Definition config_of (function : Z) : fpioa_io_config :=
  let a := nth (Z.to_nat function) function_config no_config in
  IoConfig (a_ch_sel a) (a_ds a) (a_oe_en a) (a_oe_inv a) (a_do_sel a) (a_do_inv a) (a_pu a) (a_pd a)
    0 (a_sl a) (a_ie_en a) (a_ie_inv a) (a_di_inv a) (a_st a) 0 0.
Definition bad_parameters (number function : Z) : bool :=
  (number <? 0) || (number >=? FPIOA_NUM_IO) || (function <? 0) || (function >=? FUNC_MAX).
Definition fpioa_set_function_raw (number function : Z) : M pins Z :=
  if bad_parameters number function then mretM (-1) else
  set_io number (config_of function);;; mretM 0.

Definition pads : list Z := map Z.of_nat (seq 0 48).
Definition release_pad (function number index : Z) : M pins unit :=
  c <-- gets (λ s, ch_sel (io s index));;
  whenM ((c =? function) && negb (index =? number)) (fpioa_set_function_raw index (func FUNC_RESV0);;; mretM tt).
Definition fpioa_set_function (number function : Z) : M pins Z :=
  if bad_parameters number function then mretM (-1) else
  if function =? func FUNC_RESV0 then fpioa_set_function_raw number (func FUNC_RESV0);;; mretM 0 else
  forM pads (release_pad function number);;;
  fpioa_set_function_raw number function;;;
  mretM 0.

(** The first pad with the function, -1 when there is none. *)
Fixpoint first_pad (l : list Z) (function : Z) (s : pins) : Z :=
  match l with
  | [] => -1
  | index :: l => if ch_sel (io s index) =? function then index else first_pad l function s
  end.
Definition fpioa_get_io_by_function (function : Z) : M pins Z := gets (first_pad pads function).

Definition fpioa_pin_init : M pins unit :=
  fpioa_set_function 27 (func FUNC_SPI0_SCLK);;;
  fpioa_set_function 28 (func FUNC_SPI0_D0);;;
  fpioa_set_function 26 (func FUNC_SPI0_D1);;;
  fpioa_set_function 32 (func FUNC_GPIOHS7);;;
  fpioa_set_function 29 (func FUNC_SPI0_SS3);;;
  mretM tt.

(** ** Pins (gpiohs.c) *)
Inductive gpio_drive_mode := GPIO_DM_INPUT | GPIO_DM_INPUT_PULL_DOWN | GPIO_DM_INPUT_PULL_UP | GPIO_DM_OUTPUT.
Definition drive_pull (mode : gpio_drive_mode) : Z :=
  match mode with
  | GPIO_DM_INPUT => FPIOA_PULL_NONE
  | GPIO_DM_INPUT_PULL_DOWN => FPIOA_PULL_DOWN
  | GPIO_DM_INPUT_PULL_UP => FPIOA_PULL_UP
  | GPIO_DM_OUTPUT => FPIOA_PULL_DOWN
  end.
Definition drive_dir (mode : gpio_drive_mode) : bool := match mode with GPIO_DM_OUTPUT => true | _ => false end.

(** [reg_d] is cleared before [reg] is set. *)
Definition gpiohs_set_drive_mode (pin : Z) (mode : gpio_drive_mode) : M pins unit :=
  io_number <-- fpioa_get_io_by_function (func FUNC_GPIOHS0 + pin);;
  fpioa_set_io_pull io_number (drive_pull mode);;;
  if drive_dir mode then
    r <-- gets input_en;; set_input_en (set_gpio_bit r pin 0);;;
    r <-- gets output_en;; set_output_en (set_gpio_bit r pin 1)
  else
    r <-- gets output_en;; set_output_en (set_gpio_bit r pin 0);;;
    r <-- gets input_en;; set_input_en (set_gpio_bit r pin 1).

Definition GPIO_PV_LOW : Z := 0.
Definition GPIO_PV_HIGH : Z := 1.
Definition gpiohs_set_pin (pin value : Z) : M pins unit :=
  modify (λ s, Pins (io s) (input_en s) (output_en s) (set_gpio_bit (output_val s) pin value)).

(** ** Single bits *)
Lemma u32_lnot_testbit m k : 0 ≤ k < 32 → Z.testbit (u32 (Z.lnot m)) k = negb (Z.testbit m k).
Proof. intros Hk. unfold u32. rewrite Z.mod_pow2_bits_low by lia. by rewrite Z.lnot_spec by lia. Qed.
Lemma u32_testbit x k : 0 ≤ k < 32 → Z.testbit (u32 x) k = Z.testbit x k.
Proof. intros Hk. unfold u32. by rewrite Z.mod_pow2_bits_low by lia. Qed.

(** Writing one bit changes that bit only. *)
Lemma set_gpio_bit_testbit w pin v k :
  0 ≤ pin < 32 → 0 ≤ k < 32 → 0 ≤ v ≤ 1 →
  Z.testbit (set_gpio_bit w pin v) k = if k =? pin then v =? 1 else Z.testbit w k.
Proof.
  intros Hp Hk Hv. unfold set_gpio_bit, set_bit_offset, set_bit.
  rewrite Z.lor_spec, !Z.land_spec, u32_lnot_testbit, !u32_testbit, !Z.shiftl_spec by lia.
  assert (∀ j, Z.testbit 1 j = (j =? 0)) as H1 by (intros [|[]|]; reflexivity).
  rewrite H1. destruct (Z.eqb_spec k pin) as [->|Hne].
  - rewrite Z.sub_diag. assert (v = 0 ∨ v = 1) as [-> | ->] by lia; by destruct (Z.testbit w pin).
  - destruct (Z.eqb_spec (k - pin) 0); [lia|]. by rewrite andb_true_r, andb_false_r, orb_false_r.
Qed.
Lemma get_gpio_bit_spec w pin : 0 ≤ pin < 32 → get_gpio_bit w pin = Z.b2z (Z.testbit w pin).
Proof.
  intros Hp. unfold get_gpio_bit, get_bit. rewrite u32_small by (rewrite Z.shiftl_mul_pow2; [|lia]; pose proof (Z.pow_le_mono_r 2 pin 31); lia).
  apply Z.bits_inj'. intros k Hk. rewrite Z.shiftr_spec, Z.land_spec, Z.shiftl_spec by lia.
  replace (k + pin - pin) with k by lia. destruct (Z.eqb_spec k 0) as [->|Hne].
  - rewrite Z.add_0_l, Z.b2z_bit0. apply andb_true_r.
  - replace (Z.testbit 1 k) with false by (symmetry; apply (Z.bits_above_log2 1 k); simpl; lia).
    rewrite andb_false_r. destruct (Z.testbit w pin); simpl; [symmetry; apply (Z.bits_above_log2 1 k); simpl; lia|by rewrite Z.bits_0].
Qed.

(** ** Routing functions to pads *)
Definition pad (n : Z) : Prop := 0 ≤ n < FPIOA_NUM_IO.
Lemma pad_in n : n ∈ pads ↔ pad n.
Proof.
  unfold pads, pad, FPIOA_NUM_IO. rewrite list_elem_of_fmap. split.
  - intros (k & -> & Hk%elem_of_seq). lia.
  - intros Hn. exists (Z.to_nat n). split; [lia|]. apply elem_of_seq. lia.
Qed.
Lemma good_parameters n f : bad_parameters n (func f) = false ↔ pad n.
Proof.
  pose proof (func_range f). unfold bad_parameters, pad, FPIOA_NUM_IO in *.
  rewrite !orb_false_iff, !Z.geb_leb, !Z.ltb_ge, !Z.leb_gt. lia.
Qed.
Lemma config_of_ch_sel f : ch_sel (config_of (func f)) = func f.
Proof.
  unfold config_of. destruct (function_config_row f) as (a & Ha & E).
  rewrite (nth_lookup_Some _ _ _ _ Ha). exact E.
Qed.
Lemma set_function_raw_run n f s : pad n →
  fpioa_set_function_raw n (func f) s = Ok 0 (Pins (upd (io s) n (config_of (func f))) (input_en s) (output_en s) (output_val s)).
Proof. intros Hn%(good_parameters n f). unfold fpioa_set_function_raw. by rewrite Hn. Qed.

(** What the pads are after a function has moved to pad [n]. *)
Definition moved (n : Z) (f : fpioa_function) (old : Z → fpioa_io_config) (j : Z) : fpioa_io_config :=
  if j =? n then config_of (func f)
  else if (ch_sel (old j) =? func f) && (0 <=? j) && (j <? FPIOA_NUM_IO) then config_of (func FUNC_RESV0)
  else old j.
Definition only_pads (s s' : pins) : Prop :=
  input_en s' = input_en s ∧ output_en s' = output_en s ∧ output_val s' = output_val s.

Lemma release_run f n l s :
  f ≠ FUNC_RESV0 → Forall pad l →
  ∃ s', forM l (release_pad (func f) n) s = Ok tt s' ∧ only_pads s s' ∧
    ∀ j, io s' j = if bool_decide (j ∈ l) && negb (j =? n) && (ch_sel (io s j) =? func f)
                   then config_of (func FUNC_RESV0) else io s j.
Proof.
  intros Hf. revert s. induction l as [|i l IH]; intros s Hl.
  { by exists s. }
  inversion_clear Hl as [|? ? Hi Hl']. simpl forM.
  assert (func FUNC_RESV0 ≠ func f) as Hne by (intros E%func_inj; congruence).
  set (hit := (ch_sel (io s i) =? func f) && negb (i =? n)).
  set (s1 := if hit then Pins (upd (io s) i (config_of (func FUNC_RESV0))) (input_en s) (output_en s) (output_val s) else s).
  assert (release_pad (func f) n i s = Ok tt s1) as E1.
  { unfold release_pad, mbindM, gets. fold hit. unfold s1. destruct hit; simpl; [|done].
    unfold mbindM. by rewrite set_function_raw_run by done. }
  destruct (IH s1 Hl') as (s' & E & K & Hio). exists s'. rewrite (mbindM_Ok _ _ _ _ _ E1). split; [done|].
  split; [unfold s1 in K; destruct hit; exact K|]. intros j. rewrite Hio. subst s1 hit.
  destruct (Z.eqb_spec j i) as [->|Hji].
  - rewrite (bool_decide_true (i ∈ i :: l)) by set_solver.
    destruct (ch_sel (io s i) =? func f) eqn:Ec, (i =? n) eqn:En; simpl; rewrite ?Ec, ?andb_false_r, ?andb_false_l; try done.
    rewrite upd_eq, config_of_ch_sel. by destruct (Z.eqb_spec (func FUNC_RESV0) (func f)); [|rewrite andb_false_r].
  - assert (bool_decide (j ∈ i :: l) = bool_decide (j ∈ l)) as -> by (apply bool_decide_ext; set_solver).
    destruct ((ch_sel (io s i) =? func f) && negb (i =? n)); simpl; [|done]. by rewrite !(upd_ne _ _ _ _ Hji).
Qed.

Lemma set_function_run n f s :
  pad n → f ≠ FUNC_RESV0 →
  ∃ s', fpioa_set_function n (func f) s = Ok 0 s' ∧ only_pads s s' ∧ ∀ j, io s' j = moved n f (io s) j.
Proof.
  intros Hn Hf. destruct (release_run f n pads s Hf) as (s1 & E1 & (K1 & K2 & K3) & Hio).
  { apply Forall_forall. intros j. by rewrite pad_in. }
  assert (func f =? func FUNC_RESV0 = false) as Hz by (apply Z.eqb_neq; intros E%func_inj; congruence).
  unfold fpioa_set_function. rewrite (proj2 (good_parameters n f) Hn), Hz, (mbindM_Ok _ _ _ _ _ E1).
  rewrite (mbindM_Ok _ _ _ _ _ (set_function_raw_run n f s1 Hn)).
  eexists. split; [reflexivity|]. split; [done|]. intros j. simpl. unfold moved.
  destruct (Z.eqb_spec j n) as [->|Hjn]; [by rewrite upd_eq|]. rewrite upd_ne, Hio by done.
  destruct (Z.eqb_spec j n); [done|]. rewrite andb_true_r, <- andb_assoc.
  assert (bool_decide (j ∈ pads) = (0 <=? j) && (j <? FPIOA_NUM_IO)) as ->.
  { apply eq_bool_prop_intro. rewrite bool_decide_spec, pad_in. unfold pad. rewrite andb_True, !Is_true_true, Z.leb_le, Z.ltb_lt. done. }
  by rewrite andb_comm.
Qed.

Lemma first_pad_in l f s : first_pad l f s = -1 ∧ (∀ j, j ∈ l → ch_sel (io s j) ≠ f) ∨
  first_pad l f s ∈ l ∧ ch_sel (io s (first_pad l f s)) = f.
Proof.
  induction l as [|i l IH]; simpl; [left; set_solver|]. destruct (Z.eqb_spec (ch_sel (io s i)) f) as [E|E]; [right; set_solver|].
  destruct IH as [[-> H]|[H1 H2]]; [left|right; set_solver]. split; [done|]. intros j [->|Hj]%elem_of_cons; auto.
Qed.

(** [f] is on pad [n] and on no other. *)
Definition routed (s : pins) (f : fpioa_function) (n : Z) : Prop :=
  pad n ∧ io s n = config_of (func f) ∧ ∀ j, pad j → ch_sel (io s j) = func f → j = n.
Lemma routed_get s f n : routed s f n → fpioa_get_io_by_function (func f) s = Ok n s.
Proof.
  intros (Hn & Hc & Hu). unfold fpioa_get_io_by_function, gets. f_equal.
  destruct (first_pad_in pads (func f) s) as [[_ H]|[H1 H2]].
  - exfalso. apply (H n); [by apply pad_in|]. rewrite Hc. apply config_of_ch_sel.
  - apply Hu; [by apply pad_in|done].
Qed.
Lemma moved_ch_sel n f old j : pad j → f ≠ FUNC_RESV0 → ch_sel (moved n f old j) = func f → j = n.
Proof.
  intros [Hj1 Hj2] Hf. unfold moved. destruct (Z.eqb_spec j n); [done|].
  destruct (Z.eqb_spec (ch_sel (old j)) (func f)); simpl; [|done].
  rewrite (proj2 (Z.leb_le 0 j)), (proj2 (Z.ltb_lt j _)) by done. cbn [andb]. rewrite config_of_ch_sel. intros E%func_inj. congruence.
Qed.
Lemma moved_routed n f s s' : pad n → f ≠ FUNC_RESV0 → (∀ j, io s' j = moved n f (io s) j) → routed s' f n.
Proof.
  intros Hn Hf H. split; [done|]. split; [rewrite H; unfold moved; by rewrite Z.eqb_refl|].
  intros j Hj. rewrite H. by apply moved_ch_sel.
Qed.
(** Moving another function to another pad leaves the pad alone. *)
Lemma moved_keeps n f s s' g m :
  pad n → f ≠ FUNC_RESV0 → (∀ j, io s' j = moved n f (io s) j) → routed s g m →
  g ≠ f → m ≠ n → g ≠ FUNC_RESV0 → routed s' g m.
Proof.
  intros Hn Hf H (Hm & Hc & Hu) Hg Hmn Hg0. split; [done|].
  assert (∀ j, ch_sel (io s' j) = func g → ch_sel (io s j) = func g) as Hback.
  { intros j. rewrite H. unfold moved. destruct (j =? n); [rewrite config_of_ch_sel; intros E%func_inj; congruence|].
    case_match; [rewrite config_of_ch_sel; intros E%func_inj; congruence|done]. }
  split; [|intros j Hj E; apply Hu; auto].
  rewrite H. unfold moved. destruct (Z.eqb_spec m n); [done|]. rewrite Hc, config_of_ch_sel.
  destruct (Z.eqb_spec (func g) (func f)) as [E%func_inj|]; [congruence|done].
Qed.

(** A chain of moves: pads and functions all different, none of them reserved. *)
Definition apart (l : list (Z * fpioa_function)) : Prop :=
  NoDup l.*1 ∧ NoDup l.*2 ∧ Forall (λ x, pad x.1 ∧ x.2 ≠ FUNC_RESV0) l.
Lemma routed_all l n f s s' :
  apart ((n, f) :: l) → (∀ j, io s' j = moved n f (io s) j) →
  Forall (λ x, routed s x.2 x.1) l → Forall (λ x, routed s' x.2 x.1) ((n, f) :: l).
Proof.
  intros (H1 & H2 & H3) Hio Hl. rewrite fmap_cons, NoDup_cons in H1. rewrite fmap_cons, NoDup_cons in H2. inversion_clear H3 as [|? ? [Hn Hf] H3'].
  constructor; [by apply (moved_routed n f s)|]. rewrite Forall_forall in *. intros [m g] Hin.
  destruct (H3' _ Hin) as [Hm Hg]. apply (moved_keeps n f s s' g m); try done.
  - by apply (Hl (m, g)).
  - intros ->. apply (proj1 H2). apply list_elem_of_fmap. by exists (m, f).
  - intros ->. apply (proj1 H1). apply list_elem_of_fmap. by exists (n, g).
Qed.

(** The pads of the SD card. *)
Definition card_pads : list (Z * fpioa_function) :=
  [(29, FUNC_SPI0_SS3); (32, FUNC_GPIOHS7); (26, FUNC_SPI0_D1); (28, FUNC_SPI0_D0); (27, FUNC_SPI0_SCLK)].
Lemma card_pads_apart : apart card_pads.
Proof.
  unfold apart. split_and!.
  - cbn. repeat (apply NoDup_cons; split; [rewrite ?elem_of_cons, elem_of_nil; lia|]). apply NoDup_nil; exact I.
  - cbn. repeat (apply NoDup_cons; split; [rewrite ?elem_of_cons, elem_of_nil; intuition discriminate|]). apply NoDup_nil; exact I.
  - unfold card_pads, pad, FPIOA_NUM_IO. repeat constructor; simpl; (lia || discriminate).
Qed.
Lemma apart_tail x l : apart (x :: l) → apart l.
Proof. intros (H1 & H2 & H3). rewrite fmap_cons, NoDup_cons in H1. rewrite fmap_cons, NoDup_cons in H2. inversion H3. split_and!; tauto. Qed.

Lemma pin_init_run s :
  ∃ s', fpioa_pin_init s = Ok tt s' ∧ only_pads s s' ∧ Forall (λ x, routed s' x.2 x.1) card_pads.
Proof.
  pose proof card_pads_apart as A5. pose proof (apart_tail _ _ A5) as A4. pose proof (apart_tail _ _ A4) as A3.
  pose proof (apart_tail _ _ A3) as A2. pose proof (apart_tail _ _ A2) as A1.
  assert (∀ n f l s, apart ((n, f) :: l) → Forall (λ x, routed s x.2 x.1) l →
    ∃ s', fpioa_set_function n (func f) s = Ok 0 s' ∧ only_pads s s' ∧ Forall (λ x, routed s' x.2 x.1) ((n, f) :: l)) as Step.
  { intros n f l s0 HA Hl. pose proof HA as (_ & _ & [[Hn Hf] _]%Forall_cons).
    destruct (set_function_run n f s0 Hn Hf) as (s' & E & K & Hio). exists s'. split_and!; try done. by eapply routed_all. }
  destruct (Step _ _ _ s A1 (Forall_nil_2 _)) as (s1 & E1 & K1 & H1).
  destruct (Step _ _ _ s1 A2 H1) as (s2 & E2 & K2 & H2). destruct (Step _ _ _ s2 A3 H2) as (s3 & E3 & K3 & H3).
  destruct (Step _ _ _ s3 A4 H3) as (s4 & E4 & K4 & H4). destruct (Step _ _ _ s4 A5 H4) as (s5 & E5 & K5 & H5).
  exists s5. unfold fpioa_pin_init.
  rewrite (mbindM_Ok _ _ _ _ _ E1), (mbindM_Ok _ _ _ _ _ E2), (mbindM_Ok _ _ _ _ _ E3), (mbindM_Ok _ _ _ _ _ E4), (mbindM_Ok _ _ _ _ _ E5).
  split; [done|]. split; [|done]. unfold only_pads in *. intuition congruence.
Qed.

(** ** Driving a pin *)
Definition pull_bits (p : Z) (c : fpioa_io_config) : fpioa_io_config :=
  if p =? FPIOA_PULL_NONE then with_pull c 0 0 else if p =? FPIOA_PULL_DOWN then with_pull c 0 1
  else if p =? FPIOA_PULL_UP then with_pull c 1 0 else c.
Lemma set_io_pull_run n p s :
  pad n → p < FPIOA_PULL_MAX →
  fpioa_set_io_pull n p s = Ok 0 (Pins (upd (io s) n (pull_bits p (io s n))) (input_en s) (output_en s) (output_val s)).
Proof.
  intros [H1 H2] Hp. unfold fpioa_set_io_pull. rewrite !Z.geb_leb.
  destruct (Z.ltb_spec n 0); [lia|]. destruct (Z.leb_spec FPIOA_NUM_IO n); [lia|]. by destruct (Z.leb_spec FPIOA_PULL_MAX p); [lia|].
Qed.
(** The pins of a register after one of them changed. *)
Definition pin_set (old new : Z) (pin : Z) (v : bool) : Prop :=
  ∀ k, 0 ≤ k < 32 → Z.testbit new k = if k =? pin then v else Z.testbit old k.
Lemma drive_mode_run pin mode s n :
  0 ≤ pin < 32 → pad n → first_pad pads (func FUNC_GPIOHS0 + pin) s = n →
  ∃ s', gpiohs_set_drive_mode pin mode s = Ok tt s' ∧ io s' = upd (io s) n (pull_bits (drive_pull mode) (io s n)) ∧
    pin_set (output_en s) (output_en s') pin (drive_dir mode) ∧ pin_set (input_en s) (input_en s') pin (negb (drive_dir mode)) ∧
    output_val s' = output_val s.
Proof.
  intros Hp Hn Hf. unfold gpiohs_set_drive_mode.
  rewrite (mbindM_Ok (fpioa_get_io_by_function _) _ s n s) by (unfold fpioa_get_io_by_function, gets; by rewrite Hf).
  rewrite (mbindM_Ok _ _ _ _ _ (set_io_pull_run n (drive_pull mode) s Hn ltac:(by destruct mode))).
  destruct (drive_dir mode); eexists; (split; [reflexivity|]); simpl; split_and!; try done;
    intros k Hk; rewrite set_gpio_bit_testbit by lia; done.
Qed.

(** From any setting of the board [fpioa_pin_init] gives the five functions of
    the SD card to their pads, each to one pad only, and [sd_lowlevel_init] and
    [gpiohs_set_pin] then make the select line of the card an output with its pull
    down that has the value asked for; the other pads of the card and the other pins
    of the block keep what they had. *)
Theorem card_pins_ready s v :
  0 ≤ v ≤ 1 →
  ∃ s0 s', fpioa_pin_init s = Ok tt s0 ∧
    (gpiohs_set_drive_mode 7 GPIO_DM_OUTPUT;;; gpiohs_set_pin 7 v) s0 = Ok tt s' ∧
    (∀ n f, (n, f) ∈ card_pads → fpioa_get_io_by_function (func f) s' = Ok n s') ∧
    io s' 32 = with_pull (config_of (func FUNC_GPIOHS7)) 0 1 ∧ (∀ n, n ≠ 32 → io s' n = io s0 n) ∧
    pin_set (output_en s) (output_en s') 7 true ∧ pin_set (input_en s) (input_en s') 7 false ∧
    pin_set (output_val s) (output_val s') 7 (v =? 1).
Proof.
  intros Hv. destruct (pin_init_run s) as (s0 & E0 & (K1 & K2 & K3) & HR).
  assert (∀ n f, (n, f) ∈ card_pads → routed s0 f n) as HR' by (intros n f Hin; by apply (proj1 (Forall_forall _ _) HR (n, f))).
  pose proof (HR' 32 FUNC_GPIOHS7 ltac:(set_solver)) as H32.
  assert (pad 32) as Hpad by (unfold pad, FPIOA_NUM_IO; lia).
  destruct (drive_mode_run 7 GPIO_DM_OUTPUT s0 32) as (s1 & E1 & Hio & Ho & Hi & Hval); [lia|done| |].
  { pose proof (routed_get _ _ _ H32) as Hg. unfold fpioa_get_io_by_function, gets in Hg.
    change (func FUNC_GPIOHS0 + 7) with (func FUNC_GPIOHS7). congruence. }
  eexists s0, _. split; [done|]. rewrite (mbindM_Ok _ _ _ _ _ E1). split; [reflexivity|]. simpl.
  assert (io s1 32 = with_pull (config_of (func FUNC_GPIOHS7)) 0 1) as H32'.
  { rewrite Hio, upd_eq. by rewrite (proj1 (proj2 H32)). }
  assert (∀ n, n ≠ 32 → io s1 n = io s0 n) as Hrest by (intros n Hn; by rewrite Hio, upd_ne).
  rewrite K1 in Hi. rewrite K2 in Ho. split_and!; try done.
  - intros n f Hin. destruct (HR' n f Hin) as (Hn & Hc & Hu).
    assert (∀ j, ch_sel (io s1 j) = ch_sel (io s0 j)) as Hsel.
    { intros j. destruct (decide (j = 32)) as [->|Hj]; [rewrite H32', (proj1 (proj2 H32)); done|by rewrite Hrest]. }
    unfold fpioa_get_io_by_function, gets. f_equal.
    destruct (first_pad_in pads (func f) (Pins (io s1) (input_en s1) (output_en s1) (set_gpio_bit (output_val s1) 7 v))) as [[_ H]|[H1 H2]].
    + exfalso. apply (H n); [by apply pad_in|]. simpl. rewrite Hsel, Hc. apply config_of_ch_sel.
    + apply Hu; [by apply pad_in|]. simpl in H2. by rewrite Hsel in H2.
  - intros k Hk. rewrite set_gpio_bit_testbit by lia. by rewrite Hval, K3.
Qed.
Lemma card_pins_ready_witness (s := Pins (λ _, config_of 0) 0 0 0) :
  ∃ s', fpioa_get_io_by_function (func FUNC_SPI0_SCLK) s' = Ok 27 s' ∧ Z.testbit (output_en s') 7 = true.
Proof.
  destruct (card_pins_ready s 0) as (s0 & s' & _ & _ & H & _ & _ & Ho & _); [lia|]. exists s'. split; [apply H; set_solver|].
  rewrite Ho by lia. done.
Defined.
