(* ===== verification/Spi.v ===== *)
(** * The SPI driver (kernel/spi.c) below the SD card driver

    The controller has a transmit and a receive queue of 32 frames and shifts frames
    by itself while it is enabled and a slave is selected; disabling it empties the
    queues and stops the frame in the shift register.  A frame put into a full queue
    is lost.  How many frames pass between two looks of the driver at the controller
    is a schedule ([speed]), about which nothing is assumed but that frames pass.
    The slave is an SD card behind the interface [SpiCard].

    A function that spins takes fuel and returns whether it came to its end.  The
    controller is number [spi_num]; [kalloc] gives the bounce buffer in the modelled
    memory. *)
From stdpp Require Import prelude list strings.
From Stdlib Require Import ZArith Lia.
From S2P Require Import Prelude Riscv Kalloc Sdcard Pins.
Open Scope Z_scope.
#[local] Arguments Z.testbit : simpl never.

Section Spi.
Context {C : Type} `{!SpiCard C} `{Layout} (spi_num : Z).

(** ** The controller *)
Record ssi := Ssi {
  ctrlr0 : Z; ctrlr1 : Z; ssienr : Z; ser : Z; baudr : Z; imr : Z; dmacr : Z; dmatdlr : Z; dmardlr : Z;
  spi_ctrlr0 : Z; endian : Z;
  tx : list Z; shift : option Z; rxq : list Z; to_receive : nat;
  slave : C; speed : nat → nat; time : nat }.
Record sys := Sys { ks : kst; ssi_of : ssi }.

Definition with_queues (t : list Z) (h : option Z) (r : list Z) (n : nat) (c : C) (d : ssi) : ssi :=
  Ssi (ctrlr0 d) (ctrlr1 d) (ssienr d) (ser d) (baudr d) (imr d) (dmacr d) (dmatdlr d) (dmardlr d) (spi_ctrlr0 d) (endian d)
    t h r n c (speed d) (time d).
Definition tick (d : ssi) : ssi :=
  Ssi (ctrlr0 d) (ctrlr1 d) (ssienr d) (ser d) (baudr d) (imr d) (dmacr d) (dmatdlr d) (dmardlr d) (spi_ctrlr0 d) (endian d)
    (tx d) (shift d) (rxq d) (to_receive d) (slave d) (speed d) (S (time d)).

Definition tmod_offset : Z := if (spi_num =? 0) || (spi_num =? 1) || (spi_num =? 2) then 8 else 10.
Definition SPI_TMOD_TRANS : Z := 1.
Definition SPI_TMOD_RECV : Z := 2.
Definition SPI_TMOD_EEROM : Z := 3.
Definition tmod (d : ssi) : Z := Z.land (Z.shiftr (ctrlr0 d) tmod_offset) 3.

(** The time of one frame.  Transmitting, the frame in the shift register goes to the
    slave and the next one follows it.  Receiving, the first word written starts the
    transfer of [ctrlr1 + 1] frames. *)
Definition clock (d : ssi) : ssi :=
  if negb (ssienr d =? 1) || (ser d =? 0) then d
  else if tmod d =? SPI_TMOD_TRANS then
    let c := match shift d with Some b => spi_send b (slave d) | None => slave d end in
    match tx d with
    | [] => with_queues [] None (rxq d) (to_receive d) c d
    | b :: l => with_queues l (Some b) (rxq d) (to_receive d) c d
    end
  else if tmod d =? SPI_TMOD_RECV then
    match to_receive d with
    | S n =>
        let '(b, c) := spi_receive (slave d) in
        with_queues (tx d) (shift d) (if (length (rxq d) <? 32)%nat then rxq d ++ [b] else rxq d) n c d
    | O =>
        match tx d with
        | [] => d
        | _ :: l => with_queues l (shift d) (rxq d) (S (Z.to_nat (ctrlr1 d mod 2 ^ 16))) (slave d) d
        end
    end
  else d.
(** A look at the controller. *)
Definition poll (d : ssi) : ssi := tick (Nat.iter (speed d (time d)) clock d).
Definition txflr (d : ssi) : Z := Z.of_nat (length (tx d)).
Definition rxflr (d : ssi) : Z := Z.of_nat (length (rxq d)).
Definition sr (d : ssi) : Z :=
  (match tx d with [] => 4 | _ => 0 end) + (match shift d with Some _ => 1 | None => 0 end).

Definition on_ssi (f : ssi → ssi) : M sys unit := modify (λ s, Sys (ks s) (f (ssi_of s))).
Definition look {A} (f : ssi → A) : M sys A := on_ssi poll;;; gets (λ s, f (ssi_of s)).
Definition write_dr (v : Z) : M sys unit :=
  on_ssi (λ d, if (length (tx d) <? 32)%nat then with_queues (tx d ++ [v]) (shift d) (rxq d) (to_receive d) (slave d) d else d).
Definition read_dr : M sys Z :=
  λ s, let d := ssi_of s in
    match rxq d with
    | b :: l => Ok b (Sys (ks s) (with_queues (tx d) (shift d) l (to_receive d) (slave d) d))
    | [] => Ok 0 s
    end.

Definition write_ctrlr0 (v : Z) : M sys unit :=
  on_ssi (λ d, Ssi v (ctrlr1 d) (ssienr d) (ser d) (baudr d) (imr d) (dmacr d) (dmatdlr d) (dmardlr d) (spi_ctrlr0 d) (endian d)
    (tx d) (shift d) (rxq d) (to_receive d) (slave d) (speed d) (time d)).
Definition write_ctrlr1 (v : Z) : M sys unit :=
  on_ssi (λ d, Ssi (ctrlr0 d) v (ssienr d) (ser d) (baudr d) (imr d) (dmacr d) (dmatdlr d) (dmardlr d) (spi_ctrlr0 d) (endian d)
    (tx d) (shift d) (rxq d) (to_receive d) (slave d) (speed d) (time d)).
Definition write_ssienr (v : Z) : M sys unit :=
  on_ssi (λ d, if v =? 0
    then Ssi (ctrlr0 d) (ctrlr1 d) v (ser d) (baudr d) (imr d) (dmacr d) (dmatdlr d) (dmardlr d) (spi_ctrlr0 d) (endian d)
      [] None [] 0 (slave d) (speed d) (time d)
    else Ssi (ctrlr0 d) (ctrlr1 d) v (ser d) (baudr d) (imr d) (dmacr d) (dmatdlr d) (dmardlr d) (spi_ctrlr0 d) (endian d)
      (tx d) (shift d) (rxq d) (to_receive d) (slave d) (speed d) (time d)).
Definition write_ser (v : Z) : M sys unit :=
  on_ssi (λ d, Ssi (ctrlr0 d) (ctrlr1 d) (ssienr d) v (baudr d) (imr d) (dmacr d) (dmatdlr d) (dmardlr d) (spi_ctrlr0 d) (endian d)
    (tx d) (shift d) (rxq d) (to_receive d) (slave d) (speed d) (time d)).
(** The registers [spi_init] sets besides. *)
Definition write_setup (b im dm td rd sc en : Z) : M sys unit :=
  on_ssi (λ d, Ssi (ctrlr0 d) (ctrlr1 d) (ssienr d) (ser d) b im dm td rd sc en
    (tx d) (shift d) (rxq d) (to_receive d) (slave d) (speed d) (time d)).

(** ** spi.c *)
Definition dfs_offset : Z := if (spi_num =? 0) || (spi_num =? 1) then 16 else 0.
Definition frf_offset : Z := if (spi_num =? 0) || (spi_num =? 1) then 21 else if spi_num =? 2 then 0 else 22.
Definition work_mode_offset : Z := if (spi_num =? 0) || (spi_num =? 1) then 6 else if spi_num =? 2 then 0 else 8.
Definition spi_init (work_mode frame_format data_bit_length en : Z) : M sys unit :=
  b <-- gets (λ s, baudr (ssi_of s));;
  sc <-- gets (λ s, spi_ctrlr0 (ssi_of s));;
  e <-- gets (λ s, endian (ssi_of s));;
  write_setup (if b =? 0 then 20 else b) 0 0 16 0 sc e;;;
  write_ser 0;;;
  write_ssienr 0;;;
  write_ctrlr0 (u32 (Z.lor (Z.lor (Z.shiftl work_mode work_mode_offset) (Z.shiftl frame_format frf_offset)) (Z.shiftl (data_bit_length - 1) dfs_offset)));;;
  b <-- gets (λ s, baudr (ssi_of s));;
  write_setup b 0 0 16 0 0 en.

Definition spi_set_tmod (t : Z) : M sys unit :=
  c <-- gets (λ s, ctrlr0 (ssi_of s));;
  write_ctrlr0 (set_bit c (Z.shiftl 3 tmod_offset) (Z.shiftl t tmod_offset)).
Definition spi_get_frame_size (data_bit_length : Z) : Z :=
  if data_bit_length <? 8 then 1 else if data_bit_length <? 16 then 2 else 4.
Definition frame_width : M sys Z :=
  gets (λ s, spi_get_frame_size (Z.land (Z.shiftr (ctrlr0 (ssi_of s)) dfs_offset) 31)).

(** [n] frames of [w] bytes from address [a]. *)
Fixpoint push_frames (n : nat) (w a : Z) : M sys unit :=
  match n with
  | O => mretM tt
  | S n => v <-- gets (λ s, load_n (Z.to_nat w) (mem (ks s)) a);; write_dr v;;; push_frames n w (a + w)
  end.
(** [i] counts bytes when the buffer is not aligned and frames when it is. *)
Fixpoint send_loop (fuel : nat) (w tx_buff : Z) (misalign : bool) (i tx_len : Z) : M sys bool :=
  if tx_len =? 0 then mretM true else
  match fuel with
  | O => mretM false
  | S fuel =>
      level <-- look txflr;;
      let fifo_len := Z.min (32 - level) tx_len in
      let fifo_len := fifo_len / w * w in
      push_frames (Z.to_nat (fifo_len / w)) w (if misalign then tx_buff + i else tx_buff + w * i);;;
      send_loop fuel w tx_buff misalign (u32 (if misalign then i + fifo_len else i + fifo_len / w)) (tx_len - fifo_len)
  end.
Fixpoint drain_loop (fuel : nat) : M sys bool :=
  st <-- look sr;;
  if Z.land st 5 =? 4 then mretM true else match fuel with O => mretM false | S fuel => drain_loop fuel end.
Definition spi_send_data_normal (fuel : nat) (chip_select tx_buff tx_len : Z) : M sys bool :=
  spi_set_tmod SPI_TMOD_TRANS;;;
  w <-- frame_width;;
  write_ssienr 1;;;
  write_ser (Z.shiftl 1 chip_select);;;
  ok <-- send_loop fuel w tx_buff (negb (tx_buff mod w =? 0)) 0 tx_len;;
  if negb ok then mretM false else
  ok <-- drain_loop fuel;;
  if negb ok then mretM false else
  write_ser 0;;;
  write_ssienr 0;;;
  mretM true.

(** Byte copies; address 0 is not mapped in the kernel. *)
Fixpoint copy_bytes (n : nat) (dst src : Z) : M sys unit :=
  match n with
  | O => mretM tt
  | S n =>
      if dst <? PGSIZE then panic "kerneltrap" else
      modify (λ s, Sys (set_mem (store_n 1 (mem (ks s)) dst (load8 (mem (ks s)) src)) (ks s)) (ssi_of s));;;
      copy_bytes n (dst + 1) (src + 1)
  end.
Definition in_kernel {A} (c : M kst A) : M sys A := zoom ks (λ k s, Sys k (ssi_of s)) c.
Definition spi_send_data_standard (fuel : nat) (chip_select cmd_buff cmd_len tx_buff tx_len : Z) : M sys bool :=
  v_buf <-- in_kernel kalloc;;
  copy_bytes (Z.to_nat cmd_len) v_buf cmd_buff;;;
  copy_bytes (Z.to_nat tx_len) (v_buf + cmd_len) tx_buff;;;
  ok <-- spi_send_data_normal fuel chip_select v_buf (cmd_len + tx_len);;
  if negb ok then mretM false else
  in_kernel (kfree v_buf);;;
  mretM true.

(** Commands before the data of a receive. *)
Fixpoint cmd_loop (fuel : nat) (w chip_select cmd_buff i len : Z) : M sys bool :=
  if len =? 0 then mretM true else
  match fuel with
  | O => mretM false
  | S fuel =>
      level <-- look txflr;;
      let fifo_len := Z.min (32 - level) len in
      push_frames (Z.to_nat fifo_len) w (cmd_buff + w * i);;;
      write_ser (Z.shiftl 1 chip_select);;;
      cmd_loop fuel w chip_select cmd_buff (u32 (i + fifo_len)) (len - fifo_len)
  end.
Fixpoint pull_frames (n : nat) (w a : Z) : M sys unit :=
  match n with
  | O => mretM tt
  | S n =>
      v <-- read_dr;;
      modify (λ s, Sys (set_mem (store_n w (mem (ks s)) a v) (ks s)) (ssi_of s));;;
      pull_frames n w (a + w)
  end.
Fixpoint receive_loop (fuel : nat) (w rx_buff i len : Z) : M sys bool :=
  if len =? 0 then mretM true else
  match fuel with
  | O => mretM false
  | S fuel =>
      level <-- look rxflr;;
      let fifo_len := Z.min level len in
      pull_frames (Z.to_nat fifo_len) w (rx_buff + w * i);;;
      receive_loop fuel w rx_buff (u32 (i + fifo_len)) (len - fifo_len)
  end.
Definition spi_receive_data_standard (fuel : nat) (chip_select cmd_buff cmd_len rx_buff rx_len : Z) : M sys bool :=
  spi_set_tmod (if cmd_len =? 0 then SPI_TMOD_RECV else SPI_TMOD_EEROM);;;
  w <-- frame_width;;
  let v_cmd_len := cmd_len / w in
  let v_rx_len := u32 (rx_len / w) in
  write_ctrlr1 (u32 (v_rx_len - 1));;;
  write_ssienr 1;;;
  ok <-- cmd_loop fuel w chip_select cmd_buff 0 v_cmd_len;;
  if negb ok then mretM false else
  whenM (cmd_len =? 0) (write_dr 4294967295;;; write_ser (Z.shiftl 1 chip_select));;;
  ok <-- receive_loop fuel w rx_buff 0 v_rx_len;;
  if negb ok then mretM false else
  write_ser 0;;;
  write_ssienr 0;;;
  mretM true.

(** What sdcard.c calls: device 0, slave 3, frames of 8 bits. *)
Definition spi_sd_write (fuel : nat) (data_buff length : Z) : M sys bool :=
  spi_init 0 0 8 0;;; spi_send_data_standard fuel 3 0 0 data_buff length.
Definition spi_sd_read (fuel : nat) (data_buff length : Z) : M sys bool :=
  spi_init 0 0 8 0;;; spi_receive_data_standard fuel 3 0 0 data_buff length.
End Spi.
Arguments ssi C : clear implicits.
Arguments sys C : clear implicits.

(** Frames keep passing. *)
Definition fair (sp : nat → nat) : Prop := ∀ t, ∃ k, (0 < sp (t + k))%nat.

Section Proofs.
Context {C : Type} `{!SpiCard C} `{Layout} (spi_num : Z).
Notation clock := (clock (C := C) spi_num).
Notation poll := (poll (C := C) spi_num).
Notation tmod := (tmod (C := C) spi_num).

(** ** Transmitting *)
Definition sending (d : ssi C) : Prop := ssienr d = 1 ∧ ser d ≠ 0 ∧ tmod d = SPI_TMOD_TRANS ∧ (length (tx d) ≤ 32)%nat.
(** What the slave will have been sent when everything under way has arrived. *)
Definition arrived (d : ssi C) : C :=
  send_all (tx d) (match shift d with Some b => spi_send b (slave d) | None => slave d end).
(** Registers and time are not the clock's. *)
Definition same_regs (d d' : ssi C) : Prop :=
  ctrlr0 d' = ctrlr0 d ∧ ctrlr1 d' = ctrlr1 d ∧ ssienr d' = ssienr d ∧ ser d' = ser d ∧ speed d' = speed d.
#[export] Instance same_regs_preorder : PreOrder same_regs.
Proof. split; [done|]. intros x y z (A1 & A2 & A3 & A4 & A5) (B1 & B2 & B3 & B4 & B5). split_and!; by etrans. Qed.

Lemma send_all_app l1 l2 (c : C) : send_all (l1 ++ l2) c = send_all l2 (send_all l1 c).
Proof. revert c. induction l1 as [|b l1 IH]; intros c; [done|]. apply IH. Qed.

(** Frames still to be clocked out, counted so that every clock takes one. *)
Definition work (d : ssi C) : nat := 2 * length (tx d) + match shift d with Some _ => 1 | None => 0 end.
Lemma clock_send d : sending d →
  let d' := clock d in
  sending d' ∧ same_regs d d' ∧ time d' = time d ∧ arrived d' = arrived d ∧ (work d' ≤ work d - 1)%nat ∧ (length (tx d') ≤ length (tx d) - 1)%nat.
Proof.
  intros (H1 & H2 & H3 & H4). unfold Spi.clock. rewrite H1, (proj2 (Z.eqb_neq _ _) H2), H3. cbn [Z.eqb Pos.eqb negb orb SPI_TMOD_TRANS].
  unfold arrived, work. destruct (tx d) as [|b l] eqn:Et; cbn -[Nat.mul] in *; rewrite ?Et; repeat split; try done; cbn -[Nat.mul] in *; try lia;
    destruct (shift d); cbn -[Nat.mul]; lia.
Qed.
Lemma iter_send n d : sending d →
  let d' := Nat.iter n clock d in
  sending d' ∧ same_regs d d' ∧ time d' = time d ∧ arrived d' = arrived d ∧ (work d' ≤ work d - n)%nat ∧ (length (tx d') ≤ length (tx d) - n)%nat.
Proof.
  intros Hd. induction n as [|n IH].
  { cbn. repeat (split; [done|]). lia. }
  change (Nat.iter (S n) clock d) with (clock (Nat.iter n clock d)). cbn zeta in *. destruct IH as (I1 & I2 & I3 & I4 & I5 & I6). destruct (clock_send _ I1) as (J1 & J2 & J3 & J4 & J5 & J6).
  split; [done|]. split; [by etrans|]. split; [congruence|]. split; [congruence|]. split; lia.
Qed.
Lemma poll_send d : sending d →
  let d' := poll d in
  sending d' ∧ same_regs d d' ∧ time d' = S (time d) ∧ arrived d' = arrived d ∧
  (work d' ≤ work d - speed d (time d))%nat ∧ (length (tx d') ≤ length (tx d) - speed d (time d))%nat.
Proof.
  intros Hd. destruct (iter_send (speed d (time d)) d Hd) as (I1 & I2 & I3 & I4 & I5 & I6). unfold Spi.poll, tick. cbn.
  split; [exact I1|]. split; [exact I2|]. split; [by rewrite I3|]. done.
Qed.

Lemma push_frames_run n a (s : sys C) :
  sending (ssi_of s) → (length (tx (ssi_of s)) + n ≤ 32)%nat →
  ∃ d', push_frames n 1 a s = Ok tt (Sys (ks s) d') ∧ sending d' ∧ same_regs (ssi_of s) d' ∧ time d' = time (ssi_of s) ∧
    arrived d' = send_all (bytes_at (mem (ks s)) a n) (arrived (ssi_of s)).
Proof.
  revert a s. induction n as [|n IH]; intros a [k d] Hd Hn; cbn [ssi_of ks] in *.
  { exists d. split_and!; done. }
  set (d1 := with_queues (tx d ++ [load8 (mem k) a]) (shift d) (rxq d) (to_receive d) (slave d) d).
  assert (sending d1) as Hd1 by (destruct Hd as (H1 & H2 & H3 & H4); repeat split; try done; cbn; rewrite length_app; cbn; lia).
  destruct (IH (a + 1) (Sys k d1)) as (d' & E & K1 & K2 & K3 & K4); [done|cbn; rewrite length_app; cbn; lia|].
  exists d'. cbn [push_frames]. unfold mbindM at 1 2, gets, write_dr, on_ssi, modify. cbn [ks ssi_of].
  rewrite (proj2 (Nat.ltb_lt _ 32)) by lia.
  change (load_n (Z.to_nat 1) (mem k) a) with (load8 (mem k) a + 2 ^ 8 * 0). rewrite Z.mul_0_r, Z.add_0_r. fold d1.
  split; [exact E|]. split; [done|]. split; [etrans; [|exact K2]; done|]. split; [done|].
  rewrite K4. cbn [ks ssi_of]. unfold arrived. cbn [tx shift slave d1 with_queues]. rewrite send_all_app.
  unfold bytes_at. cbn [seq map send_all]. rewrite Z.add_0_r, <- seq_shift, map_map. f_equal.
  apply map_ext. intros j. f_equal. lia.
Qed.

Lemma bytes_at_app m a n1 n2 : bytes_at m a (n1 + n2) = bytes_at m a n1 ++ bytes_at m (a + Z.of_nat n1) n2.
Proof.
  unfold bytes_at. rewrite seq_app, map_app. f_equal. rewrite Nat.add_0_l. replace (seq n1 n2) with (Nat.add n1 <$> seq 0 n2) by (by rewrite fmap_add_seq, Nat.add_0_r).
  change (@fmap list _ nat nat) with (@map nat nat). rewrite map_map. apply map_ext. intros j. f_equal. lia.
Qed.

(** The transmit loop ends, and everything it took will arrive in order. *)
Definition sends (rem : nat) (buf i : Z) (s : sys C) : Prop :=
  ∃ f0 d', (∀ fuel, (f0 ≤ fuel)%nat → send_loop spi_num fuel 1 buf false i (Z.of_nat rem) s = Ok true (Sys (ks s) d')) ∧
    sending d' ∧ same_regs (ssi_of s) d' ∧ arrived d' = send_all (bytes_at (mem (ks s)) (buf + i) rem) (arrived (ssi_of s)).
(** One round: [fl] frames are taken; when the queue is full nothing is. *)
Lemma send_round rem buf i (s : sys C) :
  sending (ssi_of s) → 0 ≤ i → i + Z.of_nat (S rem) ≤ PGSIZE →
  ∃ fl d2, (fl ≤ S rem)%nat ∧ sending d2 ∧ same_regs (ssi_of s) d2 ∧ time d2 = S (time (ssi_of s)) ∧
    arrived d2 = send_all (bytes_at (mem (ks s)) (buf + i) fl) (arrived (ssi_of s)) ∧
    (0 < speed (ssi_of s) (time (ssi_of s)) → 0 < fl)%nat ∧
    ∀ fuel, send_loop spi_num (S fuel) 1 buf false i (Z.of_nat (S rem)) s =
      send_loop spi_num fuel 1 buf false (i + Z.of_nat fl) (Z.of_nat (S rem - fl)) (Sys (ks s) d2).
Proof.
  intros Hd Hi Hr. destruct (poll_send _ Hd) as (P1 & P2 & P3 & P4 & P5 & P6). pose proof Hd as (_ & _ & _ & Hlen).
  set (d1 := poll (ssi_of s)) in *. pose proof P1 as (_ & _ & _ & Hlen1).
  remember (Nat.min (32 - length (tx d1)) (S rem)) as fl eqn:Hflen.
  destruct (push_frames_run fl (buf + i) (Sys (ks s) d1)) as (d2 & E2 & Q1 & Q2 & Q3 & Q4); [done|cbn [ssi_of]; lia|]. cbn [ks ssi_of] in *.
  exists fl, d2. split; [lia|]. split; [done|]. split; [by etrans|]. split; [congruence|]. split; [by rewrite Q4, P4|]. split; [lia|].
  intros fuel. cbn [send_loop]. rewrite (proj2 (Z.eqb_neq (Z.of_nat (S rem)) 0)) by lia. unfold mbindM at 1, look, mbindM at 1, on_ssi, modify, gets.
  fold d1. cbn [ks ssi_of]. unfold txflr. rewrite !Z.div_1_r, !Z.mul_1_r, !Z.mul_1_l.
  replace (Z.min (32 - Z.of_nat (length (tx d1))) (Z.of_nat (S rem))) with (Z.of_nat fl) by lia.
  rewrite Nat2Z.id, (mbindM_Ok _ _ _ _ _ E2), u32_small by (unfold PGSIZE in *; lia).
  by replace (Z.of_nat (S rem) - Z.of_nat fl) with (Z.of_nat (S rem - fl)) by lia.
Qed.
Lemma send_loop_run rem buf i (s : sys C) :
  sending (ssi_of s) → fair (speed (ssi_of s)) → 0 ≤ i → i + Z.of_nat rem ≤ PGSIZE → sends rem buf i s.
Proof.
  revert i s. induction (lt_wf rem) as [rem _ IHrem]. intros i s Hd Hf Hi Hr.
  destruct (Hf (time (ssi_of s))) as [k Hk]. revert s Hd Hf Hk. induction k as [|k IHk]; intros s Hd Hf Hk.
  all: destruct rem as [|rem]; [exists 0%nat, (ssi_of s); split; [intros [|fuel] _; by destruct s|done]|].
  all: destruct (send_round rem buf i s Hd Hi Hr) as (fl & d2 & Hfl & S1 & S2 & S3 & S4 & S5 & Step).
  all: assert (fair (speed d2)) as Hf2 by (destruct S2 as (_ & _ & _ & _ & ->); done).
  all: assert (sends (S rem - fl) buf (i + Z.of_nat fl) (Sys (ks s) d2) → sends (S rem) buf i s) as Next by (
    intros (f0 & d' & E & R1 & R2 & R3); cbn [ks ssi_of] in *; exists (S f0), d';
    split; [intros [|fuel] Hfuel; [lia|]; rewrite Step; apply E; lia|]; split; [done|]; split; [by etrans|];
    rewrite R3, S4, <- send_all_app; f_equal; replace (S rem) with (fl + (S rem - fl))%nat at 2 by lia;
    rewrite bytes_at_app; do 2 f_equal; lia).
  - apply Next, IHrem; try done; try lia. rewrite Nat.add_0_r in Hk. lia.
  - destruct (decide (0 < fl)%nat) as [Hpos|Hz]; [apply Next, IHrem; try done; lia|].
    assert (fl = 0%nat) as -> by lia. apply Next. rewrite Nat.sub_0_r, Z.add_0_r. apply IHk; [done|done|].
    cbn [ssi_of]. destruct S2 as (_ & _ & _ & _ & ->). rewrite S3. by rewrite Nat.add_succ_comm.
Qed.

Lemma sr_done d : (Z.land (sr d) 5 =? 4) = true ↔ @tx C d = [] ∧ shift d = None.
Proof. unfold sr. destruct (tx d), (shift d); cbn; split; intros; try done; naive_solver. Qed.
Lemma drain_run (s : sys C) :
  sending (ssi_of s) → fair (speed (ssi_of s)) →
  ∃ f0 d', (∀ fuel, (f0 ≤ fuel)%nat → drain_loop spi_num fuel s = Ok true (Sys (ks s) d')) ∧
    sending d' ∧ same_regs (ssi_of s) d' ∧ slave d' = arrived (ssi_of s).
Proof.
  remember (work (ssi_of s)) as n eqn:En. revert s En. induction (lt_wf n) as [n _ IHn]. intros s En Hd Hf.
  destruct (Hf (time (ssi_of s))) as [k Hk]. revert s En Hd Hf Hk. induction k as [|k IHk]; intros s En Hd Hf Hk.
  all: destruct (poll_send _ Hd) as (P1 & P2 & P3 & P4 & P5 & P6); set (d1 := poll (ssi_of s)) in *;
    assert (fair (speed d1)) as Hf1 by (destruct P2 as (_ & _ & _ & _ & ->); done).
  all: assert (∀ fuel, drain_loop spi_num fuel s = (if Z.land (sr d1) 5 =? 4 then mretM true else match fuel with O => mretM false | S fuel => drain_loop spi_num fuel end) (Sys (ks s) d1)) as Step
    by (intros [|fuel]; reflexivity).
  all: destruct (Z.land (sr d1) 5 =? 4) eqn:Esr; [exists 0%nat, d1; split; [intros fuel _; by rewrite Step|]; split; [done|]; split; [done|];
    apply sr_done in Esr as [Et Es]; rewrite <- P4; unfold arrived; by rewrite Et, Es|].
  all: assert (∀ f0 d', (∀ fuel, (f0 ≤ fuel)%nat → drain_loop spi_num fuel (Sys (ks s) d1) = Ok true (Sys (ks s) d')) → sending d' → same_regs d1 d' → slave d' = arrived d1 →
      ∃ f0 d', (∀ fuel, (f0 ≤ fuel)%nat → drain_loop spi_num fuel s = Ok true (Sys (ks s) d')) ∧ sending d' ∧ same_regs (ssi_of s) d' ∧ slave d' = arrived (ssi_of s)) as Next by (
    intros f0 d' E R1 R2 R3; exists (S f0), d'; split; [intros [|fuel] Hfuel; [lia|]; rewrite Step; apply E; lia|]; split; [done|]; split; [by etrans|congruence]).
  all: assert (work (ssi_of s) ≠ 0)%nat as Hw by (intros Hw; assert (work d1 = 0)%nat as Hw1 by lia; unfold work in Hw1;
    rewrite (proj2 (sr_done d1)) in Esr; [done|]; destruct (tx d1), (shift d1); cbn in Hw1; (done || lia)).
  - rewrite Nat.add_0_r in Hk. destruct (IHn (work d1) ltac:(lia) (Sys (ks s) d1)) as (f0 & d' & E & R1 & R2 & R3); try done. by eapply Next.
  - destruct (decide (work d1 < n)%nat) as [Hlt|Hge].
    + destruct (IHn (work d1) Hlt (Sys (ks s) d1)) as (f0 & d' & E & R1 & R2 & R3); try done. by eapply Next.
    + destruct (IHk (Sys (ks s) d1)) as (f0 & d' & E & R1 & R2 & R3); try done; [cbn [ssi_of]; lia| |by eapply Next].
      cbn [ssi_of]. destruct P2 as (_ & _ & _ & _ & ->). rewrite P3. by rewrite Nat.add_succ_comm.
Qed.
(** Device 0 with frames of 8 bits, nothing under way. *)
Definition ready (d : ssi C) : Prop := ctrlr0 d = 458752 ∧ tx d = [] ∧ shift d = None ∧ rxq d = [] ∧ to_receive d = 0%nat.
End Proofs.

Section Zero.
Context {C : Type} `{!SpiCard C} `{Layout}.
Lemma spi_init_run (s : sys C) :
  ∃ d, spi_init 0 0 0 8 0 s = Ok tt (Sys (ks s) d) ∧ ready d ∧ slave d = slave (ssi_of s) ∧ speed d = speed (ssi_of s) ∧ time d = time (ssi_of s).
Proof.
  destruct s as [k [c0 c1 en se b im dm td rd sc nd t h r n c sp tm]].
  exists (Ssi 458752 c1 0 0 (if b =? 0 then 20 else b) 0 0 16 0 0 0 [] None [] 0 c sp tm). split; [|by split_and!].
  destruct b; vm_compute; reflexivity.
Qed.

Lemma send_normal_run n buf (s : sys C) :
  ready (ssi_of s) → fair (speed (ssi_of s)) → Z.of_nat n ≤ PGSIZE →
  ∃ f0 d', (∀ fuel, (f0 ≤ fuel)%nat → spi_send_data_normal 0 fuel 3 buf (Z.of_nat n) s = Ok true (Sys (ks s) d')) ∧
    slave d' = send_all (bytes_at (mem (ks s)) buf n) (slave (ssi_of s)) ∧ speed d' = speed (ssi_of s).
Proof.
  intros (R1 & R2 & R3 & R4 & R5) Hf Hn. destruct s as [k d]. cbn [ks ssi_of] in *.
  set (d1 := Ssi 459008 (ctrlr1 d) 1 8 (baudr d) (imr d) (dmacr d) (dmatdlr d) (dmardlr d) (spi_ctrlr0 d) (endian d)
    (tx d) (shift d) (rxq d) (to_receive d) (slave d) (speed d) (time d)).
  assert (sending 0 d1) as Hd1 by (split_and!; try done; cbn; rewrite R2; cbn; lia).
  destruct (send_loop_run 0 n buf 0 (Sys k d1)) as (f1 & d2 & E2 & S1 & S2 & S3); [done|done|lia|lia|]. cbn [ks ssi_of] in *.
  destruct (drain_run 0 (Sys k d2)) as (f2 & d3 & E3 & T1 & T2 & T3); [done|cbn [ssi_of]; destruct S2 as (_ & _ & _ & _ & S2); by rewrite S2|]. cbn [ks ssi_of] in *.
  exists (Nat.max f1 f2). eexists. split; [|split].
  - intros fuel Hfuel. unfold spi_send_data_normal, spi_set_tmod, frame_width, write_ctrlr0, write_ssienr, write_ser, on_ssi.
    unfold mbindM at 1 2 3 4 5, gets, modify. cbn [ks ssi_of ctrlr0 Z.eqb]. rewrite R1. change (tmod_offset 0) with 8. change (dfs_offset 0) with 16.
    change (spi_get_frame_size (Z.land (Z.shiftr (set_bit 458752 (Z.shiftl 3 8) (Z.shiftl SPI_TMOD_TRANS 8)) 16) 31)) with 1.
    change (set_bit 458752 (Z.shiftl 3 8) (Z.shiftl SPI_TMOD_TRANS 8)) with 459008. change (Z.shiftl 1 3) with 8. cbn -[send_loop drain_loop].
    fold d1. rewrite Z.mod_1_r. cbn [Z.eqb negb]. rewrite (mbindM_Ok _ _ _ _ _ (E2 fuel ltac:(lia))). cbn [negb].
    rewrite (mbindM_Ok _ _ _ _ _ (E3 fuel ltac:(lia))). reflexivity.
  - cbn. rewrite T3, S3. f_equal; [by rewrite Z.add_0_r|]. unfold arrived. cbn. by rewrite R2, R3.
  - cbn. destruct S2 as (_ & _ & _ & _ & S2), T2 as (_ & _ & _ & _ & T2). by rewrite T2, S2.
Qed.

Lemma copy_bytes_run n dst src (s : sys C) :
  PGSIZE ≤ dst → dst + Z.of_nat n ≤ src ∨ src + Z.of_nat n ≤ dst →
  ∃ m, copy_bytes n dst src s = Ok tt (Sys (set_mem m (ks s)) (ssi_of s)) ∧
    ∀ x, m x = if in_range dst (Z.of_nat n) x then load8 (mem (ks s)) (src + (x - dst)) else mem (ks s) x.
Proof.
  revert dst src s. induction n as [|n IH]; intros dst src s Hd Hs.
  { exists (mem (ks s)). split; [by destruct s as [[]]|]. intros x. rewrite (proj2 (in_range_false dst (Z.of_nat 0) x)) by lia. done. }
  cbn [copy_bytes]. rewrite (proj2 (Z.ltb_ge dst PGSIZE)) by done. unfold mbindM at 1, modify.
  destruct (IH (dst + 1) (src + 1) (Sys (set_mem (store_n 1 (mem (ks s)) dst (load8 (mem (ks s)) src)) (ks s)) (ssi_of s))) as (m & E & Hm); [lia|lia|].
  exists m. split; [by rewrite E|]. intros x. rewrite Hm. cbn [ks mem set_mem].
  destruct (in_range (dst + 1) (Z.of_nat n) x) eqn:E1.
  - apply in_range_true in E1. rewrite (proj2 (in_range_true dst (Z.of_nat (S n)) x)) by lia. unfold load8. rewrite store_n_other by lia. do 2 f_equal. lia.
  - apply in_range_false in E1. destruct (decide (x = dst)) as [->|Hx].
    + rewrite (proj2 (in_range_true dst (Z.of_nat (S n)) dst)) by lia. unfold store_n. rewrite (proj2 (in_range_true dst 1 dst)) by lia.
      rewrite Z.sub_diag, Z.add_0_r, Z.mul_0_r, Z.div_1_r. apply u8_idem.
    + rewrite (proj2 (in_range_false dst (Z.of_nat (S n)) x)), store_n_other by lia. done.
Qed.
Lemma bytes_at_ext m m' a b n :
  (∀ j, 0 ≤ j < Z.of_nat n → load8 m (a + j) = load8 m' (b + j)) → bytes_at m a n = bytes_at m' b n.
Proof.
  intros Hm. unfold bytes_at. apply map_ext_in. intros j Hj%in_seq. apply Hm. lia.
Qed.

(** Changing the allocated page and pages in use, then freeing it. *)
Lemma page_back k p L m :
  kalloc_inv k (p :: L) →
  (∀ x, ¬ (p ≤ x < p + PGSIZE) → m x ≠ mem k x → ∃ q, q mod PGSIZE = 0 ∧ q ∉ L ∧ q ≤ x < q + PGSIZE) →
  let k2 := set_mem m (kalloc_post p (load64 (mem k) p) k) in
  ∃ k', kfree p k2 = Ok tt k' ∧ kalloc_inv k' (p :: L) ∧ ∀ x, ¬ (p ≤ x < p + PGSIZE) → mem k' x = m x.
Proof.
  intros Hk Hm k2. destruct (kalloc_cons _ _ _ Hk) as [_ Hk1].
  pose proof (ki_pages _ _ Hk) as [Hp _]%Forall_cons. pose proof (ki_nodup _ _ Hk) as [HpL _]%NoDup_cons.
  assert (kalloc_inv k2 L) as Hk2.
  { apply kalloc_inv_frame; [done|]. intros x Hx. destruct (decide (p ≤ x < p + PGSIZE)) as [|Hxp]; [exists p; split; [apply Hp|done]|].
    apply Hm; [done|]. intros E. apply Hx. rewrite E. cbn. by rewrite fill_other. }
  destruct (kfree_free p k2 L Hk2 Hp HpL) as [Ef Hk3]; [cbn; rewrite upd_eq; lia|]. eexists. split; [exact Ef|]. split; [exact Hk3|].
  intros x Hx. cbn. by rewrite store64_other, fill_other by (unfold PGSIZE in *; lia).
Qed.
(** The bounce buffer: allocated, filled, sent and given back. *)
Lemma send_standard_run n buf p L (s : sys C) :
  kalloc_inv (ks s) (p :: L) → ready (ssi_of s) → fair (speed (ssi_of s)) → Z.of_nat n ≤ PGSIZE →
  p + PGSIZE ≤ buf ∨ buf + Z.of_nat n ≤ p →
  ∃ f0 s', (∀ fuel, (f0 ≤ fuel)%nat → spi_send_data_standard 0 fuel 3 0 0 buf (Z.of_nat n) s = Ok true s') ∧
    slave (ssi_of s') = send_all (bytes_at (mem (ks s)) buf n) (slave (ssi_of s)) ∧ speed (ssi_of s') = speed (ssi_of s) ∧
    kalloc_inv (ks s') (p :: L) ∧ (∀ x, ¬ (p ≤ x < p + PGSIZE) → mem (ks s') x = mem (ks s) x).
Proof.
  intros Hk Hd Hf Hn Hb. destruct (kalloc_cons _ _ _ Hk) as [Ek _]. set (k1 := kalloc_post p (load64 (mem (ks s)) p) (ks s)) in *.
  pose proof (ki_pages _ _ Hk) as [Hp _]%Forall_cons. pose proof (page_ok_range p Hp) as Hr.
  destruct (copy_bytes_run n p buf (Sys k1 (ssi_of s))) as (m & Em & Hm); [unfold KERNBASE, PGSIZE in *; lia|lia|]. cbn [ks ssi_of] in *.
  assert (∀ x, ¬ (p ≤ x < p + PGSIZE) → m x = mem (ks s) x) as Hout.
  { intros x Hx. rewrite Hm, (proj2 (in_range_false _ _ _)) by lia. cbn. by apply fill_other. }
  destruct (page_back (ks s) p L m Hk) as (k' & Ef & Hk' & Hm'); [intros x Hx Hne; by rewrite Hout in Hne|]. fold k1 in Ef.
  destruct (send_normal_run n p (Sys (set_mem m k1) (ssi_of s))) as (f0 & d' & E & Hs & Hsp); [done|done|done|]. cbn [ks ssi_of] in *.
  exists f0, (Sys k' d'). split.
  { intros fuel Hfuel. unfold spi_send_data_standard.
    rewrite (mbindM_Ok (in_kernel kalloc) _ s p (Sys k1 (ssi_of s))) by (unfold in_kernel, zoom; by rewrite Ek).
    rewrite (mbindM_Ok (copy_bytes (Z.to_nat 0) p 0) _ _ tt _ eq_refl), Z.add_0_r, Nat2Z.id, Z.add_0_l.
    rewrite (mbindM_Ok _ _ _ _ _ Em), (mbindM_Ok _ _ _ _ _ (E fuel Hfuel)). cbn [negb].
    unfold in_kernel, mbindM, zoom. cbn [ks ssi_of]. rewrite Ef. reflexivity. }
  cbn [ssi_of ks]. split; [|split; [done|split; [done|intros x Hx; by rewrite Hm', Hout]]].
  rewrite Hs. f_equal. apply bytes_at_ext. intros j Hj. unfold load8. cbn [mem set_mem]. rewrite Hm, (proj2 (in_range_true _ _ _)) by lia.
  unfold load8. rewrite u8_idem. f_equal. cbn. rewrite fill_other by lia. f_equal. lia.
Qed.

(** ** Receiving *)
Lemma receive_add a b (c : C) : receive_n (a + b) c =
  let '(l1, c1) := receive_n a c in let '(l2, c2) := receive_n b c1 in (l1 ++ l2, c2).
Proof.
  revert c. induction a as [|a IH]; intros c; cbn [receive_n Nat.add]; [by destruct (receive_n b c)|].
  destruct (spi_receive c) as [x c']. rewrite IH. destruct (receive_n a c') as [l1 c1]. by destruct (receive_n b c1) as [l2 c2].
Qed.
Lemma receive_length n (c : C) : length (receive_n n c).1 = n.
Proof.
  revert c. induction n as [|n IH]; intros c; [done|]. cbn. destruct (spi_receive c) as [b c']. specialize (IH c').
  destruct (receive_n n c'). cbn in *. by rewrite IH.
Qed.
(** A receive of [left] more frames; its start is one more step of the clock. *)
Definition receiving (left : nat) (d : ssi C) : Prop :=
  ssienr d = 1 ∧ ser d ≠ 0 ∧ tmod 0 d = SPI_TMOD_RECV ∧
  (to_receive d = left ∧ tx d = [] ∨ to_receive d = 0%nat ∧ (∃ x, tx d = [x]) ∧ left = S (Z.to_nat (ctrlr1 d mod 2 ^ 16))).
Definition waiting_start (d : ssi C) : nat := length (tx d).
Lemma clock_receive left d : receiving left d → (length (rxq d) < 32)%nat →
  let d' := clock 0 d in
  ∃ r, (r ≤ 1)%nat ∧ (r ≤ left)%nat ∧ receiving (left - r) d' ∧ same_regs d d' ∧ time d' = time d ∧
    rxq d' = rxq d ++ (receive_n r (slave d)).1 ∧ slave d' = (receive_n r (slave d)).2 ∧
    (waiting_start d' + (left - r) ≤ waiting_start d + left - 1)%nat.
Proof.
  intros (H1 & H2 & H3 & H4) Hq. unfold clock. rewrite H1, (proj2 (Z.eqb_neq _ _) H2), H3. cbn [Z.eqb Pos.eqb negb orb SPI_TMOD_TRANS SPI_TMOD_RECV].
  unfold waiting_start. destruct H4 as [[Hl Ht]|(Hl & [x Ht] & Hleft)].
  - rewrite Hl. destruct left as [|left].
    + rewrite Ht. exists 0%nat. cbn. rewrite app_nil_r, Ht. split; [lia|]. split; [lia|]. split; [split_and!; try done; left; by rewrite Hl|].
      split; [done|]. split; [done|]. split; [done|]. split; [done|]. cbn. lia.
    + destruct (spi_receive (slave d)) as [b c] eqn:Eb. rewrite (proj2 (Nat.ltb_lt _ 32)) by done. exists 1%nat. cbn. rewrite Eb, Ht, Nat.sub_0_r. cbn.
      split; [lia|]. split; [lia|]. split; [split_and!; try done; left; done|]. split; [done|]. split; [done|]. split; [done|]. split; [done|]. lia.
  - rewrite Hl, Ht. exists 0%nat. cbn [receive_n fst snd rxq slave tx with_queues length]. rewrite app_nil_r, Nat.sub_0_r.
    split; [lia|]. split; [lia|]. split; [split_and!; try done; left; by rewrite Hleft|]. split; [done|]. split; [done|]. split; [done|]. split; [done|]. lia.
Qed.
Lemma iter_receive n left d : receiving left d → (length (rxq d) + n ≤ 32)%nat →
  let d' := Nat.iter n (clock 0) d in
  ∃ r, (r ≤ n)%nat ∧ (r ≤ left)%nat ∧ receiving (left - r) d' ∧ same_regs d d' ∧ time d' = time d ∧
    rxq d' = rxq d ++ (receive_n r (slave d)).1 ∧ slave d' = (receive_n r (slave d)).2 ∧
    (waiting_start d' + (left - r) ≤ waiting_start d + left - n)%nat.
Proof.
  intros Hd Hq. induction n as [|n IH].
  { exists 0%nat. cbn. rewrite app_nil_r, Nat.sub_0_r. repeat (split; [first [done|lia]|]). lia. }
  change (Nat.iter (S n) (clock 0) d) with (clock 0 (Nat.iter n (clock 0) d)). cbn zeta in *.
  destruct IH as (r & R1 & R2 & R3 & R4 & R5 & R6 & R7 & R8); [lia|].
  destruct (clock_receive _ _ R3) as (r' & Q1 & Q2 & Q3 & Q4 & Q5 & Q6 & Q7 & Q8).
  { rewrite R6, length_app, receive_length. lia. }
  exists (r + r')%nat. replace (left - (r + r'))%nat with (left - r - r')%nat by lia. rewrite receive_add.
  rewrite R6, R7 in Q6. rewrite R7 in Q7. destruct (receive_n r (slave d)) as [l1 c1]. cbn [fst snd] in *.
  destruct (receive_n r' c1) as [l2 c2]. cbn [fst snd] in *.
  split; [lia|]. split; [lia|]. split; [done|]. split; [by etrans|]. split; [congruence|]. split; [by rewrite Q6, app_assoc|]. split; [done|]. lia.
Qed.
Lemma store_bytes_app m a l1 l2 x :
  store_bytes m a (l1 ++ l2) x = store_bytes (store_bytes m a l1) (a + Z.of_nat (length l1)) l2 x.
Proof.
  unfold store_bytes. rewrite length_app. destruct (in_range (a + Z.of_nat (length l1)) (Z.of_nat (length l2)) x) eqn:E2.
  - apply in_range_true in E2. rewrite (proj2 (in_range_true a _ x)) by lia. rewrite app_nth2 by lia. do 2 f_equal. lia.
  - apply in_range_false in E2. destruct (in_range a (Z.of_nat (length l1)) x) eqn:E1.
    + apply in_range_true in E1. rewrite (proj2 (in_range_true a _ x)) by lia. by rewrite app_nth1 by lia.
    + apply in_range_false in E1. by rewrite (proj2 (in_range_false a _ x)) by lia.
Qed.
Lemma store_bytes_ext m m' a l x : m x = m' x → store_bytes m a l x = store_bytes m' a l x.
Proof. intros Hm. unfold store_bytes. by rewrite Hm. Qed.
Lemma store_bytes_one m a b x : store_bytes m a [b] x = store_n 1 m a b x.
Proof.
  unfold store_bytes, store_n. change (Z.of_nat (length [b])) with 1. destruct (in_range a 1 x) eqn:E1; [|done].
  apply in_range_true in E1. assert (x = a) as -> by lia. rewrite Z.sub_diag. cbn [nth Z.to_nat]. by rewrite Z.mul_0_r, Z.div_1_r.
Qed.
Lemma pull_frames_run l a (s : sys C) :
  rxq (ssi_of s) = l →
  ∃ m, pull_frames (length l) 1 a s =
      Ok tt (Sys (set_mem m (ks s)) (with_queues (tx (ssi_of s)) (shift (ssi_of s)) [] (to_receive (ssi_of s)) (slave (ssi_of s)) (ssi_of s))) ∧
    ∀ x, m x = store_bytes (mem (ks s)) a l x.
Proof.
  revert a s. induction l as [|b l IH]; intros a [k d] Hl; cbn [ssi_of ks] in *.
  { exists (mem k). split; [destruct k, d; cbn in *; by subst|]. intros x. unfold store_bytes. by rewrite (proj2 (in_range_false a _ x)) by (cbn; lia). }
  set (d1 := with_queues (tx d) (shift d) l (to_receive d) (slave d) d).
  destruct (IH (a + 1) (Sys (set_mem (store_n 1 (mem k) a b) k) d1)) as (m & E & Hm); [done|]. exists m. split.
  - cbn [length pull_frames]. unfold mbindM at 1 2, read_dr, modify. cbn [ssi_of ks]. rewrite Hl. fold d1. exact E.
  - intros x. rewrite Hm. cbn [ks mem set_mem]. change (b :: l) with ([b] ++ l). rewrite store_bytes_app. apply store_bytes_ext.
    symmetry. apply store_bytes_one.
Qed.

Definition receives (left : nat) (buf i : Z) (s : sys C) : Prop :=
  ∃ f0 m d', (∀ fuel, (f0 ≤ fuel)%nat → receive_loop 0 fuel 1 buf i (Z.of_nat left) s = Ok true (Sys (set_mem m (ks s)) d')) ∧
    (∀ x, m x = store_bytes (mem (ks s)) (buf + i) (receive_n left (slave (ssi_of s))).1 x) ∧
    slave d' = (receive_n left (slave (ssi_of s))).2 ∧ speed d' = speed (ssi_of s).
(** One round: the [r] frames that have come are stored and the queue is empty. *)
Lemma receive_round left buf i (s : sys C) :
  receiving (S left) (ssi_of s) → rxq (ssi_of s) = [] → (∀ t, speed (ssi_of s) t ≤ 32)%nat → 0 ≤ i → i + Z.of_nat (S left) < 2 ^ 32 →
  ∃ r m d, (r ≤ S left)%nat ∧ receiving (S left - r) d ∧ rxq d = [] ∧ speed d = speed (ssi_of s) ∧ time d = S (time (ssi_of s)) ∧
    (∀ x, m x = store_bytes (mem (ks s)) (buf + i) (receive_n r (slave (ssi_of s))).1 x) ∧ slave d = (receive_n r (slave (ssi_of s))).2 ∧
    (waiting_start d + (S left - r) ≤ waiting_start (ssi_of s) + S left - speed (ssi_of s) (time (ssi_of s)))%nat ∧
    ∀ fuel, receive_loop 0 (S fuel) 1 buf i (Z.of_nat (S left)) s =
      receive_loop 0 fuel 1 buf (i + Z.of_nat r) (Z.of_nat (S left - r)) (Sys (set_mem m (ks s)) d).
Proof.
  intros Hd Hq Hsp Hi Hl. destruct (iter_receive (speed (ssi_of s) (time (ssi_of s))) (S left) (ssi_of s) Hd) as (r & R1 & R2 & R3 & R4 & R5 & R6 & R7 & R8);
    [rewrite Hq; apply Hsp|]. set (d1 := tick (Nat.iter (speed (ssi_of s) (time (ssi_of s))) (clock 0) (ssi_of s))).
  rewrite Hq in R6. cbn [List.app] in R6. pose proof (receive_length r (slave (ssi_of s))) as Hlen.
  destruct (pull_frames_run (receive_n r (slave (ssi_of s))).1 (buf + i) (Sys (ks s) d1)) as (m1 & E1 & Hm1); [exact R6|].
  rewrite Hlen in E1. cbn [ks ssi_of] in *. exists r, m1, (with_queues (tx d1) (shift d1) [] (to_receive d1) (slave d1) d1).
  split; [done|]. split; [exact R3|]. split; [done|]. split; [apply R4|]. split; [cbn; by rewrite R5|]. split; [done|]. split; [exact R7|]. split; [exact R8|].
  intros fuel. cbn [receive_loop]. rewrite (proj2 (Z.eqb_neq (Z.of_nat (S left)) 0)) by lia.
  unfold mbindM at 1, look, mbindM at 1, on_ssi, modify, gets. change (poll 0 (ssi_of s)) with d1. cbn [ks ssi_of].
  assert (rxflr d1 = Z.of_nat r) as -> by (unfold rxflr, d1, tick; cbn [rxq]; by rewrite R6, Hlen).
  rewrite Z.min_l, Nat2Z.id, Z.mul_1_l, (mbindM_Ok _ _ _ _ _ E1), u32_small by lia.
  by replace (Z.of_nat (S left) - Z.of_nat r) with (Z.of_nat (S left - r)) by lia.
Qed.
Lemma receives_next left r m d buf i (s : sys C) :
  (r ≤ S left)%nat → (∀ x, m x = store_bytes (mem (ks s)) (buf + i) (receive_n r (slave (ssi_of s))).1 x) →
  slave d = (receive_n r (slave (ssi_of s))).2 → speed d = speed (ssi_of s) →
  (∀ fuel, receive_loop 0 (S fuel) 1 buf i (Z.of_nat (S left)) s =
      receive_loop 0 fuel 1 buf (i + Z.of_nat r) (Z.of_nat (S left - r)) (Sys (set_mem m (ks s)) d)) →
  receives (S left - r) buf (i + Z.of_nat r) (Sys (set_mem m (ks s)) d) → receives (S left) buf i s.
Proof.
  intros Hr Hm Hs Hv Step (f0 & m' & d' & E & Hm' & Hs' & Hv'). cbn [ks ssi_of mem set_mem] in *. rewrite Hs in Hm', Hs'.
  exists (S f0), m', d'. split; [intros [|fuel] Hfuel; [lia|]; rewrite Step; apply E; lia|].
  pose proof (receive_length r (slave (ssi_of s))) as Hlen. replace (S left) with (r + (S left - r))%nat by lia. rewrite receive_add.
  destruct (receive_n r (slave (ssi_of s))) as [l1 c1]. cbn [fst snd] in *. destruct (receive_n (S left - r) c1) as [l2 c2]. cbn [fst snd] in *.
  split; [intros x; rewrite store_bytes_app, Hm', Hlen, Z.add_assoc; by apply store_bytes_ext|]. split; [done|congruence].
Qed.
Lemma receive_loop_run left buf i (s : sys C) :
  receiving left (ssi_of s) → rxq (ssi_of s) = [] → fair (speed (ssi_of s)) → (∀ t, speed (ssi_of s) t ≤ 32)%nat →
  0 ≤ i → i + Z.of_nat left < 2 ^ 32 → receives left buf i s.
Proof.
  remember (waiting_start (ssi_of s) + left)%nat as w eqn:Ew. revert left i s Ew. induction (lt_wf w) as [w _ IHw]. intros left i s Ew Hd Hq Hf Hsp Hi Hl.
  destruct (Hf (time (ssi_of s))) as [k Hk]. revert left i s Ew Hd Hq Hf Hsp Hi Hl Hk. induction k as [|k IHk]; intros left i s Ew Hd Hq Hf Hsp Hi Hl Hk.
  all: destruct left as [|left]; [exists 0%nat, (mem (ks s)), (ssi_of s); split; [intros [|fuel] _; by destruct s as [[]]|]; split; [|done];
    intros x; unfold store_bytes; by rewrite (proj2 (in_range_false _ _ x)) by (cbn; lia)|].
  all: destruct (receive_round left buf i s Hd Hq Hsp Hi Hl) as (r & m & d & R1 & R2 & R3 & R4 & R5 & R6 & R7 & R8 & Step);
    apply (receives_next left r m d buf i s R1 R6 R7 R4 Step).
  - rewrite Nat.add_0_r in Hk. eapply IHw; [|reflexivity| | | | | |]; cbn [ssi_of]; rewrite ?R4; try done; lia.
  - destruct (decide (waiting_start d + (S left - r) < w)%nat) as [Hlt|Hge].
    + eapply IHw; [exact Hlt|reflexivity| | | | | |]; cbn [ssi_of]; rewrite ?R4; try done; lia.
    + apply IHk; cbn [ssi_of]; rewrite ?R4, ?R5, ?Nat.add_succ_comm; try done; lia.
Qed.

Lemma receive_standard_run n buf (s : sys C) :
  ready (ssi_of s) → fair (speed (ssi_of s)) → (∀ t, speed (ssi_of s) t ≤ 32)%nat → 1 ≤ Z.of_nat n ≤ 2 ^ 16 →
  ∃ f0 m d', (∀ fuel, (f0 ≤ fuel)%nat → spi_receive_data_standard 0 fuel 3 0 0 buf (Z.of_nat n) s = Ok true (Sys (set_mem m (ks s)) d')) ∧
    (∀ x, m x = store_bytes (mem (ks s)) buf (receive_n n (slave (ssi_of s))).1 x) ∧ slave d' = (receive_n n (slave (ssi_of s))).2.
Proof.
  intros (R1 & R2 & R3 & R4 & R5) Hf Hsp Hn. destruct s as [k d]. cbn [ks ssi_of] in *.
  set (d1 := Ssi 459264 (Z.of_nat n - 1) 1 8 (baudr d) (imr d) (dmacr d) (dmatdlr d) (dmardlr d) (spi_ctrlr0 d) (endian d)
    [4294967295] (shift d) (rxq d) (to_receive d) (slave d) (speed d) (time d)).
  assert (receiving n d1) as Hd1.
  { split_and!; try done. right. split; [done|]. split; [by eexists|]. cbn. change (Z.pow_pos 2 16) with (2 ^ 16). rewrite Z.mod_small by lia. lia. }
  destruct (receive_loop_run n buf 0 (Sys k d1)) as (f1 & m & d2 & E2 & Hm & Hs & _); try done; [lia|]. cbn [ks ssi_of] in *.
  exists f1, m. eexists. split; [|split; [intros x; rewrite Hm, Z.add_0_r; done|]]; cycle 1.
  - instantiate (1 := Ssi (ctrlr0 d2) (ctrlr1 d2) 0 0 (baudr d2) (imr d2) (dmacr d2) (dmatdlr d2) (dmardlr d2) (spi_ctrlr0 d2) (endian d2)
      [] None [] 0 (slave d2) (speed d2) (time d2)). exact Hs.
  - intros fuel Hfuel. unfold spi_receive_data_standard, spi_set_tmod, frame_width, write_ctrlr0, write_ctrlr1, write_ssienr, on_ssi.
    unfold mbindM at 1 2 3 4 5, gets, modify. cbn [ks ssi_of ctrlr0 Z.eqb]. rewrite R1. change (tmod_offset 0) with 8. change (dfs_offset 0) with 16.
    change (spi_get_frame_size (Z.land (Z.shiftr (set_bit 458752 (Z.shiftl 3 8) (Z.shiftl SPI_TMOD_RECV 8)) 16) 31)) with 1.
    change (set_bit 458752 (Z.shiftl 3 8) (Z.shiftl SPI_TMOD_RECV 8)) with 459264. rewrite !Z.div_1_r, !(u32_small (Z.of_nat n)), (u32_small (Z.of_nat n - 1)) by lia.
    rewrite (mbindM_Ok (cmd_loop 0 fuel 1 3 0 0 0) _ _ true _) by (by destruct fuel). cbn [negb whenM].
    unfold mbindM at 1 2, write_dr, write_ser, on_ssi, modify. cbn. rewrite R2. cbn. fold d1.
    rewrite (mbindM_Ok _ _ _ _ _ (E2 fuel Hfuel)). reflexivity.
Qed.

(** The SPI driver makes the transfers the SD card driver is written against.
    Whatever speed frames pass at, [sd_write_data] over spi.c ends and has sent the
    card exactly the bytes of the buffer, in order, with its page given back to the
    allocator and no other memory changed; [sd_read_data] over spi.c ends, if the
    queue of 32 frames is not overrun, with the bytes the card drove in the buffer. *)
Theorem spi_refines_card n buf std (s : sys C) :
  fair (speed (ssi_of s)) →
  (∀ p L, kalloc_inv (ks s) (p :: L) → Z.of_nat n ≤ PGSIZE → p + PGSIZE ≤ buf ∨ buf + Z.of_nat n ≤ p →
    ∃ f0 s', (∀ fuel, (f0 ≤ fuel)%nat → spi_sd_write 0 fuel buf (Z.of_nat n) s = Ok true s') ∧
      sd_write_data (bytes_at (mem (ks s)) buf n) (Sd (slave (ssi_of s)) std) = Ok tt (Sd (slave (ssi_of s')) std) ∧
      kalloc_inv (ks s') (p :: L) ∧ (∀ x, ¬ (p ≤ x < p + PGSIZE) → mem (ks s') x = mem (ks s) x)) ∧
  ((∀ t, speed (ssi_of s) t ≤ 32)%nat → 1 ≤ Z.of_nat n ≤ 2 ^ 16 →
    ∃ f0 s' l, (∀ fuel, (f0 ≤ fuel)%nat → spi_sd_read 0 fuel buf (Z.of_nat n) s = Ok true s') ∧
      sd_read_data n (Sd (slave (ssi_of s)) std) = Ok l (Sd (slave (ssi_of s')) std) ∧ length l = n ∧
      ∀ x, mem (ks s') x = store_bytes (mem (ks s)) buf l x).
Proof.
  intros Hf. destruct (spi_init_run s) as (d & Ei & Hr & Hs & Hv & _).
  split.
  - intros p L Hk Hn Hb. destruct (send_standard_run n buf p L (Sys (ks s) d)) as (f0 & s' & E & S1 & S2 & S3 & S4); try done; [cbn [ssi_of]; by rewrite Hv|].
    exists f0, s'. split; [intros fuel Hfuel; unfold spi_sd_write; rewrite (mbindM_Ok _ _ _ _ _ Ei); by apply E|]. split; [|done].
    unfold sd_write_data, modify. cbn [card is_standard_sd]. by rewrite S1, <- Hs.
  - intros Hsp Hn. destruct (receive_standard_run n buf (Sys (ks s) d)) as (f0 & m & d' & E & S1 & S2); try done; [cbn [ssi_of]; by rewrite Hv|cbn [ssi_of]; by rewrite Hv|].
    exists f0, (Sys (set_mem m (ks s)) d'), (receive_n n (slave (ssi_of s))).1. cbn [ks ssi_of] in *. rewrite Hs in S1, S2.
    split; [intros fuel Hfuel; unfold spi_sd_read; rewrite (mbindM_Ok _ _ _ _ _ Ei); by apply E|].
    split; [|split; [apply receive_length|done]]. unfold sd_read_data. cbn [card is_standard_sd]. rewrite S2. by destruct (receive_n n (slave (ssi_of s))).
Qed.

End Zero.

(** ** A card that records what it is sent *)
#[local] Existing Instance small_layout.
#[local] Instance recorder : SpiCard (list Z) := {| spi_select := λ _ c, c; spi_send := λ b c, c ++ [b]; spi_receive := λ c, (7, c) |}.
Definition spi_boot : sys (list Z) :=
  Sys (Kst (λ x, if x <? PGSIZE then x mod 256 else 0) (PHYSTOP - PGSIZE) 1 (λ _, 0))
    (Ssi 0 0 0 0 0 0 0 0 0 0 0 [] None [] 0 [] (λ t, t mod 2)%nat 0).
Lemma spi_boot_fair : fair (speed (ssi_of spi_boot)).
Proof.
  intros t. exists (if Nat.odd t then 0%nat else 1%nat). cbn [speed ssi_of spi_boot]. rewrite <- Nat.bit0_mod, Nat.bit0_odd.
  destruct (Nat.odd t) eqn:E; [rewrite Nat.add_0_r, E; cbn; lia|rewrite Nat.add_1_r, Nat.odd_succ, <- Nat.negb_odd, E; cbn; lia].
Qed.
Lemma spi_boot_pages : kalloc_inv (ks spi_boot) [PHYSTOP - PGSIZE].
Proof.
  split; cbn -[PHYSTOP PGSIZE]; [vm_compute; split; reflexivity|apply NoDup_singleton| |done|done|lia].
  constructor; [|done]. vm_compute; intuition congruence.
Qed.
Lemma spi_refines_card_witness :
  ∃ s', sd_write_data (bytes_at (mem (ks spi_boot)) 5 40) (Sd (slave (ssi_of spi_boot)) false) = Ok tt (Sd (slave (ssi_of s')) false) ∧
    ∃ f0, spi_sd_write 0 f0 5 40 spi_boot = Ok true s'.
Proof.
  destruct (spi_refines_card 40 5 false spi_boot) as [H _]; [apply spi_boot_fair|].
  destruct (H (PHYSTOP - PGSIZE) []) as (f0 & s' & E & Hs & _).
  - apply spi_boot_pages.
  - vm_compute; congruence.
  - right. vm_compute; congruence.
  - exists s'. split; [exact Hs|]. exists f0. apply E. lia.
Defined.

(** ** An overrun

    When more than 32 frames pass between two looks, the frames that find the queue
    full are lost, the receive loop waits for them and never ends. *)
Lemma clock_idle (d : ssi (list Z)) : tmod 0 d = SPI_TMOD_RECV → to_receive d = 0%nat → tx d = [] → clock 0 d = d.
Proof. intros Hm Hr Ht. unfold clock. rewrite Hm, Hr, Ht. cbn. by destruct (negb (ssienr d =? 1) || (ser d =? 0)). Qed.
Lemma starved_spins fuel buf i left (s : sys (list Z)) :
  tmod 0 (ssi_of s) = SPI_TMOD_RECV → to_receive (ssi_of s) = 0%nat → tx (ssi_of s) = [] → rxq (ssi_of s) = [] → 0 < left →
  ∃ s', receive_loop 0 fuel 1 buf i left s = Ok false s'.
Proof.
  intros Hm Hr Ht Hq Hl. revert i s Hm Hr Ht Hq. induction fuel as [|fuel IH]; intros i s Hm Hr Ht Hq; cbn [receive_loop];
    rewrite (proj2 (Z.eqb_neq left 0)) by lia; [by eexists|].
  assert (∀ n, Nat.iter n (clock 0) (ssi_of s) = ssi_of s) as Hit.
  { intros n. induction n as [|n IHn]; [done|]. change (clock 0 (Nat.iter n (clock 0) (ssi_of s)) = ssi_of s). rewrite IHn. by apply clock_idle. }
  unfold mbindM at 1, look, mbindM at 1, on_ssi, modify, gets. unfold poll. rewrite Hit. cbn [ssi_of ks].
  assert (rxflr (tick (ssi_of s)) = 0) as -> by (unfold rxflr; cbn; by rewrite Hq).
  rewrite Z.min_l by lia. cbn [Z.to_nat pull_frames]. unfold mbindM, mretM. rewrite Z.sub_0_r. by apply IH.
Qed.
(** One long pause at the first look: 40 frames asked for, 8 lost. *)
Definition paused : sys (list Z) :=
  Sys (Kst (λ _, 0) 0 0 (λ _, 0)) (Ssi 0 0 0 0 0 0 0 0 0 0 0 [] None [] 0 [] (λ t, match t with O => 41 | _ => 1 end)%nat 0).
Definition paused_start : sys (list Z) :=
  Sys (ks paused) (Ssi 459264 39 1 8 20 0 0 16 0 0 0 [4294967295] None [] 0 [] (speed (ssi_of paused)) 0).
Lemma paused_run fuel : spi_sd_read 0 fuel 8192 40 paused =
  (ok <-- receive_loop 0 fuel 1 8192 0 40;; if negb ok then mretM false else write_ser 0;;; write_ssienr 0;;; mretM true) paused_start.
Proof. unfold spi_sd_read. erewrite mbindM_Ok by (vm_compute; reflexivity). by destruct fuel. Qed.
Lemma paused_round fuel :
  ∃ s1, receive_loop 0 (S fuel) 1 8192 0 40 paused_start = receive_loop 0 fuel 1 8192 32 8 s1 ∧
    tmod 0 (ssi_of s1) = SPI_TMOD_RECV ∧ to_receive (ssi_of s1) = 0%nat ∧ tx (ssi_of s1) = [] ∧ rxq (ssi_of s1) = [].
Proof.
  assert (poll 0 (ssi_of paused_start) = Ssi 459264 39 1 8 20 0 0 16 0 0 0 [] None (replicate 32 7) 0 [] (speed (ssi_of paused)) 1) as Hp by (vm_compute; reflexivity).
  destruct (pull_frames_run (replicate 32 7) (8192 + 1 * 0) (Sys (ks paused) (poll 0 (ssi_of paused_start)))) as (m & E & _); [by rewrite Hp|].
  rewrite Hp in E. cbn [ks ssi_of tx shift to_receive slave with_queues] in E.
  exists (Sys (set_mem m (ks paused)) (Ssi 459264 39 1 8 20 0 0 16 0 0 0 [] None [] 0 [] (speed (ssi_of paused)) 1)). split; [|by split_and!].
  cbn [receive_loop Z.eqb]. unfold mbindM at 1, look, mbindM at 1, on_ssi, modify, gets. rewrite Hp. cbn [ks ssi_of].
  change (rxflr _) with 32. cbv zeta. change (Z.to_nat (32 `min` 40)) with (length (replicate 32 7)).
  change (ks paused_start) with (ks paused). rewrite (mbindM_Ok _ _ _ _ _ E). reflexivity.
Qed.
Theorem receive_overrun_spins fuel : ∃ s', spi_sd_read 0 fuel 8192 40 paused = Ok false s'.
Proof.
  rewrite paused_run. destruct fuel as [|fuel]; [by eexists|].
  destruct (paused_round fuel) as (s1 & Step & H1 & H2 & H3 & H4). destruct (starved_spins fuel 8192 32 8 s1 H1 H2 H3 H4 ltac:(lia)) as (s' & E).
  rewrite <- Step in E. rewrite (mbindM_Ok _ _ _ _ _ E). by eexists.
Qed.
