(* ===== verification/SpiDma.v ===== *)
(** * SPI transfers by DMA (kernel/spi.c, over kernel/dmac.c)

    The sectors of the SD card move this way.  The driver widens each byte to a word
    in a page of its own, programs a channel and sleeps.  The hardware: a running
    channel moves, as its registers say, words between memory and the data register
    of the controller, waiting for room in the transmit queue or for a frame in the
    receive queue, and stops at the end.  The low 32 bits of an address select the
    device. *)
From stdpp Require Import prelude list strings.
From Stdlib Require Import ZArith Lia.
From S2P Require Import Prelude Riscv Kalloc Sdcard Regs Sysctl Dmac Pins Spi.
Open Scope Z_scope.
#[local] Arguments Z.testbit : simpl never.
#[local] Arguments set_field : simpl never.
#[local] Arguments get_field : simpl never.

Section Dma.
Context {C : Type} `{!SpiCard C} `{Layout} (spi_num : Z).
Record board := Board { sp : sys C; dma : dmac }.
Definition on_sp {A} (c : M (sys C) A) : M board A := zoom sp (λ s b, Board s (dma b)) c.
Definition on_dma {A} (c : M dmac A) : M board A := zoom dma (λ d b, Board (sp b) d) c.

(** ** The hardware *)
(** The data register of SPI0, SPI1, the slave and SPI2. *)
Definition spi_base : Z :=
  if spi_num =? 0 then 1375731712 else if spi_num =? 1 then 1392508928 else if spi_num =? 2 then 1344536576 else 1409286144.
Definition dr_address : Z := spi_base + VIRT_OFFSET + 96.
Definition put (v : Z) (d : ssi C) : ssi C :=
  let d := if (length (tx d) <? 32)%nat then d else clock spi_num d in
  with_queues (tx d ++ [v]) (shift d) (rxq d) (to_receive d) (slave d) d.
Fixpoint dma_send (n : nat) (m : memory) (src : Z) (d : ssi C) : ssi C :=
  match n with O => d | S n => dma_send n m (src + 4) (put (load_n 4 m src) d) end.
(** A frame comes within two clocks of the start of a receive. *)
Definition get (d : ssi C) : ssi C :=
  let d := match rxq d with [] => clock spi_num d | _ => d end in
  match rxq d with [] => clock spi_num d | _ => d end.
Fixpoint dma_receive (n : nat) (m : memory) (dst : Z) (d : ssi C) : memory * ssi C :=
  match n with
  | O => (m, d)
  | S n =>
      let d := get d in
      match rxq d with
      | [] => (m, d)
      | b :: l => dma_receive n (store_n 4 m dst b) (dst + 4) (with_queues (tx d) (shift d) l (to_receive d) (slave d) d)
      end
  end.
Definition moves_out (t : transfer) : bool :=
  (t_flow t =? DMAC_MEM2PRF_DMA) && (t_dst t mod 2 ^ 32 =? dr_address mod 2 ^ 32) && (t_src_fixed t =? 0) && (t_dst_fixed t =? 1) &&
  ((t_width t).1 =? 2) && ((t_width t).2 =? 2).
Definition moves_in (t : transfer) : bool :=
  (t_flow t =? DMAC_PRF2MEM_DMA) && (t_src t mod 2 ^ 32 =? dr_address mod 2 ^ 32) && (t_src_fixed t =? 1) && (t_dst_fixed t =? 0) &&
  ((t_width t).1 =? 2) && ((t_width t).2 =? 2).
Definition engine (n : Z) (b : board) : board :=
  let t := programmed (chan (dma b) n) in
  let k := ks (sp b) in
  let d := ssi_of (sp b) in
  let items := Z.to_nat (t_items t) in
  let s :=
    if moves_out t then Sys k (dma_send items (mem k) (t_src t) d)
    else if moves_in t then let '(m, d) := dma_receive items (mem k) (t_dst t) d in Sys (set_mem m k) d
    else sp b in
  Board s (finish n (dma b)).

(** ** spi.c *)
(** [dmac_wait_done]: asleep, the channel works. *)
Fixpoint wait_done (fuel : nat) (n : Z) : M board bool :=
  i <-- on_dma (dmac_is_idle n);;
  if i =? 1 then mretM true else
  match fuel with O => mretM false | S fuel => modify (engine n);;; wait_done fuel n end.
Definition write_dmacr (v : Z) : M (sys C) unit :=
  on_ssi (λ d, Ssi (ctrlr0 d) (ctrlr1 d) (ssienr d) (ser d) (baudr d) (imr d) v (dmatdlr d) (dmardlr d) (spi_ctrlr0 d) (endian d)
    (tx d) (shift d) (rxq d) (to_receive d) (slave d) (speed d) (time d)).
Definition spi_get_frame_format : M (sys C) Z :=
  gets (λ s, Z.land (Z.shiftr (ctrlr0 (ssi_of s)) (frf_offset spi_num)) 3).
Definition SSI0_RX_REQ : Z := 0.
Definition SSI0_TX_REQ : Z := 1.
(** [buf[i] = src[i]] for frames of [w] bytes and words of [buf]; a frame back from a
    word. *)
Fixpoint widen (n : nat) (w dst src : Z) : M (sys C) unit :=
  match n with
  | O => mretM tt
  | S n =>
      if dst <? PGSIZE then panic "kerneltrap" else
      modify (λ s, Sys (set_mem (store_n 4 (mem (ks s)) dst (load_n (Z.to_nat w) (mem (ks s)) src)) (ks s)) (ssi_of s));;;
      widen n w (dst + 4) (src + w)
  end.
Fixpoint narrow (n : nat) (w dst src : Z) : M (sys C) unit :=
  match n with
  | O => mretM tt
  | S n =>
      modify (λ s, Sys (set_mem (store_n w (mem (ks s)) dst (load_n 4 (mem (ks s)) src)) (ks s)) (ssi_of s));;;
      narrow n w (dst + w) (src + 4)
  end.

Definition spi_receive_data_normal_dma (fuel : nat) (send_ch recv_ch chip_select cmd_buff cmd_len rx_buff rx_len : Z) : M board bool :=
  on_sp (spi_set_tmod spi_num (if cmd_len =? 0 then SPI_TMOD_RECV else SPI_TMOD_EEROM));;;
  on_sp (write_ctrlr1 (u32 (rx_len - 1)));;;
  on_sp (write_dmacr 3);;;
  on_sp (write_ssienr 1);;;
  whenM (negb (cmd_len =? 0)) (on_dma (zoom clocks set_clocks (sysctl_dma_select send_ch (SSI0_TX_REQ + spi_num * 2)));;; mretM tt);;;
  on_dma (zoom clocks set_clocks (sysctl_dma_select recv_ch (SSI0_RX_REQ + spi_num * 2)));;;
  ok <-- on_dma (dmac_set_single_mode id fuel recv_ch dr_address rx_buff 1 0 0 2 rx_len);;
  if negb ok then mretM false else
  ok <-- (if negb (cmd_len =? 0) then on_dma (dmac_set_single_mode id fuel send_ch cmd_buff dr_address 0 1 1 2 cmd_len) else mretM true);;
  if negb ok then mretM false else
  fmt <-- on_sp spi_get_frame_format;;
  whenM ((cmd_len =? 0) && (fmt =? 0)) (on_sp (write_dr 4294967295));;;
  on_sp (write_ser (Z.shiftl 1 chip_select));;;
  ok <-- (if negb (cmd_len =? 0) then wait_done fuel send_ch else mretM true);;
  if negb ok then mretM false else
  ok <-- wait_done fuel recv_ch;;
  if negb ok then mretM false else
  on_sp (write_ser 0);;;
  on_sp (write_ssienr 0);;;
  mretM true.

Definition spi_send_data_normal_dma (fuel : nat) (channel chip_select tx_buff tx_len width : Z) : M board bool :=
  on_sp (spi_set_tmod spi_num SPI_TMOD_TRANS);;;
  buf <-- (if width =? 4 then mretM tx_buff else
           buf <-- on_sp (in_kernel kalloc);;
           on_sp (widen (Z.to_nat tx_len) (if width =? 2 then 2 else 1) buf tx_buff);;;
           mretM buf);;
  on_sp (write_dmacr 2);;;
  on_sp (write_ssienr 1);;;
  on_dma (zoom clocks set_clocks (sysctl_dma_select channel (SSI0_TX_REQ + spi_num * 2)));;;
  ok <-- on_dma (dmac_set_single_mode id fuel channel buf dr_address 0 1 1 2 tx_len);;
  if negb ok then mretM false else
  on_sp (write_ser (Z.shiftl 1 chip_select));;;
  ok <-- wait_done fuel channel;;
  if negb ok then mretM false else
  whenM (negb (width =? 4)) (on_sp (in_kernel (kfree buf)));;;
  ok <-- on_sp (drain_loop spi_num fuel);;
  if negb ok then mretM false else
  on_sp (write_ser 0);;;
  on_sp (write_ssienr 0);;;
  mretM true.

(** [&write_cmd[i]] is the buffer of the answer. *)
Definition spi_receive_data_standard_dma (fuel : nat) (send_ch recv_ch chip_select cmd_buff cmd_len rx_buff rx_len : Z) : M board bool :=
  w <-- on_sp (frame_width spi_num);;
  write_cmd <-- on_sp (in_kernel kalloc);;
  on_sp (widen (Z.to_nat (cmd_len / w)) w write_cmd cmd_buff);;;
  let read_buf := write_cmd + 4 * (cmd_len / w) in
  ok <-- spi_receive_data_normal_dma fuel send_ch recv_ch chip_select write_cmd (cmd_len / w) read_buf (rx_len / w);;
  if negb ok then mretM false else
  on_sp (narrow (Z.to_nat (rx_len / w)) w rx_buff read_buf);;;
  on_sp (in_kernel (kfree write_cmd));;;
  mretM true.
Definition spi_send_data_standard_dma (fuel : nat) (channel chip_select cmd_buff cmd_len tx_buff tx_len : Z) : M board bool :=
  w <-- on_sp (frame_width spi_num);;
  buf <-- on_sp (in_kernel kalloc);;
  on_sp (widen (Z.to_nat (cmd_len / w)) w buf cmd_buff);;;
  on_sp (widen (Z.to_nat (tx_len / w)) w (buf + 4 * (cmd_len / w)) tx_buff);;;
  ok <-- spi_send_data_normal_dma fuel channel chip_select buf ((cmd_len + tx_len) / w) 4;;
  if negb ok then mretM false else
  on_sp (in_kernel (kfree buf));;;
  mretM true.

(** What sdcard.c calls: channel 0, device 0, slave 3, frames of 8 bits. *)
Definition sd_write_data_dma (fuel : nat) (data_buff length : Z) : M board bool :=
  on_sp (spi_init spi_num 0 0 8 0);;; spi_send_data_standard_dma fuel 0 3 0 0 data_buff length.
Definition sd_read_data_dma (fuel : nat) (data_buff length : Z) : M board bool :=
  on_sp (spi_init spi_num 0 0 8 0);;; spi_receive_data_standard_dma fuel (-1) 0 3 0 0 data_buff length.
End Dma.
Arguments board C : clear implicits.

Section Words.
Context {C : Type} `{!SpiCard C} `{Layout}.

(** ** Bytes as words *)
Lemma load4_store4 m a v : load_n 4 (store_n 4 m a v) a = u32 v.
Proof. replace a with (a + 0) at 2 by lia. rewrite (load_n_store_n 4 4) by lia. by rewrite Z.div_1_r. Qed.
Lemma load4_other n m a v b : b + 4 ≤ a ∨ a + n ≤ b → load_n 4 (store_n n m a v) b = load_n 4 m b.
Proof. intros Hb. apply load_n_ext. intros x Hx. unfold load8. by rewrite store_n_other by lia. Qed.
Lemma load1 m a : load_n (Z.to_nat 1) m a = load8 m a.
Proof. change (load8 m a + 2 ^ 8 * 0 = load8 m a). lia. Qed.
Definition words (m : memory) (a : Z) (n : nat) : list Z := map (λ j, load_n 4 m (a + 4 * Z.of_nat j)) (seq 0 n).
Lemma words_cons m a n : words m a (S n) = load_n 4 m a :: words m (a + 4) n.
Proof.
  unfold words. cbn [seq map]. rewrite Z.add_0_r, <- seq_shift, map_map. f_equal. apply map_ext. intros j. f_equal. lia.
Qed.

Lemma widen_run n dst src (s : sys C) :
  PGSIZE ≤ dst → dst + 4 * Z.of_nat n ≤ src ∨ src + Z.of_nat n ≤ dst →
  ∃ m, widen n 1 dst src s = Ok tt (Sys (set_mem m (ks s)) (ssi_of s)) ∧
    (∀ j, 0 ≤ j < Z.of_nat n → load_n 4 m (dst + 4 * j) = load8 (mem (ks s)) (src + j)) ∧
    ∀ x, ¬ (dst ≤ x < dst + 4 * Z.of_nat n) → m x = mem (ks s) x.
Proof.
  revert dst src s. induction n as [|n IH]; intros dst src s Hd Hs.
  { exists (mem (ks s)). split; [by destruct s as [[]]|]. split; [lia|done]. }
  cbn [widen]. rewrite (proj2 (Z.ltb_ge dst PGSIZE)) by done. unfold mbindM at 1, modify. rewrite load1.
  destruct (IH (dst + 4) (src + 1) (Sys (set_mem (store_n 4 (mem (ks s)) dst (load8 (mem (ks s)) src)) (ks s)) (ssi_of s))) as (m & E & Hm & Ho); [lia|lia|].
  cbn [ks ssi_of mem set_mem] in *. exists m. split; [by rewrite E|]. split.
  - intros j Hj. destruct (decide (j = 0)) as [->|Hj0].
    + rewrite Z.mul_0_r, !Z.add_0_r. etrans; [|apply (u32_small (load8 (mem (ks s)) src)); pose proof (u8_range (mem (ks s) src)); unfold load8; lia].
      rewrite <- (load4_store4 (mem (ks s)) dst). apply load_n_ext. intros x Hx. unfold load8. by rewrite Ho by lia.
    + replace (dst + 4 * j) with (dst + 4 + 4 * (j - 1)) by lia. rewrite Hm by lia. unfold load8. rewrite store_n_other by lia. do 2 f_equal. lia.
  - intros x Hx. rewrite Ho, store_n_other by lia. done.
Qed.
Lemma narrow_run n dst src (s : sys C) :
  dst + Z.of_nat n ≤ src ∨ src + 4 * Z.of_nat n ≤ dst →
  ∃ m, narrow n 1 dst src s = Ok tt (Sys (set_mem m (ks s)) (ssi_of s)) ∧
    ∀ x, m x = store_bytes (mem (ks s)) dst (words (mem (ks s)) src n) x.
Proof.
  revert dst src s. induction n as [|n IH]; intros dst src s Hs.
  { exists (mem (ks s)). split; [by destruct s as [[]]|]. intros x. unfold store_bytes. by rewrite (proj2 (in_range_false _ _ x)) by (cbn; lia). }
  cbn [narrow]. unfold mbindM at 1, modify.
  destruct (IH (dst + 1) (src + 4) (Sys (set_mem (store_n 1 (mem (ks s)) dst (load_n 4 (mem (ks s)) src)) (ks s)) (ssi_of s))) as (m & E & Hm); [lia|].
  cbn [ks ssi_of mem set_mem] in *. exists m. split; [by rewrite E|]. intros x. rewrite Hm, words_cons.
  change (load_n 4 (mem (ks s)) src :: words (mem (ks s)) (src + 4) n) with ([load_n 4 (mem (ks s)) src] ++ words (mem (ks s)) (src + 4) n).
  rewrite store_bytes_app. assert (words (store_n 1 (mem (ks s)) dst (load_n 4 (mem (ks s)) src)) (src + 4) n = words (mem (ks s)) (src + 4) n) as ->.
  { unfold words. apply map_ext_in. intros j Hj%in_seq. apply load4_other. lia. }
  apply store_bytes_ext. symmetry. apply store_bytes_one.
Qed.

(** ** The channel at work *)
Lemma put_send v (d : ssi C) : sending 0 d → sending 0 (put 0 v d) ∧ same_regs d (put 0 v d) ∧ arrived (put 0 v d) = spi_send v (arrived d).
Proof.
  intros Hd. unfold put. pose proof Hd as (_ & _ & _ & Hl).
  assert (∀ d0 : ssi C, sending 0 d0 → (length (tx d0) < 32)%nat → let d1 := with_queues (tx d0 ++ [v]) (shift d0) (rxq d0) (to_receive d0) (slave d0) d0 in
    sending 0 d1 ∧ same_regs d0 d1 ∧ arrived d1 = spi_send v (arrived d0)) as Hpush.
  { intros d0 (H1 & H2 & H3 & H4) Hl0. split; [split_and!; try done; cbn; rewrite length_app; cbn; lia|]. split; [done|].
    unfold arrived. cbn. by rewrite send_all_app. }
  destruct (Nat.ltb_spec (length (tx d)) 32); [by apply Hpush|].
  destruct (clock_send 0 d Hd) as (I1 & I2 & I3 & I4 & I5 & I6). destruct (Hpush _ I1) as (J1 & J2 & J3); [lia|].
  split; [done|]. split; [by etrans|congruence].
Qed.
Lemma dma_send_run n m src (d : ssi C) : sending 0 d →
  sending 0 (dma_send 0 n m src d) ∧ same_regs d (dma_send 0 n m src d) ∧ arrived (dma_send 0 n m src d) = send_all (words m src n) (arrived d).
Proof.
  revert src d. induction n as [|n IH]; intros src d Hd; [done|]. cbn [dma_send]. rewrite words_cons.
  destruct (put_send (load_n 4 m src) d Hd) as (I1 & I2 & I3). destruct (IH (src + 4) _ I1) as (J1 & J2 & J3).
  split; [done|]. split; [by etrans|]. cbn [send_all]. by rewrite J3, I3.
Qed.
Lemma get_frame left (d : ssi C) : receiving (S left) d → rxq d = [] →
  let d' := get 0 d in
  rxq d' = [(spi_receive (slave d)).1] ∧ slave d' = (spi_receive (slave d)).2 ∧ same_regs d d' ∧
  receiving left (with_queues (tx d') (shift d') [] (to_receive d') (slave d') d').
Proof.
  intros Hd Hq. destruct d as [c0 c1 en se bd im dm td rd sc nd t h r tr c spd tm]. cbn in Hq. subst r.
  destruct Hd as (H1 & H2 & H3 & H4). cbn in H1, H2, H4. subst en. unfold tmod in H3. cbn [ctrlr0] in H3.
  unfold get, clock, tmod. cbn [rxq ssienr ser ctrlr0]. rewrite (proj2 (Z.eqb_neq _ _) H2), H3. cbn [Z.eqb Pos.eqb negb orb SPI_TMOD_TRANS SPI_TMOD_RECV].
  destruct H4 as [[-> ->]|(-> & [x ->] & Hl)]; cbn [to_receive tx rxq slave shift with_queues].
  - destruct (spi_receive c) as [b c'] eqn:Eb. cbn. split; [done|]. split; [done|]. split; [done|]. split_and!; try done. by left.
  - cbn [ssienr ser ctrlr0 ctrlr1 to_receive slave rxq with_queues]. rewrite (proj2 (Z.eqb_neq _ _) H2), H3.
    cbn [Z.eqb Pos.eqb negb orb SPI_TMOD_TRANS SPI_TMOD_RECV]. destruct (spi_receive c) as [b c'] eqn:Eb. cbn -[Z.pow].
    split; [done|]. split; [done|]. split; [done|]. split_and!; try done. left. split; [|done]. cbn -[Z.pow]. lia.
Qed.
Lemma dma_receive_run n left m dst (d : ssi C) : receiving left d → rxq d = [] → (n ≤ left)%nat →
  let r := dma_receive 0 n m dst d in
  same_regs d r.2 ∧ slave r.2 = (receive_n n (slave d)).2 ∧
  words r.1 dst n = map u32 (receive_n n (slave d)).1 ∧ ∀ x, ¬ (dst ≤ x < dst + 4 * Z.of_nat n) → r.1 x = m x.
Proof.
  revert left m dst d. induction n as [|n IH]; intros left m dst d Hd Hq Hn; [done|]. destruct left as [|left]; [lia|].
  destruct (get_frame left d Hd Hq) as (G1 & G2 & G3 & G4). cbn [dma_receive receive_n]. cbv zeta. rewrite G1.
  destruct (spi_receive (slave d)) as [b c]. cbn [fst snd] in *.
  destruct (IH left (store_n 4 m dst b) (dst + 4) _ G4) as (I1 & I2 & I3 & I4); [done|lia|]. cbn [slave with_queues] in I2, I3. cbv zeta in *. rewrite G2 in I1, I2, I3, I4.
  rewrite G2. destruct (receive_n n c) as [l c']. cbn [fst snd] in *.
  split; [etrans; [exact G3|exact I1]|]. split; [done|]. split.
  - rewrite words_cons. cbn [map]. f_equal; [|exact I3]. rewrite <- (load4_store4 m dst). apply load_n_ext. intros x Hx. unfold load8. by rewrite I4 by lia.
  - intros x Hx. rewrite I4, store_n_other by lia. done.
Qed.
End Words.

Section Transfers.
Context {C : Type} `{!SpiCard C} `{Layout}.
Lemma on_sp_Ok {A} (c : M (sys C) A) b a s' : c (sp b) = Ok a s' → on_sp c b = Ok a (Board s' (dma b)).
Proof. intros E. unfold on_sp, zoom. by rewrite E. Qed.
Lemma on_dma_Ok {A} (c : M dmac A) (b : board C) a d' : c (dma b) = Ok a d' → on_dma c b = Ok a (Board (sp b) d').
Proof. intros E. unfold on_dma, zoom. by rewrite E. Qed.
Lemma finish_wf n d : 0 ≤ n < 6 → wf d → wf (finish n d).
Proof. intros Hn Hd j Hj. change (Z.testbit (chen (finish n d)) j) with (enabled (finish n d) j). rewrite finish_enabled by lia. destruct (Z.eqb_spec j n); [lia|]. by apply Hd. Qed.

(** Selecting the request line and programming channel 0. *)
Lemma program_run fuel line src dest si di burst items (d : dmac) :
  0 ≤ src < 2 ^ 64 → 0 ≤ dest < 2 ^ 64 → 0 ≤ si ≤ 1 → 0 ≤ di ≤ 1 → 0 ≤ burst < 16 → 1 ≤ items ≤ 2 ^ 22 → wf d →
  ∃ k d', zoom clocks set_clocks (sysctl_dma_select 0 line) d = Ok 0 (set_clocks k d) ∧
    dmac_set_single_mode id fuel 0 src dest si di burst 2 items (set_clocks k d) = Ok true d' ∧ wf d' ∧ enabled d' 0 = true ∧
    programmed (chan d' 0) = requested 0 src dest si di burst 2 items.
Proof.
  intros Hs Hd Hsi Hdi Hb Hi Hwf. destruct (sysctl_dma_select_correct 0 line (clocks d) ltac:(lia)) as (k & Ek & _). exists k.
  destruct (set_single_mode_run id fuel 0 src dest si di burst 2 items (set_clocks k d)) as (d' & E & W & P & En & _); try lia; try done.
  exists d'. split; [unfold zoom; by rewrite Ek|]. split; [done|]. split; [done|]. split; [by rewrite En by lia|done].
Qed.
Lemma wait_done_run fuel (b : board C) :
  enabled (dma b) 0 = true → (0 < fuel)%nat → wait_done 0 fuel 0 b = Ok true (engine 0 0 b).
Proof.
  destruct b as [s d]. set (b := Board s d) in *. intros He Hf. destruct fuel as [|fuel]; [lia|]. cbn [wait_done].
  rewrite (mbindM_Ok _ _ _ _ _ (on_dma_Ok _ _ _ _ (is_idle_run 0 (dma b) ltac:(lia)))), He. cbn [Z.eqb].
  assert (dmac_is_idle 0 (dma (engine 0 0 b)) = Ok 1 (dma (engine 0 0 b))) as Ei.
  { rewrite is_idle_run by lia. cbn [dma engine]. by rewrite finish_enabled by lia. }
  change (Board (sp b) (dma b)) with b. unfold mbindM at 1, modify.
  destruct fuel; cbn [wait_done]; rewrite (mbindM_Ok _ _ _ _ _ (on_dma_Ok _ _ _ _ Ei)); done.
Qed.

Definition low (a : Z) : Prop := KERNBASE ≤ a < PHYSTOP.
Lemma low_memory a : low a → is_memory a = true ∧ 0 ≤ a < 2 ^ 64.
Proof.
  unfold low, KERNBASE, PHYSTOP. intros Ha. split; [|lia]. unfold is_memory.
  rewrite Z.geb_leb, (proj2 (Z.leb_le _ a)), (proj2 (Z.ltb_lt a _)) by lia. done.
Qed.
Lemma dr_range : 0 ≤ dr_address 0 < 2 ^ 64.
Proof. vm_compute. split; congruence. Qed.
Lemma dr_not_memory : is_memory (dr_address 0) = false.
Proof. reflexivity. Qed.
Lemma moves_out_requested a n : low a → moves_out 0 (requested 0 a (dr_address 0) 0 1 1 2 n) = true.
Proof. intros [Ha _]%low_memory. unfold moves_out, requested, flow_control. cbn [t_flow t_dst t_src_fixed t_dst_fixed t_width]. by rewrite Ha, dr_not_memory. Qed.
Lemma moves_in_requested a n : low a → moves_out 0 (requested 0 (dr_address 0) a 1 0 0 2 n) = false ∧ moves_in 0 (requested 0 (dr_address 0) a 1 0 0 2 n) = true.
Proof.
  intros [Ha _]%low_memory. unfold moves_out, moves_in, requested, flow_control. cbn [t_flow t_src t_dst t_src_fixed t_dst_fixed t_width].
  by rewrite Ha, dr_not_memory.
Qed.

(** The controller as it is when the channel starts. *)
Definition at_start (c0 c1 dm : Z) (t : list Z) (d : ssi C) : ssi C :=
  Ssi c0 c1 1 8 (baudr d) (imr d) dm (dmatdlr d) (dmardlr d) (spi_ctrlr0 d) (endian d)
    t (shift d) (rxq d) (to_receive d) (slave d) (speed d) (time d).
Definition at_end (d : ssi C) : ssi C :=
  Ssi (ctrlr0 d) (ctrlr1 d) 0 0 (baudr d) (imr d) (dmacr d) (dmatdlr d) (dmardlr d) (spi_ctrlr0 d) (endian d)
    [] None [] 0 (slave d) (speed d) (time d).
Lemma engine_out n p (k : kst) (d : ssi C) (m : dmac) :
  low p → 1 ≤ Z.of_nat n → programmed (chan m 0) = requested 0 p (dr_address 0) 0 1 1 2 (Z.of_nat n) →
  engine 0 0 (Board (Sys k d) m) = Board (Sys k (dma_send 0 n (mem k) p d)) (finish 0 m).
Proof.
  intros Hp Hn P. unfold engine. cbn [sp dma ks ssi_of]. rewrite P, moves_out_requested by done. cbn [requested t_items t_src]. by rewrite Nat2Z.id.
Qed.
Lemma engine_in n p (k : kst) (d : ssi C) (m : dmac) :
  low p → programmed (chan m 0) = requested 0 (dr_address 0) p 1 0 0 2 (Z.of_nat n) →
  engine 0 0 (Board (Sys k d) m) =
    let r := dma_receive 0 n (mem k) p d in Board (Sys (set_mem r.1 k) r.2) (finish 0 m).
Proof.
  intros Hp P. unfold engine. cbn [sp dma ks ssi_of]. destruct (moves_in_requested p (Z.of_nat n) Hp) as [M1 M2]. rewrite P, M1, M2.
  cbn [requested t_items t_dst]. rewrite Nat2Z.id. by destruct (dma_receive 0 n (mem k) p d).
Qed.

Lemma send_normal_dma_run n p k (d : ssi C) dm :
  ready d → wf dm → fair (speed d) → low p → 1 ≤ Z.of_nat n ≤ 2 ^ 22 →
  ∃ f0 d', (∀ fuel, (f0 ≤ fuel)%nat → ∃ dm', spi_send_data_normal_dma 0 fuel 0 3 p (Z.of_nat n) 4 (Board (Sys k d) dm) = Ok true (Board (Sys k d') dm') ∧ wf dm') ∧
    slave d' = send_all (words (mem k) p n) (slave d).
Proof.
  intros (R1 & R2 & R3 & R4 & R5) Hwf Hf Hp Hn. set (d1 := at_start 459008 (ctrlr1 d) 2 (tx d) d).
  assert (sending 0 d1) as Hd1 by (split_and!; try done; cbn; rewrite R2; cbn; lia).
  destruct (dma_send_run n (mem k) p d1 Hd1) as (S1 & S2 & S3). set (d2 := dma_send 0 n (mem k) p d1) in *.
  destruct (drain_run 0 (Sys k d2)) as (f2 & d3 & E3 & T1 & T2 & T3); [done|cbn [ssi_of]; destruct S2 as (_ & _ & _ & _ & S2); by rewrite S2|]. cbn [ks ssi_of] in *.
  exists (S f2), (at_end d3). split; [|cbn [at_end slave]; rewrite T3, S3; unfold arrived; cbn; by rewrite R2, R3].
  intros fuel Hfuel. destruct (program_run fuel (SSI0_TX_REQ + 0 * 2) p (dr_address 0) 0 1 1 (Z.of_nat n) dm) as (kc & dm1 & Ek & Ed & W & En & P);
    [by apply low_memory|apply dr_range|lia|lia|lia|lia|done|].
  exists (finish 0 dm1). split; [|apply finish_wf; [lia|done]]. unfold spi_send_data_normal_dma.
  set (e0 := Ssi 459008 (ctrlr1 d) (ssienr d) (ser d) (baudr d) (imr d) (dmacr d) (dmatdlr d) (dmardlr d) (spi_ctrlr0 d) (endian d)
    (tx d) (shift d) (rxq d) (to_receive d) (slave d) (speed d) (time d)).
  rewrite (mbindM_Ok _ _ _ tt (Board (Sys k e0) dm)) by (apply on_sp_Ok; unfold spi_set_tmod, write_ctrlr0, on_ssi, mbindM, gets, modify; cbn [ssi_of sp ks]; rewrite R1; done).
  rewrite (mbindM_Ok _ _ _ p (Board (Sys k e0) dm)) by reflexivity.
  do 2 (erewrite mbindM_Ok by (apply on_sp_Ok; reflexivity); cbn [dma sp]).
  rewrite (mbindM_Ok _ _ _ _ _ (on_dma_Ok _ (Board (Sys k _) dm) _ _ Ek)). cbn [dma sp].
  rewrite (mbindM_Ok _ _ _ _ _ (on_dma_Ok _ (Board (Sys k _) (set_clocks kc dm)) _ _ Ed)). cbn [negb dma sp].
  rewrite (mbindM_Ok _ _ _ tt (Board (Sys k d1) dm1)) by (apply on_sp_Ok; reflexivity).
  rewrite (mbindM_Ok _ _ _ _ _ (wait_done_run fuel (Board (Sys k d1) dm1) En ltac:(lia))), (engine_out n p) by (done || lia). cbn [negb Z.eqb Pos.eqb whenM].
  unfold mbindM at 1, mretM at 1. fold d2. rewrite (mbindM_Ok _ _ _ _ _ (on_sp_Ok _ (Board (Sys k d2) (finish 0 dm1)) _ _ (E3 fuel ltac:(lia)))). reflexivity.
Qed.
Lemma receive_normal_dma_run n p k (d : ssi C) dm :
  ready d → wf dm → low p → 1 ≤ Z.of_nat n ≤ 2 ^ 16 →
  ∃ m d', (∀ fuel, (0 < fuel)%nat → ∃ dm', spi_receive_data_normal_dma 0 fuel (-1) 0 3 p 0 p (Z.of_nat n) (Board (Sys k d) dm) = Ok true (Board (Sys (set_mem m k) d') dm') ∧ wf dm') ∧
    slave d' = (receive_n n (slave d)).2 ∧ words m p n = map u32 (receive_n n (slave d)).1 ∧ ∀ x, ¬ (p ≤ x < p + 4 * Z.of_nat n) → m x = mem k x.
Proof.
  intros (R1 & R2 & R3 & R4 & R5) Hwf Hp Hn. set (d1 := at_start 459264 (Z.of_nat n - 1) 3 [4294967295] d).
  assert (receiving n d1) as Hd1.
  { split_and!; try done. right. split; [done|]. split; [by eexists|]. cbn -[Z.pow]. rewrite Z.mod_small by lia. lia. }
  destruct (dma_receive_run n n (mem k) p d1 Hd1 R4 ltac:(lia)) as (S1 & S2 & S3 & S4). set (r := dma_receive 0 n (mem k) p d1) in *.
  exists r.1, (at_end r.2). split; [|done].
  intros fuel Hfuel. destruct (program_run fuel (SSI0_RX_REQ + 0 * 2) (dr_address 0) p 1 0 0 (Z.of_nat n) dm) as (kc & dm1 & Ek & Ed & W & En & P);
    [apply dr_range|by apply low_memory|lia|lia|lia|lia|done|].
  exists (finish 0 dm1). split; [|apply finish_wf; [lia|done]]. unfold spi_receive_data_normal_dma.
  set (e0 := Ssi 459264 (ctrlr1 d) (ssienr d) (ser d) (baudr d) (imr d) (dmacr d) (dmatdlr d) (dmardlr d) (spi_ctrlr0 d) (endian d)
    (tx d) (shift d) (rxq d) (to_receive d) (slave d) (speed d) (time d)).
  set (e1 := Ssi 459264 (Z.of_nat n - 1) 1 (ser d) (baudr d) (imr d) 3 (dmatdlr d) (dmardlr d) (spi_ctrlr0 d) (endian d)
    (tx d) (shift d) (rxq d) (to_receive d) (slave d) (speed d) (time d)).
  rewrite (mbindM_Ok _ _ _ tt (Board (Sys k e0) dm)) by (apply on_sp_Ok; unfold spi_set_tmod, write_ctrlr0, on_ssi, mbindM, gets, modify; cbn [ssi_of sp ks]; rewrite R1; done).
  rewrite u32_small by lia.
  do 2 (erewrite mbindM_Ok by (apply on_sp_Ok; reflexivity); cbn [dma sp]).
  rewrite (mbindM_Ok _ _ _ tt (Board (Sys k e1) dm)) by (apply on_sp_Ok; reflexivity). cbn [Z.eqb negb whenM andb]. unfold mbindM at 1, mretM at 1.
  rewrite (mbindM_Ok _ _ _ _ _ (on_dma_Ok _ (Board (Sys k e1) dm) _ _ Ek)). cbn [dma sp].
  rewrite (mbindM_Ok _ _ _ _ _ (on_dma_Ok _ (Board (Sys k e1) (set_clocks kc dm)) _ _ Ed)). cbn [negb dma sp]. unfold mbindM at 1, mretM at 1.
  cbn [negb]. rewrite (mbindM_Ok _ _ _ 0 (Board (Sys k e1) dm1)) by (apply on_sp_Ok; reflexivity). cbn [Z.eqb whenM].
  erewrite mbindM_Ok by (apply on_sp_Ok; unfold write_dr, on_ssi, modify; cbn [sp ssi_of e1 tx]; rewrite R2; reflexivity). cbn [dma].
  rewrite (mbindM_Ok _ _ _ tt (Board (Sys k d1) dm1)) by (apply on_sp_Ok; reflexivity). unfold mbindM at 1, mretM at 1. cbn [negb].
  rewrite (mbindM_Ok _ _ _ _ _ (wait_done_run fuel (Board (Sys k d1) dm1) En Hfuel)), (engine_in n p) by done. cbn [negb]. reflexivity.
Qed.

Lemma words_bytes m m' p a n :
  (∀ j, 0 ≤ j < Z.of_nat n → load_n 4 m (p + 4 * j) = load8 m' (a + j)) → words m p n = bytes_at m' a n.
Proof. intros Hm. unfold words, bytes_at. apply map_ext_in. intros j Hj%in_seq. apply Hm. lia. Qed.
Lemma ready_width (d : ssi C) k : ready d → frame_width 0 (Sys k d) = Ok 1 (Sys k d).
Proof. intros (R & _). unfold frame_width, gets. cbn [ssi_of]. by rewrite R. Qed.
Lemma page_low k p L : kalloc_inv k (p :: L) → low p ∧ PGSIZE ≤ p.
Proof.
  intros Hk. pose proof (ki_pages _ _ Hk) as [Hp _]%Forall_cons. pose proof (page_ok_range p Hp). unfold low, KERNBASE, PHYSTOP, PGSIZE in *. lia.
Qed.

Lemma write_dma_run n buf p L (b : board C) :
  kalloc_inv (ks (sp b)) (p :: L) → wf (dma b) → fair (speed (ssi_of (sp b))) → 1 ≤ Z.of_nat n → 4 * Z.of_nat n ≤ PGSIZE →
  p + PGSIZE ≤ buf ∨ buf + Z.of_nat n ≤ p →
  ∃ f0 s', (∀ fuel, (f0 ≤ fuel)%nat → ∃ dm', sd_write_data_dma 0 fuel buf (Z.of_nat n) b = Ok true (Board s' dm') ∧ wf dm') ∧
    slave (ssi_of s') = send_all (bytes_at (mem (ks (sp b))) buf n) (slave (ssi_of (sp b))) ∧
    kalloc_inv (ks s') (p :: L) ∧ ∀ x, ¬ (p ≤ x < p + PGSIZE) → mem (ks s') x = mem (ks (sp b)) x.
Proof.
  destruct b as [s dm]. cbn [sp dma]. intros Hk Hwf Hf Hn1 Hn Hb. destruct (spi_init_run s) as (d & Ei & Hr & Hs & Hv & _).
  destruct (page_low _ _ _ Hk) as [Hlow Hp]. destruct (kalloc_cons _ _ _ Hk) as [Ek _]. set (k1 := kalloc_post p (load64 (mem (ks s)) p) (ks s)) in *.
  destruct (widen_run n p buf (Sys k1 d)) as (m & Ew & Hw & Ho); [done|lia|]. cbn [ks ssi_of] in *.
  assert (∀ x, ¬ (p ≤ x < p + PGSIZE) → m x = mem (ks s) x) as Hout by (intros x Hx; rewrite Ho by lia; cbn; by apply fill_other).
  destruct (page_back (ks s) p L m Hk) as (k' & Ef & Hk' & Hm'); [intros x Hx Hne; by rewrite Hout in Hne|]. fold k1 in Ef.
  destruct (send_normal_dma_run n p (set_mem m k1) d dm) as (f0 & d' & E & Hsl); [done|done|by rewrite Hv|done|unfold PGSIZE in Hn; lia|].
  exists f0, (Sys k' d'). split; [|split; [|split; [done|intros x Hx; cbn [ks]; by rewrite Hm', Hout]]].
  - intros fuel Hfuel. destruct (E fuel Hfuel) as (dm' & E' & W). exists dm'. split; [|done]. unfold sd_write_data_dma, spi_send_data_standard_dma.
    rewrite (mbindM_Ok _ _ _ _ _ (on_sp_Ok _ (Board s dm) _ _ Ei)). cbn [dma].
    rewrite (mbindM_Ok _ _ _ _ _ (on_sp_Ok _ (Board (Sys (ks s) d) dm) _ _ (ready_width d (ks s) Hr))). cbn [dma].
    rewrite (mbindM_Ok _ _ _ p (Board (Sys k1 d) dm)) by (apply on_sp_Ok; unfold in_kernel, zoom; cbn [ks sp]; by rewrite Ek).
    rewrite !Z.div_1_r, Z.mul_0_r, Z.add_0_r, Z.add_0_l, Nat2Z.id.
    rewrite (mbindM_Ok _ _ _ tt (Board (Sys k1 d) dm)) by reflexivity.
    rewrite (mbindM_Ok _ _ _ _ _ (on_sp_Ok _ (Board (Sys k1 d) dm) _ _ Ew)). cbn [dma].
    rewrite (mbindM_Ok _ _ _ _ _ E'). cbn [negb].
    rewrite (mbindM_Ok _ _ _ tt (Board (Sys k' d') dm')) by (apply on_sp_Ok; unfold in_kernel, zoom; cbn [ks sp]; by rewrite Ef). done.
  - cbn [ssi_of]. rewrite Hsl, Hs. f_equal. apply words_bytes. intros j Hj. cbn [mem set_mem]. rewrite Hw by done. unfold load8. cbn. by rewrite fill_other by lia.
Qed.
Lemma map_u8_store m a l x : store_bytes m a (map u32 l) x = store_bytes m a l x.
Proof.
  unfold store_bytes. rewrite length_map. destruct (in_range a (Z.of_nat (length l)) x) eqn:E; [|done]. apply in_range_true in E.
  rewrite (nth_indep _ 0 (u32 0)) by (rewrite length_map; lia). rewrite map_nth. unfold u8, u32. by rewrite <- (Znumtheory.Zmod_div_mod (2 ^ 8) (2 ^ 32)) by (done || by exists (2 ^ 24)).
Qed.
Lemma used_page (L : list Z) a n x :
  (∀ q, q ∈ L → q + PGSIZE ≤ a ∨ a + n ≤ q) → a ≤ x < a + n → ∃ q, q mod PGSIZE = 0 ∧ q ∉ L ∧ q ≤ x < q + PGSIZE.
Proof.
  intros HL Hx. exists (x - x mod PGSIZE). pose proof (Z.mod_pos_bound x PGSIZE ltac:(unfold PGSIZE; lia)).
  split; [|split; [|lia]]; [rewrite Zminus_mod_idemp_r, Z.sub_diag; done|]. intros Hq. destruct (HL _ Hq); lia.
Qed.
Lemma read_dma_run n buf p L (b : board C) :
  kalloc_inv (ks (sp b)) (p :: L) → wf (dma b) → 1 ≤ Z.of_nat n → 4 * Z.of_nat n ≤ PGSIZE →
  (∀ q, q ∈ p :: L → q + PGSIZE ≤ buf ∨ buf + Z.of_nat n ≤ q) →
  ∃ s', (∀ fuel, (0 < fuel)%nat → ∃ dm', sd_read_data_dma 0 fuel buf (Z.of_nat n) b = Ok true (Board s' dm') ∧ wf dm') ∧
    slave (ssi_of s') = (receive_n n (slave (ssi_of (sp b)))).2 ∧
    kalloc_inv (ks s') (p :: L) ∧
    ∀ x, ¬ (p ≤ x < p + PGSIZE) → mem (ks s') x = store_bytes (mem (ks (sp b))) buf (receive_n n (slave (ssi_of (sp b)))).1 x.
Proof.
  destruct b as [s dm]. cbn [sp dma]. intros Hk Hwf Hn1 Hn Hb. destruct (spi_init_run s) as (d & Ei & Hr & Hs & Hv & _).
  pose proof (Hb p ltac:(set_solver)) as Hbp.
  destruct (page_low _ _ _ Hk) as [Hlow Hp]. destruct (kalloc_cons _ _ _ Hk) as [Ek _]. set (k1 := kalloc_post p (load64 (mem (ks s)) p) (ks s)) in *.
  destruct (receive_normal_dma_run n p k1 d dm) as (m & d' & E & Hsl & Hw & Ho); [done|done|done|unfold PGSIZE in Hn; lia|].
  destruct (narrow_run n buf p (Sys (set_mem m k1) d')) as (m2 & En & Hm2); [lia|]. cbn [ks ssi_of mem set_mem] in *. rewrite Hw in Hm2.
  pose proof (receive_length n (slave d)) as Hlen.
  assert (∀ x, ¬ (p ≤ x < p + PGSIZE) → m2 x = store_bytes (mem (ks s)) buf (receive_n n (slave d)).1 x) as Hout.
  { intros x Hx. rewrite Hm2, map_u8_store. apply store_bytes_ext. rewrite Ho by lia. cbn. by apply fill_other. }
  destruct (page_back (ks s) p L m2 Hk) as (k' & Ef & Hk' & Hm').
  { intros x Hx Hne. apply (used_page L buf (Z.of_nat n)); [intros q Hq; apply Hb; by right|].
    destruct (decide (buf ≤ x < buf + Z.of_nat n)) as [|Hnot]; [done|]. exfalso. apply Hne. rewrite Hout by done. unfold store_bytes. by rewrite (proj2 (in_range_false _ _ _)) by lia. }
  fold k1 in Ef. exists (Sys k' d'). split; [|split; [cbn; by rewrite Hsl, Hs|split; [done|intros x Hx; cbn [ks]; by rewrite Hm', Hout, Hs]]].
  intros fuel Hfuel. destruct (E fuel Hfuel) as (dm' & E' & W). exists dm'. split; [|done]. unfold sd_read_data_dma, spi_receive_data_standard_dma.
  rewrite (mbindM_Ok _ _ _ _ _ (on_sp_Ok _ (Board s dm) _ _ Ei)). cbn [dma].
  rewrite (mbindM_Ok _ _ _ _ _ (on_sp_Ok _ (Board (Sys (ks s) d) dm) _ _ (ready_width d (ks s) Hr))). cbn [dma].
  rewrite (mbindM_Ok _ _ _ p (Board (Sys k1 d) dm)) by (apply on_sp_Ok; unfold in_kernel, zoom; cbn [ks sp]; by rewrite Ek).
  rewrite !Z.div_1_r, Z.mul_0_r, Z.add_0_r, Nat2Z.id. rewrite (mbindM_Ok _ _ _ tt (Board (Sys k1 d) dm)) by reflexivity. cbv zeta.
  rewrite (mbindM_Ok _ _ _ _ _ E'). cbn [negb].
  rewrite (mbindM_Ok _ _ _ _ _ (on_sp_Ok _ (Board (Sys (set_mem m k1) d') dm') _ _ En)). cbn [dma].
  rewrite (mbindM_Ok _ _ _ tt (Board (Sys k' d') dm')) by (apply on_sp_Ok; unfold in_kernel, zoom; cbn [ks sp]; change (set_mem m2 (set_mem m k1)) with (set_mem m2 k1); by rewrite Ef). done.
Qed.

End Transfers.

#[local] Existing Instance small_layout.
#[local] Existing Instance recorder.
