(* ===== verification/Boot.v ===== *)
(** * Boot (kernel/main.c)

    [main] on two harts.  Hart 0 runs the initialisation of every component in the
    order of the code, over one state [board] made of theirs, and then sets [started];
    hart 1 spins on that flag and then sets up its own registers.  The initialisation
    functions are the ones of the components' files; the setting up of locks, which
    those files leave out, is here.

    A hart's number, which [inithartid] keeps in [tp], is an argument.
    [kernelvec] and [forkret] are addresses of assembly and C code, [pages] that of the
    ring memory of the disk driver, [now] what the harts read from the clock. *)
From stdpp Require Import prelude list strings.
From Stdlib Require Import ZArith Lia.
From S2P Require Import Prelude Printf Riscv Kalloc VM PageTable PageTableOps KernelMap Space UserCopy Vma Spinlock Bio File ProcDefs Console Proc FirstProc ProcProps ProcLife Shm Uart Virtio Plic VirtioInit.
Open Scope Z_scope.

Definition NCPU : Z := 2.
Definition INTERVAL : Z := 390000000 / 200.
Definition SSTATUS_SIE : Z := Z.shiftl 1 1.
Definition SIE_SEIE : Z := Z.shiftl 1 9.
Definition SIE_STIE : Z := Z.shiftl 1 5.
Definition SIE_SSIE : Z := Z.shiftl 1 1.

(** The spin locks [main] sets up. *)
Inductive lock_name :=
  | cons_lock | uart_tx_lock | pr_lock | kmem_lock | page_ref_lock | tickslock | pid_lock | proc_lock (i : Z)
  | vdisk_lock | bcache_lock | ftable_lock | shm_lock.
#[global] Instance lock_name_eq_dec : EqDecision lock_name.
Proof. solve_decision. Defined.

(** The registers of a hart that [main] writes. *)
Record hart := Hart { satp : Z; stvec : Z; sstatus : Z; sie : Z; timeout : Z }.

Record board (B : Type) := Board {
  m_hart : Z → hart; m_locks : lock_name → spinlock; m_cpus : Z → cpu;
  m_con : console; m_uart : uart; m_pr_locking : bool;
  m_kern : kern (ftable B); m_plic : plic; m_mmio : mmio; m_vdisk : vdisk; m_cache : bcache; m_shm : shm_table;
  m_ipi : list Z; m_started : bool }.
Arguments Board {B}.
Arguments m_hart {B}.
Arguments m_locks {B}.
Arguments m_cpus {B}.
Arguments m_con {B}.
Arguments m_uart {B}.
Arguments m_pr_locking {B}.
Arguments m_kern {B}.
Arguments m_plic {B}.
Arguments m_mmio {B}.
Arguments m_vdisk {B}.
Arguments m_cache {B}.
Arguments m_shm {B}.
Arguments m_ipi {B}.
Arguments m_started {B}.

Section Boot.
Context `{LAY : Layout} {B : Type} `{BK : Backend B} `{ER : EntryRefs (ftable B)}.
Context (kernelvec forkret pages : Z) (now : Z → Z).
Notation board := (board B).
Definition set_m_hart (x : Z → hart) (b : board) : board :=
  Board x (m_locks b) (m_cpus b) (m_con b) (m_uart b) (m_pr_locking b) (m_kern b) (m_plic b) (m_mmio b) (m_vdisk b) (m_cache b) (m_shm b) (m_ipi b) (m_started b).
Definition set_m_locks (x : lock_name → spinlock) (b : board) : board :=
  Board (m_hart b) x (m_cpus b) (m_con b) (m_uart b) (m_pr_locking b) (m_kern b) (m_plic b) (m_mmio b) (m_vdisk b) (m_cache b) (m_shm b) (m_ipi b) (m_started b).
Definition set_m_cpus (x : Z → cpu) (b : board) : board :=
  Board (m_hart b) (m_locks b) x (m_con b) (m_uart b) (m_pr_locking b) (m_kern b) (m_plic b) (m_mmio b) (m_vdisk b) (m_cache b) (m_shm b) (m_ipi b) (m_started b).
Definition set_m_con (x : console) (b : board) : board :=
  Board (m_hart b) (m_locks b) (m_cpus b) x (m_uart b) (m_pr_locking b) (m_kern b) (m_plic b) (m_mmio b) (m_vdisk b) (m_cache b) (m_shm b) (m_ipi b) (m_started b).
Definition set_m_uart (x : uart) (b : board) : board :=
  Board (m_hart b) (m_locks b) (m_cpus b) (m_con b) x (m_pr_locking b) (m_kern b) (m_plic b) (m_mmio b) (m_vdisk b) (m_cache b) (m_shm b) (m_ipi b) (m_started b).
Definition set_m_pr_locking (x : bool) (b : board) : board :=
  Board (m_hart b) (m_locks b) (m_cpus b) (m_con b) (m_uart b) x (m_kern b) (m_plic b) (m_mmio b) (m_vdisk b) (m_cache b) (m_shm b) (m_ipi b) (m_started b).
Definition set_m_kern (x : kern (ftable B)) (b : board) : board :=
  Board (m_hart b) (m_locks b) (m_cpus b) (m_con b) (m_uart b) (m_pr_locking b) x (m_plic b) (m_mmio b) (m_vdisk b) (m_cache b) (m_shm b) (m_ipi b) (m_started b).
Definition set_m_plic (x : plic) (b : board) : board :=
  Board (m_hart b) (m_locks b) (m_cpus b) (m_con b) (m_uart b) (m_pr_locking b) (m_kern b) x (m_mmio b) (m_vdisk b) (m_cache b) (m_shm b) (m_ipi b) (m_started b).
Definition set_m_mmio (x : mmio) (b : board) : board :=
  Board (m_hart b) (m_locks b) (m_cpus b) (m_con b) (m_uart b) (m_pr_locking b) (m_kern b) (m_plic b) x (m_vdisk b) (m_cache b) (m_shm b) (m_ipi b) (m_started b).
Definition set_m_vdisk (x : vdisk) (b : board) : board :=
  Board (m_hart b) (m_locks b) (m_cpus b) (m_con b) (m_uart b) (m_pr_locking b) (m_kern b) (m_plic b) (m_mmio b) x (m_cache b) (m_shm b) (m_ipi b) (m_started b).
Definition set_m_cache (x : bcache) (b : board) : board :=
  Board (m_hart b) (m_locks b) (m_cpus b) (m_con b) (m_uart b) (m_pr_locking b) (m_kern b) (m_plic b) (m_mmio b) (m_vdisk b) x (m_shm b) (m_ipi b) (m_started b).
Definition set_m_shm (x : shm_table) (b : board) : board :=
  Board (m_hart b) (m_locks b) (m_cpus b) (m_con b) (m_uart b) (m_pr_locking b) (m_kern b) (m_plic b) (m_mmio b) (m_vdisk b) (m_cache b) x (m_ipi b) (m_started b).
Definition set_m_ipi (x : list Z) (b : board) : board :=
  Board (m_hart b) (m_locks b) (m_cpus b) (m_con b) (m_uart b) (m_pr_locking b) (m_kern b) (m_plic b) (m_mmio b) (m_vdisk b) (m_cache b) (m_shm b) x (m_started b).
Definition set_m_started (x : bool) (b : board) : board :=
  Board (m_hart b) (m_locks b) (m_cpus b) (m_con b) (m_uart b) (m_pr_locking b) (m_kern b) (m_plic b) (m_mmio b) (m_vdisk b) (m_cache b) (m_shm b) (m_ipi b) x.

Definition initlock_ (l : lock_name) : M board unit :=
  modify (λ b, set_m_locks (λ x, if decide (x = l) then initlock else m_locks b x) b).
Definition on_hart (h : Z) (f : hart → hart) : M board unit := modify (λ b, set_m_hart (upd (m_hart b) h (f (m_hart b h))) b).
Definition on_kern {A} (c : M (kern (ftable B)) A) : M board A := zoom m_kern set_m_kern c.

(** ** The calls of [main] *)
Definition console_up : M board unit :=
  initlock_ cons_lock;;; modify (λ b, set_m_con (consoleinit (c_buf (m_con b)) (c_out (m_con b))) b).
Definition uart_up : M board unit := modify (λ b, set_m_uart (uartinit (m_uart b)) b);;; initlock_ uart_tx_lock.
Definition printfinit : M board unit := initlock_ pr_lock;;; modify (set_m_pr_locking true).
(** Output goes to the console. *)
Definition print (l : list Z) : M board unit :=
  modify (λ b, let c := m_con b in
    set_m_con (Con (c_buf c) (c_r c) (c_w c) (c_e c) (c_out c ++ printf_loop (λ _, []) l (λ _, 0) 0)) b).
Definition logo : list (list Z) :=
  [ chars "  (`-.            (`-.                            .-')       ('-.    _   .-')";
   chars " ( OO ).        _(OO  )_                        .(  OO)    _(  OO)  ( '.( OO )_ ";
   chars "(_/.  \_)-. ,--(_/   ,. \  ,--.                (_)---\_)  (,------.  ,--.   ,--.) ,--. ,--.  ";
   chars " \  `.'  /  \   \   /(__/ /  .'       .-')     '  .-.  '   |  .---'  |   `.'   |  |  | |  |   ";
   chars "  \     /\   \   \ /   / .  / -.    _(  OO)   ,|  | |  |   |  |      |         |  |  | | .-')";
   chars "   \   \ |    \   '   /, | .-.  '  (,------. (_|  | |  |  (|  '--.   |  |'.'|  |  |  |_|( OO )";
   chars "  .'    \_)    \     /__)' \  |  |  '------'   |  | |  |   |  .--'   |  |   |  |  |  | | `-' /";
   chars " /  .'.  \      \   /    \  `'  /              '  '-'  '-. |  `---.  |  |   |  | ('  '-'(_.-'";
   chars "'--'   '--'      `-'      `----'                `-----'--' `------'  `--'   `--'   `-----'"].
Fixpoint print_lines (l : list (list Z)) : M board unit :=
  match l with [] => mretM tt | x :: l => print (x ++ [10]);;; print_lines l end.
Definition print_logo : M board unit := print_lines logo.
Definition memory_up : M board unit := initlock_ kmem_lock;;; initlock_ page_ref_lock;;; on_kern (mem_op kinit).
Definition kernel_table_up : M board unit :=
  on_kern (root <-- mem_op kvminit;;
           modify (λ k, Kern (procs k) (nextpid k) (initproc k) (ticks k) (km k) root (fs k))).
Definition kvminithart (h : Z) : M board unit :=
  k <-- gets m_kern;;
  on_hart h (λ r, Hart (MAKE_SATP (kernel_pagetable k)) (stvec r) (sstatus r) (sie r) (timeout r)).
Definition timerinit : M board unit := initlock_ tickslock.
Definition set_next_timeout (h : Z) : M board unit :=
  on_hart h (λ r, Hart (satp r) (stvec r) (sstatus r) (sie r) (u64 (now h + INTERVAL))).
Definition trapinithart (h : Z) : M board unit :=
  on_hart h (λ r, Hart (satp r) kernelvec (sstatus r) (sie r) (timeout r));;;
  on_hart h (λ r, Hart (satp r) (stvec r) (Z.lor (sstatus r) SSTATUS_SIE) (sie r) (timeout r));;;
  on_hart h (λ r, Hart (satp r) (stvec r) (sstatus r) (Z.lor (Z.lor (Z.lor (sie r) SIE_SEIE) SIE_SSIE) SIE_STIE) (timeout r));;;
  set_next_timeout h.
Fixpoint init_proc_locks (l : list Z) : M board unit :=
  match l with [] => mretM tt | i :: l => initlock_ (proc_lock i);;; init_proc_locks l end.
(** [intr] is a bit of [sstatus], not of [struct cpu]. *)
Definition procinit : M board unit :=
  initlock_ pid_lock;;; init_proc_locks proc_ids;;;
  modify (λ b, set_m_cpus (λ c, if in_range 0 NCPU c then Cpu (intr (m_cpus b c)) 0 false else m_cpus b c) b).
Definition plic_op (c : M plic unit) : M board unit := zoom m_plic set_m_plic c.
Definition disk_init : M board unit :=
  initlock_ vdisk_lock;;; zoom m_mmio set_m_mmio (virtio_mmio_init pages);;;
  modify (λ b, set_m_vdisk (virtio_disk_init (m_vdisk b)) b).
Definition cache_up : M board unit := initlock_ bcache_lock;;; modify (λ b, set_m_cache (binit (m_cache b)) b).
Definition files_up : M board unit :=
  initlock_ ftable_lock;;; on_kern (modify (λ k, set_fs (fileinit (fs k)) k)).
Definition shm_up : M board unit := initlock_ shm_lock;;; modify (λ b, set_m_shm (shm_init (m_shm b)) b).
Definition user_up : M board unit := on_kern (userinit forkret).
Fixpoint send_ipis (l : list Z) : M board unit :=
  match l with [] => mretM tt | i :: l => modify (λ b, set_m_ipi (m_ipi b ++ [Z.shiftl 1 i]) b);;; send_ipis l end.

(** ** [main] *)
Definition main_0_init : list (M board unit) :=
  [console_up; uart_up; printfinit; print_logo; memory_up; kernel_table_up; kvminithart 0; timerinit;
   trapinithart 0; procinit; plic_op plicinit; plic_op (plicinithart 0); disk_init; cache_up; files_up; shm_up; user_up;
   print (chars "hart 0 init done" ++ [10]); send_ipis (seqZ 1 (NCPU - 1))].
Definition main_0 : list (M board unit) := main_0_init ++ [modify (set_m_started true)].
(** What hart 1 does when it sees [started]. *)
Definition main_1 : list (M board unit) :=
  [kvminithart 1; trapinithart 1; plic_op (plicinithart 1); print (chars "hart 1 init done" ++ [10])].

Fixpoint run (l : list (M board unit)) : M board unit :=
  match l with [] => mretM tt | c :: l => c;;; run l end.

(** Both harts: [None] is the spin of hart 1. *)
Record booting := At { brd : board; todo0 : list (M board unit); todo1 : option (list (M board unit)) }.
Inductive bstep : booting → booting → Prop :=
  | Step0 b c l h b' : c b = Ok tt b' → bstep (At b (c :: l) h) (At b' l h)
  | Spin1 b l : m_started b = false → bstep (At b l None) (At b l None)
  | Go1 b l : m_started b = true → bstep (At b l None) (At b l (Some main_1))
  | Step1 b c l l0 b' : c b = Ok tt b' → bstep (At b l0 (Some (c :: l))) (At b' l0 (Some l)).
Definition boot (b : board) : booting := At b main_0 None.

(** ** Running the steps *)
Lemma run_cons c l b b' : c b = Ok tt b' → run (c :: l) b = run l b'.
Proof. intros E. cbn [run]. by rewrite (mbindM_Ok _ _ _ _ _ E). Qed.
Lemma run_steps_app l l' b b' : run l b = Ok tt b' → run (l ++ l') b = run l' b'.
Proof.
  revert b. induction l as [|c l IH]; intros b E; [by injection E as ->|].
  cbn [run app] in *. apply mbindM_inv in E as ([] & b1 & E1 & E). rewrite (mbindM_Ok _ _ _ _ _ E1). by apply IH.
Qed.

Lemma init_proc_locks_run l b :
  ∃ f, init_proc_locks l b = Ok tt (set_m_locks f b) ∧ (∀ i, i ∈ l → f (proc_lock i) = initlock) ∧
    (∀ x, m_locks b x = initlock → f x = initlock).
Proof.
  revert b. induction l as [|i l IH]; intros b.
  { exists (m_locks b). split; [by destruct b|]. split; [by intros i ?%elem_of_nil|done]. }
  cbn [init_proc_locks]. erewrite mbindM_Ok by reflexivity.
  destruct (IH (set_m_locks (λ x, if decide (x = proc_lock i) then initlock else m_locks b x) b)) as (f & E & Hl & Hk).
  exists f. split; [exact E|]. cbn [m_locks set_m_locks] in Hk. split.
  - intros j [->|Hj]%elem_of_cons; [|by apply Hl]. apply Hk. by rewrite decide_True.
  - intros x Hx. apply Hk. by case_decide.
Qed.
Lemma print_lines_run l b : ∃ out, let c := m_con b in
  print_lines l b = Ok tt (set_m_con (Con (c_buf c) (c_r c) (c_w c) (c_e c) out) b).
Proof.
  revert b. induction l as [|x l IH]; intros b; [exists (c_out (m_con b)); by destruct b as [? ? ? [? ? ? ? ?]]|].
  cbn [print_lines]. erewrite mbindM_Ok by reflexivity.
  match goal with |- context [print_lines l ?b1] => destruct (IH b1) as (out & E) end. exists out. exact E.
Qed.

(** The first process: runnable, at the start of [initcode], in an address space of its
    own whose kernel half is the kernel's with a stack. *)
Record init_ready (k : kern (ftable B)) : Prop := {
  ir_state : p_state (procs k 0) = RUNNABLE ∧ p_pid (procs k 0) = 1 ∧ ProcDefs.sz (procs k 0) = PGSIZE;
  ir_start : tf_get TF_EPC (procs k 0) (km k) = 0 ∧ tf_get TF_SP (procs k 0) (km k) = PGSIZE;
  ir_code : ∀ i, 0 ≤ i < Z.of_nat (length initcode) →
    uload (mem (km k)) (pagetable (procs k 0)) i = nth (Z.to_nat i) initcode 0;
  ir_user : ∀ va, 0 ≤ va < MAXVA →
    has (pte_of (mem (km k)) (pagetable (procs k 0)) va) PTE_U = (va <? PGSIZE);
  ir_trapframe : PTE2PA (pte_of (mem (km k)) (pagetable (procs k 0)) TRAPFRAME) = trapframe (procs k 0);
  ir_kernel : ∀ va, PGSIZE ≤ va < MAXVA → PGROUNDDOWN va ≠ VKSTACK →
    pte_of (mem (km k)) (kpagetable (procs k 0)) va = entry_in kernel_regions va;
  ir_stack : PTE_FLAGS (pte_of (mem (km k)) (kpagetable (procs k 0)) VKSTACK) = Z.lor RW PTE_V }.

(** ** The machine when [main] enters the scheduler *)
Record booted (hs : list Z) (b : board) : Prop := {
  bt_locks : ∀ l, (match l with proc_lock i => 0 ≤ i < NPROC | _ => True end) → m_locks b l = initlock;
  bt_cpus : ∀ c, 0 ≤ c < NCPU → noff (m_cpus b c) = 0;
  bt_harts : ∀ h, h ∈ hs → satp (m_hart b h) = MAKE_SATP (kernel_pagetable (m_kern b)) ∧ stvec (m_hart b h) = kernelvec ∧
    Z.testbit (sstatus (m_hart b h)) 1 = true ∧ (∀ i, i ∈ [1; 5; 9] → Z.testbit (sie (m_hart b h)) i = true) ∧
    configured h (m_plic b);
  bt_console : c_r (m_con b) = 0 ∧ c_w (m_con b) = 0 ∧ c_e (m_con b) = 0 ∧ uart_ok (m_uart b) ∧ tx_queue (m_uart b) = [];
  bt_disk : status (m_mmio b) = 15 ∧ queue_num (m_mmio b) 0 = NUM ∧ queue_pfn (m_mmio b) 0 = pages / PGSIZE ∧
    ∀ i, dfree (m_vdisk b) i = bool_decide (0 ≤ i < NUM);
  bt_cache : ∀ d, bio_inv d (m_cache b) (rev (seqZ 0 NBUF));
  bt_files : ∀ f, f ∈ file_ids → f_ref (ftab (fs (m_kern b)) f) = 0 ∧ f_type (ftab (fs (m_kern b)) f) = FD_NONE;
  bt_shm : ∀ i, 0 ≤ i < NSHM → sg_used (segments (m_shm b) i) = false;
  bt_kernel : ∀ va, 0 ≤ va < MAXVA →
    pte_of (mem (km (m_kern b))) (kernel_pagetable (m_kern b)) va = entry_in kernel_regions va;
  bt_table : table_inv (m_kern b) ∧ initproc (m_kern b) = 0 ∧ ∀ i, 0 < i < NPROC → p_state (procs (m_kern b) i) = UNUSED;
  bt_init : init_ready (m_kern b) }.

(** ** The first process is ready *)
Lemma user_entry_no_U tf va : 0 ≤ va < MAXVA → tf mod PGSIZE = 0 → 0 ≤ tf < 2 ^ 55 → has (user_entry tf va) PTE_U = false.
Proof.
  intros Hva Ht1 Ht2. unfold user_entry. destruct trampoline_range. repeat case_match; [..|done]; rewrite has_U, mk_pte_testbit_low by lia; done.
Qed.
Lemma initcode_byte i : 0 ≤ i < 52 → u8 (u8 (nth (Z.to_nat i) initcode 0)) = nth (Z.to_nat i) initcode 0.
Proof.
  intros Hi. assert (Forall (λ c, u8 (u8 c) = c) initcode) as Hall by (apply (bool_decide_unpack _); by vm_compute).
  apply (proj1 (Forall_forall _ _) Hall). apply list_elem_of_In, nth_In. change (length initcode) with 52%nat. lia.
Qed.
Lemma init_ready_intro k u p tf st f L kr :
  space (km k) L [p; u] [f; st; kr; tf] →
  p_state (procs k 0) = RUNNABLE → p_pid (procs k 0) = 1 → ProcDefs.sz (procs k 0) = PGSIZE → trapframe (procs k 0) = tf →
  pagetable (procs k 0) = u → kpagetable (procs k 0) = p →
  load64 (mem (km k)) (tf + TF_EPC) = 0 → load64 (mem (km k)) (tf + TF_SP) = PGSIZE →
  (∀ i, 0 ≤ i < PGSIZE → mem (km k) (f + i) = u8 (nth (Z.to_nat i) initcode 0)) →
  (∀ va, 0 ≤ va < MAXVA → pte_of (mem (km k)) u va = if PGROUNDDOWN va =? 0 then mk_pte f (Z.lor RWX PTE_U) else user_entry tf va) →
  (∀ va, 0 ≤ va < MAXVA → pte_of (mem (km k)) p va =
     if PGROUNDDOWN va =? 0 then mk_pte f RWX else if PGROUNDDOWN va =? VKSTACK then mk_pte st RW else entry_in kernel_regions va) →
  init_ready k.
Proof.
  intros Hsp H1 H2 H3 H4 H5 H6 He Hs Hb Hu Hp.
  destruct (frame_range _ _ _ _ f Hsp ltac:(by left)) as [Hf1 Hf2]. destruct (frame_range _ _ _ _ st Hsp ltac:(by right; left)) as [Hs1 Hs2].
  destruct (frame_range _ _ _ _ tf Hsp ltac:(set_solver)) as [Ht1 Ht2].
  assert (∀ va, 0 ≤ va → PGROUNDDOWN va = 0 ↔ va < PGSIZE) as Hpg.
  { intros va Hva. rewrite PGROUNDDOWN_eq. unfold PGSIZE. Z.div_mod_to_equations; lia. }
  split; rewrite ?H4, ?H5, ?H6.
  - done.
  - unfold tf_get. by rewrite H4.
  - intros i Hi. change (Z.of_nat (length initcode)) with 52 in Hi. unfold uload, uaddr. 
    rewrite Hu by (unfold MAXVA; lia). rewrite (proj2 (Hpg i ltac:(lia))) by (unfold PGSIZE; lia). change (0 =? 0) with true. cbv iota.
    rewrite mk_pte_valid by (done || lia). rewrite mk_pte_PTE2PA by (done || lia || (unfold RWX; done)).
    rewrite Z.mod_small by (unfold PGSIZE; lia). unfold load8. rewrite Hb by (unfold PGSIZE; lia). apply initcode_byte. lia.
  - intros va Hva. rewrite Hu by done. destruct (Z.eqb_spec (PGROUNDDOWN va) 0) as [E|E].
    + rewrite (proj2 (Z.ltb_lt _ _)) by (apply Hpg; lia). rewrite has_U, mk_pte_testbit_low by lia. done.
    + rewrite (proj2 (Z.ltb_ge va PGSIZE)) by (apply Z.nlt_ge; intros Hl; apply E, Hpg; lia). by apply user_entry_no_U.
  - rewrite Hu by (split; vm_compute; congruence). apply mk_pte_PTE2PA; [done|lia|done].
  - intros va Hva Hk. rewrite Hp by (unfold PGSIZE in *; lia). rewrite (proj2 (Z.eqb_neq (PGROUNDDOWN va) 0)) by (intros E; apply Hpg in E; unfold PGSIZE in *; lia).
    by rewrite (proj2 (Z.eqb_neq _ _) Hk).
  - rewrite Hp by (split; vm_compute; congruence). change (PGROUNDDOWN VKSTACK =? 0) with false. change (PGROUNDDOWN VKSTACK =? VKSTACK) with true. cbv iota.
    by apply mk_pte_PTE_FLAGS.
Qed.

(** ** Hart 0 *)
Record power_on (b : board) : Prop := {
  on_procs : ∀ i, 0 ≤ i < NPROC → p_state (procs (m_kern b) i) = UNUSED ∧ p_pid (procs (m_kern b) i) = 0 ∧ mlfq_ok (procs (m_kern b) i);
  on_nextpid : nextpid (m_kern b) = 1;
  on_disk : is_disk (m_mmio b) = true ∧ NUM ≤ queue_max (m_mmio b) 0;
  on_started : m_started b = false }.

Lemma one_process_inv (k k' : kern (ftable B)) q :
  (∀ i, 0 ≤ i < NPROC → p_state (procs k i) = UNUSED ∧ p_pid (procs k i) = 0 ∧ mlfq_ok (procs k i)) → slot_is k k' q →
  p_pid q = 1 → nextpid k' = 2 → mlfq_ok q → table_inv k'.
Proof.
  intros Hpr Sl Hq Hn Hm.
  assert (∀ i, 0 ≤ i < NPROC → p_pid (procs k' i) = if i =? 0 then 1 else 0) as Hpid.
  { intros i Hi. rewrite (Sl i). destruct (i =? 0); [done|]. by apply Hpr. }
  split; [lia|]. split; [split_and!|].
  - intros i Hi. rewrite Hpid, Hn by done. destruct (i =? 0); lia.
  - intros i Hi. rewrite Hpid by done. destruct (Z.eqb_spec i 0); [lia|].
    rewrite (Sl i), (proj2 (Z.eqb_neq i 0)) by done. by destruct (Hpr i Hi) as [-> _].
  - intros i j Hi Hj. rewrite !Hpid by done. destruct (Z.eqb_spec i 0), (Z.eqb_spec j 0); lia.
  - intros i Hi. rewrite (Sl i). destruct (i =? 0); [done|]. by apply Hpr.
Qed.
(** Memory to the first process, on the kernel state. *)
Lemma kernel_up (k : kern (ftable B)) (fs' : ftable B) :
  kernel_end ≤ PHYSTOP - 27 * PGSIZE →
  (∀ i, 0 ≤ i < NPROC → p_state (procs k i) = UNUSED ∧ p_pid (procs k i) = 0 ∧ mlfq_ok (procs k i)) → nextpid k = 1 →
  ∃ s1 root s2 k', kinit (km k) = Ok tt s1 ∧ kvminit s1 = Ok root s2 ∧
    userinit forkret (Kern (procs k) (nextpid k) (initproc k) (ticks k) s2 root fs') = Ok tt k' ∧
    kernel_pagetable k' = root ∧ fs k' = fs' ∧ table_inv k' ∧ initproc k' = 0 ∧
    (∀ i, 0 < i < NPROC → p_state (procs k' i) = UNUSED) ∧ init_ready k' ∧
    (∀ va, 0 ≤ va < MAXVA → pte_of (mem (km k')) root va = entry_in kernel_regions va).
Proof.
  intros Hmem Hpr Hn. destruct (kinit_spec (km k)) as (s1 & L1 & E1 & I1 & _ & HL1).
  pose proof (free_pages L1 27 HL1 Hmem) as Hlen.
  destruct (kvminit_spec s1 L1 I1) as (root & s2 & L2 & E2 & Hpi & _ & _ & Hl2 & He & Hnodes & _); [lia|].
  assert (∀ i, idx9 i → bool_decide (Mid i ∈ kernel_nodes) = false → child (mem s2) root i = None) as Hmiss.
  { intros i Hi Hb%bool_decide_eq_false. destruct (child (mem s2) root i) eqn:Ec; [|done]. exfalso. apply Hb, Hnodes; [done|by rewrite Ec]. }
  set (k2 := Kern (procs k) (nextpid k) (initproc k) (ticks k) s2 root fs').
  destruct (userinit_spec forkret k2 L2) as (k' & u & p & tf & st & f & L' & E3 & N1 & N2 & N3 & N4 & N5 & Sl & Sp & _ & _ & _ & Te & Ts & By & U & P & K).
  { by apply space_one. }
  { lia. }
  { apply Hmiss; [vm_compute; intuition congruence|]. by vm_compute. }
  { apply Hmiss; [vm_compute; intuition congruence|]. by vm_compute. }
  { apply (Hpr 0). by vm_compute. }
  exists s1, root, s2, k'. split; [done|]. split; [done|]. split; [exact E3|]. split; [done|]. split; [done|].
  pose proof (Sl 0) as Sl0. cbn [Z.eqb] in Sl0.
  split; [|split; [done|split; [|split]]].
  - apply (one_process_inv k k' _ Hpr Sl).
    + exact Hn.
    + rewrite N2. cbn [k2 nextpid]. by rewrite Hn.
    + split; vm_compute; intuition congruence.
  - intros i Hi. rewrite (Sl i), (proj2 (Z.eqb_neq i 0)) by lia. apply (Hpr i). lia.
  - apply (init_ready_intro k' u p tf st f L' root); try exact Sp; try exact Te; try exact Ts; try exact By; try exact U;
      rewrite ?Sl0; try reflexivity.
    + exact Hn.
    + intros va Hva. rewrite P by done. by rewrite He.
  - intros va Hva. rewrite K by done. by apply He.
Qed.

(** A step that cannot fail; the state stays a record of its parts. *)
Tactic Notation "board_simpl" :=
  cbn [m_hart m_locks m_cpus m_con m_uart m_pr_locking m_kern m_plic m_mmio m_vdisk m_cache m_shm m_ipi m_started
    set_m_hart set_m_locks set_m_cpus set_m_con set_m_uart set_m_pr_locking set_m_kern set_m_plic set_m_mmio set_m_vdisk
    set_m_cache set_m_shm set_m_ipi set_m_started
    consoleinit c_buf c_r c_w c_e c_out procs nextpid initproc ticks km kernel_pagetable fs set_km set_fs].
Tactic Notation "board_simpl" "in" hyp(H) := revert H; board_simpl; intros H.
Ltac boot_step := erewrite run_cons by reflexivity; board_simpl.
Ltac boot_with E := erewrite run_cons by exact E; board_simpl; clear E.

Lemma memory_up_run (b : board) s1 : kinit (km (m_kern b)) = Ok tt s1 →
  ∃ f, memory_up b = Ok tt (set_m_locks f (set_m_kern (set_km s1 (m_kern b)) b)) ∧ f kmem_lock = initlock ∧ f page_ref_lock = initlock ∧
    ∀ x, m_locks b x = initlock → f x = initlock.
Proof.
  intros E. unfold memory_up, initlock_, on_kern, mem_op, zoom, modify, mbindM. board_simpl. rewrite E.
  eexists. split; [reflexivity|]. board_simpl. split_and!; intros; repeat case_decide; done.
Qed.
Lemma kernel_table_up_run (b : board) root s2 : kvminit (km (m_kern b)) = Ok root s2 →
  let k := m_kern b in
  kernel_table_up b = Ok tt (set_m_kern (Kern (procs k) (nextpid k) (initproc k) (ticks k) s2 root (fs k)) b).
Proof. intros E k. unfold kernel_table_up, on_kern, mem_op, zoom, modify, mbindM. by rewrite E. Qed.
Lemma disk_init_run (b : board) d : virtio_mmio_init pages (m_mmio b) = Ok tt d →
  disk_init b = Ok tt (set_m_vdisk (virtio_disk_init (m_vdisk b)) (set_m_mmio d
    (set_m_locks (λ x, if decide (x = vdisk_lock) then initlock else m_locks b x) b))).
Proof. intros E. unfold disk_init, initlock_, zoom, modify, mbindM. board_simpl. by rewrite E. Qed.
Lemma user_up_run (b : board) k : userinit forkret (m_kern b) = Ok tt k → user_up b = Ok tt (set_m_kern k b).
Proof. intros E. unfold user_up, on_kern, zoom. by rewrite E. Qed.
Lemma procinit_run (b : board) :
  ∃ f, procinit b = Ok tt (set_m_cpus (λ c, if in_range 0 NCPU c then Cpu (intr (m_cpus b c)) 0 false else m_cpus b c) (set_m_locks f b)) ∧
    f pid_lock = initlock ∧ (∀ i, 0 ≤ i < NPROC → f (proc_lock i) = initlock) ∧ (∀ x, m_locks b x = initlock → f x = initlock).
Proof.
  unfold procinit. erewrite mbindM_Ok by reflexivity.
  match goal with |- context [mbindM (init_proc_locks _) _ ?x] => destruct (init_proc_locks_run proc_ids x) as (f & E & Hp & Hk) end.
  exists f. rewrite (mbindM_Ok _ _ _ _ _ E). split; [reflexivity|]. cbn [m_locks set_m_locks] in Hk. split_and!.
  - apply Hk. by rewrite decide_True.
  - intros i Hi. apply Hp. apply elem_of_seqZ. lia.
  - intros x Hx. apply Hk. by case_decide.
Qed.

Lemma trap_bits x y :
  Z.testbit (Z.lor x SSTATUS_SIE) 1 = true ∧
  (∀ i, i ∈ [1; 5; 9] → Z.testbit (Z.lor (Z.lor (Z.lor y SIE_SEIE) SIE_SSIE) SIE_STIE) i = true).
Proof.
  split; [rewrite Z.lor_spec; apply orb_true_r|]. intros i Hi.
  repeat (apply elem_of_cons in Hi as [->|Hi]; [rewrite !Z.lor_spec; by rewrite ?orb_true_r|]). by apply elem_of_nil in Hi.
Qed.
Lemma main_0_run b :
  power_on b → kernel_end ≤ PHYSTOP - 27 * PGSIZE → 0 ≤ pages < 2 ^ 44 →
  ∃ b', run main_0_init b = Ok tt b' ∧ booted [0] b' ∧ m_started b' = false.
Proof.
  intros [Hpr Hnp [Hd1 Hd2] Hst] Hmem Hpages.
  destruct (kernel_up (m_kern b) (fileinit (fs (m_kern b))) Hmem Hpr Hnp)
    as (s1 & root & s2 & k' & E1 & E2 & E3 & N1 & N2 & N3 & N4 & N5 & N6 & N7).
  destruct (virtio_init_correct pages (m_mmio b) Hpages) as (_ & _ & _ & Hd).
  destruct (Hd Hd1 Hd2) as (d' & Ed & D1 & _ & _ & D2 & D3).
  destruct b as [ha lo cp co ua pr ke pl mm vd ca sh ip st]. cbn [m_kern m_mmio m_started] in *.
  unfold main_0_init. do 3 boot_step.
  match goal with |- context [run _ ?x] => destruct (print_lines_run logo x) as (out & Eo) end. boot_with Eo.
  match goal with |- context [run _ ?x] => destruct (memory_up_run x s1 E1) as (f1 & Ef & F1 & F2 & F3) end.
  board_simpl in F3. boot_with Ef.
  match goal with |- context [run _ ?x] => pose proof (kernel_table_up_run x root s2 E2) as Ek end. boot_with Ek.
  do 3 boot_step.
  match goal with |- context [run _ ?x] => destruct (procinit_run x) as (f2 & Ep & F4 & F5 & F6) end.
  board_simpl in F6. boot_with Ep.
  do 2 boot_step.
  match goal with |- context [run _ ?x] => pose proof (disk_init_run x d' Ed) as Edd end. boot_with Edd.
  do 3 boot_step.
  match goal with |- context [run _ ?x] => pose proof (user_up_run x k' E3) as Eu end. boot_with Eu.
  do 2 boot_step. eexists. split; [reflexivity|]. split; [|exact Hst].
  assert (∀ l, match l with proc_lock i => 0 ≤ i < NPROC | vdisk_lock | bcache_lock | ftable_lock | shm_lock => False | _ => True end →
    f2 l = initlock) as HF.
  { intros l Hl. destruct l; try done; try (by apply F5); apply F6; repeat case_decide; try done; by apply F3. }
  split; board_simpl.
  - intros l Hl. repeat case_decide; try done. apply HF. by destruct l.
  - intros c Hc. by rewrite (proj2 (in_range_true _ _ _)) by lia.
  - intros h ->%list_elem_of_singleton. rewrite !upd_eq. cbn [satp stvec sstatus sie]. rewrite N1.
    destruct (trap_bits (sstatus (ha 0)) (sie (ha 0))). split_and!; try done; reflexivity.
  - do 3 (split; [done|]). split; [|done]. unfold uart_ok, UART_TX_BUF_SIZE. cbn. lia.
  - split_and!; done.
  - intros d. apply binit_inv.
  - intros f Hf. rewrite N2. cbn [fileinit ftab]. by rewrite bool_decide_true.
  - intros i Hi. cbn [shm_init segments]. by rewrite (proj2 (in_range_true _ _ _)) by lia.
  - rewrite N1. exact N7.
  - done.
  - exact N6.
Qed.

(** ** Hart 1 *)
Lemma booted_ext hs hs' (b b' : board) :
  booted hs b → m_locks b' = m_locks b → m_cpus b' = m_cpus b → m_uart b' = m_uart b → m_kern b' = m_kern b → m_mmio b' = m_mmio b →
  m_vdisk b' = m_vdisk b → m_cache b' = m_cache b → m_shm b' = m_shm b →
  c_r (m_con b') = c_r (m_con b) ∧ c_w (m_con b') = c_w (m_con b) ∧ c_e (m_con b') = c_e (m_con b) →
  (∀ h, h ∈ hs' → satp (m_hart b' h) = MAKE_SATP (kernel_pagetable (m_kern b)) ∧ stvec (m_hart b' h) = kernelvec ∧
    Z.testbit (sstatus (m_hart b' h)) 1 = true ∧ (∀ i, i ∈ [1; 5; 9] → Z.testbit (sie (m_hart b' h)) i = true) ∧
    configured h (m_plic b')) →
  booted hs' b'.
Proof.
  intros [T1 T2 T3 T4 T5 T6 T7 T8 T9 T10 T11] E1 E2 E3 E4 E5 E6 E7 E8 (C1 & C2 & C3) Hh.
  split; rewrite ?E1, ?E2, ?E3, ?E4, ?E5, ?E6, ?E7, ?E8, ?C1, ?C2, ?C3; done.
Qed.
Lemma main_1_run b : booted [0] b → ∃ b', run main_1 b = Ok tt b' ∧ booted [0; 1] b' ∧ m_started b' = m_started b.
Proof.
  intros Hb. pose proof (bt_harts _ _ Hb 0 ltac:(by left)) as (H1 & H2 & H3 & H4 & (P1 & P2 & P3 & P4)).
  destruct b as [ha lo cp co ua pr ke pl mm vd ca sh ip st]. cbn [m_hart m_kern m_plic] in *.
  unfold main_1. do 4 boot_step. eexists. split; [reflexivity|]. split; [|done].
  apply (booted_ext [0] [0; 1] _ _ Hb); try done. board_simpl.
  intros h [->| ->%list_elem_of_singleton]%elem_of_cons.
  - rewrite !upd_ne by done. split_and!; done.
  - rewrite !upd_eq. cbn [satp stvec sstatus sie]. destruct (trap_bits (sstatus (ha 1)) (sie (ha 1))). split_and!; done.
Qed.

(** ** Both harts *)
(** Either hart 1 spins and hart 0 has done a part of [main_0], or hart 0 has done
    all of it and hart 1 a part of [main_1]. *)
Definition along (b0 b1 : board) (x : booting) : Prop :=
  match todo1 x with
  | None => ∃ l, main_0 = l ++ todo0 x ∧ run l b0 = Ok tt (brd x)
  | Some l1 => todo0 x = [] ∧ ∃ l, main_1 = l ++ l1 ∧ run l b1 = Ok tt (brd x)
  end.
Lemma run_snoc l c b b1 b2 : run l b = Ok tt b1 → c b1 = Ok tt b2 → run (l ++ [c]) b = Ok tt b2.
Proof. intros E1 E2. rewrite (run_steps_app _ _ _ _ E1). by rewrite (run_cons _ _ _ _ E2). Qed.

(** No step before the last touches the flag. *)
Definition quiet {A} (c : M board A) : Prop := ∀ b a b', c b = Ok a b' → m_started b' = m_started b.
Lemma quiet_ret {A} (a : A) : quiet (mretM a).
Proof. by intros b a' b' [= _ <-]. Qed.
Lemma quiet_bind {A C} (c : M board A) (k : A → M board C) : quiet c → (∀ a, quiet (k a)) → quiet (mbindM c k).
Proof. intros Hc Hk b a b' (x & b1 & E1 & E2)%mbindM_inv. rewrite (Hk x _ _ _ E2). by apply (Hc _ _ _ E1). Qed.
Lemma quiet_modify f : (∀ b, m_started (f b) = m_started b) → quiet (modify f).
Proof. intros Hf b a b' [= _ <-]. apply Hf. Qed.
Lemma quiet_gets {A} (f : board → A) : quiet (gets f).
Proof. by intros b a b' [= _ <-]. Qed.
Lemma quiet_zoom {S A} (get : board → S) set (c : M S A) : (∀ x b, m_started (set x b) = m_started b) → quiet (zoom get set c).
Proof. intros Hs b a b'. unfold zoom. destruct (c (get b)); [|done]. intros [= _ <-]. apply Hs. Qed.
Ltac quiet_solve :=
  repeat first [apply quiet_ret | apply quiet_gets | apply quiet_bind; [|intros ?] | apply quiet_modify; done | apply quiet_zoom; done].
Lemma quiet_print_lines l : quiet (print_lines l).
Proof. induction l as [|x l IH]; cbn [print_lines]; unfold print; quiet_solve. done. Qed.
Lemma quiet_proc_locks l : quiet (init_proc_locks l).
Proof. induction l as [|x l IH]; cbn [init_proc_locks]; unfold initlock_; quiet_solve. done. Qed.
Lemma main_0_quiet : Forall quiet main_0_init.
Proof.
  unfold main_0_init. repeat (apply Forall_cons; split); [..|by apply Forall_nil].
  all: unfold console_up, uart_up, printfinit, print_logo, memory_up, kernel_table_up, kvminithart, timerinit, trapinithart, set_next_timeout,
    on_hart, procinit, plic_op, disk_init, cache_up, files_up, shm_up, user_up, print, initlock_, on_kern; cbn [send_ipis seqZ];
    quiet_solve; try apply quiet_print_lines; try apply quiet_proc_locks.
Qed.
Lemma run_quiet l b b' : Forall quiet l → run l b = Ok tt b' → m_started b' = m_started b.
Proof.
  intros Hl. revert b. induction Hl as [|c l Hc Hl IH]; intros b; [by intros [= <-]|].
  cbn [run]. intros ([] & b1 & E1 & E2)%mbindM_inv. rewrite (IH b1 E2). by apply (Hc _ _ _ E1).
Qed.
Lemma started_done l l' b b' :
  m_started b = false → main_0 = l ++ l' → run l b = Ok tt b' → m_started b' = true → l' = [].
Proof.
  intros Hf Hm E Ht. destruct l' as [|x l']; [done|]. destruct (exists_last (l := x :: l') ltac:(done)) as (l2 & c & E').
  exfalso. rewrite E' in Hm. rewrite app_assoc in Hm. apply app_inj_tail in Hm as [Hm _].
  assert (Forall quiet l) as Hl by (pose proof main_0_quiet as Hq; rewrite Hm in Hq; by apply Forall_app in Hq as [? _]).
  rewrite (run_quiet l b b' Hl E) in Ht. congruence.
Qed.

Lemma along_step b0 b1 x y :
  m_started b0 = false → run main_0 b0 = Ok tt b1 → along b0 b1 x → bstep x y → along b0 b1 y.
Proof.
  intros Hf H0 Hx Hs. destruct Hs as [b c l h b' E|b l E|b l E|b c l l0 b' E]; unfold along in *; cbn [todo0 todo1 brd] in *.
  - destruct h as [h|]; [by destruct Hx|]. destruct Hx as (l1 & Hm & Er). exists (l1 ++ [c]).
    split; [by rewrite <- app_assoc|by apply (run_snoc _ _ _ b)].
  - done.
  - destruct Hx as (l1 & Hm & Er). pose proof (started_done _ _ _ _ Hf Hm Er E) as ->. split; [done|].
    exists []. split; [done|]. rewrite app_nil_r in Hm. subst l1. rewrite H0 in Er. by injection Er as ->.
  - destruct Hx as (-> & l1 & Hm & Er). split; [done|]. exists (l1 ++ [c]).
    split; [by rewrite <- app_assoc|by apply (run_snoc _ _ _ b)].
Qed.
Lemma along_reach b0 b1 x :
  m_started b0 = false → run main_0 b0 = Ok tt b1 → rtc bstep (boot b0) x → along b0 b1 x.
Proof.
  intros Hf H0 Hr. apply (rtc_ind_r (R := bstep) (along b0 b1) (boot b0)); [|by intros y z _ Hs Hy; eapply along_step|done].
  exists []. done.
Qed.
Lemma run_prefix l l' (b b1 b2 : board) : run (l ++ l') b = Ok tt b2 → run l b = Ok tt b1 → run l' b1 = Ok tt b2.
Proof. intros E E1. by rewrite (run_steps_app _ _ _ _ E1) in E. Qed.

Lemma finish_0 l b b' : run l b = Ok tt b' → rtc bstep (At b l None) (At b' [] None).
Proof.
  revert b. induction l as [|c l IH]; intros b; [by intros [= ->]|].
  cbn [run]. intros ([] & b1 & E1 & E2)%mbindM_inv. eapply rtc_l; [by apply Step0|by apply IH].
Qed.
Lemma finish_1 l b b' : run l b = Ok tt b' → rtc bstep (At b [] (Some l)) (At b' [] (Some [])).
Proof.
  revert b. induction l as [|c l IH]; intros b; [by intros [= ->]|].
  cbn [run]. intros ([] & b1 & E1 & E2)%mbindM_inv. eapply rtc_l; [by apply Step1|by apply IH].
Qed.
Lemma run_head c l (b b' : board) : run (c :: l) b = Ok tt b' → ∃ b1, c b = Ok tt b1.
Proof. cbn [run]. intros ([] & b1 & E1 & _)%mbindM_inv. eauto. Qed.

(** C6: [main] on both harts.  From power-on with 27 free pages and a disk, in every
    interleaving: no call of [main] panics and both harts can reach the scheduler; hart
    1 leaves its loop only when hart 0 has initialised everything; and when both harts
    enter the scheduler every component is in its initial state - locks free, both
    harts on the kernel's table with traps and device interrupts on, console and serial
    line empty, the disk's queue set up, the buffer cache, open files and shared memory
    empty - the kernel's table maps the kernel's regions and nothing else, and the one
    process is the first one, runnable at the start of [initcode] in an address space
    of its own. *)
Theorem boot_correct b x :
  power_on b → kernel_end ≤ PHYSTOP - 27 * PGSIZE → 0 ≤ pages < 2 ^ 44 → rtc bstep (boot b) x →
  (∀ c l, todo0 x = c :: l → ∃ b', c (brd x) = Ok tt b') ∧
  (∀ c l, todo1 x = Some (c :: l) → ∃ b', c (brd x) = Ok tt b') ∧
  (∃ y, rtc bstep x y ∧ todo0 y = [] ∧ todo1 y = Some []) ∧
  (todo1 x ≠ None → todo0 x = []) ∧ (todo1 x = Some main_1 → booted [0] (brd x)) ∧
  (todo1 x = Some [] → booted [0; 1] (brd x)).
Proof.
  intros Hon Hmem Hpages Hr. destruct (main_0_run b Hon Hmem Hpages) as (b0 & E0 & Hb0 & Hst).
  set (b1 := set_m_started true b0).
  assert (run main_0 b = Ok tt b1) as E1 by (unfold main_0; by apply (run_snoc _ _ _ b0)).
  assert (booted [0] b1) as Hb1 by (apply (booted_ext [0] [0] b0); try done; apply (bt_harts _ _ Hb0)).
  destruct (main_1_run b1 Hb1) as (b2 & E2 & Hb2 & _).
  pose proof (along_reach b b1 x (on_started _ Hon) E1 Hr) as Ha. clear Hr.
  destruct x as [bx l0 [l1|]]; unfold along in Ha; cbn [todo0 todo1 brd] in *.
  - destruct Ha as (-> & l & Hm & El). pose proof E2 as E2'. rewrite Hm in E2'. apply run_prefix with (b1 := bx) in E2'; [|done].
    split_and!.
    + done.
    + intros c l2 [= ->]. by apply run_head in E2'.
    + eexists. split; [by apply finish_1|done].
    + done.
    + intros [= ->]. assert (l = []) as -> by (apply (app_inv_tail main_1); done). by injection El as <-.
    + intros [= ->]. injection E2' as ->. done.
  - destruct Ha as (l & Hm & El). pose proof E1 as E1'. rewrite Hm in E1'. apply run_prefix with (b1 := bx) in E1'; [|done].
    split_and!; try done.
    + intros c l2 ->. by apply run_head in E1'.
    + eexists. split; [etrans; [exact (finish_0 _ _ _ E1')|]; eapply rtc_l; [by apply Go1|]; exact (finish_1 _ _ _ E2)|]. by split.
Qed.
End Boot.

(** ** A machine with twenty-seven pages *)
Section Witness.
#[local] Obligation Tactic := (vm_compute; intuition congruence).
#[local, program] Instance boot_layout : Layout := {|
  kernel_end := 2153664512; etext := 2149584896; trampoline := 2149580800 |}.
#[local] Existing Instance unit_backend.
#[local] Instance boot_entries : EntryRefs (ftable unit) := {| edup_ := λ _, mretM tt; eput_ := λ _, mretM tt |}.
Definition blank_kern : kern (ftable unit) :=
  Kern (λ _, demo_proc UNUSED (-1) 0 0) 1 0 0 zero_kst 0 (Ftable (λ _, File FD_NONE 0 false false 0 0 0 0) tt).
Definition blank : board unit :=
  Board (λ _, Hart 0 0 0 0 0) (λ _, Spin true (Some 1)) (λ _, Cpu false 1 true) (Con (λ _, 0) 7 8 9 []) 
    (Uart (λ _, 0) 3 4 [] (λ _, None) false) false blank_kern (Plic (λ _, 0) (λ _, 0) (λ _, 0) (λ _, false) (λ _, false))
    qemu_disk quiet_machine (Bcache (λ _, Buf false 0 0 0 0 []) (λ _, 0) (λ _, 0) (λ _, [])) (ShmTable (λ _, Seg 0 0 0 0 0 0 true) 0) [] false.
Lemma blank_on : power_on blank.
Proof.
  split; [|done..]. intros i _. split; [reflexivity|]. split; [reflexivity|]. split; vm_compute; intuition congruence.
Qed.
Lemma boot_correct_witness :
  ∃ y, rtc (bstep 4096 (λ _, 0)) (boot 4096 9 2149600000 (λ _, 0) blank) y ∧
    booted 4096 2149600000 [0; 1] (brd y) ∧ p_state (procs (m_kern (brd y)) 0) = RUNNABLE.
Proof.
  destruct (boot_correct 4096 9 2149600000 (λ _, 0) blank (boot 4096 9 2149600000 (λ _, 0) blank)) as (_ & _ & (y & Hy & _ & Hf) & _);
    [exact blank_on|vm_compute; congruence|lia|apply rtc_refl|].
  destruct (boot_correct 4096 9 2149600000 (λ _, 0) blank y) as (_ & _ & _ & _ & _ & Hb);
    [exact blank_on|vm_compute; congruence|lia|exact Hy|].
  exists y. split; [exact Hy|]. pose proof (Hb Hf) as Hbt. split; [exact Hbt|]. apply (ir_state _ (bt_init _ _ _ _ Hbt)).
Defined.
End Witness.
