(* ===== verification/Mount.v ===== *)
(** * The first return to user mode and the mounting of the volume

    [forkret] (kernel/proc.c) is where the scheduler's first switch to a process ends.
    The first process to get there mounts the volume ([fat32_init] of kernel/fat32.c,
    whose two parts are in Fat.v and FatDir.v) and takes its root as current directory;
    all of them then leave the kernel through [usertrapret] (kernel/trap.c).

    The state is that of the file system calls: the volume with its caches over a disk
    [D] that meets the sector interface, and the kernel.  The release of [p->lock], the
    first statement of [forkret], is a step of Spinlock.v.  [first] is the static variable of that name. *)
From stdpp Require Import prelude list strings.
From Stdlib Require Import ZArith Lia.
From S2P Require Import Prelude Printf Riscv Kalloc ProcDefs ProcLife Fat FatProps FatNames FatFile FatFileProps FatDir FatDirProps Trap Sysfile.
Open Scope Z_scope.

Definition SSTATUS_SPP : Z := Z.shiftl 1 8.
Definition SSTATUS_SPIE : Z := Z.shiftl 1 5.
Definition SSTATUS_INTR : Z := Z.shiftl 1 1.

(** The registers that decide where [sret] and the next trap go. *)
Record uregs := Uregs { u_sstatus : Z; u_stvec : Z; u_sepc : Z }.

Definition intr_off (r : uregs) : uregs := Uregs (Z.land (u_sstatus r) (Z.lnot SSTATUS_INTR)) (u_stvec r) (u_sepc r).
(** The register writes of [usertrapret]; [uservec] is the address of that label in the
    trampoline page, [epc] the saved user program counter. *)
Definition user_regs (uservec epc : Z) (r : uregs) : uregs :=
  let r := intr_off r in
  Uregs (Z.lor (Z.land (u_sstatus r) (Z.lnot SSTATUS_SPP)) SSTATUS_SPIE) uservec epc.

Section Mount.
Context {D U : Type} {SD : Sectors D}.

(** The whole of [fat32_init]. *)
Definition mount : M (vfs D U) Z := r <-- fat_op fat32_init ;; modify ecache_init ;;; mretM r.
End Mount.

Section Forkret.
Context `{LAY : Layout} {D : Type} {SD : Sectors D}.
Context (me : Z).
#[local] Instance user_mem : UserMem (kern ()) := kern_mem me.

Definition forkret (ksatp usertrap hartid uservec : Z) (first : bool) (r : uregs) : M (vfs D (kern ())) (bool * uregs * Z) :=
  whenM first
    (mount ;;;
     p <-- um_op (get_proc me) ;;
     c <-- ename (p_pid p) (cwd p) (chars "/") ;;
     um_op (on_proc me (set_cwd c))) ;;;
  t <-- um_op (usertrapret me ksatp usertrap hartid) ;;
  mretM (false, user_regs uservec t.1 r, t.2).
End Forkret.

(** ** The boot sector *)

(** Sector 0 of a volume of geometry [g]: the fields at their offsets, with anything in
    between. *)
Definition boot_sector (g : geometry) (jump mid flags info code : list Z) : list Z :=
  jump ++ bytes16 (byts_per_sec g) ++ [sec_per_clus g] ++ bytes16 (rsvd_sec_cnt g) ++ [fat_cnt g] ++ mid ++
  bytes32 (hidd_sec g) ++ bytes32 (tot_sec g) ++ bytes32 (fat_sz g) ++ flags ++ bytes32 (root_clus g) ++
  info ++ chars "FAT32" ++ code.

(** The fields fit, and the derived values are the ones of the FAT32 layout. *)
Record bpb_ok (g : geometry) : Prop := {
  bp_geo : fgeo_ok g;
  bp_half : 0 ≤ byts_per_sec g < 2 ^ 16 ∧ 0 ≤ rsvd_sec_cnt g < 2 ^ 16;
  bp_word : 0 ≤ hidd_sec g < 2 ^ 32 ∧ 0 ≤ tot_sec g < 2 ^ 32 ∧ 0 ≤ fat_sz g < 2 ^ 32 ∧ 0 ≤ root_clus g < 2 ^ 32;
  bp_data : data_sec_cnt g = tot_sec g - first_data_sec g ∧ 0 ≤ data_sec_cnt g;
  bp_clus : data_clus_cnt g = data_sec_cnt g / sec_per_clus g }.

Record formatted (sec : Z → list Z) (g : geometry) : Prop := {
  fm_len : ∀ n, length (sec n) = 512%nat;
  fm_bpb : bpb_ok g;
  fm_boot : ∃ jump mid flags info code, length jump = 11%nat ∧ length mid = 11%nat ∧ length flags = 4%nat ∧
    length info = 34%nat ∧ sec 0 = boot_sector g jump mid flags info code }.

Lemma bytes16_value v : 0 ≤ v < 2 ^ 16 → v mod 2 ^ 8 + 2 ^ 8 * ((v / 2 ^ 8) mod 2 ^ 8) = v.
Proof. intros Hv. Z.to_euclidean_division_equations. lia. Qed.

Lemma bytes32_value v : 0 ≤ v < 2 ^ 32 → get32 (bytes32 v) 0 = v.
Proof.
  intros Hv. change (bytes32 v) with (set32 [0; 0; 0; 0] 0 v).
  rewrite get32_set32_eq by (simpl; lia). unfold u32. by rewrite Z.mod_small.
Qed.

(** Reading the fields back. *)
Lemma boot_sector_fields g jump mid flags info code :
  length jump = 11%nat → length mid = 11%nat → length flags = 4%nat → length info = 34%nat →
  bpb_ok g →
  let b := boot_sector g jump mid flags info code in
  take 5 (drop 82 b) = [70; 65; 84; 51; 50] ∧
  nth 11 b 0 + 2 ^ 8 * nth 12 b 0 = byts_per_sec g ∧ nth 13 b 0 = sec_per_clus g ∧
  nth 14 b 0 + 2 ^ 8 * nth 15 b 0 = rsvd_sec_cnt g ∧ nth 16 b 0 = fat_cnt g ∧
  get32 b 28 = hidd_sec g ∧ get32 b 32 = tot_sec g ∧ get32 b 36 = fat_sz g ∧ get32 b 44 = root_clus g.
Proof.
  intros H1 H2 H3 H4 [_ [B1 B2] (W1 & W2 & W3 & W4) _ _]. cbv zeta.
  do 11 (destruct jump as [|? jump]; [done|]). destruct jump; [|done].
  do 11 (destruct mid as [|? mid]; [done|]). destruct mid; [|done].
  do 4 (destruct flags as [|? flags]; [done|]). destruct flags; [|done].
  do 34 (destruct info as [|? info]; [done|]). destruct info; [|done].
  split_and!; try done; try (by apply bytes16_value); by apply bytes32_value.
Qed.

(** ** Mounting *)
Section MountProps.
Context {D U : Type} {SD : Sectors D} {UM : UserMem U}.
Implicit Types s : vfs D U.

Lemma geometry_eq g g' :
  byts_per_sec g = byts_per_sec g' → sec_per_clus g = sec_per_clus g' → rsvd_sec_cnt g = rsvd_sec_cnt g' →
  fat_cnt g = fat_cnt g' → hidd_sec g = hidd_sec g' → tot_sec g = tot_sec g' → fat_sz g = fat_sz g' →
  root_clus g = root_clus g' → first_data_sec g = first_data_sec g' → data_sec_cnt g = data_sec_cnt g' →
  data_clus_cnt g = data_clus_cnt g' → byts_per_clus g = byts_per_clus g' → g = g'.
Proof. destruct g, g'. simpl. congruence. Qed.

(** What [fat32_init] makes of a sector 0 and what it refuses. *)
Lemma fat32_init_run (f : fatfs D) g :
  disk_ok (dsk f) → formatted (sector_of (dsk f)) g →
  ∃ d, fat32_init f = Ok 0 (Fatfs g (fat_cache_init (cache f)) d) ∧ disk_ok d ∧
    ∀ n, sector_of d n = sector_of (dsk f) n.
Proof.
  intros Hd [_ Hg (ju & mi & fl & inf & co & L1 & L2 & L3 & L4 & E0)].
  destruct (with_sector_law 0 (λ _, None) (dsk f) Hd) as (d & Ed & Hd' & Hs); [done|].
  exists d. split; [|split; [done|]].
  2:{ intros n. rewrite Hs. by destruct (Z.eqb_spec n 0) as [->|]. }
  destruct (boot_sector_fields g ju mi fl inf co L1 L2 L3 L4 Hg) as (F1 & F2 & F3 & F4 & F5 & F6 & F7 & F8 & F9).
  unfold fat32_init, disk_op, zoom at 1. unfold mbindM at 1. rewrite Ed, E0, F1.
  rewrite bool_decide_true by done. cbn [negb]. cbv zeta. rewrite F2, F3, F4, F5, F6, F7, F8, F9.
  destruct Hg as [[G Gb Gs] _ (W1 & W2 & W3 & W4) [P1 P2] P3]. pose proof G as [G1 G2 G3 G4 G5 G6 G7 G8 G9].
  unfold NO_SECTOR in *.
  assert (u32 (rsvd_sec_cnt g + fat_cnt g * fat_sz g) = first_data_sec g) as ->.
  { rewrite <- G5. apply Z.mod_small. nia. }
  assert (u32 (tot_sec g - first_data_sec g) = data_sec_cnt g) as ->.
  { rewrite P1. apply Z.mod_small. rewrite <- P1. nia. }
  rewrite <- P3, G1, <- (Z.mul_comm BSIZE). unfold mbindM, modify, on_cache, mretM. cbn [geo cache dsk Z.eqb].
  change (BSIZE =? BSIZE) with true. cbn [negb]. f_equal. f_equal. by apply geometry_eq.
Qed.

Lemma not_fat32_panics (f : fatfs D) :
  disk_ok (dsk f) → take 5 (drop 82 (sector_of (dsk f) 0)) ≠ chars "FAT32" →
  fat32_init f = Panic "not FAT32 volume".
Proof.
  intros Hd Hn. destruct (with_sector_law 0 (λ _, None) (dsk f) Hd) as (d & Ed & _); [done|].
  unfold fat32_init, disk_op, zoom at 1. unfold mbindM at 1. rewrite Ed. by rewrite bool_decide_false.
Qed.

(** The entry cache that mounting leaves: no entry valid or referenced, every one of them
    in the ring, entry 1 the least recently used. *)
Lemma ecache_init_not_cached s dp name : not_cached (ecache_init s) dp name.
Proof. unfold not_cached. vm_compute. reflexivity. Qed.
Lemma ecache_init_victim s : victim (ecache_init s) 1.
Proof. vm_compute. reflexivity. Qed.
Lemma ecache_init_fat s : v_fat (ecache_init s) = v_fat s ∧ v_mem (ecache_init s) = v_mem s.
Proof. split; reflexivity. Qed.
Lemma ecache_init_root s : v_ent (ecache_init s) ROOT =
  Dirent (replicate 256 0) (Z.lor ATTR_DIRECTORY ATTR_SYSTEM) 0 0 0 0 (root_clus (geo (v_fat s))) 0 0 0
    (root_clus (geo (v_fat s))) 0 0 0 1 0 0 NULL 0.
Proof. reflexivity. Qed.

(** The root directory of a volume of geometry [g] on [d]: its chain of clusters and the
    files its slots hold. *)
Record root_dir (f : fatfs D) (l : list Z) (recs : list drec) (eoff : Z) : Prop := {
  rd_first : l !! 0%nat = Some (root_clus (geo f));
  rd_linked : linked f l;
  rd_nodup : NoDup l;
  rd_size : dir_size_ok f l;
  rd_list : listing (slot_at f l) 0 recs eoff }.
Lemma root_dir_same f f' l recs eoff : same_disk f f' → root_dir f l recs eoff → root_dir f' l recs eoff.
Proof.
  intros Hs [R1 R2 R3 R4 R5]. pose proof Hs as [Hg Hd]. split; [by rewrite Hg|by eapply same_disk_linked|done| |].
  - unfold dir_size_ok. by rewrite Hg.
  - eapply listing_ext; [|exact R5]. intros o. unfold slot_at. rewrite Hg. case_match; [|done].
    f_equal. apply run_ext. intros x _. unfold fbyte, dbyte. by rewrite Hg, Hd.
Qed.

(** A disk with a volume on it, not yet mounted. *)
Definition on_disk (s : vfs D U) (g : geometry) (l : list Z) (recs : list drec) (eoff : Z) : Prop :=
  disk_ok (dsk (v_fat s)) ∧ formatted (sector_of (dsk (v_fat s))) g ∧
  root_dir (Fatfs g (cache (v_fat s)) (dsk (v_fat s))) l recs eoff.

(** Mounted: the root is an open directory holding these files, and no name is cached. *)
Record mounted (s : vfs D U) (g : geometry) (l : list Z) (recs : list drec) (eoff : Z) : Prop := {
  mt_geo : geo (v_fat s) = g;
  mt_root : dir_ready s ROOT l recs eoff;
  mt_cold : ∀ name, not_cached s ROOT name;
  mt_free : victim s 1 }.

Lemma mount_run s g l recs eoff :
  on_disk s g l recs eoff →
  ∃ s', mount s = Ok 0 s' ∧ mounted s' g l recs eoff ∧ v_mem s' = v_mem s ∧
    e_ref (v_ent s' ROOT) = 0 ∧
    ∀ n, sector_of (dsk (v_fat s')) n = sector_of (dsk (v_fat s)) n.
Proof.
  intros (Hd & Hf & Hr). destruct (fat32_init_run (v_fat s) g Hd Hf) as (d & E & Hd' & Hs).
  set (f := Fatfs g (fat_cache_init (cache (v_fat s))) d) in *.
  set (s1 := Vfs f (v_mem s) (v_ent s) (v_nxt s) (v_prv s)).
  exists (ecache_init s1). split.
  { unfold mount, fat_op, zoom, mbindM, modify, mretM. by rewrite E. }
  destruct (ecache_init_fat s1) as [Ef Em]. split; [|split; [done|split; [done|intros n; by rewrite Ef]]].
  apply (root_dir_same _ f) in Hr; [|by split]. destruct Hr as [R1 R2 R3 R4 R5].
  pose proof (bp_geo _ (fm_bpb _ _ Hf)) as Hg.
  split; [by rewrite Ef| |intros name; apply ecache_init_not_cached|apply ecache_init_victim].
  split; rewrite ?Ef, ?ecache_init_root; try done.
  split; [|done| |done|done].
  - split; [split; [apply Hg|done|]|apply fat_cache_init_ok]. intros n. cbn [dsk f]. rewrite Hs. apply Hf.
  - intros i Hi. unfold f. simpl. by rewrite (proj2 (in_range_true _ _ _)) by lia.
Qed.

Lemma escan_ext fuel f f' link e :
  (∀ i, i ≠ ROOT → f i = f' i) → escan fuel f link e = escan fuel f' link e.
Proof.
  intros Hf. revert e. induction fuel as [|fuel IH]; intros e; [done|]. cbn [escan].
  destruct (Z.eqb_spec e ROOT) as [|Hne]; [done|]. by rewrite Hf, IH.
Qed.

(** References to the root and the kernel's memory do not matter to it. *)
Lemma mounted_ref s g l recs eoff n u :
  mounted s g l recs eoff →
  mounted (Vfs (v_fat s) u (upd (v_ent s) ROOT (set_e_ref n (v_ent s ROOT))) (v_nxt s) (v_prv s)) g l recs eoff.
Proof.
  intros [M1 M2 M3 M4]. split; [done| | |].
  - destruct M2 as [? [? ? ?] ? ? ? ? ?]. split; cbn [v_fat v_ent]; rewrite ?upd_eq; done.
  - intros name. unfold not_cached. rewrite <- (M3 name). cbn [v_ent v_nxt]. apply escan_ext.
    intros i Hi. by rewrite upd_ne.
  - unfold victim. rewrite <- M4. cbn [v_ent v_prv]. apply escan_ext. intros i Hi. by rewrite upd_ne.
Qed.
Lemma mounted_mem s g l recs eoff u : mounted s g l recs eoff → mounted (with_mem u s) g l recs eoff.
Proof. intros [M1 [? ? ? ? ? ? ?] M3 M4]. by split. Qed.

Lemma ename_root pid c s :
  ename pid c (chars "/") s =
  Ok ROOT (Vfs (v_fat s) (v_mem s) (upd (v_ent s) ROOT (set_e_ref (i32 (e_ref (v_ent s ROOT) + 1)) (v_ent s ROOT)))
             (v_nxt s) (v_prv s)).
Proof. reflexivity. Qed.
End MountProps.

(** ** The way out of the kernel *)
Section UserProps.
Context `{LAY : Layout} (me ksatp usertrap hartid uservec : Z).

(** [r'] and [satp] take the hart to user mode, at the saved program counter and with the
    page table of process [me]; [k'] is [k] with what [uservec] needs to come back. *)
Record in_user (k k' : kern ()) (r' : uregs) (satp : Z) : Prop := {
  iu_mode : Z.testbit (u_sstatus r') 8 = false ∧ Z.testbit (u_sstatus r') 5 = true ∧ Z.testbit (u_sstatus r') 1 = false;
  iu_trap : u_stvec r' = uservec;
  iu_pc : u_sepc r' = tf_get TF_EPC (procs k me) (km k);
  iu_table : satp = MAKE_SATP (pagetable (procs k me));
  iu_back : map (λ o, tf_get o (procs k me) (km k')) [0; 8; 16; 32] =
    map u64 [ksatp; p_kstack (procs k me) + PGSIZE; usertrap; hartid];
  iu_frame : ∀ x, let tf := trapframe (procs k me) in
    ¬ (tf ≤ x < tf + 24 ∨ tf + 32 ≤ x < tf + 40) → mem (km k') x = mem (km k) x;
  iu_rest : ∃ m, k' = set_km (set_mem m (km k)) k }.

Lemma user_regs_mode epc r :
  let x := u_sstatus (user_regs uservec epc r) in
  Z.testbit x 8 = false ∧ Z.testbit x 5 = true ∧ Z.testbit x 1 = false.
Proof.
  cbn [user_regs u_sstatus intr_off]. unfold SSTATUS_SPP, SSTATUS_SPIE, SSTATUS_INTR.
  rewrite !Z.lor_spec, !Z.land_spec, !Z.lnot_spec, !Z.shiftl_spec by lia. simpl.
  rewrite !andb_false_r, ?orb_true_r. done.
Qed.

Lemma usertrapret_run (k : kern ()) r :
  ∃ epc satp k', usertrapret me ksatp usertrap hartid k = Ok (epc, satp) k' ∧
    in_user k k' (user_regs uservec epc r) satp.
Proof.
  eexists _, _, _. split; [reflexivity|]. set (tf := trapframe (procs k me)).
  split; [apply user_regs_mode|done| |done| | |].
  - cbn [user_regs u_sepc]. unfold tf_get, TF_EPC. fold tf. cbn [km set_km mem set_mem].
    rewrite !load64_store64_ne by lia. done.
  - cbn [map]. unfold tf_get. cbn [km set_km mem set_mem]. fold tf.
    repeat (f_equal; [repeat (rewrite load64_store64_ne by lia); apply load64_store64_eq|]). by rewrite load64_store64_eq.
  - cbn [km set_km mem set_mem]. fold tf. intros x Hx. rewrite !store64_other by lia. done.
  - by eexists.
Qed.
End UserProps.

(** ** [forkret] *)
Section ForkretProps.
Context `{LAY : Layout} {D : Type} {SD : Sectors D}.
Context (me ksatp usertrap hartid uservec : Z) (r : uregs).
#[local] Instance fork_mem : UserMem (kern ()) := kern_mem me.
Implicit Types s : vfs D (kern ()).

Lemma forkret_later s :
  ∃ r' satp k', forkret me ksatp usertrap hartid uservec false r s = Ok (false, r', satp) (with_mem k' s) ∧
    in_user me ksatp usertrap hartid uservec (v_mem s) k' r' satp.
Proof.
  destruct (usertrapret_run me ksatp usertrap hartid uservec (v_mem s) r) as (epc & satp & k' & E & Hu).
  exists (user_regs uservec epc r), satp, k'. split; [|done].
  unfold forkret, whenM, um_op, zoom, mbindM, mretM. by rewrite E.
Qed.

Lemma forkret_no_volume s :
  disk_ok (dsk (v_fat s)) → take 5 (drop 82 (sector_of (dsk (v_fat s)) 0)) ≠ chars "FAT32" →
  forkret me ksatp usertrap hartid uservec true r s = Panic "not FAT32 volume".
Proof.
  intros Hd Hn. unfold forkret, whenM, mount, fat_op, zoom, mbindM. by rewrite not_fat32_panics.
Qed.

Lemma forkret_first s g l recs eoff :
  on_disk s g l recs eoff →
  ∃ r' satp s', forkret me ksatp usertrap hartid uservec true r s = Ok (false, r', satp) s' ∧
    mounted s' g l recs eoff ∧ e_ref (v_ent s' ROOT) = 1 ∧
    (∀ n, sector_of (dsk (v_fat s')) n = sector_of (dsk (v_fat s)) n) ∧
    let k := v_mem s in
    in_user me ksatp usertrap hartid uservec (set_procs (upd (procs k) me (set_cwd ROOT (procs k me))) k) (v_mem s') r' satp.
Proof.
  intros Hs. destruct (mount_run s g l recs eoff Hs) as (s1 & E1 & Hm & Emem & Hr & Hsec).
  set (k := v_mem s) in *. set (k1 := set_procs (upd (procs k) me (set_cwd ROOT (procs k me))) k).
  set (s2 := Vfs (v_fat s1) k1 (upd (v_ent s1) ROOT (set_e_ref 1 (v_ent s1 ROOT))) (v_nxt s1) (v_prv s1)).
  destruct (forkret_later s2) as (r' & satp & k' & E2 & Hu). exists r', satp, (with_mem k' s2). split; [|split; [|split; [|split]]].
  - rewrite <- E2. unfold forkret. cbn [whenM]. unfold mbindM at 1 2. rewrite E1.
    unfold mbindM at 1, um_op at 1, zoom at 1, get_proc, gets.
    rewrite (mbindM_Ok _ _ _ _ _ (ename_root _ _ _)). cbn [v_fat v_mem v_ent v_nxt v_prv].
    rewrite Hr, Emem. reflexivity.
  - apply mounted_mem. by apply mounted_ref.
  - cbn [v_ent with_mem s2]. rewrite upd_eq. done.
  - intros n. apply Hsec.
  - exact Hu.
Qed.

(** C16: the first process to leave the scheduler mounts the volume and every process
    reaches user mode. For any disk with a FAT32 volume of geometry [g] on it, whose root
    directory has the files [recs], [forkret] returns: the geometry read from the boot sector is
    [g], the root directory is open with exactly those files, the disk is as it was, the process has the root as its
    current directory and holds its one reference, and looking any name up in the root
    finds exactly the file of that name. The hart leaves with interrupts off and returns to user mode with
    them on, at the saved program counter, with the page table of the process, traps going to [uservec] and the four
    trapframe words set that bring the hart back; nothing else in memory changes. Any later [forkret] does only that
    last part, on any state; a disk without the FAT32 signature stops the kernel. *)
Theorem forkret_correct s g l recs eoff :
  on_disk s g l recs eoff →
  (∃ r' satp s', forkret me ksatp usertrap hartid uservec true r s = Ok (false, r', satp) s' ∧
    mounted s' g l recs eoff ∧ e_ref (v_ent s' ROOT) = 1 ∧
    (∀ n, sector_of (dsk (v_fat s')) n = sector_of (dsk (v_fat s)) n) ∧
    (let k := v_mem s in
     in_user me ksatp usertrap hartid uservec (set_procs (upd (procs k) me (set_cwd ROOT (procs k me))) k) (v_mem s') r' satp) ∧
    ∀ pid name, real_name name → same_name name (chars ".") = false → same_name name (chars "..") = false →
      ∃ s'', match lookup_rec name recs with
             | Some x => dirlookup pid ROOT name s' = Ok (1, None) s'' ∧ cached_file (v_ent s'' 1) x ROOT
             | None => dirlookup pid ROOT name s' = Ok (NULL, Some eoff) s''
             end) ∧
  (∀ s2, ∃ r' satp k', forkret me ksatp usertrap hartid uservec false r s2 = Ok (false, r', satp) (with_mem k' s2) ∧
    in_user me ksatp usertrap hartid uservec (v_mem s2) k' r' satp) ∧
  (∀ s2, disk_ok (dsk (v_fat s2)) → take 5 (drop 82 (sector_of (dsk (v_fat s2)) 0)) ≠ chars "FAT32" →
    forkret me ksatp usertrap hartid uservec true r s2 = Panic "not FAT32 volume").
Proof.
  intros Hs. split; [|split; [apply forkret_later|apply forkret_no_volume]].
  destruct (forkret_first s g l recs eoff Hs) as (r' & satp & s' & E & Hm & Hr & Hsec & Hu).
  exists r', satp, s'. split_and!; try done. intros pid name Hn H1 H2.
  destruct (dirlookup_miss pid s' ROOT 1 l name recs eoff (mt_root _ _ _ _ _ Hm) Hn H1 H2
    (mt_cold _ _ _ _ _ Hm name) (mt_free _ _ _ _ _ Hm)) as (s'' & _ & _ & _ & H); [done|done|].
  exists s''. destruct (lookup_rec name recs); naive_solver.
Qed.
End ForkretProps.

(** ** A disk with a boot sector, one FAT sector and a root directory of two files *)
Section Witness.
#[local] Existing Instance mem_sectors.
#[local] Existing Instance small_layout.
#[local] Instance boot_mem : UserMem (kern ()) := kern_mem 0.
Definition boot_dsk : Z → list Z := λ n,
  if n =? 0 then boot_sector demo_geo (replicate 11 1) (replicate 11 2) (replicate 4 3) (replicate 34 4) (replicate 425 5)
  else dir_dsk n.
Definition boot_vfs : vfs (Z → list Z) (kern ()) :=
  Vfs (Fatfs (Geo 0 0 0 0 0 0 0 0 0 0 0 0) (Fcache (λ _, 0) (λ _, []) (λ _, 0) (λ _, 0) 0 0) boot_dsk)
    (Kern (λ _, set_trapframe 8192 (set_pagetable 4096 (demo_proc RUNNING 0 0 1))) 2 0 0 (Kst (λ _, 0) 0 0 (λ _, 0)) 0 tt)
    (λ _, blank_ent) (λ _, 0) (λ _, 0).

Lemma boot_formatted : formatted boot_dsk demo_geo.
Proof.
  split.
  - intros n. unfold boot_dsk, dir_dsk. repeat case_match; vm_compute; reflexivity.
  - split; [split; [apply (demo_vol demo_fc)|done|done]|..]; vm_compute; intuition congruence.
  - by exists (replicate 11 1), (replicate 11 2), (replicate 4 3), (replicate 34 4), (replicate 425 5).
Qed.
Lemma boot_on_disk : on_disk boot_vfs demo_geo [2] demo_recs 160.
Proof.
  split; [done|]. split; [apply boot_formatted|]. split; [done| |apply NoDup_singleton|done|].
  - intros [|i] c; cbn [lookup list_lookup]; [|done]. intros [= <-]. split; [unfold data_clus; simpl; lia|]. vm_compute; done.
  - eapply listing_ext; [|exact demo_listing]. intros o. unfold slot_at, dir_fs. cbn [geo]. case_match; [|done].
    f_equal. apply run_ext. intros x _. unfold fbyte, dbyte, fpos. cbn [geo dir_fs dsk boot_vfs v_fat].
    set (c := nth _ [2] 0). change (byts_per_clus demo_geo) with 512.
    assert (c = 2 ∨ c = 0) as Hc.
    { unfold c. destruct (Z.to_nat _) as [|n]; [by left|]. right. by destruct n. }
    unfold boot_dsk. cbn [sector_of mem_sectors].
    rewrite (proj2 (Z.eqb_neq ((clus_base demo_geo c + x mod 512) / 512) 0)); [done|].
    destruct Hc as [->| ->]; unfold clus_base, clus_sec; simpl; Z.to_euclidean_division_equations; lia.
Qed.
Lemma forkret_correct_witness :
  ∃ r' satp s', forkret 0 7 9 0 2149580800 true (Uregs 258 0 0) boot_vfs = Ok (false, r', satp) s' ∧
    Z.testbit (u_sstatus r') 8 = false ∧ cwd (procs (v_mem s') 0) = ROOT ∧
    ∃ s'', dirlookup 1 ROOT (chars "KERNEL.BIN") s' = Ok (1, None) s'' ∧ file_size (v_ent s'' 1) = 40000.
Proof.
  destruct (forkret_correct 0 7 9 0 2149580800 (Uregs 258 0 0) boot_vfs demo_geo [2] demo_recs 160 boot_on_disk)
    as [(r' & satp & s' & E & _ & _ & _ & Hu & Hl) _].
  exists r', satp, s'. split; [exact E|]. destruct (Hl 1 (chars "KERNEL.BIN")) as (s'' & H); [done|reflexivity|reflexivity|].
  change (lookup_rec (chars "KERNEL.BIN") demo_recs) with (Some (Drec 128 1 (cstr (read_short_name zero_name 0 demo_sn2)) demo_sn2)) in H.
  split; [apply (iu_mode _ _ _ _ _ _ _ _ _ Hu)|]. split.
  - destruct (iu_rest _ _ _ _ _ _ _ _ _ Hu) as [m ->]. reflexivity.
  - destruct H as [Ed Hc]. exists s''. split; [exact Ed|]. rewrite (cf_size _ _ _ Hc). reflexivity.
Defined.
End Witness.
