(* ===== verification/Dumps.v ===== *)
(** * What the kernel prints about itself

    [vmprint] (kernel/vm.c), [trapframedump] (kernel/trap.c), [reg_info] (kernel/proc.c),
    [panic] and [backtrace] (kernel/printf.c), the trace of system calls and
    [sys_test_proc] (kernel/syscall.c), as the text they send to the console. *)
From stdpp Require Import prelude list strings.
From Stdlib Require Import ZArith Lia.
From S2P Require Import Prelude Printf Riscv Kalloc VM PageTable ProcDefs Console Syscall.
Open Scope Z_scope.

(** One call of [printf] with these arguments; [str] gives the string at an address. *)
Definition line (str : Z → list Z) (fmt : list Z) (args : list Z) : list Z := printf_loop str fmt (λ k, nth k args 0) 0.
Definition no_str : Z → list Z := λ _, [].
Definition say (fmt : string) (args : list Z) : list Z := line no_str (chars fmt ++ [10]) args.

(** ** Page tables *)

(** The valid entries of the table at [pt], with their indices. *)
Definition valid_entries (m : memory) (pt : Z) : list (Z * Z) :=
  filter (λ e, has e.2 PTE_V = true) (map (λ i, (i, load64 m (pt + 8 * i))) (seqZ 0 512)).

Definition vmprint (m : memory) (pagetable : Z) : list Z :=
  say "page table %p" [pagetable] ++
  concat (map (λ e, let pt2 := PTE2PA e.2 in
    say "..%d: pte %p pa %p" [e.1; e.2; pt2] ++
    concat (map (λ e2, let pt3 := PTE2PA e2.2 in
      say ".. ..%d: pte %p pa %p" [e2.1; e2.2; pt3] ++
      concat (map (λ e3, say ".. .. ..%d: pte %p pa %p" [e3.1; e3.2; PTE2PA e3.2])
        (valid_entries m pt3))) (valid_entries m pt2))) (valid_entries m pagetable)).

(** ** Registers *)

(** The fields of [struct trapframe] in the order they are printed. *)
Definition dumped : list (string * Z) :=
  [("a0", 112); ("a1", 120); ("a2", 128); ("a3", 136); ("a4", 144); ("a5", 152); ("a6", 160); ("a7", 168);
   ("t0", 72); ("t1", 80); ("t2", 88); ("t3", 256); ("t4", 264); ("t5", 272); ("t6", 280); ("s0", 96);
   ("s1", 104); ("s2", 176); ("s3", 184); ("s4", 192); ("s5", 200); ("s6", 208); ("s7", 216); ("s8", 224);
   ("s9", 232); ("s10", 240); ("s11", 248); ("ra", 40); ("sp", 48); ("gp", 56); ("tp", 64); ("epc", 24)]%string.
Definition dump_field (m : memory) (tf : Z) (i : nat) (f : string * Z) : list Z :=
  line no_str (chars f.1 ++ chars ": %p" ++ [if (i mod 4 =? 3)%nat then 10 else 9]) [load64 m (tf + f.2)].
Definition trapframedump (m : memory) (tf : Z) : list Z := concat (imap (dump_field m tf) dumped).

Record csrs := Csrs {
  c_sstatus : Z; c_sip : Z; c_sie : Z; c_sepc : Z; c_stvec : Z; c_satp : Z; c_scause : Z; c_stval : Z; c_sp : Z; c_tp : Z;
  c_ra : Z }.
Definition reg_info (c : csrs) : list Z :=
  say "register info: {" [] ++ say "sstatus: %p" [c_sstatus c] ++ say "sip: %p" [c_sip c] ++ say "sie: %p" [c_sie c] ++
  say "sepc: %p" [c_sepc c] ++ say "stvec: %p" [c_stvec c] ++ say "satp: %p" [c_satp c] ++ say "scause: %p" [c_scause c] ++
  say "stval: %p" [c_stval c] ++ say "sp: %p" [c_sp c] ++ say "tp: %p" [c_tp c] ++ say "ra: %p" [c_ra c] ++ say "}" [].

(** ** [panic] *)

(** The loop of [backtrace]; [None] when it has not left the page within [fuel] frames. *)
Fixpoint backtrace_loop (fuel : nat) (m : memory) (fp bottom : Z) : option (list Z) :=
  match fuel with
  | O => None
  | S fuel =>
      if fp <? bottom then
        let ra := load64 m (fp - 8) in
        app (say "%p" [u64 (ra - 4)]) <$> backtrace_loop fuel m (load64 m (fp - 16)) bottom
      else Some []
  end.
(** A frame takes sixteen bytes or more, so a page holds at most 256 of them. *)
Definition backtrace (m : memory) (fp : Z) : option (list Z) :=
  app (say "backtrace:" []) <$> backtrace_loop 257 m fp (PGROUNDUP fp).
(** [panic] passes its argument to [printf] as the format. *)
Definition panic_text (m : memory) (fp : Z) (s : list Z) : option (list Z) :=
  app (line no_str (chars "panic: ") [] ++ line no_str s [] ++ [10]) <$> backtrace m fp.

(** [panic] with the lock of [printf]: with [pr.locking] set and the lock already held by
    this hart ([mine]), the first [printf] calls [acquire], which panics in turn.  [None]
    when [fuel] nested panics have printed nothing. *)
Fixpoint panic_out (fuel : nat) (mine locking : bool) (m : memory) (fp : Z) (s : list Z) : option (list Z) :=
  match fuel with
  | O => None
  | S fuel => if locking && mine then panic_out fuel mine locking m fp (chars "acquire") else panic_text m fp s
  end.
(** [printf] with a null format, which panics under the lock. *)
Definition printf_null (fuel : nat) (locking : bool) (m : memory) (fp : Z) : option (list Z) :=
  panic_out fuel locking locking m fp (chars "null fmt").

(** ** System calls *)

Definition sysnames : list string :=
  ["fork"; "exit"; "wait"; "pipe"; "read"; "kill"; "exec"; "fstat"; "chdir"; "dup"; "getpid"; "sbrk"; "sleep"; "uptime";
   "open"; "write"; "remove"; "trace"; "sysinfo"; "mkdir"; "close"; "test_proc"; "dev"; "readdir"; "getcwd"; "rename";
   "setpriority"; "getpriority"; "shmget"; "shmat"; "shmdt"; "shmctl"; "getqueuelevel"; "gettimeslice"; "getprocs";
   "getrusage"; "signal"; "sigkill"; "settime"; "mmap"; "munmap"; "sandbox"]%string.
Definition sysname (num : Z) : list Z := from_option chars [] (sysnames !! Z.to_nat (num - 1)).

(** [(p->tmask & (1 << num)) != 0]; the shift of an [int] by 32 or more is undefined. *)
Definition traced (tmask num : Z) : option bool :=
  if num <? 32 then Some (negb (Z.land tmask (i32 (Z.shiftl 1 num)) =? 0)) else None.
Definition trace_line (p : proc) (num a0 : Z) : list Z :=
  line (λ _, sysname num) (chars "pid %d: %s -> %d" ++ [10]) [p_pid p; 1; a0].
Definition trace (p : proc) (num a0 : Z) : option (list Z) :=
  (λ b : bool, if b then trace_line p num a0 else []) <$> traced (tmask p) num.
Definition unknown_line (p : proc) (num : Z) : list Z :=
  line (λ _, until_nul (name p)) (chars "pid %d %s: unknown sys call %d" ++ [10]) [p_pid p; 1; num].

(** What [syscall] prints after call [num] returned [a0]. *)
Definition syscall_text (p : proc) (num a0 : Z) : option (list Z) :=
  if (0 <? num) && (num <? NSYSCALLS) then trace p num a0 else Some (unknown_line p num).

Section TestProc.
Context `{LAY : Layout} {F : Type}.
Definition sys_test_proc (me hartid : Z) : M (kern F) (list Z * Z) :=
  n <-- argint me 0 ;;
  p <-- get_proc me ;;
  mretM (say "hello world from proc %d, hart %d, arg %d" [p_pid p; hartid; n], 0).
End TestProc.

(** ** The dump of a page table lists what [walk] finds *)

(** The lines of [vmprint]: the indices that lead to an entry, and the entry. *)
Definition rows (m : memory) (root : Z) : list (list Z * Z) :=
  concat (map (λ e, ([e.1], e.2) ::
    concat (map (λ e2, ([e.1; e2.1], e2.2) ::
      map (λ e3, ([e.1; e2.1; e3.1], e3.2)) (valid_entries m (PTE2PA e2.2)))
      (valid_entries m (PTE2PA e.2)))) (valid_entries m root)).
Definition row_text (r : list Z * Z) : list Z :=
  line no_str (chars ".." ++ concat (replicate (length r.1 - 1) (chars " ..")) ++ chars "%d: pte %p pa %p" ++ [10])
    [List.last r.1 0; r.2; PTE2PA r.2].

Lemma elem_of_valid_entries m pt i v :
  (i, v) ∈ valid_entries m pt ↔ idx9 i ∧ v = load64 m (pt + 8 * i) ∧ has v PTE_V = true.
Proof.
  unfold valid_entries, idx9. rewrite list_elem_of_filter, list_elem_of_fmap. cbn [snd]. split.
  - intros [Hv (j & [= -> ->] & Hj%elem_of_seqZ)]. split_and!; [lia|lia|done|done].
  - intros (Hi & -> & Hv). split; [done|]. exists i. split; [done|]. apply elem_of_seqZ. lia.
Qed.

Lemma concat_map_app {A} (f : A → list Z) (l l' : list A) :
  concat (map f (l ++ l')) = concat (map f l) ++ concat (map f l').
Proof. by rewrite map_app, concat_app. Qed.
Lemma concat_map_concat {A B} (f : B → list Z) (g : A → list B) (l : list A) :
  concat (map f (concat (map g l))) = concat (map (λ a, concat (map f (g a))) l).
Proof. induction l as [|a l IH]; [done|]. cbn [map concat]. by rewrite concat_map_app, IH. Qed.

Lemma row_text_1 i v : row_text ([i], v) = say "..%d: pte %p pa %p" [i; v; PTE2PA v].
Proof. unfold row_text, say. cbn [fst snd List.last]. apply (f_equal (λ f, line no_str f _)). reflexivity. Qed.
Lemma row_text_2 i j v : row_text ([i; j], v) = say ".. ..%d: pte %p pa %p" [j; v; PTE2PA v].
Proof. unfold row_text, say. cbn [fst snd List.last]. apply (f_equal (λ f, line no_str f _)). reflexivity. Qed.
Lemma row_text_3 i j k v : row_text ([i; j; k], v) = say ".. .. ..%d: pte %p pa %p" [k; v; PTE2PA v].
Proof. unfold row_text, say. cbn [fst snd List.last]. apply (f_equal (λ f, line no_str f _)). reflexivity. Qed.

Lemma vmprint_rows m root :
  vmprint m root = say "page table %p" [root] ++ concat (map row_text (rows m root)).
Proof.
  unfold vmprint, rows. apply (f_equal (app _)). rewrite concat_map_concat. apply (f_equal (@concat Z)), map_ext. intros e.
  cbv zeta. cbn [map concat]. rewrite row_text_1. apply (f_equal (app _)).
  rewrite concat_map_concat. apply (f_equal (@concat Z)), map_ext. intros e2. cbn [map concat]. rewrite row_text_2.
  apply (f_equal (app _)). rewrite map_map. apply (f_equal (@concat Z)), map_ext. intros e3. by rewrite row_text_3.
Qed.

Lemma elem_of_rows3 m root i j k v :
  ([i; j; k], v) ∈ rows m root ↔
  ∃ a b, (i, a) ∈ valid_entries m root ∧ (j, b) ∈ valid_entries m (PTE2PA a) ∧ (k, v) ∈ valid_entries m (PTE2PA b).
Proof.
  unfold rows. rewrite list_elem_of_In, in_concat. split.
  - intros (l & (e & <- & He)%in_map_iff & [Hl|Hl]); [discriminate|].
    apply in_concat in Hl as (l & (e2 & <- & He2)%in_map_iff & [Hl|Hl]); [discriminate|].
    apply in_map_iff in Hl as (e3 & [= <- <- <- <-] & He3). destruct e as [? a], e2 as [? b], e3.
    exists a, b. by rewrite !list_elem_of_In.
  - intros (a & b & Ha & Hb & Hv). rewrite !list_elem_of_In in *. eexists. split; [by apply in_map_iff; exists (i, a)|].
    right. apply in_concat. eexists. split; [by apply in_map_iff; exists (j, b)|]. right. by apply in_map_iff; exists (k, v).
Qed.

(** [vmprint] prints one line per valid entry, and its third-level lines are exactly the
    mappings [walk] finds: an address is printed with entry [v] if and only if [v] is its
    valid entry. *)
Theorem vmprint_correct m root :
  vmprint m root = say "page table %p" [root] ++ concat (map row_text (rows m root)) ∧
  ∀ va v, 0 ≤ va < MAXVA →
    ([PX 2 va; PX 1 va; PX 0 va], v) ∈ rows m root ↔ v = pte_of m root va ∧ has v PTE_V = true.
Proof.
  split; [apply vmprint_rows|]. intros va v Hva. rewrite elem_of_rows3. setoid_rewrite elem_of_valid_entries.
  pose proof (PX_range 0 va). pose proof (PX_range 1 va). pose proof (PX_range 2 va).
  unfold pte_of, low_of. cbn [node_page]. unfold child. split.
  - intros (a & b & (_ & -> & Ha) & (_ & -> & Hb) & _ & -> & Hv). by rewrite Ha, Hb.
  - intros [-> Hv]. destruct (has (load64 m (root + 8 * PX 2 va)) PTE_V) eqn:Ea; [|discriminate Hv].
    destruct (has (load64 m (PTE2PA (load64 m (root + 8 * PX 2 va)) + 8 * PX 1 va)) PTE_V) eqn:Eb; [|discriminate Hv].
    eexists _, _. unfold idx9; split_and!; (done || lia).
Qed.

(** ** The dump of a trapframe has every user register once *)
Lemma trapframedump_complete : map snd dumped ≡ₚ TF_EPC :: map (λ i, 40 + 8 * i) (seqZ 0 31).
Proof. apply (bool_decide_eq_true_1 _). vm_compute. reflexivity. Qed.

(** ** The backtrace *)

(** The frames from [fp] up to the end of the stack page, by their return addresses: each
    saves the caller's frame pointer, which lies higher. *)
Inductive frames (m : memory) (bottom : Z) : Z → list Z → Prop :=
| fr_end fp : bottom ≤ fp → frames m bottom fp []
| fr_next fp ras : fp < bottom → fp + 16 ≤ load64 m (fp - 16) → frames m bottom (load64 m (fp - 16)) ras →
    frames m bottom fp (load64 m (fp - 8) :: ras).

Lemma frames_length m bottom fp ras : frames m bottom fp ras → 16 * Z.of_nat (length ras) ≤ Z.max 0 (bottom - fp + 15).
Proof. induction 1; cbn [length]; lia. Qed.

Lemma backtrace_loop_run m bottom fp ras fuel :
  frames m bottom fp ras → (length ras < fuel)%nat →
  backtrace_loop fuel m fp bottom = Some (concat (map (λ ra, say "%p" [u64 (ra - 4)]) ras)).
Proof.
  intros Hf. revert fuel. induction Hf as [fp Hle|fp ras Hlt Hstep Hf IH]; intros [|fuel] Hl; cbn [length] in Hl; try lia;
    cbn [backtrace_loop map concat].
  - by rewrite (proj2 (Z.ltb_ge fp bottom)).
  - rewrite (proj2 (Z.ltb_lt fp bottom)) by done. cbv zeta. by rewrite IH by lia.
Qed.

(** On a stack page whose frames are linked upwards, [backtrace] ends and prints the call
    site of every frame, innermost first. *)
Theorem backtrace_correct m fp ras :
  0 ≤ fp → fp + 4096 < 2 ^ 64 → frames m (PGROUNDUP fp) fp ras →
  backtrace m fp = Some (say "backtrace:" [] ++ concat (map (λ ra, say "%p" [u64 (ra - 4)]) ras)).
Proof.
  intros H0 H1 Hf. unfold backtrace. rewrite (backtrace_loop_run _ _ _ ras); [done|done|].
  pose proof (frames_length _ _ _ _ Hf) as Hl. rewrite PGROUNDUP_eq in Hl by lia.
  unfold PGSIZE in Hl. Z.to_euclidean_division_equations. lia.
Qed.

(** Two frames: one that called from 4100 and, at the top of the page, one from 5000. *)
Lemma backtrace_correct_witness :
  ∃ m, backtrace m 8160 = Some (chars "backtrace:" ++ [10] ++ chars "0x0000000000001000" ++ [10] ++ chars "0x0000000000001384" ++ [10]).
Proof.
  set (m := store64 (store64 (store64 (store64 (λ _, 0) 8152 4100) 8144 8176) 8168 5000) 8160 8192).
  exists m. rewrite (backtrace_correct m 8160 [4100; 5000]); [vm_compute; reflexivity|lia|lia|].
  assert (load64 m (8160 - 8) = 4100 ∧ load64 m (8160 - 16) = 8176 ∧ load64 m (8176 - 8) = 5000 ∧ load64 m (8176 - 16) = 8192 ∧
    PGROUNDUP 8160 = 8192) as (E1 & E2 & E3 & E4 & ->) by (vm_compute; done).
  rewrite <- E1. apply fr_next; [lia|lia|]. rewrite E2, <- E3. apply fr_next; [lia|lia|]. rewrite E4. apply fr_end. lia.
Defined.

(** ** Tracing *)

Lemma land_sign t : -2 ^ 31 ≤ t < 2 ^ 31 → (Z.land t (- 2 ^ 31) =? 0) = negb (Z.testbit t 31).
Proof.
  intros Ht. change (- 2 ^ 31) with (Z.lnot (Z.ones 31)). rewrite <- Z.ldiff_land, Z.ldiff_ones_r, Z.shiftl_mul_pow2, Z.shiftr_div_pow2 by lia.
  rewrite Z.testbit_eqb by lia. destruct (decide (0 ≤ t)).
  - by rewrite (Z.div_small t) by lia.
  - assert (t / 2 ^ 31 = -1) as -> by (symmetry; apply (Z.div_unique _ _ _ (t + 2 ^ 31)); lia). done.
Qed.

(** A traced call is one whose bit is set in the mask, for the calls the mask has a bit
    for; the calls above 31 have none. *)
Theorem trace_correct (p : proc) num a0 :
  -2 ^ 31 ≤ tmask p < 2 ^ 31 → 0 < num →
  trace p num a0 = if num <? 32 then Some (if Z.testbit (tmask p) num then trace_line p num a0 else []) else None.
Proof.
  intros Ht Hn. unfold trace, traced. destruct (Z.ltb_spec num 32) as [Hlt|]; [|done]. cbn [fmap option_fmap option_map].
  f_equal. rewrite Z.shiftl_mul_pow2, Z.mul_1_l by lia. destruct (decide (num = 31)) as [->|Hne].
  - change (i32 (2 ^ 31)) with (- 2 ^ 31). rewrite land_sign by done. by rewrite negb_involutive.
  - rewrite i32_small; [|split; [pose proof (Z.pow_nonneg 2 num); lia|apply Z.pow_lt_mono_r; lia]].
    pose proof (has_testbit (tmask p) num ltac:(lia)) as H. unfold has in H. by rewrite H.
Qed.
Lemma trace_correct_witness :
  ∀ p, tmask p = 32 → p_pid p = 3 → trace p 5 9 = Some (chars "pid 3: read -> 9" ++ [10]).
Proof.
  intros p E1 E2. rewrite trace_correct by (rewrite ?E1; lia). rewrite E1. unfold trace_line. rewrite E2. vm_compute. reflexivity.
Defined.

(** Every call has a name. *)
Lemma sysnames_complete : Z.of_nat (length sysnames) = NSYSCALLS - 1.
Proof. reflexivity. Qed.

(** ** Panics under the lock of [printf] *)

(** [panic] leaves [pr.locking] set, so a panic of the hart that is inside [printf] (a null
    format) panics again in [acquire], for ever, and prints nothing; before [printfinit] it
    prints its message. *)
Theorem null_format_is_silent m fp :
  (∀ fuel, printf_null fuel true m fp = None) ∧ printf_null 1 false m fp = panic_text m fp (chars "null fmt").
Proof.
  split; [|done]. intros fuel. unfold printf_null. generalize (chars "null fmt"). induction fuel as [|fuel IH]; intros s; [done|].
  cbn [panic_out andb]. apply IH.
Qed.
