(* ===== verification/Commands.v ===== *)
(** * Commands (xv6-user/cat.c, echo.c, grep.c, wc.c, rm.c, mkdir.c, kill.c, sleep.c, rtc.c, init.c)

    The commands from [main] to [exit], over the world their system calls act on: the
    files that can be opened, the unread bytes behind each descriptor, what has been written to each
    descriptor, and the other calls made.  A [read] delivers as much as the world likes, at
    least one byte while there are any.  The result of a command is its exit status; [None] is a loop that has
    run out of [fuel], which the theorems show not to happen. *)
From stdpp Require Import prelude list strings.
From Stdlib Require Import ZArith Lia.
From S2P Require Import Prelude Printf Calendar Grep UserProgs.
Open Scope Z_scope.

Inductive call := Remove (path : list Z) | Mkdir (path : list Z) | Kill (pid : Z).

Record world := World {
  files : list Z → option (list Z);   (* the contents of a path that can be opened *)
  fds : Z → option (list Z);          (* the unread bytes of an open descriptor *)
  out : Z → list Z;                   (* what was written to a descriptor *)
  calls : list call;                  (* the other calls, oldest first *)
  allow : call → bool;                (* whether such a call succeeds *)
  wish : nat → nat;                   (* how much the n-th read delivers *)
  reads : nat;
  uptime : Z }.

(** A command: exit status on the left, result on the right. *)
Definition P (A : Type) : Type := world → option (world * (Z + A)).
Definition retP {A} (a : A) : P A := λ w, Some (w, inr a).
Definition exit_ {A} (code : Z) : P A := λ w, Some (w, inl code).
Definition bindP {A B} (c : P A) (k : A → P B) : P B := λ w,
  match c w with
  | Some (w, inr a) => k a w
  | Some (w, inl code) => Some (w, inl code)
  | None => None
  end.
Notation "x <~ c ; k" := (bindP c (λ x, k)) (at level 100, c at next level, right associativity).
Notation "c ;~ k" := (bindP c (λ _, k)) (at level 100, right associativity).

(** ** System calls *)
Definition set_fds (f : Z → option (list Z)) (w : world) : world := World (files w) f (out w) (calls w) (allow w) (wish w) (reads w) (uptime w).
Definition lowest_fd (f : Z → option (list Z)) : Z := default (-1) (head (filter (λ i, f i = None) (seqZ 0 16))).
Definition open (path : list Z) : P Z := λ w,
  match files w path with
  | Some data => let fd := lowest_fd (fds w) in
      if fd <? 0 then Some (w, inr (-1)) else Some (set_fds (upd (fds w) fd (Some data)) w, inr fd)
  | None => Some (w, inr (-1))
  end.
Definition close (fd : Z) : P unit := λ w, Some (set_fds (upd (fds w) fd None) w, inr tt).
Definition read (fd : Z) (n : nat) : P (Z * list Z) := λ w,
  match fds w fd with
  | None => Some (w, inr (-1, []))
  | Some data =>
      let k := read_len (wish w (reads w)) n (length data) in
      Some (World (files w) (upd (fds w) fd (Some (drop k data))) (out w) (calls w) (allow w) (wish w) (S (reads w)) (uptime w),
            inr (Z.of_nat k, take k data))
  end.
Definition write (fd : Z) (bs : list Z) : P Z := λ w,
  match fds w fd with
  | None => Some (w, inr (-1))
  | Some _ => Some (World (files w) (fds w) (upd (out w) fd (out w fd ++ bs)) (calls w) (allow w) (wish w) (reads w) (uptime w),
                    inr (Z.of_nat (length bs)))
  end.
Definition other (c : call) : P Z := λ w,
  Some (World (files w) (fds w) (out w) (calls w ++ [c]) (allow w) (wish w) (reads w) (uptime w), inr (if allow w c then 0 else -1)).
Definition get_uptime : P Z := λ w, Some (w, inr (uptime w)).
Definition sleep_ (n : Z) : P unit := λ w,
  Some (World (files w) (fds w) (out w) (calls w) (allow w) (wish w) (reads w) (uptime w + n), inr tt).
(** [fprintf] with strings and numbers as arguments: argument [i] of kind [%s] is string [i + 1] of [strs]. *)
Definition fprintf (fd : Z) (fmt : list Z) (strs : list (list Z)) (args : list Z) : P unit :=
  write fd (uprintf (λ a, nth (Z.to_nat (a - 1)) strs []) fmt (λ k, nth k args 0)) ;~ retP tt.

(** ** cat, echo *)
Fixpoint cat (fuel : nat) (fd : Z) : P unit :=
  match fuel with
  | O => λ _, None
  | S fuel =>
      r <~ read fd 512 ;
      if 0 <? r.1 then
        n <~ write 1 r.2 ;
        if negb (n =? r.1) then fprintf 2 (chars "cat: write error" ++ [10]) [] [] ;~ exit_ 1
        else cat fuel fd
      else if r.1 <? 0 then fprintf 2 (chars "cat: read error" ++ [10]) [] [] ;~ exit_ 1
      else retP tt
  end.
Fixpoint each_file (complaint : list Z → P unit) (use : Z → list Z → P unit) (args : list (list Z)) : P unit :=
  match args with
  | [] => retP tt
  | a :: args =>
      fd <~ open a ;
      if fd <? 0 then complaint a ;~ exit_ 1
      else use fd a ;~ close fd ;~ each_file complaint use args
  end.
Definition cat_main (fuel : nat) (argv : list (list Z)) : P unit :=
  match argv with
  | _ :: _ :: _ =>
      each_file (λ a, fprintf 2 (chars "cat: cannot open %s" ++ [10]) [a] [1]) (λ fd _, cat fuel fd) (tail argv) ;~ exit_ 0
  | _ => cat fuel 0 ;~ exit_ 0
  end.

Fixpoint echo_args (args : list (list Z)) : P unit :=
  match args with
  | [] => retP tt
  | a :: args => write 1 a ;~ write 1 (match args with [] => [10] | _ => [32] end) ;~ echo_args args
  end.
Definition echo_main (argv : list (list Z)) : P unit := echo_args (tail argv) ;~ exit_ 0.

(** ** grep, wc *)

(** [grep] on what is left behind the descriptor; a failing [read] ends the loop. *)
Definition grep_fd (re : list Z) (fd : Z) : P unit := λ w,
  match fds w fd with
  | None => Some (w, inr tt)
  | Some data =>
      match grep re (λ i, wish w (reads w + i)%nat) data with
      | None => None
      | Some hits =>
          (write 1 hits ;~ retP tt)
            (World (files w) (upd (fds w) fd (Some [])) (out w) (calls w) (allow w) (wish w) (reads w + S (length data))%nat (uptime w))
      end
  end.
Definition grep_main (argv : list (list Z)) : P unit :=
  match argv with
  | _ :: re :: _ :: _ =>
      each_file (λ a, fprintf 1 (chars "grep: cannot open %s" ++ [10]) [a] [1]) (λ fd _, grep_fd re fd) (drop 2 argv) ;~ exit_ 0
  | [_; re] => grep_fd re 0 ;~ exit_ 0
  | _ => fprintf 2 (chars "usage: grep pattern [file ...]" ++ [10]) [] [] ;~ exit_ 1
  end.

Fixpoint wc_blocks (fuel : nat) (fd : Z) (bs : list (list Z)) : P (list (list Z)) :=
  match fuel with
  | O => λ _, None
  | S fuel =>
      r <~ read fd 512 ;
      if 0 <? r.1 then wc_blocks fuel fd (bs ++ [r.2])
      else if r.1 <? 0 then fprintf 1 (chars "wc: read error" ++ [10]) [] [] ;~ exit_ 1
      else retP bs
  end.
Definition wc_line (s : counts) (name : list Z) : P unit :=
  fprintf 1 (chars "%d" ++ [9] ++ chars "%d" ++ [9] ++ chars "%d" ++ [9] ++ chars "%s" ++ [10]) [name]
    [c_lines s; c_words s; c_chars s; 1].
Definition wc_fd (fuel : nat) (fd : Z) (name : list Z) : P unit := bs <~ wc_blocks fuel fd [] ; wc_line (wc bs) name.
Definition wc_main (fuel : nat) (argv : list (list Z)) : P unit :=
  match argv with
  | _ :: _ :: _ =>
      fprintf 1 (chars "LINE" ++ [9] ++ chars "WORD" ++ [9] ++ chars "BYTE" ++ [9] ++ chars "FILE" ++ [10]) [] [] ;~
      each_file (λ a, fprintf 1 (chars "wc: cannot open %s" ++ [10]) [a] [1]) (wc_fd fuel) (tail argv) ;~ exit_ 0
  | _ => wc_fd fuel 0 [] ;~ exit_ 0
  end.

(** ** rm, mkdir, kill, sleep *)
Fixpoint rm_args (args : list (list Z)) : P unit :=
  match args with
  | [] => retP tt
  | a :: args =>
      r <~ other (Remove a) ;
      (if r <? 0 then fprintf 2 (chars "rm: %s failed to delete" ++ [10]) [a] [1] else retP tt) ;~ rm_args args
  end.
Definition rm_main (argv : list (list Z)) : P unit :=
  if (length argv <? 2)%nat then fprintf 2 (chars "Usage: rm files..." ++ [10]) [] [] ;~ exit_ 1
  else rm_args (tail argv) ;~ exit_ 0.
Fixpoint mkdir_args (args : list (list Z)) : P unit :=
  match args with
  | [] => retP tt
  | a :: args =>
      r <~ other (Mkdir a) ;
      if r <? 0 then fprintf 2 (chars "mkdir: %s failed to create" ++ [10]) [a] [1] else mkdir_args args
  end.
Definition mkdir_main (argv : list (list Z)) : P unit :=
  if (length argv <? 2)%nat then fprintf 2 (chars "Usage: mkdir files..." ++ [10]) [] [] ;~ exit_ 1
  else mkdir_args (tail argv) ;~ exit_ 0.
Fixpoint kill_args (args : list (list Z)) : P unit :=
  match args with [] => retP tt | a :: args => other (Kill (atoi a)) ;~ kill_args args end.
Definition kill_main (argv : list (list Z)) : P unit :=
  if (length argv <? 2)%nat then fprintf 2 (chars "usage: kill pid..." ++ [10]) [] [] ;~ exit_ 1
  else kill_args (tail argv) ;~ exit_ 0.
Definition sleep_main (argv : list (list Z)) : P unit :=
  match argv with
  | _ :: a :: _ =>
      let time := atoi a in
      if time =? 0 then
        fprintf 2 (chars "Usage: sleep TIME" ++ [10] ++ chars "TIME should be an integer larger than 0." ++ [10]) [] [] ;~ exit_ 1
      else sleep_ time ;~ exit_ 0
  | _ => fprintf 2 (chars "Usage: sleep TIME" ++ [10]) [] [] ;~ exit_ 1
  end.

(** ** rtc *)

(** [get_current_time]: [start] is the time the build injects, [elapsed] what [uptime] returns. *)
Definition get_current_time (start : rtc_time) (elapsed : Z) : rtc_time :=
  let s := i32 (sec start + elapsed) in
  let '(s, mi) := carry (Z.to_nat s) 60 s (min start) in
  let '(mi, h) := carry (Z.to_nat mi) 60 mi (hour start) in
  let '(h, d) := carry (Z.to_nat h) 24 h (day start) in
  let '(y, m, d) := month_loop (Z.to_nat d) (year start) (month start) d in
  Rtc y m d h mi s.
Definition time_format : list Z := chars "%04d-%02d-%02d %02d:%02d:%02d" ++ [10].
Definition print_current_time (start : rtc_time) : P unit :=
  u <~ get_uptime ;
  let t := get_current_time start (i32 u) in
  fprintf 1 time_format [] [year t; month t; day t; hour t; min t; sec t].
Definition uprint (fmt : list Z) (args : list Z) : P unit := fprintf 1 fmt [] args.
Definition rtc_main (start : rtc_time) : P unit :=
  uprint (chars "Real Time Clock Test" ++ [10]) [] ;~
  uprint (chars "===================" ++ [10]) [] ;~
  uprint (chars "Initial time: ") [] ;~
  print_current_time start ;~
  uprint ([10] ++ chars "Sleeping for 5 seconds..." ++ [10]) [] ;~
  sleep_ 5 ;~
  uprint ([10] ++ chars "Time after sleep: ") [] ;~
  print_current_time start ;~
  uprint ([10] ++ chars "Sleeping for 3 more seconds..." ++ [10]) [] ;~
  sleep_ 3 ;~
  uprint ([10] ++ chars "Final time: ") [] ;~
  print_current_time start ;~
  up_time <~ get_uptime ;
  uprint ([10] ++ chars "System uptime: %d seconds" ++ [10]) [i32 up_time] ;~
  exit_ 0.

(** ** init *)

(** Opening the console is [dev] and the two [dup]s.  Where [main] of init is: about to fork, in the child, waiting for the shell [pid], done. *)
Inductive init_pc := Starting | Child | Waiting (pid : Z) | Done (code : Z).
Inductive init_event := OpenConsole | Say (msg : list Z) | ExecSh.
(** The answer [r] of the call [init] is waiting for: [fork] at the top of the loop, [wait] while a shell
    runs, [exec] (which returns only to fail) in the child. *)
Definition init_step (pc : init_pc) (r : Z) : init_pc * list init_event :=
  match pc with
  | Starting =>
      if r <? 0 then (Done 1, [Say (chars "init: fork failed" ++ [10])])
      else if r =? 0 then (Child, [ExecSh])
      else (Waiting r, [])
  | Child => (Done 1, [Say (chars "init: exec sh failed" ++ [10])])
  | Waiting pid =>
      if r =? pid then (Starting, [Say (chars "init: starting sh" ++ [10])])
      else if r <? 0 then (Done 1, [Say (chars "init: wait returned an error" ++ [10])])
      else (Waiting pid, [])
  | Done code => (Done code, [])
  end.
Definition init_begin : init_pc * list init_event := (Starting, [OpenConsole; Say (chars "init: starting sh" ++ [10])]).
Fixpoint init_run (st : init_pc * list init_event) (answers : list Z) : init_pc * list init_event :=
  match answers with
  | [] => st
  | r :: answers => let '(pc, ev) := init_step st.1 r in init_run (pc, st.2 ++ ev) answers
  end.

(** ** Runs that only write to the standard output *)
Definition stdout_open (w : world) : Prop := is_Some (fds w 1).
(** [w'] is [w] with [o] written to the standard output, apart from what the descriptors have left. *)
Record did (w w' : world) (o : list Z) : Prop := {
  di_out : out w' 1 = out w 1 ++ o;
  di_outs : ∀ i, i ≠ 1 → out w' i = out w i;
  di_files : ∀ p, files w' p = files w p;
  di_calls : calls w' = calls w;
  di_time : uptime w' = uptime w }.
Lemma did_refl w : did w w [].
Proof. split; try done. by rewrite app_nil_r. Qed.
Lemma did_trans w1 w2 w3 o1 o2 : did w1 w2 o1 → did w2 w3 o2 → did w1 w3 (o1 ++ o2).
Proof.
  intros [A1 A2 A3 A4 A5] [B1 B2 B3 B4 B5]. split.
  - by rewrite B1, A1, app_assoc.
  - intros i Hi. by rewrite B2, A2.
  - intros p. by rewrite B3, A3.
  - congruence.
  - congruence.
Qed.

Lemma bindP_inr {A B} (c : P A) (k : A → P B) w w' a : c w = Some (w', inr a) → bindP c k w = k a w'.
Proof. unfold bindP. by intros ->. Qed.

Lemma write_run bs w : stdout_open w →
  ∃ w', write 1 bs w = Some (w', inr (Z.of_nat (length bs))) ∧ did w w' bs ∧ (∀ i, fds w' i = fds w i).
Proof.
  intros [x Hx]. unfold write. rewrite Hx. eexists. split; [done|]. split; [|done]. split; try done; cbn [out fds files calls uptime set_fds].
  intros i Hi. by rewrite upd_ne.
Qed.
Lemma fprintf_run fmt strs args w : stdout_open w →
  ∃ w', fprintf 1 fmt strs args w = Some (w', inr tt) ∧
    did w w' (uprintf (λ a, nth (Z.to_nat (a - 1)) strs []) fmt (λ k, nth k args 0)) ∧ (∀ i, fds w' i = fds w i).
Proof.
  intros Hw. destruct (write_run (uprintf (λ a, nth (Z.to_nat (a - 1)) strs []) fmt (λ k, nth k args 0)) w Hw) as (w' & E & Hd & Hf).
  exists w'. split; [|done]. unfold fprintf. by rewrite (bindP_inr _ _ _ _ _ E).
Qed.
Lemma stdout_same w w' : stdout_open w → (∀ i, fds w' i = fds w i) → stdout_open w'.
Proof. unfold stdout_open. by intros H ->. Qed.

(** ** Reading a file to its end *)
Lemma read_run w fd data : fds w fd = Some data →
  ∃ n w', read fd 512 w = Some (w', inr (Z.of_nat n, take n data)) ∧ did w w' [] ∧
    fds w' fd = Some (drop n data) ∧ (∀ i, i ≠ fd → fds w' i = fds w i) ∧
    (n ≤ length data)%nat ∧ (data ≠ [] → 0 < n)%nat.
Proof.
  intros Hd. unfold read. rewrite Hd. eexists _, _. split; [reflexivity|]. split; [split; try done; by rewrite app_nil_r|]. cbn [out fds files calls uptime set_fds].
  rewrite upd_eq. split; [done|]. split; [intros i Hi; by rewrite upd_ne|]. unfold read_len. split; [lia|].
  intros Hne. destruct data; [done|]. simpl. lia.
Qed.

(** The standard output and the rest of the descriptors while one of them is read. *)
Definition reads_up (w w' : world) (fd : Z) (o : list Z) : Prop := did w w' o ∧ (∀ i, i ≠ fd → fds w' i = fds w i).

Lemma cat_run fuel w fd data :
  fds w fd = Some data → fd ≠ 1 → stdout_open w → (length data < fuel)%nat →
  ∃ w', cat fuel fd w = Some (w', inr tt) ∧ reads_up w w' fd data.
Proof.
  revert w data. induction fuel as [|fuel IH]; intros w data Hd Hfd Hw Hl; [lia|]. cbn [cat].
  destruct (read_run w fd data Hd) as (n & w1 & E1 & D1 & F1 & G1 & Hn & Hn0).
  rewrite (bindP_inr _ _ _ _ _ E1). cbn [fst snd]. destruct data as [|c data].
  { assert (n = 0%nat) as -> by (simpl in Hn; lia). exists w1. by split. }
  specialize (Hn0 ltac:(done)). rewrite (proj2 (Z.ltb_lt 0 (Z.of_nat n))) by lia.
  assert (stdout_open w1) as Hw1 by (unfold stdout_open; by rewrite G1).
  destruct (write_run (take n (c :: data)) w1 Hw1) as (w2 & E2 & D2 & F2). rewrite (bindP_inr _ _ _ _ _ E2).
  rewrite length_take_le, Z.eqb_refl by done. cbn [negb].
  destruct (IH w2 (drop n (c :: data))) as (w3 & E3 & D3 & F3); [by rewrite F2|done|by apply (stdout_same w1)| |].
  { rewrite length_drop. simpl in *. lia. }
  exists w3. split; [done|]. split.
  - rewrite <- (take_drop n (c :: data)). apply (did_trans _ w2); [|done]. by apply (did_trans w w1 w2 []).
  - intros i Hi. by rewrite F3, F2, G1.
Qed.

Lemma wc_blocks_run fuel w fd data bs :
  fds w fd = Some data → (length data < fuel)%nat →
  ∃ w' bs', wc_blocks fuel fd bs w = Some (w', inr (bs ++ bs')) ∧ concat bs' = data ∧ reads_up w w' fd [].
Proof.
  revert w data bs. induction fuel as [|fuel IH]; intros w data bs Hd Hl; [lia|]. cbn [wc_blocks].
  destruct (read_run w fd data Hd) as (n & w1 & E1 & D1 & F1 & G1 & Hn & Hn0).
  rewrite (bindP_inr _ _ _ _ _ E1). cbn [fst snd]. destruct data as [|c data].
  { assert (n = 0%nat) as -> by (simpl in Hn; lia). exists w1, []. by rewrite app_nil_r. }
  specialize (Hn0 ltac:(done)). rewrite (proj2 (Z.ltb_lt 0 (Z.of_nat n))) by lia.
  destruct (IH w1 (drop n (c :: data)) (bs ++ [take n (c :: data)])) as (w2 & bs' & E2 & C2 & D2 & F2); [done| |].
  { rewrite length_drop. simpl in *. lia. }
  exists w2, (take n (c :: data) :: bs'). split; [by rewrite E2, <- app_assoc|]. split; [|split].
  - cbn [concat]. by rewrite C2, take_drop.
  - by apply (did_trans w w1 w2 []).
  - intros i Hi. by rewrite F2, G1.
Qed.

(** ** A command over its file arguments *)
Lemma lowest_fd_closed f : 0 ≤ lowest_fd f → f (lowest_fd f) = None.
Proof.
  unfold lowest_fd. destruct (filter (λ i, f i = None) (seqZ 0 16)) as [|i l] eqn:E; simpl; [lia|]. intros _.
  assert (i ∈ filter (λ i, f i = None) (seqZ 0 16)) as [Hi _]%list_elem_of_filter; [rewrite E; left|done].
Qed.
Lemma lowest_fd_ext f g : (∀ i, f i = g i) → lowest_fd f = lowest_fd g.
Proof. intros H. unfold lowest_fd. f_equal. f_equal. apply list_filter_iff. intros i. by rewrite H. Qed.

(** What [use] makes of a file depends only on its contents. *)
Definition renders (use : Z → list Z → P unit) (f : list Z → list Z → list Z) (a data : list Z) : Prop :=
  ∀ w fd, fds w fd = Some data → fd ≠ 1 → stdout_open w →
    ∃ w', use fd a w = Some (w', inr tt) ∧ reads_up w w' fd (f a data).
Definition content (w : world) (a : list Z) : list Z := default [] (files w a).

Lemma each_file_run complaint use f args w :
  stdout_open w → 0 ≤ lowest_fd (fds w) →
  (∀ a, a ∈ args → is_Some (files w a) ∧ renders use f a (content w a)) →
  ∃ w', each_file complaint use args w = Some (w', inr tt) ∧ did w w' (concat (map (λ a, f a (content w a)) args)) ∧
    ∀ i, fds w' i = fds w i.
Proof.
  revert w. induction args as [|a args IH]; intros w Hw Hfree Ha; cbn [each_file map concat].
  { exists w. split; [done|]. split; [apply did_refl|done]. }
  destruct (Ha a ltac:(left)) as [[data Hdata] Hr]. unfold content in Hr. rewrite Hdata in Hr. cbn [default] in Hr.
  pose proof (lowest_fd_closed _ Hfree) as Hnone. set (fd := lowest_fd (fds w)) in *.
  assert (fd ≠ 1) as Hne by (intros E; rewrite E in Hnone; destruct Hw as [x Hx]; congruence).
  set (w1 := set_fds (upd (fds w) fd (Some data)) w).
  assert (open a w = Some (w1, inr fd)) as Eo.
  { unfold open. rewrite Hdata. fold fd. by rewrite (proj2 (Z.ltb_ge fd 0)). }
  rewrite (bindP_inr _ _ _ _ _ Eo), (proj2 (Z.ltb_ge fd 0)) by done.
  destruct (Hr w1 fd) as (w2 & E2 & D2 & F2); [unfold w1; cbn [out fds files calls uptime set_fds]; by rewrite upd_eq|done|unfold stdout_open, w1; cbn [out fds files calls uptime set_fds]; by rewrite upd_ne|].
  rewrite (bindP_inr _ _ _ _ _ E2). unfold close at 1. erewrite bindP_inr by reflexivity.
  set (w3 := set_fds (upd (fds w2) fd None) w2).
  assert (∀ i, fds w3 i = fds w i) as F3.
  { intros i. unfold w3. cbn [out fds files calls uptime set_fds]. destruct (decide (i = fd)) as [->|Hi]; [by rewrite upd_eq|].
    rewrite upd_ne, F2 by done. unfold w1. cbn [out fds files calls uptime set_fds]. by rewrite upd_ne. }
  assert (did w w3 (f a data)) as D3 by (destruct D2; by split).
  destruct (IH w3) as (w4 & E4 & D4 & F4); [by apply (stdout_same w)|by rewrite (lowest_fd_ext _ (fds w))| |].
  { intros b Hb. unfold content. rewrite (di_files _ _ _ D3). apply Ha. by right. }
  exists w4. split; [done|]. split; [|intros i; by rewrite F4, F3].
  assert (concat (map (λ b, f b (content w3 b)) args) = concat (map (λ b, f b (content w b)) args)) as Ec.
  { f_equal. apply map_ext. intros b. unfold content. by rewrite (di_files _ _ _ D3). }
  unfold content at 1. rewrite Hdata, <- Ec. by apply (did_trans w w3 w4).
Qed.

Lemma grep_renders re a ls last :
  Forall short_line ls → short_line last → renders (λ fd _, grep_fd re fd) (λ _ _, hits re ls) a (text_of ls last).
Proof.
  intros Hls Hlast w fd Hd Hne Hw. unfold grep_fd. rewrite Hd. unfold grep.
  rewrite (grep_loop_spec _ _ _ _ _ _ ls last) by (done || simpl; lia).
  set (w1 := World _ _ _ _ _ _ _ _). destruct (write_run (hits re ls) w1) as (w2 & E & D & F).
  { unfold stdout_open, w1. cbn [fds]. by rewrite upd_ne. }
  exists w2. split; [by rewrite (bindP_inr _ _ _ _ _ E)|]. split; [destruct D; by split|].
  intros i Hi. rewrite F. unfold w1. cbn [fds]. by rewrite upd_ne.
Qed.

Definition wc_text (s : counts) (name : list Z) : list Z :=
  uprintf (λ a, nth (Z.to_nat (a - 1)) [name] [])
    (chars "%d" ++ [9] ++ chars "%d" ++ [9] ++ chars "%d" ++ [9] ++ chars "%s" ++ [10])
    (λ k, nth k [c_lines s; c_words s; c_chars s; 1] 0).
Lemma wc_concat bs : wc bs = foldl wc_byte (Counts 0 0 0 false) (concat bs).
Proof.
  unfold wc. generalize (Counts 0 0 0 false). induction bs as [|b bs IH]; intros s; [done|]. cbn [foldl concat].
  by rewrite foldl_app, IH.
Qed.
Lemma wc_renders fuel a data : (length data < fuel)%nat → renders (wc_fd fuel) (λ a data, wc_text (wc [data]) a) a data.
Proof.
  intros Hl w fd Hd Hne Hw. unfold wc_fd.
  destruct (wc_blocks_run fuel w fd data [] Hd Hl) as (w1 & bs & E1 & C1 & D1 & F1). rewrite (bindP_inr _ _ _ _ _ E1).
  unfold wc_line. destruct (fprintf_run (chars "%d" ++ [9] ++ chars "%d" ++ [9] ++ chars "%d" ++ [9] ++ chars "%s" ++ [10]) [a]
    [c_lines (wc bs); c_words (wc bs); c_chars (wc bs); 1] w1) as (w2 & E2 & D2 & F2); [unfold stdout_open; by rewrite F1|].
  exists w2. cbn [app]. split; [exact E2|]. split; [|intros i Hi; by rewrite F2, F1].
  rewrite (wc_concat [data]). cbn [concat]. rewrite app_nil_r, <- C1, <- wc_concat.
  by apply (did_trans w w1 w2 []).
Qed.

(** [cat], [grep] and [wc] over any list of files that can be opened, with any division of the files into
    [read]s: they exit with status 0, close every descriptor they open and write, file by file in the order of
    the arguments, the contents, the matching lines, and the line of counts. *)
Theorem file_commands_correct fuel prog args w :
  args ≠ [] → stdout_open w → 0 ≤ lowest_fd (fds w) →
  (∀ a, a ∈ args → is_Some (files w a) ∧ (length (content w a) < fuel)%nat) →
  (∃ w', cat_main fuel (prog :: args) w = Some (w', inl 0) ∧ did w w' (concat (map (content w) args)) ∧ ∀ i, fds w' i = fds w i) ∧
  (∀ re ls, (∀ a, a ∈ args → ∃ last, Forall short_line (ls a) ∧ short_line last ∧ content w a = text_of (ls a) last) →
     ∃ w', grep_main (prog :: re :: args) w = Some (w', inl 0) ∧ did w w' (concat (map (λ a, hits re (ls a)) args)) ∧
       ∀ i, fds w' i = fds w i) ∧
  (∃ w' head, wc_main fuel (prog :: args) w = Some (w', inl 0) ∧
     did w w' (head ++ concat (map (λ a, wc_text (wc [content w a]) a) args)) ∧ ∀ i, fds w' i = fds w i).
Proof.
  intros Hne Hw Hfree Ha. destruct args as [|a0 args0] eqn:Eargs; [done|]. rewrite <- Eargs in *. split_and!.
  - destruct (each_file_run (λ a, fprintf 2 (chars "cat: cannot open %s" ++ [10]) [a] [1]) (λ fd _, cat fuel fd) (λ _ d, d) args w Hw Hfree)
      as (w' & E & D & F).
    { intros a Hin. destruct (Ha a Hin) as [H1 H2]. split; [done|]. intros w1 fd H3 H4 H5. by apply cat_run. }
    exists w'. split; [|done]. rewrite Eargs in *. unfold cat_main. cbn [tail]. by rewrite (bindP_inr _ _ _ _ _ E).
  - intros re ls Hls.
    destruct (each_file_run (λ a, fprintf 1 (chars "grep: cannot open %s" ++ [10]) [a] [1]) (λ fd _, grep_fd re fd)
      (λ a _, hits re (ls a)) args w Hw Hfree) as (w' & E & D & F).
    { intros a Hin. destruct (Hls a Hin) as (last & H1 & H2 & ->). split; [by apply Ha|]. by apply (grep_renders re a). }
    exists w'. split; [|done]. rewrite Eargs in *. unfold grep_main. cbn [drop]. by rewrite (bindP_inr _ _ _ _ _ E).
  - destruct (fprintf_run (chars "LINE" ++ [9] ++ chars "WORD" ++ [9] ++ chars "BYTE" ++ [9] ++ chars "FILE" ++ [10]) [] [] w Hw)
      as (w1 & E1 & D1 & F1).
    destruct (each_file_run (λ a, fprintf 1 (chars "wc: cannot open %s" ++ [10]) [a] [1]) (wc_fd fuel)
      (λ a d, wc_text (wc [d]) a) args w1) as (w' & E & D & F); [by apply (stdout_same w)|by rewrite (lowest_fd_ext _ (fds w))| |].
    { intros a Hin. unfold content. rewrite (di_files _ _ _ D1). destruct (Ha a Hin) as [H1 H2]. split; [done|]. by apply wc_renders. }
    exists w'. eexists. split; [|split; [|intros i; by rewrite F, F1]].
    + rewrite Eargs in *. unfold wc_main. cbn [tail]. rewrite (bindP_inr _ _ _ _ _ E1), (bindP_inr _ _ _ _ _ E). done.
    + assert (map (λ a, wc_text (wc [content w a]) a) args = map (λ a, wc_text (wc [content w1 a]) a) args) as ->.
      { apply map_ext. intros a. unfold content. by rewrite (di_files _ _ _ D1). }
      by apply (did_trans w w1 w').
Qed.

(** A small world: two files, descriptors 0 to 2 open, reads of three bytes. *)
Definition demo_world : world :=
  World (λ p, if bool_decide (p = chars "a") then Some (chars "hello" ++ [10]) else if bool_decide (p = chars "b") then Some (chars "world") else None)
    (λ i, if in_range 0 3 i then Some [] else None) (λ _, []) [] (λ _, true) (λ _, 3%nat) 0 0.
Lemma file_commands_correct_witness :
  (∃ w', cat_main 100 [chars "cat"; chars "a"; chars "b"] demo_world = Some (w', inl 0) ∧ out w' 1 = chars "hello" ++ [10] ++ chars "world") ∧
  (∃ w', grep_main [chars "grep"; chars "l*o"; chars "a"] demo_world = Some (w', inl 0) ∧ out w' 1 = chars "hello" ++ [10]).
Proof.
  split.
  - destruct (file_commands_correct 100 (chars "cat") [chars "a"; chars "b"] demo_world) as [(w' & E & D & _) _];
      [done|by eexists|vm_compute; discriminate| |].
    { intros a [->|[->|[]%elem_of_nil]%elem_of_cons]%elem_of_cons; (split; [by eexists|vm_compute; lia]). }
    exists w'. split; [exact E|]. apply (di_out _ _ _ D).
  - destruct (file_commands_correct 100 (chars "grep") [chars "a"] demo_world) as (_ & Hg & _);
      [done|by eexists|vm_compute; discriminate| |].
    { intros a [->|[]%elem_of_nil]%elem_of_cons. split; [by eexists|vm_compute; lia]. }
    destruct (Hg (chars "l*o") (λ _, [chars "hello"])) as (w' & E & D & _).
    { intros a [->|[]%elem_of_nil]%elem_of_cons. exists []. split; [|split; [|reflexivity]].
      - constructor; [|constructor]. split; [split; apply (bool_decide_eq_true_1 _); vm_compute; reflexivity|vm_compute; lia].
      - split; [|simpl; lia]. split; apply not_elem_of_nil. }
    exists w'. split; [exact E|]. rewrite (di_out _ _ _ D). vm_compute. reflexivity.
Defined.

(** ** Errors and the calls that are made *)
Lemma each_file_app complaint use l l' w :
  each_file complaint use (l ++ l') w = (each_file complaint use l ;~ each_file complaint use l') w.
Proof.
  revert w. induction l as [|a l IH]; intros w; [done|]. cbn [app each_file]. unfold bindP in *.
  destruct (open a w) as [[w1 [code|fd]]|]; [done| |done]. destruct (fd <? 0).
  - by destruct (complaint a w1) as [[? [|]]|].
  - destruct (use fd a w1) as [[w2 [|]]|]; [done| |done]. apply IH.
Qed.

Lemma write_err_run bs w : is_Some (fds w 2) →
  ∃ w', write 2 bs w = Some (w', inr (Z.of_nat (length bs))) ∧ out w' 2 = out w 2 ++ bs ∧ out w' 1 = out w 1 ∧ calls w' = calls w ∧
    (∀ i, fds w' i = fds w i) ∧ (∀ c, allow w' c = allow w c).
Proof.
  intros [x Hx]. unfold write. rewrite Hx. eexists. split; [done|]. cbn [out calls fds allow]. by rewrite upd_eq, upd_ne.
Qed.

(** [cat] stops at the first file it cannot open: what comes before it is written, the name is
    reported on the standard error, nothing after it is looked at, and the status is 1. *)
Theorem cat_missing_file fuel prog args a rest w :
  stdout_open w → is_Some (fds w 2) → 0 ≤ lowest_fd (fds w) → files w a = None →
  (∀ b, b ∈ args → is_Some (files w b) ∧ (length (content w b) < fuel)%nat) →
  ∃ w', cat_main fuel (prog :: args ++ a :: rest) w = Some (w', inl 1) ∧
    out w' 1 = out w 1 ++ concat (map (content w) args) ∧ out w' 2 = out w 2 ++ chars "cat: cannot open " ++ a ++ [10].
Proof.
  intros Hw [e He] Hfree Hnone Ha.
  destruct (each_file_run (λ a, fprintf 2 (chars "cat: cannot open %s" ++ [10]) [a] [1]) (λ fd _, cat fuel fd) (λ _ d, d) args w Hw Hfree)
    as (w1 & E & D & F).
  { intros b Hin. destruct (Ha b Hin) as [H1 H2]. split; [done|]. intros w1 fd H3 H4 H5. by apply cat_run. }
  destruct (write_err_run (chars "cat: cannot open " ++ a ++ [10]) w1) as (w2 & E2 & O2 & O1 & _); [rewrite F; by eexists|].
  exists w2. split; [|split; [by rewrite O1, (di_out _ _ _ D)|by rewrite O2, (di_outs _ _ _ D)]].
  assert (each_file (λ a, fprintf 2 (chars "cat: cannot open %s" ++ [10]) [a] [1]) (λ fd _, cat fuel fd) (a :: rest) w1 = Some (w2, inl 1)) as Er.
  { cbn [each_file]. unfold open. unfold bindP at 1. rewrite (di_files _ _ _ D), Hnone. change (-1 <? 0) with true. cbv iota.
    unfold fprintf, bindP. change (uprintf _ _ _) with (chars "cat: cannot open " ++ a ++ [10]). by rewrite E2. }
  assert (each_file (λ a, fprintf 2 (chars "cat: cannot open %s" ++ [10]) [a] [1]) (λ fd _, cat fuel fd) (args ++ a :: rest) w = Some (w2, inl 1)) as Et.
  { rewrite each_file_app, (bindP_inr _ _ _ _ _ E). exact Er. }
  unfold cat_main. destruct args; cbn [app tail] in *; unfold bindP; by rewrite Et.
Qed.

Lemma fprintf_err_run fmt strs args w : is_Some (fds w 2) →
  ∃ w', fprintf 2 fmt strs args w = Some (w', inr tt) ∧ calls w' = calls w ∧ is_Some (fds w' 2) ∧ (∀ c, allow w' c = allow w c).
Proof.
  intros Hw. destruct (write_err_run (uprintf (λ a, nth (Z.to_nat (a - 1)) strs []) fmt (λ k, nth k args 0)) w Hw)
    as (w' & E & _ & _ & Hc & Hf & Ha). exists w'. split; [unfold fprintf; by rewrite (bindP_inr _ _ _ _ _ E)|]. by rewrite Hf.
Qed.

(** The arguments up to the first one that is refused, which is included. *)
Fixpoint up_to_refused (ok : list Z → bool) (args : list (list Z)) : list (list Z) :=
  match args with [] => [] | a :: args => a :: (if ok a then up_to_refused ok args else []) end.

Lemma rm_args_run args w : is_Some (fds w 2) →
  ∃ w', rm_args args w = Some (w', inr tt) ∧ calls w' = calls w ++ map Remove args.
Proof.
  revert w. induction args as [|a args IH]; intros w Hw; cbn [rm_args map]; [exists w; by rewrite app_nil_r|].
  unfold other. unfold bindP at 1. set (w1 := World _ _ _ _ _ _ _ _).
  assert (∃ w2, (if (if allow w (Remove a) then 0 else -1) <? 0 then fprintf 2 (chars "rm: %s failed to delete" ++ [10]) [a] [1] else retP tt) w1 =
    Some (w2, inr tt) ∧ calls w2 = calls w1 ∧ is_Some (fds w2 2)) as (w2 & E2 & C2 & Hw2).
  { destruct (allow w (Remove a)); [by exists w1|].
    destruct (fprintf_err_run (chars "rm: %s failed to delete" ++ [10]) [a] [1] w1 Hw) as (w2 & E & ? & ? & _). by exists w2. }
  rewrite (bindP_inr _ _ _ _ _ E2). destruct (IH w2 Hw2) as (w3 & E3 & C3). exists w3. split; [done|].
  rewrite C3, C2. cbn [calls w1]. by rewrite <- app_assoc.
Qed.
Lemma mkdir_args_run args w : is_Some (fds w 2) →
  ∃ w', mkdir_args args w = Some (w', inr tt) ∧
    calls w' = calls w ++ map Mkdir (up_to_refused (λ a, allow w (Mkdir a)) args).
Proof.
  revert w. induction args as [|a args IH]; intros w Hw; cbn [mkdir_args up_to_refused map]; [exists w; by rewrite app_nil_r|].
  unfold other. unfold bindP at 1. set (w1 := World _ _ _ _ _ _ _ _). destruct (allow w (Mkdir a)).
  - destruct (IH w1 Hw) as (w2 & E2 & C2). exists w2. split; [done|]. rewrite C2. cbn [calls allow w1]. by rewrite <- app_assoc.
  - destruct (fprintf_err_run (chars "mkdir: %s failed to create" ++ [10]) [a] [1] w1 Hw) as (w2 & E & Hc & _).
    exists w2. split; [done|]. by rewrite Hc.
Qed.

(** [rm] tries every argument, [mkdir] stops at the first that fails; both exit with status 0 whether
    or not a call failed. *)
Theorem rm_and_mkdir_calls prog args w :
  args ≠ [] → is_Some (fds w 2) →
  (∃ w', rm_main (prog :: args) w = Some (w', inl 0) ∧ calls w' = calls w ++ map Remove args) ∧
  (∃ w', mkdir_main (prog :: args) w = Some (w', inl 0) ∧
     calls w' = calls w ++ map Mkdir (up_to_refused (λ a, allow w (Mkdir a)) args)).
Proof.
  intros Hne Hw. destruct args as [|a args]; [done|]. unfold rm_main, mkdir_main. cbn [length Nat.ltb Nat.leb tail]. split.
  - destruct (rm_args_run (a :: args) w Hw) as (w' & E & C). exists w'. by rewrite (bindP_inr _ _ _ _ _ E).
  - destruct (mkdir_args_run (a :: args) w Hw) as (w' & E & C). exists w'. by rewrite (bindP_inr _ _ _ _ _ E).
Qed.

(** ** init never gives up *)
Definition init_alive (pc : init_pc) : Prop := match pc with Starting => True | Waiting pid => 0 < pid | _ => False end.

Lemma init_run_app st l l' : init_run st (l ++ l') = init_run (init_run st l) l'.
Proof. revert st. induction l as [|r l IH]; intros st; [done|]. cbn [app init_run]. destruct (init_step st.1 r). apply IH. Qed.
Lemma init_run_alive st l : init_alive st.1 → Forall (λ r, 0 < r) l → init_alive (init_run st l).1.
Proof.
  intros Hs Hl. revert st Hs. induction Hl as [|r l Hr _ IH]; intros [pc ev] Hs; [done|]. cbn [init_run fst snd].
  destruct pc as [| |pid|]; try done; cbn [init_step].
  - rewrite (proj2 (Z.ltb_ge r 0)), (proj2 (Z.eqb_neq r 0)) by lia. by apply IH.
  - destruct (r =? pid); [by apply IH|]. rewrite (proj2 (Z.ltb_ge r 0)) by lia. by apply IH.
Qed.
Lemma init_wait_others pid ev l : Forall (λ r, 0 < r ∧ r ≠ pid) l → init_run (Waiting pid, ev) l = (Waiting pid, ev).
Proof.
  induction 1 as [|r l [Hr Hne] _ IH]; [done|]. cbn [init_run init_step fst snd].
  rewrite (proj2 (Z.eqb_neq r pid)), (proj2 (Z.ltb_ge r 0)) by (lia || done). by rewrite app_nil_r.
Qed.

(** While no call fails, [init] never exits; orphans it reaps change nothing, and when the shell it started is
    reaped it announces and starts the next one. *)
Theorem init_restarts_shell answers :
  Forall (λ r, 0 < r) answers →
  init_alive (init_run init_begin answers).1 ∧
  ∀ pid ev orphans next, (init_run init_begin answers) = (Waiting pid, ev) →
    Forall (λ r, 0 < r ∧ r ≠ pid) orphans → 0 < next →
    init_run init_begin (answers ++ orphans ++ [pid; next]) = (Waiting next, ev ++ [Say (chars "init: starting sh" ++ [10])]).
Proof.
  intros Hl. split; [by apply init_run_alive|]. intros pid ev orphans next E Ho Hn.
  rewrite !init_run_app, E, init_wait_others by done. cbn [init_run init_step fst snd].
  rewrite Z.eqb_refl. cbn [init_step fst snd]. rewrite (proj2 (Z.ltb_ge next 0)), (proj2 (Z.eqb_neq next 0)) by lia. by rewrite app_nil_r.
Qed.

(** ** rtc shows the kernel's calendar *)
Definition four (n : Z) : list Z := two (n / 100) ++ two (n mod 100).
Definition stamp (t : rtc_time) : list Z :=
  four (year t) ++ [45] ++ two (month t) ++ [45] ++ two (day t) ++ [32] ++ two (hour t) ++ [58] ++ two (min t) ++ [58] ++ two (sec t) ++ [10].

Lemma print_two n : 0 ≤ n < 100 → uprintint (i32 n) 10 true 2 true = two n.
Proof.
  intros Hn. pose proof (forall_seqZ (λ i, bool_decide (uprintint (i32 i) 10 true 2 true = two i)) 100) as H.
  specialize (H ltac:(vm_compute; reflexivity) n Hn). by apply bool_decide_eq_true_1 in H.
Qed.
Lemma print_four n : 0 ≤ n < 10000 → uprintint (i32 n) 10 true 4 true = four n.
Proof.
  intros Hn. pose proof (forall_seqZ (λ i, bool_decide (uprintint (i32 i) 10 true 4 true = four i)) 10000) as H.
  specialize (H ltac:(vm_compute; reflexivity) n Hn). by apply bool_decide_eq_true_1 in H.
Qed.

Lemma stamp_printed t : valid_date t → year t < 10000 →
  uprintf (λ a, nth (Z.to_nat (a - 1)) [] []) time_format (λ k, nth k [year t; month t; day t; hour t; min t; sec t] 0) = stamp t.
Proof.
  intros (Hy & Hm & Hd & Hh & Hmi & Hs) Hlt. pose proof (month_days_bounds (year t) (month t) Hm).
  unfold stamp. rewrite <- print_four, <- !print_two by lia. reflexivity.
Qed.

(** A command that started at time [u] writes [o] and is at time [u'] at the end, going on or exiting. *)
Definition shows {A} (c : P A) (u u' : Z) (o : list Z) (res : Z + A) : Prop :=
  ∀ w, stdout_open w → uptime w = u →
    ∃ w', c w = Some (w', res) ∧ out w' 1 = out w 1 ++ o ∧ uptime w' = u' ∧ stdout_open w'.
Lemma shows_seq {A B} (c : P A) (k : A → P B) u u1 u2 o1 o2 a res :
  shows c u u1 o1 (inr a) → shows (k a) u1 u2 o2 res → shows (bindP c k) u u2 (o1 ++ o2) res.
Proof.
  intros Hc Hk w Hw Hu. destruct (Hc w Hw Hu) as (w1 & E1 & O1 & U1 & S1). destruct (Hk w1 S1 U1) as (w2 & E2 & O2 & U2 & S2).
  exists w2. rewrite (bindP_inr _ _ _ _ _ E1). split_and!; try done. by rewrite O2, O1, app_assoc.
Qed.
Lemma shows_fprintf fmt strs args u :
  shows (fprintf 1 fmt strs args) u u (uprintf (λ a, nth (Z.to_nat (a - 1)) strs []) fmt (λ k, nth k args 0)) (inr tt).
Proof.
  intros w Hw Hu. destruct (fprintf_run fmt strs args w Hw) as (w' & E & D & F). exists w'.
  split_and!; [done|apply D|by rewrite (di_time _ _ _ D)|by apply (stdout_same w)].
Qed.
Lemma shows_sleep n u : shows (sleep_ n) u (u + n) [] (inr tt).
Proof. intros w Hw <-. eexists. split; [done|]. by rewrite app_nil_r. Qed.
Lemma shows_uptime u : shows get_uptime u u [] (inr u).
Proof. intros w Hw <-. eexists. split; [done|]. by rewrite app_nil_r. Qed.
Lemma shows_exit {A} code u : shows (exit_ code : P A) u u [] (inl code).
Proof. intros w Hw <-. eexists. split; [done|]. by rewrite app_nil_r. Qed.

Lemma get_current_time_kernel start e : get_current_time start e = rtc_get_time start (e * CLOCK_FREQUENCY).
Proof. unfold rtc_get_time, get_current_time_s. by rewrite Z.div_mul. Qed.

(** The time [u] units after [start], printable. *)
Definition readable_time (start : rtc_time) (u : Z) : Prop :=
  0 ≤ u < 2 ^ 31 ∧ start_ok start u ∧ year (get_current_time start u) < 10000.
Lemma shows_time start u : readable_time start u →
  shows (print_current_time start) u u (stamp (rtc_get_time start (u * CLOCK_FREQUENCY))) (inr tt).
Proof.
  intros (Hu & Hs & Hy). unfold print_current_time. rewrite <- (app_nil_l (stamp _)).
  eapply shows_seq; [apply shows_uptime|]. cbv zeta. rewrite i32_small by lia.
  rewrite <- get_current_time_kernel. rewrite <- stamp_printed; [apply shows_fprintf| |done].
  rewrite get_current_time_kernel. apply rtc_get_time_spec. unfold get_current_time_s. by rewrite Z.div_mul.
Qed.

Lemma uprintf_plain str l ap : Forall (λ c, c ≠ 37) l → uprintf str l ap = l.
Proof.
  intros Hl. unfold uprintf. enough (∀ k n z, vprintf str l ap k false n z = l) as H by apply H.
  induction l as [|c l IH]; intros k n z; [done|]. apply Forall_cons in Hl as [Hc Hl]. cbn [vprintf negb].
  rewrite (proj2 (Z.eqb_neq c 37)) by done. by rewrite IH.
Qed.
Lemma shows_text l u : Forall (λ c, c ≠ 37) l → shows (uprint l []) u u l (inr tt).
Proof. intros Hl. rewrite <- (uprintf_plain (λ a, nth (Z.to_nat (a - 1)) [] []) l (λ k, nth k [] 0) Hl) at 2. apply shows_fprintf. Qed.

(** What [rtc] prints when its clock shows [t0], [t1] and [t2]. *)
Definition rtc_text (t0 t1 t2 : rtc_time) (up : Z) : list Z :=
  (chars "Real Time Clock Test" ++ [10]) ++ (chars "===================" ++ [10]) ++ chars "Initial time: " ++ stamp t0 ++
  ([10] ++ chars "Sleeping for 5 seconds..." ++ [10]) ++ ([10] ++ chars "Time after sleep: ") ++ stamp t1 ++
  ([10] ++ chars "Sleeping for 3 more seconds..." ++ [10]) ++ ([10] ++ chars "Final time: ") ++ stamp t2 ++
  uprintf (λ a, nth (Z.to_nat (a - 1)) [] []) ([10] ++ chars "System uptime: %d seconds" ++ [10]) (λ k, nth k [up] 0).

Ltac text := apply shows_text; apply (bool_decide_eq_true_1 _); vm_compute; reflexivity.
Lemma rtc_shows start u :
  readable_time start u → readable_time start (u + 5) → readable_time start (u + 5 + 3) →
  let at_ u := rtc_get_time start (u * CLOCK_FREQUENCY) in
  shows (rtc_main start) u (u + 5 + 3) (rtc_text (at_ u) (at_ (u + 5)) (at_ (u + 5 + 3)) (i32 (u + 5 + 3))) (inl 0).
Proof.
  intros H0 H5 H8 at_. unfold rtc_main, rtc_text.
  do 3 (eapply shows_seq; [text|]). eapply shows_seq; [by apply shows_time|]. eapply shows_seq; [text|].
  rewrite <- (app_nil_l (([10] ++ chars "Time after sleep: ") ++ _)). eapply shows_seq; [apply shows_sleep|].
  eapply shows_seq; [text|]. eapply shows_seq; [by apply shows_time|]. eapply shows_seq; [text|].
  rewrite <- (app_nil_l (([10] ++ chars "Final time: ") ++ _)). eapply shows_seq; [apply shows_sleep|].
  eapply shows_seq; [text|]. eapply shows_seq; [by apply shows_time|].
  rewrite <- (app_nil_l (uprintf _ _ _)). eapply shows_seq; [apply shows_uptime|].
  rewrite <- (app_nil_r (uprintf _ _ _)). eapply shows_seq; [apply shows_fprintf|apply shows_exit].
Qed.

(** [rtc] prints the calendar the kernel keeps, taken at its [uptime] (which the kernel counts in ticks): at
    the start, five and eight units later; each is a valid date, that many units after the start time. *)
Theorem rtc_correct start w :
  let u := uptime w in
  let at_ u := rtc_get_time start (u * CLOCK_FREQUENCY) in
  stdout_open w → readable_time start u → readable_time start (u + 5) → readable_time start (u + 5 + 3) →
  (∀ v, readable_time start v → valid_date (at_ v) ∧ secs_of (at_ v) = secs_of start + v) ∧
  ∃ w', rtc_main start w = Some (w', inl 0) ∧ uptime w' = u + 5 + 3 ∧
    out w' 1 = out w 1 ++ rtc_text (at_ u) (at_ (u + 5)) (at_ (u + 5 + 3)) (i32 (u + 5 + 3)).
Proof.
  intros u at_ Hw H0 H5 H8. split.
  - intros v (_ & Hs & _). pose proof (rtc_get_time_spec start (v * CLOCK_FREQUENCY)) as H.
    unfold get_current_time_s in H. rewrite Z.div_mul in H by done. by apply H.
  - destruct (rtc_shows start u H0 H5 H8 w Hw eq_refl) as (w' & E & O & U & _). by exists w'.
Qed.
Lemma rtc_correct_witness :
  ∃ w', rtc_main (Rtc 2027 12 31 23 59 54) demo_world = Some (w', inl 0) ∧ take 89 (out w' 1) =
    chars "Real Time Clock Test" ++ [10] ++ chars "===================" ++ [10] ++ chars "Initial time: 2027-12-31 23:59:54" ++ [10; 10] ++
    chars "Sleeping for ".
Proof.
  assert (∀ v, v ∈ [0; 5; 8] → readable_time (Rtc 2027 12 31 23 59 54) v) as Hr.
  { intros v Hv. assert (v = 0 ∨ v = 5 ∨ v = 8) as [->|[->| ->]] by (rewrite !elem_of_cons, elem_of_nil in Hv; tauto);
      (split; [vm_compute; intuition congruence|split; [split; vm_compute; intuition congruence|reflexivity]]). }
  destruct (rtc_correct (Rtc 2027 12 31 23 59 54) demo_world) as (_ & w' & E & _ & O);
    [by eexists|apply (Hr 0); left|apply (Hr 5); right; left|apply (Hr 8); right; right; left|].
  exists w'. split; [exact E|]. rewrite O. vm_compute. reflexivity.
Defined.
